(* ===== verification/_CoqProject ===== *)
-Q . S2P
Prelude.v
RbTree.v
RbTheorems.v
BuddyModel.v
BuddyInv.v
BuddyFree.v
BuddyAlloc.v
MemblockModel.v
MemblockRegions.v
MemblockRemove.v
MemblockIter.v
MemblockAlloc.v
MemblockTheorems.v
BootModel.v
BootFree.v
BuddyTheorems.v
SlobModel.v
SlobPage.v
SlobAlloc.v
SlobHeap.v
SlobGrow.v
SlobKmalloc.v
SlobKfree.v
SlobTheorems.v
ZoneModel.v
ZoneInit.v
ZoneLists.v
BootTheorems.v
VmaModel.v
VmaTree.v
VmaInv.v
VmaAdjust.v
VmaSpec.v
VmaUnmap.v
VmaGap.v
VmaMerge.v
VmaMap.v
VmaRemap.v
VmaLife.v
VmaTheorems.v
PgtModel.v
PgtTables.v
PgtRange.v
PgtCopy.v
PgtMove.v
PgtSpace.v
PgtTheorems.v
MemModel.v
MemFault.v
MemSpec.v
MemGup.v
MemNode.v
MemRequest.v
MemTheorems.v
UserModel.v
UserPopulate.v
UserCopy.v
UserTheorems.v
PcacheGeom.v
PcacheModel.v
PcacheSpec.v
PcacheSteps.v
PcacheInv.v
PcacheEvict.v
PcacheAlloc.v
PcacheFill.v
PcacheFault.v
PcacheUnmap.v
PcacheWp.v
PcacheFork.v
PcacheInit.v
PcacheUser.v
PcacheTheorems.v
SysModel.v
SysTheorems.v
