(* ===== verification/Prelude.v ===== *)
(** * LegoOS: a verification development

    LegoOS splits the hardware of a server into processor, memory and storage
    components that talk over a network.  A processor component has no memory of
    its own: it runs processes out of a large virtual cache, the _pcache_, that it
    fills from and flushes to a memory component, page by page; the memory component
    keeps the address space of each process, its page tables and its pages.  This
    development models the two managers at the heart of that split, the two joined by the
    messages that they exchange, and below them the balanced trees and the management of
    physical memory, from the map that the firmware reports to the page allocator.

    ** Parts

    - _Red-black trees_ (src/lib/rbtree.c, src/include/lego/rbtree.h).  RbTree.v has
      the model and its lemmas, RbTheorems.v the theorems.  A C position in a tree is
      a subtree with the zipper of its ancestors ([frame]s); the C loops that climb
      from a node are recursions on that zipper.  The augmented field of
      [RB_DECLARE_CALLBACKS] is a component of each node and its [rbcompute] a
      function argument; [propagate], [copy] and [rotate] are applied where the C code
      calls them.
    - _Virtual memory areas of the memory manager_ (src/managers/memory/vm/mmap.c,
      handle_mmap.c, handle_fork.c, src/include/memory/vm.h and mm.h).  VmaModel.v is
      the model: a [lego_mm] has the heap of live areas, the address-ordered list
      [mmap], the augmented tree [mm_rb] over the same areas (a tree of RbTree.v with
      [vma_compute_subtree_gap]), the counters, the reference counts of the files and
      the log of the calls into the page-table layer, in order.  The operations are
      [find_vma], [vma_merge], [__vma_adjust], [__split_vma], [do_munmap],
      [unmapped_area] and [unmapped_area_topdown], [mmap_region], [do_mmap], [do_brk],
      [expand_downwards], [move_vma], [copy_vma], [dup_lego_mmap], [exit_lego_mmap],
      and the request handlers [handle_p2m_mmap], [_munmap], [_brk], [_mremap] and
      [_msync].  VmaTree.v and VmaInv.v hold the invariant [wf]; VmaSpec.v the abstract
      address space ([page_at]: what backs an address, and with which flags), in
      which the operations are specified; VmaAdjust.v, VmaUnmap.v, VmaGap.v,
      VmaMerge.v, VmaMap.v, VmaRemap.v and VmaLife.v one group of operations each;
      VmaTheorems.v the theorems and their examples.
    - _Page tables of the memory manager_ (src/managers/memory/vm/pgtable.c,
      src/include/memory/vm-pgtable.h).  PgtModel.v has the four levels of tables, whose
      entries hold virtual addresses, the reference counts and contents of the pages,
      and the operations: allocation of tables, [lego_unmap_page_range],
      [lego_free_pgd_range], [lego_copy_page_range] and [lego_move_page_tables].  The
      loops of the four levels are one recursion, [walk], and their proofs one class of
      lemmas, [Level] with [LevelLaws] (PgtTables.v).  PgtRange.v, PgtCopy.v and
      PgtMove.v follow the operations; PgtSpace.v runs the calls that the operations on
      areas make ([pgt_log]) on the tables; PgtTheorems.v has the theorems.
    - _Requests of the memory manager_ (src/managers/memory/handle_pcache/fault.c,
      vm/fault.c, vm/gup.c, task.c, m2s_read_write.c, ramfs/core.c).  MemModel.v has the
      state [mem_node] (the hash table of tasks, their areas and page tables, the pages)
      and the handlers of the miss, zero-fill and flush requests with the faults, file
      reads and page lookups below them.  MemFault.v has the hash table and the
      fault, MemSpec.v what a process has at its node ([page_view]), MemGup.v
      [get_user_pages], MemNode.v the invariant [node_ok], MemRequest.v the handlers
      and how many pages are ever needed; MemTheorems.v the theorems.
    - _Copies to and from processes_ (src/managers/memory/vm/uaccess.c, vm/gup.c).
      UserModel.v has the copies between kernel buffers and the pages of a process, byte by
      byte, clearing, and the population of ranges; UserPopulate.v and UserCopy.v follow
      them, UserTheorems.v has the theorems.
    - _The pcache of the processor manager_ (src/managers/processor/pcache/,
      src/managers/processor/pgtable.c, src/include/processor/pcache*.h).
      PcacheGeom.v has the layout computed at boot and the address conversions;
      PcacheModel.v the state [pcache] (lines, sets, reverse mappings, eviction lists,
      the per-CPU piggyback slot, the emulated page tables, the contents of the lines
      and the memory component) and every operation on it: allocation, LRU eviction
      with the per-set eviction list, reverse mappings, write-back, fill, zero-fill,
      piggybacked flush, copy on write, unmapping, fork, exit, mremap, boot.
      PcacheSpec.v has the interfaces and the invariant [wf]; PcacheSteps.v, PcacheInv.v,
      PcacheEvict.v, PcacheAlloc.v, PcacheFill.v, PcacheFault.v,
      PcacheUnmap.v, PcacheWp.v, PcacheFork.v and PcacheInit.v follow
      the operations; PcacheUser.v has loads and stores of the processes and the flat
      memory that the whole implements; PcacheTheorems.v the theorems and examples.
    - _Early physical memory_ (src/mm/memblock.c, src/include/lego/memblock.h).
      MemblockModel.v has the two arrays of regions and the operations on them: adding and
      removing ranges, nodes, the search, trimming, the iterators over free memory with
      their packed index, and allocation from the top.  MemblockRegions.v has the
      invariant [type_ok] and adding, MemblockRemove.v splitting, removing and nodes,
      MemblockIter.v the iterators, MemblockAlloc.v allocation, the
      searches and trimming, MemblockTheorems.v the theorems.
    - _The page allocator_ (src/mm/page_alloc.c, src/include/lego/mm_zone.h, page-flags.h,
      gfp.h).  BuddyModel.v has the [struct page]s, the zones with their free lists, and the
      operations of the buddy allocator.  BuddyInv.v has the invariant [buddy_ok],
      BuddyFree.v freeing and merging, BuddyAlloc.v allocation and splitting,
      BuddyTheorems.v the theorems.
    - _The object allocator_ (src/mm/slob.c, src/include/lego/slab.h).  SlobModel.v has
      [kmalloc] and [kfree] over the page allocator: the free blocks of a slab page are
      linked through the bytes of the page, as in the code.  SlobPage.v has those
      links and the chains of blocks, SlobAlloc.v allocation and insertion within a page,
      SlobHeap.v the invariant [slob_ok] (a slab page is tiled by its free blocks and the
      objects), SlobGrow.v and SlobKmalloc.v allocation, SlobKfree.v freeing and whole pages,
      SlobTheorems.v the theorems.
    - _Memory initialisation_ (src/mm/page_alloc.c, memblock.c, sparse.c,
      src/arch/x86/mm/init.c).  BootModel.v has the hand-over of free memory from memblock to
      the page allocator, ZoneModel.v the sections, the extents and pages of the zones, the
      zonelists and [memory_init].  BootFree.v, ZoneInit.v and ZoneLists.v follow them;
      BootTheorems.v has the theorems.
    - _The two managers together_.  SysModel.v runs the pcache over the handlers of the
      memory nodes of a [cluster] and shows that these keep the contract that the pcache
      relies on; SysTheorems.v has the theorems of the whole.

    This file holds what they share: 64-bit words with their wrap-around, the error
    numbers, the hint database [lego], and lemmas on words, lists and maps.

    ** Interfaces

    The pcache uses the memory component through the class [MemoryNode] (PcacheModel.v:
    the miss, flush and combined requests), and its theorems assume of it [MemoryLaws]
    (PcacheSpec.v): a flush stores the page and nothing else, a miss is answered by the
    stored page or by a message shorter than a page, and changes nothing that a process
    has.  The laws speak of processes that their node knows and of user addresses
    ([served]).  SysModel.v has the instances: the handlers of MemModel.v obey the laws
    as long as they share no page
    ([cluster_laws]).  The examples of PcacheTheorems.v use a concrete flat memory instead.
    [Processes] says that the thread groups and the address spaces correspond.

    The operations on areas call the page-table layer; the calls are recorded in order in
    [pgt_log], and PgtSpace.v runs them ([run_calls]), so that the theorems on munmap, exit
    and fork speak of tables and pages.  What [move_page_tables] returns is an argument of
    the operations on areas ([moved]); PgtTheorems.v has what it does.  The operations that
    the [mmap] of a file installs are a field of the file ([lf_mmap]); file references are
    counted ([f_count]).

    Outside the sources or not modelled, and so arguments with stated laws: the page
    allocator of a node ([PageAlloc], MemModel.v: a page that it returns is aligned and not
    in use), the contents of the storage component and of the ram file ([Files]), whether a
    table page can be had ([pg_tables], a list of outcomes), and for the theorems of the
    whole that a node maps no page twice and has memory for the pages of the areas of its
    processes ([good], [EnoughMemory]).  The red-black trees are used by the address spaces through [RotationInvariant], the law
    that the recomputation of an augmented field must obey for the rotations to be right.

    ** What is shown

    - Red-black trees: insertion and erasure keep the sequence of elements, the colour
      and black-height rules and the augmented fields, without following a null
      pointer; both iterations and the postorder visit every node; the height is
      logarithmic.
    - Address spaces: every operation keeps the invariant and has exactly the stated
      effect on [page_at], with each error return characterised; the two searches for
      a free range return the lowest, respectively the highest, one and fail only if
      there is none; the loop of [mmap_region] ends; an mmap succeeds when there is
      room; fork copies the areas, exit releases every area and file reference.
    - Page tables: the calls of munmap and exit clear exactly the entries of the range,
      drop one reference of each page, and free every table that no area uses any more, none
      with an entry left; a fork shares every page
      with one more reference; mremap moves every entry, or those before the first table
      that could not be allocated.
    - Requests: a miss is answered with the page of the process and maps no other, a flush
      writes that page, which is what all that share it then have, and nothing else, and the
      errors are exactly those stated, when memory is short as well; [get_user_pages] returns the
      pages in order; the hash table of tasks is a finite map.
    - Copies: all of the bytes are written where they belong, seen by all that share the
      pages, and nowhere else, or none; what is written is what is read back; clearing stays within the process; population ends
      with every page of the range mapped unless memory is short.
    - The two together: from boot on, each process sees its own flat memory, initially the
      contents at its node, through the pcache, the messages and the handlers
      ([system_refines_memory]), and a load of a page that it has succeeds, for nodes that
      share no page and have memory for the pages of their processes.
    - The pcache: over any sequence of loads, stores, unmappings and forks of private
      writable areas from boot on, each process sees its own flat memory (a simulation,
      [trace_simulation]); a fault
      always returns and fails only for the two stated reasons; allocation evicts
      exactly the first evictable line of the LRU list and loses no dirty data; fork
      shares lines without a writable entry; exit and unmapping release the lines; the
      layout fits in the registered range and its conversions are inverse.
    - Early physical memory: the arrays implement maps from addresses to nodes and flags
      under any sequence of operations, with sorted, disjoint and minimal regions; the two
      iterators are the double loop over regions and gaps, and have every free address once;
      an allocation is the highest block that fits; the search ends.
    - The page allocator: an allocation takes an aligned block of free pages from the first
      zone that has one, and fails only if none has; the last reference of a block frees it,
      merged with its buddies, so that the free blocks of a zone are always the largest ones
      and a block that is allocated and freed leaves the lists as they were; no page is
      free and in use, and the counters are exact.
    - The object allocator: an object is aligned, within a page, apart from every other one
      and cleared on request; freeing merges its units with the free blocks next to them and
      gives the page back with its last object; an object that is freed again leaves every
      page as it was; only free memory is ever written; [kmalloc] panics only if there is no
      room.
    - Memory initialisation: after [memory_init] the free pages are exactly the frames of
      memory that are not reserved, each in a zone of the type of its address; the order of
      the nodes, nearest first, is computed in finitely many steps and the zonelists are
      complete and in the order of the nodes or of the zone types; an
      allocation is then granted whenever an allowed zone has a run of such frames.
    - Flaws of the code, as theorems about it: an eviction that does not complete leaves
      the piggyback slot set; a private area that is not writable at the fork stays
      shared and mapped writable; [vma_merge] ignores the flags and loses a file
      reference; the stack guard is not enforced; mremap onto an overlapping range
      destroys the mapping; a flush after a fork reaches the other process at the memory
      node; a fork does not reset the count of areas; and
      [expand_downwards] may return a value that it never set.

    ** Conventions, bounds and fuel

    An [unsigned long] is a [Z] in [0, 2^64), and every operation that can leave that
    range wraps.  The result [None] of an operation is a BUG, the use of a null pointer
    or a loop that does not end, so a theorem that gives [Some] excludes all three.

    Recursion is structural (on trees, zippers, lists and numbers of pages) except in
    the following.  [clear_old_maps], the loop of [mmap_region] and [do_brk], has fuel for
    one iteration, which is proved to be enough.  [alloc_loop] has the number of times
    that the clock test of [pcache_alloc] allows another try ([retries]): the theorems
    hold for any number from one.  [zap_one] and [move_one] have the number of times that
    they may find an entry changed under them ([tries]): for [zap_one] the theorems hold
    for any number, also for none.  [move_loop] has fuel for the number of pages of the
    range, [populate_loop] too, and [gup_retry] for two faults on a page, all proved to be enough.  [ample j]
    says that [j] more pages can be had, and each request takes at most two; MemRequest.v
    bounds what all requests together can take by the pages that the areas of the processes
    have, with what their stacks may grow over.  [isolate_loop], [search_loop], [trim_loop]
    and [mem_ranges] of memblock have fuel for the number of regions, [free_pages_from] for
    the number of frames, [node_order] for the number of nodes with memory,
    [page_alloc_loop] and [find_gap] for the units of a page, all proved to be enough.  Allocations may fail: of an area by the class
    [Kmalloc] (VmaModel.v), whose only law is that a new area is not one in use; in the
    pcache as a list of outcomes says ([kz]).

    The operations are those of one CPU.  Where the pcache drops a lock and waits, or
    where its source says that another CPU may take a reference, the argument [others]
    is what the other CPUs do at that moment; the theorems on the invariant take
    [quiet], the flaw of the piggyback slot another user.  Locks are otherwise not
    represented, and statistics, traces and profiling have no counterpart.

    ** Configuration

    The default one: CONFIG_DISTRIBUTED_VMA_MEMORY and CONFIG_REPLICATION_MEMORY off,
    pcache with 4 KB lines, 64 ways, LRU eviction, the per-set eviction list, zero-fill
    and CONFIG_DEBUG_PCACHE, no victim cache and no sweep thread.  Physical memory with
    CONFIG_NUMA, CONFIG_SPARSEMEM_VMEMMAP, CONFIG_ZONE_DMA and CONFIG_ZONE_DMA32, without
    CONFIG_DEBUG_KMALLOC_USE_BUDDY; [memblock] is used from the top ([bottom_up] is false).
    The distances of the nodes, from a table of the firmware, are an argument.

    ** Not modelled

    - [move_ptes] and the functions of rmap.c below it are modelled without a theorem:
      the memory component moves its pages before the pcache moves its entries, so that
      in between the two do not agree in the sense of [wf].
    - The upper levels of the emulated page tables of the processor; the page cache of
      files, the program loader, checkpoints and the replication of the memory manager.
    - A fork or an munmap request between the two managers: the operations are modelled
      and verified on each side, and the joint theorem has the processor side of them.
    - The victim cache, the other eviction policies, prefetching and the sweep thread of
      the pcache, which the configuration leaves out.
    - Where [sparse_init] places the [struct page]s, and their mapping; the object caches of
      slab_common.c, the vmalloc, per-cpu and DMA allocators above the page allocator.  The page allocator of a memory
      node is still an argument of its model, with the law that a page that it returns is
      aligned and not in use.
    - The network, the drivers, the architecture code and the core kernel: I/O, or code
      that the modelled parts see as a message. *)

From Stdlib Require Export ZArith Lia Bool.
From stdpp Require Export base tactics numbers list gmap option.

(** ** Unsigned 64-bit machine words

    An [unsigned long] is a [Z] kept in [0, 2^64); every operation that can leave
    that range is written with its wrap-around. *)

#[export] Set Warnings "-clear-no-such-hyp".

Declare Scope u64_scope.
Delimit Scope u64_scope with u64.

Open Scope Z_scope.

Definition ULONG_MOD : Z := 2 ^ 64.
Definition ULONG_MAX : Z := ULONG_MOD - 1.

Definition wrap (z : Z) : Z := z mod ULONG_MOD.

Notation "a +u b" := (wrap (a + b)) (at level 50, left associativity) : u64_scope.
Notation "a -u b" := (wrap (a - b)) (at level 50, left associativity) : u64_scope.
Notation "a <<u b" := (wrap (Z.shiftl a b)) (at level 35, no associativity) : u64_scope.
Open Scope u64_scope.

Definition is_u64 (z : Z) : Prop := 0 <= z < ULONG_MOD.

(** A C conversion of a 64-bit value to [int] (32 bits, two's complement). *)
Definition to_int (z : Z) : Z :=
  let r := z mod 2 ^ 32 in if r <? 2 ^ 31 then r else r - 2 ^ 32.

(** Kernel error numbers (include/uapi/errno*.h), returned negated. *)
Definition EPERM : Z := 1.
Definition ESRCH : Z := 3.
Definition EINTR : Z := 4.
Definition EIO : Z := 5.
Definition EAGAIN : Z := 11.
Definition ENOMEM : Z := 12.
Definition EFAULT : Z := 14.
Definition EEXIST : Z := 17.
Definition ENODEV : Z := 19.
Definition EINVAL : Z := 22.
Definition EOVERFLOW : Z := 75.

(** [(unsigned long)(-e)]: an error value returned through an unsigned long. *)
Definition err_ul (e : Z) : Z := wrap (- e).

(** The results of page faults and the flag of a write fault (include/lego/pgfault.h,
    include/lego/mm.h), used by the processor and by the memory manager *)
Definition VM_FAULT_OOM : Z := 1.
Definition VM_FAULT_SIGBUS : Z := 2.
Definition VM_FAULT_HWPOISON : Z := 16.
Definition VM_FAULT_SIGSEGV : Z := 64.
Definition VM_FAULT_ERROR : Z := fold_right Z.lor 0 [VM_FAULT_OOM; VM_FAULT_SIGBUS; VM_FAULT_SIGSEGV; VM_FAULT_HWPOISON].
Definition FAULT_FLAG_WRITE : Z := 1.

Create HintDb lego.

Lemma wrap_small z : is_u64 z -> wrap z = z.
Proof. intros H. apply Z.mod_small, H. Qed.

Lemma wrap_range z : is_u64 (wrap z).
Proof. apply Z.mod_pos_bound. unfold ULONG_MOD. lia. Qed.

#[export] Hint Resolve wrap_range : lego.

Lemma wrap_add_l x y : wrap (wrap x + y) = wrap (x + y).
Proof. unfold wrap. by rewrite Zplus_mod_idemp_l. Qed.
Lemma wrap_sub_l x y : wrap (wrap x - y) = wrap (x - y).
Proof. unfold wrap. by rewrite Zminus_mod_idemp_l. Qed.

(** ** Tactics *)

(** Split the [if]s and [match]es of a hypothesis or the goal, keeping equations. *)
Ltac case_bool :=
  repeat match goal with
  | |- context [if ?b then _ else _] => destruct b eqn:?
  end.

Ltac zbool :=
  repeat match goal with
  | H : (_ <? _) = true |- _ => apply Z.ltb_lt in H
  | H : (_ <? _) = false |- _ => apply Z.ltb_ge in H
  | H : (_ <=? _) = true |- _ => apply Z.leb_le in H
  | H : (_ <=? _) = false |- _ => apply Z.leb_gt in H
  | H : (_ =? _) = true |- _ => apply Z.eqb_eq in H
  | H : (_ =? _) = false |- _ => apply Z.eqb_neq in H
  | H : _ || _ = false |- _ => apply orb_false_iff in H as [? ?]
  | H : negb _ = true |- _ => apply negb_true_iff in H
  | H : negb _ = false |- _ => apply negb_false_iff in H
  | H : _ && _ = true |- _ => apply andb_prop in H as [? ?]
  end.

(** [BUG_ON(b)] before the rest of an operation *)
Notation "'BUG_ON' b ;; k" := (if b then None else k)
  (at level 100, b at level 99, k at level 200, right associativity).

(** ** Pages (arch/x86/include/asm/page_types.h, include/lego/mm.h, kernel.h) *)

Definition PAGE_SHIFT : Z := 12.
Definition PAGE_SIZE : Z := Z.shiftl 1 PAGE_SHIFT.
(** [~(PAGE_SIZE-1)] as an unsigned long *)
Definition PAGE_MASK : Z := wrap (Z.lnot (PAGE_SIZE - 1)).

(** [((unsigned long)(p) & ~PAGE_MASK)] *)
Definition offset_in_page (p : Z) : Z := Z.land p (wrap (Z.lnot PAGE_MASK)).

(** [ALIGN(x, a) = ((x) + (a) - 1) & ~((a) - 1)] in unsigned long arithmetic *)
Definition ALIGN (x a : Z) : Z := Z.land (x +u (a - 1)) (wrap (Z.lnot (a - 1))).
Definition PAGE_ALIGN (addr : Z) : Z := ALIGN addr PAGE_SIZE.

Definition MAX_ERRNO : Z := 4095.
(** [IS_ERR_VALUE(x)]: [x >= (unsigned long)-MAX_ERRNO] *)
Definition IS_ERR_VALUE (x : Z) : bool := wrap (- MAX_ERRNO) <=? x.

Definition page_aligned (z : Z) : Prop := z mod PAGE_SIZE = 0.

Lemma PAGE_SIZE_eq : PAGE_SIZE = 4096.
Proof. reflexivity. Qed.

Lemma land_mask_mod p k : 0 <= k -> Z.land p (2 ^ k - 1) = p mod 2 ^ k.
Proof. intros. rewrite <- Z.land_ones by lia. by rewrite Z.ones_equiv, Z.sub_1_r. Qed.

Lemma offset_in_page_mod p : offset_in_page p = p mod PAGE_SIZE.
Proof. unfold offset_in_page. change (wrap _) with (2 ^ 12 - 1). by rewrite land_mask_mod. Qed.

(** [x & ~(2^k - 1)] rounds down to a multiple of [2^k]. *)
Lemma land_not_mask x k :
  0 <= k <= 64 -> is_u64 x -> Z.land x (wrap (Z.lnot (2 ^ k - 1))) = x - x mod 2 ^ k.
Proof.
  intros Hk Hx. replace (x - x mod 2 ^ k) with (Z.ldiff x (Z.ones k)).
  2:{ pose proof (Z.sub_nocarry_ldiff x (Z.land x (Z.ones k))) as Hs.
      rewrite <- Z.land_ones by lia. rewrite Hs.
      - apply Z.bits_inj'. intros i Hi. rewrite !Z.ldiff_spec, !Z.land_spec. by destruct (Z.testbit x i).
      - apply Z.bits_inj'. intros i Hi. rewrite Z.ldiff_spec, Z.land_spec, Z.bits_0.
        by destruct (Z.testbit x i), (Z.testbit (Z.ones k) i). }
  apply Z.bits_inj'. intros i Hi.
  rewrite Z.land_spec, Z.ldiff_spec. unfold wrap, ULONG_MOD.
  destruct (Z.testbit x i) eqn:Hxi; [|done]. simpl.
  assert (i < 64).
  { destruct (Z.lt_ge_cases i 64); [done|]. exfalso. rewrite Z.bits_above_log2 in Hxi; [done|..].
    - destruct Hx; lia.
    - destruct (Z.eq_dec x 0) as [->|]; [simpl; lia|].
      apply Z.log2_lt_pow2; [destruct Hx; lia|]. destruct Hx as [_ Hx].
      eapply Z.lt_le_trans; [exact Hx|]. unfold ULONG_MOD. apply Z.pow_le_mono_r; lia. }
  rewrite Z.mod_pow2_bits_low by lia. rewrite Z.lnot_spec by lia.
  f_equal. by rewrite Z.sub_1_r, <- Z.ones_equiv.
Qed.

Lemma PAGE_MASK_round x : is_u64 x -> Z.land x PAGE_MASK = x - x mod PAGE_SIZE.
Proof. intros. unfold PAGE_MASK. change (PAGE_SIZE - 1) with (2 ^ 12 - 1). by rewrite land_not_mask. Qed.

Lemma PAGE_ALIGN_small x :
  0 <= x -> x + (PAGE_SIZE - 1) < ULONG_MOD ->
  PAGE_ALIGN x = (x + (PAGE_SIZE - 1)) / PAGE_SIZE * PAGE_SIZE.
Proof.
  intros H0 H1. unfold PAGE_ALIGN, ALIGN. rewrite PAGE_SIZE_eq in *.
  rewrite wrap_small by (split; lia). change (4096 - 1) with (2 ^ 12 - 1) at 2.
  rewrite land_not_mask by (try split; lia). pose proof (Z.div_mod (x + (4096 - 1)) 4096).
  change (2 ^ 12) with 4096. lia.
Qed.

Lemma PAGE_ALIGN_bounds x :
  0 <= x -> x + (PAGE_SIZE - 1) < ULONG_MOD ->
  x <= PAGE_ALIGN x < x + PAGE_SIZE /\ page_aligned (PAGE_ALIGN x).
Proof.
  intros H0 H1. rewrite PAGE_ALIGN_small by done. unfold page_aligned. rewrite PAGE_SIZE_eq in *.
  rewrite Z.mod_mul by lia. pose proof (Z.div_mod (x + (4096 - 1)) 4096).
  pose proof (Z.mod_pos_bound (x + (4096 - 1)) 4096). lia.
Qed.

Lemma PAGE_ALIGN_id x : is_u64 x -> page_aligned x -> PAGE_ALIGN x = x.
Proof.
  intros Hx Ha. unfold page_aligned in Ha. rewrite PAGE_SIZE_eq in Ha.
  assert (x + 4095 < ULONG_MOD).
  { destruct Hx. unfold ULONG_MOD in *. pose proof (Z.div_mod x 4096). 
    assert (x / 4096 < 2 ^ 52) by (apply Z.div_lt_upper_bound; lia). lia. }
  rewrite PAGE_ALIGN_small by (rewrite ?PAGE_SIZE_eq; destruct Hx; lia).
  rewrite PAGE_SIZE_eq. pose proof (Z.div_mod x 4096).
  replace (x + (4096 - 1)) with (x / 4096 * 4096 + 4095) by lia.
  rewrite Z.div_add_l by lia. change (4095 / 4096) with 0. lia.
Qed.

(** ** Lists that hold an element once (include/lego/list.h) *)

(** [list_del] of an element *)
Definition list_del (i : Z) (l : list Z) : list Z := filter (fun j => j <> i) l.

Lemma list_del_perm i (l : list Z) : NoDup l -> i ∈ l -> l ≡ₚ i :: list_del i l.
Proof.
  induction 1 as [|j l Hj Hnd IH]; [by intros ?%not_elem_of_nil|]. intros Hin. unfold list_del in *.
  destruct (decide (j = i)) as [->|Hne].
  - rewrite filter_cons_False by naive_solver. f_equiv. clear IH Hin Hnd.
    induction l as [|x l IH]; [done|]. apply not_elem_of_cons in Hj as [? ?].
    rewrite filter_cons_True by done. f_equiv. auto.
  - rewrite filter_cons_True by done. apply elem_of_cons in Hin as [->|Hin]; [done|].
    rewrite (IH Hin) at 1. by rewrite Permutation_swap.
Qed.

Lemma list_del_not_in i (l : list Z) : i ∉ list_del i l.
Proof. unfold list_del. rewrite list_elem_of_filter. naive_solver. Qed.

Lemma elem_of_list_del i j (l : list Z) : j ∈ list_del i l <-> j ∈ l /\ j <> i.
Proof. unfold list_del. rewrite list_elem_of_filter. naive_solver. Qed.

Lemma NoDup_list_del i (l : list Z) : NoDup l -> NoDup (list_del i l).
Proof. apply list.NoDup_filter. Qed.

Lemma length_list_del i (l : list Z) : NoDup l -> i ∈ l -> length l = S (length (list_del i l)).
Proof. intros Hnd Hin. by rewrite (list_del_perm i l) at 1. Qed.
