(* ===== verification/RbTree.v ===== *)
(** * Augmented red-black trees: lib/rbtree.c and include/lego/rbtree.h

    A node of the C tree is a struct that embeds [rb_node]; a pointer to it is the
    payload [x : A] of a [Node].  The parent pointers are the frames of a zipper: a
    C position ([node] with its [__rb_parent_color] chain) is a subtree together
    with the list of frames from its parent up to the root.  The augmented field of
    the embedding struct ([rb_subtree_gap] for a VMA) is the component [g : G] of a
    node, and [rbcompute] is the function given to [RB_DECLARE_CALLBACKS], which
    reads the node's own data and its children's augmented fields.

    A result [None] stands for the dereference of a null pointer: the theorems
    show that it does not happen on red-black trees. *)

From S2P Require Import Prelude.

Inductive color := RB_RED | RB_BLACK.

#[export] Instance color_eq_dec : EqDecision color.
Proof. solve_decision. Defined.

Section Tree.
Context {A G : Type}.

Inductive rbtree :=
| Leaf
| Node (c : color) (g : G) (l : rbtree) (x : A) (r : rbtree).

(** [FrameL]: the hole is the node's left child; [FrameR]: its right child. *)
Inductive frame :=
| FrameL (c : color) (g : G) (x : A) (r : rbtree)
| FrameR (c : color) (g : G) (l : rbtree) (x : A).

Definition fill (f : frame) (t : rbtree) : rbtree :=
  match f with
  | FrameL c g x r => Node c g t x r
  | FrameR c g l x => Node c g l x t
  end.

Fixpoint plug (z : list frame) (t : rbtree) : rbtree :=
  match z with
  | [] => t
  | f :: z' => plug z' (fill f t)
  end.

Definition frame_color (f : frame) : color :=
  match f with FrameL c _ _ _ => c | FrameR c _ _ _ => c end.

Definition is_leaf (t : rbtree) : bool :=
  match t with Leaf => true | _ => false end.

(** [tmp && rb_is_red(tmp)] *)
Definition is_red (t : rbtree) : bool :=
  match t with Node RB_RED _ _ _ _ => true | _ => false end.

(** [if (tmp) rb_set_parent_color(tmp, ..., col)] *)
Definition set_color (col : color) (t : rbtree) : rbtree :=
  match t with Leaf => Leaf | Node _ g l x r => Node col g l x r end.

(** The augmented field of a child, if there is one. *)
Definition aug (t : rbtree) : option G :=
  match t with Leaf => None | Node _ g _ _ _ => Some g end.

(** ** Sequence of the nodes, in tree order *)

Fixpoint elements (t : rbtree) : list A :=
  match t with
  | Leaf => []
  | Node _ _ l x r => elements l ++ x :: elements r
  end.

(** Nodes before and after the hole of a context. *)
Fixpoint before (z : list frame) : list A :=
  match z with
  | [] => []
  | FrameL _ _ _ _ :: z' => before z'
  | FrameR _ _ l x :: z' => before z' ++ elements l ++ [x]
  end.

Fixpoint after (z : list frame) : list A :=
  match z with
  | [] => []
  | FrameL _ _ x r :: z' => x :: elements r ++ after z'
  | FrameR _ _ _ _ :: z' => after z'
  end.

(** ** Iteration *)

Fixpoint rb_first (t : rbtree) : option A :=
  match t with
  | Leaf => None
  | Node _ _ Leaf x _ => Some x
  | Node _ _ l _ _ => rb_first l
  end.

Fixpoint rb_last (t : rbtree) : option A :=
  match t with
  | Leaf => None
  | Node _ _ _ x Leaf => Some x
  | Node _ _ _ _ r => rb_last r
  end.

(** [while ((parent = rb_parent(node)) && node == parent->rb_right) node = parent;] *)
Fixpoint climb_next (z : list frame) : option A :=
  match z with
  | [] => None
  | FrameR _ _ _ _ :: z' => climb_next z'
  | FrameL _ _ x _ :: _ => Some x
  end.

Fixpoint climb_prev (z : list frame) : option A :=
  match z with
  | [] => None
  | FrameL _ _ _ _ :: z' => climb_prev z'
  | FrameR _ _ _ x :: _ => Some x
  end.

(** [rb_next] of a node with right child [r] and context [z]. *)
Definition rb_next (r : rbtree) (z : list frame) : option A :=
  if is_leaf r then climb_next z else rb_first r.

Definition rb_prev (l : rbtree) (z : list frame) : option A :=
  if is_leaf l then climb_prev z else rb_last l.

Fixpoint rb_left_deepest_node (t : rbtree) : option A :=
  match t with
  | Leaf => None
  | Node _ _ Leaf x Leaf => Some x
  | Node _ _ Leaf _ r => rb_left_deepest_node r
  | Node _ _ l _ _ => rb_left_deepest_node l
  end.

Definition rb_first_postorder (t : rbtree) : option A := rb_left_deepest_node t.

(** [rb_next_postorder] of a node with context [z]. *)
Definition rb_next_postorder (z : list frame) : option A :=
  match z with
  | [] => None
  | FrameL _ _ x r :: _ => if is_leaf r then Some x else rb_left_deepest_node r
  | FrameR _ _ _ x :: _ => Some x
  end.

(** Post-order sequence, the reference for the two functions above. *)
Fixpoint postorder (t : rbtree) : list A :=
  match t with
  | Leaf => []
  | Node _ _ l x r => postorder l ++ postorder r ++ [x]
  end.

(** [rb_replace_node(victim, new, root)]: [victim] is the node of colour [c] with
    children [l], [r] and context [z]; the augmented field [gnew] is [new]'s own. *)
Definition rb_replace_node (c : color) (l r : rbtree) (z : list frame)
    (new : A) (gnew : G) : rbtree :=
  plug z (Node c gnew l new r).

(** The zipper at the node [x], which C has as the pointer [x] itself. *)
Fixpoint locate `{EqDecision A} (x : A) (t : rbtree) (z : list frame) :
    option (color * G * rbtree * rbtree * list frame) :=
  match t with
  | Leaf => None
  | Node c g l y r =>
      if decide (x = y) then Some (c, g, l, r, z)
      else match locate x l (FrameL c g y r :: z) with
           | Some k => Some k
           | None => locate x r (FrameR c g l y :: z)
           end
  end.

End Tree.
Arguments rbtree : clear implicits.
Arguments frame : clear implicits.

Section Augmented.
Context {A G : Type} `{EqDecision G}.
(** [rbcompute(node)], given the augmented fields of the node's children. *)
Variable rbcompute : A -> option G -> option G -> G.

Implicit Types (t l r : rbtree A G) (z : list (frame A G)).

(** [rbname ## _propagate(parent, stop)]: recompute the nodes of a context from the
    innermost one, until the stored value is already right. [gh] is the augmented
    field of the subtree in the hole; [stop] is the end of the list. *)
Fixpoint propagate (gh : option G) (z : list (frame A G)) : list (frame A G) :=
  match z with
  | [] => []
  | FrameL c g x r :: z' =>
      let g' := rbcompute x gh (aug r) in
      if decide (g = g') then z else FrameL c g' x r :: propagate (Some g') z'
  | FrameR c g l x :: z' =>
      let g' := rbcompute x (aug l) gh in
      if decide (g = g') then z else FrameR c g' l x :: propagate (Some g') z'
  end.

(** [rbname ## _propagate(node, NULL)] for a node and its ancestors. *)
Definition propagate_node (c : color) (g : G) (l : rbtree A G) (x : A)
    (r : rbtree A G) (z : list (frame A G)) : rbtree A G * list (frame A G) :=
  let g' := rbcompute x (aug l) (aug r) in
  if decide (g = g') then (Node c g l x r, z)
  else (Node c g' l x r, propagate (Some g') z).

(** [rb_link_node]: a red node without children in the hole. *)
Definition rb_link_node (x : A) (g : G) : rbtree A G := Node RB_RED g Leaf x Leaf.

(** ** Insertion *)

Fixpoint __rb_insert (n : rbtree A G) (z : list (frame A G)) {struct z} :
    option (rbtree A G) :=
  match n with
  | Leaf => None
  | Node _ gn nl nx nr =>
    match z with
    | [] => Some (Node RB_BLACK gn nl nx nr)
    | fp :: z1 =>
      match frame_color fp with
      | RB_BLACK => Some (plug z n)
      | RB_RED =>
        match z1 with
        | [] => None
        | FrameL gc gg gx u :: z2 =>
            if is_red u then
              (* Case 1 - color flips *)
              __rb_insert (Node RB_RED gg (set_color RB_BLACK (fill fp n)) gx
                             (set_color RB_BLACK u)) z2
            else
              let '(pl, px, tmp) :=
                match fp with
                | FrameR _ _ pl px =>
                    (* Case 2 - left rotate at parent *)
                    (Node RB_RED (rbcompute px (aug pl) (aug nl)) pl px
                       (set_color RB_BLACK nl), nx, nr)
                | FrameL _ _ px pr => (n, px, pr)
                end in
              (* Case 3 - right rotate at gparent *)
              Some (plug z2 (Node gc gg pl px
                (Node RB_RED (rbcompute gx (aug tmp) (aug u))
                   (set_color RB_BLACK tmp) gx u)))
        | FrameR gc gg u gx :: z2 =>
            if is_red u then
              (* Case 1 - color flips *)
              __rb_insert (Node RB_RED gg (set_color RB_BLACK u) gx
                             (set_color RB_BLACK (fill fp n))) z2
            else
              let '(tmp, px, pr) :=
                match fp with
                | FrameL _ _ px pr =>
                    (* Case 2 - right rotate at parent *)
                    (nl, nx, Node RB_RED (rbcompute px (aug nr) (aug pr))
                               (set_color RB_BLACK nr) px pr)
                | FrameR _ _ pl px => (pl, px, n)
                end in
              (* Case 3 - left rotate at gparent *)
              Some (plug z2 (Node gc gg
                (Node RB_RED (rbcompute gx (aug u) (aug tmp)) u gx
                   (set_color RB_BLACK tmp)) px pr))
        end
      end
    end
  end.

Definition rb_insert_augmented := __rb_insert.

(** ** Rebalancing after an erase *)

(** Outcome of one iteration of the loop of [____rb_erase_color]: the subtree
    rooted where the parent was, and whether the loop goes on at its parent. *)
Inductive fix_result :=
| FixDone (t : rbtree A G)
| FixUp (t : rbtree A G).

(** Cases 2, 3 and 4 for [node == parent->rb_left], parent [Node cp gp l p _]. *)
Definition erase_fix_l (cp : color) (gp : G) (l : rbtree A G) (p : A)
    (sibling : rbtree A G) : option fix_result :=
  (* Case 4 - left rotate at parent + color flips *)
  let case4 sl s sr :=
    Some (FixDone (Node cp gp
      (Node RB_BLACK (rbcompute p (aug l) (aug sl)) l p sl) s
      (set_color RB_BLACK sr))) in
  match sibling with
  | Leaf => None
  | Node cs gs sl s sr =>
      if is_red sr then case4 sl s sr
      else
        match sl with
        | Node RB_RED gsl sll slx slr =>
            (* Case 3 - right rotate at sibling *)
            case4 sll slx
              (Node cs (rbcompute s (aug slr) (aug sr)) (set_color RB_BLACK slr) s sr)
        | _ =>
            (* Case 2 - sibling color flip *)
            let t := Node RB_BLACK gp l p (Node RB_RED gs sl s sr) in
            match cp with
            | RB_RED => Some (FixDone t)
            | RB_BLACK => Some (FixUp t)
            end
        end
  end.

(** The same for [node == parent->rb_right]. *)
Definition erase_fix_r (cp : color) (gp : G) (sibling : rbtree A G) (p : A)
    (r : rbtree A G) : option fix_result :=
  let case4 sl s sr :=
    Some (FixDone (Node cp gp (set_color RB_BLACK sl) s
      (Node RB_BLACK (rbcompute p (aug sr) (aug r)) sr p r))) in
  match sibling with
  | Leaf => None
  | Node cs gs sl s sr =>
      if is_red sl then case4 sl s sr
      else
        match sr with
        | Node RB_RED gsr srl srx srr =>
            case4 (Node cs (rbcompute s (aug sl) (aug srl)) sl s (set_color RB_BLACK srl))
              srx srr
        | _ =>
            let t := Node RB_BLACK gp (Node RB_RED gs sl s sr) p r in
            match cp with
            | RB_RED => Some (FixDone t)
            | RB_BLACK => Some (FixUp t)
            end
        end
  end.

(** One iteration: Case 1 (a red sibling) rotates at the parent, which becomes red,
    and the remaining cases then end the loop ([erase_fix_l_red]). *)
Definition erase_step_l (cp : color) (gp : G) (l : rbtree A G) (p : A)
    (sibling : rbtree A G) : option fix_result :=
  match sibling with
  | Node RB_RED gs sl s sr =>
      if is_leaf sl then None
      else
        match erase_fix_l RB_RED (rbcompute p (aug l) (aug sl)) l p
                (set_color RB_BLACK sl) with
        | Some (FixDone t) => Some (FixDone (Node cp gp t s sr))
        | _ => None
        end
  | _ => erase_fix_l cp gp l p sibling
  end.

Definition erase_step_r (cp : color) (gp : G) (sibling : rbtree A G) (p : A)
    (r : rbtree A G) : option fix_result :=
  match sibling with
  | Node RB_RED gs sl s sr =>
      if is_leaf sr then None
      else
        match erase_fix_r RB_RED (rbcompute p (aug sr) (aug r))
                (set_color RB_BLACK sr) p r with
        | Some (FixDone t) => Some (FixDone (Node cp gp sl s t))
        | _ => None
        end
  | _ => erase_fix_r cp gp sibling p r
  end.

(** The loop: [node_left] says which child of the parent [Node cp gp l p r] is
    [node]; [z] is the parent's context. *)
Fixpoint erase_loop (node_left : bool) (cp : color) (gp : G) (l : rbtree A G)
    (p : A) (r : rbtree A G) (z : list (frame A G)) {struct z} : option (rbtree A G) :=
  match (if node_left then erase_step_l cp gp l p r else erase_step_r cp gp l p r) with
  | None => None
  | Some (FixDone t) => Some (plug z t)
  | Some (FixUp t) =>
      match z with
      | [] => Some t
      | FrameL c g x r' :: z' => erase_loop true c g t x r' z'
      | FrameR c g l' x :: z' => erase_loop false c g l' x t z'
      end
  end.

(** [node = NULL] on entry, so [node != parent->rb_right] iff there is a right child. *)
Definition ____rb_erase_color (cp : color) (gp : G) (l : rbtree A G) (p : A)
    (r : rbtree A G) (z : list (frame A G)) : option (rbtree A G) :=
  erase_loop (negb (is_leaf r)) cp gp l p r z.

(** ** Erase *)

(** The left-most node below [t] (the [do ... while (tmp)] loop): its colour, its
    payload, its right child and the frames from its parent up to [t]. *)
Fixpoint leftmost (t : rbtree A G) (z : list (frame A G)) :
    option (color * A * rbtree A G * list (frame A G)) :=
  match t with
  | Leaf => None
  | Node c g Leaf x r => Some (c, x, r, z)
  | Node c g l x r => leftmost l (FrameL c g x r :: z)
  end.

(** [__rb_erase_augmented] for the node of colour [c], augmented field [g], children
    [l], [r] and context [z]. The result is the subtree left in the hole, its
    context, and whether [rebalance] is the innermost frame of that context. *)
Definition __rb_erase_augmented (c : color) (g : G) (l r : rbtree A G)
    (z : list (frame A G)) : rbtree A G * list (frame A G) * bool :=
  let black cc := bool_decide (cc = RB_BLACK) in
  match l, r with
  | Leaf, _ =>
      (* Case 1: node to erase has no more than 1 child *)
      (set_color c r, propagate (aug r) z, is_leaf r && black c)
  | _, Leaf => (set_color c l, propagate (aug l) z, false)
  | _, Node cs _ Leaf s child2 =>
      (* Case 2: node's successor is its right child *)
      (set_color RB_BLACK child2, propagate (aug child2) (FrameR c g l s :: z),
       is_leaf child2 && black cs)
  | _, _ =>
      (* Case 3: node's successor is leftmost under node's right child subtree *)
      match leftmost r [] with
      | Some (cs, s, child2, path) =>
          let path' := propagate (aug child2) path in
          let top := aug (plug path' child2) in
          (set_color RB_BLACK child2, path' ++ propagate top (FrameR c g l s :: z),
           is_leaf child2 && black cs)
      | None => (Leaf, z, false)
      end
  end.

Definition rb_erase_augmented (c : color) (g : G) (l r : rbtree A G)
    (z : list (frame A G)) : option (rbtree A G) :=
  let '(t, z', rebalance) := __rb_erase_augmented c g l r z in
  if rebalance then
    match z' with
    | [] => Some t
    | FrameL pc pg px pr :: z'' => ____rb_erase_color pc pg t px pr z''
    | FrameR pc pg pl px :: z'' => ____rb_erase_color pc pg pl px t z''
    end
  else Some (plug z' t).

End Augmented.

(** ** Non-augmented trees: the dummy callbacks *)

Definition dummy_compute {A : Type} (_ : A) (_ _ : option unit) : unit := tt.

Definition rb_insert_color {A : Type} : rbtree A unit -> list (frame A unit) ->
    option (rbtree A unit) := __rb_insert dummy_compute.

Definition rb_erase {A : Type} : color -> unit -> rbtree A unit -> rbtree A unit ->
    list (frame A unit) -> option (rbtree A unit) := rb_erase_augmented dummy_compute.

(** ** Order: rebalancing never changes the sequence of nodes *)

Section Order.
Context {A G : Type} `{EqDecision G}.
Variable rbcompute : A -> option G -> option G -> G.
Implicit Types (t l r : rbtree A G) (z : list (frame A G)).

Lemma elements_set_color c t : elements (set_color c t) = elements t.
Proof. by destruct t. Qed.

Lemma aug_set_color c t : aug (set_color c t) = aug t.
Proof. by destruct t. Qed.

Lemma is_red_set_black t : is_red (set_color RB_BLACK t) = false.
Proof. by destruct t. Qed.

Lemma elements_plug z t : elements (plug z t) = before z ++ elements t ++ after z.
Proof.
  revert t. induction z as [|[c g x r|c g l x] z IH]; intros t; simpl.
  - by rewrite app_nil_r.
  - rewrite IH. simpl. by rewrite <- !app_assoc.
  - rewrite IH. simpl. by rewrite <- !app_assoc.
Qed.

Lemma plug_app z1 z2 t : plug (z1 ++ z2) t = plug z2 (plug z1 t).
Proof. revert t. induction z1 as [|f z1 IH]; intros t; simpl; [done|]. apply IH. Qed.

Lemma propagate_before gh z : before (propagate rbcompute gh z) = before z.
Proof.
  revert gh. induction z as [|[c g x r|c g l x] z IH]; intros gh; simpl; [done|..];
    case_decide; simpl; try done; by rewrite IH.
Qed.

Lemma propagate_after gh z : after (propagate rbcompute gh z) = after z.
Proof.
  revert gh. induction z as [|[c g x r|c g l x] z IH]; intros gh; simpl; [done|..];
    case_decide; simpl; try done; by rewrite IH.
Qed.

Lemma before_app z1 z2 : before (z1 ++ z2) = before z2 ++ before z1.
Proof.
  induction z1 as [|[c g x r|c g l x] z1 IH]; simpl; rewrite ?app_nil_r; [done..|].
  by rewrite IH, <- app_assoc.
Qed.

Lemma after_app z1 z2 : after (z1 ++ z2) = after z1 ++ after z2.
Proof.
  induction z1 as [|[c g x r|c g l x] z1 IH]; simpl; [done| |done].
  by rewrite IH, <- app_assoc.
Qed.

End Order.

Create Rewrite HintDb rb.
#[export] Hint Rewrite @elements_set_color @aug_set_color @elements_plug
  @propagate_before @propagate_after @before_app @after_app : rb.

Ltac rb_elems :=
  repeat (progress (autorewrite with rb; simpl; rewrite <- ?app_assoc; simpl));
  rewrite ?app_nil_r; try done.

(** Induction on the length of a context, for loops that climb several frames. *)
Lemma ctx_length_ind {A G : Type} (P : list (frame A G) -> Prop) :
  (forall z, (forall y, (length y < length z)%nat -> P y) -> P z) -> forall z, P z.
Proof. apply (well_founded_induction (well_founded_ltof _ length)). Qed.

Section InsertOrder.
Context {A G : Type} `{EqDecision G}.
Variable rbcompute : A -> option G -> option G -> G.
Implicit Types (t l r : rbtree A G) (z : list (frame A G)).

Lemma rb_insert_elements n z t :
  __rb_insert rbcompute n z = Some t ->
  elements t = before z ++ elements n ++ after z.
Proof.
  revert n. induction z as [z IH] using ctx_length_ind; intros n Hz.
  destruct n as [|cn gn nl nx nr]; [by destruct z|].
  destruct z as [|fp [|[gc gg gx u|gc gg u gx] z2]]; simpl in Hz.
  - simplify_eq. simpl. by rewrite app_nil_r.
  - destruct (frame_color fp); simplify_eq.
    destruct fp; simpl; rb_elems.
  - destruct (frame_color fp) eqn:Hc; [|simplify_eq; destruct fp; rb_elems].
    destruct (is_red u).
    + apply IH in Hz; [|simpl; lia]. rewrite Hz. destruct fp; rb_elems.
    + destruct fp; simplify_eq; rb_elems.
  - destruct (frame_color fp) eqn:Hc; [|simplify_eq; destruct fp; rb_elems].
    destruct (is_red u).
    + apply IH in Hz; [|simpl; lia]. rewrite Hz. destruct fp; rb_elems.
    + destruct fp; simplify_eq; rb_elems.
Qed.

Definition fix_tree (f : fix_result (A := A) (G := G)) : rbtree A G :=
  match f with FixDone t => t | FixUp t => t end.

Lemma erase_fix_l_elements cp gp l p s f :
  erase_fix_l rbcompute cp gp l p s = Some f ->
  elements (fix_tree f) = elements l ++ p :: elements s.
Proof.
  destruct s as [|cs gs [|[] gsl sll slx slr] s sr]; simpl; intros Hf; [done|..];
    destruct (is_red sr); try destruct cp; simplify_eq; simpl; rb_elems.
Qed.

Lemma erase_fix_r_elements cp gp s p r f :
  erase_fix_r rbcompute cp gp s p r = Some f ->
  elements (fix_tree f) = elements s ++ p :: elements r.
Proof.
  destruct s as [|cs gs sl s [|[] gsr srl srx srr]]; simpl; intros Hf; [done|..];
    destruct (is_red sl); try destruct cp; simplify_eq; simpl; rb_elems.
Qed.

(** The cases after Case 1 see a red parent and always end the loop. *)
Lemma erase_fix_l_red gp l p s t : erase_fix_l rbcompute RB_RED gp l p s <> Some (FixUp t).
Proof. destruct s as [|cs gs [|[] ? ? ? ?] s sr]; simpl; try case_match; congruence. Qed.

Lemma erase_fix_r_red gp s p r t : erase_fix_r rbcompute RB_RED gp s p r <> Some (FixUp t).
Proof. destruct s as [|cs gs sl s [|[] ? ? ? ?]]; simpl; try case_match; congruence. Qed.

Lemma erase_step_l_elements cp gp l p s f :
  erase_step_l rbcompute cp gp l p s = Some f ->
  elements (fix_tree f) = elements l ++ p :: elements s.
Proof.
  destruct s as [|[] gs sl s sr]; [apply erase_fix_l_elements| |apply erase_fix_l_elements].
  simpl. destruct (is_leaf sl); [done|].
  destruct (erase_fix_l _ _ _ _ _ _) as [[t|t]|] eqn:Hf; intros; simplify_eq.
  apply erase_fix_l_elements in Hf. simpl in Hf |- *. rewrite Hf. rb_elems.
Qed.

Lemma erase_step_r_elements cp gp s p r f :
  erase_step_r rbcompute cp gp s p r = Some f ->
  elements (fix_tree f) = elements s ++ p :: elements r.
Proof.
  destruct s as [|[] gs sl s sr]; [apply erase_fix_r_elements| |apply erase_fix_r_elements].
  simpl. destruct (is_leaf sr); [done|].
  destruct (erase_fix_r _ _ _ _ _ _) as [[t|t]|] eqn:Hf; intros; simplify_eq.
  apply erase_fix_r_elements in Hf. simpl in Hf |- *. rewrite Hf. rb_elems.
Qed.

Lemma erase_loop_elements b cp gp l p r z t :
  erase_loop rbcompute b cp gp l p r z = Some t ->
  elements t = before z ++ (elements l ++ p :: elements r) ++ after z.
Proof.
  revert b cp gp l p r. induction z as [|f z IH]; intros b cp gp l p r; simpl;
    destruct (if b then _ else _) as [fr|] eqn:Hs; try done;
    (assert (elements (fix_tree fr) = elements l ++ p :: elements r) as He
      by (destruct b; [eapply erase_step_l_elements|eapply erase_step_r_elements]; eauto)).
  - destruct fr; intros; simplify_eq; simpl in He; by rewrite He, app_nil_r.
  - destruct fr as [t'|t']; [|destruct f]; intros Hl; simpl in He.
    + simplify_eq. rewrite <- He. destruct f; rb_elems.
    + apply IH in Hl. rewrite Hl, He. rb_elems.
    + apply IH in Hl. rewrite Hl, He. rb_elems.
Qed.

Lemma leftmost_elements t z c x r path :
  leftmost t z = Some (c, x, r, path) ->
  before z ++ elements t ++ after z = before path ++ (x :: elements r) ++ after path.
Proof.
  revert z. induction t as [|c' g' l IHl x' r' IHr]; intros z; simpl; [done|].
  destruct l as [|cl gl ll lx lr]; [intros; by simplify_eq|].
  intros Hl%IHl. simpl in Hl. rewrite <- Hl. rb_elems.
Qed.

Lemma leftmost_before t z c x r path :
  leftmost t z = Some (c, x, r, path) -> before path = before z.
Proof.
  revert z. induction t as [|c' g' l IHl x' r' IHr]; intros z; simpl; [done|].
  destruct l; [intros; by simplify_eq|]. by intros ->%IHl.
Qed.

Lemma leftmost_Some c g l x r z :
  exists c' x' r' path, leftmost (Node c g l x r) z = Some (c', x', r', path).
Proof.
  revert c g x r z. induction l as [|cl gl ll IH lx lr _]; intros c g x r z; [by repeat eexists|].
  apply IH.
Qed.

Lemma erase_augmented_elements c g l r z t z' b :
  __rb_erase_augmented rbcompute c g l r z = (t, z', b) ->
  before z' ++ elements t ++ after z' = before z ++ (elements l ++ elements r) ++ after z.
Proof.
  unfold __rb_erase_augmented. intros He.
  destruct l as [|cl gl ll lx lr]; [simplify_eq; rb_elems|].
  destruct r as [|cr gr rl rx rr]; [simplify_eq; rb_elems|].
  destruct rl as [|crl grl rll rlx rlr].
  { apply pair_equal_spec in He as [[<- <-]%pair_equal_spec _].
    rewrite propagate_before, propagate_after. rb_elems. }
  destruct (leftmost_Some cr gr (Node crl grl rll rlx rlr) rx rr []) as (cs&s&c2&path&Hl).
  rewrite Hl in He. apply pair_equal_spec in He as [[<- <-]%pair_equal_spec _].
  pose proof (leftmost_elements _ _ _ _ _ _ Hl) as Hp.
  pose proof (leftmost_before _ _ _ _ _ _ Hl) as Hb. simpl in Hb, Hp.
  rewrite Hb, app_nil_r in Hp. simpl in Hp.
  rewrite before_app, after_app, !propagate_before, !propagate_after, elements_set_color.
  rewrite Hb. simpl. rewrite Hp. rb_elems.
Qed.

Lemma rb_erase_elements c g l r z t :
  rb_erase_augmented rbcompute c g l r z = Some t ->
  elements t = before z ++ (elements l ++ elements r) ++ after z.
Proof.
  unfold rb_erase_augmented, ____rb_erase_color.
  destruct (__rb_erase_augmented _ _ _ _ _ _) as [[t' z'] b] eqn:He.
  apply erase_augmented_elements in He. rewrite <- He. clear He.
  destruct b; [|intros; simplify_eq; by rb_elems].
  destruct z' as [|[pc pg px pr|pc pg pl px] z'']; intros Hl; [simplify_eq; simpl; by rewrite app_nil_r|..];
    apply erase_loop_elements in Hl; rewrite Hl; rb_elems.
Qed.

End InsertOrder.

(** ** Red-black balance

    [rb c n t]: [t] has a root of colour [c] (null is black), [n] black nodes on each
    path, and no red node with a red child. *)

Section Balance.
Context {A G : Type}.

Inductive rb : color -> nat -> rbtree A G -> Prop :=
| rb_leaf : rb RB_BLACK 0 Leaf
| rb_red n g l x r :
    rb RB_BLACK n l -> rb RB_BLACK n r -> rb RB_RED n (Node RB_RED g l x r)
| rb_black n cl cr g l x r :
    rb cl n l -> rb cr n r -> rb RB_BLACK (S n) (Node RB_BLACK g l x r).

(** Contexts whose hole takes a subtree of colour [c] and black height [n]. *)
Inductive ctx_ok : color -> nat -> list (frame A G) -> Prop :=
| ctx_root n : ctx_ok RB_BLACK n []
| ctx_l_red n g x r z :
    rb RB_BLACK n r -> ctx_ok RB_RED n z -> ctx_ok RB_BLACK n (FrameL RB_RED g x r :: z)
| ctx_r_red n g l x z :
    rb RB_BLACK n l -> ctx_ok RB_RED n z -> ctx_ok RB_BLACK n (FrameR RB_RED g l x :: z)
| ctx_l_black c n cr g x r z :
    rb cr n r -> ctx_ok RB_BLACK (S n) z -> ctx_ok c n (FrameL RB_BLACK g x r :: z)
| ctx_r_black c n cl g l x z :
    rb cl n l -> ctx_ok RB_BLACK (S n) z -> ctx_ok c n (FrameR RB_BLACK g l x :: z).

(** A tree as [rb_root] holds it: the root is black. *)
Definition rb_tree (t : rbtree A G) : Prop := exists n, rb RB_BLACK n t.

Fixpoint height (t : rbtree A G) : nat :=
  match t with Leaf => 0 | Node _ _ l _ r => S (Nat.max (height l) (height r)) end.

(** Two contexts that differ in augmented fields only. *)
Definition same_frame (f f' : frame A G) : Prop :=
  match f, f' with
  | FrameL c _ x r, FrameL c' _ x' r' => c = c' /\ x = x' /\ r = r'
  | FrameR c _ l x, FrameR c' _ l' x' => c = c' /\ l = l' /\ x = x'
  | _, _ => False
  end.

End Balance.

#[export] Hint Constructors rb ctx_ok : lego.

Section BalanceFacts.
Context {A G : Type} `{EqDecision G}.
Variable rbcompute : A -> option G -> option G -> G.
Implicit Types (t l r : rbtree A G) (z : list (frame A G)).

Lemma ctx_weaken n z : ctx_ok RB_RED n z -> ctx_ok RB_BLACK n z.
Proof. inversion 1; subst; eauto with lego. Qed.

Lemma ctx_plug c n z t : ctx_ok c n z -> rb c n t -> rb_tree (plug z t).
Proof.
  intros Hz. revert t. induction Hz; intros t Ht; simpl; eauto with lego.
  exists n. done.
Qed.

Lemma ctx_unplug z t : rb_tree (plug z t) -> exists c n, rb c n t /\ ctx_ok c n z.
Proof.
  revert t. induction z as [|f z IH]; simpl; intros t Ht.
  { destruct Ht as [n Hn]. eauto with lego. }
  destruct (IH _ Ht) as (c & n & Hf & Hz). clear IH Ht.
  destruct f as [fc g x r|fc g l x]; simpl in Hf; inversion Hf; subst; eauto with lego.
Qed.

Lemma rb_set_black c n t : rb c n t -> exists m, rb RB_BLACK m (set_color RB_BLACK t).
Proof. destruct 1; simpl; eauto with lego. Qed.

Lemma rb_not_red c n t : rb c n t -> is_red t = false -> rb RB_BLACK n t.
Proof. destruct 1; simpl; eauto with lego; done. Qed.

Lemma rb_set_black_red c n t :
  rb c n t -> is_red t = true -> rb RB_BLACK (S n) (set_color RB_BLACK t).
Proof. destruct 1; simpl; eauto with lego; done. Qed.

Lemma rb_black_set n t : rb RB_BLACK n t -> rb RB_BLACK n (set_color RB_BLACK t).
Proof. inversion 1; subst; simpl; eauto with lego. Qed.

(** Insertion of a red node where a black subtree of the same height was expected:
    no null pointer is followed and the balance is restored. *)
Lemma rb_insert_balanced n t z :
  rb RB_RED n t -> ctx_ok RB_BLACK n z ->
  exists t', __rb_insert rbcompute t z = Some t' /\ rb_tree t'.
Proof.
  revert n t. induction z as [z IH] using ctx_length_ind; intros n t Ht Hz.
  destruct t as [|cn gn nl nx nr]; [by inversion Ht|].
  destruct z as [|fp z1]; simpl.
  { eexists; split; [done|]. inversion Ht; subst. eexists; eauto with lego. }
  destruct (frame_color fp) eqn:Hfp.
  2:{ eexists; split; [done|]. apply (ctx_plug RB_RED n (fp :: z1)); [|done].
      destruct fp; simpl in Hfp; subst; inversion Hz; subst; eauto with lego. }
  assert (ctx_ok RB_RED n z1 /\ forall m, rb RB_RED m (Node cn gn nl nx nr) ->
    m = n -> rb RB_BLACK (S n) (set_color RB_BLACK (fill fp (Node cn gn nl nx nr))))
    as [Hz1 Hflip].
  { destruct fp; simpl in Hfp; subst; inversion Hz; subst; simpl;
      split; intros; subst; eauto with lego. }
  specialize (Hflip n Ht eq_refl).
  inversion Hz1; subst; destruct (is_red _) eqn:Hu.
  1,3: eapply IH; [simpl; lia| |eassumption]; eauto using rb_set_black_red with lego.
  all: eapply rb_not_red in Hu; [|eassumption];
    destruct fp; simpl in Hfp; subst; inversion Hz; subst; inversion Ht; subst;
    (eexists; split; [done|]; eapply ctx_plug; [eassumption|]);
    repeat (econstructor; eauto using rb_black_set with lego).
Qed.

(** The black height of the place of a parent of colour [cp] whose short child has
    black height [n]. *)
Definition parent_height (cp : color) (n : nat) : nat :=
  match cp with RB_RED => S n | RB_BLACK => S (S n) end.

Definition fix_ok (cp : color) (n : nat) (f : fix_result (A := A) (G := G)) : Prop :=
  match f with
  | FixDone t => exists c, rb c (parent_height cp n) t /\ (cp = RB_BLACK -> c = RB_BLACK)
  | FixUp t => cp = RB_BLACK /\ rb RB_BLACK (S n) t
  end.

Lemma erase_fix_l_balanced cp gp n l p s :
  rb RB_BLACK n l -> rb RB_BLACK (S n) s ->
  exists f, erase_fix_l rbcompute cp gp l p s = Some f /\ fix_ok cp n f.
Proof.
  intros Hl Hs. inversion Hs as [| |? ? ? gs sl x sr Hsl Hsr]; subst.
  destruct (is_red sr) eqn:Hr; [|pose proof (rb_not_red _ _ _ Hsr Hr)]; simpl; rewrite Hr.
  { inversion Hsr; subst; simplify_eq/=.
    destruct cp; eexists; (split; [done|]); eexists; eauto with lego. }
  inversion Hsl; subst; destruct cp; (eexists; split; [done|]); simpl;
    first [ split; [done|]; solve [eauto using rb_black_set with lego]
          | eexists; split; [solve [eauto using rb_black_set with lego]|done] ].
Qed.

Lemma erase_fix_r_balanced cp gp n s p r :
  rb RB_BLACK n r -> rb RB_BLACK (S n) s ->
  exists f, erase_fix_r rbcompute cp gp s p r = Some f /\ fix_ok cp n f.
Proof.
  intros Hl Hs. inversion Hs as [| |? ? ? gs sl x sr Hsl Hsr]; subst.
  destruct (is_red sl) eqn:Hr; [|pose proof (rb_not_red _ _ _ Hsl Hr)]; simpl; rewrite Hr.
  { inversion Hsl; subst; simplify_eq/=.
    destruct cp; eexists; (split; [done|]); eexists; eauto with lego. }
  inversion Hsr; subst; destruct cp; (eexists; split; [done|]); simpl;
    first [ split; [done|]; solve [eauto using rb_black_set with lego]
          | eexists; split; [solve [eauto using rb_black_set with lego]|done] ].
Qed.

Lemma erase_step_l_balanced cp gp n cs l p s :
  rb RB_BLACK n l -> rb cs (S n) s -> (cp = RB_RED -> cs = RB_BLACK) ->
  exists f, erase_step_l rbcompute cp gp l p s = Some f /\ fix_ok cp n f.
Proof.
  intros Hl Hs Hc. inversion Hs as [|? gs sl x sr Hsl Hsr|]; subst;
    [|by apply erase_fix_l_balanced].
  destruct cp; [by specialize (Hc eq_refl)|].
  destruct sl as [|csl gsl sll slx slr]; [inversion Hsl|].
  destruct (erase_fix_l_balanced RB_RED
    (rbcompute p (aug l) (Some gsl)) n l p _ Hl (rb_black_set _ _ Hsl)) as (f & Hf & Hok).
  simpl in Hf |- *. rewrite Hf. destruct f as [t|t]; [|by destruct Hok].
  eexists; split; [done|]. destruct Hok as (c & Ht & _). simpl in *. eauto with lego.
Qed.

Lemma erase_step_r_balanced cp gp n cs s p r :
  rb RB_BLACK n r -> rb cs (S n) s -> (cp = RB_RED -> cs = RB_BLACK) ->
  exists f, erase_step_r rbcompute cp gp s p r = Some f /\ fix_ok cp n f.
Proof.
  intros Hl Hs Hc. inversion Hs as [|? gs sl x sr Hsl Hsr|]; subst;
    [|by apply erase_fix_r_balanced].
  destruct cp; [by specialize (Hc eq_refl)|].
  destruct sr as [|csl gsl sll slx slr]; [inversion Hsr|].
  destruct (erase_fix_r_balanced RB_RED
    (rbcompute p (Some gsl) (aug r)) n _ p r Hl (rb_black_set _ _ Hsr)) as (f & Hf & Hok).
  simpl in Hf |- *. rewrite Hf. destruct f as [t|t]; [|by destruct Hok].
  eexists; split; [done|]. destruct Hok as (c & Ht & _). simpl in *. eauto with lego.
Qed.

(** Loop invariant of [____rb_erase_color]: the paths through [node] have one black
    node less than the paths through its sibling. *)
Lemma erase_loop_balanced (b : bool) cp gp n cs l p r z :
  (if b then rb RB_BLACK n l /\ rb cs (S n) r else rb cs (S n) l /\ rb RB_BLACK n r) ->
  (cp = RB_RED -> cs = RB_BLACK) ->
  ctx_ok cp (parent_height cp n) z ->
  exists t, erase_loop rbcompute b cp gp l p r z = Some t /\ rb_tree t.
Proof.
  revert b cp gp n cs l p r. induction z as [|f z IH]; intros b cp gp n cs l p r Hlr Hc Hz;
    (assert (exists f', (if b then erase_step_l rbcompute cp gp l p r
       else erase_step_r rbcompute cp gp l p r) = Some f' /\ fix_ok cp n f')
       as (f' & Hf' & Hok)
       by (destruct b, Hlr; eauto using erase_step_l_balanced, erase_step_r_balanced));
    simpl; rewrite Hf'; destruct f' as [t|t]; simpl in Hok.
  1,3: (destruct Hok as (c & Ht & Hbl); eexists; split; [done|];
    match type of Hz with ctx_ok _ _ ?zz =>
      apply (ctx_plug c (parent_height cp n) zz t); [|done] end;
    destruct c, cp; eauto using ctx_weaken; naive_solver).
  - destruct Hok as [-> Ht]. eexists; split; [done|]. by eexists.
  - destruct Hok as [-> Ht]. inversion Hz; subst; simpl in *;
      eapply IH; eauto; naive_solver.
Qed.

Lemma same_frame_ctx c n z z' : Forall2 same_frame z z' -> ctx_ok c n z -> ctx_ok c n z'.
Proof.
  intros Hs Hz. revert z' Hs. induction Hz; intros z' Hs; inversion Hs as [|? f' ? zz Hf]; subst;
    try destruct f'; simpl in *; destruct_and?; subst; try done; eauto with lego.
Qed.

Lemma same_frame_refl f : same_frame (A := A) (G := G) f f.
Proof. by destruct f. Qed.

Lemma propagate_same gh z : Forall2 same_frame z (propagate rbcompute gh z).
Proof.
  revert gh. induction z as [|[c g x r|c g l x] z IH]; intros gh; simpl; [done|..];
    (case_decide; [apply Forall_Forall2_diag, Forall_true, same_frame_refl|]);
    constructor; simpl; auto.
Qed.

(** Removing a node without left child: either its only child, painted black, takes
    its place, or a black node is missing and [rebalance] is set. *)
Lemma splice_balanced c n g x r z :
  rb c n (Node c g Leaf x r) -> ctx_ok c n z ->
  if is_leaf r && bool_decide (c = RB_BLACK) then ctx_ok RB_BLACK 1 z
  else exists m, rb RB_BLACK m (set_color RB_BLACK r) /\ ctx_ok RB_BLACK m z.
Proof.
  intros Ht Hz. inversion Ht as [|? ? ? ? ? Hl Hr|? ? ? ? ? ? ? Hl Hr]; subst;
    inversion Hl; subst; inversion Hr; subst; simpl; eauto using ctx_weaken with lego.
Qed.

Lemma splice_color c n g x r :
  rb c n (Node c g Leaf x r) -> set_color c r = set_color RB_BLACK r.
Proof.
  inversion 1 as [|? ? ? ? ? Hl Hr|]; subst; [|done].
  inversion Hl; subst. by inversion Hr; subst.
Qed.

Lemma leftmost_app t z z0 c x r path :
  leftmost t z = Some (c, x, r, path) -> leftmost t (z ++ z0) = Some (c, x, r, path ++ z0).
Proof.
  revert z. induction t as [|c' g' l IHl x' r' IHr]; intros z; simpl; [done|].
  destruct l; [intros; by simplify_eq|]. apply IHl.
Qed.

Lemma leftmost_balanced c n t z cs s c2 path :
  rb c n t -> ctx_ok c n z -> leftmost t z = Some (cs, s, c2, path) ->
  exists m g, rb cs m (Node cs g Leaf s c2) /\ ctx_ok cs m path.
Proof.
  intros Ht. revert z. induction Ht as [|n g l x r Hl IHl Hr _|n cl cr g l x r Hl IHl Hr _];
    intros z Hz; simpl; [done|..]; (destruct l as [|cl' gl ll lx lr];
      [intros; simplify_eq; do 2 eexists; split; [|exact Hz]; eauto with lego
      |intros Hm; eapply IHl; [|exact Hm]; eauto with lego]).
  Unshelve. all: exact g.
Qed.

(** Erasing a node: no null pointer is followed and the balance is restored. *)
Lemma rb_erase_balanced c n g l x r z :
  rb c n (Node c g l x r) -> ctx_ok c n z ->
  exists t, rb_erase_augmented rbcompute c g l r z = Some t /\ rb_tree t.
Proof.
  intros Ht Hz.
  (* what every branch of [__rb_erase_augmented] establishes *)
  assert (forall cs m gs s c2 zz zz', rb cs m (Node cs gs Leaf s c2) -> ctx_ok cs m zz ->
    Forall2 same_frame zz zz' ->
    exists t, (if is_leaf c2 && bool_decide (cs = RB_BLACK) then
      match zz' with
      | [] => Some (set_color RB_BLACK c2)
      | FrameL pc pg px pr :: z'' =>
          ____rb_erase_color rbcompute pc pg (set_color RB_BLACK c2) px pr z''
      | FrameR pc pg pl px :: z'' =>
          ____rb_erase_color rbcompute pc pg pl px (set_color RB_BLACK c2) z''
      end else Some (plug zz' (set_color RB_BLACK c2))) = Some t /\ rb_tree t) as Hfin.
  { intros cs m gs s c2 zz zz' Hs Hzz Hsame.
    pose proof (splice_balanced _ _ _ _ _ _ Hs Hzz) as Hsp.
    destruct (is_leaf c2 && _) eqn:Hb.
    - apply andb_true_iff in Hb as [Hb _]. destruct c2; [|done]. clear Hb.
      apply (same_frame_ctx _ _ _ _ Hsame) in Hsp. clear Hsame. unfold ____rb_erase_color.
      inversion Hsp as [|? ? ? pr ? Hpr|? ? ? ? ? Hpr|? ? ? ? ? pr ? Hpr|]; subst;
        [eexists; split; [done|]; eexists; eauto with lego| | | |].
      + destruct pr; [inversion Hpr|]. eapply (erase_loop_balanced true RB_RED _ 0); eauto with lego.
      + eapply (erase_loop_balanced false RB_RED _ 0); eauto with lego.
      + destruct pr; [inversion Hpr|]. eapply (erase_loop_balanced true RB_BLACK _ 0); eauto with lego. done.
      + eapply (erase_loop_balanced false RB_BLACK _ 0); eauto with lego. done.
    - destruct Hsp as (m' & Hc2 & Hctx). eexists; split; [done|].
      eapply ctx_plug; eauto using same_frame_ctx. }
  unfold rb_erase_augmented, __rb_erase_augmented.
  destruct l as [|cl gl ll lx lr].
  { rewrite (splice_color _ _ _ _ _ Ht). eapply Hfin; eauto using propagate_same. }
  destruct r as [|cr gr rl rx rr].
  { eexists; split; [done|].
    inversion Ht as [|? ? ? ? ? Hl Hr|? ? ? ? ? ? ? Hl Hr]; subst; inversion Hr; subst;
      inversion Hl; subst.
    apply (ctx_plug RB_BLACK 1); eauto using same_frame_ctx, propagate_same with lego. }
  assert (Hr : exists cr' m, rb cr' m (Node cr gr rl rx rr) /\
    forall s, ctx_ok cr' m (FrameR c g (Node cl gl ll lx lr) s :: z)).
  { inversion Ht; subst; do 2 eexists; (split; [eassumption|]); eauto with lego. }
  destruct Hr as (cr' & m & Hr & Hctx).
  destruct rl as [|crl grl rll rlx rlr].
  { assert (cr' = cr) as -> by (by inversion Hr).
    eapply Hfin; [exact Hr|apply Hctx|apply propagate_same]. }
  destruct (leftmost_Some cr gr (Node crl grl rll rlx rlr) rx rr []) as (cs&s&c2&path&Hl).
  rewrite Hl.
  pose proof (leftmost_app _ _ (FrameR c g (Node cl gl ll lx lr) s :: z) _ _ _ _ Hl) as Hl'.
  destruct (leftmost_balanced _ _ _ _ _ _ _ _ Hr (Hctx s) Hl') as (m' & gs & Hs & Hpath).
  eapply Hfin; [exact Hs|exact Hpath|]. apply Forall2_app; apply propagate_same.
Qed.

(** ** Depth *)

Lemma rb_size_lower c n t : rb c n t -> (2 ^ n <= length (elements t) + 1)%nat.
Proof.
  induction 1 as [|n g l x r _ IHl _ IHr|n cl cr g l x r _ IHl _ IHr]; simpl; [lia|..];
    rewrite length_app; simpl; lia.
Qed.

Lemma rb_height_upper c n t :
  rb c n t -> (height t <= 2 * n + match c with RB_RED => 1 | RB_BLACK => 0 end)%nat.
Proof.
  induction 1 as [|n g l x r _ IHl _ IHr|n cl cr g l x r _ IHl _ IHr]; simpl; [lia|lia|].
  destruct cl, cr; lia.
Qed.

Lemma rb_height_log t :
  rb_tree t -> (height t <= 2 * Nat.log2 (length (elements t) + 1))%nat.
Proof.
  intros [n Hn]. pose proof (rb_size_lower _ _ _ Hn).
  pose proof (rb_height_upper _ _ _ Hn) as Hh. simpl in Hh.
  assert (n <= Nat.log2 (length (elements t) + 1))%nat; [|lia].
  rewrite <- (Nat.log2_pow2 n) by lia. by apply Nat.log2_le_mono.
Qed.

End BalanceFacts.

(** ** Augmented fields

    The rotation callback gives the new subtree root the old root's value.  That is
    right when the value of a subtree does not depend on its shape, which is the law
    required of [rbcompute]. *)

Class RotationInvariant {A G : Type} (rbcompute : A -> option G -> option G -> G) : Prop :=
  rotation_law : forall x y a b c,
    rbcompute x (Some (rbcompute y a b)) c = rbcompute y a (Some (rbcompute x b c)).

Section Augmentation.
Context {A G : Type} `{EqDecision G}.
Variable rbcompute : A -> option G -> option G -> G.
Implicit Types (t l r : rbtree A G) (z : list (frame A G)).

(** Every stored field is what [rbcompute] gives. *)
Fixpoint aug_ok (t : rbtree A G) : Prop :=
  match t with
  | Leaf => True
  | Node _ g l x r => g = rbcompute x (aug l) (aug r) /\ aug_ok l /\ aug_ok r
  end.

(** The same for the frames of a context whose hole holds a subtree of value [gh]. *)
Fixpoint ctx_aug (gh : option G) (z : list (frame A G)) : Prop :=
  match z with
  | [] => True
  | FrameL _ g x r :: z' =>
      g = rbcompute x gh (aug r) /\ aug_ok r /\ ctx_aug (Some g) z'
  | FrameR _ g l x :: z' =>
      g = rbcompute x (aug l) gh /\ aug_ok l /\ ctx_aug (Some g) z'
  end.

Lemma aug_ok_set_color c t : aug_ok (set_color c t) <-> aug_ok t.
Proof. by destruct t. Qed.

Lemma aug_ok_plug z t : aug_ok (plug z t) <-> aug_ok t /\ ctx_aug (aug t) z.
Proof.
  revert t. induction z as [|[c g x r|c g l x] z IH]; intros t; simpl; [tauto|..];
    rewrite IH; simpl; tauto.
Qed.

(** [propagate] repairs a context that was right for another value of the hole. *)
Lemma propagate_aug gh gh' z : ctx_aug gh z -> ctx_aug gh' (propagate rbcompute gh' z).
Proof.
  revert gh gh'. induction z as [|[c g x r|c g l x] z IH]; intros gh gh' Hz; simpl; [done|..];
    destruct Hz as (? & ? & Hz); case_decide; simpl; eauto.
Qed.

Lemma propagate_node_aug c g l x r z n z' :
  aug_ok l -> aug_ok r -> ctx_aug (Some g) z ->
  propagate_node rbcompute c g l x r z = (n, z') -> aug_ok n /\ ctx_aug (aug n) z'.
Proof.
  intros Hl Hr Hz. unfold propagate_node.
  case_decide; intros; simplify_eq; simpl; eauto using propagate_aug.
Qed.

Lemma propagate_node_shape c g l x r z n z' :
  propagate_node rbcompute c g l x r z = (n, z') ->
  (exists g', n = Node c g' l x r) /\ Forall2 same_frame z z' /\
  before z' = before z /\ after z' = after z.
Proof.
  unfold propagate_node. case_decide; intros; simplify_eq.
  - split_and!; eauto. apply Forall_Forall2_diag, Forall_true, same_frame_refl.
  - rewrite propagate_before, propagate_after. split_and!; eauto. apply propagate_same.
Qed.

Section Rotations.
Context `{!RotationInvariant rbcompute}.

Lemma rb_insert_aug t z t' :
  aug_ok t -> ctx_aug (aug t) z -> __rb_insert rbcompute t z = Some t' -> aug_ok t'.
Proof.
  revert t. induction z as [z IH] using ctx_length_ind; intros t Ht Hz Hi.
  destruct t as [|cn gn nl nx nr]; [by destruct z|].
  destruct z as [|fp [|[gc gg gx u|gc gg u gx] z2]]; simpl in Hi.
  - simplify_eq. done.
  - destruct (frame_color fp); simplify_eq. change (aug_ok (plug [fp] (Node cn gn nl nx nr))).
    by apply aug_ok_plug.
  - destruct (frame_color fp);
      [|simplify_eq; change (aug_ok (plug (fp :: FrameL gc gg gx u :: z2) (Node cn gn nl nx nr)));
        by apply aug_ok_plug].
    destruct (is_red u).
    + eapply IH in Hi; [done|simpl; lia|..]; destruct fp; simpl in *; destruct_and!;
        rewrite ?aug_set_color, ?aug_ok_set_color; subst; tauto.
    + destruct fp; simplify_eq; apply aug_ok_plug; simpl in *; destruct_and!; subst;
        rewrite ?aug_set_color, ?aug_ok_set_color; repeat split; auto; by rewrite ?rotation_law.
  - destruct (frame_color fp);
      [|simplify_eq; change (aug_ok (plug (fp :: FrameR gc gg u gx :: z2) (Node cn gn nl nx nr)));
        by apply aug_ok_plug].
    destruct (is_red u).
    + eapply IH in Hi; [done|simpl; lia|..]; destruct fp; simpl in *; destruct_and!;
        rewrite ?aug_set_color, ?aug_ok_set_color; subst; tauto.
    + destruct fp; simplify_eq; apply aug_ok_plug; simpl in *; destruct_and!; subst;
        rewrite ?aug_set_color, ?aug_ok_set_color; repeat split; auto; by rewrite ?rotation_law.
Qed.

Lemma erase_fix_l_aug cp gp l p s f :
  aug_ok l -> aug_ok s -> gp = rbcompute p (aug l) (aug s) ->
  erase_fix_l rbcompute cp gp l p s = Some f ->
  aug_ok (fix_tree f) /\ aug (fix_tree f) = Some gp.
Proof.
  intros Hl Hs Hg. destruct s as [|cs gs [|[] gsl sll slx slr] s sr]; simpl; intros Hf; [done|..];
    destruct (is_red sr); try destruct cp; simplify_eq; simpl in *; destruct_and!; subst;
    rewrite ?aug_set_color, ?aug_ok_set_color; repeat split; auto; by rewrite ?rotation_law.
Qed.

Lemma erase_fix_r_aug cp gp s p r f :
  aug_ok s -> aug_ok r -> gp = rbcompute p (aug s) (aug r) ->
  erase_fix_r rbcompute cp gp s p r = Some f ->
  aug_ok (fix_tree f) /\ aug (fix_tree f) = Some gp.
Proof.
  intros Hs Hr Hg. destruct s as [|cs gs sl s [|[] gsr srl srx srr]]; simpl; intros Hf; [done|..];
    destruct (is_red sl); try destruct cp; simplify_eq; simpl in *; destruct_and!; subst;
    rewrite ?aug_set_color, ?aug_ok_set_color; repeat split; auto; by rewrite ?rotation_law.
Qed.

Lemma erase_step_l_aug cp gp l p s f :
  aug_ok l -> aug_ok s -> gp = rbcompute p (aug l) (aug s) ->
  erase_step_l rbcompute cp gp l p s = Some f ->
  aug_ok (fix_tree f) /\ aug (fix_tree f) = Some gp.
Proof.
  intros Hl Hs Hg. destruct s as [|[] gs sl s sr];
    [by apply erase_fix_l_aug| |by apply erase_fix_l_aug].
  simpl. destruct (is_leaf sl); [done|]. destruct Hs as (Hgs & Hsl & Hsr).
  destruct (erase_fix_l _ _ _ _ _ _) as [[t|t]|] eqn:Hf; intros; simplify_eq.
  apply erase_fix_l_aug in Hf as [Ht Hv]; rewrite ?aug_ok_set_color, ?aug_set_color; auto.
  simpl in *. rewrite Hv. by rewrite rotation_law.
Qed.

Lemma erase_step_r_aug cp gp s p r f :
  aug_ok s -> aug_ok r -> gp = rbcompute p (aug s) (aug r) ->
  erase_step_r rbcompute cp gp s p r = Some f ->
  aug_ok (fix_tree f) /\ aug (fix_tree f) = Some gp.
Proof.
  intros Hs Hr Hg. destruct s as [|[] gs sl s sr];
    [by apply erase_fix_r_aug| |by apply erase_fix_r_aug].
  simpl. destruct (is_leaf sr); [done|]. destruct Hs as (Hgs & Hsl & Hsr).
  destruct (erase_fix_r _ _ _ _ _ _) as [[t|t]|] eqn:Hf; intros; simplify_eq.
  apply erase_fix_r_aug in Hf as [Ht Hv]; rewrite ?aug_ok_set_color, ?aug_set_color; auto.
  simpl in *. rewrite Hv. by rewrite rotation_law.
Qed.

Lemma erase_loop_aug b cp gp l p r z t :
  aug_ok l -> aug_ok r -> gp = rbcompute p (aug l) (aug r) -> ctx_aug (Some gp) z ->
  erase_loop rbcompute b cp gp l p r z = Some t -> aug_ok t.
Proof.
  revert b cp gp l p r. induction z as [|f z IH]; intros b cp gp l p r Hl Hr Hg Hz; simpl;
    destruct (if b then _ else _) as [fr|] eqn:Hs; try done;
    (assert (aug_ok (fix_tree fr) /\ aug (fix_tree fr) = Some gp) as [Ht Hv]
      by (destruct b; [apply (erase_step_l_aug cp gp l p r)|apply (erase_step_r_aug cp gp l p r)];
          auto)).
  - destruct fr; intros; by simplify_eq.
  - destruct fr as [t'|t']; simpl in Ht, Hv; [|destruct f as [c g x r'|c g l' x]].
    + intros; simplify_eq. change (aug_ok (plug (f :: z) t')). apply aug_ok_plug.
      by rewrite Hv.
    + destruct Hz as (? & ? & Hz). rewrite <- Hv in *. eauto.
    + destruct Hz as (? & ? & Hz). rewrite <- Hv in *. eauto.
Qed.

Lemma ctx_aug_app t z1 z2 :
  ctx_aug (aug t) z1 -> ctx_aug (aug (plug z1 t)) z2 -> ctx_aug (aug t) (z1 ++ z2).
Proof.
  revert t. induction z1 as [|[c g x r|c g l x] z1 IH]; intros t; simpl; [done|..];
    intros (? & ? & Hz) H2; (split; [done|split; [done|]]).
  - apply (IH (Node c g t x r)); done.
  - apply (IH (Node c g l x t)); done.
Qed.

Lemma leftmost_aug t z c x r path :
  aug_ok t -> ctx_aug (aug t) z -> leftmost t z = Some (c, x, r, path) ->
  aug_ok r /\ exists gh, ctx_aug gh path.
Proof.
  revert z. induction t as [|c' g' l IHl x' r' _]; intros z Ht Hz; simpl; [done|].
  simpl in Ht. destruct Ht as (Hg & Hl & Hr).
  destruct l as [|cl gl ll lx lr]; [intros; simplify_eq; eauto|].
  intros Hm. eapply IHl; [done| |exact Hm]. simpl in *. done.
Qed.

Lemma propagate_frame_r gh c g l x z :
  aug_ok l -> ctx_aug (Some g) z ->
  ctx_aug gh (propagate rbcompute gh (FrameR c g l x :: z)).
Proof. intros Hl Hz. simpl. case_decide; simpl; eauto using propagate_aug. Qed.

(** Only the erased node's own field may be wrong on entry. *)
Lemma rb_erase_aug c g l r z t :
  aug_ok l -> aug_ok r -> ctx_aug (Some g) z ->
  rb_erase_augmented rbcompute c g l r z = Some t -> aug_ok t.
Proof.
  intros Hl Hr Hz. unfold rb_erase_augmented, ____rb_erase_color.
  destruct (__rb_erase_augmented _ _ _ _ _ _) as [[t' z'] b] eqn:He.
  assert (aug_ok t' /\ ctx_aug (aug t') z') as [Ht Hz'].
  { unfold __rb_erase_augmented in He.
    destruct l as [|cl gl ll lx lr];
      [simplify_eq; rewrite aug_ok_set_color, aug_set_color; eauto using propagate_aug|].
    destruct r as [|cr gr rl rx rr];
      [simplify_eq; rewrite aug_ok_set_color, aug_set_color; eauto using propagate_aug|].
    destruct rl as [|crl grl rll rlx rlr].
    { apply pair_equal_spec in He as [[<- <-]%pair_equal_spec _].
      rewrite aug_ok_set_color, aug_set_color. simpl in Hr. split; [tauto|].
      apply propagate_frame_r; tauto. }
    destruct (leftmost_Some cr gr (Node crl grl rll rlx rlr) rx rr []) as (cs&s&c2&path&Hm).
    rewrite Hm in He. apply pair_equal_spec in He as [[<- <-]%pair_equal_spec _].
    destruct (leftmost_aug _ [] _ _ _ _ Hr I Hm) as [Hc2 [gh Hpath]].
    rewrite aug_ok_set_color, aug_set_color. split; [done|].
    apply ctx_aug_app; [by eapply propagate_aug|]. by apply propagate_frame_r. }
  destruct b; [|intros; simplify_eq; by apply aug_ok_plug].
  destruct z' as [|[pc pg px pr|pc pg pl px] z'']; [intros; by simplify_eq|..];
    destruct Hz' as (? & ? & ?); intros Hi; eapply erase_loop_aug in Hi; eauto.
Qed.

End Rotations.
End Augmentation.

(** ** Iteration *)

Section Iteration.
Context {A G : Type}.
Implicit Types (t l r : rbtree A G) (z : list (frame A G)).

Lemma elements_nil t : elements t = [] <-> t = Leaf.
Proof. destruct t; simpl; [tauto|]. split; [|done]. by intros ?%eq_sym%app_cons_not_nil. Qed.

Lemma rb_first_head t : rb_first t = list.head (elements t).
Proof.
  induction t as [|c g l IHl x r _]; simpl; [done|].
  destruct l as [|cl gl ll lx lr]; [done|]. rewrite IHl. simpl.
  by destruct (elements ll).
Qed.

Lemma rb_last_last t : rb_last t = list.last (elements t).
Proof.
  induction t as [|c g l _ x r IHr]; simpl; [done|].
  destruct r as [|cr gr rl rx rr]; [simpl; by rewrite last_snoc|].
  rewrite IHr, last_app_cons. simpl elements. by destruct (elements rl).
Qed.

Lemma climb_next_head z : climb_next z = list.head (after z).
Proof. induction z as [|[] z IH]; done. Qed.

Lemma climb_prev_last z : climb_prev z = list.last (before z).
Proof.
  induction z as [|[c g x r|c g l x] z IH]; simpl; [done|done|].
  by rewrite app_assoc, last_snoc.
Qed.

(** [rb_next] of the node [x] is the element that follows [x] in the tree. *)
Lemma rb_next_successor c g l x r z :
  elements (plug z (Node c g l x r)) = (before z ++ elements l) ++ x :: (elements r ++ after z)
  /\ rb_next r z = list.head (elements r ++ after z).
Proof.
  split; [rewrite elements_plug; simpl; by rewrite <- !app_assoc|].
  unfold rb_next. destruct r as [|cr gr rl rx rr]; simpl; [apply climb_next_head|].
  change (rb_first (Node cr gr rl rx rr) = list.head ((elements rl ++ rx :: elements rr) ++ after z)).
  rewrite rb_first_head. simpl. by destruct (elements rl).
Qed.

Lemma rb_prev_predecessor c g l x r z :
  elements (plug z (Node c g l x r)) = (before z ++ elements l) ++ x :: (elements r ++ after z)
  /\ rb_prev l z = list.last (before z ++ elements l).
Proof.
  split; [rewrite elements_plug; simpl; by rewrite <- !app_assoc|].
  unfold rb_prev. destruct l as [|cl gl ll lx lr]; simpl;
    [rewrite app_nil_r; apply climb_prev_last|].
  change (rb_last (Node cl gl ll lx lr) = list.last (before z ++ elements (Node cl gl ll lx lr))).
  rewrite rb_last_last, last_app.
  destruct (list.last (elements (Node cl gl ll lx lr))) eqn:E; [done|].
  apply last_None, elements_nil in E. done.
Qed.

Fixpoint post_after (z : list (frame A G)) : list A :=
  match z with
  | [] => []
  | FrameL _ _ x r :: z' => postorder r ++ x :: post_after z'
  | FrameR _ _ _ x :: z' => x :: post_after z'
  end.

Fixpoint post_before (z : list (frame A G)) : list A :=
  match z with
  | [] => []
  | FrameL _ _ _ _ :: z' => post_before z'
  | FrameR _ _ l _ :: z' => post_before z' ++ postorder l
  end.

Lemma postorder_plug z t : postorder (plug z t) = post_before z ++ postorder t ++ post_after z.
Proof.
  revert t. induction z as [|[c g x r|c g l x] z IH]; intros t; simpl;
    [by rewrite app_nil_r|..]; rewrite IH; simpl; by rewrite <- !app_assoc.
Qed.

Lemma left_deepest_head t : rb_left_deepest_node t = list.head (postorder t).
Proof.
  induction t as [|c g l IHl x r IHr]; [done|].
  destruct l as [|cl gl ll lx lr]; [destruct r as [|cr gr rl rx rr]; [done|]|].
  - change (rb_left_deepest_node (Node cr gr rl rx rr)
      = list.head (postorder (Node cr gr rl rx rr) ++ [x])).
    rewrite IHr, head_app. simpl. rewrite !head_app. by repeat case_match.
  - change (rb_left_deepest_node (Node cl gl ll lx lr)
      = list.head (postorder (Node cl gl ll lx lr) ++ postorder r ++ [x])).
    rewrite IHl, head_app. simpl. rewrite !head_app. by repeat case_match.
Qed.

(** The two post-order functions enumerate [postorder]. *)
Lemma rb_postorder_enumerates z t :
  postorder (plug z t) = post_before z ++ postorder t ++ post_after z /\
  rb_first_postorder t = list.head (postorder t) /\
  rb_next_postorder z = list.head (post_after z).
Proof.
  split_and!; [apply postorder_plug|apply left_deepest_head|].
  destruct z as [|[c g x r|c g l x] z]; simpl; [done| |done].
  destruct r as [|cr gr rl rx rr]; [done|].
  change (rb_left_deepest_node (Node cr gr rl rx rr)
    = list.head (postorder (Node cr gr rl rx rr) ++ x :: post_after z)).
  rewrite left_deepest_head, head_app. simpl. rewrite !head_app. by repeat case_match.
Qed.

Lemma rb_replace_elements c l r z new gnew :
  elements (rb_replace_node c l r z new gnew)
  = (before z ++ elements l) ++ new :: (elements r ++ after z).
Proof. unfold rb_replace_node. rewrite elements_plug. simpl. by rewrite <- !app_assoc. Qed.

Lemma locate_sound `{EqDecision A} x t z c g l r z' :
  locate x t z = Some (c, g, l, r, z') -> plug z' (Node c g l x r) = plug z t.
Proof.
  revert z. induction t as [|c' g' l' IHl y r' IHr]; intros z; simpl; [done|].
  case_decide; [intros; by simplify_eq|].
  destruct (locate x l' _) eqn:E; intros Hx; [simplify_eq; exact (IHl _ E)|exact (IHr _ Hx)].
Qed.

Lemma locate_complete `{EqDecision A} x t z :
  x ∈ elements t -> is_Some (locate x t z).
Proof.
  revert z. induction t as [|c g l IHl y r IHr]; intros z; simpl; [by intros ?%not_elem_of_nil|].
  rewrite elem_of_app, elem_of_cons. case_decide; [eauto|].
  destruct (locate x l _) eqn:E; [eauto|]. intros [Hl|[->|Hr]]; [|done|by apply IHr].
  destruct (IHl (FrameL c g y r :: z) Hl). congruence.
Qed.

End Iteration.

(** ** What a client of the library gets *)

Section Client.
Context {A G : Type} `{EqDecision G}.
Variable rbcompute : A -> option G -> option G -> G.
Context `{!RotationInvariant rbcompute}.
Implicit Types (t l r : rbtree A G) (z : list (frame A G)).

(** Link a node with the augmented value [g0], update the path, rebalance. *)
Definition rb_add (x : A) (g0 : G) (z : list (frame A G)) : option (rbtree A G) :=
  let '(n, z') := propagate_node rbcompute RB_RED g0 Leaf x Leaf z in
  rb_insert_augmented rbcompute n z'.

Lemma rb_add_spec x g0 z :
  rb_tree (plug z Leaf) -> ctx_aug rbcompute (Some g0) z ->
  exists t, rb_add x g0 z = Some t /\ elements t = before z ++ x :: after z /\
    rb_tree t /\ aug_ok rbcompute t.
Proof.
  intros Hrb Hz. unfold rb_add, rb_insert_augmented.
  destruct (propagate_node _ _ _ _ _ _ _) as [n z'] eqn:Hp.
  destruct (propagate_node_shape _ _ _ _ _ _ _ _ _ Hp) as ((g' & ->) & Hs & Hb & Ha).
  destruct (propagate_node_aug rbcompute _ _ Leaf _ Leaf _ _ _ I I Hz Hp) as [Hn Hz'].
  apply ctx_unplug in Hrb as (c & m & Hl & Hc). inversion Hl; subst.
  assert (Ht : rb RB_RED 0 (Node RB_RED g' Leaf x Leaf)) by eauto with lego.
  destruct (rb_insert_balanced rbcompute 0 _ z' Ht (same_frame_ctx _ _ _ _ Hs Hc))
    as (t & Hi & Hbal).
  exists t. split_and!; [done| |done|by eapply rb_insert_aug].
  rewrite (rb_insert_elements _ _ _ _ Hi), Hb, Ha. done.
Qed.

Lemma rb_erase_spec c g l x r z :
  rb_tree (plug z (Node c g l x r)) ->
  aug_ok rbcompute l -> aug_ok rbcompute r -> ctx_aug rbcompute (Some g) z ->
  exists t, rb_erase_augmented rbcompute c g l r z = Some t /\
    elements t = (before z ++ elements l) ++ (elements r ++ after z) /\
    rb_tree t /\ aug_ok rbcompute t.
Proof.
  intros Hrb Hl Hr Hz. apply ctx_unplug in Hrb as (c' & m & Ht & Hc).
  assert (c' = c) as -> by (by inversion Ht).
  destruct (rb_erase_balanced rbcompute _ _ _ _ _ _ _ Ht Hc) as (t & He & Hbal).
  exists t. split_and!; [done| |done|by eapply (rb_erase_aug rbcompute c g l r z)].
  rewrite (rb_erase_elements _ _ _ _ _ _ _ He). by rewrite <- !app_assoc.
Qed.

End Client.
