(* ===== verification/RbTheorems.v ===== *)
(** * Red-black trees: the theorems

    Insertion and erasure keep the sequence of elements, the colour and
    black-height rules and the augmented fields, and never dereference a null
    pointer; iteration in both directions and in postorder enumerates the nodes;
    the height is logarithmic. *)

From S2P Require Import Prelude RbTree.

(** An augmentation for the examples: the largest element of the subtree *)
Definition subtree_max (x : Z) (l r : option Z) : Z :=
  Z.max x (Z.max (default x l) (default x r)).

#[export] Instance subtree_max_rotation : RotationInvariant subtree_max.
Proof. intros x y [a|] [b|] [c|]; unfold subtree_max; simpl; lia. Qed.

(** The tree 2(1,4(3,-)) and the position right of 4 *)
Definition tree4 : rbtree Z Z :=
  Node RB_BLACK 4 (Node RB_BLACK 1 Leaf 1 Leaf) 2 (Node RB_BLACK 4 (Node RB_RED 3 Leaf 3 Leaf) 4 Leaf).
Definition hole4 : list (frame Z Z) :=
  [FrameR RB_BLACK 4 (Node RB_RED 3 Leaf 3 Leaf) 4; FrameR RB_BLACK 4 (Node RB_BLACK 1 Leaf 1 Leaf) 2].

Lemma tree4_rb : rb_tree tree4.
Proof. exists 2%nat. repeat econstructor. Qed.

Lemma postorder_elements {A G : Type} (t : rbtree A G) : postorder t ≡ₚ elements t.
Proof.
  induction t as [|c g l IHl x r IHr]; simpl; [done|]. rewrite IHl, IHr.
  by rewrite <- Permutation_cons_append.
Qed.

(** (C21) Insertion.  Linking a node [x] at any empty position [z] of a red-black tree
    whose augmented fields are right apart from the path above the new node (which is
    computed as if the hole had value [g0]), updating the path and rebalancing with
    [__rb_insert] succeeds (no null pointer is followed, the loop ends); the in-order
    sequence gets [x] at that position and nothing else changes; the result is a
    red-black tree; every augmented field is what the callback computes. *)
Theorem rb_insert_correct {A G : Type} `{EqDecision G} (rbcompute : A -> option G -> option G -> G)
    `{!RotationInvariant rbcompute} (x : A) (g0 : G) (z : list (frame A G)) :
  rb_tree (plug z Leaf) -> ctx_aug rbcompute (Some g0) z ->
  exists t, rb_add rbcompute x g0 z = Some t /\
    elements (plug z Leaf) = before z ++ after z /\ elements t = before z ++ x :: after z /\
    rb_tree t /\ aug_ok rbcompute t.
Proof.
  intros Hrb Hz. destruct (rb_add_spec rbcompute x g0 z Hrb Hz) as (t & ? & ? & ? & ?).
  exists t. split_and!; try done. by rewrite elements_plug.
Qed.

Lemma rb_insert_correct_witness :
  exists t, rb_add subtree_max 5 0 hole4 = Some t /\
    elements (plug hole4 Leaf) = before hole4 ++ after hole4 /\
    elements t = before hole4 ++ 5 :: after hole4 /\ rb_tree t /\ aug_ok subtree_max t.
Proof.
  apply (rb_insert_correct subtree_max 5 0 hole4); [apply tree4_rb|].
  repeat split; vm_compute; reflexivity.
Defined.

(** (C22) Erasure.  Erasing any node [x] of a red-black tree with right augmented
    fields ([g] may be stale below) succeeds; the in-order sequence loses exactly that node; the
    result is a red-black tree with right augmented fields. *)
Theorem rb_erase_correct {A G : Type} `{EqDecision G} (rbcompute : A -> option G -> option G -> G)
    `{!RotationInvariant rbcompute} (c : color) (g : G) (l r : rbtree A G) (x : A)
    (z : list (frame A G)) :
  rb_tree (plug z (Node c g l x r)) ->
  aug_ok rbcompute l -> aug_ok rbcompute r -> ctx_aug rbcompute (Some g) z ->
  exists t, rb_erase_augmented rbcompute c g l r z = Some t /\
    elements (plug z (Node c g l x r)) = (before z ++ elements l) ++ x :: elements r ++ after z /\
    elements t = (before z ++ elements l) ++ elements r ++ after z /\
    rb_tree t /\ aug_ok rbcompute t.
Proof.
  intros Hrb Hl Hr Hz.
  destruct (rb_erase_spec rbcompute c g l x r z Hrb Hl Hr Hz) as (t & ? & ? & ? & ?).
  exists t. split_and!; try done. rewrite elements_plug. simpl. by rewrite <- !app_assoc.
Qed.

Lemma rb_erase_correct_witness :
  exists t, rb_erase_augmented subtree_max RB_BLACK 1 Leaf Leaf
      [FrameL RB_BLACK 4 2 (Node RB_BLACK 4 (Node RB_RED 3 Leaf 3 Leaf) 4 Leaf)] = Some t /\
    elements tree4 = [1; 2; 3; 4] /\ elements t = [2; 3; 4] /\ rb_tree t /\ aug_ok subtree_max t.
Proof.
  apply (rb_erase_correct subtree_max RB_BLACK 1 Leaf Leaf 1
    [FrameL RB_BLACK 4 2 (Node RB_BLACK 4 (Node RB_RED 3 Leaf 3 Leaf) 4 Leaf)]);
    [apply tree4_rb|repeat split; vm_compute; reflexivity..].
Defined.

(** Iteration.  [rb_first] and [rb_last] are the ends of the in-order sequence,
    and for the node [x] at any position, [rb_next] and [rb_prev] are its neighbours in
    that sequence (NULL at the ends). *)
Theorem rb_iteration_correct {A G : Type} (c : color) (g : G) (l r : rbtree A G) (x : A)
    (z : list (frame A G)) :
  let t := plug z (Node c g l x r) in
  rb_first t = elements t !! 0%nat /\
  rb_last t = elements t !! pred (length (elements t)) /\
  exists i, elements t !! i = Some x /\ rb_next r z = elements t !! S i /\
    rb_prev l z = match i with O => None | S j => elements t !! j end.
Proof.
  intros t. split_and!; [rewrite rb_first_head; by destruct (elements t)|
    by rewrite rb_last_last, last_lookup|].
  destruct (rb_next_successor c g l x r z) as [He Hn]. destruct (rb_prev_predecessor c g l x r z) as [_ Hp].
  exists (length (before z ++ elements l)). unfold t. rewrite He, Hn, Hp. split_and!.
  - by rewrite lookup_app_r, Nat.sub_diag by lia.
  - rewrite lookup_app_r, Nat.sub_succ_l, Nat.sub_diag by lia. simpl. by destruct (_ ++ after z).
  - rewrite last_lookup. destruct (length (before z ++ elements l)) eqn:E; simpl.
    + by apply nil_length_inv in E as ->.
    + symmetry. apply lookup_app_l. rewrite E. lia.
Qed.

(** Postorder.  [rb_first_postorder] and [rb_next_postorder] enumerate the tree in
    an order in which every node comes after its children: the walk at a node [x] has seen
    exactly what precedes the nodes of [x]'s subtree, then that subtree with [x] last. *)
Theorem rb_postorder_correct {A G : Type} (c : color) (g : G) (l r : rbtree A G) (x : A)
    (z : list (frame A G)) :
  let t := plug z (Node c g l x r) in
  postorder t ≡ₚ elements t /\ rb_first_postorder t = list.head (postorder t) /\
  exists i, postorder t !! i = Some x /\ rb_next_postorder z = postorder t !! S i /\
    (forall y, y ∈ elements l ++ elements r -> exists j, (j < i)%nat /\ postorder t !! j = Some y).
Proof.
  intros t. destruct (rb_postorder_enumerates z (Node c g l x r)) as (Hp & _ & Hn).
  split_and!; [apply postorder_elements|apply (rb_postorder_enumerates [] t)|].
  fold t in Hp. simpl in Hp. rewrite <- !app_assoc in Hp. rewrite Hp, Hn. clear Hp Hn t.
  exists (length (post_before z ++ postorder l ++ postorder r)). split_and!.
  - rewrite !(app_assoc _ (postorder _)). rewrite lookup_app_r, <- (app_assoc (post_before z)), Nat.sub_diag by lia.
    done.
  - rewrite !(app_assoc _ (postorder _)). rewrite lookup_app_r by (rewrite <- app_assoc; lia).
    rewrite <- (app_assoc (post_before z)), Nat.sub_succ_l, Nat.sub_diag by lia. simpl. by destruct (post_after z).
  - intros y Hy. assert (y ∈ postorder l ++ postorder r) as [j Hj]%list_elem_of_lookup.
    { revert Hy. by rewrite !elem_of_app, !postorder_elements. }
    exists (length (post_before z) + j)%nat. pose proof (lookup_lt_Some _ _ _ Hj). split.
    + rewrite (length_app (post_before z)). lia.
    + rewrite lookup_app_r by lia. replace (_ + j - _)%nat with j by lia.
      rewrite app_assoc. by apply lookup_app_l_Some.
Qed.

(** Height.  A red-black tree of [n] elements has height at most [2 log2 (n + 1)],
    so every descent of the code takes that many steps. *)
Theorem rb_height_bound {A G : Type} (t : rbtree A G) :
  rb_tree t -> (height t <= 2 * Nat.log2 (length (elements t) + 1))%nat.
Proof. apply rb_height_log. Qed.

Lemma rb_height_bound_witness : (height tree4 <= 2 * Nat.log2 (length (elements tree4) + 1))%nat.
Proof. apply (rb_height_bound tree4). apply tree4_rb. Defined.
