(* ===== verification/BuddyModel.v ===== *)
(** * Physical pages, the buddy allocator: the model

    mm/page_alloc.c (the run-time part), include/lego/mm.h, mm_zone.h, gfp.h and
    page-flags.h.

    A [struct page *] is its page frame number: with SPARSEMEM_VMEMMAP the array of
    them is contiguous, so that pointer arithmetic is arithmetic on frame numbers.  The
    array has holes, and the use of a [struct page] that does not exist gives [None], as
    does a BUG and a panic.  The zone and node bits at the top of [flags] never change
    after boot and are the field [pg_zone]; a zone is a number, four to a node.  The
    contents of the frame itself are the field [pg_data].  Locks and interrupts are not
    represented: every operation runs under [zone->lock]. *)

From stdpp Require Import gmap.
From S2P Require Import Prelude.

Definition MAX_ORDER : nat := 11.

(** ** Data (mm_types.h, mm_zone.h) *)

Record page := Page {
  pg_flags : Z;
  pg_mapcount : Z;
  pg_refcount : Z;
  pg_private : Z;
  pg_zone : Z;
  pg_data : list Z
}.

Record free_area := FreeArea { free_list : list Z; nr_free : Z }.
Record zone := Zone { free_areas : list free_area; managed_pages : Z; zone_free_pages : Z }.

(** [mem_map], the zones, and the global counter of free pages *)
Record buddy := Buddy { mem_map : gmap Z page; zones : gmap Z zone; vm_zone_stat : Z }.

Definition upd_page (p : Z) (f : page -> page) (b : buddy) : buddy :=
  Buddy (alter f p (mem_map b)) (zones b) (vm_zone_stat b).
Definition upd_zone (z : Z) (f : zone -> zone) (b : buddy) : buddy :=
  Buddy (mem_map b) (alter f z (zones b)) (vm_zone_stat b).

Definition with_pflags (v : Z) (g : page) : page :=
  Page v (pg_mapcount g) (pg_refcount g) (pg_private g) (pg_zone g) (pg_data g).
Definition with_mapcount (v : Z) (g : page) : page :=
  Page (pg_flags g) v (pg_refcount g) (pg_private g) (pg_zone g) (pg_data g).
Definition with_refcount (v : Z) (g : page) : page :=
  Page (pg_flags g) (pg_mapcount g) v (pg_private g) (pg_zone g) (pg_data g).
Definition with_private (v : Z) (g : page) : page :=
  Page (pg_flags g) (pg_mapcount g) (pg_refcount g) v (pg_zone g) (pg_data g).
Definition with_data (d : list Z) (g : page) : page :=
  Page (pg_flags g) (pg_mapcount g) (pg_refcount g) (pg_private g) (pg_zone g) d.

(** A flag operation on a [struct page] that must exist *)
Definition on_page (p : Z) (f : page -> page) (b : buddy) : option buddy :=
  _ ← mem_map b !! p; Some (upd_page p f b).

(** ** Flags of pages (page-flags.h) *)

Definition PG_locked : Z := 0.
Definition PG_lru : Z := 3.
Definition PG_active : Z := 4.
Definition PG_reserved : Z := 5.
Definition PG_private : Z := 6.
Definition PG_unevictable : Z := 7.
Definition NR_PAGEFLAGS : Z := 10.

Definition PAGE_FLAGS_CHECK_AT_FREE : Z :=
  Z.lor (Z.shiftl 1 PG_lru) (Z.lor (Z.shiftl 1 PG_locked) (Z.lor (Z.shiftl 1 PG_private)
    (Z.lor (Z.shiftl 1 PG_reserved) (Z.lor (Z.shiftl 1 PG_active) (Z.shiftl 1 PG_unevictable))))).
Definition PAGE_FLAGS_CHECK_AT_PREP : Z := Z.shiftl 1 NR_PAGEFLAGS - 1.

Definition PAGE_BUDDY_MAPCOUNT_VALUE : Z := -128.
Definition PageBuddy (g : page) : bool := pg_mapcount g =? PAGE_BUDDY_MAPCOUNT_VALUE.

Definition __SetPageBuddy (p : Z) (b : buddy) : option buddy :=
  g ← mem_map b !! p;
  BUG_ON negb (pg_mapcount g =? -1);;
  Some (upd_page p (with_mapcount PAGE_BUDDY_MAPCOUNT_VALUE) b).

Definition __ClearPageBuddy (p : Z) (b : buddy) : option buddy :=
  g ← mem_map b !! p;
  BUG_ON negb (PageBuddy g);;
  Some (upd_page p (with_mapcount (-1)) b).

(** ** Reference counts (mm.h) *)

Definition set_page_count (p v : Z) (b : buddy) : option buddy := on_page p (with_refcount v) b.
Definition set_page_refcounted (p : Z) (b : buddy) : option buddy := set_page_count p 1 b.
Definition page_mapcount_reset (p : Z) (b : buddy) : option buddy := on_page p (with_mapcount (-1)) b.
Definition set_page_private (p v : Z) (b : buddy) : option buddy := on_page p (with_private v) b.

Definition put_page_testzero (p : Z) (b : buddy) : option (bool * buddy) :=
  g ← mem_map b !! p;
  BUG_ON pg_refcount g =? 0;;
  Some (pg_refcount g - 1 =? 0, upd_page p (with_refcount (pg_refcount g - 1)) b).

Definition get_page (p : Z) (b : buddy) : option buddy :=
  g ← mem_map b !! p;
  BUG_ON pg_refcount g <=? 0;;
  Some (upd_page p (with_refcount (pg_refcount g + 1)) b).

(** ** Free lists *)

Definition set_area (z : Z) (order : nat) (f : free_area -> free_area) (b : buddy) : buddy :=
  upd_zone z (fun zn => Zone (alter f order (free_areas zn)) (managed_pages zn) (zone_free_pages zn)) b.

Definition area (z : Z) (order : nat) (b : buddy) : option free_area :=
  zn ← zones b !! z; free_areas zn !! order.

(** [list_add(&page->lru, &area->free_list); area->nr_free++], and
    [list_del(&page->lru); area->nr_free--] *)
Definition push (p : Z) (a : free_area) : free_area := FreeArea (p :: free_list a) (nr_free a +u 1).
Definition unlink (p : Z) (a : free_area) : free_area := FreeArea (list_del p (free_list a)) (nr_free a -u 1).

Definition area_add (z : Z) (order : nat) (p : Z) (b : buddy) : option buddy :=
  a ← area z order b;
  Some (set_area z order (push p) b).

(** The page is in that list. *)
Definition area_del (z : Z) (order : nat) (p : Z) (b : buddy) : option buddy :=
  a ← area z order b;
  BUG_ON negb (bool_decide (p ∈ free_list a));;
  Some (set_area z order (unlink p) b).

(** [__mod_zone_page_state(zone, NR_FREE_PAGES, delta)] *)
Definition __mod_zone_page_state (z delta : Z) (b : buddy) : option buddy :=
  _ ← zones b !! z;
  let b := upd_zone z (fun zn => Zone (free_areas zn) (managed_pages zn) (zone_free_pages zn + delta)) b in
  Some (Buddy (mem_map b) (zones b) (vm_zone_stat b + delta)).

(** ** Freeing *)

Definition __find_buddy_index (page_idx : Z) (order : nat) : Z := Z.lxor page_idx (Z.shiftl 1 (Z.of_nat order)).

Definition set_page_order (p : Z) (order : nat) (b : buddy) : option buddy :=
  b ← set_page_private p (Z.of_nat order) b;
  __SetPageBuddy p b.

Definition rmv_page_order (p : Z) (b : buddy) : option buddy :=
  b ← __ClearPageBuddy p b;
  set_page_private p 0 b.

Definition page_is_buddy (p q : Z) (order : nat) (b : buddy) : option bool :=
  g ← mem_map b !! q;
  if PageBuddy g && (pg_private g =? Z.of_nat order) then
    h ← mem_map b !! p;
    if negb (pg_zone h =? pg_zone g) then Some false
    else
      BUG_ON negb (pg_refcount g =? 0);;
      Some true
  else Some false.

(** The loop of [__free_one_page]; [n] is [MAX_ORDER - 1 - order]. *)
Fixpoint merge_buddies (n : nat) (p page_idx : Z) (order : nat) (z : Z) (b : buddy) : option (Z * nat * buddy) :=
  match n with
  | O => Some (p, order, b)
  | S n =>
      let buddy_idx := __find_buddy_index page_idx order in
      let q := p + (buddy_idx - page_idx) in
      ok ← page_is_buddy p q order b;
      if negb ok then Some (p, order, b)
      else
        b ← area_del z order q b;
        b ← rmv_page_order q b;
        let combined_idx := Z.land buddy_idx page_idx in
        merge_buddies n (p + (combined_idx - page_idx)) combined_idx (S order) z b
  end.

Definition __free_one_page (p pfn z : Z) (order : nat) (b : buddy) : option buddy :=
  b ← __mod_zone_page_state z (Z.shiftl 1 (Z.of_nat order)) b;
  let page_idx := Z.land pfn (Z.shiftl 1 (Z.of_nat MAX_ORDER) - 1) in
  BUG_ON negb (Z.land page_idx (Z.shiftl 1 (Z.of_nat order) - 1) =? 0);;
  '(p, order, b) ← merge_buddies (MAX_ORDER - 1 - order) p page_idx order z b;
  b ← set_page_order p order b;
  area_add z order p b.

(** [bad_page] reports the page and takes the mark of the allocator off it. *)
Definition bad_page (p : Z) (b : buddy) : option buddy := page_mapcount_reset p b.

Definition page_expected_state (g : page) (check_flags : Z) : bool :=
  (pg_mapcount g =? -1) && (pg_refcount g =? 0) && (Z.land (pg_flags g) check_flags =? 0).

(** True if the page is bad *)
Definition free_pages_check (p : Z) (b : buddy) : option (bool * buddy) :=
  g ← mem_map b !! p;
  if page_expected_state g PAGE_FLAGS_CHECK_AT_FREE then Some (false, b)
  else b ← bad_page p b; Some (true, b).

Definition clear_prep_flags (p : Z) (b : buddy) : option buddy :=
  on_page p (fun g => with_pflags (Z.ldiff (pg_flags g) PAGE_FLAGS_CHECK_AT_PREP) g) b.

(** The loop over the pages after the first; [p] is [page + i]. *)
Fixpoint check_tails (n : nat) (p : Z) (bad : bool) (b : buddy) : option (bool * buddy) :=
  match n with
  | O => Some (bad, b)
  | S n =>
      '(bad1, b) ← free_pages_check p b;
      b ← (if bad1 : bool then Some b else clear_prep_flags p b);
      check_tails n (p + 1) (bad || bad1) b
  end.

Definition free_pages_prepare (p : Z) (order : nat) (check_free : bool) (b : buddy) : option (bool * buddy) :=
  '(bad, b) ← check_tails (2 ^ order - 1) (p + 1) false b;
  '(bad1, b) ← (if check_free then free_pages_check p b else Some (false, b));
  if bad || bad1 then Some (false, b)
  else b ← clear_prep_flags p b; Some (true, b).

Definition __free_pages_ok (p : Z) (order : nat) (b : buddy) : option buddy :=
  '(ok, b) ← free_pages_prepare p order true b;
  if negb ok then Some b
  else
    g ← mem_map b !! p;
    __free_one_page p p (pg_zone g) order b.

Definition __free_pages (p : Z) (order : nat) (b : buddy) : option buddy :=
  '(zero, b) ← put_page_testzero p b;
  if zero : bool then __free_pages_ok p order b else Some b.

(** ** Allocation *)

(** The loop of [expand]; the argument [d] is [high - low]. *)
Fixpoint expand (z p : Z) (low d : nat) (b : buddy) : option buddy :=
  match d with
  | O => Some b
  | S d =>
      let high := (low + d)%nat in
      let size := Z.shiftl 1 (Z.of_nat high) in
      b ← area_add z high (p + size) b;
      b ← set_page_order (p + size) high b;
      expand z p low d b
  end.

Definition __rmqueue_fallback (z : Z) (order : nat) (b : buddy) : option (option Z * buddy) := Some (None, b).

(** The loop of [__rmqueue_smallest]; [n] is [MAX_ORDER - current_order]. *)
Fixpoint rmqueue_from (n : nat) (z : Z) (order current_order : nat) (b : buddy) : option (option Z * buddy) :=
  match n with
  | O => Some (None, b)
  | S n =>
      a ← area z current_order b;
      match free_list a with
      | [] => rmqueue_from n z order (S current_order) b
      | p :: _ =>
          b ← area_del z current_order p b;
          b ← rmv_page_order p b;
          b ← expand z p order (current_order - order) b;
          Some (Some p, b)
      end
  end.

Definition __rmqueue_smallest (z : Z) (order : nat) (b : buddy) : option (option Z * buddy) :=
  rmqueue_from (MAX_ORDER - order) z order order b.

Definition __rmqueue (z : Z) (order : nat) (b : buddy) : option (option Z * buddy) :=
  '(p, b) ← __rmqueue_smallest z order b;
  match p with
  | Some p => Some (Some p, b)
  | None => __rmqueue_fallback z order b
  end.

Definition buffered_rmqueue (z : Z) (order : nat) (b : buddy) : option (option Z * buddy) :=
  '(p, b) ← __rmqueue z order b;
  match p with
  | None => Some (None, b)
  | Some p => b ← __mod_zone_page_state z (- Z.shiftl 1 (Z.of_nat order)) b; Some (Some p, b)
  end.

(** [memset(page, 0, PAGE_SIZE)] *)
Definition __clear_page (p : Z) (b : buddy) : option buddy :=
  on_page p (with_data (replicate (Z.to_nat PAGE_SIZE) 0)) b.

Fixpoint clear_pages (n : nat) (p : Z) (b : buddy) : option buddy :=
  match n with
  | O => Some b
  | S n => b ← __clear_page p b; clear_pages n (p + 1) b
  end.

Definition ___GFP_DMA : Z := 1.
Definition ___GFP_HIGHMEM : Z := 2.
Definition ___GFP_DMA32 : Z := 4.
Definition ___GFP_MOVABLE : Z := 8.
Definition ___GFP_ZERO : Z := 32768.
Definition GFP_ZONEMASK : Z := Z.lor ___GFP_DMA (Z.lor ___GFP_HIGHMEM (Z.lor ___GFP_DMA32 ___GFP_MOVABLE)).

Definition prep_new_page (p : Z) (order : nat) (gfp_flags : Z) (b : buddy) : option buddy :=
  b ← (if negb (Z.land gfp_flags ___GFP_ZERO =? 0) then clear_pages (2 ^ order) p b else Some b);
  b ← set_page_private p 0 b;
  set_page_refcounted p b.

(** ** Zones of a request (gfp.h) *)

Definition ZONE_DMA : Z := 0.
Definition ZONE_DMA32 : Z := 1.
Definition ZONE_NORMAL : Z := 2.
Definition ZONE_MOVABLE : Z := 3.
Definition MAX_NR_ZONES : Z := 4.
Definition GFP_ZONES_SHIFT : Z := 2.

(** Without CONFIG_HIGHMEM, OPT_ZONE_HIGHMEM is ZONE_NORMAL. *)
Definition GFP_ZONE_TABLE : Z :=
  fold_right (fun '(z, bits) t => Z.lor (Z.shiftl z (bits * GFP_ZONES_SHIFT)) t) 0
    [(ZONE_NORMAL, 0); (ZONE_DMA, ___GFP_DMA); (ZONE_NORMAL, ___GFP_HIGHMEM);
     (ZONE_DMA32, ___GFP_DMA32); (ZONE_NORMAL, ___GFP_MOVABLE);
     (ZONE_DMA, Z.lor ___GFP_MOVABLE ___GFP_DMA); (ZONE_MOVABLE, Z.lor ___GFP_MOVABLE ___GFP_HIGHMEM);
     (ZONE_DMA32, Z.lor ___GFP_MOVABLE ___GFP_DMA32)].

Definition GFP_ZONE_BAD : Z :=
  fold_right (fun bits t => Z.lor (Z.shiftl 1 bits) t) 0
    [Z.lor ___GFP_DMA ___GFP_HIGHMEM; Z.lor ___GFP_DMA ___GFP_DMA32; Z.lor ___GFP_DMA32 ___GFP_HIGHMEM;
     Z.lor ___GFP_DMA (Z.lor ___GFP_DMA32 ___GFP_HIGHMEM);
     Z.lor ___GFP_MOVABLE (Z.lor ___GFP_HIGHMEM ___GFP_DMA);
     Z.lor ___GFP_MOVABLE (Z.lor ___GFP_DMA32 ___GFP_DMA);
     Z.lor ___GFP_MOVABLE (Z.lor ___GFP_DMA32 ___GFP_HIGHMEM);
     Z.lor ___GFP_MOVABLE (Z.lor ___GFP_DMA32 (Z.lor ___GFP_DMA ___GFP_HIGHMEM))].

Definition gfp_zone (flags : Z) : option Z :=
  let bit := Z.land flags GFP_ZONEMASK in
  let z := Z.land (Z.shiftr GFP_ZONE_TABLE (bit * GFP_ZONES_SHIFT)) (Z.shiftl 1 GFP_ZONES_SHIFT - 1) in
  BUG_ON Z.testbit GFP_ZONE_BAD bit;;
  Some z.

Record zoneref := Zoneref { zr_zone : Z; zr_idx : Z }.

(** The zones of the list that [for_each_zone_zonelist_nodemask] visits, without a
    nodemask: those at or below the highest index *)
Definition zones_of_list (highest : Z) (l : list zoneref) : list Z :=
  zr_zone <$> filter (fun r => zr_idx r <= highest) l.

Fixpoint page_from_zones (gfp_mask : Z) (order : nat) (l : list Z) (b : buddy) : option (option Z * buddy) :=
  match l with
  | [] => Some (None, b)
  | z :: l =>
      '(p, b) ← buffered_rmqueue z order b;
      match p with
      | Some p => b ← prep_new_page p order gfp_mask b; Some (Some p, b)
      | None => page_from_zones gfp_mask order l b
      end
  end.

Definition get_page_from_freelist (gfp_mask : Z) (order : nat) (zonelist : list zoneref) (b : buddy)
  : option (option Z * buddy) :=
  high_zoneidx ← gfp_zone gfp_mask;
  page_from_zones gfp_mask order (zones_of_list high_zoneidx zonelist) b.

(** A request that cannot be met panics, unless its order is too large. *)
Definition __alloc_pages_nodemask (gfp_mask : Z) (order : nat) (zonelist : list zoneref) (b : buddy)
  : option (option Z * buddy) :=
  match zonelist with
  | [] => Some (None, b)
  | _ =>
      '(p, b) ← get_page_from_freelist gfp_mask order zonelist b;
      match p with
      | None => BUG_ON (order <? MAX_ORDER)%nat;; Some (None, b)
      | Some p => Some (Some p, b)
      end
  end.

(** ** Addresses *)

Definition PAGE_OFFSET : Z := 18446612132314218496.
Definition page_to_virt (p : Z) : Z := (p <<u PAGE_SHIFT) +u PAGE_OFFSET.

Definition __START_KERNEL_map : Z := 18446744071562067968.
(** [phys_base] is 0: the kernel runs where it was linked. *)
Definition phys_base : Z := 0.
Definition __phys_addr_nodebug (x : Z) : Z :=
  let y := x -u __START_KERNEL_map in
  y +u (if y <? x then phys_base else __START_KERNEL_map -u PAGE_OFFSET).
Definition virt_to_pfn (kaddr : Z) : Z := Z.shiftr (__phys_addr_nodebug kaddr) PAGE_SHIFT.

(** A frame is valid if it has a [struct page]. *)
Definition pfn_valid (b : buddy) (pfn : Z) : bool := bool_decide (is_Some (mem_map b !! pfn)).

Definition KERNEL_IMAGE_SIZE : Z := 512 * 1024 * 1024.
Definition virt_addr_valid (b : buddy) (x : Z) : bool :=
  let y := x -u __START_KERNEL_map in
  if y <? x then
    if KERNEL_IMAGE_SIZE <=? y then false else pfn_valid b (Z.shiftr (y +u phys_base) PAGE_SHIFT)
  else
    let x := y +u (__START_KERNEL_map -u PAGE_OFFSET) in
    if y <? x then false else pfn_valid b (Z.shiftr x PAGE_SHIFT).

Definition __get_free_pages (gfp_mask : Z) (order : nat) (zonelist : list zoneref) (b : buddy)
  : option (Z * buddy) :=
  '(p, b) ← __alloc_pages_nodemask gfp_mask order zonelist b;
  Some (match p with None => 0 | Some p => page_to_virt p end, b).

Definition free_pages (addr : Z) (order : nat) (b : buddy) : option buddy :=
  if addr =? 0 then Some b
  else
    BUG_ON negb (virt_addr_valid b addr);;
    __free_pages (virt_to_pfn addr) order b.
