(* ===== verification/BuddyInv.v ===== *)
(** * Physical pages, the buddy allocator: the invariant

    The free blocks of a zone are aligned, disjoint and made of pages of the zone; the
    first page of a block, and no other page, is marked as free with the order of the
    block; and no two free blocks are the halves of a larger one.  An operation holds
    at most one block outside the lists ([held]); [take] and [give] move a block out of
    a list and into one. *)

From stdpp Require Import gmap.
From S2P Require Import Prelude BuddyModel.

Definition blk (o : nat) : Z := 2 ^ Z.of_nat o.
Definition in_block (p : Z) (o : nat) (q : Z) : Prop := p <= q < p + blk o.

Definition flist (b : buddy) (z : Z) (o : nat) : list Z := default [] (free_list <$> area z o b).
Definition is_free (b : buddy) (q : Z) : Prop := exists z o p, p ∈ flist b z o /\ in_block p o q.

(** What does not change after boot: the zone of each page exists, and the array of
    pages has no hole within the largest block ("mem_map is contiguous at least up to
    MAX_ORDER"). *)
Record map_ok (b : buddy) : Prop := MapOk {
  map_zone p g : mem_map b !! p = Some g -> is_Some (zones b !! pg_zone g);
  map_nonneg p g : mem_map b !! p = Some g -> 0 <= p;
  map_full p q : is_Some (mem_map b !! p) -> p / blk (MAX_ORDER - 1) = q / blk (MAX_ORDER - 1) ->
    is_Some (mem_map b !! q);
  map_areas z zn : zones b !! z = Some zn -> length (free_areas zn) = MAX_ORDER
}.

(** A page of a free block *)
Definition free_page_ok (b : buddy) (z p : Z) (o : nat) (q : Z) : Prop :=
  exists g, mem_map b !! q = Some g /\ pg_zone g = z /\ pg_refcount g = 0 /\
    pg_mapcount g = (if q =? p then PAGE_BUDDY_MAPCOUNT_VALUE else -1) /\ (q = p -> pg_private g = Z.of_nat o) /\
    Z.land (pg_flags g) PAGE_FLAGS_CHECK_AT_PREP = 0.

Record lists_ok (b : buddy) : Prop := ListsOk {
  lo_map : map_ok b;
  lo_area z o a : area z o b = Some a -> NoDup (free_list a) /\ nr_free a = wrap (Z.of_nat (length (free_list a)));
  lo_aligned z o p : p ∈ flist b z o -> (blk o | p);
  lo_block z o p q : p ∈ flist b z o -> in_block p o q -> free_page_ok b z p o q;
  lo_buddy p g : mem_map b !! p = Some g -> PageBuddy g = true ->
    exists o, pg_private g = Z.of_nat o /\ p ∈ flist b (pg_zone g) o;
  lo_merged z o p : p ∈ flist b z o -> (S o < MAX_ORDER)%nat -> Z.lxor p (blk o) ∉ flist b z o
}.

(** A block that is in no list and not in use *)
Record held (b : buddy) (z p : Z) (o : nat) : Prop := Held {
  held_aligned : (blk o | p);
  held_page q : in_block p o q -> exists g, mem_map b !! q = Some g /\ pg_zone g = z /\
    pg_refcount g = 0 /\ pg_mapcount g = -1 /\ Z.land (pg_flags g) PAGE_FLAGS_CHECK_AT_PREP = 0;
  held_apart q : in_block p o q -> ~ is_free b q
}.

(** The number of pages in the free lists of a zone *)
Fixpoint area_total (o : nat) (l : list free_area) : Z :=
  match l with
  | [] => 0
  | a :: l => blk o * Z.of_nat (length (free_list a)) + area_total (S o) l
  end.
(** The counter of free pages of every zone is right, with [d] more in zone [z0]. *)
Definition counted (z0 d : Z) (b : buddy) : Prop :=
  forall z zn, zones b !! z = Some zn ->
    zone_free_pages zn = area_total 0 (free_areas zn) + (if z =? z0 then d else 0).

Record buddy_ok (b : buddy) : Prop := BuddyOk {
  bo_lists : lists_ok b;
  bo_count z : counted z 0 b
}.

(** What an operation that only moves blocks leaves of every page and zone *)
Definition attrs (g : page) : Z * Z * Z * list Z := (pg_flags g, pg_refcount g, pg_zone g, pg_data g).
Definition shape (zn : zone) : nat * Z := (length (free_areas zn), managed_pages zn).
Record moved (b b' : buddy) : Prop := Moved {
  mv_attrs q : attrs <$> mem_map b' !! q = attrs <$> mem_map b !! q;
  mv_shape z : shape <$> zones b' !! z = shape <$> zones b !! z
}.

(** ** Arithmetic of blocks *)

Lemma blk_shiftl o : Z.shiftl 1 (Z.of_nat o) = blk o.
Proof. by rewrite Z.shiftl_1_l. Qed.

Lemma blk_pos o : 0 < blk o.
Proof. apply Z.pow_pos_nonneg; lia. Qed.
#[export] Hint Resolve blk_pos : lego.

Lemma blk_S o : blk (S o) = 2 * blk o.
Proof. unfold blk. by rewrite Nat2Z.inj_succ, Z.pow_succ_r by lia. Qed.

Lemma blk_le o k : (o <= k)%nat -> (blk o | blk k).
Proof.
  intros H. exists (blk (k - o)). unfold blk. rewrite <- Z.pow_add_r by lia. f_equal. lia.
Qed.

Lemma in_block_head p o : in_block p o p.
Proof. pose proof (blk_pos o). unfold in_block. lia. Qed.
#[export] Hint Resolve in_block_head : lego.

(** Aligned blocks that meet are nested. *)
Lemma blocks_nested p o p' o' q :
  (blk o | p) -> (blk o' | p') -> (o <= o')%nat -> in_block p o q -> in_block p' o' q ->
  p' <= p /\ p + blk o <= p' + blk o'.
Proof.
  intros [a ->] [a' ->] Hle Hq Hq'. destruct (blk_le _ _ Hle) as [c Hc]. pose proof (blk_pos o) as H1.
  pose proof (blk_pos o') as H2. unfold in_block in *. rewrite Hc in *. assert (0 < c) by nia.
  assert (a' * c <= a < (a' + 1) * c) as [? ?] by nia. nia.
Qed.

Lemma in_block_nested p o p' o' q :
  p' <= p -> p + blk o <= p' + blk o' -> in_block p o q -> in_block p' o' q.
Proof. unfold in_block. lia. Qed.

Lemma land_1_even c : Z.land 1 (2 * c) = 0.
Proof.
  apply Z.bits_inj'. intros [|i|] Hi; rewrite Z.land_spec, Z.bits_0; [..|lia].
  - by rewrite Z.testbit_even_0, andb_false_r.
  - replace (Z.testbit 1 (Z.pos i)) with false; [done|]. symmetry. apply Z.bits_above_log2; simpl; lia.
Qed.

Lemma lor_1_even c : Z.lor 1 (2 * c) = 2 * c + 1.
Proof. rewrite <- Z.lxor_lor, <- Z.add_nocarry_lxor by apply land_1_even. lia. Qed.

Lemma lxor_1_even c : Z.lxor 1 (2 * c) = 2 * c + 1.
Proof. rewrite <- Z.add_nocarry_lxor by apply land_1_even. lia. Qed.

(** The buddy of a block is the other half of the block of the next order, and the bits
    that the two have in common are those of its start. *)
Lemma lxor_buddy p o : (blk o | p) ->
  (Z.lxor p (blk o) = p + blk o /\ Z.land (Z.lxor p (blk o)) p = p /\ (blk (S o) | p)) \/
  (Z.lxor p (blk o) = p - blk o /\ Z.land (Z.lxor p (blk o)) p = p - blk o /\ (blk (S o) | p - blk o)).
Proof.
  intros [a ->]. rewrite blk_S.
  assert (Hx : Z.lxor (a * blk o) (blk o) = Z.lxor a 1 * blk o).
  { rewrite <- (Z.mul_1_l (blk o)) at 2. unfold blk. rewrite <- !Z.shiftl_mul_pow2 by lia. by rewrite Z.shiftl_lxor. }
  assert (Hl : forall x y, Z.land (x * blk o) (y * blk o) = Z.land x y * blk o).
  { intros x y. unfold blk. rewrite <- !Z.shiftl_mul_pow2 by lia. by rewrite Z.shiftl_land. }
  assert (He : forall c, Z.land (2 * c + 1) (2 * c) = 2 * c).
  { intros c. by rewrite <- lor_1_even, Z.land_lor_distr_l, land_1_even, Z.land_diag. }
  rewrite Hx, Hl. destruct (Z.even a) eqn:Ha.
  - left. apply Z.even_spec in Ha as [c ->]. rewrite (Z.lxor_comm (2 * c) 1), lxor_1_even, He.
    repeat split; [lia|]. exists c. lia.
  - right. rewrite <- Z.negb_odd in Ha. apply negb_false_iff, Z.odd_spec in Ha as [c ->].
    rewrite <- lxor_1_even at 1. rewrite (Z.lxor_comm 1 (2 * c)), Z.lxor_assoc, Z.lxor_nilpotent, Z.lxor_0_r.
    rewrite <- lxor_1_even at 2. rewrite (Z.lxor_comm 1 (2 * c)), Z.lxor_assoc, Z.lxor_nilpotent, Z.lxor_0_r.
    rewrite (Z.land_comm (2 * c)), He. repeat split; [lia..|]. exists c. lia.
Qed.

(** ** Free lists *)

Lemma elem_of_flist b z o p : p ∈ flist b z o <-> exists a, area z o b = Some a /\ p ∈ free_list a.
Proof.
  unfold flist. split.
  - destruct (area z o b) as [a|]; simpl; [eauto|]. by intros ?%elem_of_nil.
  - intros (a & -> & ?). done.
Qed.

Lemma area_set z o f b z' o' :
  area z' o' (set_area z o f b) = if decide (z = z' /\ o = o') then f <$> area z o b else area z' o' b.
Proof.
  unfold area, set_area, upd_zone. cbn [zones]. destruct (decide (z = z')) as [->|Hz].
  - rewrite lookup_alter_eq. destruct (zones b !! z') as [zn|]; simpl; [|by destruct (decide _)].
    destruct (decide (o = o')) as [->|Ho].
    + rewrite decide_True by done. by rewrite list_lookup_alter_eq.
    + rewrite decide_False by (by intros []). by rewrite list_lookup_alter_ne.
  - rewrite lookup_alter_ne by done. rewrite decide_False by (by intros []). done.
Qed.

Lemma area_exists b z zn o : map_ok b -> zones b !! z = Some zn -> (o < MAX_ORDER)%nat -> is_Some (area z o b).
Proof.
  intros Hm Hz Ho. unfold area. rewrite Hz. simpl. apply lookup_lt_is_Some. by rewrite (map_areas _ Hm _ _ Hz).
Qed.

Lemma flist_order b z o p : map_ok b -> p ∈ flist b z o -> (o < MAX_ORDER)%nat.
Proof.
  intros Hm (a & Ha & _)%elem_of_flist. unfold area in Ha. destruct (zones b !! z) as [zn|] eqn:E; [|done].
  simpl in Ha. apply lookup_lt_Some in Ha. by rewrite (map_areas _ Hm _ _ E) in Ha.
Qed.

Lemma is_free_head b z o p : p ∈ flist b z o -> is_free b p.
Proof. intros Hp. exists z, o, p. auto with lego. Qed.
#[export] Hint Resolve is_free_head : lego.

(** Two free blocks that meet are the same. *)
Lemma free_blocks_apart b z o p z' o' p' q :
  lists_ok b -> p ∈ flist b z o -> p' ∈ flist b z' o' -> in_block p o q -> in_block p' o' q ->
  p = p' /\ o = o' /\ z = z'.
Proof.
  intros Hb. revert z o p z' o' p'.
  assert (Hle : forall z o p z' o' p', (o <= o')%nat -> p ∈ flist b z o -> p' ∈ flist b z' o' ->
    in_block p o q -> in_block p' o' q -> p = p' /\ o = o' /\ z = z').
  { intros z o p z' o' p' Ho Hp Hp' Hq Hq'.
    destruct (blocks_nested _ _ _ _ _ (lo_aligned _ Hb _ _ _ Hp) (lo_aligned _ Hb _ _ _ Hp') Ho Hq Hq') as [H1 H2].
    destruct (lo_block _ Hb _ _ _ p Hp) as (g & Hg & Hz & _ & Hc & Hpr & _); [auto with lego|].
    destruct (lo_block _ Hb _ _ _ p Hp') as (g' & Hg' & Hz' & _ & Hc' & Hpr' & _).
    { apply (in_block_nested p o); [done..|auto with lego]. }
    rewrite Hg in Hg'. injection Hg' as <-. rewrite Z.eqb_refl in Hc. rewrite Hc in Hc'.
    destruct (p =? p') eqn:E; [|done]. apply Z.eqb_eq in E. subst p'.
    rewrite Hpr in Hpr' by done. specialize (Hpr' eq_refl). repeat split; [lia|congruence]. }
  intros z o p z' o' p' Hp Hp' Hq Hq'. destruct (Nat.le_ge_cases o o') as [Ho|Ho].
  - by apply Hle.
  - destruct (Hle z' o' p' z o p) as (-> & -> & ->); done.
Qed.

(** ** Taking a block out of its list, and putting one into a list *)

Definition take (z : Z) (o : nat) (p : Z) (b : buddy) : buddy :=
  set_area z o (unlink p)
    (upd_page p (fun g => with_private 0 (with_mapcount (-1) g)) b).

Definition give (z : Z) (o : nat) (p : Z) (b : buddy) : buddy :=
  set_area z o (push p)
    (upd_page p (fun g => with_mapcount PAGE_BUDDY_MAPCOUNT_VALUE (with_private (Z.of_nat o) g)) b).

Lemma elem_of_take b z o p z' o' p' :
  p' ∈ flist (take z o p b) z' o' <-> p' ∈ flist b z' o' /\ ~ (z' = z /\ o' = o /\ p' = p).
Proof.
  unfold flist, take. rewrite area_set. change (area z o (upd_page _ _ b)) with (area z o b).
  change (area z' o' (upd_page _ _ b)) with (area z' o' b). case_decide as Hd; [|naive_solver].
  destruct Hd as [-> ->]. destruct (area z' o' b) as [a|]; simpl.
  - rewrite elem_of_list_del. naive_solver.
  - split; [by intros ?%elem_of_nil|]. by intros [?%elem_of_nil _].
Qed.

Lemma elem_of_give b z o p z' o' p' :
  is_Some (area z o b) ->
  p' ∈ flist (give z o p b) z' o' <-> p' ∈ flist b z' o' \/ (z' = z /\ o' = o /\ p' = p).
Proof.
  intros [a Ha]. unfold flist, give. rewrite area_set. change (area z o (upd_page _ _ b)) with (area z o b).
  change (area z' o' (upd_page _ _ b)) with (area z' o' b). case_decide as Hd; [|naive_solver].
  destruct Hd as [-> ->]. rewrite Ha. simpl. rewrite elem_of_cons. naive_solver.
Qed.

(** ** Operations that only move blocks *)

#[global] Instance moved_refl : Reflexive moved.
Proof. by split. Qed.
#[global] Instance moved_trans : Transitive moved.
Proof. intros b1 b2 b3 [A1 S1] [A2 S2]. split; intros; congruence. Qed.

(** The zone and the contents of a page *)
Definition kept (g : page) : Z * list Z := (pg_zone g, pg_data g).

Lemma moved_kept b b' q : moved b b' -> kept <$> mem_map b' !! q = kept <$> mem_map b !! q.
Proof.
  intros Hm. pose proof (mv_attrs _ _ Hm q) as H. destruct (mem_map b' !! q), (mem_map b !! q); try done. simpl in *.
  injection H as _ _ Hz Hd. unfold kept. by rewrite Hz, Hd.
Qed.

Lemma moved_page b b' q g : moved b b' -> mem_map b' !! q = Some g ->
  exists g0, mem_map b !! q = Some g0 /\ attrs g = attrs g0.
Proof.
  intros Hm E. pose proof (mv_attrs _ _ Hm q) as H. rewrite E in H. destruct (mem_map b !! q) as [g0|]; [|done].
  simpl in H. exists g0. split; congruence.
Qed.

Lemma moved_zone b b' z zn : moved b b' -> zones b' !! z = Some zn ->
  exists zn0, zones b !! z = Some zn0 /\ shape zn = shape zn0.
Proof.
  intros Hm E. pose proof (mv_shape _ _ Hm z) as H. rewrite E in H. destruct (zones b !! z) as [zn0|]; [|done].
  simpl in H. exists zn0. split; congruence.
Qed.

Lemma moved_is_Some b b' q : moved b b' -> is_Some (mem_map b' !! q) <-> is_Some (mem_map b !! q).
Proof. intros Hm. rewrite <- !(fmap_is_Some attrs). by rewrite (mv_attrs _ _ Hm). Qed.

Lemma map_ok_moved b b' : moved b b' -> map_ok b -> map_ok b'.
Proof.
  intros Hm Hb. split.
  - intros p g Hg. destruct (moved_page _ _ _ _ Hm Hg) as (g0 & Hg0 & Ha). injection Ha as _ _ -> _.
    destruct (map_zone _ Hb _ _ Hg0) as [zn Hz]. rewrite <- (fmap_is_Some shape), (mv_shape _ _ Hm), Hz. by eexists.
  - intros p g Hg. destruct (moved_page _ _ _ _ Hm Hg) as (g0 & Hg0 & _). by eapply map_nonneg.
  - intros p q. rewrite !(moved_is_Some _ _ _ Hm). by apply map_full.
  - intros z zn Hz. destruct (moved_zone _ _ _ _ Hm Hz) as (zn0 & Hz0 & Hs). injection Hs as -> _.
    by eapply map_areas.
Qed.

Lemma moved_upd_page p f b : (forall g, attrs (f g) = attrs g) -> moved b (upd_page p f b).
Proof.
  intros Hf. split; [|done]. intros q. unfold upd_page. cbn [mem_map]. rewrite lookup_alter.
  case_decide as E; [|done]. subst q. destruct (mem_map b !! p); simpl; [|done]. by rewrite Hf.
Qed.

Lemma moved_set_area z o f b : moved b (set_area z o f b).
Proof.
  split; [done|]. intros z'. unfold set_area, upd_zone. cbn [zones]. rewrite lookup_alter.
  case_decide as E; [|done]. subst z'. destruct (zones b !! z); simpl; [|done]. unfold shape. simpl.
  by rewrite length_alter.
Qed.

Lemma moved_take z o p b : moved b (take z o p b).
Proof. etrans; [|apply moved_set_area]. by apply moved_upd_page. Qed.
Lemma moved_give z o p b : moved b (give z o p b).
Proof. etrans; [|apply moved_set_area]. by apply moved_upd_page. Qed.
#[export] Hint Resolve moved_take moved_give : lego.

Lemma take_page z o p b q :
  mem_map (take z o p b) !! q =
    if decide (p = q) then (fun g => with_private 0 (with_mapcount (-1) g)) <$> mem_map b !! p else mem_map b !! q.
Proof. unfold take, set_area, upd_zone, upd_page. cbn [mem_map]. by rewrite lookup_alter. Qed.

Lemma give_page z o p b q :
  mem_map (give z o p b) !! q =
    if decide (p = q) then (fun g => with_mapcount PAGE_BUDDY_MAPCOUNT_VALUE (with_private (Z.of_nat o) g)) <$> mem_map b !! p
    else mem_map b !! q.
Proof. unfold give, set_area, upd_zone, upd_page. cbn [mem_map]. by rewrite lookup_alter. Qed.

Lemma alter_twice {A} (f g : A -> A) (i : Z) (m : gmap Z A) : alter f i (alter g i m) = alter (fun x => f (g x)) i m.
Proof.
  apply map_eq. intros j. rewrite !lookup_alter. case_decide; [|done]. rewrite decide_True by done.
  by destruct (m !! i).
Qed.

Section take.
Context (b : buddy) (z : Z) (o : nat) (p : Z) (Hb : lists_ok b) (Hp : p ∈ flist b z o).

Lemma take_lists : lists_ok (take z o p b).
Proof.
  split.
  - eapply map_ok_moved; [apply moved_take|apply Hb].
  - intros z' o' a. unfold take. rewrite area_set. change (area _ _ (upd_page _ _ b)) with (area z o b) at 1.
    change (area z' o' (upd_page _ _ b)) with (area z' o' b). case_decide as E; [|by apply Hb].
    destruct E as [<- <-]. apply elem_of_flist in Hp as (a0 & Ha0 & Hin). rewrite Ha0. intros [= <-]. simpl.
    destruct (lo_area _ Hb _ _ _ Ha0) as [Hnd ->]. split; [by apply NoDup_list_del|].
    rewrite wrap_sub_l, (length_list_del p (free_list a0)) by done. f_equal. lia.
  - intros z' o' p' [? _]%elem_of_take. by eapply lo_aligned.
  - intros z' o' p' q [Hp' Hne]%elem_of_take Hq. destruct (lo_block _ Hb _ _ _ _ Hp' Hq) as (g & Hg & Hrest).
    exists g. rewrite take_page, decide_False; [done|]. intros <-. apply Hne.
    destruct (free_blocks_apart b z o p z' o' p' p) as (-> & -> & ->); auto with lego.
  - intros q g. rewrite take_page. case_decide as E.
    + destruct (mem_map b !! p); [|done]. simpl. by intros [= <-].
    + intros Hg Hbud. destruct (lo_buddy _ Hb _ _ Hg Hbud) as (o' & Ho' & Hin). exists o'. split; [done|].
      apply elem_of_take. split; [done|]. naive_solver.
  - intros z' o' p' [Hp' _]%elem_of_take Ho [Hin _]%elem_of_take. by apply (lo_merged _ Hb _ _ _ Hp' Ho).
Qed.

Lemma take_held : held (take z o p b) z p o.
Proof.
  split.
  - by eapply lo_aligned.
  - intros q Hq. destruct (lo_block _ Hb _ _ _ _ Hp Hq) as (g & Hg & Hz & Hr & Hc & _ & Hfl). rewrite take_page.
    case_decide as E.
    + subst q. rewrite Hg. simpl. by eexists.
    + exists g. rewrite (proj2 (Z.eqb_neq q p)) in Hc by done. done.
  - intros q Hq (z' & o' & p' & [Hp' Hne]%elem_of_take & Hq'). apply Hne.
    destruct (free_blocks_apart b z o p z' o' p' q) as (-> & -> & ->); done.
Qed.

Lemma take_free q : is_free b q <-> is_free (take z o p b) q \/ in_block p o q.
Proof.
  split.
  - intros (z' & o' & p' & Hp' & Hq). destruct (decide (z' = z /\ o' = o /\ p' = p)) as [(-> & -> & ->)|Hne]; [by right|].
    left. exists z', o', p'. by rewrite elem_of_take.
  - intros [(z' & o' & p' & [Hp' _]%elem_of_take & Hq)|Hq]; [by exists z', o', p'|by exists z, o, p].
Qed.

Lemma take_run : exists b1, area_del z o p b = Some b1 /\ rmv_page_order p b1 = Some (take z o p b).
Proof.
  pose proof Hp as Hp'. apply elem_of_flist in Hp' as (a & Ha & Hin).
  destruct (lo_block _ Hb _ _ _ p Hp) as (g & Hg & _ & _ & Hc & _); [auto with lego|]. rewrite Z.eqb_refl in Hc.
  unfold area_del. rewrite Ha. cbn [mbind option_bind]. rewrite bool_decide_eq_true_2 by done. simpl. eexists. split; [done|].
  unfold rmv_page_order, __ClearPageBuddy. cbn [mem_map set_area upd_zone]. rewrite Hg. cbn [mbind option_bind].
  replace (PageBuddy g) with true by (unfold PageBuddy; by rewrite Hc). cbn [negb mbind option_bind].
  unfold set_page_private, on_page, upd_page. cbn [mem_map].
  rewrite lookup_alter_eq. cbn [mem_map set_area upd_zone]. rewrite Hg. cbn. f_equal. unfold take, set_area, upd_zone, upd_page. cbn.
  by rewrite alter_twice.
Qed.
End take.

Section give.
Context (b : buddy) (z : Z) (o : nat) (p : Z) (Hb : lists_ok b) (Hh : held b z p o) (Ha : is_Some (area z o b)).

Lemma give_run :
  (exists b1, set_page_order p o b = Some b1 /\ area_add z o p b1 = Some (give z o p b)) /\
  (exists b1, area_add z o p b = Some b1 /\ set_page_order p o b1 = Some (give z o p b)).
Proof.
  destruct Ha as [a Ea]. destruct (held_page _ _ _ _ Hh p) as (g & Hg & _ & _ & Hc & _); [auto with lego|].
  unfold set_page_order, set_page_private, on_page, __SetPageBuddy, area_add.
  split; eexists; (split; [|]).
  - rewrite Hg. cbn [mbind option_bind upd_page mem_map]. rewrite lookup_alter_eq, Hg. cbn. by rewrite Hc.
  - change (area z o (upd_page _ _ _)) with (area z o b). rewrite Ea. unfold give, set_area, upd_zone, upd_page. cbn. by rewrite alter_twice.
  - by rewrite Ea.
  - cbn [mem_map set_area upd_zone]. rewrite Hg. cbn [mbind option_bind upd_page mem_map]. rewrite lookup_alter_eq.
    cbn [mem_map set_area upd_zone]. rewrite Hg. cbn. rewrite Hc. cbn. unfold give, set_area, upd_zone, upd_page. cbn. by rewrite alter_twice.
Qed.

Lemma give_free q : is_free (give z o p b) q <-> is_free b q \/ in_block p o q.
Proof.
  split.
  - intros (z' & o' & p' & Hp' & Hq). apply elem_of_give in Hp' as [Hp'|(-> & -> & ->)]; [|by right|done].
    left. by exists z', o', p'.
  - intros [(z' & o' & p' & Hp' & Hq)|Hq].
    + exists z', o', p'. rewrite elem_of_give by done. auto.
    + exists z, o, p. rewrite elem_of_give by done. auto.
Qed.

Lemma give_lists : ((S o < MAX_ORDER)%nat -> Z.lxor p (blk o) ∉ flist b z o) -> lists_ok (give z o p b).
Proof.
  intros Hbud. assert (Hnew : forall z' o', p ∉ flist b z' o').
  { intros z' o' Hin. apply (held_apart _ _ _ _ Hh p); [auto with lego|]. exists z', o', p. auto with lego. }
  split.
  - eapply map_ok_moved; [apply moved_give|apply Hb].
  - intros z' o' a. unfold give. rewrite area_set. change (area _ _ (upd_page _ _ b)) with (area z o b) at 1.
    change (area z' o' (upd_page _ _ b)) with (area z' o' b). case_decide as E; [|by apply Hb].
    destruct E as [<- <-]. destruct (area z o b) as [a0|] eqn:Ha0; [|done]. intros [= <-]. simpl.
    destruct (lo_area _ Hb _ _ _ Ha0) as [Hnd ->]. split.
    + apply list.NoDup_cons. split; [|done]. intros Hin. apply (Hnew z o). apply elem_of_flist. eauto.
    + rewrite wrap_add_l. f_equal. lia.
  - intros z' o' p' [?|(-> & -> & ->)]%elem_of_give; [by eapply lo_aligned|apply Hh|done].
  - intros z' o' p' q Hp' Hq. apply elem_of_give in Hp' as [Hp'|(-> & -> & ->)]; [| |done].
    + destruct (lo_block _ Hb _ _ _ _ Hp' Hq) as (g & Hg & Hrest). exists g.
      rewrite give_page, decide_False; [done|]. intros <-.
      apply (held_apart _ _ _ _ Hh p); [auto with lego|]. by exists z', o', p'.
    + destruct (held_page _ _ _ _ Hh q Hq) as (g & Hg & Hz & Hr & Hc & Hfl). unfold free_page_ok. rewrite give_page.
      case_decide as E.
      * subst q. rewrite Hg. eexists. split; [done|]. simpl. by rewrite Z.eqb_refl.
      * exists g. rewrite (proj2 (Z.eqb_neq q p)) by done. by repeat split.
  - intros q g. rewrite give_page. case_decide as E.
    + subst q. destruct (held_page _ _ _ _ Hh p) as (g0 & Hg0 & Hz & _); [auto with lego|]. rewrite Hg0.
      intros [= <-] _. exists o. split; [done|]. apply elem_of_give; [done|]. by right.
    + intros Hg Hbd. destruct (lo_buddy _ Hb _ _ Hg Hbd) as (o' & Ho' & Hin). exists o'. split; [done|].
      apply elem_of_give; [done|]. by left.
  - intros z' o' p' Hp' Ho Hin. apply elem_of_give in Hp'; [|done]. apply elem_of_give in Hin; [|done].
    destruct Hp' as [Hp'|(Ez & Eo & Ep)], Hin as [Hin|(Ez' & Eo' & E)]; subst.
    + by apply (lo_merged _ Hb _ _ _ Hp' Ho).
    + apply (Hbud Ho). by rewrite Z.lxor_assoc, Z.lxor_nilpotent, Z.lxor_0_r.
    + by apply (Hbud Ho).
    + pose proof (lxor_buddy p o (held_aligned _ _ _ _ Hh)). pose proof (blk_pos o). lia.
Qed.
End give.

(** ** The counters *)

Lemma area_total_alter f l o k a :
  l !! o = Some a ->
  area_total k (alter f o l) =
    area_total k l + blk (k + o) * (Z.of_nat (length (free_list (f a))) - Z.of_nat (length (free_list a))).
Proof.
  revert o k. induction l as [|x l IH]; [done|]. intros [|o] k; simpl.
  - intros [= ->]. change (alter f 0%nat (a :: l)) with (f a :: l). simpl. rewrite Nat.add_0_r. lia.
  - intros Ho. change (alter f (S o) (x :: l)) with (x :: alter f o l). simpl. rewrite (IH _ _ Ho).
    replace (k + S o)%nat with (S k + o)%nat by lia. lia.
Qed.

Lemma counted_set_area z o f b a d :
  counted z d b -> area z o b = Some a ->
  counted z (d - blk o * (Z.of_nat (length (free_list (f a))) - Z.of_nat (length (free_list a)))) (set_area z o f b).
Proof.
  intros Hc Ha z' zn'. unfold set_area, upd_zone. cbn [zones]. rewrite lookup_alter. case_decide as E.
  - subst z'. unfold area in Ha. destruct (zones b !! z) as [zn|] eqn:Hz; [|done]. intros [= <-]. simpl in *.
    rewrite (area_total_alter _ _ _ _ _ Ha), (Hc _ _ Hz), !Z.eqb_refl. simpl. lia.
  - intros Hz. rewrite (Hc _ _ Hz). by rewrite (proj2 (Z.eqb_neq z' z)).
Qed.

Lemma counted_take z o p b d :
  lists_ok b -> p ∈ flist b z o -> counted z d b -> counted z (d + blk o) (take z o p b).
Proof.
  intros Hb (a & Ha & Hin)%elem_of_flist Hc. destruct (lo_area _ Hb _ _ _ Ha) as [Hnd _].
  pose proof (counted_set_area z o (unlink p) (upd_page p (fun g => with_private 0 (with_mapcount (-1) g)) b) a d Hc Ha) as Hc'.
  revert Hc'. cbn [unlink free_list].
  rewrite (length_list_del p (free_list a)), Nat2Z.inj_succ by done.
  match goal with |- counted _ ?x _ -> _ => replace x with (d + blk o) by ring end. done.
Qed.

Lemma counted_give z o p b d : is_Some (area z o b) -> counted z d b -> counted z (d - blk o) (give z o p b).
Proof.
  intros [a Ha] Hc.
  pose proof (counted_set_area z o (push p) (upd_page p (fun g => with_mapcount PAGE_BUDDY_MAPCOUNT_VALUE
    (with_private (Z.of_nat o) g)) b) a d Hc Ha) as Hc'. revert Hc'.
  cbn [push free_list length]. rewrite Nat2Z.inj_succ.
  match goal with |- counted _ ?x _ -> _ => replace x with (d - blk o) by ring end. done.
Qed.

(** ** Changes that leave the free lists and the free pages alone *)

Definition marks (g : page) : Z * Z := (pg_zone g, pg_mapcount g).
Record outside (b b' : buddy) : Prop := Outside {
  os_area z o : area z o b' = area z o b;
  os_areas z : length ∘ free_areas <$> zones b' !! z = length ∘ free_areas <$> zones b !! z;
  os_page q : is_free b q -> mem_map b' !! q = mem_map b !! q;
  os_marks q : marks <$> mem_map b' !! q = marks <$> mem_map b !! q
}.

Section outside.
Context (b b' : buddy) (Ho : outside b b').

Lemma outside_flist z o : flist b' z o = flist b z o.
Proof. unfold flist. by rewrite (os_area _ _ Ho). Qed.

Lemma outside_free q : is_free b' q <-> is_free b q.
Proof. unfold is_free. by setoid_rewrite outside_flist. Qed.

Lemma outside_page q g' : mem_map b' !! q = Some g' -> exists g, mem_map b !! q = Some g /\ marks g' = marks g.
Proof.
  intros E. pose proof (os_marks _ _ Ho q) as H. rewrite E in H. destruct (mem_map b !! q) as [g|]; [|done].
  exists g. split; [done|]. simpl in H. congruence.
Qed.

Lemma outside_map : map_ok b -> map_ok b'.
Proof.
  intros Hb. assert (Hs : forall q, is_Some (mem_map b' !! q) <-> is_Some (mem_map b !! q)).
  { intros q. rewrite <- !(fmap_is_Some marks). by rewrite (os_marks _ _ Ho). }
  assert (Hz : forall z, is_Some (zones b' !! z) <-> is_Some (zones b !! z)).
  { intros z. rewrite <- !(fmap_is_Some (length ∘ free_areas)). by rewrite (os_areas _ _ Ho). }
  split.
  - intros p g' Hg. destruct (outside_page _ _ Hg) as (g & E & Hm). injection Hm as -> _. apply Hz. by eapply map_zone.
  - intros p g' Hg. destruct (outside_page _ _ Hg) as (g & E & _). by eapply map_nonneg.
  - intros p q. rewrite !Hs. by apply map_full.
  - intros z zn' E. pose proof (os_areas _ _ Ho z) as H. rewrite E in H. destruct (zones b !! z) as [zn|] eqn:E'; [|done].
    injection H as H. simpl in H. rewrite H. by eapply map_areas.
Qed.

Lemma outside_lists : lists_ok b -> lists_ok b'.
Proof.
  intros Hb. split.
  - apply outside_map, Hb.
  - intros z o a. rewrite (os_area _ _ Ho). by apply Hb.
  - intros z o p. rewrite outside_flist. by apply Hb.
  - intros z o p q. rewrite outside_flist. intros Hp Hq. destruct (lo_block _ Hb _ _ _ _ Hp Hq) as (g & Hg & Hr).
    exists g. split; [|done]. rewrite (os_page _ _ Ho); [done|]. by exists z, o, p.
  - intros p g' Hg Hbud. destruct (outside_page _ _ Hg) as (g & E & Hm). injection Hm as Hz Hc.
    destruct (lo_buddy _ Hb _ _ E) as (o & Hpr & Hin); [unfold PageBuddy in *; by rewrite <- Hc|].
    rewrite (os_page _ _ Ho p) in Hg by eauto with lego. rewrite E in Hg. injection Hg as <-.
    exists o. by rewrite outside_flist.
  - intros z o p. rewrite outside_flist. by apply Hb.
Qed.
End outside.
