(* ===== verification/BuddyFree.v ===== *)
(** * Physical pages, the buddy allocator: freeing

    [__free_one_page] merges the block with its buddy as long as that is free, and
    [__free_pages] checks and frees a block with its last reference. *)

From stdpp Require Import gmap.
From S2P Require Import Prelude BuddyModel BuddyInv.

(** ** The position of a block within the largest block *)

Lemma buddy_half p o : (blk o | p) -> (blk (S o) | p) \/ (blk (S o) | p - blk o).
Proof. intros H. destruct (lxor_buddy p o H) as [(_ & _ & ?)|(_ & _ & ?)]; auto. Qed.

Lemma not_both_halves p o : (blk (S o) | p) -> (blk (S o) | p - blk o) -> False.
Proof. rewrite blk_S. intros [a Ha] [c Hc]. pose proof (blk_pos o).
  assert (E : blk o * (2 * (a - c) - 1) = 0) by lia. apply Z.mul_eq_0 in E. lia.
Qed.

Lemma divide_mod_blk p o k : (o <= k)%nat -> (blk o | p) <-> (blk o | p mod blk k).
Proof.
  intros Hle. pose proof (blk_le _ _ Hle). pose proof (blk_pos k). rewrite Z.mod_eq by lia. split; intros Hd.
  - apply Z.divide_sub_r; [done|]. by apply Z.divide_mul_l.
  - replace p with (p - blk k * (p / blk k) + blk k * (p / blk k)) by lia. apply Z.divide_add_r; [done|].
    by apply Z.divide_mul_l.
Qed.

(** The indices that [__free_one_page] computes within a block of 2^MAX_ORDER pages are
    those of the frames. *)
Lemma buddy_idx p o :
  (o < MAX_ORDER)%nat -> (blk o | p) ->
  let i := p mod blk MAX_ORDER in
  p + (__find_buddy_index i o - i) = Z.lxor p (blk o) /\
  p + (Z.land (__find_buddy_index i o) i - i) = Z.land (Z.lxor p (blk o)) p /\
  Z.land (__find_buddy_index i o) i = Z.land (Z.lxor p (blk o)) p mod blk MAX_ORDER.
Proof.
  intros Ho Hp i. unfold __find_buddy_index. rewrite blk_shiftl.
  assert (Hi : (blk o | i)) by (apply divide_mod_blk; [lia|done]).
  assert (HS : (blk (S o) | p) <-> (blk (S o) | i)) by (apply divide_mod_blk; lia).
  pose proof (blk_pos o). pose proof (blk_pos MAX_ORDER) as HM. pose proof (Z.mod_pos_bound p _ HM) as Hb. fold i in Hb.
  destruct (lxor_buddy p o Hp) as [(-> & -> & Hd)|(-> & -> & Hd)], (lxor_buddy i o Hi) as [(-> & -> & Hd')|(-> & -> & Hd')].
  - repeat split; lia.
  - exfalso. apply HS in Hd. by apply (not_both_halves i o).
  - exfalso. apply HS in Hd'. by apply (not_both_halves p o).
  - repeat split; [lia..|]. assert (0 <= i - blk o).
    { destruct Hi as [c Hc]. destruct (Z.eq_dec c 0) as [->|]; [|nia]. exfalso. apply (not_both_halves i o); [|done].
      rewrite Hc. apply Z.divide_0_r. }
    apply Z.mod_unique with (p / blk MAX_ORDER); [left; lia|]. unfold i. rewrite Z.mod_eq by lia. lia.
Qed.

Lemma in_block_join p o q :
  (blk o | p) ->
  in_block (Z.land (Z.lxor p (blk o)) p) (S o) q <-> in_block p o q \/ in_block (Z.lxor p (blk o)) o q.
Proof.
  intros Hp. unfold in_block. rewrite blk_S. pose proof (blk_pos o).
  destruct (lxor_buddy p o Hp) as [(-> & -> & _)|(-> & -> & _)]; lia.
Qed.

Lemma join_aligned p o : (blk o | p) -> (blk (S o) | Z.land (Z.lxor p (blk o)) p).
Proof. intros Hp. by destruct (lxor_buddy p o Hp) as [(_ & -> & ?)|(_ & -> & ?)]. Qed.

(** A block and its buddy lie in the same largest block. *)
Lemma buddy_same_top p o : (S o < MAX_ORDER)%nat -> (blk o | p) ->
  p / blk (MAX_ORDER - 1) = Z.lxor p (blk o) / blk (MAX_ORDER - 1).
Proof.
  intros Ho Hp. set (k := (MAX_ORDER - 1)%nat). pose proof (blk_pos k). pose proof (blk_pos o).
  assert (Hk : (S o <= k)%nat) by (unfold k; lia).
  destruct (in_block_join p o p Hp) as [_ H1]. destruct (in_block_join p o (Z.lxor p (blk o)) Hp) as [_ H2].
  specialize (H1 (or_introl (in_block_head _ _))). specialize (H2 (or_intror (in_block_head _ _))).
  set (h := Z.land _ p) in *. set (t := h / blk k * blk k).
  assert (Ht : (blk k | t)) by (by exists (h / blk k)).
  assert (Hht : in_block t k h).
  { unfold in_block, t. pose proof (Z.mod_pos_bound h (blk k)). pose proof (Z.mod_eq h (blk k)). lia. }
  destruct (blocks_nested h (S o) t k h (join_aligned p o Hp) Ht Hk) as [Ha Hb]; [auto with lego|done|].
  assert (forall x, in_block h (S o) x -> x / blk k = h / blk k) as Hx.
  { intros x Hx. apply (in_block_nested _ _ _ _ _ Ha Hb) in Hx. unfold in_block, t in Hx. symmetry.
    apply Z.div_unique with (x - h / blk k * blk k); lia. }
  by rewrite (Hx p), (Hx (Z.lxor p (blk o))).
Qed.

(** ** Merging *)

(** The pages that are free neither before nor after are as they were. *)
Definition untouched (b b' : buddy) : Prop :=
  forall q, ~ is_free b q -> ~ is_free b' q -> mem_map b' !! q = mem_map b !! q.

Lemma untouched_trans b1 b2 b3 :
  (forall q, is_free b2 q -> is_free b1 q \/ is_free b3 q) -> untouched b1 b2 -> untouched b2 b3 -> untouched b1 b3.
Proof.
  intros Hm H12 H23 q H1 H3. assert (H2 : ~ is_free b2 q) by (intros H; apply Hm in H; tauto).
  by rewrite H23, H12.
Qed.

Lemma untouched_take z o p b : lists_ok b -> p ∈ flist b z o -> untouched b (take z o p b).
Proof.
  intros Hb Hp q Hq _. rewrite take_page, decide_False; [done|]. intros <-. apply Hq.
  eauto with lego.
Qed.

Lemma untouched_give z o p b : is_Some (area z o b) -> untouched b (give z o p b).
Proof.
  intros Ha q _ Hq. rewrite give_page, decide_False; [done|]. intros <-. apply Hq.
  apply give_free; [done|]. right. auto with lego.
Qed.

Lemma page_is_buddy_ok b z p o :
  lists_ok b -> held b z p o -> (S o < MAX_ORDER)%nat ->
  page_is_buddy p (Z.lxor p (blk o)) o b = Some (bool_decide (Z.lxor p (blk o) ∈ flist b z o)).
Proof.
  intros Hb Hh Ho. set (q := Z.lxor p (blk o)).
  destruct (held_page _ _ _ _ Hh p) as (h & Hg & Hz & _ & _); [auto with lego|].
  assert (is_Some (mem_map b !! q)) as [g Hq].
  { apply (map_full _ (lo_map _ Hb) p); [by rewrite Hg|]. apply buddy_same_top; [done|apply Hh]. }
  unfold page_is_buddy. rewrite Hq. cbn [mbind option_bind]. destruct (PageBuddy g) eqn:Hbud; cbn [andb].
  - destruct (lo_buddy _ Hb _ _ Hq Hbud) as (o' & Ho' & Hin). rewrite Ho'. destruct (Z.of_nat o' =? Z.of_nat o) eqn:E.
    + apply Z.eqb_eq, Nat2Z.inj in E. subst o'. rewrite Hg. cbn [mbind option_bind]. rewrite Hz.
      destruct (z =? pg_zone g) eqn:Ez; cbn [negb].
      * apply Z.eqb_eq in Ez. rewrite <- Ez in Hin. rewrite bool_decide_eq_true_2 by done.
        destruct (lo_block _ Hb _ _ _ q Hin) as (g' & Hg' & _ & Hr & _); [auto with lego|].
        rewrite Hq in Hg'. injection Hg' as <-. by rewrite Hr.
      * rewrite bool_decide_eq_false_2; [done|]. intros Hin'. apply Z.eqb_neq in Ez. apply Ez.
        destruct (free_blocks_apart b z o q (pg_zone g) o q q) as (_ & _ & ?); auto with lego.
    + rewrite bool_decide_eq_false_2; [done|]. intros Hin'. apply Z.eqb_neq in E. apply E. f_equal.
      destruct (free_blocks_apart b (pg_zone g) o' q z o q q) as (_ & ? & _); auto with lego.
  - rewrite bool_decide_eq_false_2; [done|]. intros Hin'.
    destruct (lo_block _ Hb _ _ _ q Hin') as (g' & Hg' & _ & _ & Hc & _); [auto with lego|].
    rewrite Hq in Hg'. injection Hg' as <-. rewrite Z.eqb_refl in Hc. unfold PageBuddy in Hbud. by rewrite Hc in Hbud.
Qed.

(** A held block with its buddy taken from its list *)
Lemma held_join b z p o :
  lists_ok b -> held b z p o -> Z.lxor p (blk o) ∈ flist b z o ->
  held (take z o (Z.lxor p (blk o)) b) z (Z.land (Z.lxor p (blk o)) p) (S o).
Proof.
  intros Hb Hh Hq. pose proof (held_aligned _ _ _ _ Hh) as Hal. pose proof (take_held _ _ _ _ Hb Hq) as Ht.
  split.
  - by apply join_aligned.
  - intros x [Hx|Hx]%in_block_join; [|by apply Ht|done].
    destruct (held_page _ _ _ _ Hh x Hx) as (g & Hg & Hrest). exists g.
    rewrite take_page, decide_False; [done|]. intros <-. apply (held_apart _ _ _ _ Hh _ Hx).
    eauto with lego.
  - intros x [Hx|Hx]%in_block_join; [|by apply Ht|done]. intros Hf. apply (held_apart _ _ _ _ Hh _ Hx).
    apply (take_free b z o _ Hq). auto.
Qed.

(** The result of the loop: a larger block is held, whose buddy is not free. *)
Record merged (b : buddy) (z p : Z) (o : nat) (p' : Z) (o' : nat) (b' : buddy) : Prop := Merged {
  mg_lists : lists_ok b';
  mg_held : held b' z p' o';
  mg_count : counted z (blk o') b';
  mg_order : (o' < MAX_ORDER)%nat;
  mg_buddy : (S o' < MAX_ORDER)%nat -> Z.lxor p' (blk o') ∉ flist b' z o';
  mg_moved : moved b b';
  mg_untouched : untouched b b';
  mg_stat : vm_zone_stat b' = vm_zone_stat b;
  mg_sub q : is_free b' q -> is_free b q;
  mg_free q : is_free b q \/ in_block p o q <-> is_free b' q \/ in_block p' o' q
}.

Lemma merge_buddies_ok n b z p o :
  lists_ok b -> held b z p o -> counted z (blk o) b -> (o < MAX_ORDER)%nat -> n = (MAX_ORDER - 1 - o)%nat ->
  exists p' o' b', merge_buddies n p (p mod blk MAX_ORDER) o z b = Some (p', o', b') /\ merged b z p o p' o' b'.
Proof.
  revert b p o. induction n as [|n IH]; intros b p o Hb Hh Hc Ho Hn.
  { exists p, o, b. split; [done|]. split; try done. unfold MAX_ORDER in *. lia. }
  pose proof (held_aligned _ _ _ _ Hh) as Hal. destruct (buddy_idx p o Ho Hal) as (E1 & E2 & E3).
  cbn [merge_buddies]. rewrite E1, (page_is_buddy_ok b z p o Hb Hh) by (unfold MAX_ORDER in *; lia).
  cbn [mbind option_bind]. destruct (decide (Z.lxor p (blk o) ∈ flist b z o)) as [Hq|Hq].
  - rewrite bool_decide_eq_true_2 by done. cbn [negb]. destruct (take_run b z o _ Hb Hq) as (b1 & -> & E4).
    cbn [mbind option_bind]. rewrite E4. cbn [mbind option_bind]. rewrite E2, E3. set (b2 := take _ _ _ _) in *.
    destruct (IH b2 (Z.land (Z.lxor p (blk o)) p) (S o)) as (p' & o' & b' & E & Hm).
    + by apply take_lists.
    + by apply held_join.
    + rewrite blk_S. replace (2 * blk o) with (blk o + blk o) by lia. by apply counted_take.
    + unfold MAX_ORDER in *. lia.
    + unfold MAX_ORDER in *. lia.
    + exists p', o', b'. split; [exact E|]. pose proof (fun q => proj2 (take_free b z o _ Hq q)) as Hsub. fold b2 in Hsub.
      destruct Hm as [H1 H2 H3 H4 H5 H6 H7 H8 H9 H10]. split; try done.
      * etrans; [apply moved_take|exact H6].
      * apply (untouched_trans b b2 b'); [auto|by apply untouched_take|done].
      * intros q Hf%H9. auto.
      * intros q. rewrite <- H10, in_block_join, (take_free b z o _ Hq) by done. fold b2. tauto.
  - rewrite bool_decide_eq_false_2 by done. exists p, o, b. split; [done|]. by split.
Qed.

(** ** Freeing one block *)

Record freed (b : buddy) (p : Z) (o : nat) (b' : buddy) : Prop := Freed {
  fr_ok : buddy_ok b';
  fr_moved : moved b b';
  fr_untouched : untouched b b';
  fr_stat : vm_zone_stat b' = vm_zone_stat b + blk o;
  fr_free q : is_free b' q <-> is_free b q \/ in_block p o q
}.

(** The counters of the zone and of the machine, whose free lists stay as they are *)
Lemma mod_zone_page_state_ok b z zn delta :
  zones b !! z = Some zn ->
  exists b', __mod_zone_page_state z delta b = Some b' /\ outside b b' /\ mem_map b' = mem_map b /\
    (forall z', shape <$> zones b' !! z' = shape <$> zones b !! z') /\ vm_zone_stat b' = vm_zone_stat b + delta /\ (forall d, counted z d b -> counted z (d + delta) b').
Proof.
  intros Hz. unfold __mod_zone_page_state. rewrite Hz. cbn [mbind option_bind]. eexists. split; [done|].
  repeat split; cbn.
  - intros z' o. unfold area. cbn. rewrite lookup_alter. case_decide; [subst z'|done]. by rewrite Hz.
  - intros z'. rewrite lookup_alter. case_decide; [subst z'|done]. by rewrite Hz.
  - intros z'. rewrite lookup_alter. case_decide; [subst z'|done]. by rewrite Hz.
  - intros d Hc z' zn'. cbn. rewrite lookup_alter. case_decide as E.
    + subst z'. rewrite Hz. intros [= <-]. cbn. rewrite (Hc _ _ Hz), Z.eqb_refl. lia.
    + intros Hz'. rewrite (Hc _ _ Hz'). by rewrite (proj2 (Z.eqb_neq z' z)).
Qed.

Lemma held_outside b b' z p o :
  outside b b' -> (forall q, in_block p o q -> mem_map b' !! q = mem_map b !! q) -> held b z p o -> held b' z p o.
Proof.
  intros Ho He [H1 H2 H3]. split; [done|..].
  - intros q Hq. rewrite He by done. auto.
  - intros q Hq. rewrite (outside_free _ _ Ho). auto.
Qed.

Lemma __free_one_page_ok b z p o :
  buddy_ok b -> held b z p o -> (o < MAX_ORDER)%nat ->
  exists b', __free_one_page p p z o b = Some b' /\ freed b p o b'.
Proof.
  intros [Hb Hc] Hh Ho. destruct (held_page _ _ _ _ Hh p) as (g & Hg & Hz & _ & _); [auto with lego|].
  destruct (map_zone _ (lo_map _ Hb) _ _ Hg) as [zn Hzn]. rewrite Hz in Hzn. pose proof (held_aligned _ _ _ _ Hh) as Hal.
  unfold __free_one_page. rewrite !blk_shiftl.
  destruct (mod_zone_page_state_ok b z zn (blk o) Hzn) as (b1 & -> & Ho1 & Hm1 & Hsh1 & Hs1 & Hc1). cbn [mbind option_bind].
  assert (Hh1 : held b1 z p o) by (apply (held_outside b); [done| |done]; intros; by rewrite Hm1).
  replace (Z.land p (blk MAX_ORDER - 1)) with (p mod blk MAX_ORDER) by (symmetry; by apply land_mask_mod).
  replace (Z.land (p mod blk MAX_ORDER) (blk o - 1)) with 0.
  2:{ unfold blk at 2. rewrite land_mask_mod by lia. symmetry. apply Z.mod_divide; [pose proof (blk_pos o); unfold blk in *; lia|].
      apply divide_mod_blk; [lia|done]. }
  cbn [negb Z.eqb].
  destruct (merge_buddies_ok (MAX_ORDER - 1 - o) b1 z p o) as (p' & o' & b2 & -> & [H1 H2 H3 H4 H5 H6 H7 H8 H9 H10]);
    [by eapply outside_lists|done|apply (Hc1 0), Hc|done|done|].
  cbn [mbind option_bind].
  assert (Ha : is_Some (area z o' b2)).
  { destruct (map_zone _ (lo_map _ H1) p' (default g (mem_map b2 !! p'))) as [zn2 Hz2].
    - destruct (held_page _ _ _ _ H2 p') as (g2 & -> & _); [auto with lego|done].
    - destruct (held_page _ _ _ _ H2 p') as (g2 & E2 & Hg2 & _); [auto with lego|]. rewrite E2 in Hz2. simpl in Hz2.
      rewrite Hg2 in Hz2. by eapply area_exists; [apply H1|exact Hz2|]. }
  destruct (give_run b2 z o' p' H2 Ha) as [(b3 & -> & E) _]. cbn [mbind option_bind]. rewrite E. eexists. split; [done|].
  split.
  - split; [by apply give_lists|]. intros z'. replace 0 with (blk o' - blk o') by lia.
    intros z'' zn'' Hz''. rewrite (counted_give z o' p' b2 _ Ha H3 z'' zn'' Hz''). case_bool; lia.
  - etrans; [|apply moved_give]. etrans; [|exact H6]. split; [by rewrite Hm1|]. exact Hsh1.
  - apply (untouched_trans b b1).
    + intros q. rewrite (outside_free _ _ Ho1). auto.
    + intros q _ _. by rewrite Hm1.
    + apply (untouched_trans b1 b2); [auto|done|by apply untouched_give].
  - cbn. rewrite H8, Hs1. done.
  - intros q. rewrite give_free, <- H10, (outside_free _ _ Ho1) by done. tauto.
Qed.

(** ** Blocks in use *)

(** An allocated block with [n] references *)
Record in_use (b : buddy) (z p : Z) (o : nat) (n : Z) : Prop := InUse {
  iu_aligned : (blk o | p);
  iu_order : (o < MAX_ORDER)%nat;
  iu_page q : in_block p o q -> exists g, mem_map b !! q = Some g /\ pg_zone g = z /\ pg_mapcount g = -1 /\
    Z.land (pg_flags g) PAGE_FLAGS_CHECK_AT_FREE = 0 /\ pg_refcount g = (if q =? p then n else 0);
  iu_apart q : in_block p o q -> ~ is_free b q
}.

(** What freeing a block leaves: the pages of the block are free, and nothing else
    changes but the marks of the free blocks that are merged. *)
Record released (b : buddy) (p : Z) (o : nat) (b' : buddy) : Prop := Released {
  rl_ok : buddy_ok b';
  rl_free q : is_free b' q <-> is_free b q \/ in_block p o q;
  rl_stat : vm_zone_stat b' = vm_zone_stat b + blk o;
  rl_attrs q : ~ in_block p o q -> attrs <$> mem_map b' !! q = attrs <$> mem_map b !! q;
  rl_kept q : kept <$> mem_map b' !! q = kept <$> mem_map b !! q;
  rl_rest q : ~ in_block p o q -> ~ is_free b q -> mem_map b' !! q = mem_map b !! q;
  rl_shape z : shape <$> zones b' !! z = shape <$> zones b !! z
}.

Definition clear_prep (g : page) : page := with_pflags (Z.ldiff (pg_flags g) PAGE_FLAGS_CHECK_AT_PREP) g.

Lemma land_clear_prep g : Z.land (pg_flags (clear_prep g)) PAGE_FLAGS_CHECK_AT_PREP = 0.
Proof.
  apply Z.bits_inj'. intros n Hn. simpl. rewrite Z.land_spec, Z.ldiff_spec, Z.bits_0.
  by destruct (Z.testbit (pg_flags g) n), (Z.testbit PAGE_FLAGS_CHECK_AT_PREP n).
Qed.

Lemma expected_state g : pg_mapcount g = -1 -> pg_refcount g = 0 ->
  Z.land (pg_flags g) PAGE_FLAGS_CHECK_AT_FREE = 0 -> page_expected_state g PAGE_FLAGS_CHECK_AT_FREE = true.
Proof. intros H1 H2 H3. unfold page_expected_state. by rewrite H1, H2, H3. Qed.

Lemma check_tails_ok n p b :
  (forall q, p <= q < p + Z.of_nat n -> exists g, mem_map b !! q = Some g /\
    page_expected_state g PAGE_FLAGS_CHECK_AT_FREE = true) ->
  exists b', check_tails n p false b = Some (false, b') /\ zones b' = zones b /\ vm_zone_stat b' = vm_zone_stat b /\
    forall q, mem_map b' !! q =
      if decide (p <= q < p + Z.of_nat n) then clear_prep <$> mem_map b !! q else mem_map b !! q.
Proof.
  revert p b. induction n as [|n IH]; intros p b Hp.
  { exists b. repeat split. intros q. rewrite decide_False by lia. done. }
  destruct (Hp p) as (g & Hg & Hst); [lia|]. cbn [check_tails]. unfold free_pages_check, clear_prep_flags, on_page.
  rewrite Hg. cbn [mbind option_bind]. rewrite Hst. cbn [mbind option_bind]. rewrite Hg. cbn [mbind option_bind orb].
  set (b1 := upd_page _ _ b).
  assert (H1 : forall q, q <> p -> mem_map b1 !! q = mem_map b !! q).
  { intros q Hq. unfold b1, upd_page. cbn. by rewrite lookup_alter_ne. }
  destruct (IH (p + 1) b1) as (b' & -> & Hz & Hs & Hm).
  { intros q Hq. rewrite H1 by lia. apply Hp. lia. }
  exists b'. split; [done|]. split; [done|]. split; [done|]. intros q. rewrite Hm. destruct (decide (q = p)) as [->|Hq].
  - rewrite decide_False, decide_True by lia. unfold b1, upd_page. cbn. by rewrite lookup_alter_eq.
  - rewrite H1 by done. by do 2 case_decide; try lia.
Qed.

Lemma blk_nat o : Z.of_nat (2 ^ o) = blk o.
Proof. unfold blk. by rewrite Nat2Z.inj_pow. Qed.

Lemma free_pages_prepare_ok b z p o :
  in_use b z p o 0 ->
  exists b', free_pages_prepare p o true b = Some (true, b') /\ zones b' = zones b /\ vm_zone_stat b' = vm_zone_stat b /\
    forall q, mem_map b' !! q = if decide (in_block p o q) then clear_prep <$> mem_map b !! q else mem_map b !! q.
Proof.
  intros [Hal Ho Hpg Hap]. pose proof (blk_pos o) as Hpos. pose proof (blk_nat o) as Hn.
  assert (Hst : forall q, in_block p o q -> exists g, mem_map b !! q = Some g /\
    page_expected_state g PAGE_FLAGS_CHECK_AT_FREE = true).
  { intros q Hq. destruct (Hpg q Hq) as (g & Hg & _ & Hc & Hf & Hr). exists g. split; [done|].
    apply expected_state; [done| |done]. rewrite Hr. by destruct (q =? p). }
  unfold free_pages_prepare.
  destruct (check_tails_ok (2 ^ o - 1) (p + 1) b) as (b1 & -> & Hz & Hs & Hm).
  { intros q Hq. apply Hst. unfold in_block. lia. }
  cbn [mbind option_bind orb]. destruct (Hst p) as (g & Hg & Hgs); [auto with lego|].
  unfold free_pages_check. rewrite Hm, decide_False, Hg by lia. cbn [mbind option_bind]. rewrite Hgs.
  cbn [mbind option_bind orb]. unfold clear_prep_flags, on_page. rewrite Hm, decide_False, Hg by lia. cbn [mbind option_bind].
  eexists. split; [done|]. split; [done|]. split; [done|]. intros q. unfold upd_page. cbn [mem_map]. rewrite lookup_alter.
  case_decide as E.
  - subst q. rewrite Hm, decide_False, decide_True by (auto with lego; lia). done.
  - rewrite Hm. unfold in_block. by do 2 case_decide; try lia.
Qed.

(** A change to the pages of a block in use that keeps their marks *)
Lemma in_use_outside b z p o n b' :
  in_use b z p o n -> zones b' = zones b ->
  (forall q, ~ in_block p o q -> mem_map b' !! q = mem_map b !! q) ->
  (forall q, marks <$> mem_map b' !! q = marks <$> mem_map b !! q) -> outside b b'.
Proof.
  intros Hu Hz Hm Hk. split; [|by rewrite Hz| |done].
  - intros z' o'. unfold area. by rewrite Hz.
  - intros q Hf. apply Hm. intros Hq. by apply (iu_apart _ _ _ _ _ Hu q Hq).
Qed.

Lemma outside_ok b b' : outside b b' -> zones b' = zones b -> buddy_ok b -> buddy_ok b'.
Proof.
  intros Ho Hz [Hl Hc]. split; [by eapply outside_lists|]. intros z z' zn. rewrite Hz. apply Hc.
Qed.

Lemma __free_pages_ok_correct b z p o :
  buddy_ok b -> in_use b z p o 0 -> exists b', __free_pages_ok p o b = Some b' /\ released b p o b'.
Proof.
  intros Hb Hu. destruct (free_pages_prepare_ok b z p o Hu) as (b1 & E & Hz & Hs & Hm).
  unfold __free_pages_ok. rewrite E. cbn [mbind option_bind negb].
  assert (Ho : outside b b1).
  { apply (in_use_outside b z p o 0); [done..| |].
    - intros q Hq. by rewrite Hm, decide_False.
    - intros q. rewrite Hm. case_decide; [|done]. by destruct (mem_map b !! q). }
  assert (Hh : held b1 z p o).
  { split; [apply Hu|..].
    - intros q Hq. destruct (iu_page _ _ _ _ _ Hu q Hq) as (g & Hg & Hgz & Hc & _ & Hr).
      rewrite Hm, decide_True, Hg by done. eexists. split; [done|]. repeat split; try done.
      + simpl. rewrite Hr. by destruct (q =? p).
      + apply land_clear_prep.
    - intros q Hq. rewrite (outside_free _ _ Ho). by apply Hu. }
  destruct (held_page _ _ _ _ Hh p) as (g & Eg & Ez & _ & _); [auto with lego|]. rewrite Eg. cbn [mbind option_bind].
  rewrite Ez. destruct (__free_one_page_ok b1 z p o) as (b' & -> & [F1 F2 F3 F4 F5]); [by eapply outside_ok|done|apply Hu|].
  exists b'. split; [done|]. split.
  - done.
  - intros q. by rewrite F5, (outside_free _ _ Ho).
  - by rewrite F4, Hs.
  - intros q Hq. by rewrite (mv_attrs _ _ F2), Hm, decide_False.
  - intros q. rewrite (moved_kept _ _ _ F2), Hm. case_decide; [|done]. by destruct (mem_map b !! q).
  - intros q Hq Hf. rewrite F3, Hm, decide_False; [done..| |].
    + by rewrite (outside_free _ _ Ho).
    + rewrite F5, (outside_free _ _ Ho). tauto.
  - intros z'. by rewrite (mv_shape _ _ F2), Hz.
Qed.

(** Dropping a reference: the last one frees the block. *)
Lemma __free_pages_correct b z p o n :
  buddy_ok b -> in_use b z p o n -> 0 < n ->
  exists b', __free_pages p o b = Some b' /\
    if n =? 1 then released b p o b'
    else buddy_ok b' /\ in_use b' z p o (n - 1) /\ zones b' = zones b /\ vm_zone_stat b' = vm_zone_stat b /\
         (forall q, is_free b' q <-> is_free b q) /\ (forall q, q <> p -> mem_map b' !! q = mem_map b !! q).
Proof.
  intros Hb Hu Hn. destruct (iu_page _ _ _ _ _ Hu p) as (g & Hg & Hz & Hc & Hf & Hr); [auto with lego|].
  rewrite Z.eqb_refl in Hr. unfold __free_pages, put_page_testzero. rewrite Hg. cbn [mbind option_bind].
  rewrite Hr, (proj2 (Z.eqb_neq n 0)) by lia. cbn [mbind option_bind]. set (b1 := upd_page _ _ b).
  assert (Hm : forall q, mem_map b1 !! q = if decide (p = q) then with_refcount (n - 1) <$> mem_map b !! p else mem_map b !! q).
  { intros q. unfold b1, upd_page. cbn. by rewrite lookup_alter. }
  assert (Ho : outside b b1).
  { apply (in_use_outside b z p o n); [done..| |].
    - intros q Hq. rewrite Hm, decide_False; [done|]. intros <-. apply Hq. auto with lego.
    - intros q. rewrite Hm. case_decide; [subst q|done]. by rewrite Hg. }
  assert (Hu1 : in_use b1 z p o (n - 1)).
  { split; [apply Hu..| |].
    - intros q Hq. rewrite Hm. case_decide as E.
      + subst q. rewrite Hg. eexists. split; [done|]. by rewrite Z.eqb_refl.
      + destruct (iu_page _ _ _ _ _ Hu q Hq) as (g' & Hg' & Hrest). exists g'. split; [done|].
        by rewrite (proj2 (Z.eqb_neq q p)) in * by done.
    - intros q Hq. rewrite (outside_free _ _ Ho). by apply Hu. }
  assert (Hb1 : buddy_ok b1) by (by eapply outside_ok).
  destruct (n =? 1) eqn:E.
  - apply Z.eqb_eq in E. rewrite (proj2 (Z.eqb_eq (n - 1) 0)) by lia. replace (n - 1) with 0 in Hu1 by lia.
    destruct (__free_pages_ok_correct b1 z p o Hb1 Hu1) as (b' & -> & [R1 R2 R3 R4 R7 R5 R6]).
    exists b'. split; [done|]. split; try done.
    + intros q Hq. rewrite R4, Hm, decide_False; [done| |done]. intros <-. apply Hq. auto with lego.
    + intros q. rewrite R7, Hm. case_decide; [subst q|done]. by rewrite Hg.
    + intros q Hq Hnf. rewrite R5, Hm, decide_False; [done| |done|].
      * intros <-. apply Hq. auto with lego.
      * by rewrite (outside_free _ _ Ho).
  - apply Z.eqb_neq in E. rewrite (proj2 (Z.eqb_neq (n - 1) 0)) by lia. exists b1. split; [done|].
    split; [done|]. split; [done|]. split; [done|]. split; [done|]. split; [apply (outside_free _ _ Ho)|].
    intros q Hq. by rewrite Hm, decide_False.
Qed.
