(* ===== verification/BuddyAlloc.v ===== *)
(** * Physical pages, the buddy allocator: allocation

    [expand] returns the halves that are not needed, [__rmqueue_smallest] takes the
    smallest block that is large enough, and the zones are tried in the order of the
    list. *)

From stdpp Require Import gmap.
From S2P Require Import Prelude BuddyModel BuddyInv BuddyFree.

(** A block taken out of the free lists of its zone, with the counter still to be set *)
Record grabbed (b : buddy) (z p : Z) (o : nat) (b' : buddy) : Prop := Grabbed {
  gb_lists : lists_ok b';
  gb_held : held b' z p o;
  gb_count d : counted z d b -> counted z (d + blk o) b';
  gb_moved : moved b b';
  gb_untouched : untouched b b';
  gb_stat : vm_zone_stat b' = vm_zone_stat b;
  gb_free q : is_free b q <-> is_free b' q \/ in_block p o q
}.

(** ** Splitting a block *)

Lemma held_half b z p o : held b z p (S o) -> held b z p o /\ held b z (p + blk o) o.
Proof.
  intros [H1 H2 H3]. rewrite blk_S in H1. pose proof (blk_pos o).
  assert (Hin : forall q, in_block p o q \/ in_block (p + blk o) o q -> in_block p (S o) q).
  { unfold in_block. rewrite blk_S. lia. }
  assert (Ha : (blk o | p)) by (etrans; [|exact H1]; by exists 2).
  split; split; auto. by apply Z.divide_add_r.
Qed.

Lemma lxor_upper p o : (blk (S o) | p) -> Z.lxor (p + blk o) (blk o) = p.
Proof.
  intros H. assert (Ha : (blk o | p)) by (etrans; [|exact H]; rewrite blk_S; by exists 2).
  destruct (lxor_buddy p o Ha) as [(<- & _ & _)|(_ & _ & H')].
  - by rewrite Z.lxor_assoc, Z.lxor_nilpotent, Z.lxor_0_r.
  - exfalso. by apply (not_both_halves p o).
Qed.

Lemma held_give b z p o z' p' o' :
  is_Some (area z' o' b) -> held b z p o -> (forall q, in_block p o q -> ~ in_block p' o' q) ->
  held (give z' o' p' b) z p o.
Proof.
  intros Ha [H1 H2 H3] Hd. split; [done|..].
  - intros q Hq. destruct (H2 q Hq) as (g & Hg & Hr). exists g. rewrite give_page, decide_False; [done|].
    intros <-. apply (Hd _ Hq). auto with lego.
  - intros q Hq. rewrite give_free by done. intros [Hf|Hf]; [by apply (H3 q)|by apply (Hd q)].
Qed.

Lemma expand_ok d b z p low :
  lists_ok b -> held b z p (low + d) -> (low + d < MAX_ORDER)%nat ->
  (forall o, (o < MAX_ORDER)%nat -> is_Some (area z o b)) ->
  exists b', expand z p low d b = Some b' /\ lists_ok b' /\ held b' z p low /\
    (forall e, counted z e b -> counted z (e - blk (low + d) + blk low) b') /\ moved b b' /\ untouched b b' /\
    vm_zone_stat b' = vm_zone_stat b /\ (forall q, is_free b q -> is_free b' q) /\
    (forall q, is_free b q \/ in_block p (low + d) q <-> is_free b' q \/ in_block p low q).
Proof.
  revert b. induction d as [|d IH]; intros b Hb Hh Ho Ha.
  { rewrite Nat.add_0_r in *. exists b. split; [done|]. repeat (split; [done|]).
    split; [intros e; by replace (e - blk low + blk low) with e by lia|]. by repeat (split; [done|]). }
  replace (low + S d)%nat with (S (low + d)) in * by lia. set (h := (low + d)%nat) in *.
  destruct (held_half b z p h Hh) as [Hlo Hhi]. cbn [expand]. fold h. rewrite blk_shiftl.
  assert (Hah : is_Some (area z h b)) by (apply Ha; lia).
  destruct (give_run b z h (p + blk h) Hhi Hah) as [_ (b1 & -> & E)]. cbn [mbind option_bind]. rewrite E. cbn [mbind option_bind].
  set (b2 := give z h (p + blk h) b).
  assert (Hb2 : lists_ok b2).
  { apply give_lists; [done..|]. intros _. rewrite lxor_upper by apply Hh. intros Hin.
    apply (held_apart _ _ _ _ Hh p); eauto with lego. }
  destruct (IH b2 Hb2) as (b' & -> & H1 & H2 & H3 & H4 & H5 & H6 & H7 & H8).
  { apply held_give; [done..|]. unfold in_block. lia. }
  { lia. }
  { intros o Hlt. unfold b2, give. rewrite area_set. case_decide; [|by apply Ha]. apply fmap_is_Some. exact Hah. }
  exists b'. split; [done|]. split; [done|]. split; [done|]. split; [|split; [|split; [|split; [|split]]]].
  - intros e Hc. replace (e - blk (S h) + blk low) with (e - blk h - blk h + blk low) by (rewrite blk_S; lia).
    apply H3. by apply counted_give.
  - etrans; [apply moved_give|exact H4].
  - apply (untouched_trans b b2 b'); [auto|by apply untouched_give|done].
  - by rewrite H6.
  - intros q Hq. apply H7. apply give_free; auto.
  - intros q. rewrite <- H8. unfold b2. rewrite give_free by done. unfold in_block. rewrite blk_S. pose proof (blk_pos h).
    split; [intros [?|?]; [tauto|]|intros [[?|?]|?]; [tauto|right; lia..]].
    destruct (Z.lt_ge_cases q (p + blk h)); [right; lia|left; right; lia].
Qed.

(** ** Free runs

    A run of free pages of one zone that is aligned like a block lies in a free block. *)

Definition free_in (b : buddy) (z q : Z) : Prop := exists o p, p ∈ flist b z o /\ in_block p o q.

Lemma free_in_is_free b z q : free_in b z q -> is_free b q.
Proof. intros (o & p & H). by exists z, o, p. Qed.

Lemma is_free_in b q g : lists_ok b -> mem_map b !! q = Some g -> is_free b q -> free_in b (pg_zone g) q.
Proof.
  intros Hb Hg (z & o & p & Hp & Hq). destruct (lo_block _ Hb _ _ _ _ Hp Hq) as (g' & Hg' & <- & _).
  rewrite Hg in Hg'. injection Hg' as <-. by exists o, p.
Qed.

Lemma free_run_block b z o p :
  lists_ok b -> (o < MAX_ORDER)%nat -> (blk o | p) -> (forall q, in_block p o q -> free_in b z q) ->
  exists o' p', (o <= o')%nat /\ p' ∈ flist b z o' /\ p' <= p /\ p + blk o <= p' + blk o'.
Proof.
  intros Hb. revert p. induction o as [|o IH]; intros p Ho Hal Hf.
  { destruct (Hf p) as (o' & p' & Hp' & Hq); [auto with lego|]. exists o', p'. split; [lia|]. split; [done|].
    unfold in_block in Hq. change (blk 0) with 1. lia. }
  rewrite blk_S in Hal. pose proof (blk_pos o). assert (Hal0 : (blk o | p)) by (etrans; [|exact Hal]; by exists 2).
  destruct (IH p) as (o1 & p1 & Ho1 & Hp1 & Ha1 & Hb1); [lia|done| |].
  { intros q Hq. apply Hf. unfold in_block in *. rewrite blk_S. lia. }
  destruct (IH (p + blk o)) as (o2 & p2 & Ho2 & Hp2 & Ha2 & Hb2); [lia|by apply Z.divide_add_r| |].
  { intros q Hq. apply Hf. unfold in_block in *. rewrite blk_S. lia. }
  rewrite <- blk_S in Hal.
  assert (Hbig : forall ox px x, (S o <= ox)%nat -> px ∈ flist b z ox -> in_block p (S o) x -> in_block px ox x ->
    exists o' p', (S o <= o')%nat /\ p' ∈ flist b z o' /\ p' <= p /\ p + blk (S o) <= p' + blk o').
  { intros ox px x Hox Hpx Hx Hx'. exists ox, px. split; [done|]. split; [done|].
    by apply (blocks_nested p (S o) px ox x Hal (lo_aligned _ Hb _ _ _ Hpx)). }
  destruct (decide (S o <= o1)%nat); [apply (Hbig o1 p1 p); auto with lego; unfold in_block; lia|].
  destruct (decide (S o <= o2)%nat).
  { apply (Hbig o2 p2 (p + blk o)); [done..| |]; unfold in_block; rewrite ?blk_S; lia. }
  assert (o1 = o) as -> by lia. assert (o2 = o) as -> by lia.
  assert (p1 = p) as -> by lia. assert (p2 = p + blk o) as -> by lia.
  exfalso. apply (lo_merged _ Hb _ _ _ Hp2); [done|]. by rewrite lxor_upper.
Qed.

(** The free lists are determined by the free pages, up to the order of their elements. *)
Lemma flist_canonical b b' z o p :
  lists_ok b -> lists_ok b' -> (forall q, free_in b z q <-> free_in b' z q) -> p ∈ flist b z o -> p ∈ flist b' z o.
Proof.
  intros Hb Hb' Hf Hp. pose proof (flist_order _ _ _ _ (lo_map _ Hb) Hp) as Ho.
  destruct (free_run_block b' z o p Hb' Ho (lo_aligned _ Hb _ _ _ Hp)) as (o1 & p1 & Ho1 & Hp1 & Ha1 & Hc1).
  { intros q Hq. apply Hf. by exists o, p. }
  pose proof (flist_order _ _ _ _ (lo_map _ Hb') Hp1) as Ho1'.
  destruct (free_run_block b z o1 p1 Hb Ho1' (lo_aligned _ Hb' _ _ _ Hp1)) as (o2 & p2 & Ho2 & Hp2 & Ha2 & Hc2).
  { intros q Hq. apply Hf. by exists o1, p1. }
  pose proof (blk_pos o). destruct (free_blocks_apart b z o p z o2 p2 p) as (-> & -> & _); auto with lego.
  { unfold in_block. lia. }
  assert (o1 = o2) as -> by lia. by assert (p1 = p2) as <- by lia.
Qed.

(** ** Taking a block from a zone *)

Lemma rmqueue_from_ok n b z order c :
  lists_ok b -> is_Some (zones b !! z) -> (order <= c)%nat -> n = (MAX_ORDER - c)%nat ->
  exists r b', rmqueue_from n z order c b = Some (r, b') /\
    match r with
    | None => b' = b /\ forall o, (c <= o)%nat -> flist b z o = []
    | Some p => grabbed b z p order b' /\
        exists o, (c <= o)%nat /\ head (flist b z o) = Some p /\ forall o', (c <= o' < o)%nat -> flist b z o' = []
    end.
Proof.
  intros Hb [zn Hz] Hle. revert c Hle.
  assert (Ha : forall o, (o < MAX_ORDER)%nat -> is_Some (area z o b)) by (intros; eapply area_exists; eauto; apply Hb).
  induction n as [|n IH]; intros c Hle Hn.
  { exists None, b. split; [done|]. split; [done|]. intros o Ho. unfold flist, area. rewrite Hz. simpl.
    rewrite lookup_ge_None_2; [done|]. rewrite (map_areas _ (lo_map _ Hb) _ _ Hz). lia. }
  cbn [rmqueue_from]. destruct (Ha c) as [a Ea]; [lia|]. rewrite Ea. cbn [mbind option_bind].
  assert (Ef : flist b z c = free_list a) by (unfold flist; by rewrite Ea).
  destruct (free_list a) as [|p l] eqn:El.
  - destruct (IH (S c)) as (r & b' & -> & Hr); [lia..|]. exists r, b'. split; [done|]. destruct r as [p|].
    + destruct Hr as [Hg (o & Ho & Hh & Hmin)]. split; [done|]. exists o. split; [lia|]. split; [done|].
      intros o' Ho'. destruct (decide (o' = c)) as [->|]; [done|]. apply Hmin. lia.
    + destruct Hr as [-> Hr]. split; [done|]. intros o Ho. destruct (decide (o = c)) as [->|]; [done|]. apply Hr. lia.
  - assert (Hp : p ∈ flist b z c) by (rewrite Ef; left).
    destruct (take_run b z c p Hb Hp) as (b1 & -> & E1). cbn [mbind option_bind]. rewrite E1. cbn [mbind option_bind].
    pose proof (flist_order _ _ _ _ (lo_map _ Hb) Hp) as Hc.
    destruct (expand_ok (c - order) (take z c p b) z p order) as (b' & -> & H1 & H2 & H3 & H4 & H5 & H6 & H7 & H8).
    + by apply take_lists.
    + replace (order + (c - order))%nat with c by lia. by apply take_held.
    + lia.
    + intros o Ho. unfold take. rewrite area_set. case_decide; [apply fmap_is_Some|]; apply Ha; lia.
    + replace (order + (c - order))%nat with c in * by lia. exists (Some p), b'. split; [done|]. split.
      * split; try done.
        -- intros d Hd. replace (d + blk order) with (d + blk c - blk c + blk order) by lia. apply H3. by apply counted_take.
        -- etrans; [apply moved_take|done].
        -- apply (untouched_trans b (take z c p b)); [|by apply untouched_take|done].
           intros q Hq. left. apply (take_free b z c p Hp). auto.
        -- intros q. by rewrite <- H8, (take_free b z c p Hp).
      * exists c. split; [done|]. rewrite Ef. split; [done|]. lia.
Qed.

(** The zone has no block that is large enough. *)
Definition exhausted (b : buddy) (z : Z) (order : nat) : Prop := forall o, (order <= o)%nat -> flist b z o = [].

Lemma exhausted_no_run b z order p :
  lists_ok b -> exhausted b z order -> (order < MAX_ORDER)%nat -> (blk order | p) ->
  ~ (forall q, in_block p order q -> free_in b z q).
Proof.
  intros Hb He Ho Hp Hf. destruct (free_run_block b z order p Hb Ho Hp Hf) as (o' & p' & Ho' & Hin & _).
  rewrite He in Hin by done. by apply elem_of_nil in Hin.
Qed.

Lemma buffered_rmqueue_ok b z order :
  buddy_ok b -> is_Some (zones b !! z) ->
  exists r b', buffered_rmqueue z order b = Some (r, b') /\
    match r with
    | None => b' = b /\ exhausted b z order
    | Some p => buddy_ok b' /\ held b' z p order /\ moved b b' /\ untouched b b' /\
        vm_zone_stat b' = vm_zone_stat b - blk order /\ (order < MAX_ORDER)%nat /\
        (forall q, is_free b q <-> is_free b' q \/ in_block p order q)
    end.
Proof.
  intros [Hb Hc] Hz. unfold buffered_rmqueue, __rmqueue, __rmqueue_smallest, __rmqueue_fallback.
  destruct (rmqueue_from_ok (MAX_ORDER - order) b z order order Hb Hz) as (r & b1 & -> & Hr); [done..|].
  cbn [mbind option_bind]. destruct r as [p|].
  2:{ destruct Hr as [-> Hr]. cbn [mbind option_bind]. exists None, b. by split. }
  destruct Hr as [[H1 H2 H3 H4 H5 H6 H7] (o & Ho & Hh & _)]. cbn [mbind option_bind].
  assert (Hlt : (o < MAX_ORDER)%nat).
  { eapply (flist_order b z o p); [apply Hb|]. destruct (flist b z o); [done|]. injection Hh as ->. left. }
  assert (is_Some (zones b1 !! z)) as [zn1 Hz1].
  { rewrite <- (fmap_is_Some shape), (mv_shape _ _ H4), fmap_is_Some. done. }
  rewrite blk_shiftl. destruct (mod_zone_page_state_ok b1 z zn1 (- blk order) Hz1) as (b2 & -> & Ho2 & Hm2 & Hsh2 & Hs2 & Hc2).
  cbn [mbind option_bind]. exists (Some p), b2. split; [done|]. split; [|split; [|split; [|split; [|split; [|split]]]]].
  - split; [by eapply outside_lists|]. intros z' z'' zn''. specialize (H3 0 (Hc z)). apply Hc2 in H3. intros Hz''.
    rewrite (H3 _ _ Hz''). case_bool; lia.
  - apply (held_outside b1); [done| |done]. intros. by rewrite Hm2.
  - etrans; [exact H4|]. split; [by rewrite Hm2|exact Hsh2].
  - apply (untouched_trans b b1 b2); [intros q Hq; left; apply H7; auto|done|]. intros q _ _. by rewrite Hm2.
  - rewrite Hs2, H6. lia.
  - lia.
  - intros q. by rewrite H7, (outside_free _ _ Ho2).
Qed.

(** ** Preparing the pages *)

Definition zero_bytes : list Z := replicate (Z.to_nat PAGE_SIZE) 0.

Lemma clear_pages_ok n p b :
  (forall q, p <= q < p + Z.of_nat n -> is_Some (mem_map b !! q)) ->
  exists b', clear_pages n p b = Some b' /\ zones b' = zones b /\ vm_zone_stat b' = vm_zone_stat b /\
    forall q, mem_map b' !! q =
      if decide (p <= q < p + Z.of_nat n) then with_data zero_bytes <$> mem_map b !! q else mem_map b !! q.
Proof.
  revert p b. induction n as [|n IH]; intros p b Hp.
  { exists b. repeat split. intros q. rewrite decide_False by lia. done. }
  destruct (Hp p) as [g Hg]; [lia|]. cbn [clear_pages]. unfold __clear_page, on_page. rewrite Hg. cbn [mbind option_bind].
  fold zero_bytes. set (b1 := upd_page _ _ b).
  assert (H1 : forall q, q <> p -> mem_map b1 !! q = mem_map b !! q).
  { intros q Hq. unfold b1, upd_page. cbn. by rewrite lookup_alter_ne. }
  destruct (IH (p + 1) b1) as (b' & -> & Hz & Hs & Hm).
  { intros q Hq. rewrite H1 by lia. apply Hp. lia. }
  exists b'. split; [done|]. split; [done|]. split; [done|]. intros q. rewrite Hm. destruct (decide (q = p)) as [->|Hq].
  - rewrite decide_False, decide_True by lia. unfold b1, upd_page. cbn [mem_map]. by rewrite lookup_alter_eq.
  - rewrite H1 by done. by do 2 case_decide; try lia.
Qed.

Lemma check_free_prep f : Z.land f PAGE_FLAGS_CHECK_AT_PREP = 0 -> Z.land f PAGE_FLAGS_CHECK_AT_FREE = 0.
Proof.
  intros H. change PAGE_FLAGS_CHECK_AT_FREE with (Z.land PAGE_FLAGS_CHECK_AT_PREP PAGE_FLAGS_CHECK_AT_FREE).
  by rewrite Z.land_assoc, H.
Qed.

Definition wants_zero (gfp : Z) : bool := negb (Z.land gfp ___GFP_ZERO =? 0).

Lemma prep_new_page_ok b z p o gfp :
  held b z p o -> (o < MAX_ORDER)%nat ->
  exists b', prep_new_page p o gfp b = Some b' /\ zones b' = zones b /\ vm_zone_stat b' = vm_zone_stat b /\
    (forall q, mem_map b' !! q = (fun g => 
       let g := if decide (in_block p o q) then (if wants_zero gfp then with_data zero_bytes g else g) else g in
       if q =? p then with_refcount 1 (with_private 0 g) else g) <$> mem_map b !! q).
Proof.
  intros Hh Ho. unfold prep_new_page. fold (wants_zero gfp).
  assert (exists b1, (if wants_zero gfp then clear_pages (2 ^ o) p b else Some b) = Some b1 /\ zones b1 = zones b /\
    vm_zone_stat b1 = vm_zone_stat b /\ forall q, mem_map b1 !! q = (fun g => 
      if decide (in_block p o q) then (if wants_zero gfp then with_data zero_bytes g else g) else g) <$> mem_map b !! q)
    as (b1 & -> & Hz & Hs & Hm).
  { destruct (wants_zero gfp).
    - destruct (clear_pages_ok (2 ^ o) p b) as (b1 & -> & Hz & Hs & Hm).
      { intros q. rewrite blk_nat. intros Hq. destruct (held_page _ _ _ _ Hh q Hq) as (g & -> & _). done. }
      exists b1. split; [done|]. split; [done|]. split; [done|]. intros q. rewrite Hm, blk_nat. unfold in_block.
      case_decide; [done|]. by destruct (mem_map b !! q).
    - exists b. split; [done|]. split; [done|]. split; [done|]. intros q. case_decide; by destruct (mem_map b !! q). }
  cbn [mbind option_bind]. destruct (held_page _ _ _ _ Hh p) as (g & Hg & _); [auto with lego|].
  unfold set_page_private, set_page_refcounted, set_page_count, on_page, upd_page. rewrite Hm, Hg. cbn [fmap option_fmap option_map mbind option_bind mem_map].
  rewrite lookup_alter_eq, Hm, Hg. cbn [fmap option_fmap option_map mbind option_bind mem_map zones vm_zone_stat].
  eexists. split; [done|]. cbn. split; [done|]. split; [done|]. intros q. rewrite alter_twice, lookup_alter. case_decide as E.
  - subst q. rewrite Hm, Hg, Z.eqb_refl. done.
  - rewrite Hm, (proj2 (Z.eqb_neq q p)) by done. done.
Qed.

(** ** Allocation *)

(** What an allocation leaves: a block of pages of the zone with one reference, and
    nothing else changes but the marks of the free block that was split. *)
Record allocated (gfp : Z) (b : buddy) (z p : Z) (o : nat) (b' : buddy) : Prop := Allocated {
  al_ok : buddy_ok b';
  al_use : in_use b' z p o 1;
  al_free q : is_free b q <-> is_free b' q \/ in_block p o q;
  al_stat : vm_zone_stat b' = vm_zone_stat b - blk o;
  al_attrs q : ~ in_block p o q -> attrs <$> mem_map b' !! q = attrs <$> mem_map b !! q;
  al_zone q : pg_zone <$> mem_map b' !! q = pg_zone <$> mem_map b !! q;
  al_rest q : ~ is_free b q -> mem_map b' !! q = mem_map b !! q;
  al_data q g : in_block p o q -> mem_map b' !! q = Some g ->
    exists g0, mem_map b !! q = Some g0 /\ pg_data g = if wants_zero gfp then zero_bytes else pg_data g0;
  al_shape z' : shape <$> zones b' !! z' = shape <$> zones b !! z';
  al_flags q g : in_block p o q -> mem_map b' !! q = Some g -> Z.land (pg_flags g) PAGE_FLAGS_CHECK_AT_PREP = 0
}.

Lemma prepared b b1 z p o gfp :
  buddy_ok b1 -> held b1 z p o -> moved b b1 -> untouched b b1 -> vm_zone_stat b1 = vm_zone_stat b - blk o ->
  (o < MAX_ORDER)%nat -> (forall q, is_free b q <-> is_free b1 q \/ in_block p o q) ->
  exists b', prep_new_page p o gfp b1 = Some b' /\ allocated gfp b z p o b'.
Proof.
  intros Hb Hh Hmv Hun Hst Ho Hf. destruct (prep_new_page_ok b1 z p o gfp Hh Ho) as (b' & E & Hz & Hs & Hm).
  exists b'. split; [done|].
  assert (Hout : forall q, ~ in_block p o q -> mem_map b' !! q = mem_map b1 !! q).
  { intros q Hq. rewrite Hm. destruct (mem_map b1 !! q); [|done]. simpl.
    rewrite decide_False, (proj2 (Z.eqb_neq q p)); [done| |done]. intros ->. apply Hq. auto with lego. }
  assert (Hos : outside b1 b').
  { split; [|by rewrite Hz|..].
    - intros z' o'. unfold area. by rewrite Hz.
    - intros q Hq. apply Hout. intros Hin. by apply (held_apart _ _ _ _ Hh q).
    - intros q. rewrite Hm. destruct (mem_map b1 !! q); [|done]. simpl.
      by case_decide; destruct (wants_zero gfp), (q =? p). }
  split.
  - by eapply outside_ok.
  - split; [apply Hh|done|..].
    + intros q Hq. destruct (held_page _ _ _ _ Hh q Hq) as (g & Hg & Hgz & Hr & Hc & Hfl). apply check_free_prep in Hfl.
      rewrite Hm, Hg. eexists. split; [done|]. cbn beta zeta. rewrite decide_True by done. by destruct (wants_zero gfp), (q =? p).
    + intros q Hq. rewrite (outside_free _ _ Hos). by apply Hh.
  - intros q. by rewrite Hf, (outside_free _ _ Hos).
  - by rewrite Hs.
  - intros q Hq. by rewrite Hout, (mv_attrs _ _ Hmv).
  - intros q. pose proof (moved_kept _ _ q Hmv) as Hk. apply (f_equal (fmap fst)) in Hk. rewrite <- !option_fmap_compose in Hk.
    change (fst ∘ kept) with pg_zone in Hk. rewrite <- Hk, Hm. destruct (mem_map b1 !! q); [|done]. simpl.
    by case_decide; destruct (wants_zero gfp), (q =? p).
  - intros q Hq. assert (Hn : ~ (is_free b1 q \/ in_block p o q)) by (by rewrite <- Hf).
    rewrite Hout by tauto. apply Hun; tauto.
  - intros q g Hq. rewrite Hm. destruct (mem_map b1 !! q) as [g1|] eqn:E1; [|done]. intros [= <-].
    destruct (moved_page _ _ _ _ Hmv E1) as (g0 & Hg0 & Ha). exists g0. split; [done|].
    injection Ha as _ _ _ Ha. rewrite decide_True by done. by destruct (wants_zero gfp), (q =? p).
  - intros z'. by rewrite Hz, (mv_shape _ _ Hmv).
  - intros q g Hq. destruct (held_page _ _ _ _ Hh q Hq) as (g1 & Hg1 & _ & _ & _ & Hfl). rewrite Hm, Hg1. intros [= <-].
    by case_decide; destruct (wants_zero gfp), (q =? p).
Qed.

Lemma page_from_zones_ok l b gfp o :
  buddy_ok b -> Forall (fun z => is_Some (zones b !! z)) l ->
  exists r b', page_from_zones gfp o l b = Some (r, b') /\
    match r with
    | None => b' = b /\ Forall (fun z => exhausted b z o) l
    | Some p => exists l1 z l2, l = l1 ++ z :: l2 /\ Forall (fun z => exhausted b z o) l1 /\ allocated gfp b z p o b'
    end.
Proof.
  intros Hb. induction l as [|z l IH]; intros Hl; [by exists None, b|].
  apply list.Forall_cons in Hl as [Hz Hl]. cbn [page_from_zones].
  destruct (buffered_rmqueue_ok b z o Hb Hz) as (r & b1 & -> & Hr). cbn [mbind option_bind]. destruct r as [p|].
  - destruct Hr as (H1 & H2 & H3 & H4 & H5 & H6 & H7).
    destruct (prepared b b1 z p o gfp H1 H2 H3 H4 H5 H6 H7) as (b' & -> & Ha). cbn [mbind option_bind].
    exists (Some p), b'. split; [done|]. by exists [], z, l.
  - destruct Hr as [-> He]. destruct (IH Hl) as (r & b' & -> & Hr). exists r, b'. split; [done|]. destruct r as [p|].
    + destruct Hr as (l1 & z' & l2 & -> & He1 & Ha). exists (z :: l1), z', l2. split; [done|]. split; [by constructor|done].
    + destruct Hr as [-> He1]. split; [done|]. by constructor.
Qed.
