(* ===== verification/MemblockModel.v ===== *)
(** * Boot-time memory, memblock: the model

    mm/memblock.c and include/lego/memblock.h.

    The array of regions of a type with its count is a list, never empty: without memory
    it holds one empty region, as the C array does.  A [phys_addr_t] is an unsigned
    64-bit number.  The result [None] is a BUG, or the panic of [memblock_double_array]:
    the arrays of LegoOS do not grow.  WARN_ON, and the debugging output, have no
    counterpart. *)

From S2P Require Import Prelude.

Definition INIT_MEMBLOCK_REGIONS : nat := 128.
Definition MAX_NUMNODES : Z := 64.
Definition NUMA_NO_NODE : Z := -1.
Definition MEMBLOCK_NONE : Z := 0.
Definition ULLONG_MAX : Z := ULONG_MOD - 1.
Definition MEMBLOCK_ALLOC_ANYWHERE : Z := ULLONG_MAX.
Definition MEMBLOCK_ALLOC_ACCESSIBLE : Z := 0.
Definition L1_CACHE_BYTES : Z := Z.shiftl 1 6.

(** ** Data (memblock.h) *)

Record region := Region { rg_base : Z; rg_size : Z; rg_flags : Z; rg_nid : Z }.
Record memblock_type := Mtype { regions : list region; total_size : Z }.
Record memblock := Memblock { current_limit : Z; memory : memblock_type; reserved : memblock_type }.

Definition cnt (t : memblock_type) : nat := length (regions t).
Definition rg_end (r : region) : Z := rg_base r +u rg_size r.

(** The entry of an array without regions; all of [nid] but in the initial one *)
Definition dummy (nid : Z) : region := Region 0 0 0 nid.
Definition memblock_init : memblock :=
  Memblock MEMBLOCK_ALLOC_ANYWHERE (Mtype [dummy 0] 0) (Mtype [dummy 0] 0).

(** ** Arithmetic (kernel.h, pfn.h) *)

Definition round_up (x y : Z) : Z := Z.lor (x -u 1) (y -u 1) +u 1.
Definition round_down (x y : Z) : Z := Z.land x (wrap (Z.lnot (y -u 1))).
Definition clamp (val lo hi : Z) : Z := Z.min (Z.max val lo) hi.
Definition PFN_UP (x : Z) : Z := Z.shiftr (x +u (PAGE_SIZE - 1)) PAGE_SHIFT.
Definition PFN_DOWN (x : Z) : Z := Z.shiftr x PAGE_SHIFT.
Definition PFN_PHYS (x : Z) : Z := x <<u PAGE_SHIFT.

(** The size, cut so that [base + size] does not overflow *)
Definition memblock_cap_size (base size : Z) : Z := Z.min size (ULLONG_MAX - base).

Definition memblock_addrs_overlap (base1 size1 base2 size2 : Z) : bool :=
  (base1 <? base2 +u size2) && (base2 <? base1 +u size1).

Definition memblock_overlaps_region (t : memblock_type) (base size : Z) : bool :=
  existsb (fun r => memblock_addrs_overlap base size (rg_base r) (rg_size r)) (regions t).

(** ** Adding *)

(** The loop of [memblock_merge_regions], from the region [this] on *)
Fixpoint merge_from (this : region) (l : list region) : option (list region) :=
  match l with
  | [] => Some [this]
  | next :: l =>
      if negb (rg_end this =? rg_base next) || negb (rg_nid this =? rg_nid next) ||
         negb (rg_flags this =? rg_flags next)
      then
        BUG_ON rg_base next <? rg_end this;;
        l ← merge_from next l; Some (this :: l)
      else merge_from (Region (rg_base this) (rg_size this +u rg_size next) (rg_flags this) (rg_nid this)) l
  end.

Definition memblock_merge_regions (t : memblock_type) : option memblock_type :=
  match regions t with
  | [] => Some t
  | r :: l => l ← merge_from r l; Some (Mtype l (total_size t))
  end.

Definition memblock_insert_region (t : memblock_type) (idx : nat) (base size nid flags : Z) : option memblock_type :=
  BUG_ON (INIT_MEMBLOCK_REGIONS <=? cnt t)%nat;;
  Some (Mtype (take idx (regions t) ++ Region base size flags nid :: drop idx (regions t)) (total_size t +u size)).

(** The loop over the regions: [n] of them are left, the next one is at [idx]. *)
Fixpoint add_loop (n : nat) (insert : bool) (end_ nid flags : Z) (t : memblock_type) (idx : nat) (base : Z) (nr_new : nat)
  : option (memblock_type * nat * Z * nat) :=
  match n with
  | O => Some (t, idx, base, nr_new)
  | S n =>
      rgn ← regions t !! idx;
      let rbase := rg_base rgn in
      let rend := rg_end rgn in
      if end_ <=? rbase then Some (t, idx, base, nr_new)
      else if rend <=? base then add_loop n insert end_ nid flags t (S idx) base nr_new
      else if base <? rbase then
        if insert then
          t ← memblock_insert_region t idx base (rbase -u base) nid flags;
          add_loop n insert end_ nid flags t (S (S idx)) (Z.min rend end_) (S nr_new)
        else add_loop n insert end_ nid flags t (S idx) (Z.min rend end_) (S nr_new)
      else add_loop n insert end_ nid flags t (S idx) (Z.min rend end_) nr_new
  end.

(** One of the two rounds *)
Definition add_round (insert : bool) (t : memblock_type) (base end_ nid flags : Z) : option (memblock_type * nat) :=
  '(t, idx, base, nr_new) ← add_loop (cnt t) insert end_ nid flags t 0 base 0;
  if base <? end_ then
    t ← (if insert then memblock_insert_region t idx base (end_ -u base) nid flags else Some t);
    Some (t, S nr_new)
  else Some (t, nr_new).

Definition memblock_add_range (t : memblock_type) (base size nid flags : Z) : option (memblock_type * Z) :=
  let size := memblock_cap_size base size in
  let end_ := base +u size in
  if size =? 0 then Some (t, 0)
  else
    match regions t with
    | r :: l =>
        if rg_size r =? 0 then Some (Mtype (Region base size flags nid :: l) size, 0)
        else
          '(_, nr_new) ← add_round false t base end_ nid flags;
          if (nr_new =? 0)%nat then Some (t, 0)
          else
            BUG_ON (INIT_MEMBLOCK_REGIONS <? cnt t + nr_new)%nat;;
            '(t, _) ← add_round true t base end_ nid flags;
            t ← memblock_merge_regions t;
            Some (t, 0)
    | [] => None
    end.

Definition memblock_add_node (m : memblock) (base size nid : Z) : option (memblock * Z) :=
  '(t, ret) ← memblock_add_range (memory m) base size nid 0;
  Some (Memblock (current_limit m) t (reserved m), ret).
Definition memblock_add (m : memblock) (base size : Z) : option (memblock * Z) :=
  memblock_add_node m base size MAX_NUMNODES.
Definition memblock_reserve (m : memblock) (base size : Z) : option (memblock * Z) :=
  '(t, ret) ← memblock_add_range (reserved m) base size MAX_NUMNODES 0;
  Some (Memblock (current_limit m) (memory m) t, ret).

(** ** Removing *)

(** The loop of [memblock_isolate_range]; it ends within [cnt + 2] steps. *)
Fixpoint isolate_loop (n : nat) (base end_ : Z) (t : memblock_type) (idx : nat) (start_rgn end_rgn : nat)
  : option (memblock_type * nat * nat) :=
  match regions t !! idx with
  | None => Some (t, start_rgn, end_rgn)
  | Some rgn =>
      match n with
      | O => None
      | S n =>
          let rbase := rg_base rgn in
          let rend := rg_end rgn in
          let set_base b := <[idx := Region b (rg_size rgn -u (b -u rbase)) (rg_flags rgn) (rg_nid rgn)]> (regions t) in
          if end_ <=? rbase then Some (t, start_rgn, end_rgn)
          else if rend <=? base then isolate_loop n base end_ t (S idx) start_rgn end_rgn
          else if rbase <? base then
            let t := Mtype (set_base base) (total_size t -u (base -u rbase)) in
            t ← memblock_insert_region t idx rbase (base -u rbase) (rg_nid rgn) (rg_flags rgn);
            isolate_loop n base end_ t (S idx) start_rgn end_rgn
          else if end_ <? rend then
            let t := Mtype (set_base end_) (total_size t -u (end_ -u rbase)) in
            t ← memblock_insert_region t idx rbase (end_ -u rbase) (rg_nid rgn) (rg_flags rgn);
            isolate_loop n base end_ t idx start_rgn end_rgn
          else isolate_loop n base end_ t (S idx) (if (end_rgn =? 0)%nat then idx else start_rgn) (S idx)
      end
  end.

Definition memblock_isolate_range (t : memblock_type) (base size : Z) : option (memblock_type * nat * nat) :=
  let size := memblock_cap_size base size in
  let end_ := base +u size in
  if size =? 0 then Some (t, O, O)
  else
    BUG_ON (INIT_MEMBLOCK_REGIONS <? cnt t + 2)%nat;;
    isolate_loop (cnt t + 3) base end_ t 0 0 0.

Definition memblock_remove_region (t : memblock_type) (r : nat) : option memblock_type :=
  rgn ← regions t !! r;
  let l := delete r (regions t) in
  Some (Mtype (match l with [] => [dummy MAX_NUMNODES] | _ => l end) (total_size t -u rg_size rgn)).

(** [n] regions from [start] on, the last one first *)
Fixpoint remove_regions (n start : nat) (t : memblock_type) : option memblock_type :=
  match n with
  | O => Some t
  | S n => t ← memblock_remove_region t (start + n); remove_regions n start t
  end.

Definition memblock_remove_range (t : memblock_type) (base size : Z) : option (memblock_type * Z) :=
  '(t, start_rgn, end_rgn) ← memblock_isolate_range t base size;
  t ← remove_regions (end_rgn - start_rgn) start_rgn t;
  Some (t, 0).

Definition memblock_remove (m : memblock) (base size : Z) : option (memblock * Z) :=
  '(t, ret) ← memblock_remove_range (memory m) base size;
  Some (Memblock (current_limit m) t (reserved m), ret).
Definition memblock_free (m : memblock) (base size : Z) : option (memblock * Z) :=
  '(t, ret) ← memblock_remove_range (reserved m) base size;
  Some (Memblock (current_limit m) (memory m) t, ret).

(** [n] regions from [start] on get the node. *)
Fixpoint set_nids (n start : nat) (nid : Z) (l : list region) : list region :=
  match n with
  | O => l
  | S n => set_nids n (S start) nid
      (alter (fun r => Region (rg_base r) (rg_size r) (rg_flags r) nid) start l)
  end.

Definition memblock_set_node (t : memblock_type) (base size nid : Z) : option (memblock_type * Z) :=
  '(t, start_rgn, end_rgn) ← memblock_isolate_range t base size;
  t ← memblock_merge_regions (Mtype (set_nids (end_rgn - start_rgn) start_rgn nid (regions t)) (total_size t));
  Some (t, 0).

(** ** Searching *)

Fixpoint search_loop (n : nat) (t : memblock_type) (addr : Z) (left right : nat) : option (option nat) :=
  match n with
  | O => None
  | S n =>
      let mid := Nat.div (right + left) 2 in
      r ← regions t !! mid;
      let next left right := if (left <? right)%nat then search_loop n t addr left right else Some None in
      if addr <? rg_base r then next left mid
      else if rg_end r <=? addr then next (S mid) right
      else Some (Some mid)
  end.
Definition memblock_search (t : memblock_type) (addr : Z) : option (option nat) :=
  search_loop (S (cnt t)) t addr 0 (cnt t).

Definition memblock_is_region_memory (m : memblock) (base size : Z) : option bool :=
  idx ← memblock_search (memory m) base;
  let end_ := base +u memblock_cap_size base size in
  match idx with
  | None => Some false
  | Some i => r ← regions (memory m) !! i; Some ((rg_base r <=? base) && (end_ <=? rg_end r))
  end.

(** The node of a frame, and the first and the last frame of its region *)
Definition memblock_search_pfn_nid (m : memblock) (pfn : Z) : option (option (Z * Z * Z)) :=
  mid ← memblock_search (memory m) (PFN_PHYS pfn);
  match mid with
  | None => Some None
  | Some i => r ← regions (memory m) !! i; Some (Some (rg_nid r, PFN_DOWN (rg_base r), PFN_DOWN (rg_end r)))
  end.

Definition memblock_is_region_reserved (m : memblock) (base size : Z) : bool :=
  memblock_overlaps_region (reserved m) base (memblock_cap_size base size).

(** ** Iteration *)

(** The index of an iteration: of the region of [type_a] in the lower half, of the gap of
    [type_b] in the upper one *)
Definition pack (idx_a idx_b : Z) : Z := Z.lor (Z.land idx_a (2 ^ 32 - 1)) (idx_b <<u 32).
Definition idx_a_of (idx : Z) : nat := Z.to_nat (Z.land idx (2 ^ 32 - 1)).
Definition idx_b_of (idx : Z) : nat := Z.to_nat (Z.shiftr idx 32).

(** The gap before region [i] of [type_b] *)
Definition gap_start (t : memblock_type) (i : nat) : Z :=
  match i with O => 0 | S i => default 0 (rg_end <$> regions t !! i) end.
Definition gap_end (t : memblock_type) (i : nat) : Z :=
  match regions t !! i with Some r => rg_base r | None => ULLONG_MAX end.

(** What the inner loop over the gaps finds: a range and where to go on, or the gap at
    which to take the next region *)
Inductive scan := Found (start end_ : Z) (nid : Z) (idx : Z) | Advance (idx_b : nat).

Fixpoint scan_gaps (n : nat) (m : region) (type_b : memblock_type) (idx_a idx_b : nat) : scan :=
  match n with
  | O => Advance idx_b
  | S n =>
      let r_start := gap_start type_b idx_b in
      let r_end := gap_end type_b idx_b in
      if rg_end m <=? r_start then Advance idx_b
      else if rg_base m <? r_end then
        Found (Z.max (rg_base m) r_start) (Z.min (rg_end m) r_end) (rg_nid m)
          (if rg_end m <=? r_end then pack (Z.of_nat (S idx_a)) (Z.of_nat idx_b)
           else pack (Z.of_nat idx_a) (Z.of_nat (S idx_b)))
      else scan_gaps n m type_b idx_a (S idx_b)
  end.

(** The outer loop of [__next_mem_range], with [type_b]; [None] is the end. *)
Fixpoint next_range (n : nat) (nid : Z) (type_a type_b : memblock_type) (idx_a idx_b : nat) : option (Z * Z * Z * Z) :=
  match n with
  | O => None
  | S n =>
      match regions type_a !! idx_a with
      | None => None
      | Some m =>
          if negb (nid =? NUMA_NO_NODE) && negb (nid =? rg_nid m) then next_range n nid type_a type_b (S idx_a) idx_b
          else
            match scan_gaps (cnt type_b + 1 - idx_b) m type_b idx_a idx_b with
            | Found start end_ m_nid idx => Some (start, end_, m_nid, idx)
            | Advance idx_b => next_range n nid type_a type_b (S idx_a) idx_b
            end
      end
  end.

Definition __next_mem_range (idx nid : Z) (type_a type_b : memblock_type) : option (Z * Z * Z * Z) :=
  let nid := if nid =? MAX_NUMNODES then NUMA_NO_NODE else nid in
  next_range (S (cnt type_a)) nid type_a type_b (idx_a_of idx) (idx_b_of idx).

(** [for_each_mem_range]: the ranges in the order of the iteration; there are at most as
    many as regions and gaps. *)
Fixpoint mem_ranges (n : nat) (idx nid : Z) (type_a type_b : memblock_type) : list (Z * Z) :=
  match n with
  | O => []
  | S n =>
      match __next_mem_range idx nid type_a type_b with
      | None => []
      | Some (start, end_, _, idx) => (start, end_) :: mem_ranges n idx nid type_a type_b
      end
  end.

Definition for_each_free_mem_range (m : memblock) (nid : Z) : list (Z * Z) :=
  mem_ranges (cnt (memory m) + cnt (reserved m) + 1) 0 nid (memory m) (reserved m).

(** The other direction.  The loops count down to -1; the argument [n] of the loops is the
    index plus one, and so is what the inner one advances to. *)
Definition to_int (x : Z) : Z := if 2 ^ 31 <=? x then x - 2 ^ 32 else x.
Definition below (idx : Z) : nat := Z.to_nat (to_int idx + 1).

Fixpoint scan_gaps_rev (n : nat) (m : region) (type_b : memblock_type) (idx_a : nat) : scan :=
  match n with
  | O => Advance 0
  | S idx_b =>
      let r_start := gap_start type_b idx_b in
      let r_end := gap_end type_b idx_b in
      if r_end <=? rg_base m then Advance (S idx_b)
      else if r_start <? rg_end m then
        Found (Z.max (rg_base m) r_start) (Z.min (rg_end m) r_end) (rg_nid m)
          (if r_start <=? rg_base m then pack (Z.of_nat idx_a - 1) (Z.of_nat idx_b)
           else pack (Z.of_nat idx_a) (Z.of_nat idx_b - 1))
      else scan_gaps_rev idx_b m type_b idx_a
  end.

Fixpoint next_range_rev (n : nat) (nid : Z) (type_a type_b : memblock_type) (below_b : nat) : option (Z * Z * Z * Z) :=
  match n with
  | O => None
  | S idx_a =>
      m ← regions type_a !! idx_a;
      if negb (nid =? NUMA_NO_NODE) && negb (nid =? rg_nid m) then next_range_rev idx_a nid type_a type_b below_b
      else
        match scan_gaps_rev below_b m type_b idx_a with
        | Found start end_ m_nid idx => Some (start, end_, m_nid, idx)
        | Advance below_b => next_range_rev idx_a nid type_a type_b below_b
        end
  end.

Definition __next_mem_range_rev (idx nid : Z) (type_a type_b : memblock_type) : option (Z * Z * Z * Z) :=
  let nid := if nid =? MAX_NUMNODES then NUMA_NO_NODE else nid in
  if idx =? ULLONG_MAX then next_range_rev (cnt type_a) nid type_a type_b (S (cnt type_b))
  else next_range_rev (below (Z.land idx (2 ^ 32 - 1))) nid type_a type_b (below (Z.shiftr idx 32)).

Fixpoint mem_ranges_rev (n : nat) (idx nid : Z) (type_a type_b : memblock_type) : list (Z * Z) :=
  match n with
  | O => []
  | S n =>
      match __next_mem_range_rev idx nid type_a type_b with
      | None => []
      | Some (start, end_, _, idx) =>
          if idx =? ULLONG_MAX then [] else (start, end_) :: mem_ranges_rev n idx nid type_a type_b
      end
  end.

Definition for_each_free_mem_range_reverse (m : memblock) (nid : Z) : list (Z * Z) :=
  mem_ranges_rev (cnt (memory m) + cnt (reserved m) + 1) ULLONG_MAX nid (memory m) (reserved m).

(** ** Allocation *)

Fixpoint find_top_down (l : list (Z * Z)) (start end_ size align : Z) : Z :=
  match l with
  | [] => 0
  | (this_start, this_end) :: l =>
      let this_start := clamp this_start start end_ in
      let this_end := clamp this_end start end_ in
      if this_end <? size then find_top_down l start end_ size align
      else
        let cand := round_down (this_end -u size) align in
        if this_start <=? cand then cand else find_top_down l start end_ size align
  end.

Definition __memblock_find_range_top_down (m : memblock) (start end_ size align nid : Z) : Z :=
  find_top_down (for_each_free_mem_range_reverse m nid) start end_ size align.

(** [memblock_bottom_up()] is false: the search is from the top. *)
Definition memblock_find_in_range_node (m : memblock) (size align start end_ nid : Z) : Z :=
  let end_ := if end_ =? MEMBLOCK_ALLOC_ACCESSIBLE then current_limit m else end_ in
  let start := Z.max start PAGE_SIZE in
  let end_ := Z.max start end_ in
  __memblock_find_range_top_down m start end_ size align nid.

Definition memblock_find_in_range (m : memblock) (start end_ size align : Z) : Z :=
  memblock_find_in_range_node m size align start end_ NUMA_NO_NODE.

Definition memblock_alloc_range_nid (m : memblock) (size align start end_ nid : Z) : option (Z * memblock) :=
  let align := if align =? 0 then L1_CACHE_BYTES else align in
  let found := memblock_find_in_range_node m size align start end_ nid in
  if found =? 0 then Some (0, m)
  else
    '(m, ret) ← memblock_reserve m found size;
    Some (if ret =? 0 then found else 0, m).

Definition memblock_alloc_range (m : memblock) (size align start end_ : Z) : option (Z * memblock) :=
  memblock_alloc_range_nid m size align start end_ NUMA_NO_NODE.
Definition memblock_alloc_base_nid (m : memblock) (size align max_addr nid : Z) : option (Z * memblock) :=
  memblock_alloc_range_nid m size align 0 max_addr nid.
(** MEMBLOCK_MIRROR is never set: there is no second try. *)
Definition memblock_alloc_nid (m : memblock) (size align nid : Z) : option (Z * memblock) :=
  memblock_alloc_base_nid m size align MEMBLOCK_ALLOC_ACCESSIBLE nid.
Definition __memblock_alloc_base (m : memblock) (size align max_addr : Z) : option (Z * memblock) :=
  memblock_alloc_base_nid m size align max_addr NUMA_NO_NODE.
Definition memblock_alloc_base (m : memblock) (size align max_addr : Z) : option (Z * memblock) :=
  '(alloc, m) ← __memblock_alloc_base m size align max_addr;
  BUG_ON alloc =? 0;; Some (alloc, m).
Definition memblock_alloc (m : memblock) (size align : Z) : option (Z * memblock) :=
  memblock_alloc_base m size align MEMBLOCK_ALLOC_ACCESSIBLE.
Definition memblock_alloc_try_nid (m : memblock) (size align nid : Z) : option (Z * memblock) :=
  '(res, m) ← memblock_alloc_nid m size align nid;
  if negb (res =? 0) then Some (res, m) else memblock_alloc_base m size align MEMBLOCK_ALLOC_ACCESSIBLE.

(** [memblock_virt_alloc_internal], returning the physical address: the search on the
    node, then on any, then both again without the lower bound *)
Definition memblock_virt_alloc_internal (m : memblock) (size align min_addr max_addr nid : Z) : option (Z * memblock) :=
  let nid := if nid =? MAX_NUMNODES then NUMA_NO_NODE else nid in
  let align := if align =? 0 then L1_CACHE_BYTES else align in
  let max_addr := Z.min max_addr (current_limit m) in
  let try min_addr :=
    let alloc := memblock_find_in_range_node m size align min_addr max_addr nid in
    if negb (alloc =? 0) then alloc
    else if negb (nid =? NUMA_NO_NODE) then memblock_find_in_range_node m size align min_addr max_addr NUMA_NO_NODE
    else 0 in
  let alloc := try min_addr in
  let alloc := if negb (alloc =? 0) then alloc else if negb (min_addr =? 0) then try 0 else 0 in
  if alloc =? 0 then Some (0, m)
  else '(m, _) ← memblock_reserve m alloc size; Some (alloc, m).

Definition memblock_virt_alloc_try_nid_nopanic (m : memblock) (size align min_addr max_addr nid : Z) : option (Z * memblock) :=
  memblock_virt_alloc_internal m size align min_addr max_addr nid.
Definition __memblock_free_early (m : memblock) (base size : Z) : option memblock :=
  '(t, _) ← memblock_remove_range (reserved m) base size;
  Some (Memblock (current_limit m) (memory m) t).

(** ** Trimming *)

Fixpoint trim_loop (n : nat) (i : nat) (align : Z) (t : memblock_type) : option memblock_type :=
  match regions t !! i with
  | None => Some t
  | Some r =>
      match n with
      | O => None
      | S n =>
          let start := round_up (rg_base r) align in
          let end_ := round_down (rg_end r) align in
          if (start =? rg_base r) && (end_ =? rg_end r) then trim_loop n (S i) align t
          else if start <? end_ then
            trim_loop n (S i) align
              (Mtype (<[i := Region start (end_ -u start) (rg_flags r) (rg_nid r)]> (regions t)) (total_size t))
          else t ← memblock_remove_region t i; trim_loop n i align t
      end
  end.
Definition memblock_trim_memory (m : memblock) (align : Z) : option memblock :=
  t ← trim_loop (S (S (cnt (memory m)))) 0 align (memory m);
  Some (Memblock (current_limit m) t (reserved m)).

(** ** Ranges of page frames *)

(** [for_each_mem_pfn_range], with MAX_NUMNODES for all nodes *)
Definition for_each_mem_pfn_range (m : memblock) (nid : Z) : list (Z * Z * Z) :=
  (fun r => (PFN_UP (rg_base r), PFN_DOWN (rg_end r), rg_nid r)) <$>
    filter (fun r => PFN_UP (rg_base r) < PFN_DOWN (rg_end r) /\ (nid = MAX_NUMNODES \/ nid = rg_nid r)) (regions (memory m)).

(** [for_each_reserved_mem_region]: the last address is included. *)
Definition for_each_reserved_mem_region (m : memblock) : list (Z * Z) :=
  (fun r => (rg_base r, rg_end r -u 1)) <$> regions (reserved m).
