(* ===== verification/MemblockRegions.v ===== *)
(** * Boot-time memory, memblock: sets of regions

    A type is a set of addresses, each with a node and flags ([attr_at]); its array is
    sorted, disjoint and minimal ([type_ok]).  [memblock_add_range],
    [memblock_isolate_range], [memblock_remove_range] and [memblock_set_node] as
    operations on such sets. *)

From S2P Require Import Prelude MemblockModel.

Definition rg_attr (r : region) : Z * Z := (rg_nid r, rg_flags r).
Definition covers (r : region) (a : Z) : Prop := rg_base r <= a < rg_base r + rg_size r.

(** What the address has: the node and the flags of its region *)
Fixpoint attr_at (l : list region) (a : Z) : option (Z * Z) :=
  match l with
  | [] => None
  | r :: l => if (rg_base r <=? a) && (a <? rg_base r + rg_size r) then Some (rg_attr r) else attr_at l a
  end.

(** Sorted and disjoint regions from [lo] on, none of them empty *)
Fixpoint chain (lo : Z) (l : list region) : Prop :=
  match l with
  | [] => True
  | r :: l => lo <= rg_base r /\ 0 < rg_size r /\ rg_base r + rg_size r <= ULLONG_MAX /\
      chain (rg_base r + rg_size r) l
  end.

(** Regions that touch have different attributes, but at the points [X]. *)
Fixpoint minimal (X : Z -> Prop) (l : list region) : Prop :=
  match l with
  | r :: (r' :: _) as l => (rg_base r + rg_size r = rg_base r' -> rg_attr r = rg_attr r' -> X (rg_base r')) /\ minimal X l
  | _ => True
  end.

Fixpoint size_sum (l : list region) : Z := match l with [] => 0 | r :: l => rg_size r + size_sum l end.

Record regions_ok (l : list region) : Prop := RegionsOk {
  ro_chain : chain 0 l;
  ro_minimal : minimal (fun _ => False) l
}.

(** An array of a type: without memory it has the empty region. *)
Record type_ok (t : memblock_type) : Prop := TypeOk {
  to_cnt : (cnt t <= INIT_MEMBLOCK_REGIONS)%nat;
  to_total : is_u64 (total_size t);
  to_regions : (exists nid, regions t = [dummy nid]) \/ (regions t <> [] /\ regions_ok (regions t))
}.

(** The total is the size of all regions. *)
Definition exact (t : memblock_type) : Prop := total_size t = size_sum (regions t).

(** ** Chains *)

Lemma chain_le lo lo' l : lo' <= lo -> chain lo l -> chain lo' l.
Proof. destruct l as [|r l]; [done|]. simpl. intros Hle (? & ? & ? & ?). repeat split; try done. lia. Qed.

(** Where a chain ends *)
Fixpoint stop (lo : Z) (l : list region) : Z :=
  match l with [] => lo | r :: l => stop (rg_base r + rg_size r) l end.

Lemma chain_app lo l k : chain lo (l ++ k) <-> chain lo l /\ chain (stop lo l) k.
Proof. revert lo. induction l as [|r l IH]; intros lo; simpl; [tauto|]. rewrite IH. tauto. Qed.

Lemma stop_app lo l k : stop lo (l ++ k) = stop (stop lo l) k.
Proof. revert lo. induction l as [|r l IH]; intros lo; simpl; [done|]. apply IH. Qed.

Lemma stop_le lo l : chain lo l -> lo <= stop lo l.
Proof.
  revert lo. induction l as [|r l IH]; intros lo; simpl; [lia|]. intros (? & ? & _ & H). apply IH in H. lia.
Qed.

Lemma attr_below lo l a : chain lo l -> a < lo -> attr_at l a = None.
Proof.
  revert lo. induction l as [|r l IH]; intros lo; simpl; [done|]. intros (H1 & H2 & _ & H3) Ha.
  rewrite (proj2 (Z.leb_gt (rg_base r) a)) by lia. simpl. apply (IH _ H3). lia.
Qed.

Lemma attr_at_app l k a : attr_at (l ++ k) a = match attr_at l a with Some x => Some x | None => attr_at k a end.
Proof. induction l as [|r l IH]; simpl; [done|]. by destruct (_ && _). Qed.

Lemma attr_at_spec l a lo x :
  chain lo l -> attr_at l a = Some x <-> exists r, r ∈ l /\ covers r a /\ rg_attr r = x.
Proof.
  revert lo. induction l as [|r l IH]; intros lo; simpl.
  { split; [done|]. by intros (r & ?%elem_of_nil & _). }
  intros (H1 & H2 & _ & H3). setoid_rewrite elem_of_cons.
  destruct ((rg_base r <=? a) && (a <? rg_base r + rg_size r)) eqn:E.
  - zbool. split.
    + intros [= <-]. exists r. unfold covers. auto with lia.
    + intros (r' & [->|Hr'] & Hc & <-); [done|]. exfalso.
      rewrite (attr_below (rg_base r + rg_size r) l a) in IH by (done || lia).
      specialize (IH _ H3). assert (None = Some (rg_attr r')) as Hn by (apply IH; eauto). done.
  - rewrite (IH _ H3). split; [naive_solver|]. intros (r' & [->|Hr'] & Hc & <-); [|eauto].
    exfalso. unfold covers in Hc. apply andb_false_iff in E as [E|E]; zbool; lia.
Qed.

Lemma chain_sum lo l : lo <= ULLONG_MAX -> chain lo l -> 0 <= size_sum l /\ lo + size_sum l <= ULLONG_MAX.
Proof.
  revert lo. induction l as [|r l IH]; intros lo Hlo; simpl; [lia|]. intros (H1 & H2 & H3 & H4).
  destruct (IH _ H3 H4). lia.
Qed.

Lemma size_sum_app l k : size_sum (l ++ k) = size_sum l + size_sum k.
Proof. induction l as [|r l IH]; simpl; lia. Qed.

Lemma chain_end r lo l : 0 <= lo -> chain lo (r :: l) -> rg_end r = rg_base r + rg_size r.
Proof. intros Hlo (H1 & H2 & H3 & _). unfold rg_end, ULLONG_MAX in *. apply wrap_small. split; lia. Qed.

Lemma minimal_weaken (X Y : Z -> Prop) l : (forall x, X x -> Y x) -> minimal X l -> minimal Y l.
Proof.
  intros HX. induction l as [|r [|r' l] IH]; [done..|]. intros [H1 H2]. split; [auto|by apply IH].
Qed.

(** ** Merging *)

Lemma merge_from_ok r l lo :
  0 <= lo -> chain lo (r :: l) ->
  exists l', merge_from r l = Some l' /\ chain lo l' /\ minimal (fun _ => False) l' /\
    size_sum l' = size_sum (r :: l) /\ (length l' <= S (length l))%nat /\ (forall a, attr_at l' a = attr_at (r :: l) a) /\
    exists k, head l' = Some (Region (rg_base r) k (rg_flags r) (rg_nid r)).
Proof.
  revert r lo. induction l as [|s l IH]; intros r lo Hlo Hc.
  { exists [r]. split; [done|]. split; [done|]. split; [done|]. split; [done|]. split; [done|]. split; [done|].
    exists (rg_size r). by destruct r. }
  pose proof (chain_end r lo _ Hlo Hc) as He. destruct Hc as (H1 & H2 & H3 & Hs). cbn [merge_from]. rewrite He.
  assert (0 <= rg_base r + rg_size r) as Hlo' by lia. pose proof Hs as (S1 & S2 & S3 & S4).
  destruct (negb (rg_base r + rg_size r =? rg_base s) || negb (rg_nid r =? rg_nid s) || negb (rg_flags r =? rg_flags s)) eqn:E.
  - rewrite (proj2 (Z.ltb_ge (rg_base s) (rg_base r + rg_size r))) by lia.
    destruct (IH s _ Hlo' Hs) as (l' & -> & C & M & T & L & A & k & Hh). cbn [mbind option_bind].
    exists (r :: l'). split; [done|]. split; [by repeat split|]. split; [|split; [|split; [|split]]].
    + destruct l' as [|s' l']; [done|]. injection Hh as ->. split; [|done]. simpl. unfold rg_attr. simpl.
      intros Hb Ha. injection Ha as Hn Hf. apply orb_true_iff in E as [[E|E]%orb_true_iff|E]; zbool; congruence.
    + simpl in *. lia.
    + simpl. lia.
    + intros a. simpl. by rewrite A.
    + simpl. exists (rg_size r). by destruct r.
  - zbool. destruct (IH (Region (rg_base r) (rg_size r +u rg_size s) (rg_flags r) (rg_nid r)) lo) as (l' & -> & C & M & T & L & A & k & Hh).
    + done.
    + simpl. rewrite wrap_small by (unfold ULLONG_MAX in *; split; lia). repeat split; try lia.
      by replace (rg_base r + (rg_size r + rg_size s)) with (rg_base s + rg_size s) by lia.
    + exists l'. simpl in *. rewrite wrap_small in * by (unfold ULLONG_MAX in *; split; lia).
      repeat split; try done; [lia|lia| |by exists k]. intros a. rewrite A. unfold rg_attr. simpl.
      assert (rg_nid s = rg_nid r) as -> by congruence. assert (rg_flags s = rg_flags r) as -> by congruence.
      destruct ((rg_base r <=? a) && (a <? rg_base r + rg_size r)) eqn:E1; zbool.
      * by rewrite (proj2 (Z.leb_le (rg_base r) a)), (proj2 (Z.ltb_lt a (rg_base r + (rg_size r + rg_size s)))) by lia.
      * destruct ((rg_base s <=? a) && (a <? rg_base s + rg_size s)) eqn:E2; zbool.
        -- by rewrite (proj2 (Z.leb_le (rg_base r) a)), (proj2 (Z.ltb_lt a (rg_base r + (rg_size r + rg_size s)))) by lia.
        -- rewrite (proj2 (andb_false_iff _ _)); [done|]. apply andb_false_iff in E1, E2. rewrite !Z.leb_gt, !Z.ltb_ge in *. lia.
Qed.

(** ** Adding *)

Section add.
Context (end_ nid flags : Z).

(** The regions with the missing parts of [base, end_) added *)
Fixpoint fill (base : Z) (l : list region) : list region :=
  match l with
  | [] => if base <? end_ then [Region base (end_ - base) flags nid] else []
  | r :: l =>
      if end_ <=? rg_base r then (if base <? end_ then [Region base (end_ - base) flags nid] else []) ++ r :: l
      else if rg_base r + rg_size r <=? base then r :: fill base l
      else (if base <? rg_base r then [Region base (rg_base r - base) flags nid] else []) ++
           r :: fill (Z.min (rg_base r + rg_size r) end_) l
  end.

Lemma fill_chain lo base l :
  0 <= lo -> chain lo l -> lo <= base \/ end_ <= base -> end_ <= ULLONG_MAX -> chain lo (fill base l).
Proof.
  revert lo base. induction l as [|r l IH]; intros lo base Hlo; simpl.
  { intros _ Hb He. destruct (base <? end_) eqn:E; zbool; simpl; [|done]. repeat split; lia. }
  intros (H1 & H2 & H3 & H4) Hb He. destruct (end_ <=? rg_base r) eqn:E1; zbool.
  { destruct (base <? end_) eqn:E; zbool; simpl; repeat split; try done; lia. }
  destruct (rg_base r + rg_size r <=? base) eqn:E2; zbool.
  { simpl. repeat split; try done. apply IH; try done; lia. }
  assert (chain (rg_base r + rg_size r) (fill (Z.min (rg_base r + rg_size r) end_) l)) by (apply IH; try done; lia).
  destruct (base <? rg_base r) eqn:E3; zbool; simpl; repeat split; try done; lia.
Qed.

Lemma fill_attr lo base l a :
  chain lo l -> lo <= base \/ end_ <= base ->
  attr_at (fill base l) a =
    match attr_at l a with
    | Some x => Some x
    | None => if (base <=? a) && (a <? end_) then Some (nid, flags) else None
    end.
Proof.
  revert lo base. induction l as [|r l IH]; intros lo base; simpl.
  { intros _ Hb. destruct (base <? end_) eqn:E; zbool; simpl.
    - by replace (base + (end_ - base)) with end_ by lia.
    - destruct (base <=? a) eqn:E1; [|done]. zbool. by rewrite (proj2 (Z.ltb_ge a end_)) by lia. }
  intros (H1 & H2 & H3 & H4) Hb. set (inr := (rg_base r <=? a) && (a <? rg_base r + rg_size r)) in *.
  pose proof (attr_below _ _ a H4) as Hlow.
  destruct (end_ <=? rg_base r) eqn:E1; zbool.
  { assert (Hin : inr = true \/ rg_base r + rg_size r <= a -> (base <=? a) && (a <? end_) = false).
    { intros [?|?]; [unfold inr in *; zbool|]; rewrite andb_false_iff, Z.ltb_ge; lia. }
    destruct (base <? end_) eqn:E; zbool; simpl; fold inr.
    - replace (base + (end_ - base)) with end_ by lia. destruct inr eqn:Ei; [by rewrite Hin by auto|].
      destruct (attr_at l a) as [x|] eqn:El; [|done]. rewrite Hin; [done|].
      destruct (Z.lt_ge_cases a (rg_base r + rg_size r)) as [H|H]; [|by right]. discriminate (Hlow H).
    - destruct inr; [done|]. destruct (attr_at l a); [done|].
      destruct (base <=? a) eqn:E2; [|done]. zbool. by rewrite (proj2 (Z.ltb_ge a end_)) by lia. }
  destruct (rg_base r + rg_size r <=? base) eqn:E2; zbool.
  { simpl. fold inr. destruct inr; [done|]. apply (IH _ _ H4). lia. }
  assert (Hrec : attr_at (r :: fill (Z.min (rg_base r + rg_size r) end_) l) a =
    if inr then Some (rg_attr r) else match attr_at l a with Some x => Some x | None =>
      if (rg_base r + rg_size r <=? a) && (a <? end_) then Some (nid, flags) else None end).
  { simpl. fold inr. destruct inr; [done|]. rewrite (IH _ _ H4) by lia. destruct (attr_at l a); [done|].
    destruct (Z.lt_ge_cases a end_) as [Ha|Ha].
    - rewrite (proj2 (Z.ltb_lt a end_)) by done.
      destruct (Z.le_gt_cases (rg_base r + rg_size r) a).
      + by rewrite !(proj2 (Z.leb_le _ a)) by lia.
      + by rewrite !(proj2 (Z.leb_gt _ a)) by lia.
    - by rewrite (proj2 (Z.ltb_ge a end_)), !andb_false_r by done. }
  assert (Hcase : inr = false -> rg_base r <= a -> rg_base r + rg_size r <= a).
  { unfold inr. rewrite andb_false_iff, Z.leb_gt, Z.ltb_ge. lia. }
  destruct (base <? rg_base r) eqn:E3; zbool.
  - cbn [app attr_at rg_base rg_size]. replace (base + (rg_base r - base)) with (rg_base r) by lia.
    cbn [attr_at] in Hrec. fold inr in Hrec |- *. rewrite Hrec.
    destruct ((base <=? a) && (a <? rg_base r)) eqn:E4; zbool.
    + assert (inr = false) as -> by (unfold inr; rewrite andb_false_iff, Z.leb_gt; lia).
      rewrite Hlow by lia. by rewrite (proj2 (Z.leb_le base a)), (proj2 (Z.ltb_lt a end_)) by lia.
    + destruct inr; [done|]. destruct (attr_at l a); [done|]. apply andb_false_iff in E4. rewrite Z.leb_gt, Z.ltb_ge in E4.
      destruct E4 as [E4|E4].
      * by rewrite !(proj2 (Z.leb_gt _ a)) by lia.
      * by rewrite !(proj2 (Z.leb_le _ a)) by (specialize (Hcase eq_refl); lia).
  - cbn [app]. rewrite Hrec. destruct inr; [done|]. destruct (attr_at l a); [done|]. specialize (Hcase eq_refl).
    destruct (Z.le_gt_cases (rg_base r) a).
    + by rewrite !(proj2 (Z.leb_le _ a)) by lia.
    + by rewrite !(proj2 (Z.leb_gt _ a)) by lia.
Qed.
End add.

Lemma length_fill end_ nid flags base l : (length l <= length (fill end_ nid flags base l))%nat.
Proof.
  revert base. induction l as [|r l IH]; intros base; simpl; [lia|].
  pose proof (IH base). pose proof (IH (Z.min (rg_base r + rg_size r) end_)).
  repeat case_match; simpl; lia.
Qed.

Lemma size_sum_fill end_ nid flags base l : size_sum l <= size_sum (fill end_ nid flags base l).
Proof.
  revert base. induction l as [|r l IH]; intros base; simpl.
  { case_match; zbool; simpl; lia. }
  pose proof (IH base). pose proof (IH (Z.min (rg_base r + rg_size r) end_)).
  repeat case_match; zbool; simpl; lia.
Qed.

Section add_rounds.
Context (end_ nid flags : Z) (Hend : 0 <= end_ <= ULLONG_MAX).

(** What is left to insert after the loop *)
Definition rest_of (base : Z) : list region := if base <? end_ then [Region base (end_ - base) flags nid] else [].

Lemma sub_u64 a b : 0 <= a -> a <= b -> b <= ULLONG_MAX -> b -u a = b - a.
Proof. intros. apply wrap_small. unfold ULLONG_MAX, is_u64 in *. lia. Qed.

Lemma count_loop_ok l lo t P base k :
  0 <= lo -> chain lo l -> 0 <= base -> regions t = P ++ l ->
  exists idx base' k', add_loop (length l) false end_ nid flags t (length P) base k = Some (t, idx, base', k') /\
    (k' + length (rest_of base') + length l = k + length (fill end_ nid flags base l))%nat.
Proof.
  revert lo P base k. induction l as [|r l IH]; intros lo P base k Hlo Hc Hb Ht.
  { exists (length P), base, k. split; [done|]. simpl. unfold rest_of. lia. }
  pose proof (chain_end r lo l Hlo Hc) as He. destruct Hc as (H1 & H2 & H3 & H4).
  cbn [add_loop length]. rewrite Ht, list_lookup_middle by done. cbn [mbind option_bind]. rewrite He. cbn [fill].
  assert (Ht' : regions t = (P ++ [r]) ++ l) by (by rewrite <- app_assoc).
  replace (S (length P)) with (length (P ++ [r])) by (rewrite length_app; simpl; lia).
  destruct (end_ <=? rg_base r) eqn:E1.
  { exists (length P), base, k. split; [done|]. rewrite length_app. unfold rest_of. simpl. lia. }
  destruct (rg_base r + rg_size r <=? base) eqn:E2.
  { destruct (IH (rg_base r + rg_size r) (P ++ [r]) base k ltac:(lia) H4 Hb Ht') as (idx & base' & k' & -> & E). exists idx, base', k'.
    split; [done|]. simpl. lia. }
  assert (0 <= Z.min (rg_base r + rg_size r) end_) by lia.
  destruct (base <? rg_base r) eqn:E3.
  - destruct (IH (rg_base r + rg_size r) (P ++ [r]) (Z.min (rg_base r + rg_size r) end_) (S k) ltac:(lia) H4 ltac:(lia) Ht') as (idx & base' & k' & -> & E).
    exists idx, base', k'. split; [done|]. simpl. lia.
  - destruct (IH (rg_base r + rg_size r) (P ++ [r]) (Z.min (rg_base r + rg_size r) end_) k ltac:(lia) H4 ltac:(lia) Ht') as (idx & base' & k' & -> & E).
    exists idx, base', k'. split; [done|]. simpl. lia.
Qed.

Lemma insert_region_ok P l total base size :
  (length P + length l < INIT_MEMBLOCK_REGIONS)%nat ->
  memblock_insert_region (Mtype (P ++ l) total) (length P) base size nid flags =
    Some (Mtype (P ++ Region base size flags nid :: l) (total +u size)).
Proof.
  intros Hlen. unfold memblock_insert_region, cnt. cbn [regions total_size]. rewrite length_app.
  rewrite (proj2 (Nat.leb_gt _ _)) by lia. by rewrite take_app_length, drop_app_length.
Qed.

Lemma insert_loop_ok l lo total P base k :
  0 <= lo -> chain lo l -> 0 <= base ->
  (length P + length (fill end_ nid flags base l) <= INIT_MEMBLOCK_REGIONS)%nat -> is_u64 total ->
  exists P' l' total' base' k',
    add_loop (length l) true end_ nid flags (Mtype (P ++ l) total) (length P) base k =
      Some (Mtype (P' ++ l') total', length P', base', k') /\
    P ++ fill end_ nid flags base l = P' ++ rest_of base' ++ l' /\ 0 <= base' /\ is_u64 total' /\
    total' +u size_sum (rest_of base') = wrap (total + size_sum (fill end_ nid flags base l) - size_sum l).
Proof.
  revert lo total P base k. induction l as [|r l IH]; intros lo total P base k Hlo Hc Hb Hlen Htot.
  { exists P, [], total, base, k. split; [done|]. simpl in *. unfold rest_of.
    rewrite app_nil_r. split; [done|]. split; [done|]. split; [done|]. f_equal. lia. }
  pose proof (chain_end r lo l Hlo Hc) as He. destruct Hc as (H1 & H2 & H3 & H4).
  cbn [add_loop length regions]. rewrite list_lookup_middle by done. cbn [mbind option_bind]. rewrite He.
  cbn [fill] in *. destruct (end_ <=? rg_base r) eqn:E1.
  { exists P, (r :: l), total, base, k. split; [done|].
    rewrite size_sum_app. unfold rest_of. simpl. split; [done|]. split; [done|]. split; [done|]. f_equal. lia. }
  assert (Hmin : 0 <= Z.min (rg_base r + rg_size r) end_) by lia.
  assert (Happ : P ++ r :: l = (P ++ [r]) ++ l) by (by rewrite <- app_assoc).
  destruct (rg_base r + rg_size r <=? base) eqn:E2.
  { replace (S (length P)) with (length (P ++ [r])) by (rewrite length_app; simpl; lia). simpl in *. rewrite Happ.
    destruct (IH (rg_base r + rg_size r) total (P ++ [r]) base k) as (P' & l' & total' & base' & k' & -> & E & ? & ? & Ht);
      [lia|done|done|rewrite length_app; simpl; lia|auto with lego|].
    exists P', l', total', base', k'. split; [done|]. rewrite <- E, <- app_assoc. split; [done|]. split; [done|]. split; [done|]. rewrite Ht. f_equal. lia. }
  destruct (base <? rg_base r) eqn:E3; simpl in *.
  - zbool. rewrite sub_u64 by lia. pose proof (length_fill end_ nid flags (Z.min (rg_base r + rg_size r) end_) l).
    rewrite insert_region_ok by (simpl; lia). cbn [mbind option_bind].
    set (new := Region base (rg_base r - base) flags nid) in *.
    replace (S (S (length P))) with (length (P ++ [new; r])) by (rewrite length_app; simpl; lia).
    replace (P ++ new :: r :: l) with ((P ++ [new; r]) ++ l) by (by rewrite <- app_assoc).
    destruct (IH (rg_base r + rg_size r) (total +u (rg_base r - base)) (P ++ [new; r]) (Z.min (rg_base r + rg_size r) end_) (S k))
      as (P' & l' & total' & base' & k' & -> & E & ? & ? & Ht);
      [lia|done|done|rewrite length_app; simpl; lia|auto with lego|].
    exists P', l', total', base', k'. split; [done|]. rewrite <- E, <- app_assoc. split; [done|]. split; [done|]. split; [done|]. rewrite Ht. rewrite <- Z.add_sub_assoc, !wrap_add_l. f_equal. lia.
  - replace (S (length P)) with (length (P ++ [r])) by (rewrite length_app; simpl; lia). rewrite Happ.
    destruct (IH (rg_base r + rg_size r) total (P ++ [r]) (Z.min (rg_base r + rg_size r) end_) k)
      as (P' & l' & total' & base' & k' & -> & E & ? & ? & Ht);
      [lia|done|done|rewrite length_app; simpl; lia|auto with lego|].
    exists P', l', total', base', k'. split; [done|]. rewrite <- E, <- app_assoc. split; [done|]. split; [done|]. split; [done|]. rewrite Ht. f_equal. lia.
Qed.

(** The two rounds of [memblock_add_range] *)
Lemma add_round_count l total base :
  chain 0 l -> 0 <= base ->
  exists k, add_round false (Mtype l total) base end_ nid flags = Some (Mtype l total, k) /\
    (k + length l = length (fill end_ nid flags base l))%nat.
Proof.
  intros Hc Hb. unfold add_round, cnt. cbn [regions].
  destruct (count_loop_ok l 0 (Mtype l total) [] base 0) as (idx & base' & k & E & Hk); [done..|].
  cbn [length] in E. rewrite E. cbn [mbind option_bind]. unfold rest_of in Hk.
  destruct (base' <? end_); cbn [mbind option_bind]; eexists; (split; [done|]); simpl in Hk; lia.
Qed.

Lemma add_round_insert l total base :
  chain 0 l -> 0 <= base -> (length (fill end_ nid flags base l) <= INIT_MEMBLOCK_REGIONS)%nat ->
  is_u64 total ->
  exists k, add_round true (Mtype l total) base end_ nid flags =
    Some (Mtype (fill end_ nid flags base l) (wrap (total + size_sum (fill end_ nid flags base l) - size_sum l)), k).
Proof.
  intros Hc Hb Hlen Htot. unfold add_round, cnt. cbn [regions].
  destruct (insert_loop_ok l 0 total [] base 0) as (P' & l' & total' & base' & k & E & Happ & Hb' & Ht' & Hsum); [done..|].
  cbn [length app] in E. rewrite E. cbn [mbind option_bind]. cbn [app] in Happ. rewrite <- Hsum, Happ.
  rewrite Happ in Hlen. unfold rest_of in *. destruct (base' <? end_) eqn:E1; zbool; cbn [mbind option_bind].
  - rewrite sub_u64 by lia. rewrite !length_app in Hlen. simpl in *. rewrite insert_region_ok by lia. cbn [mbind option_bind].
    eexists. do 4 f_equal. lia.
  - eexists. simpl. by rewrite Z.add_0_r, wrap_small.
Qed.
End add_rounds.

Lemma fill_same end_ nid flags base l :
  length (fill end_ nid flags base l) = length l -> fill end_ nid flags base l = l.
Proof.
  revert base. induction l as [|r l IH]; intros base; simpl.
  { by destruct (base <? end_). }
  pose proof (length_fill end_ nid flags base l). pose proof (length_fill end_ nid flags (Z.min (rg_base r + rg_size r) end_) l).
  destruct (end_ <=? rg_base r); [destruct (base <? end_); simpl; [lia|done]|].
  destruct (rg_base r + rg_size r <=? base); simpl; [intros [= E]; by rewrite IH|].
  destruct (base <? rg_base r); simpl; [lia|]. intros [= E]. by rewrite IH.
Qed.

(** The empty region of an array without memory has no address. *)
Lemma dummy_attr nid a : attr_at [dummy nid] a = None.
Proof. simpl. destruct ((0 <=? a) && (a <? 0 + 0)) eqn:E; zbool; [lia|done]. Qed.

Definition cap_end (base size : Z) : Z := base + memblock_cap_size base size.

Lemma cap_end_range base size : is_u64 base -> is_u64 size -> base <= cap_end base size <= ULLONG_MAX /\
  base +u memblock_cap_size base size = cap_end base size.
Proof.
  unfold cap_end, memblock_cap_size, is_u64, ULLONG_MAX. intros Hb Hs. split; [lia|]. apply wrap_small. unfold is_u64. lia.
Qed.

Definition added (base end_ nid flags : Z) (old : option (Z * Z)) (a : Z) : option (Z * Z) :=
  match old with Some x => Some x | None => if (base <=? a) && (a <? end_) then Some (nid, flags) else None end.

Lemma merge_regions_ok l total :
  l <> [] -> chain 0 l ->
  exists l', memblock_merge_regions (Mtype l total) = Some (Mtype l' total) /\ regions_ok l' /\ l' <> [] /\
    size_sum l' = size_sum l /\ (length l' <= length l)%nat /\ (forall a, attr_at l' a = attr_at l a).
Proof.
  intros Hne Hc. unfold memblock_merge_regions. cbn [regions total_size]. destruct l as [|r l]; [done|].
  destruct (merge_from_ok r l 0) as (l' & -> & C & M & T & L & A & k & Hh); [done..|]. cbn [mbind option_bind].
  exists l'. split; [done|]. split; [by split|]. split; [by intros ->|]. by split.
Qed.

(** [memblock_add_range]: the addresses of the range that were in no region get the node
    and the flags; it stops only when the array does not hold the new regions. *)
Theorem memblock_add_range_ok t base size nid flags :
  type_ok t -> is_u64 base -> is_u64 size ->
  match memblock_add_range t base size nid flags with
  | Some (t', ret) => ret = 0 /\ type_ok t' /\ (exact t -> exact t') /\
      forall a, attr_at (regions t') a = added base (cap_end base size) nid flags (attr_at (regions t) a) a
  | None => (INIT_MEMBLOCK_REGIONS < length (fill (cap_end base size) nid flags base (regions t)))%nat
  end.
Proof.
  intros [Hcnt Htot Hok] Hb Hs. destruct (cap_end_range base size Hb Hs) as [Hcap Hwrap]. unfold memblock_add_range. rewrite Hwrap.
  set (end_ := cap_end base size) in *. assert (Hsz : memblock_cap_size base size = end_ - base) by (unfold end_, cap_end; lia).
  rewrite Hsz. destruct (end_ - base =? 0) eqn:E0.
  { zbool. split; [done|]. split; [done|]. split; [done|]. intros a. unfold added. destruct (attr_at (regions t) a); [done|].
    destruct (base <=? a) eqn:E1; [|done]. zbool. by rewrite (proj2 (Z.ltb_ge a end_)) by lia. }
  zbool. destruct Hb as [Hb0 Hb1]. assert (Hend : 0 <= end_ <= ULLONG_MAX) by lia. destruct Hok as [(nid0 & E)|(Hne & [Hc Hm])].
  { rewrite E. cbn [rg_size dummy Z.eqb]. split; [done|]. split; [|split].
    - split; [unfold cnt; simpl; unfold INIT_MEMBLOCK_REGIONS; lia|unfold is_u64, ULLONG_MAX in *; simpl; lia|].
      right. split; [done|]. split; [simpl; lia|done].
    - unfold exact. simpl. lia.
    - intros a. simpl. destruct ((0 <=? a) && (a <? 0 + 0)) eqn:E1; zbool; [lia|]. unfold rg_attr. simpl.
      by replace (base + (end_ - base)) with end_ by lia. }
  destruct t as [l total]. cbn [regions total_size] in *. destruct l as [|r l]; [done|].
  assert (Hr : 0 < rg_size r) by apply Hc. rewrite (proj2 (Z.eqb_neq (rg_size r) 0)) by lia.
  destruct (add_round_count end_ nid flags (r :: l) total base Hc Hb0) as (k & -> & Hk). cbn [mbind option_bind].
  set (L := r :: l) in *.
  pose proof (fun a => fill_attr end_ nid flags 0 base L a Hc ltac:(lia)) as Hattr.
  assert (Hch : chain 0 (fill end_ nid flags base L)) by (apply fill_chain; try done; lia).
  destruct (k =? 0)%nat eqn:Ek.
  { apply Nat.eqb_eq in Ek. subst k. assert (Hsame : fill end_ nid flags base L = L) by (apply fill_same; lia). rewrite Hsame in Hattr.
    split; [done|]. split; [split; [done..|by right]|]. split; [done|]. exact Hattr. }
  destruct (INIT_MEMBLOCK_REGIONS <? _)%nat eqn:Ei; unfold cnt in Ei; cbn [regions] in Ei.
  { apply Nat.ltb_lt in Ei. lia. }
  apply Nat.ltb_ge in Ei. pose proof (chain_sum 0 _ ltac:(unfold ULLONG_MAX, ULONG_MOD; lia) Hch) as [Hs1 Hs2].
  destruct (add_round_insert end_ nid flags Hend L total base) as (k' & ->); [done|done|lia|done|].
  cbn [mbind option_bind].
  destruct (merge_regions_ok (fill end_ nid flags base L) (wrap (total + size_sum (fill end_ nid flags base L) - size_sum L)))
    as (l' & -> & Hok' & Hne' & Hsum' & Hlen' & Hat').
  { intros Hn. apply (f_equal length) in Hn. simpl in Hn. unfold L in *. simpl in *. lia. }
  { done. }
  cbn [mbind option_bind]. split; [done|]. split; [|split].
  - split; [unfold cnt; cbn [regions]; lia|apply wrap_range|by right].
  - unfold exact. cbn [regions total_size]. intros ->. rewrite Hsum'.
    replace (size_sum L + size_sum (fill end_ nid flags base L) - size_sum L) with (size_sum (fill end_ nid flags base L)) by lia.
    apply wrap_small. unfold is_u64, ULLONG_MAX in *. lia.
  - intros a. cbn [regions]. by rewrite Hat', Hattr.
Qed.
