(* ===== verification/MemblockRemove.v ===== *)
(** * Boot-time memory, memblock: removing and setting nodes

    [memblock_isolate_range] cuts the regions at the two ends of a range;
    [memblock_remove_range] and [memblock_set_node] then work on whole regions. *)

From S2P Require Import Prelude MemblockModel MemblockRegions.

(** ** Cutting a region *)

Lemma chain_split lo r l x :
  rg_base r < x < rg_base r + rg_size r ->
  chain lo (r :: l) ->
  chain lo (Region (rg_base r) (x - rg_base r) (rg_flags r) (rg_nid r) ::
    Region x (rg_size r - (x - rg_base r)) (rg_flags r) (rg_nid r) :: l).
Proof.
  intros Hx (H1 & H2 & H3 & H4). simpl. repeat split; try lia.
  by replace (x + (rg_size r - (x - rg_base r))) with (rg_base r + rg_size r) by lia.
Qed.

Lemma attr_split r l x a :
  rg_base r < x < rg_base r + rg_size r ->
  attr_at (Region (rg_base r) (x - rg_base r) (rg_flags r) (rg_nid r) ::
    Region x (rg_size r - (x - rg_base r)) (rg_flags r) (rg_nid r) :: l) a = attr_at (r :: l) a.
Proof.
  intros Hx. simpl. replace (rg_base r + (x - rg_base r)) with x by lia.
  replace (x + (rg_size r - (x - rg_base r))) with (rg_base r + rg_size r) by lia. unfold rg_attr. simpl.
  destruct (rg_base r <=? a) eqn:E1, (a <? x) eqn:E2, (x <=? a) eqn:E3, (a <? rg_base r + rg_size r) eqn:E4;
    zbool; simpl; try done; lia.
Qed.

Lemma minimal_split (X : Z -> Prop) P r l x :
  X x -> rg_base r < x < rg_base r + rg_size r -> minimal X (P ++ r :: l) ->
  minimal X (P ++ Region (rg_base r) (x - rg_base r) (rg_flags r) (rg_nid r) ::
    Region x (rg_size r - (x - rg_base r)) (rg_flags r) (rg_nid r) :: l).
Proof.
  intros HX Hx. induction P as [|p P IH].
  - simpl. intros Hm. split; [done|]. destruct l as [|s l]; [done|]. destruct Hm as [Hm1 Hm2]. split; [|done].
    replace (x + (rg_size r - (x - rg_base r))) with (rg_base r + rg_size r) by lia. exact Hm1.
  - destruct P as [|p' P]; simpl in *.
    + intros [Hm1 Hm2]. split; [exact Hm1|]. by apply IH.
    + intros [Hm1 Hm2]. split; [exact Hm1|]. by apply IH.
Qed.

(** ** The loop of [memblock_isolate_range] *)

Section isolate.
Context (base end_ : Z) (Hbase : 0 <= base) (Hend : base < end_) (Hmax : end_ <= ULLONG_MAX).
Context (total : Z) (Htotal : is_u64 total).

Definition before (r : region) : Prop := rg_base r + rg_size r <= base.
Definition inside (r : region) : Prop := base <= rg_base r /\ rg_base r + rg_size r <= end_.
Definition beyond (r : region) : Prop := end_ <= rg_base r.
Definition cut (x : Z) : Prop := x = base \/ x = end_.

(** The indices of the regions inside the range *)
Definition marked (A B : list region) (s e : nat) : Prop :=
  match B with [] => s = O /\ e = O | _ => s = length A /\ e = (length A + length B)%nat end.

(** The result: the regions before, inside and beyond the range *)
Record isolated (l : list region) (t' : memblock_type) (s e : nat) (A B C : list region) : Prop := Isolated {
  is_regions : regions t' = A ++ B ++ C;
  is_total : total_size t' = total;
  is_chain : chain 0 (A ++ B ++ C);
  is_minimal : minimal cut (A ++ B ++ C);
  is_sum : size_sum (A ++ B ++ C) = size_sum l;
  is_attr a : attr_at (A ++ B ++ C) a = attr_at l a;
  is_length : (length (A ++ B ++ C) <= INIT_MEMBLOCK_REGIONS)%nat;
  is_before : Forall before A;
  is_inside : Forall inside B;
  is_beyond : Forall beyond C;
  is_marked : marked A B s e
}.

Lemma chain_forall lo l : chain lo l -> Forall (fun r => lo <= rg_base r) l.
Proof.
  revert lo. induction l as [|r l IH]; intros lo; simpl; [done|]. intros (H1 & H2 & _ & H3). constructor; [done|].
  eapply list.Forall_impl; [by apply IH|]. simpl. lia.
Qed.

Lemma marked_snoc A B r s e :
  marked A B s e ->
  marked A (B ++ [r]) (if (e =? 0)%nat then (length A + length B)%nat else s) (S (length A + length B)).
Proof.
  intros Hm. destruct B as [|b B]; simpl in *.
  - destruct Hm as [-> ->]. simpl. lia.
  - destruct Hm as [-> ->]. rewrite (proj2 (Nat.eqb_neq _ 0)) by lia. rewrite length_app. simpl. lia.
Qed.

Lemma insert_middle P (r r' : region) l : <[length P := r']> (P ++ r :: l) = P ++ r' :: l.
Proof. rewrite <- (Nat.add_0_r (length P)) at 1. by rewrite insert_app_r. Qed.

(** Cutting the region at [idx] in two, as the loop does *)
Lemma cut_region P r l x lo :
  0 <= lo -> chain lo (r :: l) -> rg_base r < x < rg_base r + rg_size r ->
  (length P + length l + 1 < INIT_MEMBLOCK_REGIONS)%nat ->
  memblock_insert_region
    (Mtype (<[length P := Region x (rg_size r -u (x -u rg_base r)) (rg_flags r) (rg_nid r)]> (P ++ r :: l))
      (total -u (x -u rg_base r))) (length P) (rg_base r) (x -u rg_base r) (rg_nid r) (rg_flags r) =
  Some (Mtype (P ++ Region (rg_base r) (x - rg_base r) (rg_flags r) (rg_nid r) ::
    Region x (rg_size r - (x - rg_base r)) (rg_flags r) (rg_nid r) :: l) total).
Proof.
  intros Hlo (H1 & H2 & H3 & _) Hx Hlen. rewrite insert_middle. rewrite (sub_u64 (rg_base r) x) by lia.
  rewrite (sub_u64 (x - rg_base r) (rg_size r)) by lia.
  rewrite insert_region_ok by (simpl; lia). do 2 f_equal.
  rewrite wrap_add_l, Z.sub_add. by apply wrap_small.
Qed.

Lemma isolated_same l l' t s e A B C :
  size_sum l = size_sum l' -> (forall a, attr_at l a = attr_at l' a) ->
  isolated l t s e A B C -> isolated l' t s e A B C.
Proof. intros Hs Ha []. split; try done; [congruence|]. intros a. by rewrite <- Ha. Qed.

Lemma isolate_loop_ok n (x : bool) A B l s e :
  chain 0 (A ++ B ++ l) -> minimal cut (A ++ B ++ l) -> Forall before A -> Forall inside B -> marked A B s e ->
  (B <> [] -> x = false) -> (x = false -> Forall (fun r => base <= rg_base r) l) ->
  (length l + 2 + (if x then 1 else 0) <= n)%nat ->
  (length (A ++ B ++ l) + 1 + (if x then 1 else 0) <= INIT_MEMBLOCK_REGIONS)%nat ->
  exists t' s' e' A' B' C, isolate_loop n base end_ (Mtype (A ++ B ++ l) total) (length A + length B) s e =
    Some (t', s', e') /\ isolated (A ++ B ++ l) t' s' e' A' B' C.
Proof.
  revert x A B l s e. induction n as [|n IH]; intros x A B l s e Hc Hm HA HB Hmk HBx Hx Hn Hlen; [lia|].
  assert (Hidx : (A ++ B ++ l) !! (length A + length B)%nat = head l).
  { rewrite app_assoc, <- length_app. rewrite lookup_app_r, Nat.sub_diag by lia. by destruct l. }
  cbn [isolate_loop regions total_size]. rewrite Hidx. destruct l as [|r l]; cbn [head].
  { exists (Mtype (A ++ B ++ []) total), s, e, A, B, []. split; [done|]. split; try done. lia. }
  pose proof Hc as Hc'. rewrite app_assoc in Hc'. apply chain_app in Hc' as [HcP Hcr].
  pose proof (stop_le _ _ HcP) as Hst. pose proof (chain_end r _ l Hst Hcr) as He. rewrite He.
  pose proof Hcr as (H1 & H2 & H3 & H4). pose proof (chain_forall _ _ H4) as Hl.
  rewrite !length_app in Hlen. simpl in Hlen, Hn.
  destruct (end_ <=? rg_base r) eqn:E1; zbool.
  { exists (Mtype (A ++ B ++ r :: l) total), s, e, A, B, (r :: l). split; [done|]. split; try done.
    - rewrite !length_app. simpl. lia.
    - constructor; [done|]. eapply list.Forall_impl; [exact Hl|]. unfold beyond. simpl. lia. }
  destruct (rg_base r + rg_size r <=? base) eqn:E2; zbool.
  { assert (x = true) as ->.
    { destruct x; [done|]. specialize (Hx eq_refl). apply list.Forall_cons in Hx as [? _]. lia. }
    assert (B = []) as -> by (destruct B; [done|]; by discriminate HBx). simpl in *. destruct Hmk as [-> ->].
    replace (S (length A + 0)) with (length (A ++ [r]) + 0)%nat by (rewrite length_app; simpl; lia).
    replace (A ++ r :: l) with ((A ++ [r]) ++ [] ++ l) in * by (by rewrite <- app_assoc).
    apply (IH true); try done; [|simpl; lia|rewrite !length_app; simpl; lia].
    apply list.Forall_app. split; [done|]. by constructor. }
  destruct (rg_base r <? base) eqn:E3; zbool.
  { assert (x = true) as ->.
    { destruct x; [done|]. specialize (Hx eq_refl). apply list.Forall_cons in Hx as [? _]. lia. }
    assert (B = []) as -> by (destruct B; [done|]; by discriminate HBx). rewrite app_nil_r in Hst. simpl in *. destruct Hmk as [-> ->].
    rewrite app_nil_r in Hcr. rewrite Nat.add_0_r, (cut_region A r l base (stop 0 A)) by (done || lia). cbn [mbind option_bind].
    set (low := Region (rg_base r) _ _ _). set (high := Region base _ _ _).
    assert (Hsum : size_sum (A ++ low :: high :: l) = size_sum (A ++ r :: l)) by (rewrite !size_sum_app; simpl; lia).
    destruct (IH false (A ++ [low]) [] (high :: l) O O) as (t' & s' & e' & A' & B' & C & E & Hi).
    - rewrite <- app_assoc. apply chain_app. split; [by rewrite app_nil_r in HcP|]. apply chain_split; [lia|done].
    - rewrite <- app_assoc. apply minimal_split; [by left|lia|done].
    - apply list.Forall_app. split; [done|]. constructor; [|done]. unfold before. simpl. lia.
    - done.
    - done.
    - done.
    - intros _. constructor; [done|]. eapply list.Forall_impl; [exact Hl|]. simpl. lia.
    - simpl. lia.
    - rewrite !length_app. simpl. lia.
    - rewrite <- app_assoc in E, Hi. simpl in E, Hi. rewrite length_app in E. simpl in E.
      replace (length A + 1 + 0)%nat with (S (length A)) in E by lia.
      exists t', s', e', A', B', C. split; [done|]. eapply isolated_same; [exact Hsum| |exact Hi].
      intros a. rewrite !attr_at_app. unfold low, high. by rewrite attr_split by lia. }
  destruct (end_ <? rg_base r + rg_size r) eqn:E4; zbool.
  - rewrite app_assoc, <- length_app. rewrite (cut_region (A ++ B) r l end_ (stop 0 (A ++ B))) by (rewrite ?length_app; done || lia).
    cbn [mbind option_bind]. set (low := Region (rg_base r) _ _ _). set (high := Region end_ _ _ _).
    destruct n as [|[|n]]; [lia..|]. cbn [isolate_loop regions].
    assert (Hlow : rg_end low = end_).
    { unfold low, rg_end. simpl. replace (rg_base r + (end_ - rg_base r)) with end_ by lia. apply wrap_small.
      unfold ULLONG_MAX, is_u64 in *. lia. }
    rewrite list_lookup_middle by done. rewrite Hlow. cbn [rg_base low].
    rewrite (proj2 (Z.leb_gt end_ (rg_base r))), (proj2 (Z.leb_gt end_ base)), (proj2 (Z.ltb_ge (rg_base r) base)), Z.ltb_irrefl by lia.
    replace ((A ++ B) ++ low :: high :: l) with (A ++ (B ++ [low]) ++ high :: l) by (by rewrite <- !app_assoc).
    assert (Hhi : (A ++ (B ++ [low]) ++ high :: l) !! S (length (A ++ B)) = Some high).
    { rewrite !app_assoc. apply list_lookup_middle. rewrite !length_app. simpl. lia. }
    rewrite Hhi. cbn [rg_base high]. rewrite Z.leb_refl.
    eexists _, _, _, A, (B ++ [low]), (high :: l). split; [done|].
    assert (Hsum : size_sum (A ++ (B ++ [low]) ++ high :: l) = size_sum ((A ++ B) ++ r :: l)) by (rewrite !size_sum_app; simpl; lia).
    split; try done.
    + rewrite <- !app_assoc. rewrite app_assoc. apply chain_app. split; [done|]. apply chain_split; [lia|done].
    + rewrite <- !app_assoc. simpl. rewrite app_assoc. apply minimal_split; [by right|lia|by rewrite <- app_assoc].
    + intros a. replace (A ++ (B ++ [low]) ++ high :: l) with ((A ++ B) ++ low :: high :: l) by (by rewrite <- !app_assoc).
      rewrite !(attr_at_app (A ++ B)). unfold low, high. by rewrite attr_split by lia.
    + rewrite !length_app. simpl. lia.
    + apply list.Forall_app. split; [done|]. constructor; [|done]. unfold inside. simpl. lia.
    + constructor; [unfold beyond; simpl; lia|]. eapply list.Forall_impl; [exact Hl|]. unfold beyond. simpl. lia.
    + rewrite length_app. by apply marked_snoc.
  - replace (A ++ B ++ r :: l) with (A ++ (B ++ [r]) ++ l) in * by (by rewrite <- app_assoc).
    replace (S (length A + length B)) with (length A + length (B ++ [r]))%nat by (rewrite length_app; simpl; lia).
    apply (IH false); try done.
    + apply list.Forall_app. split; [done|]. constructor; [|done]. unfold inside. lia.
    + replace (length A + length (B ++ [r]))%nat with (S (length A + length B)) by (rewrite length_app; simpl; lia).
      by apply marked_snoc.
    + intros _. eapply list.Forall_impl; [exact Hl|]. simpl. lia.
    + destruct x; lia.
    + rewrite !length_app. simpl. destruct x; lia.
Qed.
End isolate.

(** ** The parts of an isolated list *)

Section parts.
Context (base end_ : Z).

Lemma attr_before A a : Forall (before base) A -> base <= a -> attr_at A a = None.
Proof.
  intros HA Ha. induction HA as [|r A Hr HA IH]; simpl; [done|]. unfold before in Hr.
  by rewrite (proj2 (Z.ltb_ge a _)), andb_false_r by lia.
Qed.

Lemma attr_beyond C a : Forall (beyond end_) C -> a < end_ -> attr_at C a = None.
Proof.
  intros HC Ha. induction HC as [|r C Hr HC IH]; simpl; [done|]. unfold beyond in Hr.
  by rewrite (proj2 (Z.leb_gt _ a)) by lia.
Qed.

Lemma attr_inside B a : Forall (inside base end_) B -> ~ (base <= a < end_) -> attr_at B a = None.
Proof.
  intros HB Ha. induction HB as [|r B Hr HB IH]; simpl; [done|]. unfold inside in Hr.
  destruct ((rg_base r <=? a) && (a <? rg_base r + rg_size r)) eqn:E; zbool; [lia|done].
Qed.

Lemma minimal_app_l (X : Z -> Prop) A l : minimal X (A ++ l) -> minimal X A.
Proof. induction A as [|r [|r' A] IH]; [done..|]. intros [H1 H2]. split; [done|by apply IH]. Qed.

Lemma minimal_app_r (X : Z -> Prop) A l : minimal X (A ++ l) -> minimal X l.
Proof.
  induction A as [|r A IH]; [done|]. intros H. apply IH. destruct A as [|r' A]; simpl in *.
  - destruct l; [done|]. apply H.
  - apply H.
Qed.

Lemma minimal_join (X : Z -> Prop) A C :
  minimal X A -> minimal X C ->
  (forall r s, r ∈ A -> s ∈ C -> rg_base r + rg_size r < rg_base s) -> minimal X (A ++ C).
Proof.
  intros HA HC Hd. induction A as [|r [|r' A] IH]; simpl in *; [done| |].
  - destruct C as [|s C]; [done|]. split; [|done]. specialize (Hd r s ltac:(left) ltac:(left)). lia.
  - destruct HA as [H1 H2]. split; [done|]. apply IH; [done|]. intros x y Hx. apply Hd. by right.
Qed.

Lemma minimal_before lo A : Forall (before base) A -> base < end_ -> chain lo A -> minimal (cut base end_) A ->
  minimal (fun _ => False) A.
Proof.
  intros HA Hlt. revert lo. induction A as [|r [|r' A] IH]; intros lo; [done..|]. apply list.Forall_cons in HA as [Hr HA].
  intros (C1 & C2 & C3 & C4) [H1 H2]. split; [|by eapply IH]. intros Ht Ha. apply (H1 Ht) in Ha.
  apply list.Forall_cons in HA as [Hr' _]. destruct C4 as (_ & ? & _). unfold before, cut in *. lia.
Qed.

Lemma minimal_beyond lo C : Forall (beyond end_) C -> base < end_ -> chain lo C -> minimal (cut base end_) C ->
  minimal (fun _ => False) C.
Proof.
  intros HC Hlt. revert lo. induction C as [|r [|r' C] IH]; intros lo; [done..|]. apply list.Forall_cons in HC as [Hr HC].
  intros (C1 & C2 & C3 & C4) [H1 H2]. split; [|by eapply IH]. intros Ht Ha. apply (H1 Ht) in Ha.
  unfold beyond, cut in *. lia.
Qed.
End parts.

(** ** Removing *)

Lemma size_sum_nonneg l : Forall (fun r => 0 <= rg_size r) l -> 0 <= size_sum l.
Proof. induction 1; simpl; lia. Qed.

Lemma remove_regions_ok A B C total :
  is_u64 total ->
  remove_regions (length B) (length A) (Mtype (A ++ B ++ C) total) =
    Some (Mtype (match A ++ C with [] => match B with [] => [] | _ => [dummy MAX_NUMNODES] end | l => l end) (total -u size_sum B)).
Proof.
  revert total. induction B as [|b B IH] using rev_ind; intros total Ht.
  { simpl. rewrite Z.sub_0_r, wrap_small by done. by destruct (A ++ C). }
  rewrite length_app, Nat.add_1_r. cbn [remove_regions]. unfold memblock_remove_region. cbn [regions total_size].
  assert (E : (A ++ (B ++ [b]) ++ C) !! (length A + length B)%nat = Some b).
  { rewrite <- app_assoc, app_assoc, <- length_app. simpl. by apply list_lookup_middle. }
  rewrite E. cbn [mbind option_bind].
  assert (Ed : delete (length A + length B)%nat (A ++ (B ++ [b]) ++ C) = A ++ B ++ C).
  { rewrite <- app_assoc, app_assoc, <- length_app. simpl. rewrite delete_middle. by rewrite <- app_assoc. }
  rewrite Ed.
  destruct (decide (A ++ B ++ C = [])) as [En|En].
  - rewrite En. apply app_eq_nil in En as [-> En]. apply app_eq_nil in En as [-> ->]. simpl. do 3 f_equal. lia.
  - assert (Em : (match A ++ B ++ C with [] => [dummy MAX_NUMNODES] | _ => A ++ B ++ C end) = A ++ B ++ C) by (by destruct (A ++ B ++ C)).
    rewrite Em, IH by apply wrap_range. rewrite size_sum_app, wrap_sub_l. simpl. f_equal. f_equal; [|f_equal; lia].
    destruct (A ++ C) eqn:EAC; [|done]. apply app_eq_nil in EAC as [-> ->]. rewrite app_nil_r in En. simpl in En.
    destruct B; [done|]. done.
Qed.

Definition removed (base end_ : Z) (old : option (Z * Z)) (a : Z) : option (Z * Z) :=
  if (base <=? a) && (a <? end_) then None else old.

Lemma chain_sizes lo l : chain lo l -> Forall (fun r => 0 <= rg_size r) l.
Proof. revert lo. induction l as [|r l IH]; intros lo; simpl; [done|]. intros (_ & ? & _ & ?). constructor; [lia|eauto]. Qed.

Lemma isolated_removed base end_ total l t s e A B C a :
  isolated base end_ total l t s e A B C -> attr_at (A ++ C) a = removed base end_ (attr_at l a) a.
Proof.
  intros [_ _ _ _ _ Hat _ HA HB HC _]. rewrite <- Hat, !attr_at_app. unfold removed.
  destruct ((base <=? a) && (a <? end_)) eqn:E; zbool.
  - by rewrite (attr_before base A), (attr_beyond end_ C) by done.
  - rewrite (attr_inside base end_ B); [done..|]. apply andb_false_iff in E. rewrite Z.leb_gt, Z.ltb_ge in E. lia.
Qed.

Lemma isolated_ok base end_ total l t s e A B C :
  base < end_ -> isolated base end_ total l t s e A B C -> regions_ok (A ++ C).
Proof.
  intros Hlt [_ _ Hc Hm _ _ _ HA HB HC _]. apply chain_app in Hc as [HcA Hc]. apply chain_app in Hc as [HcB HcC].
  split.
  - apply chain_app. split; [done|]. eapply chain_le; [|exact HcC]. by apply stop_le.
  - apply minimal_join.
    + eapply minimal_before; [exact HA|exact Hlt|exact HcA|]. by eapply minimal_app_l.
    + eapply minimal_beyond; [exact HC|exact Hlt|exact HcC|]. by do 2 eapply minimal_app_r.
    + intros r s' Hr Hs'. rewrite list.Forall_forall in HA, HC. specialize (HA _ Hr). specialize (HC _ Hs').
      unfold before, beyond in *. lia.
Qed.

Lemma chain_positive lo l : l <> [] -> chain lo l -> 0 < size_sum l.
Proof.
  intros Hne Hc. pose proof (chain_sizes _ _ Hc) as Hs. destruct l as [|r l]; [done|]. apply list.Forall_cons in Hs as [_ Hs].
  apply size_sum_nonneg in Hs. simpl in *. lia.
Qed.

(** [memblock_isolate_range] of a type: nothing to do, or the three parts *)
Lemma memblock_isolate_range_ok t base size :
  type_ok t -> is_u64 base -> is_u64 size ->
  match memblock_isolate_range t base size with
  | None => (INIT_MEMBLOCK_REGIONS < cnt t + 2)%nat
  | Some (t', s, e) =>
      (t' = t /\ s = O /\ e = O /\ forall a, base <= a < cap_end base size -> attr_at (regions t) a = None) \/
      (base < cap_end base size /\ 0 < size_sum (regions t) /\ exists A B C, isolated base (cap_end base size) (total_size t) (regions t) t' s e A B C)
  end.
Proof.
  intros Ht Hb Hs. destruct (cap_end_range base size Hb Hs) as [Hr Hw]. unfold memblock_isolate_range.
  rewrite Hw. destruct (memblock_cap_size base size =? 0) eqn:Ez; zbool.
  { left. unfold cap_end in *. split; [done|]. split; [done|]. split; [done|]. intros a Ha. lia. }
  destruct (INIT_MEMBLOCK_REGIONS <? cnt t + 2)%nat eqn:El; [by apply Nat.ltb_lt in El|]. apply Nat.ltb_ge in El.
  destruct Ht as [_ Htot [(nid & Hd)|[Hne [Hc Hm]]]].
  - destruct t as [l tot]. simpl in *. subst l. simpl. change (rg_end (dummy nid)) with 0.
    destruct (cap_end base size <=? 0) eqn:E1; zbool; [unfold is_u64, cap_end in *; lia|].
    rewrite (proj2 (Z.leb_le 0 base)) by apply Hb.
    left. split; [done|]. split; [done|]. split; [done|]. intros a _. apply dummy_attr.
  - assert (Hlt : base < cap_end base size) by (unfold cap_end in *; lia).
    destruct (isolate_loop_ok base (cap_end base size) ltac:(unfold is_u64 in *; lia) Hlt ltac:(lia) (total_size t) Htot (cnt t + 3) true [] [] (regions t) 0 0)
      as (t' & s & e & A & B & C & E & Hi); simpl; try done.
    + eapply minimal_weaken; [|exact Hm]. done.
    + unfold cnt. lia.
    + unfold cnt in El. lia.
    + simpl in E. replace (Mtype (regions t) (total_size t)) with t in E by (by destruct t).
      rewrite E. right. split; [done|]. split; [by eapply chain_positive|]. by exists A, B, C.
Qed.

Lemma marked_parts A B s e : marked A B s e -> (e - s)%nat = length B /\ (B = [] \/ s = length A).
Proof. unfold marked. destruct B; intros [-> ->]; simpl; [auto|]. split; [lia|auto]. Qed.

(** [memblock_remove_range]: the addresses of the range are in no region any more, the
    others are where they were.  It stops only when the array may not hold two more. *)
Theorem memblock_remove_range_ok t base size :
  type_ok t -> is_u64 base -> is_u64 size ->
  match memblock_remove_range t base size with
  | None => (INIT_MEMBLOCK_REGIONS < cnt t + 2)%nat
  | Some (t', ret) => ret = 0 /\ type_ok t' /\ (exact t -> exact t') /\
      forall a, attr_at (regions t') a = removed base (cap_end base size) (attr_at (regions t) a) a
  end.
Proof.
  intros Ht Hb Hs. unfold memblock_remove_range. pose proof (memblock_isolate_range_ok t base size Ht Hb Hs) as H.
  destruct (memblock_isolate_range t base size) as [[[t' s] e]|]; [|exact H]. cbn [mbind option_bind].
  destruct H as [(-> & -> & -> & H)|(Hlt & Hpos & A & B & C & Hi)].
  { cbn [remove_regions Nat.sub mbind option_bind]. split; [done|]. split; [done|]. split; [done|]. intros a. unfold removed.
    destruct (_ && _) eqn:E; zbool; [|done]. by apply H. }
  pose proof (isolated_ok _ _ _ _ _ _ _ _ _ _ Hlt Hi) as Hok. pose proof (fun a => isolated_removed _ _ _ _ _ _ _ _ _ _ a Hi) as Hat.
  destruct Hi as [Hreg Htot Hc Hm Hsum _ Hlen HA HB HC Hmk]. destruct (marked_parts _ _ _ _ Hmk) as [-> Hs'].
  assert (Er : remove_regions (length B) s t' = remove_regions (length B) (length A) (Mtype (A ++ B ++ C) (total_size t))).
  { destruct t' as [l' tot']. simpl in *. subst l' tot'. by destruct Hs' as [->| ->]. }
  rewrite Er, remove_regions_ok by apply Ht. cbn [mbind option_bind]. split; [done|].
  destruct (chain_sum 0 _ ltac:(unfold ULLONG_MAX, ULONG_MOD; lia) (ro_chain _ Hok)) as [Hp Hle].
  rewrite !length_app in Hlen. rewrite !size_sum_app in Hsum.
  assert (Hex : exact t -> total_size t -u size_sum B = size_sum (A ++ C)).
  { unfold exact. intros ->. rewrite <- Hsum. replace (_ - size_sum B) with (size_sum (A ++ C)) by (rewrite size_sum_app; lia).
    apply wrap_small. unfold is_u64, ULLONG_MAX in *. lia. }
  unfold exact in *. cbn [regions total_size]. destruct (A ++ C) as [|r l] eqn:EAC.
  - apply app_eq_nil in EAC as [-> ->]. destruct B as [|b B]; [simpl in *; lia|]. split; [|split].
    + split; [unfold cnt, INIT_MEMBLOCK_REGIONS; simpl; lia|apply wrap_range|]. left. by exists MAX_NUMNODES.
    + exact Hex.
    + intros a. rewrite <- Hat. apply dummy_attr.
  - split; [|split; [exact Hex|exact Hat]]. split; [|apply wrap_range|by right].
    unfold cnt. cbn [regions]. rewrite <- EAC, length_app. lia.
Qed.

(** ** Setting the node *)

Definition renode (nid : Z) (r : region) : region := Region (rg_base r) (rg_size r) (rg_flags r) nid.

Lemma set_nids_ok nid A B C :
  set_nids (length B) (length A) nid (A ++ B ++ C) = A ++ map (renode nid) B ++ C.
Proof.
  revert A. induction B as [|b B IH]; intros A; [done|]. cbn [length set_nids map app].
  rewrite <- (Nat.add_0_r (length A)) at 2. rewrite alter_app_r. specialize (IH (A ++ [renode nid b])).
  rewrite length_app, Nat.add_1_r, <- !app_assoc in IH. exact IH.
Qed.

Lemma chain_renode nid lo B C : chain lo (B ++ C) -> chain lo (map (renode nid) B ++ C).
Proof. revert lo. induction B as [|b B IH]; intros lo; [done|]. simpl. intros (? & ? & ? & ?). auto. Qed.

Lemma size_sum_renode nid B : size_sum (map (renode nid) B) = size_sum B.
Proof. induction B as [|b B IH]; simpl; lia. Qed.

Lemma attr_renode nid B a : attr_at (map (renode nid) B) a = (fun x => (nid, x.2)) <$> attr_at B a.
Proof. induction B as [|b B IH]; simpl; [done|]. by destruct (_ && _). Qed.

Definition noded (base end_ nid : Z) (old : option (Z * Z)) (a : Z) : option (Z * Z) :=
  if (base <=? a) && (a <? end_) then (fun x => (nid, x.2)) <$> old else old.

Lemma isolated_noded base end_ total l t s e A B C nid a :
  isolated base end_ total l t s e A B C -> attr_at (A ++ map (renode nid) B ++ C) a = noded base end_ nid (attr_at l a) a.
Proof.
  intros [_ _ _ _ _ Hat _ HA HB HC _]. rewrite <- Hat, !attr_at_app, attr_renode. unfold noded.
  destruct ((base <=? a) && (a <? end_)) eqn:E; zbool.
  - rewrite (attr_before base A), (attr_beyond end_ C) by done. by destruct (attr_at B a).
  - rewrite (attr_inside base end_ B); [done..|]. apply andb_false_iff in E. rewrite Z.leb_gt, Z.ltb_ge in E. lia.
Qed.

Lemma merge_type_ok t :
  type_ok t -> exists t', memblock_merge_regions t = Some t' /\ type_ok t' /\ (exact t -> exact t') /\
    forall a, attr_at (regions t') a = attr_at (regions t) a.
Proof.
  intros [Hcnt Htot [(nid & Hd)|[Hne [Hc Hm]]]]; destruct t as [l total]; cbn [regions total_size] in *.
  - subst. exists (Mtype [dummy nid] total). split; [done|]. split; [|done]. split; [done..|]. left. by exists nid.
  - destruct (merge_regions_ok l total Hne Hc) as (l' & E & Hok & Hne' & Hs & Hl & Ha).
    exists (Mtype l' total). split; [done|]. split; [|split; [|done]].
    + split; [unfold cnt in *; cbn [regions] in *; lia|done|by right].
    + unfold exact. simpl. congruence.
Qed.

(** [memblock_set_node]: the memory of the range gets the node, and keeps its flags. *)
Theorem memblock_set_node_ok t base size nid :
  type_ok t -> is_u64 base -> is_u64 size ->
  match memblock_set_node t base size nid with
  | None => (INIT_MEMBLOCK_REGIONS < cnt t + 2)%nat
  | Some (t', ret) => ret = 0 /\ type_ok t' /\ (exact t -> exact t') /\
      forall a, attr_at (regions t') a = noded base (cap_end base size) nid (attr_at (regions t) a) a
  end.
Proof.
  intros Ht Hb Hs. unfold memblock_set_node. pose proof (memblock_isolate_range_ok t base size Ht Hb Hs) as H.
  destruct (memblock_isolate_range t base size) as [[[t' s] e]|]; [|exact H]. cbn [mbind option_bind].
  destruct H as [(-> & -> & -> & H)|(Hlt & Hpos & A & B & C & Hi)].
  { cbn [set_nids Nat.sub]. destruct (merge_type_ok t Ht) as (t' & E & Hok & Hex & Ha). destruct t as [l total]. cbn [regions total_size].
    rewrite E. cbn [mbind option_bind]. split; [done|]. split; [done|]. split; [done|]. intros a. rewrite Ha. unfold noded.
    destruct (_ && _) eqn:Er; zbool; [|done]. cbn [regions] in *. by rewrite H. }
  pose proof (fun a => isolated_noded _ _ _ _ _ _ _ _ _ _ nid a Hi) as Hat.
  destruct Hi as [Hreg Htot Hc Hm Hsum _ Hlen HA HB HC Hmk]. destruct (marked_parts _ _ _ _ Hmk) as [-> Hs'].
  assert (Er : set_nids (length B) s nid (regions t') = A ++ map (renode nid) B ++ C).
  { rewrite Hreg, <- set_nids_ok. by destruct Hs' as [->| ->]. }
  assert (Hsum' : size_sum (A ++ map (renode nid) B ++ C) = size_sum (regions t)).
  { rewrite <- Hsum, !size_sum_app, size_sum_renode. done. }
  rewrite Er. destruct (merge_regions_ok (A ++ map (renode nid) B ++ C) (total_size t')) as (l' & -> & Hok & Hne & Hss & Hl & Ha).
  - intros E. rewrite E in Hsum'. simpl in Hsum'. lia.
  - apply chain_app in Hc as [HcA HcB]. apply chain_app. split; [done|]. by apply chain_renode.
  - cbn [mbind option_bind]. split; [done|]. split; [|split].
    + split; [|rewrite Htot; apply Ht|by right]. unfold cnt. cbn [regions]. rewrite !length_app, length_map in *. lia.
    + unfold exact. cbn [regions total_size]. congruence.
    + intros a. cbn [regions]. by rewrite Ha, Hat.
Qed.
