(* ===== verification/MemblockIter.v ===== *)
(** * Boot-time memory, memblock: iteration over the free ranges

    The iterators advance two indices, over the regions of memory and over the gaps
    between the reserved regions.  They give, in order and in reverse order, what the
    plain double loop over all regions and all gaps gives ([free_ranges]), and the free
    ranges are the memory without the reserved addresses. *)

From S2P Require Import Prelude MemblockModel MemblockRegions MemblockRemove.

(** ** The double loop *)

Definition gap (t : memblock_type) (i : nat) : Z * Z := (gap_start t i, gap_end t i).

Definition meets (m : region) (g : Z * Z) : list (Z * Z) :=
  if (g.1 <? rg_end m) && (rg_base m <? g.2) then [(Z.max (rg_base m) g.1, Z.min (rg_end m) g.2)] else [].

(** A region of the node, or any: for all nodes there is NUMA_NO_NODE and, deprecated,
    MAX_NUMNODES. *)
Definition chosen (nid : Z) (m : region) : bool := (nid =? NUMA_NO_NODE) || (nid =? MAX_NUMNODES) || (nid =? rg_nid m).

Definition of_region (nid : Z) (gs : list (Z * Z)) (m : region) : list (Z * Z) :=
  if chosen nid m then flat_map (meets m) gs else [].

Definition free_ranges (nid : Z) (type_a type_b : memblock_type) : list (Z * Z) :=
  flat_map (of_region nid (map (gap type_b) (seq 0 (S (cnt type_b))))) (regions type_a).

(** The selector that the loops compare with *)
Definition selected (nid : Z) : Z := if nid =? MAX_NUMNODES then NUMA_NO_NODE else nid.

Lemma selected_chosen nid m : negb (selected nid =? NUMA_NO_NODE) && negb (selected nid =? rg_nid m) = negb (chosen nid m).
Proof.
  unfold selected, chosen. destruct (nid =? MAX_NUMNODES) eqn:E; [by rewrite Z.eqb_refl, orb_true_r|].
  by rewrite orb_false_r, negb_orb.
Qed.

(** ** Packed indices *)

Lemma unpack a b :
  Z.land (pack a b) (2 ^ 32 - 1) = a mod 2 ^ 32 /\ Z.shiftr (pack a b) 32 = b mod 2 ^ 32.
Proof.
  change (2 ^ 32 - 1) with (Z.ones 32). unfold pack, wrap, ULONG_MOD. change (2 ^ 32 - 1) with (Z.ones 32).
  rewrite <- !Z.land_ones by lia. split; apply Z.bits_inj'; intros n Hn.
  - rewrite Z.land_spec, Z.lor_spec, !Z.land_spec, !Z.testbit_ones, Z.shiftl_spec by lia.
    destruct (Z.ltb_spec n 32); simpl; [|by rewrite !andb_false_r].
    rewrite (Z.testbit_neg_r b) by lia. rewrite andb_false_l, orb_false_r. by rewrite <- andb_assoc, andb_diag.
  - rewrite Z.shiftr_spec, Z.lor_spec, !Z.land_spec, Z.shiftl_spec, !Z.testbit_ones by lia.
    replace (n + 32 - 32) with n by lia.
    rewrite (proj2 (Z.ltb_ge (n + 32) 32)) by lia.
    rewrite (proj2 (Z.leb_le 0 (n + 32))), (proj2 (Z.leb_le 0 n)) by lia. rewrite !andb_false_r. simpl.
    f_equal. destruct (Z.ltb_spec n 32), (Z.ltb_spec (n + 32) 64); (done || lia).
Qed.

(** ** Sorted arrays *)

Section sorted.
Context (nid : Z) (type_a type_b : memblock_type).

(** What the iterators rely on; an empty type has it too. *)
Record sorted (t : memblock_type) : Prop := Sorted_type {
  so_cnt : (cnt t <= INIT_MEMBLOCK_REGIONS)%nat;
  so_region i r : regions t !! i = Some r -> 0 <= rg_base r <= rg_end r /\ rg_end r <= ULLONG_MAX /\ rg_base r < ULLONG_MAX;
  so_next i j r r' : (i < j)%nat -> regions t !! i = Some r -> regions t !! j = Some r' -> rg_end r <= rg_base r'
}.

Lemma gap_bounds t i : sorted t -> (i <= cnt t)%nat -> 0 <= gap_start t i <= gap_end t i /\ gap_end t i <= ULLONG_MAX.
Proof.
  intros [_ Hr Hn] Hi. unfold gap_start, gap_end. destruct i as [|i].
  - destruct (regions t !! 0%nat) as [r|] eqn:E; [|unfold ULLONG_MAX, ULONG_MOD; lia]. apply Hr in E. lia.
  - destruct (lookup_lt_is_Some_2 (regions t) i) as [r E]; [unfold cnt in Hi; lia|]. rewrite E. simpl. pose proof (Hr _ _ E).
    destruct (regions t !! S i) as [r'|] eqn:E'; [|lia]. pose proof (Hr _ _ E'). pose proof (Hn i (S i) _ _ ltac:(lia) E E'). lia.
Qed.

Lemma gap_next t i : sorted t -> (i < cnt t)%nat -> gap_end t i <= gap_start t (S i).
Proof.
  intros [_ Hr _] Hi. unfold gap_start, gap_end. destruct (lookup_lt_is_Some_2 (regions t) i Hi) as [r E]. rewrite E. simpl.
  apply Hr in E. lia.
Qed.

Lemma gap_mono t i j : sorted t -> (i < j <= cnt t)%nat -> gap_end t i <= gap_start t j.
Proof.
  intros Ht [Hij Hj]. induction j as [|j IH]; [lia|]. pose proof (gap_next t j Ht ltac:(lia)).
  destruct (decide (i = j)) as [->|]; [done|]. pose proof (gap_bounds t j Ht ltac:(lia)). specialize (IH ltac:(lia) ltac:(lia)). lia.
Qed.

Lemma gap_last t : gap_end t (cnt t) = ULLONG_MAX.
Proof. unfold gap_end, cnt. by rewrite lookup_ge_None_2. Qed.

Lemma of_region_none gs m : (forall g, g ∈ gs -> rg_end m <= g.1 \/ g.2 <= rg_base m) -> of_region nid gs m = [].
Proof.
  intros H. unfold of_region. destruct (chosen nid m); [|done]. induction gs as [|g gs IH]; [done|]. simpl.
  rewrite IH by (intros g' ?; apply H; by right). unfold meets. destruct (_ && _) eqn:E; [|done]. zbool.
  specialize (H g ltac:(left)). lia.
Qed.

Lemma of_region_app gs gs' m : of_region nid (gs ++ gs') m = of_region nid gs m ++ of_region nid gs' m.
Proof. unfold of_region. destruct (chosen nid m); [|done]. apply flat_map_app. Qed.

Lemma flat_map_ext_in {A B} (f g : A -> list B) l : (forall x, x ∈ l -> f x = g x) -> flat_map f l = flat_map g l.
Proof. intros H. induction l as [|x l IH]; [done|]. simpl. rewrite H by left. f_equal. apply IH. intros y Hy. apply H. by right. Qed.

(** ** Forward *)

Context (HA : sorted type_a) (HB : sorted type_b).

(** What is left from region [ia] and gap [ib] on *)
Definition from (ia ib : nat) : list (Z * Z) :=
  flat_map (of_region nid (map (gap type_b) (seq ib (S (cnt type_b) - ib)))) (drop ia (regions type_a)).

Lemma gaps_cons ib : (ib <= cnt type_b)%nat ->
  map (gap type_b) (seq ib (S (cnt type_b) - ib)) = gap type_b ib :: map (gap type_b) (seq (S ib) (S (cnt type_b) - S ib)).
Proof. intros H. replace (S (cnt type_b) - ib)%nat with (S (S (cnt type_b) - S ib)) by lia. done. Qed.

Lemma elem_of_gaps g i n : g ∈ map (gap type_b) (seq i n) -> exists j, g = gap type_b j /\ (i <= j < i + n)%nat.
Proof. intros Hg. apply list_elem_of_fmap in Hg as (j & -> & Hj). apply elem_of_seq in Hj. eauto. Qed.

(** The regions from [ia] on are beyond the gap. *)
Lemma from_skip_gap ia ib :
  (ib < cnt type_b)%nat ->
  (forall j m, (ia <= j)%nat -> regions type_a !! j = Some m -> gap_end type_b ib <= rg_base m) ->
  from ia ib = from ia (S ib).
Proof.
  intros Hib H. unfold from. apply flat_map_ext_in. intros m Hm. rewrite gaps_cons by lia.
  apply list_elem_of_lookup in Hm as [j Hj]. rewrite lookup_drop in Hj.
  change (gap type_b ib :: ?l) with ([gap type_b ib] ++ l). rewrite of_region_app, of_region_none; [done|].
  intros g ->%list_elem_of_singleton. right. apply (H (ia + j)%nat); [lia|done].
Qed.

Lemma from_cons ia ib m : regions type_a !! ia = Some m ->
  from ia ib = of_region nid (map (gap type_b) (seq ib (S (cnt type_b) - ib))) m ++ from (S ia) ib.
Proof. intros E. unfold from. by rewrite (drop_S _ _ _ E). Qed.

(** Region [ia] does not reach gap [ib]. *)
Lemma from_skip_region ia ib m :
  regions type_a !! ia = Some m -> (ib <= cnt type_b)%nat -> rg_end m <= gap_start type_b ib -> from ia ib = from (S ia) ib.
Proof.
  intros E Hib Hle. rewrite (from_cons _ _ _ E), of_region_none; [done|]. intros g (j & -> & Hj)%elem_of_gaps. left. simpl.
  destruct (decide (j = ib)) as [->|]; [done|]. pose proof (gap_mono type_b ib j HB ltac:(lia)). pose proof (gap_bounds type_b ib HB Hib). lia.
Qed.

Lemma from_not_chosen ia ib m : regions type_a !! ia = Some m -> chosen nid m = false -> from ia ib = from (S ia) ib.
Proof. intros E Hc. rewrite (from_cons _ _ _ E). unfold of_region. by rewrite Hc. Qed.

Lemma from_meet ia ib m :
  regions type_a !! ia = Some m -> (ib <= cnt type_b)%nat -> chosen nid m = true ->
  gap_start type_b ib < rg_end m -> rg_base m < gap_end type_b ib ->
  from ia ib = (Z.max (rg_base m) (gap_start type_b ib), Z.min (rg_end m) (gap_end type_b ib)) ::
    (if rg_end m <=? gap_end type_b ib then from (S ia) ib else from ia (S ib)).
Proof.
  intros E Hib Hc H1 H2. rewrite (from_cons _ _ _ E), gaps_cons by done. change (gap type_b ib :: ?l) with ([gap type_b ib] ++ l).
  rewrite of_region_app. unfold of_region at 1. rewrite Hc. simpl. unfold meets. simpl.
  rewrite (proj2 (Z.ltb_lt _ _) H1), (proj2 (Z.ltb_lt _ _) H2). simpl. f_equal.
  destruct (rg_end m <=? gap_end type_b ib) eqn:Ee; zbool.
  - rewrite of_region_none; [done|]. intros g (j & -> & Hj)%elem_of_gaps. left. simpl.
    pose proof (gap_mono type_b ib j HB ltac:(lia)). lia.
  - destruct (decide (ib = cnt type_b)) as [->|]. { rewrite gap_last in Ee. destruct (so_region _ HA _ _ E). lia. }
    rewrite (from_cons ia (S ib) _ E). f_equal. apply from_skip_gap; [lia|]. intros j m' Hj Hm'.
    pose proof (so_next _ HA ia j _ _ ltac:(lia) E Hm'). lia.
Qed.

Lemma unpack_nat a b : (a <= INIT_MEMBLOCK_REGIONS)%nat -> (b <= INIT_MEMBLOCK_REGIONS)%nat ->
  idx_a_of (pack (Z.of_nat a) (Z.of_nat b)) = a /\ idx_b_of (pack (Z.of_nat a) (Z.of_nat b)) = b.
Proof.
  unfold INIT_MEMBLOCK_REGIONS, idx_a_of, idx_b_of. intros Ha Hb. destruct (unpack (Z.of_nat a) (Z.of_nat b)) as [-> ->].
  rewrite !Z.mod_small by lia. lia.
Qed.

(** A step of the iteration at [ia], [ib]: it goes on at [ia'], [ib']. *)
Record advances (ia ib ia' ib' : nat) : Prop := Advances {
  av_a : (ia <= ia' <= cnt type_a)%nat;
  av_b : (ib <= ib' <= cnt type_b)%nat;
  av_lt : (ia + ib < ia' + ib')%nat
}.

Lemma scan_gaps_ok n ia ib m :
  regions type_a !! ia = Some m -> chosen nid m = true -> (n + ib = S (cnt type_b))%nat -> (0 < n)%nat ->
  match scan_gaps n m type_b ia ib with
  | Found s e _ idx => exists ia' ib', idx = pack (Z.of_nat ia') (Z.of_nat ib') /\ advances ia ib ia' ib' /\
      from ia ib = (s, e) :: from ia' ib'
  | Advance ib' => (ib <= ib' <= cnt type_b)%nat /\ from ia ib = from (S ia) ib'
  end.
Proof.
  intros E Hc. pose proof (lookup_lt_Some _ _ _ E) as Hia. fold (cnt type_a) in Hia.
  revert ib. induction n as [|n IH]; intros ib Hn Hpos; [lia|]. cbn [scan_gaps].
  destruct (rg_end m <=? gap_start type_b ib) eqn:E1; zbool.
  { split; [lia|]. apply (from_skip_region _ _ m); [done|lia|done]. }
  destruct (rg_base m <? gap_end type_b ib) eqn:E2; zbool.
  - rewrite (from_meet ia ib m) by (done || lia). destruct (rg_end m <=? gap_end type_b ib) eqn:E3; zbool.
    + exists (S ia), ib. split; [done|]. split; [split; lia|done].
    + exists ia, (S ib). split; [done|]. split; [|done]. destruct (decide (ib = cnt type_b)) as [->|].
      { rewrite gap_last in E3. destruct (so_region _ HA _ _ E). lia. }
      split; lia.
  - assert (Hlt : (ib < cnt type_b)%nat).
    { destruct (decide (ib = cnt type_b)) as [->|]; [|lia]. rewrite gap_last in E2. destruct (so_region _ HA _ _ E). lia. }
    rewrite (from_skip_gap ia ib).
    + specialize (IH (S ib) ltac:(lia) ltac:(lia)). destruct (scan_gaps n m type_b ia (S ib)) as [s e nid' idx|ib'].
      * destruct IH as (ia' & ib' & -> & [] & ->). exists ia', ib'. split; [done|]. split; [split; lia|done].
      * destruct IH as [? ->]. split; [lia|done].
    + done.
    + intros j m' Hj Hm'. destruct (decide (j = ia)) as [->|]; [by simplify_eq|].
      pose proof (so_next _ HA ia j _ _ ltac:(lia) E Hm'). destruct (so_region _ HA _ _ E). lia.
Qed.

(** What a call of the iterator gives at [ia], [ib] *)
Definition stepped (ia ib : nat) (r : option (Z * Z * Z * Z)) : Prop :=
  match r with
  | None => from ia ib = []
  | Some (s, e, _, idx) => exists ia' ib', idx = pack (Z.of_nat ia') (Z.of_nat ib') /\ advances ia ib ia' ib' /\
      from ia ib = (s, e) :: from ia' ib'
  end.

Lemma stepped_skip ia ib ib' r :
  (ib <= ib')%nat -> from ia ib = from (S ia) ib' -> stepped (S ia) ib' r -> stepped ia ib r.
Proof.
  unfold stepped. intros Hb ->. destruct r as [[[[s e] ?] idx]|]; [|done].
  intros (ia' & ib'' & -> & [] & ->). exists ia', ib''. split; [done|]. split; [split; lia|done].
Qed.

Lemma next_range_ok n ia ib :
  (cnt type_a < n + ia)%nat -> (ib <= cnt type_b)%nat -> stepped ia ib (next_range n (selected nid) type_a type_b ia ib).
Proof.
  assert (Hnone : forall ia ib, regions type_a !! ia = None -> from ia ib = []).
  { intros i j E. unfold from. by rewrite drop_ge by by apply lookup_ge_None. }
  revert ia ib. induction n as [|n IH]; intros ia ib Hn Hib; cbn [next_range].
  { apply Hnone. apply lookup_ge_None. unfold cnt in Hn. lia. }
  destruct (regions type_a !! ia) as [m|] eqn:E; [|by apply Hnone].
  rewrite selected_chosen. destruct (chosen nid m) eqn:Ec; cbn [negb].
  2:{ apply (stepped_skip ia ib ib); [lia| |apply IH; lia]. by apply (from_not_chosen _ _ m). }
  pose proof (scan_gaps_ok (cnt type_b + 1 - ib) ia ib m E) as Hs.
  specialize (Hs Ec ltac:(lia) ltac:(lia)). destruct (scan_gaps _ m type_b ia ib) as [s e nid' idx|ib']; [done|].
  destruct Hs as [Hb Hf]. apply (stepped_skip ia ib ib'); [lia|done|]. apply IH; lia.
Qed.

Lemma mem_ranges_ok n ia ib :
  (cnt type_a + cnt type_b <= n + ia + ib)%nat -> (ia <= cnt type_a)%nat -> (ib <= cnt type_b)%nat ->
  mem_ranges n (pack (Z.of_nat ia) (Z.of_nat ib)) nid type_a type_b = from ia ib.
Proof.
  pose proof (so_cnt _ HA) as La. pose proof (so_cnt _ HB) as Lb.
  revert ia ib. induction n as [|n IH]; intros ia ib Hn Ha Hb; cbn [mem_ranges].
  { unfold from. rewrite drop_ge; [done|]. unfold cnt in *. lia. }
  unfold __next_mem_range. fold (selected nid). destruct (unpack_nat ia ib) as [-> ->]; [lia..|].
  pose proof (next_range_ok (S (cnt type_a)) ia ib ltac:(lia) Hb) as H.
  destruct (next_range _ (selected nid) type_a type_b ia ib) as [[[[s e] nid'] idx]|]; [|done].
  destruct H as (ia' & ib' & -> & [] & ->). f_equal. apply IH; lia.
Qed.

(** ** Backward *)

(** What is left of the first [na] regions and [nb] gaps *)
Definition upto (na nb : nat) : list (Z * Z) :=
  flat_map (of_region nid (map (gap type_b) (seq 0 nb))) (take na (regions type_a)).

Lemma gaps_snoc nb : map (gap type_b) (seq 0 (S nb)) = map (gap type_b) (seq 0 nb) ++ [gap type_b nb].
Proof. rewrite seq_S, map_app. done. Qed.

Lemma upto_snoc ia nb m : regions type_a !! ia = Some m ->
  upto (S ia) nb = upto ia nb ++ of_region nid (map (gap type_b) (seq 0 nb)) m.
Proof. intros E. unfold upto. rewrite (take_S_r _ _ _ E), flat_map_app. simpl. by rewrite app_nil_r. Qed.

(** The first [na] regions end before the gap. *)
Lemma upto_skip_gap na ib :
  (forall j m, (j < na)%nat -> regions type_a !! j = Some m -> rg_end m <= gap_start type_b ib) -> upto na (S ib) = upto na ib.
Proof.
  intros H. unfold upto. apply flat_map_ext_in. intros m Hm. rewrite gaps_snoc, of_region_app.
  apply list_elem_of_lookup in Hm as [j Hj]. apply lookup_take_Some in Hj as [Hj Hlt].
  rewrite (of_region_none [_]); [by rewrite app_nil_r|]. intros g ->%list_elem_of_singleton. left. by apply (H j).
Qed.

(** The first [nb] gaps end before region [ia]. *)
Lemma upto_skip_region ia nb m :
  regions type_a !! ia = Some m -> (forall j, (j < nb)%nat -> gap_end type_b j <= rg_base m) -> upto (S ia) nb = upto ia nb.
Proof.
  intros E H. rewrite (upto_snoc _ _ _ E), of_region_none; [by rewrite app_nil_r|]. intros g (j & -> & Hj)%elem_of_gaps.
  right. apply H. lia.
Qed.

Lemma gap_end_mono i j : (i <= j <= cnt type_b)%nat -> gap_end type_b i <= gap_end type_b j.
Proof.
  intros H. destruct (decide (i = j)) as [->|]; [done|]. pose proof (gap_mono type_b i j HB ltac:(lia)).
  pose proof (gap_bounds type_b j HB ltac:(lia)). lia.
Qed.

Lemma upto_meet ia ib m :
  regions type_a !! ia = Some m -> (ib <= cnt type_b)%nat -> chosen nid m = true ->
  gap_start type_b ib < rg_end m -> rg_base m < gap_end type_b ib ->
  upto (S ia) (S ib) = (if gap_start type_b ib <=? rg_base m then upto ia (S ib) else upto (S ia) ib) ++
    [(Z.max (rg_base m) (gap_start type_b ib), Z.min (rg_end m) (gap_end type_b ib))].
Proof.
  intros E Hib Hc H1 H2. rewrite (upto_snoc _ _ _ E), gaps_snoc, of_region_app.
  assert (Hx : of_region nid [gap type_b ib] m = [(Z.max (rg_base m) (gap_start type_b ib), Z.min (rg_end m) (gap_end type_b ib))]).
  { unfold of_region. rewrite Hc. simpl. unfold meets. simpl. by rewrite (proj2 (Z.ltb_lt _ _) H1), (proj2 (Z.ltb_lt _ _) H2). }
  rewrite Hx, app_assoc. f_equal. destruct (gap_start type_b ib <=? rg_base m) eqn:Ee; zbool.
  - rewrite of_region_none; [by rewrite app_nil_r|]. intros g (j & -> & Hj)%elem_of_gaps. right. simpl.
    pose proof (gap_mono type_b j ib HB ltac:(lia)). lia.
  - rewrite (upto_snoc _ _ _ E), upto_skip_gap; [done|]. intros j m' Hj Hm'.
    pose proof (so_next _ HA j ia _ _ Hj Hm' E). lia.
Qed.

Definition pack_rev (na nb : nat) : Z := pack (Z.of_nat na - 1) (Z.of_nat nb - 1).

Record retreats (na nb na' nb' : nat) : Prop := Retreats {
  rt_a : (na' <= na)%nat;
  rt_b : (nb' <= nb)%nat;
  rt_lt : (na' + nb' < na + nb)%nat;
  rt_pos : (0 < na' + nb')%nat
}.

Definition stepped_rev (na nb : nat) (r : option (Z * Z * Z * Z)) : Prop :=
  match r with
  | None => upto na nb = []
  | Some (s, e, _, idx) => exists na' nb', idx = pack_rev na' nb' /\ retreats na nb na' nb' /\
      upto na nb = upto na' nb' ++ [(s, e)]
  end.

Lemma stepped_rev_skip na nb na' nb' r :
  (na' <= na)%nat -> (nb' <= nb)%nat -> upto na nb = upto na' nb' -> stepped_rev na' nb' r -> stepped_rev na nb r.
Proof.
  unfold stepped_rev. intros Ha Hb ->. destruct r as [[[[s e] ?] idx]|]; [|done].
  intros (ia' & ib' & -> & [] & ->). exists ia', ib'. split; [done|]. split; [split; lia|done].
Qed.

Lemma scan_gaps_rev_ok nb ia m :
  regions type_a !! ia = Some m -> chosen nid m = true -> (nb <= S (cnt type_b))%nat ->
  match scan_gaps_rev nb m type_b ia with
  | Found s e n' idx => stepped_rev (S ia) nb (Some (s, e, n', idx))
  | Advance nb' => (nb' <= nb)%nat /\ upto (S ia) nb = upto ia nb'
  end.
Proof.
  intros E Hc. induction nb as [|ib IH]; intros Hnb; cbn [scan_gaps_rev].
  { split; [lia|]. apply (upto_skip_region _ _ m); [done|]. lia. }
  destruct (gap_end type_b ib <=? rg_base m) eqn:E1; zbool.
  { split; [lia|]. apply (upto_skip_region _ _ m); [done|]. intros j Hj. pose proof (gap_end_mono j ib ltac:(lia)). lia. }
  destruct (gap_start type_b ib <? rg_end m) eqn:E2; zbool.
  - unfold stepped_rev. rewrite (upto_meet ia ib m) by (done || lia). unfold pack_rev.
    destruct (gap_start type_b ib <=? rg_base m) eqn:E3; zbool.
    + exists ia, (S ib). split; [f_equal; lia|]. split; [split; lia|done].
    + exists (S ia), ib. split; [f_equal; lia|]. split; [split; lia|done].
  - assert (Hu : upto (S ia) (S ib) = upto (S ia) ib).
    { apply upto_skip_gap. intros j m' Hj Hm'. destruct (decide (j = ia)) as [->|]; [by simplify_eq|].
      pose proof (so_next _ HA j ia _ _ ltac:(lia) Hm' E). destruct (so_region _ HA _ _ E). lia. }
    specialize (IH ltac:(lia)). destruct (scan_gaps_rev ib m type_b ia) as [s e n' idx|nb'].
    + apply (stepped_rev_skip _ _ (S ia) ib); [lia..|done|done].
    + destruct IH as [? IH]. split; [lia|]. congruence.
Qed.

Lemma next_range_rev_ok na nb :
  (na <= cnt type_a)%nat -> (nb <= S (cnt type_b))%nat -> stepped_rev na nb (next_range_rev na (selected nid) type_a type_b nb).
Proof.
  revert nb. induction na as [|ia IH]; intros nb Ha Hb; cbn [next_range_rev]; [done|].
  destruct (lookup_lt_is_Some_2 (regions type_a) ia Ha) as [m E]. rewrite E. cbn [mbind option_bind].
  rewrite selected_chosen. destruct (chosen nid m) eqn:Ec; cbn [negb].
  2:{ apply (stepped_rev_skip _ _ ia nb); [lia..| |apply IH; lia]. rewrite (upto_snoc _ _ _ E). unfold of_region.
    by rewrite Ec, app_nil_r. }
  pose proof (scan_gaps_rev_ok nb ia m E) as Hs.
  specialize (Hs Ec Hb). destruct (scan_gaps_rev nb m type_b ia) as [s e n' idx|nb']; [done|].
  destruct Hs as [? Hs]. apply (stepped_rev_skip _ _ ia nb'); [lia..|done|]. apply IH; lia.
Qed.

Lemma unpack_rev na nb : (na <= INIT_MEMBLOCK_REGIONS)%nat -> (nb <= S INIT_MEMBLOCK_REGIONS)%nat -> (0 < na + nb)%nat ->
  pack_rev na nb <> ULLONG_MAX /\ below (Z.land (pack_rev na nb) (2 ^ 32 - 1)) = na /\ below (Z.shiftr (pack_rev na nb) 32) = nb.
Proof.
  unfold INIT_MEMBLOCK_REGIONS, pack_rev. intros Ha Hb Hp. destruct (unpack (Z.of_nat na - 1) (Z.of_nat nb - 1)) as [E1 E2].
  assert (Hm : forall n, (n <= 129)%nat -> below ((Z.of_nat n - 1) mod 2 ^ 32) = n /\
    ((Z.of_nat n - 1) mod 2 ^ 32 = 2 ^ 32 - 1 -> n = O)).
  { intros n Hn. destruct n as [|n]; [done|]. rewrite Z.mod_small by lia. unfold below, to_int.
    rewrite (proj2 (Z.leb_gt _ _)) by lia. lia. }
  rewrite E1, E2. destruct (Hm na ltac:(lia)) as [M1 M2]. destruct (Hm nb ltac:(lia)) as [M3 M4]. split; [|done].
  intros E. rewrite E in E1, E2. change (Z.land ULLONG_MAX (2 ^ 32 - 1)) with (2 ^ 32 - 1) in E1.
  change (Z.shiftr ULLONG_MAX 32) with (2 ^ 32 - 1) in E2. rewrite (M2 (eq_sym E1)), (M4 (eq_sym E2)) in Hp. lia.
Qed.

Lemma mem_ranges_rev_ok n idx na nb :
  __next_mem_range_rev idx nid type_a type_b = next_range_rev na (selected nid) type_a type_b nb ->
  (na + nb <= n)%nat -> (na <= cnt type_a)%nat -> (nb <= S (cnt type_b))%nat ->
  mem_ranges_rev n idx nid type_a type_b = rev (upto na nb).
Proof.
  pose proof (so_cnt _ HA) as La. pose proof (so_cnt _ HB) as Lb.
  revert idx na nb. induction n as [|n IH]; intros idx na nb Hx Hn Ha Hb; cbn [mem_ranges_rev].
  { by replace na with O by lia. }
  rewrite Hx. pose proof (next_range_rev_ok na nb Ha Hb) as H.
  destruct (next_range_rev na (selected nid) type_a type_b nb) as [[[[s e] nid'] idx']|]; [|by rewrite H].
  destruct H as (na' & nb' & -> & [] & ->). destruct (unpack_rev na' nb') as (U1 & U2 & U3); [lia..|].
  rewrite (proj2 (Z.eqb_neq _ _) U1), rev_app_distr. simpl. f_equal. apply IH; try lia.
  unfold __next_mem_range_rev. fold (selected nid). by rewrite (proj2 (Z.eqb_neq _ _) U1), U2, U3.
Qed.
End sorted.

(** ** The free ranges *)

Lemma attr_none l a : attr_at l a = None <-> forall r, r ∈ l -> ~ covers r a.
Proof.
  unfold covers. induction l as [|r l IH]; simpl; [split; [intros _ r []%elem_of_nil|done]|].
  destruct ((rg_base r <=? a) && (a <? rg_base r + rg_size r)) eqn:E; zbool.
  - split; [done|]. intros Hn. destruct (Hn r); [left|lia].
  - rewrite IH. split; [|intros H s Hs; apply H; by right]. intros H s [->|Hs]%elem_of_cons; [|by apply H].
    apply andb_false_iff in E. rewrite Z.leb_gt, Z.ltb_ge in E. lia.
Qed.

Lemma chain_lookup lo l i r : chain lo l -> l !! i = Some r -> lo <= rg_base r /\ 0 < rg_size r /\ rg_base r + rg_size r <= ULLONG_MAX.
Proof.
  revert lo i. induction l as [|s l IH]; intros lo i; [done|]. intros (H1 & H2 & H3 & H4). destruct i as [|i]; simpl.
  - by intros [= ->].
  - intros E. destruct (IH _ _ H4 E). lia.
Qed.

Lemma chain_lookup_lt lo l i j r s : chain lo l -> (i < j)%nat -> l !! i = Some r -> l !! j = Some s -> rg_base r + rg_size r <= rg_base s.
Proof.
  revert lo i j. induction l as [|x l IH]; intros lo i j; [done|]. intros (H1 & H2 & H3 & H4) Hij. destruct j as [|j]; [lia|].
  destruct i as [|i]; simpl.
  - intros [= ->] E. by eapply chain_lookup.
  - apply (IH _ _ _ H4). lia.
Qed.

Lemma end_no_wrap r : 0 <= rg_base r -> 0 <= rg_size r -> rg_base r + rg_size r <= ULLONG_MAX -> rg_end r = rg_base r + rg_size r.
Proof. intros. unfold rg_end, ULLONG_MAX in *. apply wrap_small. split; lia. Qed.

Lemma type_ok_region t i r : type_ok t -> regions t !! i = Some r ->
  0 <= rg_base r /\ 0 <= rg_size r /\ (0 < rg_base r -> 0 < rg_size r) /\ rg_end r = rg_base r + rg_size r /\ rg_end r <= ULLONG_MAX.
Proof.
  intros [_ _ [(nid & E)|[_ [Hc _]]]] Hr.
  - rewrite E in Hr. destruct i as [|[|i]]; [|done..]. injection Hr as <-. simpl. change (rg_end (dummy nid)) with 0.
    unfold ULLONG_MAX, ULONG_MOD. lia.
  - destruct (chain_lookup _ _ _ _ Hc Hr) as (? & ? & ?). rewrite end_no_wrap; lia.
Qed.

Lemma type_ok_sorted t : type_ok t -> sorted t.
Proof.
  intros Ht. split; [apply Ht| |].
  - intros i r Hr. destruct (type_ok_region t i r Ht Hr) as (? & ? & ? & ? & ?). unfold ULLONG_MAX, ULONG_MOD in *. lia.
  - intros i j r s Hij Hr Hs. destruct (type_ok_region t i r Ht Hr) as (_ & _ & _ & -> & _).
    destruct Ht as [_ _ [(nid & E)|[_ [Hc _]]]].
    + rewrite E in Hs. destruct j as [|[|j]]; [lia|done..].
    + by eapply chain_lookup_lt.
Qed.

(** What is in no region is in a gap. *)
Lemma gap_spec t a : type_ok t -> 0 <= a < ULLONG_MAX ->
  attr_at (regions t) a = None <-> exists j, (j <= cnt t)%nat /\ gap_start t j <= a < gap_end t j.
Proof.
  intros Ht Ha. pose proof (type_ok_sorted t Ht) as Hs. rewrite attr_none. split.
  - intros H. assert (Hj : forall j, (j <= cnt t)%nat -> a < gap_end t j -> exists i, (i <= cnt t)%nat /\ gap_start t i <= a < gap_end t i).
    { induction j as [|j IH]; intros Hj Hlt; [exists O; simpl; lia|].
      destruct (decide (a < gap_end t j)); [apply IH; lia|]. exists (S j). split; [done|]. split; [|done].
      destruct (lookup_lt_is_Some_2 (regions t) j Hj) as [r E]. destruct (type_ok_region t j r Ht E) as (_ & _ & _ & Ee & _).
      specialize (H r (list_elem_of_lookup_2 _ _ _ E)). unfold covers, gap_start, gap_end in *. rewrite E in *. simpl. lia. }
    apply (Hj (cnt t)); [done|]. rewrite gap_last. lia.
  - intros (j & Hj & Hg) r [i Hi]%list_elem_of_lookup Hc. destruct (type_ok_region t i r Ht Hi) as (? & ? & _ & Ee & _).
    unfold covers in Hc. pose proof (lookup_lt_Some _ _ _ Hi) as Hlt. fold (cnt t) in Hlt.
    assert (gap_end t i = rg_base r /\ gap_start t (S i) = rg_end r) as [G1 G2] by (unfold gap_end, gap_start; by rewrite Hi).
    destruct (decide (i < j)%nat).
    + assert (gap_start t (S i) <= gap_start t j); [|lia]. destruct (decide (j = S i)) as [->|]; [done|].
      pose proof (gap_mono t (S i) j Hs ltac:(lia)). pose proof (gap_bounds t (S i) Hs ltac:(lia)). lia.
    + pose proof (gap_end_mono t Hs j i ltac:(lia)). lia.
Qed.

Lemma elem_of_free_ranges nid ta tb x :
  x ∈ free_ranges nid ta tb <-> exists m j, m ∈ regions ta /\ chosen nid m = true /\ (j <= cnt tb)%nat /\
    gap_start tb j < rg_end m /\ rg_base m < gap_end tb j /\
    x = (Z.max (rg_base m) (gap_start tb j), Z.min (rg_end m) (gap_end tb j)).
Proof.
  unfold free_ranges. rewrite list_elem_of_In, in_flat_map. split.
  - intros (m & Hm & Hx). unfold of_region in Hx. destruct (chosen nid m) eqn:Ec; [|done].
    apply in_flat_map in Hx as (g & Hg & Hx). apply list_elem_of_In, elem_of_gaps in Hg as (j & -> & Hj).
    unfold meets in Hx. destruct (_ && _) eqn:E; [|done]. zbool. destruct Hx as [<-|[]].
    exists m, j. apply list_elem_of_In in Hm. simpl in *. repeat split; try done; lia.
  - intros (m & j & Hm & Hc & Hj & H1 & H2 & ->). exists m. split; [by apply list_elem_of_In|]. unfold of_region. rewrite Hc.
    apply in_flat_map. exists (gap tb j). split; [apply in_map, in_seq; lia|]. unfold meets. simpl.
    rewrite (proj2 (Z.ltb_lt _ _) H1), (proj2 (Z.ltb_lt _ _) H2). by left.
Qed.
