(* ===== verification/MemblockAlloc.v ===== *)
(** * Boot-time memory, memblock: the free memory and allocation

    The free addresses are the memory without the reserved addresses; the iterators give
    them in sorted ranges.  The search finds the highest aligned block that is free within
    one region; an allocation reserves exactly that block.  Then the queries, and trimming. *)

From Stdlib Require Import Sorted.
From S2P Require Import Prelude MemblockModel MemblockRegions MemblockRemove MemblockIter.

Record memblock_ok (m : memblock) : Prop := MemblockOk {
  mo_memory : type_ok (memory m);
  mo_reserved : type_ok (reserved m);
  mo_limit : is_u64 (current_limit m)
}.

(** Free addresses of a node, or of any: NUMA_NO_NODE and MAX_NUMNODES stand for all *)
Definition free_at (m : memblock) (nid a : Z) : Prop :=
  match attr_at (regions (memory m)) a with
  | Some (n, _) => nid = NUMA_NO_NODE \/ nid = MAX_NUMNODES \/ nid = n
  | None => False
  end /\ attr_at (regions (reserved m)) a = None.

(** A block of memory of one region, none of it reserved *)
Record fits (m : memblock) (size align start end_ nid c : Z) : Prop := Fits {
  ft_align : (align | c);
  ft_start : start <= c;
  ft_end : c + size <= end_;
  ft_region : exists r, r ∈ regions (memory m) /\ chosen nid r = true /\ rg_base r <= c /\ c + size <= rg_base r + rg_size r;
  ft_free a : c <= a < c + size -> attr_at (regions (reserved m)) a = None
}.

(** The highest block that fits, or 0 *)
Definition highest (m : memblock) (size align start end_ nid ret : Z) : Prop :=
  (ret <> 0 -> fits m size align start end_ nid ret) /\ forall c, fits m size align start end_ nid c -> c <= ret.

(** ** The ranges *)

Section ranges.
Context (m : memblock) (nid : Z) (Hm : memblock_ok m).
Let L := free_ranges nid (memory m) (reserved m).

Lemma forward_ranges : for_each_free_mem_range m nid = L.
Proof.
  unfold for_each_free_mem_range. change 0 with (pack (Z.of_nat 0) (Z.of_nat 0)) at 1.
  rewrite (mem_ranges_ok nid); [done|apply type_ok_sorted, Hm|apply type_ok_sorted, Hm|lia|lia|lia].
Qed.

Lemma backward_ranges : for_each_free_mem_range_reverse m nid = rev L.
Proof.
  unfold for_each_free_mem_range_reverse.
  rewrite (mem_ranges_rev_ok nid _ _ (type_ok_sorted _ (mo_memory _ Hm)) (type_ok_sorted _ (mo_reserved _ Hm)) _ _ (cnt (memory m)) (S (cnt (reserved m)))).
  - unfold upto, L, free_ranges. by rewrite firstn_all2 by (unfold cnt; lia).
  - unfold __next_mem_range_rev. by rewrite Z.eqb_refl.
  - lia.
  - done.
  - done.
Qed.

Lemma chosen_spec r : chosen nid r = true <-> nid = NUMA_NO_NODE \/ nid = MAX_NUMNODES \/ nid = rg_nid r.
Proof.
  unfold chosen. rewrite !orb_true_iff, !Z.eqb_eq. tauto.
Qed.

Lemma memory_region r : r ∈ regions (memory m) ->
  0 <= rg_base r /\ 0 <= rg_size r /\ rg_end r = rg_base r + rg_size r /\ rg_end r <= ULLONG_MAX.
Proof. intros [i Hi]%list_elem_of_lookup. destruct (type_ok_region _ _ _ (mo_memory _ Hm) Hi) as (? & ? & _ & ? & ?). auto. Qed.

Lemma memory_at a x : attr_at (regions (memory m)) a = Some x <-> exists r, r ∈ regions (memory m) /\ covers r a /\ rg_attr r = x.
Proof.
  destruct (mo_memory _ Hm) as [_ _ [(n & E)|[_ [Hc _]]]]; [|by eapply attr_at_spec].
  rewrite E, dummy_attr. split; [done|]. intros (r & ->%list_elem_of_singleton & Hcov & _). unfold covers in Hcov. simpl in Hcov. lia.
Qed.

Lemma free_ranges_cover a : free_at m nid a <-> exists s e, (s, e) ∈ L /\ s <= a < e.
Proof.
  unfold free_at. split.
  - intros [Ha Hr]. destruct (attr_at (regions (memory m)) a) as [[n f]|] eqn:E; [|done].
    apply memory_at in E as (r & Hin & Hc & [= <- _]). destruct (memory_region r Hin) as (? & ? & He & ?). unfold covers in Hc.
    apply gap_spec in Hr as (j & Hj & Hg); [|apply Hm|lia].
    eexists _, _. split; [apply elem_of_free_ranges; exists r, j|].
    + split; [done|]. split; [by apply chosen_spec|]. split; [done|]. split; [lia|]. split; [lia|done].
    + lia.
  - intros (s & e & Hin & Hse). apply elem_of_free_ranges in Hin as (r & j & Hr & Hch & Hj & H1 & H2 & [= -> ->]).
    destruct (memory_region r Hr) as (? & ? & He & ?).
    assert (E : attr_at (regions (memory m)) a = Some (rg_attr r)) by (apply memory_at; exists r; unfold covers; split; [done|split; [lia|done]]).
    rewrite E. simpl. split; [by apply chosen_spec|]. apply gap_spec; [apply Hm|lia|]. exists j. lia.
Qed.

Lemma StronglySorted_flat_map {A B} (R : B -> B -> Prop) (Q : A -> A -> Prop) (f : A -> list B) l :
  StronglySorted Q l -> (forall x, x ∈ l -> StronglySorted R (f x)) ->
  (forall x y u v, Q x y -> u ∈ f x -> v ∈ f y -> R u v) -> StronglySorted R (flat_map f l).
Proof.
  intros HQ Hf HR. induction HQ as [|x l HQ IH Hx]; simpl; [constructor|].
  assert (Hl : StronglySorted R (flat_map f l)) by (apply IH; intros y Hy; apply Hf; by right).
  assert (Hall : forall u v, u ∈ f x -> v ∈ flat_map f l -> R u v).
  { intros u v Hu Hv. apply list_elem_of_In, in_flat_map in Hv as (y & Hy & Hv). rewrite List.Forall_forall in Hx.
    apply (HR x y); [by apply Hx|done|by apply list_elem_of_In]. }
  specialize (Hf x ltac:(left)). clear -Hf Hl Hall. induction Hf as [|u k Hk IH Hu]; simpl; [done|]. constructor.
  - apply IH. intros. apply Hall; [by right|done].
  - apply List.Forall_app. split; [done|]. apply List.Forall_forall. intros v Hv. apply Hall; [left|by apply list_elem_of_In].
Qed.

Lemma StronglySorted_lookup {A} (R : A -> A -> Prop) l :
  (forall i j x y, (i < j)%nat -> l !! i = Some x -> l !! j = Some y -> R x y) -> StronglySorted R l.
Proof.
  induction l as [|x l IH]; intros H; constructor.
  - apply IH. intros i j u v Hij Hu Hv. apply (H (S i) (S j)); [lia|done..].
  - apply List.Forall_forall. intros y Hy. apply list_elem_of_In, list_elem_of_lookup in Hy as [j Hj]. apply (H O (S j)); [lia|done..].
Qed.

(** The ranges are in order and do not overlap. *)
Lemma free_ranges_sorted : StronglySorted (fun x y => x.2 <= y.1) L.
Proof.
  pose proof (type_ok_sorted _ (mo_memory _ Hm)) as HA. pose proof (type_ok_sorted _ (mo_reserved _ Hm)) as HB.
  unfold L, free_ranges. apply (StronglySorted_flat_map _ (fun r s => rg_end r <= rg_base s)).
  - apply StronglySorted_lookup. intros i j. apply HA.
  - intros r _. unfold of_region. destruct (chosen nid r); [|constructor].
    apply (StronglySorted_flat_map _ (fun g h => g.2 <= h.1)).
    + apply StronglySorted_lookup. intros i j x y Hij Hx Hy. apply list_lookup_fmap_Some in Hx as (i' & -> & Hi), Hy as (j' & -> & Hj).
      apply lookup_seq in Hi as [-> Hi], Hj as [-> Hj]. simpl. apply gap_mono; [done|lia].
    + intros g _. unfold meets. destruct (_ && _); repeat constructor.
    + unfold meets. intros g h u v Hgh Hu Hv. destruct (_ && _); [|by apply elem_of_nil in Hu].
      destruct (_ && _); [|by apply elem_of_nil in Hv]. apply list_elem_of_singleton in Hu as ->, Hv as ->. simpl. lia.
  - intros r s u v Hrs Hu Hv. unfold of_region in *.
    assert (Hin : forall (r : region) gs x, x ∈ (if chosen nid r then flat_map (meets r) gs else []) -> rg_base r <= x.1 /\ x.2 <= rg_end r).
    { intros q gs x Hx. destruct (chosen nid q); [|by apply elem_of_nil in Hx].
      apply list_elem_of_In, in_flat_map in Hx as (g & _ & Hx). unfold meets in Hx. destruct (_ && _); [|done].
      destruct Hx as [<-|[]]. simpl. lia. }
    apply Hin in Hu, Hv. lia.
Qed.

(** A block fits when it lies in one of the ranges. *)
Lemma fits_range size align start end_ c :
  0 < size -> 0 <= start ->
  fits m size align start end_ nid c <->
  (align | c) /\ start <= c /\ c + size <= end_ /\ exists s e, (s, e) ∈ L /\ s <= c /\ c + size <= e.
Proof.
  intros Hsz Hst. split.
  - intros [Ha Hs He (r & Hr & Hch & Hb & Hbe) Hf]. split; [done|]. split; [done|]. split; [done|].
    destruct (memory_region r Hr) as (? & ? & Hre & ?).
    pose proof (Hf c ltac:(lia)) as Hc. apply gap_spec in Hc as (j & Hj & Hg); [|apply Hm|lia].
    assert (Hge : c + size <= gap_end (reserved m) j).
    { destruct (decide (c + size <= gap_end (reserved m) j)) as [|Hn]; [done|]. exfalso.
      specialize (Hf (gap_end (reserved m) j) ltac:(lia)). unfold gap_end in *.
      destruct (regions (reserved m) !! j) as [q|] eqn:Eq; [|lia].
      destruct (type_ok_region _ _ _ (mo_reserved _ Hm) Eq) as (? & ? & Hp & _).
      rewrite attr_none in Hf. apply (Hf q); [by eapply list_elem_of_lookup_2|]. unfold covers. lia. }
    eexists _, _. split; [apply elem_of_free_ranges; exists r, j|].
    + split; [done|]. split; [done|]. split; [done|]. split; [lia|]. split; [lia|done].
    + lia.
  - intros (Ha & Hs & He & s & e & Hin & H1 & H2). pose proof Hin as (r & j & Hr & Hch & Hj & G1 & G2 & [= -> ->])%elem_of_free_ranges.
    destruct (memory_region r Hr) as (? & ? & Hre & ?). split; [done..| |].
    + exists r. split; [done|]. split; [done|]. lia.
    + intros a Hac. apply (free_ranges_cover a). eexists _, _. split; [exact Hin|]. lia.
Qed.
End ranges.

(** ** The search *)

Lemma round_down_spec x k : 0 <= k <= 63 -> is_u64 x ->
  (2 ^ k | round_down x (2 ^ k)) /\ x - 2 ^ k < round_down x (2 ^ k) <= x /\ 0 <= round_down x (2 ^ k).
Proof.
  intros Hk Hx. unfold round_down. assert (0 < 2 ^ k) by (apply Z.pow_pos_nonneg; lia).
  assert (2 ^ k <= 2 ^ 63) by (apply Z.pow_le_mono_r; lia).
  rewrite (wrap_small (2 ^ k - 1)) by (unfold is_u64, ULONG_MOD in *; lia). rewrite land_not_mask by (done || lia).
  pose proof (Z.mod_pos_bound x (2 ^ k) ltac:(lia)). pose proof (Z.div_mod x (2 ^ k) ltac:(lia)) as Hd. split; [|split].
  - exists (x / 2 ^ k). lia.
  - lia.
  - pose proof (Z.div_pos x (2 ^ k)). unfold is_u64 in Hx. nia.
Qed.

Section search.
Context (size k start end_ : Z) (Hsz : 0 < size) (Hk : 0 <= k <= 63) (Hst : 0 < start <= end_) (He : is_u64 end_).

(** An aligned block within the limits and in one of the ranges *)
Definition candidate (l : list (Z * Z)) (c : Z) : Prop :=
  (2 ^ k | c) /\ start <= c /\ c + size <= end_ /\ exists s e, (s, e) ∈ l /\ s <= c /\ c + size <= e.

Definition highest_in (l : list (Z * Z)) (ret : Z) : Prop :=
  (ret <> 0 -> candidate l ret) /\ forall c, candidate l c -> c <= ret.

Lemma candidate_cons x l c : candidate (x :: l) c <-> candidate [x] c \/ candidate l c.
Proof. unfold candidate. setoid_rewrite elem_of_cons. setoid_rewrite elem_of_nil. naive_solver. Qed.

Lemma highest_skip x l ret : (forall c, ~ candidate [x] c) -> highest_in l ret -> highest_in (x :: l) ret.
Proof.
  intros Hx [H1 H2]. split.
  - intros Hr. apply candidate_cons. auto.
  - intros c [Hc|Hc]%candidate_cons; [by destruct (Hx c)|auto].
Qed.

Lemma candidate_one s e c : candidate [(s, e)] c -> (2 ^ k | c) /\ start <= c /\ c + size <= end_ /\ s <= c /\ c + size <= e.
Proof. intros (? & ? & ? & s' & e' & [= -> ->]%list_elem_of_singleton & ? & ?). auto. Qed.

(** Of a descending list of ranges *)
Lemma find_top_down_ok l :
  StronglySorted (fun x y => y.2 <= x.1) l -> highest_in l (find_top_down l start end_ size (2 ^ k)).
Proof.
  induction 1 as [|[s e] l Hl IH Hlt]; cbn [find_top_down].
  { split; [done|]. by intros c (_ & _ & _ & s & e & ?%elem_of_nil & _). }
  assert (Hend : 0 <= clamp e start end_ < ULONG_MOD) by (unfold clamp, is_u64, ULONG_MOD in *; lia).
  destruct (clamp e start end_ <? size) eqn:E1; zbool.
  { apply highest_skip; [|done]. intros c (_ & ? & ? & ? & ?)%candidate_one. unfold clamp in *. lia. }
  rewrite (wrap_small (clamp e start end_ - size)) by (unfold is_u64; lia).
  destruct (round_down_spec (clamp e start end_ - size) k Hk ltac:(unfold is_u64; lia)) as (Hd & Hr & Hp).
  set (ret := round_down _ _) in *. destruct Hd as [y Hy].
  assert (Hmax : forall c, candidate [(s, e)] c -> c <= ret /\ clamp s start end_ <= c).
  { intros c ([x ->] & ? & ? & ? & ?)%candidate_one. rewrite Hy in *.
    assert (Hx : x * 2 ^ k <= clamp e start end_ - size) by (unfold clamp; lia). split; [|unfold clamp; lia].
    assert (x < y + 1) by (apply (Z.mul_lt_mono_pos_r (2 ^ k)); lia). apply Z.mul_le_mono_nonneg_r; lia. }
  destruct (clamp s start end_ <=? ret) eqn:E2; zbool.
  - split.
    + intros _. split; [by exists y|]. unfold clamp in *. split; [lia|]. split; [lia|]. exists s, e. split; [left|lia].
    + intros c [Hc|(_ & ? & ? & s' & e' & Hin & ? & ?)]%candidate_cons; [by apply Hmax|].
      apply list_elem_of_In in Hin. rewrite List.Forall_forall in Hlt. specialize (Hlt _ Hin). simpl in Hlt. unfold clamp in *. lia.
  - apply highest_skip; [|done]. intros c Hc. apply Hmax in Hc. lia.
Qed.
End search.

(** The upper limit, where 0 is the one of memblock *)
Definition limit (m : memblock) (end_ : Z) : Z := if end_ =? MEMBLOCK_ALLOC_ACCESSIBLE then current_limit m else end_.

Lemma StronglySorted_rev {A} (R : A -> A -> Prop) l : StronglySorted R l -> StronglySorted (fun x y => R y x) (rev l).
Proof.
  induction 1 as [|x l Hl IH Hx]; simpl; [constructor|].
  assert (Hr : List.Forall (R x) (rev l)) by (apply List.Forall_rev, Hx).
  clear Hl Hx. induction IH as [|y k Hk IH Hy]; simpl; [repeat constructor|]. inversion Hr; subst. constructor; [auto|].
  apply List.Forall_app. split; [done|]. by repeat constructor.
Qed.

Lemma find_in_range_highest m size k start end_ nid :
  memblock_ok m -> 0 < size -> 0 <= k <= 63 -> is_u64 start -> is_u64 end_ ->
  highest m size (2 ^ k) (Z.max start PAGE_SIZE) (limit m end_) nid (memblock_find_in_range_node m size (2 ^ k) start end_ nid).
Proof.
  intros Hm Hsz Hk Hs He. unfold memblock_find_in_range_node, __memblock_find_range_top_down. fold (limit m end_).
  assert (Hl : is_u64 (limit m end_)) by (unfold limit; destruct (_ =? _); [apply Hm|done]).
  set (st := Z.max start PAGE_SIZE). assert (Hst : is_u64 st /\ 0 < st) by (assert (PAGE_SIZE = 4096) by done; unfold st, is_u64, ULONG_MOD in *; lia).
  rewrite backward_ranges by done.
  destruct (find_top_down_ok size k st (Z.max st (limit m end_)) Hsz Hk ltac:(lia) ltac:(unfold is_u64 in *; lia)
    (rev (free_ranges nid (memory m) (reserved m)))) as [H1 H2].
  { apply (StronglySorted_rev (fun x y => x.2 <= y.1)). by apply free_ranges_sorted. }
  assert (Heq : forall c, candidate size k st (Z.max st (limit m end_)) (rev (free_ranges nid (memory m) (reserved m))) c <->
    fits m size (2 ^ k) st (limit m end_) nid c).
  { intros c. rewrite fits_range by (done || lia). unfold candidate. setoid_rewrite list_elem_of_In. setoid_rewrite <- in_rev.
    split; intros (? & ? & ? & ?); (split; [done|]); (split; [lia|]); split; try lia; done. }
  split; [intros Hr; by apply Heq, H1|]. intros c Hc. by apply H2, Heq.
Qed.

(** ** Allocation *)

Definition align_of (align : Z) : Z := if align =? 0 then L1_CACHE_BYTES else align.
Definition align_ok (align : Z) : Prop := align = 0 \/ exists k, 0 <= k <= 63 /\ align = 2 ^ k.

Lemma align_of_pow align : align_ok align -> exists k, 0 <= k <= 63 /\ align_of align = 2 ^ k.
Proof.
  intros [->|(k & Hk & ->)]; [by exists 6|]. exists k. split; [done|]. unfold align_of.
  by rewrite (proj2 (Z.eqb_neq _ _)) by (pose proof (Z.pow_pos_nonneg 2 k); lia).
Qed.

(** The block is reserved now, and nothing else is changed. *)
Record taken (m m' : memblock) (base size : Z) : Prop := Taken {
  tk_ok : memblock_ok m';
  tk_limit : current_limit m' = current_limit m;
  tk_memory : memory m' = memory m;
  tk_reserved a : attr_at (regions (reserved m')) a =
    if (base <=? a) && (a <? base + size) then Some (MAX_NUMNODES, 0) else attr_at (regions (reserved m)) a
}.

(** The array of the reserved regions is full. *)
Definition no_room (m : memblock) (base size : Z) : Prop :=
  (INIT_MEMBLOCK_REGIONS < length (fill (base + size) MAX_NUMNODES 0 base (regions (reserved m))))%nat.

Lemma reserve_block m size align start end_ nid base :
  memblock_ok m -> 0 < size -> 0 <= start -> fits m size align start end_ nid base ->
  match memblock_reserve m base size with
  | None => no_room m base size
  | Some (m', ret) => ret = 0 /\ taken m m' base size
  end.
Proof.
  intros Hm Hsz Hst [_ Hs _ (r & Hr & _ & Hb & Hbe) Hf]. destruct (memory_region m Hm r Hr) as (? & ? & Hre & ?).
  unfold memblock_reserve, no_room.
  pose proof (memblock_add_range_ok (reserved m) base size MAX_NUMNODES 0 (mo_reserved _ Hm)) as Had.
  assert (Hc : cap_end base size = base + size) by (unfold cap_end, memblock_cap_size, ULLONG_MAX, ULONG_MOD in *; lia).
  rewrite Hc in Had. specialize (Had ltac:(unfold is_u64, ULLONG_MAX, ULONG_MOD in *; lia) ltac:(unfold is_u64, ULLONG_MAX, ULONG_MOD in *; lia)).
  destruct (memblock_add_range _ _ _ _ _) as [[t' ret]|]; [|done]. cbn [mbind option_bind]. destruct Had as (-> & Ht & _ & Ha).
  split; [done|]. split; [|done..|].
  - split; [apply Hm|done|apply Hm].
  - intros a. cbn [reserved]. rewrite Ha. unfold added. destruct ((base <=? a) && (a <? base + size)) eqn:E; zbool.
    + by rewrite Hf by lia.
    + by destruct (attr_at _ a).
Qed.

(** [memblock_alloc_range_nid]: the highest block that fits is reserved. *)
Lemma alloc_range_nid_ok m size align start end_ nid :
  memblock_ok m -> 0 < size -> align_ok align -> is_u64 start -> is_u64 end_ ->
  exists base, highest m size (align_of align) (Z.max start PAGE_SIZE) (limit m end_) nid base /\
  match memblock_alloc_range_nid m size align start end_ nid with
  | None => base <> 0 /\ no_room m base size
  | Some (ret, m') => ret = base /\ if base =? 0 then m' = m else taken m m' base size
  end.
Proof.
  intros Hm Hsz Hal Hs He. unfold memblock_alloc_range_nid. fold (align_of align). destruct (align_of_pow align Hal) as (k & Hk & ->).
  pose proof (find_in_range_highest m size k start end_ nid Hm Hsz Hk Hs He) as Hh. set (base := memblock_find_in_range_node _ _ _ _ _ _) in *.
  exists base. split; [done|]. destruct (base =? 0) eqn:E0; zbool; [done|]. destruct Hh as [Hf _].
  pose proof (reserve_block _ _ _ (Z.max start PAGE_SIZE) _ _ _ Hm Hsz ltac:(unfold is_u64 in Hs; lia) (Hf E0)) as H.
  destruct (memblock_reserve m base size) as [[m' ret]|]; [|done]. destruct H as [-> H]. done.
Qed.

(** The first of several searches, by lower bound and node, that finds a block *)
Fixpoint first_fit (m : memblock) (size align end_ : Z) (l : list (Z * Z)) (ret : Z) : Prop :=
  match l with
  | [] => ret = 0
  | (start, nid) :: l =>
      (ret <> 0 /\ highest m size align start end_ nid ret) \/
      ((forall c, ~ fits m size align start end_ nid c) /\ first_fit m size align end_ l ret)
  end.

Definition attempts (min_addr nid : Z) : list (Z * Z) :=
  (Z.max min_addr PAGE_SIZE, nid) :: if nid =? NUMA_NO_NODE then [] else [(Z.max min_addr PAGE_SIZE, NUMA_NO_NODE)].

Lemma first_fit_app m size align end_ l k ret :
  first_fit m size align end_ l ret -> (ret = 0 -> first_fit m size align end_ k ret) -> first_fit m size align end_ (l ++ k) ret.
Proof. induction l as [|[start nid] l IH]; simpl; [auto|]. naive_solver. Qed.

Lemma first_fit_failed m size align end_ l k ret :
  first_fit m size align end_ l 0 -> first_fit m size align end_ k ret -> first_fit m size align end_ (l ++ k) ret.
Proof. induction l as [|[start nid] l IH]; simpl; [auto|]. naive_solver. Qed.

Lemma no_fit m size align start end_ nid :
  0 < start -> highest m size align start end_ nid 0 -> forall c, ~ fits m size align start end_ nid c.
Proof. intros Hs [_ H] c Hc. pose proof (H _ Hc). destruct Hc. lia. Qed.

Lemma try_first_fit m size k min_addr end_ nid :
  memblock_ok m -> 0 < size -> 0 <= k <= 63 -> is_u64 min_addr -> is_u64 end_ ->
  first_fit m size (2 ^ k) (limit m end_) (attempts min_addr nid)
    (let alloc := memblock_find_in_range_node m size (2 ^ k) min_addr end_ nid in
     if negb (alloc =? 0) then alloc
     else if negb (nid =? NUMA_NO_NODE) then memblock_find_in_range_node m size (2 ^ k) min_addr end_ NUMA_NO_NODE
     else 0).
Proof.
  intros Hm Hsz Hk Hs He. cbn zeta.
  assert (Hp : 0 < Z.max min_addr PAGE_SIZE) by (assert (PAGE_SIZE = 4096) by done; lia).
  assert (Hfind : forall n, let r := memblock_find_in_range_node m size (2 ^ k) min_addr end_ n in
    (r <> 0 /\ highest m size (2 ^ k) (Z.max min_addr PAGE_SIZE) (limit m end_) n r) \/
    (r = 0 /\ forall c, ~ fits m size (2 ^ k) (Z.max min_addr PAGE_SIZE) (limit m end_) n c)).
  { intros n. cbn zeta. pose proof (find_in_range_highest m size k min_addr end_ n Hm Hsz Hk Hs He) as Hh.
    destruct (decide (memblock_find_in_range_node m size (2 ^ k) min_addr end_ n = 0)) as [E|E]; [right|by left].
    split; [done|]. apply no_fit; [done|]. by rewrite E in Hh. }
  unfold attempts. cbn [first_fit].
  destruct (Hfind nid) as [[E H]|[E H]].
  { rewrite (proj2 (Z.eqb_neq _ _) E). left. done. }
  rewrite E. simpl. right. split; [done|]. destruct (nid =? NUMA_NO_NODE); simpl; [done|].
  destruct (Hfind NUMA_NO_NODE) as [?|[E' H']]; [by left|]. right. by rewrite E'.
Qed.

(** The searches of [memblock_virt_alloc_internal], in order *)
Definition virt_attempts (min_addr nid : Z) : list (Z * Z) :=
  attempts min_addr nid ++ if min_addr =? 0 then [] else attempts 0 nid.

Lemma first_fit_fits m size align end_ l ret : first_fit m size align end_ l ret -> ret <> 0 ->
  exists start nid, (start, nid) ∈ l /\ fits m size align start end_ nid ret.
Proof.
  induction l as [|[start nid] l IH]; simpl; [done|]. intros [[_ [H _]]|[_ H]] Hr.
  - exists start, nid. split; [left|auto].
  - destruct (IH H Hr) as (s & n & ? & ?). exists s, n. split; [by right|done].
Qed.

Lemma virt_alloc_ok m size align min_addr max_addr nid :
  memblock_ok m -> 0 < size -> align_ok align -> is_u64 min_addr -> is_u64 max_addr -> nid <> MAX_NUMNODES ->
  exists base, first_fit m size (align_of align) (limit m (Z.min max_addr (current_limit m))) (virt_attempts min_addr nid) base /\
  match memblock_virt_alloc_internal m size align min_addr max_addr nid with
  | None => base <> 0 /\ no_room m base size
  | Some (ret, m') => ret = base /\ if base =? 0 then m' = m else taken m m' base size
  end.
Proof.
  intros Hm Hsz Hal Hs He Hn. unfold memblock_virt_alloc_internal. rewrite (proj2 (Z.eqb_neq _ _) Hn). fold (align_of align).
  destruct (align_of_pow align Hal) as (k & Hk & ->). cbn zeta. set (end_ := Z.min max_addr (current_limit m)).
  assert (Hend : is_u64 end_) by (pose proof (mo_limit _ Hm); unfold end_, is_u64 in *; lia).
  pose proof (try_first_fit m size k min_addr end_ nid Hm Hsz Hk Hs Hend) as H1.
  pose proof (try_first_fit m size k 0 end_ nid Hm Hsz Hk ltac:(done) Hend) as H2. cbn zeta in H1, H2.
  set (r1 := if negb (memblock_find_in_range_node m size (2 ^ k) min_addr end_ nid =? 0) then _ else _) in *.
  set (r2 := if negb (memblock_find_in_range_node m size (2 ^ k) 0 end_ nid =? 0) then _ else _) in *.
  set (base := if negb (r1 =? 0) then r1 else _).
  assert (Hff : first_fit m size (2 ^ k) (limit m end_) (virt_attempts min_addr nid) base).
  { unfold base, virt_attempts. destruct (r1 =? 0) eqn:E1; cbn [negb]; zbool.
    - rewrite E1 in H1. destruct (min_addr =? 0); cbn [negb]; [by rewrite app_nil_r|]. by apply first_fit_failed.
    - by apply first_fit_app. }
  exists base. split; [done|]. destruct (base =? 0) eqn:E0; zbool; [done|].
  destruct (first_fit_fits _ _ _ _ _ _ Hff E0) as (s & n & Hin & Hf).
  assert (Hs0 : 0 <= s).
  { unfold virt_attempts, attempts in Hin. assert (PAGE_SIZE = 4096) by done. unfold is_u64 in Hs.
    destruct (nid =? NUMA_NO_NODE), (min_addr =? 0); simpl in Hin; repeat (apply elem_of_cons in Hin as [[= -> ->]|Hin]; [lia|]);
    by apply elem_of_nil in Hin. }
  pose proof (reserve_block _ _ _ _ _ _ _ Hm Hsz Hs0 Hf) as H.
  destruct (memblock_reserve m base size) as [[m' ret]|]; [|done]. by destruct H as [_ H].
Qed.

(** ** Queries and trimming

    [memblock_search] is a binary search, and finds the region of an address;
    [memblock_is_region_memory] and [memblock_is_region_reserved] answer from the regions.
    [memblock_trim_memory] keeps the aligned blocks that lie within one region. *)

(** ** The binary search *)

Definition found (t : memblock_type) (addr : Z) (res : option nat) : Prop :=
  match res with
  | Some i => exists r, regions t !! i = Some r /\ rg_base r <= addr < rg_end r
  | None => forall i r, regions t !! i = Some r -> ~ rg_base r <= addr < rg_end r
  end.

Lemma search_loop_ok n t addr left right :
  sorted t -> (left < right <= cnt t)%nat -> (right - left <= n)%nat ->
  (forall i r, (i < left)%nat -> regions t !! i = Some r -> rg_end r <= addr) ->
  (forall i r, (right <= i)%nat -> regions t !! i = Some r -> addr < rg_base r) ->
  exists res, search_loop n t addr left right = Some res /\ found t addr res.
Proof.
  intros Ht. revert left right. induction n as [|n IH]; intros left right Hlr Hn Hl Hr; [lia|]. cbn [search_loop].
  pose proof (Nat.div_mod_eq (right + left) 2). pose proof (Nat.mod_upper_bound (right + left) 2 ltac:(lia)).
  set (mid := Nat.div (right + left) 2) in *. destruct (lookup_lt_is_Some_2 (regions t) mid) as [r E]; [unfold cnt in *; lia|].
  rewrite E. cbn [mbind option_bind].
  assert (Hnone : forall l', (l' <= l')%nat -> (forall i r, (i < l')%nat -> regions t !! i = Some r -> rg_end r <= addr) ->
    (forall i r, (l' <= i)%nat -> regions t !! i = Some r -> addr < rg_base r) -> found t addr None).
  { intros l' _ H1 H2 i r' Hi ?. destruct (decide (i < l')%nat) as [Hlt|Hge]; [specialize (H1 i r' Hlt Hi)|specialize (H2 i r' ltac:(lia) Hi)]; lia. }
  destruct (addr <? rg_base r) eqn:E1; zbool; [|destruct (rg_end r <=? addr) eqn:E2; zbool].
  - assert (Hm : forall i r', (mid <= i)%nat -> regions t !! i = Some r' -> addr < rg_base r').
    { intros i r' Hi Hr'. destruct (decide (i = mid)) as [->|]; [by simplify_eq|].
      pose proof (so_next _ Ht mid i _ _ ltac:(lia) E Hr'). destruct (so_region _ Ht _ _ E). lia. }
    destruct (left <? mid)%nat eqn:E3; [apply Nat.ltb_lt in E3; apply IH; (done || lia)|]. apply Nat.ltb_ge in E3.
    exists None. split; [done|]. apply (Hnone left); [done..|]. intros i r' Hi. apply Hm. lia.
  - assert (Hm : forall i r', (i < S mid)%nat -> regions t !! i = Some r' -> rg_end r' <= addr).
    { intros i r' Hi Hr'. destruct (decide (i = mid)) as [->|]; [by simplify_eq|].
      pose proof (so_next _ Ht i mid _ _ ltac:(lia) Hr' E). destruct (so_region _ Ht _ _ E). lia. }
    destruct (S mid <? right)%nat eqn:E3; [apply Nat.ltb_lt in E3; apply IH; (done || lia)|]. apply Nat.ltb_ge in E3.
    exists None. split; [done|]. apply (Hnone (S mid)); [done..|]. intros i r' Hi. apply Hr. lia.
  - exists (Some mid). split; [done|]. by exists r.
Qed.

Lemma memblock_search_ok t addr :
  type_ok t -> exists res, memblock_search t addr = Some res /\ found t addr res.
Proof.
  intros Ht. unfold memblock_search. apply search_loop_ok; [by apply type_ok_sorted| |lia|lia|].
  - split; [|done]. unfold cnt. destruct Ht as [_ _ [(nid & ->)|[Hne _]]]; [simpl; lia|]. destruct (regions t); [done|simpl; lia].
  - intros i r Hi E. apply lookup_lt_Some in E. unfold cnt in Hi. lia.
Qed.

(** The whole range is in one region of memory. *)
Lemma is_region_memory_ok m base size :
  memblock_ok m -> is_u64 base -> is_u64 size ->
  exists b, memblock_is_region_memory m base size = Some b /\
    (b = true <-> exists r, r ∈ regions (memory m) /\ covers r base /\ cap_end base size <= rg_base r + rg_size r).
Proof.
  intros Hm Hb Hs. unfold memblock_is_region_memory. destruct (cap_end_range base size Hb Hs) as [_ ->].
  destruct (memblock_search_ok (memory m) base (mo_memory _ Hm)) as (res & -> & Hf). cbn [mbind option_bind].
  destruct res as [i|].
  - destruct Hf as (r & E & Hr). rewrite E. cbn [mbind option_bind]. eexists. split; [done|].
    destruct (type_ok_region _ _ _ (mo_memory _ Hm) E) as (? & ? & _ & He & _).
    rewrite andb_true_iff, !Z.leb_le. unfold covers. split.
    + intros [? ?]. exists r. split; [by eapply list_elem_of_lookup_2|]. lia.
    + intros (r' & [j E']%list_elem_of_lookup & Hc & Hle). destruct (type_ok_region _ _ _ (mo_memory _ Hm) E') as (? & ? & _ & He' & _).
      pose proof (type_ok_sorted _ (mo_memory _ Hm)) as Hso. destruct (lt_eq_lt_dec i j) as [[Hlt|<-]|Hlt].
      * pose proof (so_next _ Hso _ _ _ _ Hlt E E'). lia.
      * simplify_eq. lia.
      * pose proof (so_next _ Hso _ _ _ _ Hlt E' E). lia.
  - eexists. split; [done|]. split; [done|]. intros (r & [j E]%list_elem_of_lookup & Hc & _). exfalso. apply (Hf j r E).
    destruct (type_ok_region _ _ _ (mo_memory _ Hm) E) as (? & ? & _ & -> & _). done.
Qed.

(** An address of the range, which is not empty, is reserved. *)
Lemma is_region_reserved_ok m base size :
  memblock_ok m -> is_u64 base -> is_u64 size -> base < cap_end base size ->
  memblock_is_region_reserved m base size = true <->
  exists a, base <= a < cap_end base size /\ attr_at (regions (reserved m)) a <> None.
Proof.
  intros Hm Hb Hs Hlt. unfold memblock_is_region_reserved, memblock_overlaps_region. rewrite existsb_exists.
  destruct (cap_end_range base size Hb Hs) as [_ Hw]. split.
  - intros (r & Hr & Ho). apply list_elem_of_In in Hr. pose proof Hr as [j E]%list_elem_of_lookup.
    destruct (type_ok_region _ _ _ (mo_reserved _ Hm) E) as (? & ? & ? & He & _).
    unfold memblock_addrs_overlap in Ho. rewrite Hw in Ho. fold (rg_end r) in Ho. zbool.
    exists (Z.max base (rg_base r)). split; [lia|]. rewrite attr_none. intros H'. apply (H' r Hr). unfold covers, is_u64 in *. lia.
  - intros (a & Ha & Hat). destruct (existsb (fun r => (rg_base r <=? a) && (a <? rg_base r + rg_size r)) (regions (reserved m))) eqn:Ex.
    + apply existsb_exists in Ex as (r & Hr & E). zbool. exists r. split; [done|]. apply list_elem_of_In, list_elem_of_lookup in Hr as [j Hj].
      destruct (type_ok_region _ _ _ (mo_reserved _ Hm) Hj) as (? & ? & ? & He & _).
      unfold memblock_addrs_overlap. rewrite Hw. fold (rg_end r). rewrite andb_true_iff, !Z.ltb_lt. lia.
    + destruct Hat. apply attr_none. intros r Hr Hc. apply list_elem_of_In in Hr.
      assert (existsb (fun r => (rg_base r <=? a) && (a <? rg_base r + rg_size r)) (regions (reserved m)) = true); [|congruence].
      apply existsb_exists. exists r. split; [done|]. unfold covers in Hc. rewrite andb_true_iff, Z.leb_le, Z.ltb_lt. lia.
Qed.

(** ** Trimming *)

Lemma lor_mask y k : 0 <= k -> Z.lor y (2 ^ k - 1) = (y / 2 ^ k + 1) * 2 ^ k - 1.
Proof.
  intros Hk. assert (0 < 2 ^ k) by (apply Z.pow_pos_nonneg; lia).
  replace (2 ^ k - 1) with (Z.ones k) by (rewrite Z.ones_equiv; lia).
  assert (E : Z.lor y (Z.ones k) = Z.ldiff y (Z.ones k) + Z.ones k).
  { rewrite Z.add_nocarry_lxor.
    - apply Z.bits_inj'. intros i Hi. rewrite Z.lor_spec, Z.lxor_spec, Z.ldiff_spec. by destruct (Z.testbit y i), (Z.testbit (Z.ones k) i).
    - apply Z.bits_inj'. intros i Hi. rewrite Z.land_spec, Z.ldiff_spec, Z.bits_0. by destruct (Z.testbit y i), (Z.testbit (Z.ones k) i). }
  rewrite E, Z.ldiff_ones_r, Z.shiftl_mul_pow2, Z.shiftr_div_pow2, Z.ones_equiv by lia. lia.
Qed.

Lemma round_up_spec x k : 0 <= k <= 63 -> 0 <= x -> x + 2 ^ k <= ULONG_MOD ->
  (2 ^ k | round_up x (2 ^ k)) /\ x <= round_up x (2 ^ k) < x + 2 ^ k.
Proof.
  intros Hk Hx Hle. assert (0 < 2 ^ k) by (apply Z.pow_pos_nonneg; lia). assert (2 ^ k <= 2 ^ 63) by (apply Z.pow_le_mono_r; lia).
  unfold round_up. rewrite (wrap_small (2 ^ k - 1)) by (unfold is_u64, ULONG_MOD; lia). rewrite lor_mask by lia.
  rewrite Z.sub_add. set (q := (x -u 1) / 2 ^ k + 1).
  assert (Hq : (q * 2 ^ k) mod ULONG_MOD = ((x - 1) / 2 ^ k + 1) * 2 ^ k).
  { unfold q. destruct (decide (x = 0)) as [->|Hn].
    - change (0 -u 1) with (ULONG_MOD - 1). change (0 - 1) with (-1).
      assert (Hu : ULONG_MOD = 2 ^ (64 - k) * 2 ^ k) by (rewrite <- Z.pow_add_r by lia; by replace (64 - k + k) with 64 by lia).
      rewrite Hu at 1. replace (2 ^ (64 - k) * 2 ^ k - 1) with (-1 + 2 ^ (64 - k) * 2 ^ k) by lia. rewrite Z.div_add by lia.
      replace (-1 / 2 ^ k) with (-1) by (apply Z.div_unique_pos with (r := 2 ^ k - 1); lia).
      replace ((-1 + 2 ^ (64 - k) + 1) * 2 ^ k) with ULONG_MOD by lia. rewrite Z.mod_same by done. lia.
    - rewrite (wrap_small (x - 1)) by (unfold is_u64; lia). apply Z.mod_small.
      pose proof (Z.div_mod (x - 1) (2 ^ k) ltac:(lia)). pose proof (Z.mod_pos_bound (x - 1) (2 ^ k) ltac:(lia)).
      assert (Hu : ULONG_MOD = 2 ^ (64 - k) * 2 ^ k) by (rewrite <- Z.pow_add_r by lia; by replace (64 - k + k) with 64 by lia).
      nia. }
  unfold wrap. rewrite Hq. split; [by eexists|].
  pose proof (Z.div_mod (x - 1) (2 ^ k) ltac:(lia)). pose proof (Z.mod_pos_bound (x - 1) (2 ^ k) ltac:(lia)). lia.
Qed.

Section trim.
Context (k : Z) (Hk : 0 <= k <= 63).

Definition trim1 (r : region) : list region :=
  let start := round_up (rg_base r) (2 ^ k) in
  let end_ := round_down (rg_end r) (2 ^ k) in
  if start <? end_ then [Region start (end_ - start) (rg_flags r) (rg_nid r)] else [].

(** Regions that rounding up does not overflow *)
Definition low (r : region) : Prop := rg_base r + rg_size r + 2 ^ k <= ULONG_MOD.

(** What rounding does to a region *)
Lemma trim1_spec r : 0 <= rg_base r -> 0 < rg_size r -> low r ->
  let start := round_up (rg_base r) (2 ^ k) in
  let end_ := round_down (rg_end r) (2 ^ k) in
  rg_end r = rg_base r + rg_size r /\ rg_base r <= start /\ 0 <= end_ <= rg_base r + rg_size r /\
  (forall a, start <= a < end_ <-> rg_base r <= a - a mod 2 ^ k /\ a - a mod 2 ^ k + 2 ^ k <= rg_base r + rg_size r).
Proof.
  unfold low. intros H1 H2 H3. assert (0 < 2 ^ k) by (apply Z.pow_pos_nonneg; lia).
  destruct (round_up_spec (rg_base r) k Hk H1 ltac:(lia)) as [[x Ex] Hu].
  assert (He : rg_end r = rg_base r + rg_size r) by (apply wrap_small; unfold is_u64; lia). rewrite He.
  destruct (round_down_spec (rg_base r + rg_size r) k Hk ltac:(unfold is_u64; lia)) as ([y Ey] & Hd & Hp).
  cbn zeta. rewrite Ex, Ey in *. split; [done|]. split; [lia|]. split; [lia|]. intros a.
  pose proof (Z.div_mod a (2 ^ k) ltac:(lia)) as Hdm. pose proof (Z.mod_pos_bound a (2 ^ k) ltac:(lia)).
  set (q := a / 2 ^ k) in *. replace (a - a mod 2 ^ k) with (q * 2 ^ k) by lia. split; intros [? ?].
  - assert (x <= q) by nia. assert (q < y) by nia. nia.
  - assert (x <= q) by nia. assert (q < y) by nia. nia.
Qed.

Definition or_dummy (l : list region) : list region := match l with [] => [dummy MAX_NUMNODES] | _ => l end.

Lemma trim_loop_dummy n nid total : trim_loop (S n) 0 (2 ^ k) (Mtype [dummy nid] total) = Some (Mtype [dummy nid] total).
Proof.
  assert (Hp : 0 < 2 ^ k <= 2 ^ 63) by (split; [apply Z.pow_pos_nonneg|apply Z.pow_le_mono_r]; lia).
  destruct (round_up_spec 0 k Hk ltac:(lia) ltac:(unfold ULONG_MOD; lia)) as [[x Ex] Hu].
  destruct (round_down_spec 0 k Hk ltac:(done)) as (_ & Hd & Hd0). cbn [trim_loop regions lookup list_lookup].
  change (rg_base (dummy nid)) with 0. change (rg_end (dummy nid)) with 0.
  assert (x = 0) by nia. replace (round_up 0 (2 ^ k)) with 0 by lia. replace (round_down 0 (2 ^ k)) with 0 by lia. simpl. by destruct n.
Qed.

Lemma trim_loop_ok n P l lo total :
  is_u64 total -> (length l + 2 <= n)%nat -> 0 <= lo -> chain lo l -> Forall low l -> l <> [] \/ P <> [] ->
  exists total', is_u64 total' /\ trim_loop n (length P) (2 ^ k) (Mtype (P ++ l) total) =
    Some (Mtype (or_dummy (P ++ flat_map trim1 l)) total').
Proof.
  revert P l lo total. induction n as [|n IH]; intros P l lo total Ht Hn Hlo Hc Hl Hne; [lia|].
  destruct l as [|r l].
  { simpl. rewrite app_nil_r. rewrite (lookup_ge_None_2 P) by done. exists total. split; [done|]. destruct Hne as [?|?]; [done|]. by destruct P. }
  cbn [trim_loop regions total_size]. rewrite list_lookup_middle by done.
  destruct Hc as (H1 & H2 & H3 & H4). apply list.Forall_cons in Hl as [Hr Hl].
  destruct (trim1_spec r ltac:(lia) H2 Hr) as (He & Hs & Hd & _). cbn [flat_map]. unfold trim1 at 1.
  set (start := round_up _ _) in *. set (end_ := round_down _ _) in *. simpl in Hn.
  assert (Hnext : forall x, exists total', is_u64 total' /\ trim_loop n (S (length P)) (2 ^ k) (Mtype (P ++ x :: l) total) =
    Some (Mtype (or_dummy (P ++ [x] ++ flat_map trim1 l)) total')).
  { intros x. destruct (IH (P ++ [x]) l (rg_base r + rg_size r) total Ht ltac:(lia) ltac:(lia) H4 Hl) as (tot' & ? & E).
    - right. by destruct P.
    - rewrite length_app, Nat.add_1_r, <- !app_assoc in E. by exists tot'. }
  destruct ((start =? rg_base r) && (end_ =? rg_end r)) eqn:Es; zbool.
  { rewrite (proj2 (Z.ltb_lt start end_)) by lia. destruct (Hnext r) as (tot & ? & E). exists tot. split; [done|]. rewrite E.
    replace (Region start (end_ - start) (rg_flags r) (rg_nid r)) with r; [done|]. destruct r; simpl in *. f_equal; lia. }
  destruct (start <? end_) eqn:E1; zbool.
  - rewrite insert_middle, sub_u64 by (unfold ULLONG_MAX, low in *; lia). apply Hnext.
  - unfold memblock_remove_region. cbn [regions total_size]. rewrite list_lookup_middle by done. cbn [mbind option_bind].
    rewrite delete_middle. destruct (decide (P ++ l = [])) as [En|En].
    + apply app_eq_nil in En as [-> ->]. simpl. exists (total -u rg_size r). split; [apply wrap_range|].
      destruct n as [|n]; [lia|]. apply trim_loop_dummy.
    + replace (match P ++ l with [] => [dummy MAX_NUMNODES] | _ => P ++ l end) with (P ++ l) by (by destruct (P ++ l)).
      apply (IH P l (rg_base r + rg_size r)); [apply wrap_range|lia|lia|done|done|]. destruct l; [right|by left]. by rewrite app_nil_r in En.
Qed.

Lemma trim1_cases r : trim1 r = [] \/ exists r', trim1 r = [r'] /\ rg_attr r' = rg_attr r /\ 0 < rg_size r' /\
  rg_base r' = round_up (rg_base r) (2 ^ k) /\ rg_base r' + rg_size r' = round_down (rg_end r) (2 ^ k).
Proof.
  unfold trim1. cbn zeta. destruct (_ <? _) eqn:E; zbool; [|by left]. right. eexists. split; [done|]. simpl. split; [done|]. lia.
Qed.

Lemma trim_chain lo l : 0 <= lo -> chain lo l -> Forall low l -> chain lo (flat_map trim1 l).
Proof.
  revert lo. induction l as [|r l IH]; intros lo Hlo; [done|]. intros (H1 & H2 & H3 & H4) [Hr Hl]%list.Forall_cons. simpl.
  specialize (IH (rg_base r + rg_size r) ltac:(lia) H4 Hl). destruct (trim1_spec r ltac:(lia) H2 Hr) as (_ & Hs & Hd & _).
  destruct (trim1_cases r) as [->|(r' & -> & _ & Hp & E1 & E2)]; simpl.
  - eapply chain_le; [|exact IH]. lia.
  - split; [lia|]. split; [lia|]. split; [lia|]. eapply chain_le; [|exact IH]. lia.
Qed.

Lemma trim_minimal lo l : 0 <= lo -> chain lo l -> Forall low l -> minimal (fun _ => False) l -> minimal (fun _ => False) (flat_map trim1 l).
Proof.
  revert lo. induction l as [|r l IH]; intros lo Hlo; [done|]. intros (H1 & H2 & H3 & H4) [Hr Hl]%list.Forall_cons Hm.
  assert (Hml : minimal (fun _ => False) l) by (destruct l; [done|apply Hm]).
  specialize (IH (rg_base r + rg_size r) ltac:(lia) H4 Hl Hml). simpl. destruct (trim1_spec r ltac:(lia) H2 Hr) as (_ & Hs & Hd & _).
  destruct (trim1_cases r) as [->|(r' & -> & Ha & Hp & E1 & E2)]; [done|]. simpl.
  destruct (flat_map trim1 l) as [|h t] eqn:Ef; [done|]. split; [|done]. intros Et Eat.
  destruct l as [|s l]; [done|]. destruct H4 as (S1 & S2 & S3 & S4). apply list.Forall_cons in Hl as [Hs' Hl].
  destruct (trim1_spec s ltac:(lia) S2 Hs') as (_ & Ss & _). simpl in Ef.
  pose proof (trim_chain (rg_base s + rg_size s) l ltac:(lia) S4 Hl) as Hc.
  destruct (trim1_cases s) as [Es|(s' & Es & Has & Hps & F1 & F2)]; rewrite Es in Ef; simpl in Ef.
  - rewrite Ef in Hc. destruct Hc as [Hc _]. lia.
  - injection Ef as -> _. destruct Hm as [Hm _]. apply Hm; [lia|congruence].
Qed.

Lemma trim_length l : (length (flat_map trim1 l) <= length l)%nat.
Proof. induction l as [|r l IH]; simpl; [done|]. rewrite length_app. destruct (trim1_cases r) as [->|(r' & -> & _)]; simpl; lia. Qed.

Lemma trim_attr l a x : chain 0 l -> Forall low l ->
  attr_at (flat_map trim1 l) a = Some x <->
  exists r, r ∈ l /\ rg_attr r = x /\ rg_base r <= a - a mod 2 ^ k /\ a - a mod 2 ^ k + 2 ^ k <= rg_base r + rg_size r.
Proof.
  intros Hc Hl. rewrite (attr_at_spec _ a 0 x (trim_chain 0 l ltac:(lia) Hc Hl)). unfold covers.
  assert (Hin : forall r, r ∈ l -> 0 <= rg_base r /\ 0 < rg_size r /\ low r).
  { intros r Hr. pose proof Hr as [i Hi]%list_elem_of_lookup. destruct (chain_lookup _ _ _ _ Hc Hi) as (? & ? & _).
    rewrite list.Forall_forall in Hl. auto. }
  setoid_rewrite list_elem_of_In. setoid_rewrite in_flat_map. setoid_rewrite <- list_elem_of_In. split.
  - intros (r' & (r & Hr & Hr') & Hcov & Ha). destruct (Hin r Hr) as (I1 & I2 & I3). destruct (trim1_spec r I1 I2 I3) as (_ & _ & _ & Hsp).
    destruct (trim1_cases r) as [E|(r'' & E & Ea & Hp & E1 & E2)]; rewrite E in Hr'; [by apply elem_of_nil in Hr'|].
    apply list_elem_of_singleton in Hr' as ->. exists r. split; [done|]. split; [congruence|]. apply Hsp. lia.
  - intros (r & Hr & Ha & Hb). destruct (Hin r Hr) as (I1 & I2 & I3). destruct (trim1_spec r I1 I2 I3) as (_ & _ & _ & Hsp).
    apply Hsp in Hb. destruct (trim1_cases r) as [E|(r' & E & Ea & Hp & E1 & E2)].
    + unfold trim1 in E. cbn zeta in E. rewrite (proj2 (Z.ltb_lt _ _)) in E by lia. done.
    + exists r'. split; [exists r; split; [done|]; rewrite E; by left|]. split; [lia|congruence].
Qed.

(** [memblock_trim_memory]: an address stays when the aligned block around it is within
    its region. *)
Lemma trim_memory_ok m :
  memblock_ok m -> Forall low (regions (memory m)) ->
  exists m', memblock_trim_memory m (2 ^ k) = Some m' /\ memblock_ok m' /\ reserved m' = reserved m /\
    current_limit m' = current_limit m /\
    forall a x, attr_at (regions (memory m')) a = Some x <->
      exists r, r ∈ regions (memory m) /\ rg_attr r = x /\
        rg_base r <= a - a mod 2 ^ k /\ a - a mod 2 ^ k + 2 ^ k <= rg_base r + rg_size r.
Proof.
  intros [Hmem Hres Hlim] Hl. unfold memblock_trim_memory. destruct (memory m) as [l total] eqn:Em. cbn [regions] in *.
  destruct Hmem as [Hcnt Htot [(nid & E)|[Hne [Hc Hmin]]]]; cbn [regions total_size] in *.
  - subst l. rewrite trim_loop_dummy. cbn [mbind option_bind]. eexists. split; [done|]. split; [|split; [done|split; [done|]]].
    + split; [|done..]. split; [done..|]. left. by exists nid.
    + intros a x. cbn [memory regions]. rewrite dummy_attr. split; [done|].
      intros (r & ->%list_elem_of_singleton & _ & H1 & H2). simpl in *. pose proof (Z.pow_pos_nonneg 2 k). lia.
  - destruct (trim_loop_ok (S (S (length l))) [] l 0 total Htot ltac:(lia) ltac:(lia) Hc Hl (or_introl Hne)) as (total' & Ht' & E).
    unfold cnt. cbn [regions app length] in *. rewrite E. cbn [mbind option_bind]. eexists. split; [done|].
    assert (Hat : forall a, attr_at (or_dummy (flat_map trim1 l)) a = attr_at (flat_map trim1 l) a).
    { intros a. unfold or_dummy. destruct (flat_map trim1 l); [apply dummy_attr|done]. }
    split; [|split; [done|split; [done|]]].
    + split; [|done..]. pose proof (trim_chain 0 l ltac:(lia) Hc Hl) as Hc'. pose proof (trim_minimal 0 l ltac:(lia) Hc Hl Hmin) as Hm'.
      pose proof (trim_length l). split; cbn [memory total_size regions]; [|done|].
      * unfold cnt in *. cbn [regions] in *. unfold or_dummy. destruct (flat_map trim1 l); simpl in *; [unfold INIT_MEMBLOCK_REGIONS|]; lia.
      * unfold or_dummy. destruct (flat_map trim1 l); [left; by eexists|by right].
    + intros a x. cbn [memory regions]. rewrite Hat. by apply trim_attr.
Qed.
End trim.
