(* ===== verification/MemblockTheorems.v ===== *)
(** * The early allocator of physical memory: theorems

    The arrays of regions as maps from addresses to nodes and flags, the iteration over
    free memory, the search and the allocation. *)

From Stdlib Require Import Sorted.
From S2P Require Import Prelude MemblockModel MemblockRegions MemblockRemove MemblockIter MemblockAlloc.

(** ** Operations, and what they mean *)

Inductive memblock_op :=
  | AddNode (base size nid : Z)
  | Remove (base size : Z)
  | SetNode (base size nid : Z)
  | Reserve (base size : Z)
  | FreeRange (base size : Z).

Definition run_op (o : memblock_op) (m : memblock) : option memblock :=
  match o with
  | AddNode base size nid => fst <$> memblock_add_node m base size nid
  | Remove base size => fst <$> memblock_remove m base size
  | SetNode base size nid =>
      '(t, _) ← memblock_set_node (memory m) base size nid; Some (Memblock (current_limit m) t (reserved m))
  | Reserve base size => fst <$> memblock_reserve m base size
  | FreeRange base size => fst <$> memblock_free m base size
  end.

Fixpoint run_ops (l : list memblock_op) (m : memblock) : option memblock :=
  match l with [] => Some m | o :: l => m ← run_op o m; run_ops l m end.

(** The map of an array: the node and the flags of every address *)
Definition amap : Type := Z -> option (Z * Z).
Definition abs (m : memblock) : amap * amap := (attr_at (regions (memory m)), attr_at (regions (reserved m))).

Definition spec_op (o : memblock_op) (s : amap * amap) : amap * amap :=
  let '(mem, res) := s in
  match o with
  | AddNode base size nid => (fun a => added base (cap_end base size) nid 0 (mem a) a, res)
  | Remove base size => (fun a => removed base (cap_end base size) (mem a) a, res)
  | SetNode base size nid => (fun a => noded base (cap_end base size) nid (mem a) a, res)
  | Reserve base size => (mem, fun a => added base (cap_end base size) MAX_NUMNODES 0 (res a) a)
  | FreeRange base size => (mem, fun a => removed base (cap_end base size) (res a) a)
  end.

Definition same_map (s s' : amap * amap) : Prop := (forall a, s.1 a = s'.1 a) /\ (forall a, s.2 a = s'.2 a).

Definition op_range (o : memblock_op) : Z * Z :=
  match o with
  | AddNode base size _ | Remove base size | SetNode base size _ | Reserve base size | FreeRange base size => (base, size)
  end.
Definition op_ok (o : memblock_op) : Prop := is_u64 (op_range o).1 /\ is_u64 (op_range o).2.

(** An operation stops only if the array has no room for what it may insert. *)
Definition op_full (o : memblock_op) (m : memblock) : Prop :=
  match o with
  | AddNode base size nid => (INIT_MEMBLOCK_REGIONS < length (fill (cap_end base size) nid 0 base (regions (memory m))))%nat
  | Reserve base size => (INIT_MEMBLOCK_REGIONS < length (fill (cap_end base size) MAX_NUMNODES 0 base (regions (reserved m))))%nat
  | Remove _ _ | SetNode _ _ _ => (INIT_MEMBLOCK_REGIONS < cnt (memory m) + 2)%nat
  | FreeRange _ _ => (INIT_MEMBLOCK_REGIONS < cnt (reserved m) + 2)%nat
  end.

(** The totals are those of the regions. *)
Definition totals_exact (m : memblock) : Prop := exact (memory m) /\ exact (reserved m).

(** An operation on one of the arrays, by what it does to that array *)
Ltac by_range H :=
  let K := fresh in pose proof H as K;
  match type of K with match ?f with _ => _ end => destruct f as [[? ?]|]; [|exact K] end;
  destruct K as (_ & ? & ? & ?); cbn; split; [done|]; split; [done|]; intros [? ?]; split; auto.

Lemma run_op_ok o m : memblock_ok m -> op_ok o ->
  match run_op o m with
  | Some m' => memblock_ok m' /\ same_map (abs m') (spec_op o (abs m)) /\ (totals_exact m -> totals_exact m')
  | None => op_full o m
  end.
Proof.
  intros [H1 H2 H3] [Hb Hs]. destruct o as [base size nid|base size|base size nid|base size|base size]; simpl in Hb, Hs; unfold run_op.
  - unfold memblock_add_node. by_range (memblock_add_range_ok (memory m) base size nid 0 H1 Hb Hs).
  - unfold memblock_remove. by_range (memblock_remove_range_ok (memory m) base size H1 Hb Hs).
  - by_range (memblock_set_node_ok (memory m) base size nid H1 Hb Hs).
  - unfold memblock_reserve. by_range (memblock_add_range_ok (reserved m) base size MAX_NUMNODES 0 H2 Hb Hs).
  - unfold memblock_free. by_range (memblock_remove_range_ok (reserved m) base size H2 Hb Hs).
Qed.

Lemma spec_op_proper o s s' : same_map s s' -> same_map (spec_op o s) (spec_op o s').
Proof. destruct s as [m r], s' as [m' r']. intros [H1 H2]. simpl in *. destruct o; split; simpl; intros a; by rewrite ?H1, ?H2. Qed.

Lemma same_map_trans s1 s2 s3 : same_map s1 s2 -> same_map s2 s3 -> same_map s1 s3.
Proof. intros [H1 H2] [H3 H4]. split; intros a; [by rewrite H1|by rewrite H2]. Qed.

(** ** The theorems *)

(** (C14) The arrays of memblock refine maps from addresses to nodes and flags: any
    sequence of additions, removals, reservations, releases and changes of node does to
    the regions, which stay sorted, disjoint and as few as they can be, what it does to
    the maps, and it stops only where the array of an operation has no room. *)
Theorem memblock_refines (l : list memblock_op) (m : memblock) :
  memblock_ok m -> totals_exact m -> Forall op_ok l ->
  match run_ops l m with
  | Some m' => memblock_ok m' /\ totals_exact m' /\ same_map (abs m') (fold_left (fun s o => spec_op o s) l (abs m))
  | None => exists l1 o l2 m1, l = l1 ++ o :: l2 /\ run_ops l1 m = Some m1 /\ op_full o m1
  end.
Proof.
  intros Hm He Hl. revert m Hm He. induction Hl as [|o l Ho Hl IH]; intros m Hm He; cbn [run_ops fold_left]; [done|].
  pose proof (run_op_ok o m Hm Ho) as H. destruct (run_op o m) as [m1|] eqn:E; cbn [mbind option_bind]; [|by exists [], o, l, m].
  destruct H as (Hm1 & Hs & He1). specialize (IH m1 Hm1 (He1 He)). destruct (run_ops l m1) as [m'|].
  - destruct IH as (Hm' & He' & Hs'). split; [done|]. split; [done|]. eapply same_map_trans; [exact Hs'|].
    clear -Hs. revert Hs. generalize (abs m1), (spec_op o (abs m)). induction l as [|o' l IH]; intros s s' H; [done|]. cbn [fold_left]. by apply IH, spec_op_proper.
  - destruct IH as (l1 & o' & l2 & m2 & -> & E2 & H). exists (o :: l1), o', l2, m2. split; [done|]. split; [|done]. cbn [run_ops]. by rewrite E.
Qed.

(** (C15) The iterator over free memory, which walks the two arrays with one packed index,
    visits the ranges of the double loop over the regions and the gaps between the
    reserved ones, upwards or, in reverse, downwards; they are disjoint, in order, and
    have every free address of the node and no other. *)
Theorem free_mem_range_correct (m : memblock) (nid : Z) :
  memblock_ok m ->
  for_each_free_mem_range m nid = free_ranges nid (memory m) (reserved m) /\
  for_each_free_mem_range_reverse m nid = rev (free_ranges nid (memory m) (reserved m)) /\
  StronglySorted (fun x y => x.2 <= y.1) (for_each_free_mem_range m nid) /\
  (forall a, free_at m nid a <-> exists s e, (s, e) ∈ for_each_free_mem_range m nid /\ s <= a < e).
Proof.
  intros Hm. rewrite (forward_ranges m nid Hm), (backward_ranges m nid Hm). split; [done|]. split; [done|].
  split; [by apply free_ranges_sorted|by apply free_ranges_cover].
Qed.

(** (C29) An early allocation is the highest aligned block of free memory of the node
    within the bounds, and it is reserved then; the result is 0, and nothing changes, only
    if there is no such block. *)
Theorem memblock_alloc_correct (m : memblock) (size align start end_ nid : Z) :
  memblock_ok m -> 0 < size -> align_ok align -> is_u64 start -> is_u64 end_ ->
  exists base, highest m size (align_of align) (Z.max start PAGE_SIZE) (limit m end_) nid base /\
  match memblock_alloc_range_nid m size align start end_ nid with
  | None => base <> 0 /\ no_room m base size
  | Some (ret, m') => ret = base /\ if base =? 0 then m' = m else taken m m' base size
  end.
Proof. apply alloc_range_nid_ok. Qed.

(** The binary search ends, and finds the region of an address or says that it has
    none; so whether a range is memory is decided. *)
Theorem memblock_search_correct (m : memblock) (base size : Z) :
  memblock_ok m -> is_u64 base -> is_u64 size ->
  (exists res, memblock_search (memory m) base = Some res /\ found (memory m) base res) /\
  exists b, memblock_is_region_memory m base size = Some b /\
    (b = true <-> exists r, r ∈ regions (memory m) /\ covers r base /\ cap_end base size <= rg_base r + rg_size r).
Proof. intros Hm Hb Hs. split; [apply memblock_search_ok, Hm|by apply is_region_memory_ok]. Qed.

(** ** An example: the memory of a small machine *)

Definition ex_ops : list memblock_op :=
  [AddNode 4096 (159 * 4096) 0; AddNode (2 ^ 20) (2 ^ 27 - 2 ^ 20) 0; Reserve (2 ^ 20) (2 ^ 22); SetNode (2 ^ 26) (2 ^ 26) 1;
   FreeRange (2 ^ 21) 4096; Remove 4096 4096].

Definition ex_regions : memblock :=
  Memblock MEMBLOCK_ALLOC_ANYWHERE
    (Mtype [Region 8192 (158 * 4096) 0 0; Region (2 ^ 20) (2 ^ 26 - 2 ^ 20) 0 0; Region (2 ^ 26) (2 ^ 26) 0 1] (158 * 4096 + 2 ^ 27 - 2 ^ 20))
    (Mtype [Region (2 ^ 20) (2 ^ 20) 0 MAX_NUMNODES; Region (2 ^ 21 + 4096) (3 * 2 ^ 20 - 4096) 0 MAX_NUMNODES] (2 ^ 22 - 4096)).

Lemma ex_regions_ok : memblock_ok ex_regions.
Proof.
  split; [| |done]; (split; [unfold cnt, INIT_MEMBLOCK_REGIONS; simpl; lia|done|right; split; [done|split; simpl; repeat split; done]]).
Qed.

Lemma memblock_init_ok : memblock_ok memblock_init /\ totals_exact memblock_init.
Proof.
  split; [|done]. split; [| |done]; (split; [unfold cnt, INIT_MEMBLOCK_REGIONS; simpl; lia|done|left; by exists 0]).
Qed.

Lemma memblock_refines_witness :
  run_ops ex_ops memblock_init = Some ex_regions /\ totals_exact ex_regions /\
  same_map (abs ex_regions) (fold_left (fun s o => spec_op o s) ex_ops (abs memblock_init)).
Proof.
  pose proof (memblock_refines ex_ops memblock_init (proj1 memblock_init_ok) (proj2 memblock_init_ok)) as H.
  assert (E : run_ops ex_ops memblock_init = Some ex_regions) by (vm_compute; reflexivity).
  rewrite E in H. split; [exact E|]. apply H. repeat constructor; done.
Defined.

Lemma free_mem_range_correct_witness :
  for_each_free_mem_range_reverse ex_regions 0 =
    [(5 * 2 ^ 20, 2 ^ 26); (2 ^ 21, 2 ^ 21 + 4096); (8192, 160 * 4096)] /\
  for_each_free_mem_range_reverse ex_regions 0 = rev (free_ranges 0 (memory ex_regions) (reserved ex_regions)).
Proof. split; [vm_compute; reflexivity|]. apply (free_mem_range_correct ex_regions 0 ex_regions_ok). Defined.

(** A page below 4 MB is the one that was freed. *)
Lemma memblock_alloc_correct_witness :
  exists m', memblock_alloc_range_nid ex_regions 4096 4096 (2 ^ 20) (2 ^ 22) 0 = Some (2 ^ 21, m') /\
    highest ex_regions 4096 4096 (2 ^ 20) (2 ^ 22) 0 (2 ^ 21) /\ taken ex_regions m' (2 ^ 21) 4096.
Proof.
  destruct (memblock_alloc_correct ex_regions 4096 4096 (2 ^ 20) (2 ^ 22) 0 ex_regions_ok) as (base & Hh & H); [done|right; by exists 12|done|done|].
  destruct (memblock_alloc_range_nid ex_regions 4096 4096 (2 ^ 20) (2 ^ 22) 0) as [[ret m']|] eqn:E; [|exfalso; vm_compute in E; discriminate E].
  assert (ret = 2 ^ 21) as -> by (vm_compute in E; injection E as <- _; reflexivity). destruct H as [<- H]. exists m'. auto.
Defined.

Lemma memblock_search_correct_witness :
  memblock_search (memory ex_regions) (2 ^ 26 + 5) = Some (Some 2%nat) /\ found (memory ex_regions) (2 ^ 26 + 5) (Some 2%nat) /\
  memblock_is_region_memory ex_regions (2 ^ 26 + 5) 4096 = Some true.
Proof.
  destruct (memblock_search_correct ex_regions (2 ^ 26 + 5) 4096 ex_regions_ok) as [(res & E & H) _]; [done|done|].
  assert (res = Some 2%nat) as -> by (vm_compute in E; injection E as <-; reflexivity). split; [exact E|]. split; [exact H|vm_compute; reflexivity].
Defined.
