(* ===== verification/BootModel.v ===== *)
(** * From memblock to the page allocator: the model

    The boot-time parts of mm/page_alloc.c, mm/sparse.c and mm/memblock.c.

    [memory_init] marks the sections that have memory, sets up the zones of every node
    and their [struct page]s, and frees the memory that is not reserved into the buddy
    allocator.  The [struct page]s are allocated cleared.  A zone without pages is not in
    [zones]: its lists are never initialised. *)

From stdpp Require Import gmap.
From S2P Require Import Prelude BuddyModel MemblockModel.

(** The architecture has 46 bits of physical addresses. *)
Definition MAX_PHYSMEM_BITS : Z := 46.

(** ** Freeing boot memory (page_alloc.c, memblock.c) *)

Definition SetPageReserved (p : Z) (b : buddy) : option buddy :=
  on_page p (fun g => with_pflags (Z.setbit (pg_flags g) PG_reserved) g) b.
Definition __ClearPageReserved (p : Z) (b : buddy) : option buddy :=
  on_page p (fun g => with_pflags (Z.clearbit (pg_flags g) PG_reserved) g) b.

(** The loop of [reserve_bootmem_region]; [n] frames are left. *)
Fixpoint reserve_pfns (n : nat) (start_pfn : Z) (b : buddy) : option buddy :=
  match n with
  | O => Some b
  | S n =>
      b ← (if pfn_valid b start_pfn then SetPageReserved start_pfn b else Some b);
      reserve_pfns n (start_pfn + 1) b
  end.
Definition reserve_bootmem_region (start end_ : Z) (b : buddy) : option buddy :=
  reserve_pfns (Z.to_nat (PFN_UP end_ - PFN_DOWN start)) (PFN_DOWN start) b.

(** The first loop of [__free_pages_boot_core] *)
Fixpoint boot_cleanup (n : nat) (p : Z) (b : buddy) : option buddy :=
  match n with
  | O => Some b
  | S n =>
      b ← __ClearPageReserved p b;
      b ← set_page_count p 0 b;
      boot_cleanup n (p + 1) b
  end.

Definition __free_pages_boot (p : Z) (order : nat) (b : buddy) : option buddy :=
  '(zero, b) ← put_page_testzero p b;
  if zero : bool then __free_pages_ok p order b else Some b.

Definition __free_pages_boot_core (p : Z) (order : nat) (b : buddy) : option buddy :=
  b ← boot_cleanup (2 ^ order) p b;
  g ← mem_map b !! p;
  _ ← zones b !! pg_zone g;
  let b := upd_zone (pg_zone g) (fun zn => Zone (free_areas zn) (managed_pages zn +u 2 ^ Z.of_nat order) (zone_free_pages zn)) b in
  b ← set_page_refcounted p b;
  __free_pages_boot p order b.

Definition __free_pages_bootmem (p pfn : Z) (order : nat) (b : buddy) : option buddy := __free_pages_boot_core p order b.

(** The lowest set bit, undefined for 0 *)
Fixpoint ffs_pos (x : positive) : nat := match x with xO x => S (ffs_pos x) | _ => O end.
Definition __ffs (x : Z) : option nat := match x with Zpos x => Some (ffs_pos x) | _ => None end.

(** The inner loop of [__free_pages_memory] *)
Fixpoint fit_order (start end_ : Z) (order : nat) : option nat :=
  if end_ <? start + 2 ^ Z.of_nat order then match order with O => None | S order => fit_order start end_ order end
  else Some order.

Fixpoint free_pages_from (n : nat) (start end_ : Z) (b : buddy) : option buddy :=
  if start <? end_ then
    match n with
    | O => None
    | S n =>
        f ← __ffs start;
        order ← fit_order start end_ (Nat.min (MAX_ORDER - 1) f);
        b ← __free_pages_bootmem start start order b;
        free_pages_from n (start + 2 ^ Z.of_nat order) end_ b
    end
  else Some b.
(** Every step frees a page at least. *)
Definition __free_pages_memory (start end_ : Z) (b : buddy) : option buddy :=
  free_pages_from (Z.to_nat (end_ - start)) start end_ b.

Definition __free_memory_core (start end_ : Z) (b : buddy) : option (Z * buddy) :=
  let start_pfn := PFN_UP start in
  let end_pfn := PFN_DOWN end_ in
  if end_pfn <? start_pfn then Some (0, b)
  else b ← __free_pages_memory start_pfn end_pfn b; Some (end_pfn -u start_pfn, b).

Fixpoint reserve_regions (l : list (Z * Z)) (b : buddy) : option buddy :=
  match l with
  | [] => Some b
  | (start, end_) :: l => b ← reserve_bootmem_region start end_ b; reserve_regions l b
  end.

Fixpoint free_ranges_core (l : list (Z * Z)) (count : Z) (b : buddy) : option (Z * buddy) :=
  match l with
  | [] => Some (count, b)
  | (start, end_) :: l => '(n, b) ← __free_memory_core start end_ b; free_ranges_core l (count +u n) b
  end.

Definition free_low_memory_core_early (m : memblock) (b : buddy) : option (Z * buddy) :=
  b ← reserve_regions (for_each_reserved_mem_region m) b;
  free_ranges_core (for_each_free_mem_range m NUMA_NO_NODE) 0 b.

(** The number of pages, the new [totalram_pages], and the allocator *)
Definition free_all_bootmem (m : memblock) (totalram_pages : Z) (b : buddy) : option (Z * Z * buddy) :=
  '(pages, b) ← free_low_memory_core_early m b;
  Some (pages, totalram_pages +u pages, b).
