(* ===== verification/BootFree.v ===== *)
(** * From memblock to the page allocator: freeing the boot memory

    [free_all_bootmem] puts into the free lists exactly the pages that lie within one
    region of memory and have no reserved address. *)

From stdpp Require Import gmap.
From S2P Require Import Prelude BuddyModel BuddyInv BuddyFree BuddyAlloc MemblockModel MemblockRegions MemblockRemove MemblockIter MemblockAlloc BootModel.

(** ** An allocator without free pages *)

Definition empty_area : free_area := FreeArea [] 0.

Record idle (b : buddy) : Prop := Idle {
  id_map : map_ok b;
  id_zone z zn : zones b !! z = Some zn -> free_areas zn = replicate MAX_ORDER empty_area /\ zone_free_pages zn = 0;
  id_page p g : mem_map b !! p = Some g -> PageBuddy g = false
}.

Lemma idle_area b z o a : idle b -> area z o b = Some a -> a = empty_area.
Proof.
  intros Hi. unfold area. destruct (zones b !! z) as [zn|] eqn:E; [|done]. cbn [mbind option_bind].
  destruct (id_zone _ Hi _ _ E) as [-> _]. intros [-> _]%lookup_replicate. done.
Qed.

Lemma idle_flist b z o : idle b -> flist b z o = [].
Proof. intros Hi. unfold flist. destruct (area z o b) as [a|] eqn:E; [|done]. by rewrite (idle_area _ _ _ _ Hi E). Qed.

Lemma idle_not_free b q : idle b -> ~ is_free b q.
Proof. intros Hi (z & o & p & Hp & _). rewrite idle_flist in Hp by done. by apply elem_of_nil in Hp. Qed.

Lemma idle_ok b : idle b -> buddy_ok b.
Proof.
  intros Hi. assert (Hn : forall z o p, p ∉ flist b z o) by (intros z o p; rewrite idle_flist by done; apply not_elem_of_nil).
  split.
  - split; [apply Hi|..].
    + intros z o a E. rewrite (idle_area _ _ _ _ Hi E). split; [constructor|done].
    + intros z o p Hp. by destruct (Hn z o p).
    + intros z o p q Hp. by destruct (Hn z o p).
    + intros p g Hg Hb. by rewrite (id_page _ Hi _ _ Hg) in Hb.
    + intros z o p Hp. by destruct (Hn z o p).
  - intros z z' zn E. destruct (id_zone _ Hi _ _ E) as [-> ->]. by destruct (z' =? z).
Qed.

(** ** One block *)

(** A page that was never freed: it may be marked reserved. *)
Definition fresh (b : buddy) (z q : Z) : Prop :=
  (exists g, mem_map b !! q = Some g /\ pg_zone g = z /\ pg_mapcount g = -1 /\
    Z.land (Z.clearbit (pg_flags g) PG_reserved) PAGE_FLAGS_CHECK_AT_FREE = 0) /\ ~ is_free b q.

Lemma lookup_upd_page p f b q :
  mem_map (upd_page p f b) !! q = if decide (p = q) then f <$> mem_map b !! q else mem_map b !! q.
Proof. unfold upd_page. cbn [mem_map]. rewrite lookup_alter. by case_decide; [subst q|]. Qed.

Definition cleaned (g : page) : page := with_refcount 0 (with_pflags (Z.clearbit (pg_flags g) PG_reserved) g).

Lemma boot_cleanup_ok n p b :
  (forall q, p <= q < p + Z.of_nat n -> is_Some (mem_map b !! q)) ->
  exists b', boot_cleanup n p b = Some b' /\ zones b' = zones b /\ vm_zone_stat b' = vm_zone_stat b /\
    forall q, mem_map b' !! q = if decide (p <= q < p + Z.of_nat n) then cleaned <$> mem_map b !! q else mem_map b !! q.
Proof.
  revert p b. induction n as [|n IH]; intros p b Hp.
  { exists b. repeat split. intros q. by rewrite decide_False by lia. }
  destruct (Hp p) as [g Hg]; [lia|]. cbn [boot_cleanup]. unfold __ClearPageReserved, set_page_count, on_page. rewrite Hg.
  cbn [mbind option_bind]. rewrite lookup_upd_page, decide_True, Hg by done. cbn [fmap option_fmap option_map mbind option_bind].
  set (b1 := upd_page p (with_refcount 0) _).
  assert (Hm : forall q, mem_map b1 !! q = if decide (p = q) then cleaned <$> mem_map b !! q else mem_map b !! q).
  { intros q. unfold b1. rewrite !lookup_upd_page. case_decide as E; [subst q|done]. by rewrite Hg. }
  destruct (IH (p + 1) b1) as (b' & -> & Hz & Hs & Hm').
  { intros q Hq. rewrite Hm, decide_False by lia. apply Hp. lia. }
  exists b'. split; [done|]. split; [done|]. split; [done|]. intros q. rewrite Hm', !Hm.
  repeat case_decide; try lia; done.
Qed.

(** What freeing a block of boot memory does *)
Record booted (b : buddy) (z p : Z) (o : nat) (b' : buddy) : Prop := Booted {
  bt_ok : buddy_ok b';
  bt_free q : is_free b' q <-> is_free b q \/ in_block p o q;
  bt_stat : vm_zone_stat b' = vm_zone_stat b + blk o;
  bt_rest q : ~ in_block p o q -> ~ is_free b q -> mem_map b' !! q = mem_map b !! q;
  bt_zone q : pg_zone <$> mem_map b' !! q = pg_zone <$> mem_map b !! q;
  bt_managed z' : managed_pages <$> zones b' !! z' =
    (if z' =? z then fun n => n +u blk o else id) ∘ managed_pages <$> zones b !! z';
  bt_kept q : kept <$> mem_map b' !! q = kept <$> mem_map b !! q
}.

(** A change of the number of managed pages, and of pages that are not free *)
Lemma outside_counted b b' :
  outside b b' -> (forall z, (fun zn => (free_areas zn, zone_free_pages zn)) <$> zones b' !! z =
    (fun zn => (free_areas zn, zone_free_pages zn)) <$> zones b !! z) -> buddy_ok b -> buddy_ok b'.
Proof.
  intros Ho Hz [Hl Hc]. split; [by eapply outside_lists|]. intros z z' zn' E. specialize (Hz z'). rewrite E in Hz.
  destruct (zones b !! z') as [zn|] eqn:E'; [|done]. injection Hz as Ha Hf. rewrite Ha, Hf. by apply Hc.
Qed.

Lemma free_pages_boot_core_ok b z p o :
  buddy_ok b -> (o < MAX_ORDER)%nat -> (blk o | p) -> (forall q, in_block p o q -> fresh b z q) ->
  exists b', __free_pages_boot_core p o b = Some b' /\ booted b z p o b'.
Proof.
  intros Hb Ho Hal Hf. pose proof (blk_pos o) as Hpos. unfold __free_pages_boot_core.
  destruct (boot_cleanup_ok (2 ^ o) p b) as (b1 & -> & Hz1 & Hs1 & Hm1).
  { intros q Hq. rewrite blk_nat in Hq. destruct (Hf q Hq) as [(g & -> & _) _]. done. }
  rewrite blk_nat in Hm1. fold (blk o). cbn [mbind option_bind].
  destruct (Hf p) as [(g & Hg & Hgz & Hgm & Hgf) Hnf]; [auto with lego|].
  rewrite Hm1, decide_True, Hg by lia. cbn [mbind option_bind fmap option_fmap option_map cleaned pg_zone with_refcount with_pflags].
  destruct (map_zone _ (lo_map _ (bo_lists _ Hb)) p g Hg) as [zn Hzn]. rewrite Hz1, Hgz in *. rewrite Hzn. cbn [mbind option_bind].
  unfold set_page_refcounted, set_page_count, on_page. cbn [mem_map upd_zone]. rewrite Hm1, decide_True, Hg by lia.
  cbn [mbind option_bind fmap option_fmap option_map]. set (b2 := upd_page p _ _).
  assert (Hm2 : forall q, mem_map b2 !! q = if decide (p <= q < p + blk o) then
    with_refcount (if q =? p then 1 else 0) ∘ cleaned <$> mem_map b !! q else mem_map b !! q).
  { intros q. unfold b2. rewrite lookup_upd_page. unfold upd_zone. cbn [mem_map]. rewrite Hm1. case_decide as E.
    - subst q. by rewrite !decide_True, Z.eqb_refl, Hg by lia.
    - case_decide; [|done]. rewrite (proj2 (Z.eqb_neq q p)) by done. by destruct (mem_map b !! q). }
  assert (Hz2 : forall z', zones b2 !! z' = (if decide (z = z') then fun zn => Zone (free_areas zn) (managed_pages zn +u blk o) (zone_free_pages zn) else id) <$> zones b !! z').
  { intros z'. unfold b2, upd_page, upd_zone. cbn [zones]. rewrite Hz1, lookup_alter. case_decide; [by subst|]. by destruct (zones b !! z'). }
  assert (Hos : outside b b2).
  { split.
    - intros z' o'. unfold area. rewrite Hz2. case_decide; destruct (zones b !! z'); done.
    - intros z'. rewrite Hz2. case_decide; destruct (zones b !! z'); done.
    - intros q Hq. rewrite Hm2, decide_False; [done|]. intros Hin. by apply (proj2 (Hf q Hin)).
    - intros q. rewrite Hm2. case_decide; [|done]. by destruct (mem_map b !! q). }
  assert (Hb2 : buddy_ok b2).
  { apply (outside_counted b); [done| |done]. intros z'. rewrite Hz2. case_decide; by destruct (zones b !! z'). }
  assert (Hu : in_use b2 z p o 1).
  { split; [done..| |].
    - intros q Hq. destruct (Hf q Hq) as [(gq & Hgq & ? & ? & ?) _]. rewrite Hm2, decide_True, Hgq by done. eexists. split; [done|]. done.
    - intros q Hq. rewrite (outside_free _ _ Hos). by apply Hf. }
  change (__free_pages_boot p o b2) with (__free_pages p o b2).
  destruct (__free_pages_correct b2 z p o 1 Hb2 Hu ltac:(lia)) as (b' & -> & [R1 R2 R3 R4 R7 R5 R6]). exists b'. split; [done|].
  split; [done|..].
  - intros q. by rewrite R2, (outside_free _ _ Hos).
  - rewrite R3. unfold b2. cbn. by rewrite Hs1.
  - intros q Hq Hnq. rewrite R5, Hm2, decide_False; [done|done|done|]. by rewrite (outside_free _ _ Hos).
  - intros q. specialize (R7 q). apply (f_equal (fmap fst)) in R7. rewrite <- !option_fmap_compose in R7.
    change (fst ∘ kept) with pg_zone in R7. rewrite R7, Hm2. case_decide; [|done]. by destruct (mem_map b !! q).
  - intros z'. specialize (R6 z'). apply (f_equal (fmap snd)) in R6. rewrite <- !option_fmap_compose in R6.
    change (snd ∘ shape) with managed_pages in R6. rewrite R6, Hz2. destruct (decide (z = z')) as [->|Hne].
    + rewrite Z.eqb_refl. by destruct (zones b !! z').
    + rewrite (proj2 (Z.eqb_neq z' z)) by done. by destruct (zones b !! z').
  - intros q. rewrite R7, Hm2. case_decide; [|done]. by destruct (mem_map b !! q).
Qed.

(** ** A range of frames *)

Section sweep.
Context (zof : Z -> Z).

(** The frames of a list, by the zone that they are in *)
Definition in_zone (z : Z) (l : list Z) : Z := Z.of_nat (length (filter (fun q => zof q = z) l)).

(** What freeing the frames of a list does *)
Record swept (b : buddy) (l : list Z) (b' : buddy) : Prop := Swept {
  sw_ok : buddy_ok b';
  sw_free q : is_free b' q <-> is_free b q \/ q ∈ l;
  sw_stat : vm_zone_stat b' = vm_zone_stat b + Z.of_nat (length l);
  sw_rest q : q ∉ l -> ~ is_free b q -> mem_map b' !! q = mem_map b !! q;
  sw_zone q : pg_zone <$> mem_map b' !! q = pg_zone <$> mem_map b !! q;
  sw_managed z : wrap ∘ managed_pages <$> zones b' !! z =
    (fun n => n +u in_zone z l) ∘ managed_pages <$> zones b !! z
}.

Lemma in_zone_app z l k : in_zone z (l ++ k) = in_zone z l + in_zone z k.
Proof. unfold in_zone. rewrite list.filter_app, length_app. lia. Qed.

Lemma in_zone_all z z' l : (forall q, q ∈ l -> zof q = z) -> in_zone z' l = if z' =? z then Z.of_nat (length l) else 0.
Proof.
  unfold in_zone. induction l as [|q l IH]; intros H; [by destruct (_ =? _)|]. rewrite filter_cons, (H q) by left.
  specialize (IH (fun q Hq => H q ltac:(by right))). case_decide as E.
  - rewrite E, Z.eqb_refl in *. simpl. lia.
  - rewrite IH, (proj2 (Z.eqb_neq z' z)) by congruence. done.
Qed.

Lemma swept_nil b : buddy_ok b -> swept b [] b.
Proof.
  intros Hb. split; [done|..]; try done.
  - intros q. rewrite elem_of_nil. tauto.
  - simpl. lia.
  - intros z. destruct (zones b !! z); [|done]. simpl. unfold in_zone. simpl. by rewrite Z.add_0_r.
Qed.

Lemma swept_app b l b1 k b2 : swept b l b1 -> swept b1 k b2 -> swept b (l ++ k) b2.
Proof.
  intros [A1 A2 A3 A4 A5 A6] [B1 B2 B3 B4 B5 B6]. split; [done|..].
  - intros q. rewrite B2, A2, elem_of_app. tauto.
  - rewrite B3, A3, length_app. lia.
  - intros q [Hl Hk]%not_elem_of_app Hf. rewrite B4, A4; [done..|]. rewrite A2. tauto.
  - intros q. by rewrite B5, A5.
  - intros z. rewrite B6. specialize (A6 z). destruct (zones b1 !! z) as [zn1|], (zones b !! z) as [zn|]; try done. simpl in *.
    injection A6 as A6. f_equal. rewrite <- wrap_add_l, A6, wrap_add_l, in_zone_app. f_equal. lia.
Qed.

(** The frames of a block of boot memory *)
Definition frames (start n : Z) : list Z := seqZ start n.

Lemma booted_swept b z p o b' :
  booted b z p o b' -> (forall q, in_block p o q -> zof q = z) -> swept b (frames p (blk o)) b'.
Proof.
  intros [A1 A2 A3 A4 A5 A6] Hz. pose proof (blk_pos o). split; [done|..].
  - intros q. rewrite A2, elem_of_seqZ. done.
  - unfold frames. rewrite length_seqZ, Z2Nat.id by lia. done.
  - intros q Hq. apply A4. intros Hin. apply Hq. by apply elem_of_seqZ.
  - done.
  - intros z'. rewrite option_fmap_compose, A6. destruct (zones b !! z') as [zn|]; [|done]. simpl. f_equal.
    rewrite (in_zone_all z z' (frames p (blk o))) by (intros q Hq%elem_of_seqZ; by apply Hz).
    unfold frames. rewrite length_seqZ, Z2Nat.id by lia. destruct (z' =? z); [apply wrap_small, wrap_range|]. by rewrite Z.add_0_r.
Qed.

Lemma ffs_divide start f : __ffs start = Some f -> (blk f | start).
Proof.
  destruct start as [|x|x]; [done| |done]. simpl. intros [= <-]. induction x as [x IH|x IH|]; simpl; [apply Z.divide_1_l| |apply Z.divide_1_l].
  rewrite blk_S. destruct IH as [k Hk]. exists k. lia.
Qed.

Lemma fit_order_ok start end_ o :
  start < end_ -> exists o', fit_order start end_ o = Some o' /\ (o' <= o)%nat /\ start + blk o' <= end_.
Proof.
  intros Hlt. induction o as [|o IH]; cbn [fit_order].
  - fold (blk 0). rewrite (proj2 (Z.ltb_ge _ _)) by (unfold blk; simpl; lia). exists O. split; [done|]. split; [done|]. unfold blk. simpl. lia.
  - fold (blk (S o)). destruct (end_ <? start + blk (S o)) eqn:E; zbool; [|by exists (S o)].
    destruct IH as (o' & -> & ? & ?). exists o'. split; [done|]. split; [lia|done].
Qed.

Lemma same_top p o q : (o < MAX_ORDER)%nat -> (blk o | p) -> in_block p o q -> q / blk (MAX_ORDER - 1) = p / blk (MAX_ORDER - 1).
Proof.
  intros Ho [k Hk] Hq. unfold in_block in Hq. destruct (blk_le o (MAX_ORDER - 1) ltac:(lia)) as [c Hc].
  pose proof (blk_pos o). pose proof (blk_pos (MAX_ORDER - 1)). rewrite Hc. assert (0 < c) by nia.
  rewrite (Z.mul_comm c), <- !Z.div_div by lia. f_equal. rewrite Hk, Z.div_mul by lia.
  symmetry. apply Z.div_unique with (r := q - p); lia.
Qed.

Lemma free_pages_from_ok n b start end_ :
  buddy_ok b -> 0 < start -> end_ - start <= Z.of_nat n ->
  (forall q, start <= q < end_ -> fresh b (zof q) q) ->
  (forall q q', start <= q < end_ -> start <= q' < end_ -> q / blk (MAX_ORDER - 1) = q' / blk (MAX_ORDER - 1) -> zof q = zof q') ->
  exists b', free_pages_from n start end_ b = Some b' /\ swept b (frames start (end_ - start)) b'.
Proof.
  revert b start. induction n as [|n IH]; intros b start Hb Hs Hn Hf Hz.
  { cbn [free_pages_from]. rewrite (proj2 (Z.ltb_ge _ _)) by lia. exists b. split; [done|]. unfold frames. rewrite seqZ_nil by lia. by apply swept_nil. }
  cbn [free_pages_from]. destruct (start <? end_) eqn:E; zbool.
  2:{ exists b. split; [done|]. unfold frames. rewrite seqZ_nil by lia. by apply swept_nil. }
  assert (exists f, __ffs start = Some f) as [f Ef] by (destruct start; [lia|by eexists|lia]).
  rewrite Ef. cbn [mbind option_bind]. pose proof (ffs_divide _ _ Ef) as Hd.
  destruct (fit_order_ok start end_ (Nat.min (MAX_ORDER - 1) f) E) as (o & -> & Ho & Hfit). cbn [mbind option_bind].
  pose proof (blk_pos o) as Hpos. assert (Hal : (blk o | start)) by (etrans; [apply (blk_le o f); lia|done]).
  assert (Ho' : (o < MAX_ORDER)%nat) by (unfold MAX_ORDER in *; lia). fold (blk o).
  assert (Hin : forall q, in_block start o q -> zof q = zof start).
  { intros q Hq. apply Hz; [unfold in_block in Hq; lia|lia|]. by apply (same_top start o). }
  destruct (free_pages_boot_core_ok b (zof start) start o Hb Ho' Hal) as (b1 & E1 & Hbt).
  { intros q Hq. rewrite <- (Hin q Hq). apply Hf. unfold in_block in Hq. lia. }
  unfold __free_pages_bootmem. rewrite E1. cbn [mbind option_bind]. pose proof (booted_swept _ _ _ _ _ Hbt Hin) as Hsw.
  destruct (IH b1 (start + blk o)) as (b2 & E2 & Hsw2).
  - apply Hbt.
  - lia.
  - lia.
  - intros q Hq. destruct (Hf q ltac:(lia)) as [(g & Hg & ?) Hnf]. split.
    + exists g. split; [|done]. rewrite (bt_rest _ _ _ _ _ Hbt); [done| |done]. unfold in_block. lia.
    + rewrite (bt_free _ _ _ _ _ Hbt). unfold in_block. intros [?|?]; [done|lia].
  - intros q q' ? ? ?. apply Hz; [lia..|done].
  - exists b2. split; [done|]. pose proof (swept_app _ _ _ _ _ Hsw Hsw2) as H. unfold frames in *.
    rewrite <- seqZ_app in H by lia. by replace (blk o + (end_ - (start + blk o))) with (end_ - start) in H by lia.
Qed.
End sweep.

(** ** The free ranges *)

(** The whole pages of a range of addresses *)
Definition pages_in (x : Z * Z) : list Z := frames (PFN_UP x.1) (PFN_DOWN x.2 - PFN_UP x.1).
Definition pages_of (l : list (Z * Z)) : list Z := flat_map pages_in l.

Lemma pfn_up_spec x q : 0 <= x <= 2 ^ MAX_PHYSMEM_BITS -> PFN_UP x <= q <-> x <= q * PAGE_SIZE.
Proof.
  intros Hx. unfold PFN_UP. rewrite wrap_small by (unfold is_u64, ULONG_MOD, MAX_PHYSMEM_BITS in *; change PAGE_SIZE with 4096; lia).
  rewrite Z.shiftr_div_pow2 by done. change (2 ^ PAGE_SHIFT) with 4096. change PAGE_SIZE with 4096.
  pose proof (Z.div_mod (x + (4096 - 1)) 4096 ltac:(lia)). pose proof (Z.mod_pos_bound (x + (4096 - 1)) 4096 ltac:(lia)). lia.
Qed.

Lemma pfn_down_spec x q : q < PFN_DOWN x <-> (q + 1) * PAGE_SIZE <= x.
Proof.
  unfold PFN_DOWN. rewrite Z.shiftr_div_pow2 by done. change (2 ^ PAGE_SHIFT) with 4096. change PAGE_SIZE with 4096.
  pose proof (Z.div_mod x 4096 ltac:(lia)). pose proof (Z.mod_pos_bound x 4096 ltac:(lia)). lia.
Qed.

Lemma elem_of_pages_in q s e : 0 <= s <= 2 ^ MAX_PHYSMEM_BITS -> q ∈ pages_in (s, e) <-> s <= q * PAGE_SIZE /\ (q + 1) * PAGE_SIZE <= e.
Proof. intros Hs. unfold pages_in, frames. rewrite elem_of_seqZ. simpl. rewrite <- (pfn_up_spec s) by done. rewrite <- pfn_down_spec. lia. Qed.

Lemma elem_of_pages_of q l : q ∈ pages_of l <-> exists x, x ∈ l /\ q ∈ pages_in x.
Proof. unfold pages_of. rewrite list_elem_of_In, in_flat_map. setoid_rewrite list_elem_of_In. done. Qed.

Section ranges.
Context (zof : Z -> Z).

Lemma free_memory_core_ok b s e :
  buddy_ok b -> 0 < s <= 2 ^ MAX_PHYSMEM_BITS -> 0 <= e <= 2 ^ MAX_PHYSMEM_BITS ->
  (forall q, q ∈ pages_in (s, e) -> fresh b (zof q) q) ->
  (forall q q', q ∈ pages_in (s, e) -> q' ∈ pages_in (s, e) -> q / blk (MAX_ORDER - 1) = q' / blk (MAX_ORDER - 1) -> zof q = zof q') ->
  exists b', __free_memory_core s e b = Some (Z.of_nat (length (pages_in (s, e))), b') /\ swept zof b (pages_in (s, e)) b'.
Proof.
  intros Hb Hs He Hf Hz. unfold __free_memory_core, pages_in, frames in *. cbn [fst snd] in *. rewrite length_seqZ.
  destruct (PFN_DOWN e <? PFN_UP s) eqn:E; zbool.
  { exists b. rewrite seqZ_nil by lia. split; [|by apply swept_nil]. f_equal. f_equal. lia. }
  unfold __free_pages_memory.
  assert (Hup : 0 < PFN_UP s).
  { pose proof (proj1 (pfn_up_spec s 0 ltac:(lia))). change PAGE_SIZE with 4096 in *. lia. }
  assert (Hdn : PFN_DOWN e <= 2 ^ MAX_PHYSMEM_BITS).
  { pose proof (proj1 (pfn_down_spec e (PFN_DOWN e - 1))). change PAGE_SIZE with 4096 in *. lia. }
  destruct (free_pages_from_ok zof (Z.to_nat (PFN_DOWN e - PFN_UP s)) b (PFN_UP s) (PFN_DOWN e)) as (b' & -> & Hsw).
  - done.
  - done.
  - lia.
  - intros q Hq. apply Hf, elem_of_seqZ. lia.
  - intros q q' Hq Hq'. apply Hz; apply elem_of_seqZ; lia.
  - cbn [mbind option_bind]. exists b'. split; [|done]. do 2 f_equal. rewrite Z2Nat.id by lia.
    apply wrap_small. unfold is_u64, ULONG_MOD, MAX_PHYSMEM_BITS in *. lia.
Qed.

Lemma free_ranges_core_ok l count b :
  buddy_ok b -> Forall (fun x => 0 < x.1 <= 2 ^ MAX_PHYSMEM_BITS /\ 0 <= x.2 <= 2 ^ MAX_PHYSMEM_BITS) l -> is_u64 count ->
  NoDup (pages_of l) -> (forall q, q ∈ pages_of l -> fresh b (zof q) q) ->
  (forall x q q', x ∈ l -> q ∈ pages_in x -> q' ∈ pages_in x -> q / blk (MAX_ORDER - 1) = q' / blk (MAX_ORDER - 1) -> zof q = zof q') ->
  exists b', free_ranges_core l count b = Some (count +u Z.of_nat (length (pages_of l)), b') /\ swept zof b (pages_of l) b'.
Proof.
  revert count b. induction l as [|[s e] l IH]; intros count b Hb Hl Hc Hnd Hf Hz.
  { exists b. split; [|by apply swept_nil]. simpl. by rewrite Z.add_0_r, wrap_small. }
  apply list.Forall_cons in Hl as [[H1 H2] Hl]. cbn [free_ranges_core pages_of flat_map] in *. fold (pages_of l) in *.
  apply list.NoDup_app in Hnd as (_ & Hd & Hnd).
  destruct (free_memory_core_ok b s e Hb H1 H2) as (b1 & -> & Hsw).
  - intros q Hq. apply Hf, elem_of_app. by left.
  - intros q q' Hq Hq'. by apply (Hz (s, e)); [left|..].
  - cbn [mbind option_bind]. destruct (IH (count +u Z.of_nat (length (pages_in (s, e)))) b1) as (b2 & -> & Hsw2).
    + apply Hsw.
    + done.
    + apply wrap_range.
    + done.
    + intros q Hq. destruct (Hf q) as [(g & Hg & ?) Hnf]; [apply elem_of_app; by right|]. assert (Hn : q ∉ pages_in (s, e)) by (intros Hx; by apply (Hd q)).
      split; [exists g; split; [|done]; by rewrite (sw_rest _ _ _ _ Hsw)|]. rewrite (sw_free _ _ _ _ Hsw). tauto.
    + intros x q q' Hx. apply Hz. by right.
    + exists b2. split; [|by eapply swept_app]. rewrite wrap_add_l, length_app. do 3 f_equal. lia.
Qed.
End ranges.

(** ** The reserved regions *)

Definition set_reserved (g : page) : page := with_pflags (Z.setbit (pg_flags g) PG_reserved) g.

Lemma set_reserved_twice g : set_reserved (set_reserved g) = set_reserved g.
Proof.
  assert (E : Z.setbit (Z.setbit (pg_flags g) PG_reserved) PG_reserved = Z.setbit (pg_flags g) PG_reserved); [|unfold set_reserved; cbn; by rewrite E].
  apply Z.bits_inj'. intros n Hn. rewrite !Z.setbit_eqb by done. by destruct (PG_reserved =? n).
Qed.

(** The pages that are marked *)
Definition marked_by (l : list (Z * Z)) (q : Z) : bool :=
  existsb (fun x => (PFN_DOWN x.1 <=? q) && (q <? PFN_UP x.2)) l.

Record reserved_pages (f : Z -> bool) (b b' : buddy) : Prop := ReservedPages {
  rp_zones : zones b' = zones b;
  rp_stat : vm_zone_stat b' = vm_zone_stat b;
  rp_map q : mem_map b' !! q = (if f q then set_reserved else id) <$> mem_map b !! q
}.

Lemma reserved_pages_trans f g b b1 b2 :
  reserved_pages f b b1 -> reserved_pages g b1 b2 -> reserved_pages (fun q => f q || g q) b b2.
Proof.
  intros [A1 A2 A3] [B1 B2 B3]. split; [congruence..|]. intros q. rewrite B3, A3. destruct (mem_map b !! q) as [x|]; [|by destruct (f q)].
  simpl. destruct (f q), (g q); simpl; try done. by rewrite set_reserved_twice.
Qed.

Lemma reserve_pfns_ok n p b :
  exists b', reserve_pfns n p b = Some b' /\ reserved_pages (fun q => (p <=? q) && (q <? p + Z.of_nat n)) b b'.
Proof.
  revert p b. induction n as [|n IH]; intros p b; cbn [reserve_pfns].
  { exists b. split; [done|]. split; [done..|]. intros q.
    destruct ((p <=? q) && (q <? p + Z.of_nat 0)) eqn:E; [zbool; lia|]. by destruct (mem_map b !! q). }
  assert (exists b1, (if pfn_valid b p then SetPageReserved p b else Some b) = Some b1 /\ reserved_pages (fun q => q =? p) b b1) as (b1 & -> & H1).
  { unfold pfn_valid, SetPageReserved, on_page. destruct (mem_map b !! p) as [g|] eqn:Eg.
    - rewrite bool_decide_eq_true_2 by done. cbn [mbind option_bind]. eexists. split; [done|]. split; [done..|]. intros q.
      rewrite lookup_upd_page. case_decide as E; [subst q; by rewrite Z.eqb_refl, Eg|].
      rewrite (proj2 (Z.eqb_neq q p)) by done. by destruct (mem_map b !! q).
    - rewrite bool_decide_eq_false_2 by (by intros [? ?]). exists b. split; [done|]. split; [done..|]. intros q.
      destruct (Z.eqb_spec q p) as [->|]; [by rewrite Eg|]. by destruct (mem_map b !! q). }
  cbn [mbind option_bind]. destruct (IH (p + 1) b1) as (b2 & -> & H2). exists b2. split; [done|].
  destruct (reserved_pages_trans _ _ _ _ _ H1 H2) as [A B C]. split; [done..|]. intros q. rewrite C.
  replace ((q =? p) || (p + 1 <=? q) && (q <? p + 1 + Z.of_nat n)) with ((p <=? q) && (q <? p + Z.of_nat (S n))); [done|].
  apply eq_true_iff_eq. rewrite orb_true_iff, !andb_true_iff, !Z.leb_le, !Z.ltb_lt, Z.eqb_eq. lia.
Qed.

Lemma reserve_regions_ok l b :
  exists b', reserve_regions l b = Some b' /\ reserved_pages (marked_by l) b b'.
Proof.
  revert b. induction l as [|[s e] l IH]; intros b; cbn [reserve_regions].
  { exists b. split; [done|]. split; [done..|]. intros q. simpl. by destruct (mem_map b !! q). }
  unfold reserve_bootmem_region. destruct (reserve_pfns_ok (Z.to_nat (PFN_UP e - PFN_DOWN s)) (PFN_DOWN s) b) as (b1 & -> & H1).
  cbn [mbind option_bind]. destruct (IH b1) as (b2 & -> & H2). exists b2. split; [done|].
  destruct (reserved_pages_trans _ _ _ _ _ H1 H2) as [A B C]. split; [done..|]. intros q. rewrite C. simpl.
  replace ((PFN_DOWN s <=? q) && (q <? PFN_DOWN s + Z.of_nat (Z.to_nat (PFN_UP e - PFN_DOWN s)))) with ((PFN_DOWN s <=? q) && (q <? PFN_UP e)); [done|].
  apply eq_true_iff_eq. rewrite !andb_true_iff, !Z.leb_le, !Z.ltb_lt. lia.
Qed.

(** ** All of it *)

(** A page frame within one region of memory, none of it reserved *)
Definition usable (m : memblock) (q : Z) : Prop :=
  fits m PAGE_SIZE PAGE_SIZE 0 (2 ^ MAX_PHYSMEM_BITS) NUMA_NO_NODE (q * PAGE_SIZE).

(** Physical memory is below the limit of the architecture, and address 0 is not free. *)
Record boot_memory (m : memblock) : Prop := BootMemory {
  bm_ok : memblock_ok m;
  bm_limit r : r ∈ regions (memory m) -> rg_base r + rg_size r <= 2 ^ MAX_PHYSMEM_BITS;
  bm_zero : ~ free_at m NUMA_NO_NODE 0
}.

Section boot.
Context (m : memblock) (Hm : boot_memory m).
Let L := free_ranges NUMA_NO_NODE (memory m) (reserved m).

Lemma free_range_bounds : Forall (fun x => 0 < x.1 <= 2 ^ MAX_PHYSMEM_BITS /\ 0 <= x.2 <= 2 ^ MAX_PHYSMEM_BITS) L.
Proof.
  apply list.Forall_forall. intros [s e] Hin. pose proof Hin as (r & j & Hr & Hch & Hj & G1 & G2 & [= Es Ee])%elem_of_free_ranges.
  destruct (memory_region m (bm_ok _ Hm) r Hr) as (? & ? & Hre & ?). pose proof (bm_limit _ Hm r Hr).
  pose proof (gap_bounds _ j (type_ok_sorted _ (mo_reserved _ (bm_ok _ Hm))) Hj).
  assert (s <> 0).
  { intros ->. apply (bm_zero _ Hm), (free_ranges_cover m NUMA_NO_NODE (bm_ok _ Hm) 0). exists 0, e. split; [done|lia]. }
  simpl. lia.
Qed.

Lemma usable_pages q : q ∈ pages_of L <-> usable m q.
Proof.
  unfold usable. rewrite (fits_range m NUMA_NO_NODE (bm_ok _ Hm)) by (done || lia). rewrite elem_of_pages_of. fold L.
  pose proof free_range_bounds as Hb. rewrite list.Forall_forall in Hb. change PAGE_SIZE with 4096. split.
  - intros ([s e] & Hin & Hq). destruct (Hb _ Hin) as [? ?]. simpl in *. apply elem_of_pages_in in Hq; [|lia]. change PAGE_SIZE with 4096 in Hq.
    split; [by exists q|]. split; [lia|]. split; [lia|]. exists s, e. split; [done|]. lia.
  - intros (_ & _ & _ & s & e & Hin & ? & ?). destruct (Hb _ Hin) as [? ?]. simpl in *. exists (s, e). split; [done|].
    apply elem_of_pages_in; [lia|]. change PAGE_SIZE with 4096. lia.
Qed.

Lemma pages_nodup : NoDup (pages_of L).
Proof.
  pose proof (free_ranges_sorted m NUMA_NO_NODE (bm_ok _ Hm)) as Hs. fold L in Hs. pose proof free_range_bounds as Hb.
  induction Hs as [|[s e] l Hs IH Hlt]; [constructor|]. apply list.Forall_cons in Hb as [[H1 H2] Hb]. simpl in *.
  apply list.NoDup_app. split; [apply NoDup_seqZ|]. split; [|by apply IH]. intros q Hq ([s' e'] & Hin & Hq')%elem_of_pages_of.
  rewrite list.Forall_forall in Hb. destruct (Hb _ Hin) as [? ?]. rewrite List.Forall_forall in Hlt. apply list_elem_of_In in Hin. specialize (Hlt _ Hin).
  simpl in *. apply elem_of_pages_in in Hq, Hq'; [|lia..]. change PAGE_SIZE with 4096 in *. lia.
Qed.

(** The frames of a region *)
Definition frame_of (r : region) (q : Z) : Prop := rg_base r <= q * PAGE_SIZE /\ (q + 1) * PAGE_SIZE <= rg_base r + rg_size r.

(** The state before: no page is free, the usable ones are fresh, and those of a region
    that lie in one largest block are in the same zone. *)
Record boot_ready (b : buddy) (zof : Z -> Z) : Prop := BootReady {
  br_ok : buddy_ok b;
  br_empty q : ~ is_free b q;
  br_fresh q : usable m q -> fresh b (zof q) q;
  br_zones r q q' : r ∈ regions (memory m) -> frame_of r q -> frame_of r q' ->
    q / blk (MAX_ORDER - 1) = q' / blk (MAX_ORDER - 1) -> zof q = zof q'
}.

(** The state after: the free pages are the usable ones, [l]. *)
Record boot_done (b : buddy) (zof : Z -> Z) (l : list Z) (b' : buddy) : Prop := BootDone {
  bd_ok : buddy_ok b';
  bd_usable q : q ∈ l <-> usable m q;
  bd_nodup : NoDup l;
  bd_free q : is_free b' q <-> usable m q;
  bd_stat : vm_zone_stat b' = vm_zone_stat b + Z.of_nat (length l);
  bd_rest q : ~ usable m q -> mem_map b' !! q =
    (if marked_by (for_each_reserved_mem_region m) q then set_reserved else id) <$> mem_map b !! q;
  bd_zone q : pg_zone <$> mem_map b' !! q = pg_zone <$> mem_map b !! q;
  bd_managed z : wrap ∘ managed_pages <$> zones b' !! z = (fun n => n +u in_zone zof z l) ∘ managed_pages <$> zones b !! z
}.

Lemma usable_count l : NoDup l -> (forall q, q ∈ l -> usable m q) -> Z.of_nat (length l) <= 2 ^ 34.
Proof.
  intros Hnd Hu. assert (Hsub : l ⊆+ seqZ 0 (2 ^ 34)).
  { apply NoDup_submseteq; [done|]. intros q Hq. apply Hu in Hq as [_ H1 H2 _ _]. apply elem_of_seqZ.
    change PAGE_SIZE with 4096 in *. unfold MAX_PHYSMEM_BITS in *. lia. }
  apply submseteq_length in Hsub. rewrite length_seqZ in Hsub. lia.
Qed.

Lemma pages_count : Z.of_nat (length (pages_of L)) <= 2 ^ 34.
Proof. apply usable_count; [apply pages_nodup|]. intros q. apply usable_pages. Qed.

Lemma range_region x q q' : x ∈ L -> q ∈ pages_in x -> q' ∈ pages_in x -> exists r, r ∈ regions (memory m) /\ frame_of r q /\ frame_of r q'.
Proof.
  intros Hx Hq Hq'. pose proof free_range_bounds as Hb. rewrite list.Forall_forall in Hb. destruct (Hb _ Hx) as [? ?]. destruct x as [s e]. simpl in *.
  pose proof Hx as (r & j & Hr & _ & _ & _ & _ & [= -> ->])%elem_of_free_ranges. destruct (memory_region m (bm_ok _ Hm) r Hr) as (? & ? & Hre & ?).
  apply elem_of_pages_in in Hq, Hq'; [|lia..]. exists r. unfold frame_of. split; [done|]. lia.
Qed.

Lemma fresh_reserved b b' f z q : (forall q, ~ is_free b q) -> reserved_pages f b b' -> fresh b z q -> fresh b' z q.
Proof.
  intros Hn [Hz _ Hmm] [(g & Hg & Hgz & Hgm & Hgf) Hnf]. split.
  - rewrite Hmm, Hg. eexists. split; [done|]. destruct (f q); [|done]. simpl. split; [done|]. split; [done|]. rewrite <- Hgf. f_equal.
    apply Z.bits_inj'. intros n H0. rewrite !Z.clearbit_eqb, Z.setbit_eqb by done. by destruct (PG_reserved =? n), (Z.testbit (pg_flags g) n).
  - unfold is_free, flist, area. rewrite Hz. apply Hn.
Qed.

Lemma free_all_bootmem_ok b zof totalram :
  boot_ready b zof ->
  exists l b', free_all_bootmem m totalram b = Some (Z.of_nat (length l), totalram +u Z.of_nat (length l), b') /\ boot_done b zof l b'.
Proof.
  intros [Hb Hn Hf Hz]. unfold free_all_bootmem, free_low_memory_core_early.
  destruct (reserve_regions_ok (for_each_reserved_mem_region m) b) as (b1 & -> & Hr). cbn [mbind option_bind].
  assert (Hos : outside b b1).
  { destruct Hr as [Hrz _ Hrm]. split.
    - intros z o. unfold area. by rewrite Hrz.
    - intros z. by rewrite Hrz.
    - intros q Hq. by destruct (Hn q).
    - intros q. rewrite Hrm. destruct (mem_map b !! q); [|done]. by destruct (marked_by _ q). }
  rewrite (forward_ranges m NUMA_NO_NODE (bm_ok _ Hm)). fold L.
  destruct (free_ranges_core_ok zof L 0 b1) as (b' & -> & Hsw).
  - eapply outside_ok; [exact Hos|apply Hr|done].
  - apply free_range_bounds.
  - done.
  - apply pages_nodup.
  - intros q Hq. apply (fresh_reserved b _ _ _ _ Hn Hr), Hf. by apply usable_pages.
  - intros x q q' Hx Hq Hq'. destruct (range_region x q q' Hx Hq Hq') as (r & ? & ? & ?). by apply (Hz r).
  - pose proof pages_count. cbn [mbind option_bind]. exists (pages_of L), b'. rewrite Z.add_0_l, wrap_small by (unfold is_u64, ULONG_MOD; lia). split; [done|].
    destruct Hsw as [W1 W2 W3 W4 W5 W6]. split; [done|apply usable_pages|apply pages_nodup|..].
    + intros q. rewrite W2, usable_pages, (outside_free _ _ Hos). split; [intros [?|?]; [by destruct (Hn q)|done]|by right].
    + by rewrite W3, (rp_stat _ _ _ Hr).
    + intros q Hq. rewrite W4, (rp_map _ _ _ Hr); [done|by rewrite usable_pages|]. by rewrite (outside_free _ _ Hos).
    + intros q. rewrite W5, (rp_map _ _ _ Hr). destruct (mem_map b !! q); [|done]. by destruct (marked_by _ q).
    + intros z. by rewrite W6, (rp_zones _ _ _ Hr).
Qed.
End boot.
