(* ===== verification/BuddyTheorems.v ===== *)
(** * Physical pages, the buddy allocator: theorems

    Allocation and freeing of blocks of pages, and that one undoes the other. *)

From stdpp Require Import gmap.
From S2P Require Import Prelude BuddyModel BuddyInv BuddyFree BuddyAlloc BootModel BootFree.

(** No aligned run of [2^o] free pages in the zone *)
Definition no_run (b : buddy) (z : Z) (o : nat) : Prop :=
  forall p, (blk o | p) -> ~ forall q, in_block p o q -> free_in b z q.

(** The same free blocks, in any order in the lists, and the same counters *)
Record same_free (b b' : buddy) : Prop := SameFree {
  sf_lists z o : flist b' z o ≡ₚ flist b z o;
  sf_stat : vm_zone_stat b' = vm_zone_stat b;
  sf_rest q : ~ is_free b q -> mem_map b' !! q = mem_map b !! q
}.

Lemma flist_nodup b z o : lists_ok b -> NoDup (flist b z o).
Proof. intros Hb. unfold flist. destruct (area z o b) as [a|] eqn:E; [|constructor]. by apply (lo_area _ Hb z o a). Qed.

Lemma allocated_released gfp b z p o b1 b2 :
  buddy_ok b -> allocated gfp b z p o b1 -> released b1 p o b2 -> same_free b b2.
Proof.
  intros Hb [A1 A2 A3 A4 A5 A6 A7 A8] [R1 R2 R3 R4 R5 R6 R7].
  assert (Hf : forall q, is_free b q <-> is_free b2 q) by (intros q; by rewrite A3, R2).
  assert (Hz : forall q, pg_zone <$> mem_map b2 !! q = pg_zone <$> mem_map b !! q).
  { intros q. rewrite <- A6. specialize (R5 q). apply (f_equal (fmap fst)) in R5. by rewrite <- !option_fmap_compose in R5. }
  assert (Hin : forall z' q, free_in b z' q <-> free_in b2 z' q).
  { assert (Hdir : forall c c' z' q, buddy_ok c -> buddy_ok c' -> (forall q, is_free c q -> is_free c' q) ->
      pg_zone <$> mem_map c' !! q = pg_zone <$> mem_map c !! q -> free_in c z' q -> free_in c' z' q).
    { intros c c' z' q Hc Hc' Hcf Hcz (o' & p' & Hp' & Hq). destruct (lo_block _ (bo_lists _ Hc) _ _ _ _ Hp' Hq) as (g & Hg & <- & _).
      rewrite Hg in Hcz. destruct (mem_map c' !! q) as [g'|] eqn:Eg'; [|done]. injection Hcz as <-.
      apply is_free_in; [apply Hc'|done|]. apply Hcf. by exists (pg_zone g), o', p'. }
    intros z' q. split; apply Hdir; try done; try (intros ?; apply Hf). }
  split.
  - intros z' o'. apply NoDup_Permutation; [apply flist_nodup, R1|apply flist_nodup, Hb|]. intros p'.
    split; apply flist_canonical; try apply R1; try apply Hb; intros q; by rewrite Hin.
  - rewrite R3, A4. lia.
  - intros q Hq. rewrite R6, A7; [done|done|..].
    + intros Hx. apply Hq, A3. by right.
    + intros Hx. apply Hq, A3. by left.
Qed.

Lemma alloc_allocated b gfp highest order zonelist p b' :
  buddy_ok b -> gfp_zone gfp = Some highest -> Forall (fun z => is_Some (zones b !! z)) (zones_of_list highest zonelist) ->
  __alloc_pages_nodemask gfp order zonelist b = Some (Some p, b') -> exists z, allocated gfp b z p order b'.
Proof.
  intros Hb Hg Hz. unfold __alloc_pages_nodemask. destruct zonelist as [|zr l] eqn:El; [done|].
  rewrite <- El in *. unfold get_page_from_freelist. rewrite Hg. cbn [mbind option_bind].
  destruct (page_from_zones_ok (zones_of_list highest zonelist) b gfp order Hb Hz) as (r & b1 & -> & Hr).
  cbn [mbind option_bind]. destruct r as [p'|]; [|by destruct (order <? MAX_ORDER)%nat].
  intros [= -> ->]. destruct Hr as (l1 & z & l2 & _ & _ & Ha). by exists z.
Qed.

(** ** Addresses of pages *)

(** Frames below the limit of the direct mapping of physical memory *)
Definition low_frames (b : buddy) : Prop := forall q, is_Some (mem_map b !! q) -> q < 2 ^ 34.

Lemma virt_to_pfn_of p : 0 <= p < 2 ^ 34 ->
  page_to_virt p <> 0 /\ virt_to_pfn (page_to_virt p) = p /\ forall b, virt_addr_valid b (page_to_virt p) = pfn_valid b p.
Proof.
  intros Hp. unfold page_to_virt, virt_to_pfn, __phys_addr_nodebug, virt_addr_valid. rewrite Z.shiftl_mul_pow2 by done. change (2 ^ PAGE_SHIFT) with 4096.
  rewrite (wrap_small (p * 4096)) by (unfold is_u64, ULONG_MOD; lia).
  rewrite (wrap_small (p * 4096 + PAGE_OFFSET)) by (unfold is_u64, ULONG_MOD, PAGE_OFFSET; lia).
  set (x := p * 4096 + PAGE_OFFSET). assert (Hx : x < __START_KERNEL_map) by (unfold x, PAGE_OFFSET, __START_KERNEL_map; lia).
  split; [unfold x, PAGE_OFFSET; lia|].
  assert (Hy : x -u __START_KERNEL_map = x - __START_KERNEL_map + ULONG_MOD).
  { unfold wrap. symmetry. apply Z.mod_unique with (q := -1); unfold x, ULONG_MOD, PAGE_OFFSET, __START_KERNEL_map in *; lia. }
  rewrite Hy. rewrite (proj2 (Z.ltb_ge _ _)) by (unfold ULONG_MOD, __START_KERNEL_map in *; lia).
  change (__START_KERNEL_map -u PAGE_OFFSET) with (__START_KERNEL_map - PAGE_OFFSET).
  replace (x - __START_KERNEL_map + ULONG_MOD + (__START_KERNEL_map - PAGE_OFFSET)) with (p * 4096 + 1 * ULONG_MOD) by (unfold x; lia).
  assert (Hw : wrap (p * 4096 + 1 * ULONG_MOD) = p * 4096) by (unfold wrap; rewrite Z.mod_add by done; apply Z.mod_small; unfold ULONG_MOD; lia).
  rewrite Hw. rewrite Z.shiftr_div_pow2 by done. split; [by apply Z.div_mul|]. intros b.
  rewrite (proj2 (Z.ltb_ge _ _)) by (unfold x, ULONG_MOD, PAGE_OFFSET, __START_KERNEL_map in *; lia). by rewrite Z.div_mul.
Qed.

Lemma alloc_pages_ok (b : buddy) (gfp highest : Z) (order : nat) (zonelist : list zoneref) :
  buddy_ok b -> (order < MAX_ORDER)%nat -> zonelist <> [] -> gfp_zone gfp = Some highest ->
  Forall (fun z => is_Some (zones b !! z)) (zones_of_list highest zonelist) ->
  match __alloc_pages_nodemask gfp order zonelist b with
  | Some (Some p, b') => exists l1 z l2, zones_of_list highest zonelist = l1 ++ z :: l2 /\
      Forall (fun z => no_run b z order) l1 /\ allocated gfp b z p order b'
  | Some (None, _) => False
  | None => Forall (fun z => no_run b z order) (zones_of_list highest zonelist)
  end.
Proof.
  intros Hb Ho Hne Hg Hz. unfold __alloc_pages_nodemask. destruct zonelist as [|zr l] eqn:El; [done|]. rewrite <- El in *.
  unfold get_page_from_freelist. rewrite Hg. cbn [mbind option_bind].
  assert (Hex : forall k, Forall (fun z => exhausted b z order) k -> Forall (fun z => no_run b z order) k).
  { intros k Hk. eapply list.Forall_impl; [exact Hk|]. intros z He p. apply exhausted_no_run; [apply Hb|done..]. }
  destruct (page_from_zones_ok (zones_of_list highest zonelist) b gfp order Hb Hz) as (r & b' & -> & Hr).
  cbn [mbind option_bind]. destruct r as [p|].
  - destruct Hr as (l1 & z & l2 & E & He & Ha). exists l1, z, l2. auto.
  - destruct Hr as [_ He]. rewrite (proj2 (Nat.ltb_lt _ _) Ho). auto.
Qed.

(** ** The theorems *)

(** (C7) An allocation of a block takes it from the first zone of the list that has an
    aligned run of free pages of that size: the block is in use with one reference, its
    contents cleared if that was asked for, and no other page changes but for the marks
    of the free block that was split.  It fails, with a panic, only if no allowed zone
    has such a run. *)
Theorem alloc_pages_correct (b : buddy) (gfp highest : Z) (order : nat) (zonelist : list zoneref) :
  buddy_ok b -> (order < MAX_ORDER)%nat -> zonelist <> [] -> gfp_zone gfp = Some highest ->
  Forall (fun z => is_Some (zones b !! z)) (zones_of_list highest zonelist) ->
  match __alloc_pages_nodemask gfp order zonelist b with
  | Some (Some p, b') => exists l1 z l2, zones_of_list highest zonelist = l1 ++ z :: l2 /\
      Forall (fun z => no_run b z order) l1 /\ allocated gfp b z p order b'
  | Some (None, _) => False
  | None => Forall (fun z => no_run b z order) (zones_of_list highest zonelist)
  end.
Proof. apply alloc_pages_ok. Qed.

(** (C8) Freeing drops a reference of a block; the last reference makes its pages free,
    merged with their free buddies, and changes nothing else but the marks of those. *)
Theorem free_pages_correct (b : buddy) (z p : Z) (o : nat) (n : Z) :
  buddy_ok b -> in_use b z p o n -> 0 < n ->
  exists b', __free_pages p o b = Some b' /\
    if n =? 1 then released b p o b'
    else buddy_ok b' /\ in_use b' z p o (n - 1) /\ zones b' = zones b /\ vm_zone_stat b' = vm_zone_stat b /\
         (forall q, is_free b' q <-> is_free b q) /\ (forall q, q <> p -> mem_map b' !! q = mem_map b !! q).
Proof. apply __free_pages_correct. Qed.

(** A block that is allocated by address and freed again leaves the same free
    blocks in every list of every zone, and every page that was in use as it was. *)
Theorem get_free_pages_roundtrip (b : buddy) (gfp highest : Z) (order : nat) (zonelist : list zoneref) (addr : Z) (b1 : buddy) :
  buddy_ok b -> low_frames b -> gfp_zone gfp = Some highest ->
  Forall (fun z => is_Some (zones b !! z)) (zones_of_list highest zonelist) ->
  __get_free_pages gfp order zonelist b = Some (addr, b1) -> addr <> 0 ->
  exists b2, free_pages addr order b1 = Some b2 /\ buddy_ok b2 /\ same_free b b2.
Proof.
  intros Hb Hlow Hg Hz. unfold __get_free_pages. destruct (__alloc_pages_nodemask gfp order zonelist b) as [[[p|] b']|] eqn:E; [| |done].
  2:{ cbn [mbind option_bind]. by intros [= <- <-]. }
  cbn [mbind option_bind]. intros [= <- <-] Hne. destruct (alloc_allocated _ _ _ _ _ _ _ Hb Hg Hz E) as [z Ha].
  pose proof (al_use _ _ _ _ _ _ Ha) as Hu.
  destruct (iu_page _ _ _ _ _ Hu p) as (g & Hp & _); [auto with lego|].
  assert (Hpb : is_Some (mem_map b !! p)).
  { rewrite <- (fmap_is_Some pg_zone), <- (al_zone _ _ _ _ _ _ Ha), fmap_is_Some, Hp. done. }
  destruct (virt_to_pfn_of p) as (Hn & Hv & Hval).
  { split; [|by apply Hlow]. destruct Hpb as [g0 Hg0]. by apply (map_nonneg _ (lo_map _ (bo_lists _ Hb)) p g0). }
  unfold free_pages. rewrite (proj2 (Z.eqb_neq _ _) Hn), Hv, Hval. unfold pfn_valid. rewrite (bool_decide_eq_true_2 (is_Some (mem_map b' !! p))) by (by rewrite Hp). cbn [negb].
  destruct (__free_pages_correct b' z p order 1 (al_ok _ _ _ _ _ _ Ha) Hu ltac:(lia)) as (b2 & -> & Hrel).
  exists b2. split; [done|]. split; [apply Hrel|]. by eapply allocated_released.
Qed.

(** ** An example: one zone of one largest block *)

Definition ex_page : page := Page 0 (-1) 1 0 ZONE_NORMAL zero_bytes.
Definition ex_map : gmap Z page := list_to_map ((fun q => (q, ex_page)) <$> seqZ 0 1024).
Definition ex_idle : buddy := Buddy ex_map {[ZONE_NORMAL := Zone (replicate MAX_ORDER empty_area) 0 0]} 0.

(** All pages of it freed *)
Definition ex_free : buddy := default ex_idle (__free_pages_boot_core 0 10 ex_idle).
Definition ex_zonelist : list zoneref := [Zoneref ZONE_NORMAL ZONE_NORMAL].

Lemma ex_map_lookup q : ex_map !! q = if decide (0 <= q < 1024) then Some ex_page else None.
Proof.
  unfold ex_map. case_decide as H.
  - apply elem_of_list_to_map_1.
    + rewrite <- list_fmap_compose. rewrite (list_fmap_ext (fst ∘ (fun q => (q, ex_page))) id) by done. rewrite list_fmap_id. apply NoDup_seqZ.
    + apply list_elem_of_fmap. exists q. split; [done|]. apply elem_of_seqZ. lia.
  - apply not_elem_of_list_to_map_1. intros (y & -> & (q' & -> & Hq)%list_elem_of_fmap)%list_elem_of_fmap. apply elem_of_seqZ in Hq. simpl in H. lia.
Qed.

Lemma ex_idle_ok : idle ex_idle.
Proof.
  split.
  - split; cbn [mem_map zones ex_idle].
    + intros p g. rewrite ex_map_lookup. case_decide; [|done]. by intros [= <-].
    + intros p g. rewrite ex_map_lookup. case_decide; [lia|done].
    + intros p q. rewrite !ex_map_lookup. change (blk (MAX_ORDER - 1)) with 1024.
      case_decide as H; [|by intros [? ?]]. intros _ E. rewrite Z.div_small in E by done.
      rewrite decide_True; [done|]. pose proof (Z.div_mod q 1024). pose proof (Z.mod_pos_bound q 1024). lia.
    + intros z zn [<- <-]%lookup_singleton_Some. done.
  - intros z zn. cbn [zones ex_idle]. intros [<- <-]%lookup_singleton_Some. done.
  - intros p g. cbn [mem_map ex_idle]. rewrite ex_map_lookup. case_decide; [|done]. by intros [= <-].
Qed.

Lemma ex_free_ok : booted ex_idle ZONE_NORMAL 0 10 ex_free.
Proof.
  destruct (free_pages_boot_core_ok ex_idle ZONE_NORMAL 0 10) as (b' & E & Hb).
  - apply idle_ok, ex_idle_ok.
  - unfold MAX_ORDER. lia.
  - apply Z.divide_0_r.
  - intros q Hq. split; [|apply idle_not_free, ex_idle_ok]. exists ex_page. split; [|done]. cbn [mem_map ex_idle].
    rewrite ex_map_lookup, decide_True; [done|]. exact Hq.
  - unfold ex_free. by rewrite E.
Qed.

Lemma ex_free_zone : is_Some (zones ex_free !! ZONE_NORMAL).
Proof.
  pose proof (bt_managed _ _ _ _ _ ex_free_ok ZONE_NORMAL) as H. cbn [zones ex_idle] in H. rewrite lookup_singleton in H.
  destruct (zones ex_free !! ZONE_NORMAL); [done|]. by rewrite decide_True in H.
Qed.

Lemma ex_zone q : 0 <= q < 1024 -> pg_zone <$> mem_map ex_free !! q = Some ZONE_NORMAL.
Proof.
  intros Hq. rewrite (bt_zone _ _ _ _ _ ex_free_ok q). change (mem_map ex_idle) with ex_map. by rewrite ex_map_lookup, decide_True.
Qed.

#[local] Opaque ex_free.

Lemma ex_free_in q : 0 <= q < 1024 -> free_in ex_free ZONE_NORMAL q.
Proof.
  intros Hq. pose proof (ex_zone q Hq) as Hz. destruct (mem_map ex_free !! q) as [g|] eqn:E; [|discriminate Hz].
  injection Hz as <-. apply is_free_in; [apply ex_free_ok|exact E|]. apply (bt_free _ _ _ _ _ ex_free_ok q). right. exact Hq.
Qed.

Lemma ex_low : low_frames ex_free.
Proof.
  intros q Hf. rewrite <- (fmap_is_Some pg_zone), (bt_zone _ _ _ _ _ ex_free_ok q), fmap_is_Some in Hf.
  change (mem_map ex_idle) with ex_map in Hf. rewrite ex_map_lookup in Hf. case_decide; [lia|]. by destruct Hf.
Qed.

(** Eight pages can be had. *)
Lemma ex_eight gfp : gfp_zone gfp = Some ZONE_NORMAL ->
  exists p b', __alloc_pages_nodemask gfp 3 ex_zonelist ex_free = Some (Some p, b').
Proof.
  intros Hg. destruct (page_from_zones_ok (zones_of_list ZONE_NORMAL ex_zonelist) ex_free gfp 3 (bt_ok _ _ _ _ _ ex_free_ok)) as (r & b' & E & Hr).
  { constructor; [exact ex_free_zone|constructor]. }
  unfold __alloc_pages_nodemask, get_page_from_freelist. rewrite Hg. cbn [mbind option_bind ex_zonelist].
  change [Zoneref ZONE_NORMAL ZONE_NORMAL] with ex_zonelist. rewrite E. cbn [mbind option_bind]. destruct r as [p|]; [by exists p, b'|].
  destruct Hr as [_ Hr]. apply list.Forall_cons in Hr as [Hr _]. exfalso.
  apply (exhausted_no_run ex_free ZONE_NORMAL 3 0 (bo_lists _ (bt_ok _ _ _ _ _ ex_free_ok)) Hr); [unfold MAX_ORDER; lia|apply Z.divide_0_r|].
  intros q Hq. apply ex_free_in. unfold in_block, blk in Hq. simpl in Hq. lia.
Qed.

Lemma alloc_pages_correct_witness :
  exists z p b', __alloc_pages_nodemask ___GFP_ZERO 3 ex_zonelist ex_free = Some (Some p, b') /\ allocated ___GFP_ZERO ex_free z p 3 b'.
Proof.
  pose proof (alloc_pages_correct ex_free ___GFP_ZERO ZONE_NORMAL 3 ex_zonelist (bt_ok _ _ _ _ _ ex_free_ok)) as H.
  specialize (H ltac:(unfold MAX_ORDER; lia) ltac:(discriminate) eq_refl ltac:(constructor; [exact ex_free_zone|constructor])).
  destruct (ex_eight ___GFP_ZERO eq_refl) as (p & b' & E). rewrite E in H. destruct H as (l1 & z & l2 & _ & _ & H).
  exists z, p, b'. split; [exact E|exact H].
Defined.

Lemma free_pages_correct_witness :
  exists p b1 b2, __alloc_pages_nodemask 0 3 ex_zonelist ex_free = Some (Some p, b1) /\
    __free_pages p 3 b1 = Some b2 /\ released b1 p 3 b2.
Proof.
  destruct (ex_eight 0 eq_refl) as (p & b1 & E).
  destruct (alloc_allocated ex_free 0 ZONE_NORMAL 3 ex_zonelist p b1 (bt_ok _ _ _ _ _ ex_free_ok) eq_refl) as [z Ha];
    [constructor; [exact ex_free_zone|constructor]|exact E|].
  destruct (free_pages_correct b1 z p 3 1 (al_ok _ _ _ _ _ _ Ha) (al_use _ _ _ _ _ _ Ha) ltac:(lia)) as (b2 & E2 & H).
  exists p, b1, b2. split; [exact E|]. split; [exact E2|exact H].
Defined.

Lemma get_free_pages_roundtrip_witness :
  exists addr b1 b2, __get_free_pages 0 3 ex_zonelist ex_free = Some (addr, b1) /\
    free_pages addr 3 b1 = Some b2 /\ same_free ex_free b2.
Proof.
  destruct (ex_eight 0 eq_refl) as (p & b1 & E). assert (Hz : Forall (fun z => is_Some (zones ex_free !! z)) (zones_of_list ZONE_NORMAL ex_zonelist))
    by (constructor; [exact ex_free_zone|constructor]).
  destruct (alloc_allocated ex_free 0 ZONE_NORMAL 3 ex_zonelist p b1 (bt_ok _ _ _ _ _ ex_free_ok) eq_refl Hz E) as [z Ha].
  assert (Hp : 0 <= p < 2 ^ 34).
  { assert (is_free ex_free p) as (z' & o' & p' & Hp' & Hq') by (apply (al_free _ _ _ _ _ _ Ha); right; apply in_block_head).
    destruct (lo_block _ (bo_lists _ (bt_ok _ _ _ _ _ ex_free_ok)) _ _ _ _ Hp' Hq') as (g & Hg & _).
    split; [by apply (map_nonneg _ (lo_map _ (bo_lists _ (bt_ok _ _ _ _ _ ex_free_ok))) p g)|]. apply ex_low. by exists g. }
  assert (Eg : __get_free_pages 0 3 ex_zonelist ex_free = Some (page_to_virt p, b1)) by (unfold __get_free_pages; rewrite E; reflexivity).
  destruct (get_free_pages_roundtrip ex_free 0 ZONE_NORMAL 3 ex_zonelist (page_to_virt p) b1 (bt_ok _ _ _ _ _ ex_free_ok) ex_low eq_refl Hz Eg)
    as (b2 & E2 & _ & H); [by apply virt_to_pfn_of|].
  exists (page_to_virt p), b1, b2. split; [exact Eg|]. split; [exact E2|exact H].
Defined.
