(* ===== verification/SlobModel.v ===== *)
(** * Kernel memory, the object allocator: the model

    mm/slob.c over the page allocator of BuddyModel.v; include/lego/slab.h, gfp.h.

    Pointers are kernel virtual addresses, and a [struct page *] is a page frame number.
    The free blocks of a page are linked through the page itself: its bytes are
    [pg_data].  An access to an address that has no [struct page] gives [None], as does a
    BUG.  The fields [units] and [freelist] of a [struct page] are the maps [sp_units] and
    [sp_freelist]; a list of pages is the list of its entries from the head on.  Every
    operation runs under [slob_lock]. *)

From stdpp Require Import gmap.
From S2P Require Import Prelude BuddyModel.

Record slob := Slob {
  sl_buddy : buddy;
  sp_units : gmap Z Z;
  sp_freelist : gmap Z Z;
  free_slob_small : list Z;
  free_slob_medium : list Z;
  free_slob_large : list Z
}.

Definition with_buddy (b : buddy) (st : slob) : slob :=
  Slob b (sp_units st) (sp_freelist st) (free_slob_small st) (free_slob_medium st) (free_slob_large st).
Definition set_units (p v : Z) (st : slob) : slob :=
  Slob (sl_buddy st) (<[p := v]> (sp_units st)) (sp_freelist st) (free_slob_small st) (free_slob_medium st) (free_slob_large st).
Definition set_freelist (p v : Z) (st : slob) : slob :=
  Slob (sl_buddy st) (sp_units st) (<[p := v]> (sp_freelist st)) (free_slob_small st) (free_slob_medium st) (free_slob_large st).
Definition units_of (st : slob) (p : Z) : Z := default 0 (sp_units st !! p).
Definition freelist_of (st : slob) (p : Z) : Z := default 0 (sp_freelist st !! p).

Inductive slob_class := SmallObjects | MediumObjects | LargeObjects.
Definition class_list (c : slob_class) (st : slob) : list Z :=
  match c with SmallObjects => free_slob_small st | MediumObjects => free_slob_medium st | LargeObjects => free_slob_large st end.
Definition set_class_list (c : slob_class) (l : list Z) (st : slob) : slob :=
  match c with
  | SmallObjects => Slob (sl_buddy st) (sp_units st) (sp_freelist st) l (free_slob_medium st) (free_slob_large st)
  | MediumObjects => Slob (sl_buddy st) (sp_units st) (sp_freelist st) (free_slob_small st) l (free_slob_large st)
  | LargeObjects => Slob (sl_buddy st) (sp_units st) (sp_freelist st) (free_slob_small st) (free_slob_medium st) l
  end.

(** ** Memory *)

Definition load8 (a : Z) (b : buddy) : option Z :=
  g ← mem_map b !! virt_to_pfn a;
  pg_data g !! Z.to_nat (offset_in_page a).
Definition store8 (a v : Z) (b : buddy) : option buddy :=
  g ← mem_map b !! virt_to_pfn a;
  let i := Z.to_nat (offset_in_page a) in
  if (i <? length (pg_data g))%nat then Some (upd_page (virt_to_pfn a) (with_data (<[i := v]> (pg_data g))) b) else None.

(** Little-endian bytes, [n] of them *)
Fixpoint load_le (n : nat) (a : Z) (b : buddy) : option Z :=
  match n with O => Some 0 | S n => v ← load8 a b; w ← load_le n (a +u 1) b; Some (v + 256 * w) end.
Fixpoint store_le (n : nat) (a v : Z) (b : buddy) : option buddy :=
  match n with O => Some b | S n => b ← store8 a (v mod 256) b; store_le n (a +u 1) (v / 256) b end.
Fixpoint memset (n : nat) (a v : Z) (b : buddy) : option buddy :=
  match n with O => Some b | S n => b ← store8 a v b; memset n (a +u 1) v b end.

Definition to_s16 (v : Z) : Z := (v + 2 ^ 15) mod 2 ^ 16 - 2 ^ 15.
Definition load16 (a : Z) (b : buddy) : option Z := v ← load_le 2 a b; Some (to_s16 v).
Definition store16 (a v : Z) (b : buddy) : option buddy := store_le 2 a v b.

(** ** Flags of pages *)

Definition PG_slab : Z := 8.
Definition PG_slob_free : Z := 9.
Definition test_flag (n : Z) (g : page) : bool := Z.testbit (pg_flags g) n.
Definition PageSlab (g : page) : bool := test_flag PG_slab g.
Definition PageSlobFree (g : page) : bool := test_flag PG_slob_free g.
Definition set_flag (n : Z) (g : page) : page := with_pflags (Z.lor (pg_flags g) (Z.shiftl 1 n)) g.
Definition clear_flag (n : Z) (g : page) : page := with_pflags (Z.ldiff (pg_flags g) (Z.shiftl 1 n)) g.

Definition on_buddy (f : buddy -> option buddy) (st : slob) : option slob := b ← f (sl_buddy st); Some (with_buddy b st).

Definition slob_page_free (p : Z) (st : slob) : option bool := g ← mem_map (sl_buddy st) !! p; Some (PageSlobFree g).
Definition set_slob_page_free (p : Z) (c : slob_class) (st : slob) : option slob :=
  on_buddy (on_page p (set_flag PG_slob_free)) (set_class_list c (p :: class_list c st) st).
(** The page is in one of the lists. *)
Definition clear_slob_page_free (p : Z) (st : slob) : option slob :=
  on_buddy (on_page p (clear_flag PG_slob_free))
    (Slob (sl_buddy st) (sp_units st) (sp_freelist st) (list_del p (free_slob_small st)) (list_del p (free_slob_medium st))
       (list_del p (free_slob_large st))).

(** ** Free blocks *)

Definition SLOB_BREAK1 : Z := 256.
Definition SLOB_BREAK2 : Z := 1024.
Definition SLOB_UNIT : Z := 2.
Definition SLOB_UNITS (size : Z) : Z := (size + (SLOB_UNIT - 1)) / SLOB_UNIT.

(** [s + n] of a [slob_t *] *)
Definition slob_add (s n : Z) : Z := s +u n * SLOB_UNIT.

Definition set_slob (s size next : Z) (b : buddy) : option buddy :=
  let size := to_s16 size in
  let base := Z.land s PAGE_MASK in
  let offset := to_s16 ((next - base) / SLOB_UNIT) in
  if 1 <? size then b ← store16 s size b; store16 (slob_add s 1) offset b
  else store16 s (- offset) b.

Definition slob_units (s : Z) (b : buddy) : option Z :=
  u ← load16 s b;
  Some (if 0 <? u then u else 1).

Definition slob_next (s : Z) (b : buddy) : option Z :=
  let base := Z.land s PAGE_MASK in
  u ← load16 s b;
  next ← (if u <? 0 then Some (- u) else load16 (slob_add s 1) b);
  Some (slob_add base next).

Definition slob_last (s : Z) (b : buddy) : option bool :=
  next ← slob_next s b;
  Some (offset_in_page next =? 0).

(** ** Allocation within a page *)

(** [cur] has room: the block is taken from [cur], after its first [delta] units. *)
Definition take_block (p units : Z) (prev : option Z) (cur avail aligned delta : Z) (st : slob) : option (Z * slob) :=
  '(prev, cur, avail, st) ←
    (if negb (delta =? 0) then
       next ← slob_next cur (sl_buddy st);
       st ← on_buddy (set_slob aligned (avail - delta) next) st;
       st ← on_buddy (set_slob cur delta aligned) st;
       avail ← slob_units aligned (sl_buddy st);
       Some (Some cur, aligned, avail, st)
     else Some (prev, cur, avail, st));
  next ← slob_next cur (sl_buddy st);
  st ←
    (if avail =? units then
       match prev with
       | Some prev => u ← slob_units prev (sl_buddy st); on_buddy (set_slob prev u next) st
       | None => Some (set_freelist p next st)
       end
     else
       st ← match prev with
            | Some prev => u ← slob_units prev (sl_buddy st); on_buddy (set_slob prev u (slob_add cur units)) st
            | None => Some (set_freelist p (slob_add cur units) st)
            end;
       on_buddy (set_slob (slob_add cur units) (avail - units) next) st);
  let st := set_units p (units_of st p - units) st in
  st ← (if units_of st p =? 0 then clear_slob_page_free p st else Some st);
  Some (cur, st).

(** The loop over the free blocks *)
Fixpoint page_alloc_loop (fuel : nat) (p units align : Z) (prev : option Z) (cur : Z) (st : slob) : option (option Z * slob) :=
  match fuel with
  | O => None
  | S fuel =>
      avail ← slob_units cur (sl_buddy st);
      let aligned := if align =? 0 then 0 else ALIGN cur align in
      let delta := if align =? 0 then 0 else (aligned - cur) / SLOB_UNIT in
      if units + delta <=? avail then
        '(b, st) ← take_block p units prev cur avail aligned delta st;
        Some (Some b, st)
      else
        last ← slob_last cur (sl_buddy st);
        if last : bool then Some (None, st)
        else next ← slob_next cur (sl_buddy st); page_alloc_loop fuel p units align (Some cur) next st
  end.

(** A page has at most as many free blocks as units. *)
Definition slob_page_alloc (p size align : Z) (st : slob) : option (option Z * slob) :=
  page_alloc_loop (Z.to_nat (SLOB_UNITS PAGE_SIZE)) p (SLOB_UNITS size) align None (freelist_of st p) st.

(** ** Allocation *)

Definition NUMA_NO_NODE : Z := -1.
Definition page_to_nid (g : page) : Z := pg_zone g / MAX_NR_ZONES.

Definition class_of (size : Z) : slob_class :=
  if size <? SLOB_BREAK1 then SmallObjects else if size <? SLOB_BREAK2 then MediumObjects else LargeObjects.

(** The next search starts here: the head of the list is moved in front of [prev->next],
    [prev] being the [k]-th entry, or the head if [k] is 0. *)
Definition rotate (k : nat) (l : list Z) : list Z :=
  if negb (bool_decide (list.last (take k l) = list.last l)) && negb (bool_decide (list.head l = list.head (drop k l)))
  then drop k l ++ take k l else l.

(** The loop over the pages of the list; [k] of them were passed. *)
Fixpoint slob_search (c : slob_class) (size align node : Z) (k : nat) (l : list Z) (st : slob) : option (option Z * slob) :=
  match l with
  | [] => Some (None, st)
  | p :: l =>
      g ← mem_map (sl_buddy st) !! p;
      if negb (node =? NUMA_NO_NODE) && negb (page_to_nid g =? node) then slob_search c size align node (S k) l st
      else if units_of st p <? SLOB_UNITS size then slob_search c size align node (S k) l st
      else
        '(b, st) ← slob_page_alloc p size align st;
        match b with
        | None => slob_search c size align node (S k) l st
        | Some b => Some (Some b, set_class_list c (rotate k (class_list c st)) st)
        end
  end.

(** [MAX_NUMNODES] *)
Definition MAX_NODES : Z := 64.

Section kmalloc.
(** The lists of zones of the nodes, and the node of this CPU *)
Context (node_zonelist : Z -> Z -> list zoneref) (smp_node_id : Z).

(** 0 if there is none *)
Definition slob_new_pages (gfp : Z) (order : nat) (node : Z) (b : buddy) : option (Z * buddy) :=
  let nid := if node =? NUMA_NO_NODE then smp_node_id else node in
  BUG_ON (nid <? 0) || (MAX_NODES <=? nid) ;;
  '(p, b) ← __alloc_pages_nodemask gfp order (node_zonelist nid gfp) b;
  match p with
  | None => Some (0, b)
  | Some p => b ← set_page_private p (Z.of_nat order) b; Some (page_to_virt p, b)
  end.

Definition slob_free_pages (a : Z) (order : nat) (b : buddy) : option buddy := free_pages a order b.

(** 0 if there is no memory *)
Definition slob_alloc (size gfp align node : Z) (st : slob) : option (Z * slob) :=
  let c := class_of size in
  '(b, st) ← slob_search c size align node 0 (class_list c st) st;
  '(b, st) ←
    match b with
    | Some b => Some (b, st)
    | None =>
        '(a, bd) ← slob_new_pages (Z.ldiff gfp ___GFP_ZERO) 0 node (sl_buddy st);
        let st := with_buddy bd st in
        if a =? 0 then Some (0, st)
        else
          let p := virt_to_pfn a in
          st ← on_buddy (on_page p (set_flag PG_slab)) st;
          let st := set_freelist p a (set_units p (SLOB_UNITS PAGE_SIZE) st) in
          st ← on_buddy (set_slob a (SLOB_UNITS PAGE_SIZE) (slob_add a (SLOB_UNITS PAGE_SIZE))) st;
          st ← set_slob_page_free p c st;
          '(b, st) ← slob_page_alloc p size align st;
          match b with
          | None => None
          | Some b => Some (b, st)
          end
    end;
  st ← (if negb (Z.land gfp ___GFP_ZERO =? 0) && negb (b =? 0) then on_buddy (memset (Z.to_nat size) b 0) st else Some st);
  Some (b, st).

(** ** Freeing *)

(** The loop that finds the free blocks around [a] *)
Fixpoint find_gap (fuel : nat) (a prev next : Z) (b : buddy) : option (Z * Z) :=
  match fuel with
  | O => None
  | S fuel => if next <? a then next2 ← slob_next next b; find_gap fuel a next next2 b else Some (prev, next)
  end.

(** The page is partially free. *)
Definition slob_insert (p a units : Z) (st : slob) : option slob :=
  let first := freelist_of st p in
  if a <? first then
    '(units, next) ←
      (if slob_add a units =? first then
         u ← slob_units first (sl_buddy st); n ← slob_next first (sl_buddy st); Some (units + u, n)
       else Some (units, first));
    st ← on_buddy (set_slob a units next) (set_freelist p next st);
    Some (set_freelist p a st)
  else
    next ← slob_next first (sl_buddy st);
    '(prev, next) ← find_gap (Z.to_nat (SLOB_UNITS PAGE_SIZE)) a first next (sl_buddy st);
    last ← slob_last prev (sl_buddy st);
    st ←
      (if negb last && (slob_add a units =? next) then
         u ← slob_units next (sl_buddy st); n ← slob_next next (sl_buddy st); on_buddy (set_slob a (units + u) n) st
       else on_buddy (set_slob a units next) st);
    u ← slob_units prev (sl_buddy st);
    if slob_add prev u =? a then
      ua ← slob_units a (sl_buddy st); n ← slob_next a (sl_buddy st); on_buddy (set_slob prev (ua + u) n) st
    else on_buddy (set_slob prev u a) st.

Definition slob_free (block size : Z) (st : slob) : option slob :=
  if block <=? 16 then Some st
  else
    BUG_ON size =? 0 ;;
    let p := virt_to_pfn block in
    let units := SLOB_UNITS size in
    free ← slob_page_free p st;
    if units_of st p + units =? SLOB_UNITS PAGE_SIZE then
      st ← (if free : bool then clear_slob_page_free p st else Some st);
      st ← on_buddy (on_page p (clear_flag PG_slab)) st;
      st ← on_buddy (page_mapcount_reset p) st;
      on_buddy (slob_free_pages block 0) st
    else if negb free then
      let st := set_freelist p block (set_units p units st) in
      st ← on_buddy (set_slob block units (Z.land (slob_add block (SLOB_UNITS PAGE_SIZE)) PAGE_MASK)) st;
      set_slob_page_free p (class_of size) st
    else
      slob_insert p block units (set_units p (units_of st p + units) st).

(** ** [kmalloc] and [kfree] *)

(** [max_t(size_t, ARCH_KMALLOC_MINALIGN, ARCH_SLAB_MINALIGN)] *)
Definition KMALLOC_ALIGN : Z := 8.
Definition ZERO_SIZE_PTR : Z := 16.

Definition fls64 (x : Z) : Z := if x =? 0 then 0 else Z.log2 x + 1.
Definition __get_order (size : Z) : nat := Z.to_nat (fls64 (Z.shiftr (size -u 1) PAGE_SHIFT)).

Definition __do_kmalloc_node (size gfp node : Z) (st : slob) : option (Z * slob) :=
  if size <? PAGE_SIZE - KMALLOC_ALIGN then
    if size =? 0 then Some (ZERO_SIZE_PTR, st)
    else
      '(m, st) ← slob_alloc (size + KMALLOC_ALIGN) gfp KMALLOC_ALIGN node st;
      if m =? 0 then Some (0, st)
      else st ← on_buddy (store_le 4 m size) st; Some (m +u KMALLOC_ALIGN, st)
  else
    '(a, b) ← slob_new_pages gfp (__get_order size) node (sl_buddy st);
    Some (a, with_buddy b st).

Definition __kmalloc (size gfp : Z) (st : slob) : option (Z * slob) := __do_kmalloc_node size gfp NUMA_NO_NODE st.
Definition __kmalloc_node (size gfp node : Z) (st : slob) : option (Z * slob) := __do_kmalloc_node size gfp node st.

Definition kfree (block : Z) (st : slob) : option slob :=
  BUG_ON block <=? ZERO_SIZE_PTR ;;
  let p := virt_to_pfn block in
  g ← mem_map (sl_buddy st) !! p;
  if PageSlab g then
    let m := block -u KMALLOC_ALIGN in
    size ← load_le 4 m (sl_buddy st);
    slob_free m (size + KMALLOC_ALIGN) st
  else on_buddy (__free_pages p (Z.to_nat (pg_private g))) st.

Definition ksize (block : Z) (st : slob) : option Z :=
  BUG_ON block =? 0 ;;
  if block =? ZERO_SIZE_PTR then Some 0
  else
    g ← mem_map (sl_buddy st) !! virt_to_pfn block;
    if negb (PageSlab g) then Some (Z.shiftl PAGE_SIZE (pg_private g))
    else size ← load_le 4 (block -u KMALLOC_ALIGN) (sl_buddy st); Some (SLOB_UNITS size * SLOB_UNIT).
End kmalloc.
