(* ===== verification/SlobPage.v ===== *)
(** * Kernel memory, the object allocator: the free blocks of a page

    The free blocks are ordered by address and never touch; each holds its size and the
    offset of the next one in its first units.  What follows works on the bytes of the
    page ([get16], [set16]), and then on the chain of the blocks. *)

From stdpp Require Import gmap.
From S2P Require Import Prelude BuddyModel BuddyInv BuddyFree BuddyAlloc BootModel BootFree BuddyTheorems SlobModel.

(** The units of a page *)
Definition NU : Z := 2048.
Definition unit_at (p i : Z) : Z := page_to_virt p + 2 * i.

(** ** Addresses *)

Lemma page_to_virt_eq p : 0 <= p < 2 ^ 34 -> page_to_virt p = p * 4096 + PAGE_OFFSET.
Proof.
  intros Hp. unfold page_to_virt. rewrite Z.shiftl_mul_pow2 by done. change (2 ^ PAGE_SHIFT) with 4096.
  rewrite (wrap_small (p * 4096)) by (unfold is_u64, ULONG_MOD; lia). apply wrap_small. unfold is_u64, ULONG_MOD, PAGE_OFFSET. lia.
Qed.

Lemma addr_page p off : 0 <= p < 2 ^ 34 -> 0 <= off < 4096 ->
  virt_to_pfn (page_to_virt p + off) = p /\ offset_in_page (page_to_virt p + off) = off /\
  Z.land (page_to_virt p + off) PAGE_MASK = page_to_virt p.
Proof.
  intros Hp Ho. rewrite page_to_virt_eq by done. set (x := p * 4096 + PAGE_OFFSET + off).
  assert (Hu : is_u64 x) by (unfold x, is_u64, ULONG_MOD, PAGE_OFFSET; lia).
  assert (Hm : x mod PAGE_SIZE = off).
  { rewrite PAGE_SIZE_eq. unfold x. replace (p * 4096 + PAGE_OFFSET + off) with (off + (p + PAGE_OFFSET / 4096) * 4096).
    - rewrite Z_mod_plus_full. by apply Z.mod_small.
    - assert (PAGE_OFFSET = PAGE_OFFSET / 4096 * 4096) by done. lia. }
  split; [|split].
  - assert (Hx : x < __START_KERNEL_map) by (unfold x, PAGE_OFFSET, __START_KERNEL_map; lia).
    unfold virt_to_pfn, __phys_addr_nodebug.
    assert (Hy : x -u __START_KERNEL_map = x - __START_KERNEL_map + ULONG_MOD).
    { unfold wrap. symmetry. apply Z.mod_unique with (q := -1); unfold x, ULONG_MOD, PAGE_OFFSET, __START_KERNEL_map in *; lia. }
    rewrite Hy. rewrite (proj2 (Z.ltb_ge _ _)) by (unfold ULONG_MOD, __START_KERNEL_map in *; lia).
    change (__START_KERNEL_map -u PAGE_OFFSET) with (__START_KERNEL_map - PAGE_OFFSET).
    replace (x - __START_KERNEL_map + ULONG_MOD + (__START_KERNEL_map - PAGE_OFFSET)) with (p * 4096 + off + 1 * ULONG_MOD) by (unfold x; lia).
    unfold wrap. rewrite Z.mod_add, Z.mod_small by (done || unfold ULONG_MOD; lia). rewrite Z.shiftr_div_pow2 by done.
    change (2 ^ PAGE_SHIFT) with 4096. rewrite Z.div_add_l, Z.div_small by lia. lia.
  - by rewrite offset_in_page_mod.
  - rewrite PAGE_MASK_round, Hm by done. unfold x. lia.
Qed.

Lemma page_to_virt_bounds p : 0 <= p < 2 ^ 34 -> 2 ^ 63 < page_to_virt p /\ page_to_virt p + 8192 < ULONG_MOD.
Proof. intros Hp. rewrite page_to_virt_eq by done. unfold ULONG_MOD, PAGE_OFFSET. lia. Qed.

Lemma unit_at_inj p q i j : 0 <= p < 2 ^ 34 -> 0 <= q < 2 ^ 34 -> 0 <= i < NU -> 0 <= j < NU -> unit_at p i = unit_at q j -> p = q /\ i = j.
Proof.
  unfold unit_at, NU. intros Hp Hq Hi Hj E. destruct (addr_page p (2 * i)) as (E1 & E2 & _); [lia..|].
  destruct (addr_page q (2 * j)) as (F1 & F2 & _); [lia..|]. rewrite E in E1, E2. lia.
Qed.

(** ** Bytes and units of a page *)

Definition get16 (d : list Z) (i : Z) : Z :=
  to_s16 (default 0 (d !! Z.to_nat (2 * i)) + 256 * default 0 (d !! Z.to_nat (2 * i + 1))).
Definition set16 (d : list Z) (i v : Z) : list Z :=
  <[Z.to_nat (2 * i + 1) := v / 256 mod 256]> (<[Z.to_nat (2 * i) := v mod 256]> d).

Lemma to_s16_mod v : - 2 ^ 15 <= v < 2 ^ 15 -> to_s16 (v mod 256 + 256 * (v / 256 mod 256)) = v.
Proof.
  intros Hv. unfold to_s16.
  assert (E : v mod 256 + 256 * (v / 256 mod 256) = v mod 65536) by (change 65536 with (256 * 256); rewrite Z.rem_mul_r by lia; lia).
  rewrite E. change (2 ^ 16) with 65536. change (2 ^ 15) with 32768 in *. rewrite Zplus_mod_idemp_l, Z.mod_small by lia. lia.
Qed.

Lemma to_s16_small v : - 2 ^ 15 <= v < 2 ^ 15 -> to_s16 v = v.
Proof. intros Hv. unfold to_s16. rewrite Z.mod_small by lia. lia. Qed.

Lemma length_set16 d i v : length (set16 d i v) = length d.
Proof. unfold set16. by rewrite !length_insert. Qed.

Lemma set16_other d i v k : 0 <= i -> k <> Z.to_nat (2 * i) -> k <> Z.to_nat (2 * i + 1) -> set16 d i v !! k = d !! k.
Proof. intros Hi H1 H2. unfold set16. by rewrite !list_lookup_insert_ne by done. Qed.

Lemma get_set16 d i v : 0 <= i < NU -> length d = 4096%nat -> - 2 ^ 15 <= v < 2 ^ 15 -> get16 (set16 d i v) i = v.
Proof.
  unfold NU. intros Hi Hd Hv. unfold get16, set16. rewrite list_lookup_insert_ne, !list_lookup_insert_eq by (rewrite ?length_insert; lia).
  by apply to_s16_mod.
Qed.

Lemma get16_agree d d' i : d !! Z.to_nat (2 * i) = d' !! Z.to_nat (2 * i) -> d !! Z.to_nat (2 * i + 1) = d' !! Z.to_nat (2 * i + 1) -> get16 d i = get16 d' i.
Proof. unfold get16. by intros -> ->. Qed.

(** The bytes of page [p] are [d]. *)
Definition wd (p : Z) (d : list Z) (b : buddy) : buddy := upd_page p (with_data d) b.

Lemma wd_wd p d d' b : wd p d' (wd p d b) = wd p d' b.
Proof.
  unfold wd, upd_page. simpl. f_equal. apply map_eq. intros q. destruct (decide (p = q)) as [<-|Hne].
  - rewrite !lookup_alter_eq. by destruct (mem_map b !! p).
  - by rewrite !lookup_alter_ne.
Qed.

Lemma wd_lookup p d b g : mem_map b !! p = Some g -> mem_map (wd p d b) !! p = Some (with_data d g).
Proof. intros E. unfold wd, upd_page. simpl. by rewrite lookup_alter_eq, E. Qed.

Lemma wd_same p b g : mem_map b !! p = Some g -> wd p (pg_data g) b = b.
Proof.
  intros E. unfold wd, upd_page. destruct b as [m z v]. simpl in *. f_equal. apply map_eq. intros q. destruct (decide (p = q)) as [<-|Hne].
  - rewrite lookup_alter_eq, E. by destruct g.
  - by rewrite lookup_alter_ne.
Qed.

(** Page [p] exists and has the bytes [d]. *)
Definition bytes (b : buddy) (p : Z) (d : list Z) : Prop :=
  0 <= p < 2 ^ 34 /\ length d = 4096%nat /\ exists g, mem_map b !! p = Some g /\ pg_data g = d.

Lemma bytes_wd b p d d' : bytes b p d -> length d' = 4096%nat -> bytes (wd p d' b) p d'.
Proof. intros (Hp & _ & g & Hg & _) Hl. split; [done|]. split; [done|]. eexists. by rewrite (wd_lookup p d' b g Hg). Qed.

Section memory.
Context (b : buddy) (p : Z) (d : list Z) (Hb : bytes b p d).

Lemma load8_page off : 0 <= off < 4096 -> load8 (page_to_virt p + off) b = d !! Z.to_nat off.
Proof using Hb.
  intros Ho. destruct Hb as (Hp & Hl & g & Hg & Hd). destruct (addr_page p off Hp Ho) as (E1 & E2 & _).
  unfold load8. rewrite E1, E2, Hg. cbn [mbind option_bind]. by rewrite Hd.
Qed.

Lemma store8_page off v : 0 <= off < 4096 -> store8 (page_to_virt p + off) v b = Some (wd p (<[Z.to_nat off := v]> d) b).
Proof using Hb.
  intros Ho. destruct Hb as (Hp & Hl & g & Hg & Hd). destruct (addr_page p off Hp Ho) as (E1 & E2 & _).
  unfold store8. rewrite E1, E2, Hg. cbn [mbind option_bind]. rewrite Hd. by rewrite (proj2 (Nat.ltb_lt _ _)) by lia.
Qed.

Lemma next_byte off : 0 <= off < 4096 -> page_to_virt p + off +u 1 = page_to_virt p + (off + 1).
Proof using Hb.
  intros Ho. destruct Hb as (Hp & _). destruct (page_to_virt_bounds p Hp). rewrite wrap_small; [lia|]. unfold is_u64. lia.
Qed.

Lemma byte_lookup off : 0 <= off < 4096 -> d !! Z.to_nat off = Some (default 0 (d !! Z.to_nat off)).
Proof using Hb.
  intros Ho. destruct Hb as (_ & Hl & _). destruct (lookup_lt_is_Some_2 d (Z.to_nat off)) as [x ->]; [lia|done].
Qed.

Lemma load16_page i : 0 <= i < NU -> load16 (unit_at p i) b = Some (get16 d i).
Proof using Hb.
  unfold NU. intros Hi. unfold load16, unit_at. cbn [load_le].
  rewrite next_byte, !load8_page, (byte_lookup (2 * i)), (byte_lookup (2 * i + 1)) by lia. cbn [mbind option_bind].
  f_equal. unfold get16. f_equal. lia.
Qed.

Lemma slob_add_page i n : 0 <= i + n <= NU -> slob_add (unit_at p i) n = unit_at p (i + n).
Proof using Hb.
  unfold NU, slob_add, unit_at, SLOB_UNIT. intros Hi. destruct Hb as (Hp & _). destruct (page_to_virt_bounds p Hp).
  rewrite wrap_small; [lia|]. unfold is_u64. lia.
Qed.

Lemma unit_base i : 0 <= i < NU -> Z.land (unit_at p i) PAGE_MASK = unit_at p 0.
Proof using Hb. unfold NU, unit_at. intros Hi. destruct Hb as (Hp & _). destruct (addr_page p (2 * i) Hp) as (_ & _ & ->); lia. Qed.
End memory.

Lemma store16_page b p d i v : bytes b p d -> 0 <= i < NU -> store16 (unit_at p i) v b = Some (wd p (set16 d i v) b).
Proof.
  intros Hb Hi. unfold NU in Hi. unfold store16, unit_at. cbn [store_le]. rewrite (store8_page b p d Hb) by lia. cbn [mbind option_bind].
  rewrite (next_byte b p d Hb) by lia. rewrite (store8_page _ p (<[Z.to_nat (2 * i) := v mod 256]> d)).
  - cbn [mbind option_bind]. by rewrite wd_wd.
  - eapply bytes_wd; [exact Hb|]. rewrite length_insert. apply Hb.
  - lia.
Qed.

(** ** Free blocks *)

(** The block at unit [s] has [n] units, and the next one is at unit [nx]. *)
Definition enc (d : list Z) (s n nx : Z) : Prop :=
  if 1 <? n then get16 d s = n /\ get16 d (s + 1) = nx else get16 d s = - nx.
Definition setb (d : list Z) (s n nx : Z) : list Z :=
  if 1 <? n then set16 (set16 d s n) (s + 1) nx else set16 d s (- nx).

Section block.
Context (b : buddy) (p : Z) (d : list Z) (Hb : bytes b p d).

Lemma set_slob_page s n nx : 0 <= s -> 1 <= n -> s + n <= NU -> 0 <= nx <= NU ->
  set_slob (unit_at p s) n (unit_at p nx) b = Some (wd p (setb d s n nx) b).
Proof using Hb.
  unfold NU. intros Hs Hn Hsn Hnx. unfold set_slob, setb. rewrite (to_s16_small n) by lia. rewrite (unit_base b p d Hb) by (unfold NU; lia).
  assert (E : (unit_at p nx - unit_at p 0) / SLOB_UNIT = nx).
  { unfold unit_at, SLOB_UNIT. replace (page_to_virt p + 2 * nx - (page_to_virt p + 2 * 0)) with (nx * 2) by lia. by apply Z.div_mul. }
  rewrite E, (to_s16_small nx) by lia. destruct (Z.ltb_spec 1 n).
  - rewrite (store16_page b p d) by (done || unfold NU; lia). cbn [mbind option_bind]. rewrite (slob_add_page b p d Hb) by (unfold NU; lia).
    rewrite (store16_page _ p (set16 d s n)) by (unfold NU; (lia || by eapply bytes_wd; [exact Hb|]; rewrite length_set16; apply Hb)). by rewrite wd_wd.
  - by apply store16_page; [|unfold NU; lia].
Qed.

Lemma slob_units_page s n nx : 0 <= s -> 1 <= n -> s + n <= NU -> enc d s n nx -> 0 <= nx -> slob_units (unit_at p s) b = Some n.
Proof using Hb.
  unfold NU, enc. intros Hs Hn Hsn He Hnx. unfold slob_units. rewrite (load16_page b p d Hb) by (unfold NU; lia). cbn [mbind option_bind]. f_equal.
  destruct (Z.ltb_spec 1 n).
  - destruct He as [-> _]. by rewrite (proj2 (Z.ltb_lt _ _)) by lia.
  - rewrite He. rewrite (proj2 (Z.ltb_ge _ _)) by lia. lia.
Qed.

Lemma slob_next_page s n nx : 0 <= s -> 1 <= n -> s + n <= NU -> enc d s n nx -> 0 < nx <= NU -> slob_next (unit_at p s) b = Some (unit_at p nx).
Proof using Hb.
  unfold NU, enc. intros Hs Hn Hsn He Hnx. unfold slob_next. rewrite (unit_base b p d Hb) by (unfold NU; lia).
  rewrite (load16_page b p d Hb) by (unfold NU; lia). cbn [mbind option_bind].
  destruct (Z.ltb_spec 1 n).
  - destruct He as [-> E]. rewrite (proj2 (Z.ltb_ge _ _)) by lia. rewrite (slob_add_page b p d Hb), (load16_page b p d Hb), E by (unfold NU; lia).
    cbn [mbind option_bind]. by rewrite (slob_add_page b p d Hb) by (unfold NU; lia).
  - rewrite He, (proj2 (Z.ltb_lt _ _)) by lia. cbn [mbind option_bind]. rewrite (slob_add_page b p d Hb) by (unfold NU; lia). f_equal. f_equal. lia.
Qed.

Lemma slob_last_page s n nx : 0 <= s -> 1 <= n -> s + n <= NU -> enc d s n nx -> 0 < nx <= NU ->
  slob_last (unit_at p s) b = Some (nx =? NU).
Proof using Hb.
  intros Hs Hn Hsn He Hnx. unfold slob_last. rewrite (slob_next_page s n nx) by done. cbn [mbind option_bind]. f_equal.
  destruct Hb as (Hp & _). destruct (Z.eqb_spec nx NU) as [->|Hne].
  - assert (E : unit_at p NU = page_to_virt p + 4096) by done. rewrite E, offset_in_page_mod, PAGE_SIZE_eq, page_to_virt_eq by done.
    apply Z.eqb_eq. assert (PAGE_OFFSET = PAGE_OFFSET / 4096 * 4096) by done.
    replace (p * 4096 + PAGE_OFFSET + 4096) with (0 + (p + PAGE_OFFSET / 4096 + 1) * 4096) by lia. by rewrite Z_mod_plus_full.
  - unfold unit_at, NU in *. destruct (addr_page p (2 * nx) Hp) as (_ & -> & _); [lia|]. apply Z.eqb_neq. lia.
Qed.
End block.

(** ** Chains of free blocks

    A free block is its first unit and its number of units. *)

(** Blocks in order from [lo] on; [gap] is 0, or 1 if blocks must not touch. *)
Fixpoint ordered (gap lo : Z) (l : list (Z * Z)) : Prop :=
  match l with
  | [] => True
  | (s, n) :: l => lo <= s /\ 1 <= n /\ s + n <= NU /\ ordered gap (s + n + gap) l
  end.
Definition first (l : list (Z * Z)) (e : Z) : Z := match l with [] => e | (s, _) :: _ => s end.
Definition total (l : list (Z * Z)) : Z := foldr (fun x t => x.2 + t) 0 l.
Definition cov (l : list (Z * Z)) (i : Z) : Prop := exists s n, (s, n) ∈ l /\ s <= i < s + n.

(** The blocks are linked in that order, and the last one to [e]. *)
Fixpoint chain (d : list Z) (l : list (Z * Z)) (e : Z) : Prop :=
  match l with [] => True | (s, n) :: l => enc d s n (first l e) /\ chain d l e end.

(** The bytes of [d] and [d'] differ in the units [P] only. *)
Definition differ (P : Z -> Prop) (d d' : list Z) : Prop :=
  length d' = length d /\ forall k, 0 <= k -> ~ P (k / 2) -> d' !! Z.to_nat k = d !! Z.to_nat k.

(** ** Lists *)

Lemma ordered_weaken gap lo lo' l : lo' <= lo -> ordered gap lo l -> ordered gap lo' l.
Proof. destruct l as [|[s n] l]; simpl; [done|]. intros ? (? & ? & ? & ?). split_and!; try done; lia. Qed.

Lemma ordered_gap lo l : ordered 1 lo l -> ordered 0 lo l.
Proof.
  revert lo. induction l as [|[s n] l IH]; intros lo; simpl; [done|]. intros (? & ? & ? & H%IH). split_and!; try done.
  eapply ordered_weaken; [|exact H]. lia.
Qed.

(** The end of the last block *)
Definition end_of (gap lo : Z) (l : list (Z * Z)) : Z := match list.last l with None => lo | Some (s, n) => s + n + gap end.

Lemma blocks_end_cons gap lo s n l : end_of gap lo ((s, n) :: l) = end_of gap (s + n + gap) l.
Proof.
  unfold end_of. destruct l as [|y l]; [done|]. rewrite last_cons_cons. destruct (list.last (y :: l)) as [[? ?]|] eqn:E; [done|].
  apply last_None in E. done.
Qed.

Lemma ordered_app gap lo l1 l2 : ordered gap lo (l1 ++ l2) <-> ordered gap lo l1 /\ ordered gap (end_of gap lo l1) l2.
Proof.
  revert lo. induction l1 as [|[s n] l1 IH]; intros lo; simpl; [tauto|]. rewrite IH, blocks_end_cons. tauto.
Qed.

Lemma ordered_in gap lo l s n : 0 <= gap -> ordered gap lo l -> (s, n) ∈ l -> lo <= s /\ 1 <= n /\ s + n <= NU.
Proof.
  intros Hg. revert lo. induction l as [|[s' n'] l IH]; intros lo; simpl; [by intros _ ?%not_elem_of_nil|].
  intros (? & ? & ? & H) [[= -> ->]|Hin]%elem_of_cons; [done|]. destruct (IH _ H Hin). lia.
Qed.

Lemma end_of_ge gap lo l : 0 <= gap -> ordered gap lo l -> lo <= end_of gap lo l.
Proof.
  intros Hg. revert lo. induction l as [|[s n] l IH]; intros lo; simpl; [done|]. intros (? & ? & ? & H%IH). rewrite blocks_end_cons. lia.
Qed.

Lemma blocks_end_bounds gap lo l s n : 0 <= gap -> ordered gap lo l -> (s, n) ∈ l -> s + n + gap <= end_of gap lo l.
Proof.
  intros Hg. revert lo. induction l as [|[s' n'] l IH]; intros lo; simpl; [by intros _ ?%not_elem_of_nil|].
  intros (? & ? & ? & H) [[= -> ->]|Hin]%elem_of_cons; rewrite blocks_end_cons; [|by apply IH]. by apply end_of_ge.
Qed.

Lemma first_bounds gap lo l e : ordered gap lo l -> lo <= e <= NU -> lo <= first l e <= NU.
Proof. destruct l as [|[s n] l]; simpl; [done|]. lia. Qed.

Lemma first_app l1 l2 e : first (l1 ++ l2) e = first l1 (first l2 e).
Proof. by destruct l1 as [|[s n] l1]. Qed.

Lemma total_app l1 l2 : total (l1 ++ l2) = total l1 + total l2.
Proof. unfold total. induction l1 as [|[s n] l1 IH]; simpl in *; lia. Qed.

Lemma cov_app l1 l2 i : cov (l1 ++ l2) i <-> cov l1 i \/ cov l2 i.
Proof.
  unfold cov. split.
  - intros (s & n & [?|?]%elem_of_app & ?); eauto.
  - intros [(s & n & ? & ?)|(s & n & ? & ?)]; exists s, n; rewrite elem_of_app; eauto.
Qed.

Lemma cov_cons s n l i : cov ((s, n) :: l) i <-> s <= i < s + n \/ cov l i.
Proof.
  unfold cov. split.
  - intros (s' & n' & [[= -> ->]|?]%elem_of_cons & ?); eauto.
  - intros [?|(s' & n' & ? & ?)]; [exists s, n|exists s', n']; rewrite elem_of_cons; eauto.
Qed.

Lemma cov_nil i : ~ cov [] i.
Proof. intros (s & n & ?%not_elem_of_nil & _). done. Qed.

Lemma total_bounds gap lo l : 0 <= gap -> ordered gap lo l -> lo <= NU -> 0 <= total l <= NU - lo.
Proof.
  intros Hg. revert lo. induction l as [|[s n] l IH]; intros lo; simpl; [lia|]. intros (? & ? & ? & Ho) Hl. unfold total in *. simpl.
  destruct l as [|[s' n'] l]; [simpl; lia|]. pose proof Ho as (? & ? & ? & _). specialize (IH _ Ho). lia.
Qed.

Lemma blocks_total_zero gap lo l : 0 <= gap -> ordered gap lo l -> lo <= NU -> total l = 0 -> l = [].
Proof.
  intros Hg. destruct l as [|[s n] l]; [done|]. simpl. intros (? & ? & ? & Ho) Hl. unfold total. simpl. fold (total l).
  destruct l as [|[s' n'] l]; [simpl; lia|]. pose proof Ho as (? & ? & ? & _).
  destruct (total_bounds gap (s + n + gap) ((s', n') :: l) Hg Ho); lia.
Qed.

(** Blocks that do not touch fill the page only as one block. *)
Lemma total_full lo l : ordered 1 lo l -> lo < NU -> total l = NU - lo -> l = [(lo, NU - lo)].
Proof.
  destruct l as [|[s n] l]; simpl; [lia|]. intros (? & ? & ? & Ho) Hl. unfold total. simpl. fold (total l).
  destruct l as [|[s' n'] l].
  - simpl. intros E. do 2 f_equal; lia.
  - pose proof Ho as (? & ? & ? & _). destruct (total_bounds 1 (s + n + 1) ((s', n') :: l) ltac:(lia) Ho); lia.
Qed.

(** ** Chains *)

Lemma differ_refl P d : differ P d d.
Proof. by split. Qed.

Lemma differ_trans P Q d d1 d2 : differ P d d1 -> differ Q d1 d2 -> differ (fun i => P i \/ Q i) d d2.
Proof. intros [L1 D1] [L2 D2]. split; [congruence|]. intros k Hk Hn. rewrite D2, D1; tauto. Qed.

Lemma differ_mono (P Q : Z -> Prop) d d' : (forall i, P i -> Q i) -> differ P d d' -> differ Q d d'.
Proof. intros Hi [L D]. split; [done|]. intros k Hk Hn. apply D; [done|]. intros ?. by apply Hn, Hi. Qed.

Lemma setb_differ d s n nx : 0 <= s -> 1 <= n -> differ (fun i => s <= i < s + n) d (setb d s n nx).
Proof.
  intros Hs Hn. unfold setb. split; [destruct (_ <? _); by rewrite !length_set16|]. intros k Hk Hout.
  assert (Hk2 : forall i, s <= i < s + n -> Z.to_nat k <> Z.to_nat (2 * i) /\ Z.to_nat k <> Z.to_nat (2 * i + 1)).
  { intros i Hi. split; intros E; apply Hout; apply Z2Nat.inj in E; try lia; subst k.
    - rewrite (Z.mul_comm 2), Z.div_mul by lia. done.
    - rewrite (Z.mul_comm 2), Z.div_add_l by lia. change (1 / 2) with 0. by rewrite Z.add_0_r. }
  destruct (Z.ltb_spec 1 n).
  - rewrite !set16_other by (apply Hk2 || idtac; lia). done.
  - rewrite set16_other by (apply Hk2 || idtac; lia). done.
Qed.

Lemma setb_enc d s n nx : 0 <= s -> 1 <= n -> s + n <= NU -> length d = 4096%nat -> 0 <= nx <= NU -> enc (setb d s n nx) s n nx.
Proof.
  unfold NU. intros Hs Hn Hsn Hl Hnx. unfold enc, setb. destruct (Z.ltb_spec 1 n).
  - split.
    + rewrite (get16_agree _ (set16 d s n)) by (rewrite set16_other by lia; done). apply get_set16; unfold NU; (lia || done).
    + apply get_set16; unfold NU; rewrite ?length_set16; (lia || done).
  - apply get_set16; unfold NU; (lia || done).
Qed.

Lemma enc_differ P d d' s n nx : differ P d d' -> 0 <= s -> 1 <= n -> (forall i, s <= i < s + n -> ~ P i) -> enc d s n nx -> enc d' s n nx.
Proof.
  intros [_ D] Hs Hn HP. assert (Hg : forall i, s <= i < s + n -> get16 d' i = get16 d i).
  { intros i Hi. apply get16_agree; apply D; try lia.
    - rewrite (Z.mul_comm 2), Z.div_mul by lia. by apply HP.
    - rewrite (Z.mul_comm 2), Z.div_add_l by lia. change (1 / 2) with 0. rewrite Z.add_0_r. by apply HP. }
  unfold enc. destruct (Z.ltb_spec 1 n); rewrite !Hg by lia; done.
Qed.

Lemma chain_differ P d d' l e gap lo : differ P d d' -> 0 <= gap -> 0 <= lo -> ordered gap lo l -> (forall i, cov l i -> ~ P i) -> chain d l e -> chain d' l e.
Proof.
  intros HD Hg. revert lo. induction l as [|[s n] l IH]; intros lo Hlo; simpl; [done|]. intros (? & ? & ? & Ho) HP [He Hc].
  split; [eapply enc_differ; try done; [lia|]|apply (IH (s + n + gap)); [lia|done| |done]].
  - intros i Hi. apply HP. apply cov_cons. by left.
  - intros i Hi. apply HP. apply cov_cons. by right.
Qed.

Lemma blocks_chain_app d l1 l2 e : chain d (l1 ++ l2) e <-> chain d l1 (first l2 e) /\ chain d l2 e.
Proof. induction l1 as [|[s n] l1 IH]; simpl; [tauto|]. rewrite IH, first_app. tauto. Qed.
