(* ===== verification/SlobAlloc.v ===== *)
(** * Kernel memory, the object allocator: allocation and freeing within a page *)

From stdpp Require Import gmap.
From S2P Require Import Prelude BuddyModel SlobModel SlobPage.

Definition frag (s n : Z) : list (Z * Z) := if n =? 0 then [] else [(s, n)].
Definition prev_of (p : Z) (l : list (Z * Z)) : option Z := (fun x : Z * Z => unit_at p x.1) <$> list.last l.

(** The last block of [l] is linked to [e]. *)
Definition relink (d : list Z) (l : list (Z * Z)) (e : Z) : list Z :=
  match list.last l with None => d | Some (s, n) => setb d s n e end.

(** Page [p] of [st] with other bytes, number of units and first free block *)
Record page_state (p : Z) (d : list Z) (u f : Z) (st st' : slob) : Prop := {
  ps_buddy : sl_buddy st' = wd p d (sl_buddy st);
  ps_units : units_of st' p = u;
  ps_first : freelist_of st' p = unit_at p f;
  ps_units_ne : forall q, q <> p -> units_of st' q = units_of st q;
  ps_first_ne : forall q, q <> p -> freelist_of st' q = freelist_of st q;
  ps_lists : forall c, class_list c st' = class_list c st
}.

Lemma relink_ok d l l2 e e2 e' : ordered 0 0 (l ++ l2) -> chain d l e -> chain d l2 e2 -> length d = 4096%nat -> 0 <= e' <= NU ->
  chain (relink d l e') l e' /\ chain (relink d l e') l2 e2 /\ differ (cov l) d (relink d l e').
Proof.
  intros Ho Hc Hc2 Hl He'. destruct (list.last l) as [[s n]|] eqn:El.
  2:{ apply last_None in El as ->. split; [done|]. by split; [|apply differ_refl]. }
  unfold relink. rewrite El. apply last_Some in El as [l0 ->]. apply ordered_app in Ho as [Ho Ho2].
  apply ordered_app in Ho as [Ho0 Ho1]. simpl in Ho1. destruct Ho1 as (Hs & Hn & Hsn & _).
  assert (H0 : 0 <= end_of 0 0 l0) by (by apply end_of_ge). pose proof (setb_differ d s n e' ltac:(lia) Hn) as Hd.
  apply blocks_chain_app in Hc as [Hc0 _]. split; [|split].
  - apply blocks_chain_app. split; [|split; [|done]].
    + apply (chain_differ _ d _ l0 _ 0 0 Hd); [done|done|done| |done]. intros i (s' & n' & Hin & Hi) Hi2.
      pose proof (blocks_end_bounds 0 0 l0 s' n' ltac:(lia) Ho0 Hin). lia.
    + apply setb_enc; (lia || done).
  - apply (chain_differ _ d _ l2 _ 0 (end_of 0 0 (l0 ++ [(s, n)])) Hd); [done| |done| |done].
    + unfold end_of. rewrite last_snoc. lia.
    + intros i (s' & n' & Hin & Hi) Hi2. destruct (ordered_in 0 _ l2 s' n' ltac:(lia) Ho2 Hin) as [Hlo _].
      unfold end_of in Hlo. rewrite last_snoc in Hlo. lia.
  - eapply differ_mono; [|exact Hd]. intros i Hi. apply cov_app. right. apply cov_cons. by left.
Qed.

(** What page [p] has *)
Record state_is (p : Z) (d : list Z) (u f : Z) (st : slob) : Prop := {
  si_bytes : bytes (sl_buddy st) p d;
  si_units : units_of st p = u;
  si_first : freelist_of st p = unit_at p f
}.

Lemma page_state_is p d u f d' u' f' st st' : state_is p d u f st -> page_state p d' u' f' st st' -> length d' = 4096%nat -> state_is p d' u' f' st'.
Proof. intros [H1 _ _] [E1 E2 E3 _ _ _] Hl. split; [|done|done]. rewrite E1. by eapply bytes_wd. Qed.

Lemma page_state_trans p d1 u1 f1 d2 u2 f2 st st1 st2 :
  page_state p d1 u1 f1 st st1 -> page_state p d2 u2 f2 st1 st2 -> page_state p d2 u2 f2 st st2.
Proof.
  intros [A1 A2 A3 A4 A5 A6] [B1 B2 B3 B4 B5 B6]. split; [|done|done|..].
  - by rewrite B1, A1, wd_wd.
  - intros q Hq. by rewrite B4, A4.
  - intros q Hq. by rewrite B5, A5.
  - intros c. by rewrite B6, A6.
Qed.

Section steps.
Context (p : Z) (d : list Z) (u f : Z) (st : slob) (Hst : state_is p d u f st).

Lemma step_same : page_state p d u f st st.
Proof using Hst.
  destruct Hst as [(Hp & Hl & g & Hg & Hd) Hu Hf]. split; try done. rewrite <- Hd. symmetry. by apply wd_same.
Qed.

Lemma step_set_slob s n nx : 0 <= s -> 1 <= n -> s + n <= NU -> 0 <= nx <= NU ->
  exists st', on_buddy (set_slob (unit_at p s) n (unit_at p nx)) st = Some st' /\ page_state p (setb d s n nx) u f st st'.
Proof using Hst.
  intros Hs Hn Hsn Hnx. destruct Hst as [Hb Hu Hf]. unfold on_buddy. rewrite (set_slob_page _ p d Hb) by done. cbn [mbind option_bind].
  eexists. split; [done|]. by split.
Qed.

Lemma step_set_units v : page_state p d v f st (set_units p v st).
Proof using Hst.
  destruct Hst as [(Hp & Hl & g & Hg & Hd) Hu Hf]. split; try done.
  - simpl. rewrite <- Hd. symmetry. by apply wd_same.
  - unfold units_of. simpl. by rewrite lookup_insert_eq.
  - intros q Hq. unfold units_of. simpl. by rewrite lookup_insert_ne.
Qed.

Lemma step_set_freelist v : page_state p d u v st (set_freelist p (unit_at p v) st).
Proof using Hst.
  destruct Hst as [(Hp & Hl & g & Hg & Hd) Hu Hf]. split; try done.
  - simpl. rewrite <- Hd. symmetry. by apply wd_same.
  - unfold freelist_of. simpl. by rewrite lookup_insert_eq.
  - intros q Hq. unfold freelist_of. simpl. by rewrite lookup_insert_ne.
Qed.

(** [prev] is linked to [e'], or the page if there is none. *)
Lemma step_set_prev l e e' :
  ordered 0 0 l -> chain d l e -> f = first l e -> end_of 0 0 l <= e <= NU -> 0 <= e' <= NU ->
  exists st', match prev_of p l with
    | Some prev => u0 ← slob_units prev (sl_buddy st); on_buddy (set_slob prev u0 (unit_at p e')) st
    | None => Some (set_freelist p (unit_at p e') st)
    end = Some st' /\ page_state p (relink d l e') u (first l e') st st'.
Proof using Hst.
  intros Ho Hc Ef He He'. unfold prev_of, relink. destruct (list.last l) as [[s n]|] eqn:El; cbn [fmap option_fmap option_map fst].
  - pose proof El as [l0 ->]%last_Some. apply ordered_app in Ho as [Ho0 Ho1]. simpl in Ho1. destruct Ho1 as (Hs & Hn & Hsn & _).
    pose proof (end_of_ge 0 0 l0 ltac:(lia) Ho0). apply blocks_chain_app in Hc as [_ [Hen _]]. simpl in Hen.
    unfold end_of in He. rewrite last_snoc in He. pose proof Hst as [Hb Hu Hf]. rewrite (slob_units_page _ p d Hb s n e) by (done || lia). cbn [mbind option_bind].
    destruct (step_set_slob s n e') as (st' & -> & Hp); [lia|done|done|done|]. exists st'. split; [done|].
    by replace (first (l0 ++ [(s, n)]) e') with f by (rewrite Ef; by destruct l0 as [|[? ?] ?]).
  - apply last_None in El as ->. eexists. split; [done|]. apply step_set_freelist.
Qed.
End steps.

(** ** Taking units from the front of a block *)

Lemma ordered_remove gap lo l1 s n l2 : 0 <= gap -> ordered gap lo (l1 ++ (s, n) :: l2) -> ordered gap lo (l1 ++ l2).
Proof.
  intros Hg. rewrite !ordered_app. simpl. intros (H1 & H2 & H3 & H4 & H5). split; [done|]. eapply ordered_weaken; [|exact H5]. lia.
Qed.

(** Blocks before and after a block are apart from it. *)
Lemma ordered_apart gap lo l1 s n l2 i : 0 <= gap -> ordered gap lo (l1 ++ (s, n) :: l2) ->
  (cov l1 i -> i + gap < s \/ i < s) /\ (cov l2 i -> s + n <= i).
Proof.
  intros Hg. rewrite ordered_app. simpl. intros (H1 & H2 & H3 & H4 & H5). split; intros (s' & n' & Hin & Hi).
  - pose proof (blocks_end_bounds gap lo l1 s' n' Hg H1 Hin). lia.
  - destruct (ordered_in gap _ l2 s' n' Hg H5 Hin). lia.
Qed.

Lemma take_start_ok p d t aligned st l1 s n l2 u :
  let l := l1 ++ (s, n) :: l2 in
  state_is p d t (first l NU) st -> ordered 0 0 l -> chain d l NU -> 1 <= u <= n ->
  let l' := l1 ++ frag (s + u) (n - u) ++ l2 in
  exists d' st1, take_block p u (prev_of p l1) (unit_at p s) n aligned 0 st =
      (st2 ← (if t - u =? 0 then clear_slob_page_free p st1 else Some st1); Some (unit_at p s, st2)) /\
    page_state p d' (t - u) (first l' NU) st st1 /\ chain d' l' NU /\ differ (cov l) d d'.
Proof.
  intros l Hst Ho Hc Hu l'. pose proof Hst as [Hb Hut Hf]. pose proof (proj1 (proj2 Hb)) as Hlen. pose proof Ho as [Ho1 (Hs & Hn & Hsn & Ho2)]%ordered_app.
  pose proof Hc as [Hc1 [Hen Hc2]]%blocks_chain_app. simpl in Hc1. pose proof (end_of_ge 0 0 l1 ltac:(lia) Ho1) as He0.
  pose proof (first_bounds 0 (s + n + 0) l2 NU Ho2 ltac:(lia)) as He. set (e := first l2 NU) in *.
  unfold take_block. cbn [Z.eqb negb mbind option_bind]. rewrite (slob_next_page _ p d Hb s n e) by (done || lia). cbn [mbind option_bind].
  assert (Hfin : forall st1 d1, page_state p d1 t (first l' NU) st st1 -> length d1 = 4096%nat -> chain d1 l' NU -> differ (cov l) d d1 ->
    exists d' st3, (let st := set_units p (units_of st1 p - u) st1 in
      st ← (if units_of st p =? 0 then clear_slob_page_free p st else Some st); Some (unit_at p s, st)) =
      (st2 ← (if t - u =? 0 then clear_slob_page_free p st3 else Some st3); Some (unit_at p s, st2)) /\
      page_state p d' (t - u) (first l' NU) st st3 /\ chain d' l' NU /\ differ (cov l) d d').
  { intros st1 d1 Hp1 Hl1 Hch Hd. pose proof (page_state_is _ _ _ _ _ _ _ _ _ Hst Hp1 Hl1) as Hst1.
    pose proof (step_set_units p d1 t _ st1 Hst1 (t - u)) as Hp2. exists d1, (set_units p (t - u) st1).
    cbv zeta. rewrite (si_units _ _ _ _ _ Hst1), (ps_units _ _ _ _ _ _ Hp2). split; [done|]. split; [by eapply page_state_trans|done]. }
  destruct (Z.eqb_spec n u) as [Enu|Hne].
  - destruct (step_set_prev p d t _ st Hst l1 s e) as (st1 & -> & Hp1); [done|done|by unfold l; rewrite first_app|lia|lia|]. cbn [mbind option_bind].
    destruct (relink_ok d l1 l2 s NU e (ordered_remove 0 0 l1 s n l2 ltac:(lia) Ho) Hc1 Hc2 Hlen ltac:(lia)) as (R1 & R2 & R3).
    assert (El : l' = l1 ++ l2) by (unfold l', frag; by rewrite (proj2 (Z.eqb_eq (n - u) 0)) by lia).
    apply (Hfin st1 (relink d l1 e)); [by rewrite El, first_app|by rewrite (proj1 R3)|rewrite El; by apply blocks_chain_app|].
    eapply differ_mono; [|exact R3]. intros i Hi. apply cov_app. by left.
  - rewrite (slob_add_page _ p d Hb) by (unfold NU in *; lia).
    destruct (step_set_prev p d t _ st Hst l1 s (s + u)) as (st1 & -> & Hp1); [done|done|by unfold l; rewrite first_app|lia|lia|]. cbn [mbind option_bind].
    destruct (relink_ok d l1 l2 s NU (s + u) (ordered_remove 0 0 l1 s n l2 ltac:(lia) Ho) Hc1 Hc2 Hlen ltac:(lia)) as (R1 & R2 & R3).
    set (d1 := relink d l1 (s + u)) in *. assert (Hl1 : length d1 = 4096%nat) by (by rewrite (proj1 R3)).
    pose proof (page_state_is _ _ _ _ _ _ _ _ _ Hst Hp1 Hl1) as Hst1.
    destruct (step_set_slob p d1 t _ st1 Hst1 (s + u) (n - u) e) as (st2 & -> & Hp2); [lia..|]. cbn [mbind option_bind].
    pose proof (setb_differ d1 (s + u) (n - u) e ltac:(lia) ltac:(lia)) as Hd2.
    assert (El : l' = l1 ++ (s + u, n - u) :: l2) by (unfold l', frag; by rewrite (proj2 (Z.eqb_neq (n - u) 0)) by lia).
    apply (Hfin st2 (setb d1 (s + u) (n - u) e)).
    + rewrite El, first_app. by eapply page_state_trans.
    + by rewrite (proj1 Hd2).
    + rewrite El. apply blocks_chain_app. split; [|split].
      * apply (chain_differ _ d1 _ l1 _ 0 0 Hd2); [done|done|done| |done]. intros i Hi. destruct (ordered_apart 0 0 l1 s n l2 i ltac:(lia) Ho) as [Ha _]. apply Ha in Hi. lia.
      * fold e. apply setb_enc; (lia || done).
      * apply (chain_differ _ d1 _ l2 _ 0 (s + n + 0) Hd2); [done|lia|done| |done]. intros i Hi. destruct (ordered_apart 0 0 l1 s n l2 i ltac:(lia) Ho) as [_ Ha]. apply Ha in Hi. lia.
    + eapply differ_mono; [|exact (differ_trans _ _ _ _ _ R3 Hd2)]. intros i [Hi|Hi]; apply cov_app; [by left|right]. apply cov_cons. left. lia.
Qed.

(** ** Taking units at an aligned place of a block *)

Lemma take_block_split p u prev cur avail aligned delta st : delta <> 0 ->
  take_block p u prev cur avail aligned delta st =
  (next ← slob_next cur (sl_buddy st);
   st ← on_buddy (set_slob aligned (avail - delta) next) st;
   st ← on_buddy (set_slob cur delta aligned) st;
   avail ← slob_units aligned (sl_buddy st);
   take_block p u (Some cur) aligned avail aligned 0 st).
Proof.
  intros Hd. unfold take_block. rewrite (proj2 (Z.eqb_neq _ _) Hd). cbn [negb Z.eqb].
  destruct (slob_next cur (sl_buddy st)); [|done]. cbn [mbind option_bind]. destruct (on_buddy _ st) as [st1|]; [|done]. cbn [mbind option_bind].
  destruct (on_buddy _ st1) as [st2|]; [|done]. cbn [mbind option_bind]. by destruct (slob_units aligned (sl_buddy st2)).
Qed.

(** A block is split into two that touch. *)
Lemma blocks_chain_split d l1 s n l2 delta :
  ordered 0 0 (l1 ++ (s, n) :: l2) -> chain d (l1 ++ (s, n) :: l2) NU -> length d = 4096%nat -> 0 < delta < n ->
  let d2 := setb (setb d (s + delta) (n - delta) (first l2 NU)) s delta (s + delta) in
  let l3 := (l1 ++ [(s, delta)]) ++ (s + delta, n - delta) :: l2 in
  ordered 0 0 l3 /\ chain d2 l3 NU /\ enc d2 (s + delta) (n - delta) (first l2 NU) /\ differ (fun i => s <= i < s + n) d d2.
Proof.
  intros Ho Hc Hlen Hd d2 l3. pose proof Ho as [Ho1 (Hs & Hn & Hsn & Ho2)]%ordered_app. pose proof Hc as [Hc1 [Hen Hc2]]%blocks_chain_app. simpl in Hc1.
  pose proof (end_of_ge 0 0 l1 ltac:(lia) Ho1) as He0. pose proof (first_bounds 0 (s + n + 0) l2 NU Ho2 ltac:(lia)) as He. set (e := first l2 NU) in *.
  pose proof (setb_differ d (s + delta) (n - delta) e ltac:(lia) ltac:(lia)) as Hd1. set (d1 := setb d (s + delta) (n - delta) e) in *.
  pose proof (setb_differ d1 s delta (s + delta) ltac:(lia) ltac:(lia)) as Hd2. fold d2 in Hd2.
  assert (Hdd : differ (fun i => s <= i < s + n) d d2) by (eapply differ_mono; [|exact (differ_trans _ _ _ _ _ Hd1 Hd2)]; intros i [Hi|Hi]; lia).
  assert (Hapart : forall i, cov l1 i \/ cov l2 i -> ~ s <= i < s + n).
  { intros i Hi. destruct (ordered_apart 0 0 l1 s n l2 i ltac:(lia) Ho) as [Ha1 Ha2]. destruct Hi as [Hi|Hi]; [apply Ha1 in Hi|apply Ha2 in Hi]; lia. }
  assert (Hen2 : enc d2 (s + delta) (n - delta) e).
  { apply (enc_differ _ d1 d2 _ _ e Hd2); [lia|lia|intros i Hi; lia|]. apply setb_enc; (lia || done). }
  unfold l3. rewrite <- app_assoc. simpl. split; [|split; [|done]].
  - apply ordered_app. split; [done|]. simpl. split_and!; try lia. eapply ordered_weaken; [|exact Ho2]. lia.
  - apply blocks_chain_app. simpl. split_and!; try done.
    + apply (chain_differ _ d _ l1 _ 0 0 Hdd); (done || auto).
    + apply setb_enc; try lia. by rewrite (proj1 Hd1).
    + apply (chain_differ _ d _ l2 _ 0 (s + n + 0) Hdd); (done || lia || auto).
Qed.

Lemma take_block_ok p d t aligned st l1 s n l2 al u :
  let l := l1 ++ (s, n) :: l2 in
  state_is p d t (first l NU) st -> ordered 0 0 l -> chain d l NU -> s <= al -> 1 <= u -> al - s + u <= n ->
  aligned = unit_at p al \/ al = s ->
  let l' := l1 ++ frag s (al - s) ++ frag (al + u) (s + n - al - u) ++ l2 in
  exists d' st1, take_block p u (prev_of p l1) (unit_at p s) n aligned (al - s) st =
      (st2 ← (if t - u =? 0 then clear_slob_page_free p st1 else Some st1); Some (unit_at p al, st2)) /\
    page_state p d' (t - u) (first l' NU) st st1 /\ chain d' l' NU /\ differ (cov l) d d'.
Proof.
  intros l Hst Ho Hc Hal Hu Hfit Hali l'. destruct (decide (al = s)) as [->|Hne].
  { assert (El : l' = l1 ++ frag (s + u) (n - u) ++ l2) by (unfold l', frag; rewrite Z.sub_diag; simpl; by replace (s + n - s - u) with (n - u) by lia).
    rewrite El, Z.sub_diag. apply take_start_ok; (done || lia). }
  destruct Hali as [->|?]; [|done]. rewrite take_block_split by lia. pose proof Hst as [Hb Hut Hf]. pose proof (proj1 (proj2 Hb)) as Hlen.
  destruct (blocks_chain_split d l1 s n l2 (al - s) Ho Hc Hlen ltac:(lia)) as (Ho3 & Hc3 & Hen2 & Hdd). replace (s + (al - s)) with al in * by lia.
  pose proof Ho as [Ho1 (Hs & Hn & Hsn & Ho2)]%ordered_app. pose proof Hc as [_ [Hen _]]%blocks_chain_app.
  pose proof (end_of_ge 0 0 l1 ltac:(lia) Ho1) as He0. pose proof (first_bounds 0 (s + n + 0) l2 NU Ho2 ltac:(lia)) as He. set (e := first l2 NU) in *.
  set (l1' := l1 ++ [(s, al - s)]) in *. set (l3 := l1' ++ (al, n - (al - s)) :: l2) in *. set (d2 := setb _ s (al - s) al) in *.
  rewrite (slob_next_page _ p d Hb s n e) by (done || lia). cbn [mbind option_bind].
  destruct (step_set_slob p d t _ st Hst al (n - (al - s)) e) as (st1 & -> & Hp1); [lia..|]. cbn [mbind option_bind].
  pose proof (page_state_is _ _ _ _ _ _ _ _ _ Hst Hp1 ltac:(by rewrite (proj1 (setb_differ d al (n - (al - s)) e ltac:(lia) ltac:(lia))))) as Hst1.
  destruct (step_set_slob p _ t _ st1 Hst1 s (al - s) al) as (st2 & -> & Hp2); [lia..|]. cbn [mbind option_bind]. fold d2 in Hp2.
  assert (Hl2 : length d2 = 4096%nat) by (by rewrite (proj1 Hdd)).
  assert (Hst2 : state_is p d2 t (first l3 NU) st2).
  { replace (first l3 NU) with (first l NU) by (unfold l3, l1', l; by destruct l1 as [|[? ?] ?]). exact (page_state_is _ _ _ _ _ _ _ _ _ Hst1 Hp2 Hl2). }
  rewrite (slob_units_page _ p d2 (si_bytes _ _ _ _ _ Hst2) al (n - (al - s)) e) by (done || lia). cbn [mbind option_bind].
  destruct (take_start_ok p d2 t (unit_at p al) st2 l1' al (n - (al - s)) l2 u Hst2 Ho3 Hc3 ltac:(lia)) as (d' & st3 & E & Hp3 & Hch & Hdf).
  assert (Epv : Some (unit_at p s) = prev_of p l1') by (unfold prev_of, l1'; by rewrite last_snoc). rewrite Epv, E.
  assert (El : l' = l1' ++ frag (al + u) (n - (al - s) - u) ++ l2).
  { unfold l', l1'. unfold frag at 1. rewrite (proj2 (Z.eqb_neq (al - s) 0)) by lia. rewrite <- app_assoc. simpl.
    by replace (s + n - al - u) with (n - (al - s) - u) by lia. }
  exists d', st3. rewrite El. split; [done|]. split; [|split; [done|]].
  - eapply page_state_trans; [|exact Hp3]. by eapply page_state_trans.
  - eapply differ_mono; [|exact (differ_trans _ _ _ _ _ Hdd Hdf)].
    intros i [Hi|Hi]; [apply cov_app; right; apply cov_cons; by left|]. unfold l3, l1' in Hi. rewrite <- app_assoc in Hi. unfold l.
    rewrite cov_app, cov_cons. apply cov_app in Hi as [Hi|Hi]; [by left|]. simpl in Hi. rewrite !cov_cons in Hi. destruct Hi as [Hi|[Hi|Hi]]; [lia|lia|tauto].
Qed.

(** ** The search within a page, for blocks aligned to 8 bytes *)

Definition up4 (s : Z) : Z := (s + 3) / 4 * 4.
Definition fits (u : Z) (x : Z * Z) : Prop := up4 x.1 - x.1 + u <= x.2.

Lemma up4_bounds s : s <= up4 s < s + 4.
Proof. unfold up4. pose proof (Z.div_mod (s + 3) 4). pose proof (Z.mod_pos_bound (s + 3) 4). lia. Qed.

Lemma ALIGN8 p s : 0 <= p < 2 ^ 34 -> 0 <= s < NU -> ALIGN (unit_at p s) 8 = unit_at p (up4 s).
Proof.
  intros Hp Hs. unfold NU in Hs. destruct (page_to_virt_bounds p Hp). unfold ALIGN, unit_at.
  rewrite wrap_small by (unfold is_u64; lia). change (8 - 1) with (2 ^ 3 - 1) at 2.
  rewrite land_not_mask by (try lia; unfold is_u64; lia). change (2 ^ 3) with 8. rewrite page_to_virt_eq by done. unfold up4.
  assert (PAGE_OFFSET = PAGE_OFFSET / 8 * 8) by done. set (o := PAGE_OFFSET / 8) in *.
  pose proof (Z.div_mod (p * 4096 + PAGE_OFFSET + 2 * s + (8 - 1)) 8). pose proof (Z.mod_pos_bound (p * 4096 + PAGE_OFFSET + 2 * s + (8 - 1)) 8).
  pose proof (Z.div_mod (s + 3) 4). pose proof (Z.mod_pos_bound (s + 3) 4). lia.
Qed.

Lemma page_alloc_loop_ok p d t st u l2 : forall fuel l1,
  state_is p d t (first (l1 ++ l2) NU) st -> ordered 0 0 (l1 ++ l2) -> chain d (l1 ++ l2) NU -> l2 <> [] -> 1 <= u -> (length l2 <= fuel)%nat ->
  let r := page_alloc_loop fuel p u 8 (prev_of p l1) (unit_at p (first l2 NU)) st in
  (exists la s n lb, l1 ++ l2 = la ++ (s, n) :: lb /\ fits u (s, n) /\
     r = ('(b, st) ← take_block p u (prev_of p la) (unit_at p s) n (unit_at p (up4 s)) (up4 s - s) st; Some (Some b, st))) \/
  Forall (fun x => ~ fits u x) l2 /\ r = Some (None, st).
Proof.
  induction l2 as [|[s n] l2 IH]; intros fuel l1 Hst Ho Hc Hne Hu Hf; [done|]. destruct fuel as [|fuel]; [simpl in Hf; lia|].
  cbn [page_alloc_loop first]. pose proof Hst as [Hb _ _]. pose proof (proj1 Hb) as Hp.
  pose proof Ho as [Ho1 (Hs & Hn & Hsn & Ho2)]%ordered_app. pose proof (end_of_ge 0 0 l1 ltac:(lia) Ho1) as He0.
  pose proof Hc as [_ [Hen _]]%blocks_chain_app. pose proof (first_bounds 0 (s + n + 0) l2 NU Ho2 ltac:(lia)) as He.
  rewrite (slob_units_page _ p d Hb s n (first l2 NU)) by (done || lia). cbn [mbind option_bind Z.eqb].
  rewrite (ALIGN8 p s Hp) by lia.
  assert (Ed : (unit_at p (up4 s) - unit_at p s) / SLOB_UNIT = up4 s - s).
  { unfold unit_at, SLOB_UNIT. replace (page_to_virt p + 2 * up4 s - (page_to_virt p + 2 * s)) with ((up4 s - s) * 2) by lia. by apply Z.div_mul. }
  rewrite Ed. destruct (Z.leb_spec (u + (up4 s - s)) n) as [Hfit|Hfit].
  { left. exists l1, s, n, l2. split; [done|]. split; [unfold fits; simpl; lia|done]. }
  rewrite (slob_last_page _ p d Hb s n (first l2 NU)) by (done || lia). cbn [mbind option_bind].
  assert (Hnf : ~ fits u (s, n)) by (unfold fits; simpl; lia).
  destruct l2 as [|[s' n'] l2].
  { cbn [first]. rewrite Z.eqb_refl. right. split; [|done]. by constructor. }
  rewrite (proj2 (Z.eqb_neq _ NU)) by (simpl in *; lia). rewrite (slob_next_page _ p d Hb s n (first ((s', n') :: l2) NU)) by (done || lia).
  cbn [mbind option_bind]. assert (Epv : Some (unit_at p s) = prev_of p (l1 ++ [(s, n)])) by (unfold prev_of; by rewrite last_snoc). rewrite Epv.
  assert (Ea : (l1 ++ [(s, n)]) ++ (s', n') :: l2 = l1 ++ (s, n) :: (s', n') :: l2) by (by rewrite <- app_assoc).
  destruct (IH fuel (l1 ++ [(s, n)])) as [(la & s0 & n0 & lb & E & Hft & ->)|[Hall ->]]; rewrite ?Ea; try done; [simpl in *; lia|left|right].
  - exists la, s0, n0, lb. rewrite <- Ea. done.
  - split; [by constructor|done].
Qed.

(** ** What is left *)

Lemma cov_frag s n i : 0 <= n -> cov (frag s n) i <-> s <= i < s + n.
Proof.
  intros Hn. unfold frag. destruct (Z.eqb_spec n 0) as [->|Hne]; [split; [intros []%cov_nil|lia]|]. rewrite cov_cons. split; [intros [?|[]%cov_nil]; done|by left].
Qed.

Lemma total_frag s n : total (frag s n) = n.
Proof. unfold frag, total. destruct (Z.eqb_spec n 0) as [->|]; simpl; lia. Qed.

Lemma ordered_frag gap lo s n l : 0 <= gap -> 0 <= n -> lo <= s -> s + n <= NU -> ordered gap (s + n + gap) l -> ordered gap lo (frag s n ++ l).
Proof.
  intros Hg Hn Hlo Hs Ho. unfold frag. destruct (Z.eqb_spec n 0) as [->|Hne]; simpl; [|split_and!; (done || lia)].
  eapply ordered_weaken; [|exact Ho]. lia.
Qed.

(** The blocks that are left when [u] units from [al] on are taken from block [(s, n)] *)
Definition rest (l1 : list (Z * Z)) (s n : Z) (l2 : list (Z * Z)) (al u : Z) : list (Z * Z) :=
  l1 ++ frag s (al - s) ++ frag (al + u) (s + n - al - u) ++ l2.

Lemma rest_ok l1 s n l2 al u : ordered 1 0 (l1 ++ (s, n) :: l2) -> s <= al -> 1 <= u -> al - s + u <= n ->
  ordered 1 0 (rest l1 s n l2 al u) /\ total (rest l1 s n l2 al u) = total (l1 ++ (s, n) :: l2) - u /\
  forall i, cov (rest l1 s n l2 al u) i <-> cov (l1 ++ (s, n) :: l2) i /\ ~ al <= i < al + u.
Proof.
  intros Ho Hal Hu Hfit. unfold rest. pose proof Ho as [Ho1 (Hs & Hn & Hsn & Ho2)]%ordered_app. split; [|split].
  - apply ordered_app. split; [done|]. apply ordered_frag; try lia. apply ordered_frag; try lia. by replace (al + u + (s + n - al - u) + 1) with (s + n + 1) by lia.
  - rewrite !total_app, !total_frag. unfold total. simpl. lia.
  - intros i. rewrite !cov_app, !cov_frag, cov_cons by lia. destruct (ordered_apart 1 0 l1 s n l2 i ltac:(lia) Ho) as [Ha1 Ha2]. split.
    + intros [Hi|[Hi|[Hi|Hi]]]; (split; [tauto || lia|]); [apply Ha1 in Hi|..|apply Ha2 in Hi]; lia.
    + intros [[Hi|[Hi|Hi]] Hn']; [by left| |tauto]. destruct (decide (i < al)); [right; left|right; right; left]; lia.
Qed.

Lemma blocks_length gap lo l : 0 <= gap -> ordered gap lo l -> lo <= NU -> Z.of_nat (length l) <= NU - lo.
Proof.
  intros Hg. revert lo. induction l as [|[s n] l IH]; intros lo; simpl; [lia|]. intros (? & ? & ? & Ho) Hl.
  destruct l as [|[s' n'] l]; [simpl; lia|]. pose proof Ho as (? & ? & ? & _). specialize (IH _ Ho ltac:(lia)). lia.
Qed.

Lemma slob_page_alloc_ok p d st l size :
  state_is p d (total l) (first l NU) st -> ordered 1 0 l -> chain d l NU -> l <> [] -> 1 <= SLOB_UNITS size ->
  let u := SLOB_UNITS size in
  (exists la s n lb, l = la ++ (s, n) :: lb /\ fits u (s, n) /\
    let al := up4 s in let l' := rest la s n lb al u in
    exists d' st1, slob_page_alloc p size 8 st =
        (st2 ← (if total l' =? 0 then clear_slob_page_free p st1 else Some st1); Some (Some (unit_at p al), st2)) /\
      page_state p d' (total l') (first l' NU) st st1 /\ chain d' l' NU /\ differ (cov l) d d') \/
  Forall (fun x => ~ fits u x) l /\ slob_page_alloc p size 8 st = Some (None, st).
Proof.
  intros Hst Ho Hc Hne Hu u. unfold slob_page_alloc. rewrite (si_first _ _ _ _ _ Hst). fold u.
  pose proof (blocks_length 1 0 l ltac:(lia) Ho ltac:(unfold NU; lia)) as Hlen.
  change (Z.to_nat (SLOB_UNITS PAGE_SIZE)) with (Z.to_nat NU). change (@None Z) with (prev_of p []).
  destruct (page_alloc_loop_ok p d _ st u l (Z.to_nat NU) [] Hst (ordered_gap _ _ Ho) Hc Hne Hu ltac:(lia)) as [(la & s & n & lb & E & Hft & ->)|?]; [left|by right].
  simpl in E. subst l. exists la, s, n, lb. split; [done|]. split; [done|]. unfold fits in Hft. simpl in Hft. pose proof (up4_bounds s).
  destruct (take_block_ok p d _ (unit_at p (up4 s)) st la s n lb (up4 s) u Hst (ordered_gap _ _ Ho) Hc) as (d' & st1 & -> & Hp & Hch & Hd); [lia..|by left|].
  fold (rest la s n lb (up4 s) u) in Hp, Hch. destruct (rest_ok la s n lb (up4 s) u Ho) as (Hr1 & Hr2 & Hr3); [lia..|]. exists d', st1. rewrite Hr2.
  split; [|done]. destruct (_ - u =? 0); [by destruct (clear_slob_page_free p st1)|done].
Qed.

(** ** Freeing within a page *)

(** Block [(s, n)] in front of [l], merged with the first block of [l] if they touch *)
Definition join_right (s n : Z) (l : list (Z * Z)) : Z * list (Z * Z) :=
  match l with
  | (s', n') :: l' => if s + n =? s' then (n + n', l') else (n, l)
  | [] => (n, [])
  end.
(** Block [(q, nq)] in front of [(s, m) :: l], merged if they touch *)
Definition join_left (q nq s m : Z) (l : list (Z * Z)) : list (Z * Z) :=
  if q + nq =? s then (q, nq + m) :: l else (q, nq) :: (s, m) :: l.

Lemma join_right_ok s n l : 0 <= s -> 1 <= n -> s + n <= NU -> ordered 1 (s + n) l ->
  let '(m, l') := join_right s n l in
  ordered 1 s ((s, m) :: l') /\ total ((s, m) :: l') = n + total l /\ n <= m /\
  (forall i, cov ((s, m) :: l') i <-> s <= i < s + n \/ cov l i) /\ (forall d e, chain d l e -> chain d l' e).
Proof.
  intros Hs Hn Hsn Ho. destruct l as [|[s' n'] l]; simpl.
  { split_and!; try lia; try done. intros i. rewrite cov_cons. tauto. }
  destruct Ho as (Hlo & Hn' & Hsn' & Ho). destruct (Z.eqb_spec (s + n) s') as [E|Hne]; simpl; split_and!; try lia; try done.
  - by replace (s + (n + n') + 1) with (s' + n' + 1) by lia.
  - intros i. rewrite !cov_cons. intuition lia.
  - by intros d e [_ ?].
  - intros i. rewrite !cov_cons. tauto.
Qed.

Lemma join_left_ok q nq s m l lo : lo <= q -> 1 <= nq -> q + nq <= s -> ordered 1 s ((s, m) :: l) ->
  ordered 1 lo (join_left q nq s m l) /\ total (join_left q nq s m l) = nq + total ((s, m) :: l) /\
  forall i, cov (join_left q nq s m l) i <-> q <= i < q + nq \/ cov ((s, m) :: l) i.
Proof.
  intros Hlo Hnq Hq (Hs & Hm & Hsm & Ho). unfold join_left. destruct (Z.eqb_spec (q + nq) s) as [E|Hne]; simpl; split_and!; try lia; try done.
  - by replace (q + (nq + m) + 1) with (s + m + 1) by lia.
  - intros i. rewrite !cov_cons. intuition lia.
  - intros i. rewrite !cov_cons. tauto.
Qed.

Section insert.
Context (p : Z) (d : list Z) (u f : Z) (st : slob) (Hst : state_is p d u f st).

(** The blocks around [s] *)
Lemma find_gap_ok s l : forall fuel q nq,
  ordered 0 0 ((q, nq) :: l) -> chain d ((q, nq) :: l) NU -> q < s < NU -> (forall i, cov l i -> i <> s) -> (length l < fuel)%nat ->
  exists la q' nq' lb, (q, nq) :: l = la ++ (q', nq') :: lb /\ q' < s < first lb NU /\
    find_gap fuel (unit_at p s) (unit_at p q) (unit_at p (first l NU)) (sl_buddy st) = Some (unit_at p q', unit_at p (first lb NU)).
Proof using Hst.
  induction l as [|[s' n'] l IH]; intros fuel q nq Ho Hc Hs Hap Hf; (destruct fuel as [|fuel]; [simpl in Hf; lia|]); cbn [find_gap first].
  - exists [], q, nq, []. split; [done|]. split; [done|]. rewrite (proj2 (Z.ltb_ge _ _)); [done|]. unfold unit_at. lia.
  - destruct Ho as (H1 & H2 & H3 & (H4 & H5 & H6 & Ho)). destruct Hc as [_ Hc]. destruct (Z.ltb_spec (unit_at p s') (unit_at p s)) as [Hlt|Hge].
    + pose proof Hst as [Hb _ _]. destruct Hc as [Hen Hc]. pose proof (first_bounds 0 (s' + n' + 0) l NU Ho ltac:(lia)).
      rewrite (slob_next_page _ p d Hb s' n' (first l NU)) by (done || lia). cbn [mbind option_bind].
      destruct (IH fuel s' n') as (la & q' & nq' & lb & E & Hq & Hfg); [split_and!; (done || lia)|done|unfold unit_at in Hlt; lia| |simpl in Hf; lia|].
      { intros i Hi. apply Hap. apply cov_cons. by right. }
      exists ((q, nq) :: la), q', nq', lb. rewrite E. split; [done|]. done.
    + exists [], q, nq, ((s', n') :: l). split; [done|]. split; [|done]. assert (s' <> s) by (apply Hap; apply cov_cons; lia). unfold unit_at in Hge. simpl. lia.
Qed.

(** Linking block [(s, n)] to the blocks behind it *)
Lemma step_join s n l :
  0 <= s -> 1 <= n -> s + n <= NU -> ordered 1 (s + n) l -> chain d l NU ->
  exists st', (if negb (first l NU =? NU) && (slob_add (unit_at p s) n =? unit_at p (first l NU)) then
                 v ← slob_units (unit_at p (first l NU)) (sl_buddy st); x ← slob_next (unit_at p (first l NU)) (sl_buddy st);
                 on_buddy (set_slob (unit_at p s) (n + v) x) st
               else on_buddy (set_slob (unit_at p s) n (unit_at p (first l NU))) st) = Some st' /\
    let '(m, l') := join_right s n l in page_state p (setb d s m (first l' NU)) u f st st'.
Proof using Hst.
  intros Hs Hn Hsn Ho Hc. pose proof Hst as [Hb _ _]. rewrite (slob_add_page _ p d Hb) by (unfold NU in *; lia).
  destruct l as [|[s' n'] l]; cbn [first join_right].
  { rewrite Z.eqb_refl. cbn [negb andb]. apply (step_set_slob p d u f st Hst); (done || unfold NU in *; lia). }
  destruct Ho as (H1 & H2 & H3 & Ho). destruct Hc as [Hen Hc]. rewrite (proj2 (Z.eqb_neq _ NU)) by (unfold NU in *; lia). cbn [negb andb].
  assert (Heq : (unit_at p (s + n) =? unit_at p s') = (s + n =? s')) by (unfold unit_at; destruct (Z.eqb_spec (s + n) s'), (Z.eqb_spec (page_to_virt p + 2 * (s + n)) (page_to_virt p + 2 * s')); (done || lia)).
  rewrite Heq. pose proof (first_bounds 1 (s' + n' + 1) l NU Ho). destruct (Z.eqb_spec (s + n) s') as [E|Hne].
  - assert (He : s' < first l NU <= NU) by (destruct l as [|[s2 n2] l]; simpl in *; lia).
    rewrite (slob_units_page _ p d Hb s' n' (first l NU)) by (done || lia). cbn [mbind option_bind].
    rewrite (slob_next_page _ p d Hb s' n' (first l NU)) by (done || lia). cbn [mbind option_bind].
    apply (step_set_slob p d u f st Hst); lia.
  - apply (step_set_slob p d u f st Hst); (done || simpl; lia).
Qed.
End insert.

(** The bytes after a block was linked in *)
Definition joined (d : list Z) (q nq s m : Z) (l : list (Z * Z)) : list Z :=
  let d1 := setb d s m (first l NU) in
  if q + nq =? s then setb d1 q (nq + m) (first l NU) else setb d1 q nq s.

Lemma chain_join d la q nq lb s n :
  ordered 1 0 (la ++ (q, nq) :: lb) -> chain d (la ++ (q, nq) :: lb) NU -> length d = 4096%nat ->
  q + nq <= s -> 1 <= n -> s + n <= NU -> ordered 1 (s + n) lb ->
  let '(m, l') := join_right s n lb in let d1 := setb d s m (first l' NU) in
  0 < first l' NU <= NU /\ s + m <= NU /\ 1 <= m /\ enc d1 q nq (first lb NU) /\ enc d1 s m (first l' NU) /\
  chain (joined d q nq s m l') (la ++ join_left q nq s m l') NU /\ differ (cov (la ++ join_left q nq s m l')) d (joined d q nq s m l').
Proof.
  intros Ho Hc Hlen Hq Hn Hsn Hob. pose proof Ho as [Ho1 (Hqlo & Hnq & Hqn & Ho2)]%ordered_app. pose proof Hc as [Hc1 [Hen Hc2]]%blocks_chain_app. simpl in Hc1.
  pose proof (end_of_ge 1 0 la ltac:(lia) Ho1) as He0. pose proof (join_right_ok s n lb ltac:(lia) Hn Hsn Hob) as Hjr.
  destruct (join_right s n lb) as [m l'] eqn:Ej. destruct Hjr as ((Hs & Hm & Hsm & Ho') & _ & Hnm & Hcov & Hch). intros d1.
  assert (Hf : s + m <= first l' NU <= NU) by (destruct l' as [|[s2 n2] l']; simpl in *; lia).
  pose proof (setb_differ d s m (first l' NU) ltac:(lia) Hm) as Hd1. fold d1 in Hd1. assert (Hl1 : length d1 = 4096%nat) by (by rewrite (proj1 Hd1)).
  assert (Hla : forall i, cov la i -> i < q) by (intros i Hi; apply (ordered_apart 1 0 la q nq lb i ltac:(lia) Ho) in Hi; lia).
  assert (Hl' : forall i, cov l' i -> s + m < i) by (intros i (s2 & n2 & Hin & Hi); destruct (ordered_in 1 _ l' s2 n2 ltac:(lia) Ho' Hin); lia).
  assert (Hen1 : enc d1 s m (first l' NU)) by (apply setb_enc; (lia || done)).
  assert (Hc1' : chain d1 la q) by (apply (chain_differ _ d _ la _ 1 0 Hd1); [done..| |done]; intros i Hi%Hla; lia).
  assert (Hc2' : chain d1 l' NU) by (apply (chain_differ _ d _ l' _ 1 (s + m + 1) Hd1); [done|lia|done| |by apply Hch]; intros i Hi%Hl'; lia).
  split; [lia|]. split; [done|]. split; [done|].
  split; [apply (enc_differ _ d d1 q nq _ Hd1); [lia|done|intros i Hi; lia|done]|]. split; [done|].
  unfold joined. fold d1. unfold join_left. destruct (Z.eqb_spec (q + nq) s) as [E|Hne].
  - pose proof (setb_differ d1 q (nq + m) (first l' NU) ltac:(lia) ltac:(lia)) as Hd2. split.
    + apply blocks_chain_app. simpl. split_and!.
      * apply (chain_differ _ d1 _ la _ 1 0 Hd2); [done..| |done]. intros i Hi%Hla. lia.
      * apply setb_enc; (lia || done).
      * apply (chain_differ _ d1 _ l' _ 1 (s + m + 1) Hd2); [done|lia|done| |done]. intros i Hi%Hl'. lia.
    + eapply differ_mono; [|exact (differ_trans _ _ _ _ _ Hd1 Hd2)]. intros i [Hi|Hi]; apply cov_app; right; apply cov_cons; left; lia.
  - pose proof (setb_differ d1 q nq s ltac:(lia) Hnq) as Hd2. split.
    + apply blocks_chain_app. simpl. split_and!.
      * apply (chain_differ _ d1 _ la _ 1 0 Hd2); [done..| |done]. intros i Hi%Hla. lia.
      * apply setb_enc; (lia || done).
      * apply (enc_differ _ d1 _ s m _ Hd2); [lia|done|intros i Hi; lia|done].
      * apply (chain_differ _ d1 _ l' _ 1 (s + m + 1) Hd2); [done|lia|done| |done]. intros i Hi%Hl'. lia.
    + eapply differ_mono; [|exact (differ_trans _ _ _ _ _ Hd1 Hd2)]. intros i [Hi|Hi]; apply cov_app; right; rewrite !cov_cons; [right; left; lia|left; lia].
Qed.

(** What a freed block leaves *)
Record inserted (d : list Z) (l : list (Z * Z)) (s n : Z) (d' : list Z) (l' : list (Z * Z)) : Prop := {
  in_ordered : ordered 1 0 l';
  in_some : l' <> [];
  in_chain : chain d' l' NU;
  in_total : total l' = total l + n;
  in_cov : forall i, cov l' i <-> cov l i \/ s <= i < s + n;
  in_differ : differ (cov l') d d'
}.

Lemma unit_ltb p i j : (unit_at p i <? unit_at p j) = (i <? j).
Proof. unfold unit_at. destruct (Z.ltb_spec i j), (Z.ltb_spec (page_to_virt p + 2 * i) (page_to_virt p + 2 * j)); (done || lia). Qed.
Lemma unit_eqb p i j : (unit_at p i =? unit_at p j) = (i =? j).
Proof. unfold unit_at. destruct (Z.eqb_spec i j), (Z.eqb_spec (page_to_virt p + 2 * i) (page_to_virt p + 2 * j)); (done || lia). Qed.

Section insert_block.
Context (p : Z) (d : list Z) (t : Z) (st : slob) (l : list (Z * Z)) (s n : Z).
Context (Hst : state_is p d t (first l NU) st) (Ho : ordered 1 0 l) (Hc : chain d l NU) (Hne : l <> []).
Context (Hs : 0 <= s) (Hn : 1 <= n) (Hsn : s + n <= NU) (Hap : forall i, s <= i < s + n -> ~ cov l i).

(** Before the first block *)
Lemma slob_insert_front : s < first l NU ->
  exists l' d' st', slob_insert p (unit_at p s) n st = Some st' /\ page_state p d' t (first l' NU) st st' /\ inserted d l s n d' l'.
Proof using Hst Ho Hc Hne Hs Hn Hsn Hap.
  intros Hlo. pose proof Hst as [Hb Hut Hf]. pose proof (proj1 (proj2 Hb)) as Hlen. unfold slob_insert. rewrite Hf, unit_ltb, (proj2 (Z.ltb_lt _ _) Hlo).
  assert (Hol : ordered 1 (s + n) l).
  { destruct l as [|[s1 n1] l0]; [done|]. simpl in *. destruct Ho as (H1 & H2 & H3 & H4). split_and!; try done.
    destruct (Z.le_gt_cases (s + n) s1); [done|]. exfalso. apply (Hap s1); [lia|]. apply cov_cons. lia. }
  pose proof (join_right_ok s n l Hs Hn Hsn Hol) as Hjr. destruct (join_right s n l) as [m l'] eqn:Ej. destruct Hjr as (Ho' & Ht & Hnm & Hcov & Hch).
  assert (Hpair : exists x, (if slob_add (unit_at p s) n =? unit_at p (first l NU) then
      u ← slob_units (unit_at p (first l NU)) (sl_buddy st); n0 ← slob_next (unit_at p (first l NU)) (sl_buddy st); Some (n + u, n0)
      else Some (n, unit_at p (first l NU))) = Some (m, x) /\ x = unit_at p (first l' NU)).
  { rewrite (slob_add_page _ p d Hb), unit_eqb by (unfold NU in *; lia). destruct l as [|[s1 n1] l0]; [done|]. simpl in Ej. cbn [first] in *.
    destruct Ho as (H1 & H2 & H3 & H4). destruct Hc as [Hen _]. destruct (Z.eqb_spec (s + n) s1); injection Ej as <- <-; [|by eexists].
    assert (He : 0 < first l0 NU <= NU) by (destruct l0 as [|[s2 n2] l0]; simpl in *; unfold NU in *; lia).
    rewrite (slob_units_page _ p d Hb s1 n1 (first l0 NU)) by (done || lia). cbn [mbind option_bind].
    rewrite (slob_next_page _ p d Hb s1 n1 (first l0 NU)) by (done || lia). by eexists. }
  destruct Hpair as (x & -> & ->). cbn [mbind option_bind]. pose proof Ho' as (_ & Hm & Hsm & Ho2).
  assert (He : 0 <= first l' NU <= NU) by (destruct l' as [|[s2 n2] l2]; simpl in *; unfold NU in *; lia).
  pose proof (step_set_freelist p d t _ st Hst (first l' NU)) as Hp1. pose proof (page_state_is _ _ _ _ _ _ _ _ _ Hst Hp1 Hlen) as Hst1.
  destruct (step_set_slob p d t _ _ Hst1 s m (first l' NU)) as (st2 & -> & Hp2); [lia..|]. cbn [mbind option_bind].
  pose proof (setb_differ d s m (first l' NU) Hs Hm) as Hd. set (d' := setb d s m (first l' NU)) in *.
  assert (Hl' : length d' = 4096%nat) by (by rewrite (proj1 Hd)). pose proof (page_state_is _ _ _ _ _ _ _ _ _ Hst1 Hp2 Hl') as Hst2.
  pose proof (step_set_freelist p d' t _ st2 Hst2 s) as Hp3. exists ((s, m) :: l'), d'. eexists. split; [done|].
  split; [by eapply page_state_trans; [exact Hp1|]; eapply page_state_trans|]. split; [|done| | | |].
  - eapply ordered_weaken; [|exact Ho']. lia.
  - split; [apply setb_enc; (lia || done)|]. apply (chain_differ _ d _ l' _ 1 (s + m + 1) Hd); [done|lia|done| |by apply Hch].
    intros i (s2 & n2 & Hin & Hi). destruct (ordered_in 1 _ l' s2 n2 ltac:(lia) Ho2 Hin). lia.
  - lia.
  - intros i. rewrite Hcov. tauto.
  - eapply differ_mono; [|exact Hd]. intros i Hi. apply cov_cons. by left.
Qed.

(** Behind a block *)
Lemma slob_insert_after : first l NU <= s ->
  exists l' d' st', slob_insert p (unit_at p s) n st = Some st' /\ page_state p d' t (first l' NU) st st' /\ inserted d l s n d' l'.
Proof using Hst Ho Hc Hne Hs Hn Hsn Hap.
  intros Hge. pose proof Hst as [Hb Hut Hf]. pose proof (proj1 (proj2 Hb)) as Hlen. unfold slob_insert. rewrite Hf, unit_ltb, (proj2 (Z.ltb_ge _ _) Hge).
  assert (Hgap : exists la q nq lb, l = la ++ (q, nq) :: lb /\ q < s < first lb NU /\
    (next ← slob_next (unit_at p (first l NU)) (sl_buddy st);
     find_gap (Z.to_nat (SLOB_UNITS PAGE_SIZE)) (unit_at p s) (unit_at p (first l NU)) next (sl_buddy st)) = Some (unit_at p q, unit_at p (first lb NU))).
  { destruct l as [|[s1 n1] l0]; [done|]. cbn [first] in *. pose proof Ho as (H1 & H2 & H3 & H4). pose proof Hc as [Hen _].
    assert (He : 0 < first l0 NU <= NU) by (destruct l0 as [|[s2 n2] l1]; simpl in *; unfold NU in *; lia).
    rewrite (slob_next_page _ p d Hb s1 n1 (first l0 NU)) by (done || lia). cbn [mbind option_bind].
    assert (s1 <> s) by (intros ->; apply (Hap s); [lia|apply cov_cons; lia]).
    pose proof (blocks_length 1 0 _ ltac:(lia) Ho ltac:(unfold NU; lia)) as Hbl. change (Z.to_nat (SLOB_UNITS PAGE_SIZE)) with (Z.to_nat NU). simpl in Hbl.
    destruct (find_gap_ok p d t _ st Hst s l0 (Z.to_nat NU) s1 n1) as (la & q & nq & lb & E & Hq & Hfg); [by apply ordered_gap|done|lia| |lia|].
    { intros i Hi ->. apply (Hap s); [lia|]. apply cov_cons. by right. }
    by exists la, q, nq, lb. }
  destruct Hgap as (la & q & nq & lb & El & Hq & Hg).
  destruct (slob_next (unit_at p (first l NU)) (sl_buddy st)) as [next|]; [|done]. cbn [mbind option_bind] in *. rewrite Hg. cbn [mbind option_bind].
  clear Hg next. pose proof Ho as Ho1. pose proof Hc as Hc1. rewrite El in Ho1, Hc1. pose proof Ho1 as [_ (Hqlo & Hnq & Hqn & Ho2)]%ordered_app.
  pose proof Hc1 as [_ [Hen _]]%blocks_chain_app. pose proof (end_of_ge 1 0 la ltac:(lia) (proj1 (proj1 (ordered_app _ _ _ _) Ho1))) as He0.
  assert (Hqs : q + nq <= s).
  { destruct (Z.le_gt_cases (q + nq) s); [done|]. exfalso. apply (Hap s); [lia|]. rewrite El. apply cov_app. right. apply cov_cons. lia. }
  assert (Hob : ordered 1 (s + n) lb).
  { destruct lb as [|[s2 n2] lb']; [done|]. destruct Ho2 as (_ & H2 & H3 & H4). split_and!; try done.
    destruct (Z.le_gt_cases (s + n) s2); [done|]. exfalso. apply (Hap s2); [simpl in Hq; lia|]. rewrite El. apply cov_app. right. rewrite !cov_cons. lia. }
  pose proof (chain_join d la q nq lb s n Ho1 Hc1 Hlen Hqs Hn Hsn Hob) as Hcj. pose proof (join_right_ok s n lb Hs Hn Hsn Hob) as Hjr.
  destruct (step_join p d t _ st Hst s n lb Hs Hn Hsn Hob) as (st1 & E1 & Hp1); [by apply blocks_chain_app in Hc1 as [_ [_ ?]]|].
  assert (He : 0 < first lb NU <= NU) by (split; [lia|]; destruct lb as [|[s2 n2] lb']; simpl in *; lia).
  rewrite (slob_last_page _ p d Hb q nq (first lb NU)) by (done || lia). cbn [mbind option_bind].
  destruct (join_right s n lb) as [m l'] eqn:Ej. destruct Hjr as (Ho' & Ht & Hnm & Hcov & _). destruct Hcj as (Hf' & Hsm & Hm & Hen1 & Hen2 & Hch & Hdf).
  set (d1 := setb d s m (first l' NU)) in *. assert (Hl1 : length d1 = 4096%nat) by (unfold d1; by rewrite (proj1 (setb_differ d s m (first l' NU) Hs Hm))).
  pose proof (page_state_is _ _ _ _ _ _ _ _ _ Hst Hp1 Hl1) as Hst1. pose proof (si_bytes _ _ _ _ _ Hst1) as Hb1. rewrite E1. cbn [mbind option_bind].
  rewrite (slob_units_page _ p d1 Hb1 q nq (first lb NU)) by (done || lia). cbn [mbind option_bind].
  rewrite (slob_add_page _ p d1 Hb1), unit_eqb by (unfold NU in *; lia).
  assert (Hstep : exists st2, (if q + nq =? s then ua ← slob_units (unit_at p s) (sl_buddy st1); n0 ← slob_next (unit_at p s) (sl_buddy st1);
      on_buddy (set_slob (unit_at p q) (ua + nq) n0) st1 else on_buddy (set_slob (unit_at p q) nq (unit_at p s)) st1) = Some st2 /\
      page_state p (joined d q nq s m l') t (first l NU) st1 st2).
  { unfold joined. fold d1. destruct (Z.eqb_spec (q + nq) s) as [Eq|Hneq].
    - rewrite (slob_units_page _ p d1 Hb1 s m (first l' NU)) by (done || lia). cbn [mbind option_bind].
      rewrite (slob_next_page _ p d1 Hb1 s m (first l' NU)) by (done || lia). cbn [mbind option_bind]. rewrite (Z.add_comm m nq).
      apply (step_set_slob p d1 t _ st1 Hst1); lia.
    - apply (step_set_slob p d1 t _ st1 Hst1); lia. }
  destruct Hstep as (st2 & -> & Hp2). destruct (join_left_ok q nq s m l' (end_of 1 0 la) Hqlo Hnq Hqs Ho') as (J1 & J2 & J3).
  exists (la ++ join_left q nq s m l'), (joined d q nq s m l'), st2. split; [done|]. split.
  { replace (first (la ++ join_left q nq s m l') NU) with (first l NU); [by eapply page_state_trans|].
    rewrite El, !first_app. assert (first (join_left q nq s m l') NU = q) as -> by (unfold join_left; by destruct (q + nq =? s)). done. }
  split; [|by intros [_ E]%app_nil; unfold join_left in E; destruct (q + nq =? s)|done| | |done].
  - apply ordered_app. split; [by apply (ordered_app 1 0 la ((q, nq) :: lb))|done].
  - rewrite El, !total_app, J2, Ht. unfold total. simpl. lia.
  - intros i. rewrite El, !cov_app, J3, Hcov, cov_cons. tauto.
Qed.

Lemma slob_insert_ok :
  exists l' d' st', slob_insert p (unit_at p s) n st = Some st' /\ page_state p d' t (first l' NU) st st' /\ inserted d l s n d' l'.
Proof using Hst Ho Hc Hne Hs Hn Hsn Hap. destruct (Z.lt_ge_cases s (first l NU)); [by apply slob_insert_front|by apply slob_insert_after]. Qed.
End insert_block.
