(* ===== verification/SlobHeap.v ===== *)
(** * Kernel memory, the object allocator: the heap

    The invariant: a slab page is tiled by its free blocks and by the blocks of the live
    objects, and the pages with free blocks are in the lists.  Then what a change of the
    objects of one page does to it. *)

From stdpp Require Import gmap.
From S2P Require Import Prelude BuddyModel BuddyInv BuddyFree BuddyAlloc BuddyTheorems SlobModel SlobPage SlobAlloc.

(** The free blocks of the slab pages, and the sizes of the objects by the addresses of
    their blocks, which begin 8 bytes before them *)
Implicit Types (lay : gmap Z (list (Z * Z))) (live : gmap Z Z) (st : slob).

Definition all_lists st : list Z := free_slob_small st ++ free_slob_medium st ++ free_slob_large st.
(** The units of the block of an object *)
Definition obj_units (sz : Z) : Z := SLOB_UNITS (sz + KMALLOC_ALIGN).
Definition taken live (p i : Z) : Prop := exists m sz, live !! m = Some sz /\ m <= unit_at p i < m + 2 * obj_units sz.
Definition disjoint live : Prop := forall m m' sz sz' a, live !! m = Some sz -> live !! m' = Some sz' ->
  m <= a < m + 2 * obj_units sz -> m' <= a < m' + 2 * obj_units sz' -> m = m'.

Record slab_page_ok st (p : Z) (l : list (Z * Z)) (g : page) : Prop := {
  sp_page : mem_map (sl_buddy st) !! p = Some g;
  sp_use : in_use (sl_buddy st) (pg_zone g) p 0 1;
  sp_free : PageSlobFree g = negb (bool_decide (l = []));
  sp_ordered : ordered 1 0 l;
  sp_chain : chain (pg_data g) l NU;
  sp_total : units_of st p = total l;
  sp_first : freelist_of st p = unit_at p (first l NU)
}.

Record slob_ok st lay live : Prop := {
  so_buddy : buddy_ok (sl_buddy st);
  so_frames : forall p g, mem_map (sl_buddy st) !! p = Some g -> 0 <= p < 2 ^ 34 /\ length (pg_data g) = 4096%nat;
  so_slab : forall p g, mem_map (sl_buddy st) !! p = Some g -> PageSlab g = true <-> is_Some (lay !! p);
  so_page : forall p l, lay !! p = Some l -> exists g, slab_page_ok st p l g;
  so_nodup : NoDup (all_lists st);
  so_lists : forall p, p ∈ all_lists st <-> exists l, lay !! p = Some l /\ l <> [];
  so_live : forall m sz, live !! m = Some sz -> exists p s, m = unit_at p s /\ is_Some (lay !! p) /\ 0 <= s /\ s + obj_units sz <= NU /\
    0 < sz /\ s mod 4 = 0;
  so_tile : forall p l i, lay !! p = Some l -> 0 <= i < NU -> cov l i <-> ~ taken live p i;
  so_apart : disjoint live
}.

(** ** Flags *)

Lemma slab_flags n g : n = PG_slab \/ n = PG_slob_free ->
  Z.land (pg_flags (set_flag n g)) PAGE_FLAGS_CHECK_AT_FREE = Z.land (pg_flags g) PAGE_FLAGS_CHECK_AT_FREE /\
  Z.land (pg_flags (clear_flag n g)) PAGE_FLAGS_CHECK_AT_FREE = Z.land (pg_flags g) PAGE_FLAGS_CHECK_AT_FREE.
Proof.
  intros Hn. unfold set_flag, clear_flag, with_pflags. cbn [pg_flags].
  assert (Hz : Z.land (Z.shiftl 1 n) PAGE_FLAGS_CHECK_AT_FREE = 0) by (by destruct Hn as [->| ->]). split.
  - by rewrite Z.land_lor_distr_l, Hz, Z.lor_0_r.
  - apply Z.bits_inj'. intros i Hi. rewrite !Z.land_spec, Z.ldiff_spec. apply (f_equal (fun z => Z.testbit z i)) in Hz.
    rewrite Z.land_spec, Z.bits_0 in Hz. by destruct (Z.testbit (pg_flags g) i), (Z.testbit (Z.shiftl 1 n) i), (Z.testbit PAGE_FLAGS_CHECK_AT_FREE i).
Qed.

Lemma test_set_flag n k g : 0 <= n -> 0 <= k -> test_flag k (set_flag n g) = (k =? n) || test_flag k g.
Proof.
  intros Hn Hk. unfold test_flag, set_flag. cbn [pg_flags with_pflags]. rewrite Z.lor_spec, Z.shiftl_1_l, Z.pow2_bits_eqb, (Z.eqb_sym n k) by done. by rewrite orb_comm.
Qed.

Lemma test_clear_flag n k g : 0 <= n -> 0 <= k -> test_flag k (clear_flag n g) = negb (k =? n) && test_flag k g.
Proof.
  intros Hn Hk. unfold test_flag, clear_flag. cbn [pg_flags with_pflags]. rewrite Z.ldiff_spec, Z.shiftl_1_l, Z.pow2_bits_eqb, (Z.eqb_sym n k) by done. by rewrite andb_comm.
Qed.

(** ** A change of one page *)

(** Page [p] of [st] has become [g']; [here] says whether it is in a list. *)
Record page_moved st st' (p : Z) (g g' : page) (u f : Z) (here : Prop) : Prop := {
  pv_old : mem_map (sl_buddy st) !! p = Some g;
  pv_new : mem_map (sl_buddy st') !! p = Some g';
  pv_pages : forall q, q <> p -> mem_map (sl_buddy st') !! q = mem_map (sl_buddy st) !! q;
  pv_zones : zones (sl_buddy st') = zones (sl_buddy st);
  pv_marks : marks g' = marks g /\ pg_refcount g' = pg_refcount g /\
    Z.land (pg_flags g') PAGE_FLAGS_CHECK_AT_FREE = Z.land (pg_flags g) PAGE_FLAGS_CHECK_AT_FREE;
  pv_units : units_of st' p = u;
  pv_first : freelist_of st' p = f;
  pv_units_ne : forall q, q <> p -> units_of st' q = units_of st q;
  pv_first_ne : forall q, q <> p -> freelist_of st' q = freelist_of st q;
  pv_nodup : NoDup (all_lists st) -> NoDup (all_lists st');
  pv_lists : forall q, q ∈ all_lists st' <-> (q <> p /\ q ∈ all_lists st) \/ (q = p /\ here)
}.

Lemma lists_same st st' : (forall c, class_list c st' = class_list c st) -> all_lists st' = all_lists st.
Proof. intros H. unfold all_lists. pose proof (H SmallObjects). pose proof (H MediumObjects). pose proof (H LargeObjects). simpl in *. congruence. Qed.

Section moved.
Context (p : Z) (d : list Z) (u f : Z) (st st1 : slob) (g : page) (Hg : mem_map (sl_buddy st) !! p = Some g) (Hps : page_state p d u f st st1).

Lemma state_page : mem_map (sl_buddy st1) !! p = Some (with_data d g).
Proof using Hg Hps. rewrite (ps_buddy _ _ _ _ _ _ Hps). by apply wd_lookup. Qed.

Lemma state_pages q : q <> p -> mem_map (sl_buddy st1) !! q = mem_map (sl_buddy st) !! q.
Proof using Hps. intros Hq. rewrite (ps_buddy _ _ _ _ _ _ Hps). unfold wd, upd_page. simpl. by rewrite lookup_alter_ne. Qed.

Lemma moved_same (here : Prop) : (p ∈ all_lists st <-> here) -> page_moved st st1 p g (with_data d g) u (unit_at p f) here.
Proof using Hg Hps.
  intros Hh. pose proof Hps as [E1 E2 E3 E4 E5 E6]. pose proof (lists_same _ _ E6) as El. split; try done.
  - apply state_page.
  - apply state_pages.
  - by rewrite E1.
  - by rewrite El.
  - intros q. rewrite El. destruct (decide (q = p)) as [->|]; tauto.
Qed.

Lemma list_del_all st2 : all_lists (Slob (sl_buddy st2) (sp_units st2) (sp_freelist st2) (list_del p (free_slob_small st2)) (list_del p (free_slob_medium st2))
  (list_del p (free_slob_large st2))) = list_del p (all_lists st2).
Proof. unfold all_lists, list_del. simpl. by rewrite !list.filter_app. Qed.

Lemma moved_clear : exists st2, clear_slob_page_free p st1 = Some st2 /\
  page_moved st st2 p g (clear_flag PG_slob_free (with_data d g)) u (unit_at p f) False.
Proof using Hg Hps.
  pose proof Hps as [E1 E2 E3 E4 E5 E6]. pose proof (lists_same _ _ E6) as El. unfold clear_slob_page_free, on_buddy, on_page. cbn [sl_buddy].
  rewrite state_page. cbn [mbind option_bind]. eexists. split; [done|].
  match goal with |- page_moved _ ?s _ _ _ _ _ _ => assert (Hal : all_lists s = list_del p (all_lists st)) end.
  { rewrite <- El. exact (list_del_all st1). }
  split; try done.
  - simpl. by rewrite lookup_alter_eq, state_page.
  - intros q Hq. simpl. rewrite lookup_alter_ne by done. by apply state_pages.
  - simpl. by rewrite E1.
  - split; [done|]. split; [done|]. apply (slab_flags PG_slob_free (with_data d g)). by right.
  - rewrite Hal. by apply list.NoDup_filter.
  - intros q. rewrite Hal. unfold list_del. rewrite list_elem_of_filter. tauto.
Qed.

Lemma moved_set c : p ∉ all_lists st -> exists st2, set_slob_page_free p c st1 = Some st2 /\
  page_moved st st2 p g (set_flag PG_slob_free (with_data d g)) u (unit_at p f) True.
Proof using Hg Hps.
  intros Hn. pose proof Hps as [E1 E2 E3 E4 E5 E6]. pose proof (lists_same _ _ E6) as El. unfold set_slob_page_free, on_buddy, on_page.
  assert (Eb : sl_buddy (set_class_list c (p :: class_list c st1) st1) = sl_buddy st1) by (by destruct c). rewrite Eb, state_page. cbn [mbind option_bind].
  eexists. split; [done|].
  assert (Hperm : all_lists (with_buddy (upd_page p (set_flag PG_slob_free) (sl_buddy st1)) (set_class_list c (p :: class_list c st1) st1)) ≡ₚ p :: all_lists st).
  { rewrite <- El. unfold all_lists. destruct c; simpl; solve_Permutation. }
  split; try done.
  - simpl. by rewrite lookup_alter_eq, state_page.
  - intros q Hq. simpl. rewrite lookup_alter_ne by done. by apply state_pages.
  - simpl. by rewrite E1.
  - split; [done|]. split; [done|]. apply (slab_flags PG_slob_free (with_data d g)). by right.
  - by destruct c.
  - by destruct c.
  - intros q Hq. destruct c; by apply E4.
  - intros q Hq. destruct c; by apply E5.
  - intros Hnd. rewrite Hperm. by constructor.
  - intros q. rewrite Hperm, elem_of_cons. destruct (decide (q = p)) as [->|]; tauto.
Qed.
End moved.

(** The objects after a change of page [p] *)
Record objects_ok lay live (p : Z) (l' : list (Z * Z)) live' : Prop := {
  ob_live : forall m sz, live' !! m = Some sz -> exists q s, m = unit_at q s /\ (q = p \/ is_Some (lay !! q)) /\ 0 <= s /\ s + obj_units sz <= NU /\
    0 < sz /\ s mod 4 = 0;
  ob_tile : forall i, 0 <= i < NU -> cov l' i <-> ~ taken live' p i;
  ob_other : forall q i, q <> p -> is_Some (lay !! q) -> 0 <= i < NU -> taken live' q i <-> taken live q i;
  ob_apart : disjoint live'
}.

Section moved_any.
Context st st' (p : Z) (g g' : page) (u f : Z) (here : Prop).
Context (Hu : in_use (sl_buddy st) (pg_zone g) p 0 1) (Hm : page_moved st st' p g g' u f here).

Lemma in_block_0 q : in_block p 0 q <-> q = p.
Proof. unfold in_block, blk. simpl. lia. Qed.

Lemma moved_outside : outside (sl_buddy st) (sl_buddy st').
Proof using Hu Hm.
  apply (in_use_outside _ _ p 0 1 _ Hu (pv_zones _ _ _ _ _ _ _ _ Hm)).
  - intros q Hq. apply (pv_pages _ _ _ _ _ _ _ _ Hm). intros ->. apply Hq. by apply in_block_0.
  - intros q. destruct (decide (q = p)) as [->|Hne]; [|by rewrite (pv_pages _ _ _ _ _ _ _ _ Hm)].
    rewrite (pv_new _ _ _ _ _ _ _ _ Hm), (pv_old _ _ _ _ _ _ _ _ Hm). simpl. f_equal. apply (pv_marks _ _ _ _ _ _ _ _ Hm).
Qed.

Lemma moved_in_use q o n z : in_use (sl_buddy st) z q o n -> in_use (sl_buddy st') z q o n.
Proof using Hu Hm.
  intros [A1 A2 A3 A4]. split; [done|done| |].
  - intros x Hx. destruct (A3 x Hx) as (g0 & Hg0 & Hz & Hc & Hf & Hr). destruct (decide (x = p)) as [->|Hne].
    + rewrite (pv_old _ _ _ _ _ _ _ _ Hm) in Hg0. injection Hg0 as <-. exists g'. rewrite (pv_new _ _ _ _ _ _ _ _ Hm).
      destruct (pv_marks _ _ _ _ _ _ _ _ Hm) as (Hmk & -> & ->). injection Hmk as -> ->. done.
    + exists g0. by rewrite (pv_pages _ _ _ _ _ _ _ _ Hm).
  - intros x Hx. rewrite (outside_free _ _ moved_outside). by apply A4.
Qed.

End moved_any.

Section moved_ok.
Context st lay live (Hok : slob_ok st lay live) (p : Z) (g g' : page) (l' : list (Z * Z)) st' live'.
Context (Hu : in_use (sl_buddy st) (pg_zone g) p 0 1).
Context (Hm : page_moved st st' p g g' (total l') (unit_at p (first l' NU)) (l' <> [])).

Lemma slob_ok_moved :
  length (pg_data g') = 4096%nat -> PageSlab g' = true -> PageSlobFree g' = negb (bool_decide (l' = [])) ->
  ordered 1 0 l' -> chain (pg_data g') l' NU -> objects_ok lay live p l' live' ->
  slob_ok st' (<[p := l']> lay) live'.
Proof using Hok Hu Hm.
  intros Hl Hs Hf Ho Hc [O1 O2 O3 O4]. pose proof (pv_pages _ _ _ _ _ _ _ _ Hm) as Hpg. pose proof Hok as [B1 B2 B3 B4 B5 B6 B7 B8 B9]. split.
  - eapply outside_ok; [exact (moved_outside _ _ _ _ _ _ _ _ Hu Hm)|apply Hm|done].
  - intros q gq. destruct (decide (q = p)) as [->|Hne]; [|rewrite Hpg by done; apply B2]. rewrite (pv_new _ _ _ _ _ _ _ _ Hm). intros [= <-].
    split; [|done]. by apply (B2 p g), Hm.
  - intros q gq. destruct (decide (q = p)) as [->|Hne]; [|rewrite Hpg, lookup_insert_ne by done; apply B3].
    rewrite (pv_new _ _ _ _ _ _ _ _ Hm), lookup_insert_eq. intros [= <-]. split; [by eauto|done].
  - intros q lq. destruct (decide (q = p)) as [->|Hne].
    + rewrite lookup_insert_eq. intros [= <-]. exists g'. destruct (pv_marks _ _ _ _ _ _ _ _ Hm) as (Hmk & _). injection Hmk as Hz _.
      split; try done; [apply Hm| |apply Hm..]. rewrite Hz. by apply (moved_in_use _ _ _ _ _ _ _ _ Hu Hm).
    + rewrite lookup_insert_ne by done. intros Hq. destruct (B4 q lq Hq) as (gq & [C1 C2 C3 C4 C5 C6 C7]). exists gq. split; try done.
      * by rewrite Hpg.
      * by apply (moved_in_use _ _ _ _ _ _ _ _ Hu Hm).
      * by rewrite (pv_units_ne _ _ _ _ _ _ _ _ Hm).
      * by rewrite (pv_first_ne _ _ _ _ _ _ _ _ Hm).
  - by apply Hm.
  - intros q. rewrite (pv_lists _ _ _ _ _ _ _ _ Hm), B6. destruct (decide (q = p)) as [->|Hne].
    + rewrite lookup_insert_eq. split; [intros [[? _]|[_ ?]]; [done|by exists l']|]. intros (x & [= <-] & Hx). by right.
    + rewrite lookup_insert_ne by done. tauto.
  - intros m sz Hmm. destruct (O1 m sz Hmm) as (q & s & -> & Hq & Hrest). exists q, s. split; [done|]. split; [|done].
    destruct (decide (q = p)) as [->|Hne]; [rewrite lookup_insert_eq; by eauto|]. rewrite lookup_insert_ne by done. by destruct Hq as [?|?].
  - intros q lq i. destruct (decide (q = p)) as [->|Hne].
    + rewrite lookup_insert_eq. intros [= <-]. apply O2.
    + rewrite lookup_insert_ne by done. intros Hq Hi. rewrite O3 by (done || eauto). by apply B8.
  - exact O4.
Qed.
End moved_ok.

(** ** The objects of a page

    Taking a block from the free ones of a page, and giving it back. *)

Lemma obj_units_bounds sz : 0 < sz -> 5 <= obj_units sz /\ sz + 8 <= 2 * obj_units sz <= sz + 9.
Proof.
  intros Hs. unfold obj_units, SLOB_UNITS, SLOB_UNIT, KMALLOC_ALIGN. pose proof (Z.div_mod (sz + 8 + (2 - 1)) 2). pose proof (Z.mod_pos_bound (sz + 8 + (2 - 1)) 2). lia.
Qed.

Lemma same_frame p q x y : 0 <= p < 2 ^ 34 -> 0 <= q < 2 ^ 34 -> 0 <= x < 4096 -> 0 <= y < 4096 ->
  page_to_virt p + x = page_to_virt q + y -> p = q /\ x = y.
Proof.
  intros Hp Hq Hx Hy E. destruct (addr_page p x Hp Hx) as [H1 _]. destruct (addr_page q y Hq Hy) as [H2 _].
  rewrite <- E, H1 in H2. subst q. lia.
Qed.

Section objects.
Context st lay live (Hok : slob_ok st lay live).

Lemma slab_frame p : is_Some (lay !! p) -> 0 <= p < 2 ^ 34.
Proof using Hok. intros [l Hl]. destruct (so_page _ _ _ Hok p l Hl) as [g Hg]. by apply (so_frames _ _ _ Hok p g), Hg. Qed.

(** An address of an object is one of a unit of its block. *)
Lemma live_addr m sz a : live !! m = Some sz -> m <= a < m + 2 * obj_units sz ->
  exists p s x, m = unit_at p s /\ a = page_to_virt p + x /\ is_Some (lay !! p) /\ 0 <= p < 2 ^ 34 /\ 0 <= s /\ s + obj_units sz <= NU /\
    2 * s <= x < 2 * (s + obj_units sz) /\ 0 < sz /\ s mod 4 = 0.
Proof using Hok.
  intros Hm Ha. destruct (so_live _ _ _ Hok m sz Hm) as (p & s & -> & Hp & Hs & Hsz & Hpos & H4). exists p, s, (a - page_to_virt p).
  pose proof (slab_frame p Hp). unfold unit_at in *. split_and!; (done || lia).
Qed.

Lemma taken_at p i : is_Some (lay !! p) -> 0 <= i < NU -> taken live p i ->
  exists s sz, live !! unit_at p s = Some sz /\ 0 <= s /\ s + obj_units sz <= NU /\ s <= i < s + obj_units sz.
Proof using Hok.
  intros Hp Hi (m & sz & Hm & Ha). destruct (live_addr m sz _ Hm Ha) as (q & s & x & -> & Ex & Hq & Hqf & Hs & Hsz & Hx & Hpos & _).
  unfold NU in *. unfold unit_at in Ex. destruct (same_frame p q (2 * i) x) as [<- <-]; [by apply slab_frame|done|lia|lia|done|].
  exists s, sz. unfold NU. split_and!; (done || lia).
Qed.

Lemma taken_live p s sz i : live !! unit_at p s = Some sz -> s <= i < s + obj_units sz -> taken live p i.
Proof. intros Hm Hi. exists (unit_at p s), sz. split; [done|]. unfold unit_at. lia. Qed.
End objects.

Definition taken_dec live p i : {taken live p i} + {~ taken live p i} := decide (map_Exists (fun m sz => m <= unit_at p i < m + 2 * obj_units sz) live).

Lemma taken_insert live m sz p i : live !! m = None -> taken (<[m := sz]> live) p i <-> m <= unit_at p i < m + 2 * obj_units sz \/ taken live p i.
Proof.
  intros Hn. split.
  - intros (m' & sz' & [[<- <-]|[_ Hm]]%lookup_insert_Some & Ha); [by left|]. right. by exists m', sz'.
  - intros [Ha|(m' & sz' & Hm & Ha)]; [exists m, sz|exists m', sz']; (split; [|done]); [by rewrite lookup_insert_eq|].
    by rewrite lookup_insert_ne by congruence.
Qed.

Lemma taken_delete live m sz p i : disjoint live -> live !! m = Some sz ->
  taken (delete m live) p i <-> taken live p i /\ ~ m <= unit_at p i < m + 2 * obj_units sz.
Proof.
  intros Hd Hm. split.
  - intros (m' & sz' & [Hne Hm']%lookup_delete_Some & Ha). split; [by exists m', sz'|]. intros Ha'. apply Hne. by eapply Hd.
  - intros [(m' & sz' & Hm' & Ha) Hn]. exists m', sz'. split; [|done]. rewrite lookup_delete_ne; [done|]. intros <-. by simplify_eq.
Qed.

(** The units of another page *)
Lemma unit_elsewhere p q s n i : 0 <= p < 2 ^ 34 -> 0 <= q < 2 ^ 34 -> q <> p -> 0 <= s -> s + n <= NU -> 0 <= i < NU ->
  ~ unit_at p s <= unit_at q i < unit_at p s + 2 * n.
Proof.
  unfold NU, unit_at. intros Hp Hq Hne Hs Hn Hi Ha. destruct (same_frame q p (2 * i) (page_to_virt q + 2 * i - page_to_virt p)); (done || lia).
Qed.

Section change.
Context st lay live (Hok : slob_ok st lay live) (p : Z) (l l' : list (Z * Z)) (Hl : lay !! p = Some l).

Lemma objects_alloc al sz : 0 <= al -> al + obj_units sz <= NU -> al mod 4 = 0 -> 0 < sz -> (forall i, al <= i < al + obj_units sz -> cov l i) ->
  (forall i, cov l' i <-> cov l i /\ ~ al <= i < al + obj_units sz) ->
  live !! unit_at p al = None /\ objects_ok lay live p l' (<[unit_at p al := sz]> live).
Proof using Hok Hl.
  intros Hal Hu H4 Hsz Hin Hcov. destruct (obj_units_bounds sz Hsz) as [Hb _]. pose proof (slab_frame _ _ _ Hok p (ex_intro _ l Hl)) as Hpf.
  assert (Hfree : forall i, al <= i < al + obj_units sz -> ~ taken live p i).
  { intros i Hi. apply (so_tile _ _ _ Hok p l i Hl); [lia|]. by apply Hin. }
  assert (Hnone : live !! unit_at p al = None).
  { destruct (live !! unit_at p al) as [sz'|] eqn:E; [|done]. exfalso. apply (Hfree al ltac:(lia)). destruct (so_live _ _ _ Hok _ _ E) as (_ & _ & _ & _ & _ & _ & Hp & _).
    apply (taken_live _ p al sz'); [done|]. destruct (obj_units_bounds sz' Hp). lia. }
  split; [done|]. split.
  - intros m sz' [[<- <-]|[_ Hm]]%lookup_insert_Some; [exists p, al; by split_and!; try left|].
    destruct (so_live _ _ _ Hok m sz' Hm) as (q & s & -> & Hq & Hrest). exists q, s. split; [done|]. split; [by right|done].
  - intros i Hi. rewrite Hcov, taken_insert, (so_tile _ _ _ Hok p l i Hl Hi) by done. unfold unit_at. split; [intros [? Hni] [?|?]; [lia|done]|].
    intros Hn. split; [tauto|]. intros ?. apply Hn. left. lia.
  - intros q i Hne Hq Hi. rewrite taken_insert by done. pose proof (slab_frame _ _ _ Hok q Hq).
    pose proof (unit_elsewhere p q al (obj_units sz) i). tauto.
  - assert (Hnew : forall m sz' a, live !! m = Some sz' -> unit_at p al <= a < unit_at p al + 2 * obj_units sz -> m <= a < m + 2 * obj_units sz' -> False).
    { intros m sz' a Hm Ha Ha'. destruct (live_addr _ _ _ Hok m sz' a Hm Ha') as (q & s & x & -> & -> & Hq & Hqf & Hs & Hsz' & Hx & _).
      unfold unit_at, NU in *. destruct (same_frame p q (page_to_virt q + x - page_to_virt p) x) as [<- Ex]; [done|done|lia|lia|lia|].
      apply (Hfree (x / 2)); [pose proof (Z.div_mod x 2); pose proof (Z.mod_pos_bound x 2); lia|].
      apply (taken_live _ p s sz'); [done|]. pose proof (Z.div_mod x 2). pose proof (Z.mod_pos_bound x 2). lia. }
    intros m m' sz1 sz2 a [[<- <-]|[_ H1]]%lookup_insert_Some [[<- <-]|[_ H2]]%lookup_insert_Some Ha Ha'; [done|..].
    + by destruct (Hnew m' sz2 a).
    + by destruct (Hnew m sz1 a).
    + by apply (so_apart _ _ _ Hok m m' sz1 sz2 a).
Qed.

Lemma objects_free s sz : live !! unit_at p s = Some sz -> 0 <= s -> s + obj_units sz <= NU ->
  (forall i, cov l' i <-> cov l i \/ s <= i < s + obj_units sz) -> objects_ok lay live p l' (delete (unit_at p s) live).
Proof using Hok Hl.
  intros Hm Hs Hu Hcov. pose proof (slab_frame _ _ _ Hok p (ex_intro _ l Hl)) as Hpf. pose proof (so_apart _ _ _ Hok) as Hd. split.
  - intros m sz' [_ Hm']%lookup_delete_Some. destruct (so_live _ _ _ Hok m sz' Hm') as (q & s' & -> & Hq & Hrest). exists q, s'. split; [done|]. split; [by right|done].
  - intros i Hi. rewrite Hcov, (taken_delete live _ sz), (so_tile _ _ _ Hok p l i Hl Hi) by done. unfold unit_at. split; [intros [Hn|?] [Ht Hni]; [tauto|lia]|].
    intros Hn. destruct (decide (s <= i < s + obj_units sz)); [by right|]. left. intros Ht. apply Hn. split; [done|]. lia.
  - intros q i Hne Hq Hi. rewrite (taken_delete live _ sz) by done. pose proof (slab_frame _ _ _ Hok q Hq).
    pose proof (unit_elsewhere p q s (obj_units sz) i). tauto.
  - intros m m' sz1 sz2 a [_ H1]%lookup_delete_Some [_ H2]%lookup_delete_Some. by apply Hd.
Qed.
End change.
