(* ===== verification/SlobGrow.v ===== *)
(** * Kernel memory, the object allocator: allocation

    A block from a page of a list, or from a new page. *)

From stdpp Require Import gmap.
From S2P Require Import Prelude BuddyModel BuddyInv BuddyFree BuddyAlloc BuddyTheorems SlobModel SlobPage SlobAlloc SlobHeap.

Implicit Types (lay : gmap Z (list (Z * Z))) (live : gmap Z Z) (st : slob).

(** ** What may change *)

Definition byte (b : buddy) (p i : Z) : option Z := g ← mem_map b !! p; pg_data g !! Z.to_nat i.

(** Only the units [U] of pages change, and no page without such a unit. *)
Record kept_but (U : Z -> Z -> Prop) (b b' : buddy) : Prop := Kept {
  kp_byte : forall p i, 0 <= i -> ~ U p (i / 2) -> byte b' p i = byte b p i;
  kp_page : forall p, (forall i, ~ U p i) -> mem_map b' !! p = mem_map b !! p
}.

Lemma kept_but_refl U b : kept_but U b b.
Proof. by split. Qed.

Lemma kept_but_trans (U V W : Z -> Z -> Prop) b b1 b2 : kept_but U b b1 -> kept_but V b1 b2 -> (forall p i, U p i \/ V p i -> W p i) -> kept_but W b b2.
Proof.
  intros [A1 A2] [B1 B2] HW. split.
  - intros p i Hi Hn. rewrite B1, A1; [done|done| |done|]; intros ?; apply Hn, HW; tauto.
  - intros p Hn. rewrite B2, A2; [done|..]; intros i ?; apply (Hn i), HW; tauto.
Qed.

Lemma kept_but_mono (U W : Z -> Z -> Prop) b b' : kept_but U b b' -> (forall p i, U p i -> W p i) -> kept_but W b b'.
Proof. intros H HW. apply (kept_but_trans U U W _ b b' (kept_but_refl U b) H). intros p i [?|?]; auto. Qed.

Lemma moved_kept_units st st' p g g' u f here (P : Z -> Prop) i0 : page_moved st st' p g g' u f here -> P i0 ->
  differ P (pg_data g) (pg_data g') -> kept_but (fun q i => q = p /\ P i) (sl_buddy st) (sl_buddy st').
Proof.
  intros Hm H0 [_ Hd]. split.
  - intros q i Hi Hn. unfold byte. destruct (decide (q = p)) as [->|Hne]; [|by rewrite (pv_pages _ _ _ _ _ _ _ _ Hm)].
    rewrite (pv_new _ _ _ _ _ _ _ _ Hm), (pv_old _ _ _ _ _ _ _ _ Hm). cbn [mbind option_bind]. apply Hd; tauto.
  - intros q Hn. apply (pv_pages _ _ _ _ _ _ _ _ Hm). intros ->. by apply (Hn i0).
Qed.

(** The order of the lists does not matter. *)
Lemma slob_ok_lists st st' lay live : slob_ok st lay live -> sl_buddy st' = sl_buddy st -> sp_units st' = sp_units st -> sp_freelist st' = sp_freelist st ->
  all_lists st' ≡ₚ all_lists st -> slob_ok st' lay live.
Proof.
  intros [B1 B2 B3 B4 B5 B6 B7 B8 B9] Eb Eu Ef El. split; try done; rewrite ?Eb; try done.
  - intros p l Hl. destruct (B4 p l Hl) as (g & [C1 C2 C3 C4 C5 C6 C7]). exists g. unfold units_of, freelist_of in *. split; rewrite ?Eb, ?Eu, ?Ef; try done;
      unfold units_of, freelist_of; by rewrite ?Eu, ?Ef.
  - by rewrite El.
  - intros p. by rewrite El.
Qed.

Lemma rotate_perm k l : rotate k l ≡ₚ l.
Proof. unfold rotate. destruct (_ && _); [|done]. by rewrite (Permutation_app_comm (drop k l)), take_drop. Qed.

Lemma all_lists_class c l st : l ≡ₚ class_list c st -> all_lists (set_class_list c l st) ≡ₚ all_lists st.
Proof. unfold all_lists. destruct c; simpl; by intros ->. Qed.

Lemma moved_here st st' p g g' u f (h h' : Prop) : page_moved st st' p g g' u f h -> (h <-> h') -> page_moved st st' p g g' u f h'.
Proof. intros [A1 A2 A3 A4 A5 A6 A7 A8 A9 A10 A11] E. split; try done. intros q. by rewrite A11, E. Qed.

(** ** A page of a list *)

Record got st lay live (sz : Z) (U : Z -> Z -> Prop) (p al : Z) (l' : list (Z * Z)) st' : Prop := {
  gt_new : live !! unit_at p al = None;
  gt_ok : slob_ok st' (<[p := l']> lay) (<[unit_at p al := sz]> live);
  gt_kept : kept_but U (sl_buddy st) (sl_buddy st');
  gt_free : forall q, is_free (sl_buddy st') q <-> is_free (sl_buddy st) q;
  gt_total : total l' < NU;
  gt_place : 0 <= al /\ al + obj_units sz <= NU /\ al mod 4 = 0;
  gt_units : forall i, al <= i < al + obj_units sz -> U p i;
  gt_less : forall i, cov l' i -> U p i
}.

Lemma up4_mod s : up4 s mod 4 = 0.
Proof. unfold up4. by apply Z.mod_mul. Qed.

Section page.
Context st lay live (Hok : slob_ok st lay live) (p : Z) (l : list (Z * Z)) (Hl : lay !! p = Some l) (Hne : l <> []).

Lemma slab_state g : slab_page_ok st p l g -> state_is p (pg_data g) (total l) (first l NU) st.
Proof using Hok.
  intros [C1 C2 C3 C4 C5 C6 C7]. destruct (so_frames _ _ _ Hok p g C1) as [Hf Hlen]. split; [|done|done].
  split; [done|]. split; [done|]. by exists g.
Qed.

Lemma page_alloc_heap sz : 0 < sz ->
  (exists al l' st', slob_page_alloc p (sz + KMALLOC_ALIGN) 8 st = Some (Some (unit_at p al), st') /\ got st lay live sz (fun q i => q = p /\ cov l i) p al l' st') \/
  Forall (fun x => ~ fits (obj_units sz) x) l /\ slob_page_alloc p (sz + KMALLOC_ALIGN) 8 st = Some (None, st).
Proof using Hok Hl Hne.
  intros Hsz. destruct (obj_units_bounds sz Hsz) as [Hb _]. destruct (so_page _ _ _ Hok p l Hl) as [g Hg]. pose proof (slab_state g Hg) as Hst.
  pose proof Hg as [C1 C2 C3 C4 C5 C6 C7].
  destruct (slob_page_alloc_ok p (pg_data g) st l (sz + KMALLOC_ALIGN) Hst C4 C5 Hne) as [(la & s & n & lb & El & Hfit & Hr)|?]; [fold (obj_units sz); lia| |by right].
  left. fold (obj_units sz) in *. cbv zeta in Hr. destruct Hr as (d' & st1 & -> & Hps & Hch & Hd). unfold fits in Hfit. simpl in Hfit. pose proof (up4_bounds s).
  assert (Hin : (s, n) ∈ l) by (rewrite El; set_solver). destruct (ordered_in 1 0 l s n ltac:(lia) C4 Hin) as (Hs0 & Hn1 & Hsn).
  destruct (rest_ok la s n lb (up4 s) (obj_units sz)) as (R1 & R2 & R3); [by rewrite <- El|lia..|]. rewrite <- El in R2, R3.
  set (l' := rest la s n lb (up4 s) (obj_units sz)) in *.
  destruct (objects_alloc st lay live Hok p l l' Hl (up4 s) sz) as [Hnone Hob]; [lia|lia|apply up4_mod|done| |done|].
  { intros i Hi. exists s, n. split; [done|lia]. }
  assert (Hcov : forall i, s <= i < s + n -> cov l i) by (intros i Hi; exists s, n; done).
  assert (Hlen : length d' = 4096%nat) by (rewrite (proj1 Hd); by apply (so_frames _ _ _ Hok p g)).
  destruct (total_bounds 1 0 l ltac:(lia) C4 ltac:(unfold NU; lia)) as [_ Htb].
  assert (Hslab : PageSlab g = true) by (apply (so_slab _ _ _ Hok p g C1); by exists l).
  assert (Hfin : exists st2 g', (if total l' =? 0 then clear_slob_page_free p st1 else Some st1) = Some st2 /\ pg_data g' = d' /\
    page_moved st st2 p g g' (total l') (unit_at p (first l' NU)) (l' <> []) /\ PageSlab g' = true /\ PageSlobFree g' = negb (bool_decide (l' = []))).
  { destruct (Z.eqb_spec (total l') 0) as [E0|E0].
    - assert (El' : l' = []) by (apply (blocks_total_zero 1 0 l'); [lia|done|unfold NU; lia|done]).
      destruct (moved_clear p d' (total l') (first l' NU) st st1 g C1 Hps) as (st2 & -> & Hm). exists st2, (clear_flag PG_slob_free (with_data d' g)).
      split; [done|]. split; [done|]. unfold PageSlab, PageSlobFree in *. rewrite !test_clear_flag by done. split; [|split; [done|by rewrite El']].
      apply (moved_here _ _ _ _ _ _ _ _ _ Hm). by rewrite El'.
    - exists st1, (with_data d' g). split; [done|]. split; [done|]. assert (Hne' : l' <> []) by (by intros E; rewrite E in E0). split; [|split; [done|]].
      + apply moved_same; [done|done|]. rewrite (so_lists _ _ _ Hok). split; [done|]. intros _. by exists l.
      + change (PageSlobFree (with_data d' g)) with (PageSlobFree g). rewrite C3. by rewrite !bool_decide_eq_false_2. }
  destruct Hfin as (st2 & g' & -> & Ed & Hm & Hs' & Hf'). cbn [mbind option_bind]. exists (up4 s), l', st2. split; [done|]. split.
  - done.
  - apply (slob_ok_moved st lay live Hok p g g' l' st2); try done; rewrite ?Ed; done.
  - apply (moved_kept_units _ _ _ _ _ _ _ _ (cov l) s Hm); [apply Hcov; lia|by rewrite Ed].
  - intros q. apply (outside_free _ _ (moved_outside _ _ _ _ _ _ _ _ C2 Hm)).
  - lia.
  - split_and!; [lia|lia|apply up4_mod].
  - intros i Hi. split; [done|]. apply Hcov. lia.
  - intros i Hi. split; [done|]. by apply R3.
Qed.
End page.

(** ** The search of a list *)

Lemma total_ge gap lo l s n : 0 <= gap -> ordered gap lo l -> (s, n) ∈ l -> n <= total l.
Proof.
  intros Hg. revert lo. induction l as [|[s' n'] l IH]; intros lo; simpl; [by intros _ ?%not_elem_of_nil|].
  intros (? & ? & ? & Ho) [[= -> ->]|Hin]%elem_of_cons; unfold total; simpl; fold (total l).
  - destruct l as [|y l]; [simpl; lia|]. destruct y as [s1 n1]. pose proof Ho as (? & ? & ? & _). destruct (total_bounds gap (s' + n' + gap) ((s1, n1) :: l) Hg Ho); lia.
  - specialize (IH _ Ho Hin). lia.
Qed.

Lemma got_rotated st lay live sz U p al l' st' c k : got st lay live sz U p al l' st' ->
  got st lay live sz U p al l' (set_class_list c (rotate k (class_list c st')) st').
Proof.
  intros [A1 A2 A3 A4 A5 A6 A7 A8]. assert (Eb : sl_buddy (set_class_list c (rotate k (class_list c st')) st') = sl_buddy st') by (by destruct c).
  split; rewrite ?Eb; try done. apply (slob_ok_lists st'); [done|done|by destruct c|by destruct c|]. apply all_lists_class, rotate_perm.
Qed.

(** No block of page [p] fits, or the page is of another node. *)
Definition passed st lay (node sz p : Z) : Prop :=
  (exists g, mem_map (sl_buddy st) !! p = Some g /\ node <> NUMA_NO_NODE /\ page_to_nid g <> node) \/
  forall l, lay !! p = Some l -> Forall (fun x => ~ fits (obj_units sz) x) l.

Section search.
Context st lay live (Hok : slob_ok st lay live) (c : slob_class) (node sz : Z) (Hsz : 0 < sz).

Lemma search_heap : forall l k, (forall q, q ∈ l -> q ∈ all_lists st) ->
  (exists p al lp l' st', slob_search c (sz + KMALLOC_ALIGN) 8 node k l st = Some (Some (unit_at p al), st') /\ p ∈ l /\ lay !! p = Some lp /\
     got st lay live sz (fun q i => q = p /\ cov lp i) p al l' st') \/
  slob_search c (sz + KMALLOC_ALIGN) 8 node k l st = Some (None, st) /\ Forall (passed st lay node sz) l.
Proof using Hok Hsz.
  induction l as [|p l IH]; intros k Hin; [by right|]. cbn [slob_search].
  assert (Hskip : passed st lay node sz p ->
    (exists p0 al lp l' st', slob_search c (sz + KMALLOC_ALIGN) 8 node (S k) l st = Some (Some (unit_at p0 al), st') /\ p0 ∈ p :: l /\ lay !! p0 = Some lp /\
     got st lay live sz (fun q i => q = p0 /\ cov lp i) p0 al l' st') \/
    slob_search c (sz + KMALLOC_ALIGN) 8 node (S k) l st = Some (None, st) /\ Forall (passed st lay node sz) (p :: l)).
  { intros Hp. destruct (IH (S k)) as [(p0 & al & lp & l' & st' & E & Hp0 & Hg)|[E HF]]; [set_solver|left|right].
    - exists p0, al, lp, l', st'. split; [done|]. split; [set_solver|done].
    - split; [done|]. by constructor. }
  destruct (proj1 (so_lists _ _ _ Hok p)) as (lp & Hlp & Hne); [apply Hin; set_solver|].
  destruct (so_page _ _ _ Hok p lp Hlp) as [g Hg]. pose proof Hg as [C1 C2 C3 C4 C5 C6 C7]. rewrite C1. cbn [mbind option_bind].
  destruct (negb (node =? NUMA_NO_NODE) && negb (page_to_nid g =? node)) eqn:En.
  { apply Hskip. left. exists g. apply andb_true_iff in En as [E1%negb_true_iff%Z.eqb_neq E2%negb_true_iff%Z.eqb_neq]. done. }
  destruct (Z.ltb_spec (units_of st p) (SLOB_UNITS (sz + KMALLOC_ALIGN))) as [Hlt|Hge].
  { apply Hskip. right. intros l0 Hl0. rewrite Hlp in Hl0. injection Hl0 as <-. apply list.Forall_forall. intros [s n] Hsn Hf. unfold fits in Hf. simpl in Hf.
    pose proof (total_ge 1 0 lp s n ltac:(lia) C4 Hsn). pose proof (up4_bounds s). rewrite C6 in Hlt. fold (obj_units sz) in Hlt. lia. }
  destruct (page_alloc_heap st lay live Hok p lp Hlp Hne sz Hsz) as [(al & l' & st' & -> & Hgot)|[HF ->]]; cbn [mbind option_bind].
  - left. exists p, al, lp, l', (set_class_list c (rotate k (class_list c st')) st'). split; [done|]. split; [set_solver|]. split; [done|]. by apply got_rotated.
  - apply Hskip. right. intros l0 Hl0. rewrite Hlp in Hl0. by injection Hl0 as <-.
Qed.
End search.

(** ** A new page *)

Lemma moved_trans st st1 st2 p g g1 g2 u f h u' f' h' : page_moved st st1 p g g1 u f h -> page_moved st1 st2 p g1 g2 u' f' h' ->
  page_moved st st2 p g g2 u' f' h'.
Proof.
  intros [A1 A2 A3 A4 (A5 & A5' & A5'') A6 A7 A8 A9 A10 A11] [B1 B2 B3 B4 (B5 & B5' & B5'') B6 B7 B8 B9 B10 B11]. split; try done.
  - intros q Hq. by rewrite B3, A3.
  - congruence.
  - split_and!; congruence.
  - intros q Hq. by rewrite B8, A8.
  - intros q Hq. by rewrite B9, A9.
  - auto.
  - intros q. rewrite B11, A11. tauto.
Qed.

(** A change of the [struct page] alone *)
Lemma on_buddy_page st p f g : mem_map (sl_buddy st) !! p = Some g -> on_buddy (on_page p f) st = Some (with_buddy (upd_page p f (sl_buddy st)) st).
Proof. intros Hg. unfold on_buddy, on_page. by rewrite Hg. Qed.

Lemma moved_on_page st p f g : mem_map (sl_buddy st) !! p = Some g -> marks (f g) = marks g -> pg_refcount (f g) = pg_refcount g ->
  Z.land (pg_flags (f g)) PAGE_FLAGS_CHECK_AT_FREE = Z.land (pg_flags g) PAGE_FLAGS_CHECK_AT_FREE ->
  page_moved st (with_buddy (upd_page p f (sl_buddy st)) st) p g (f g) (units_of st p) (freelist_of st p) (p ∈ all_lists st).
Proof.
  intros Hg H1 H2 H3. split; try done.
  - simpl. by rewrite lookup_alter_eq, Hg.
  - intros q Hq. simpl. by rewrite lookup_alter_ne.
  - intros q. change (all_lists (with_buddy _ st)) with (all_lists st). destruct (decide (q = p)) as [->|]; tauto.
Qed.

(** ** Pages taken from and given to the page allocator *)

Lemma prep_not_slab g : Z.land (pg_flags g) PAGE_FLAGS_CHECK_AT_PREP = 0 -> PageSlab g = false.
Proof.
  intros Hf. apply (f_equal (fun z => Z.testbit z PG_slab)) in Hf. rewrite Z.land_spec, Z.bits_0 in Hf.
  change (Z.testbit PAGE_FLAGS_CHECK_AT_PREP PG_slab) with true in Hf. by rewrite andb_true_r in Hf.
Qed.

Lemma free_not_slab b q g : buddy_ok b -> is_free b q -> mem_map b !! q = Some g -> PageSlab g = false.
Proof.
  intros Hb (z & o & p & Hp & Hq) Hg. destruct (lo_block _ (bo_lists _ Hb) _ _ _ _ Hp Hq) as (g0 & Hg0 & _ & _ & _ & _ & Hf).
  rewrite Hg in Hg0. injection Hg0 as <-. by apply prep_not_slab.
Qed.

Section allocated_pages.
Context st lay live (Hok : slob_ok st lay live).

Lemma slab_not_free p : is_Some (lay !! p) -> ~ is_free (sl_buddy st) p.
Proof using Hok.
  intros [l Hl]. destruct (so_page _ _ _ Hok p l Hl) as (g & [C1 C2 C3 C4 C5 C6 C7]). by apply (iu_apart _ _ _ _ _ C2), in_block_0.
Qed.

(** The page allocator changes pages that are not slab pages. *)
Lemma slob_ok_buddy b' : buddy_ok b' ->
  (forall p g', mem_map b' !! p = Some g' -> exists g, mem_map (sl_buddy st) !! p = Some g /\ length (pg_data g') = 4096%nat) ->
  (forall p, is_Some (lay !! p) -> mem_map b' !! p = mem_map (sl_buddy st) !! p /\ ~ is_free b' p) ->
  (forall p g', lay !! p = None -> mem_map b' !! p = Some g' -> PageSlab g' = false) ->
  slob_ok (with_buddy b' st) lay live.
Proof using Hok.
  intros Hb Hfr Hsl Hns. pose proof Hok as [B1 B2 B3 B4 B5 B6 B7 B8 B9]. split; try done; cbn [sl_buddy with_buddy].
  - intros p g' Hg'. destruct (Hfr p g' Hg') as (g & Hg & Hlen). split; [|done]. by apply (B2 p g).
  - intros p g' Hg'. destruct (lay !! p) as [l|] eqn:El.
    + destruct (Hsl p) as [E _]; [by rewrite El|]. rewrite E in Hg'. rewrite (B3 p g' Hg'), El. done.
    + rewrite (Hns p g' El Hg'). split; [done|]. by intros [].
  - intros p l Hl. destruct (B4 p l Hl) as (g & [C1 [C2 C2' C2'' C2'''] C3 C4 C5 C6 C7]). destruct (Hsl p) as [E Hnf]; [by rewrite Hl|]. exists g.
    split; try done; cbn [sl_buddy with_buddy]; [by rewrite E|]. split; [done|done| |].
    + intros q Hq. apply in_block_0 in Hq as ->. rewrite E. apply C2''. by apply in_block_0.
    + intros q Hq. by apply in_block_0 in Hq as ->.
Qed.

Lemma slob_ok_allocated gfp z p o b' : allocated gfp (sl_buddy st) z p o b' ->
  slob_ok (with_buddy b' st) lay live /\ forall q, in_block p o q -> lay !! q = None.
Proof using Hok.
  intros Ha. assert (Hnone : forall q, in_block p o q -> lay !! q = None).
  { intros q Hq. destruct (lay !! q) as [l|] eqn:E; [|done]. exfalso. apply (slab_not_free q); [by rewrite E|]. apply (al_free _ _ _ _ _ _ Ha). by right. }
  split; [|done]. apply slob_ok_buddy; [apply Ha|..].
  - intros q g' Hg'. destruct (decide (in_block p o q)) as [Hq|Hq].
    + destruct (al_data _ _ _ _ _ _ Ha q g' Hq Hg') as (g & Hg & Ed). exists g. split; [done|]. rewrite Ed. destruct (wants_zero gfp); [done|]. by apply (so_frames _ _ _ Hok q g).
    + pose proof (al_attrs _ _ _ _ _ _ Ha q Hq) as Hat. rewrite Hg' in Hat. destruct (mem_map (sl_buddy st) !! q) as [g|] eqn:E; [|done]. injection Hat as _ _ _ Ed.
      exists g. split; [done|]. rewrite Ed. by apply (so_frames _ _ _ Hok q g).
  - intros q Hq. pose proof (slab_not_free q Hq) as Hnf. split; [by apply (al_rest _ _ _ _ _ _ Ha)|]. intros Hf. apply Hnf, (al_free _ _ _ _ _ _ Ha). by left.
  - intros q g' Hq Hg'. destruct (decide (in_block p o q)) as [Hin|Hout].
    + apply prep_not_slab, (al_flags _ _ _ _ _ _ Ha q g' Hin Hg').
    + pose proof (al_attrs _ _ _ _ _ _ Ha q Hout) as Hat. rewrite Hg' in Hat. destruct (mem_map (sl_buddy st) !! q) as [g|] eqn:E; [|done]. injection Hat as Ef _ _ _.
      destruct (PageSlab g') eqn:Es; [|done]. assert (Hg : PageSlab g = true) by (unfold PageSlab, test_flag in *; by rewrite <- Ef).
      apply (so_slab _ _ _ Hok q g E) in Hg. rewrite Hq in Hg. by destruct Hg.
Qed.

Lemma slob_ok_released p o b' : released (sl_buddy st) p o b' -> (forall q, in_block p o q -> lay !! q = None) -> slob_ok (with_buddy b' st) lay live.
Proof using Hok.
  intros Hr Hnone. assert (Hat : forall q g', mem_map b' !! q = Some g' -> exists g, mem_map (sl_buddy st) !! q = Some g /\ pg_data g' = pg_data g).
  { intros q g' Hg'. pose proof (rl_kept _ _ _ _ Hr q) as Hk. rewrite Hg' in Hk. destruct (mem_map (sl_buddy st) !! q) as [g|]; [|done]. injection Hk as _ Hk. by exists g. }
  apply slob_ok_buddy; [apply Hr|..].
  - intros q g' Hg'. destruct (Hat q g' Hg') as (g & Hg & Ed). exists g. split; [done|]. rewrite Ed. by apply (so_frames _ _ _ Hok q g).
  - intros q Hq. pose proof (slab_not_free q Hq) as Hnf. assert (Hout : ~ in_block p o q) by (intros Hin; rewrite (Hnone q Hin) in Hq; by destruct Hq).
    split; [by apply (rl_rest _ _ _ _ Hr)|]. rewrite (rl_free _ _ _ _ Hr). tauto.
  - intros q g' Hq Hg'. destruct (decide (in_block p o q)) as [Hin|Hout].
    + apply (free_not_slab b' q); [apply Hr| |done]. apply (rl_free _ _ _ _ Hr). by right.
    + pose proof (rl_attrs _ _ _ _ Hr q Hout) as Ha. rewrite Hg' in Ha. destruct (mem_map (sl_buddy st) !! q) as [g|] eqn:E; [|done]. injection Ha as Ef _ _ _.
      destruct (PageSlab g') eqn:Es; [|done]. assert (Hg : PageSlab g = true) by (unfold PageSlab, test_flag in *; by rewrite <- Ef).
      apply (so_slab _ _ _ Hok q g E) in Hg. rewrite Hq in Hg. by destruct Hg.
Qed.
End allocated_pages.

(** ** A page becomes a slab page *)

Definition make_slab (a : Z) (c : slob_class) (st : slob) : option slob :=
  let p := virt_to_pfn a in
  st ← on_buddy (on_page p (set_flag PG_slab)) st;
  let st := set_freelist p a (set_units p (SLOB_UNITS PAGE_SIZE) st) in
  st ← on_buddy (set_slob a (SLOB_UNITS PAGE_SIZE) (slob_add a (SLOB_UNITS PAGE_SIZE))) st;
  set_slob_page_free p c st.

Definition whole : list (Z * Z) := [(0, NU)].

Lemma cov_whole i : cov whole i <-> 0 <= i < NU.
Proof. unfold whole. rewrite cov_cons. pose proof (cov_nil i). lia || tauto. Qed.

Section fresh.
Context st lay live (Hok : slob_ok st lay live) (p : Z) (g : page) (c : slob_class).
Context (Hl : lay !! p = None) (Hg : mem_map (sl_buddy st) !! p = Some g) (Hu : in_use (sl_buddy st) (pg_zone g) p 0 1).

Lemma nothing_taken i : 0 <= i < NU -> ~ taken live p i.
Proof using Hok Hl Hg.
  intros Hi (m & sz & Hm & Ha). destruct (live_addr _ _ _ Hok m sz _ Hm Ha) as (q & s & x & -> & Ex & Hq & Hqf & Hs & Hsz & Hx & Hpos & _).
  unfold NU, unit_at in *. destruct (so_frames _ _ _ Hok p g Hg) as [Hpf _]. destruct (same_frame p q (2 * i) x) as [<- _]; [done|done|lia|lia|done|].
  rewrite Hl in Hq. by destruct Hq.
Qed.

Lemma make_slab_moved : exists st' g', make_slab (page_to_virt p) c st = Some st' /\ page_moved st st' p g g' NU (unit_at p 0) True /\
  pg_data g' = setb (pg_data g) 0 NU NU /\ PageSlab g' = true /\ PageSlobFree g' = true.
Proof using Hok Hg Hl.
  destruct (so_frames _ _ _ Hok p g Hg) as [Hpf Hlen]. assert (Ev : virt_to_pfn (page_to_virt p) = p).
  { rewrite <- (Z.add_0_r (page_to_virt p)). by apply addr_page. }
  unfold make_slab. rewrite Ev, (on_buddy_page st p _ g Hg). cbn [mbind option_bind].
  set (stS := with_buddy (upd_page p (set_flag PG_slab) (sl_buddy st)) st).
  assert (HgS : mem_map (sl_buddy stS) !! p = Some (set_flag PG_slab g)) by (simpl; by rewrite lookup_alter_eq, Hg).
  pose proof (moved_on_page st p (set_flag PG_slab) g Hg eq_refl eq_refl (proj1 (slab_flags PG_slab g ltac:(by left)))) as Hm1. fold stS in Hm1.
  set (gS := set_flag PG_slab g) in *. cbv zeta.
  assert (E0 : page_to_virt p = unit_at p 0) by (unfold unit_at; lia). rewrite E0.
  set (st1 := set_freelist p (unit_at p 0) _). change (SLOB_UNITS PAGE_SIZE) with NU in *.
  assert (Hb1 : bytes (sl_buddy stS) p (pg_data gS)) by (split; [done|]; split; [done|]; by exists gS).
  assert (Hps1 : page_state p (pg_data gS) NU 0 stS st1).
  { split; try done.
    - change (sl_buddy st1) with (sl_buddy stS). symmetry. by apply wd_same.
    - unfold units_of, st1. simpl. by rewrite lookup_insert_eq.
    - unfold freelist_of, st1. simpl. by rewrite lookup_insert_eq.
    - intros q Hq. unfold units_of, st1. simpl. by rewrite lookup_insert_ne.
    - intros q Hq. unfold freelist_of, st1. simpl. by rewrite lookup_insert_ne. }
  assert (Hst1 : state_is p (pg_data gS) NU 0 st1).
  { split; [exact Hb1|apply (ps_units _ _ _ _ _ _ Hps1)|apply (ps_first _ _ _ _ _ _ Hps1)]. }
  rewrite (slob_add_page (sl_buddy stS) p (pg_data gS) Hb1) by (unfold NU; lia). rewrite Z.add_0_l.
  destruct (step_set_slob p _ _ _ st1 Hst1 0 NU NU) as (st2 & -> & Hps2); [unfold NU; lia..|]. cbn [mbind option_bind].
  destruct (moved_set p _ _ _ stS st2 _ HgS (page_state_trans _ _ _ _ _ _ _ _ _ _ Hps1 Hps2) c) as (st3 & -> & Hm2).
  { intros Hin. change (all_lists stS) with (all_lists st) in Hin. apply (so_lists _ _ _ Hok) in Hin as (l & E & _). by rewrite Hl in E. }
  exists st3. eexists. split; [done|]. split; [by eapply moved_trans|]. split; [done|]. unfold PageSlab, PageSlobFree. rewrite !test_set_flag by done. split; [|done].
  change (test_flag PG_slab (with_data _ gS)) with (test_flag PG_slab gS). unfold gS. by rewrite test_set_flag.
Qed.

Lemma fresh_page : exists st', make_slab (page_to_virt p) c st = Some st' /\ slob_ok st' (<[p := whole]> lay) live /\
  kept_but (fun q i => q = p) (sl_buddy st) (sl_buddy st') /\ forall q, is_free (sl_buddy st') q <-> is_free (sl_buddy st) q.
Proof using Hok Hl Hg Hu.
  destruct (so_frames _ _ _ Hok p g Hg) as [Hpf Hlen]. destruct make_slab_moved as (st' & g' & -> & Hm & Hd & H1 & H2).
  pose proof (setb_differ (pg_data g) 0 NU NU ltac:(lia) ltac:(unfold NU; lia)) as Hdf.
  assert (Hm' : page_moved st st' p g g' (total whole) (unit_at p (first whole NU)) (whole <> [])) by (by apply (moved_here _ _ _ _ _ _ _ _ _ Hm)).
  exists st'. split; [done|]. split; [|split].
  - apply (slob_ok_moved st lay live Hok p g g' whole st' live Hu Hm'); try done.
    + by rewrite Hd, (proj1 Hdf).
    + rewrite Hd. split; [|done]. apply setb_enc; (unfold NU; lia || done).
    + split.
      * intros m sz Hlv. destruct (so_live _ _ _ Hok m sz Hlv) as (q & s & -> & Hq & Hrest). exists q, s. split; [done|]. split; [by right|done].
      * intros i Hi. rewrite cov_whole. pose proof (nothing_taken i Hi). tauto.
      * done.
      * apply Hok.
  - apply (kept_but_mono (fun q i => q = p /\ 0 <= i < 0 + NU)); [|tauto]. apply (moved_kept_units _ _ _ _ _ _ _ _ (fun i => 0 <= i < 0 + NU) 0 Hm); [unfold NU; lia|]. by rewrite Hd.
  - intros q. apply (outside_free _ _ (moved_outside _ _ _ _ _ _ _ _ Hu Hm')).
Qed.
End fresh.
