(* ===== verification/SlobKmalloc.v ===== *)
(** * Kernel memory, the object allocator: [kmalloc]

    The new block, and the stores into it: clearing and the header. *)

From stdpp Require Import gmap.
From S2P Require Import Prelude BuddyModel BuddyInv BuddyFree BuddyAlloc BuddyTheorems SlobModel SlobPage SlobAlloc SlobHeap SlobGrow.

Implicit Types (lay : gmap Z (list (Z * Z))) (live : gmap Z Z) (st : slob).

(** A free page, or a free unit of a slab page *)
Definition free_unit st lay (p i : Z) : Prop := is_free (sl_buddy st) p \/ exists l, lay !! p = Some l /\ cov l i.

(** No slab page is all free. *)
Definition used lay : Prop := forall p l, lay !! p = Some l -> total l < NU.

Record obtained st lay live (sz p al : Z) lay' st' : Prop := {
  og_new : live !! unit_at p al = None;
  og_ok : slob_ok st' lay' (<[unit_at p al := sz]> live);
  og_kept : kept_but (free_unit st lay) (sl_buddy st) (sl_buddy st');
  og_used : used lay -> used lay';
  og_slab : is_Some (lay' !! p);
  og_place : 0 <= al /\ al + obj_units sz <= NU /\ al mod 4 = 0;
  og_units : forall i, al <= i < al + obj_units sz -> free_unit st lay p i;
  og_less : forall q i, free_unit st' lay' q i -> free_unit st lay q i;
  og_pages : forall q, is_free (sl_buddy st) q <-> is_free (sl_buddy st') q \/ (q = p /\ lay !! p = None)
}.

Lemma used_insert lay p l : used lay -> total l < NU -> used (<[p := l]> lay).
Proof. intros H Hl q l' [[_ <-]|[_ ?]]%lookup_insert_Some; [done|by apply (H q)]. Qed.

(** A page of a list *)
Lemma got_obtained st lay live sz p lp al l' st' : lay !! p = Some lp -> got st lay live sz (fun q i => q = p /\ cov lp i) p al l' st' ->
  obtained st lay live sz p al (<[p := l']> lay) st'.
Proof.
  intros Hl [A1 A2 A3 A4 A5 A6 A7 A8]. split; try done.
  - apply (kept_but_mono _ _ _ _ A3). intros q i [-> Hc]. right. by exists lp.
  - intros Hu. by apply used_insert.
  - rewrite lookup_insert_eq. by eauto.
  - intros i Hi. destruct (A7 i Hi) as [_ Hc]. right. by exists lp.
  - intros q i [Hf|(l0 & [[<- <-]|[_ Hl0]]%lookup_insert_Some & Hc)]; [left; by apply A4| |right; by exists l0]. destruct (A8 i Hc) as [_ Hc']. right. by exists lp.
  - intros q. rewrite A4, Hl. split; [by left|]. by intros [?|[_ ?]].
Qed.

Section kmalloc_ok.
Context (node_zonelist : Z -> Z -> list zoneref) (smp_node_id : Z).

(** The zones of a request exist. *)
Record request_ok (b : buddy) (gfp node highest : Z) : Prop := {
  rq_node : 0 <= (if node =? NUMA_NO_NODE then smp_node_id else node) < MAX_NODES;
  rq_list : node_zonelist (if node =? NUMA_NO_NODE then smp_node_id else node) gfp <> [];
  rq_gfp : gfp_zone gfp = Some highest;
  rq_zones : Forall (fun z => is_Some (zones b !! z)) (zones_of_list highest (node_zonelist (if node =? NUMA_NO_NODE then smp_node_id else node) gfp))
}.
Definition request_zones (gfp node highest : Z) : list Z :=
  zones_of_list highest (node_zonelist (if node =? NUMA_NO_NODE then smp_node_id else node) gfp).

Lemma kept_allocated gfp z p o b b' : allocated gfp b z p o b' -> kept_but (fun q _ => is_free b q) b b'.
Proof.
  intros Ha. split.
  - intros q i Hi Hn. unfold byte. by rewrite (al_rest _ _ _ _ _ _ Ha).
  - intros q Hn. apply (al_rest _ _ _ _ _ _ Ha), (Hn 0).
Qed.

(** [private] of the first page may be set. *)
Lemma allocated_private gfp b z p o b1 v : allocated gfp b z p o b1 -> allocated gfp b z p o (upd_page p (with_private v) b1).
Proof.
  intros [A1 A2 A3 A4 A5 A6 A7 A8 A9 A10]. set (b' := upd_page p (with_private v) b1).
  assert (Hm : forall q, mem_map b' !! q = if decide (p = q) then with_private v <$> mem_map b1 !! q else mem_map b1 !! q).
  { intros q. unfold b', upd_page. simpl. rewrite lookup_alter. case_decide; by subst. }
  assert (Hp : in_block p o p) by auto with lego.
  assert (Hos : outside b1 b').
  { apply (in_use_outside b1 z p o 1 b' A2 eq_refl).
    - intros q Hq. rewrite Hm, decide_False; [done|]. by intros <-.
    - intros q. rewrite Hm. case_decide; [|done]. by destruct (mem_map b1 !! q). }
  split; try done.
  - by apply (outside_ok b1).
  - destruct A2 as [U1 U2 U3 U4]. split; [done|done| |].
    + intros q Hq. destruct (U3 q Hq) as (g & Hg & Hr). rewrite Hm, Hg. case_decide; [by exists (with_private v g)|by exists g].
    + intros q Hq. rewrite (outside_free _ _ Hos). by apply U4.
  - intros q Hq. rewrite Hm, decide_False; [by apply A5|]. by intros <-.
  - intros q. rewrite <- A6, Hm. case_decide; [|done]. by destruct (mem_map b1 !! q).
  - intros q Hq. rewrite Hm, decide_False; [by apply A7|]. intros <-. apply Hq, A3. by right.
  - intros q g Hq. rewrite Hm. case_decide; [|by apply A8]. destruct (mem_map b1 !! q) as [g1|] eqn:E; [|done]. intros [= <-]. by apply (A8 q g1).
  - intros q g Hq. rewrite Hm. case_decide; [|by apply A10]. destruct (mem_map b1 !! q) as [g1|] eqn:E; [|done]. intros [= <-]. by apply (A10 q g1).
Qed.

(** Pages from the page allocator *)
Lemma slob_new_pages_ok st lay live gfp node highest order : slob_ok st lay live -> request_ok (sl_buddy st) gfp node highest -> (order < MAX_ORDER)%nat ->
  match slob_new_pages node_zonelist smp_node_id gfp order node (sl_buddy st) with
  | Some (a, b') => exists l1 z l2 p g, request_zones gfp node highest = l1 ++ z :: l2 /\ Forall (fun z => no_run (sl_buddy st) z order) l1 /\
      allocated gfp (sl_buddy st) z p order b' /\ a = page_to_virt p /\ mem_map b' !! p = Some g /\ pg_private g = Z.of_nat order
  | None => Forall (fun z => no_run (sl_buddy st) z order) (request_zones gfp node highest)
  end.
Proof.
  intros Hok [Q1 Q2 Q3 Q4] Ho. unfold slob_new_pages. set (nid := if node =? NUMA_NO_NODE then smp_node_id else node) in *.
  rewrite (proj2 (Z.ltb_ge nid 0)), (proj2 (Z.leb_gt MAX_NODES nid)) by lia. cbn [orb].
  pose proof (alloc_pages_ok (sl_buddy st) gfp highest order _ (so_buddy _ _ _ Hok) Ho Q2 Q3 Q4) as Ha.
  destruct (__alloc_pages_nodemask gfp order (node_zonelist nid gfp) (sl_buddy st)) as [[[p|] b1]|]; [|done|done]. cbn [mbind option_bind].
  destruct Ha as (l1 & z & l2 & E & HF & Hal). destruct (iu_page _ _ _ _ _ (al_use _ _ _ _ _ _ Hal) p) as (g & Hg & _); [auto with lego|].
  unfold set_page_private, on_page. rewrite Hg. cbn [mbind option_bind]. exists l1, z, l2, p, (with_private (Z.of_nat order) g).
  split_and!; try done; [by apply allocated_private|]. simpl. by rewrite lookup_alter_eq, Hg.
Qed.

(** The block before it is cleared *)
Definition slob_obtain (size gfp align node : Z) (st : slob) : option (Z * slob) :=
  let c := class_of size in
  '(b, st) ← slob_search c size align node 0 (class_list c st) st;
  match b with
  | Some b => Some (b, st)
  | None =>
      '(a, bd) ← slob_new_pages node_zonelist smp_node_id (Z.ldiff gfp ___GFP_ZERO) 0 node (sl_buddy st);
      let st := with_buddy bd st in
      if a =? 0 then Some (0, st)
      else
        st ← make_slab a c st;
        '(b, st) ← slob_page_alloc (virt_to_pfn a) size align st;
        match b with
        | None => None
        | Some b => Some (b, st)
        end
  end.

Lemma slob_alloc_obtain size gfp align node st : slob_alloc node_zonelist smp_node_id size gfp align node st =
  ('(b, st) ← slob_obtain size gfp align node st;
   st ← (if negb (Z.land gfp ___GFP_ZERO =? 0) && negb (b =? 0) then on_buddy (memset (Z.to_nat size) b 0) st else Some st);
   Some (b, st)).
Proof.
  unfold slob_alloc, slob_obtain. destruct (slob_search _ _ _ _ _ _ _) as [[[b|] st1]|]; [done| |done]. cbn [mbind option_bind].
  destruct (slob_new_pages _ _ _ _ _ _) as [[a bd]|]; [|done]. cbn [mbind option_bind]. destruct (a =? 0); [done|]. unfold make_slab.
  destruct (on_buddy _ _) as [st2|]; [|done]. cbn [mbind option_bind]. destruct (on_buddy _ _) as [st3|]; [|done]. cbn [mbind option_bind].
  destruct (set_slob_page_free _ _ _) as [st4|]; [|done]. cbn [mbind option_bind]. destruct (slob_page_alloc _ _ _ _) as [[[b|] st5]|]; done.
Qed.

Lemma fits_whole sz : 0 < sz < 4088 -> fits (obj_units sz) (0, NU).
Proof. intros Hs. destruct (obj_units_bounds sz) as [_ Hb]; [lia|]. unfold fits. cbn [fst snd]. change (up4 0) with 0. unfold NU. lia. Qed.

Lemma slob_obtain_ok st lay live sz gfp node highest : slob_ok st lay live -> 0 < sz < 4088 -> request_ok (sl_buddy st) (Z.ldiff gfp ___GFP_ZERO) node highest ->
  match slob_obtain (sz + KMALLOC_ALIGN) gfp 8 node st with
  | Some (m, st') => exists p al lay', m = unit_at p al /\ obtained st lay live sz p al lay' st'
  | None => Forall (passed st lay node sz) (class_list (class_of (sz + KMALLOC_ALIGN)) st) /\ Forall (fun z => no_run (sl_buddy st) z 0) (request_zones (Z.ldiff gfp ___GFP_ZERO) node highest)
  end.
Proof.
  intros Hok Hsz Hrq. unfold slob_obtain. set (c := class_of _).
  destruct (search_heap st lay live Hok c node sz ltac:(lia) (class_list c st) 0) as [(p & al & lp & l' & st' & -> & _ & Hl & Hgot)|[-> HF]].
  { intros q. unfold all_lists. destruct c; simpl; rewrite !elem_of_app; tauto. }
  { cbn [mbind option_bind]. exists p, al, (<[p := l']> lay). split; [done|]. by eapply got_obtained. }
  cbn [mbind option_bind].
  pose proof (slob_new_pages_ok st lay live _ node highest 0 Hok Hrq ltac:(unfold MAX_ORDER; lia)) as Hn.
  destruct (slob_new_pages _ _ _ _ _ _) as [[a bd]|]; [|done]. cbn [mbind option_bind]. destruct Hn as (l1 & z & l2 & p & g & _ & _ & Hal & -> & Hg & _).
  destruct (slob_ok_allocated st lay live Hok _ z p 0 bd Hal) as [Hok1 Hnone]. set (st1 := with_buddy bd st) in *.
  assert (Hp0 : in_block p 0 p) by (by apply in_block_0). specialize (Hnone p Hp0).
  destruct (so_frames _ _ _ Hok1 p g Hg) as [Hpf _]. destruct (page_to_virt_bounds p Hpf) as [Hv _]. cbv zeta. rewrite (proj2 (Z.eqb_neq (page_to_virt p) 0)) by lia.
  assert (Hu : in_use (sl_buddy st1) (pg_zone g) p 0 1).
  { pose proof (al_use _ _ _ _ _ _ Hal) as Hu. destruct (iu_page _ _ _ _ _ Hu p Hp0) as (g0 & Hg0 & Hz & _). rewrite Hg in Hg0. injection Hg0 as <-. by rewrite Hz. }
  destruct (fresh_page st1 lay live Hok1 p g c Hnone Hg Hu) as (st2 & -> & Hok2 & Hk2 & Hf2). cbn [mbind option_bind].
  assert (Ev : virt_to_pfn (page_to_virt p) = p) by (rewrite <- (Z.add_0_r (page_to_virt p)); by apply addr_page). rewrite Ev.
  destruct (page_alloc_heap st2 _ live Hok2 p whole (lookup_insert_eq _ _ _) ltac:(done) sz ltac:(lia)) as [(al & l' & st3 & -> & Hgot)|[HF' _]].
  2:{ apply list.Forall_cons in HF' as [HF' _]. by destruct HF'; apply fits_whole. }
  cbn [mbind option_bind]. exists p, al, (<[p := l']> lay). split; [done|]. destruct Hgot as [A1 A2 A3 A4 A5 A6 A7 A8]. rewrite insert_insert_eq in A2.
  assert (Hpfree : is_free (sl_buddy st) p) by (apply (al_free _ _ _ _ _ _ Hal); by right). split; try done.
  - apply (kept_but_trans _ _ _ _ _ _ (kept_allocated _ _ _ _ _ _ Hal) (kept_but_trans _ _ (fun q i => q = p) _ _ _ Hk2 A3 ltac:(by intros q i [?|[? _]]))).
    intros q i [?| ->]; by left.
  - intros Hus. by apply used_insert.
  - rewrite lookup_insert_eq. by eauto.
  - intros i _. by left.
  - intros q i [Hf|(l0 & [[<- <-]|[_ Hl0]]%lookup_insert_Some & Hc)]; [|by left|right; by exists l0]. left. apply (al_free _ _ _ _ _ _ Hal). left. by apply Hf2, A4.
  - intros q. rewrite (al_free _ _ _ _ _ _ Hal), A4, Hf2, in_block_0. tauto.
Qed.
End kmalloc_ok.

(** ** Stores within an object *)

(** Bytes [off] to [off + n] of [d'] are those of [f], and the others those of [d]. *)
Definition stored (d : list Z) (off : Z) (n : nat) (f : Z -> Z) (d' : list Z) : Prop :=
  length d' = 4096%nat /\ forall k, 0 <= k -> d' !! Z.to_nat k = if decide (off <= k < off + Z.of_nat n) then Some (f (k - off)) else d !! Z.to_nat k.

Lemma bytes_same b p d : bytes b p d -> wd p d b = b.
Proof. intros (_ & _ & g & Hg & <-). by apply wd_same. Qed.

Lemma stored_first d off v : 0 <= off < 4096 -> length d = 4096%nat -> stored d off 1 (fun _ => v) (<[Z.to_nat off := v]> d).
Proof.
  intros Ho Hl. split; [by rewrite length_insert|]. intros k Hk. case_decide.
  - replace k with off by lia. rewrite list_lookup_insert_eq; [done|lia].
  - by rewrite list_lookup_insert_ne by lia.
Qed.

Lemma stored_cons d d1 d2 off n f v : 0 <= off -> stored d off 1 (fun _ => v) d1 -> stored d1 (off + 1) n f d2 ->
  stored d off (S n) (fun k => if k =? 0 then v else f (k - 1)) d2.
Proof.
  intros Ho [_ H1] [Hl H2]. split; [done|]. intros k Hk. rewrite H2, H1 by done. destruct (decide (k = off)) as [->|Hne].
  - rewrite decide_False, !decide_True, Z.sub_diag by lia. done.
  - rewrite (decide_False (P := off <= k < off + Z.of_nat 1)) by lia. destruct (decide (off + 1 <= k < _)); [rewrite decide_True by lia|by rewrite decide_False by lia].
    rewrite (proj2 (Z.eqb_neq (k - off) 0)) by lia. do 2 f_equal. lia.
Qed.

Lemma stored_ext d off n f f' d' : (forall k, 0 <= k < Z.of_nat n -> f k = f' k) -> stored d off n f d' -> stored d off n f' d'.
Proof. intros Hf [Hl H]. split; [done|]. intros k Hk. rewrite H by done. case_decide; [|done]. rewrite Hf; [done|lia]. Qed.

(** ** [memset], and little-endian stores and loads *)

Lemma memset_page p v n : forall b d off, bytes b p d -> 0 <= off -> off + Z.of_nat n <= 4096 ->
  exists d', memset n (page_to_virt p + off) v b = Some (wd p d' b) /\ stored d off n (fun _ => v) d'.
Proof.
  induction n as [|n IH]; intros b d off Hb Ho Hn; cbn [memset].
  - exists d. rewrite (bytes_same _ _ _ Hb). split; [done|]. split; [apply Hb|]. intros k Hk. by rewrite decide_False by lia.
  - rewrite (store8_page b p d Hb), (next_byte b p d Hb) by lia. cbn [mbind option_bind]. pose proof (stored_first d off v ltac:(lia) (proj1 (proj2 Hb))) as H1.
    destruct (IH (wd p (<[Z.to_nat off := v]> d) b) _ (off + 1) (bytes_wd _ _ _ _ Hb (proj1 H1)) ltac:(lia) ltac:(lia)) as (d' & -> & Hd). exists d'.
    rewrite wd_wd. split; [done|]. eapply stored_ext; [|by eapply stored_cons]. intros k _. simpl. by destruct (k =? 0).
Qed.

Definition le_byte (v k : Z) : Z := v / 256 ^ k mod 256.

Lemma store_le_page p n : forall b d off v, bytes b p d -> 0 <= off -> off + Z.of_nat n <= 4096 ->
  exists d', store_le n (page_to_virt p + off) v b = Some (wd p d' b) /\ stored d off n (le_byte v) d'.
Proof.
  induction n as [|n IH]; intros b d off v Hb Ho Hn; cbn [store_le].
  - exists d. rewrite (bytes_same _ _ _ Hb). split; [done|]. split; [apply Hb|]. intros k Hk. by rewrite decide_False by lia.
  - rewrite (store8_page b p d Hb), (next_byte b p d Hb) by lia. cbn [mbind option_bind]. pose proof (stored_first d off (v mod 256) ltac:(lia) (proj1 (proj2 Hb))) as H1.
    destruct (IH (wd p (<[Z.to_nat off := v mod 256]> d) b) _ (off + 1) (v / 256) (bytes_wd _ _ _ _ Hb (proj1 H1)) ltac:(lia) ltac:(lia)) as (d' & -> & Hd). exists d'.
    rewrite wd_wd. split; [done|]. eapply stored_ext; [|by eapply stored_cons]. intros k Hk. simpl. unfold le_byte. destruct (Z.eqb_spec k 0) as [->|Hne].
    + by rewrite Z.pow_0_r, Z.div_1_r.
    + rewrite Z.div_div by lia. replace (256 ^ k) with (256 * 256 ^ (k - 1)); [done|]. rewrite <- Z.pow_succ_r by lia. f_equal. lia.
Qed.

Lemma load_le_page p n : forall b d off v, bytes b p d -> 0 <= off -> off + Z.of_nat n <= 4096 ->
  (forall k, 0 <= k < Z.of_nat n -> d !! Z.to_nat (off + k) = Some (le_byte v k)) -> load_le n (page_to_virt p + off) b = Some (v mod 256 ^ Z.of_nat n).
Proof.
  induction n as [|n IH]; intros b d off v Hb Ho Hn Hd; cbn [load_le]; [by rewrite Z.mod_1_r|].
  rewrite (load8_page b p d Hb), (next_byte b p d Hb) by lia. pose proof (Hd 0 ltac:(lia)) as H0. rewrite Z.add_0_r in H0. rewrite H0. cbn [mbind option_bind].
  rewrite (IH b d (off + 1) (v / 256)); [|done|lia|lia|].
  - cbn [mbind option_bind]. f_equal. unfold le_byte. rewrite Z.pow_0_r, Z.div_1_r, Nat2Z.inj_succ, Z.pow_succ_r, Z.rem_mul_r by lia. done.
  - intros k Hk. replace (off + 1 + k) with (off + (k + 1)) by lia. rewrite Hd by lia. f_equal. unfold le_byte. rewrite Z.div_div by lia. do 2 f_equal.
    rewrite <- Z.pow_succ_r by lia. by rewrite Z.add_1_r.
Qed.

(** A load depends on its bytes only. *)
Lemma load_le_same p n : forall b b' d d' off, bytes b p d -> bytes b' p d' -> 0 <= off -> off + Z.of_nat n <= 4096 ->
  (forall k, off <= k < off + Z.of_nat n -> d' !! Z.to_nat k = d !! Z.to_nat k) -> load_le n (page_to_virt p + off) b' = load_le n (page_to_virt p + off) b.
Proof.
  induction n as [|n IH]; intros b b' d d' off Hb Hb' Ho Hn Hd; cbn [load_le]; [done|].
  rewrite (load8_page b p d Hb), (load8_page b' p d' Hb'), (next_byte b p d Hb), Hd by lia. by rewrite (IH b b' d d') by (done || lia || intros; apply Hd; lia).
Qed.

(** ** Stores within an object *)

Section object.
Context st lay live (Hok : slob_ok st lay live) (p s sz : Z) (Hm : live !! unit_at p s = Some sz) (Hs : 0 <= s) (Hu : s + obj_units sz <= NU) (Hl : is_Some (lay !! p)).

Lemma object_bytes : exists g, mem_map (sl_buddy st) !! p = Some g /\ bytes (sl_buddy st) p (pg_data g).
Proof using Hok Hl.
  destruct Hl as [l Hl']. destruct (so_page _ _ _ Hok p l Hl') as [g Hg]. exists g. split; [apply Hg|]. apply (slab_state _ _ _ Hok p l g Hg).
Qed.

Lemma slob_ok_store g o n f d' : mem_map (sl_buddy st) !! p = Some g -> stored (pg_data g) (2 * s + o) n f d' -> 0 <= o -> 1 <= Z.of_nat n -> o + Z.of_nat n <= 2 * obj_units sz ->
  let st' := with_buddy (wd p d' (sl_buddy st)) st in
  slob_ok st' lay live /\ kept_but (fun q i => q = p /\ s <= i < s + obj_units sz) (sl_buddy st) (sl_buddy st') /\
  (forall q, is_free (sl_buddy st') q <-> is_free (sl_buddy st) q) /\ bytes (sl_buddy st') p d'.
Proof using Hok Hm Hs Hu Hl.
  intros Hg [Hlen Hst] Ho Hn Hon st'. destruct Hl as [l Hl']. destruct (so_page _ _ _ Hok p l Hl') as [g0 Hg0]. pose proof Hg0 as [C1 C2 C3 C4 C5 C6 C7].
  rewrite Hg in C1. injection C1 as <-. pose proof (slab_state _ _ _ Hok p l g Hg0) as Hsi.
  assert (Hd : differ (fun i => s <= i < s + obj_units sz) (pg_data g) d').
  { split; [by rewrite Hlen, (proj1 (proj2 (si_bytes _ _ _ _ _ Hsi)))|]. intros k Hk Hout. rewrite Hst by done. rewrite decide_False; [done|].
    intros Hin. apply Hout. pose proof (Z.div_mod k 2). pose proof (Z.mod_pos_bound k 2). lia. }
  assert (Hps : page_state p d' (total l) (first l NU) st st') by (split; try done; apply Hsi).
  pose proof (moved_same p d' _ _ st st' g Hg Hps (p ∈ all_lists st) ltac:(done)) as Hmv.
  apply (moved_here _ _ _ _ _ _ _ _ (l <> [])) in Hmv.
  2:{ rewrite (so_lists _ _ _ Hok). split; [intros (l0 & E & ?); by simplify_eq|]. intros ?. by exists l. }
  split; [|split; [|split]].
  - rewrite <- (insert_id lay p l Hl'). apply (slob_ok_moved st lay live Hok p g _ l st' live C2 Hmv); try done.
    + apply (so_slab _ _ _ Hok p g Hg). by exists l.
    + apply (chain_differ _ (pg_data g) _ l _ 1 0 Hd); try done; try lia. intros i Hc Hi. destruct Hc as (s0 & n0 & Hin & Hi0).
      destruct (ordered_in 1 0 l s0 n0 ltac:(lia) C4 Hin) as (? & ? & ?). apply (so_tile _ _ _ Hok p l i Hl' ltac:(lia)); [by exists s0, n0|]. by apply (taken_live _ p s sz).
    + split; try apply Hok; [|by intros i; apply Hok|done]. intros m sz' Hm'. destruct (so_live _ _ _ Hok m sz' Hm') as (q & s' & ? & ? & ?). exists q, s'. tauto.
  - apply (moved_kept_units _ _ _ _ _ _ _ _ _ s Hmv); [|done]. lia.
  - intros q. apply (outside_free _ _ (moved_outside _ _ _ _ _ _ _ _ C2 Hmv)).
  - apply (bytes_wd _ _ (pg_data g)); [apply Hsi|done].
Qed.
End object.

(** ** Headers *)

Record heap_ok st lay live : Prop := {
  ho_slob : slob_ok st lay live;
  ho_used : used lay;
  ho_header : forall m sz, live !! m = Some sz -> load_le 4 m (sl_buddy st) = Some sz
}.

Section headers.
Context st lay live (Hok : slob_ok st lay live) (m sz : Z) (Hm : live !! m = Some sz).

Lemma live_not_free p s i : m = unit_at p s -> is_Some (lay !! p) -> 0 <= s -> s + obj_units sz <= NU -> s <= i < s + obj_units sz -> ~ free_unit st lay p i.
Proof using Hok Hm.
  intros -> Hp Hs Hu Hi [Hf|(l & Hl & Hc)]; [by apply (slab_not_free _ _ _ Hok p)|].
  apply (proj1 (so_tile _ _ _ Hok p l i Hl ltac:(lia)) Hc). by apply (taken_live _ p s sz).
Qed.

Lemma header_kept U st' lay' live' : slob_ok st' lay' live' -> live' !! m = Some sz -> kept_but U (sl_buddy st) (sl_buddy st') ->
  (forall p s i, m = unit_at p s -> is_Some (lay !! p) -> 0 <= s -> s + obj_units sz <= NU -> s <= i < s + obj_units sz -> ~ U p i) ->
  load_le 4 m (sl_buddy st') = load_le 4 m (sl_buddy st).
Proof using Hok Hm.
  intros Hok' Hm' [Hk _] HU. destruct (so_live _ _ _ Hok m sz Hm) as (p & s & -> & Hl & Hs & Hu & Hsz & _). destruct (obj_units_bounds sz Hsz) as [Hb _].
  assert (Hl' : is_Some (lay' !! p)).
  { destruct (so_live _ _ _ Hok' _ sz Hm') as (q & s' & E & Hq & Hs' & Hu' & _). pose proof (slab_frame _ _ _ Hok p Hl). pose proof (slab_frame _ _ _ Hok' q Hq).
    by destruct (unit_at_inj p q s s') as [-> _]; [done|done|lia|lia|done|]. }
  destruct (object_bytes st lay live Hok p Hl) as (g & Hg & Hbt). destruct (object_bytes st' lay' live' Hok' p Hl') as (g' & Hg' & Hbt').
  apply (load_le_same p 4 _ _ _ _ (2 * s) Hbt Hbt'); [lia|unfold NU in *; lia|]. intros k Hkk.
  specialize (Hk p k ltac:(lia)). unfold byte in Hk. rewrite Hg, Hg' in Hk. apply Hk, (HU p s); try done. pose proof (Z.div_mod k 2). pose proof (Z.mod_pos_bound k 2). lia.
Qed.
End headers.

(** ** [kmalloc] of less than a page *)

Record kmalloced st lay live (sz : Z) (zero : bool) (a : Z) lay' st' : Prop := {
  km_new : live !! (a - KMALLOC_ALIGN) = None;
  km_heap : heap_ok st' lay' (<[a - KMALLOC_ALIGN := sz]> live);
  km_kept : kept_but (free_unit st lay) (sl_buddy st) (sl_buddy st');
  km_align : (KMALLOC_ALIGN | a);
  km_page : exists p off, a = page_to_virt p + off /\ 0 <= p < 2 ^ 34 /\ KMALLOC_ALIGN <= off /\ off + sz <= 4096;
  km_zero : zero = true -> forall k, 0 <= k < sz -> load8 (a + k) (sl_buddy st') = Some 0;
  km_units : forall i, a - KMALLOC_ALIGN <= unit_at (virt_to_pfn a) i < a - KMALLOC_ALIGN + 2 * obj_units sz -> free_unit st lay (virt_to_pfn a) i;
  km_less : forall q i, free_unit st' lay' q i -> free_unit st lay q i;
  km_free : forall q, is_free (sl_buddy st) q <-> is_free (sl_buddy st') q \/ (q = virt_to_pfn a /\ lay !! q = None)
}.

Section stores.
Context st lay live (sz p al : Z) lay1 (Hsz : 0 < sz < 4088).

(** A store within the new block *)
Lemma obtained_store st1 o n f : obtained st lay live sz p al lay1 st1 -> 0 <= o -> 1 <= Z.of_nat n -> o + Z.of_nat n <= 2 * obj_units sz ->
  exists g, mem_map (sl_buddy st1) !! p = Some g /\ bytes (sl_buddy st1) p (pg_data g) /\
    forall d', stored (pg_data g) (2 * al + o) n f d' -> obtained st lay live sz p al lay1 (with_buddy (wd p d' (sl_buddy st1)) st1).
Proof using Hsz.
  intros [B1 B2 B3 B4 B5 B6 B7 B9 B8] Ho Hn Hon. destruct (object_bytes st1 _ _ B2 p B5) as (g & Hg & Hb). exists g. split; [done|]. split; [done|]. intros d' Hst.
  destruct B6 as (P1 & P2 & P3). destruct (slob_ok_store st1 lay1 _ B2 p al sz (lookup_insert_eq _ _ _) P1 P2 B5 g o n f d' Hg Hst Ho Hn Hon) as (S1 & S2 & S3 & _).
  split; try done.
  - apply (kept_but_trans _ _ _ _ _ _ B3 S2). intros q i [?|[-> ?]]; [done|by apply B7].
Qed.

Lemma memset_obtained st1 : obtained st lay live sz p al lay1 st1 ->
  exists st2, on_buddy (memset (Z.to_nat (sz + KMALLOC_ALIGN)) (unit_at p al) 0) st1 = Some st2 /\ obtained st lay live sz p al lay1 st2 /\
    forall k, 0 <= k < sz -> byte (sl_buddy st2) p (2 * al + KMALLOC_ALIGN + k) = Some 0.
Proof using Hsz.
  intros Hob. destruct (og_place _ _ _ _ _ _ _ _ Hob) as (P1 & P2 & _). destruct (obj_units_bounds sz) as [_ Hu]; [lia|]. unfold KMALLOC_ALIGN.
  destruct (obtained_store st1 0 (Z.to_nat (sz + 8)) (fun _ => 0) Hob) as (g & Hg & Hb & Hst); [lia..|].
  destruct (memset_page p 0 (Z.to_nat (sz + 8)) _ _ (2 * al) Hb) as (d' & E & Hd); [lia|unfold NU in *; lia|].
  unfold on_buddy, unit_at. rewrite E. cbn [mbind option_bind]. eexists. split; [done|]. split; [apply Hst; by rewrite Z.add_0_r|].
  intros k Hk. unfold byte. simpl. rewrite lookup_alter_eq, Hg. simpl. rewrite (proj2 Hd) by lia. by rewrite decide_True by lia.
Qed.

Lemma header_obtained st1 : obtained st lay live sz p al lay1 st1 ->
  exists st2, on_buddy (store_le 4 (unit_at p al) sz) st1 = Some st2 /\ obtained st lay live sz p al lay1 st2 /\
    load_le 4 (unit_at p al) (sl_buddy st2) = Some sz /\ forall k, 0 <= k -> byte (sl_buddy st2) p (2 * al + KMALLOC_ALIGN + k) = byte (sl_buddy st1) p (2 * al + KMALLOC_ALIGN + k).
Proof using Hsz.
  intros Hob. destruct (og_place _ _ _ _ _ _ _ _ Hob) as (P1 & P2 & _). destruct (obj_units_bounds sz) as [_ Hu]; [lia|]. unfold KMALLOC_ALIGN.
  destruct (obtained_store st1 0 4 (le_byte sz) Hob) as (g & Hg & Hb & Hst); [lia..|].
  destruct (store_le_page p 4 _ _ (2 * al) sz Hb) as (d' & E & Hd); [lia|unfold NU in *; lia|].
  unfold on_buddy, unit_at. rewrite E. cbn [mbind option_bind]. eexists. split; [done|]. split; [apply Hst; by rewrite Z.add_0_r|]. split.
  - rewrite (load_le_page p 4 _ d' (2 * al) sz).
    + f_equal. apply Z.mod_small. simpl. lia.
    + apply (bytes_wd _ _ _ _ Hb), Hd.
    + lia.
    + unfold NU in *. lia.
    + intros k Hk. rewrite (proj2 Hd) by lia. rewrite decide_True by lia. do 2 f_equal. lia.
  - intros k Hk. unfold byte. simpl. rewrite lookup_alter_eq, Hg. simpl. rewrite (proj2 Hd) by lia. by rewrite decide_False by lia.
Qed.
End stores.

Section kmalloc_small.
Context (node_zonelist : Z -> Z -> list zoneref) (smp_node_id : Z).
Context st lay live (Hheap : heap_ok st lay live) (sz : Z) (Hsz : 0 < sz < 4088) (gfp node highest : Z).

Lemma obtained_kmalloced zero p al lay1 st2 : obtained st lay live sz p al lay1 st2 -> load_le 4 (unit_at p al) (sl_buddy st2) = Some sz ->
  (zero = true -> forall k, 0 <= k < sz -> byte (sl_buddy st2) p (2 * al + KMALLOC_ALIGN + k) = Some 0) ->
  unit_at p al +u KMALLOC_ALIGN = unit_at p al + KMALLOC_ALIGN /\ kmalloced st lay live sz zero (unit_at p al + KMALLOC_ALIGN) lay1 st2.
Proof using Hheap Hsz.
  intros Hob Hh Hz. pose proof Hob as [B1 B2 B3 B4 B5 (P1 & P2 & P3) B7 B9 B8]. destruct (obj_units_bounds sz) as [_ Hu]; [lia|]. unfold NU in *.
  pose proof (slab_frame _ _ _ B2 p B5) as Hpf. destruct (page_to_virt_bounds p Hpf) as [V1 V2].
  assert (Ea : unit_at p al + KMALLOC_ALIGN - KMALLOC_ALIGN = unit_at p al) by lia.
  destruct (object_bytes st2 _ _ B2 p B5) as (g & Hg & Hb).
  assert (Eaddr : forall k, unit_at p al + KMALLOC_ALIGN + k = page_to_virt p + (2 * al + KMALLOC_ALIGN + k)) by (intros k; unfold unit_at; lia).
  assert (Ev : virt_to_pfn (unit_at p al + KMALLOC_ALIGN) = p).
  { rewrite <- (Z.add_0_r (_ + KMALLOC_ALIGN)), Eaddr. apply addr_page; [done|]. unfold KMALLOC_ALIGN. lia. }
  split; [unfold unit_at, KMALLOC_ALIGN; apply wrap_small; unfold is_u64; lia|]. split; rewrite ?Ea; try done.
  - split; [done|by apply B4, Hheap|]. intros m sz' Hm. pose proof Hm as [[<- <-]|[Hne Hm']]%lookup_insert_Some; [done|]. rewrite <- (ho_header _ _ _ Hheap m sz' Hm').
    apply (header_kept st lay live (ho_slob _ _ _ Hheap) m sz' Hm' _ st2 lay1 _ B2 Hm B3). intros q s i. apply (live_not_free st lay live (ho_slob _ _ _ Hheap) m sz' Hm').
  - unfold unit_at, KMALLOC_ALIGN. rewrite page_to_virt_eq by done. apply Z.mod_divide in P3 as [x ->]; [|done].
    assert (PAGE_OFFSET = PAGE_OFFSET / 4096 * 4096) by done. exists (p * 512 + PAGE_OFFSET / 4096 * 512 + x + 1). lia.
  - exists p, (2 * al + KMALLOC_ALIGN). unfold KMALLOC_ALIGN in *. split; [unfold unit_at; lia|]. lia.
  - intros Hzt k Hk. specialize (Hz Hzt k Hk). unfold byte in Hz. rewrite Hg in Hz. cbn [mbind option_bind] in Hz. unfold KMALLOC_ALIGN in *. by rewrite Eaddr, (load8_page _ p _ Hb) by lia.
  - rewrite Ev. intros i Hi. apply B7. unfold unit_at in Hi. lia.
  - intros q. rewrite B8, Ev. split; (intros [?|[-> ?]]; [by left|by right]).
Qed.

Lemma kmalloc_small_ok : request_ok node_zonelist smp_node_id (sl_buddy st) (Z.ldiff gfp ___GFP_ZERO) node highest ->
  match __do_kmalloc_node node_zonelist smp_node_id sz gfp node st with
  | Some (a, st') => exists lay', kmalloced st lay live sz (negb (Z.land gfp ___GFP_ZERO =? 0)) a lay' st'
  | None => Forall (passed st lay node sz) (class_list (class_of (sz + KMALLOC_ALIGN)) st) /\
      Forall (fun z => no_run (sl_buddy st) z 0) (request_zones node_zonelist smp_node_id (Z.ldiff gfp ___GFP_ZERO) node highest)
  end.
Proof using Hheap Hsz.
  intros Hrq. unfold __do_kmalloc_node. rewrite (proj2 (Z.ltb_lt sz (PAGE_SIZE - KMALLOC_ALIGN))), (proj2 (Z.eqb_neq sz 0)) by (rewrite ?PAGE_SIZE_eq; unfold KMALLOC_ALIGN; lia).
  rewrite slob_alloc_obtain. pose proof (slob_obtain_ok node_zonelist smp_node_id st lay live sz gfp node highest (ho_slob _ _ _ Hheap) Hsz Hrq) as Hob.
  change KMALLOC_ALIGN with 8 in *. destruct (slob_obtain _ _ _ _ _ _ _) as [[m st1]|]; [|done]. cbn [mbind option_bind]. destruct Hob as (p & al & lay1 & -> & Hob).
  assert (Hne : (unit_at p al =? 0) = false).
  { apply Z.eqb_neq. pose proof (slab_frame _ _ _ (og_ok _ _ _ _ _ _ _ _ Hob) p (og_slab _ _ _ _ _ _ _ _ Hob)) as Hpf. destruct (page_to_virt_bounds p Hpf).
    destruct (og_place _ _ _ _ _ _ _ _ Hob) as (P1 & _). unfold unit_at. lia. }
  set (zero := negb (Z.land gfp ___GFP_ZERO =? 0)) in *. rewrite Hne. cbn [negb]. rewrite andb_true_r.
  assert (Hclr : exists st2, (if zero then on_buddy (memset (Z.to_nat (sz + 8)) (unit_at p al) 0) st1 else Some st1) = Some st2 /\ obtained st lay live sz p al lay1 st2 /\
    (zero = true -> forall k, 0 <= k < sz -> byte (sl_buddy st2) p (2 * al + KMALLOC_ALIGN + k) = Some 0)).
  { destruct zero; [|by exists st1]. destruct (memset_obtained st lay live sz p al lay1 Hsz st1 Hob) as (st2 & E & Hob2 & Hz). by exists st2. }
  destruct Hclr as (st2 & -> & Hob2 & Hz). cbn [mbind option_bind]. rewrite Hne.
  destruct (header_obtained st lay live sz p al lay1 Hsz st2 Hob2) as (st3 & -> & Hob3 & Hh & Hsame). cbn [mbind option_bind].
  destruct (obtained_kmalloced zero p al lay1 st3 Hob3 Hh) as [E Hk]; [intros Hzt k Hkk; rewrite Hsame by lia; by apply Hz|]. change KMALLOC_ALIGN with 8 in *.
  rewrite E. by exists lay1.
Qed.
End kmalloc_small.
