(* ===== verification/SlobKfree.v ===== *)
(** * Kernel memory, the object allocator: [kfree]

    Freeing an object; that the objects determine the free blocks; whole pages. *)

From stdpp Require Import gmap.
From S2P Require Import Prelude BuddyModel BuddyInv BuddyFree BuddyAlloc BuddyTheorems SlobModel SlobPage SlobAlloc SlobHeap SlobGrow SlobKmalloc.

Implicit Types (lay : gmap Z (list (Z * Z))) (live : gmap Z Z) (st : slob).

(** The units that may change when the object at [m] is freed *)
Definition freed_unit st lay (m sz p i : Z) : Prop := free_unit st lay p i \/ (p = virt_to_pfn m /\ m <= unit_at p i < m + 2 * obj_units sz).

Record kfreed st lay live (m sz : Z) lay' st' : Prop := {
  kf_heap : heap_ok st' lay' (delete m live);
  kf_kept : kept_but (freed_unit st lay m sz) (sl_buddy st) (sl_buddy st');
  kf_free : forall q, is_free (sl_buddy st') q <-> is_free (sl_buddy st) q \/
    (q = virt_to_pfn m /\ forall m', is_Some (live !! m') -> virt_to_pfn m' = q -> m' = m)
}.

(** Some unit is not free. *)
Lemma uncovered l : ordered 1 0 l -> total l < NU -> exists i, 0 <= i < NU /\ ~ cov l i.
Proof.
  destruct l as [|[s n] l]; [exists 0; split; [unfold NU; lia|apply cov_nil]|]. intros (H1 & H2 & H3 & Ho) Ht.
  assert (Hlo : forall i, i <= s + n -> ~ cov l i).
  { intros i Hi (s' & n' & Hin & Hi'). destruct (ordered_in 1 _ l s' n' ltac:(lia) Ho Hin). lia. }
  destruct (decide (s = 0)) as [->|Hs].
  - exists n. split.
    + split; [lia|]. destruct (decide (n = NU)) as [->|]; [|lia]. exfalso. unfold total in Ht. simpl in Ht. fold (total l) in Ht.
      destruct l as [|[s' n'] l]; [simpl in Ht; lia|]. destruct Ho as (? & ? & ? & _). lia.
    + rewrite cov_cons. intros [?|?]; [lia|]. by apply (Hlo n); [lia|].
  - exists 0. split; [unfold NU; lia|]. rewrite cov_cons. intros [?|?]; [lia|]. by apply (Hlo 0); [lia|].
Qed.

(** ** A page without objects is no longer a slab page. *)

Lemma slob_ok_drop st lay live p g g' u f st' live' : slob_ok st lay live -> in_use (sl_buddy st) (pg_zone g) p 0 1 -> page_moved st st' p g g' u f False ->
  length (pg_data g') = 4096%nat -> PageSlab g' = false ->
  (forall m sz, live' !! m = Some sz -> live !! m = Some sz /\ forall s, m = unit_at p s -> 0 <= s < NU -> False) ->
  (forall q i, q <> p -> is_Some (lay !! q) -> 0 <= i < NU -> taken live' q i <-> taken live q i) ->
  slob_ok st' (delete p lay) live'.
Proof.
  intros Hok Hu Hm Hlen Hs Hsub Ht. pose proof Hok as [B1 B2 B3 B4 B5 B6 B7 B8 B9]. pose proof (pv_pages _ _ _ _ _ _ _ _ Hm) as Hpg. split.
  - eapply outside_ok; [exact (moved_outside _ _ _ _ _ _ _ _ Hu Hm)|apply Hm|done].
  - intros q gq. destruct (decide (q = p)) as [->|Hne]; [|rewrite Hpg by done; apply B2]. rewrite (pv_new _ _ _ _ _ _ _ _ Hm). intros [= <-].
    split; [|done]. by apply (B2 p g), Hm.
  - intros q gq. destruct (decide (q = p)) as [->|Hne]; [|rewrite Hpg, lookup_delete_ne by done; apply B3].
    rewrite (pv_new _ _ _ _ _ _ _ _ Hm), lookup_delete_eq, <- not_eq_None_Some. intros [= <-]. by rewrite Hs.
  - intros q lq [Hne Hq]%lookup_delete_Some. destruct (B4 q lq Hq) as (gq & [C1 C2 C3 C4 C5 C6 C7]). exists gq. split; try done.
    + by rewrite Hpg.
    + by apply (moved_in_use _ _ _ _ _ _ _ _ Hu Hm).
    + by rewrite (pv_units_ne _ _ _ _ _ _ _ _ Hm).
    + by rewrite (pv_first_ne _ _ _ _ _ _ _ _ Hm).
  - by apply Hm.
  - intros q. rewrite (pv_lists _ _ _ _ _ _ _ _ Hm), B6. split.
    + intros [(Hne & l & Hl & Hnil)|[_ []]]. exists l. by rewrite lookup_delete_ne.
    + intros (l & [Hne Hl]%lookup_delete_Some & Hnil). left. split; [done|]. by exists l.
  - intros m sz Hmm. destruct (Hsub m sz Hmm) as [Hl0 Hno]. destruct (B7 m sz Hl0) as (q & s & -> & Hq & Hs0 & Hu0 & Hpos & H4). exists q, s.
    split; [done|]. split; [|done]. destruct (obj_units_bounds sz Hpos). rewrite lookup_delete_ne; [done|]. intros <-. apply (Hno s); [done|lia].
  - intros q lq i [Hne Hq]%lookup_delete_Some Hi. rewrite Ht by (done || eauto). by apply B8.
  - intros m m' sz sz' a H1 H2. destruct (Hsub m sz H1), (Hsub m' sz' H2). by apply B9.
Qed.

Section free.
Context st lay live (Hheap : heap_ok st lay live) (p s sz : Z) (l : list (Z * Z)) (g : page).
Context (Hm : live !! unit_at p s = Some sz) (Hl : lay !! p = Some l) (Hg : slab_page_ok st p l g).
Context (Hs : 0 <= s) (Hu : s + obj_units sz <= NU) (Hsz : 0 < sz).

Lemma block_apart i : s <= i < s + obj_units sz -> ~ cov l i.
Proof using Hheap Hm Hl Hs Hu.
  intros Hi Hc. apply (proj1 (so_tile _ _ _ (ho_slob _ _ _ Hheap) p l i Hl ltac:(lia)) Hc). by apply (taken_live _ p s sz).
Qed.

(** The blocks with the freed one, merged *)
Lemma merged : exists l', ordered 1 0 l' /\ total l' = total l + obj_units sz /\ forall i, cov l' i <-> cov l i \/ s <= i < s + obj_units sz.
Proof using Hheap Hm Hl Hg Hs Hu Hsz.
  destruct (obj_units_bounds sz Hsz) as [Hb _]. destruct (decide (l = [])) as [El|Hne].
  - exists [(s, obj_units sz)]. rewrite El. split; [simpl; split_and!; (done || lia)|]. split; [unfold total; simpl; lia|].
    intros i. rewrite cov_cons. pose proof (cov_nil i). tauto.
  - pose proof (slab_state _ _ _ (ho_slob _ _ _ Hheap) p l g Hg) as Hst.
    destruct (slob_insert_ok p _ _ st l s (obj_units sz) Hst (sp_ordered _ _ _ _ Hg) (sp_chain _ _ _ _ Hg) Hne Hs ltac:(lia) Hu block_apart) as (l' & d' & st' & _ & _ & [I1 I2 I3 I4 I5 I6]).
    by exists l'.
Qed.

Lemma units_bound : total l + obj_units sz <= NU.
Proof using Hheap Hm Hl Hg Hs Hu Hsz.
  destruct merged as (l' & Ho & Ht & _). rewrite <- Ht. destruct (total_bounds 1 0 l' ltac:(lia) Ho ltac:(unfold NU; lia)). lia.
Qed.

(** Another object is in the page unless the units add up. *)
Lemma other_object : (total l + obj_units sz = NU -> forall i, 0 <= i < NU -> cov l i \/ s <= i < s + obj_units sz) /\
  (total l + obj_units sz <> NU -> exists s' sz', live !! unit_at p s' = Some sz' /\ 0 <= s' < NU /\ s' <> s).
Proof using Hheap Hm Hl Hg Hs Hu Hsz.
  pose proof units_bound as Hub. destruct merged as (l' & Ho & Ht & Hc). split.
  - intros E i Hi. apply Hc. rewrite (total_full 0 l' Ho) by (unfold NU in *; lia). apply cov_cons. left. lia.
  - intros E. destruct (uncovered l' Ho ltac:(lia)) as (i & Hi & Hn). rewrite Hc in Hn.
    assert (Htk : taken live p i).
    { destruct (taken_dec live p i) as [?|Hnt]; [done|]. destruct Hn. left. by apply (so_tile _ _ _ (ho_slob _ _ _ Hheap) p l i Hl Hi). }
    destruct (taken_at _ _ _ (ho_slob _ _ _ Hheap) p i (ex_intro _ l Hl) Hi Htk) as (s' & sz' & Hm' & Hs' & Hu' & Hi'). exists s', sz'. split; [done|]. split; [lia|].
    intros ->. rewrite Hm in Hm'. injection Hm' as <-. apply Hn. by right.
Qed.

Lemma unit_page : virt_to_pfn (unit_at p s) = p.
Proof using Hheap Hl Hs Hu Hsz.
  destruct (obj_units_bounds sz Hsz). pose proof (slab_frame _ _ _ (ho_slob _ _ _ Hheap) p (ex_intro _ l Hl)). unfold unit_at, NU in *. apply addr_page; (done || lia).
Qed.

Lemma unit_valid b : virt_addr_valid b (unit_at p s) = pfn_valid b p.
Proof using Hheap Hl Hs Hu Hsz.
  destruct (obj_units_bounds sz Hsz). pose proof (slab_frame _ _ _ (ho_slob _ _ _ Hheap) p (ex_intro _ l Hl)) as Hp.
  unfold unit_at, NU, virt_addr_valid in *. rewrite page_to_virt_eq by done. set (x := p * 4096 + PAGE_OFFSET + 2 * s).
  assert (Hy : x -u __START_KERNEL_map = x - __START_KERNEL_map + ULONG_MOD).
  { unfold wrap. symmetry. apply Z.mod_unique with (q := -1); unfold x, ULONG_MOD, PAGE_OFFSET, __START_KERNEL_map in *; lia. }
  rewrite Hy. rewrite (proj2 (Z.ltb_ge _ x)) by (unfold ULONG_MOD, __START_KERNEL_map in *; lia).
  change (__START_KERNEL_map -u PAGE_OFFSET) with (__START_KERNEL_map - PAGE_OFFSET).
  replace (x - __START_KERNEL_map + ULONG_MOD + (__START_KERNEL_map - PAGE_OFFSET)) with (p * 4096 + 2 * s + 1 * ULONG_MOD) by (unfold x; lia).
  assert (Hw : wrap (p * 4096 + 2 * s + 1 * ULONG_MOD) = p * 4096 + 2 * s).
  { unfold wrap. rewrite Z.mod_add by done. apply Z.mod_small. unfold ULONG_MOD. lia. }
  rewrite Hw, (proj2 (Z.ltb_ge _ _)) by (unfold x, ULONG_MOD, PAGE_OFFSET, __START_KERNEL_map in *; lia).
  rewrite Z.shiftr_div_pow2 by done. change (2 ^ PAGE_SHIFT) with 4096. rewrite Z.div_add_l, Z.div_small by lia. by rewrite Z.add_0_r.
Qed.

Let live' := delete (unit_at p s) live.

Lemma freed_headers st' lay' : slob_ok st' lay' live' -> kept_but (freed_unit st lay (unit_at p s) sz) (sl_buddy st) (sl_buddy st') ->
  forall m sz', live' !! m = Some sz' -> load_le 4 m (sl_buddy st') = Some sz'.
Proof using Hheap Hm.
  intros Hok' Hk m sz' Hm'. pose proof (ho_slob _ _ _ Hheap) as Hok. pose proof Hm' as [Hne Hm0]%lookup_delete_Some. rewrite <- (ho_header _ _ _ Hheap m sz' Hm0).
  apply (header_kept st lay live Hok m sz' Hm0 _ st' lay' live' Hok' Hm' Hk). intros q s' i -> Hq Hs' Hu' Hi [Hf|[_ Hin]].
  - by apply (live_not_free st lay live Hok _ sz' Hm0 q s' i).
  - apply Hne. apply (so_apart _ _ _ Hok _ _ sz sz' (unit_at q i)); try done. unfold unit_at. lia.
Qed.

Lemma freed_kept st' g' P u f here : page_moved st st' p g g' u f here -> differ P (pg_data g) (pg_data g') -> (forall i, P i -> cov l i \/ s <= i < s + obj_units sz) ->
  kept_but (freed_unit st lay (unit_at p s) sz) (sl_buddy st) (sl_buddy st').
Proof using Hheap Hl Hs Hu Hsz.
  intros Hmv Hd HP. destruct (obj_units_bounds sz Hsz). apply (kept_but_mono (fun q i => q = p /\ (cov l i \/ s <= i < s + obj_units sz))).
  - apply (moved_kept_units _ _ _ _ _ _ _ _ _ s Hmv); [right; lia|]. by apply (differ_mono P).
  - intros q i [-> [Hc|Hi]]; [left; right; by exists l|right]. split; [by rewrite unit_page|]. unfold unit_at. lia.
Qed.

(** The page keeps other objects. *)
Lemma freed_partly st' g' l' : page_moved st st' p g g' (total l') (unit_at p (first l' NU)) (l' <> []) -> total l + obj_units sz <> NU ->
  PageSlab g' = true -> PageSlobFree g' = true -> inserted (pg_data g) l s (obj_units sz) (pg_data g') l' ->
  kfreed st lay live (unit_at p s) sz (<[p := l']> lay) st'.
Proof using Hheap Hm Hl Hg Hs Hu Hsz.
  intros Hmv Hne Hsl Hfr [I1 I2 I3 I4 I5 I6]. pose proof (ho_slob _ _ _ Hheap) as Hok. destruct (so_frames _ _ _ Hok p g (sp_page _ _ _ _ Hg)) as [Hpf Hlen].
  assert (Hok' : slob_ok st' (<[p := l']> lay) live').
  { apply (slob_ok_moved st lay live Hok p g g' l' st' live' (sp_use _ _ _ _ Hg) Hmv); try done; [by rewrite (proj1 I6)|by rewrite bool_decide_eq_false_2|].
    by apply (objects_free st lay live Hok p l l' Hl s sz). }
  assert (Hk : kept_but (freed_unit st lay (unit_at p s) sz) (sl_buddy st) (sl_buddy st')).
  { apply (freed_kept st' g' _ _ _ _ Hmv I6). intros i Hi. by apply I5. }
  split; [|done|].
  - split; [done| |by eapply freed_headers]. apply used_insert; [apply Hheap|]. pose proof units_bound. lia.
  - intros q. rewrite (outside_free _ _ (moved_outside _ _ _ _ _ _ _ _ (sp_use _ _ _ _ Hg) Hmv)). split; [by left|]. intros [?|[-> Hall]]; [done|]. exfalso.
    destruct (proj2 other_object Hne) as (s' & sz' & Hm' & Hs' & Hss). apply Hss. unfold NU in *. rewrite unit_page in Hall.
    pose proof (Hall (unit_at p s') ltac:(by eauto) ltac:(unfold unit_at; apply addr_page; (done || lia))) as E. unfold unit_at in E. lia.
Qed.

(** ** The page was full *)

Lemma next_page_mask : Z.land (slob_add (unit_at p s) (SLOB_UNITS PAGE_SIZE)) PAGE_MASK = unit_at p NU.
Proof using Hheap Hl Hs Hu Hsz.
  destruct (obj_units_bounds sz Hsz). pose proof (slab_frame _ _ _ (ho_slob _ _ _ Hheap) p (ex_intro _ l Hl)) as Hp. destruct (page_to_virt_bounds p Hp) as [V1 V2].
  change (SLOB_UNITS PAGE_SIZE) with 2048. unfold slob_add, unit_at, SLOB_UNIT, NU in *. rewrite wrap_small by (unfold is_u64; lia).
  rewrite PAGE_MASK_round by (unfold is_u64; lia). rewrite PAGE_SIZE_eq, page_to_virt_eq by done. assert (PAGE_OFFSET = PAGE_OFFSET / 4096 * 4096) by done.
  replace (p * 4096 + PAGE_OFFSET + 2 * s + 2048 * 2) with (2 * s + (p + PAGE_OFFSET / 4096 + 1) * 4096) by lia.
  rewrite Z_mod_plus_full, Z.mod_small by lia. lia.
Qed.

Lemma inserted_alone d : length d = 4096%nat -> inserted d [] s (obj_units sz) (setb d s (obj_units sz) NU) [(s, obj_units sz)].
Proof using Hs Hu Hsz.
  intros Hlen. destruct (obj_units_bounds sz Hsz). pose proof (setb_differ d s (obj_units sz) NU Hs ltac:(lia)) as Hd. split; try done.
  - simpl. split_and!; (done || lia).
  - split; [|done]. apply setb_enc; (done || lia || unfold NU; lia).
  - unfold total. simpl. lia.
  - intros i. rewrite cov_cons. pose proof (cov_nil i). tauto.
  - apply (differ_mono _ _ _ _ (fun i Hi => proj2 (cov_cons _ _ _ _) (or_introl Hi)) Hd).
Qed.

Lemma free_full c : l = [] -> total l + obj_units sz <> NU ->
  exists lay' st', (st ← on_buddy (set_slob (unit_at p s) (obj_units sz) (Z.land (slob_add (unit_at p s) (SLOB_UNITS PAGE_SIZE)) PAGE_MASK))
      (set_freelist p (unit_at p s) (set_units p (obj_units sz) st)); set_slob_page_free p c st) = Some st' /\ kfreed st lay live (unit_at p s) sz lay' st'.
Proof using Hheap Hm Hl Hg Hs Hu Hsz.
  intros El Hne. pose proof (ho_slob _ _ _ Hheap) as Hok. destruct (obj_units_bounds sz Hsz). pose proof (slab_state _ _ _ Hok p l g Hg) as Hst.
  destruct (so_frames _ _ _ Hok p g (sp_page _ _ _ _ Hg)) as [Hpf Hlen]. rewrite next_page_mask. set (st1 := set_freelist p _ _).
  pose proof (step_set_units p _ _ _ st Hst (obj_units sz)) as P1. pose proof (page_state_is _ _ _ _ _ _ _ _ _ Hst P1 Hlen) as Hst1.
  pose proof (page_state_trans _ _ _ _ _ _ _ _ _ _ P1 (step_set_freelist p _ _ _ _ Hst1 s)) as P2. fold st1 in P2.
  pose proof (page_state_is _ _ _ _ _ _ _ _ _ Hst P2 Hlen) as Hst2.
  destruct (step_set_slob p _ _ _ st1 Hst2 s (obj_units sz) NU) as (st2 & -> & P3); [lia|lia|lia|unfold NU; lia|]. cbn [mbind option_bind].
  destruct (moved_set p _ _ _ st st2 g (sp_page _ _ _ _ Hg) (page_state_trans _ _ _ _ _ _ _ _ _ _ P2 P3) c) as (st3 & -> & Hmv).
  { intros Hin. apply (so_lists _ _ _ Hok) in Hin as (l0 & E & Hn0). rewrite Hl in E. by injection E as <-. }
  exists (<[p := [(s, obj_units sz)]]> lay), st3. split; [done|]. eapply freed_partly; [|done|..].
  - apply (moved_here _ _ _ _ _ _ _ True) ; [|done]. replace (total [(s, obj_units sz)]) with (obj_units sz) by (unfold total; simpl; lia). exact Hmv.
  - unfold PageSlab. rewrite test_set_flag by done. apply (so_slab _ _ _ Hok p g (sp_page _ _ _ _ Hg)). by exists l.
  - unfold PageSlobFree. by rewrite test_set_flag.
  - rewrite El. by apply inserted_alone.
Qed.

(** ** The page was partly free *)

Lemma free_partial : l <> [] -> total l + obj_units sz <> NU ->
  exists lay' st', slob_insert p (unit_at p s) (obj_units sz) (set_units p (units_of st p + obj_units sz) st) = Some st' /\
    kfreed st lay live (unit_at p s) sz lay' st'.
Proof using Hheap Hm Hl Hg Hs Hu Hsz.
  intros Hnil Hne. pose proof (ho_slob _ _ _ Hheap) as Hok. destruct (obj_units_bounds sz Hsz). pose proof (slab_state _ _ _ Hok p l g Hg) as Hst.
  destruct (so_frames _ _ _ Hok p g (sp_page _ _ _ _ Hg)) as [Hpf Hlen]. rewrite (sp_total _ _ _ _ Hg).
  pose proof (step_set_units p _ _ _ st Hst (total l + obj_units sz)) as P1. pose proof (page_state_is _ _ _ _ _ _ _ _ _ Hst P1 Hlen) as Hst1.
  destruct (slob_insert_ok p _ _ _ l s (obj_units sz) Hst1 (sp_ordered _ _ _ _ Hg) (sp_chain _ _ _ _ Hg) Hnil Hs ltac:(lia) Hu block_apart) as (l' & d' & st' & -> & P2 & Hins).
  exists (<[p := l']> lay), st'. split; [done|].
  pose proof (moved_same p d' _ _ st st' g (sp_page _ _ _ _ Hg) (page_state_trans _ _ _ _ _ _ _ _ _ _ P1 P2) (l' <> [])) as Hmv.
  apply (freed_partly st' (with_data d' g) l'); try done.
  - rewrite (in_total _ _ _ _ _ _ Hins). apply Hmv. rewrite (so_lists _ _ _ Hok). split; [intros _; apply Hins|]. intros _. by exists l.
  - apply (so_slab _ _ _ Hok p g (sp_page _ _ _ _ Hg)). by exists l.
  - change (PageSlobFree (with_data d' g)) with (PageSlobFree g). rewrite (sp_free _ _ _ _ Hg). by rewrite bool_decide_eq_false_2.
Qed.

(** ** The last object of the page *)

Lemma alone : total l + obj_units sz = NU -> forall m sz', live' !! m = Some sz' -> forall s', m = unit_at p s' -> 0 <= s' < NU -> False.
Proof using Hheap Hm Hl Hg Hs Hu Hsz.
  intros E m sz' [Hne Hm']%lookup_delete_Some s' -> Hs'. pose proof (ho_slob _ _ _ Hheap) as Hok.
  destruct (so_live _ _ _ Hok _ sz' Hm') as (_ & _ & _ & _ & _ & _ & Hpos & _). destruct (obj_units_bounds sz' Hpos).
  destruct (proj1 other_object E s' Hs') as [Hc|Hin].
  - apply (proj1 (so_tile _ _ _ Hok p l s' Hl Hs') Hc). apply (taken_live _ p s' sz'); [done|lia].
  - apply Hne. apply (so_apart _ _ _ Hok _ _ sz sz' (unit_at p s')); try done; unfold unit_at; lia.
Qed.

(** The page leaves the lists. *)
Definition unslab (free : bool) : option slob :=
  st ← (if free then clear_slob_page_free p st else Some st);
  st ← on_buddy (on_page p (clear_flag PG_slab)) st;
  on_buddy (page_mapcount_reset p) st.

Lemma unslab_moved : exists st' g', unslab (PageSlobFree g) = Some st' /\ pg_data g' = pg_data g /\ PageSlab g' = false /\
  page_moved st st' p g g' (units_of st p) (freelist_of st p) False.
Proof using Hheap Hl Hg.
  pose proof (ho_slob _ _ _ Hheap) as Hok. pose proof (sp_page _ _ _ _ Hg) as Hpg. pose proof (slab_state _ _ _ Hok p l g Hg) as Hst.
  assert (H1 : exists st1 g1, (if PageSlobFree g then clear_slob_page_free p st else Some st) = Some st1 /\ pg_data g1 = pg_data g /\ pg_mapcount g1 = pg_mapcount g /\
    page_moved st st1 p g g1 (units_of st p) (freelist_of st p) False).
  { pose proof (step_same p _ _ _ st Hst) as Hps. rewrite (sp_free _ _ _ _ Hg), (sp_total _ _ _ _ Hg), (sp_first _ _ _ _ Hg). case_bool_decide as El.
    - exists st, (with_data (pg_data g) g). split; [done|]. split; [done|]. split; [done|]. apply (moved_same p _ _ _ st st g Hpg Hps).
      rewrite (so_lists _ _ _ Hok). split; [|done]. intros (l0 & E & Hn). rewrite Hl in E. by injection E as <-.
    - destruct (moved_clear p _ _ _ st st g Hpg Hps) as (st1 & E & Hmv). by exists st1, (clear_flag PG_slob_free (with_data (pg_data g) g)). }
  destruct H1 as (st1 & g1 & E1 & Ed1 & Ec1 & M1). unfold unslab. rewrite E1. cbn [mbind option_bind]. pose proof (pv_new _ _ _ _ _ _ _ _ M1) as Hg1.
  rewrite (on_buddy_page st1 p _ g1 Hg1). cbn [mbind option_bind]. set (st2 := with_buddy _ st1).
  pose proof (moved_on_page st1 p (clear_flag PG_slab) g1 Hg1 eq_refl eq_refl (proj2 (slab_flags PG_slab g1 ltac:(by left)))) as M2. fold st2 in M2.
  pose proof (pv_new _ _ _ _ _ _ _ _ M2) as Hg2. unfold page_mapcount_reset. rewrite (on_buddy_page st2 p _ _ Hg2). set (st3 := with_buddy _ st2).
  destruct (iu_page _ _ _ _ _ (sp_use _ _ _ _ Hg) p) as (g0 & Hg0 & _ & Hc & _); [auto with lego|]. rewrite Hpg in Hg0. injection Hg0 as <-.
  pose proof (moved_on_page st2 p (with_mapcount (-1)) _ Hg2) as M3. fold st3 in M3. eexists st3, _. split; [done|]. split; [|split; [|]].
  3:{ rewrite <- (pv_units _ _ _ _ _ _ _ _ M1), <- (pv_first _ _ _ _ _ _ _ _ M1). apply (moved_trans _ _ _ _ _ _ _ _ _ _ _ _ _ M1). 
      apply (moved_here _ _ _ _ _ _ _ (p ∈ all_lists st1)). 2:{ rewrite (pv_lists _ _ _ _ _ _ _ _ M1). tauto. }
      apply (moved_trans _ _ _ _ _ _ _ _ _ _ _ _ _ M2). apply M3; try done. unfold marks. simpl. by rewrite Ec1, Hc. }
  - exact Ed1.
  - change (PageSlab (with_mapcount (-1) (clear_flag PG_slab g1))) with (PageSlab (clear_flag PG_slab g1)). unfold PageSlab. by rewrite test_clear_flag.
Qed.

Lemma free_last : total l + obj_units sz = NU ->
  exists lay' st', (st ← unslab (PageSlobFree g); on_buddy (slob_free_pages (unit_at p s) 0) st) = Some st' /\ kfreed st lay live (unit_at p s) sz lay' st'.
Proof using Hheap Hm Hl Hg Hs Hu Hsz.
  intros E. pose proof (ho_slob _ _ _ Hheap) as Hok. destruct unslab_moved as (st1 & g1 & -> & Ed & Hns & Hmv). cbn [mbind option_bind].
  destruct (so_frames _ _ _ Hok p g (sp_page _ _ _ _ Hg)) as [Hpf Hlen]. destruct (page_to_virt_bounds p Hpf) as [V1 _].
  assert (Hok1 : slob_ok st1 (delete p lay) live').
  { apply (slob_ok_drop st lay live p g g1 _ _ st1 live' Hok (sp_use _ _ _ _ Hg) Hmv); [by rewrite Ed|done|..].
    - intros m sz' Hm'. split; [by apply lookup_delete_Some in Hm' as [_ ?]|]. by apply (alone E m sz').
    - destruct merged as (l' & _ & _ & Hc). apply (ob_other _ _ _ _ _ (objects_free st lay live Hok p l l' Hl s sz Hm Hs Hu Hc)). }
  assert (Hu1 : in_use (sl_buddy st1) (pg_zone g) p 0 1) by (apply (moved_in_use _ _ _ _ _ _ _ _ (sp_use _ _ _ _ Hg) Hmv), Hg).
  destruct (__free_pages_correct _ _ _ _ _ (so_buddy _ _ _ Hok1) Hu1 ltac:(lia)) as (b' & Eb & Hr). change (1 =? 1) with true in Hr. cbn iota in Hr.
  unfold on_buddy, slob_free_pages, free_pages. rewrite (proj2 (Z.eqb_neq (unit_at p s) 0)) by (unfold unit_at; lia). rewrite unit_valid, unit_page.
  unfold pfn_valid. rewrite (bool_decide_eq_true_2 (is_Some (mem_map (sl_buddy st1) !! p))) by (by rewrite (pv_new _ _ _ _ _ _ _ _ Hmv)). cbn [negb]. rewrite Eb. cbn [mbind option_bind].
  exists (delete p lay), (with_buddy b' st1). split; [done|].
  assert (Hok' : slob_ok (with_buddy b' st1) (delete p lay) live').
  { apply (slob_ok_released st1 _ _ Hok1 p 0 b' Hr). intros q Hq. apply in_block_0 in Hq as ->. by rewrite lookup_delete_eq. }
  assert (Hk : kept_but (freed_unit st lay (unit_at p s) sz) (sl_buddy st) (sl_buddy (with_buddy b' st1))).
  { destruct (obj_units_bounds sz Hsz). assert (Hp : freed_unit st lay (unit_at p s) sz p s) by (right; split; [by rewrite unit_page|lia]).
    pose proof (outside_free _ _ (moved_outside _ _ _ _ _ _ _ _ (sp_use _ _ _ _ Hg) Hmv)) as Hof. split.
    - intros q i Hi Hn. unfold byte. cbn [sl_buddy with_buddy]. destruct (decide (q = p)) as [->|Hne].
      + pose proof (rl_kept _ _ _ _ Hr p) as Hkp. rewrite (pv_new _ _ _ _ _ _ _ _ Hmv) in Hkp. destruct (mem_map b' !! p) as [gp|]; [|done]. injection Hkp as _ Hkp.
        rewrite (sp_page _ _ _ _ Hg). simpl. by rewrite Hkp, Ed.
      + rewrite (rl_rest _ _ _ _ Hr), (pv_pages _ _ _ _ _ _ _ _ Hmv); [done|done|by rewrite in_block_0|]. rewrite Hof. intros Hf. apply Hn. left. by left.
    - intros q Hn. destruct (decide (q = p)) as [->|Hne]; [by destruct (Hn s)|]. cbn [sl_buddy with_buddy].
      rewrite (rl_rest _ _ _ _ Hr), (pv_pages _ _ _ _ _ _ _ _ Hmv); [done|done|by rewrite in_block_0|]. rewrite Hof. intros Hf. apply (Hn 0). left. by left. }
  split; [|done|].
  - split; [done| |by eapply freed_headers]. intros q l0 [_ Hl0]%lookup_delete_Some. by apply (ho_used _ _ _ Hheap q).
  - intros q. cbn [sl_buddy with_buddy]. rewrite (rl_free _ _ _ _ Hr), in_block_0, (outside_free _ _ (moved_outside _ _ _ _ _ _ _ _ (sp_use _ _ _ _ Hg) Hmv)), unit_page.
    split; [|tauto]. intros [?| ->]; [by left|right]. split; [done|]. intros m' [sz' Hm'] Ep. destruct (decide (m' = unit_at p s)) as [?|Hne]; [done|]. exfalso.
    destruct (so_live _ _ _ Hok m' sz' Hm') as (q & s' & -> & Hq & Hs' & Hu' & Hpos & _). destruct (obj_units_bounds sz' Hpos). pose proof (slab_frame _ _ _ Hok q Hq).
    unfold NU in *. destruct (addr_page q (2 * s')) as [Ev _]; [done|lia|]. unfold unit_at in Ep. rewrite Ev in Ep. subst q.
    apply (alone E (unit_at p s') sz') with (s' := s'); [|done|unfold NU; lia]. by apply lookup_delete_Some.
Qed.
End free.

Lemma kfree_ok st lay live m sz : heap_ok st lay live -> live !! m = Some sz ->
  exists lay' st', kfree (m + KMALLOC_ALIGN) st = Some st' /\ kfreed st lay live m sz lay' st'.
Proof.
  intros Hheap Hm. pose proof (ho_slob _ _ _ Hheap) as Hok. destruct (so_live _ _ _ Hok m sz Hm) as (p & s & -> & [l Hl] & Hs & Hu & Hsz & _).
  destruct (so_page _ _ _ Hok p l Hl) as [g Hg]. pose proof (slab_frame _ _ _ Hok p (ex_intro _ l Hl)) as Hpf. destruct (page_to_virt_bounds p Hpf) as [V1 V2].
  destruct (obj_units_bounds sz Hsz) as [Hb _]. unfold NU in *.
  assert (Eb : unit_at p s + KMALLOC_ALIGN = page_to_virt p + (2 * s + 8)) by (unfold unit_at, KMALLOC_ALIGN; lia).
  unfold kfree. rewrite (proj2 (Z.leb_gt (unit_at p s + KMALLOC_ALIGN) ZERO_SIZE_PTR)) by (rewrite Eb; unfold ZERO_SIZE_PTR; lia). cbv zeta.
  assert (Ev : virt_to_pfn (unit_at p s + KMALLOC_ALIGN) = p) by (rewrite Eb; apply addr_page; (done || lia)).
  rewrite Ev, (sp_page _ _ _ _ Hg). cbn [mbind option_bind].
  rewrite (proj2 (so_slab _ _ _ Hok p g (sp_page _ _ _ _ Hg))) by (by exists l).
  replace (unit_at p s + KMALLOC_ALIGN -u KMALLOC_ALIGN) with (unit_at p s) by (rewrite wrap_small; unfold unit_at, KMALLOC_ALIGN, is_u64; lia).
  rewrite (ho_header _ _ _ Hheap _ _ Hm). cbn [mbind option_bind]. unfold slob_free.
  rewrite (proj2 (Z.leb_gt (unit_at p s) 16)), (proj2 (Z.eqb_neq (sz + KMALLOC_ALIGN) 0)) by (unfold unit_at, KMALLOC_ALIGN; lia).
  rewrite (unit_page st lay live Hheap p s sz l Hl Hs Hu Hsz). fold (obj_units sz). unfold slob_page_free. rewrite (sp_page _ _ _ _ Hg). cbn [mbind option_bind].
  change (SLOB_UNITS PAGE_SIZE) with NU. rewrite (sp_total _ _ _ _ Hg). destruct (Z.eqb_spec (total l + obj_units sz) NU) as [E|E].
  - destruct (free_last st lay live Hheap p s sz l g Hm Hl Hg Hs Hu Hsz E) as (lay' & st' & E' & Hk). exists lay', st'. split; [|done]. rewrite <- E'. unfold unslab.
    destruct (if PageSlobFree g then _ else _) as [st1|]; [|done]. cbn [mbind option_bind]. by destruct (on_buddy _ st1).
  - rewrite (sp_free _ _ _ _ Hg). case_bool_decide as El; cbn [negb].
    + by apply (free_full st lay live Hheap p s sz l g Hm Hl Hg Hs Hu Hsz).
    + rewrite <- (sp_total _ _ _ _ Hg). by apply (free_partial st lay live Hheap p s sz l g Hm Hl Hg Hs Hu Hsz).
Qed.

(** ** The layout, and whole pages

    The objects determine the free blocks.  Requests of a page or more go to the page
    allocator. *)

(** ** The objects determine the free blocks *)

Lemma cov_low gap lo l i : 0 <= gap -> ordered gap lo l -> cov l i -> lo <= i.
Proof. intros Hg Ho (s & n & Hin & Hi). destruct (ordered_in gap lo l s n Hg Ho Hin). lia. Qed.

Lemma ordered_unique l : forall lo l', ordered 1 lo l -> ordered 1 lo l' -> (forall i, cov l i <-> cov l' i) -> l = l'.
Proof.
  induction l as [|[s n] l IH]; intros lo [|[s' n'] l'] Ho Ho' Hc; [done|..].
  - destruct Ho' as (_ & Hn & _). exfalso. apply (cov_nil s'), Hc, cov_cons. lia.
  - destruct Ho as (_ & Hn & _). exfalso. apply (cov_nil s), Hc, cov_cons. lia.
  - destruct Ho as (H1 & H2 & H3 & Ho). destruct Ho' as (H1' & H2' & H3' & Ho').
    assert (Ha : cov ((s', n') :: l') s) by (apply Hc, cov_cons; lia). assert (Hb : cov ((s, n) :: l) s') by (apply Hc, cov_cons; lia).
    rewrite cov_cons in Ha, Hb. assert (HL : forall i, cov l i -> s + n + 1 <= i) by (intros i; by apply (cov_low 1)). assert (HL' : forall i, cov l' i -> s' + n' + 1 <= i) by (intros i; by apply (cov_low 1)).
    assert (s' = s) as -> by (destruct Ha as [?|?%HL'], Hb as [?|?%HL]; lia).
    assert (E : forall i, (s <= i < s + n \/ cov l i) <-> (s <= i < s + n' \/ cov l' i)) by (intros i; rewrite <- !cov_cons; apply Hc).
    assert (n' = n) as ->.
    { destruct (Z.lt_trichotomy n n') as [Hlt|[?|Hlt]]; [|done|].
      - destruct (proj2 (E (s + n))) as [?|Hx]; [left; lia|lia|]. apply HL in Hx. lia.
      - destruct (proj1 (E (s + n'))) as [?|Hx]; [left; lia|lia|]. apply HL' in Hx. lia. }
    f_equal. apply (IH _ l' Ho Ho'). intros i. specialize (E i). split; intros Hx.
    + destruct (proj1 E (or_intror Hx)) as [?|?]; [apply HL in Hx; lia|done].
    + destruct (proj2 E (or_intror Hx)) as [?|?]; [apply HL' in Hx; lia|done].
Qed.

Section layout.
Context st lay live (Hok : slob_ok st lay live) (Hus : used lay).

(** A slab page has an object. *)
Lemma slab_object p : is_Some (lay !! p) -> exists s sz, live !! unit_at p s = Some sz /\ 0 <= s < NU.
Proof using Hok Hus.
  intros [l Hl]. destruct (so_page _ _ _ Hok p l Hl) as [g Hg]. destruct (uncovered l (sp_ordered _ _ _ _ Hg) (Hus p l Hl)) as (i & Hi & Hn).
  assert (Ht : taken live p i).
  { destruct (taken_dec live p i) as [?|Hnt]; [done|]. destruct Hn. by apply (so_tile _ _ _ Hok p l i Hl Hi). }
  destruct (taken_at _ _ _ Hok p i (ex_intro _ l Hl) Hi Ht) as (s & sz & Hm & Hs & Hu & Hin). exists s, sz. split; [done|]. lia.
Qed.

Lemma object_slab p s sz : live !! unit_at p s = Some sz -> 0 <= p < 2 ^ 34 -> 0 <= s < NU -> is_Some (lay !! p).
Proof using Hok.
  intros Hm Hp Hs. destruct (so_live _ _ _ Hok _ sz Hm) as (q & s' & E & Hq & Hs' & Hu & Hpos & _). destruct (obj_units_bounds sz Hpos).
  pose proof (slab_frame _ _ _ Hok q Hq). by destruct (unit_at_inj p q s s') as [-> _]; [done|done|done|lia|done|].
Qed.

Lemma live_page m sz : live !! m = Some sz -> is_Some (lay !! virt_to_pfn m).
Proof using Hok.
  intros Hm. destruct (so_live _ _ _ Hok m sz Hm) as (p & s & -> & Hp & Hs & Hu & Hpos & _). destruct (obj_units_bounds sz Hpos).
  pose proof (slab_frame _ _ _ Hok p Hp). unfold unit_at, NU in *. by rewrite (proj1 (addr_page p (2 * s) ltac:(done) ltac:(lia))).
Qed.

(** A page is no slab page if it has no object. *)
Lemma no_slab p : 0 <= p < 2 ^ 34 -> lay !! p = None <-> forall m, is_Some (live !! m) -> virt_to_pfn m <> p.
Proof using Hok Hus.
  intros Hp. split.
  - intros Hn m [sz Hm] <-. destruct (live_page m sz Hm) as [? E]. by rewrite Hn in E.
  - intros Hno. destruct (lay !! p) as [l|] eqn:E; [|done]. destruct (slab_object p) as (s & sz & Hm & Hs); [by rewrite E|].
    destruct (Hno (unit_at p s)); [by rewrite Hm|]. unfold unit_at, NU in *. apply addr_page; (done || lia).
Qed.
End layout.

Lemma layout_unique st lay st' lay' live : slob_ok st lay live -> used lay -> slob_ok st' lay' live -> used lay' -> lay = lay'.
Proof.
  intros Hok Hus Hok' Hus'. assert (Hd : forall st lay st' lay', slob_ok st lay live -> used lay -> slob_ok st' lay' live -> forall p, is_Some (lay !! p) -> is_Some (lay' !! p)).
  { clear. intros st lay st' lay' Hok Hus Hok' p Hp. destruct (slab_object _ _ _ Hok Hus p Hp) as (s & sz & Hm & Hs).
    apply (object_slab _ _ _ Hok' p s sz); [done|by apply (slab_frame _ _ _ Hok)|done]. }
  apply map_eq. intros p. destruct (lay !! p) as [l|] eqn:El, (lay' !! p) as [l'|] eqn:El'; try done.
  - f_equal. destruct (so_page _ _ _ Hok p l El) as [g Hg]. destruct (so_page _ _ _ Hok' p l' El') as [g' Hg'].
    pose proof (sp_ordered _ _ _ _ Hg) as Ho. pose proof (sp_ordered _ _ _ _ Hg') as Ho'. apply (ordered_unique l 0); try done.
    assert (Hr : forall l i, ordered 1 0 l -> cov l i -> 0 <= i < NU).
    { intros l0 i H0 (s & n & Hin & Hi). destruct (ordered_in 1 0 l0 s n ltac:(lia) H0 Hin). lia. }
    intros i. split; intros Hc.
    + pose proof (Hr l i Ho Hc) as Hi. apply (so_tile _ _ _ Hok' p l' i El' Hi). by apply (so_tile _ _ _ Hok p l i El Hi).
    + pose proof (Hr l' i Ho' Hc) as Hi. apply (so_tile _ _ _ Hok p l i El Hi). by apply (so_tile _ _ _ Hok' p l' i El' Hi).
  - destruct (Hd _ _ _ _ Hok Hus Hok' p) as [? E]; [by rewrite El|]. by rewrite El' in E.
  - destruct (Hd _ _ _ _ Hok' Hus' Hok p) as [? E]; [by rewrite El'|]. by rewrite El in E.
Qed.

(** ** Requests of a page or more *)

Lemma get_order_ok size : 0 < size < 2 ^ 63 ->
  size <= 4096 * blk (__get_order size) /\ (__get_order size = 0%nat \/ 4096 * blk (__get_order size - 1) < size).
Proof.
  intros Hs. unfold __get_order, fls64. rewrite wrap_small by (unfold is_u64, ULONG_MOD; lia). rewrite Z.shiftr_div_pow2 by done. change (2 ^ PAGE_SHIFT) with 4096.
  set (x := (size - 1) / 4096). assert (Hx : 4096 * x <= size - 1 < 4096 * (x + 1)) by (unfold x; pose proof (Z.div_mod (size - 1) 4096); pose proof (Z.mod_pos_bound (size - 1) 4096); lia).
  destruct (Z.eqb_spec x 0) as [->|Hne]; [split; [unfold blk; simpl; lia|by left]|]. destruct (Z.log2_spec x) as [L1 L2]; [lia|]. pose proof (Z.log2_nonneg x).
  unfold blk. rewrite Nat2Z.inj_sub, Z2Nat.id by lia. split; [lia|right]. replace (Z.log2 x + 1 - Z.of_nat 1) with (Z.log2 x) by lia. lia.
Qed.

(** The slab pages are as they were. *)
Lemma heap_ok_buddy st lay live b' : heap_ok st lay live -> slob_ok (with_buddy b' st) lay live ->
  (forall p, is_Some (lay !! p) -> mem_map b' !! p = mem_map (sl_buddy st) !! p) -> heap_ok (with_buddy b' st) lay live.
Proof.
  intros [H1 H2 H3] Hok' Hp. split; [done|done|]. intros m sz Hm. rewrite <- (H3 m sz Hm).
  apply (header_kept st lay live H1 m sz Hm (fun q _ => lay !! q = None) (with_buddy b' st) lay live Hok' Hm).
  - assert (Hq : forall q, lay !! q <> None -> mem_map b' !! q = mem_map (sl_buddy st) !! q) by (intros q Hn; apply Hp; by apply not_eq_None_Some).
    split; [intros q i _ Hn; unfold byte; cbn [sl_buddy with_buddy]; by rewrite Hq|intros q Hn; apply Hq, (Hn 0)].
  - intros p s i _ [l ->]. done.
Qed.

Lemma heap_ok_allocated st lay live gfp z p o b1 : heap_ok st lay live -> allocated gfp (sl_buddy st) z p o b1 -> heap_ok (with_buddy b1 st) lay live.
Proof.
  intros Hh Ha. destruct (slob_ok_allocated st lay live (ho_slob _ _ _ Hh) gfp z p o b1 Ha) as [Hok1 _]. apply heap_ok_buddy; [done|done|].
  intros q Hq. apply (al_rest _ _ _ _ _ _ Ha). by apply (slab_not_free st lay live (ho_slob _ _ _ Hh)).
Qed.

(** A block of pages is given back by its address. *)
Lemma kfree_block st lay live gfp z p g o b1 : heap_ok st lay live -> allocated gfp (sl_buddy st) z p o b1 -> mem_map b1 !! p = Some g -> pg_private g = Z.of_nat o ->
  exists st2, kfree (page_to_virt p) (with_buddy b1 st) = Some st2 /\ heap_ok st2 lay live /\ same_free (sl_buddy st) (sl_buddy st2).
Proof.
  intros Hh Ha Hg Hpr. pose proof (heap_ok_allocated st lay live gfp z p o b1 Hh Ha) as Hh1. pose proof (ho_slob _ _ _ Hh1) as Hok1.
  destruct (slob_ok_allocated st lay live (ho_slob _ _ _ Hh) gfp z p o b1 Ha) as [_ Hnone]. destruct (so_frames _ _ _ Hok1 p g Hg) as [Hpf _]. destruct (page_to_virt_bounds p Hpf) as [V1 _].
  assert (Hns : PageSlab g = false).
  { destruct (PageSlab g) eqn:E; [|done]. apply (so_slab _ _ _ Hok1 p g Hg) in E. rewrite (Hnone p) in E by auto with lego. by destruct E. }
  unfold kfree. rewrite (proj2 (Z.leb_gt (page_to_virt p) ZERO_SIZE_PTR)) by (unfold ZERO_SIZE_PTR; lia). cbv zeta.
  assert (Ev : virt_to_pfn (page_to_virt p) = p) by (rewrite <- (Z.add_0_r (page_to_virt p)); by apply addr_page). rewrite Ev. cbn [sl_buddy with_buddy]. rewrite Hg. cbn [mbind option_bind].
  rewrite Hns, Hpr, Nat2Z.id. destruct (__free_pages_correct b1 z p o 1 (al_ok _ _ _ _ _ _ Ha) (al_use _ _ _ _ _ _ Ha) ltac:(lia)) as (b2 & E2 & Hr).
  change (1 =? 1) with true in Hr. cbn iota in Hr. unfold on_buddy. cbn [sl_buddy with_buddy]. rewrite E2. cbn [mbind option_bind]. exists (with_buddy b2 (with_buddy b1 st)). split; [done|].
  split; [|by eapply allocated_released; [apply Hh| |]].
  apply heap_ok_buddy; [done|by apply (slob_ok_released _ _ _ Hok1 p o)|]. intros q Hq. apply (rl_rest _ _ _ _ Hr).
  - intros Hin. rewrite (Hnone q Hin) in Hq. by destruct Hq.
  - by apply (slab_not_free _ _ _ Hok1).
Qed.

(** There is no block of that order. *)
Lemma slob_new_pages_big node_zonelist smp_node_id st lay live gfp node highest order : slob_ok st lay live ->
  request_ok node_zonelist smp_node_id (sl_buddy st) gfp node highest -> (MAX_ORDER <= order)%nat ->
  slob_new_pages node_zonelist smp_node_id gfp order node (sl_buddy st) = Some (0, sl_buddy st).
Proof.
  intros Hok [Q1 Q2 Q3 Q4] Ho. unfold slob_new_pages. set (nid := if node =? NUMA_NO_NODE then smp_node_id else node) in *.
  rewrite (proj2 (Z.ltb_ge nid 0)), (proj2 (Z.leb_gt MAX_NODES nid)) by lia. cbn [orb]. unfold __alloc_pages_nodemask.
  destruct (node_zonelist nid gfp) as [|zr l] eqn:El; [done|]. rewrite <- El in *. unfold get_page_from_freelist. rewrite Q3. cbn [mbind option_bind].
  destruct (page_from_zones_ok _ (sl_buddy st) gfp order (so_buddy _ _ _ Hok) Q4) as (r & b' & -> & Hr). cbn [mbind option_bind]. destruct r as [p|].
  - destruct Hr as (l1 & z & l2 & _ & _ & Ha). pose proof (iu_order _ _ _ _ _ (al_use _ _ _ _ _ _ Ha)). lia.
  - destruct Hr as [-> _]. by rewrite (proj2 (Nat.ltb_ge order MAX_ORDER)) by lia.
Qed.

(** [ksize] is at least the size that was asked for, and within the block. *)
Lemma ksize_ok st lay live m sz : heap_ok st lay live -> live !! m = Some sz ->
  exists n, ksize (m + KMALLOC_ALIGN) st = Some n /\ sz <= n /\ KMALLOC_ALIGN + n <= 2 * obj_units sz.
Proof.
  intros Hheap Hm. pose proof (ho_slob _ _ _ Hheap) as Hok. destruct (so_live _ _ _ Hok m sz Hm) as (p & s & -> & [l Hl] & Hs & Hu & Hsz & _).
  destruct (so_page _ _ _ Hok p l Hl) as [g Hg]. pose proof (slab_frame _ _ _ Hok p (ex_intro _ l Hl)) as Hpf. destruct (page_to_virt_bounds p Hpf) as [V1 V2].
  destruct (obj_units_bounds sz Hsz) as [Hb _]. unfold NU in *.
  assert (Eb : unit_at p s + KMALLOC_ALIGN = page_to_virt p + (2 * s + 8)) by (unfold unit_at, KMALLOC_ALIGN; lia).
  assert (Ev : virt_to_pfn (unit_at p s + KMALLOC_ALIGN) = p) by (rewrite Eb; apply addr_page; (done || lia)).
  unfold ksize. rewrite (proj2 (Z.eqb_neq (unit_at p s + KMALLOC_ALIGN) 0)), (proj2 (Z.eqb_neq (unit_at p s + KMALLOC_ALIGN) ZERO_SIZE_PTR)) by (rewrite Eb; unfold ZERO_SIZE_PTR; lia).
  rewrite Ev, (sp_page _ _ _ _ Hg). cbn [mbind option_bind]. rewrite (proj2 (so_slab _ _ _ Hok p g (sp_page _ _ _ _ Hg))) by (by exists l). cbn [negb].
  replace (unit_at p s + KMALLOC_ALIGN -u KMALLOC_ALIGN) with (unit_at p s) by (rewrite wrap_small; unfold unit_at, KMALLOC_ALIGN, is_u64; lia).
  rewrite (ho_header _ _ _ Hheap _ _ Hm). cbn [mbind option_bind]. eexists. split; [done|]. unfold obj_units, SLOB_UNITS, SLOB_UNIT, KMALLOC_ALIGN.
  pose proof (Z.div_mod (sz + (2 - 1)) 2). pose proof (Z.mod_pos_bound (sz + (2 - 1)) 2). pose proof (Z.div_mod (sz + 8 + (2 - 1)) 2). pose proof (Z.mod_pos_bound (sz + 8 + (2 - 1)) 2). lia.
Qed.

(** ** The heap at boot *)

Lemma heap_boot b : buddy_ok b -> (forall p g, mem_map b !! p = Some g -> 0 <= p < 2 ^ 34 /\ length (pg_data g) = 4096%nat /\ PageSlab g = false) ->
  heap_ok (Slob b ∅ ∅ [] [] []) ∅ ∅.
Proof.
  intros Hb Hp. split; [|by intros ? ?|by intros ? ?]. split; try done; cbn [sl_buddy].
  - intros p g Hg. by destruct (Hp p g Hg) as (? & ? & ?).
  - intros p g Hg. destruct (Hp p g Hg) as (_ & _ & ->). split; [done|]. by intros [? ?].
  - constructor.
  - intros p. split; [by intros ?%not_elem_of_nil|]. by intros (l & ? & _).
Qed.
