(* ===== verification/SlobTheorems.v ===== *)
(** * Kernel memory, the object allocator: theorems *)

From stdpp Require Import gmap.
From S2P Require Import Prelude BuddyModel BuddyInv BuddyFree BuddyAlloc BootFree BuddyTheorems SlobModel SlobPage SlobAlloc SlobHeap SlobGrow SlobKmalloc SlobKfree.

Implicit Types (lay : gmap Z (list (Z * Z))) (live : gmap Z Z) (st : slob).

(** (C9) [kmalloc] of less than a page gives memory that no object has: it is aligned,
    within one page, cleared if that was asked for, and its header holds its size.  Only
    free units of slab pages and free pages change, the free blocks of every slab page
    stay ordered, merged and counted, and at most one page is taken from the page
    allocator.  It panics only if no free block of the list fits and no zone of the
    request has a free page. *)
Theorem kmalloc_correct (node_zonelist : Z -> Z -> list zoneref) (smp_node_id : Z) st lay live (size gfp node highest : Z) :
  heap_ok st lay live -> 0 < size < PAGE_SIZE - KMALLOC_ALIGN ->
  request_ok node_zonelist smp_node_id (sl_buddy st) (Z.ldiff gfp ___GFP_ZERO) node highest ->
  match __kmalloc_node node_zonelist smp_node_id size gfp node st with
  | Some (a, st') => exists lay', kmalloced st lay live size (negb (Z.land gfp ___GFP_ZERO =? 0)) a lay' st'
  | None => Forall (passed st lay node size) (class_list (class_of (size + KMALLOC_ALIGN)) st) /\
      Forall (fun z => no_run (sl_buddy st) z 0) (request_zones node_zonelist smp_node_id (Z.ldiff gfp ___GFP_ZERO) node highest)
  end.
Proof. intros Hh Hs. by apply kmalloc_small_ok. Qed.

(** (C10) [kfree] of an object makes its units free again, merged with the free blocks
    next to them, and changes no unit of another object; the page goes back to the page
    allocator exactly if it has no other object. *)
Theorem kfree_correct st lay live (m size : Z) :
  heap_ok st lay live -> live !! m = Some size ->
  exists lay' st', kfree (m + KMALLOC_ALIGN) st = Some st' /\ kfreed st lay live m size lay' st'.
Proof. apply kfree_ok. Qed.

Lemma virt_page p off : 0 <= p < 2 ^ 34 -> 8 <= off < 4096 -> virt_to_pfn (page_to_virt p + off) = p /\ virt_to_pfn (page_to_virt p + off - 8) = p.
Proof. intros Hp Ho. split; [by apply addr_page; [|lia]|]. replace (page_to_virt p + off - 8) with (page_to_virt p + (off - 8)) by lia. apply addr_page; (done || lia). Qed.

(** (C11) An object that is freed after it was allocated leaves the heap as it was: the
    same free blocks in every slab page, the same free pages, and every byte of an object
    and of a page in use. *)
Theorem kmalloc_kfree_roundtrip (node_zonelist : Z -> Z -> list zoneref) (smp_node_id : Z) st lay live (size gfp node highest a : Z) st1 :
  heap_ok st lay live -> 0 < size < PAGE_SIZE - KMALLOC_ALIGN ->
  request_ok node_zonelist smp_node_id (sl_buddy st) (Z.ldiff gfp ___GFP_ZERO) node highest ->
  __kmalloc_node node_zonelist smp_node_id size gfp node st = Some (a, st1) ->
  exists st2, kfree a st1 = Some st2 /\ heap_ok st2 lay live /\ (forall q, is_free (sl_buddy st2) q <-> is_free (sl_buddy st) q) /\
    kept_but (free_unit st lay) (sl_buddy st) (sl_buddy st2).
Proof.
  intros Hh Hs Hrq E. pose proof (kmalloc_small_ok node_zonelist smp_node_id st lay live Hh size Hs gfp node highest Hrq) as Hk.
  unfold __kmalloc_node in E. rewrite E in Hk. destruct Hk as (lay1 & [K1 K2 K3 K4 (p & off & Ea & Hp & Ho1 & Ho2) K6 K7 K8 K9]).
  unfold KMALLOC_ALIGN in *. destruct (virt_page p off Hp ltac:(lia)) as [Va Vm]. rewrite <- Ea in Va, Vm. rewrite Va in K7, K9.
  destruct (kfree_ok st1 lay1 _ (a - 8) size K2 (lookup_insert_eq _ _ _)) as (lay2 & st2 & E2 & [F1 F2 F3]). rewrite delete_insert_id in F1 by done. rewrite Vm in F3.
  change KMALLOC_ALIGN with 8 in E2. replace (a - 8 + 8) with a in E2 by lia. exists st2. split; [done|].
  assert (lay2 = lay) as -> by (apply (layout_unique st2 lay2 st lay live); (apply F1 || apply Hh)). split; [done|]. split.
  - assert (Hno : (forall m', is_Some (<[a - 8 := size]> live !! m') -> virt_to_pfn m' = p -> m' = a - 8) <-> lay !! p = None).
    { rewrite (no_slab st lay live (ho_slob _ _ _ Hh) (ho_used _ _ _ Hh) p Hp). split.
      - intros Hx m' Hm' Ep. assert (m' <> a - 8) as Hne by (intros ->; rewrite K1 in Hm'; by destruct Hm'). apply Hne, Hx; [|done]. by rewrite lookup_insert_ne.
      - intros Hx m' Hm' Ep. destruct (decide (m' = a - 8)) as [?|Hne]; [done|]. rewrite lookup_insert_ne in Hm' by done. by destruct (Hx m' Hm'). }
    intros q. rewrite F3, K9. split; (intros [?|[-> ?]]; [by left|right; split; [done|tauto]]).
  - apply (kept_but_trans _ _ _ _ _ _ K3 F2). intros q i [?|[?|[-> Hin]]]; [done|by apply K8|]. rewrite Vm in *. by apply K7.
Qed.

(** (C12) A request of a page or more takes the smallest block of pages that holds it,
    and [kfree] gives the block back: the heap is as it was, and the free blocks of the
    page allocator too.  A request above the largest block gives NULL. *)
Theorem kmalloc_large_correct (node_zonelist : Z -> Z -> list zoneref) (smp_node_id : Z) st lay live (size gfp node highest : Z) :
  heap_ok st lay live -> PAGE_SIZE - KMALLOC_ALIGN <= size < 2 ^ 63 -> request_ok node_zonelist smp_node_id (sl_buddy st) gfp node highest ->
  let order := __get_order size in
  size <= PAGE_SIZE * blk order /\ (order = 0%nat \/ PAGE_SIZE * blk (order - 1) < size) /\ match __kmalloc_node node_zonelist smp_node_id size gfp node st with
  | Some (a, st1) =>
      (order < MAX_ORDER)%nat /\ heap_ok st1 lay live /\ (exists z p, a = page_to_virt p /\ allocated gfp (sl_buddy st) z p order (sl_buddy st1)) /\ (exists st2, kfree a st1 = Some st2 /\ heap_ok st2 lay live /\ same_free (sl_buddy st) (sl_buddy st2)) \/
      (MAX_ORDER <= order)%nat /\ a = 0 /\ st1 = st
  | None => (order < MAX_ORDER)%nat /\ Forall (fun z => no_run (sl_buddy st) z order) (request_zones node_zonelist smp_node_id gfp node highest)
  end.
Proof.
  intros Hh Hs Hrq order. rewrite PAGE_SIZE_eq in *. unfold KMALLOC_ALIGN in Hs. destruct (get_order_ok size) as [Ho1 Ho2]; [lia|]. split; [done|]. split; [done|].
  unfold __kmalloc_node, __do_kmalloc_node. rewrite PAGE_SIZE_eq, (proj2 (Z.ltb_ge size (4096 - KMALLOC_ALIGN))) by (unfold KMALLOC_ALIGN; lia). fold order.
  destruct (decide (order < MAX_ORDER)%nat) as [Hlt|Hge].
  2:{ rewrite (slob_new_pages_big node_zonelist smp_node_id st lay live gfp node highest order (ho_slob _ _ _ Hh) Hrq ltac:(lia)). cbn [mbind option_bind]. right.
      split; [lia|]. split; [done|]. by destruct st. }
  pose proof (slob_new_pages_ok node_zonelist smp_node_id st lay live gfp node highest order (ho_slob _ _ _ Hh) Hrq Hlt) as Hn.
  destruct (slob_new_pages _ _ _ _ _ _) as [[a b1]|]; [|done]. cbn [mbind option_bind]. left. destruct Hn as (l1 & z & l2 & p & g & _ & _ & Hal & -> & Hg & Hpr).
  pose proof (heap_ok_allocated st lay live gfp z p order b1 Hh Hal) as Hh1. split; [done|]. split; [done|]. split; [by exists z, p|].
  by apply (kfree_block st lay live gfp z p g order b1).
Qed.

(** ** An example: the heap over one zone *)

Definition ex_heap : slob := Slob ex_free ∅ ∅ [] [] [].
Definition ex_lists (_ _ : Z) : list zoneref := ex_zonelist.

#[local] Opaque ex_free.

Lemma ex_heap_ok : heap_ok ex_heap ∅ ∅.
Proof.
  apply heap_boot; [apply ex_free_ok|]. intros p g Hg. pose proof (bt_kept _ _ _ _ _ ex_free_ok p) as Hk. rewrite Hg in Hk. change (mem_map ex_idle) with ex_map in Hk.
  rewrite ex_map_lookup in Hk. case_decide as Hp; [|done]. injection Hk as _ Hd. split; [lia|]. split; [by rewrite Hd|].
  apply (free_not_slab ex_free p); [apply ex_free_ok| |done]. apply (bt_free _ _ _ _ _ ex_free_ok). right. exact Hp.
Qed.

Lemma ex_request gfp : gfp_zone gfp = Some ZONE_NORMAL -> request_ok ex_lists 0 ex_free gfp NUMA_NO_NODE ZONE_NORMAL.
Proof. intros Hg. split; [done|done|exact Hg|]. constructor; [exact ex_free_zone|constructor]. Qed.

Lemma ex_small : request_ok ex_lists 0 (sl_buddy ex_heap) (Z.ldiff ___GFP_ZERO ___GFP_ZERO) NUMA_NO_NODE ZONE_NORMAL.
Proof. exact (ex_request (Z.ldiff ___GFP_ZERO ___GFP_ZERO) eq_refl). Qed.

Lemma ex_runs gfp o : (o <= 3)%nat -> ~ Forall (fun z => no_run ex_free z o) (request_zones ex_lists 0 gfp NUMA_NO_NODE ZONE_NORMAL).
Proof.
  intros Ho HF. apply list.Forall_cons in HF as [HF _]. apply (HF 0); [apply Z.divide_0_r|]. intros q Hq. apply ex_free_in. unfold in_block in Hq.
  pose proof (blk_le o 3 Ho) as Hd. apply Z.divide_pos_le in Hd; [|done]. change (blk 3) with 8 in Hd. lia.
Qed.

(** 100 bytes can be had. *)
Lemma ex_object : exists a st' lay', __kmalloc_node ex_lists 0 100 ___GFP_ZERO NUMA_NO_NODE ex_heap = Some (a, st') /\ kmalloced ex_heap ∅ ∅ 100 true a lay' st'.
Proof.
  pose proof (kmalloc_small_ok ex_lists 0 ex_heap ∅ ∅ ex_heap_ok 100 ltac:(lia) ___GFP_ZERO NUMA_NO_NODE ZONE_NORMAL ex_small) as H.
  unfold __kmalloc_node. destruct (__do_kmalloc_node _ _ _ _ _ _) as [[a st']|]; [destruct H as [lay' H]; by exists a, st', lay'|].
  destruct H as [_ H]. by destruct (ex_runs (Z.ldiff ___GFP_ZERO ___GFP_ZERO) 0 ltac:(lia)).
Qed.

Lemma kmalloc_correct_witness :
  exists a st' lay', __kmalloc_node ex_lists 0 100 ___GFP_ZERO NUMA_NO_NODE ex_heap = Some (a, st') /\ kmalloced ex_heap ∅ ∅ 100 true a lay' st'.
Proof.
  pose proof (kmalloc_correct ex_lists 0 ex_heap ∅ ∅ 100 ___GFP_ZERO NUMA_NO_NODE ZONE_NORMAL ex_heap_ok ltac:(done) ex_small) as H.
  destruct ex_object as (a & st' & lay' & E & _). rewrite E in H. destruct H as [lay1 H]. exists a, st', lay1. split; [exact E|exact H].
Defined.

Lemma kfree_correct_witness :
  exists a st1 lay1 st2 lay2, __kmalloc_node ex_lists 0 100 ___GFP_ZERO NUMA_NO_NODE ex_heap = Some (a, st1) /\
    kfree (a - KMALLOC_ALIGN + KMALLOC_ALIGN) st1 = Some st2 /\ kfreed st1 lay1 (<[a - KMALLOC_ALIGN := 100]> ∅) (a - KMALLOC_ALIGN) 100 lay2 st2.
Proof.
  destruct ex_object as (a & st1 & lay1 & E & K). pose proof (km_heap _ _ _ _ _ _ _ _ K) as Hh.
  destruct (kfree_correct st1 lay1 (<[a - KMALLOC_ALIGN := 100]> ∅) (a - KMALLOC_ALIGN) 100 Hh (lookup_insert_eq _ _ _)) as (lay2 & st2 & E2 & F).
  exists a, st1, lay1, st2, lay2. split; [exact E|]. split; [exact E2|exact F].
Defined.

Lemma kmalloc_kfree_roundtrip_witness :
  exists a st1 st2, __kmalloc_node ex_lists 0 100 ___GFP_ZERO NUMA_NO_NODE ex_heap = Some (a, st1) /\ kfree a st1 = Some st2 /\ heap_ok st2 ∅ ∅.
Proof.
  destruct ex_object as (a & st1 & lay1 & E & _).
  destruct (kmalloc_kfree_roundtrip ex_lists 0 ex_heap ∅ ∅ 100 ___GFP_ZERO NUMA_NO_NODE ZONE_NORMAL a st1 ex_heap_ok (conj eq_refl eq_refl) ex_small E) as (st2 & E2 & H & _).
  exists a, st1, st2. split; [exact E|]. split; [exact E2|exact H].
Defined.

Lemma kmalloc_large_correct_witness :
  exists a st1 st2, __kmalloc_node ex_lists 0 20000 0 NUMA_NO_NODE ex_heap = Some (a, st1) /\ kfree a st1 = Some st2 /\ same_free ex_free (sl_buddy st2).
Proof.
  destruct (kmalloc_large_correct ex_lists 0 ex_heap ∅ ∅ 20000 0 NUMA_NO_NODE ZONE_NORMAL ex_heap_ok ltac:(done) (ex_request 0 eq_refl)) as (_ & _ & H).
  change (__get_order 20000) with 3%nat in H. destruct (__kmalloc_node ex_lists 0 20000 0 NUMA_NO_NODE ex_heap) as [[a st1]|].
  - destruct H as [(_ & _ & _ & st2 & E2 & _ & H)|[Hbad _]]; [|exfalso; unfold MAX_ORDER in Hbad; lia]. exists a, st1, st2. split; [reflexivity|]. split; [exact E2|exact H].
  - exfalso. destruct H as [_ H]. exact (ex_runs 0 3 ltac:(lia) H).
Defined.
