(* ===== verification/ZoneModel.v ===== *)
(** * Zones, their pages and the zonelists: the model

    The set-up of the zones of mm/page_alloc.c ([free_area_init_nodes] and what it calls,
    [build_all_zonelists], [memory_init]), [memory_present] of mm/sparse.c and
    [arch_zone_init] of arch/x86/mm/init.c, with CONFIG_NUMA and CONFIG_SPARSEMEM_VMEMMAP.

    A zone is the number of its node times four plus its type.  The node masks are the
    lists of their nodes in increasing order.  The distance between nodes, from a table of
    the firmware, and whether a node has CPUs are parameters.  [sparse_init] allocates the
    [struct page]s of the sections that have memory, cleared; the memblock of this model
    is the one that it leaves. *)

From stdpp Require Import gmap.
From S2P Require Import Prelude BuddyModel MemblockModel BootModel.

(** ** Sections (sparse.c) *)

Definition SECTION_SIZE_BITS : Z := 27.
Definition PFN_SECTION_SHIFT : Z := SECTION_SIZE_BITS - PAGE_SHIFT.
Definition PAGES_PER_SECTION : Z := Z.shiftl 1 PFN_SECTION_SHIFT.
Definition PAGE_SECTION_MASK : Z := wrap (Z.lnot (PAGES_PER_SECTION - 1)).
Definition pfn_to_section_nr (pfn : Z) : Z := Z.shiftr pfn PFN_SECTION_SHIFT.

Definition mminit_validate_memmodel_limits (start_pfn end_pfn : Z) : Z * Z :=
  let max_sparsemem_pfn := Z.shiftl 1 (MAX_PHYSMEM_BITS - PAGE_SHIFT) in
  if max_sparsemem_pfn <? start_pfn then (max_sparsemem_pfn, max_sparsemem_pfn)
  else if max_sparsemem_pfn <? end_pfn then (start_pfn, max_sparsemem_pfn)
  else (start_pfn, end_pfn).

(** The loop of [memory_present]; [n] sections are left. *)
Fixpoint present_from (n : nat) (pfn : Z) (present : gset Z) : gset Z :=
  match n with
  | O => present
  | S n => present_from n (pfn + PAGES_PER_SECTION) ({[pfn_to_section_nr pfn]} ∪ present)
  end.

Definition memory_present (start end_ : Z) (present : gset Z) : gset Z :=
  let start := Z.land start PAGE_SECTION_MASK in
  let '(start, end_) := mminit_validate_memmodel_limits start end_ in
  present_from (Z.to_nat ((end_ - start + (PAGES_PER_SECTION - 1)) / PAGES_PER_SECTION)) start present.

Definition sparse_memory_present_with_active_regions (m : memblock) (nid : Z) : gset Z :=
  fold_left (fun s x => memory_present x.1.1 x.1.2 s) (for_each_mem_pfn_range m nid) ∅.

(** The cleared [struct page]s of the present sections; [data] is what is in memory. *)
Definition section_pages (data : Z -> list Z) (nr : Z) (mm : gmap Z page) : gmap Z page :=
  fold_right (fun pfn => insert pfn (Page 0 0 0 0 0 (data pfn))) mm
    (seqZ (Z.shiftl nr PFN_SECTION_SHIFT) PAGES_PER_SECTION).
Definition sparse_mem_map (data : Z -> list Z) (present : gset Z) : gmap Z page :=
  fold_right (section_pages data) ∅ (elements present).

(** ** Extents of nodes and zones *)

Definition get_pfn_range_for_nid (m : memblock) (nid : Z) : Z * Z :=
  let '(start_pfn, end_pfn) := fold_left (fun '(s, e) x => (Z.min s x.1.1, Z.max e x.1.2)) (for_each_mem_pfn_range m nid) (ULLONG_MAX, 0) in
  (if start_pfn =? ULLONG_MAX then 0 else start_pfn, end_pfn).

Definition find_min_pfn_for_node (m : memblock) (nid : Z) : Z :=
  let min_pfn := fold_left (fun s x => Z.min s x.1.1) (for_each_mem_pfn_range m nid) ULLONG_MAX in
  if min_pfn =? ULLONG_MAX then 0 else min_pfn.

Definition find_min_pfn_with_active_regions (m : memblock) : Z := find_min_pfn_for_node m MAX_NUMNODES.

(** [arch_zone_lowest_possible_pfn] and [arch_zone_highest_possible_pfn] *)
Fixpoint zone_bounds (start_pfn : Z) (max_zone_pfn : list Z) : list (Z * Z) :=
  match max_zone_pfn with
  | [] => []
  | x :: l => let end_pfn := Z.max x start_pfn in (start_pfn, end_pfn) :: zone_bounds end_pfn l
  end.

(** The number of pages, and where the zone starts *)
Definition zone_spanned_pages_in_node (bounds : Z * Z) (node_start_pfn node_end_pfn : Z) : Z * Z :=
  let '(zone_start_pfn, zone_end_pfn) := bounds in
  if (zone_end_pfn <? node_start_pfn) || (node_end_pfn <? zone_start_pfn) then (0, zone_start_pfn)
  else
    let zone_end_pfn := Z.min zone_end_pfn node_end_pfn in
    let zone_start_pfn := Z.max zone_start_pfn node_start_pfn in
    (zone_end_pfn -u zone_start_pfn, zone_start_pfn).

Definition __absent_pages_in_range (m : memblock) (nid range_start_pfn range_end_pfn : Z) : Z :=
  fold_left (fun nr_absent x =>
      let start_pfn := clamp x.1.1 range_start_pfn range_end_pfn in
      let end_pfn := clamp x.1.2 range_start_pfn range_end_pfn in
      nr_absent -u (end_pfn -u start_pfn))
    (for_each_mem_pfn_range m nid) (range_end_pfn -u range_start_pfn).

Definition zone_absent_pages_in_node (m : memblock) (nid : Z) (bounds : Z * Z) (node_start_pfn node_end_pfn : Z) : Z :=
  let zone_start_pfn := clamp node_start_pfn bounds.1 bounds.2 in
  let zone_end_pfn := clamp node_end_pfn bounds.1 bounds.2 in
  __absent_pages_in_range m nid zone_start_pfn zone_end_pfn.

(** The extent of a zone: [zone_start_pfn], [spanned_pages] and [present_pages] *)
Record extent := Extent { ex_start : Z; ex_spanned : Z; ex_present : Z }.

Definition zone_extent (m : memblock) (nid node_start_pfn node_end_pfn : Z) (bounds : Z * Z) : extent :=
  let '(size, zone_start_pfn) := zone_spanned_pages_in_node bounds node_start_pfn node_end_pfn in
  let real_size := size -u zone_absent_pages_in_node m nid bounds node_start_pfn node_end_pfn in
  Extent (if size =? 0 then 0 else zone_start_pfn) size real_size.

Definition calculate_node_totalpages (m : memblock) (nid node_start_pfn node_end_pfn : Z) (bounds : list (Z * Z)) : list extent :=
  map (zone_extent m nid node_start_pfn node_end_pfn) bounds.

(** [node_spanned_pages] and [node_present_pages] *)
Definition node_total (f : extent -> Z) (l : list extent) : Z := fold_left (fun n x => n +u f x) l 0.

(** ** Initialisation of the zones *)

Definition SIZEOF_STRUCT_PAGE : Z := 64.

Definition calc_memmap_size (spanned_pages present_pages : Z) : Z :=
  let pages := if present_pages +u Z.shiftr present_pages 4 <? spanned_pages then present_pages else spanned_pages in
  Z.shiftr (ALIGN (wrap (pages * SIZEOF_STRUCT_PAGE)) PAGE_SIZE) PAGE_SHIFT.

(** The globals: the allocator, the number of managed pages of every zone as it is set
    here, the highest frame, and the pages of the kernel *)
Record boot := Boot {
  bo_buddy : buddy;
  bo_managed : gmap Z Z;
  highest_memmap_pfn : Z;
  nr_kernel_pages : Z;
  nr_all_pages : Z
}.

Definition zone_of (nid type : Z) : Z := nid * MAX_NR_ZONES + type.

(** [dma_reserve] is never set. *)
Definition dma_reserve : Z := 0.

Definition zone_freesize (type : Z) (x : extent) : Z :=
  let memmap_pages := calc_memmap_size (ex_spanned x) (ex_present x) in
  let freesize := if memmap_pages <=? ex_present x then ex_present x -u memmap_pages else ex_present x in
  if (type =? 0) && (dma_reserve <? freesize) then freesize -u dma_reserve else freesize.

Definition __init_single_page (z : Z) (g : page) : page := Page (pg_flags g) (-1) 1 (pg_private g) z (pg_data g).

(** The frames that are not valid have no [struct page]. *)
Definition zone_init_mem_map (size z start_pfn : Z) (mm : gmap Z page) : gmap Z page :=
  fold_left (fun mm pfn => alter (__init_single_page z) pfn mm) (seqZ start_pfn size) mm.

Definition zone_init_free_lists : list free_area := replicate MAX_ORDER (FreeArea [] 0).

(** One zone of [free_area_init_core] *)
Definition init_zone (nid type : Z) (x : extent) (s : boot) : boot :=
  let size := ex_spanned x in
  let freesize := zone_freesize type x in
  let z := zone_of nid type in
  let b := bo_buddy s in
  let b' :=
    if size =? 0 then b
    else Buddy (zone_init_mem_map size z (ex_start x) (mem_map b)) (<[z := Zone zone_init_free_lists freesize 0]> (zones b)) (vm_zone_stat b) in
  let highest :=
    if size =? 0 then highest_memmap_pfn s
    else if highest_memmap_pfn s <? ex_start x + size - 1 then ex_start x + size - 1 else highest_memmap_pfn s in
  Boot b' (<[z := freesize]> (bo_managed s)) highest (nr_kernel_pages s +u freesize) (nr_all_pages s +u freesize).

Fixpoint free_area_init_core (nid type : Z) (l : list extent) (s : boot) : boot :=
  match l with
  | [] => s
  | x :: l => free_area_init_core nid (type + 1) l (init_zone nid type x s)
  end.

(** Without CONFIG_FLATMEM [alloc_node_mem_map] does nothing.  The result has the number
    of present pages. *)
Definition free_area_init_node (m : memblock) (bounds : list (Z * Z)) (nid : Z) (s : boot) : boot * Z :=
  let '(start_pfn, end_pfn) := get_pfn_range_for_nid m nid in
  let l := calculate_node_totalpages m nid start_pfn end_pfn bounds in
  (free_area_init_core nid 0 l s, node_total ex_present l).

(** The nodes that are online, and the result those of N_NORMAL_MEMORY *)
Fixpoint init_nodes (m : memblock) (bounds : list (Z * Z)) (online : list Z) (s : boot) : boot * list Z :=
  match online with
  | [] => (s, [])
  | nid :: online =>
      let '(s, present) := free_area_init_node m bounds nid s in
      let '(s, normal) := init_nodes m bounds online s in
      (s, if present =? 0 then normal else nid :: normal)
  end.

Definition free_area_init_nodes (m : memblock) (online max_zone_pfn : list Z) (s : boot) : boot * list Z :=
  init_nodes m (zone_bounds (find_min_pfn_with_active_regions m) max_zone_pfn) online s.

(** [arch_zone_init] (arch/x86/mm/init.c) *)
Definition MAX_DMA_PFN : Z := Z.shiftr (16 * 1024 * 1024) PAGE_SHIFT.
Definition MAX_DMA32_PFN : Z := Z.shiftr (4 * 1024 * 1024 * 1024) PAGE_SHIFT.
Definition arch_zone_init (m : memblock) (online : list Z) (max_pfn : Z) (s : boot) : boot * list Z :=
  free_area_init_nodes m online [Z.min MAX_DMA_PFN max_pfn; Z.min MAX_DMA32_PFN max_pfn; max_pfn; 0] s.

(** ** Zonelists *)

Section zonelists.
Context (node_distance : Z -> Z -> Z) (has_cpus : Z -> bool).
Context (managed : gmap Z Z) (online normal : list Z).

Definition managed_zone (z : Z) : bool := negb (default 0 (managed !! z) =? 0).

Definition build_zonelists_node (nid : Z) : list zoneref :=
  map (fun type => Zoneref (zone_of nid type) type)
    (filter (fun type => managed_zone (zone_of nid type)) [ZONE_MOVABLE; ZONE_NORMAL; ZONE_DMA32; ZONE_DMA]).

Definition MAX_NODE_LOAD : Z := Z.of_nat (length online).
Definition PENALTY_FOR_NODE_WITH_CPUS : Z := 1.
Definition INT_MAX : Z := 2147483647.

Definition node_value (node_load : gmap Z Z) (node n : Z) : Z :=
  (node_distance node n + (if n <? node then 1 else 0) + (if has_cpus n then PENALTY_FOR_NODE_WITH_CPUS else 0)) *
    (MAX_NODE_LOAD * MAX_NUMNODES) + default 0 (node_load !! n).

(** The loop over the nodes with memory *)
Definition best_of (node_load : gmap Z Z) (node : Z) (used : list Z) (acc : Z * Z) (n : Z) : Z * Z :=
  if bool_decide (n ∈ used) then acc
  else
    let val := node_value node_load node n in
    if val <? acc.1 then (val, n) else acc.

(** The next node, or -1 *)
Definition find_next_best_node (node_load : gmap Z Z) (node : Z) (used : list Z) : Z :=
  if negb (bool_decide (node ∈ used)) then node
  else (fold_left (best_of node_load node used) normal (INT_MAX, NUMA_NO_NODE)).2.

(** The loop of [build_zonelists]: the order of the nodes, and the loads *)
Fixpoint node_order (n : nat) (local_node prev_node load : Z) (used : list Z) (node_load : gmap Z Z) : option (list Z * gmap Z Z) :=
  let node := find_next_best_node node_load local_node used in
  if node <? 0 then Some ([], node_load)
  else
    match n with
    | O => None
    | S n =>
        let node_load :=
          if negb (node_distance local_node node =? node_distance local_node prev_node) then <[node := load]> node_load else node_load in
        '(l, node_load) ← node_order n local_node node (load - 1) (node :: used) node_load;
        Some (node :: l, node_load)
    end.

Definition build_zonelists_in_node_order (nodes : list Z) : list zoneref := flat_map build_zonelists_node nodes.

Definition build_zonelists_in_zone_order (nodes : list Z) : list zoneref :=
  flat_map (fun type => map (fun nid => Zoneref (zone_of nid type) type) (filter (fun nid => managed_zone (zone_of nid type)) nodes))
    [ZONE_MOVABLE; ZONE_NORMAL; ZONE_DMA32; ZONE_DMA].

Definition ZONELIST_ORDER_DEFAULT : Z := 0.
Definition ZONELIST_ORDER_NODE : Z := 1.
Definition ZONELIST_ORDER_ZONE : Z := 2.
Definition default_zonelist_order : Z := ZONELIST_ORDER_NODE.
Definition set_zonelist_order (user_zonelist_order : Z) : Z :=
  if user_zonelist_order =? ZONELIST_ORDER_DEFAULT then default_zonelist_order else user_zonelist_order.

(** The two lists of a node; every step takes a node that was not taken before. *)
Definition build_zonelists (order nid : Z) (node_load : gmap Z Z) : option (list zoneref * list zoneref * gmap Z Z) :=
  '(nodes, node_load) ← node_order (S (length normal)) nid nid (Z.of_nat (length online)) [] node_load;
  let fallback :=
    if order =? ZONELIST_ORDER_NODE then build_zonelists_in_node_order nodes
    else if order =? ZONELIST_ORDER_ZONE then build_zonelists_in_zone_order nodes
    else [] in
  Some (fallback, build_zonelists_node nid, node_load).

Fixpoint build_for_nodes (order : Z) (l : list Z) (node_load : gmap Z Z) : option (gmap Z (list zoneref * list zoneref)) :=
  match l with
  | [] => Some ∅
  | nid :: l =>
      '(fallback, nofallback, node_load) ← build_zonelists order nid node_load;
      r ← build_for_nodes order l node_load;
      Some (<[nid := (fallback, nofallback)]> r)
  end.

Definition build_all_zonelists (user_zonelist_order : Z) : option (gmap Z (list zoneref * list zoneref)) :=
  build_for_nodes (set_zonelist_order user_zonelist_order) online ∅.
End zonelists.

(** ** All of it *)

Definition boot_start (mm : gmap Z page) : boot := Boot (Buddy mm ∅ 0) ∅ 0 0 0.

(** [memory_init]: the zonelists, the pages of the machine, and the allocator *)
Definition memory_init (node_distance : Z -> Z -> Z) (has_cpus : Z -> bool) (data : Z -> list Z)
    (m : memblock) (online : list Z) (max_pfn user_zonelist_order : Z)
  : option (gmap Z (list zoneref * list zoneref) * Z * buddy) :=
  let mm := sparse_mem_map data (sparse_memory_present_with_active_regions m MAX_NUMNODES) in
  let '(s, normal) := arch_zone_init m online max_pfn (boot_start mm) in
  zonelists ← build_all_zonelists node_distance has_cpus (bo_managed s) online normal user_zonelist_order;
  '(_, totalram_pages, b) ← free_all_bootmem m 0 (bo_buddy s);
  Some (zonelists, totalram_pages, b).
