(* ===== verification/ZoneInit.v ===== *)
(** * Zones, their pages and the zonelists: initialisation

    The [struct page]s of every section that has memory exist; those of the memory of a
    node belong to a zone of the type that their address has, and the frames of a region
    that lie in one largest block to the same one.  So the allocator is ready for
    [free_all_bootmem]. *)

From stdpp Require Import gmap.
From S2P Require Import Prelude BuddyModel BuddyInv BuddyFree MemblockModel MemblockRegions MemblockRemove MemblockIter MemblockAlloc BootModel BootFree ZoneModel.

(** ** Frames of regions *)

Lemma elem_of_pfn_ranges m nid s e n :
  (s, e, n) ∈ for_each_mem_pfn_range m nid <->
  exists r, r ∈ regions (memory m) /\ s = PFN_UP (rg_base r) /\ e = PFN_DOWN (rg_end r) /\ n = rg_nid r /\ s < e /\
    (nid = MAX_NUMNODES \/ nid = rg_nid r).
Proof.
  unfold for_each_mem_pfn_range. rewrite list_elem_of_fmap. split.
  - intros (r & [= -> -> ->] & [[H1 H2] Hr]%list_elem_of_filter). exists r. by split_and!.
  - intros (r & Hr & -> & -> & -> & H1 & H2). exists r. split; [done|]. apply list_elem_of_filter. auto.
Qed.

Section frames.
Context (m : memblock) (Hm : boot_memory m).

Lemma frame_bounds r q : r ∈ regions (memory m) ->
  frame_of r q <-> PFN_UP (rg_base r) <= q < PFN_DOWN (rg_end r).
Proof.
  intros Hr. destruct (memory_region m (bm_ok _ Hm) r Hr) as (? & ? & He & ?). pose proof (bm_limit _ Hm r Hr).
  unfold frame_of. rewrite (pfn_up_spec (rg_base r)) by lia. rewrite pfn_down_spec, He. done.
Qed.

Lemma frame_limit r q : r ∈ regions (memory m) -> frame_of r q -> 0 <= q < 2 ^ 34.
Proof.
  intros Hr [H1 H2]. destruct (memory_region m (bm_ok _ Hm) r Hr) as (? & ? & He & ?). pose proof (bm_limit _ Hm r Hr).
  change PAGE_SIZE with 4096 in *. unfold MAX_PHYSMEM_BITS in *. lia.
Qed.

(** A region with a frame is in the list of its node. *)
Lemma frame_range r q : r ∈ regions (memory m) -> frame_of r q ->
  (PFN_UP (rg_base r), PFN_DOWN (rg_end r), rg_nid r) ∈ for_each_mem_pfn_range m (rg_nid r) /\
  (PFN_UP (rg_base r), PFN_DOWN (rg_end r), rg_nid r) ∈ for_each_mem_pfn_range m MAX_NUMNODES.
Proof.
  intros Hr Hq. apply (frame_bounds r q Hr) in Hq. rewrite !elem_of_pfn_ranges. split; exists r; repeat split; auto; lia.
Qed.

(** Two regions that share an address are the same. *)
Lemma region_unique r s a : r ∈ regions (memory m) -> s ∈ regions (memory m) -> covers r a -> covers s a -> r = s.
Proof.
  intros [i Hi]%list_elem_of_lookup [j Hj]%list_elem_of_lookup Hr Hs. unfold covers in *.
  pose proof (mo_memory _ (bm_ok _ Hm)) as Ht. pose proof (type_ok_sorted _ Ht) as Hso.
  destruct (type_ok_region _ _ _ Ht Hi) as (_ & _ & _ & E1 & _). destruct (type_ok_region _ _ _ Ht Hj) as (_ & _ & _ & E2 & _).
  destruct (lt_eq_lt_dec i j) as [[Hlt| ->]|Hlt]; [|by simplify_eq|].
  - pose proof (so_next _ Hso _ _ _ _ Hlt Hi Hj). lia.
  - pose proof (so_next _ Hso _ _ _ _ Hlt Hj Hi). lia.
Qed.

(** ** The extent of a node *)

Definition first_start (l : list (Z * Z * Z)) (x : Z) : Z := fold_left (fun s x => Z.min s x.1.1) l x.
Definition last_end (l : list (Z * Z * Z)) (x : Z) : Z := fold_left (fun e x => Z.max e x.1.2) l x.

Lemma first_start_spec l x : first_start l x <= x /\ (forall y, y ∈ l -> first_start l x <= y.1.1) /\
  (first_start l x = x \/ exists y, y ∈ l /\ first_start l x = y.1.1).
Proof.
  revert x. induction l as [|y l IH]; intros x; simpl.
  { split; [lia|]. split; [intros y Hy; by apply elem_of_nil in Hy|auto]. }
  destruct (IH (Z.min x y.1.1)) as (H1 & H2 & H3). split; [lia|]. split.
  - intros z [->|Hz]%elem_of_cons; [lia|auto].
  - destruct H3 as [H3|(z & Hz & H3)]; [|right; exists z; split; [by right|done]]. rewrite H3.
    destruct (Z.min_spec x y.1.1) as [[_ E]|[_ E]]; rewrite E; [by left|right; exists y; split; [left|done]].
Qed.

Lemma last_end_spec l x : x <= last_end l x /\ (forall y, y ∈ l -> y.1.2 <= last_end l x) /\
  (last_end l x = x \/ exists y, y ∈ l /\ last_end l x = y.1.2).
Proof.
  revert x. induction l as [|y l IH]; intros x; simpl.
  { split; [lia|]. split; [intros y Hy; by apply elem_of_nil in Hy|auto]. }
  destruct (IH (Z.max x y.1.2)) as (H1 & H2 & H3). split; [lia|]. split.
  - intros z [->|Hz]%elem_of_cons; [lia|auto].
  - destruct H3 as [H3|(z & Hz & H3)]; [|right; exists z; split; [by right|done]]. rewrite H3.
    destruct (Z.max_spec x y.1.2) as [[_ E]|[_ E]]; rewrite E; [right; exists y; split; [left|done]|by left].
Qed.

Lemma pfn_range_fold l s e : fold_left (fun '(s, e) (x : Z * Z * Z) => (Z.min s x.1.1, Z.max e x.1.2)) l (s, e) = (first_start l s, last_end l e).
Proof. revert s e. induction l as [|x l IH]; intros s e; simpl; [done|]. apply IH. Qed.

Lemma range_limit nid x : x ∈ for_each_mem_pfn_range m nid -> 0 <= x.1.1 /\ x.1.1 < x.1.2 /\ x.1.2 <= 2 ^ 34.
Proof.
  destruct x as [[s e] n]. intros (r & Hr & -> & -> & -> & Hlt & _)%elem_of_pfn_ranges. simpl.
  assert (H1 : frame_of r (PFN_UP (rg_base r))) by (apply frame_bounds; [done|lia]).
  assert (H2 : frame_of r (PFN_DOWN (rg_end r) - 1)) by (apply frame_bounds; [done|lia]).
  apply frame_limit in H1, H2; [|done..]. lia.
Qed.

(** A node without memory has the empty extent; otherwise it is the least that holds
    its ranges. *)
Lemma node_extent nid S E : get_pfn_range_for_nid m nid = (S, E) ->
  (for_each_mem_pfn_range m nid = [] /\ S = 0 /\ E = 0) \/
  ((forall x, x ∈ for_each_mem_pfn_range m nid -> S <= x.1.1 /\ x.1.2 <= E) /\
   (exists x, x ∈ for_each_mem_pfn_range m nid /\ S = x.1.1) /\ (exists x, x ∈ for_each_mem_pfn_range m nid /\ E = x.1.2)).
Proof.
  unfold get_pfn_range_for_nid. rewrite pfn_range_fold. intros [= <- <-]. set (l := for_each_mem_pfn_range m nid).
  destruct (first_start_spec l ULLONG_MAX) as (F1 & F2 & F3). destruct (last_end_spec l 0) as (G1 & G2 & G3).
  destruct (decide (l = [])) as [En|En]; [left; rewrite En; done|right].
  assert (exists y, y ∈ l) as [y Hy] by (destruct l as [|y l']; [done|exists y; left]).
  assert (Hlim : forall x, x ∈ l -> 0 <= x.1.1 /\ x.1.1 < x.1.2 /\ x.1.2 <= 2 ^ 34) by (intros x; apply range_limit).
  destruct (Hlim y Hy) as (? & ? & ?). pose proof (F2 y Hy). pose proof (G2 y Hy).
  assert (first_start l ULLONG_MAX <> ULLONG_MAX) by (assert (ULLONG_MAX = 2 ^ 64 - 1) by done; lia).
  rewrite (proj2 (Z.eqb_neq _ _)) by done. split; [auto|]. split.
  - destruct F3 as [F3|F3]; [done|]. destruct F3 as (x & ? & ?). by exists x.
  - destruct G3 as [G3|G3]; [lia|]. destruct G3 as (x & ? & ?). by exists x.
Qed.
End frames.

(** ** Pages and zones

    A span is a zone with its first frame and its number of frames; the pages of a frame
    get the zone of the last span over it. *)

Definition span : Type := Z * Z * Z.
Definition in_span (x : span) (q : Z) : bool := (x.1.2 <=? q) && (q <? x.1.2 + x.2).

Fixpoint core_spans (nid type : Z) (l : list extent) : list span :=
  match l with
  | [] => []
  | x :: l => (if ex_spanned x =? 0 then [] else [(zone_of nid type, ex_start x, ex_spanned x)]) ++ core_spans nid (type + 1) l
  end.

Definition node_spans (m : memblock) (bounds : list (Z * Z)) (nid : Z) : list span :=
  let '(start_pfn, end_pfn) := get_pfn_range_for_nid m nid in
  core_spans nid 0 (calculate_node_totalpages m nid start_pfn end_pfn bounds).

Definition paint (l : list span) (mm : gmap Z page) : gmap Z page :=
  fold_left (fun mm x => zone_init_mem_map x.2 x.1.1 x.1.2 mm) l mm.

(** The zone of a frame *)
Definition zone_at (l : list span) (q : Z) : Z := fold_left (fun z x => if in_span x q then x.1.1 else z) l 0.

Definition painted (l : list span) (q : Z) (g : page) : page :=
  fold_left (fun g x => if in_span x q then __init_single_page x.1.1 g else g) l g.

Lemma zone_init_lookup n z s mm q :
  zone_init_mem_map n z s mm !! q = (if in_span (z, s, n) q then __init_single_page z else id) <$> mm !! q.
Proof.
  unfold zone_init_mem_map. assert (H : forall l (mm : gmap Z page), fold_left (fun mm pfn => alter (__init_single_page z) pfn mm) l mm !! q =
    (if bool_decide (q ∈ l) then __init_single_page z else id) <$> mm !! q).
  { induction l as [|p l IH]; intros mm'; cbn [fold_left].
    - rewrite bool_decide_eq_false_2 by apply not_elem_of_nil. by destruct (mm' !! q).
    - rewrite IH, lookup_alter. destruct (decide (p = q)) as [E|E].
      + subst p. rewrite (bool_decide_eq_true_2 (q ∈ q :: l)) by left. by destruct (bool_decide (q ∈ l)), (mm' !! q).
      + rewrite (bool_decide_ext (q ∈ p :: l) (q ∈ l)); [done|]. rewrite elem_of_cons. naive_solver. }
  rewrite H. f_equal. unfold in_span. simpl.
  destruct ((s <=? q) && (q <? s + n)) eqn:E.
  - rewrite bool_decide_eq_true_2; [done|]. apply elem_of_seqZ. zbool. lia.
  - rewrite bool_decide_eq_false_2; [done|]. rewrite elem_of_seqZ. intros Hq. rewrite andb_false_iff, Z.leb_gt, Z.ltb_ge in E. lia.
Qed.

Lemma paint_lookup l mm q : paint l mm !! q = painted l q <$> mm !! q.
Proof.
  unfold paint, painted. revert mm. induction l as [|x l IH]; intros mm; simpl; [by destruct (mm !! q)|].
  rewrite IH, zone_init_lookup. destruct x as [[z s] n]. destruct (mm !! q) as [g|]; [|done]. simpl. by destruct (in_span _ q).
Qed.

Definition covered (l : list span) (q : Z) : bool := existsb (fun x => in_span x q) l.

Lemma painted_spec l q g :
  pg_flags (painted l q g) = pg_flags g /\ pg_mapcount (painted l q g) = (if covered l q then -1 else pg_mapcount g) /\
  pg_zone (painted l q g) = fold_left (fun z x => if in_span x q then x.1.1 else z) l (pg_zone g).
Proof.
  unfold painted. revert g. induction l as [|x l IH]; intros g; simpl; [done|].
  destruct (IH (if in_span x q then __init_single_page x.1.1 g else g)) as (-> & -> & ->).
  destruct (in_span x q); simpl; [by destruct (covered l q)|done].
Qed.

(** The zone is that of a span over the frame, or 0. *)
Lemma zone_at_cases l q : (covered l q = false /\ zone_at l q = 0) \/ exists x, x ∈ l /\ in_span x q = true /\ zone_at l q = x.1.1.
Proof.
  unfold zone_at. assert (H : forall z, (covered l q = false /\ fold_left (fun z x => if in_span x q then x.1.1 else z) l z = z) \/
    exists x, x ∈ l /\ in_span x q = true /\ fold_left (fun z x => if in_span x q then x.1.1 else z) l z = x.1.1); [|apply H].
  induction l as [|x l IH]; intros z; simpl; [by left|]. destruct (IH (if in_span x q then x.1.1 else z)) as [[H1 H2]|(y & Hy & H1 & H2)].
  - rewrite H1, H2. destruct (in_span x q) eqn:E; simpl; [|by left]. right. exists x. split; [left|done].
  - right. exists y. split; [by right|done].
Qed.

Lemma zone_at_ext l q q' : (forall x, x ∈ l -> in_span x q = in_span x q') -> zone_at l q = zone_at l q'.
Proof.
  unfold zone_at. generalize 0. induction l as [|x l IH]; intros z H; simpl; [done|]. rewrite (H x) by left.
  apply IH. intros y Hy. apply H. by right.
Qed.

(** Zones without free pages *)
Definition zones_idle (zs : gmap Z zone) : Prop :=
  forall z zn, zs !! z = Some zn -> free_areas zn = replicate MAX_ORDER empty_area /\ zone_free_pages zn = 0.

Record initialised (l : list span) (s s' : boot) : Prop := Initialised {
  in_map : mem_map (bo_buddy s') = paint l (mem_map (bo_buddy s));
  in_zones z : is_Some (zones (bo_buddy s') !! z) <-> is_Some (zones (bo_buddy s) !! z) \/ exists x, x ∈ l /\ x.1.1 = z;
  in_idle : zones_idle (zones (bo_buddy s)) -> zones_idle (zones (bo_buddy s'));
  in_stat : vm_zone_stat (bo_buddy s') = vm_zone_stat (bo_buddy s)
}.

Lemma initialised_refl s : initialised [] s s.
Proof. split; try done. intros z. split; [by left|]. intros [?|(x & Hx & _)]; [done|]. by apply elem_of_nil in Hx. Qed.

Lemma initialised_app l k s s1 s2 : initialised l s s1 -> initialised k s1 s2 -> initialised (l ++ k) s s2.
Proof.
  intros [A1 A2 A3 A4] [B1 B2 B3 B4]. split.
  - unfold paint in *. by rewrite fold_left_app, B1, A1.
  - intros z. rewrite B2, A2. setoid_rewrite elem_of_app. naive_solver.
  - auto.
  - congruence.
Qed.

Lemma init_zone_ok nid type x s :
  initialised (if ex_spanned x =? 0 then [] else [(zone_of nid type, ex_start x, ex_spanned x)]) s (init_zone nid type x s).
Proof.
  unfold init_zone. destruct (ex_spanned x =? 0) eqn:E.
  - destruct (initialised_refl s) as [A B C D]. by split.
  - split; cbn [bo_buddy mem_map zones vm_zone_stat]; [done| |intros H z zn|done].
    + intros z. rewrite lookup_insert. destruct (decide (zone_of nid type = z)) as [<-|Hne].
      * split; [|done]. intros _. right. eexists. split; [left|done].
      * split; [by left|]. intros [?|(y & ->%list_elem_of_singleton & Hy)]; [done|]. by simpl in Hy.
    + rewrite lookup_insert. case_decide; [|apply H]. by intros [= <-].
Qed.

Lemma free_area_init_core_ok nid type l s : initialised (core_spans nid type l) s (free_area_init_core nid type l s).
Proof.
  revert type s. induction l as [|x l IH]; intros type s; [apply initialised_refl|]. simpl.
  eapply initialised_app; [apply init_zone_ok|apply IH].
Qed.

Lemma init_nodes_ok m bounds online s : initialised (flat_map (node_spans m bounds) online) s (init_nodes m bounds online s).1.
Proof.
  revert s. induction online as [|nid online IH]; intros s; [apply initialised_refl|]. cbn [init_nodes flat_map].
  unfold free_area_init_node, node_spans at 1. destruct (get_pfn_range_for_nid m nid) as [S E].
  set (s1 := free_area_init_core nid 0 _ s). specialize (IH s1). destruct (init_nodes m bounds online s1) as [s2 normal].
  eapply initialised_app; [apply free_area_init_core_ok|exact IH].
Qed.

(** The nodes with memory are online. *)
Lemma init_nodes_normal m bounds online s n : n ∈ (init_nodes m bounds online s).2 -> n ∈ online.
Proof.
  revert s. induction online as [|nid online IH]; intros s; [done|]. cbn [init_nodes].
  destruct (free_area_init_node m bounds nid s) as [s1 present]. specialize (IH s1). destruct (init_nodes m bounds online s1) as [s2 normal].
  simpl in *. destruct (present =? 0); [intros ?; right; auto|]. intros [->|?]%elem_of_cons; [left|right; auto].
Qed.

(** ** The pages of the sections *)

Lemma section_nr q : pfn_to_section_nr q = q / PAGES_PER_SECTION.
Proof. unfold pfn_to_section_nr. by rewrite Z.shiftr_div_pow2. Qed.

Lemma elem_of_present_from n pfn X k : (PAGES_PER_SECTION | pfn) ->
  k ∈ present_from n pfn X <-> k ∈ X \/ pfn / PAGES_PER_SECTION <= k < pfn / PAGES_PER_SECTION + Z.of_nat n.
Proof.
  intros [c ->]. rewrite Z.div_mul by done. revert c X. induction n as [|n IH]; intros c X; simpl; [split; [by left|intros [?|?]; [done|lia]]|].
  replace (c * PAGES_PER_SECTION + PAGES_PER_SECTION) with ((c + 1) * PAGES_PER_SECTION) by ring.
  rewrite IH, section_nr, Z.div_mul, elem_of_union, elem_of_singleton by done. split; [intros [[->|?]|?]|intros [?|?]]; try lia; auto.
Qed.

Lemma section_start s : 0 <= s < 2 ^ 64 -> Z.land s PAGE_SECTION_MASK = s / PAGES_PER_SECTION * PAGES_PER_SECTION.
Proof.
  intros Hs. change PAGE_SECTION_MASK with (Z.ldiff (Z.ones 64) (Z.ones 15)). change PAGES_PER_SECTION with (2 ^ 15).
  rewrite <- Z.shiftr_div_pow2, <- Z.shiftl_mul_pow2, <- Z.ldiff_ones_r by done.
  rewrite <- (Z.mod_small s (2 ^ 64)) at 2 by done. rewrite <- Z.land_ones by done.
  apply Z.bits_inj'. intros n Hn. rewrite Z.land_spec, !Z.ldiff_spec, Z.land_spec. by rewrite andb_assoc.
Qed.

Lemma elem_of_memory_present s e X k : 0 <= s -> s < e -> e <= 2 ^ 34 ->
  k ∈ memory_present s e X <-> k ∈ X \/ s / PAGES_PER_SECTION <= k <= (e - 1) / PAGES_PER_SECTION.
Proof.
  intros H1 H2 H3. unfold memory_present. rewrite section_start by lia.
  pose proof (Z.div_mod s PAGES_PER_SECTION ltac:(done)). pose proof (Z.mod_pos_bound s PAGES_PER_SECTION ltac:(done)).
  unfold mminit_validate_memmodel_limits. change (Z.shiftl 1 (MAX_PHYSMEM_BITS - PAGE_SHIFT)) with (2 ^ 34).
  change PAGES_PER_SECTION with 32768 in *. rewrite !(proj2 (Z.ltb_ge _ _)) by lia.
  rewrite elem_of_present_from by (change PAGES_PER_SECTION with 32768; by exists (s / 32768)).
  change PAGES_PER_SECTION with 32768. rewrite Z.div_mul by done.
  replace (e - s / 32768 * 32768 + (32768 - 1)) with ((e - 1 - s / 32768 * 32768) + 1 * 32768) by ring.
  rewrite Z.div_add by done. replace (e - 1 - s / 32768 * 32768) with (e - 1 + (- (s / 32768)) * 32768) by ring.
  rewrite Z.div_add by done. pose proof (Z.div_le_mono s (e - 1) 32768 ltac:(lia) ltac:(lia)). rewrite Z2Nat.id by lia. split; intros [?|?]; auto; right; lia.
Qed.

Section present.
Context (m : memblock) (Hm : boot_memory m).

Lemma elem_of_present nid k :
  k ∈ sparse_memory_present_with_active_regions m nid <->
  exists x, x ∈ for_each_mem_pfn_range m nid /\ x.1.1 / PAGES_PER_SECTION <= k <= (x.1.2 - 1) / PAGES_PER_SECTION.
Proof.
  unfold sparse_memory_present_with_active_regions.
  assert (H : forall l X, (forall x, x ∈ l -> x ∈ for_each_mem_pfn_range m nid) ->
    k ∈ fold_left (fun s x => memory_present x.1.1 x.1.2 s) l X <->
    k ∈ X \/ exists x, x ∈ l /\ x.1.1 / PAGES_PER_SECTION <= k <= (x.1.2 - 1) / PAGES_PER_SECTION).
  { induction l as [|x l IH]; intros X Hl; cbn [fold_left].
    - split; [by left|]. intros [?|(x & Hx & _)]; [done|]. by apply elem_of_nil in Hx.
    - rewrite IH by (intros y Hy; apply Hl; by right). destruct (range_limit m Hm nid x) as (? & ? & ?); [apply Hl; left|].
      rewrite elem_of_memory_present by done. setoid_rewrite elem_of_cons. split.
      + intros [[?|?]|(y & ? & ?)]; [by left|right; exists x; auto|right; exists y; auto].
      + intros [?|(y & [->|?] & ?)]; [by left; left|by left; right|right; by exists y]. }
  rewrite H by done. split; [intros [Hk|?]; [by apply elem_of_empty in Hk|done]|by right].
Qed.
End present.

Lemma section_pages_lookup data nr mm q :
  section_pages data nr mm !! q = if pfn_to_section_nr q =? nr then Some (Page 0 0 0 0 0 (data q)) else mm !! q.
Proof.
  unfold section_pages. assert (H : forall l, fold_right (fun pfn => insert pfn (Page 0 0 0 0 0 (data pfn))) mm l !! q =
    if bool_decide (q ∈ l) then Some (Page 0 0 0 0 0 (data q)) else mm !! q).
  { induction l as [|p l IH]; cbn [fold_right]; [by rewrite bool_decide_eq_false_2 by apply not_elem_of_nil|].
    rewrite lookup_insert, IH. destruct (decide (p = q)) as [->|E].
    - by rewrite (bool_decide_eq_true_2 (q ∈ q :: l)) by left.
    - rewrite (bool_decide_ext (q ∈ p :: l) (q ∈ l)); [done|]. rewrite elem_of_cons. naive_solver. }
  rewrite H, section_nr. rewrite Z.shiftl_mul_pow2 by done. change (2 ^ PFN_SECTION_SHIFT) with PAGES_PER_SECTION.
  assert (Hiff : q ∈ seqZ (nr * PAGES_PER_SECTION) PAGES_PER_SECTION <-> q / PAGES_PER_SECTION = nr).
  { rewrite elem_of_seqZ. change PAGES_PER_SECTION with 32768. pose proof (Z.div_mod q 32768 ltac:(lia)). pose proof (Z.mod_pos_bound q 32768 ltac:(lia)). lia. }
  destruct (_ =? nr) eqn:E.
  - rewrite bool_decide_eq_true_2; [done|]. apply Hiff. by apply Z.eqb_eq.
  - rewrite bool_decide_eq_false_2; [done|]. rewrite Hiff. by apply Z.eqb_neq.
Qed.

Lemma sparse_mem_map_lookup data present q :
  sparse_mem_map data present !! q = if bool_decide (pfn_to_section_nr q ∈ present) then Some (Page 0 0 0 0 0 (data q)) else None.
Proof.
  unfold sparse_mem_map. assert (H : forall l, fold_right (section_pages data) ∅ l !! q =
    if bool_decide (pfn_to_section_nr q ∈ l) then Some (Page 0 0 0 0 0 (data q)) else None).
  { induction l as [|nr l IH]; cbn [fold_right]; [by rewrite bool_decide_eq_false_2 by apply not_elem_of_nil|].
    rewrite section_pages_lookup, IH. destruct (_ =? nr) eqn:E.
    - apply Z.eqb_eq in E as ->. by rewrite (bool_decide_eq_true_2 (nr ∈ nr :: l)) by left.
    - apply Z.eqb_neq in E. rewrite (bool_decide_ext (_ ∈ nr :: l) (pfn_to_section_nr q ∈ l)); [done|]. rewrite elem_of_cons. naive_solver. }
  rewrite H. erewrite bool_decide_ext; [done|]. apply elem_of_elements.
Qed.

(** ** The spans of the zones *)

Lemma spanned_spec bounds S E : bounds.1 <= bounds.2 -> S <= E -> 0 <= bounds.1 -> bounds.2 <= 2 ^ 34 -> 0 <= S -> E <= 2 ^ 34 ->
  forall q, zone_spanned_pages_in_node bounds S E = ((zone_spanned_pages_in_node bounds S E).1, (zone_spanned_pages_in_node bounds S E).2) /\
  ((zone_spanned_pages_in_node bounds S E).2 <= q < (zone_spanned_pages_in_node bounds S E).2 + (zone_spanned_pages_in_node bounds S E).1 <->
   bounds.1 <= q < bounds.2 /\ S <= q < E).
Proof.
  destruct bounds as [zs ze]. simpl. intros. unfold zone_spanned_pages_in_node. destruct ((ze <? S) || (E <? zs)) eqn:C; simpl.
  - split; [done|]. rewrite orb_true_iff, !Z.ltb_lt in C. lia.
  - split; [done|]. rewrite orb_false_iff, !Z.ltb_ge in C. rewrite wrap_small by (unfold is_u64, ULONG_MOD; lia). lia.
Qed.

Section spans.
Context (m : memblock) (bounds : list (Z * Z)) (Hm : boot_memory m).
Context (Hbounds : forall i zs ze, bounds !! i = Some (zs, ze) -> 0 <= zs <= ze /\ ze <= 2 ^ 34).

Lemma extent_limit nid S E : get_pfn_range_for_nid m nid = (S, E) -> 0 <= S <= E /\ E <= 2 ^ 34.
Proof.
  intros Hx. destruct (node_extent m Hm nid S E Hx) as [(_ & -> & ->)|(H1 & (x & Hx1 & ->) & (y & Hy & ->))]; [lia|].
  destruct (range_limit m Hm nid x Hx1) as (? & ? & ?). destruct (range_limit m Hm nid y Hy) as (? & ? & ?). destruct (H1 x Hx1). lia.
Qed.

Lemma elem_of_core_spans nid type l x :
  x ∈ core_spans nid type l <->
  exists i y, l !! i = Some y /\ ex_spanned y <> 0 /\ x = (zone_of nid (type + Z.of_nat i), ex_start y, ex_spanned y).
Proof.
  revert type. induction l as [|y l IH]; intros type; cbn [core_spans].
  { split; [by intros ?%elem_of_nil|]. intros (i & y & Hy & _). by rewrite lookup_nil in Hy. }
  rewrite elem_of_app, IH. split.
  - intros [Hx|(i & z & Hz & Hne & ->)].
    + exists 0%nat, y. destruct (Z.eqb_spec (ex_spanned y) 0) as [E|E]; [by apply elem_of_nil in Hx|].
      apply list_elem_of_singleton in Hx as ->. by rewrite Z.add_0_r.
    + exists (S i), z. split; [done|]. split; [done|]. do 3 f_equal. lia.
  - intros ([|i] & z & Hz & Hne & ->); simpl in Hz.
    + left. simplify_eq. rewrite (proj2 (Z.eqb_neq _ _)) by done. rewrite Z.add_0_r. left.
    + right. exists i, z. split; [done|]. split; [done|]. do 3 f_equal. lia.
Qed.

Lemma node_span nid S E x : get_pfn_range_for_nid m nid = (S, E) -> x ∈ node_spans m bounds nid ->
  exists i zs ze, bounds !! i = Some (zs, ze) /\ x.1.1 = zone_of nid (Z.of_nat i) /\
    forall q, in_span x q = true <-> zs <= q < ze /\ S <= q < E.
Proof.
  intros Hx. unfold node_spans. rewrite Hx. intros (i & y & Hy & Hne & ->)%elem_of_core_spans.
  unfold calculate_node_totalpages in Hy. apply list_lookup_fmap_Some in Hy as ([zs ze] & -> & Hi). destruct (Hbounds _ _ _ Hi).
  destruct (extent_limit nid S E Hx). exists i, zs, ze. split; [done|]. split; [done|]. intros q.
  destruct (spanned_spec (zs, ze) S E) with (q := q) as [Hp Hq]; simpl; try lia.
  unfold zone_extent in *. rewrite Hp in *. cbn [ex_start ex_spanned] in *. unfold in_span. simpl.
  rewrite (proj2 (Z.eqb_neq _ _)) by done. rewrite andb_true_iff, Z.leb_le, Z.ltb_lt. done.
Qed.

Lemma span_over nid S E i zs ze q : get_pfn_range_for_nid m nid = (S, E) -> bounds !! i = Some (zs, ze) -> zs <= q < ze -> S <= q < E ->
  exists x, x ∈ node_spans m bounds nid /\ in_span x q = true /\ x.1.1 = zone_of nid (Z.of_nat i).
Proof.
  intros Hx Hi Hz Hq. destruct (Hbounds _ _ _ Hi). destruct (extent_limit nid S E Hx).
  destruct (spanned_spec (zs, ze) S E) with (q := q) as [Hp Hs]; simpl; try lia.
  assert (Hy := proj2 Hs (conj Hz Hq)). set (y := zone_extent m nid S E (zs, ze)).
  assert (Ey : ex_spanned y = (zone_spanned_pages_in_node (zs, ze) S E).1) by (unfold y, zone_extent; by rewrite Hp).
  assert (ex_spanned y <> 0) by (rewrite Ey; lia).
  assert (Es : ex_start y = (zone_spanned_pages_in_node (zs, ze) S E).2).
  { unfold y, zone_extent in *. rewrite Hp in *. cbn [ex_start ex_spanned] in *. by rewrite (proj2 (Z.eqb_neq _ _)). }
  exists (zone_of nid (0 + Z.of_nat i), ex_start y, ex_spanned y). split; [|split; [|done]].
  - unfold node_spans. rewrite Hx. apply elem_of_core_spans. exists i, y. split; [|done].
    unfold calculate_node_totalpages. change (map ?f bounds) with (f <$> bounds). by rewrite list_lookup_fmap, Hi.
  - unfold in_span. simpl. rewrite Es, Ey. rewrite andb_true_iff, Z.leb_le, Z.ltb_lt. lia.
Qed.

(** The extent of a node does not end within a region. *)
Lemma extent_uniform nid S E r q q' : get_pfn_range_for_nid m nid = (S, E) -> r ∈ regions (memory m) ->
  frame_of r q -> frame_of r q' -> S <= q < E -> S <= q' < E.
Proof.
  intros Hx Hr Hq Hq' Hin. destruct (node_extent m Hm nid S E Hx) as [(_ & -> & ->)|(_ & (x & Hx1 & Es) & (y & Hy & Ee))]; [lia|].
  destruct x as [[s1 e1] n1]. destruct y as [[s2 e2] n2]. simpl in *. subst s1 e2.
  apply elem_of_pfn_ranges in Hx1 as (r1 & Hr1 & Es1 & Ee1 & _ & Hl1 & _). apply elem_of_pfn_ranges in Hy as (r2 & Hr2 & Es2 & Ee2 & _ & Hl2 & _).
  assert (F1 : frame_of r1 S) by (apply (frame_bounds m Hm r1 S Hr1); lia).
  assert (F2 : frame_of r2 (E - 1)) by (apply (frame_bounds m Hm r2 (E - 1) Hr2); lia).
  assert (Hc : forall t x, frame_of t x -> covers t (x * PAGE_SIZE)) by (unfold frame_of, covers; change PAGE_SIZE with 4096; lia).
  pose proof (frame_bounds m Hm r q Hr) as B1. pose proof (frame_bounds m Hm r q' Hr) as B2.
  apply B1 in Hq. apply B2 in Hq'. split.
  - destruct (Z_le_gt_dec S q') as [?|Hgt]; [done|]. assert (r = r1) as ->; [|lia].
    apply (region_unique m Hm r r1 (S * PAGE_SIZE)); [done|done| |by apply Hc]. apply Hc, (frame_bounds m Hm r S Hr). lia.
  - destruct (Z_lt_ge_dec q' E) as [?|Hge]; [done|]. assert (r = r2) as ->; [|lia].
    apply (region_unique m Hm r r2 ((E - 1) * PAGE_SIZE)); [done|done| |by apply Hc]. apply Hc, (frame_bounds m Hm r (E - 1) Hr). lia.
Qed.
End spans.

(** ** Managed zones *)

(** A zone without a span has no page to manage. *)
Definition extent_ok (x : extent) : Prop := ex_spanned x = 0 -> ex_present x = 0.

Definition managed_ok (s : boot) : Prop :=
  forall z, managed_zone (bo_managed s) z = true -> is_Some (zones (bo_buddy s) !! z).

Lemma absent_empty m nid a : __absent_pages_in_range m nid a a = 0.
Proof.
  assert (Hc : forall v, clamp v a a = a) by (unfold clamp; lia).
  unfold __absent_pages_in_range. rewrite Z.sub_diag. change (wrap 0) with 0. induction (for_each_mem_pfn_range m nid) as [|x l IH]; [done|]. cbn [fold_left].
  by rewrite !Hc, Z.sub_diag.
Qed.

Lemma zone_extent_ok m nid S E bounds :
  bounds.1 <= bounds.2 -> S <= E -> 0 <= bounds.1 -> bounds.2 <= 2 ^ 34 -> 0 <= S -> E <= 2 ^ 34 -> extent_ok (zone_extent m nid S E bounds).
Proof.
  destruct bounds as [zs ze]. simpl. intros. unfold extent_ok, zone_extent, zone_spanned_pages_in_node, zone_absent_pages_in_node.
  assert (Hc : (if (ze <? S) || (E <? zs) then 0 else Z.min ze E - Z.max zs S) = 0 -> clamp E zs ze = clamp S zs ze).
  { unfold clamp. destruct ((ze <? S) || (E <? zs)) eqn:C; [rewrite orb_true_iff, !Z.ltb_lt in C|]; lia. }
  destruct ((ze <? S) || (E <? zs)) eqn:C; cbn [ex_spanned ex_present fst snd].
  - intros _. rewrite Hc by done. by rewrite absent_empty.
  - rewrite orb_false_iff, !Z.ltb_ge in C. rewrite wrap_small by (unfold is_u64, ULONG_MOD; lia). intros Hs. rewrite Hc, Hs by done. by rewrite absent_empty.
Qed.

Lemma init_zone_managed nid type x s : extent_ok x -> managed_ok s -> managed_ok (init_zone nid type x s).
Proof.
  intros Hx Hs z. unfold init_zone, managed_zone. cbn [bo_managed bo_buddy]. rewrite lookup_insert. destruct (Z.eqb_spec (ex_spanned x) 0) as [E|E].
  - destruct (decide (zone_of nid type = z)); [|apply Hs]. unfold zone_freesize. rewrite E, (Hx E). by rewrite andb_false_r.
  - cbn [zones]. rewrite lookup_insert. destruct (decide (zone_of nid type = z)); [done|apply Hs].
Qed.

Lemma free_area_init_core_managed nid type l s : Forall extent_ok l -> managed_ok s -> managed_ok (free_area_init_core nid type l s).
Proof.
  intros Hl. revert type s. induction Hl as [|x l Hx _ IH]; intros type s Hs; [done|]. cbn [free_area_init_core]. by apply IH, init_zone_managed.
Qed.

Lemma init_nodes_managed m bounds online s : boot_memory m ->
  (forall i zs ze, bounds !! i = Some (zs, ze) -> 0 <= zs <= ze /\ ze <= 2 ^ 34) -> managed_ok s -> managed_ok (init_nodes m bounds online s).1.
Proof.
  intros Hm Hb. revert s. induction online as [|nid online IH]; intros s Hs; [done|]. cbn [init_nodes]. unfold free_area_init_node.
  destruct (get_pfn_range_for_nid m nid) as [S E] eqn:Ex. destruct (extent_limit m Hm nid S E Ex).
  set (s1 := free_area_init_core nid 0 _ s). assert (H1 : managed_ok s1).
  { apply free_area_init_core_managed; [|done]. apply list.Forall_forall. intros x Hx. unfold calculate_node_totalpages in Hx.
    apply list_elem_of_fmap in Hx as ([zs ze] & -> & [i Hi]%list_elem_of_lookup). destruct (Hb i zs ze Hi). apply zone_extent_ok; simpl; lia. }
  specialize (IH s1 H1). by destruct (init_nodes m bounds online s1).
Qed.

(** ** The machine *)

(** Every frame of memory is on a node that is online and below [max_pfn]; node 0 has
    memory that ISA devices reach. *)
Record boot_layout (m : memblock) (online : list Z) (max_pfn : Z) : Prop := BootLayout {
  bl_online r q : r ∈ regions (memory m) -> frame_of r q -> rg_nid r ∈ online;
  bl_max r q : r ∈ regions (memory m) -> frame_of r q -> q < max_pfn;
  bl_pfn : max_pfn <= 2 ^ 34;
  bl_dma : exists r q, r ∈ regions (memory m) /\ rg_nid r = 0 /\ frame_of r q /\ q < MAX_DMA_PFN
}.

(** The type of the zone of a frame *)
Definition zone_type (q : Z) : Z := if q <? MAX_DMA_PFN then ZONE_DMA else if q <? MAX_DMA32_PFN then ZONE_DMA32 else ZONE_NORMAL.

Section layout.
Context (m : memblock) (online : list Z) (max_pfn : Z) (Hm : boot_memory m) (Hl : boot_layout m online max_pfn).
Let min_pfn := find_min_pfn_with_active_regions m.
Let bounds := zone_bounds min_pfn [Z.min MAX_DMA_PFN max_pfn; Z.min MAX_DMA32_PFN max_pfn; max_pfn; 0].
Let spans := flat_map (node_spans m bounds) online.

Lemma min_pfn_spec : 0 <= min_pfn < max_pfn /\ forall r q, r ∈ regions (memory m) -> frame_of r q -> min_pfn <= q.
Proof.
  unfold min_pfn, find_min_pfn_with_active_regions, find_min_pfn_for_node. fold (first_start (for_each_mem_pfn_range m MAX_NUMNODES) ULLONG_MAX).
  set (l := for_each_mem_pfn_range m MAX_NUMNODES). destruct (first_start_spec l ULLONG_MAX) as (F1 & F2 & F3).
  destruct (bl_dma _ _ _ Hl) as (r0 & q0 & Hr0 & _ & Hq0 & _). pose proof (bl_max _ _ _ Hl r0 q0 Hr0 Hq0). pose proof (bl_pfn _ _ _ Hl).
  assert (Hle : forall r q, r ∈ regions (memory m) -> frame_of r q -> first_start l ULLONG_MAX <= q).
  { intros r q Hr Hq. destruct (frame_range m Hm r q Hr Hq) as [_ Hin]. apply F2 in Hin. simpl in Hin. apply (frame_bounds m Hm r q Hr) in Hq. lia. }
  pose proof (Hle r0 q0 Hr0 Hq0). assert (ULLONG_MAX = 2 ^ 64 - 1) by done. rewrite (proj2 (Z.eqb_neq _ _)) by lia.
  split; [|done]. split; [|lia]. destruct F3 as [F3|(x & Hx & ->)]; [lia|]. by destruct (range_limit m Hm _ x Hx).
Qed.

Lemma zone_bound i zs ze : bounds !! i = Some (zs, ze) ->
  0 <= zs <= ze /\ ze <= 2 ^ 34 /\
  (forall q, min_pfn <= q < max_pfn -> zs <= q < ze <-> zone_type q = Z.of_nat i) /\
  (forall q q', min_pfn <= q < max_pfn -> min_pfn <= q' < max_pfn -> q / 1024 = q' / 1024 -> zs <= q < ze -> zs <= q' < ze).
Proof.
  destruct min_pfn_spec as [Hmin _]. pose proof (bl_pfn _ _ _ Hl). unfold bounds, zone_type.
  change MAX_DMA_PFN with 4096. change MAX_DMA32_PFN with 1048576. cbn [zone_bounds]. intros Hi.
  assert (Hq : forall q, q = 1024 * (q / 1024) + q mod 1024 /\ 0 <= q mod 1024 < 1024)
    by (intros q; split; [apply Z.div_mod; lia|apply Z.mod_pos_bound; lia]).
  do 4 (destruct i as [|i]; [simpl in Hi; injection Hi as <- <-; change ZONE_DMA with 0; change ZONE_DMA32 with 1; change ZONE_NORMAL with 2;
    split; [lia|]; split; [lia|]; split; [intros q Hr; repeat case_bool_decide; destruct (Z.ltb_spec q 4096), (Z.ltb_spec q 1048576); lia|];
    intros q q' H1 H2 He; destruct (Hq q), (Hq q'); rewrite He in *; lia|]).
  done.
Qed.

Lemma zone_bound_type q : min_pfn <= q < max_pfn -> exists i zs ze, bounds !! i = Some (zs, ze) /\ Z.of_nat i = zone_type q.
Proof.
  intros Hq. assert (Hi : exists i, Z.of_nat i = zone_type q /\ (i < 3)%nat).
  { unfold zone_type. destruct (q <? MAX_DMA_PFN); [by exists 0%nat; split; [|lia]|].
    destruct (q <? MAX_DMA32_PFN); [by exists 1%nat; split; [|lia]|by exists 2%nat; split; [|lia]]. }
  destruct Hi as (i & Ei & Hi). exists i. destruct i as [|[|[|i]]]; [..|lia]; eexists _, _; split; done.
Qed.

Lemma bounds_limit i zs ze : bounds !! i = Some (zs, ze) -> 0 <= zs <= ze /\ ze <= 2 ^ 34.
Proof. intros Hi. by destruct (zone_bound i zs ze Hi) as (? & ? & _). Qed.

Lemma frame_in r q : r ∈ regions (memory m) -> frame_of r q -> min_pfn <= q < max_pfn.
Proof. intros Hr Hq. split; [by eapply min_pfn_spec|by eapply (bl_max _ _ _ Hl)]. Qed.

Lemma elem_of_spans x : x ∈ spans <-> exists nid, nid ∈ online /\ x ∈ node_spans m bounds nid.
Proof. unfold spans. rewrite list_elem_of_In, in_flat_map. by setoid_rewrite <- list_elem_of_In. Qed.

(** A frame of memory is in the span of its node and its type. *)
Lemma frame_span r q : r ∈ regions (memory m) -> frame_of r q ->
  exists x, x ∈ spans /\ in_span x q = true /\ x.1.1 = zone_of (rg_nid r) (zone_type q).
Proof.
  intros Hr Hq. destruct (zone_bound_type q) as (i & zs & ze & Hi & Et); [by eapply frame_in|].
  destruct (zone_bound i zs ze Hi) as (_ & _ & Hz & _). destruct (get_pfn_range_for_nid m (rg_nid r)) as [S E] eqn:Ex.
  destruct (span_over m bounds Hm bounds_limit (rg_nid r) S E i zs ze q) as (x & Hx & Hs & Hzn); [done|done|apply Hz; [by eapply frame_in|done]| |].
  - destruct (frame_range m Hm r q Hr Hq) as [Hin _]. apply (frame_bounds m Hm r q Hr) in Hq.
    destruct (node_extent m Hm _ S E Ex) as [(En & _)|(H1 & _)]; [rewrite En in Hin; by apply elem_of_nil in Hin|].
    destruct (H1 _ Hin). simpl in *. lia.
  - exists x. rewrite Hzn, Et. split; [|done]. apply elem_of_spans. exists (rg_nid r). split; [by eapply (bl_online _ _ _ Hl)|done].
Qed.

(** A frame of memory is in a zone of its type, of a node whose extent has it. *)
Lemma frame_zone r q : r ∈ regions (memory m) -> frame_of r q ->
  covered spans q = true /\
  exists nid S E, nid ∈ online /\ get_pfn_range_for_nid m nid = (S, E) /\ S <= q < E /\ zone_at spans q = zone_of nid (zone_type q).
Proof.
  intros Hr Hq. destruct (frame_span r q Hr Hq) as (y & Hy & Hs & _).
  assert (Hc : covered spans q = true) by (apply existsb_exists; exists y; by rewrite <- list_elem_of_In).
  split; [done|]. destruct (zone_at_cases spans q) as [[Hn _]|(x & Hx & Hxs & ->)]; [congruence|].
  apply elem_of_spans in Hx as (nid & Hn & Hx). destruct (get_pfn_range_for_nid m nid) as [S E] eqn:Ex.
  destruct (node_span m bounds Hm bounds_limit nid S E x Ex Hx) as (i & zs & ze & Hi & -> & Hin). destruct (proj1 (Hin q) Hxs) as [H1 H2].
  exists nid, S, E. split; [done|]. split; [done|]. split; [done|]. f_equal. symmetry.
  destruct (zone_bound i zs ze Hi) as (_ & _ & Hz & _). apply Hz; [by eapply frame_in|done].
Qed.

Lemma zone_uniform r q q' : r ∈ regions (memory m) -> frame_of r q -> frame_of r q' -> q / 1024 = q' / 1024 -> zone_at spans q = zone_at spans q'.
Proof.
  intros Hr Hq Hq' Hb. apply zone_at_ext. intros x (nid & Hn & Hx)%elem_of_spans. destruct (get_pfn_range_for_nid m nid) as [S E] eqn:Ex.
  destruct (node_span m bounds Hm bounds_limit nid S E x Ex Hx) as (i & zs & ze & Hi & _ & Hin).
  destruct (zone_bound i zs ze Hi) as (_ & _ & _ & Hz). pose proof (frame_in r q Hr Hq). pose proof (frame_in r q' Hr Hq').
  apply eq_true_iff_eq. rewrite !Hin. split; intros [H1 H2]; (split; [eapply Hz; [..|exact H1]; done|]).
  - exact (extent_uniform m Hm nid S E r q q' Ex Hr Hq Hq' H2).
  - exact (extent_uniform m Hm nid S E r q' q Ex Hr Hq' Hq H2).
Qed.

Context (data : Z -> list Z).
Let mm := sparse_mem_map data (sparse_memory_present_with_active_regions m MAX_NUMNODES).
Let b := bo_buddy (arch_zone_init m online max_pfn (boot_start mm)).1.

Lemma arch_initialised : initialised spans (boot_start mm) (arch_zone_init m online max_pfn (boot_start mm)).1.
Proof. apply init_nodes_ok. Qed.

Lemma arch_page q g : mem_map b !! q = Some g ->
  0 <= q /\ pg_flags g = 0 /\ pg_mapcount g = (if covered spans q then -1 else 0) /\ pg_zone g = zone_at spans q.
Proof.
  unfold b. rewrite (in_map _ _ _ arch_initialised), paint_lookup. cbn [boot_start bo_buddy mem_map]. unfold mm.
  rewrite sparse_mem_map_lookup. case_bool_decide as Hp; [|done]. intros [= <-].
  destruct (painted_spec spans q (Page 0 0 0 0 0 (data q))) as (-> & -> & ->). split; [|done].
  apply (elem_of_present m Hm) in Hp as (x & Hx & Hlo & _). destruct (range_limit m Hm _ x Hx) as (Hx0 & _ & _). rewrite section_nr in Hlo.
  change PAGES_PER_SECTION with 32768 in Hlo. pose proof (Z.div_pos _ 32768 Hx0 ltac:(lia)). pose proof (Z.div_mod q 32768 ltac:(lia)). pose proof (Z.mod_pos_bound q 32768 ltac:(lia)). lia.
Qed.

Lemma arch_page_exists q : is_Some (mem_map b !! q) <-> pfn_to_section_nr q ∈ sparse_memory_present_with_active_regions m MAX_NUMNODES.
Proof.
  unfold b. rewrite (in_map _ _ _ arch_initialised), paint_lookup. cbn [boot_start bo_buddy mem_map]. unfold mm.
  rewrite sparse_mem_map_lookup, fmap_is_Some. case_bool_decide as Hp; [done|]. split; [by intros [? ?]|done].
Qed.

Lemma frame_page r q : r ∈ regions (memory m) -> frame_of r q -> is_Some (mem_map b !! q).
Proof.
  intros Hr Hq. apply arch_page_exists, (elem_of_present m Hm). destruct (frame_range m Hm r q Hr Hq) as [_ Hin]. eexists. split; [exact Hin|].
  apply (frame_bounds m Hm r q Hr) in Hq. simpl. rewrite section_nr. change PAGES_PER_SECTION with 32768. split; apply Z.div_le_mono; lia.
Qed.

Lemma arch_zone z zn : zones b !! z = Some zn -> free_areas zn = replicate MAX_ORDER empty_area /\ zone_free_pages zn = 0.
Proof. apply (in_idle _ _ _ arch_initialised). intros z' zn'. simpl. by rewrite lookup_empty. Qed.

Lemma arch_idle : idle b.
Proof.
  split; [split| |].
  - intros p g Hg. apply arch_page in Hg as (_ & _ & _ & ->). unfold b. apply (in_zones _ _ _ arch_initialised). right.
    destruct (zone_at_cases spans p) as [[_ ->]|(x & Hx & _ & ->)]; [|by exists x].
    destruct (bl_dma _ _ _ Hl) as (r & q & Hr & Hn & Hq & Hd). destruct (frame_span r q Hr Hq) as (x & Hx & _ & Ez). exists x. split; [done|].
    rewrite Ez, Hn. unfold zone_type. by rewrite (proj2 (Z.ltb_lt _ _) Hd).
  - intros p g Hg. by apply arch_page in Hg as [? _].
  - intros p q. rewrite !arch_page_exists, !section_nr. change (blk (MAX_ORDER - 1)) with 1024. change PAGES_PER_SECTION with (1024 * 32).
    intros Hp E. rewrite <- !Z.div_div, <- E, Z.div_div by lia. done.
  - intros z zn Hz. by destruct (arch_zone z zn Hz) as [-> _].
  - apply arch_zone.
  - intros p g Hg. apply arch_page in Hg as (_ & _ & Hc & _). unfold PageBuddy. rewrite Hc. by destruct (covered spans p).
Qed.

Lemma arch_managed : managed_ok (arch_zone_init m online max_pfn (boot_start mm)).1.
Proof. apply init_nodes_managed; [done|apply bounds_limit|]. intros z. unfold managed_zone. simpl. by rewrite lookup_empty. Qed.

Lemma usable_frame q : usable m q -> exists r, r ∈ regions (memory m) /\ frame_of r q.
Proof.
  intros Hq. apply (usable_pages m Hm) in Hq. apply elem_of_pages_of in Hq as (x & Hx & Hq).
  destruct (range_region m Hm x q q Hx Hq Hq) as (r & ? & ? & _). by exists r.
Qed.

Lemma arch_ready : boot_ready m b (zone_at spans).
Proof.
  split.
  - apply idle_ok, arch_idle.
  - intros q. apply idle_not_free, arch_idle.
  - intros q (r & Hr & Hq)%usable_frame. split; [|apply idle_not_free, arch_idle].
    destruct (frame_page r q Hr Hq) as [g Hg]. exists g. split; [done|]. apply arch_page in Hg as (_ & Hf & Hc & Hz).
    destruct (frame_zone r q Hr Hq) as [Hcov _]. rewrite Hcov in Hc. rewrite Hf. done.
  - apply zone_uniform.
Qed.
End layout.
