(* ===== verification/ZoneLists.v ===== *)
(** * Zones, their pages and the zonelists: the order of the zones

    The loop that orders the nodes ends, and takes them by preference: the node itself,
    then the nearest, lower numbers and nodes with CPUs counting as one farther.  The list
    of a node has every managed zone of the node and of the nodes with memory once, by
    preference of the node and then from the highest type down, or the other way round. *)

From Stdlib Require Import Sorted.
From stdpp Require Import gmap.
From S2P Require Import Prelude BuddyModel MemblockModel MemblockAlloc ZoneModel.

Section zonelists.
Context (node_distance : Z -> Z -> Z) (has_cpus : Z -> bool).
Context (managed : gmap Z Z) (online normal : list Z).
Context (Hdist : forall a b, 0 <= node_distance a b <= 255) (Hcount : (length online <= 64)%nat).
Context (Hnormal : forall n, n ∈ normal -> 0 <= n) (Honline : forall n, n ∈ normal -> n ∈ online).

Abbreviation next := (find_next_best_node node_distance has_cpus online normal).
Abbreviation order := (node_order node_distance has_cpus online normal).

(** How far a node is for [nid] *)
Definition preference (nid n : Z) : Z :=
  if n =? nid then -1
  else node_distance nid n + (if n <? nid then 1 else 0) + (if has_cpus n then PENALTY_FOR_NODE_WITH_CPUS else 0).

Definition nearer (nid a b : Z) : Prop := preference nid a <= preference nid b.

(** The loads that the order uses are at most the number of nodes. *)
Definition loads_ok (load : gmap Z Z) : Prop := forall n v, load !! n = Some v -> 0 <= v <= MAX_NODE_LOAD online.

Lemma node_value_small load node n : loads_ok load -> node_value node_distance has_cpus online load node n < INT_MAX.
Proof.
  intros Hl. unfold node_value. assert (Hv : default 0 (load !! n) <= 64).
  { destruct (load !! n) as [v|] eqn:E; simpl; [|lia]. apply Hl in E. unfold MAX_NODE_LOAD in E. lia. }
  specialize (Hdist node n). assert (0 <= MAX_NODE_LOAD online <= 64) by (unfold MAX_NODE_LOAD; lia).
  change MAX_NUMNODES with 64. unfold PENALTY_FOR_NODE_WITH_CPUS, INT_MAX.
  destruct (n <? node), (has_cpus n); nia.
Qed.

(** The load decides only between nodes that are equally far. *)
Lemma value_nearer load node a b :
  loads_ok load -> 0 < MAX_NODE_LOAD online -> a <> node -> b <> node ->
  node_value node_distance has_cpus online load node a <= node_value node_distance has_cpus online load node b -> nearer node a b.
Proof.
  intros Hl Hpos Ha Hb. assert (Hv : forall n, 0 <= default 0 (load !! n) <= MAX_NODE_LOAD online).
  { intros n. destruct (load !! n) as [v|] eqn:E; simpl; [by apply (Hl n)|lia]. }
  unfold nearer, preference, node_value. rewrite (proj2 (Z.eqb_neq a node) Ha), (proj2 (Z.eqb_neq b node) Hb).
  pose proof (Hv a). pose proof (Hv b). change MAX_NUMNODES with 64. nia.
Qed.

(** The scan keeps the least value, of a node not used. *)
Lemma scan_least load node used l :
  let f := best_of node_distance has_cpus online load node used in
  forall acc, let r := fold_left f l acc in
  r.1 <= acc.1 /\ (r = acc \/ (r.2 ∈ l) /\ (r.2 ∉ used) /\ r.1 = node_value node_distance has_cpus online load node r.2) /\
  forall n, n ∈ l -> n ∉ used -> r.1 <= node_value node_distance has_cpus online load node n.
Proof.
  intros f. induction l as [|x l IH]; intros acc; cbn [fold_left].
  { split; [done|]. split; [by left|]. by intros n ?%elem_of_nil. }
  destruct (IH (f acc x)) as (H1 & H2 & H3).
  assert (Hs : f acc x = acc /\ (x ∈ used \/ acc.1 <= node_value node_distance has_cpus online load node x) \/
    f acc x = (node_value node_distance has_cpus online load node x, x) /\ (x ∉ used) /\ node_value node_distance has_cpus online load node x < acc.1).
  { unfold f, best_of. case_bool_decide; [by left; auto|]. destruct (Z.ltb_spec (node_value node_distance has_cpus online load node x) acc.1); auto. }
  cbv zeta in *. split; [|split].
  - destruct Hs as [[E _]|(E & _ & Hlt)]; rewrite E in H1 |- *; simpl in *; lia.
  - destruct H2 as [E|(A & B)]; [|right; split; [by right|done]]. rewrite E. destruct Hs as [[-> _]|(-> & Hu & _)]; [by left|].
    right. split; [left|done].
  - intros n [->|Hn]%elem_of_cons Hnu; [|auto]. destruct Hs as [[E [?|?]]|(E & _)]; rewrite E in H1 |- *; simpl in *; [done|lia|lia].
Qed.

(** The node is the argument, then the nearest node with memory that was not used, if
    there is one. *)
Lemma find_next_spec load node used : loads_ok load -> 0 <= node ->
  (next load node used = -1 /\ node ∈ used /\ forall n, n ∈ normal -> n ∈ used) \/
  (0 <= next load node used /\ (next load node used ∉ used) /\
   (next load node used = node \/
    node ∈ used /\ next load node used ∈ normal /\ forall n, n ∈ normal -> n ∉ used -> nearer node (next load node used) n)).
Proof.
  intros Hl Hn. unfold find_next_best_node. case_bool_decide as Hu; cbn [negb]; [|right; auto].
  destruct (scan_least load node used normal (INT_MAX, NUMA_NO_NODE)) as (_ & Hr & Hmin). cbv zeta in *.
  set (r := fold_left _ normal _) in *. destruct Hr as [E|(Hin & Hnu & Ev)].
  - left. rewrite E in *. split; [done|]. split; [done|]. intros n Hn'. destruct (decide (n ∈ used)) as [|Hnu]; [done|].
    pose proof (Hmin n Hn' Hnu). pose proof (node_value_small load node n Hl). simpl in *. lia.
  - right. split; [by apply Hnormal|]. split; [done|]. right. split; [done|]. split; [done|]. intros n Hn' Hnu'.
    apply (value_nearer load); [done| |intros E; by rewrite E in Hnu|by intros ->|rewrite <- Ev; by apply Hmin].
    apply Honline in Hn'. unfold MAX_NODE_LOAD. destruct online; [by apply elem_of_nil in Hn'|simpl; lia].
Qed.

(** What is left to use *)
Definition nodes_left (local : Z) (used : list Z) : nat :=
  length (filter (fun n => n ∉ used) normal) + (if bool_decide (local ∈ used) then 0 else 1).

Lemma unused_less local used n : n ∉ used -> n = local \/ n ∈ normal -> (nodes_left local (n :: used) < nodes_left local used)%nat.
Proof.
  intros Hn Hor. unfold nodes_left.
  assert (Hle : forall l, (length (filter (fun x => x ∉ n :: used) l) <= length (filter (fun x => x ∉ used) l))%nat /\
    (n ∈ l -> (length (filter (fun x => x ∉ n :: used) l) < length (filter (fun x => x ∉ used) l))%nat)).
  { induction l as [|x l [IH1 IH2]]; [split; [done|by intros ?%elem_of_nil]|]. rewrite !filter_cons.
    destruct (decide (x ∉ n :: used)) as [H1|H1], (decide (x ∉ used)) as [H2|H2]; simpl.
    - split; [lia|]. intros [->|?]%elem_of_cons; [|specialize (IH2 H); lia]. destruct H1. left.
    - destruct H2. intros ?. apply H1. by right.
    - split; [lia|]. lia.
    - split; [done|]. intros [->|?]%elem_of_cons; [by destruct H2|auto]. }
  destruct (Hle normal) as [H1 H2]. destruct Hor as [->|Hin].
  - rewrite (bool_decide_eq_true_2 (local ∈ local :: used)) by left. rewrite (bool_decide_eq_false_2 (local ∈ used)) by done. lia.
  - specialize (H2 Hin). case_bool_decide as B1; [lia|]. rewrite (bool_decide_eq_false_2 (local ∈ used)); [lia|].
    intros Hu. apply B1. by right.
Qed.

(** The nodes used so far *)
Record used_ok (local load : Z) (used : list Z) : Prop := UsedOk {
  us_nodup : NoDup used;
  us_online : forall n, n ∈ used -> n ∈ online;
  us_load : load = Z.of_nat (length online) - Z.of_nat (length used)
}.

Lemma used_next local load used n : used_ok local load used -> n ∉ used -> n ∈ online ->
  used_ok local (load - 1) (n :: used) /\ 0 <= load <= MAX_NODE_LOAD online.
Proof.
  intros [U1 U2 U3] Hn Ho. assert (Hd : NoDup (n :: used)) by by constructor.
  assert (Hs : forall x, x ∈ n :: used -> x ∈ online) by (intros x [->|?]%elem_of_cons; auto).
  pose proof (submseteq_length _ _ (NoDup_submseteq _ online Hd Hs)) as Hlen. cbn [length] in Hlen.
  split; [split; [done|done|cbn [length]; lia]|]. unfold MAX_NODE_LOAD. lia.
Qed.

Lemma node_order_ok n local prev load used loads :
  loads_ok loads -> used_ok local load used -> 0 <= local -> local ∈ online -> (nodes_left local used <= n)%nat ->
  exists nodes loads', order n local prev load used loads = Some (nodes, loads') /\ loads_ok loads' /\ NoDup nodes /\
    (forall x, x ∈ nodes <-> (x ∉ used) /\ (x = local \/ x ∈ normal)) /\ StronglySorted (nearer local) nodes.
Proof.
  revert prev load used loads. induction n as [|n IH]; intros prev load used loads Hl Hus Hlo Hon Hf; cbn [node_order];
    destruct (find_next_spec loads local used Hl Hlo) as [(-> & Hu & Hall)|(H0 & Hnu & Hor)].
  1, 3: exists [], loads; split; [done|]; split; [done|]; split; [apply NoDup_nil_2|]; split; [|constructor]; intros x; split;
    [by intros ?%elem_of_nil|intros [Hx [->|?]]; [done|destruct Hx; by apply Hall]].
  - pose proof (unused_less local used _ Hnu) as Hlt. destruct Hor as [E|(_ & E & _)]; [specialize (Hlt (or_introl E))|specialize (Hlt (or_intror E))]; lia.
  - rewrite (proj2 (Z.ltb_ge _ _)) by done. set (node := next loads local used) in *.
    assert (Hor' : node = local \/ node ∈ normal) by naive_solver.
    pose proof (unused_less local used node Hnu Hor') as Hlt.
    destruct (used_next local load used node Hus Hnu) as [Hus' Hload]; [destruct Hor' as [->|?]; auto|].
    destruct (IH node (load - 1) (node :: used) (if negb (node_distance local node =? node_distance local prev) then <[node := load]> loads else loads))
      as (nodes & loads' & -> & Hl' & Hnd & Hin & Hsort); [|done|done|done|lia|].
    { destruct (negb _); [|done]. intros k v. rewrite lookup_insert. case_decide; [by intros [= <-]|apply Hl]. }
    cbn [mbind option_bind]. exists (node :: nodes), loads'. split; [done|]. split; [done|]. split; [|split].
    + constructor; [|done]. rewrite Hin. intros [H _]. apply H. left.
    + intros x. rewrite elem_of_cons, Hin, elem_of_cons. split.
      * intros [->|[H1 H2]]; [done|]. split; [|done]. intros H. apply H1. by right.
      * intros [H1 H2]. destruct (decide (x = node)); [by left|right]. naive_solver.
    + constructor; [done|]. apply List.Forall_forall. intros x Hx%list_elem_of_In. apply Hin in Hx as [Hx Hx'].
      destruct Hor as [->|(Hlu & _ & Hmin)].
      * unfold nearer, preference. rewrite Z.eqb_refl. pose proof (Hdist local x). unfold PENALTY_FOR_NODE_WITH_CPUS.
        destruct (x =? local), (x <? local), (has_cpus x); lia.
      * destruct Hx' as [->|Hx']; [destruct Hx; by right|]. apply Hmin; [done|]. intros ?. apply Hx. by right.
Qed.

(** ** The lists *)

Definition types : list Z := [ZONE_MOVABLE; ZONE_NORMAL; ZONE_DMA32; ZONE_DMA].

Lemma elem_of_types t : t ∈ types <-> 0 <= t < MAX_NR_ZONES.
Proof. unfold types. rewrite !elem_of_cons, elem_of_nil. change MAX_NR_ZONES with 4. unfold ZONE_MOVABLE, ZONE_NORMAL, ZONE_DMA32, ZONE_DMA. lia. Qed.

Lemma types_nodup : NoDup types.
Proof. by apply (bool_decide_unpack _). Qed.

Lemma zone_of_inj n t n' t' : 0 <= t < MAX_NR_ZONES -> 0 <= t' < MAX_NR_ZONES -> zone_of n t = zone_of n' t' -> n = n' /\ t = t'.
Proof. unfold zone_of. change MAX_NR_ZONES with 4. lia. Qed.

Lemma flat_map_bind {A B} (f : A -> list B) l : flat_map f l = l ≫= f.
Proof. induction l as [|x l IH]; [done|]. cbn. by rewrite IH. Qed.

(** A zone of a list, with its type *)
Definition listed (nodes : list Z) (zr : zoneref) : Prop :=
  exists n t, n ∈ nodes /\ 0 <= t < MAX_NR_ZONES /\ managed_zone managed (zone_of n t) = true /\ zr = Zoneref (zone_of n t) t.

Lemma elem_of_node_zones n zr : zr ∈ build_zonelists_node managed n <-> listed [n] zr.
Proof.
  unfold build_zonelists_node, listed. fold types. rewrite list_elem_of_In, in_map_iff. split.
  - intros (t & <- & Hin%list_elem_of_In). apply list_elem_of_filter in Hin as [Hm Ht]. exists n, t.
    split; [left|]. split; [by apply elem_of_types|]. split; [|done]. by destruct (managed_zone _ _).
  - intros (n' & t & ->%list_elem_of_singleton & Ht & Hm & ->). exists t. split; [done|]. apply list_elem_of_In, list_elem_of_filter.
    split; [by rewrite Hm|by apply elem_of_types].
Qed.

Lemma node_zones_nodup n : NoDup (build_zonelists_node managed n).
Proof.
  unfold build_zonelists_node. fold types. change (map ?f ?l) with (f <$> l).
  apply NoDup_fmap_2_strong; [by intros t t' _ _ [= _ ->]|]. apply list.NoDup_filter, types_nodup.
Qed.

Lemma node_order_zones nodes : NoDup nodes ->
  (forall zr, zr ∈ build_zonelists_in_node_order managed nodes <-> listed nodes zr) /\ NoDup (build_zonelists_in_node_order managed nodes).
Proof.
  intros Hnd. unfold build_zonelists_in_node_order. rewrite flat_map_bind. split.
  - intros zr. rewrite list_elem_of_bind. setoid_rewrite elem_of_node_zones. split.
    + intros (n & (n' & t & ->%list_elem_of_singleton & H) & Hn). by exists n, t.
    + intros (n & t & Hn & H). exists n. split; [|done]. exists n, t. split; [left|done].
  - apply NoDup_bind; [|by intros; apply node_zones_nodup|done].
    intros n n' zr _ _ (? & t & ->%list_elem_of_singleton & Ht & _ & ->)%elem_of_node_zones (? & t' & ->%list_elem_of_singleton & Ht' & _ & E)%elem_of_node_zones.
    injection E as E _. by destruct (zone_of_inj n t n' t' Ht Ht' E).
Qed.

Lemma zone_order_zones nodes : NoDup nodes ->
  (forall zr, zr ∈ build_zonelists_in_zone_order managed nodes <-> listed nodes zr) /\ NoDup (build_zonelists_in_zone_order managed nodes).
Proof.
  intros Hnd. unfold build_zonelists_in_zone_order. fold types. rewrite flat_map_bind.
  assert (Hin : forall t zr, zr ∈ map (fun nid => Zoneref (zone_of nid t) t) (filter (fun nid => managed_zone managed (zone_of nid t)) nodes) <->
    exists n, n ∈ nodes /\ managed_zone managed (zone_of n t) = true /\ zr = Zoneref (zone_of n t) t).
  { intros t zr. rewrite list_elem_of_In, in_map_iff. split.
    - intros (n & <- & Hn%list_elem_of_In). apply list_elem_of_filter in Hn as [Hm Hn]. exists n. split; [done|]. split; [|done]. by destruct (managed_zone _ _).
    - intros (n & Hn & Hm & ->). exists n. split; [done|]. apply list_elem_of_In, list_elem_of_filter. split; [by rewrite Hm|done]. }
  split.
  - intros zr. rewrite list_elem_of_bind. setoid_rewrite Hin. setoid_rewrite elem_of_types. unfold listed. naive_solver.
  - apply NoDup_bind.
    + intros t t' zr _ _ (n & _ & _ & ->)%Hin (n' & _ & _ & E)%Hin. by injection E as _ E.
    + intros t Ht%elem_of_types. change (map ?f ?l) with (f <$> l). apply NoDup_fmap_2_strong; [|by apply list.NoDup_filter].
      intros n n' _ _ E. injection E as E. by destruct (zone_of_inj n t n' t Ht Ht E).
    + apply types_nodup.
Qed.

(** Zones from the highest type down *)
Definition descending : list zoneref -> Prop := StronglySorted (fun a b => zr_idx b <= zr_idx a).

(** The orders that [zonelist_order] documents: by the distance of the node and then by
    the type downwards, or by the type downwards and then by the distance *)
Definition node_of (zr : zoneref) : Z := zr_zone zr / MAX_NR_ZONES.

Definition by_node (nid : Z) : list zoneref -> Prop :=
  StronglySorted (fun a b => nearer nid (node_of a) (node_of b) /\ (node_of a = node_of b -> zr_idx b <= zr_idx a)).

Definition by_zone (nid : Z) : list zoneref -> Prop :=
  StronglySorted (fun a b => zr_idx b <= zr_idx a /\ (zr_idx a = zr_idx b -> nearer nid (node_of a) (node_of b))).

Lemma node_of_zone n t : 0 <= t < MAX_NR_ZONES -> node_of (Zoneref (zone_of n t) t) = n.
Proof. intros Ht. unfold node_of, zone_of. simpl. symmetry. apply (Z.div_unique _ _ _ t); [by left|lia]. Qed.

Lemma listed_node n zr : listed [n] zr -> node_of zr = n.
Proof. intros (n' & t & ->%list_elem_of_singleton & Ht & _ & ->). by apply node_of_zone. Qed.

Lemma node_zones_descending n : descending (build_zonelists_node managed n).
Proof.
  unfold build_zonelists_node, ZONE_MOVABLE, ZONE_NORMAL, ZONE_DMA32, ZONE_DMA. rewrite !filter_cons, filter_nil.
  repeat case_decide; cbn [map]; repeat constructor; done.
Qed.

Lemma sorted_impl {A} (R Q : A -> A -> Prop) l : (forall a b, a ∈ l -> b ∈ l -> R a b -> Q a b) -> StronglySorted R l -> StronglySorted Q l.
Proof.
  intros HRQ Hl. induction Hl as [|x l Hl IH Hx]; [constructor|]. constructor.
  - apply IH. intros a b Ha Hb. apply HRQ; by right.
  - apply List.Forall_forall. intros y Hy. rewrite List.Forall_forall in Hx. apply HRQ; [left|right; by apply list_elem_of_In|auto].
Qed.

Lemma sorted_apart {A} (R : A -> A -> Prop) l : NoDup l -> StronglySorted R l -> StronglySorted (fun a b => R a b /\ a <> b) l.
Proof.
  intros Hd Hl. induction Hl as [|x l Hl IH Hx]; [constructor|]. apply list.NoDup_cons in Hd as [Hn Hd]. constructor; [auto|].
  apply List.Forall_forall. intros y Hy. rewrite List.Forall_forall in Hx. split; [auto|]. intros ->. by apply Hn, list_elem_of_In.
Qed.

Lemma node_order_sorted nid nodes : NoDup nodes -> StronglySorted (nearer nid) nodes -> by_node nid (build_zonelists_in_node_order managed nodes).
Proof.
  intros Hd Hs. apply (StronglySorted_flat_map _ (fun a b => nearer nid a b /\ a <> b)); [by apply sorted_apart|..].
  - intros n _. eapply sorted_impl; [|apply node_zones_descending]. intros a b Ha%elem_of_node_zones%listed_node Hb%elem_of_node_zones%listed_node Hle.
    rewrite Ha, Hb. split; [|done]. unfold nearer. lia.
  - intros n n' a b [Hn Hne] Ha%elem_of_node_zones%listed_node Hb%elem_of_node_zones%listed_node. rewrite Ha, Hb. by split.
Qed.

Lemma sorted_filter {A} (R : A -> A -> Prop) P `{!forall x : A, Decision (P x)} l : StronglySorted R l -> StronglySorted R (filter P l).
Proof.
  intros Hl. induction Hl as [|x l Hl IH Hx]; [constructor|]. rewrite filter_cons. case_decide; [|done]. constructor; [done|].
  apply List.Forall_forall. intros y Hy%list_elem_of_In%list_elem_of_filter. rewrite List.Forall_forall in Hx. apply Hx, list_elem_of_In, Hy.
Qed.

Lemma sorted_map {A B} (R : A -> A -> Prop) (Q : B -> B -> Prop) (f : A -> B) l :
  (forall a b, R a b -> Q (f a) (f b)) -> StronglySorted R l -> StronglySorted Q (map f l).
Proof.
  intros HRQ Hl. induction Hl as [|x l Hl IH Hx]; cbn [map]; [constructor|]. constructor; [done|]. apply List.Forall_map.
  eapply List.Forall_impl; [|exact Hx]. intros a. apply HRQ.
Qed.

Lemma zone_order_sorted nid nodes : StronglySorted (nearer nid) nodes -> by_zone nid (build_zonelists_in_zone_order managed nodes).
Proof.
  intros Hs. unfold build_zonelists_in_zone_order, by_zone. fold types. apply (StronglySorted_flat_map _ (fun t t' => t' < t)).
  - by repeat constructor.
  - intros t Ht%elem_of_types. apply (sorted_map (nearer nid)); [|by apply sorted_filter].
    intros a b Hab. rewrite !node_of_zone by done. by split.
  - intros t t' a b Hlt Ha Hb. apply list_elem_of_In, in_map_iff in Ha as (? & <- & _). apply list_elem_of_In, in_map_iff in Hb as (? & <- & _).
    simpl. split; lia.
Qed.

(** The lists of a node *)
Record zonelists_ok (order nid : Z) (l : list zoneref * list zoneref) : Prop := ZonelistsOk {
  zl_zones zr : zr ∈ l.1 <-> listed (nid :: normal) zr;
  zl_nodup : NoDup l.1;
  zl_local zr : zr ∈ l.2 <-> listed [nid] zr;
  zl_descending : descending l.2;
  zl_node_order : order = ZONELIST_ORDER_NODE -> exists rest, l.1 = l.2 ++ rest;
  zl_by_node : order = ZONELIST_ORDER_NODE -> by_node nid l.1;
  zl_by_zone : order = ZONELIST_ORDER_ZONE -> by_zone nid l.1
}.

Lemma listed_ext nodes nodes' zr : (forall n, n ∈ nodes <-> n ∈ nodes') -> listed nodes zr <-> listed nodes' zr.
Proof. intros H. unfold listed. by setoid_rewrite H. Qed.

Lemma build_zonelists_ok order nid loads :
  loads_ok loads -> 0 <= nid -> nid ∈ online -> order = ZONELIST_ORDER_NODE \/ order = ZONELIST_ORDER_ZONE ->
  exists fallback nofallback loads',
    build_zonelists node_distance has_cpus managed online normal order nid loads = Some (fallback, nofallback, loads') /\
    loads_ok loads' /\ zonelists_ok order nid (fallback, nofallback).
Proof.
  intros Hl Hn Hon Ho. unfold build_zonelists.
  destruct (node_order_ok (S (length normal)) nid nid (Z.of_nat (length online)) [] loads) as (nodes & loads' & -> & Hl' & Hnd & Hin & Hsort);
    [done|split; [apply NoDup_nil_2|by intros n ?%elem_of_nil|simpl; lia]|done|done| |].
  { unfold nodes_left. rewrite bool_decide_eq_false_2 by apply not_elem_of_nil. pose proof (length_filter (fun n => n ∉ []) normal). lia. }
  cbn [mbind option_bind]. do 3 eexists. split; [done|]. split; [done|].
  assert (Hx : forall n, n ∈ nodes <-> n ∈ nid :: normal).
  { intros n. rewrite Hin, elem_of_cons. split; [by intros [_ ?]|]. intros ?. split; [apply not_elem_of_nil|done]. }
  assert (Hcons : exists rest, nodes = nid :: rest).
  { assert (Hnid : nid ∈ nodes) by (apply Hx; left). destruct Hsort as [|x rest _ Hx']; [by apply elem_of_nil in Hnid|].
    exists rest. apply elem_of_cons in Hnid as [->|Hnid]; [done|]. exfalso. rewrite List.Forall_forall in Hx'.
    specialize (Hx' nid ltac:(by apply list_elem_of_In)). unfold nearer, preference in Hx'. rewrite Z.eqb_refl in Hx'.
    apply list.NoDup_cons in Hnd as [Hnd _]. destruct (Z.eqb_spec x nid) as [->|_]; [done|]. pose proof (Hdist nid x).
    unfold PENALTY_FOR_NODE_WITH_CPUS in Hx'. destruct (x <? nid), (has_cpus x); lia. }
  destruct Ho as [-> | ->]; cbn [Z.eqb ZONELIST_ORDER_NODE ZONELIST_ORDER_ZONE Pos.eqb].
  - destruct (node_order_zones nodes Hnd) as [Hz Hzn]. split; simpl; [|done|apply elem_of_node_zones|apply node_zones_descending| |intros _; by apply node_order_sorted|done].
    + intros zr. rewrite Hz. by apply listed_ext.
    + intros _. destruct Hcons as [rest ->]. by exists (build_zonelists_in_node_order managed rest).
  - destruct (zone_order_zones nodes Hnd) as [Hz Hzn]. split; simpl; [|done|apply elem_of_node_zones|apply node_zones_descending|done|done|].
    + intros zr. rewrite Hz. by apply listed_ext.
    + intros _. by apply zone_order_sorted.
Qed.

Lemma build_for_nodes_ok order l loads :
  loads_ok loads -> (forall n, n ∈ l -> 0 <= n /\ n ∈ online) -> order = ZONELIST_ORDER_NODE \/ order = ZONELIST_ORDER_ZONE ->
  exists r, build_for_nodes node_distance has_cpus managed online normal order l loads = Some r /\
    forall nid, nid ∈ l -> exists z, r !! nid = Some z /\ zonelists_ok order nid z.
Proof.
  revert loads. induction l as [|nid l IH]; intros loads Hl Hn Ho; cbn [build_for_nodes].
  { exists ∅. split; [done|]. by intros nid ?%elem_of_nil. }
  destruct (build_zonelists_ok order nid loads Hl) as (fb & nofb & loads' & -> & Hl' & Hz); [apply Hn; left|apply Hn; left|done|]. cbn [mbind option_bind].
  destruct (IH loads' Hl') as (r & -> & Hr); [intros n Hx; apply Hn; by right|done|]. cbn [mbind option_bind].
  eexists. split; [done|]. intros n Hx. rewrite lookup_insert. destruct (decide (nid = n)) as [<-|Hne]; [by eexists|].
  apply Hr. apply elem_of_cons in Hx as [->|?]; done.
Qed.
End zonelists.
