(* ===== verification/BootTheorems.v ===== *)
(** * Booting the page allocator: theorems

    [memory_init] from the memory that the firmware reports to the first allocation. *)

From stdpp Require Import gmap.
From S2P Require Import Prelude BuddyModel BuddyInv BuddyFree BuddyAlloc MemblockModel MemblockRegions MemblockAlloc BootModel BootFree ZoneModel ZoneInit ZoneLists BuddyTheorems.

(** The nodes that are online, and the distances of the firmware, which are bytes *)
Record nodes_ok (node_distance : Z -> Z -> Z) (online : list Z) : Prop := NodesOk {
  no_nonneg n : n ∈ online -> 0 <= n;
  no_count : (length online <= 64)%nat;
  no_distance a b : 0 <= node_distance a b <= 255
}.

Definition order_ok (user_zonelist_order : Z) : Prop := 0 <= user_zonelist_order <= 2.

Lemma set_zonelist_order_ok u : order_ok u -> set_zonelist_order u = ZONELIST_ORDER_NODE \/ set_zonelist_order u = ZONELIST_ORDER_ZONE.
Proof.
  intros Hu. unfold set_zonelist_order, order_ok, ZONELIST_ORDER_DEFAULT, ZONELIST_ORDER_NODE, ZONELIST_ORDER_ZONE in *.
  destruct (Z.eqb_spec u 0); [by left|lia].
Qed.

Section boot.
Context (node_distance : Z -> Z -> Z) (has_cpus : Z -> bool) (data : Z -> list Z).
Context (m : memblock) (online : list Z) (max_pfn user_zonelist_order : Z).

(** The zones, and the nodes with memory *)
Definition zones_set_up : boot * list Z :=
  arch_zone_init m online max_pfn (boot_start (sparse_mem_map data (sparse_memory_present_with_active_regions m MAX_NUMNODES))).

(** What [memory_init] leaves: the free pages are the frames of memory that are not
    reserved, every frame of memory is in a zone of the type of its address, and the lists
    of the nodes have zones that exist. *)
Record memory_ready (zonelists : gmap Z (list zoneref * list zoneref)) (total : Z) (b : buddy) : Prop := MemoryReady {
  mr_ok : buddy_ok b;
  mr_total : exists l, NoDup l /\ (forall q, q ∈ l <-> usable m q) /\ total = Z.of_nat (length l);
  mr_free q : is_free b q <-> usable m q;
  mr_zone r q : r ∈ regions (memory m) -> frame_of r q -> exists nid s e,
    nid ∈ online /\ get_pfn_range_for_nid m nid = (s, e) /\ s <= q < e /\
    pg_zone <$> mem_map b !! q = Some (zone_of nid (zone_type q));
  mr_lists nid : nid ∈ online -> exists l, zonelists !! nid = Some l /\
    zonelists_ok node_distance has_cpus (bo_managed zones_set_up.1) zones_set_up.2 (set_zonelist_order user_zonelist_order) nid l /\
    Forall (fun zr => is_Some (zones b !! zr_zone zr)) l.1
}.

Lemma memory_init_ok : boot_memory m -> boot_layout m online max_pfn -> nodes_ok node_distance online -> order_ok user_zonelist_order ->
  exists zonelists total b, memory_init node_distance has_cpus data m online max_pfn user_zonelist_order = Some (zonelists, total, b) /\
    memory_ready zonelists total b.
Proof.
  intros Hm Hl [N1 N2 N3] Hu. unfold memory_init.
  set (mm := sparse_mem_map data _). pose proof (arch_ready m online max_pfn Hm Hl data) as Hr. pose proof (arch_managed m online max_pfn Hm Hl data) as Hman.
  pose proof (arch_page m online max_pfn Hm data) as Hpg. pose proof (frame_page m online max_pfn Hm data) as Hfp. fold mm in Hr, Hman, Hpg, Hfp.
  assert (Hnormal : forall n, n ∈ (arch_zone_init m online max_pfn (boot_start mm)).2 -> n ∈ online) by (intros n; apply init_nodes_normal).
  destruct (arch_zone_init m online max_pfn (boot_start mm)) as [s normal] eqn:Es.
  cbn [fst snd] in Hr, Hman, Hpg, Hfp, Hnormal.
  destruct (build_for_nodes_ok node_distance has_cpus (bo_managed s) online normal ltac:(apply N3) N2 ltac:(auto) Hnormal
    (set_zonelist_order user_zonelist_order) online ∅) as (zl & E & Hz); [by intros ? ?; rewrite lookup_empty|auto|by apply set_zonelist_order_ok|].
  unfold build_all_zonelists. rewrite E. cbn [mbind option_bind].
  destruct (free_all_bootmem_ok m Hm _ _ 0 Hr) as (l & b & -> & [D1 D2 D3 D4 D5 D6 D7 D8]). cbn [mbind option_bind].
  exists zl, (0 +u Z.of_nat (length l)), b. split; [done|]. split; [done|..].
  - exists l. split; [done|]. split; [done|].
    pose proof (usable_count m l D3 (fun q => proj1 (D2 q))). apply wrap_small. unfold is_u64, ULONG_MOD. lia.
  - done.
  - intros r q Hin Hq. destruct (frame_zone m online max_pfn Hm Hl r q Hin Hq) as (_ & nid & S & E' & H1 & H2 & H3 & H4).
    exists nid, S, E'. split; [done|]. split; [done|]. split; [done|]. rewrite D7.
    destruct (Hfp r q Hin Hq) as [g Hg]. simpl in *. rewrite Hg. apply Hpg in Hg as (_ & _ & _ & Hg). simpl. by rewrite Hg, H4.
  - intros nid Hn. destruct (Hz nid Hn) as (l' & Ez & Hzl). exists l'. split; [done|]. unfold zones_set_up. fold mm. rewrite Es. split; [done|].
    apply list.Forall_forall. intros zr (n & t & _ & _ & Hmz & ->)%(zl_zones _ _ _ _ _ _ _ Hzl). simpl. specialize (D8 (zone_of n t)). apply Hman in Hmz.
    destruct Hmz as [zn Hzn]. rewrite Hzn in D8. by destruct (zones b !! zone_of n t).
Qed.
End boot.

(** ** The theorems *)

(** (C6) Booting: from the memory map, [memory_init] makes free exactly the page frames
    of memory that nothing has reserved and counts them; every frame of memory is in a
    zone of the type of its address; and every node has a list of zones that exist. *)
Theorem memory_init_correct (node_distance : Z -> Z -> Z) (has_cpus : Z -> bool) (data : Z -> list Z)
    (m : memblock) (online : list Z) (max_pfn user_zonelist_order : Z) :
  boot_memory m -> boot_layout m online max_pfn -> nodes_ok node_distance online -> order_ok user_zonelist_order ->
  exists zonelists total b, memory_init node_distance has_cpus data m online max_pfn user_zonelist_order = Some (zonelists, total, b) /\
    memory_ready node_distance has_cpus data m online max_pfn user_zonelist_order zonelists total b.
Proof. apply memory_init_ok. Qed.

(** (C28) The lists of zones: ordering the nodes ends, and the list of a node has every
    managed zone of it and of the nodes with memory once, in the order that is documented.
    Ordered by node, its own zones come first, then those of the other nodes by distance,
    and the zones of a node from the highest type down; ordered by zone, the zones go from
    the highest type down, and those of a type by the distance of their nodes.  A node of a
    lower number, and a node with CPUs, count as one farther each. *)
Theorem build_all_zonelists_correct (node_distance : Z -> Z -> Z) (has_cpus : Z -> bool) (managed : gmap Z Z)
    (online normal : list Z) (user_zonelist_order : Z) :
  nodes_ok node_distance online -> (forall n, n ∈ normal -> n ∈ online) -> order_ok user_zonelist_order ->
  exists r, build_all_zonelists node_distance has_cpus managed online normal user_zonelist_order = Some r /\
    forall nid, nid ∈ online -> exists l, r !! nid = Some l /\ zonelists_ok node_distance has_cpus managed normal (set_zonelist_order user_zonelist_order) nid l.
Proof.
  intros [N1 N2 N3] Hn Hu. apply build_for_nodes_ok; [apply N3|done|auto|done| |auto|by apply set_zonelist_order_ok].
  intros n v. by rewrite lookup_empty.
Qed.

(** (C27) The first allocation: after boot a request is granted, from frames of memory
    that were not reserved, if an allowed zone of the node's list has an aligned run of
    that many such frames. *)
Theorem boot_alloc_correct (node_distance : Z -> Z -> Z) (has_cpus : Z -> bool) (data : Z -> list Z)
    (m : memblock) (online : list Z) (max_pfn user_zonelist_order : Z)
    (zonelists : gmap Z (list zoneref * list zoneref)) (total : Z) (b : buddy)
    (nid : Z) (l : list zoneref * list zoneref) (gfp highest : Z) (order : nat) (z p : Z) :
  boot_memory m -> boot_layout m online max_pfn -> nodes_ok node_distance online -> order_ok user_zonelist_order ->
  memory_init node_distance has_cpus data m online max_pfn user_zonelist_order = Some (zonelists, total, b) ->
  nid ∈ online -> zonelists !! nid = Some l -> gfp_zone gfp = Some highest -> (order < MAX_ORDER)%nat ->
  z ∈ zones_of_list highest l.1 -> (blk order | p) ->
  (forall q, in_block p order q -> usable m q /\ pg_zone <$> mem_map b !! q = Some z) ->
  exists p' z' b', __alloc_pages_nodemask gfp order l.1 b = Some (Some p', b') /\ z' ∈ zones_of_list highest l.1 /\
    allocated gfp b z' p' order b' /\ forall q, in_block p' order q -> usable m q.
Proof.
  intros Hm Hl Hn Hu E Hnid El Hg Ho Hz Hp Hq.
  destruct (memory_init_ok node_distance has_cpus data m online max_pfn user_zonelist_order Hm Hl Hn Hu) as (zl & t & b1 & E1 & Hr).
  rewrite E in E1. injection E1 as <- <- <-. destruct (mr_lists _ _ _ _ _ _ _ _ _ _ Hr nid Hnid) as (l' & El' & _ & Hex).
  rewrite El in El'. injection El' as <-.
  assert (Hex' : Forall (fun z => is_Some (zones b !! z)) (zones_of_list highest l.1)).
  { apply list.Forall_forall. intros z' (zr & -> & [_ Hzr]%list_elem_of_filter)%list_elem_of_fmap. rewrite list.Forall_forall in Hex. by apply Hex. }
  pose proof (mr_ok _ _ _ _ _ _ _ _ _ _ Hr) as Hb.
  assert (Hrun : ~ no_run b z order).
  { intros H. apply (H p Hp). intros q Hin. destruct (Hq q Hin) as [Hus Hzn]. destruct (mem_map b !! q) as [g|] eqn:Eg; [|done]. injection Hzn as <-.
    apply is_free_in; [apply Hb|done|]. by apply (mr_free _ _ _ _ _ _ _ _ _ _ Hr). }
  assert (Hne : l.1 <> []) by (intros Hn1; rewrite Hn1 in Hz; by apply elem_of_nil in Hz).
  pose proof (alloc_pages_ok b gfp highest order l.1 Hb Ho Hne Hg Hex') as Ha.
  destruct (__alloc_pages_nodemask gfp order l.1 b) as [[[p'|] b']|]; [|done|].
  - destruct Ha as (l1 & z' & l2 & Hl1 & _ & Ha). exists p', z', b'. split; [done|]. split; [rewrite Hl1; apply elem_of_app; right; left|]. split; [done|].
    intros q Hin. apply (mr_free _ _ _ _ _ _ _ _ _ _ Hr), (al_free _ _ _ _ _ _ Ha). by right.
  - destruct Hrun. rewrite list.Forall_forall in Ha. by apply Ha.
Qed.

(** ** An example: a machine of 128 MB, with the kernel at 1 MB *)

Definition ex_memory : memblock :=
  Memblock MEMBLOCK_ALLOC_ANYWHERE (Mtype [Region 4096 (2 ^ 27 - 4096) 0 0] (2 ^ 27 - 4096))
    (Mtype [Region (2 ^ 20) (2 ^ 20) 0 MAX_NUMNODES] (2 ^ 20)).
Definition ex_distance (a b : Z) : Z := Z.min 255 (10 * (1 + Z.abs (a - b))).
Definition ex_cpus (n : Z) : bool := n =? 0.
Definition ex_data (_ : Z) : list Z := [].

Lemma ex_memory_ok : boot_memory ex_memory.
Proof.
  split.
  - split; [| |done]; (split; [unfold cnt, INIT_MEMBLOCK_REGIONS; simpl; lia|done|right; split; [done|split; simpl; [|done]; repeat split; done]]).
  - intros r ->%list_elem_of_singleton. done.
  - unfold free_at. by intros [? _].
Qed.

Lemma ex_frame q : (exists r, r ∈ regions (memory ex_memory) /\ frame_of r q) <-> 1 <= q < 32768.
Proof.
  split.
  - intros (r & ->%list_elem_of_singleton & H1 & H2). change PAGE_SIZE with 4096 in *. simpl in *. lia.
  - intros Hq. eexists. split; [left|]. unfold frame_of. change PAGE_SIZE with 4096. simpl. lia.
Qed.

Lemma ex_machine : boot_layout ex_memory [0] 32768.
Proof.
  split.
  - intros r q ->%list_elem_of_singleton _. left.
  - intros r q Hr Hq. assert (1 <= q < 32768) by (apply ex_frame; by exists r). lia.
  - done.
  - exists (Region 4096 (2 ^ 27 - 4096) 0 0), 1. split; [left|]. done.
Qed.

Lemma ex_nodes online : (forall n, n ∈ online -> 0 <= n) -> (length online <= 64)%nat -> nodes_ok ex_distance online.
Proof. intros H1 H2. split; [done|done|]. intros a b. unfold ex_distance. lia. Qed.

Lemma ex_nodes_0 : nodes_ok ex_distance [0].
Proof. apply ex_nodes; [intros n ->%list_elem_of_singleton; done|simpl; lia]. Qed.

Lemma ex_usable q : 512 <= q < 32768 -> usable ex_memory q.
Proof.
  intros Hq. unfold usable. change PAGE_SIZE with 4096. unfold MAX_PHYSMEM_BITS. split; [by exists q|lia|lia|..].
  - eexists. split; [left|]. split; [done|]. simpl. lia.
  - intros a Ha. cbn [attr_at reserved regions ex_memory rg_base rg_size]. rewrite (proj2 (Z.ltb_ge _ _)) by lia. by rewrite andb_false_r.
Qed.

Lemma memory_init_correct_witness :
  exists zonelists total b, memory_init ex_distance ex_cpus ex_data ex_memory [0] 32768 0 = Some (zonelists, total, b) /\
    memory_ready ex_distance ex_cpus ex_data ex_memory [0] 32768 0 zonelists total b.
Proof.
  refine (memory_init_correct ex_distance ex_cpus ex_data ex_memory [0] 32768 0 ex_memory_ok ex_machine ex_nodes_0 _). unfold order_ok. lia.
Defined.

(** Three nodes in a row: for node 2, its own zone, then that of node 1, then those of
    node 0 *)
Lemma build_all_zonelists_correct_witness :
  exists r, build_all_zonelists ex_distance ex_cpus {[1 := 100; 2 := 100; 6 := 100; 10 := 100]} [0; 1; 2] [0; 1; 2] 0 = Some r /\
    r !! 2 = Some ([Zoneref 10 2; Zoneref 6 2; Zoneref 2 2; Zoneref 1 1], [Zoneref 10 2]) /\
    forall nid, nid ∈ [0; 1; 2] -> exists l, r !! nid = Some l /\
      zonelists_ok ex_distance ex_cpus {[1 := 100; 2 := 100; 6 := 100; 10 := 100]} [0; 1; 2] ZONELIST_ORDER_NODE nid l.
Proof.
  destruct (build_all_zonelists_correct ex_distance ex_cpus {[1 := 100; 2 := 100; 6 := 100; 10 := 100]} [0; 1; 2] [0; 1; 2] 0) as (r & E & H).
  - apply ex_nodes; [|simpl; lia]. intros n [->|[->| ->%list_elem_of_singleton]%elem_of_cons]%elem_of_cons; done.
  - done.
  - unfold order_ok. lia.
  - exists r. split; [exact E|]. split; [|exact H]. vm_compute in E. injection E as <-. reflexivity.
Defined.

(** After [memory_init] the frames of node 0 are in zones of their type. *)
Lemma ex_zone_of zonelists total b q : memory_ready ex_distance ex_cpus ex_data ex_memory [0] 32768 0 zonelists total b -> 4096 <= q < 32768 ->
  pg_zone <$> mem_map b !! q = Some 1.
Proof.
  intros Hr Hq. destruct (proj2 (ex_frame q) ltac:(lia)) as (r & Hin & Hf).
  destruct (mr_zone _ _ _ _ _ _ _ _ _ _ Hr r q Hin Hf) as (nid & s & e & ->%list_elem_of_singleton & _ & _ & ->).
  unfold zone_type. change MAX_DMA_PFN with 4096. change MAX_DMA32_PFN with 1048576. by rewrite (proj2 (Z.ltb_ge _ _)), (proj2 (Z.ltb_lt _ _)) by lia.
Qed.

Lemma ex_listed zonelists total b : memory_ready ex_distance ex_cpus ex_data ex_memory [0] 32768 0 zonelists total b ->
  exists l, zonelists !! 0 = Some l /\ 1 ∈ zones_of_list ZONE_NORMAL l.1.
Proof.
  intros Hr. destruct (mr_lists _ _ _ _ _ _ _ _ _ _ Hr 0 ltac:(left)) as (l & El & Hl & _). exists l. split; [done|].
  apply list_elem_of_fmap. exists (Zoneref 1 1). split; [done|]. apply list_elem_of_filter. split; [done|]. apply (zl_zones _ _ _ _ _ _ _ Hl).
  exists 0, 1. split; [left|]. split; [done|]. split; [reflexivity|done].
Qed.

(** Eight cleared pages for the kernel *)
Lemma boot_alloc_correct_witness :
  exists zonelists total b l p z b',
    memory_init ex_distance ex_cpus ex_data ex_memory [0] 32768 0 = Some (zonelists, total, b) /\ zonelists !! 0 = Some l /\
    __alloc_pages_nodemask ___GFP_ZERO 3 l.1 b = Some (Some p, b') /\ allocated ___GFP_ZERO b z p 3 b'.
Proof.
  assert (Ho : order_ok 0) by (unfold order_ok; lia).
  destruct (memory_init_ok ex_distance ex_cpus ex_data ex_memory [0] 32768 0 ex_memory_ok ex_machine ex_nodes_0 Ho) as (zl & t & b & E & Hr).
  destruct (ex_listed zl t b Hr) as (l & El & Hz).
  destruct (boot_alloc_correct ex_distance ex_cpus ex_data ex_memory [0] 32768 0 zl t b 0 l ___GFP_ZERO ZONE_NORMAL 3 1 8192
    ex_memory_ok ex_machine ex_nodes_0 Ho E ltac:(left) El eq_refl ltac:(unfold MAX_ORDER; lia) Hz ltac:(by exists 1024)) as (p & z & b' & Ea & _ & Ha & _).
  - intros q Hq. unfold in_block, blk in Hq. simpl in Hq. split; [apply ex_usable; lia|]. apply (ex_zone_of zl t b); [exact Hr|lia].
  - exists zl, t, b, l, p, z, b'. split; [exact E|]. split; [exact El|]. split; [exact Ea|exact Ha].
Defined.
