(* ===== verification/VmaModel.v ===== *)
(** * Memory manager, virtual memory areas: the model

    managers/memory/vm/mmap.c with the inline functions of include/memory/vm.h and
    the structures of include/memory/mm.h, in the default configuration
    (CONFIG_DISTRIBUTED_VMA_MEMORY and CONFIG_DEBUG_VM_RB not set).

    A [struct vm_area_struct *] is a [ptr]; the heap [vmas] of an address space
    maps the live ones to their fields, so that the address-ordered list and the
    rbtree share the areas as they do in C.  The list linked by [vm_next]/[vm_prev]
    is the sequence [mmap] of pointers; the rbtree [mm_rb] is an augmented tree of
    module RbTree whose augmented field is [rb_subtree_gap].

    The result [None] of an operation stands for [BUG()], for the use of a null
    pointer, or for a loop that does not end. *)

From S2P Require Import Prelude RbTree.

Abbreviation ptr := positive.

(** ** Constants (include/lego/mmap.h, arch/x86/include/asm/processor.h) *)

Definition TASK_SIZE : Z := Z.shiftl 1 47 - PAGE_SIZE.

Definition PROT_READ : Z := 1.
Definition PROT_WRITE : Z := 2.
Definition PROT_EXEC : Z := 4.
Definition MAP_SHARED : Z := 1.
Definition MAP_PRIVATE : Z := 2.
Definition MAP_TYPE : Z := 15.
Definition MAP_FIXED : Z := 16.
Definition MAP_GROWSDOWN : Z := 256.
Definition MAP_DENYWRITE : Z := 2048.
Definition MAP_ANONYMOUS : Z := 32.
Definition MAP_EXECUTABLE : Z := 4096.
Definition MAP_LOCKED : Z := 8192.
Definition VM_READ : Z := 1.
Definition VM_WRITE : Z := 2.
Definition VM_EXEC : Z := 4.
Definition VM_SHARED : Z := 8.
Definition VM_MAYSHARE : Z := 128.
Definition VM_GROWSUP : Z := 0.
Definition VM_GROWSDOWN : Z := 256.
Definition VM_PFNMAP : Z := 1024.
Definition VM_DENYWRITE : Z := 2048.
Definition VM_LOCKED : Z := 8192.
Definition VM_IO : Z := 16384.
Definition VM_SPECIAL : Z := Z.lor VM_IO VM_PFNMAP.
Definition VM_STACK : Z := VM_GROWSDOWN.
Definition sysctl_max_map_count : Z := 65535 - 5.
Definition FIRST_USER_ADDRESS : Z := 0.
Definition USER_PGTABLES_CEILING : Z := 0.

(** [flags & bits] as a C condition *)
Definition has (flags bits : Z) : bool := negb (Z.land flags bits =? 0).

(** ** Data *)

(** The two tables of VMA operations of the memory manager (m2s_read_write.c and
    ramfs/core.c); both have a [fault] member only. *)
Inductive vm_operations := storage_vma_ops | ramfs_vma_ops.

Record vm_area := mk_vma {
  vm_start : Z;
  vm_end : Z;
  vm_page_prot : Z;
  vm_flags : Z;
  vm_ops : option vm_operations;
  vm_pgoff : Z;
  vm_file : option Z
}.

#[export] Instance vm_area_inhabited : Inhabited vm_area :=
  populate (mk_vma 0 0 0 0 None 0 None).

(** Calls into the page-table layer (managers/memory/vm/pgtable.c), in order.  That
    layer reads the [vm_start] and [vm_end] of the list of areas given to
    [lego_free_pgtables]: they are [areas]. *)
Inductive pgt_call :=
| Unmap_page_range (start last : Z)
| Free_pgtables (areas : list (Z * Z)) (floor ceiling : Z)
| Move_page_tables (vma : ptr) (old_addr : Z) (new_vma : ptr) (new_addr len : Z)
| Mm_populate (start len : Z)
| Copy_page_range (vma : ptr).

Record lego_mm := mk_mm {
  vmas : gmap ptr vm_area;
  mmap : list ptr;
  mm_rb : rbtree ptr Z;
  highest_vm_end : Z;
  mmap_base : Z;
  mmap_legacy_base : Z;
  map_count : Z;
  total_vm : Z;
  data_vm : Z;
  exec_vm : Z;
  stack_vm : Z;
  def_flags : Z;
  start_brk : Z;
  brk : Z;
  (** [f_count] of the lego_files *)
  f_count : gmap Z Z;
  pgt_log : list pgt_call
}.

Definition set_vmas (v : gmap ptr vm_area) (mm : lego_mm) : lego_mm :=
  mk_mm v (mmap mm) (mm_rb mm) (highest_vm_end mm) (mmap_base mm) (mmap_legacy_base mm)
    (map_count mm) (total_vm mm) (data_vm mm) (exec_vm mm) (stack_vm mm) (def_flags mm)
    (start_brk mm) (brk mm) (f_count mm) (pgt_log mm).
Definition set_mmap (l : list ptr) (mm : lego_mm) : lego_mm :=
  mk_mm (vmas mm) l (mm_rb mm) (highest_vm_end mm) (mmap_base mm) (mmap_legacy_base mm)
    (map_count mm) (total_vm mm) (data_vm mm) (exec_vm mm) (stack_vm mm) (def_flags mm)
    (start_brk mm) (brk mm) (f_count mm) (pgt_log mm).
Definition set_mm_rb (t : rbtree ptr Z) (mm : lego_mm) : lego_mm :=
  mk_mm (vmas mm) (mmap mm) t (highest_vm_end mm) (mmap_base mm) (mmap_legacy_base mm)
    (map_count mm) (total_vm mm) (data_vm mm) (exec_vm mm) (stack_vm mm) (def_flags mm)
    (start_brk mm) (brk mm) (f_count mm) (pgt_log mm).
Definition set_highest_vm_end (h : Z) (mm : lego_mm) : lego_mm :=
  mk_mm (vmas mm) (mmap mm) (mm_rb mm) h (mmap_base mm) (mmap_legacy_base mm) (map_count mm)
    (total_vm mm) (data_vm mm) (exec_vm mm) (stack_vm mm) (def_flags mm) (start_brk mm)
    (brk mm) (f_count mm) (pgt_log mm).
Definition set_bases (base legacy : Z) (mm : lego_mm) : lego_mm :=
  mk_mm (vmas mm) (mmap mm) (mm_rb mm) (highest_vm_end mm) base legacy (map_count mm)
    (total_vm mm) (data_vm mm) (exec_vm mm) (stack_vm mm) (def_flags mm) (start_brk mm)
    (brk mm) (f_count mm) (pgt_log mm).
Definition set_map_count (c : Z) (mm : lego_mm) : lego_mm :=
  mk_mm (vmas mm) (mmap mm) (mm_rb mm) (highest_vm_end mm) (mmap_base mm)
    (mmap_legacy_base mm) c (total_vm mm) (data_vm mm) (exec_vm mm) (stack_vm mm)
    (def_flags mm) (start_brk mm) (brk mm) (f_count mm) (pgt_log mm).
Definition set_counters (tv dv ev sv : Z) (mm : lego_mm) : lego_mm :=
  mk_mm (vmas mm) (mmap mm) (mm_rb mm) (highest_vm_end mm) (mmap_base mm)
    (mmap_legacy_base mm) (map_count mm) tv dv ev sv (def_flags mm) (start_brk mm) (brk mm)
    (f_count mm) (pgt_log mm).
Definition set_brk (k : Z) (mm : lego_mm) : lego_mm :=
  mk_mm (vmas mm) (mmap mm) (mm_rb mm) (highest_vm_end mm) (mmap_base mm)
    (mmap_legacy_base mm) (map_count mm) (total_vm mm) (data_vm mm) (exec_vm mm)
    (stack_vm mm) (def_flags mm) (start_brk mm) k (f_count mm) (pgt_log mm).
Definition set_f_count (fc : gmap Z Z) (mm : lego_mm) : lego_mm :=
  mk_mm (vmas mm) (mmap mm) (mm_rb mm) (highest_vm_end mm) (mmap_base mm)
    (mmap_legacy_base mm) (map_count mm) (total_vm mm) (data_vm mm) (exec_vm mm)
    (stack_vm mm) (def_flags mm) (start_brk mm) (brk mm) fc (pgt_log mm).
Definition log_pgt (e : pgt_call) (mm : lego_mm) : lego_mm :=
  mk_mm (vmas mm) (mmap mm) (mm_rb mm) (highest_vm_end mm) (mmap_base mm)
    (mmap_legacy_base mm) (map_count mm) (total_vm mm) (data_vm mm) (exec_vm mm)
    (stack_vm mm) (def_flags mm) (start_brk mm) (brk mm) (f_count mm) (pgt_log mm ++ [e]).

(** The allocator of [vm_area_struct]s: [kmalloc]/[kzalloc] may fail, and what it
    returns is not in use. *)
Class Kmalloc := kmalloc : lego_mm -> option ptr.
Class KmallocFresh `{Kmalloc} : Prop :=
  kmalloc_fresh : forall mm p, kmalloc mm = Some p -> vmas mm !! p = None.

(** ** Following pointers *)

(** [*p] *)
Definition deref (mm : lego_mm) (p : ptr) : vm_area := vmas mm !!! p.

(** Suffix of a list that starts at [p], and that starts after [p]; prefix up to
    and including [p]. *)
Fixpoint from_elem (p : ptr) (l : list ptr) : list ptr :=
  match l with
  | [] => []
  | a :: l' => if decide (a = p) then l else from_elem p l'
  end.
Definition after_elem (p : ptr) (l : list ptr) : list ptr := tail (from_elem p l).
Fixpoint upto_elem (p : ptr) (l : list ptr) : list ptr :=
  match l with
  | [] => []
  | a :: l' => if decide (a = p) then [a] else a :: upto_elem p l'
  end.

Definition vm_next (mm : lego_mm) (p : ptr) : option ptr := hd_error (after_elem p (mmap mm)).

Fixpoint prev_elem (prev : option ptr) (p : ptr) (l : list ptr) : option ptr :=
  match l with
  | [] => None
  | a :: l' => if decide (a = p) then prev else prev_elem (Some a) p l'
  end.
Definition vm_prev (mm : lego_mm) (p : ptr) : option ptr := prev_elem None p (mmap mm).

(** Store through a pointer *)
Definition upd_vma (p : ptr) (f : vm_area -> vm_area) (mm : lego_mm) : lego_mm :=
  set_vmas (<[p := f (deref mm p)]> (vmas mm)) mm.

Definition kfree (p : ptr) (mm : lego_mm) : lego_mm := set_vmas (delete p (vmas mm)) mm.

Definition with_range (start last pgoff : Z) (v : vm_area) : vm_area :=
  mk_vma start last (vm_page_prot v) (vm_flags v) (vm_ops v) pgoff (vm_file v).
Definition with_page_prot (prot : Z) (v : vm_area) : vm_area :=
  mk_vma (vm_start v) (vm_end v) prot (vm_flags v) (vm_ops v) (vm_pgoff v) (vm_file v).

(** ** include/memory/vm.h *)

Definition _calc_vm_trans (x bit1 bit2 : Z) : Z :=
  if bit1 <=? bit2 then wrap (Z.land x bit1 * (bit2 / bit1))
  else Z.land x bit1 / (bit1 / bit2).

Definition calc_vm_prot_bits (prot : Z) : Z :=
  Z.lor (Z.lor (_calc_vm_trans prot PROT_READ VM_READ)
               (_calc_vm_trans prot PROT_WRITE VM_WRITE))
        (_calc_vm_trans prot PROT_EXEC VM_EXEC).

Definition calc_vm_flag_bits (flags : Z) : Z :=
  Z.lor (Z.lor (_calc_vm_trans flags MAP_GROWSDOWN VM_GROWSDOWN)
               (_calc_vm_trans flags MAP_DENYWRITE VM_DENYWRITE))
        (_calc_vm_trans flags MAP_LOCKED VM_LOCKED).

Definition TASK_UNMAPPED_BASE : Z := PAGE_ALIGN (TASK_SIZE / 3).

Definition vma_is_anonymous (v : vm_area) : bool :=
  match vm_ops v with None => true | Some _ => false end.

Definition is_exec_mapping (flags : Z) : bool :=
  Z.land flags (Z.lor (Z.lor VM_EXEC VM_WRITE) VM_STACK) =? VM_EXEC.
Definition is_stack_mapping (flags : Z) : bool := Z.land flags VM_STACK =? VM_STACK.
Definition is_data_mapping (flags : Z) : bool :=
  Z.land flags (Z.lor (Z.lor VM_WRITE VM_SHARED) VM_STACK) =? VM_WRITE.

Definition vma_pages (v : vm_area) : Z := Z.shiftr (vm_end v -u vm_start v) PAGE_SHIFT.

(** ** Page protections (arch/x86/include/asm/pgtable_types.h) *)

Definition _PAGE_PRESENT : Z := Z.shiftl 1 0.
Definition _PAGE_RW : Z := Z.shiftl 1 1.
Definition _PAGE_USER : Z := Z.shiftl 1 2.
Definition _PAGE_PWT : Z := Z.shiftl 1 3.
Definition _PAGE_PCD : Z := Z.shiftl 1 4.
Definition _PAGE_ACCESSED : Z := Z.shiftl 1 5.
Definition _PAGE_DIRTY : Z := Z.shiftl 1 6.
Definition _PAGE_PROTNONE : Z := Z.shiftl 1 8.
Definition _PAGE_SPECIAL : Z := Z.shiftl 1 9.
Definition _PAGE_NX : Z := Z.shiftl 1 63.
Definition PTE_PFN_MASK : Z := Z.land PAGE_MASK (Z.shiftl 1 46 - 1).
Definition _PAGE_CHG_MASK : Z :=
  fold_right Z.lor 0
    [PTE_PFN_MASK; _PAGE_PCD; _PAGE_PWT; _PAGE_SPECIAL; _PAGE_ACCESSED; _PAGE_DIRTY].

Definition PAGE_NONE : Z := Z.lor _PAGE_PROTNONE _PAGE_ACCESSED.
Definition PAGE_READONLY_EXEC : Z :=
  fold_right Z.lor 0 [_PAGE_PRESENT; _PAGE_USER; _PAGE_ACCESSED].
Definition PAGE_READONLY : Z := Z.lor PAGE_READONLY_EXEC _PAGE_NX.
Definition PAGE_COPY_EXEC : Z := PAGE_READONLY_EXEC.
Definition PAGE_COPY : Z := PAGE_READONLY.
Definition PAGE_SHARED_EXEC : Z :=
  fold_right Z.lor 0 [_PAGE_PRESENT; _PAGE_RW; _PAGE_USER; _PAGE_ACCESSED].
Definition PAGE_SHARED : Z := Z.lor PAGE_SHARED_EXEC _PAGE_NX.

Definition protection_map : list Z :=
  [ PAGE_NONE; PAGE_READONLY; PAGE_COPY; PAGE_COPY;
    PAGE_READONLY_EXEC; PAGE_READONLY_EXEC; PAGE_COPY_EXEC; PAGE_COPY_EXEC;
    PAGE_NONE; PAGE_READONLY; PAGE_SHARED; PAGE_SHARED;
    PAGE_READONLY_EXEC; PAGE_READONLY_EXEC; PAGE_SHARED_EXEC; PAGE_SHARED_EXEC ].

Definition vm_get_page_prot (flags : Z) : Z :=
  nth (Z.to_nat (Z.land flags 15)) protection_map 0.

Definition pgprot_modify (oldprot newprot : Z) : Z :=
  Z.lor (Z.land oldprot _PAGE_CHG_MASK) newprot.
Definition vm_pgprot_modify (oldprot flags : Z) : Z :=
  pgprot_modify oldprot (vm_get_page_prot flags).

Definition vma_set_page_prot (p : ptr) (mm : lego_mm) : lego_mm :=
  upd_vma p (fun v => with_page_prot (vm_pgprot_modify (vm_page_prot v) (vm_flags v)) v) mm.

(** ** The augmented rbtree *)

Definition max_gap (m : Z) (child : option Z) : Z :=
  match child with Some g => if m <? g then g else m | None => m end.

(** [vma_compute_subtree_gap(vma)], given the fields of the children *)
Definition vma_compute_subtree_gap (mm : lego_mm) (p : ptr) (left right : option Z) : Z :=
  let m := match vm_prev mm p with
           | Some q => vm_start (deref mm p) -u vm_end (deref mm q)
           | None => vm_start (deref mm p)
           end in
  max_gap (max_gap m left) right.

(** [vma_gap_callbacks_propagate(&vma->vm_rb, NULL)] *)
Definition vma_gap_update (p : ptr) (mm : lego_mm) : option lego_mm :=
  '(c, g, l, r, z) ← locate p (mm_rb mm) [];
  let '(n, z') := propagate_node (vma_compute_subtree_gap mm) c g l p r z in
  Some (set_mm_rb (plug z' n) mm).

Definition __vma_rb_erase (p : ptr) (mm : lego_mm) : option lego_mm :=
  '(c, g, l, r, z) ← locate p (mm_rb mm) [];
  t ← rb_erase_augmented (vma_compute_subtree_gap mm) c g l r z;
  Some (set_mm_rb t mm).

(** The callers differ in the debug validation only, which is compiled out. *)
Definition vma_rb_erase : ptr -> lego_mm -> option lego_mm := __vma_rb_erase.
Definition vma_rb_erase_ignore : ptr -> lego_mm -> option lego_mm := __vma_rb_erase.

(** ** Lookup *)

Fixpoint find_vma_loop (mm : lego_mm) (addr : Z) (t : rbtree ptr Z) (vma : option ptr) :
    option ptr :=
  match t with
  | Leaf => vma
  | Node _ _ l tmp r =>
      if addr <? vm_end (deref mm tmp) then
        if vm_start (deref mm tmp) <=? addr then Some tmp
        else find_vma_loop mm addr l (Some tmp)
      else find_vma_loop mm addr r vma
  end.

Definition find_vma (mm : lego_mm) (addr : Z) : option ptr :=
  find_vma_loop mm addr (mm_rb mm) None.

Definition find_vma_intersection (mm : lego_mm) (start_addr end_addr : Z) : option ptr :=
  match find_vma mm start_addr with
  | Some p => if end_addr <=? vm_start (deref mm p) then None else Some p
  | None => None
  end.

(** A pointer [rb_link] to a null child pointer: given by the turns from the root
    ([find_vma_links]), or as [&tmp->vm_rb.rb_right] ([dup_lego_mmap]). *)
Inductive turn := TurnL | TurnR.
Inductive link := LinkPath (path : list turn) | LinkRight (tmp : ptr).

Record vma_links := mk_links {
  lk_prev : option ptr;
  lk_link : link;
  lk_parent : option ptr
}.

Fixpoint find_vma_links_loop (mm : lego_mm) (addr last : Z) (t : rbtree ptr Z)
    (rb_prev rb_parent : option ptr) (path : list turn) : option vma_links :=
  match t with
  | Leaf => Some (mk_links rb_prev (LinkPath (rev path)) rb_parent)
  | Node _ _ l tmp r =>
      if addr <? vm_end (deref mm tmp) then
        if vm_start (deref mm tmp) <? last then None
        else find_vma_links_loop mm addr last l rb_prev (Some tmp) (TurnL :: path)
      else find_vma_links_loop mm addr last r (Some tmp) (Some tmp) (TurnR :: path)
  end.

(** [None]: the area overlaps an existing vma, [-ENOMEM]. *)
Definition find_vma_links (mm : lego_mm) (addr last : Z) : option vma_links :=
  find_vma_links_loop mm addr last (mm_rb mm) None None [].

(** ** Linking *)

(** The context of the null child pointer [path]; [None] if it is not null. *)
Fixpoint follow (path : list turn) (t : rbtree ptr Z) (z : list (frame ptr Z)) :
    option (list (frame ptr Z)) :=
  match path, t with
  | [], Leaf => Some z
  | TurnL :: path', Node c g l x r => follow path' l (FrameL c g x r :: z)
  | TurnR :: path', Node c g l x r => follow path' r (FrameR c g l x :: z)
  | _, _ => None
  end.

Definition follow_link (lk : link) (t : rbtree ptr Z) : option (list (frame ptr Z)) :=
  match lk with
  | LinkPath path => follow path t []
  | LinkRight tmp =>
      match locate tmp t [] with
      | Some (c, g, l, Leaf, z) => Some (FrameR c g l tmp :: z)
      | _ => None
      end
  end.

(** [rb_link_node(...); vma->rb_subtree_gap = 0; vma_gap_update(vma);
    vma_rb_insert(vma, &mm->mm_rb)] after the update of the following gap *)
Definition __vma_link_rb (p : ptr) (rb_link : link) (mm : lego_mm) : option lego_mm :=
  mm1 ← match vm_next mm p with
        | Some next => vma_gap_update next mm
        | None => Some (set_highest_vm_end (vm_end (deref mm p)) mm)
        end;
  z ← follow_link rb_link (mm_rb mm1);
  t ← rb_add (vma_compute_subtree_gap mm1) p 0 z;
  Some (set_mm_rb t mm1).

Definition __vma_link_list (p : ptr) (prev rb_parent : option ptr) (mm : lego_mm) : lego_mm :=
  set_mmap
    (match prev with
     | Some q => upto_elem q (mmap mm) ++ p :: after_elem q (mmap mm)
     | None => p :: match rb_parent with
                    | Some next => from_elem next (mmap mm)
                    | None => []
                    end
     end) mm.

Definition __vma_link (p : ptr) (lk : vma_links) (mm : lego_mm) : option lego_mm :=
  __vma_link_rb p (lk_link lk) (__vma_link_list p (lk_prev lk) (lk_parent lk) mm).

Definition vma_link (p : ptr) (lk : vma_links) (mm : lego_mm) : option lego_mm :=
  mm1 ← __vma_link p lk mm;
  Some (set_map_count (map_count mm1 + 1) mm1).

(** [find_vma_links] failing is a [BUG()]. *)
Definition __insert_vm_struct (p : ptr) (mm : lego_mm) : option lego_mm :=
  lk ← find_vma_links mm (vm_start (deref mm p)) (vm_end (deref mm p));
  mm1 ← __vma_link p lk mm;
  Some (set_map_count (map_count mm1 + 1) mm1).

Definition insert_vm_struct (p : ptr) (mm : lego_mm) : option (lego_mm * Z) :=
  match find_vma_links mm (vm_start (deref mm p)) (vm_end (deref mm p)) with
  | None => Some (mm, - ENOMEM)
  | Some lk =>
      let mm1 := if vma_is_anonymous (deref mm p) then
                   upd_vma p (fun v => with_range (vm_start v) (vm_end v)
                                         (Z.shiftr (vm_start v) PAGE_SHIFT) v) mm
                 else mm in
      mm2 ← vma_link p lk mm1;
      Some (mm2, 0)
  end.

(** [has_prev]: the caller gave [prev]. *)
Definition __vma_unlink_common (p : ptr) (prev : option ptr) (has_prev : bool)
    (mm : lego_mm) : option lego_mm :=
  mm1 ← vma_rb_erase_ignore p mm;
  let l := mmap mm1 in
  let prev' := if has_prev then prev else vm_prev mm1 p in
  Some (set_mmap (match prev' with
                  | Some q => upto_elem q l ++ after_elem p l
                  | None => after_elem p l
                  end) mm1).

(** ** Adjusting an area *)

(** The statements from [again:] to the end of the first [if (remove_next)] chain. *)
Definition adjust_pass (vma : ptr) (next : option ptr) (start last pgoff : Z)
    (insert : option ptr) (adjust_next remove_next : Z) (mm : lego_mm) : option lego_mm :=
  let start_changed := negb (start =? vm_start (deref mm vma)) in
  let end_changed := negb (last =? vm_end (deref mm vma)) in
  let mm1 := upd_vma vma (with_range start last pgoff) mm in
  mm2 ← (if adjust_next =? 0 then Some mm1
         else
           nx ← next;
           Some (upd_vma nx (fun w =>
             with_range (vm_start w +u Z.shiftl adjust_next PAGE_SHIFT) (vm_end w)
               (vm_pgoff w +u adjust_next) w) mm1));
  if negb (remove_next =? 0) then
    nx ← next;
    if negb (remove_next =? 3) then __vma_unlink_common nx (Some vma) true mm2
    else __vma_unlink_common nx None false mm2
  else
    match insert with
    | Some i => __insert_vm_struct i mm2
    | None =>
        mm3 ← (if start_changed then vma_gap_update vma mm2 else Some mm2);
        if end_changed then
          match next with
          | None => Some (set_highest_vm_end last mm3)
          | Some nx => if adjust_next =? 0 then vma_gap_update nx mm3 else Some mm3
          end
        else Some mm3
    end.

(** [mm->map_count--; kfree(next);] *)
Definition drop_next (next : ptr) (mm : lego_mm) : lego_mm :=
  kfree next (set_map_count (map_count mm - 1) mm).

(** [if (next) vma_gap_update(next);] *)
Definition gap_update_opt (next : option ptr) (mm : lego_mm) : option lego_mm :=
  match next with Some nx => vma_gap_update nx mm | None => Some mm end.

Definition __vma_adjust (vma0 : ptr) (start last0 pgoff : Z) (insert expand : option ptr)
    (mm : lego_mm) : option lego_mm :=
  let next0 := vm_next mm vma0 in
  '(vma, next, last, remove_next, adjust_next) ←
    match next0, insert with
    | Some nx, None =>
        if vm_end (deref mm nx) <=? last0 then
          if bool_decide (expand = Some nx) then Some (nx, Some vma0, last0, 3, 0)
          else
            let remove_next := 1 + Z.b2z (vm_end (deref mm nx) <? last0) in
            match vm_next mm nx with
            | None => if remove_next =? 2 then None
                      else Some (vma0, Some nx, vm_end (deref mm nx), remove_next, 0)
            | Some _ => Some (vma0, Some nx, vm_end (deref mm nx), remove_next, 0)
            end
        else if vm_start (deref mm nx) <? last0 then
          Some (vma0, Some nx, last0, 0,
                Z.shiftr (last0 -u vm_start (deref mm nx)) PAGE_SHIFT)
        else if last0 <? vm_end (deref mm vma0) then
          Some (vma0, Some nx, last0, 0,
                - Z.shiftr (vm_end (deref mm vma0) -u last0) PAGE_SHIFT)
        else Some (vma0, Some nx, last0, 0, 0)
    | _, _ => Some (vma0, next0, last0, 0, 0)
    end;
  mm1 ← adjust_pass vma next start last pgoff insert adjust_next remove_next mm;
  if remove_next =? 0 then Some mm1
  else
    nx ← next;
    let mm2 := drop_next nx mm1 in
    if remove_next =? 3 then vma_gap_update vma mm2
    else if remove_next =? 2 then
      nx2 ← vm_next mm2 vma;
      mm3 ← adjust_pass vma (Some nx2) start (vm_end (deref mm2 nx2)) pgoff None 0 1 mm2;
      let mm4 := drop_next nx2 mm3 in
      gap_update_opt (vm_next mm4 vma) mm4
    else gap_update_opt (vm_next mm2 vma) mm2.

Definition vma_adjust (vma : ptr) (start last pgoff : Z) (insert : option ptr)
    (mm : lego_mm) : option lego_mm :=
  __vma_adjust vma start last pgoff insert None mm.

(** ** Merging *)

Definition is_mergeable_vma (v : vm_area) (file : option Z) (flags : Z) : bool :=
  bool_decide (vm_file v = file).

Definition can_vma_merge_before (v : vm_area) (flags : Z) (file : option Z) (pgoff : Z) :
    bool :=
  if is_mergeable_vma v file flags then
    if vma_is_anonymous v then true else vm_pgoff v =? pgoff
  else false.

Definition can_vma_merge_after (v : vm_area) (flags : Z) (file : option Z) (pgoff : Z) :
    bool :=
  if is_mergeable_vma v file flags then
    if vma_is_anonymous v then true else vm_pgoff v +u vma_pages v =? pgoff
  else false.

(** [Some None] is the result [NULL], with the address space unchanged. *)
Definition vma_merge (prev : option ptr) (addr last flags : Z) (file : option Z)
    (pgoff : Z) (mm : lego_mm) : option (option (lego_mm * ptr)) :=
  let pglen := Z.shiftr (last -u addr) PAGE_SHIFT in
  if has flags VM_SPECIAL then Some None
  else
    let area := match prev with Some q => vm_next mm q | None => hd_error (mmap mm) end in
    let next := match area with
                | Some a => if vm_end (deref mm a) =? last then vm_next mm a else area
                | None => None
                end in
    let before_next nx := (last =? vm_start (deref mm nx)) &&
          can_vma_merge_before (deref mm nx) flags file (pgoff +u pglen) in
    match prev with
    | Some q =>
        if (vm_end (deref mm q) =? addr) && can_vma_merge_after (deref mm q) flags file pgoff
        then
          let last' := match next with
                       | Some nx => if before_next nx then vm_end (deref mm nx) else last
                       | None => last
                       end in
          mm1 ← __vma_adjust q (vm_start (deref mm q)) last' (vm_pgoff (deref mm q))
                  None (Some q) mm;
          Some (Some (mm1, q))
        else
          match next with
          | Some nx =>
              if before_next nx then
                if addr <? vm_end (deref mm q) then
                  mm1 ← __vma_adjust q (vm_start (deref mm q)) addr (vm_pgoff (deref mm q))
                          None (Some nx) mm;
                  a ← area; Some (Some (mm1, a))
                else
                  a ← area;
                  mm1 ← __vma_adjust a addr (vm_end (deref mm nx))
                          (vm_pgoff (deref mm nx) -u pglen) None (Some nx) mm;
                  Some (Some (mm1, nx))
              else Some None
          | None => Some None
          end
    | None =>
        match next with
        | Some nx =>
            if before_next nx then
              a ← area;
              mm1 ← __vma_adjust a addr (vm_end (deref mm nx))
                      (vm_pgoff (deref mm nx) -u pglen) None (Some nx) mm;
              Some (Some (mm1, nx))
            else Some None
        | None => Some None
        end
    end.

(** ** File references (include/memory/file_types.h, managers/memory/file_ops.c) *)

Definition file_count (mm : lego_mm) (f : Z) : Z := default 0 (f_count mm !! f).

Definition get_lego_file (f : Z) (mm : lego_mm) : lego_mm :=
  set_f_count (<[f := file_count mm f + 1]> (f_count mm)) mm.

(** At zero [__put_lego_file] frees the file. *)
Definition put_lego_file (f : Z) (mm : lego_mm) : lego_mm :=
  let n := file_count mm f - 1 in
  set_f_count (if n =? 0 then delete f (f_count mm) else <[f := n]> (f_count mm)) mm.

(** [if (file) get_lego_file(file)] *)
Definition get_file_opt (f : option Z) (mm : lego_mm) : lego_mm :=
  match f with Some f => get_lego_file f mm | None => mm end.
Definition put_file_opt (f : option Z) (mm : lego_mm) : lego_mm :=
  match f with Some f => put_lego_file f mm | None => mm end.

(** ** Unmapping *)

Section Operations.
Context `{Kmalloc}.

(** The [vm_ops->open] and [close] members are null in both tables of operations,
    and [vma_adjust] returns 0. *)
Definition __split_vma (vma : ptr) (addr : Z) (new_below : bool) (mm : lego_mm) :
    option (lego_mm * Z) :=
  match kmalloc mm with
  | None => Some (mm, - ENOMEM)
  | Some new =>
      let v := deref mm vma in
      let nv := if new_below then with_range (vm_start v) addr (vm_pgoff v) v
                else with_range addr (vm_end v)
                       (vm_pgoff v +u Z.shiftr (addr -u vm_start v) PAGE_SHIFT) v in
      let mm1 := get_file_opt (vm_file nv) (set_vmas (<[new := nv]> (vmas mm)) mm) in
      mm2 ← (if new_below then
               vma_adjust vma addr (vm_end v)
                 (vm_pgoff v +u Z.shiftr (addr -u vm_start nv) PAGE_SHIFT) (Some new) mm1
             else vma_adjust vma (vm_start v) addr (vm_pgoff v) (Some new) mm1);
      Some (mm2, 0)
  end.

Definition unmap_single_vma (p : ptr) (start_addr end_addr : Z) (mm : lego_mm) : lego_mm :=
  let start := Z.max (vm_start (deref mm p)) start_addr in
  if vm_end (deref mm p) <=? start then mm
  else
    let last := Z.min (vm_end (deref mm p)) end_addr in
    if last <=? vm_start (deref mm p) then mm
    else if negb (start =? last) then log_pgt (Unmap_page_range start last) mm
    else mm.

(** [l]: the areas from [vma] on, along [vm_next] *)
Fixpoint unmap_vmas (l : list ptr) (start_addr end_addr : Z) (mm : lego_mm) : lego_mm :=
  match l with
  | [] => mm
  | p :: l' =>
      if vm_start (deref mm p) <? end_addr then
        unmap_vmas l' start_addr end_addr (unmap_single_vma p start_addr end_addr mm)
      else mm
  end.

(** [vm_start] and [vm_end] of the areas [l] *)
Definition ranges (a : ptr -> vm_area) (l : list ptr) : list (Z * Z) :=
  map (fun p => (vm_start (a p), vm_end (a p))) l.

Definition unmap_region (l : list ptr) (prev : option ptr) (start last : Z)
    (mm : lego_mm) : lego_mm :=
  let next := match prev with Some q => vm_next mm q | None => hd_error (mmap mm) end in
  let mm1 := unmap_vmas l start last mm in
  log_pgt (Free_pgtables (ranges (deref mm1) l)
    (match prev with Some q => vm_end (deref mm1 q) | None => FIRST_USER_ADDRESS end)
    (match next with Some n => vm_start (deref mm1 n) | None => USER_PGTABLES_CEILING end)) mm1.

(** The [do ... while] loop over the areas [l] from [vma] on: the areas taken out of
    the rbtree, and the rest of the list. *)
Fixpoint detach_loop (l : list ptr) (last : Z) (mm : lego_mm) :
    option (list ptr * list ptr * lego_mm) :=
  match l with
  | [] => Some ([], [], mm)
  | p :: l' =>
      mm1 ← vma_rb_erase p mm;
      let mm2 := set_map_count (map_count mm1 - 1) mm1 in
      match l' with
      | q :: _ =>
          if vm_start (deref mm2 q) <? last then
            '(det, rest, mm3) ← detach_loop l' last mm2;
            Some (p :: det, rest, mm3)
          else Some ([p], l', mm2)
      | [] => Some ([p], [], mm2)
      end
  end.

Definition detach_vmas_to_be_unmapped (vma : ptr) (prev : option ptr) (last : Z)
    (mm : lego_mm) : option (list ptr * lego_mm) :=
  '(det, rest, mm1) ← detach_loop (from_elem vma (mmap mm)) last mm;
  let mm2 := set_mmap (match prev with
                       | Some q => upto_elem q (mmap mm1) ++ rest
                       | None => rest
                       end) mm1 in
  match rest with
  | v :: _ => mm3 ← vma_gap_update v mm2; Some (det, mm3)
  | [] => Some (det, set_highest_vm_end
                       (match prev with Some q => vm_end (deref mm2 q) | None => 0 end) mm2)
  end.

Definition remove_vma (p : ptr) (mm : lego_mm) : lego_mm :=
  kfree p (put_file_opt (vm_file (deref mm p)) mm).

Definition remove_vma_list (l : list ptr) (mm : lego_mm) : lego_mm :=
  fold_left (fun m p => remove_vma p m) l mm.

Definition do_munmap (start len0 : Z) (mm : lego_mm) : option (lego_mm * Z) :=
  if negb (offset_in_page start =? 0) || (TASK_SIZE <? start) || (TASK_SIZE -u start <? len0)
  then Some (mm, - EINVAL)
  else
    let len := PAGE_ALIGN len0 in
    if len =? 0 then Some (mm, - EINVAL)
    else
      match find_vma mm start with
      | None => Some (mm, 0)
      | Some vma =>
          let prev := vm_prev mm vma in
          let last := start +u len in
          if last <=? vm_start (deref mm vma) then Some (mm, 0)
          else
            '(mm1, prev1, err1) ←
              (if vm_start (deref mm vma) <? start then
                 if (last <? vm_end (deref mm vma)) && (sysctl_max_map_count <=? map_count mm)
                 then Some (mm, prev, - ENOMEM)
                 else
                   '(mm1, error) ← __split_vma vma start false mm;
                   Some (mm1, Some vma, error)
               else Some (mm, prev, 0));
            if negb (err1 =? 0) then Some (mm1, err1)
            else
              '(mm2, err2) ←
                match find_vma mm1 last with
                | Some lst => if vm_start (deref mm1 lst) <? last
                              then __split_vma lst last true mm1 else Some (mm1, 0)
                | None => Some (mm1, 0)
                end;
              if negb (err2 =? 0) then Some (mm2, err2)
              else
                vma1 ← match prev1 with
                       | Some q => vm_next mm2 q
                       | None => hd_error (mmap mm2)
                       end;
                '(det, mm3) ← detach_vmas_to_be_unmapped vma1 prev1 last mm2;
                let mm4 := unmap_region det prev1 start last mm3 in
                Some (remove_vma_list det mm4, 0)
      end.

(** ** Searching for a free range *)

Record unmapped_info := mk_info {
  info_topdown : bool; (* [flags & VM_UNMAPPED_AREA_TOPDOWN] *)
  info_length : Z;
  info_low_limit : Z;
  info_high_limit : Z;
  info_align_mask : Z;
  info_align_offset : Z
}.

Inductive gap_search :=
| GapFound (gap_start gap_end : Z)
| GapNomem
| GapNone.

(** [vma->vm_prev ? vma->vm_prev->vm_end : 0] *)
Definition prev_end (mm : lego_mm) (p : ptr) : Z :=
  match vm_prev mm p with Some q => vm_end (deref mm q) | None => 0 end.

(** [if (child && child->rb_subtree_gap >= length)] *)
Definition promising (t : rbtree ptr Z) (length : Z) : bool :=
  match aug t with Some g => length <=? g | None => false end.

(** The [while (true)] loop of [unmapped_area], from the node at the root of [t].
    Climbing back through the parent pointers is the return from the recursive
    call: from a left child to [check_current] of the parent, from a right child
    to the parent's own parent.  On the way up [vma->vm_prev] is followed without
    a test. *)
Fixpoint unmapped_visit (mm : lego_mm) (length low_limit high_limit : Z)
    (t : rbtree ptr Z) : option gap_search :=
  match t with
  | Leaf => Some GapNone
  | Node _ _ l p r =>
      let gap_end := vm_start (deref mm p) in
      let check_current gap_start :=
        if high_limit <? gap_start then Some GapNomem
        else if (low_limit <=? gap_end) && (length <=? gap_end -u gap_start)
        then Some (GapFound gap_start gap_end)
        else if promising r length then unmapped_visit mm length low_limit high_limit r
        else Some GapNone in
      if (low_limit <=? gap_end) && promising l length then
        res ← unmapped_visit mm length low_limit high_limit l;
        match res with
        | GapNone => q ← vm_prev mm p; check_current (vm_end (deref mm q))
        | _ => Some res
        end
      else check_current (prev_end mm p)
  end.

Definition unmapped_area (mm : lego_mm) (info : unmapped_info) : option Z :=
  let length := info_length info +u info_align_mask info in
  if length <? info_length info then Some (err_ul ENOMEM)
  else if info_high_limit info <? length then Some (err_ul ENOMEM)
  else
    let high_limit := info_high_limit info -u length in
    if high_limit <? info_low_limit info then Some (err_ul ENOMEM)
    else
      let low_limit := info_low_limit info +u length in
      let found gap_start0 gap_end :=
        let gap_start1 := if gap_start0 <? info_low_limit info
                          then info_low_limit info else gap_start0 in
        let gap_start := gap_start1 +u
          Z.land (info_align_offset info -u gap_start1) (info_align_mask info) in
        if (info_high_limit info <? gap_start +u info_length info)
           || (gap_end <? gap_start +u info_length info) then None
        else Some gap_start in
      res ← (if promising (mm_rb mm) length
             then unmapped_visit mm length low_limit high_limit (mm_rb mm) else Some GapNone);
      match res with
      | GapFound gap_start gap_end => found gap_start gap_end
      | GapNomem => Some (err_ul ENOMEM)
      | GapNone =>
          (* check_highest *)
          if high_limit <? highest_vm_end mm then Some (err_ul ENOMEM)
          else found (highest_vm_end mm) ULONG_MAX
      end.

Fixpoint topdown_visit (mm : lego_mm) (length low_limit high_limit : Z)
    (t : rbtree ptr Z) : gap_search :=
  match t with
  | Leaf => GapNone
  | Node _ _ l p r =>
      let gap_start := prev_end mm p in
      match (if (gap_start <=? high_limit) && promising r length
             then topdown_visit mm length low_limit high_limit r else GapNone) with
      | GapNone =>
          let gap_end := vm_start (deref mm p) in
          if gap_end <? low_limit then GapNomem
          else if (gap_start <=? high_limit) && (length <=? gap_end -u gap_start)
          then GapFound gap_start gap_end
          else if promising l length then topdown_visit mm length low_limit high_limit l
          else GapNone
      | found => found
      end
  end.

Definition unmapped_area_topdown (mm : lego_mm) (info : unmapped_info) : option Z :=
  let length := info_length info +u info_align_mask info in
  if length <? info_length info then Some (err_ul ENOMEM)
  else if info_high_limit info <? length then Some (err_ul ENOMEM)
  else
    let high_limit := info_high_limit info -u length in
    if high_limit <? info_low_limit info then Some (err_ul ENOMEM)
    else
      let low_limit := info_low_limit info +u length in
      let found_highest gap_start gap_end0 :=
        let gap_end1 := gap_end0 -u info_length info in
        let gap_end := gap_end1 -u
          Z.land (gap_end1 -u info_align_offset info) (info_align_mask info) in
        if (gap_end <? info_low_limit info) || (gap_end <? gap_start) then None
        else Some gap_end in
      if highest_vm_end mm <=? high_limit
      then found_highest (highest_vm_end mm) (info_high_limit info)
      else if negb (promising (mm_rb mm) length) then Some (err_ul ENOMEM)
      else
        match topdown_visit mm length low_limit high_limit (mm_rb mm) with
        | GapFound gap_start gap_end =>
            found_highest gap_start
              (if info_high_limit info <? gap_end then info_high_limit info else gap_end)
        | _ => Some (err_ul ENOMEM)
        end.

Definition vm_unmapped_area (mm : lego_mm) (info : unmapped_info) : option Z :=
  if info_topdown info then unmapped_area_topdown mm info else unmapped_area mm info.

Definition MIN_GAP : Z := 128 * 1024 * 1024.
Definition MAX_GAP : Z := TASK_SIZE / 6 * 5.

Definition mmap_base_of : Z :=
  let gap := 0 in
  let gap := if gap <? MIN_GAP then MIN_GAP else if MAX_GAP <? gap then MAX_GAP else gap in
  PAGE_ALIGN (TASK_SIZE -u gap).

Definition arch_pick_mmap_layout (mm : lego_mm) : lego_mm :=
  set_bases mmap_base_of TASK_UNMAPPED_BASE mm.

(** [if (addr) { ... return addr; }]: the address the caller asked for, when free *)
Definition hint_area (mm : lego_mm) (top addr0 len : Z) : option Z :=
  if addr0 =? 0 then None
  else
    let addr := PAGE_ALIGN addr0 in
    if (addr <=? top -u len) &&
       match find_vma mm addr with
       | None => true
       | Some p => addr +u len <=? vm_start (deref mm p)
       end
    then Some addr else None.

Definition arch_get_unmapped_area (mm : lego_mm) (addr len pgoff flags : Z) : option Z :=
  if has flags MAP_FIXED then Some addr
  else if TASK_SIZE <? len then Some (err_ul ENOMEM)
  else
    match hint_area mm TASK_SIZE addr len with
    | Some a => Some a
    | None => vm_unmapped_area mm (mk_info false len (mmap_legacy_base mm) TASK_SIZE 0
                                  (pgoff <<u PAGE_SHIFT))
    end.

Definition arch_get_unmapped_area_topdown (mm : lego_mm) (addr0 len pgoff flags : Z) :
    option Z :=
  if TASK_SIZE <? len then Some (err_ul ENOMEM)
  else if has flags MAP_FIXED then Some addr0
  else
    match hint_area mm TASK_SIZE addr0 len with
    | Some a => Some a
    | None =>
        addr ← vm_unmapped_area mm (mk_info true len PAGE_SIZE (mmap_base mm) 0
                                           (pgoff <<u PAGE_SHIFT));
        if offset_in_page addr =? 0 then Some addr
        else if negb (addr =? err_ul ENOMEM) then None
        else arch_get_unmapped_area mm addr0 len pgoff flags
    end.

(** [get_area] is the layout picked by [arch_pick_mmap_layout]. *)
Definition get_unmapped_area (mm : lego_mm) (addr0 len pgoff flags : Z) : option Z :=
  if TASK_SIZE <? len then Some (err_ul ENOMEM)
  else
    addr ← arch_get_unmapped_area_topdown mm addr0 len pgoff flags;
    if IS_ERR_VALUE addr then Some addr
    else if TASK_SIZE -u len <? addr then Some (err_ul ENOMEM)
    else if negb (offset_in_page addr =? 0) then Some (err_ul EINVAL)
    else Some addr.

(** ** Mapping *)

(** A [struct lego_file]: its identity and the [vm_ops] its [f_op->mmap] installs
    ([None] for a null [mmap] member); [storage_mmap] and [ramfs_mmap] return 0. *)
Record lego_file := mk_file { lf_id : Z; lf_mmap : option vm_operations }.

(** [while (find_vma_links(...)) { if (do_munmap(mm, addr, len)) return -ENOMEM; }]
    with [fuel] iterations; [inr lk]: the links, [inl]: the error return. *)
Fixpoint clear_old_maps (fuel : nat) (addr len : Z) (mm : lego_mm) :
    option (lego_mm * (Z + vma_links)) :=
  match find_vma_links mm addr (addr +u len) with
  | Some lk => Some (mm, inr lk)
  | None =>
      match fuel with
      | O => None
      | S fuel' =>
          '(mm1, e) ← do_munmap addr len mm;
          if negb (e =? 0) then Some (mm1, inl (- ENOMEM))
          else clear_old_maps fuel' addr len mm1
      end
  end.

Definition mmap_region (file : option lego_file) (addr len flags pgoff : Z)
    (mm : lego_mm) : option (lego_mm * Z) :=
  '(mm1, res) ← clear_old_maps 1 addr len mm;
  match res with
  | inl e => Some (mm1, wrap e)
  | inr lk =>
      merged ← vma_merge (lk_prev lk) addr (addr +u len) flags (lf_id <$> file) pgoff mm1;
      match merged with
      | Some (mm2, vma) => Some (vma_set_page_prot vma mm2, addr)
      | None =>
          match kmalloc mm1 with
          | None => Some (mm1, err_ul ENOMEM)
          | Some vma =>
              ops ← match file with
                    | None => Some None
                    | Some f => match lf_mmap f with Some o => Some (Some o) | None => None end
                    end;
              let v := mk_vma addr (addr +u len) (vm_get_page_prot flags) flags ops pgoff
                         (lf_id <$> file) in
              let mm2 := get_file_opt (lf_id <$> file)
                           (set_vmas (<[vma := v]> (vmas mm1)) mm1) in
              mm3 ← vma_link vma lk mm2;
              Some (vma_set_page_prot vma mm3, addr)
          end
      end
  end.

Definition sysctl_mmap_min_addr : Z := PAGE_SIZE.

Definition round_hint_to_min (hint0 : Z) : Z :=
  let hint := Z.land hint0 PAGE_MASK in
  if negb (hint =? 0) && (hint <? sysctl_mmap_min_addr)
  then PAGE_ALIGN sysctl_mmap_min_addr else hint.

Definition do_mmap (file : option lego_file) (addr0 len0 prot flags flags0 pgoff0 : Z)
    (mm : lego_mm) : option (lego_mm * Z) :=
  let addr := if has flags MAP_FIXED then addr0 else round_hint_to_min addr0 in
  if len0 =? 0 then Some (mm, err_ul EINVAL)
  else
    let len := PAGE_ALIGN len0 in
    if len =? 0 then Some (mm, err_ul ENOMEM)
    else if pgoff0 +u Z.shiftr len PAGE_SHIFT <? pgoff0 then Some (mm, err_ul EOVERFLOW)
    else
      addr ← get_unmapped_area mm addr len pgoff0 flags;
      if negb (offset_in_page addr =? 0) then Some (mm, addr)
      else
        let vflags := Z.lor flags0 (Z.lor (Z.lor (calc_vm_prot_bits prot)
                        (calc_vm_flag_bits flags)) (def_flags mm)) in
        let type := Z.land flags MAP_TYPE in
        let grows := has vflags (Z.lor VM_GROWSDOWN VM_GROWSUP) in
        match file with
        | Some f =>
            if (type =? MAP_SHARED) || (type =? MAP_PRIVATE) then
              let vflags := if type =? MAP_SHARED
                            then Z.lor vflags (Z.lor VM_SHARED VM_MAYSHARE) else vflags in
              match lf_mmap f with
              | None => Some (mm, err_ul ENODEV)
              | Some _ =>
                  if grows then Some (mm, err_ul EINVAL)
                  else mmap_region file addr len vflags pgoff0 mm
              end
            else Some (mm, err_ul EINVAL)
        | None =>
            if type =? MAP_SHARED then
              if grows then Some (mm, err_ul EINVAL)
              else mmap_region None addr len (Z.lor vflags VM_SHARED) 0 mm
            else if type =? MAP_PRIVATE then
              mmap_region None addr len vflags (Z.shiftr addr PAGE_SHIFT) mm
            else Some (mm, err_ul EINVAL)
        end.

Definition do_mmap_pgoff (file : option lego_file) (addr len prot flags pgoff : Z)
    (mm : lego_mm) : option (lego_mm * Z) :=
  do_mmap file addr len prot flags 0 pgoff mm.

Definition do_brk (addr request : Z) (mm : lego_mm) : option (lego_mm * Z) :=
  let len := PAGE_ALIGN request in
  if len <? request then Some (mm, - ENOMEM)
  else if len =? 0 then Some (mm, 0)
  else
    let flags := Z.lor (Z.lor VM_READ VM_WRITE) (def_flags mm) in
    let pgoff := Z.shiftr addr PAGE_SHIFT in
    area ← get_unmapped_area mm addr len 0 MAP_FIXED;
    (* [int error = get_unmapped_area(...)] *)
    let error := to_int area in
    if negb (offset_in_page (wrap error) =? 0) then Some (mm, error)
    else
      '(mm1, res) ← clear_old_maps 1 addr len mm;
      match res with
      | inl e => Some (mm1, e)
      | inr lk =>
          let account m := set_counters (total_vm m +u Z.shiftr len PAGE_SHIFT)
            (data_vm m +u Z.shiftr len PAGE_SHIFT) (exec_vm m) (stack_vm m) m in
          merged ← vma_merge (lk_prev lk) addr (addr +u len) flags None pgoff mm1;
          match merged with
          | Some (mm2, _) => Some (account mm2, 0)
          | None =>
              match kmalloc mm1 with
              | None => Some (mm1, - ENOMEM)
              | Some vma =>
                  let v := mk_vma addr (addr +u len) (vm_get_page_prot flags) flags None
                             pgoff None in
                  mm2 ← vma_link vma lk (set_vmas (<[vma := v]> (vmas mm1)) mm1);
                  Some (account mm2, 0)
              end
          end
      end.

(** ** Locked entry points

    [killed]: [down_write_killable] was interrupted. *)

Definition vm_munmap (killed : bool) (start len : Z) (mm : lego_mm) : option (lego_mm * Z) :=
  if killed then Some (mm, - EINTR) else do_munmap start len mm.

Definition vm_mmap_pgoff (killed : bool) (file : option lego_file)
    (addr len prot flag pgoff : Z) (mm : lego_mm) : option (lego_mm * Z) :=
  if killed then Some (mm, err_ul EINTR)
  else do_mmap_pgoff file addr len prot flag pgoff mm.

Definition vm_mmap (killed : bool) (file : option lego_file)
    (addr len prot flag offset : Z) (mm : lego_mm) : option (lego_mm * Z) :=
  if offset +u PAGE_ALIGN len <? offset then Some (mm, err_ul EINVAL)
  else if negb (offset_in_page offset =? 0) then Some (mm, err_ul EINVAL)
  else vm_mmap_pgoff killed file addr len prot flag (Z.shiftr offset PAGE_SHIFT) mm.

Definition vm_brk (killed : bool) (start len : Z) (mm : lego_mm) : option (lego_mm * Z) :=
  if killed then Some (mm, - EINTR)
  else
    '(mm1, ret) ← do_brk start len mm;
    Some (if ret =? 0 then log_pgt (Mm_populate start len) mm1 else mm1, ret).

(** managers/memory/handle_mmap.c, [handle_p2m_brk] with the semaphore held: the
    new state and [reply->ret_brk]. *)
Definition brk_body (brk0 : Z) (mm : lego_mm) : option lego_mm :=
  let newbrk := PAGE_ALIGN brk0 in
  let oldbrk := PAGE_ALIGN (brk mm) in
  let do_set_brk m :=
    let m1 := set_brk brk0 m in
    if oldbrk <? newbrk then log_pgt (Mm_populate oldbrk (newbrk -u oldbrk)) m1
    else m1 in
  if brk0 <? start_brk mm then Some mm
  else if oldbrk =? newbrk then Some (do_set_brk mm)
  else if brk0 <=? brk mm then
    '(mm1, ret) ← do_munmap newbrk (oldbrk -u newbrk) mm;
    Some (if ret =? 0 then do_set_brk mm1 else mm1)
  else
    match find_vma_intersection mm oldbrk (newbrk +u PAGE_SIZE) with
    | Some _ => Some mm
    | None =>
        '(mm1, ret) ← do_brk oldbrk (newbrk -u oldbrk) mm;
        Some (if ret <? 0 then mm1 else do_set_brk mm1)
    end.

(** The request handlers.  [tsk]: the address space of the task that
    [find_lego_task_by_pid] finds; the result has the reply's fields. *)
Definition handle_p2m_brk (killed : bool) (brk0 : Z) (tsk : option lego_mm) :
    option (option lego_mm * Z) :=
  match tsk with
  | None => Some (None, ESRCH)
  | Some mm => if killed then Some (Some mm, EINTR)
               else mm1 ← brk_body brk0 mm; Some (Some mm1, brk mm1)
  end.

Definition handle_p2m_munmap (killed : bool) (addr len : Z) (tsk : option lego_mm) :
    option (option lego_mm * Z) :=
  match tsk with
  | None => Some (None, ESRCH)
  | Some mm => if killed then Some (Some mm, EINTR)
               else '(mm1, ret) ← do_munmap addr len mm; Some (Some mm1, ret)
  end.

(** An [unsigned long] read as a [long] *)
Definition to_long (z : Z) : Z := if z <? 2 ^ 63 then z else z - ULONG_MOD.

(** [opened]: the result of [file_open], [None] for an error *)
Definition handle_p2m_mmap (killed : bool) (opened : option lego_file)
    (addr len prot flags0 pgoff : Z) (tsk : option lego_mm) :
    option (option lego_mm * Z * option Z) :=
  match tsk with
  | None => Some (None, - ESRCH, None)
  | Some mm =>
      let run file :=
        let flags := Z.ldiff flags0 (Z.lor MAP_EXECUTABLE MAP_DENYWRITE) in
        '(mm1, r) ← vm_mmap_pgoff killed file addr len prot flags pgoff mm;
        if to_long r <? 0 then Some (Some mm1, to_long r, None) else Some (Some mm1, 0, Some r) in
      if has flags0 MAP_ANONYMOUS then run None
      else match opened with
           | None => Some (Some mm, - ENOMEM, None)
           | Some f => run (Some f)
           end
  end.

(** [do_msync]: the loop over the areas, [l] from [vma] on.  No file is written
    back.  In the [MS_SYNC] branch [ret] is still [-ENOMEM] at the test
    [if (ret || start >= end) goto out]. *)
Definition MS_SYNC : Z := 4.
Fixpoint msync_loop (l : list ptr) (start last flags unmapped_error : Z) (mm : lego_mm) : Z :=
  match l with
  | [] => if negb (unmapped_error =? 0) then unmapped_error else - ENOMEM
  | p :: l' =>
      let v := deref mm p in
      let hole := start <? vm_start v in
      if hole && (last <=? vm_start v)
      then if negb (unmapped_error =? 0) then unmapped_error else - ENOMEM
      else
        let unmapped_error := if hole then - ENOMEM else unmapped_error in
        if has flags MS_SYNC && bool_decide (is_Some (vm_file v)) && has (vm_flags v) VM_SHARED
        then if negb (unmapped_error =? 0) then unmapped_error else - ENOMEM
        else if last <=? vm_end v
        then if negb (unmapped_error =? 0) then unmapped_error else 0
        else msync_loop l' (vm_end v) last flags unmapped_error mm
  end.

Definition do_msync (start last flags : Z) (mm : lego_mm) : Z :=
  msync_loop (match find_vma mm start with
              | Some p => from_elem p (mmap mm)
              | None => []
              end) start last flags 0 mm.

(** ** Remapping *)

Definition may_expand_vm (mm : lego_mm) (flags npages : Z) : bool := true.

Definition vma_expandable (mm : lego_mm) (vma : ptr) (delta : Z) : option bool :=
  let v := deref mm vma in
  let last := vm_end v +u delta in
  if last <? vm_end v then Some false
  else if match vm_next mm vma with
          | Some n => vm_start (deref mm n) <? last
          | None => false
          end then Some false
  else
    area ← get_unmapped_area mm (vm_start v) (last -u vm_start v) 0 MAP_FIXED;
    Some (offset_in_page area =? 0).

Definition vma_to_resize (addr old_len new_len : Z) (mm : lego_mm) : Z + ptr :=
  match find_vma mm addr with
  | None => inl (- EFAULT)
  | Some vma =>
      let v := deref mm vma in
      if addr <? vm_start v then inl (- EFAULT)
      else if vm_end v -u addr <? old_len then inl (- EFAULT)
      else if new_len =? old_len then inr vma
      else
        let pgoff := Z.shiftr (addr -u vm_start v) PAGE_SHIFT +u vm_pgoff v in
        if pgoff +u Z.shiftr new_len PAGE_SHIFT <? pgoff then inl (- EINVAL)
        else if negb (may_expand_vm mm (vm_flags v) (Z.shiftr (new_len -u old_len) PAGE_SHIFT))
        then inl (- ENOMEM)
        else inr vma
  end.

(** The result: the new state, [*vmap], and the new area or NULL. *)
Definition copy_vma (vma : ptr) (addr len pgoff0 : Z) (mm : lego_mm) :
    option (lego_mm * ptr * option ptr) :=
  let v := deref mm vma in
  let anon := vma_is_anonymous v in
  let pgoff := if anon then Z.shiftr addr PAGE_SHIFT else pgoff0 in
  match find_vma_links mm addr (addr +u len) with
  | None => Some (mm, vma, None)
  | Some lk =>
      merged ← vma_merge (lk_prev lk) addr (addr +u len) (vm_flags v) (vm_file v) pgoff mm;
      match merged with
      | Some (mm1, new_vma) =>
          if (vm_start (deref mm1 new_vma) <=? vm_start v)
             && (vm_start v <? vm_end (deref mm1 new_vma))
          then if negb anon then None else Some (mm1, new_vma, Some new_vma)
          else Some (mm1, vma, Some new_vma)
      | None =>
          match kmalloc mm with
          | None => Some (mm, vma, None)
          | Some new_vma =>
              let mm1 := get_file_opt (vm_file v)
                (set_vmas (<[new_vma := with_range addr (addr +u len) pgoff v]> (vmas mm)) mm) in
              mm2 ← vma_link new_vma lk mm1;
              Some (mm2, vma, Some new_vma)
          end
      end
  end.

(** [moved]: the result of [lego_move_page_tables], the number of bytes moved *)
Definition move_vma (moved : pgt_call -> Z) (vma0 : ptr)
    (old_addr old_len new_len new_addr : Z) (mm : lego_mm) : option (lego_mm * Z) :=
  let new_pgoff := vm_pgoff (deref mm vma0) +u
                   Z.shiftr (old_addr -u vm_start (deref mm vma0)) PAGE_SHIFT in
  '(mm1, vma, new) ← copy_vma vma0 new_addr new_len new_pgoff mm;
  match new with
  | None => Some (mm1, err_ul ENOMEM)
  | Some new_vma =>
      let move := Move_page_tables vma old_addr new_vma new_addr old_len in
      let moved_len := moved move in
      let mm2 := log_pgt move mm1 in
      if moved_len <? old_len then
        let mm3 := log_pgt (Move_page_tables new_vma new_addr vma old_addr moved_len) mm2 in
        '(mm4, _) ← do_munmap new_addr new_len mm3;
        Some (mm4, err_ul ENOMEM)
      else
        '(mm3, _) ← do_munmap old_addr old_len mm2;
        Some (mm3, new_addr)
  end.

(** [handle_p2m_mremap] and [mremap_to]: the reply's status, and its [new_addr] where
    the code sets it.  The [line] member, for debugging, is left out. *)
Definition RET_OKAY : Z := 0.
Definition MREMAP_MAYMOVE : Z := 1.
Definition MREMAP_FIXED : Z := 2.

(** The argument is a [long]. *)
Definition ERR_TO_LEGO_RET (err : Z) : Z :=
  if err =? - EINTR then EINTR
  else if err =? - EPERM then EPERM
  else if err =? - ESRCH then ESRCH
  else if err =? - EAGAIN then EAGAIN
  else if err =? - ENOMEM then ENOMEM
  else if err =? - EFAULT then EFAULT
  else if err =? - EINVAL then EINVAL
  else EFAULT.

(** [vma->vm_pgoff + ((addr - vma->vm_start) >> PAGE_SHIFT)] *)
Definition linear_pgoff (v : vm_area) (addr : Z) : Z :=
  vm_pgoff v +u Z.shiftr (addr -u vm_start v) PAGE_SHIFT.

(** [if (vma->vm_flags & VM_MAYSHARE) map_flags |= MAP_SHARED] *)
Definition share_flags (v : vm_area) (map_flags : Z) : Z :=
  if has (vm_flags v) VM_MAYSHARE then Z.lor map_flags MAP_SHARED else map_flags.

Definition mremap_to (moved : pgt_call -> Z) (addr old_len0 new_addr new_len : Z) (mm : lego_mm) :
    option (lego_mm * Z * option Z) :=
  if negb (offset_in_page new_addr =? 0) then Some (mm, EINVAL, None)
  else if (TASK_SIZE <? new_len) || (TASK_SIZE -u new_len <? new_addr) then Some (mm, EINVAL, None)
  else
    '(mm1, ret) ← do_munmap new_addr new_len mm;
    if negb (ret =? 0) then Some (mm1, ERR_TO_LEGO_RET ret, None)
    else
      '(mm2, ret2) ← (if new_len <=? old_len0
                      then do_munmap (addr +u new_len) (old_len0 -u new_len) mm1
                      else Some (mm1, 0));
      if negb (ret2 =? 0) && negb (old_len0 =? new_len) then Some (mm2, ERR_TO_LEGO_RET ret2, None)
      else
        let old_len := if new_len <=? old_len0 then new_len else old_len0 in
        match vma_to_resize addr old_len new_len mm2 with
        | inl e => Some (mm2, ERR_TO_LEGO_RET e, None)
        | inr vma =>
            let v := deref mm2 vma in
            area ← get_unmapped_area mm2 new_addr new_len (linear_pgoff v addr)
                     (share_flags v MAP_FIXED);
            if negb (offset_in_page area =? 0) then Some (mm2, ENOMEM, None)
            else
              '(mm3, r) ← move_vma moved vma addr old_len new_len new_addr mm2;
              if negb (offset_in_page r =? 0) then Some (mm3, ENOMEM, None)
              else Some (mm3, RET_OKAY, Some new_addr)
        end.

(** The part of [handle_p2m_mremap] under the semaphore *)
Definition mremap_body (moved : pgt_call -> Z) (old_addr old_len new_len flags new_addr0 : Z)
    (mm : lego_mm) : option (lego_mm * Z * option Z) :=
  if has flags MREMAP_FIXED then mremap_to moved old_addr old_len new_addr0 new_len mm
  else if new_len <=? old_len then
    '(mm1, ret) ← do_munmap (old_addr +u new_len) (old_len -u new_len) mm;
    if negb (ret =? 0) && negb (old_len =? new_len) then Some (mm1, ERR_TO_LEGO_RET ret, None)
    else Some (mm1, RET_OKAY, Some old_addr)
  else
    match vma_to_resize old_addr old_len new_len mm with
    | inl e => Some (mm, ERR_TO_LEGO_RET e, None)
    | inr vma =>
        let v := deref mm vma in
        expandable ← (if old_len =? vm_end v -u old_addr
                      then vma_expandable mm vma (new_len -u old_len) else Some false);
        if (expandable : bool) then
          mm1 ← vma_adjust vma (vm_start v) (old_addr +u new_len) (vm_pgoff v) None mm;
          Some (mm1, RET_OKAY, Some old_addr)
        else if has flags MREMAP_MAYMOVE then
          new_addr ← get_unmapped_area mm 0 new_len (linear_pgoff v old_addr) (share_flags v 0);
          if negb (offset_in_page new_addr =? 0)
          then Some (mm, ERR_TO_LEGO_RET (to_long new_addr), None)
          else
            '(mm1, r) ← move_vma moved vma old_addr old_len new_len new_addr mm;
            if negb (offset_in_page r =? 0) then Some (mm1, ERR_TO_LEGO_RET (to_long r), None)
            else Some (mm1, RET_OKAY, Some r)
        else Some (mm, EINVAL, None)
    end.

(** [tsk]: the result of [find_lego_task_by_pid]; [killed]: the lock was not taken *)
Definition handle_p2m_mremap (moved : pgt_call -> Z) (killed : bool)
    (old_addr old_len new_len flags new_addr : Z) (tsk : option lego_mm) :
    option (option lego_mm * Z * option Z) :=
  match tsk with
  | None => Some (None, ESRCH, None)
  | Some mm =>
      if killed then Some (Some mm, EINTR, None)
      else '(mm1, status, addr) ← mremap_body moved old_addr old_len new_len flags new_addr mm;
           Some (Some mm1, status, addr)
  end.

End Operations.

(** ** Stack growth *)

Definition vm_stat_account (flags npages : Z) (mm : lego_mm) : lego_mm :=
  if is_exec_mapping flags then
    set_counters (total_vm mm +u npages) (data_vm mm) (exec_vm mm +u npages) (stack_vm mm) mm
  else if is_stack_mapping flags then
    set_counters (total_vm mm +u npages) (data_vm mm) (exec_vm mm) (stack_vm mm +u npages) mm
  else if is_data_mapping flags then
    set_counters (total_vm mm +u npages) (data_vm mm +u npages) (exec_vm mm) (stack_vm mm) mm
  else set_counters (total_vm mm +u npages) (data_vm mm) (exec_vm mm) (stack_vm mm) mm.

Definition _STK_LIM : Z := 8 * 1024 * 1024.

Definition acct_stack_growth (vma : ptr) (size grow : Z) (mm : lego_mm) : Z :=
  if negb (may_expand_vm mm (vm_flags (deref mm vma)) grow) then - ENOMEM
  else
    let actual_size :=
      if negb (size =? 0) && has (vm_flags (deref mm vma)) (Z.lor VM_GROWSUP VM_GROWSDOWN)
      then size -u PAGE_SIZE else size in
    if _STK_LIM <? actual_size then - ENOMEM else 0.

Definition stack_guard_gap : Z := 256 * PAGE_SIZE.

(** The second component is the return value; [None] when [error] is returned
    without having been set. *)
Definition expand_downwards (vma : ptr) (address0 : Z) (mm : lego_mm) :
    option (lego_mm * option Z) :=
  let address := Z.land address0 PAGE_MASK in
  let gap_addr := address -u stack_guard_gap in
  if address <? gap_addr then Some (mm, Some (- ENOMEM))
  else
    let v := deref mm vma in
    if address <? vm_start v then
      let size := vm_end v -u address in
      let grow := Z.shiftr (vm_start v -u address) PAGE_SHIFT in
      if grow <=? vm_pgoff v then
        let error := acct_stack_growth vma size grow mm in
        if negb (error =? 0) then Some (mm, Some error)
        else
          let mm1 := vm_stat_account (vm_flags v) grow mm in
          let mm2 := upd_vma vma (fun w =>
                       with_range address (vm_end w) (vm_pgoff w -u grow) w) mm1 in
          mm3 ← vma_gap_update vma mm2;
          Some (mm3, Some 0)
      else Some (mm, Some (- ENOMEM))
    else Some (mm, None).

Definition expand_stack : ptr -> Z -> lego_mm -> option (lego_mm * option Z) :=
  expand_downwards.

Definition find_extend_vma (addr0 : Z) (mm : lego_mm) : option (lego_mm * option ptr) :=
  let addr := Z.land addr0 PAGE_MASK in
  match find_vma mm addr with
  | None => Some (mm, None)
  | Some vma =>
      if vm_start (deref mm vma) <=? addr then Some (mm, Some vma)
      else if negb (has (vm_flags (deref mm vma)) VM_GROWSDOWN) then Some (mm, None)
      else
        '(mm1, ret) ← expand_stack vma addr mm;
        match ret with
        | Some 0 => Some (mm1, Some vma)
        | Some _ => Some (mm1, None)
        | None => None
        end
  end.

Definition mprotect_fixup (vma : ptr) (start last newflags : Z) (mm : lego_mm) :
    lego_mm * ptr * Z :=
  (mm, vma, 0).

(** ** Creation, fork and exit *)

(** [lego_mm_init]: the list and the tree are reset, the other fields kept.  The
    areas of the address space that [mm] was copied from belong to that one. *)
Definition lego_mm_init (mm : lego_mm) : lego_mm := set_vmas ∅ (set_mmap [] (set_mm_rb Leaf mm)).

Definition zero_mm : lego_mm := mk_mm ∅ [] Leaf 0 0 0 0 0 0 0 0 0 0 0 ∅ [].

(** [lego_mm_alloc]: [kzalloc], then [memcpy] from the parent's *)
Definition lego_mm_alloc (parent : option lego_mm) : lego_mm :=
  lego_mm_init (match parent with Some pmm => pmm | None => zero_mm end).

Definition VM_LOCKONFAULT : Z := Z.shiftl 1 19.
Definition VM_UFFD_MISSING : Z := 512.
Definition VM_UFFD_WP : Z := 4096.

(** [tmp->vm_flags &= ~(VM_LOCKED|VM_LOCKONFAULT|VM_UFFD_MISSING|VM_UFFD_WP)] *)
Definition fork_flags (flags : Z) : Z :=
  Z.ldiff flags (Z.lor (Z.lor VM_LOCKED VM_LOCKONFAULT) (Z.lor VM_UFFD_MISSING VM_UFFD_WP)).

Definition with_flags (flags : Z) (v : vm_area) : vm_area :=
  mk_vma (vm_start v) (vm_end v) (vm_page_prot v) flags (vm_ops v) (vm_pgoff v) (vm_file v).

Record fork_vmainfo := mk_vmainfo {
  vi_start : Z;
  vi_end : Z;
  vi_flags : Z
}.

Section Fork.
Context `{Kmalloc}.
(** The result of [lego_copy_page_range] *)
Context (copied : pgt_call -> Z).

(** The loop of [dup_lego_mmap] over the parent's areas [l]; [rb_link] follows the
    area linked last. *)
Fixpoint dup_loop (oldmm : lego_mm) (l : list ptr) (rb_link : link)
    (reply : list fork_vmainfo) (mm : lego_mm) : option (lego_mm * list fork_vmainfo * Z) :=
  match l with
  | [] => Some (mm, reply, 0)
  | mpnt :: l' =>
      match kmalloc mm with
      | None => Some (mm, reply, - ENOMEM)
      | Some tmp =>
          let v := deref oldmm mpnt in
          let v' := with_flags (fork_flags (vm_flags v)) v in
          let mm1 := get_file_opt (vm_file v') (set_vmas (<[tmp := v']> (vmas mm)) mm) in
          let mm2 := set_mmap (mmap mm1 ++ [tmp]) mm1 in
          mm3 ← __vma_link_rb tmp rb_link mm2;
          let mm4 := log_pgt (Copy_page_range mpnt)
                       (set_map_count (map_count mm3 + 1) mm3) in
          let ret := copied (Copy_page_range mpnt) in
          if negb (ret =? 0) then Some (mm4, reply, ret)
          else dup_loop oldmm l' (LinkRight tmp)
                 (reply ++ [mk_vmainfo (vm_start v) (vm_end v) (vm_flags v)]) mm4
      end
  end.

Definition dup_lego_mmap (killed : bool) (oldmm mm : lego_mm) :
    option (lego_mm * list fork_vmainfo * Z) :=
  if killed then Some (mm, [], - EINTR)
  else
    dup_loop oldmm (mmap oldmm) (LinkPath []) []
      (set_counters (total_vm oldmm) (data_vm oldmm) (exec_vm oldmm) (stack_vm oldmm) mm).

End Fork.

(** [unmap_vmas(vma, 0, -1)] *)
Definition exit_lego_mmap (mm : lego_mm) : lego_mm :=
  match mmap mm with
  | [] => mm
  | l =>
      let mm1 := unmap_vmas l 0 ULONG_MAX mm in
      let mm2 := log_pgt (Free_pgtables (ranges (deref mm1) l) FIRST_USER_ADDRESS USER_PGTABLES_CEILING) mm1 in
      remove_vma_list l mm2
  end.
