(* ===== verification/VmaTree.v ===== *)
(** * Memory manager, virtual memory areas: the list and the augmented tree

    Positions in the list of areas ([vm_next], [vm_prev]), the gap in front of each
    area, and what [vma_gap_update], [__vma_rb_erase] and [__vma_link_rb] do to a
    tree whose augmented fields are right, or wrong at one area only. *)

From S2P Require Import Prelude RbTree VmaModel.

(** The gap between an area and the one before it *)
Definition own_gap (mm : lego_mm) (p : ptr) : Z :=
  match vm_prev mm p with
  | Some q => vm_start (deref mm p) -u vm_end (deref mm q)
  | None => vm_start (deref mm p)
  end.

Definition gap_of (own : ptr -> Z) (p : ptr) (left right : option Z) : Z :=
  max_gap (max_gap (own p) left) right.

(** The tree holds the areas [l] in order, is balanced, and its augmented fields are
    the maximal gaps of the subtrees. *)
Definition tree_ok (own : ptr -> Z) (l : list ptr) (t : rbtree ptr Z) : Prop :=
  elements t = l /\ rb_tree t /\ aug_ok (gap_of own) t.

(** The tree without its augmented fields *)
Fixpoint strip (t : rbtree ptr Z) : rbtree ptr Z :=
  match t with
  | Leaf => Leaf
  | Node c _ l x r => Node c 0 (strip l) x (strip r)
  end.
Definition strip_frame (f : frame ptr Z) : frame ptr Z :=
  match f with
  | FrameL c _ x r => FrameL c 0 x (strip r)
  | FrameR c _ l x => FrameR c 0 (strip l) x
  end.

(** The null child pointer [lk] of [t] lies between the areas [pre] and [post]. *)
Definition link_at (lk : link) (t : rbtree ptr Z) (pre post : list ptr) : Prop :=
  exists z, follow_link lk t = Some z /\ plug z Leaf = t /\ before z = pre /\ after z = post.

(** ** Positions *)

Section Positions.
Implicit Types (p q : ptr) (l pre post : list ptr).

Lemma from_elem_app p pre post : p ∉ pre -> from_elem p (pre ++ p :: post) = p :: post.
Proof.
  induction pre as [|a pre IH]; intros Hp; simpl; [by rewrite decide_True|].
  apply not_elem_of_cons in Hp as [? ?]. rewrite decide_False by done. auto.
Qed.

Lemma after_elem_app p pre post : p ∉ pre -> after_elem p (pre ++ p :: post) = post.
Proof. intros. unfold after_elem. by rewrite from_elem_app. Qed.

Lemma upto_elem_app p pre post : p ∉ pre -> upto_elem p (pre ++ p :: post) = pre ++ [p].
Proof.
  induction pre as [|a pre IH]; intros Hp; simpl; [by rewrite decide_True|].
  apply not_elem_of_cons in Hp as [? ?]. rewrite decide_False by done. by rewrite IH.
Qed.

Lemma prev_elem_app o p pre post :
  p ∉ pre -> prev_elem o p (pre ++ p :: post)
             = match list.last pre with Some q => Some q | None => o end.
Proof.
  revert o. induction pre as [|a pre IH]; intros o Hp; simpl; [by rewrite decide_True|].
  apply not_elem_of_cons in Hp as [? ?]. rewrite decide_False, IH by done.
  destruct pre as [|b pre]; [done|]. simpl.
  destruct (list.last (b :: pre)) eqn:E; [done|by apply last_None in E].
Qed.

Lemma NoDup_split p pre post : NoDup (pre ++ p :: post) -> (p ∉ pre) /\ (p ∉ post).
Proof.
  intros (_ & Hd & Hn)%list.NoDup_app. apply list.NoDup_cons in Hn as [? _].
  split; [|done]. intros Hp. apply (Hd p Hp). by left.
Qed.

End Positions.

Section AtPosition.
Context (mm : lego_mm) (p : ptr) (pre post : list ptr).
Context (Hl : mmap mm = pre ++ p :: post) (Hn : NoDup (mmap mm)).

Lemma vm_next_at : vm_next mm p = hd_error post.
Proof using Hl Hn.
  unfold vm_next. rewrite Hl in *. apply NoDup_split in Hn as [? ?]. by rewrite after_elem_app.
Qed.

Lemma vm_prev_at : vm_prev mm p = list.last pre.
Proof using Hl Hn.
  unfold vm_prev. rewrite Hl in *. apply NoDup_split in Hn as [? ?].
  rewrite prev_elem_app by done. by destruct (list.last pre).
Qed.

Lemma own_gap_at :
  own_gap mm p = match list.last pre with
                 | Some q => vm_start (deref mm p) -u vm_end (deref mm q)
                 | None => vm_start (deref mm p)
                 end.
Proof using Hl Hn. unfold own_gap. by rewrite vm_prev_at. Qed.

Lemma prev_end_at :
  prev_end mm p = match list.last pre with Some q => vm_end (deref mm q) | None => 0 end.
Proof using Hl Hn. unfold prev_end. by rewrite vm_prev_at. Qed.

End AtPosition.

(** ** The augmented field *)

Lemma compute_gap_of mm : vma_compute_subtree_gap mm = gap_of (own_gap mm).
Proof. reflexivity. Qed.

#[export] Instance gap_rotation own : RotationInvariant (gap_of own).
Proof.
  intros x y a b c. unfold gap_of, max_gap.
  destruct a, b, c; repeat case_match; zbool; lia.
Qed.

Section Agree.
Context (own own' : ptr -> Z).

Lemma aug_ok_agree t :
  (forall x, x ∈ elements t -> own x = own' x) ->
  aug_ok (gap_of own) t -> aug_ok (gap_of own') t.
Proof.
  induction t as [|c g l IHl x r IHr]; simpl; [done|]. intros Ha (Hg & Hl & Hr).
  split_and!; [|apply IHl; [set_solver|done]|apply IHr; [set_solver|done]].
  rewrite Hg. unfold gap_of. rewrite Ha; [done|set_solver].
Qed.

Lemma ctx_aug_agree gh z :
  (forall x, x ∈ before z ++ after z -> own x = own' x) ->
  ctx_aug (gap_of own) gh z -> ctx_aug (gap_of own') gh z.
Proof.
  revert gh. induction z as [|[c g x r|c g l x] z IH]; simpl; intros gh Ha; [done|..];
    intros (Hg & Ht & Hz); (split_and!;
      [rewrite Hg; unfold gap_of; rewrite Ha; [done|set_solver]
      |eapply aug_ok_agree; [|done]; set_solver|apply IH; [set_solver|done]]).
Qed.
End Agree.

Lemma ctx_aug_zero own z :
  (forall x, x ∈ before z ++ after z -> 0 <= own x) ->
  ctx_aug (gap_of own) None z -> ctx_aug (gap_of own) (Some 0) z.
Proof.
  destruct z as [|[c g x r|c g l x] z]; simpl; [done|..]; intros Ho (Hg & Ht & Hz);
    (split_and!; [|done|done]); rewrite Hg; unfold gap_of, max_gap;
    (assert (0 <= own x) by (apply Ho; set_solver)); repeat case_match; zbool; lia.
Qed.

Lemma elements_locate c g l x r (z : list (frame ptr Z)) t :
  plug z (Node c g l x r) = t ->
  elements t = (before z ++ elements l) ++ x :: (elements r ++ after z).
Proof. intros <-. rewrite elements_plug. simpl. by rewrite <- !app_assoc. Qed.

(** [p] is located in a tree that is right except for the gap of [p]: the subtrees
    and the context are right for the new gaps. *)
Lemma locate_agree own own' l t p :
  tree_ok own l t -> NoDup l -> p ∈ l ->
  (forall x, x ∈ l -> x <> p -> own x = own' x) ->
  exists c g tl tr z, locate p t [] = Some (c, g, tl, tr, z) /\
    plug z (Node c g tl p tr) = t /\
    l = (before z ++ elements tl) ++ p :: (elements tr ++ after z) /\
    aug_ok (gap_of own') tl /\ aug_ok (gap_of own') tr /\ ctx_aug (gap_of own') (Some g) z.
Proof.
  intros (He & Hb & Ha) Hn Hp Hag. rewrite <- He in Hp.
  destruct (locate_complete p t [] Hp) as [[[[[c g] tl] tr] z] Hloc].
  pose proof (locate_sound _ _ _ _ _ _ _ _ Hloc) as Hpl. simpl in Hpl.
  pose proof (elements_locate _ _ _ _ _ _ _ Hpl) as Hl. rewrite He in Hl.
  exists c, g, tl, tr, z. rewrite <- Hpl in Ha. apply aug_ok_plug in Ha as [(Hg & Htl & Htr) Hz].
  assert (Hne : forall x, x ∈ before z ++ elements tl \/ x ∈ elements tr ++ after z -> own x = own' x).
  { intros x Hx. rewrite Hl in Hn. apply NoDup_split in Hn as [? ?].
    apply Hag; [rewrite Hl; set_solver|]. intros ->. set_solver. }
  split_and!; try done; [eapply aug_ok_agree; [|done]|eapply aug_ok_agree; [|done]
    |eapply ctx_aug_agree; [|done]]; intros x Hx; apply Hne; set_solver.
Qed.

(** ** Shape *)

Lemma strip_elements t : elements (strip t) = elements t.
Proof. induction t as [|c g l IHl x r IHr]; simpl; congruence. Qed.

Lemma strip_plug z t : strip (plug z t) = plug (map strip_frame z) (strip t).
Proof. revert t. induction z as [|[] z IH]; intros t; simpl; [done|..]; by rewrite IH. Qed.

Lemma strip_before z : before (map strip_frame z) = before z.
Proof. induction z as [|[] z IH]; simpl in *; rewrite ?strip_elements, ?IH; done. Qed.

Lemma strip_after z : after (map strip_frame z) = after z.
Proof. induction z as [|[] z IH]; simpl in *; rewrite ?strip_elements, ?IH; done. Qed.

Lemma strip_same_frame z z' :
  Forall2 same_frame z z' -> map strip_frame z = map strip_frame z'.
Proof.
  induction 1 as [|[] [] z z' Hf _ IH]; simpl in *; try done; destruct_and!; simplify_eq;
    by rewrite IH.
Qed.

Lemma follow_strip path t z :
  follow path (strip t) (map strip_frame z) = option_map (map strip_frame) (follow path t z).
Proof.
  revert t z. induction path as [|[] path IH]; intros [|c g l x r] z; simpl; try done.
  - apply (IH l (FrameL c g x r :: z)).
  - apply (IH r (FrameR c g l x :: z)).
Qed.

Lemma follow_plug path t z z' : follow path t z = Some z' -> plug z' Leaf = plug z t.
Proof.
  revert t z. induction path as [|[] path IH]; intros [|c g l x r] z; simpl; try done;
    [by intros [= ->]|intros Hf; exact (IH _ _ Hf)..].
Qed.

Lemma link_at_strip path t t' pre post :
  strip t = strip t' -> link_at (LinkPath path) t pre post -> link_at (LinkPath path) t' pre post.
Proof.
  intros Hs (z & Hf & Hp & Hb & Ha). simpl in *.
  pose proof (follow_strip path t []) as H1. pose proof (follow_strip path t' []) as H2.
  simpl in *. rewrite Hs, H2, Hf in H1. destruct (follow path t' []) as [z'|] eqn:E; [|done].
  simpl in H1. injection H1 as H1. exists z'. split_and!; [done|by rewrite (follow_plug _ _ _ _ E)|..].
  - by rewrite <- strip_before, H1, strip_before.
  - by rewrite <- strip_after, H1, strip_after.
Qed.

(** ** The operations on the tree *)

(** [vma_gap_update(p)] repairs a tree that is wrong at [p] only. *)
Lemma vma_gap_update_ok own mm l p :
  tree_ok own l (mm_rb mm) -> NoDup l -> p ∈ l ->
  (forall x, x ∈ l -> x <> p -> own x = own_gap mm x) ->
  exists t, vma_gap_update p mm = Some (set_mm_rb t mm) /\ tree_ok (own_gap mm) l t /\
    strip t = strip (mm_rb mm).
Proof.
  intros Ht Hn Hp Hag.
  destruct (locate_agree _ _ _ _ _ Ht Hn Hp Hag) as (c & g & tl & tr & z & Hloc & Hpl & Hl & H1 & H2 & H3).
  destruct Ht as (He & Hb & _). unfold vma_gap_update. rewrite Hloc. simpl.
  destruct (propagate_node _ _ _ _ _ _ _) as [n z'] eqn:Hpn.
  exists (plug z' n). split; [done|].
  destruct (propagate_node_aug _ _ _ _ _ _ _ _ _ H1 H2 H3 Hpn) as [Hn' Hz'].
  destruct (propagate_node_shape _ _ _ _ _ _ _ _ _ Hpn) as ((g' & ->) & Hs & Hbf & Haf).
  split_and!; [split_and!; [| |by apply aug_ok_plug]|].
  - rewrite elements_plug, Hbf, Haf; simpl; by rewrite Hl, <- !app_assoc.
  - rewrite <- Hpl in Hb. apply ctx_unplug in Hb as (c' & m & Hrb & Hctx).
    eapply ctx_plug; [eapply same_frame_ctx; eauto|]. inversion Hrb; subst; by econstructor.
  - rewrite <- Hpl, !strip_plug. by rewrite (strip_same_frame _ _ Hs).
Qed.

(** Removing [p] from the tree; the gap of [p] itself may be wrong. *)
Lemma vma_rb_erase_ok own mm l pre p post :
  tree_ok own l (mm_rb mm) -> NoDup l -> l = pre ++ p :: post ->
  (forall x, x ∈ l -> x <> p -> own x = own_gap mm x) ->
  exists t, __vma_rb_erase p mm = Some (set_mm_rb t mm) /\ tree_ok (own_gap mm) (pre ++ post) t.
Proof.
  intros Ht Hn Hpos Hag.
  destruct (locate_agree _ (own_gap mm) _ _ p Ht Hn) as (c & g & tl & tr & z & Hloc & Hpl & Hl & H1 & H2 & H3);
    [set_solver|done|].
  destruct Ht as (He & Hb & _). unfold __vma_rb_erase. rewrite Hloc. simpl.
  rewrite <- Hpl in Hb.
  destruct (rb_erase_spec (gap_of (own_gap mm)) c g tl p tr z Hb H1 H2 H3) as (t & Her & Hel & Hbt & Hat).
  rewrite compute_gap_of, Her. simpl. exists t. split; [done|]. split_and!; [|done|done].
  rewrite Hel. pose proof Hn as Hn'. rewrite Hpos in Hn. rewrite Hl in Hn'.
  apply NoDup_split in Hn as [Hn1 _], Hn' as [Hn2 _]. rewrite Hpos in Hl.
  by apply not_elem_of_app_cons_inv_l in Hl as (-> & _ & ->).
Qed.

(** Linking [p] into the tree, when it is in the list already.  Before, the field of
    the area after [p] may be wrong. *)
Lemma vma_link_rb_ok own mm p lk pre post :
  mmap mm = pre ++ p :: post -> NoDup (mmap mm) ->
  tree_ok own (pre ++ post) (mm_rb mm) ->
  link_at lk (mm_rb mm) pre post -> (post = [] \/ exists path, lk = LinkPath path) ->
  (forall x, x ∈ pre ++ post -> hd_error post <> Some x -> own x = own_gap mm x) ->
  (forall x, x ∈ pre ++ post -> 0 <= own_gap mm x) ->
  exists t, tree_ok (own_gap mm) (pre ++ p :: post) t /\
    __vma_link_rb p lk mm = Some (set_mm_rb t
      (match post with [] => set_highest_vm_end (vm_end (deref mm p)) mm | _ => mm end)).
Proof.
  intros Hl Hn Ht Hlk Hpath Hag Hpos. unfold __vma_link_rb. rewrite (vm_next_at mm p pre post Hl Hn).
  set (mm' := match post with [] => set_highest_vm_end _ mm | _ => mm end).
  assert (exists t0, tree_ok (own_gap mm) (pre ++ post) t0 /\ link_at lk t0 pre post /\
    match hd_error post with
    | Some next => vma_gap_update next mm
    | None => Some (set_highest_vm_end (vm_end (deref mm p)) mm)
    end = Some (set_mm_rb t0 mm')) as (t0 & (He & Hb & Ha) & Hlk0 & ->).
  { subst mm'. destruct post as [|nx post]; simpl.
    { exists (mm_rb mm). split_and!; [|done|by destruct mm].
      destruct Ht as (? & ? & Ha). split_and!; [done..|]. eapply aug_ok_agree; [|exact Ha].
      intros x Hx. apply Hag; [congruence|done]. }
    destruct (vma_gap_update_ok own mm (pre ++ nx :: post) nx) as (t0 & ? & ? & ?);
      [done| |set_solver|intros x Hx Hne; apply Hag; [done|simpl; congruence]|].
    { rewrite Hl in Hn. eapply sublist_NoDup; [exact Hn|]. apply sublist_app; [done|].
      by apply sublist_cons. }
    exists t0. split_and!; [done| |done]. destruct Hpath as [?|[path ->]]; [done|].
    by eapply link_at_strip. }
  simpl. destruct Hlk0 as (z & -> & Hp & Hbf & Haf). simpl.
  assert (Hc : own_gap (set_mm_rb t0 mm') = own_gap mm) by (subst mm'; by destruct post).
  rewrite compute_gap_of, Hc.
  destruct (rb_add_spec (gap_of (own_gap mm)) p 0 z) as (t & -> & Het & Hbt & Hat).
  - by rewrite Hp.
  - rewrite <- Hp in Ha. apply aug_ok_plug in Ha as [_ Ha]. apply ctx_aug_zero; [|done].
    by rewrite Hbf, Haf.
  - simpl. exists t. split; [split_and!; [by rewrite Het, Hbf, Haf|done|done]|].
    subst mm'. by destruct post.
Qed.
