(* ===== verification/VmaInv.v ===== *)
(** * Memory manager, virtual memory areas: the invariant

    The well-formedness invariant of an address space, lookup by address
    ([find_vma], [find_vma_links]) and linking a new area. *)

From S2P Require Import Prelude RbTree VmaModel VmaTree.

(** The areas [l], with fields [a], are non-empty, disjoint, in ascending order,
    above [lo] and in user space. *)
Fixpoint sorted (a : ptr -> vm_area) (lo : Z) (l : list ptr) : Prop :=
  match l with
  | [] => True
  | p :: l' => lo <= vm_start (a p) /\ vm_start (a p) < vm_end (a p) /\
               vm_end (a p) <= TASK_SIZE /\ sorted a (vm_end (a p)) l'
  end.

(** The end of the last area of [l], [lo] if there is none *)
Definition end_of (a : ptr -> vm_area) (lo : Z) (l : list ptr) : Z :=
  match list.last l with Some q => vm_end (a q) | None => lo end.

(** Page protections: a page is present, or inaccessible, and no bit is part of an
    address other than the uppermost one. *)
Definition prot_ok (prot : Z) : Prop :=
  Z.ldiff prot (Z.lor _PAGE_NX (PAGE_SIZE - 1)) = 0 /\ has prot (Z.lor _PAGE_PRESENT _PAGE_PROTNONE) = true.

(** Page-granular, and anonymous exactly when there is no file *)
Definition area_ok (v : vm_area) : Prop :=
  page_aligned (vm_start v) /\ page_aligned (vm_end v) /\ is_u64 (vm_pgoff v) /\
  (vm_ops v = None <-> vm_file v = None) /\ prot_ok (vm_page_prot v).

(** [k]: what [map_count] exceeds the number of areas by; 0 except in a forked
    process. *)
Record wf (k : Z) (mm : lego_mm) : Prop := {
  wf_live : forall p, p ∈ mmap mm -> is_Some (vmas mm !! p);
  wf_sorted : sorted (deref mm) 0 (mmap mm);
  wf_area : forall p, p ∈ mmap mm -> area_ok (deref mm p);
  wf_tree : tree_ok (own_gap mm) (mmap mm) (mm_rb mm);
  wf_highest : highest_vm_end mm = end_of (deref mm) 0 (mmap mm);
  wf_count : map_count mm = Z.of_nat (length (mmap mm)) + k
}.

(** The first area that ends above [addr] *)
Definition first_above (mm : lego_mm) (addr : Z) : option ptr :=
  List.find (fun p => addr <? vm_end (deref mm p)) (mmap mm).

(** [lk] is where an area between [pre] and [post] has to be linked. *)
Definition links_at (mm : lego_mm) (lk : vma_links) (pre post : list ptr) : Prop :=
  lk_prev lk = list.last pre /\ (pre = [] -> lk_parent lk = hd_error post) /\
  (exists path, lk_link lk = LinkPath path) /\ link_at (lk_link lk) (mm_rb mm) pre post.

(** ** Sorted lists of areas *)

Section Sorted.
Implicit Types (a : ptr -> vm_area) (l : list ptr).

Lemma end_of_snoc a lo l p : end_of a lo (l ++ [p]) = vm_end (a p).
Proof. unfold end_of. by rewrite last_snoc. Qed.

Lemma end_of_cons a lo p l : end_of a lo (p :: l) = end_of a (vm_end (a p)) l.
Proof.
  unfold end_of. destruct l as [|q l]; [done|]. rewrite last_cons_cons.
  destruct (list.last (q :: l)) eqn:E; [done|by apply last_None in E].
Qed.

Lemma end_of_app a lo l1 l2 : end_of a lo (l1 ++ l2) = end_of a (end_of a lo l1) l2.
Proof.
  revert lo. induction l1 as [|p l1 IH]; intros lo; [done|].
  simpl. by rewrite !end_of_cons, IH.
Qed.

Lemma sorted_app a lo l1 l2 :
  sorted a lo (l1 ++ l2) <-> sorted a lo l1 /\ sorted a (end_of a lo l1) l2.
Proof.
  revert lo. induction l1 as [|p l1 IH]; intros lo; simpl; [tauto|].
  rewrite IH, end_of_cons. tauto.
Qed.

Lemma sorted_weaken a lo lo' l : lo' <= lo -> sorted a lo l -> sorted a lo' l.
Proof. destruct l; simpl; [done|]. intros ? (? & ? & ? & ?). split_and!; [lia|done..]. Qed.

Lemma sorted_ext a a' lo l :
  (forall p, p ∈ l -> vm_start (a p) = vm_start (a' p) /\ vm_end (a p) = vm_end (a' p)) ->
  sorted a lo l -> sorted a' lo l.
Proof.
  revert lo. induction l as [|p l IH]; simpl; intros lo Ha; [done|].
  destruct (Ha p) as [-> ->]; [by left|]. intros (? & ? & ? & ?). split_and!; [done..|].
  apply IH; [|done]. intros q Hq. apply Ha. by right.
Qed.

Lemma end_of_ext a a' lo l :
  (forall p, p ∈ l -> vm_end (a p) = vm_end (a' p)) -> end_of a lo l = end_of a' lo l.
Proof.
  intros Ha. unfold end_of. destruct (list.last l) eqn:E; [|done].
  apply Ha. by apply last_Some_elem_of.
Qed.

Lemma sorted_bounds a lo l p :
  sorted a lo l -> p ∈ l ->
  lo <= vm_start (a p) /\ vm_start (a p) < vm_end (a p) /\ vm_end (a p) <= TASK_SIZE.
Proof.
  revert lo. induction l as [|q l IH]; simpl; intros lo; [by intros _ ?%not_elem_of_nil|].
  intros (? & ? & ? & Hs) [->|Hp]%elem_of_cons; [done|].
  destruct (IH _ Hs Hp) as (? & ? & ?). lia.
Qed.

Lemma end_of_bounds a lo l : sorted a lo l -> lo <= end_of a lo l.
Proof.
  intros Hs. unfold end_of. destruct (list.last l) eqn:E; [|lia].
  apply last_Some_elem_of in E. destruct (sorted_bounds _ _ _ _ Hs E) as (? & ? & ?). lia.
Qed.

Lemma end_of_upper a lo l p : sorted a lo l -> p ∈ l -> vm_end (a p) <= end_of a lo l.
Proof.
  intros Hs Hp. apply list_elem_of_split in Hp as (l1 & l2 & ->).
  rewrite end_of_app, end_of_cons. apply sorted_app in Hs as [_ Hs]. simpl in Hs.
  apply end_of_bounds. tauto.
Qed.

(** The position of an area in the list is its position in the address space. *)
Lemma sorted_split a lo pre p post :
  sorted a lo (pre ++ p :: post) ->
  (forall q, q ∈ pre -> vm_end (a q) <= vm_start (a p)) /\
  (forall q, q ∈ post -> vm_end (a p) <= vm_start (a q)).
Proof.
  intros [H1 H2]%sorted_app. simpl in H2. destruct H2 as (? & ? & ? & H2). split; intros q Hq.
  - pose proof (end_of_upper _ _ _ _ H1 Hq). lia.
  - pose proof (sorted_bounds _ _ _ _ H2 Hq). lia.
Qed.

Lemma sorted_NoDup a lo l : sorted a lo l -> NoDup l.
Proof.
  revert lo. induction l as [|p l IH]; simpl; intros lo; [constructor|].
  intros (? & ? & ? & Hs). constructor; [|eauto].
  intros Hp. pose proof (sorted_bounds _ _ _ _ Hs Hp). lia.
Qed.

End Sorted.

Lemma wf_NoDup k mm : wf k mm -> NoDup (mmap mm).
Proof. intros H. eapply sorted_NoDup, H. Qed.

(** Every entry of [protection_map] is good, and changing a protection keeps it so. *)
Lemma prot_get flags : prot_ok (vm_get_page_prot flags).
Proof.
  unfold vm_get_page_prot. assert (Hr : (Z.to_nat (Z.land flags 15) < 16)%nat).
  { pose proof (Z.land_ones flags 4 ltac:(lia)) as E. change (Z.ones 4) with 15 in E. rewrite E.
    pose proof (Z.mod_pos_bound flags (2 ^ 4)). lia. }
  revert Hr. generalize (Z.to_nat (Z.land flags 15)). intros n Hn.
  do 16 (destruct n as [|n]; [done|]). lia.
Qed.

Lemma prot_modify old flags : prot_ok old -> prot_ok (vm_pgprot_modify old flags).
Proof.
  intros [Ho _]. destruct (prot_get flags) as [Hn Hp]. unfold vm_pgprot_modify, pgprot_modify. split.
  - apply Z.bits_inj'. intros n Hn0. rewrite Z.bits_0, Z.ldiff_spec, Z.lor_spec, Z.land_spec.
    apply (f_equal (fun z => Z.testbit z n)) in Ho, Hn. rewrite Z.bits_0, Z.ldiff_spec in Ho, Hn.
    destruct (Z.testbit old n), (Z.testbit _PAGE_CHG_MASK n), (Z.testbit (vm_get_page_prot flags) n), (Z.testbit (Z.lor _ _) n); done.
  - unfold has in *. apply negb_true_iff, Z.eqb_neq in Hp. apply negb_true_iff, Z.eqb_neq. intros E. apply Hp.
    rewrite Z.land_lor_distr_l in E. by apply Z.lor_eq_0_iff in E as [_ E].
Qed.

Lemma wf_bounds k mm p : wf k mm -> p ∈ mmap mm ->
  0 <= vm_start (deref mm p) /\ vm_start (deref mm p) < vm_end (deref mm p) /\
  vm_end (deref mm p) <= TASK_SIZE.
Proof. intros H Hp. eapply sorted_bounds; [apply H|done]. Qed.

Lemma TASK_SIZE_u64 : TASK_SIZE < ULONG_MOD.
Proof. done. Qed.

(** Fields other than the ranges do not matter to the list and the tree. *)
Lemma own_gap_ext mm mm' :
  mmap mm' = mmap mm ->
  (forall p, p ∈ mmap mm -> vm_start (deref mm' p) = vm_start (deref mm p) /\
                            vm_end (deref mm' p) = vm_end (deref mm p)) ->
  forall p, p ∈ mmap mm -> own_gap mm' p = own_gap mm p.
Proof.
  intros Hl Ha p Hp. unfold own_gap, vm_prev. rewrite Hl. destruct (Ha p Hp) as [-> _].
  destruct (prev_elem None p (mmap mm)) as [q|] eqn:E; [|done].
  assert (q ∈ mmap mm) as Hq; [|by destruct (Ha q Hq) as [_ ->]].
  assert (forall o l, prev_elem o p l = Some q -> Some q = o \/ q ∈ l) as Hpe.
  { intros o l. revert o. induction l as [|b l IH]; simpl; intros o; [done|].
    case_decide; [by left|]. intros [?|?]%IH; right; [simplify_eq; by left|by right]. }
  by apply Hpe in E as [|].
Qed.

(** The gaps are those of the list: 64-bit and not negative. *)
Lemma own_gap_pos mm p : (forall q, q ∈ mmap mm -> 0 <= vm_start (deref mm q)) ->
  p ∈ mmap mm -> 0 <= own_gap mm p.
Proof.
  intros Hs Hp. unfold own_gap. destruct (vm_prev mm p); [|by apply Hs].
  apply wrap_range.
Qed.

(** A change of the heap that does not reach the areas of the list *)
Lemma wf_heap k mm v :
  wf k mm -> (forall p, p ∈ mmap mm -> v !! p = vmas mm !! p) -> wf k (set_vmas v mm).
Proof.
  intros [Hl Hs Ha Ht Hh Hc] Hv.
  assert (Hd : forall p, p ∈ mmap mm -> deref (set_vmas v mm) p = deref mm p).
  { intros p Hp. unfold deref. simpl. by rewrite !lookup_total_alt, Hv. }
  split; simpl; [| | | | |done].
  - intros p Hp. rewrite Hv by done. auto.
  - eapply sorted_ext; [|exact Hs]. intros p Hp. by rewrite Hd.
  - intros p Hp. rewrite Hd by done. auto.
  - destruct Ht as (? & ? & Hau). split_and!; [done..|]. eapply aug_ok_agree; [|exact Hau].
    intros p Hp. symmetry. apply own_gap_ext; [done| |congruence].
    intros q Hq. by rewrite Hd.
  - rewrite Hh. apply end_of_ext. intros p Hp. by rewrite Hd.
Qed.

(** ** Lookup *)

Lemma find_app {A} (f : A -> bool) l1 l2 :
  List.find f (l1 ++ l2) = match List.find f l1 with Some x => Some x | None => List.find f l2 end.
Proof. induction l1 as [|x l1 IH]; simpl; [done|]. by destruct (f x). Qed.

Lemma find_none_all {A} (f : A -> bool) l :
  (forall x, x ∈ l -> f x = false) -> List.find f l = None.
Proof.
  induction l as [|x l IH]; simpl; intros Hf; [done|].
  rewrite (Hf x) by (by left). apply IH. intros y Hy. apply Hf. by right.
Qed.

Lemma find_vma_loop_ok mm addr t o lo :
  sorted (deref mm) lo (elements t) ->
  find_vma_loop mm addr t o =
  match List.find (fun p => addr <? vm_end (deref mm p)) (elements t) with
  | Some p => Some p
  | None => o
  end.
Proof.
  revert o lo. induction t as [|c g l IHl x r IHr]; intros o lo; simpl; [done|]. intros Hs.
  pose proof (sorted_split _ _ _ _ _ Hs) as [Hpre _].
  apply sorted_app in Hs as [Hsl Hsr]. simpl in Hsr. destruct Hsr as (? & ? & ? & Hsr).
  rewrite find_app. simpl. destruct (Z.ltb_spec addr (vm_end (deref mm x))).
  - case_bool; zbool.
    + rewrite find_none_all; [done|]. intros q Hq. apply Hpre in Hq. apply Z.ltb_ge. lia.
    + rewrite (IHl _ _ Hsl). by destruct (List.find _ _).
  - rewrite (IHr _ _ Hsr), (find_none_all _ (elements l)); [done|].
    intros q Hq. apply Hpre in Hq. apply Z.ltb_ge. lia.
Qed.

Lemma find_vma_ok k mm addr : wf k mm -> find_vma mm addr = first_above mm addr.
Proof.
  intros Hwf. unfold find_vma, first_above. destruct (wf_tree _ _ Hwf) as (He & _ & _).
  rewrite <- He. pose proof (wf_sorted _ _ Hwf) as Hs. rewrite <- He in Hs.
  rewrite (find_vma_loop_ok _ _ _ _ _ Hs). by destruct (List.find _ _).
Qed.

Lemma first_above_Some mm addr p :
  first_above mm addr = Some p ->
  exists pre post, mmap mm = pre ++ p :: post /\ addr < vm_end (deref mm p) /\
    forall q, q ∈ pre -> vm_end (deref mm q) <= addr.
Proof.
  unfold first_above. induction (mmap mm) as [|x l IH]; simpl; [done|].
  destruct (Z.ltb_spec addr (vm_end (deref mm x))).
  - intros [= ->]. exists [], l. split_and!; [done..|]. by intros q ?%not_elem_of_nil.
  - intros (pre & post & -> & ? & Hq)%IH. exists (x :: pre), post. split_and!; [done..|].
    intros q [->|?]%elem_of_cons; auto.
Qed.

Lemma first_above_None mm addr :
  first_above mm addr = None -> forall p, p ∈ mmap mm -> vm_end (deref mm p) <= addr.
Proof.
  unfold first_above. intros Hf p Hp. apply list_elem_of_In in Hp.
  pose proof (List.find_none _ _ Hf p Hp) as Hq. simpl in Hq. by zbool.
Qed.

(** ** Where to link *)

Lemma find_vma_links_loop_Some mm addr last t prev parent path lo lk :
  sorted (deref mm) lo (elements t) ->
  find_vma_links_loop mm addr last t prev parent path = Some lk ->
  exists pre post path', elements t = pre ++ post /\
    (forall p, p ∈ pre -> vm_end (deref mm p) <= addr) /\
    (forall p, p ∈ post -> last <= vm_start (deref mm p)) /\
    lk_prev lk = match list.last pre with Some q => Some q | None => prev end /\
    (pre = [] -> lk_parent lk = match hd_error post with Some q => Some q | None => parent end) /\
    lk_link lk = LinkPath (rev path ++ path') /\
    (forall z, exists z', follow path' t z = Some z' /\
       before z' = before z ++ pre /\ after z' = post ++ after z).
Proof.
  revert prev parent path lo. induction t as [|c g l IHl x r IHr];
    intros prev parent path lo Hs; simpl.
  { intros [= <-]. exists [], [], []. simpl. rewrite app_nil_r.
    split_and!; try done; try by intros p ?%not_elem_of_nil.
    intros z. exists z. by rewrite app_nil_r. }
  simpl in Hs. pose proof (sorted_split _ _ _ _ _ Hs) as [Hpre Hpost].
  apply sorted_app in Hs as [Hsl Hsr]. simpl in Hsr. destruct Hsr as (? & ? & ? & Hsr).
  destruct (Z.ltb_spec addr (vm_end (deref mm x))).
  - destruct (Z.ltb_spec (vm_start (deref mm x)) last); [done|]. intros Hf.
    destruct (IHl _ _ _ _ Hsl Hf) as (pre & post & path' & He & K1 & K2 & K3 & K4 & K5 & K6).
    exists pre, (post ++ x :: elements r), (TurnL :: path'). split_and!.
    + by rewrite He, <- app_assoc.
    + done.
    + intros p [?|[->|Hp]%elem_of_cons]%elem_of_app; [auto|lia|]. apply Hpost in Hp. lia.
    + done.
    + intros Hnil. rewrite K4 by done. by destruct post.
    + rewrite K5. simpl. by rewrite <- app_assoc.
    + intros z. simpl. destruct (K6 (FrameL c g x r :: z)) as (z' & ? & ? & ?).
      exists z'. split_and!; [done..|]. simpl in *. by rewrite <- app_assoc.
  - intros Hf.
    destruct (IHr _ _ _ _ Hsr Hf) as (pre & post & path' & He & K1 & K2 & K3 & K4 & K5 & K6).
    exists (elements l ++ x :: pre), post, (TurnR :: path'). split_and!.
    + by rewrite He, <- app_assoc.
    + intros p [Hp|[->|Hp]%elem_of_cons]%elem_of_app; [|lia|auto]. apply Hpre in Hp. lia.
    + done.
    + rewrite K3, last_app_cons. destruct pre as [|q pre]; [done|]. rewrite last_cons_cons.
      destruct (list.last (q :: pre)) eqn:E; [done|by apply last_None in E].
    + by intros ?%eq_sym%app_cons_not_nil.
    + rewrite K5. simpl. by rewrite <- app_assoc.
    + intros z. simpl. destruct (K6 (FrameR c g l x :: z)) as (z' & ? & Hb & ?).
      exists z'. split_and!; [done| |done]. rewrite Hb. simpl. by rewrite <- !app_assoc.
Qed.

Lemma find_vma_links_loop_None mm addr last t prev parent path :
  find_vma_links_loop mm addr last t prev parent path = None ->
  exists p, p ∈ elements t /\ addr < vm_end (deref mm p) /\ vm_start (deref mm p) < last.
Proof.
  revert prev parent path. induction t as [|c g l IHl x r IHr]; intros prev parent path; simpl; [done|].
  destruct (Z.ltb_spec addr (vm_end (deref mm x))).
  - destruct (Z.ltb_spec (vm_start (deref mm x)) last); [|intros (p & ? & ?)%IHl; set_solver].
    intros _. exists x. set_solver.
  - intros (p & ? & ?)%IHr. set_solver.
Qed.

Lemma find_vma_links_Some mm addr last lk lo :
  sorted (deref mm) lo (mmap mm) -> elements (mm_rb mm) = mmap mm ->
  find_vma_links mm addr last = Some lk ->
  exists pre post, mmap mm = pre ++ post /\ links_at mm lk pre post /\
    (forall p, p ∈ pre -> vm_end (deref mm p) <= addr) /\
    (forall p, p ∈ post -> last <= vm_start (deref mm p)).
Proof.
  intros Hs He Hf. rewrite <- He in Hs.
  destruct (find_vma_links_loop_Some _ _ _ _ _ _ _ _ _ Hs Hf)
    as (pre & post & path & Hel & H1 & H2 & H3 & H4 & H5 & H6).
  destruct (H6 []) as (z & Hz & Hb & Ha). exists pre, post. split_and!; [congruence| |done|done].
  unfold links_at. rewrite H5. simpl. split_and!.
  - rewrite H3. by destruct (list.last pre).
  - intros ?. rewrite H4 by done. by destruct post.
  - eauto.
  - exists z. split_and!; [done|by rewrite (follow_plug _ _ _ _ Hz)|done|].
    by rewrite Ha, app_nil_r.
Qed.

Lemma find_vma_links_None mm addr last :
  elements (mm_rb mm) = mmap mm -> find_vma_links mm addr last = None ->
  exists p, p ∈ mmap mm /\ addr < vm_end (deref mm p) /\ vm_start (deref mm p) < last.
Proof. intros <- Hf. by eapply find_vma_links_loop_None. Qed.

Lemma find_vma_links_complete mm addr last pre post :
  elements (mm_rb mm) = mmap mm -> mmap mm = pre ++ post ->
  (forall p, p ∈ pre -> vm_end (deref mm p) <= addr) ->
  (forall p, p ∈ post -> last <= vm_start (deref mm p)) ->
  is_Some (find_vma_links mm addr last).
Proof.
  intros He Hl H1 H2. destruct (find_vma_links mm addr last) eqn:E; [done|].
  apply find_vma_links_None in E as (p & Hp & ? & ?); [|done].
  rewrite Hl in Hp. apply elem_of_app in Hp as [Hp|Hp]; [apply H1 in Hp|apply H2 in Hp]; lia.
Qed.

(** The split of a sorted list at a range is unique. *)
Lemma sorted_split_unique a lo addr last pre post pre' post' :
  sorted a lo (pre ++ post) -> pre ++ post = pre' ++ post' -> addr < last ->
  (forall p, p ∈ pre -> vm_end (a p) <= addr) -> (forall p, p ∈ post -> last <= vm_start (a p)) ->
  (forall p, p ∈ pre' -> vm_end (a p) <= addr) -> (forall p, p ∈ post' -> last <= vm_start (a p)) ->
  pre = pre' /\ post = post'.
Proof.
  intros Hs Heq Hlt H1 H2 H3 H4.
  assert (Hb : forall p, p ∈ pre ++ post -> vm_start (a p) < vm_end (a p)).
  { intros p Hp. apply (sorted_bounds _ _ _ _ Hs Hp). }
  apply app_eq_inv in Heq as [(k & Hk & Hk')|(k & Hk & Hk')]; subst;
    (destruct k as [|x k]; [by rewrite ?app_nil_r|exfalso]).
  - assert (vm_end (a x) <= addr) by (apply H1; set_solver).
    assert (last <= vm_start (a x)) by (apply H4; set_solver).
    assert (vm_start (a x) < vm_end (a x)) by (apply Hb; set_solver). lia.
  - assert (vm_end (a x) <= addr) by (apply H3; set_solver).
    assert (last <= vm_start (a x)) by (apply H2; set_solver).
    assert (vm_start (a x) < vm_end (a x)) by (apply Hb; set_solver). lia.
Qed.

(** ** Linking *)

(** Every gap is the distance to the end of what comes before. *)
Lemma own_gap_end mm p pre post :
  mmap mm = pre ++ p :: post -> NoDup (mmap mm) -> is_u64 (vm_start (deref mm p)) ->
  own_gap mm p = vm_start (deref mm p) -u end_of (deref mm) 0 pre.
Proof.
  intros Hl Hn Hs. rewrite (own_gap_at mm p pre post Hl Hn). unfold end_of.
  destruct (list.last pre); [done|]. by rewrite Z.sub_0_r, wrap_small.
Qed.

(** The gap of an area with the same start and the same end before it is the same. *)
Lemma own_gap_same mm mm' p pre post pre' post' :
  mmap mm = pre ++ p :: post -> NoDup (mmap mm) ->
  mmap mm' = pre' ++ p :: post' -> NoDup (mmap mm') ->
  is_u64 (vm_start (deref mm p)) -> vm_start (deref mm' p) = vm_start (deref mm p) ->
  end_of (deref mm') 0 pre' = end_of (deref mm) 0 pre ->
  own_gap mm p = own_gap mm' p.
Proof.
  intros ? ? ? ? Hu Hs He. rewrite (own_gap_end mm p pre post), (own_gap_end mm' p pre' post');
    try done; rewrite Hs; [|done]. by rewrite He.
Qed.

(** Taking the areas [mid] out of the list changes the gap of the next one only. *)
Lemma own_gap_remove mm pre mid post x :
  mmap mm = pre ++ mid ++ post -> NoDup (mmap mm) ->
  (forall q, q ∈ pre ++ post -> is_u64 (vm_start (deref mm q))) ->
  x ∈ pre ++ post -> hd_error post <> Some x ->
  own_gap mm x = own_gap (set_mmap (pre ++ post) mm) x.
Proof.
  intros Hl Hn Hu Hx Hh. specialize (Hu x Hx). assert (Hn' : NoDup (pre ++ post)).
  { rewrite Hl in Hn. eapply sublist_NoDup; [exact Hn|].
    apply sublist_app; [done|]. by apply sublist_inserts_l. }
  apply elem_of_app in Hx as [Hx|Hx]; apply list_elem_of_split in Hx as (a & b & Hx); subst.
  - eapply (own_gap_same _ _ x a (b ++ mid ++ post) a (b ++ post)); simpl; try done;
      [by rewrite Hl, <- app_assoc|by rewrite <- app_assoc].
  - destruct a as [|n a]; [done|].
    eapply (own_gap_same _ _ x (pre ++ mid ++ n :: a) b (pre ++ n :: a) b); simpl; try done;
      [by rewrite Hl, <- !app_assoc|by rewrite <- app_assoc|].
    by rewrite !end_of_app, !end_of_cons.
Qed.

(** Inserting an area in the list likewise. *)
Lemma own_gap_insert mm pre p post x :
  mmap mm = pre ++ post -> NoDup (pre ++ p :: post) ->
  (forall q, q ∈ mmap mm -> is_u64 (vm_start (deref mm q))) ->
  x ∈ pre ++ post -> hd_error post <> Some x ->
  own_gap mm x = own_gap (set_mmap (pre ++ p :: post) mm) x.
Proof.
  intros Hl Hn Hu Hx Hh. rewrite Hl in Hu.
  rewrite (own_gap_remove (set_mmap (pre ++ p :: post) mm) pre [p] post x) by done.
  by destruct mm; simpl in *; subst.
Qed.

Lemma vma_link_list_at mm p lk pre post :
  mmap mm = pre ++ post -> NoDup (mmap mm) -> links_at mm lk pre post ->
  __vma_link_list p (lk_prev lk) (lk_parent lk) mm = set_mmap (pre ++ p :: post) mm.
Proof.
  intros Hl Hn (Hprev & Hpar & _). unfold __vma_link_list. rewrite Hprev.
  destruct pre as [|q pre _] using rev_ind.
  - simpl in *. rewrite Hpar by done. destruct post as [|nx post]; simpl; [done|].
    rewrite Hl. simpl. by rewrite decide_True.
  - rewrite last_snoc. rewrite <- app_assoc in Hl. simpl in Hl. rewrite Hl in Hn |- *.
    apply NoDup_split in Hn as [? ?]. by rewrite upto_elem_app, after_elem_app.
Qed.

(** [__vma_link] of an area that is in the heap but not in the list.  The tree may be
    wrong for the gap after it. *)
Lemma vma_link_raw own mm p lk pre post :
  mmap mm = pre ++ post -> NoDup (pre ++ p :: post) -> links_at mm lk pre post ->
  tree_ok own (pre ++ post) (mm_rb mm) ->
  (forall x, x ∈ pre ++ post -> hd_error post <> Some x ->
     own x = own_gap (set_mmap (pre ++ p :: post) mm) x) ->
  (forall x, x ∈ pre ++ post -> 0 <= vm_start (deref mm x)) ->
  exists t, tree_ok (own_gap (set_mmap (pre ++ p :: post) mm)) (pre ++ p :: post) t /\
    __vma_link p lk mm = Some (set_mm_rb t
      (match post with
       | [] => set_highest_vm_end (vm_end (deref mm p)) (set_mmap (pre ++ p :: post) mm)
       | _ => set_mmap (pre ++ p :: post) mm
       end)).
Proof.
  intros Hl Hn Hlk Ht Hag Hpos. unfold __vma_link.
  assert (NoDup (mmap mm)) as Hn'.
  { rewrite Hl. eapply sublist_NoDup; [exact Hn|]. apply sublist_app; [done|by constructor]. }
  rewrite (vma_link_list_at mm p lk pre post) by done.
  destruct Hlk as (_ & _ & Hpath & Hat).
  apply (vma_link_rb_ok own (set_mmap (pre ++ p :: post) mm) p (lk_link lk) pre post); simpl; auto.
  intros x Hx. unfold own_gap. destruct (vm_prev _ x); [apply wrap_range|by apply Hpos].
Qed.

(** Linking an area between [pre] and [post] keeps the invariant. *)
Lemma vma_link_wf k mm p lk pre post :
  wf k mm -> mmap mm = pre ++ post -> links_at mm lk pre post ->
  is_Some (vmas mm !! p) -> area_ok (deref mm p) -> sorted (deref mm) 0 (pre ++ p :: post) ->
  exists t h, vma_link p lk mm = Some (set_map_count (map_count mm + 1)
      (set_mm_rb t (set_highest_vm_end h (set_mmap (pre ++ p :: post) mm)))) /\
    wf k (set_map_count (map_count mm + 1)
      (set_mm_rb t (set_highest_vm_end h (set_mmap (pre ++ p :: post) mm)))).
Proof.
  intros Hwf Hl Hlk Hp Hok Hs. pose proof (sorted_NoDup _ _ _ Hs) as Hn.
  assert (Hu : forall q, q ∈ mmap mm -> is_u64 (vm_start (deref mm q))).
  { intros q Hq. pose proof (wf_bounds _ _ _ Hwf Hq). pose proof TASK_SIZE_u64. unfold is_u64. lia. }
  destruct (vma_link_raw (own_gap mm) mm p lk pre post) as (t & Ht & Heq); try done.
  { rewrite <- Hl. apply Hwf. }
  { intros x Hx Hh. by apply own_gap_insert. }
  { intros x Hx. rewrite <- Hl in Hx. apply (wf_bounds _ _ _ Hwf Hx). }
  exists t, (end_of (deref mm) 0 (pre ++ p :: post)). unfold vma_link. rewrite Heq. split.
  { simpl. f_equal. destruct post as [|nx post].
    - by rewrite end_of_snoc.
    - rewrite end_of_app, end_of_cons, end_of_cons. rewrite <- (end_of_cons _ (end_of (deref mm) 0 pre)).
      rewrite <- end_of_app, <- Hl, <- (wf_highest _ _ Hwf). by destruct mm. }
  split; simpl; [| | |done| |].
  - intros q [Hq|[->|Hq]%elem_of_cons]%elem_of_app; [|done|]; apply Hwf; rewrite Hl; set_solver.
  - done.
  - intros q [Hq|[->|Hq]%elem_of_cons]%elem_of_app; [|done|];
      apply (wf_area _ _ Hwf); rewrite Hl; set_solver.
  - done.
  - rewrite (wf_count _ _ Hwf), Hl, !length_app. simpl. lia.
Qed.
