(* ===== verification/VmaAdjust.v ===== *)
(** * Memory manager, virtual memory areas: resizing, splitting and merging

    What [__vma_adjust] does in the situations its callers create: an area grows at
    its end or at its start, two areas and the hole between them become one, and an
    area is split in two. *)

From S2P Require Import Prelude RbTree VmaModel VmaTree VmaInv.

(** The two halves of an area split at [addr] *)
Definition lower_half (addr : Z) (v : vm_area) : vm_area :=
  with_range (vm_start v) addr (vm_pgoff v) v.
Definition upper_half (addr : Z) (v : vm_area) : vm_area :=
  with_range addr (vm_end v) (vm_pgoff v +u Z.shiftr (addr -u vm_start v) PAGE_SHIFT) v.

(** ** Updating one area *)

Lemma deref_upd_eq p f mm : deref (upd_vma p f mm) p = f (deref mm p).
Proof. unfold deref, upd_vma. simpl. by rewrite lookup_total_insert_eq. Qed.

Lemma deref_upd_ne p q f mm : p <> q -> deref (upd_vma p f mm) q = deref mm q.
Proof. intros. unfold deref, upd_vma. simpl. by rewrite lookup_total_insert_ne. Qed.

Lemma upd_const p f mm w : f (deref mm p) = w -> upd_vma p f mm = upd_vma p (fun _ => w) mm.
Proof. by intros <-. Qed.

Section Update.
Context (k : Z) (mm : lego_mm) (p : ptr) (pre post : list ptr) (f : vm_area -> vm_area).
Context (Hwf : wf k mm) (Hl : mmap mm = pre ++ p :: post).
#[local] Abbreviation v := (deref mm p).
#[local] Abbreviation mm1 := (upd_vma p f mm).

Lemma pos_NoDup : NoDup (pre ++ p :: post).
Proof using Hwf Hl. rewrite <- Hl. by eapply wf_NoDup. Qed.

Lemma pos_notin : (p ∉ pre) /\ (p ∉ post).
Proof using Hwf Hl. apply NoDup_split, pos_NoDup. Qed.

Lemma upd_other q : q ∈ pre \/ q ∈ post -> deref mm1 q = deref mm q.
Proof using Hwf Hl.
  intros Hq. apply deref_upd_ne. intros Heq. rewrite <- Heq in Hq. by destruct pos_notin, Hq.
Qed.

Lemma upd_end_pre : end_of (deref mm1) 0 pre = end_of (deref mm) 0 pre.
Proof using Hwf Hl. apply end_of_ext. intros q Hq. by rewrite upd_other by auto. Qed.

(** The neighbours bound an area. *)
Lemma pos_sorted :
  end_of (deref mm) 0 pre <= vm_start v /\ vm_start v < vm_end v /\ vm_end v <= TASK_SIZE /\
  sorted (deref mm) 0 pre /\ sorted (deref mm) (vm_end v) post.
Proof using Hwf Hl.
  pose proof (wf_sorted _ _ Hwf) as Hs. rewrite Hl in Hs. apply sorted_app in Hs as [? Hs].
  simpl in Hs. tauto.
Qed.

Lemma upd_sorted :
  end_of (deref mm) 0 pre <= vm_start (f v) -> vm_start (f v) < vm_end (f v) ->
  vm_end (f v) <= TASK_SIZE -> sorted (deref mm) (vm_end (f v)) post ->
  sorted (deref mm1) 0 (pre ++ p :: post).
Proof using Hwf Hl.
  intros H1 H2 H3 H4. apply sorted_app. split.
  { eapply sorted_ext; [|apply pos_sorted]. intros q Hq. by rewrite upd_other by auto. }
  simpl. rewrite upd_end_pre, deref_upd_eq. split_and!; [done..|].
  eapply sorted_ext; [|exact H4]. intros q Hq. by rewrite upd_other by auto.
Qed.

Lemma upd_u64 q : is_u64 (vm_start (f v)) -> q ∈ pre ++ p :: post -> is_u64 (vm_start (deref mm1 q)).
Proof using Hwf Hl.
  intros Hf Hq. destruct (decide (q = p)) as [->|Hne]; [by rewrite deref_upd_eq|].
  rewrite deref_upd_ne by done. rewrite <- Hl in Hq. pose proof (wf_bounds _ _ _ Hwf Hq).
  pose proof TASK_SIZE_u64. unfold is_u64. lia.
Qed.

Lemma start_u64 q : q ∈ mmap mm -> is_u64 (vm_start (deref mm q)).
Proof using Hwf Hl.
  intros Hq. pose proof (wf_bounds _ _ _ Hwf Hq). pose proof TASK_SIZE_u64. unfold is_u64. lia.
Qed.

(** The gaps that a new range of [p] changes: its own and that of the next area. *)
Lemma upd_gap_pre q : q ∈ pre -> own_gap mm q = own_gap mm1 q.
Proof using Hwf Hl.
  intros Hq. pose proof pos_NoDup as Hn. assert (Hq' := Hq).
  apply list_elem_of_split in Hq as (a & b & Hp).
  assert (Hl' : mmap mm = a ++ q :: b ++ p :: post) by (rewrite Hl, Hp, <- app_assoc; done).
  rewrite <- Hl, Hl' in Hn.
  apply (own_gap_same mm mm1 q a (b ++ p :: post) a (b ++ p :: post)); simpl;
    rewrite ?Hl'; try done.
  - apply start_u64. rewrite Hl'. set_solver.
  - rewrite upd_other; auto.
  - apply end_of_ext. intros x Hx. rewrite upd_other; [done|]. left. rewrite Hp. set_solver.
Qed.

Lemma upd_gap_post q a b :
  post = a ++ q :: b -> end_of (deref mm) (vm_end (f v)) a = end_of (deref mm) (vm_end v) a ->
  own_gap mm q = own_gap mm1 q.
Proof using Hwf Hl.
  intros Hp He. pose proof pos_NoDup as Hn.
  assert (Hl' : mmap mm = (pre ++ p :: a) ++ q :: b) by (rewrite Hl, Hp, <- app_assoc; done).
  apply (own_gap_same mm mm1 q (pre ++ p :: a) b (pre ++ p :: a) b); simpl; rewrite ?Hl'; try done.
  - by rewrite <- Hl', Hl.
  - by rewrite <- Hl', Hl.
  - apply start_u64. rewrite Hl'. set_solver.
  - rewrite upd_other; [done|]. right. rewrite Hp. set_solver.
  - rewrite !end_of_app, !end_of_cons, deref_upd_eq, <- He. apply end_of_ext.
    intros x Hx. rewrite upd_other; [done|]. right. rewrite Hp. set_solver.
Qed.

Lemma upd_gap_post_tail q : q ∈ tail post -> own_gap mm q = own_gap mm1 q.
Proof using Hwf Hl.
  intros Hq. assert (exists n post', post = n :: post') as (n & post' & Hpost).
  { destruct post; [by apply not_elem_of_nil in Hq|eauto]. }
  rewrite Hpost in Hq. simpl in Hq. apply list_elem_of_split in Hq as (a & b & Hq).
  apply (upd_gap_post q (n :: a) b); [by rewrite Hpost, Hq|]. by rewrite !end_of_cons.
Qed.

(** The end of the address space is that of the last area. *)
Lemma upd_end_tail : post <> [] ->
  end_of (deref mm) 0 (pre ++ p :: post) = end_of (deref mm1) 0 (pre ++ p :: post).
Proof using Hwf Hl.
  intros Hne. rewrite !end_of_app, !end_of_cons. unfold end_of.
  destruct (list.last post) as [x|] eqn:E; [|by apply last_None in E].
  apply last_Some_elem_of in E. by rewrite upd_other by auto.
Qed.

Lemma upd_area : area_ok (f v) -> forall q, q ∈ pre ++ p :: post -> area_ok (deref mm1 q).
Proof using Hwf Hl.
  intros Hok q Hq. destruct (decide (q = p)) as [->|]; [by rewrite deref_upd_eq|].
  rewrite deref_upd_ne by done. apply (wf_area _ _ Hwf). by rewrite Hl.
Qed.

Lemma upd_live q : q ∈ pre ++ p :: post -> is_Some (vmas mm1 !! q).
Proof using Hwf Hl.
  intros Hq. simpl. destruct (decide (q = p)) as [->|]; [rewrite lookup_insert_eq; eauto|].
  rewrite lookup_insert_ne by done. apply Hwf. by rewrite Hl.
Qed.

(** A new range that fits, with a tree that is right for it, keeps the invariant. *)
Lemma resize_wf t :
  area_ok (f v) ->
  end_of (deref mm) 0 pre <= vm_start (f v) -> vm_start (f v) < vm_end (f v) ->
  vm_end (f v) <= TASK_SIZE -> sorted (deref mm) (vm_end (f v)) post ->
  tree_ok (own_gap mm1) (pre ++ p :: post) t ->
  wf k (set_mm_rb t (set_highest_vm_end (end_of (deref mm1) 0 (pre ++ p :: post)) mm1)).
Proof using Hwf Hl.
  intros Hok H1 H2 H3 H4 Ht. split; simpl; rewrite ?Hl; try done.
  - apply upd_live.
  - by apply upd_sorted.
  - by apply upd_area.
  - rewrite (wf_count _ _ Hwf), Hl. done.
Qed.

End Update.

(** ** Growing *)

Lemma set_highest_id mm h : highest_vm_end mm = h -> set_highest_vm_end h mm = mm.
Proof. intros <-. by destruct mm. Qed.

Lemma sorted_hd a lo lo' l :
  sorted a lo l -> (forall x, hd_error l = Some x -> lo' <= vm_start (a x)) -> sorted a lo' l.
Proof. destruct l as [|x l]; simpl; [done|]. intros (? & ? & ? & ?) Hx. split_and!; auto. Qed.

(** When the new end stays in the hole after [p], [__vma_adjust] changes [p] only. *)
Lemma adjust_in_hole k mm p pre post start last pgoff e :
  wf k mm -> mmap mm = pre ++ p :: post -> vm_end (deref mm p) <= last ->
  (forall x, hd_error post = Some x -> last <= vm_start (deref mm x)) ->
  __vma_adjust p start last pgoff None e mm
  = adjust_pass p (hd_error post) start last pgoff None 0 0 mm.
Proof.
  intros Hwf Hl Hge Hnx. unfold __vma_adjust.
  destruct (pos_sorted k mm p pre post Hwf Hl) as (_ & _ & _ & _ & Hs).
  rewrite (vm_next_at mm p pre post) by (try done; by eapply wf_NoDup).
  destruct (hd_error post) as [nx|] eqn:Hh.
  - specialize (Hnx nx eq_refl). assert (vm_start (deref mm nx) < vm_end (deref mm nx)).
    { destruct post as [|? post]; [done|]. simpl in Hh. simplify_eq. simpl in Hs. lia. }
    rewrite (proj2 (Z.leb_gt _ last)), (proj2 (Z.ltb_ge _ last)), (proj2 (Z.ltb_ge last _)) by lia.
    simpl. by destruct (adjust_pass _ _ _ _ _ _ _ _ _).
  - simpl. by destruct (adjust_pass _ _ _ _ _ _ _ _ _).
Qed.

(** Growing the end of [p] into the hole after it *)
Lemma adjust_grow_end k mm p pre post newend e :
  wf k mm -> mmap mm = pre ++ p :: post ->
  vm_end (deref mm p) < newend -> newend <= TASK_SIZE -> page_aligned newend ->
  (forall x, hd_error post = Some x -> newend <= vm_start (deref mm x)) ->
  let mm1 := upd_vma p (with_range (vm_start (deref mm p)) newend (vm_pgoff (deref mm p))) mm in
  exists t h, __vma_adjust p (vm_start (deref mm p)) newend (vm_pgoff (deref mm p)) None e mm
      = Some (set_mm_rb t (set_highest_vm_end h mm1)) /\
    wf k (set_mm_rb t (set_highest_vm_end h mm1)).
Proof.
  intros Hwf Hl Hlt Hts Hal Hnx mm1.
  destruct (pos_sorted k mm p pre post Hwf Hl) as (B1 & B2 & B3 & B4 & B5).
  assert (Hsp : sorted (deref mm) newend post) by (by eapply sorted_hd).
  assert (Hok : area_ok (with_range (vm_start (deref mm p)) newend (vm_pgoff (deref mm p)) (deref mm p))).
  { destruct (wf_area _ _ Hwf p) as (? & ? & ? & ?); [rewrite Hl; set_solver|]. done. }
  rewrite (adjust_in_hole k mm p pre post) by (done || lia). unfold adjust_pass.
  rewrite (Z.eqb_refl (vm_start _)), (proj2 (Z.eqb_neq newend _)) by lia. fold mm1. simpl.
  destruct (wf_tree _ _ Hwf) as (He & Hb & Ha). rewrite Hl in He.
  assert (Hn : NoDup (pre ++ p :: post)) by (by eapply pos_NoDup).
  assert (Hown : own_gap mm p = own_gap mm1 p).
  { apply (own_gap_same mm mm1 p pre post pre post); simpl; rewrite ?Hl; try done.
    - eapply start_u64; [done..|]. rewrite Hl. set_solver.
    - unfold mm1. by rewrite deref_upd_eq.
    - by eapply upd_end_pre. }
  destruct post as [|nx post]; simpl.
  - exists (mm_rb mm), newend. split; [by destruct mm|].
    replace newend with (end_of (deref mm1) 0 (pre ++ [p])) at 1
      by (unfold mm1; rewrite end_of_snoc, deref_upd_eq; done).
    eapply resize_wf; try done; simpl; try lia. split_and!; [done..|].
    eapply aug_ok_agree; [|exact Ha]. rewrite He.
    intros x [Hx|Hx]%elem_of_app; [by eapply upd_gap_pre|by apply list_elem_of_singleton in Hx as ->].
  - destruct (vma_gap_update_ok (own_gap mm) mm1 (pre ++ p :: nx :: post) nx) as (t & Hup & Htok & _);
      [done|done|set_solver| |].
    { intros x Hx Hne. apply elem_of_app in Hx as [Hx|Hx]; [by eapply upd_gap_pre|].
      apply elem_of_cons in Hx as [->|Hx]; [done|]. apply elem_of_cons in Hx as [->|Hx]; [done|].
      by eapply upd_gap_post_tail. }
    exists t, (end_of (deref mm1) 0 (pre ++ p :: nx :: post)). rewrite Hup.
    split; [|eapply resize_wf; try done; simpl; lia].
    rewrite set_highest_id; [done|]. simpl. rewrite (wf_highest _ _ Hwf), Hl.
    apply (upd_end_tail k mm p pre (nx :: post) _ Hwf Hl). done.
Qed.

(** Growing the start of [p] into the hole before it *)
Lemma adjust_grow_start k mm p pre post addr pgoff e :
  wf k mm -> mmap mm = pre ++ p :: post ->
  end_of (deref mm) 0 pre <= addr -> addr < vm_start (deref mm p) -> page_aligned addr ->
  is_u64 pgoff ->
  let mm1 := upd_vma p (with_range addr (vm_end (deref mm p)) pgoff) mm in
  exists t, __vma_adjust p addr (vm_end (deref mm p)) pgoff None e mm = Some (set_mm_rb t mm1) /\
    vma_gap_update p mm1 = Some (set_mm_rb t mm1) /\ wf k (set_mm_rb t mm1).
Proof.
  intros Hwf Hl Hlo Hlt Hal Hu mm1.
  destruct (pos_sorted k mm p pre post Hwf Hl) as (B1 & B2 & B3 & B4 & B5).
  assert (Hok : area_ok (with_range addr (vm_end (deref mm p)) pgoff (deref mm p))).
  { destruct (wf_area _ _ Hwf p) as (? & ? & ? & ?); [rewrite Hl; set_solver|]. done. }
  assert (Hn : NoDup (pre ++ p :: post)) by (by eapply pos_NoDup).
  rewrite (adjust_in_hole k mm p pre post); [|done..|intros x Hx].
  2:{ destruct post as [|y post]; simpl in Hx; [done|]. simplify_eq. simpl in B5. tauto. }
  unfold adjust_pass. rewrite (Z.eqb_refl (vm_end _)), (proj2 (Z.eqb_neq addr _)) by lia.
  fold mm1. simpl. destruct (wf_tree _ _ Hwf) as (He & Hb & Ha). rewrite Hl in He.
  destruct (vma_gap_update_ok (own_gap mm) mm1 (pre ++ p :: post) p) as (t & Hup & Htok & _);
    [done|done|set_solver| |].
  { intros x Hx Hne. apply elem_of_app in Hx as [Hx|Hx]; [by eapply upd_gap_pre|].
    apply elem_of_cons in Hx as [->|Hx]; [done|].
    apply list_elem_of_split in Hx as (a & b & ->). by eapply upd_gap_post. }
  exists t. rewrite Hup. simpl. split; [done|split; [done|]].
  assert (Hh : highest_vm_end mm1 = end_of (deref mm1) 0 (pre ++ p :: post)).
  { simpl. rewrite (wf_highest _ _ Hwf), Hl. symmetry.
    rewrite !end_of_app, !end_of_cons. unfold mm1. rewrite deref_upd_eq. apply end_of_ext.
    intros x Hx. erewrite upd_other; [done|done|done|by right]. }
  rewrite <- (set_highest_id mm1 _ Hh). eapply resize_wf; try done; simpl; lia.
Qed.

(** ** Merging two areas *)

(** The area [nx] is taken out of the tree and the list; [p] reaches up to its end. *)
Lemma unlink_next k mm p nx pre post :
  wf k mm -> mmap mm = pre ++ p :: nx :: post ->
  let mm1 := upd_vma p (with_range (vm_start (deref mm p)) (vm_end (deref mm nx))
                          (vm_pgoff (deref mm p))) mm in
  exists t, __vma_unlink_common nx (Some p) true mm1
      = Some (set_mmap (pre ++ p :: post) (set_mm_rb t mm1)) /\
    tree_ok (own_gap mm1) (pre ++ p :: post) t.
Proof.
  intros Hwf Hl mm1. assert (Hn : NoDup (pre ++ p :: nx :: post)) by (by eapply pos_NoDup).
  destruct (vma_rb_erase_ok (own_gap mm) mm1 (pre ++ p :: nx :: post) (pre ++ [p]) nx post)
    as (t & Her & Ht).
  - simpl. rewrite <- Hl. apply Hwf.
  - done.
  - by rewrite <- app_assoc.
  - intros x Hx Hne. apply elem_of_app in Hx as [Hx|Hx]; [by eapply upd_gap_pre|].
    apply elem_of_cons in Hx as [->|Hx].
    + apply (own_gap_same mm mm1 p pre (nx :: post) pre (nx :: post)); simpl; rewrite ?Hl; try done.
      * eapply start_u64; [done..|]. rewrite Hl. set_solver.
      * unfold mm1. by rewrite deref_upd_eq.
      * by eapply upd_end_pre.
    + apply elem_of_cons in Hx as [->|Hx]; [done|]. by eapply upd_gap_post_tail.
  - exists t. rewrite <- app_assoc in Ht. split; [|done].
    unfold __vma_unlink_common, vma_rb_erase_ignore. rewrite Her. simpl. rewrite Hl.
    f_equal. f_equal. pose proof (NoDup_split _ _ _ Hn) as [? _].
    rewrite upto_elem_app by done. rewrite <- app_assoc. simpl. do 2 f_equal.
    replace (pre ++ p :: nx :: post) with ((pre ++ [p]) ++ nx :: post) in Hn |- *
      by (by rewrite <- app_assoc).
    apply NoDup_split in Hn as [? _]. by rewrite after_elem_app.
Qed.

#[local] Arguments adjust_pass : simpl never.

Section Swallow.
Context (k : Z) (mm : lego_mm) (p nx : ptr) (pre post : list ptr).
Context (Hwf : wf k mm) (Hl : mmap mm = pre ++ p :: nx :: post).
Context (Hnx : nx ∉ pre ++ p :: post).
#[local] Abbreviation mm1 := (upd_vma p (with_range (vm_start (deref mm p))
  (vm_end (deref mm nx)) (vm_pgoff (deref mm p))) mm).
#[local] Abbreviation mm2 := (drop_next nx (set_mmap (pre ++ p :: post) mm1)).

Lemma swallowed_sorted :
  (forall x, x ∈ pre ++ p :: post -> deref mm2 x = deref mm1 x) /\
  sorted (deref mm2) 0 (pre ++ p :: post).
Proof using Hwf Hl Hnx.
  assert (Hd : forall x, x ∈ pre ++ p :: post -> deref mm2 x = deref mm1 x).
  { intros x Hx. unfold drop_next, kfree, deref. simpl.
    rewrite lookup_total_delete_ne; [done|]. intros Heq. by rewrite Heq in Hnx. }
  split; [done|]. apply (sorted_ext (deref mm1)); [intros x Hx; by rewrite Hd|].
  destruct (pos_sorted k mm p pre (nx :: post) Hwf Hl) as (? & ? & ? & ? & Hs). simpl in Hs.
  apply sorted_app. split.
  - apply (sorted_ext (deref mm)); [|done]. intros x Hx. by erewrite upd_other by eauto.
  - simpl. rewrite (upd_end_pre k mm p pre (nx :: post)), deref_upd_eq by done.
    simpl. split_and!; [done|lia|lia|]. apply (sorted_ext (deref mm)); [|apply Hs].
    intros x Hx. erewrite upd_other; [done..|]. right. by right.
Qed.

Lemma swallowed_wf t :
  tree_ok (own_gap mm2) (pre ++ p :: post) t -> wf k (set_mm_rb t mm2).
Proof using Hwf Hl Hnx.
  intros Ht. destruct swallowed_sorted as [Hd Hs].
  assert (Hok : area_ok (with_range (vm_start (deref mm p)) (vm_end (deref mm nx))
    (vm_pgoff (deref mm p)) (deref mm p))).
  { destruct (wf_area _ _ Hwf p) as (? & ? & ? & ?); [rewrite Hl; set_solver|].
    destruct (wf_area _ _ Hwf nx) as (? & ? & ? & ?); [rewrite Hl; set_solver|]. done. }
  split; [| | |done| |].
  - intros q Hq. simpl in *. rewrite lookup_delete_ne by (intros ->; done).
    eapply (upd_live k mm p pre (nx :: post)); [done..|set_solver].
  - done.
  - intros q Hq. change (area_ok (deref mm2 q)). rewrite Hd by done.
    eapply (upd_area k mm p pre (nx :: post)); [done..|set_solver].
  - simpl. rewrite (wf_highest _ _ Hwf), Hl. transitivity (end_of (deref mm1) 0 (pre ++ p :: post)).
    + rewrite !end_of_app, !end_of_cons, deref_upd_eq. simpl. apply end_of_ext.
      intros x Hx. erewrite upd_other; [done..|]. right. by right.
    + apply end_of_ext. intros x Hx. symmetry. f_equal. by apply Hd.
  - simpl. rewrite (wf_count _ _ Hwf), Hl, !length_app. simpl. lia.
Qed.
End Swallow.

Lemma adjust_swallow k mm p nx pre post :
  wf k mm -> mmap mm = pre ++ p :: nx :: post ->
  let mm1 := upd_vma p (with_range (vm_start (deref mm p)) (vm_end (deref mm nx))
                          (vm_pgoff (deref mm p))) mm in
  let mm2 := drop_next nx (set_mmap (pre ++ p :: post) mm1) in
  exists t, __vma_adjust p (vm_start (deref mm p)) (vm_end (deref mm nx)) (vm_pgoff (deref mm p))
      None (Some p) mm = Some (set_mm_rb t mm2) /\ wf k (set_mm_rb t mm2).
Proof.
  intros Hwf Hl mm1 mm2.
  assert (Hn : NoDup (pre ++ p :: nx :: post)) by (by eapply pos_NoDup).
  assert (Hnx : nx ∉ pre ++ p :: post).
  { replace (pre ++ p :: nx :: post) with ((pre ++ [p]) ++ nx :: post) in Hn
      by (by rewrite <- app_assoc). apply NoDup_split in Hn as [? ?]. set_solver. }
  destruct (swallowed_sorted k mm p nx pre post Hwf Hl Hnx) as [Hd Hs]. fold mm1 mm2 in Hd, Hs.
  assert (Hn2 := sorted_NoDup _ _ _ Hs).
  destruct (unlink_next k mm p nx pre post Hwf Hl) as (t1 & Hun & Ht1). fold mm1 in Hun, Ht1.
  assert (Hag : forall x, x ∈ pre ++ p :: post -> hd_error post <> Some x ->
    own_gap mm1 x = own_gap (set_mm_rb t1 mm2) x).
  { intros x Hx Hh. transitivity (own_gap (set_mmap (pre ++ p :: post) mm1) x).
    - replace (pre ++ p :: post) with ((pre ++ [p]) ++ post) in Hx |- * by (by rewrite <- app_assoc).
      eapply (own_gap_remove mm1 (pre ++ [p]) [nx] post); simpl; rewrite ?Hl; try done;
        [by rewrite <- app_assoc|]. intros q Hq. rewrite <- app_assoc in Hq.
      rewrite <- Hd by done. destruct (sorted_bounds _ _ _ _ Hs Hq) as (? & ? & ?).
      pose proof TASK_SIZE_u64. unfold is_u64. lia.
    - symmetry. apply (own_gap_ext (set_mmap (pre ++ p :: post) mm1)); [done| |done].
      intros q Hq. simpl in Hq. specialize (Hd q Hq). unfold deref in *. simpl in *. by rewrite Hd. }
  assert (exists t, gap_update_opt (hd_error post) (set_mm_rb t1 mm2) = Some (set_mm_rb t mm2) /\
    tree_ok (own_gap mm2) (pre ++ p :: post) t) as (t & Hup & Ht).
  { destruct post as [|n post]; simpl.
    - exists t1. split; [done|]. destruct Ht1 as (He & Hb & Ha). split_and!; [done..|].
      eapply aug_ok_agree; [|exact Ha]. intros x Hx. apply Hag; [congruence|done].
    - destruct (vma_gap_update_ok (own_gap mm1) (set_mm_rb t1 mm2) (pre ++ p :: n :: post) n)
        as (t & Hup & Ht & _); [done|done|set_solver| |exists t; by rewrite Hup].
      intros x Hx Hne. apply Hag; [done|simpl; congruence]. }
  exists t. split; [|by eapply swallowed_wf].
  assert (p <> nx) by set_solver. unfold __vma_adjust.
  rewrite (vm_next_at mm p pre (nx :: post)) by (try done; by eapply wf_NoDup).
  change (hd_error (nx :: post)) with (Some nx). cbv beta iota.
  rewrite Z.leb_refl, bool_decide_eq_false_2, Z.ltb_irrefl by (lia || congruence).
  simpl. assert (Hpass : adjust_pass p (Some nx) (vm_start (deref mm p)) (vm_end (deref mm nx))
    (vm_pgoff (deref mm p)) None 0 1 mm = Some (set_mmap (pre ++ p :: post) (set_mm_rb t1 mm1)))
    by (unfold adjust_pass; simpl; fold mm1; exact Hun).
  destruct (vm_next mm nx); simpl; change (1 + 0) with 1; rewrite Hpass; simpl; rewrite <- Hup; f_equal;
    eapply vm_next_at; done.
Qed.

(** ** Splitting *)

Lemma sorted_remove a lo pre p post : sorted a lo (pre ++ p :: post) -> sorted a lo (pre ++ post).
Proof.
  rewrite !sorted_app. simpl. intros (? & ? & ? & ? & Hs). split; [done|].
  eapply sorted_weaken; [|exact Hs]. lia.
Qed.

Lemma wf_file k mm f : wf k mm -> wf k (get_file_opt f mm).
Proof. destruct f; [|done]. intros []; by split. Qed.

(** Inserting the other half [new] of [p], whose range has been changed already *)
Section InsertHalf.
Context (k : Z) (mm : lego_mm) (p new : ptr) (pre post la lb : list ptr) (f : vm_area -> vm_area).
Context (Hwf : wf k mm) (Hl : mmap mm = pre ++ p :: post) (Hab : pre ++ p :: post = la ++ lb).
#[local] Abbreviation mm2 := (upd_vma p f mm).
Context (Hs : sorted (deref mm2) 0 (la ++ new :: lb)).
Context (Hnew : is_Some (vmas mm !! new)) (Hok : area_ok (deref mm2 new)) (Hokp : area_ok (deref mm2 p)).
Context (Hag : forall x, x ∈ la ++ lb -> hd_error lb <> Some x ->
  own_gap mm x = own_gap (set_mmap (la ++ new :: lb) mm2) x).
Context (Hhi : lb <> [] ->
  end_of (deref mm2) 0 (la ++ new :: lb) = end_of (deref mm) 0 (la ++ lb)).

Lemma insert_half :
  let mm3 t := set_map_count (map_count mm + 1) (set_mm_rb t (set_highest_vm_end
    (end_of (deref mm2) 0 (la ++ new :: lb)) (set_mmap (la ++ new :: lb) mm2))) in
  exists t, __insert_vm_struct new mm2 = Some (mm3 t) /\ wf k (mm3 t).
Proof using All.
  intros mm3. destruct (wf_tree _ _ Hwf) as (He & Hb & Ha).
  assert (Hl2 : mmap mm2 = la ++ lb) by (simpl; congruence).
  assert (Hs2 : sorted (deref mm2) 0 (mmap mm2)) by (rewrite Hl2; by eapply sorted_remove).
  pose proof (sorted_split _ _ _ _ _ Hs) as [S1 S2].
  pose proof (sorted_bounds _ _ _ new Hs) as Bn.
  assert (Hfl : is_Some (find_vma_links mm2 (vm_start (deref mm2 new)) (vm_end (deref mm2 new)))).
  { eapply find_vma_links_complete; [done|exact Hl2|done|done]. }
  destruct Hfl as [lk Hfl].
  destruct (find_vma_links_Some mm2 _ _ lk 0 Hs2 He Hfl) as (la' & lb' & Hl' & Hlk & L1 & L2).
  destruct (sorted_split_unique (deref mm2) 0 (vm_start (deref mm2 new)) (vm_end (deref mm2 new))
    la lb la' lb') as [<- <-]; try done;
    [congruence|congruence|apply Bn; set_solver|].
  destruct (vma_link_raw (own_gap mm) mm2 new lk la lb) as (t & Ht & Hlink); try done.
  { by eapply sorted_NoDup. }
  { rewrite <- Hab, <- Hl. apply Hwf. }
  { intros x Hx. rewrite <- Hl2 in Hx. apply (sorted_bounds _ _ _ _ Hs2 Hx). }
  exists t. unfold __insert_vm_struct. rewrite Hfl. simpl. rewrite Hlink. split.
  { simpl. unfold mm3. f_equal. destruct lb as [|b lb']; [by rewrite end_of_snoc|].
    rewrite Hhi by done. rewrite <- Hab, <- Hl, <- (wf_highest _ _ Hwf). by destruct mm. }
  split; simpl; [| |intros q Hq|done|done|].
  - intros q Hq. destruct (decide (q = p)) as [->|]; [rewrite lookup_insert_eq; eauto|].
    rewrite lookup_insert_ne by done. destruct (decide (q = new)) as [->|]; [done|].
    apply Hwf. rewrite Hl, Hab. set_solver.
  - done.
  - destruct (decide (q = new)) as [->|]; [done|]. destruct (decide (q = p)) as [->|]; [done|].
    change (area_ok (deref mm2 q)). rewrite deref_upd_ne by done. apply (wf_area _ _ Hwf).
    rewrite Hl, Hab. set_solver.
  - rewrite (wf_count _ _ Hwf), Hl, Hab, !length_app. simpl. lia.
Qed.
End InsertHalf.

Lemma half_ok addr v :
  area_ok v -> page_aligned addr -> area_ok (lower_half addr v) /\ area_ok (upper_half addr v).
Proof.
  intros (? & ? & ? & ?) ?.
  split; (split; [done|split; [done|split; [try apply wrap_range; done|done]]]).
Qed.

Lemma adjust_insert p start last pgoff i mm :
  vma_adjust p start last pgoff (Some i) mm
  = __insert_vm_struct i (upd_vma p (with_range start last pgoff) mm).
Proof.
  unfold vma_adjust, __vma_adjust. destruct (vm_next mm p); simpl; unfold adjust_pass; simpl;
    by destruct (__insert_vm_struct _ _).
Qed.

Section Halves.
Context (k : Z) (mm : lego_mm) (p new : ptr) (pre post : list ptr) (addr : Z).
Context (Hwf : wf k mm) (Hl : mmap mm = pre ++ p :: post) (Hal : page_aligned addr).
#[local] Abbreviation v := (deref mm p).
Context (Haddr : vm_start v < addr < vm_end v).
Context (Hin : new ∉ mmap mm) (Hnew : is_Some (vmas mm !! new)).

Lemma new_notin : new <> p /\ (new ∉ pre) /\ (new ∉ post).
Proof using Hl Hin.
  pose proof Hin as Hi. rewrite Hl in Hi. apply not_elem_of_app in Hi as [? [? ?]%not_elem_of_cons].
  done.
Qed.

Lemma p_in : p ∈ mmap mm.
Proof using Hl. rewrite Hl. apply elem_of_app. right. by left. Qed.

Lemma half_u64 f q : vm_start v <= vm_start (f v) <= vm_end v ->
  q ∈ mmap (upd_vma p f mm) -> is_u64 (vm_start (deref (upd_vma p f mm) q)).
Proof using Hwf Hl.
  intros Hf Hq. simpl in Hq. rewrite Hl in Hq. eapply (upd_u64 k mm p pre post); [done..| |done].
  destruct (wf_bounds _ _ p Hwf) as (? & ? & ?); [apply p_in|].
  pose proof TASK_SIZE_u64. unfold is_u64. lia.
Qed.

(** [p] keeps the lower half *)
Lemma insert_upper :
  let f := with_range (vm_start v) addr (vm_pgoff v) in
  let l' := (pre ++ [p]) ++ new :: post in
  deref mm new = upper_half addr v ->
  exists t h, let mm3 := set_map_count (map_count mm + 1) (set_mm_rb t (set_highest_vm_end h
      (set_mmap l' (upd_vma p f mm)))) in
    __insert_vm_struct new (upd_vma p f mm) = Some mm3 /\ wf k mm3.
Proof using All.
  intros f l' Hdn. destruct new_notin as (N1 & N2 & N3).
  destruct (half_ok addr v (wf_area _ _ Hwf p p_in) Hal) as [Hok1 Hok2].
  destruct (pos_sorted k mm p pre post Hwf Hl) as (B1 & B2 & B3 & B4 & B5).
  assert (Hs2 : sorted (deref (upd_vma p f mm)) 0 (pre ++ p :: post)).
  { eapply upd_sorted; [done..|simpl; lia|simpl; lia|simpl; lia|]. simpl.
    eapply sorted_weaken; [|done]. lia. }
  assert (Hs : sorted (deref (upd_vma p f mm)) 0 ((pre ++ [p]) ++ new :: post)).
  { replace (pre ++ p :: post) with ((pre ++ [p]) ++ post) in Hs2 by (by rewrite <- app_assoc).
    apply sorted_app in Hs2 as [S1 S2]. apply sorted_app. split; [done|]. simpl.
    rewrite end_of_snoc, deref_upd_eq, (deref_upd_ne p new), Hdn by done. simpl. split_and!; [lia..|].
    eapply sorted_ext; [|exact B5]. intros q Hq. by erewrite upd_other by eauto. }
  destruct (insert_half k mm p new pre post (pre ++ [p]) post f) as (t & Hi & Hw); try done.
  - by rewrite <- app_assoc.
  - by rewrite deref_upd_ne, Hdn by done.
  - by rewrite deref_upd_eq.
  - intros x Hx Hh. rewrite <- (own_gap_insert (upd_vma p f mm)); try done;
      [|simpl; by rewrite Hl, <- app_assoc|by eapply sorted_NoDup|intros q Hq; apply half_u64; [simpl; lia|done]].
    rewrite <- app_assoc in Hx. apply elem_of_app in Hx as [Hx|Hx]; [by eapply upd_gap_pre|].
    apply elem_of_cons in Hx as [->|Hx].
    + apply (own_gap_same mm (upd_vma p f mm) p pre post pre post); simpl; rewrite ?Hl; try done.
      * by eapply pos_NoDup.
      * by eapply pos_NoDup.
      * eapply start_u64; [done..|apply p_in].
      * by rewrite deref_upd_eq.
      * by eapply upd_end_pre.
    + eapply upd_gap_post_tail; [done..|]. destruct post as [|n post']; [done|].
      apply elem_of_cons in Hx as [->|?]; done.
  - intros Hne. rewrite <- !app_assoc. simpl.
    rewrite (upd_end_tail k mm p pre post f Hwf Hl Hne).
    rewrite !end_of_app, !end_of_cons. unfold end_of.
    by destruct (list.last post) eqn:E; [|apply last_None in E].
  - eexists t, _. split; [exact Hi|exact Hw].
Qed.

(** [p] keeps the upper half *)
Lemma insert_lower :
  let f := with_range addr (vm_end v) (vm_pgoff v +u Z.shiftr (addr -u vm_start v) PAGE_SHIFT) in
  let l' := pre ++ new :: p :: post in
  deref mm new = lower_half addr v ->
  exists t h, let mm3 := set_map_count (map_count mm + 1) (set_mm_rb t (set_highest_vm_end h
      (set_mmap l' (upd_vma p f mm)))) in
    __insert_vm_struct new (upd_vma p f mm) = Some mm3 /\ wf k mm3.
Proof using All.
  intros f l' Hdn. destruct new_notin as (N1 & N2 & N3).
  destruct (half_ok addr v (wf_area _ _ Hwf p p_in) Hal) as [Hok1 Hok2].
  destruct (pos_sorted k mm p pre post Hwf Hl) as (B1 & B2 & B3 & B4 & B5).
  assert (Hs2 : sorted (deref (upd_vma p f mm)) 0 (pre ++ p :: post)).
  { eapply upd_sorted; [done..|simpl; lia|simpl; lia|simpl; lia|done]. }
  assert (Hs : sorted (deref (upd_vma p f mm)) 0 (pre ++ new :: p :: post)).
  { apply sorted_app in Hs2 as [S1 S2]. apply sorted_app. split; [done|]. simpl in *.
    rewrite (upd_end_pre k mm p pre post f Hwf Hl) in *.
    rewrite deref_upd_eq in *. rewrite (deref_upd_ne p new), Hdn by done. simpl in *.
    destruct S2 as (? & ? & ? & S3). split_and!; [lia|lia|lia|lia|lia|lia|exact S3]. }
  destruct (insert_half k mm p new pre post pre (p :: post) f) as (t & Hi & Hw); try done.
  - by rewrite deref_upd_ne, Hdn by done.
  - by rewrite deref_upd_eq.
  - intros x Hx Hh. rewrite <- (own_gap_insert (upd_vma p f mm)); try done;
      [|by eapply sorted_NoDup|intros q Hq; apply half_u64; [simpl; lia|done]].
    apply elem_of_app in Hx as [Hx|Hx]; [by eapply upd_gap_pre|].
    apply elem_of_cons in Hx as [->|Hx]; [done|].
    apply list_elem_of_split in Hx as (a & b & Hx). by eapply upd_gap_post.
  - intros _. rewrite !end_of_app, !end_of_cons, deref_upd_eq. simpl. apply end_of_ext.
    intros q Hq. by erewrite upd_other by eauto.
  - eexists t, _. split; [exact Hi|exact Hw].
Qed.
End Halves.

(** [__split_vma]: the two halves take the place of the area, in order. *)
Lemma split_vma_ok `{KmallocFresh} k mm p pre post addr (new_below : bool) new :
  wf k mm -> mmap mm = pre ++ p :: post -> page_aligned addr ->
  vm_start (deref mm p) < addr < vm_end (deref mm p) -> kmalloc mm = Some new ->
  let v := deref mm p in
  let l' := pre ++ (if new_below then [new; p] else [p; new]) ++ post in
  let h' := <[p := if new_below then upper_half addr v else lower_half addr v]>
            (<[new := if new_below then lower_half addr v else upper_half addr v]> (vmas mm)) in
  let mm' t h := set_map_count (map_count mm + 1) (set_mm_rb t (set_highest_vm_end h
      (set_mmap l' (set_vmas h' (get_file_opt (vm_file v) mm))))) in
  exists t h, __split_vma p addr new_below mm = Some (mm' t h, 0) /\ wf k (mm' t h).
Proof.
  intros Hwf Hl Hal Haddr Hk v l' h' mm'.
  assert (Hfr : vmas mm !! new = None) by (by apply kmalloc_fresh).
  assert (Hin : new ∉ mmap mm).
  { intros Hin. destruct (wf_live _ _ Hwf _ Hin). congruence. }
  assert (Hne : new <> p) by (intros ->; apply Hin; rewrite Hl; set_solver).
  set (nv := if new_below then lower_half addr v else upper_half addr v) in *.
  set (mm1 := get_file_opt (vm_file v) (set_vmas (<[new := nv]> (vmas mm)) mm)).
  assert (Hwf1 : wf k mm1).
  { apply wf_file, wf_heap; [done|]. intros q Hq. rewrite lookup_insert_ne; [done|].
    intros ->. done. }
  assert (Hd : forall q, q <> new -> deref mm1 q = deref mm q).
  { intros q Hq. unfold mm1, deref. destruct (vm_file v); simpl;
      by rewrite lookup_total_insert_ne. }
  assert (Hdn : deref mm1 new = nv).
  { unfold mm1, deref. destruct (vm_file v); simpl; by rewrite lookup_total_insert_eq. }
  assert (Hl1 : mmap mm1 = pre ++ p :: post) by (unfold mm1; by destruct (vm_file v)).
  assert (Hv : deref mm1 p = v) by (by apply Hd).
  assert (Hn1 : new ∉ mmap mm1) by (by rewrite Hl1, <- Hl).
  assert (Hs1 : is_Some (vmas mm1 !! new)).
  { unfold mm1. destruct (vm_file v); simpl; rewrite lookup_insert_eq; eauto. }
  assert (Hmm : forall t h, mm' t h = set_map_count (map_count mm1 + 1) (set_mm_rb t
    (set_highest_vm_end h (set_mmap l' (upd_vma p (fun _ =>
      if new_below then upper_half addr v else lower_half addr v) mm1))))).
  { intros t h. unfold mm', mm1, h', upd_vma. by destruct (vm_file v). }
  setoid_rewrite Hmm. unfold __split_vma. rewrite Hk. fold v.
  destruct new_below; rewrite adjust_insert.
  - destruct (insert_lower k mm1 p new pre post addr) as (t & h & Hi & Hw); rewrite ?Hv; try done.
    rewrite (upd_const p _ mm1 (upper_half addr v)) in Hw by (by rewrite Hv). exists t, h.
    split; [|exact Hw]. rewrite Hv in Hi.
    refine (eq_trans (f_equal (fun o => o ≫= (fun m => Some (m, 0))) Hi) _). simpl.
    by rewrite (upd_const p _ mm1 (upper_half addr v)) by (by rewrite Hv).
  - destruct (insert_upper k mm1 p new pre post addr) as (t & h & Hi & Hw); rewrite ?Hv; try done.
    rewrite (upd_const p _ mm1 (lower_half addr v)) in Hw by (by rewrite Hv). exists t, h.
    rewrite <- app_assoc in Hi, Hw. split; [|exact Hw]. rewrite Hv in Hi.
    refine (eq_trans (f_equal (fun o => o ≫= (fun m => Some (m, 0))) Hi) _). simpl.
    by rewrite (upd_const p _ mm1 (lower_half addr v)) by (by rewrite Hv).
Qed.
