(* ===== verification/VmaSpec.v ===== *)
(** * Memory manager, virtual memory areas: the abstract address space

    An address space seen through its addresses: the page that backs each address,
    independently of how the areas are cut.  File references per area, and the
    fields no mapping operation may touch. *)

From S2P Require Import Prelude RbTree VmaModel VmaTree VmaInv VmaAdjust.

(** What backs an address: the file and the page offset in it ([None] and 0 for an
    anonymous page). *)
Record backing := mk_backing { bk_file : option Z; bk_off : Z }.

Record page := mk_page { pg_backing : backing; pg_flags : Z }.

Definition backing_of (v : vm_area) (addr : Z) : backing :=
  mk_backing (vm_file v)
    (match vm_file v with
     | Some _ => vm_pgoff v +u Z.shiftr (addr -u vm_start v) PAGE_SHIFT
     | None => 0
     end).

Definition page_of (v : vm_area) (addr : Z) : page := mk_page (backing_of v addr) (vm_flags v).

Definition covers (v : vm_area) (addr : Z) : bool := (vm_start v <=? addr) && (addr <? vm_end v).

Fixpoint pages (a : ptr -> vm_area) (l : list ptr) (addr : Z) : option page :=
  match l with
  | [] => None
  | p :: l' => if covers (a p) addr then Some (page_of (a p) addr) else pages a l' addr
  end.

Definition page_at (mm : lego_mm) (addr : Z) : option page := pages (deref mm) (mmap mm) addr.
Definition backing_at (mm : lego_mm) (addr : Z) : option backing := pg_backing <$> page_at mm addr.

(** The number of areas of [l] that hold a reference to the file [f] *)
Fixpoint refs (a : ptr -> vm_area) (f : Z) (l : list ptr) : Z :=
  match l with
  | [] => 0
  | p :: l' => (if decide (vm_file (a p) = Some f) then 1 else 0) + refs a f l'
  end.

(** The references to [f] that are not held by an area *)
Definition file_balance (mm : lego_mm) (f : Z) : Z :=
  file_count mm f - refs (deref mm) f (mmap mm).

(** The settings of the address space *)
Definition settings (mm : lego_mm) : list Z :=
  [mmap_base mm; mmap_legacy_base mm; def_flags mm; start_brk mm; brk mm].
Definition counters (mm : lego_mm) : list Z := [total_vm mm; data_vm mm; exec_vm mm; stack_vm mm].

(** The address space with another log of page-table calls *)
Definition with_log (lg : list pgt_call) (mm : lego_mm) : lego_mm :=
  mk_mm (vmas mm) (mmap mm) (mm_rb mm) (highest_vm_end mm) (mmap_base mm)
    (mmap_legacy_base mm) (map_count mm) (total_vm mm) (data_vm mm) (exec_vm mm) (stack_vm mm)
    (def_flags mm) (start_brk mm) (brk mm) (f_count mm) lg.

(** [x] is in [addr, last). *)
Definition in_range (addr last x : Z) : bool := (addr <=? x) && (x <? last).

(** Areas in ascending order between [lo] and [top] *)
Fixpoint areas_between (lo top : Z) (l : list (Z * Z)) : Prop :=
  match l with
  | [] => True
  | (s, e) :: l => lo <= s /\ s < e /\ e <= top /\ page_aligned s /\ page_aligned e /\ areas_between e top l
  end.

(** The calls that unmap the areas [l] *)
Definition unmap_ranges (l : list (Z * Z)) : list pgt_call := map (fun r => Unmap_page_range r.1 r.2) l.

(** The calls of an unmapping of [start, last) of [mm] that leaves [mm']: pages of the
    range only, every mapped page of it, and page tables freed only between the
    areas that remain; area by area, then the tables. *)
Record calls_ok (mm mm' : lego_mm) (start last : Z) (calls : list pgt_call) : Prop := {
  co_inside : forall s e, Unmap_page_range s e ∈ calls -> start <= s /\ s < e <= last;
  co_complete : forall x g, start <= x < last -> page_at mm x = Some g ->
    exists s e, Unmap_page_range s e ∈ calls /\ s <= x < e;
  co_tables : forall l fl ce, Free_pgtables l fl ce ∈ calls ->
    fl <= start /\ (ce = 0 \/ last <= ce) /\
    (forall x, fl <= x -> (ce = 0 \/ x < ce) -> page_at mm' x = None) /\
    (fl = 0 \/ page_at mm' (fl - 1) <> None) /\ (ce = 0 \/ page_at mm' ce <> None);
  co_shape : calls = [] \/ exists l fl ce, calls = unmap_ranges l ++ [Free_pgtables l fl ce] /\
    areas_between start last l /\ 0 <= fl /\ 0 <= ce <= TASK_SIZE
}.

(** [mm'] is [mm] without the pages of [start, last). *)
Record unmapped (k : Z) (start last : Z) (mm mm' : lego_mm) : Prop := {
  um_wf : wf k mm';
  um_pages : forall x, page_at mm' x = if (start <=? x) && (x <? last) then None else page_at mm x;
  um_files : forall f, file_balance mm' f = file_balance mm f;
  um_settings : settings mm' = settings mm;
  um_counters : counters mm' = counters mm;
  um_log : exists calls, pgt_log mm' = pgt_log mm ++ calls /\ calls_ok mm mm' start last calls
}.

(** ** Ranges *)

Lemma in_range_spec addr last x : in_range addr last x = true <-> addr <= x < last.
Proof. unfold in_range. rewrite andb_true_iff, Z.leb_le, Z.ltb_lt. done. Qed.

Lemma in_range_bool s e y : in_range s e y = bool_decide (s <= y < e).
Proof. apply eq_true_iff_eq. by rewrite in_range_spec, bool_decide_eq_true. Qed.

Lemma in_range_empty a b x : b <= a -> in_range a b x = false.
Proof. intros. rewrite in_range_bool. apply bool_decide_eq_false_2. lia. Qed.

Lemma in_range_split s a e y : s <= a <= e -> in_range s e y = in_range s a y || in_range a e y.
Proof.
  intros. unfold in_range. destruct (Z.leb_spec s y), (Z.leb_spec a y), (Z.ltb_spec y a), (Z.ltb_spec y e); simpl; lia || done.
Qed.

Lemma in_range_false s a e y : a <= e -> in_range a e y = true -> in_range s a y = false.
Proof. rewrite in_range_spec, in_range_bool. intros. apply bool_decide_eq_false_2. lia. Qed.

(** ** Pages *)

Section Pages.
Implicit Types (a : ptr -> vm_area) (l : list ptr).

Lemma pages_app a l1 l2 addr :
  pages a (l1 ++ l2) addr
  = match pages a l1 addr with Some g => Some g | None => pages a l2 addr end.
Proof. induction l1 as [|p l1 IH]; simpl; [done|]. by destruct (covers _ _). Qed.

Lemma pages_ext a a' l addr : (forall p, p ∈ l -> a p = a' p) -> pages a l addr = pages a' l addr.
Proof.
  induction l as [|p l IH]; simpl; intros Ha; [done|]. rewrite (Ha p) by (by left).
  rewrite IH; [done|]. intros q Hq. apply Ha. by right.
Qed.

Lemma covers_spec v addr : covers v addr = true <-> vm_start v <= addr < vm_end v.
Proof. unfold covers. rewrite andb_true_iff, Z.leb_le, Z.ltb_lt. done. Qed.

Lemma pages_None a l addr :
  (forall p, p ∈ l -> ~ (vm_start (a p) <= addr < vm_end (a p))) -> pages a l addr = None.
Proof.
  induction l as [|p l IH]; simpl; intros Hn; [done|].
  destruct (covers (a p) addr) eqn:E; [|apply IH; intros q Hq; apply Hn; by right].
  apply covers_spec in E. destruct (Hn p); [by left|done].
Qed.

Lemma pages_Some a l addr g :
  pages a l addr = Some g -> exists p, p ∈ l /\ vm_start (a p) <= addr < vm_end (a p) /\
    g = page_of (a p) addr.
Proof.
  induction l as [|p l IH]; simpl; [done|]. destruct (covers (a p) addr) eqn:E.
  - intros [= <-]. exists p. split; [by left|]. split; [by apply covers_spec|done].
  - intros (q & ? & ?)%IH. exists q. split; [by right|done].
Qed.

(** Outside the span of the areas nothing is mapped. *)
Lemma pages_below a lo l addr : sorted a lo l -> addr < lo -> pages a l addr = None.
Proof.
  intros Hs Hlt. apply pages_None. intros p Hp. pose proof (sorted_bounds _ _ _ _ Hs Hp). lia.
Qed.

Lemma pages_above a lo l addr : sorted a lo l -> end_of a lo l <= addr -> pages a l addr = None.
Proof.
  intros Hs Hlt. apply pages_None. intros p Hp. pose proof (end_of_upper _ _ _ _ Hs Hp). lia.
Qed.

(** An area covers its own addresses, wherever it is in the list. *)
Lemma pages_in a lo l p addr :
  sorted a lo l -> p ∈ l -> vm_start (a p) <= addr < vm_end (a p) ->
  pages a l addr = Some (page_of (a p) addr).
Proof.
  intros Hs Hp Hin. apply list_elem_of_split in Hp as (l1 & l2 & ->).
  rewrite pages_app. destruct (sorted_split _ _ _ _ _ Hs) as [Hb _].
  rewrite pages_None; [simpl|intros q Hq; apply Hb in Hq; lia].
  by rewrite (proj2 (covers_spec _ _)).
Qed.

Lemma refs_app a f l1 l2 : refs a f (l1 ++ l2) = refs a f l1 + refs a f l2.
Proof. induction l1 as [|p l1 IH]; simpl; lia. Qed.

Lemma refs_ext a a' f l :
  (forall p, p ∈ l -> vm_file (a p) = vm_file (a' p)) -> refs a f l = refs a' f l.
Proof.
  induction l as [|p l IH]; simpl; intros Ha; [done|]. rewrite (Ha p) by (by left).
  rewrite IH; [done|]. intros q Hq. apply Ha. by right.
Qed.
End Pages.

(** ** Page offsets *)

Lemma shiftr_page z : Z.shiftr z PAGE_SHIFT = z / PAGE_SIZE.
Proof. by rewrite Z.shiftr_div_pow2. Qed.

(** The offset of an address does not depend on where the area was cut. *)
Lemma offset_split pgoff start addr x :
  0 <= start -> start <= addr -> addr <= x -> x < ULONG_MOD ->
  page_aligned start -> page_aligned addr ->
  (pgoff +u Z.shiftr (addr -u start) PAGE_SHIFT) +u Z.shiftr (x -u addr) PAGE_SHIFT
  = pgoff +u Z.shiftr (x -u start) PAGE_SHIFT.
Proof.
  intros H0 H1 H2 H3 Ha Hb. rewrite wrap_add_l. f_equal.
  rewrite !shiftr_page, !wrap_small by (unfold is_u64; lia).
  unfold page_aligned in *. rewrite PAGE_SIZE_eq in *.
  replace (x - start) with ((x - addr) + ((addr - start) / 4096) * 4096); [rewrite Z.div_add; lia|].
  assert (Hm : (addr - start) mod 4096 = 0) by (rewrite Zminus_mod, Ha, Hb; done).
  pose proof (Z.div_mod (addr - start) 4096). lia.
Qed.

(** Cutting an area in two keeps its pages. *)
Lemma halves_pages a p q v addr x :
  area_ok v -> 0 <= vm_start v -> vm_end v <= TASK_SIZE -> vm_start v < addr < vm_end v ->
  page_aligned addr -> a p = lower_half addr v -> a q = upper_half addr v ->
  pages a [p; q] x = if covers v x then Some (page_of v x) else None.
Proof.
  intros (Ha & _) H0 Ht Hr Hal Hp Hq. simpl. rewrite Hp, Hq. unfold covers. simpl.
  pose proof TASK_SIZE_u64.
  destruct (Z.leb_spec (vm_start v) x), (Z.ltb_spec x addr), (Z.leb_spec addr x),
    (Z.ltb_spec x (vm_end v)); try lia; simpl; try done.
  unfold page_of, backing_of. simpl. destruct (vm_file v); [|done].
  by rewrite offset_split by (done || lia).
Qed.
