(* ===== verification/VmaUnmap.v ===== *)
(** * Memory manager, virtual memory areas: unmapping

    [do_munmap] takes exactly the pages of the range out of the address space: the
    splits at both ends, the removal of the areas in between from the tree and the
    list, the calls to the page-table layer and the release of the files. *)

From S2P Require Import Prelude RbTree VmaModel VmaTree VmaInv VmaAdjust VmaSpec.

(** ** Files *)

Lemma file_count_get f g mm :
  file_count (get_file_opt f mm) g = file_count mm g + (if decide (f = Some g) then 1 else 0).
Proof.
  destruct f as [f|]; [|case_decide; [done|simpl; lia]].
  unfold get_file_opt, get_lego_file, file_count at 1. simpl. destruct (decide (f = g)) as [->|].
  - rewrite (decide_True (P := Some g = Some g)) by done. by rewrite lookup_insert_eq.
  - rewrite (decide_False (P := Some f = Some g)), lookup_insert_ne by congruence.
    unfold file_count. lia.
Qed.

Lemma file_count_put f g mm :
  file_count (put_file_opt f mm) g = file_count mm g - (if decide (f = Some g) then 1 else 0).
Proof.
  destruct f as [f|]; [|case_decide; [done|simpl; lia]].
  unfold put_file_opt, put_lego_file, file_count at 1. simpl. destruct (decide (f = g)) as [->|].
  - rewrite (decide_True (P := Some g = Some g)) by done.
    destruct (Z.eqb_spec (file_count mm g - 1) 0).
    + rewrite lookup_delete_eq. simpl. lia.
    + by rewrite lookup_insert_eq.
  - rewrite (decide_False (P := Some f = Some g)) by congruence. unfold file_count.
    case_match; [rewrite lookup_delete_ne by done|rewrite lookup_insert_ne by done]; lia.
Qed.

(** ** Splitting, abstractly *)

(** What a split keeps: the pages, the files' balances, the settings, the calls
    made, and every other area. *)
Record split_spec (k : Z) (mm mm' : lego_mm) : Prop := {
  sp_wf : wf k mm';
  sp_pages : forall x, page_at mm' x = page_at mm x;
  sp_files : forall f, file_balance mm' f = file_balance mm f;
  sp_settings : settings mm' = settings mm;
  sp_counters : counters mm' = counters mm;
  sp_log : pgt_log mm' = pgt_log mm
}.

Lemma split_spec_refl k mm : wf k mm -> split_spec k mm mm.
Proof. by split. Qed.

Lemma split_spec_trans k mm1 mm2 mm3 :
  split_spec k mm1 mm2 -> split_spec k mm2 mm3 -> split_spec k mm1 mm3.
Proof. intros [] []. split; [done|congruence..]. Qed.

Section Split.
Context `{KmallocFresh}.

Lemma split_abstract k mm p pre post addr (new_below : bool) new :
  wf k mm -> mmap mm = pre ++ p :: post -> page_aligned addr ->
  vm_start (deref mm p) < addr < vm_end (deref mm p) -> kmalloc mm = Some new ->
  exists mm', __split_vma p addr new_below mm = Some (mm', 0) /\ split_spec k mm mm' /\
    mmap mm' = pre ++ (if new_below then [new; p] else [p; new]) ++ post /\
    deref mm' p = (if new_below then upper_half else lower_half) addr (deref mm p) /\
    deref mm' new = (if new_below then lower_half else upper_half) addr (deref mm p) /\
    (forall q, q ∈ pre \/ q ∈ post -> deref mm' q = deref mm q).
Proof.
  intros Hwf Hl Hal Hr Hk.
  assert (Hin : new ∉ mmap mm).
  { intros Hin. destruct (wf_live _ _ Hwf _ Hin) as [? Hq]. by rewrite kmalloc_fresh in Hq. }
  pose proof Hin as Hin'. rewrite Hl in Hin'.
  apply not_elem_of_app in Hin' as [Hi1 [Hne Hi2]%not_elem_of_cons].
  destruct (pos_notin k mm p pre post Hwf Hl) as [P1 P2].
  destruct (split_vma_ok k mm p pre post addr new_below new) as (t & h & Hsp & Hw); [done..|].
  cbv zeta in Hsp, Hw. set (v := deref mm p) in *.
  match type of Hsp with _ = Some (?m, 0) => set (mm' := m) in * end.
  assert (Hdp : deref mm' p = (if new_below then upper_half else lower_half) addr v).
  { unfold mm', deref. simpl. rewrite lookup_total_insert_eq. by destruct new_below. }
  assert (Hdn : deref mm' new = (if new_below then lower_half else upper_half) addr v).
  { unfold mm', deref. simpl. rewrite lookup_total_insert_ne by done.
    rewrite lookup_total_insert_eq. by destruct new_below. }
  assert (Hdo : forall q, q ∈ pre \/ q ∈ post -> deref mm' q = deref mm q).
  { intros q Hq. unfold mm', deref. simpl.
    rewrite !lookup_total_insert_ne by (intros ->; naive_solver). done. }
  exists mm'. split_and!; try done. split; try done.
  - intros x. unfold page_at. rewrite Hl.
    change (mmap mm') with (pre ++ (if new_below then [new; p] else [p; new]) ++ post).
    rewrite !pages_app. rewrite (pages_ext (deref mm') (deref mm) pre), (pages_ext (deref mm') (deref mm) post) by auto.
    change (pages (deref mm) (p :: post) x)
      with (if covers v x then Some (page_of v x) else pages (deref mm) post x).
    destruct (wf_bounds _ _ p Hwf) as (? & ? & ?); [rewrite Hl; set_solver|].
    assert (pages (deref mm') (if new_below then [new; p] else [p; new]) x
      = if covers v x then Some (page_of v x) else None) as ->; [|by destruct (covers v x)].
    assert (area_ok v) by (apply (wf_area _ _ Hwf); rewrite Hl; set_solver).
    destruct new_below; eapply (halves_pages _ _ _ v addr); done.
  - intros f. unfold file_balance. rewrite Hl.
    change (mmap mm') with (pre ++ (if new_below then [new; p] else [p; new]) ++ post).
    assert (file_count mm' f = file_count mm f + (if decide (vm_file v = Some f) then 1 else 0)) as ->.
    { rewrite <- file_count_get. done. }
    rewrite !refs_app. rewrite (refs_ext (deref mm') (deref mm) f pre), (refs_ext (deref mm') (deref mm) f post)
      by (intros q Hq; by rewrite Hdo by auto).
    destruct new_below; simpl; rewrite Hdp, Hdn; simpl; fold v; lia.
  - unfold mm', settings. simpl. by destruct (vm_file v).
  - unfold mm', counters. simpl. by destruct (vm_file v).
  - unfold mm'. simpl. by destruct (vm_file v).
Qed.

Lemma split_nomem p addr (new_below : bool) mm :
  kmalloc mm = None -> __split_vma p addr new_below mm = Some (mm, - ENOMEM).
Proof. intros Hk. unfold __split_vma. by rewrite Hk. Qed.

End Split.

(** ** Detaching *)

Lemma detach_loop_ok mm pre mid post last :
  NoDup (pre ++ mid ++ post) -> tree_ok (own_gap mm) (pre ++ mid ++ post) (mm_rb mm) ->
  mid <> [] -> (forall q, q ∈ tail mid -> vm_start (deref mm q) < last) ->
  (forall q, hd_error post = Some q -> last <= vm_start (deref mm q)) ->
  exists t, tree_ok (own_gap mm) (pre ++ post) t /\
    detach_loop (mid ++ post) last mm = Some (mid, post,
      set_map_count (map_count mm - Z.of_nat (length mid)) (set_mm_rb t mm)).
Proof.
  revert mm. induction mid as [|p mid IH]; intros mm Hn Ht Hne Hm Hp; [done|].
  simpl in Hn, Ht, Hm.
  destruct (vma_rb_erase_ok (own_gap mm) mm (pre ++ p :: mid ++ post) pre p (mid ++ post))
    as (t1 & Her & Ht1); try done.
  simpl. unfold vma_rb_erase. rewrite Her. simpl.
  destruct mid as [|q mid]; simpl.
  - exists t1. split; [done|]. destruct post as [|q post]; [done|].
    by rewrite (proj2 (Z.ltb_ge _ _)) by (by apply Hp).
  - set (mm1 := set_map_count (map_count mm - 1) (set_mm_rb t1 mm)).
    assert ((vm_start (deref mm1 q) <? last) = true) as -> by (apply Z.ltb_lt, Hm; by left).
    destruct (IH mm1) as (t & Htok & Hloop); try done.
    + eapply sublist_NoDup; [exact Hn|]. apply sublist_app; [done|by constructor].
    + intros x Hx. apply Hm. by right.
    + exists t. split; [done|].
      replace (map_count mm - _) with (map_count mm1 - Z.of_nat (length (q :: mid)))
        by (simpl; lia). simpl in Hloop. by rewrite Hloop.
Qed.

(** [detach_vmas_to_be_unmapped] cuts the areas [mid] out. *)
Lemma detach_ok k mm pre m mid post last :
  wf k mm -> mmap mm = pre ++ (m :: mid) ++ post ->
  (forall q, q ∈ mid -> vm_start (deref mm q) < last) ->
  (forall q, hd_error post = Some q -> last <= vm_start (deref mm q)) ->
  exists t h,
    let mm' := set_map_count (map_count mm - Z.of_nat (length (m :: mid)))
                 (set_mm_rb t (set_highest_vm_end h (set_mmap (pre ++ post) mm))) in
    detach_vmas_to_be_unmapped m (list.last pre) last mm = Some (m :: mid, mm') /\ wf k mm'.
Proof.
  intros Hwf Hl Hm Hp. pose proof (wf_NoDup _ _ Hwf) as Hn. pose proof Hn as Hn'. rewrite Hl in Hn'.
  pose proof (wf_sorted _ _ Hwf) as Hs. rewrite Hl in Hs.
  destruct (detach_loop_ok mm pre (m :: mid) post last) as (t1 & Ht1 & Hloop); try done.
  { rewrite <- Hl. apply Hwf. }
  set (mm2 := set_map_count (map_count mm - Z.of_nat (length (m :: mid)))
                (set_mm_rb t1 (set_mmap (pre ++ post) mm))).
  assert (Hs2 : sorted (deref mm) 0 (pre ++ post)).
  { apply sorted_app in Hs as [S1 S2]. apply sorted_app in S2 as [S2 S3]. apply sorted_app.
    split; [done|]. eapply sorted_weaken; [|exact S3]. by apply end_of_bounds. }
  assert (Hag : forall x, x ∈ pre ++ post -> hd_error post <> Some x -> own_gap mm x = own_gap mm2 x).
  { intros x Hx Hh. apply (own_gap_remove mm pre (m :: mid) post x); try done.
    intros q Hq. pose proof (sorted_bounds _ _ _ _ Hs2 Hq). pose proof TASK_SIZE_u64.
    unfold is_u64. lia. }
  assert (Hdet : detach_vmas_to_be_unmapped m (list.last pre) last mm
    = match hd_error post with
      | Some v => mm3 ← vma_gap_update v mm2; Some (m :: mid, mm3)
      | None => Some (m :: mid, set_highest_vm_end (end_of (deref mm) 0 (pre ++ post)) mm2)
      end).
  { unfold detach_vmas_to_be_unmapped.
    replace (from_elem m (mmap mm)) with ((m :: mid) ++ post).
    2:{ rewrite Hl. simpl in *. apply NoDup_split in Hn' as [? _]. by rewrite from_elem_app. }
    rewrite Hloop. simpl.
    assert (match list.last pre with
      | Some q => upto_elem q (mmap mm) ++ post
      | None => post
      end = pre ++ post) as ->.
    { rewrite Hl. destruct pre as [|q pre _] using rev_ind; [done|]. rewrite last_snoc.
      rewrite <- app_assoc in Hn' |- *. apply NoDup_split in Hn' as [? _]. simpl.
      by rewrite upto_elem_app. }
    destruct post as [|v post]; [simpl|done].
    replace (end_of (deref mm) 0 (pre ++ [])) with (end_of (deref mm) 0 pre)
      by (by rewrite app_nil_r). unfold end_of.
    by destruct (list.last pre). }
  assert (Hfin : forall t, tree_ok (own_gap mm2) (pre ++ post) t ->
    wf k (set_mm_rb t (set_highest_vm_end (end_of (deref mm) 0 (pre ++ post)) mm2))).
  { intros t Ht. split; simpl; try done.
    - intros q Hq. apply Hwf. rewrite Hl. set_solver.
    - intros q Hq. apply (wf_area _ _ Hwf). rewrite Hl. set_solver.
    - rewrite (wf_count _ _ Hwf), Hl, !length_app. simpl. lia. }
  rewrite Hdet. clear Hdet. destruct post as [|v post]; simpl.
  - exists t1, (end_of (deref mm) 0 (pre ++ [])). split; [done|]. apply (Hfin t1).
    destruct Ht1 as (He & Hb & Ha). split_and!; [done..|]. eapply aug_ok_agree; [|exact Ha].
    intros x Hx. apply Hag; [congruence|done].
  - destruct (vma_gap_update_ok (own_gap mm) mm2 (pre ++ v :: post) v) as (t & Hup & Ht & _);
      [done|by eapply sorted_NoDup|set_solver|intros x Hx Hne; apply Hag; [done|simpl; congruence]|].
    rewrite Hup. simpl. exists t, (end_of (deref mm) 0 (pre ++ v :: post)).
    split; [|by apply Hfin]. do 2 f_equal. unfold mm2.
    assert (Hh : highest_vm_end mm = end_of (deref mm) 0 (pre ++ v :: post)).
    { rewrite (wf_highest _ _ Hwf), Hl. by rewrite !end_of_app, !end_of_cons. }
    rewrite <- Hh. by destruct mm.
Qed.

(** ** Cutting at the ends of a range *)

Section Cut.
Context `{KmallocFresh}.

Lemma cut_start k mm start last vma :
  wf k mm -> page_aligned start -> first_above mm start = Some vma ->
  start < last -> vm_start (deref mm vma) < last ->
  exists mm1 prev1 err,
    (if vm_start (deref mm vma) <? start then
       if (last <? vm_end (deref mm vma)) && (sysctl_max_map_count <=? map_count mm)
       then Some (mm, vm_prev mm vma, - ENOMEM)
       else
         '(mm1, error) ← __split_vma vma start false mm;
         Some (mm1, Some vma, error)
     else Some (mm, vm_prev mm vma, 0)) = Some (mm1, prev1, err) /\
    (err = - ENOMEM /\ mm1 = mm /\
       (kmalloc mm = None \/ sysctl_max_map_count <= map_count mm) \/
     err = 0 /\ split_spec k mm mm1 /\ exists pre m post, mmap mm1 = pre ++ m :: post /\
       prev1 = list.last pre /\ vm_start (deref mm1 m) < last /\
       (forall q, q ∈ pre -> vm_end (deref mm1 q) <= start) /\
       (forall q, q ∈ m :: post -> start <= vm_start (deref mm1 q))).
Proof.
  intros Hwf Hal Hf Hlt Hov. apply first_above_Some in Hf as (pre & post & Hl & Hend & Hpre).
  pose proof (wf_sorted _ _ Hwf) as Hs. rewrite Hl in Hs.
  destruct (sorted_split _ _ _ _ _ Hs) as [_ Hpost].
  destruct (Z.ltb_spec (vm_start (deref mm vma)) start) as [Hst|Hst].
  2:{ eexists _, _, _. split; [done|]. right. split; [done|]. split; [by apply split_spec_refl|].
      exists pre, vma, post. split_and!; [done| |done|done|].
      - rewrite (vm_prev_at mm vma pre post); [done..|by eapply wf_NoDup].
      - intros q [->|Hq]%elem_of_cons; [done|]. apply Hpost in Hq. lia. }
  destruct ((last <? _) && _) eqn:Hlim.
  { eexists _, _, _. split; [done|]. left. zbool. auto. }
  destruct (kmalloc mm) as [new|] eqn:Hk.
  2:{ rewrite split_nomem by done. simpl. eexists _, _, _. split; [done|]. left. auto. }
  destruct (split_abstract k mm vma pre post start false new) as (mm1 & -> & Hsp & Hl1 & Hp & Hn & Ho);
    [done..|lia|done|]. simpl in Hl1. simpl. eexists _, _, _. split; [done|]. right.
  split; [done|]. split; [done|]. exists (pre ++ [vma]), new, post.
  rewrite Hn. split_and!.
  - by rewrite <- app_assoc.
  - by rewrite last_snoc.
  - simpl. lia.
  - intros q [Hq| ->%list_elem_of_singleton]%elem_of_app; [rewrite Ho by auto; auto|].
    rewrite Hp. simpl. lia.
  - intros q [->|Hq]%elem_of_cons; [rewrite Hn; simpl; lia|]. rewrite Ho by auto.
    apply Hpost in Hq. lia.
Qed.

Lemma cut_last k mm pre m post start last :
  wf k mm -> page_aligned last -> mmap mm = pre ++ m :: post -> start < last ->
  vm_start (deref mm m) < last ->
  (forall q, q ∈ pre -> vm_end (deref mm q) <= start) ->
  (forall q, q ∈ m :: post -> start <= vm_start (deref mm q)) ->
  exists mm2 err,
    match find_vma mm last with
    | Some lst => if vm_start (deref mm lst) <? last
                  then __split_vma lst last true mm else Some (mm, 0)
    | None => Some (mm, 0)
    end = Some (mm2, err) /\
    (err = - ENOMEM /\ mm2 = mm /\ kmalloc mm = None \/
     err = 0 /\ split_spec k mm mm2 /\ exists m' mid post', mmap mm2 = pre ++ (m' :: mid) ++ post' /\
       (forall q, q ∈ pre -> vm_end (deref mm2 q) <= start) /\
       (forall q, q ∈ m' :: mid -> start <= vm_start (deref mm2 q) /\ vm_end (deref mm2 q) <= last) /\
       (forall q, q ∈ post' -> last <= vm_start (deref mm2 q))).
Proof.
  intros Hwf Hal Hl Hlt Hm Hpre Hpost. rewrite (find_vma_ok k) by done.
  pose proof (wf_sorted _ _ Hwf) as Hs.
  destruct (first_above mm last) as [lst|] eqn:Hf.
  2:{ pose proof (first_above_None _ _ Hf) as Hall. eexists _, _. split; [done|]. right.
      split; [done|]. split; [by apply split_spec_refl|]. exists m, post, []. rewrite app_nil_r.
      split_and!; [done|done| |by intros q ?%not_elem_of_nil]. intros q Hq.
      split; [auto|]. apply Hall. rewrite Hl. set_solver. }
  apply first_above_Some in Hf as (a & b & Hl' & Hend & Ha). pose proof Hs as Hs'. rewrite Hl' in Hs'.
  destruct (sorted_split _ _ _ _ _ Hs') as [Hsa Hsb].
  (* [m] is below the cut, so [a] starts with [pre ++ [m]] unless [lst] is [m] itself *)
  destruct (Z.ltb_spec (vm_start (deref mm lst)) last) as [Hst|Hst].
  - assert (exists a', a = pre ++ a' /\ m :: post = a' ++ lst :: b) as (a' & -> & Hmp).
    { rewrite Hl in Hl'. apply app_eq_inv in Hl' as [(x & -> & Hx)|(x & -> & Hx)]; [|eauto].
      destruct x as [|y x]; [exists []; by rewrite !app_nil_r|]. exfalso. simpl in Hx. simplify_eq.
      assert (vm_end (deref mm y) <= start) by (apply Hpre; set_solver). lia. }
    destruct (kmalloc mm) as [new|] eqn:Hk.
    2:{ rewrite split_nomem by done. eexists _, _. split; [done|]. left. auto. }
    destruct (split_abstract k mm lst (pre ++ a') b last true new)
      as (mm2 & -> & Hsp & Hl2 & Hp & Hn & Ho); [done..|]. simpl in Hl2.
    eexists _, _. split; [done|]. right. split; [done|]. split; [done|].
    assert (exists m' mid, a' ++ [new] = m' :: mid) as (m' & mid & Hmid).
    { destruct a' as [|y a']; simpl; eauto. }
    exists m', mid, (lst :: b). rewrite <- Hmid. split_and!.
    + by rewrite Hl2, <- !app_assoc.
    + intros q Hq. rewrite Ho by (left; apply elem_of_app; auto). auto.
    + intros q [Hq| ->%list_elem_of_singleton]%elem_of_app.
      * rewrite Ho by (left; apply elem_of_app; auto).
        split; [apply Hpost; rewrite Hmp|apply Ha]; apply elem_of_app; auto.
      * rewrite Hn. simpl. split; [apply Hpost; rewrite Hmp; apply elem_of_app|lia].
        right. by left.
    + intros q [->|Hq]%elem_of_cons; [rewrite Hp; simpl; lia|].
      rewrite Ho by auto. apply Hsb in Hq. lia.
  - assert (exists a', a = pre ++ m :: a' /\ post = a' ++ lst :: b) as (a' & -> & Hmp).
    { rewrite Hl in Hl'. apply app_eq_inv in Hl' as [(x & -> & Hx)|(x & -> & Hx)].
      - destruct x as [|y x]; simpl in Hx; simplify_eq; [lia|].
        assert (vm_end (deref mm y) <= start) by (apply Hpre; set_solver). lia.
      - destruct x as [|y x]; simpl in Hx; simplify_eq; [lia|]. eauto. }
    eexists _, _. split; [done|]. right. split; [done|]. split; [by apply split_spec_refl|].
    exists m, a', (lst :: b). split_and!.
    + by rewrite Hl, Hmp.
    + done.
    + intros q Hq. split; [apply Hpost; set_solver|apply Ha; set_solver].
    + intros q [->|Hq]%elem_of_cons; [lia|]. apply Hsb in Hq. lia.
Qed.
End Cut.

(** ** Releasing the areas *)

Definition unmap_calls (a : ptr -> vm_area) (l : list ptr) : list pgt_call :=
  map (fun p => Unmap_page_range (vm_start (a p)) (vm_end (a p))) l.

Lemma unmap_calls_ranges a l : unmap_calls a l = unmap_ranges (ranges a l).
Proof. unfold unmap_calls, unmap_ranges, ranges. by rewrite map_map. Qed.

Lemma ranges_between a lo' lo top l :
  sorted a lo' l -> (forall p, p ∈ l -> area_ok (a p) /\ lo <= vm_start (a p) /\ vm_end (a p) <= top) ->
  areas_between lo top (ranges a l).
Proof.
  revert lo lo'. induction l as [|p l IH]; simpl; intros lo lo' Hs Hl; [done|]. destruct Hs as (_ & Hse & _ & Hs).
  destruct (Hl p) as ((? & ? & _) & ? & ?); [by left|]. split_and!; try done. apply (IH _ (vm_end (a p))); [done|].
  intros q Hq. destruct (Hl q) as (? & ? & ?); [by right|]. split_and!; try done. by apply (sorted_bounds _ _ _ _ Hs Hq).
Qed.

Lemma unmap_vmas_log l start last mm :
  (forall p, p ∈ l -> start <= vm_start (deref mm p) /\
     vm_start (deref mm p) < vm_end (deref mm p) <= last) ->
  unmap_vmas l start last mm = with_log (pgt_log mm ++ unmap_calls (deref mm) l) mm.
Proof.
  revert mm. induction l as [|p l IH]; simpl; intros mm Hr; [rewrite app_nil_r; by destruct mm|].
  destruct (Hr p) as [? ?]; [by left|]. rewrite (proj2 (Z.ltb_lt _ last)) by lia.
  unfold unmap_single_vma. rewrite Z.max_l, Z.min_l by lia.
  rewrite (proj2 (Z.leb_gt _ _)), (proj2 (Z.eqb_neq _ _)) by lia. simpl.
  rewrite IH; [unfold log_pgt, with_log; simpl; by rewrite <- app_assoc|].
  intros q Hq. apply Hr. by right.
Qed.

Lemma wf_remove k p mm : wf k mm -> p ∉ mmap mm -> wf k (remove_vma p mm).
Proof.
  intros Hwf Hp. unfold remove_vma. apply wf_heap.
  - destruct (vm_file _); [|done]. destruct Hwf; by split.
  - intros q Hq. destruct (vm_file _); simpl in *; rewrite lookup_delete_ne; congruence.
Qed.

(** What freeing the areas [l] does to the heap and to the files *)
Lemma remove_list_heap l mm :
  NoDup l ->
  let mm' := remove_vma_list l mm in
  mmap mm' = mmap mm /\ (forall q, vmas mm' !! q = if decide (q ∈ l) then None else vmas mm !! q) /\
  (forall f, file_count mm' f = file_count mm f - refs (deref mm) f l) /\
  settings mm' = settings mm /\ counters mm' = counters mm /\ pgt_log mm' = pgt_log mm.
Proof.
  revert mm. induction l as [|p l IH]; intros mm Hn mm'.
  { split_and!; try done. intros f. simpl. subst mm'. simpl. lia. }
  apply list.NoDup_cons in Hn as [Hp Hn]. unfold mm', remove_vma_list. simpl.
  set (mm1 := remove_vma p mm).
  assert (H1 : mmap mm1 = mmap mm /\ settings mm1 = settings mm /\ counters mm1 = counters mm /\
    pgt_log mm1 = pgt_log mm /\ vmas mm1 = delete p (vmas mm)).
  { unfold mm1, remove_vma, settings, counters. by destruct (vm_file _). }
  destruct H1 as (Hm & Hs & Hc & Hlg & Hv).
  destruct (IH mm1 Hn) as (M & V & F & S & C & L).
  unfold remove_vma_list in *. split_and!; [congruence| | |congruence..].
  - intros q. rewrite V, Hv. destruct (decide (q = p)) as [->|Hne].
    + rewrite (decide_True (P := p ∈ p :: l)) by (by left). case_decide; [done|]. apply lookup_delete_eq.
    + rewrite lookup_delete_ne by done.
      by rewrite (decide_ext (q ∈ p :: l) (q ∈ l)) by (rewrite elem_of_cons; naive_solver).
  - intros f. rewrite F. simpl. rewrite (refs_ext (deref mm1) (deref mm)).
    2:{ intros q Hq. unfold deref. rewrite Hv, lookup_total_delete_ne by (intros ->; done). done. }
    assert (file_count mm1 f = file_count (put_file_opt (vm_file (deref mm p)) mm) f) as -> by done.
    rewrite file_count_put. lia.
Qed.

Lemma remove_list_ok k l mm :
  wf k mm -> NoDup l -> (forall p, p ∈ l -> p ∉ mmap mm) ->
  let mm' := remove_vma_list l mm in
  wf k mm' /\ mmap mm' = mmap mm /\ (forall q, q ∉ l -> deref mm' q = deref mm q) /\
  (forall f, file_count mm' f = file_count mm f - refs (deref mm) f l) /\
  settings mm' = settings mm /\ counters mm' = counters mm /\ pgt_log mm' = pgt_log mm.
Proof.
  intros Hwf Hn Hl mm'. destruct (remove_list_heap l mm Hn) as (M & V & F & S & C & L).
  split_and!; try done.
  - clear -Hwf Hl. subst mm'. unfold remove_vma_list. revert mm Hwf Hl.
    induction l as [|p l IH]; intros mm Hwf Hl; simpl; [done|].
    apply IH; [apply wf_remove; [done|apply Hl; by left]|]. intros q Hq.
    assert (mmap (remove_vma p mm) = mmap mm) as -> by (unfold remove_vma; by destruct (vm_file _)).
    apply Hl. by right.
  - intros q Hq. unfold deref. rewrite !lookup_total_alt, V. by rewrite decide_False.
Qed.

(** ** Removing whole areas *)

Section Remove.
Context (k : Z) (mm : lego_mm) (pre mid post : list ptr) (m : ptr) (start last : Z).
Context (Hwf : wf k mm) (Hl : mmap mm = pre ++ (m :: mid) ++ post).
Context (Hpre : forall q, q ∈ pre -> vm_end (deref mm q) <= start).
Context (Hmid : forall q, q ∈ m :: mid ->
  start <= vm_start (deref mm q) /\ vm_end (deref mm q) <= last).
Context (Hpost : forall q, q ∈ post -> last <= vm_start (deref mm q)).
Context (H0 : 0 <= start) (Hlt : start < last).

Lemma removed_pages x :
  pages (deref mm) (pre ++ post) x
  = if (start <=? x) && (x <? last) then None else page_at mm x.
Proof using All.
  unfold page_at. rewrite Hl, !pages_app.
  assert (Hp1 : start <= x -> pages (deref mm) pre x = None).
  { intros. apply pages_None. intros q Hq. apply Hpre in Hq. lia. }
  assert (Hp2 : x < last -> pages (deref mm) post x = None).
  { intros. apply pages_None. intros q Hq. apply Hpost in Hq. lia. }
  assert (Hp3 : x < start \/ last <= x -> pages (deref mm) (m :: mid) x = None).
  { intros. apply pages_None. intros q Hq. apply Hmid in Hq. lia. }
  destruct (Z.leb_spec start x), (Z.ltb_spec x last); cbn [andb];
    [by rewrite Hp1, Hp2|rewrite Hp3 by auto; by destruct (pages _ pre x)..].
Qed.

(** Floor and ceiling for the page tables: the neighbours of the range *)
Lemma removed_floor : end_of (deref mm) 0 pre <= start.
Proof using Hpre H0.
  unfold end_of. destruct (list.last pre) eqn:E; [|done].
  by apply Hpre, last_Some_elem_of.
Qed.

Lemma removed_gap x ce :
  ce = match hd_error post with Some n => vm_start (deref mm n) | None => 0 end ->
  end_of (deref mm) 0 pre <= x -> ce = 0 \/ x < ce -> pages (deref mm) (pre ++ post) x = None.
Proof using All.
  intros Hce Hfl Hx. rewrite pages_app.
  pose proof (wf_sorted _ _ Hwf) as Hs. rewrite Hl in Hs. apply sorted_app in Hs as [S1 S2].
  apply sorted_app in S2 as [_ S3]. rewrite (pages_above _ 0 pre) by done.
  destruct post as [|n post'] eqn:Hp; [done|]. simpl in Hce.
  assert (last <= vm_start (deref mm n)) by (apply Hpost; by left).
  apply (pages_below _ (vm_start (deref mm n))); [|lia]. simpl in *. split_and!; try apply S3. lia.
Qed.

(** The neighbours are mapped. *)
Lemma removed_meets q x : q ∈ pre ++ post -> vm_start (deref mm q) <= x < vm_end (deref mm q) -> pages (deref mm) (pre ++ post) x <> None.
Proof using.
  intros Hq Hx. induction (pre ++ post) as [|p l IH]; [by apply elem_of_nil in Hq|]. cbn [pages]. destruct (covers (deref mm p) x) eqn:E; [done|].
  apply elem_of_cons in Hq as [->|Hq]; [|auto]. rewrite (proj2 (covers_spec _ x) Hx) in E. done.
Qed.

Lemma removed_below : end_of (deref mm) 0 pre = 0 \/ pages (deref mm) (pre ++ post) (end_of (deref mm) 0 pre - 1) <> None.
Proof using All.
  unfold end_of. destruct (list.last pre) as [q|] eqn:E; [right|by left]. apply last_Some_elem_of in E.
  apply (removed_meets q); [set_solver|]. destruct (wf_bounds _ _ q Hwf); [rewrite Hl; set_solver|lia].
Qed.

Lemma removed_calls mm' floor ce :
  (forall x, page_at mm' x = pages (deref mm) (pre ++ post) x) ->
  floor = end_of (deref mm) 0 pre ->
  ce = match hd_error post with Some n => vm_start (deref mm n) | None => 0 end ->
  calls_ok mm mm' start last
    (unmap_calls (deref mm) (m :: mid) ++ [Free_pgtables (ranges (deref mm) (m :: mid)) floor ce]).
Proof using All.
  intros Hpg Hfl Hce. split.
  - intros s e [Hin|Hin]%elem_of_app; [|by apply list_elem_of_singleton in Hin].
    apply list_elem_of_fmap in Hin as (q & [= -> ->] & Hq). pose proof (Hmid q Hq).
    assert (q ∈ mmap mm) as Hqm by (rewrite Hl; set_solver).
    destruct (wf_bounds _ _ q Hwf Hqm). lia.
  - intros x g Hx Hg. apply pages_Some in Hg as (q & Hq & Hc & _). rewrite Hl in Hq.
    exists (vm_start (deref mm q)), (vm_end (deref mm q)). split; [|done].
    apply elem_of_app. left. apply list_elem_of_fmap. exists q. split; [done|].
    apply elem_of_app in Hq as [Hq|Hq]; [apply Hpre in Hq; lia|].
    apply elem_of_app in Hq as [Hq|Hq]; [done|apply Hpost in Hq; lia].
  - intros l fl c [Hin|Hin]%elem_of_app.
    { apply list_elem_of_fmap in Hin as (q & ? & _). done. }
    apply list_elem_of_singleton in Hin. injection Hin as -> -> ->. rewrite Hfl.
    split; [apply removed_floor|]. split_and!.
    + rewrite Hce. destruct post as [|n post'] eqn:Hp; [by left|right]. apply Hpost. by left.
    + intros x Hx1 Hx2. rewrite Hpg. by eapply removed_gap.
    + rewrite Hpg. apply removed_below.
    + rewrite Hpg, Hce. destruct post as [|n post'] eqn:Hp; [by left|right]. cbn [hd_error]. rewrite <- Hp. apply (removed_meets n); [rewrite Hp; set_solver|].
      destruct (wf_bounds _ _ n Hwf); [rewrite Hl; set_solver|lia].
  - right. exists (ranges (deref mm) (m :: mid)), floor, ce. rewrite <- unmap_calls_ranges. split; [done|].
    pose proof (wf_sorted _ _ Hwf) as Hs. rewrite Hl in Hs. apply sorted_app in Hs as [S1 [S2 _]%sorted_app].
    assert (Hb : forall q, q ∈ pre ++ (m :: mid) ++ post -> q ∈ mmap mm) by (by rewrite Hl). split_and!.
    + eapply ranges_between; [exact S2|]. intros q Hq. destruct (Hmid q Hq). split_and!; try lia.
      apply (wf_area _ _ Hwf), Hb. set_solver.
    + rewrite Hfl. unfold end_of. destruct (list.last pre) as [q|] eqn:E; [|done]. apply last_Some_elem_of in E.
      destruct (wf_bounds _ _ q Hwf) as (? & ? & ?); [apply Hb; set_solver|lia].
    + rewrite Hce. destruct post as [|n post']; [done|]. cbn [hd_error].
      destruct (wf_bounds _ _ n Hwf) as (? & ? & ?); [apply Hb; set_solver|lia].
    + rewrite Hce. destruct post as [|n post']; [done|]. cbn [hd_error].
      destruct (wf_bounds _ _ n Hwf) as (? & ? & ?); [apply Hb; set_solver|lia].
Qed.

(** From the state [mm3] with the areas detached: page tables, files, heap *)
Section Release.
Context (mm3 : lego_mm) (Hw3 : wf k mm3) (Hm3 : mmap mm3 = pre ++ post).
Context (Hv3 : vmas mm3 = vmas mm) (Hf3 : f_count mm3 = f_count mm).
Context (Hs3 : settings mm3 = settings mm) (Hc3 : counters mm3 = counters mm).
Context (Hl3 : pgt_log mm3 = pgt_log mm).

Lemma deref3 : deref mm3 = deref mm.
Proof using Hv3. unfold deref. by rewrite Hv3. Qed.

Lemma release_calls :
  unmap_region (m :: mid) (list.last pre) start last mm3 =
  with_log (pgt_log mm ++ unmap_calls (deref mm) (m :: mid) ++ [Free_pgtables (ranges (deref mm) (m :: mid))
    (end_of (deref mm) 0 pre)
    (match hd_error post with Some n => vm_start (deref mm n) | None => 0 end)]) mm3.
Proof using All.
  unfold unmap_region. rewrite unmap_vmas_log.
  2:{ intros q Hq. rewrite deref3. pose proof (Hmid q Hq).
      assert (q ∈ mmap mm) as Hqm by (rewrite Hl; set_solver). destruct (wf_bounds _ _ q Hwf Hqm). lia. }
  set (mm5 := with_log _ mm3).
  assert (Hd5 : deref mm5 = deref mm) by (unfold deref; simpl; by rewrite Hv3). rewrite Hd5.
  unfold log_pgt, with_log. simpl. rewrite Hl3, deref3, <- app_assoc. do 2 f_equal. simpl.
  do 4 f_equal.
  assert (match list.last pre with Some q => vm_next mm3 q | None => hd_error (mmap mm3) end
    = hd_error post) as ->; [|done].
  destruct (list.last pre) as [q|] eqn:E.
  - apply last_Some in E as [pre' E]. apply (vm_next_at mm3 q pre' post); [|by eapply wf_NoDup].
    by rewrite Hm3, E, <- app_assoc.
  - apply last_None in E. by rewrite Hm3, E.
Qed.

Lemma release_ok :
  unmapped k start last mm
    (remove_vma_list (m :: mid) (unmap_region (m :: mid) (list.last pre) start last mm3)).
Proof using All.
  rewrite release_calls. set (calls := unmap_calls _ _ ++ _). set (mm4 := with_log _ mm3).
  pose proof (wf_NoDup _ _ Hwf) as Hn. rewrite Hl in Hn.
  apply list.NoDup_app in Hn as (N1 & N2 & N3). apply list.NoDup_app in N3 as (N3 & N4 & N5).
  assert (Hdis : forall p, p ∈ m :: mid -> p ∉ pre ++ post).
  { intros p Hp Hin. apply elem_of_app in Hin as [Hin|Hin]; [|by apply (N4 p)].
    apply (N2 p Hin). apply elem_of_app. by left. }
  assert (Hw4 : wf k mm4) by (destruct Hw3; by split).
  assert (Hd4 : deref mm4 = deref mm) by (unfold deref; simpl; by rewrite Hv3).
  destruct (remove_list_ok k (m :: mid) mm4 Hw4 N3) as (W & M & D & F & S & C & L).
  { intros p Hp. simpl. rewrite Hm3. by apply Hdis. }
  set (mm' := remove_vma_list (m :: mid) mm4) in *. simpl in M, L. rewrite Hm3 in M.
  assert (Hdo : forall q, q ∈ pre ++ post -> deref mm' q = deref mm q).
  { intros q Hq. rewrite D, Hd4; [done|]. intros Hq'. by apply (Hdis q). }
  assert (Hpg : forall x, page_at mm' x = pages (deref mm) (pre ++ post) x).
  { intros x. unfold page_at. rewrite M. by apply pages_ext. }
  split.
  - done.
  - intros x. rewrite Hpg. apply removed_pages.
  - intros f. unfold file_balance. rewrite F, M, Hl, Hd4.
    rewrite (refs_ext (deref mm') (deref mm)) by (intros q Hq; by rewrite Hdo).
    unfold file_count. simpl. rewrite Hf3, !refs_app. simpl. rewrite !refs_app. lia.
  - by rewrite S, <- Hs3.
  - by rewrite C, <- Hc3.
  - exists calls. rewrite L. split; [done|]. by apply removed_calls.
Qed.
End Release.

Lemma remove_range :
  exists mm', ('(det, mm3) ← detach_vmas_to_be_unmapped m (list.last pre) last mm;
     Some (remove_vma_list det (unmap_region det (list.last pre) start last mm3), 0))
    = Some (mm', 0) /\ unmapped k start last mm mm'.
Proof using All.
  destruct (detach_ok k mm pre m mid post last Hwf Hl) as (t & h & -> & Hw3).
  { intros q Hq. destruct (Hmid q) as [? ?]; [by right|].
    assert (q ∈ mmap mm) as Hqm by (rewrite Hl; set_solver). destruct (wf_bounds _ _ q Hwf Hqm). lia. }
  { intros q Hq. apply Hpost. destruct post; [done|]. simpl in Hq. simplify_eq. by left. }
  eexists. split; [reflexivity|]. by apply release_ok.
Qed.
End Remove.

(** ** [do_munmap] *)

Definition valid_range (start len : Z) : Prop :=
  page_aligned start /\ 0 <= start /\ 0 < len /\ start + len <= TASK_SIZE.

Lemma unmapped_nothing k start last mm :
  wf k mm -> (forall x, start <= x < last -> page_at mm x = None) -> unmapped k start last mm mm.
Proof.
  intros Hwf Hn. split; try done.
  - intros x. destruct (Z.leb_spec start x), (Z.ltb_spec x last); simpl; auto.
  - exists []. rewrite app_nil_r. split; [done|].
    split.
    + by intros s e ?%not_elem_of_nil.
    + intros x g Hx Hg. rewrite Hn in Hg by done. done.
    + by intros l fl ce ?%not_elem_of_nil.
    + by left.
Qed.

Lemma unmapped_split k start last mm mm1 mm' :
  split_spec k mm mm1 -> unmapped k start last mm1 mm' -> unmapped k start last mm mm'.
Proof.
  intros [W P F S C L] [W' P' F' S' C' (calls & L' & [I' C'' T' Sh'])]. split; try congruence.
  - intros x. by rewrite P', P.
  - exists calls. split; [congruence|]. split; [done| |done|done].
    intros x g Hx Hg. apply (C'' x g); [done|]. by rewrite P.
Qed.

Lemma PAGE_ALIGN_task start len :
  valid_range start len ->
  0 < PAGE_ALIGN len /\ len <= PAGE_ALIGN len /\ start + PAGE_ALIGN len <= TASK_SIZE /\
  page_aligned (start + PAGE_ALIGN len) /\ page_aligned (PAGE_ALIGN len).
Proof.
  intros (Ha & H0 & Hl & Ht). change TASK_SIZE with 140737488351232 in *.
  destruct (PAGE_ALIGN_bounds len) as [Hb Hal]; [lia|rewrite PAGE_SIZE_eq; change ULONG_MOD with 18446744073709551616; lia|].
  unfold page_aligned in *. rewrite PAGE_SIZE_eq in *. split_and!; [lia|lia| |by rewrite Zplus_mod, Ha, Hal|done].
  pose proof (Z.div_mod start 4096). pose proof (Z.div_mod (PAGE_ALIGN len) 4096). lia.
Qed.

Section Munmap.
Context `{KmallocFresh}.

(** Memory or areas have run out. *)
Definition exhausted (mm : lego_mm) : Prop :=
  (exists m, kmalloc m = None) \/ sysctl_max_map_count <= map_count mm.

(** The part of [do_munmap] after the checks of its arguments *)
Lemma munmap_range k mm start last :
  wf k mm -> page_aligned start -> page_aligned last -> 0 <= start < last -> last <= TASK_SIZE ->
  forall vma, find_vma mm start = Some vma -> vm_start (deref mm vma) < last ->
  exists mm' ret,
    ('(mm1, prev1, err1) ←
      (if vm_start (deref mm vma) <? start then
         if (last <? vm_end (deref mm vma)) && (sysctl_max_map_count <=? map_count mm)
         then Some (mm, vm_prev mm vma, - ENOMEM)
         else
           '(mm1, error) ← __split_vma vma start false mm;
           Some (mm1, Some vma, error)
       else Some (mm, vm_prev mm vma, 0));
     if negb (err1 =? 0) then Some (mm1, err1)
     else
       '(mm2, err2) ←
         match find_vma mm1 last with
         | Some lst => if vm_start (deref mm1 lst) <? last
                       then __split_vma lst last true mm1 else Some (mm1, 0)
         | None => Some (mm1, 0)
         end;
       if negb (err2 =? 0) then Some (mm2, err2)
       else
         vma1 ← match prev1 with
                | Some q => vm_next mm2 q
                | None => hd_error (mmap mm2)
                end;
         '(det, mm3) ← detach_vmas_to_be_unmapped vma1 prev1 last mm2;
         let mm4 := unmap_region det prev1 start last mm3 in
         Some (remove_vma_list det mm4, 0)) = Some (mm', ret) /\
    (ret = - ENOMEM /\ split_spec k mm mm' /\ exhausted mm \/
     ret = 0 /\ unmapped k start last mm mm').
Proof.
  intros Hwf Hal Hal' Hr Ht vma Hf Hov. rewrite (find_vma_ok k) in Hf by done.
  destruct (cut_start k mm start last vma) as (mm1 & prev1 & err1 & -> & Hc); [done..|lia|done|].
  simpl. destruct Hc as [(-> & -> & Hx)|(-> & Hsp1 & pre & m & post & Hl1 & -> & Hm & Hpre & Hpost)].
  { simpl. eexists _, _. split; [done|]. left. split_and!; [done|by apply split_spec_refl|].
    destruct Hx; [left|right]; eauto. }
  simpl. destruct (cut_last k mm1 pre m post start last) as (mm2 & err2 & -> & Hc);
    [by eapply sp_wf|done|done|lia|done..|].
  simpl. destruct Hc as [(-> & -> & Hx)|(-> & Hsp2 & m' & mid & post' & Hl2 & Hpre' & Hmid' & Hpost')].
  { simpl. eexists _, _. split; [done|]. left. split_and!; [done..|]. left. eauto. }
  simpl. assert (Hw2 : wf k mm2) by (by eapply sp_wf).
  assert (match list.last pre with Some q => vm_next mm2 q | None => hd_error (mmap mm2) end
    = Some m') as ->.
  { destruct (list.last pre) as [q|] eqn:E.
    - apply last_Some in E as [pre' ->]. rewrite <- app_assoc in Hl2.
      rewrite (vm_next_at mm2 q pre' ((m' :: mid) ++ post')); [done|done|by eapply wf_NoDup].
    - apply last_None in E. subst pre. by rewrite Hl2. }
  simpl. destruct (remove_range k mm2 pre mid post' m' start last) as (mm' & -> & Hun); try done; [lia..|].
  eexists _, _. split; [done|]. right. split; [done|]. by do 2 (eapply unmapped_split; [done|]).
Qed.

Lemma do_munmap_ok k mm start len :
  wf k mm -> is_u64 start -> is_u64 len ->
  exists mm' ret, do_munmap start len mm = Some (mm', ret) /\
    (ret = - EINVAL /\ mm' = mm /\ ~ valid_range start len \/
     valid_range start len /\
       (ret = - ENOMEM /\ split_spec k mm mm' /\ exhausted mm \/
        ret = 0 /\ unmapped k start (start + PAGE_ALIGN len) mm mm')).
Proof.
  intros Hwf Hu1 Hu2. unfold do_munmap. rewrite offset_in_page_mod. unfold is_u64 in *.
  destruct (Z.eqb_spec (start mod PAGE_SIZE) 0) as [Ha|Ha]; simpl.
  2:{ eexists _, _. split; [done|]. left. split_and!; [done..|]. intros (Hv & _). done. }
  destruct (Z.ltb_spec TASK_SIZE start); simpl.
  { eexists _, _. split; [done|]. left. split_and!; [done..|]. intros (_ & ? & ? & ?). lia. }
  rewrite (wrap_small (TASK_SIZE - start)) by (pose proof TASK_SIZE_u64; unfold is_u64; lia).
  destruct (Z.ltb_spec (TASK_SIZE - start) len); simpl.
  { eexists _, _. split; [done|]. left. split_and!; [done..|]. intros (_ & ? & ? & ?). lia. }
  destruct (Z.eq_dec len 0) as [->|Hne].
  { change (PAGE_ALIGN 0 =? 0) with true. simpl. eexists _, _. split; [done|]. left.
    split_and!; [done..|]. intros (_ & _ & ? & _). lia. }
  assert (Hv : valid_range start len) by (split_and!; [done|lia..]).
  destruct (PAGE_ALIGN_task _ _ Hv) as (P1 & P2 & P3 & P4 & P5).
  rewrite (proj2 (Z.eqb_neq (PAGE_ALIGN len) 0)) by lia.
  rewrite (wrap_small (start + PAGE_ALIGN len)) by (pose proof TASK_SIZE_u64; unfold is_u64; lia).
  set (last := start + PAGE_ALIGN len) in *.
  destruct (find_vma mm start) as [vma|] eqn:Hf.
  2:{ eexists _, _. split; [done|]. right. split; [done|]. right. split; [done|].
      rewrite (find_vma_ok k) in Hf by done. pose proof (first_above_None _ _ Hf) as Hall.
      apply unmapped_nothing; [done|]. intros x Hx. apply pages_None. intros p Hp.
      apply Hall in Hp. lia. }
  destruct (Z.leb_spec last (vm_start (deref mm vma))).
  { eexists _, _. split; [done|]. right. split; [done|]. right. split; [done|].
    rewrite (find_vma_ok k) in Hf by done. apply first_above_Some in Hf as (pre & post & Hl & ? & Hpre).
    apply unmapped_nothing; [done|]. intros x Hx. apply pages_None. intros p Hp. rewrite Hl in Hp.
    pose proof (wf_sorted _ _ Hwf) as Hs. rewrite Hl in Hs.
    destruct (sorted_split _ _ _ _ _ Hs) as [_ Hpost].
    apply elem_of_app in Hp as [Hp|[->|Hp]%elem_of_cons]; [apply Hpre in Hp; lia|lia|].
    apply Hpost in Hp. pose proof (wf_bounds _ _ vma Hwf) as Hb. rewrite Hl in Hb.
    destruct Hb as (? & ? & ?); [set_solver|lia]. }
  destruct (munmap_range k mm start last) with (vma := vma) as (mm' & ret & Heq & Hres);
    [done|done|done|lia|done|done|done|].
  exists mm', ret. split; [exact Heq|]. auto.
Qed.
End Munmap.
