(* ===== verification/VmaGap.v ===== *)
(** * Memory manager, virtual memory areas: the search for a free range

    [unmapped_area] and [unmapped_area_topdown] walk the tree guided by the maximal
    gaps of the subtrees.  They find a range exactly when there is one, the lowest or
    the highest, and never follow a null pointer or reach a [BUG_ON]. *)

From S2P Require Import Prelude RbTree VmaModel VmaTree VmaInv VmaAdjust VmaSpec.

(** [start, start + n) is not mapped. *)
Definition free_range (mm : lego_mm) (start n : Z) : Prop :=
  forall x, start <= x < start + n -> page_at mm x = None.

(** The gap in front of [q] can take a range of [len] bytes within the limits, as
    adjusted by [unmapped_area]. *)
Definition suitable (mm : lego_mm) (len low high : Z) (q : ptr) : bool :=
  (prev_end mm q <=? high) && (low <=? vm_start (deref mm q))
  && (len <=? vm_start (deref mm q) - prev_end mm q).

(** What a visit of the areas [l], upwards, may report *)
Definition visited (mm : lego_mm) (len low high : Z) (l : list ptr) (res : gap_search) : Prop :=
  match res with
  | GapFound gs ge => exists p, List.find (suitable mm len low high) l = Some p /\
      gs = prev_end mm p /\ ge = vm_start (deref mm p)
  | GapNomem => List.find (suitable mm len low high) l = None /\
      exists p, p ∈ l /\ high < prev_end mm p
  | GapNone => List.find (suitable mm len low high) l = None
  end.

(** The same downwards *)
Definition visited_down (mm : lego_mm) (len low high : Z) (l : list ptr) (res : gap_search) : Prop :=
  match res with
  | GapFound gs ge => exists p, List.find (suitable mm len low high) (rev l) = Some p /\
      gs = prev_end mm p /\ ge = vm_start (deref mm p)
  | GapNomem => List.find (suitable mm len low high) (rev l) = None /\
      exists p, p ∈ l /\ vm_start (deref mm p) < low
  | GapNone => List.find (suitable mm len low high) (rev l) = None
  end.

Section Search.
Context (k : Z) (mm : lego_mm) (Hwf : wf k mm).

Lemma prev_end_pos p pre post : mmap mm = pre ++ p :: post -> prev_end mm p = end_of (deref mm) 0 pre.
Proof using Hwf. intros Hl. apply (prev_end_at mm p pre post Hl). by eapply wf_NoDup. Qed.

Lemma prev_end_bounds p : p ∈ mmap mm -> 0 <= prev_end mm p <= vm_start (deref mm p).
Proof using Hwf.
  intros (pre & post & Hl)%list_elem_of_split. rewrite (prev_end_pos p pre post Hl).
  pose proof (wf_sorted _ _ Hwf) as Hs. rewrite Hl in Hs. apply sorted_app in Hs as [S1 S2].
  simpl in S2. pose proof (end_of_bounds _ _ _ S1). lia.
Qed.

Lemma own_gap_prev p : p ∈ mmap mm -> own_gap mm p = vm_start (deref mm p) - prev_end mm p.
Proof using Hwf.
  intros Hp. pose proof (prev_end_bounds p Hp). pose proof (wf_bounds _ _ _ Hwf Hp).
  apply list_elem_of_split in Hp as (pre & post & Hl).
  rewrite (own_gap_end mm p pre post Hl), <- (prev_end_pos p pre post Hl);
    [|by eapply wf_NoDup|pose proof TASK_SIZE_u64; unfold is_u64; lia].
  apply wrap_small. pose proof TASK_SIZE_u64. unfold is_u64. lia.
Qed.

(** Positions in the list are ordered by both ends of the gaps. *)
Lemma gap_order p q pre mid post :
  mmap mm = pre ++ p :: mid ++ q :: post ->
  prev_end mm p <= vm_start (deref mm p) < prev_end mm q /\
  prev_end mm q <= vm_start (deref mm q).
Proof using Hwf.
  intros Hl. pose proof (wf_sorted _ _ Hwf) as Hs. rewrite Hl in Hs.
  assert (Hp : p ∈ mmap mm) by (rewrite Hl; set_solver).
  assert (Hq : q ∈ mmap mm) by (rewrite Hl; set_solver).
  pose proof (prev_end_bounds p Hp). pose proof (prev_end_bounds q Hq).
  assert (Hl' : mmap mm = (pre ++ p :: mid) ++ q :: post) by (by rewrite Hl, <- app_assoc).
  rewrite (prev_end_pos q _ _ Hl') in *. rewrite end_of_app, end_of_cons in *.
  apply sorted_app in Hs as [S1 S2]. simpl in S2. destruct S2 as (? & ? & ? & S2).
  apply sorted_app in S2 as [S2 _]. pose proof (end_of_bounds _ _ _ S2). lia.
Qed.

(** The augmented field decides whether a subtree has a large enough gap. *)
Lemma promising_spec t len :
  aug_ok (gap_of (own_gap mm)) t -> promising t len = false ->
  forall q, q ∈ elements t -> own_gap mm q < len.
Proof.
  unfold promising. revert len. induction t as [|c g l IHl x r IHr]; intros len; simpl;
    [by intros _ _ q ?%not_elem_of_nil|].
  intros (Hg & Hl & Hr) Hlt. zbool. rewrite Hg in Hlt. unfold gap_of in Hlt.
  assert (own_gap mm x < len /\ (match aug l with Some gl => len <=? gl | None => false end) = false
    /\ (match aug r with Some gr => len <=? gr | None => false end) = false) as (H1 & H2 & H3).
  { unfold max_gap in Hlt. destruct (aug l), (aug r); repeat case_match; zbool;
      rewrite ?Z.leb_gt; split_and!; try done; lia. }
  intros q [Hq|[->|Hq]%elem_of_cons]%elem_of_app; [by apply IHl|done|by apply IHr].
Qed.

Lemma unpromising_none t len low high :
  aug_ok (gap_of (own_gap mm)) t -> (forall q, q ∈ elements t -> q ∈ mmap mm) ->
  promising t len = false -> forall q, q ∈ elements t -> suitable mm len low high q = false.
Proof using Hwf.
  intros Ha Hin Hp q Hq. pose proof (promising_spec _ _ Ha Hp q Hq) as Hlt.
  rewrite own_gap_prev in Hlt by auto. unfold suitable.
  rewrite (proj2 (Z.leb_gt len _)) by done. by rewrite andb_false_r.
Qed.

Lemma suitable_spec len low high q :
  suitable mm len low high q = true <->
  prev_end mm q <= high /\ low <= vm_start (deref mm q) /\
  len <= vm_start (deref mm q) - prev_end mm q.
Proof. unfold suitable. rewrite !andb_true_iff, !Z.leb_le. tauto. Qed.

Lemma suitable_false len low high q :
  high < prev_end mm q \/ vm_start (deref mm q) < low ->
  suitable mm len low high q = false.
Proof.
  intros Hq. destruct (suitable mm len low high q) eqn:E; [|done].
  apply suitable_spec in E. lia.
Qed.

(** The areas on both sides of a node of the tree *)
Section Node.
Context (p : ptr) (pre ll lr post : list ptr).
Context (Hl : mmap mm = pre ++ (ll ++ p :: lr) ++ post).

Lemma left_order q : q ∈ ll ->
  prev_end mm q <= vm_start (deref mm q) < prev_end mm p /\
  prev_end mm p <= vm_start (deref mm p).
Proof using Hwf Hl.
  intros (a & b & Hq)%list_elem_of_split.
  apply (gap_order q p (pre ++ a) b (lr ++ post)). rewrite Hl, Hq, <- !app_assoc. done.
Qed.

Lemma right_order q : q ∈ lr ->
  prev_end mm p <= vm_start (deref mm p) < prev_end mm q /\
  prev_end mm q <= vm_start (deref mm q).
Proof using Hwf Hl.
  intros (a & b & Hq)%list_elem_of_split.
  apply (gap_order p q (pre ++ ll) a (b ++ post)). rewrite Hl, Hq, <- !app_assoc. simpl.
  by rewrite <- app_assoc.
Qed.

Lemma node_in : p ∈ mmap mm.
Proof using Hl.
  rewrite Hl. apply elem_of_app. right. apply elem_of_app. left. apply elem_of_app. right. by left.
Qed.

Lemma node_prev : ll <> [] -> exists q, vm_prev mm p = Some q /\ vm_end (deref mm q) = prev_end mm p.
Proof using Hwf Hl.
  intros Hne. assert (Hl' : mmap mm = (pre ++ ll) ++ p :: lr ++ post) by (rewrite Hl, <- !app_assoc; done).
  unfold prev_end. rewrite (vm_prev_at mm p _ _ Hl') by (by eapply wf_NoDup).
  rewrite last_app. destruct (list.last ll) as [q|] eqn:E; [eauto|by apply last_None in E].
Qed.

Lemma gap_sub : vm_start (deref mm p) -u prev_end mm p = vm_start (deref mm p) - prev_end mm p.
Proof using Hwf Hl.
  pose proof (prev_end_bounds p node_in). pose proof (wf_bounds _ _ _ Hwf node_in).
  apply wrap_small. pose proof TASK_SIZE_u64. unfold is_u64. lia.
Qed.
End Node.

(** From [check_current] on, when the areas below have no suitable gap; [res_r] is what
    a visit of the right subtree gives. *)
Lemma check_current_ok p pre ll lr post len low high (prom : bool) res_r :
  mmap mm = pre ++ (ll ++ p :: lr) ++ post ->
  List.find (suitable mm len low high) ll = None ->
  visited mm len low high lr res_r ->
  (prom = false -> forall q, q ∈ lr -> suitable mm len low high q = false) ->
  exists res,
    (if high <? prev_end mm p then Some GapNomem else
     if (low <=? vm_start (deref mm p)) && (len <=? vm_start (deref mm p) -u prev_end mm p)
     then Some (GapFound (prev_end mm p) (vm_start (deref mm p)))
     else if prom then Some res_r else Some GapNone) = Some res
    /\ visited mm len low high (ll ++ p :: lr) res.
Proof using Hwf.
  intros Hl Hnl Hr Hnr. rewrite (gap_sub p pre ll lr post Hl).
  pose proof (right_order p pre ll lr post Hl) as Ro.
  assert (Hfp : forall b, suitable mm len low high p = b ->
    List.find (suitable mm len low high) (ll ++ p :: lr)
    = if b then Some p else List.find (suitable mm len low high) lr).
  { intros b Hb. rewrite find_app, Hnl. simpl. by rewrite Hb. }
  destruct (Z.ltb_spec high (prev_end mm p)) as [Hhi|Hhi].
  { eexists. split; [done|]. simpl. rewrite (Hfp false) by (apply suitable_false; lia). split.
    - apply find_none_all. intros q Hq. apply Ro in Hq. apply suitable_false. lia.
    - exists p. split; [set_solver|done]. }
  destruct ((low <=? _) && _) eqn:Hs.
  { eexists. split; [done|]. simpl. exists p. rewrite (Hfp true); [done|].
    zbool. apply suitable_spec. lia. }
  assert (Hsp : suitable mm len low high p = false).
  { unfold suitable. by rewrite <- andb_assoc, Hs, andb_false_r. }
  specialize (Hfp false Hsp). destruct prom.
  - eexists. split; [done|]. destruct res_r as [gs ge| |]; simpl in *; rewrite Hfp; [done| |done].
    destruct Hr as [? (q & ? & ?)]. split; [done|]. exists q. set_solver.
  - eexists. split; [done|]. simpl. rewrite Hfp. apply find_none_all. auto.
Qed.

Lemma unmapped_visit_ok t pre post len low high :
  mmap mm = pre ++ elements t ++ post -> aug_ok (gap_of (own_gap mm)) t ->
  exists res, unmapped_visit mm len low high t = Some res /\
    visited mm len low high (elements t) res.
Proof using Hwf.
  revert pre post. induction t as [|c g l IHl p r IHr]; intros pre post Hl Ha; [by exists GapNone|].
  destruct Ha as (_ & Hal & Har). simpl in Hl.
  pose proof (left_order p pre (elements l) (elements r) post Hl) as Lo.
  pose proof (right_order p pre (elements l) (elements r) post Hl) as Ro.
  assert (Hinl : forall q, q ∈ elements l -> q ∈ mmap mm) by (rewrite Hl; set_solver).
  assert (Hinr : forall q, q ∈ elements r -> q ∈ mmap mm) by (rewrite Hl; set_solver).
  destruct (IHl pre (p :: elements r ++ post)) as (resl & Hvl & Hresl); [|done|].
  { by rewrite Hl, <- app_assoc. }
  destruct (IHr (pre ++ elements l ++ [p]) post) as (resr & Hvr & Hresr); [|done|].
  { rewrite Hl, <- !app_assoc. done. }
  pose proof (fun Hn => check_current_ok p pre (elements l) (elements r) post len low high
    (promising r len) resr Hl Hn Hresr (unpromising_none r len low high Har Hinr)) as Hcc.
  simpl. rewrite Hvl, Hvr. destruct (Z.leb_spec low (vm_start (deref mm p))) as [Hlow|Hlow]; simpl.
  - destruct (promising l len) eqn:Hpl.
    + simpl. destruct resl as [gs ge| |].
      * eexists. split; [done|]. destruct Hresl as (q & Hf & ? & ?). simpl. exists q.
        by rewrite find_app, Hf.
      * eexists. split; [done|]. destruct Hresl as (Hf & q & Hq & Hhi). simpl.
        rewrite find_app, Hf. simpl. pose proof (Lo q Hq).
        rewrite (suitable_false _ _ _ p) by lia. split.
        -- apply find_none_all. intros x Hx. apply Ro in Hx. apply suitable_false. lia.
        -- exists q. set_solver.
      * destruct (node_prev p pre (elements l) (elements r) post Hl) as (q & -> & Hq).
        { intros Hnil%elements_nil. by rewrite Hnil in Hpl. }
        simpl. rewrite Hq. by apply Hcc.
    + apply Hcc, find_none_all.
      exact (unpromising_none l len low high Hal Hinl Hpl).
  - apply Hcc, find_none_all.
    intros q Hq. apply Lo in Hq. apply suitable_false. lia.
Qed.

(** Mirror image *)
Lemma check_current_down_ok p pre ll lr post len low high (prom : bool) res_l :
  mmap mm = pre ++ (ll ++ p :: lr) ++ post ->
  List.find (suitable mm len low high) (rev lr) = None ->
  visited_down mm len low high ll res_l ->
  (prom = false -> forall q, q ∈ ll -> suitable mm len low high q = false) ->
  exists res,
    (if vm_start (deref mm p) <? low then GapNomem else
     if (prev_end mm p <=? high) && (len <=? vm_start (deref mm p) -u prev_end mm p)
     then GapFound (prev_end mm p) (vm_start (deref mm p))
     else if prom then res_l else GapNone) = res
    /\ visited_down mm len low high (ll ++ p :: lr) res.
Proof using Hwf.
  intros Hl Hnr Hr Hnl. rewrite (gap_sub p pre ll lr post Hl).
  pose proof (left_order p pre ll lr post Hl) as Lo.
  assert (Hfp : forall b, suitable mm len low high p = b ->
    List.find (suitable mm len low high) (rev (ll ++ p :: lr))
    = if b then Some p else List.find (suitable mm len low high) (rev ll)).
  { intros b Hb. rewrite rev_app_distr. simpl. rewrite !find_app, Hnr. simpl. rewrite Hb. by destruct b. }
  destruct (Z.ltb_spec (vm_start (deref mm p)) low) as [Hlo|Hlo].
  { eexists. split; [done|]. simpl. rewrite (Hfp false) by (apply suitable_false; lia). split.
    - apply find_none_all. intros q Hq. apply list_elem_of_In, in_rev, list_elem_of_In in Hq.
      apply Lo in Hq. apply suitable_false. lia.
    - exists p. split; [set_solver|done]. }
  destruct ((prev_end mm p <=? _) && _) eqn:Hs.
  { eexists. split; [done|]. simpl. exists p. rewrite (Hfp true); [done|].
    zbool. apply suitable_spec. lia. }
  assert (Hsp : suitable mm len low high p = false).
  { apply andb_false_iff in Hs. destruct (suitable mm len low high p) eqn:E; [|done].
    apply suitable_spec in E. destruct Hs; zbool; lia. }
  specialize (Hfp false Hsp). destruct prom.
  - eexists. split; [done|]. destruct res_l as [gs ge| |]; simpl in *; rewrite Hfp; [done| |done].
    destruct Hr as [? (q & ? & ?)]. split; [done|]. exists q. set_solver.
  - eexists. split; [done|]. simpl. rewrite Hfp. apply find_none_all.
    intros q Hq. apply list_elem_of_In, in_rev, list_elem_of_In in Hq. auto.
Qed.

Lemma topdown_visit_ok t pre post len low high :
  mmap mm = pre ++ elements t ++ post -> aug_ok (gap_of (own_gap mm)) t ->
  visited_down mm len low high (elements t) (topdown_visit mm len low high t).
Proof using Hwf.
  revert pre post. induction t as [|c g l IHl p r IHr]; intros pre post Hl Ha; [done|].
  destruct Ha as (_ & Hal & Har). simpl in Hl.
  pose proof (left_order p pre (elements l) (elements r) post Hl) as Lo.
  pose proof (right_order p pre (elements l) (elements r) post Hl) as Ro.
  assert (Hinl : forall q, q ∈ elements l -> q ∈ mmap mm) by (rewrite Hl; set_solver).
  assert (Hinr : forall q, q ∈ elements r -> q ∈ mmap mm) by (rewrite Hl; set_solver).
  assert (Hresl := IHl pre (p :: elements r ++ post) ltac:(by rewrite Hl, <- app_assoc) Hal).
  assert (Hresr := IHr (pre ++ elements l ++ [p]) post ltac:(by rewrite Hl, <- !app_assoc) Har).
  assert (Hcc : List.find (suitable mm len low high) (rev (elements r)) = None ->
    visited_down mm len low high (elements l ++ p :: elements r)
      (if vm_start (deref mm p) <? low then GapNomem else
       if (prev_end mm p <=? high) && (len <=? vm_start (deref mm p) -u prev_end mm p)
       then GapFound (prev_end mm p) (vm_start (deref mm p))
       else if promising l len then topdown_visit mm len low high l else GapNone)).
  { intros Hn. by destruct (check_current_down_ok p pre (elements l) (elements r) post len low high
      (promising l len) (topdown_visit mm len low high l) Hl Hn Hresl
      (unpromising_none l len low high Hal Hinl)) as (res & -> & ?). }
  simpl. destruct (Z.leb_spec (prev_end mm p) high) as [Hhi|Hhi]; cbn [andb] in *.
  - destruct (promising r len) eqn:Hpr.
    + destruct (topdown_visit mm len low high r) as [gs ge| |].
      * destruct Hresr as (q & Hf & ? & ?). simpl. exists q.
        rewrite rev_app_distr. simpl. by rewrite !find_app, Hf.
      * destruct Hresr as (Hf & q & Hq & Hlo). simpl. pose proof (Ro q Hq).
        rewrite rev_app_distr. simpl. rewrite !find_app, Hf. simpl.
        rewrite (suitable_false _ _ _ p) by lia. split; [|exists q; set_solver].
        apply find_none_all. intros x Hx. apply list_elem_of_In, in_rev, list_elem_of_In in Hx.
        apply Lo in Hx. apply suitable_false. lia.
      * by apply Hcc.
    + apply Hcc, find_none_all. intros q Hq. apply list_elem_of_In, in_rev, list_elem_of_In in Hq.
      exact (unpromising_none r len low high Har Hinr Hpr q Hq).
  - apply Hcc, find_none_all. intros q Hq. apply list_elem_of_In, in_rev, list_elem_of_In in Hq.
    apply Ro in Hq. apply suitable_false. lia.
Qed.
End Search.

(** ** The free ranges *)

Section Free.
Context (k : Z) (mm : lego_mm) (Hwf : wf k mm).

Lemma top_free s n : end_of (deref mm) 0 (mmap mm) <= s -> free_range mm s n.
Proof using Hwf. intros Hs x Hx. eapply pages_above; [apply Hwf|]. lia. Qed.

Lemma gap_free p s n :
  p ∈ mmap mm -> prev_end mm p <= s -> s + n <= vm_start (deref mm p) -> free_range mm s n.
Proof using Hwf.
  intros (pre & post & Hl)%list_elem_of_split Hlo Hhi x Hx.
  rewrite (prev_end_pos k mm Hwf p pre post Hl) in Hlo. unfold page_at.
  pose proof (wf_sorted _ _ Hwf) as Hs. rewrite Hl in *. apply sorted_app in Hs as [S1 S2].
  rewrite pages_app, (pages_above _ 0 pre) by (done || lia).
  apply (pages_below _ (vm_start (deref mm p))); [|lia]. simpl in *. split_and!; try apply S2. lia.
Qed.

Lemma end_of_aligned l : (forall q, q ∈ l -> q ∈ mmap mm) -> page_aligned (end_of (deref mm) 0 l).
Proof using Hwf.
  intros Hl. unfold end_of. destruct (list.last l) eqn:E; [|done].
  apply (wf_area _ _ Hwf). by apply Hl, last_Some_elem_of.
Qed.

Lemma prev_end_aligned p : p ∈ mmap mm -> page_aligned (prev_end mm p).
Proof using Hwf.
  intros (pre & post & Hl)%list_elem_of_split. rewrite (prev_end_pos k mm Hwf p pre post Hl).
  apply end_of_aligned. intros q Hq. rewrite Hl. apply elem_of_app. by left.
Qed.

(** Every free range lies above all areas or in the gap of one. *)
Lemma free_gap s n :
  0 <= s -> 0 < n -> free_range mm s n ->
  end_of (deref mm) 0 (mmap mm) <= s \/
  exists p, p ∈ mmap mm /\ prev_end mm p <= s /\ s + n <= vm_start (deref mm p).
Proof using Hwf.
  intros H0 Hn Hf. destruct (first_above mm s) as [p|] eqn:E.
  - right. apply first_above_Some in E as (pre & post & Hl & He & Hpre). exists p.
    assert (Hp : p ∈ mmap mm) by (rewrite Hl; set_solver). split; [done|]. split.
    + rewrite (prev_end_pos k mm Hwf p pre post Hl). unfold end_of.
      destruct (list.last pre) eqn:E; [|done]. by apply Hpre, last_Some_elem_of.
    + destruct (Z.le_gt_cases (s + n) (vm_start (deref mm p))) as [|Hlt]; [done|exfalso].
      pose proof (wf_bounds _ _ _ Hwf Hp).
      specialize (Hf (Z.max s (vm_start (deref mm p))) ltac:(lia)).
      unfold page_at in Hf. erewrite pages_in in Hf; [done|apply Hwf|exact Hp|]. lia.
  - left. pose proof (first_above_None _ _ E) as Hall. unfold end_of.
    destruct (list.last (mmap mm)) eqn:E'; [|done]. by apply Hall, last_Some_elem_of.
Qed.

Lemma prev_end_top p : p ∈ mmap mm -> prev_end mm p < end_of (deref mm) 0 (mmap mm).
Proof using Hwf.
  intros Hp. pose proof (prev_end_bounds k mm Hwf p Hp). pose proof (wf_bounds _ _ _ Hwf Hp).
  pose proof (end_of_upper _ _ _ _ (wf_sorted _ _ Hwf) Hp). lia.
Qed.

Lemma start_order p q pre post :
  mmap mm = pre ++ p :: post -> q ∈ mmap mm -> q ∉ pre -> prev_end mm p <= prev_end mm q.
Proof using Hwf.
  intros Hl Hq Hn. rewrite Hl in Hq. apply elem_of_app in Hq as [?|[->|Hq]%elem_of_cons]; [done|lia|].
  apply list_elem_of_split in Hq as (a & b & Hq).
  destruct (gap_order k mm Hwf p q pre a b); [by rewrite Hl, Hq|lia].
Qed.
End Free.

Lemma find_some_first {A} (f : A -> bool) l x :
  List.find f l = Some x -> f x = true /\ exists pre post, l = pre ++ x :: post /\
    forall y, y ∈ pre -> f y = false.
Proof.
  induction l as [|a l IH]; simpl; [done|]. destruct (f a) eqn:E.
  - intros [= ->]. split; [done|]. exists [], l. split; [done|]. by intros y ?%not_elem_of_nil.
  - intros [? (pre & post & -> & Hy)]%IH. split; [done|]. exists (a :: pre), post.
    split; [done|]. intros y [->|?]%elem_of_cons; auto.
Qed.

Lemma find_none_In {A} (f : A -> bool) l x : List.find f l = None -> x ∈ l -> f x = false.
Proof. intros Hf Hx. eapply List.find_none; [done|]. by apply list_elem_of_In. Qed.

(** ** Alignment *)

Lemma align_adj_bounds x mask : 0 <= mask -> 0 <= Z.land x mask <= mask.
Proof.
  intros Hm. apply Z.ldiff_le; [done|]. apply Z.bits_inj'. intros i Hi.
  rewrite Z.ldiff_spec, Z.land_spec, Z.bits_0.
  by destruct (Z.testbit mask i), (Z.testbit x i).
Qed.

Lemma wrap_mod_pow2 z j : 0 <= j <= 64 -> wrap z mod 2 ^ j = z mod 2 ^ j.
Proof.
  intros Hj. unfold wrap, ULONG_MOD. replace 64 with (j + (64 - j)) by lia.
  rewrite Z.pow_add_r by lia. rewrite Z.rem_mul_r by (try apply Z.pow_nonzero; lia).
  rewrite Z.mul_comm, Z_mod_plus_full. by rewrite Z.mod_mod by (apply Z.pow_nonzero; lia).
Qed.

Lemma align_up g off j :
  0 <= j <= 64 -> (g + Z.land (off -u g) (2 ^ j - 1)) mod 2 ^ j = off mod 2 ^ j.
Proof.
  intros Hj. rewrite land_mask_mod by lia. rewrite wrap_mod_pow2 by done.
  rewrite Zplus_mod_idemp_r. f_equal. lia.
Qed.

Lemma align_down g off j :
  0 <= j <= 64 -> (g - Z.land (g -u off) (2 ^ j - 1)) mod 2 ^ j = off mod 2 ^ j.
Proof.
  intros Hj. rewrite land_mask_mod by lia. rewrite wrap_mod_pow2 by done.
  rewrite Zminus_mod_idemp_r. f_equal. lia.
Qed.

(** ** The two searches *)

Definition info_ok (info : unmapped_info) : Prop :=
  0 < info_length info < ULONG_MOD /\ is_u64 (info_low_limit info) /\
  is_u64 (info_high_limit info) /\ is_u64 (info_align_mask info).

(** A free range within the limits that has room for any alignment *)
Definition roomy (mm : lego_mm) (info : unmapped_info) (s : Z) : Prop :=
  info_low_limit info <= s /\
  s + (info_length info + info_align_mask info) <= info_high_limit info /\
  free_range mm s (info_length info + info_align_mask info).

(** [r] is a correct answer. *)
Record answer (mm : lego_mm) (info : unmapped_info) (r : Z) : Prop := {
  an_low : info_low_limit info <= r;
  an_high : r + info_length info <= info_high_limit info;
  an_free : free_range mm r (info_length info);
  an_aligned : forall j, 0 <= j <= 64 -> info_align_mask info = 2 ^ j - 1 ->
    r mod 2 ^ j = info_align_offset info mod 2 ^ j;
  an_page : info_align_mask info = 0 -> page_aligned (info_low_limit info) ->
    page_aligned (info_high_limit info) -> page_aligned (info_length info) -> page_aligned r
}.

Section Areas.
Context (k : Z) (mm : lego_mm) (Hwf : wf k mm) (info : unmapped_info) (Hi : info_ok info).
#[local] Abbreviation n := (info_length info + info_align_mask info).
#[local] Abbreviation lo := (info_low_limit info).
#[local] Abbreviation hi := (info_high_limit info).

(** The gap [gs, ge) in front of an area, or above all areas *)
Lemma found_low gs ge :
  n < ULONG_MOD -> lo + n <= hi -> gs <= hi - n -> lo + n <= ge -> n <= ge - gs -> 0 <= gs ->
  page_aligned gs ->
  (forall s, gs <= s -> s + info_length info <= ge -> free_range mm s (info_length info)) ->
  let g1 := if gs <? lo then lo else gs in
  let r := g1 +u Z.land (info_align_offset info -u g1) (info_align_mask info) in
  r = g1 + Z.land (info_align_offset info -u g1) (info_align_mask info) /\
  (hi <? r +u info_length info) || (ge <? r +u info_length info) = false /\
  answer mm info r /\ r <= Z.max lo gs + info_align_mask info.
Proof using Hi.
  intros Hn Hlh Hgs Hge Hlen H0 Hpa Hfree g1 r. destruct Hi as (I1 & I2 & I3 & I4). unfold is_u64 in *.
  assert (Hg1 : g1 = Z.max lo gs) by (unfold g1; destruct (Z.ltb_spec gs lo); lia).
  destruct (align_adj_bounds (info_align_offset info -u g1) (info_align_mask info)) as [A1 A2]; [lia|].
  assert (Hr : r = g1 + Z.land (info_align_offset info -u g1) (info_align_mask info)).
  { unfold r. apply wrap_small. unfold is_u64. lia. }
  assert (Hw : r +u info_length info = r + info_length info) by (apply wrap_small; unfold is_u64; lia).
  split; [done|]. split.
  { rewrite Hw. apply orb_false_iff. rewrite !Z.ltb_ge. lia. }
  split; [|lia]. split; [lia|lia|apply Hfree; lia| |].
  - intros j Hj Hm. rewrite Hr, Hm. by apply align_up.
  - intros Hm Hal _ _. rewrite Hr, Hm, Z.land_0_r, Z.add_0_r. unfold g1. by destruct (gs <? lo).
Qed.

(** The tests on the limits that both searches start with *)
Lemma limits_ok :
  (wrap n <? info_length info) = false -> (hi <? wrap n) = false -> (hi -u wrap n <? lo) = false ->
  n < ULONG_MOD /\ lo + n <= hi /\ wrap n = n /\ hi -u n = hi - n /\ lo +u n = lo + n.
Proof using Hi.
  intros H1 H2 H3. pose proof Hi as (I1 & I2 & I3 & I4). unfold is_u64 in *.
  destruct (Z.lt_ge_cases n ULONG_MOD) as [Hn|Hn].
  - rewrite (wrap_small n) in * by (unfold is_u64; lia). zbool.
    rewrite (wrap_small (hi - n)) in H3 |- * by (unfold is_u64; lia).
    rewrite wrap_small by (unfold is_u64; lia). lia.
  - assert (Hw : wrap n = n - ULONG_MOD).
    { unfold wrap. rewrite <- (Z.mod_small (n - ULONG_MOD) ULONG_MOD) by lia.
      by rewrite <- (Z_mod_plus_full (n - ULONG_MOD) 1), Z.mul_1_l, Z.sub_add. }
    rewrite Hw in H1. zbool. lia.
Qed.

Lemma limits_bad :
  (wrap n <? info_length info) = true \/ (hi <? wrap n) = true \/ (hi -u wrap n <? lo) = true ->
  forall s, ~ roomy mm info s.
Proof using Hi.
  intros Hbad s (R1 & R2 & _). pose proof Hi as (I1 & I2 & I3 & I4). unfold is_u64 in *.
  rewrite (wrap_small n) in Hbad by (unfold is_u64; lia).
  rewrite (wrap_small (hi - n)) in Hbad by (unfold is_u64; lia).
  rewrite !Z.ltb_lt in Hbad. lia.
Qed.

(** A roomy range is above all areas, or in a suitable gap. *)
Lemma roomy_gap s :
  roomy mm info s -> end_of (deref mm) 0 (mmap mm) <= s \/
  exists q, q ∈ mmap mm /\ prev_end mm q <= s /\ s + n <= vm_start (deref mm q) /\
    suitable mm n (lo + n) (hi - n) q = true.
Proof using Hwf Hi.
  intros (R1 & R2 & R3). pose proof Hi as (I1 & I2 & I3 & I4). unfold is_u64 in *.
  destruct (free_gap k mm Hwf s n) as [?|(q & Hq & ? & ?)]; [lia|lia|done|by left|].
  right. exists q. split_and!; [done..|]. apply suitable_spec. lia.
Qed.

(** No suitable gap, and no room above all areas *)
Lemma not_roomy :
  List.find (suitable mm n (lo + n) (hi - n)) (mmap mm) = None ->
  hi - n < end_of (deref mm) 0 (mmap mm) -> forall s, ~ roomy mm info s.
Proof using Hwf Hi.
  intros Hf Ht s Hs. destruct (roomy_gap s Hs) as [?|(q & Hq & _ & _ & Hsq)].
  - destruct Hs as (? & ? & _). lia.
  - rewrite (find_none_In _ _ _ Hf Hq) in Hsq. done.
Qed.

Lemma unmapped_area_ok :
  exists r, unmapped_area mm info = Some r /\
    (r = err_ul ENOMEM /\ (forall s, ~ roomy mm info s) \/
     answer mm info r /\ forall s, roomy mm info s -> r <= s + info_align_mask info).
Proof using Hwf Hi.
  unfold unmapped_area. pose proof Hi as (I1 & I2 & I3 & I4). unfold is_u64 in *.
  destruct (wrap n <? _) eqn:E1; [eexists; split; [done|]; left; split; [done|apply limits_bad; auto]|].
  destruct (hi <? wrap n) eqn:E2; [eexists; split; [done|]; left; split; [done|apply limits_bad; auto]|].
  destruct (hi -u wrap n <? lo) eqn:E3;
    [eexists; split; [done|]; left; split; [done|apply limits_bad; auto]|].
  destruct (limits_ok E1 E2 E3) as (Hn & Hlh & -> & -> & ->).
  destruct (wf_tree _ _ Hwf) as (He & _ & Ha).
  assert (exists res, (if promising (mm_rb mm) n
    then unmapped_visit mm n (lo + n) (hi - n) (mm_rb mm) else Some GapNone) = Some res /\
    visited mm n (lo + n) (hi - n) (mmap mm) res) as (res & -> & Hv).
  { rewrite <- He. destruct (promising (mm_rb mm) n) eqn:Hp.
    - eapply (unmapped_visit_ok k mm Hwf _ [] []); [|done]. simpl. by rewrite app_nil_r.
    - eexists. split; [done|]. simpl. apply find_none_all.
      apply (unpromising_none k mm Hwf); [done| |done]. by rewrite He. }
  simpl. pose proof (end_of_bounds _ _ _ (wf_sorted _ _ Hwf)) as Htop.
  destruct res as [gs ge| |].
  - destruct Hv as (p & Hf & -> & ->). apply find_some_first in Hf as (Hsp & pre & post & Hl & Hfst).
    apply suitable_spec in Hsp as (? & ? & ?). assert (Hp : p ∈ mmap mm) by (rewrite Hl; set_solver).
    pose proof (prev_end_bounds k mm Hwf p Hp).
    destruct (found_low (prev_end mm p) (vm_start (deref mm p))) as (_ & -> & Han & Hle); try lia.
    { by apply (prev_end_aligned k mm Hwf). }
    { intros s ? ?. by apply (gap_free k mm Hwf p). }
    eexists. split; [done|]. right. split; [done|]. intros s Hs.
    destruct (roomy_gap s Hs) as [Ht|(q & Hq & Hqs & _ & Hsq)]; destruct Hs as (? & _).
    + pose proof (prev_end_top k mm Hwf p Hp). lia.
    + assert (Hqp : q ∉ pre) by (intros Hin; apply Hfst in Hin; congruence).
      pose proof (start_order k mm Hwf p q pre post Hl Hq Hqp). lia.
  - destruct Hv as (Hf & p & Hp & Hhi). eexists. split; [done|]. left. split; [done|].
    apply not_roomy; [done|]. pose proof (prev_end_top k mm Hwf p Hp). lia.
  - simpl in Hv. rewrite (wf_highest _ _ Hwf).
    destruct (Z.ltb_spec (hi - n) (end_of (deref mm) 0 (mmap mm))).
    + eexists. split; [done|]. left. split; [done|]. by apply not_roomy.
    + destruct (found_low (end_of (deref mm) 0 (mmap mm)) ULONG_MAX) as (_ & -> & Han & Hle);
        unfold ULONG_MAX; try lia; [by apply (end_of_aligned k mm Hwf)|..].
      { intros s ? ?. by apply (top_free k mm Hwf). }
      eexists. split; [done|]. right. split; [done|]. intros s Hs.
      destruct (roomy_gap s Hs) as [Ht|(q & Hq & _ & _ & Hsq)]; [destruct Hs as (? & _); lia|].
      rewrite (find_none_In _ _ _ Hv Hq) in Hsq. done.
Qed.

Lemma found_high gs ge :
  n < ULONG_MOD -> lo + n <= hi -> gs <= hi - n -> lo + n <= ge -> n <= ge - gs -> 0 <= gs -> ge <= hi ->
  (page_aligned hi -> page_aligned ge) ->
  (forall s, gs <= s -> s + info_length info <= ge -> free_range mm s (info_length info)) ->
  let g1 := ge -u info_length info in
  let r := g1 -u Z.land (g1 -u info_align_offset info) (info_align_mask info) in
  (r <? lo) || (r <? gs) = false /\ answer mm info r /\ ge - n <= r.
Proof using Hi.
  intros Hn Hlh Hgs Hge Hlen H0 Hhi Hpa Hfree g1 r. destruct Hi as (I1 & I2 & I3 & I4). unfold is_u64 in *.
  assert (Hg1 : g1 = ge - info_length info) by (unfold g1; apply wrap_small; unfold is_u64; lia).
  destruct (align_adj_bounds (g1 -u info_align_offset info) (info_align_mask info)) as [A1 A2]; [lia|].
  assert (Hr : r = g1 - Z.land (g1 -u info_align_offset info) (info_align_mask info)).
  { unfold r. apply wrap_small. unfold is_u64. lia. }
  split; [apply orb_false_iff; rewrite !Z.ltb_ge; lia|].
  split; [|lia]. split; [lia|lia|apply Hfree; lia| |].
  - intros j Hj Hm. rewrite Hr, Hm. by apply align_down.
  - intros Hm _ Hah Hal. specialize (Hpa Hah). rewrite Hr, Hm, Z.land_0_r, Z.sub_0_r, Hg1.
    unfold page_aligned in *. by rewrite Zminus_mod, Hpa, Hal.
Qed.

Lemma unmapped_area_topdown_ok :
  exists r, unmapped_area_topdown mm info = Some r /\
    (r = err_ul ENOMEM /\ (forall s, ~ roomy mm info s) \/
     answer mm info r /\ forall s, roomy mm info s -> s <= r).
Proof using Hwf Hi.
  unfold unmapped_area_topdown. pose proof Hi as (I1 & I2 & I3 & I4). unfold is_u64 in *.
  destruct (wrap n <? _) eqn:E1; [eexists; split; [done|]; left; split; [done|apply limits_bad; auto]|].
  destruct (hi <? wrap n) eqn:E2; [eexists; split; [done|]; left; split; [done|apply limits_bad; auto]|].
  destruct (hi -u wrap n <? lo) eqn:E3;
    [eexists; split; [done|]; left; split; [done|apply limits_bad; auto]|].
  destruct (limits_ok E1 E2 E3) as (Hn & Hlh & -> & -> & ->).
  rewrite (wf_highest _ _ Hwf). pose proof (end_of_bounds _ _ _ (wf_sorted _ _ Hwf)) as Htop.
  destruct (Z.leb_spec (end_of (deref mm) 0 (mmap mm)) (hi - n)) as [Hh|Hh].
  { destruct (found_high (end_of (deref mm) 0 (mmap mm)) hi) as (-> & Han & Hle); try lia; [done|..].
    { intros s ? ?. by apply (top_free k mm Hwf). }
    eexists. split; [done|]. right. split; [done|]. intros s (? & ? & _). lia. }
  destruct (wf_tree _ _ Hwf) as (He & _ & Ha).
  destruct (promising (mm_rb mm) n) eqn:Hp; simpl.
  2:{ eexists. split; [done|]. left. split; [done|]. apply not_roomy; [|done]. rewrite <- He.
      apply find_none_all. apply (unpromising_none k mm Hwf); [done| |done]. by rewrite He. }
  assert (Hv : visited_down mm n (lo + n) (hi - n) (mmap mm)
    (topdown_visit mm n (lo + n) (hi - n) (mm_rb mm))).
  { rewrite <- He. eapply (topdown_visit_ok k mm Hwf _ [] []); [|done]. simpl. by rewrite app_nil_r. }
  assert (Hrev : List.find (suitable mm n (lo + n) (hi - n)) (rev (mmap mm)) = None ->
    List.find (suitable mm n (lo + n) (hi - n)) (mmap mm) = None).
  { intros Hf. apply find_none_all. intros q Hq. eapply find_none_In; [exact Hf|].
    by apply list_elem_of_In, in_rev; rewrite rev_involutive; apply list_elem_of_In. }
  destruct (topdown_visit mm n (lo + n) (hi - n) (mm_rb mm)) as [gs ge| |].
  - destruct Hv as (p & Hf & -> & ->). apply find_some_first in Hf as (Hsp & post & pre & Hl & Hlst).
    apply suitable_spec in Hsp as (? & ? & ?).
    apply (f_equal (@rev _)) in Hl. rewrite rev_involutive, rev_app_distr in Hl. simpl in Hl.
    rewrite <- app_assoc in Hl. simpl in Hl.
    assert (Hpin : p ∈ mmap mm) by (rewrite Hl; set_solver).
    pose proof (prev_end_bounds k mm Hwf p Hpin).
    set (ge := if hi <? vm_start (deref mm p) then hi else vm_start (deref mm p)).
    assert (Hge : ge = Z.min hi (vm_start (deref mm p))).
    { unfold ge. destruct (Z.ltb_spec hi (vm_start (deref mm p))); lia. }
    destruct (found_high (prev_end mm p) ge) as (-> & Han & Hle); try lia.
    { intros. unfold ge. case_match; [done|]. by apply (wf_area _ _ Hwf). }
    { intros s ? ?. apply (gap_free k mm Hwf p); [done|done|lia]. }
    eexists. split; [done|]. right. split; [done|]. intros s Hs.
    destruct (roomy_gap s Hs) as [Ht|(q & Hq & Hqs & Hqe & Hsq)]; destruct Hs as (? & ? & _); [lia|].
    assert (vm_start (deref mm q) <= vm_start (deref mm p)); [|lia].
    rewrite Hl in Hq. apply elem_of_app in Hq as [Hq|[->|Hq]%elem_of_cons]; [|lia|].
    + apply list_elem_of_split in Hq as (a & b & Hq).
      destruct (gap_order k mm Hwf q p a b (rev post)); [by rewrite Hl, Hq, <- app_assoc|lia].
    + apply list_elem_of_In, in_rev, list_elem_of_In in Hq. rewrite (Hlst q Hq) in Hsq. done.
  - destruct Hv as [Hf _]. eexists. split; [done|]. left. split; [done|]. apply not_roomy; auto.
  - simpl in Hv. eexists. split; [done|]. left. split; [done|]. apply not_roomy; auto.
Qed.
End Areas.

(** ** Choosing an address *)

Lemma PAGE_ALIGN_u64 x : is_u64 (PAGE_ALIGN x) /\ page_aligned (PAGE_ALIGN x).
Proof.
  unfold PAGE_ALIGN, ALIGN. set (y := x +u (PAGE_SIZE - 1)).
  assert (Hy : is_u64 y) by apply wrap_range. change (PAGE_SIZE - 1) with (2 ^ 12 - 1).
  rewrite land_not_mask by (done || lia). unfold is_u64, page_aligned in *. rewrite PAGE_SIZE_eq.
  change (2 ^ 12) with 4096. pose proof (Z.mod_pos_bound y 4096). pose proof (Z.mod_le y 4096).
  split; [lia|]. by rewrite Zminus_mod, Z.mod_mod, Z.sub_diag by lia.
Qed.

(** The layout chosen by [arch_pick_mmap_layout] *)
Definition layout_ok (mm : lego_mm) : Prop :=
  page_aligned (mmap_base mm) /\ 0 <= mmap_base mm <= TASK_SIZE /\
  page_aligned (mmap_legacy_base mm) /\ 0 <= mmap_legacy_base mm <= TASK_SIZE.

(** A page-aligned free range in user space *)
Definition good_area (mm : lego_mm) (r len : Z) : Prop :=
  page_aligned r /\ 0 <= r /\ r + len <= TASK_SIZE /\ free_range mm r len.

Section Choose.
Context (k : Z) (mm : lego_mm) (Hwf : wf k mm) (Hlay : layout_ok mm) (len : Z).
Context (Hlen : 0 < len <= TASK_SIZE) (Hal : page_aligned len).

Lemma hint_area_ok addr a : hint_area mm TASK_SIZE addr len = Some a -> good_area mm a len.
Proof using All.
  unfold hint_area. destruct (addr =? 0); [done|].
  destruct (PAGE_ALIGN_u64 addr) as [Hu Hpa]. set (b := PAGE_ALIGN addr) in *.
  pose proof TASK_SIZE_u64. unfold is_u64 in *.
  rewrite (wrap_small (TASK_SIZE - len)) by (unfold is_u64; lia).
  destruct (Z.leb_spec b (TASK_SIZE - len)); [|done]. rewrite (wrap_small (b + len)) by (unfold is_u64; lia).
  rewrite (find_vma_ok k) by done. simpl. destruct (first_above mm b) as [p|] eqn:E.
  - destruct (Z.leb_spec (b + len) (vm_start (deref mm p))); [|done]. intros [= <-].
    split_and!; [done|lia|lia|]. apply first_above_Some in E as (pre & post & Hl & ? & Hpre).
    apply (gap_free k mm Hwf p); [rewrite Hl; set_solver| |lia].
    rewrite (prev_end_pos k mm Hwf p pre post Hl). unfold end_of.
    destruct (list.last pre) eqn:E; [|lia]. by apply Hpre, last_Some_elem_of.
  - intros [= <-]. split_and!; [done|lia|lia|]. apply (top_free k mm Hwf).
    pose proof (first_above_None _ _ E) as Hall. unfold end_of.
    destruct (list.last (mmap mm)) eqn:E'; [|lia]. by apply Hall, last_Some_elem_of.
Qed.

(** [r] is [-ENOMEM], and then no free range is left in the window, or a good area. *)
Definition found_or_full (r low high : Z) : Prop :=
  r = err_ul ENOMEM /\ (forall s, low <= s -> s + len <= high -> ~ free_range mm s len) \/
  good_area mm r len.

Lemma window_ok topdown low high off :
  page_aligned low -> page_aligned high -> 0 <= low <= TASK_SIZE -> 0 <= high <= TASK_SIZE ->
  exists r, vm_unmapped_area mm (mk_info topdown len low high 0 off) = Some r /\
    found_or_full r low high.
Proof using All.
  intros Ha1 Ha2 H1 H2. pose proof TASK_SIZE_u64.
  assert (Hi : info_ok (mk_info topdown len low high 0 off)).
  { split_and!; simpl; unfold is_u64; lia. }
  assert (Hroom : (forall s, ~ roomy mm (mk_info topdown len low high 0 off) s) ->
    forall s, low <= s -> s + len <= high -> ~ free_range mm s len).
  { intros Hn s ? ? ?. apply (Hn s). unfold roomy. simpl. rewrite Z.add_0_r. done. }
  assert (Hgood : forall r, answer mm (mk_info topdown len low high 0 off) r -> good_area mm r len).
  { intros r [A1 A2 A3 _ A5]. simpl in *. split_and!; [auto|lia|lia|done]. }
  unfold vm_unmapped_area, found_or_full. destruct topdown; simpl.
  - destruct (unmapped_area_topdown_ok k mm Hwf _ Hi) as (r & -> & [[? ?]|[? _]]); eauto 10.
  - destruct (unmapped_area_ok k mm Hwf _ Hi) as (r & -> & [[? ?]|[? _]]); eauto 10.
Qed.

Lemma legacy_ok addr pgoff flags :
  has flags MAP_FIXED = false ->
  exists r, arch_get_unmapped_area mm addr len pgoff flags = Some r /\
    found_or_full r (mmap_legacy_base mm) TASK_SIZE.
Proof using All.
  intros Hf. unfold arch_get_unmapped_area. rewrite Hf. destruct Hlay as (L1 & L2 & L3 & L4).
  rewrite (proj2 (Z.ltb_ge TASK_SIZE len)) by lia.
  destruct (hint_area mm TASK_SIZE addr len) as [a|] eqn:E.
  - eexists. split; [done|]. right. by eapply hint_area_ok.
  - apply window_ok; try done.
Qed.

Lemma err_ul_offset e : 0 < e <= MAX_ERRNO -> err_ul e mod PAGE_SIZE <> 0 /\ is_u64 (err_ul e).
Proof.
  unfold MAX_ERRNO, err_ul. intros He. split; [|apply wrap_range].
  rewrite PAGE_SIZE_eq. change 4096 with (2 ^ 12). rewrite wrap_mod_pow2 by lia.
  change (2 ^ 12) with 4096. intros Hm. pose proof (Z.div_mod (- e) 4096). lia.
Qed.

Lemma good_not_err r : good_area mm r len -> IS_ERR_VALUE r = false /\ r mod PAGE_SIZE = 0.
Proof using All.
  intros (Hp & H0 & H1 & _). split; [|done]. unfold IS_ERR_VALUE. apply Z.leb_gt.
  change (wrap (- MAX_ERRNO)) with 18446744073709547521.
  change TASK_SIZE with 140737488351232 in *. lia.
Qed.

Lemma topdown_ok addr pgoff flags :
  has flags MAP_FIXED = false ->
  exists r, arch_get_unmapped_area_topdown mm addr len pgoff flags = Some r /\
    (r = err_ul ENOMEM /\
       (forall s, PAGE_SIZE <= s -> s + len <= mmap_base mm -> ~ free_range mm s len) /\
       (forall s, mmap_legacy_base mm <= s -> s + len <= TASK_SIZE -> ~ free_range mm s len) \/
     good_area mm r len).
Proof using All.
  intros Hf. unfold arch_get_unmapped_area_topdown. rewrite Hf.
  rewrite (proj2 (Z.ltb_ge TASK_SIZE len)) by lia. destruct Hlay as (L1 & L2 & L3 & L4).
  destruct (hint_area mm TASK_SIZE addr len) as [a|] eqn:E.
  { eexists. split; [done|]. right. by eapply hint_area_ok. }
  destruct (window_ok true PAGE_SIZE (mmap_base mm) (pgoff <<u PAGE_SHIFT)) as (r & -> & Hr);
    [done|done|done|done|]. simpl. rewrite offset_in_page_mod.
  destruct Hr as [[-> Hfull]|Hgood].
  - destruct (err_ul_offset ENOMEM) as [Ho _]; [done|].
    rewrite (proj2 (Z.eqb_neq _ _) Ho), Z.eqb_refl. simpl.
    destruct (legacy_ok addr pgoff flags Hf) as (r & -> & [[-> Hfull']|Hgood]); eauto 10.
  - destruct (good_not_err _ Hgood) as [_ ->]. simpl. eauto.
Qed.

(** [get_unmapped_area] without [MAP_FIXED] *)
Lemma get_unmapped_area_ok addr pgoff flags :
  has flags MAP_FIXED = false ->
  exists r, get_unmapped_area mm addr len pgoff flags = Some r /\
    (r = err_ul ENOMEM /\
       (forall s, PAGE_SIZE <= s -> s + len <= mmap_base mm -> ~ free_range mm s len) /\
       (forall s, mmap_legacy_base mm <= s -> s + len <= TASK_SIZE -> ~ free_range mm s len) \/
     good_area mm r len).
Proof using All.
  intros Hf. unfold get_unmapped_area. rewrite (proj2 (Z.ltb_ge TASK_SIZE len)) by lia.
  destruct (topdown_ok addr pgoff flags Hf) as (r & -> & Hr). simpl.
  destruct Hr as [(-> & ?)|Hgood]; [eexists; split; [done|]; auto|].
  destruct (good_not_err _ Hgood) as [-> Hm]. pose proof Hgood as (_ & H0 & H1 & _).
  pose proof TASK_SIZE_u64. rewrite (wrap_small (TASK_SIZE - len)) by (unfold is_u64; lia).
  rewrite (proj2 (Z.ltb_ge _ r)) by lia. rewrite offset_in_page_mod, Hm. simpl. eauto.
Qed.

(** With [MAP_FIXED] the address is checked, not chosen. *)
Lemma get_unmapped_area_fixed addr pgoff flags :
  has flags MAP_FIXED = true -> is_u64 addr ->
  exists r, get_unmapped_area mm addr len pgoff flags = Some r /\
    (IS_ERR_VALUE r = true /\ is_u64 r \/
     r = addr /\ page_aligned r /\ r + len <= TASK_SIZE).
Proof using All.
  intros Hf Hu. unfold get_unmapped_area, arch_get_unmapped_area_topdown. rewrite Hf.
  rewrite (proj2 (Z.ltb_ge TASK_SIZE len)) by lia. simpl.
  destruct (IS_ERR_VALUE addr) eqn:E; [eexists; split; [done|]; by left|].
  pose proof TASK_SIZE_u64. rewrite (wrap_small (TASK_SIZE - len)) by (unfold is_u64; lia).
  destruct (Z.ltb_spec (TASK_SIZE - len) addr); [eexists; split; [done|]; by left|].
  rewrite offset_in_page_mod. destruct (Z.eqb_spec (addr mod PAGE_SIZE) 0); simpl.
  - eexists. split; [done|]. right. split_and!; [done|done|lia].
  - eexists; split; [done|]; by left.
Qed.
End Choose.

(** An error value is never page-aligned. *)
Lemma err_not_aligned r : IS_ERR_VALUE r = true -> is_u64 r -> r mod PAGE_SIZE <> 0.
Proof.
  unfold IS_ERR_VALUE, is_u64. intros Hr Hu Hm. zbool.
  change (wrap (- MAX_ERRNO)) with 18446744073709547521 in Hr.
  change ULONG_MOD with 18446744073709551616 in Hu. rewrite PAGE_SIZE_eq in Hm.
  pose proof (Z.div_mod r 4096). lia.
Qed.
