(* ===== verification/VmaMerge.v ===== *)
(** * Memory manager, virtual memory areas: merging a new mapping

    [vma_merge], as [mmap_region], [do_brk] and [copy_vma] call it: the range is free,
    and may be joined to the area before it, to the one after it, or to both. *)

From S2P Require Import Prelude RbTree VmaModel VmaTree VmaInv VmaAdjust VmaSpec.

(** [mm'] is [mm] with the area [nv] mapped at [addr, last).  The flags are right when
    the neighbours the area may be joined to have the same flags.  When the area
    closes the hole between two areas, one reference to the file is lost. *)
Record mapped (k addr last : Z) (nv : vm_area) (mm mm' : lego_mm) : Prop := {
  mp_wf : wf k mm';
  mp_backing : forall x, backing_at mm' x
    = if in_range addr last x then Some (backing_of nv x) else backing_at mm x;
  mp_flags :
    (forall p, p ∈ mmap mm -> vm_end (deref mm p) = addr \/ vm_start (deref mm p) = last ->
       vm_file (deref mm p) = vm_file nv -> vm_flags (deref mm p) = vm_flags nv) ->
    forall x, page_at mm' x = if in_range addr last x then Some (page_of nv x) else page_at mm x;
  mp_files : forall f, file_balance mm' f = file_balance mm f +
    (if (length (mmap mm') <? length (mmap mm))%nat && bool_decide (vm_file nv = Some f)
     then 1 else 0);
  mp_settings : settings mm' = settings mm;
  mp_counters : counters mm' = counters mm;
  mp_log : pgt_log mm' = pgt_log mm
}.

(** The area [m] of [mm] that the range has been joined to *)
Definition joined (mm : lego_mm) (m : ptr) (addr last : Z) : Prop :=
  m ∈ mmap mm /\ vm_start (deref mm m) <= addr /\ last <= vm_end (deref mm m).

(** ** The page behind an address *)

Lemma page_at_iff k mm x g :
  wf k mm -> page_at mm x = Some g <->
  exists p, p ∈ mmap mm /\ vm_start (deref mm p) <= x < vm_end (deref mm p) /\
    g = page_of (deref mm p) x.
Proof.
  intros Hwf. split; [apply pages_Some|]. intros (p & Hp & Hc & ->).
  eapply pages_in; [apply Hwf|done..].
Qed.

(** The offset in the file does not depend on where the area begins. *)
Lemma backing_shift v v' x :
  vm_file v' = vm_file v -> 0 <= vm_start v' <= vm_start v -> vm_start v <= x < ULONG_MOD ->
  page_aligned (vm_start v') -> page_aligned (vm_start v) ->
  (vm_file v <> None ->
     vm_pgoff v' +u Z.shiftr (vm_start v -u vm_start v') PAGE_SHIFT = vm_pgoff v) ->
  backing_of v' x = backing_of v x.
Proof.
  intros Hf Hs Hx Ha Ha' Hoff. unfold backing_of. rewrite Hf. destruct (vm_file v); [|done].
  f_equal. rewrite <- Hoff by done. symmetry. apply offset_split; lia || done.
Qed.

(** ** An area [m] that takes in the range and the areas [absorbed] *)

Section Absorb.
Context (k : Z) (mm mm' : lego_mm) (Hwf : wf k mm) (Hwf' : wf k mm').
Context (addr last : Z) (nv : vm_area) (m : ptr) (absorbed : list ptr).
Context (Hm : m ∈ mmap mm').
Context (Hnew : forall p, p ∈ mmap mm' -> p <> m -> p ∈ mmap mm /\ deref mm' p = deref mm p).
Context (Hold : forall p, p ∈ mmap mm -> p ∉ absorbed ->
  p ∈ mmap mm' /\ deref mm' p = deref mm p).
Context (Habs : forall p, p ∈ absorbed -> p ∈ mmap mm).
Context (Hcov : forall x, vm_start (deref mm' m) <= x < vm_end (deref mm' m) <->
  addr <= x < last \/
  exists p, p ∈ absorbed /\ vm_start (deref mm p) <= x < vm_end (deref mm p)).

Lemma absorb_pages {A} (view : page -> A) :
  (forall x, addr <= x < last -> view (page_of (deref mm' m) x) = view (page_of nv x)) ->
  (forall p x, p ∈ absorbed -> vm_start (deref mm p) <= x < vm_end (deref mm p) ->
     view (page_of (deref mm' m) x) = view (page_of (deref mm p) x)) ->
  forall x, view <$> page_at mm' x
    = if in_range addr last x then Some (view (page_of nv x)) else view <$> page_at mm x.
Proof using Hwf Hwf' Hm Hnew Hold Habs Hcov.
  intros Hv1 Hv2 x. destruct (in_range addr last x) eqn:E.
  { apply in_range_spec in E. assert (page_at mm' x = Some (page_of (deref mm' m) x)) as ->.
    { apply (page_at_iff k); [done|]. exists m. split; [done|split; [|done]]. apply Hcov. by left. }
    simpl. by rewrite Hv1. }
  assert (Hr : ~ addr <= x < last) by (intros Hr%in_range_spec; congruence).
  destruct (page_at mm x) as [g|] eqn:Hg; simpl.
  - apply (page_at_iff k) in Hg as (p & Hp & Hc & ->); [|done].
    destruct (decide (p ∈ absorbed)) as [Ha|Ha].
    + assert (page_at mm' x = Some (page_of (deref mm' m) x)) as ->.
      { apply (page_at_iff k); [done|]. exists m. split; [done|split; [|done]]. apply Hcov. eauto. }
      simpl. by rewrite (Hv2 p).
    + destruct (Hold p Hp Ha) as [Hp' Hd].
      assert (page_at mm' x = Some (page_of (deref mm p) x)) as ->; [|done].
      apply (page_at_iff k); [done|]. exists p. by rewrite Hd.
  - destruct (page_at mm' x) as [g|] eqn:Hg'; [exfalso|done].
    apply (page_at_iff k) in Hg' as (p & Hp & Hc & ->); [|done].
    assert (exists q, q ∈ mmap mm /\ vm_start (deref mm q) <= x < vm_end (deref mm q)) as (q & Hq & Hqc).
    { destruct (decide (p = m)) as [->|Hne].
      - apply Hcov in Hc as [?|(q & ? & ?)]; [done|]. eauto.
      - destruct (Hnew p Hp Hne) as [? Hd]. rewrite Hd in Hc. eauto. }
    assert (page_at mm x = Some (page_of (deref mm q) x)); [|congruence].
    apply (page_at_iff k); [done|]. eauto.
Qed.

Context (Hadj : forall p, p ∈ absorbed ->
  (vm_end (deref mm p) = addr \/ vm_start (deref mm p) = last) /\ vm_file (deref mm p) = vm_file nv).
Context (Hb1 : forall x, addr <= x < last -> backing_of (deref mm' m) x = backing_of nv x).
Context (Hb2 : forall p x, p ∈ absorbed -> vm_start (deref mm p) <= x < vm_end (deref mm p) ->
  backing_of (deref mm' m) x = backing_of (deref mm p) x).
Context (Hfl : vm_flags (deref mm' m) = vm_flags nv \/
  exists p, p ∈ absorbed /\ vm_flags (deref mm' m) = vm_flags (deref mm p)).

Lemma absorb_mapped :
  (forall f, file_balance mm' f = file_balance mm f +
    (if (length (mmap mm') <? length (mmap mm))%nat && bool_decide (vm_file nv = Some f)
     then 1 else 0)) ->
  settings mm' = settings mm -> counters mm' = counters mm -> pgt_log mm' = pgt_log mm ->
  mapped k addr last nv mm mm'.
Proof using All.
  intros Hf Hs Hc Hlg. split; try done.
  - intros x. unfold backing_at.
    apply (absorb_pages pg_backing); [intros y Hy; by apply Hb1|intros p y Hp Hy; by apply Hb2].
  - intros Hsame x.
    assert (Hall : forall p, p ∈ absorbed -> vm_flags (deref mm p) = vm_flags nv).
    { intros p Hp. destruct (Hadj p Hp). apply Hsame; auto. }
    assert (Hmf : vm_flags (deref mm' m) = vm_flags nv).
    { destruct Hfl as [?|(p & Hp & ->)]; auto. }
    pose proof (absorb_pages (fun g => g)) as Hpg. rewrite <- (option_fmap_id (page_at mm' x)).
    rewrite <- (option_fmap_id (page_at mm x)). apply Hpg; unfold page_of.
    + intros y Hy. by rewrite Hb1, Hmf.
    + intros p y Hp Hy. by rewrite (Hb2 p), Hmf, Hall.
Qed.
End Absorb.

(** ** The three ways to merge *)

Section Merge.
Context (k : Z) (mm : lego_mm) (Hwf : wf k mm) (pre post : list ptr).
Context (Hl : mmap mm = pre ++ post) (addr last : Z) (nv : vm_area).
Context (Hpre : forall q, q ∈ pre -> vm_end (deref mm q) <= addr).
Context (Hpost : forall q, q ∈ post -> last <= vm_start (deref mm q)).
Context (Hr : 0 <= addr < last) (Ht : last <= TASK_SIZE).
Context (Ha : page_aligned addr) (Hb : page_aligned last).
Context (Hs : vm_start nv = addr) (He : vm_end nv = last) (Hu : is_u64 (vm_pgoff nv)).

Lemma merge_area p : p ∈ pre \/ p ∈ post -> p ∈ mmap mm /\ area_ok (deref mm p) /\
  0 <= vm_start (deref mm p) /\ vm_start (deref mm p) < vm_end (deref mm p) /\
  vm_end (deref mm p) <= TASK_SIZE.
Proof using All.
  intros Hp. assert (p ∈ mmap mm) by (rewrite Hl; apply elem_of_app; done).
  pose proof (wf_bounds _ _ _ Hwf H). split; [done|]. split; [by apply Hwf|]. tauto.
Qed.

(** The file offsets are contiguous when [can_vma_merge_after] says so. *)
Lemma merge_after_off q :
  q ∈ pre -> vm_end (deref mm q) = addr ->
  can_vma_merge_after (deref mm q) (vm_flags nv) (vm_file nv) (vm_pgoff nv) = true ->
  vm_file (deref mm q) = vm_file nv /\
  (vm_file nv <> None ->
     vm_pgoff (deref mm q) +u Z.shiftr (addr -u vm_start (deref mm q)) PAGE_SHIFT = vm_pgoff nv).
Proof using All.
  intros Hq Hend. destruct (merge_area q) as (_ & (_ & _ & _ & Hanon) & _); [by left|].
  unfold can_vma_merge_after, is_mergeable_vma. case_bool_decide as Hf; [|done].
  unfold vma_is_anonymous, vma_pages. rewrite Hend. split; [done|]. intros Hne.
  destruct (vm_ops (deref mm q)); [by zbool|]. exfalso. apply Hne. rewrite <- Hf. by apply Hanon.
Qed.

Lemma merge_before_off nx :
  nx ∈ post -> vm_start (deref mm nx) = last ->
  can_vma_merge_before (deref mm nx) (vm_flags nv) (vm_file nv)
    (vm_pgoff nv +u Z.shiftr (last -u addr) PAGE_SHIFT) = true ->
  vm_file (deref mm nx) = vm_file nv /\
  (vm_file nv <> None ->
     vm_pgoff (deref mm nx) = vm_pgoff nv +u Z.shiftr (last -u addr) PAGE_SHIFT).
Proof using All.
  intros Hq Hst. destruct (merge_area nx) as (_ & (_ & _ & _ & Hanon) & _); [by right|].
  unfold can_vma_merge_before, is_mergeable_vma. case_bool_decide as Hf; [|done].
  unfold vma_is_anonymous. split; [done|]. intros Hne.
  destruct (vm_ops (deref mm nx)); [by zbool|]. exfalso. apply Hne. rewrite <- Hf. by apply Hanon.
Qed.

(** Case 2: the area before grows. *)
Lemma merge_case2 q pre' :
  pre = pre' ++ [q] -> vm_end (deref mm q) = addr ->
  can_vma_merge_after (deref mm q) (vm_flags nv) (vm_file nv) (vm_pgoff nv) = true ->
  exists mm', __vma_adjust q (vm_start (deref mm q)) last (vm_pgoff (deref mm q)) None (Some q) mm
      = Some mm' /\ mapped k addr last nv mm mm' /\ joined mm' q addr last.
Proof using All.
  intros Hpq Hend Hcan. assert (Hq : q ∈ pre) by (rewrite Hpq; set_solver).
  destruct (merge_after_off q Hq Hend Hcan) as [Hf Hoff].
  destruct (merge_area q) as (Hqm & (Q1 & _) & Q2 & Q3 & _); [by left|].
  assert (Hl' : mmap mm = pre' ++ q :: post) by (by rewrite Hl, Hpq, <- app_assoc).
  destruct (adjust_grow_end k mm q pre' post last (Some q)) as (t & h & Heq & Hw); try done; [lia| |].
  { intros x Hx. apply Hpost. destruct post; [done|]. simpl in Hx. simplify_eq. by left. }
  eexists. split; [exact Heq|]. simpl in Hw. match type of Hw with wf k ?m => set (mm' := m) in * end.
  assert (Hdq : deref mm' q = with_range (vm_start (deref mm q)) last (vm_pgoff (deref mm q)) (deref mm q))
    by apply deref_upd_eq.
  assert (Hdo : forall p, p <> q -> deref mm' p = deref mm p)
    by (intros p Hp; apply (deref_upd_ne q p); congruence).
  split; [|unfold joined; rewrite Hdq; simpl; split; [done|lia]].
  assert (Hbk : forall x, addr <= x < last -> backing_of (deref mm' q) x = backing_of nv x).
  { intros x Hx. rewrite Hdq. apply backing_shift; simpl; rewrite ?Hs; try done; try lia.
    pose proof TASK_SIZE_u64. lia. }
  apply (absorb_mapped k mm mm' Hwf Hw addr last nv q [q]); try done.
  - intros p Hp Hne. split; [done|auto].
  - intros p Hp Hne. split; [done|]. apply Hdo. set_solver.
  - by intros p ->%list_elem_of_singleton.
  - intros x. rewrite Hdq. simpl. split.
    + intros Hx. destruct (Z.lt_ge_cases x addr); [right; exists q; split; [by left|lia]|left; lia].
    + intros [?|(p & ->%list_elem_of_singleton & ?)]; lia.
  - intros p ->%list_elem_of_singleton. auto.
  - intros p x ->%list_elem_of_singleton _. by rewrite Hdq.
  - right. exists q. rewrite Hdq. split; [by left|done].
  - intros f. change (mmap mm') with (mmap mm). rewrite Nat.ltb_irrefl. simpl.
    unfold file_balance. change (mmap mm') with (mmap mm). rewrite (refs_ext (deref mm') (deref mm)).
    + change (file_count mm' f) with (file_count mm f). lia.
    + intros p _. destruct (decide (p = q)) as [->|]; [by rewrite Hdq|by rewrite Hdo].
Qed.

(** Case 3: the area after grows downwards. *)
Lemma merge_case3 nx post' :
  post = nx :: post' -> vm_start (deref mm nx) = last ->
  can_vma_merge_before (deref mm nx) (vm_flags nv) (vm_file nv)
    (vm_pgoff nv +u Z.shiftr (last -u addr) PAGE_SHIFT) = true ->
  exists mm', __vma_adjust nx addr (vm_end (deref mm nx))
      (vm_pgoff (deref mm nx) -u Z.shiftr (last -u addr) PAGE_SHIFT) None (Some nx) mm
      = Some mm' /\ mapped k addr last nv mm mm' /\ joined mm' nx addr last.
Proof using All.
  intros Hpn Hst Hcan. assert (Hn : nx ∈ post) by (rewrite Hpn; by left).
  destruct (merge_before_off nx Hn Hst Hcan) as [Hf Hoff].
  destruct (merge_area nx) as (Hnm & (_ & Q1 & _) & Q2 & Q3 & Q4); [by right|].
  rewrite Hpn in Hl. pose proof TASK_SIZE_u64.
  set (pg := vm_pgoff (deref mm nx) -u Z.shiftr (last -u addr) PAGE_SHIFT).
  destruct (adjust_grow_start k mm nx pre post' addr pg (Some nx)) as (t & Heq & _ & Hw); try done.
  { unfold end_of. destruct (list.last pre) eqn:E; [|lia]. by apply Hpre, last_Some_elem_of. }
  { lia. }
  { apply wrap_range. }
  eexists. split; [exact Heq|]. simpl in Hw. match type of Hw with wf k ?m => set (mm' := m) in * end.
  assert (Hdn : deref mm' nx = with_range addr (vm_end (deref mm nx)) pg (deref mm nx))
    by apply deref_upd_eq.
  assert (Hdo : forall p, p <> nx -> deref mm' p = deref mm p)
    by (intros p Hp; apply (deref_upd_ne nx p); congruence).
  split; [|unfold joined; rewrite Hdn; simpl; split; [done|lia]].
  assert (Hback : vm_file nv <> None -> pg = vm_pgoff nv).
  { intros Hne. unfold pg. rewrite (Hoff Hne). unfold wrap at 1 2.
    rewrite Zminus_mod_idemp_l, Z.add_simpl_r. by apply Z.mod_small. }
  apply (absorb_mapped k mm mm' Hwf Hw addr last nv nx [nx]); try done.
  - intros p Hp Hne. split; [done|auto].
  - intros p Hp Hne. split; [done|]. apply Hdo. set_solver.
  - by intros p ->%list_elem_of_singleton.
  - intros x. rewrite Hdn. simpl. split.
    + intros Hx. destruct (Z.lt_ge_cases x last); [left; lia|right; exists nx; split; [by left|lia]].
    + intros [?|(p & ->%list_elem_of_singleton & ?)]; lia.
  - intros p ->%list_elem_of_singleton. auto.
  - intros x Hx. rewrite Hdn. unfold backing_of. simpl. rewrite Hf, Hs.
    destruct (vm_file nv); [|done]. by rewrite Hback.
  - intros p x ->%list_elem_of_singleton Hx. rewrite Hdn.
    apply backing_shift; simpl; rewrite ?Hst; try done; try lia.
    intros Hne. rewrite Hf in Hne. by rewrite (Hback Hne), (Hoff Hne).
  - right. exists nx. rewrite Hdn. split; [by left|done].
  - intros f. change (mmap mm') with (mmap mm). rewrite Nat.ltb_irrefl. simpl.
    unfold file_balance. change (mmap mm') with (mmap mm). rewrite (refs_ext (deref mm') (deref mm)).
    + change (file_count mm' f) with (file_count mm f). lia.
    + intros p _. destruct (decide (p = nx)) as [->|]; [by rewrite Hdn|by rewrite Hdo].
Qed.

(** Case 1: the areas before and after become one. *)
Lemma merge_case1 q pre' nx post' :
  pre = pre' ++ [q] -> post = nx :: post' ->
  vm_end (deref mm q) = addr -> vm_start (deref mm nx) = last ->
  can_vma_merge_after (deref mm q) (vm_flags nv) (vm_file nv) (vm_pgoff nv) = true ->
  can_vma_merge_before (deref mm nx) (vm_flags nv) (vm_file nv)
    (vm_pgoff nv +u Z.shiftr (last -u addr) PAGE_SHIFT) = true ->
  exists mm', __vma_adjust q (vm_start (deref mm q)) (vm_end (deref mm nx)) (vm_pgoff (deref mm q))
      None (Some q) mm = Some mm' /\ mapped k addr last nv mm mm' /\ joined mm' q addr last.
Proof using All.
  intros Hpq Hpn Hend Hst Hcan1 Hcan2.
  assert (Hq : q ∈ pre) by (rewrite Hpq; set_solver). assert (Hn : nx ∈ post) by (rewrite Hpn; by left).
  destruct (merge_after_off q Hq Hend Hcan1) as [Hf1 Hoff1].
  destruct (merge_before_off nx Hn Hst Hcan2) as [Hf2 Hoff2].
  destruct (merge_area q) as (Hqm & (Q1 & _) & Q2 & Q3 & Q4); [by left|].
  destruct (merge_area nx) as (Hnm & (_ & N1 & _) & N2 & N3 & N4); [by right|].
  assert (Hl' : mmap mm = pre' ++ q :: nx :: post') by (by rewrite Hl, Hpq, Hpn, <- app_assoc).
  pose proof (wf_NoDup _ _ Hwf) as Hnd. rewrite Hl' in Hnd.
  destruct (adjust_swallow k mm q nx pre' post' Hwf Hl') as (t & Heq & Hw).
  eexists. split; [exact Heq|]. simpl in Hw. match type of Hw with wf k ?m => set (mm' := m) in * end.
  assert (Hnx : nx ∉ pre' ++ q :: post').
  { replace (pre' ++ q :: nx :: post') with ((pre' ++ [q]) ++ nx :: post') in Hnd
      by (by rewrite <- app_assoc). apply NoDup_split in Hnd as [? ?]. set_solver. }
  assert (Hm' : mmap mm' = pre' ++ q :: post') by done.
  assert (Hdq : deref mm' q = with_range (vm_start (deref mm q)) (vm_end (deref mm nx))
    (vm_pgoff (deref mm q)) (deref mm q)).
  { unfold mm', deref. simpl. rewrite lookup_total_delete_ne by set_solver.
    by rewrite lookup_total_insert_eq. }
  assert (Hdo : forall p, p <> q -> p <> nx -> deref mm' p = deref mm p).
  { intros p Hp1 Hp2. unfold mm', deref. simpl. rewrite lookup_total_delete_ne by done.
    by rewrite lookup_total_insert_ne. }
  assert (Hqin : q ∈ mmap mm') by (rewrite Hm'; set_solver). split; [|unfold joined; rewrite Hdq; simpl; split; [done|lia]].
  pose proof TASK_SIZE_u64.
  assert (Hbk : forall x, addr <= x < last \/ last <= x < ULONG_MOD ->
    backing_of (deref mm' q) x = backing_of nv x).
  { intros x Hx. rewrite Hdq. apply backing_shift; simpl; rewrite ?Hs; try done; lia. }
  apply (absorb_mapped k mm mm' Hwf Hw addr last nv q [q; nx]); try done.
  - intros p Hp Hne. rewrite Hm' in Hp. assert (p <> nx) by (intros ->; done).
    split; [|auto]. rewrite Hl'. apply elem_of_app in Hp as [?|[->|?]%elem_of_cons]; [|done|];
      apply elem_of_app; [by left|right; by do 2 right].
  - intros p Hp Hne. apply not_elem_of_cons in Hne as [? Hne]. apply not_elem_of_cons in Hne as [? _].
    split; [|auto]. rewrite Hl' in Hp. rewrite Hm'.
    apply elem_of_app in Hp as [?|[->|[->|?]%elem_of_cons]%elem_of_cons]; try done;
      apply elem_of_app; [by left|right; by right].
  - intros p Hp. apply elem_of_cons in Hp as [->| ->%list_elem_of_singleton]; done.
  - intros x. rewrite Hdq. simpl. split.
    + intros Hx. destruct (Z.lt_ge_cases x addr); [right; exists q; split; [by left|lia]|].
      destruct (Z.lt_ge_cases x last); [left; lia|right; exists nx; split; [right; by left|lia]].
    + intros [?|(p & Hp & ?)]; [lia|]. apply elem_of_cons in Hp as [->| ->%list_elem_of_singleton]; lia.
  - intros p Hp. apply elem_of_cons in Hp as [->| ->%list_elem_of_singleton]; auto.
  - intros x Hx. apply Hbk. by left.
  - intros p x Hp Hx. apply elem_of_cons in Hp as [->| ->%list_elem_of_singleton]; [by rewrite Hdq|].
    rewrite Hbk by lia. apply backing_shift; rewrite ?Hs, ?Hst; try done; try lia.
    intros Hne. rewrite Hf2 in Hne. by rewrite Hoff2.
  - right. exists q. rewrite Hdq. split; [by left|done].
  - intros f. unfold file_balance. rewrite Hm', Hl'. change (file_count mm' f) with (file_count mm f).
    assert ((length (pre' ++ q :: post') <? length (pre' ++ q :: nx :: post'))%nat = true) as ->.
    { apply Nat.ltb_lt. rewrite !length_app. simpl. lia. }
    rewrite !refs_app. simpl. rewrite (refs_ext (deref mm') (deref mm) f pre'), (refs_ext (deref mm') (deref mm) f post').
    + rewrite Hdq. simpl. rewrite Hf2.
      case_bool_decide; destruct (decide (vm_file nv = Some f)); try done; lia.
    + intros p Hp. destruct (decide (p = q)) as [->|]; [by rewrite Hdq|].
      by rewrite Hdo by (try done; intros ->; set_solver).
    + intros p Hp. destruct (decide (p = q)) as [->|]; [by rewrite Hdq|].
      by rewrite Hdo by (try done; intros ->; set_solver).
Qed.

Lemma merge_area_next :
  match list.last pre with Some q => vm_next mm q | None => hd_error (mmap mm) end = hd_error post.
Proof using All.
  destruct (list.last pre) as [q|] eqn:E.
  - apply last_Some in E as [pre' E]. apply (vm_next_at mm q pre' post); [|by eapply wf_NoDup].
    by rewrite Hl, E, <- app_assoc.
  - apply last_None in E. by rewrite Hl, E.
Qed.

Lemma hd_post nx : hd_error post = Some nx ->
  (exists post', post = nx :: post') /\ nx ∈ post /\ vm_end (deref mm nx) <> last.
Proof using All.
  intros E. assert (exists post', post = nx :: post') as [post' Hp].
  { clear - E. destruct post as [|y l]; simpl in E; [done|]. injection E as ->. eauto. }
  assert (Hn : nx ∈ post) by (rewrite Hp; by left). split; [eauto|]. split; [done|].
  destruct (merge_area nx) as (_ & _ & _ & ? & _); [by right|]. apply Hpost in Hn. lia.
Qed.

(** [vma_merge] on a free range: it does not apply, or the range is mapped. *)
Lemma vma_merge_ok :
  exists o, vma_merge (list.last pre) addr last (vm_flags nv) (vm_file nv) (vm_pgoff nv) mm = Some o /\
    match o with
    | Some (mm', m) => mapped k addr last nv mm mm' /\ joined mm' m addr last
    | None => True
    end.
Proof using All.
  unfold vma_merge. destruct (has _ _); [by eexists|]. rewrite merge_area_next.
  assert (match hd_error post with
    | Some a => if vm_end (deref mm a) =? last then vm_next mm a else hd_error post
    | None => None end = hd_error post) as ->.
  { destruct (hd_error post) as [a|] eqn:E; [|done]. apply hd_post in E as (_ & _ & E).
    by rewrite (proj2 (Z.eqb_neq _ _) E). }
  set (pgl := Z.shiftr (last -u addr) PAGE_SHIFT).
  set (bef := fun nx => (last =? vm_start (deref mm nx)) &&
    can_vma_merge_before (deref mm nx) (vm_flags nv) (vm_file nv) (vm_pgoff nv +u pgl)).
  assert (H3 : forall nx, hd_error post = Some nx -> bef nx = true ->
    exists mm', __vma_adjust nx addr (vm_end (deref mm nx)) (vm_pgoff (deref mm nx) -u pgl)
      None (Some nx) mm = Some mm' /\ mapped k addr last nv mm mm' /\ joined mm' nx addr last).
  { unfold bef. intros nx Hp Hc. zbool. apply hd_post in Hp as ([post' Hp] & _). by eapply merge_case3. }
  destruct (list.last pre) as [q|] eqn:Eq.
  - apply last_Some in Eq as [pre' Hpre'].
    assert (Hq : q ∈ pre) by (rewrite Hpre'; set_solver). pose proof (Hpre q Hq) as Hqa.
    destruct ((vm_end (deref mm q) =? addr) && _) eqn:Hc.
    + zbool. destruct (hd_error post) as [nx|] eqn:Ep.
      * fold (bef nx). destruct (bef nx) eqn:Hb'.
        -- unfold bef in Hb'. zbool. apply hd_post in Ep as ([post' Hp] & _).
           destruct (merge_case1 q pre' nx post') as (mm' & -> & ?); try done. simpl. eauto.
        -- destruct (merge_case2 q pre') as (mm' & -> & ?); try done. simpl. eauto.
      * destruct (merge_case2 q pre') as (mm' & -> & ?); try done. simpl. eauto.
    + destruct (hd_error post) as [nx|] eqn:Ep; [|by eexists]. fold (bef nx).
      destruct (bef nx) eqn:Hb'; [|by eexists]. rewrite (proj2 (Z.ltb_ge addr _)) by lia. simpl.
      destruct (H3 nx eq_refl Hb') as (mm' & -> & ?). simpl. eauto.
  - destruct (hd_error post) as [nx|] eqn:Ep; [|by eexists]. fold (bef nx).
    destruct (bef nx) eqn:Hb'; [|by eexists]. simpl.
    destruct (H3 nx eq_refl Hb') as (mm' & -> & ?). simpl. eauto.
Qed.
End Merge.
