(* ===== verification/VmaMap.v ===== *)
(** * Memory manager, virtual memory areas: mapping

    [mmap_region], [do_mmap] and [do_brk]: the range asked for is mapped as asked, and
    nothing outside it changes; without [MAP_FIXED] the range was free before. *)

From S2P Require Import Prelude RbTree VmaModel VmaTree VmaInv VmaAdjust VmaSpec VmaUnmap VmaGap VmaMerge.

(** ** Linking a new area *)

Lemma wf_prot k p mm : wf k mm -> p ∈ mmap mm -> wf k (vma_set_page_prot p mm).
Proof.
  intros Hwf Hp. unfold vma_set_page_prot.
  set (f := fun v => with_page_prot (vm_pgprot_modify (vm_page_prot v) (vm_flags v)) v).
  assert (Hd : forall q, deref (upd_vma p f mm) q = if decide (q = p) then f (deref mm p) else deref mm q).
  { intros q. case_decide as Hq; [rewrite Hq; apply deref_upd_eq|by apply deref_upd_ne]. }
  assert (Hse : forall q, vm_start (deref (upd_vma p f mm) q) = vm_start (deref mm q) /\
    vm_end (deref (upd_vma p f mm) q) = vm_end (deref mm q)).
  { intros q. rewrite Hd. case_decide as Hq; [by rewrite Hq|done]. }
  destruct Hwf as [Hl Hs Ha Ht Hh Hc]. split; simpl; [| | | | |done].
  - intros q Hq. destruct (decide (q = p)) as [->|]; [rewrite lookup_insert_eq; eauto|].
    rewrite lookup_insert_ne by done. auto.
  - eapply sorted_ext; [|exact Hs]. intros q _. destruct (Hse q). done.
  - intros q Hq. rewrite Hd. case_decide; [|auto]. destruct (Ha p Hp) as (? & ? & ? & ? & ?). split_and!; try done. by apply prot_modify.
  - destruct Ht as (? & ? & Hau). split_and!; [done..|]. eapply aug_ok_agree; [|exact Hau].
    intros q Hq. symmetry. apply own_gap_ext; [done|auto|congruence].
  - rewrite Hh. apply end_of_ext. intros q _. symmetry. apply Hse.
Qed.

(** [vm_page_prot] is not seen by the abstract address space. *)
Lemma mapped_prot k addr last nv mm mm' p :
  mapped k addr last nv mm mm' -> p ∈ mmap mm' ->
  mapped k addr last nv mm (vma_set_page_prot p mm').
Proof.
  intros [W B F FB S C L] Hp.
  set (f := fun v => with_page_prot (vm_pgprot_modify (vm_page_prot v) (vm_flags v)) v).
  assert (Hd : forall q, deref (upd_vma p f mm') q = if decide (q = p) then f (deref mm' p) else deref mm' q).
  { intros q. case_decide as Hq; [rewrite Hq; apply deref_upd_eq|by apply deref_upd_ne]. }
  assert (Hpg : forall x, page_at (vma_set_page_prot p mm') x = page_at mm' x).
  { intros x. unfold page_at. change (mmap (vma_set_page_prot p mm')) with (mmap mm').
    generalize (mmap mm') as l. intros l. induction l as [|q l IH]; simpl; [done|]. rewrite IH.
    change (deref (vma_set_page_prot p mm') q) with (deref (upd_vma p f mm') q). rewrite Hd.
    case_decide as Hq; [by rewrite Hq|done]. }
  split; try done.
  - by apply wf_prot.
  - intros x. unfold backing_at. rewrite Hpg. apply B.
  - intros Hsame x. rewrite Hpg. by apply F.
  - intros g. rewrite <- FB. unfold file_balance.
    change (file_count (vma_set_page_prot p mm') g) with (file_count mm' g). f_equal.
    apply refs_ext. intros q _.
    change (deref (vma_set_page_prot p mm') q) with (deref (upd_vma p f mm') q). rewrite Hd.
    case_decide as Hq; [by rewrite Hq|done].
Qed.

Section LinkNew.
Context `{KmallocFresh}.
Context (k : Z) (mm : lego_mm) (Hwf : wf k mm) (pre post : list ptr) (lk : vma_links).
Context (Hl : mmap mm = pre ++ post) (Hlk : links_at mm lk pre post) (nv : vm_area).
#[local] Abbreviation addr := (vm_start nv).
#[local] Abbreviation last := (vm_end nv).
Context (Hpre : forall q, q ∈ pre -> vm_end (deref mm q) <= addr).
Context (Hpost : forall q, q ∈ post -> last <= vm_start (deref mm q)).
Context (Hr : 0 <= addr < last) (Ht : last <= TASK_SIZE) (Hok : area_ok nv).

Lemma link_new new :
  kmalloc mm = Some new ->
  exists mm', vma_link new lk (get_file_opt (vm_file nv) (set_vmas (<[new := nv]> (vmas mm)) mm))
      = Some mm' /\ mapped k addr last nv mm mm' /\ new ∈ mmap mm'.
Proof using All.
  intros Hk. assert (Hfr : vmas mm !! new = None) by (by apply kmalloc_fresh).
  assert (Hin : new ∉ mmap mm).
  { intros Hin. destruct (wf_live _ _ Hwf _ Hin). congruence. }
  set (mm1 := get_file_opt (vm_file nv) (set_vmas (<[new := nv]> (vmas mm)) mm)).
  assert (Hd : forall q, q <> new -> deref mm1 q = deref mm q).
  { intros q Hq. unfold mm1, deref. destruct (vm_file nv); simpl; by rewrite lookup_total_insert_ne. }
  assert (Hdn : deref mm1 new = nv).
  { unfold mm1, deref. destruct (vm_file nv); simpl; by rewrite lookup_total_insert_eq. }
  assert (Hw1 : wf k mm1).
  { apply wf_file, wf_heap; [done|]. intros q Hq. rewrite lookup_insert_ne; [done|]. by intros ->. }
  assert (Hl1 : mmap mm1 = pre ++ post) by (unfold mm1; by destruct (vm_file nv)).
  assert (Hlk1 : links_at mm1 lk pre post) by (unfold mm1; by destruct (vm_file nv)).
  assert (Hsrt : sorted (deref mm1) 0 (pre ++ new :: post)).
  { pose proof (wf_sorted _ _ Hw1) as Hs. rewrite Hl1 in Hs. apply sorted_app in Hs as [S1 S2].
    apply sorted_app. split; [done|]. simpl. rewrite Hdn. split_and!; [|lia|done|].
    - unfold end_of. destruct (list.last pre) as [q|] eqn:E; [|lia].
      apply last_Some_elem_of in E. rewrite Hd; [by apply Hpre|]. intros ->. apply Hin.
      rewrite Hl. apply elem_of_app. by left.
    - eapply sorted_hd; [exact S2|]. intros q Hq. assert (q ∈ post).
      { destruct post; [done|]. simpl in Hq. injection Hq as ->. by left. }
      rewrite Hd; [by apply Hpost|]. intros ->. apply Hin. rewrite Hl. apply elem_of_app. by right. }
  assert (Hs1 : is_Some (vmas mm1 !! new)).
  { unfold mm1. destruct (vm_file nv); simpl; rewrite lookup_insert_eq; eauto. }
  destruct (vma_link_wf k mm1 new lk pre post Hw1 Hl1 Hlk1 Hs1) as (t & h & Heq & Hw);
    [by rewrite Hdn|done|].
  eexists. split; [exact Heq|]. match type of Hw with wf k ?m => set (mm' := m) in * end.
  assert (Hdd : forall q, deref mm' q = deref mm1 q) by done.
  assert (Hm' : mmap mm' = pre ++ new :: post) by done.
  assert (Hnin : new ∈ mmap mm') by (rewrite Hm'; set_solver). split; [|done].
  apply (absorb_mapped k mm mm' Hwf Hw addr last nv new []); rewrite ?Hdd, ?Hdn; try done.
  - intros p Hp Hne. rewrite Hdd, Hd by done. split; [|done]. rewrite Hl. rewrite Hm' in Hp. set_solver.
  - intros p Hp _. rewrite Hdd, Hd by (intros ->; done). split; [|done]. rewrite Hm'. rewrite Hl in Hp. set_solver.
  - by intros p ?%not_elem_of_nil.
  - intros x. split; [by left|]. intros [?|(p & ?%not_elem_of_nil & _)]; done.
  - by intros p ?%not_elem_of_nil.
  - by intros p x ?%not_elem_of_nil.
  - by left.
  - intros f. rewrite Hm', Hl. rewrite (proj2 (Nat.ltb_ge _ _)) by (rewrite !length_app; simpl; lia).
    simpl. unfold file_balance. rewrite Hm', Hl, !refs_app. simpl. rewrite Hdd, Hdn.
    assert (file_count mm' f = file_count mm f + (if decide (vm_file nv = Some f) then 1 else 0)) as ->.
    { rewrite <- file_count_get. unfold mm', mm1, file_count. by destruct (vm_file nv). }
    rewrite (refs_ext (deref mm') (deref mm) f pre), (refs_ext (deref mm') (deref mm) f post); [lia|..];
      intros p Hp; (rewrite Hdd, Hd; [done|]; intros ->; apply Hin; rewrite Hl; set_solver).
  - unfold mm', mm1, settings. simpl. by destruct (vm_file nv).
  - unfold mm', mm1, counters. simpl. by destruct (vm_file nv).
  - unfold mm', mm1. simpl. by destruct (vm_file nv).
Qed.
End LinkNew.

(** ** Clearing the range *)

Section Map.
Context `{KmallocFresh}.

(** One unmapping is enough: the second test of the loop finds the range free. *)
Lemma clear_old_maps_ok k mm addr len fuel :
  wf k mm -> valid_range addr len -> page_aligned len -> (1 <= fuel)%nat ->
  exists mm1 res, clear_old_maps fuel addr len mm = Some (mm1, res) /\
    (res = inl (- ENOMEM) /\ split_spec k mm mm1 /\ exhausted mm \/
     exists lk pre post, res = inr lk /\ unmapped k addr (addr + len) mm mm1 /\
       mmap mm1 = pre ++ post /\ links_at mm1 lk pre post /\
       (forall q, q ∈ pre -> vm_end (deref mm1 q) <= addr) /\
       (forall q, q ∈ post -> addr + len <= vm_start (deref mm1 q))).
Proof.
  intros Hwf Hv Hal Hfuel. destruct fuel as [|fuel]; [lia|]. clear Hfuel.
  pose proof Hv as (Hpa & Hge & Hpos & Hts). pose proof TASK_SIZE_u64.
  assert (Hlen : PAGE_ALIGN len = len) by (apply PAGE_ALIGN_id; [unfold is_u64; lia|done]).
  assert (Hlk : forall mm1 lk, wf k mm1 -> find_vma_links mm1 addr (addr + len) = Some lk ->
    exists pre post, mmap mm1 = pre ++ post /\ links_at mm1 lk pre post /\
       (forall q, q ∈ pre -> vm_end (deref mm1 q) <= addr) /\
       (forall q, q ∈ post -> addr + len <= vm_start (deref mm1 q))).
  { intros mm1 lk Hw Hf. eapply find_vma_links_Some; [apply Hw| |done]. apply (wf_tree _ _ Hw). }
  assert (Hst : forall f m, clear_old_maps f addr len m = match find_vma_links m addr (addr + len) with
    | Some lk => Some (m, inr lk)
    | None => match f with O => None | S f' => '(mm1, e) ← do_munmap addr len m;
        if negb (e =? 0) then Some (mm1, inl (- ENOMEM)) else clear_old_maps f' addr len mm1 end end).
  { intros f m. destruct f; simpl; rewrite (wrap_small (addr + len)) by (unfold is_u64; lia); done. }
  rewrite Hst. destruct (find_vma_links mm addr (addr + len)) as [lk|] eqn:Hf.
  - destruct (Hlk mm lk Hwf Hf) as (pre & post & Hl & ? & L1 & L2). eexists _, _. split; [done|]. right.
    exists lk, pre, post. split_and!; try done. apply unmapped_nothing; [done|].
    intros x Hx. apply pages_None. intros p Hp. rewrite Hl in Hp.
    apply elem_of_app in Hp as [Hp|Hp]; [apply L1 in Hp|apply L2 in Hp]; lia.
  - destruct (do_munmap_ok k mm addr len) as (mm1 & ret & -> & Hres); try done; [unfold is_u64; lia..|].
    simpl. destruct Hres as [(_ & _ & Hnv)|[_ [(-> & Hsp & Hex)|(-> & Hun)]]]; [done|simpl; eauto 10|].
    rewrite Hlen in Hun. simpl. rewrite Hst. pose proof (um_wf _ _ _ _ _ Hun) as Hw1.
    destruct (find_vma_links mm1 addr (addr + len)) as [lk|] eqn:Hf1.
    + destruct (Hlk mm1 lk Hw1 Hf1) as (pre & post & ? & ? & L1 & L2).
      eexists _, _. split; [done|]. right. exists lk, pre, post. done.
    + exfalso. apply find_vma_links_None in Hf1 as (p & Hp & ? & ?); [|apply (wf_tree _ _ Hw1)].
      pose proof (wf_bounds _ _ _ Hw1 Hp). set (x := Z.max addr (vm_start (deref mm1 p))).
      assert (Hpg : page_at mm1 x = Some (page_of (deref mm1 p) x)).
      { apply (page_at_iff k); [done|]. exists p. split; [done|]. unfold x. split; [lia|done]. }
      rewrite (um_pages _ _ _ _ _ Hun) in Hpg.
      rewrite (proj2 (Z.leb_le addr x)), (proj2 (Z.ltb_lt x _)) in Hpg by (unfold x; lia). done.
Qed.

(** ** [mmap_region] *)

Definition file_ok (file : option lego_file) : Prop :=
  match file with Some f => is_Some (lf_mmap f) | None => True end.

(** The area [mmap_region] sets up *)
Definition new_area (file : option lego_file) (addr len flags pgoff : Z) : vm_area :=
  mk_vma addr (addr + len) (vm_get_page_prot flags) flags
    (match file with Some f => lf_mmap f | None => None end) pgoff (lf_id <$> file).

(** The outcomes of mapping [nv] at [addr, last): out of memory, with at most the old
    mappings of the range gone; or mapped. *)
Inductive map_outcome (k addr last : Z) (nv : vm_area) (mm mm' : lego_mm) : bool -> Prop :=
| map_failed_split : split_spec k mm mm' -> exhausted mm ->
    map_outcome k addr last nv mm mm' false
| map_failed_cleared : unmapped k addr last mm mm' -> (exists m, kmalloc m = None) ->
    map_outcome k addr last nv mm mm' false
| map_done mm1 : unmapped k addr last mm mm1 -> mapped k addr last nv mm1 mm' ->
    map_outcome k addr last nv mm mm' true.

Lemma mmap_region_ok k mm file addr len flags pgoff :
  wf k mm -> valid_range addr len -> page_aligned len -> file_ok file -> is_u64 pgoff ->
  exists mm' r ok, mmap_region file addr len flags pgoff mm = Some (mm', r) /\
    map_outcome k addr (addr + len) (new_area file addr len flags pgoff) mm mm' ok /\
    r = (if ok then addr else err_ul ENOMEM).
Proof.
  intros Hwf Hv Hal Hfok Hu. set (nv := new_area file addr len flags pgoff).
  pose proof Hv as (Hpa & Hge & Hpos & Hts). pose proof TASK_SIZE_u64.
  assert (Hpe : page_aligned (addr + len)).
  { unfold page_aligned in *. by rewrite Zplus_mod, Hpa, Hal. }
  assert (Hnv : area_ok nv).
  { split_and!; [..|apply prot_get]; try done; simpl; destruct file as [f|]; simpl in *; try done;
      destruct Hfok as [? ->]; done. }
  unfold mmap_region.
  destruct (clear_old_maps_ok k mm addr len 1) as (mm1 & res & -> & Hc); [done..|]. simpl.
  destruct Hc as [(-> & Hsp & Hex)|(lk & pre & post & -> & Hun & Hl & Hlk & L1 & L2)].
  { eexists _, _, false. split; [done|]. split; [|done]. apply map_failed_split; eauto. }
  pose proof (um_wf _ _ _ _ _ Hun) as Hw1. rewrite (wrap_small (addr + len)) by (unfold is_u64; lia).
  destruct Hlk as (Hprev & Hrest). rewrite Hprev.
  destruct (vma_merge_ok k mm1 Hw1 pre post Hl addr (addr + len) nv) as (o & Hm & Ho); try done; [lia|].
  change (vm_flags nv) with flags in Hm. change (vm_file nv) with (lf_id <$> file) in Hm.
  change (vm_pgoff nv) with pgoff in Hm. rewrite Hm. simpl.
  destruct o as [[mm2 m]|].
  { destruct Ho as [Hmap [Hin _]]. eexists _, _, true. split; [done|]. split; [|done].
    eapply map_done; [done|]. by apply mapped_prot. }
  destruct (kmalloc mm1) as [new|] eqn:Hk.
  2:{ eexists _, _, false. split; [done|]. split; [|done]. apply map_failed_cleared; eauto. }
  assert (match file with
    | None => Some None
    | Some f => match lf_mmap f with Some o => Some (Some o) | None => None end
    end = Some (vm_ops nv)) as ->.
  { destruct file as [f|]; [|done]. simpl in *. by destruct Hfok as [? ->]. }
  simpl. destruct (link_new k mm1 Hw1 pre post lk Hl) with (nv := nv) (new := new)
    as (mm3 & Hlink & Hmap & Hin); try done; [simpl; lia|].
  change (vm_file nv) with (lf_id <$> file) in Hlink. unfold nv, new_area in Hlink. simpl in Hlink.
  simpl. rewrite Hlink. simpl.
  eexists _, _, true. split; [done|]. split; [|done]. eapply map_done; [done|]. by apply mapped_prot.
Qed.

(** ** [do_mmap] *)

Lemma IS_ERR_err_ul e : 0 < e <= MAX_ERRNO -> IS_ERR_VALUE (err_ul e) = true.
Proof.
  unfold IS_ERR_VALUE, err_ul, MAX_ERRNO. intros He. apply Z.leb_le.
  change (wrap (- (4095))) with (ULONG_MOD - 4095).
  unfold wrap. rewrite <- (Z_mod_plus_full (- e) 1), Z.mul_1_l.
  rewrite Z.mod_small; unfold ULONG_MOD; lia.
Qed.

(** An error return *)
Definition is_error (r : Z) : Prop := IS_ERR_VALUE r = true /\ is_u64 r.

Lemma is_error_err_ul e : 0 < e <= MAX_ERRNO -> is_error (err_ul e).
Proof. intros He. split; [by apply IS_ERR_err_ul|apply wrap_range]. Qed.

Lemma is_error_to_long r : is_error r -> to_long r < 0.
Proof.
  intros [He%Z.leb_le Hu]. change (wrap (- MAX_ERRNO)) with (ULONG_MOD - 4095) in He.
  unfold to_long, is_u64, ULONG_MOD in *. destruct (Z.ltb_spec r (2 ^ 63)); lia.
Qed.

(** The address chosen for [len] bytes, page-aligned: an error, or a valid range that
    is the requested one with [MAP_FIXED] and a free one without. *)
Lemma choose_address k mm addr len pgoff flags :
  wf k mm -> layout_ok mm -> is_u64 addr -> 0 < len -> is_u64 len -> page_aligned len ->
  exists r, get_unmapped_area mm addr len pgoff flags = Some r /\
    (r mod PAGE_SIZE <> 0 /\ is_error r \/
     r mod PAGE_SIZE = 0 /\ valid_range r len /\
       (has flags MAP_FIXED = true -> r = addr) /\
       (has flags MAP_FIXED = false -> free_range mm r len)).
Proof.
  intros Hwf Hlay Hua Hpos Hul Hal. destruct (Z.le_gt_cases len TASK_SIZE) as [Hle|Hgt].
  2:{ unfold get_unmapped_area. rewrite (proj2 (Z.ltb_lt _ _)) by lia. eexists. split; [done|].
      left. split; [by apply err_ul_offset|by apply is_error_err_ul]. }
  destruct (has flags MAP_FIXED) eqn:Hf.
  - destruct (get_unmapped_area_fixed k mm Hwf Hlay len) with (addr := addr) (pgoff := pgoff) (flags := flags)
      as (r & -> & Hr); try done.
    eexists. split; [done|]. destruct Hr as [[He Hu]|(-> & Hpa & Hr)].
    + left. split; [by apply err_not_aligned|]. done.
    + right. split_and!; try done. destruct Hua. done.
  - destruct (get_unmapped_area_ok k mm Hwf Hlay len) with (addr := addr) (pgoff := pgoff) (flags := flags)
      as (r & -> & Hr); try done.
    eexists. split; [done|]. destruct Hr as [(-> & _)|(Hpa & Hr0 & Hr1 & Hfree)].
    + left. split; [by apply err_ul_offset|by apply is_error_err_ul].
    + right. split_and!; try done.
Qed.

Lemma shiftr_u64 x : is_u64 x -> is_u64 (Z.shiftr x PAGE_SHIFT).
Proof.
  unfold is_u64. intros Hx. rewrite shiftr_page, PAGE_SIZE_eq. split; [apply Z.div_pos; lia|].
  apply Z.div_lt_upper_bound; lia.
Qed.

Lemma round_hint_u64 addr : is_u64 addr -> is_u64 (round_hint_to_min addr).
Proof.
  intros Hu. unfold round_hint_to_min. rewrite PAGE_MASK_round by done.
  case_match; [done|]. unfold is_u64 in *. rewrite PAGE_SIZE_eq in *.
  pose proof (Z.mod_pos_bound addr 4096). pose proof (Z.mod_le addr 4096). lia.
Qed.

(** The flags of the mapping that a request asks for *)
Definition requested_flags (file : option lego_file) (prot flags : Z) (mm : lego_mm) : Z :=
  Z.lor (Z.lor (Z.lor (calc_vm_prot_bits prot) (calc_vm_flag_bits flags)) (def_flags mm))
    (if Z.land flags MAP_TYPE =? MAP_SHARED
     then match file with Some _ => Z.lor VM_SHARED VM_MAYSHARE | None => VM_SHARED end else 0).

(** The mapping that [do_mmap] has made at [r] *)
Record mmap_done (k : Z) (file : option lego_file) (addr len prot flags pgoff : Z)
    (mm mm' : lego_mm) (r : Z) : Prop := {
  md_range : valid_range r len;
  md_fixed : has flags MAP_FIXED = true -> r = addr;
  md_free : has flags MAP_FIXED = false -> free_range mm r len;
  md_map : exists pgoff',
    map_outcome k r (r + len) (new_area file r len (requested_flags file prot flags mm) pgoff') mm mm' true /\
    (file <> None -> pgoff' = pgoff)
}.

Ltac mmap_error := split; [first [done | by apply is_error_err_ul]|by left].

Lemma do_mmap_ok k mm file addr len prot flags pgoff :
  wf k mm -> layout_ok mm -> is_u64 addr -> is_u64 len -> is_u64 pgoff ->
  exists mm' r, do_mmap file addr len prot flags 0 pgoff mm = Some (mm', r) /\
    (is_error r /\
       (mm' = mm \/ exists s nv, map_outcome k s (s + PAGE_ALIGN len) nv mm mm' false /\
          (has flags MAP_FIXED = true -> s = addr) /\
          (has flags MAP_FIXED = false -> free_range mm s (PAGE_ALIGN len))) \/
     mmap_done k file addr (PAGE_ALIGN len) prot flags pgoff mm mm' r).
Proof.
  intros Hwf Hlay Hua Hul Hup. unfold do_mmap.
  destruct (Z.eqb_spec len 0); [eexists _, _; split; [done|]; left; mmap_error|].
  destruct (PAGE_ALIGN_u64 len) as [Hu Hpa]. set (L := PAGE_ALIGN len) in *.
  destruct (Z.eqb_spec L 0); [eexists _, _; split; [done|]; left; mmap_error|].
  destruct (_ <? pgoff); [eexists _, _; split; [done|]; left; mmap_error|].
  set (a0 := if has flags MAP_FIXED then addr else round_hint_to_min addr).
  destruct (choose_address k mm a0 L pgoff flags) as (r & -> & Hr); try done.
  { unfold a0. case_match; [done|by apply round_hint_u64]. }
  { unfold is_u64 in Hu. lia. }
  simpl. rewrite offset_in_page_mod.
  destruct Hr as [(Hm & He)|(Hm & Hv & Hfix & Hfree)].
  { rewrite (proj2 (Z.eqb_neq _ _) Hm). simpl. eexists _, _. split; [done|]. left. mmap_error. }
  rewrite Hm. simpl. set (vf := Z.lor 0 _).
  assert (Hu_r : is_u64 r) by (destruct Hv as (_ & ? & ? & ?); pose proof TASK_SIZE_u64; unfold is_u64; lia).
  (* the call of [mmap_region], however it is reached *)
  assert (Hreg : forall w pg, w = requested_flags file prot flags mm -> file_ok file -> is_u64 pg -> (file <> None -> pg = pgoff) ->
    exists mm' r', mmap_region file r L w pg mm = Some (mm', r') /\
      (is_error r' /\ (mm' = mm \/ exists s nv, map_outcome k s (s + L) nv mm mm' false /\
          (has flags MAP_FIXED = true -> s = addr) /\ (has flags MAP_FIXED = false -> free_range mm s L)) \/
       mmap_done k file addr L prot flags pgoff mm mm' r')).
  { intros w pg -> Hfk Hpg Hfp.
    destruct (mmap_region_ok k mm file r L (requested_flags file prot flags mm) pg) as (mm' & r' & ok & -> & Ho & ->); try done.
    assert (Hra : has flags MAP_FIXED = true -> r = addr).
    { intros Hx. rewrite (Hfix Hx). unfold a0. by rewrite Hx. }
    destruct ok; eexists _, _; (split; [done|]); [right|left; split; [by apply is_error_err_ul|right; eauto 10]].
    split; [done|done|done|].
    by exists pg. }
  assert (Hshift : is_u64 (Z.shiftr r PAGE_SHIFT)) by (by apply shiftr_u64).
  destruct file as [f|].
  - destruct ((Z.land flags MAP_TYPE =? MAP_SHARED) || _) eqn:Hty;
      [|eexists _, _; split; [done|]; left; mmap_error].
    destruct (lf_mmap f) as [o|] eqn:Hlf; [|eexists _, _; split; [done|]; left; mmap_error].
    destruct (has vf _); [eexists _, _; split; [done|]; left; mmap_error|].
    assert (file_ok (Some f)) by (simpl; rewrite Hlf; eauto).
    apply Hreg; [|done|done|done]. unfold requested_flags, vf. rewrite Z.lor_0_l. destruct (_ =? MAP_SHARED); [done|by rewrite Z.lor_0_r].
  - destruct (Z.land flags MAP_TYPE =? MAP_SHARED) eqn:Hty.
    { case_match; [eexists _, _; split; [done|]; left; mmap_error|]. apply Hreg; try done. unfold requested_flags, vf. by rewrite Z.lor_0_l, Hty. }
    case_match; [|eexists _, _; split; [done|]; left; mmap_error]. apply Hreg; try done.
    unfold requested_flags, vf. by rewrite Z.lor_0_l, Hty, Z.lor_0_r.
Qed.

(** A private anonymous request succeeds whenever there is room for it. *)
Lemma do_mmap_succeeds k mm addr len prot flags s :
  wf k mm -> layout_ok mm -> is_u64 addr -> 0 < len <= TASK_SIZE ->
  has flags MAP_FIXED = false -> Z.land flags MAP_TYPE = MAP_PRIVATE ->
  (forall m, is_Some (kmalloc m)) -> map_count mm < sysctl_max_map_count ->
  free_range mm s (PAGE_ALIGN len) -> PAGE_SIZE <= s -> s + PAGE_ALIGN len <= mmap_base mm ->
  exists mm' r, do_mmap None addr len prot flags 0 0 mm = Some (mm', r) /\
    mmap_done k None addr (PAGE_ALIGN len) prot flags 0 mm mm' r.
Proof.
  intros Hwf Hlay Hua Hlen Hfix Hty Hk Hmc Hfree Hs1 Hs2. pose proof TASK_SIZE_u64.
  destruct (do_mmap_ok k mm None addr len prot flags 0) as (mm' & r & Heq & Hres); try done;
    [unfold is_u64; lia|].
  exists mm', r. split; [done|]. destruct Hres as [[He _]|]; [exfalso|done].
  unfold do_mmap in Heq. rewrite Hfix, Hty in Heq. destruct (PAGE_ALIGN_u64 len) as [Hu Hpa].
  destruct (PAGE_ALIGN_bounds len) as [[Hge _] _]; [lia| |].
  { rewrite PAGE_SIZE_eq. assert (TASK_SIZE < ULONG_MOD - 4095) by done. lia. }
  set (L := PAGE_ALIGN len) in *.
  rewrite (proj2 (Z.eqb_neq len 0)), (proj2 (Z.eqb_neq L 0)) in Heq by lia.
  rewrite Z.add_0_l, (wrap_small (Z.shiftr L _)), (proj2 (Z.ltb_ge _ 0)) in Heq
    by (apply shiftr_u64 in Hu; apply Hu || done).
  destruct (get_unmapped_area_ok k mm Hwf Hlay L) with (addr := round_hint_to_min addr) (pgoff := 0) (flags := flags)
    as (r' & Hr & Hcase); try done; [destruct Hlay as (_ & [? ?] & _); rewrite PAGE_SIZE_eq in Hs1; lia|].
  rewrite Hr in Heq. simpl in Heq. destruct Hcase as [(_ & Hfull & _)|(Ha & Hr0 & Hr1 & Hr2)].
  { by apply (Hfull s). }
  rewrite offset_in_page_mod, Ha in Heq. simpl in Heq.
  match type of Heq with mmap_region None r' L ?fl ?pg mm = _ =>
    destruct (mmap_region_ok k mm None r' L fl pg) as (mm1 & r1 & ok & Heq1 & Ho & ->) end; try done.
  { unfold valid_range. lia || (split; [done|lia]). }
  { apply shiftr_u64. unfold is_u64. lia. }
  rewrite Heq1 in Heq. injection Heq as <- <-. destruct ok.
  - destruct He as [He _]. apply Z.leb_le in He. change (wrap (- MAX_ERRNO)) with (ULONG_MOD - 4095) in He.
    assert (TASK_SIZE < ULONG_MOD - 4095) by done. lia.
  - inversion Ho as [? [[m Hm]|Hm]|? [m Hm]| ]; subst; [destruct (Hk m); congruence|lia|destruct (Hk m); congruence].
Qed.

(** ** [do_brk] *)

Lemma wf_counters k mm tv dv ev sv : wf k mm -> wf k (set_counters tv dv ev sv mm).
Proof. intros []. by split. Qed.

Lemma to_int_offset z : wrap (to_int z) mod PAGE_SIZE = z mod PAGE_SIZE.
Proof.
  rewrite PAGE_SIZE_eq. change 4096 with (2 ^ 12). rewrite wrap_mod_pow2 by lia. unfold to_int.
  assert (Hm : (z mod 2 ^ 32) mod 2 ^ 12 = z mod 2 ^ 12).
  { change (2 ^ 32) with (2 ^ 12 * 2 ^ 20). rewrite Z.rem_mul_r by lia.
    rewrite Z.mul_comm, Z_mod_plus_full. by rewrite Z.mod_mod. }
  case_match; [done|]. rewrite <- Hm. change (2 ^ 32) with (2 ^ 20 * 2 ^ 12) at 2.
  rewrite <- (Z_mod_plus_full _ (2 ^ 20)). f_equal. lia.
Qed.

Lemma to_int_err r : IS_ERR_VALUE r = true -> is_u64 r -> to_int r < 0.
Proof.
  unfold IS_ERR_VALUE, is_u64, to_int. intros He Hu. zbool.
  change (wrap (- MAX_ERRNO)) with 18446744073709547521 in He.
  change ULONG_MOD with 18446744073709551616 in Hu.
  change (2 ^ 32) with 4294967296. change (2 ^ 31) with 2147483648.
  pose proof (Z.div_mod r 4294967296). pose proof (Z.mod_pos_bound r 4294967296).
  case_match; zbool; lia.
Qed.

(** The area [do_brk] sets up *)
Definition brk_area (mm : lego_mm) (addr len : Z) : vm_area :=
  mk_vma addr (addr + len) (vm_get_page_prot (Z.lor (Z.lor VM_READ VM_WRITE) (def_flags mm)))
    (Z.lor (Z.lor VM_READ VM_WRITE) (def_flags mm)) None (Z.shiftr addr PAGE_SHIFT) None.

Definition brk_account (len : Z) (mm : lego_mm) : lego_mm :=
  set_counters (total_vm mm +u Z.shiftr len PAGE_SHIFT) (data_vm mm +u Z.shiftr len PAGE_SHIFT)
    (exec_vm mm) (stack_vm mm) mm.

(** After the checks: the anonymous area is mapped and accounted for. *)
Lemma brk_map_ok k mm addr len :
  wf k mm -> valid_range addr len -> page_aligned len ->
  exists mm' ret ok,
    ('(mm1, res) ← clear_old_maps 1 addr len mm;
     match res with
     | inl e => Some (mm1, e)
     | inr lk =>
         merged ← vma_merge (lk_prev lk) addr (addr +u len) (Z.lor (Z.lor VM_READ VM_WRITE) (def_flags mm))
                    None (Z.shiftr addr PAGE_SHIFT) mm1;
         match merged with
         | Some (mm2, _) => Some (brk_account len mm2, 0)
         | None =>
             match kmalloc mm1 with
             | None => Some (mm1, - ENOMEM)
             | Some vma =>
                 mm2 ← vma_link vma lk (set_vmas (<[vma :=
                   mk_vma addr (addr +u len) (vm_get_page_prot (Z.lor (Z.lor VM_READ VM_WRITE) (def_flags mm)))
                     (Z.lor (Z.lor VM_READ VM_WRITE) (def_flags mm)) None (Z.shiftr addr PAGE_SHIFT) None]>
                   (vmas mm1)) mm1);
                 Some (brk_account len mm2, 0)
             end
         end
     end) = Some (mm', ret) /\
    (ok = true /\ ret = 0 /\ (exists mm2, mm' = brk_account len mm2 /\
       map_outcome k addr (addr + len) (brk_area mm addr len) mm mm2 true) \/
     ok = false /\ ret = - ENOMEM /\ map_outcome k addr (addr + len) (brk_area mm addr len) mm mm' false).
Proof.
  intros Hwf Hv Hal. pose proof Hv as (Hpa & Hge & Hpos & Hts). pose proof TASK_SIZE_u64.
  set (nv := brk_area mm addr len).
  assert (Hpe : page_aligned (addr + len)).
  { unfold page_aligned in *. by rewrite Zplus_mod, Hpa, Hal. }
  assert (Hu : is_u64 (vm_pgoff nv)) by (apply shiftr_u64; unfold is_u64; lia).
  destruct (clear_old_maps_ok k mm addr len 1) as (mm1 & res & -> & Hc); [done..|]. simpl.
  destruct Hc as [(-> & Hsp & Hex)|(lk & pre & post & -> & Hun & Hl & Hlk & L1 & L2)].
  { eexists _, _, false. split; [done|]. right. split_and!; [done..|]. apply map_failed_split; eauto. }
  pose proof (um_wf _ _ _ _ _ Hun) as Hw1. rewrite (wrap_small (addr + len)) by (unfold is_u64; lia).
  destruct Hlk as (Hprev & Hrest). rewrite Hprev.
  destruct (vma_merge_ok k mm1 Hw1 pre post Hl addr (addr + len) nv) as (o & Hm & Ho); try done; [lia|].
  simpl in Hm. rewrite Hm. simpl. destruct o as [[mm2 m]|].
  { destruct Ho as [Hmap _]. eexists _, _, true. split; [done|]. left. split_and!; [done..|].
    eexists. split; [done|]. by eapply map_done. }
  destruct (kmalloc mm1) as [new|] eqn:Hk.
  2:{ eexists _, _, false. split; [done|]. right. split_and!; [done..|]. apply map_failed_cleared; eauto. }
  destruct (link_new k mm1 Hw1 pre post lk Hl) with (nv := nv) (new := new)
    as (mm3 & Hlink & Hmap & Hin); try done; [simpl; lia|split_and!; [..|apply prot_get]; done|].
  simpl in Hlink. unfold nv, brk_area in Hlink. rewrite Hlink. simpl.
  eexists _, _, true. split; [done|]. left. split_and!; [done..|]. eexists. split; [done|]. by eapply map_done.
Qed.

Lemma do_brk_ok k mm addr request :
  wf k mm -> layout_ok mm -> is_u64 addr -> is_u64 request ->
  exists mm' ret, do_brk addr request mm = Some (mm', ret) /\
    (request = 0 /\ ret = 0 /\ mm' = mm \/
     ret < 0 /\ (mm' = mm \/ valid_range addr (PAGE_ALIGN request) /\
       map_outcome k addr (addr + PAGE_ALIGN request) (brk_area mm addr (PAGE_ALIGN request)) mm mm' false) \/
     ret = 0 /\ valid_range addr (PAGE_ALIGN request) /\ exists mm2,
       mm' = brk_account (PAGE_ALIGN request) mm2 /\
       map_outcome k addr (addr + PAGE_ALIGN request) (brk_area mm addr (PAGE_ALIGN request)) mm mm2 true).
Proof.
  intros Hwf Hlay Hua Hur. unfold do_brk. destruct (PAGE_ALIGN_u64 request) as [Hu Hpa].
  destruct (Z.ltb_spec (PAGE_ALIGN request) request) as [Hlt|Hge].
  { eexists _, _. split; [done|]. right. left. split; [done|by left]. }
  destruct (Z.eqb_spec (PAGE_ALIGN request) 0) as [Hz|Hnz].
  { eexists _, _. split; [done|]. left. unfold is_u64 in *. split_and!; [lia|done|done]. }
  destruct (choose_address k mm addr (PAGE_ALIGN request) 0 MAP_FIXED) as (r & Hr & Hres); try done.
  { unfold is_u64 in Hu. lia. }
  rewrite Hr. simpl. rewrite offset_in_page_mod, to_int_offset.
  destruct Hres as [(Hm & He)|(Hm & Hv & Hfix & _)].
  { rewrite (proj2 (Z.eqb_neq _ _) Hm). simpl. eexists _, _. split; [done|]. right. left.
    split; [by apply to_int_err; apply He|by left]. }
  rewrite Hm. simpl. assert (r = addr) as -> by (by apply Hfix).
  destruct (brk_map_ok k mm addr (PAGE_ALIGN request) Hwf Hv Hpa) as (mm' & ret & ok & Heq & Hcase).
  exists mm', ret. split; [exact Heq|].
  destruct Hcase as [(-> & -> & Ho)|(-> & -> & Ho)]; right; [right|left; split; [done|by right]].
  done.
Qed.

(** ** The brk request *)

Lemma find_vma_intersection_None k mm s e :
  wf k mm -> find_vma_intersection mm s e = None ->
  forall x, s <= x < e -> page_at mm x = None.
Proof.
  intros Hwf. unfold find_vma_intersection. rewrite (find_vma_ok k) by done.
  destruct (first_above mm s) as [p|] eqn:E.
  - apply first_above_Some in E as (pre & post & Hl & He & Hpre).
    destruct (Z.leb_spec e (vm_start (deref mm p))); [|done]. intros _ x Hx.
    apply pages_None. intros q Hq Hc. pose proof (wf_sorted _ _ Hwf) as Hs. rewrite Hl in *.
    destruct (sorted_split _ _ _ _ _ Hs) as [_ Hpost].
    apply elem_of_app in Hq as [Hq|[->|Hq]%elem_of_cons]; [apply Hpre in Hq; lia|lia|].
    apply Hpost in Hq. pose proof (sorted_bounds _ _ _ p Hs) as Hb.
    destruct Hb as (? & ? & ?); [set_solver|lia].
  - intros _ x Hx. pose proof (first_above_None _ _ E) as Hall.
    apply pages_None. intros q Hq. apply Hall in Hq. lia.
Qed.

Lemma map_outcome_backing k addr last nv mm mm' x :
  map_outcome k addr last nv mm mm' true ->
  backing_at mm' x = if in_range addr last x then Some (backing_of nv x) else backing_at mm x.
Proof.
  inversion 1 as [| |mm1 Hun Hmap]; subst. rewrite (mp_backing _ _ _ _ _ _ Hmap).
  destruct (in_range addr last x) eqn:E; [done|]. unfold backing_at.
  rewrite (um_pages _ _ _ _ _ Hun). unfold in_range in E. by rewrite E.
Qed.

(** The flags too, unless a neighbour that the mapping may be joined to has others. *)
Lemma map_outcome_pages k addr last nv mm mm' :
  map_outcome k addr last nv mm mm' true ->
  (forall x g, x = addr - 1 \/ x = last -> page_at mm x = Some g -> bk_file (pg_backing g) = vm_file nv -> pg_flags g = vm_flags nv) ->
  forall x, page_at mm' x = if in_range addr last x then Some (page_of nv x) else page_at mm x.
Proof.
  inversion 1 as [| |mm1 Hun Hmap]; subst. intros Hsame x. pose proof (um_wf _ _ _ _ _ Hun) as Hw1.
  assert (Hout : forall y, ~ addr <= y < last -> page_at mm1 y = page_at mm y).
  { intros y Hy. rewrite (um_pages _ _ _ _ _ Hun). fold (in_range addr last y).
    destruct (in_range addr last y) eqn:E; [|done]. by apply in_range_spec in E. }
  rewrite (mp_flags _ _ _ _ _ _ Hmap).
  - destruct (in_range addr last x) eqn:E; [done|]. apply Hout. intros Hx%in_range_spec. congruence.
  - intros p Hp Hadj Hf. destruct (wf_bounds _ _ p Hw1 Hp) as (B1 & B2 & _). set (v := deref mm1 p) in *.
    assert (Hpg : forall y, vm_start v <= y < vm_end v -> ~ addr <= y < last -> page_at mm y = Some (page_of v y)).
    { intros y Hy Hn. rewrite <- Hout by done. apply (page_at_iff k); [done|]. by exists p. }
    destruct Hadj as [Ha|Ha].
    + apply (Hsame (addr - 1) (page_of v (addr - 1))); [by left|apply Hpg; lia|done].
    + apply (Hsame last (page_of v last)); [by right|apply Hpg; lia|done].
Qed.

Lemma map_outcome_wf k addr last nv mm mm' ok :
  map_outcome k addr last nv mm mm' ok -> wf k mm' /\ settings mm' = settings mm.
Proof.
  inversion 1 as [[]|[]|mm1 [] []]; subst; split; done || congruence.
Qed.

(** A failed mapping of a free range changes no page. *)
Lemma map_failed_pages k addr last nv mm mm' :
  map_outcome k addr last nv mm mm' false -> (forall x, addr <= x < last -> page_at mm x = None) ->
  forall x, page_at mm' x = page_at mm x.
Proof.
  inversion 1 as [[]|[]|]; subst; [done|]. intros Hfree x. rewrite um_pages.
  destruct (Z.leb_spec addr x), (Z.ltb_spec x last); simpl; try done. by rewrite Hfree.
Qed.

Lemma map_failed_range k addr last nv mm mm' x :
  map_outcome k addr last nv mm mm' false ->
  page_at mm' x = page_at mm x \/ addr <= x < last /\ page_at mm' x = None.
Proof.
  inversion 1 as [[]|[]|]; subst; [by left|]. rewrite um_pages.
  destruct (Z.leb_spec addr x), (Z.ltb_spec x last); simpl; auto.
Qed.

Lemma brk_settings mm mm' : settings mm' = settings mm -> brk mm' = brk mm.
Proof. by intros [= ? ? ? ? ?]. Qed.

Definition anon_backing : backing := mk_backing None 0.

(** The heap [oldbrk, newbrk) has grown, or [newbrk, oldbrk) has gone. *)
Definition brk_moved (mm mm' : lego_mm) (oldbrk newbrk : Z) : Prop :=
  forall x, backing_at mm' x =
    if in_range oldbrk newbrk x then Some anon_backing
    else if in_range newbrk oldbrk x then None else backing_at mm x.

(** A valid range from [oldbrk] of the wrapped length ends at [newbrk]. *)
Lemma grown_range newbrk oldbrk :
  0 <= newbrk < ULONG_MOD -> 0 <= oldbrk < ULONG_MOD -> page_aligned newbrk -> page_aligned oldbrk ->
  valid_range oldbrk (PAGE_ALIGN (newbrk -u oldbrk)) ->
  PAGE_ALIGN (newbrk -u oldbrk) = newbrk - oldbrk /\ oldbrk < newbrk <= TASK_SIZE.
Proof.
  intros Hn Ho Hpn Hpo (_ & _ & Hv1 & Hv2).
  assert (Hal : PAGE_ALIGN (newbrk -u oldbrk) = newbrk -u oldbrk).
  { apply PAGE_ALIGN_id; [apply wrap_range|]. unfold page_aligned in *. rewrite PAGE_SIZE_eq in *.
    change 4096 with (2 ^ 12) in *. rewrite wrap_mod_pow2 by lia. by rewrite Zminus_mod, Hpn, Hpo. }
  rewrite Hal in *. unfold wrap in *. destruct (Z.le_gt_cases oldbrk newbrk).
  - rewrite Z.mod_small in * by lia. lia.
  - exfalso. assert ((newbrk - oldbrk) mod ULONG_MOD = newbrk - oldbrk + ULONG_MOD) as Hm.
    { rewrite <- (Z_mod_plus_full _ 1), Z.mul_1_l. apply Z.mod_small. lia. }
    rewrite Hm in *. pose proof TASK_SIZE_u64. lia.
Qed.

Lemma brk_body_ok k mm brk0 :
  wf k mm -> layout_ok mm -> is_u64 brk0 -> 0 <= brk mm <= TASK_SIZE ->
  exists mm', brk_body brk0 mm = Some mm' /\ wf k mm' /\
    (brk mm' = brk mm /\ (forall x, page_at mm' x = page_at mm x) \/
     brk mm' = brk0 /\ start_brk mm <= brk0 /\
       brk_moved mm mm' (PAGE_ALIGN (brk mm)) (PAGE_ALIGN brk0)).
Proof.
  intros Hwf Hlay Hu Hb. unfold brk_body.
  set (newbrk := PAGE_ALIGN brk0). set (oldbrk := PAGE_ALIGN (brk mm)).
  destruct (Z.ltb_spec brk0 (start_brk mm)) as [Hlo|Hlo].
  { eexists. split; [done|]. split; [done|]. by left. }
  destruct (PAGE_ALIGN_u64 brk0) as [Hun Hpn]. destruct (PAGE_ALIGN_u64 (brk mm)) as [Huo Hpo].
  fold newbrk in Hun, Hpn. fold oldbrk in Huo, Hpo. unfold is_u64 in Hun, Huo.
  set (finish := fun m => if oldbrk <? newbrk
    then log_pgt (Mm_populate oldbrk (newbrk -u oldbrk)) (set_brk brk0 m) else set_brk brk0 m).
  assert (Hfin : forall m, wf k m -> wf k (finish m) /\ brk (finish m) = brk0 /\
    forall x, page_at (finish m) x = page_at m x).
  { intros m []. unfold finish. case_match; (split; [by split|done]). }
  destruct (Z.eqb_spec oldbrk newbrk) as [He|He].
  { exists (finish mm). split; [done|]. destruct (Hfin mm Hwf) as (? & ? & Hp). split; [done|]. right.
    split_and!; [done..|]. intros x. unfold backing_at. rewrite Hp.
    by rewrite !in_range_empty by lia. }
  destruct (Z.leb_spec brk0 (brk mm)) as [Hle|Hgt].
  - assert (Hlt : newbrk < oldbrk).
    { pose proof TASK_SIZE_u64. change TASK_SIZE with 140737488351232 in *.
      assert (newbrk <= oldbrk); [|lia]. unfold newbrk, oldbrk.
      rewrite !PAGE_ALIGN_small by (rewrite ?PAGE_SIZE_eq; change ULONG_MOD with 18446744073709551616; unfold is_u64 in Hu; lia).
      apply Z.mul_le_mono_nonneg_r; [done|]. apply Z.div_le_mono; [done|lia]. }
    rewrite (wrap_small (oldbrk - newbrk)) by (unfold is_u64; lia).
    destruct (do_munmap_ok k mm newbrk (oldbrk - newbrk)) as (mm1 & ret & -> & Hr);
      [done|unfold is_u64; lia..|]. simpl.
    assert (Hal : PAGE_ALIGN (oldbrk - newbrk) = oldbrk - newbrk).
    { apply PAGE_ALIGN_id; [unfold is_u64; lia|]. unfold page_aligned in *. by rewrite Zminus_mod, Hpn, Hpo. }
    destruct Hr as [(-> & -> & _)|[_ [(-> & [] & _)|(-> & Hum)]]]; simpl.
    + eexists. split; [done|]. split; [done|]. by left.
    + eexists. split; [done|]. split; [done|]. left. split; [by apply brk_settings|done].
    + exists (finish mm1). split; [done|]. rewrite Hal in Hum. pose proof (um_wf _ _ _ _ _ Hum) as Hw1.
      destruct (Hfin mm1 Hw1) as (? & ? & Hp). split; [done|]. right. split_and!; [done..|].
      intros x. unfold backing_at. rewrite Hp, (um_pages _ _ _ _ _ Hum).
      rewrite (in_range_empty oldbrk) by lia. unfold in_range.
      replace (newbrk + (oldbrk - newbrk)) with oldbrk by lia. by case_match.
  - destruct (find_vma_intersection mm oldbrk _) eqn:Hf.
    { eexists. split; [done|]. split; [done|]. by left. }
    destruct (do_brk_ok k mm oldbrk (newbrk -u oldbrk)) as (mm1 & ret & -> & Hr);
      [done|done|unfold is_u64; lia|apply wrap_range|]. simpl.
    destruct Hr as [(Hz & -> & ->)|[(Hneg & Hr)|(-> & Hv & mm2 & -> & Ho)]].
    + exfalso. assert (newbrk = oldbrk); [|lia].
      assert (Hw : (newbrk - oldbrk) mod ULONG_MOD = 0) by done.
      apply Z.mod_divide in Hw as [c Hc]; [|done].
      assert (c = 0); [|subst c; lia]. unfold ULONG_MOD in *. lia.
    + rewrite (proj2 (Z.ltb_lt ret 0)) by done. eexists. split; [done|].
      destruct Hr as [->|[Hv Ho]]; [split; [done|by left]|].
      destruct (map_outcome_wf _ _ _ _ _ _ _ Ho) as [Hw Hs]. split; [done|]. left.
      split; [by apply brk_settings|]. eapply map_failed_pages; [exact Ho|]. intros x Hx.
      eapply find_vma_intersection_None; [done|exact Hf|].
      destruct (grown_range newbrk oldbrk) as [Hd Ht]; [done..|]. rewrite Hd in Hx.
      rewrite wrap_small; unfold is_u64; rewrite PAGE_SIZE_eq; pose proof TASK_SIZE_u64;
        change TASK_SIZE with 140737488351232 in *; change ULONG_MOD with 18446744073709551616 in *; lia.
    + exists (finish (brk_account (PAGE_ALIGN (newbrk -u oldbrk)) mm2)). split; [done|].
      destruct (map_outcome_wf _ _ _ _ _ _ _ Ho) as [Hw _].
      destruct (Hfin (brk_account (PAGE_ALIGN (newbrk -u oldbrk)) mm2)) as (? & ? & Hp);
        [by apply wf_counters|]. split; [done|]. right. split_and!; [done..|].
      destruct (grown_range newbrk oldbrk) as [Hd Ht]; [done..|].
      intros x. unfold backing_at. rewrite Hp. change (page_at (brk_account _ mm2) x) with (page_at mm2 x).
      pose proof (map_outcome_backing _ _ _ _ _ _ x Ho) as Hbk. rewrite Hd in Hbk. unfold backing_at in Hbk.
      rewrite Hbk. replace (oldbrk + (newbrk - oldbrk)) with newbrk by lia.
      rewrite (in_range_empty newbrk) by lia. done.
Qed.
End Map.
