(* ===== verification/VmaRemap.v ===== *)
(** * Memory manager, virtual memory areas: remapping

    [mremap]: shrinking or growing a mapping in place, moving it to another address. *)

From S2P Require Import Prelude RbTree VmaModel VmaTree VmaInv VmaAdjust VmaSpec.
From S2P Require Import VmaUnmap VmaGap VmaMerge VmaMap.

(** What backs the address [d] bytes after one backed by [b], in the same area *)
Definition shift_backing (b : backing) (d : Z) : backing :=
  mk_backing (bk_file b)
    (match bk_file b with Some _ => bk_off b +u Z.shiftr d PAGE_SHIFT | None => 0 end).

(** The mapping of [old, old + old_len) has been moved to [new, new + new_len): the new
    range continues the backing of the old one, every other page keeps its backing, and
    the old pages are gone unless the unmapping ran out of memory or of areas. *)
Record moved_to `{Kmalloc} (k : Z) (mm mm' : lego_mm) (old old_len new new_len : Z) : Prop := {
  mv_source : exists b,
    (forall d, 0 <= d < Z.min old_len new_len -> backing_at mm (old + d) = Some (shift_backing b d)) /\
    (forall x, new <= x < new + new_len -> backing_at mm' x = Some (shift_backing b (x - new)));
  mv_rest : forall x, ~ new <= x < new + new_len -> ~ old <= x < old + old_len ->
    backing_at mm' x = backing_at mm x;
  mv_old : (forall x, ~ new <= x < new + new_len -> old <= x < old + old_len -> backing_at mm' x = None) \/
    exists mm2, exhausted mm2 /\ forall x, page_at mm2 x = page_at mm' x
}.

(** ** Arithmetic *)

Lemma wrap_close x y n : 0 < n -> - n < x - y < n -> x mod n = y mod n -> x = y.
Proof.
  intros Hn Hb Hm. pose proof (Z.div_mod x n). pose proof (Z.div_mod y n).
  assert (Hq : x - y = n * (x / n - y / n)) by lia. revert Hq. generalize (x / n - y / n). intros q Hq.
  destruct (Z.lt_trichotomy q 0) as [?|[->|?]]; nia.
Qed.

(** Two places of an area that has the offset of [vs] at [vs] and that of [old] at
    [addr] are the same. *)
Lemma linear_inj P s vs pv old addr :
  0 <= s <= vs -> s <= addr -> vs <= old -> vs <= TASK_SIZE -> old <= TASK_SIZE -> addr <= TASK_SIZE ->
  page_aligned s -> page_aligned vs -> page_aligned old -> page_aligned addr ->
  P +u Z.shiftr (vs -u s) PAGE_SHIFT = pv +u Z.shiftr (vs -u vs) PAGE_SHIFT ->
  P +u Z.shiftr (addr -u s) PAGE_SHIFT
    = (pv +u Z.shiftr (old -u vs) PAGE_SHIFT) +u Z.shiftr 0 PAGE_SHIFT ->
  old = addr.
Proof.
  intros H1 H2 H3 H4 H5 H6 A1 A2 A3 A4 E1 E2. pose proof TASK_SIZE_u64.
  rewrite !shiftr_page in E1, E2. rewrite (wrap_small (vs - s)), (wrap_small (vs - vs)) in E1 by (unfold is_u64; lia).
  rewrite (wrap_small (addr - s)), (wrap_small (old - vs)) in E2 by (unfold is_u64; lia).
  unfold page_aligned in *. rewrite PAGE_SIZE_eq in *.
  apply Z.mod_divide in A1 as [s' ->], A2 as [v' ->], A3 as [o' ->], A4 as [a' ->]; try done.
  rewrite <- !Z.mul_sub_distr_r, !Z.div_mul in E1 by done. rewrite Z.sub_diag, Z.add_0_r in E1.
  rewrite <- !Z.mul_sub_distr_r, !Z.div_mul in E2 by done.
  change (0 / 4096) with 0 in E2. rewrite Z.add_0_r in E2. unfold wrap in *.
  rewrite Z.mod_mod in E2 by done.
  apply (f_equal (fun z => (z + (o' - v')) mod ULONG_MOD)) in E1.
  rewrite !Zplus_mod_idemp_l in E1. rewrite <- E1 in E2. apply wrap_close in E2; [lia|done|].
  change TASK_SIZE with (34359738367 * 4096) in *. unfold ULONG_MOD. lia.
Qed.

Lemma backing_shift_of v old x :
  area_ok v -> 0 <= vm_start v <= old -> page_aligned old -> old <= x < ULONG_MOD ->
  backing_of v x = shift_backing (backing_of v old) (x - old).
Proof.
  intros (Ha & _) Hs Ho Hx. unfold backing_of, shift_backing. simpl.
  destruct (vm_file v); [|done]. f_equal.
  rewrite <- (offset_split (vm_pgoff v) (vm_start v) old x) by (done || lia).
  by rewrite (wrap_small (x - old)) by (unfold is_u64; lia).
Qed.

(** The area that [copy_vma] sets up *)
Definition copied_area (v : vm_area) (old addr len : Z) : vm_area :=
  with_range addr (addr + len)
    (if vma_is_anonymous v then Z.shiftr addr PAGE_SHIFT else linear_pgoff v old) v.

Lemma copied_backing v old addr len x :
  area_ok v -> addr <= x < addr + len -> 0 <= addr -> addr + len < ULONG_MOD ->
  backing_of (copied_area v old addr len) x = shift_backing (backing_of v old) (x - addr).
Proof.
  intros (_ & _ & _ & Hanon & _) Hx Ha Hl. unfold backing_of, shift_backing, copied_area. simpl.
  destruct (vm_file v) eqn:Hf; [|done]. f_equal. unfold vma_is_anonymous.
  rewrite (wrap_small (x - addr)) by (unfold is_u64; lia).
  destruct (vm_ops v); [done|]. by destruct Hanon as [Hanon _]; specialize (Hanon eq_refl).
Qed.

(** ** Copying an area *)

Section Copy.
Context `{KmallocFresh} (k : Z) (mm : lego_mm) (Hwf : wf k mm) (vma : ptr) (Hin : vma ∈ mmap mm).
#[local] Abbreviation v := (deref mm vma).
Context (old : Z) (Hold : vm_start v <= old < vm_end v) (Hoa : page_aligned old).
Context (addr len : Z) (Hga : good_area mm addr len) (Hlen : 0 < len) (Hla : page_aligned len).
#[local] Abbreviation nv := (copied_area v old addr len).

Lemma area_mapped x : vm_start v <= x < vm_end v -> backing_at mm x = Some (backing_of v x).
Proof using Hwf Hin.
  intros Hx. unfold backing_at. rewrite (proj2 (page_at_iff k mm x (page_of v x) Hwf)); [done|].
  exists vma. done.
Qed.

(** A file-backed area is never joined to its own copy: the offsets do not fit. *)
Lemma no_self_merge mm1 m :
  vm_file v <> None -> mapped k addr (addr + len) nv mm mm1 -> joined mm1 m addr (addr + len) ->
  vm_start (deref mm1 m) <= vm_start v -> vm_start v < vm_end (deref mm1 m) -> False.
Proof using All.
  intros Hf Hmap (Hm & Hm1 & Hm2) H1 H2. pose proof (mp_wf _ _ _ _ _ _ Hmap) as Hw1.
  destruct Hga as (Hpa & Hge & Hts & Hfree). pose proof TASK_SIZE_u64.
  pose proof (wf_bounds _ _ _ Hwf Hin) as Hb. pose proof (wf_bounds _ _ _ Hw1 Hm) as Hbm.
  assert (Hnone : forall x, addr <= x < addr + len -> backing_at mm x = None).
  { intros x Hx. unfold backing_at. by rewrite Hfree. }
  assert (HM : forall x, vm_start (deref mm1 m) <= x < vm_end (deref mm1 m) ->
    backing_at mm1 x = Some (backing_of (deref mm1 m) x)).
  { intros x Hx. unfold backing_at. rewrite (proj2 (page_at_iff k mm1 x (page_of (deref mm1 m) x) Hw1)); [done|]. eauto. }
  assert (Hvs : backing_of (deref mm1 m) (vm_start v) = backing_of v (vm_start v)).
  { assert (backing_at mm1 (vm_start v) = Some (backing_of v (vm_start v))) as Hb1.
    { rewrite (mp_backing _ _ _ _ _ _ Hmap), <- area_mapped by lia.
      destruct (in_range _ _ _) eqn:E; [|done]. apply in_range_spec in E.
      pose proof (Hnone _ E) as Hx. rewrite area_mapped in Hx by lia. done. }
    rewrite HM in Hb1 by lia. by apply Some_inj in Hb1. }
  assert (Hva : backing_of (deref mm1 m) addr = shift_backing (backing_of v old) 0).
  { assert (backing_at mm1 addr = Some (backing_of nv addr)) as Hb1.
    { rewrite (mp_backing _ _ _ _ _ _ Hmap). by rewrite (proj2 (in_range_spec addr (addr + len) addr)) by lia. }
    rewrite HM in Hb1 by lia. apply Some_inj in Hb1. rewrite Hb1.
    rewrite copied_backing; [by rewrite Z.sub_diag|by apply (wf_area _ _ Hwf)|lia..]. }
  destruct (wf_area _ _ Hwf _ Hin) as (A1 & _). destruct (wf_area _ _ Hw1 _ Hm) as (M1 & _).
  unfold backing_of, shift_backing in Hvs, Hva. simpl in Hvs, Hva. injection Hvs as HF Hvs. injection Hva as _ Hva.
  rewrite HF in Hvs, Hva. destruct (vm_file v) as [f|]; [|done].
  assert (old = addr) as ->; [|assert (backing_at mm addr = None) as Hx by (apply Hnone; lia);
    rewrite area_mapped in Hx by lia; done].
  eapply (linear_inj _ (vm_start (deref mm1 m)) (vm_start v)); try done; lia.
Qed.

Lemma copied_ok : area_ok nv /\ vm_start nv = addr /\ vm_end nv = addr + len.
Proof using All.
  destruct (wf_area _ _ Hwf _ Hin) as (A1 & A2 & A3 & A4 & A5). destruct Hga as (Hpa & Hge & Hts & _).
  pose proof TASK_SIZE_u64. split; [|done]. unfold area_ok. split_and!; try done.
  - change (page_aligned (addr + len)). unfold page_aligned in *. by rewrite Zplus_mod, Hpa, Hla.
  - unfold copied_area. simpl. case_match; [apply shiftr_u64; unfold is_u64; lia|apply wrap_range].
Qed.

Lemma copy_vma_ok :
  exists mm' vma' o, copy_vma vma addr len (linear_pgoff v old) mm = Some (mm', vma', o) /\
    match o with
    | None => mm' = mm /\ exists m, kmalloc m = None
    | Some _ => mapped k addr (addr + len) nv mm mm'
    end.
Proof using All.
  destruct copied_ok as (Hok & Hs & He). destruct Hga as (Hpa & Hge & Hts & Hfree). pose proof TASK_SIZE_u64.
  assert (Hpe : page_aligned (addr + len)) by (unfold page_aligned in *; by rewrite Zplus_mod, Hpa, Hla).
  unfold copy_vma. rewrite (wrap_small (addr + len)) by (unfold is_u64; lia).
  destruct (find_vma_links mm addr (addr + len)) as [lk|] eqn:Hf.
  2:{ exfalso. apply find_vma_links_None in Hf as (p & Hp & ? & ?); [|apply (wf_tree _ _ Hwf)].
      pose proof (wf_bounds _ _ _ Hwf Hp). set (x := Z.max addr (vm_start (deref mm p))).
      assert (Hx : page_at mm x = None) by (apply Hfree; unfold x; lia).
      assert (page_at mm x = Some (page_of (deref mm p) x)); [|congruence].
      apply (page_at_iff k); [done|]. exists p. unfold x. split; [done|]. split; [lia|done]. }
  destruct (find_vma_links_Some mm addr (addr + len) lk 0) as (pre & post & Hl & Hlk & L1 & L2);
    [apply Hwf|apply (wf_tree _ _ Hwf)|done|].
  pose proof Hlk as (-> & _).
  destruct (vma_merge_ok k mm Hwf pre post Hl addr (addr + len) nv) as (o & Hm & Ho); try done; try lia.
  { apply Hok. }
  change (vm_flags nv) with (vm_flags v) in Hm. change (vm_file nv) with (vm_file v) in Hm.
  change (vm_pgoff nv) with (if vma_is_anonymous v then Z.shiftr addr PAGE_SHIFT else linear_pgoff v old) in Hm.
  rewrite Hm. simpl. destruct o as [[mm1 m]|].
  - destruct Ho as [Hmap Hj].
    destruct ((vm_start (deref mm1 m) <=? vm_start v) && (vm_start v <? vm_end (deref mm1 m))) eqn:Hself;
      [|eexists _, _, _; split; [done|exact Hmap]].
    destruct (vma_is_anonymous v) eqn:Han; [eexists _, _, _; split; [done|exact Hmap]|].
    exfalso. apply andb_true_iff in Hself as [? ?]. zbool. eapply no_self_merge; try done.
    unfold vma_is_anonymous in Han. destruct (wf_area _ _ Hwf _ Hin) as (_ & _ & _ & Ha).
    intros Hn. apply Ha in Hn. by rewrite Hn in Han.
  - destruct (kmalloc mm) as [new|] eqn:Hk; [|eexists _, _, None; split; [done|]; eauto].
    destruct (link_new k mm Hwf pre post lk Hl) with (nv := nv) (new := new)
      as (mm3 & Hlink & Hmap & _); try done; [simpl; lia|].
    change (vm_file nv) with (vm_file v) in Hlink. unfold copied_area in Hlink. rewrite Hlink. simpl.
    eexists _, _, _. split; [done|exact Hmap].
Qed.
End Copy.

(** ** Moving an area *)

Lemma wf_log k e mm : wf k (log_pgt e mm) <-> wf k mm.
Proof. split; intros []; by split. Qed.

Section Move.
Context `{KmallocFresh} (moved : pgt_call -> Z).

(** [do_munmap] of a valid page-aligned range *)
Lemma munmap_pages k mm start len :
  wf k mm -> valid_range start len -> page_aligned len ->
  exists mm' ret, do_munmap start len mm = Some (mm', ret) /\
    (ret = - ENOMEM /\ split_spec k mm mm' /\ exhausted mm \/
     ret = 0 /\ unmapped k start (start + len) mm mm').
Proof.
  intros Hwf Hv Hal. pose proof Hv as (_ & ? & ? & ?). pose proof TASK_SIZE_u64.
  destruct (do_munmap_ok k mm start len) as (mm' & ret & -> & Hres); try done; [unfold is_u64; lia..|].
  eexists _, _. split; [done|]. destruct Hres as [(_ & _ & ?)|[_ Hres]]; [done|].
  by rewrite PAGE_ALIGN_id in Hres by (done || unfold is_u64; lia).
Qed.

Lemma unmapped_backing k start last mm mm' x :
  unmapped k start last mm mm' ->
  backing_at mm' x = if in_range start last x then None else backing_at mm x.
Proof. intros Hu. unfold backing_at. rewrite (um_pages _ _ _ _ _ Hu). unfold in_range. by case_match. Qed.

Lemma split_backing k mm mm' x : split_spec k mm mm' -> backing_at mm' x = backing_at mm x.
Proof. intros Hs. unfold backing_at. by rewrite (sp_pages _ _ _ Hs). Qed.

(** The new range is mapped in [mm3]; the old one is being unmapped. *)
Lemma moved_result k mm mm3 mm4 v old old_len new new_len ret :
  (forall x, backing_at mm3 x = if in_range new (new + new_len) x
     then Some (shift_backing (backing_of v old) (x - new)) else backing_at mm x) ->
  (forall d, 0 <= d < old_len -> backing_at mm (old + d) = Some (shift_backing (backing_of v old) d)) ->
  (forall x, new <= x < new + new_len -> backing_at mm x = None) -> old_len <= new_len ->
  ret = - ENOMEM /\ split_spec k mm3 mm4 /\ exhausted mm3 \/
    ret = 0 /\ unmapped k old (old + old_len) mm3 mm4 ->
  wf k mm4 /\ moved_to k mm mm4 old old_len new new_len.
Proof.
  intros Hb3 Hsrc Hfree Hle Hres.
  assert (Hdis : forall x, new <= x < new + new_len -> ~ old <= x < old + old_len).
  { intros x Hx Ho. pose proof (Hsrc (x - old) ltac:(lia)) as Hs. rewrite Zplus_minus in Hs.
    by rewrite (Hfree x Hx) in Hs. }
  assert (Hin : forall x, new <= x < new + new_len ->
    backing_at mm3 x = Some (shift_backing (backing_of v old) (x - new))).
  { intros x Hx. rewrite Hb3. by rewrite (proj2 (in_range_spec _ _ _) Hx). }
  assert (Hout : forall x, ~ new <= x < new + new_len -> backing_at mm3 x = backing_at mm x).
  { intros x Hx. rewrite Hb3. destruct (in_range _ _ x) eqn:E; [by apply in_range_spec in E|done]. }
  destruct Hres as [(_ & Hsp & Hex)|(_ & Hun)].
  - split; [apply Hsp|]. split.
    + exists (backing_of v old). rewrite Z.min_l by lia. split; [done|].
      intros x Hx. rewrite (split_backing _ _ _ _ Hsp). auto.
    + intros x Hx _. rewrite (split_backing _ _ _ _ Hsp). auto.
    + right. exists mm3. split; [done|]. intros x. by rewrite (sp_pages _ _ _ Hsp).
  - split; [apply Hun|]. pose proof (fun x => unmapped_backing _ _ _ _ _ x Hun) as Hu. split.
    + exists (backing_of v old). rewrite Z.min_l by lia. split; [done|]. intros x Hx. rewrite Hu.
      destruct (in_range old _ x) eqn:E; [apply in_range_spec in E; by destruct (Hdis x)|auto].
    + intros x Hx Ho. rewrite Hu. destruct (in_range old _ x) eqn:E; [by apply in_range_spec in E|auto].
    + left. intros x Hx Ho. rewrite Hu. by rewrite (proj2 (in_range_spec old _ x)).
Qed.

Lemma move_vma_ok k mm vma old old_len new_len new :
  wf k mm -> vma ∈ mmap mm -> vm_start (deref mm vma) <= old -> old + old_len <= vm_end (deref mm vma) ->
  0 < old_len -> page_aligned old_len -> page_aligned old -> old_len <= new_len ->
  good_area mm new new_len -> page_aligned new_len ->
  exists mm' r, move_vma moved vma old old_len new_len new mm = Some (mm', r) /\ wf k mm' /\
    (r = err_ul ENOMEM /\ (forall x, ~ new <= x < new + new_len -> backing_at mm' x = backing_at mm x) \/
     r = new /\ moved_to k mm mm' old old_len new new_len).
Proof.
  intros Hwf Hin Ho1 Ho2 Hpos Hola Hoa Hle Hga Hnla. pose proof Hga as (Hpa & Hge & Hts & Hfree).
  pose proof (wf_bounds _ _ _ Hwf Hin) as Hb. pose proof TASK_SIZE_u64.
  pose proof (wf_area _ _ Hwf _ Hin) as Haok.
  unfold move_vma. change (vm_pgoff (deref mm vma) +u Z.shiftr (old -u vm_start (deref mm vma)) PAGE_SHIFT)
    with (linear_pgoff (deref mm vma) old).
  destruct (copy_vma_ok k mm Hwf vma Hin old ltac:(lia) Hoa new new_len Hga ltac:(lia) Hnla)
    as (mm1 & vma' & o & -> & Ho). simpl.
  destruct o as [new_vma|]; [|destruct Ho as [-> _]; eexists _, _; split; [done|]; split; [done|by left]].
  pose proof (mp_wf _ _ _ _ _ _ Ho) as Hw1. set (e := Move_page_tables vma' old new_vma new old_len).
  destruct (Z.ltb_spec (moved e) old_len) as [Hshort|Hfull].
  - set (mm3 := log_pgt _ (log_pgt e mm1)). assert (Hw3 : wf k mm3) by (by apply wf_log, wf_log).
    destruct (munmap_pages k mm3 new new_len Hw3) as (mm4 & ret & -> & Hres); [split_and!; done || lia|done|].
    simpl. eexists _, _. split; [done|].
    assert (Hout : forall x, ~ new <= x < new + new_len -> backing_at mm3 x = backing_at mm x).
    { intros x Hx. change (backing_at mm3 x) with (backing_at mm1 x). rewrite (mp_backing _ _ _ _ _ _ Ho).
      destruct (in_range _ _ _) eqn:E; [by apply in_range_spec in E|done]. }
    destruct Hres as [(_ & Hsp & _)|(_ & Hun)].
    + split; [apply Hsp|]. left. split; [done|]. intros x Hx. rewrite (split_backing _ _ _ _ Hsp). auto.
    + split; [apply Hun|]. left. split; [done|]. intros x Hx. rewrite (unmapped_backing _ _ _ _ _ _ Hun).
      destruct (in_range _ _ _) eqn:E; [by apply in_range_spec in E|auto].
  - set (mm3 := log_pgt e mm1). assert (Hw3 : wf k mm3) by (by apply wf_log).
    destruct (munmap_pages k mm3 old old_len Hw3) as (mm4 & ret & -> & Hres); [split_and!; done || lia|done|].
    simpl. eexists _, _. split; [done|].
    assert (Hb3 : forall x, backing_at mm3 x = if in_range new (new + new_len) x
      then Some (shift_backing (backing_of (deref mm vma) old) (x - new)) else backing_at mm x).
    { intros x. change (backing_at mm3 x) with (backing_at mm1 x). rewrite (mp_backing _ _ _ _ _ _ Ho).
      destruct (in_range _ _ _) eqn:E; [|done]. apply in_range_spec in E.
      by rewrite copied_backing by (done || lia). }
    destruct (moved_result k mm mm3 mm4 (deref mm vma) old old_len new new_len ret) as [? ?]; auto.
    + intros d Hd. rewrite (area_mapped k mm Hwf vma Hin) by lia.
      rewrite (backing_shift_of _ old) by (done || lia). by rewrite Z.add_simpl_l.
    + intros x Hx. unfold backing_at. by rewrite Hfree.
Qed.
End Move.

(** ** Growing in place *)

Lemma vma_to_resize_ok k mm addr old_len new_len :
  wf k mm -> 0 <= addr -> 0 <= old_len ->
  match vma_to_resize addr old_len new_len mm with
  | inl e => e = - EFAULT \/ e = - EINVAL \/ e = - ENOMEM
  | inr vma => vma ∈ mmap mm /\ vm_start (deref mm vma) <= addr /\
      addr < vm_end (deref mm vma) /\ addr + old_len <= vm_end (deref mm vma)
  end.
Proof.
  intros Hwf Ha Hol. unfold vma_to_resize. rewrite (find_vma_ok k) by done.
  destruct (first_above mm addr) as [p|] eqn:Hf; [|auto].
  apply first_above_Some in Hf as (pre & post & Hl & He & _).
  assert (Hp : p ∈ mmap mm) by (rewrite Hl; set_solver).
  pose proof (wf_bounds _ _ _ Hwf Hp). pose proof TASK_SIZE_u64.
  destruct (Z.ltb_spec addr (vm_start (deref mm p))); [auto|].
  rewrite (wrap_small (vm_end (deref mm p) - addr)) by (unfold is_u64; lia).
  destruct (Z.ltb_spec (vm_end (deref mm p) - addr) old_len); [auto|].
  assert (Hgoal : p ∈ mmap mm /\ vm_start (deref mm p) <= addr /\ addr < vm_end (deref mm p) /\
    addr + old_len <= vm_end (deref mm p)) by (split; [done|lia]).
  destruct (new_len =? old_len); [done|]. destruct (_ <? _); [auto|]. done.
Qed.

Lemma ERR_TO_LEGO_RET_nonzero e : ERR_TO_LEGO_RET e <> 0.
Proof. unfold ERR_TO_LEGO_RET. by repeat case_match. Qed.

Section Grow.
Context (k : Z) (mm : lego_mm) (Hwf : wf k mm) (Hlay : layout_ok mm) (vma : ptr) (Hin : vma ∈ mmap mm).
#[local] Abbreviation v := (deref mm vma).

Lemma expandable_ok delta :
  0 < delta -> is_u64 delta -> page_aligned delta ->
  exists b, vma_expandable mm vma delta = Some b /\
    (b = true -> vm_end v + delta <= TASK_SIZE /\
       forall q, vm_next mm vma = Some q -> vm_end v + delta <= vm_start (deref mm q)).
Proof using All.
  intros Hd Hu Ha. pose proof (wf_bounds _ _ _ Hwf Hin). pose proof TASK_SIZE_u64.
  destruct (wf_area _ _ Hwf _ Hin) as (A1 & A2 & _). unfold vma_expandable.
  destruct (Z.ltb_spec (vm_end v +u delta) (vm_end v)) as [Ho|Ho]; [by eexists|].
  assert (Hw : vm_end v +u delta = vm_end v + delta).
  { unfold wrap in *. destruct (Z.lt_ge_cases (vm_end v + delta) ULONG_MOD); [by apply Z.mod_small; lia|].
    exfalso. rewrite <- (Z_mod_plus_full _ (-1)), Z.mod_small in Ho; unfold is_u64 in *; lia. }
  rewrite Hw in *.
  assert (Hcont : (forall q, vm_next mm vma = Some q -> vm_end v + delta <= vm_start (deref mm q)) ->
    exists b, (area ← get_unmapped_area mm (vm_start v) (vm_end v + delta -u vm_start v) 0 MAP_FIXED;
      Some (offset_in_page area =? 0)) = Some b /\
    (b = true -> vm_end v + delta <= TASK_SIZE /\
       forall q, vm_next mm vma = Some q -> vm_end v + delta <= vm_start (deref mm q))).
  { intros Hq. pose proof (wrap_range (vm_end v + delta)) as Hr0. rewrite Hw in Hr0.
    rewrite (wrap_small (vm_end v + delta - vm_start v)) by (unfold is_u64 in *; lia).
    set (L := vm_end v + delta - vm_start v).
    destruct (choose_address k mm (vm_start v) L 0 MAP_FIXED) as (r & -> & Hr); try done.
    - unfold is_u64. lia.
    - unfold L. lia.
    - unfold is_u64, L in *. lia.
    - unfold L, page_aligned in *. rewrite Zminus_mod, Zplus_mod, A2, Ha, A1. done.
    - simpl. eexists. split; [done|]. rewrite offset_in_page_mod. intros Hz%Z.eqb_eq.
      destruct Hr as [[? _]|(_ & (_ & _ & _ & Hts) & Hfix & _)]; [done|]. split; [|done].
      rewrite (Hfix eq_refl) in Hts. unfold L in Hts. lia. }
  destruct (vm_next mm vma) as [q|] eqn:Hn.
  - destruct (Z.ltb_spec (vm_start (deref mm q)) (vm_end v + delta)); [by eexists|].
    apply Hcont. by intros ? [= <-].
  - by apply Hcont.
Qed.

Lemma grow_in_place newend :
  vm_end v < newend -> newend <= TASK_SIZE -> page_aligned newend ->
  (forall q, vm_next mm vma = Some q -> newend <= vm_start (deref mm q)) ->
  exists mm', vma_adjust vma (vm_start v) newend (vm_pgoff v) None mm = Some mm' /\ wf k mm' /\
    (forall x, vm_end v <= x < newend -> backing_at mm x = None) /\
    forall x, backing_at mm' x
      = if in_range (vm_end v) newend x then Some (backing_of v x) else backing_at mm x.
Proof using Hwf Hin.
  clear Hlay. intros Hlt Hts Hal Hnx. pose proof (list_elem_of_split _ _ Hin) as (pre & post & Hl).
  rewrite (vm_next_at mm vma pre post) in Hnx by (done || by eapply wf_NoDup).
  destruct (adjust_grow_end k mm vma pre post newend None) as (t & h & Heq & Hw); try done.
  eexists. split; [exact Heq|]. split; [exact Hw|]. match type of Hw with wf k ?m => set (mm' := m) in * end.
  assert (Hdv : deref mm' vma = with_range (vm_start v) newend (vm_pgoff v) v) by apply deref_upd_eq.
  assert (Hdo : forall p, p <> vma -> deref mm' p = deref mm p)
    by (intros p Hp; apply (deref_upd_ne vma p); congruence).
  assert (Hm' : mmap mm' = mmap mm) by done. pose proof (wf_bounds _ _ _ Hwf Hin).
  assert (Hfree : forall x, vm_end v <= x < newend -> backing_at mm x = None).
  { intros x Hx. unfold backing_at, page_at. rewrite pages_None; [done|]. intros q Hq Hc.
    pose proof (wf_sorted _ _ Hwf) as Hs. rewrite Hl in Hs, Hq.
    destruct (sorted_split _ _ _ _ _ Hs) as [S1 _]. apply sorted_app in Hs as [_ (_ & _ & _ & Hs)].
    apply elem_of_app in Hq as [Hq|[->|Hq]%elem_of_cons]; [apply S1 in Hq; lia|lia|].
    apply (sorted_hd _ _ newend) in Hs; [|done]. destruct (sorted_bounds _ _ _ _ Hs Hq). lia. }
  split; [done|]. intros x. unfold backing_at.
  apply (absorb_pages k mm mm' Hwf Hw (vm_end v) newend v vma [vma]); rewrite ?Hm'; try done.
  - intros q Hq Hne. auto.
  - intros q Hq Hne. split; [done|]. apply Hdo. set_solver.
  - by intros q ->%list_elem_of_singleton.
  - intros y. rewrite Hdv. simpl. split.
    + intros Hy. destruct (Z.lt_ge_cases y (vm_end v)); [right; exists vma; split; [by left|lia]|left; lia].
    + intros [?|(q & ->%list_elem_of_singleton & ?)]; lia.
  - intros y Hy. by rewrite Hdv.
  - intros q y ->%list_elem_of_singleton Hy. by rewrite Hdv.
Qed.
End Grow.

(** ** The mremap request *)

(** [old, old_len], [new_len]: the request; [fixed], [new0]: MREMAP_FIXED and its
    address; the indices are the status and the address of the reply. *)
Inductive mremap_outcome `{Kmalloc} (k : Z) (mm mm' : lego_mm) (fixed : bool) (old old_len new0 new_len : Z) :
    Z -> option Z -> Prop :=
| remap_failed status s :
    status <> RET_OKAY -> (fixed = true -> s = new0) ->
    (forall x, ~ s <= x < s + new_len -> fixed = false \/ ~ old <= x < old + old_len ->
       backing_at mm' x = backing_at mm x) ->
    mremap_outcome k mm mm' fixed old old_len new0 new_len status None
| remap_shrunk :
    fixed = false -> new_len <= old_len ->
    (forall x, backing_at mm' x
       = if in_range (old + new_len) (old + old_len) x then None else backing_at mm x) ->
    mremap_outcome k mm mm' fixed old old_len new0 new_len RET_OKAY (Some old)
| remap_grown b :
    fixed = false -> old_len < new_len ->
    (forall d, 0 <= d < old_len -> backing_at mm (old + d) = Some (shift_backing b d)) ->
    (forall d, old_len <= d < new_len -> backing_at mm (old + d) = None) ->
    (forall x, backing_at mm' x = if in_range (old + old_len) (old + new_len) x
       then Some (shift_backing b (x - old)) else backing_at mm x) ->
    mremap_outcome k mm mm' fixed old old_len new0 new_len RET_OKAY (Some old)
| remap_moved new :
    (fixed = true -> new = new0) -> moved_to k mm mm' old old_len new new_len ->
    mremap_outcome k mm mm' fixed old old_len new0 new_len RET_OKAY (Some new).

Lemma layout_settings mm mm' : settings mm' = settings mm -> layout_ok mm -> layout_ok mm'.
Proof. intros [= E1 E2 _ _ _]. unfold layout_ok. by rewrite E1, E2. Qed.

Lemma backing_None mm x : backing_at mm x = None -> page_at mm x = None.
Proof. unfold backing_at. by destruct (page_at mm x). Qed.

Lemma share_flags_fixed v : has (share_flags v MAP_FIXED) MAP_FIXED = true /\ has (share_flags v 0) MAP_FIXED = false.
Proof. unfold share_flags. by destruct (has (vm_flags v) VM_MAYSHARE). Qed.

Section Mremap.
Context `{KmallocFresh} (moved : pgt_call -> Z) (k : Z) (mm : lego_mm) (Hwf : wf k mm) (Hlay : layout_ok mm).
Context (old old_len new_len : Z) (Hoa : page_aligned old) (Hola : page_aligned old_len).
Context (Hnla : page_aligned new_len) (Hop : 0 < old_len) (Hnp : 0 < new_len) (Ho : 0 <= old).
Context (Hts : old + old_len <= TASK_SIZE) (Hnu : is_u64 new_len).

(** The unmapping of the tail [old + new_len, old + old_len) *)
Lemma shrink_ok mm0 :
  wf k mm0 -> new_len <= old_len ->
  exists mm1 ret, do_munmap (old +u new_len) (old_len -u new_len) mm0 = Some (mm1, ret) /\ wf k mm1 /\
    settings mm1 = settings mm0 /\
    (ret <> 0 /\ old_len <> new_len /\ (forall x, backing_at mm1 x = backing_at mm0 x) \/
     (ret = 0 \/ old_len = new_len) /\ forall x, backing_at mm1 x
       = if in_range (old + new_len) (old + old_len) x then None else backing_at mm0 x).
Proof using All.
  intros Hw Hle. pose proof TASK_SIZE_u64.
  rewrite (wrap_small (old + new_len)), (wrap_small (old_len - new_len)) by (unfold is_u64; lia).
  destruct (Z.eq_dec old_len new_len) as [->|Hne].
  - rewrite Z.sub_diag. destruct (do_munmap_ok k mm0 (old + new_len) 0) as (mm1 & ret & -> & Hres);
      [done|unfold is_u64; lia..|].
    eexists _, _. split; [done|]. destruct Hres as [(-> & -> & _)|[(_ & _ & ? & _) _]]; [|lia].
    split; [done|]. split; [done|]. right. split; [auto|]. intros x. by rewrite in_range_empty by lia.
  - destruct (munmap_pages k mm0 (old + new_len) (old_len - new_len)) as (mm1 & ret & -> & Hres); [done|..].
    { split_and!; [|lia..]. unfold page_aligned in *. by rewrite Zplus_mod, Hoa, Hnla. }
    { unfold page_aligned in *. by rewrite Zminus_mod, Hola, Hnla. }
    replace (old + new_len + (old_len - new_len)) with (old + old_len) in Hres by lia.
    eexists _, _. split; [done|]. destruct Hres as [(-> & Hsp & _)|(-> & Hun)].
    + split; [apply Hsp|]. split; [apply Hsp|]. left. split_and!; try done. intros x. by apply (split_backing k).
    + split; [apply Hun|]. split; [apply Hun|]. right. split; [auto|]. intros x. by apply (unmapped_backing k).
Qed.

(** Composing the removal of the target range and of the tail with the move *)
Lemma moved_after_clear mm2 mm3 new :
  (forall x, backing_at mm2 x = if in_range new (new + new_len) x || in_range (old + new_len) (old + old_len) x
     then None else backing_at mm x) ->
  moved_to k mm2 mm3 old (Z.min old_len new_len) new new_len -> moved_to k mm mm3 old old_len new new_len.
Proof using All.
  intros Hb [(b & Hs1 & Hs2) Hr Hg].
  assert (Hsome : forall x c, backing_at mm2 x = Some c -> backing_at mm x = Some c).
  { intros x c. rewrite Hb. by destruct (_ || _). }
  assert (Hout : forall x, ~ new <= x < new + new_len -> ~ old + new_len <= x < old + old_len ->
    backing_at mm2 x = backing_at mm x).
  { intros x H1 H2. rewrite Hb. destruct (in_range new _ x) eqn:E1; [by apply in_range_spec in E1|].
    destruct (in_range (old + new_len) _ x) eqn:E2; [by apply in_range_spec in E2|done]. }
  split.
  - exists b. split; [|done]. intros d Hd. apply Hsome, Hs1. lia.
  - intros x H1 H2. rewrite Hr by lia. apply Hout; lia.
  - destruct Hg as [Hg|Hg]; [left|by right]. intros x H1 H2.
    destruct (Z.lt_ge_cases x (old + Z.min old_len new_len)); [apply Hg; lia|].
    rewrite Hr by lia. rewrite Hb. rewrite (proj2 (in_range_spec (old + new_len) (old + old_len) x)) by lia.
    by rewrite orb_true_r.
Qed.

(** Moving from a state in which the target range is free *)
Lemma move_step mm2 vma olen new :
  wf k mm2 -> vma ∈ mmap mm2 -> vm_start (deref mm2 vma) <= old -> old + olen <= vm_end (deref mm2 vma) ->
  0 < olen <= new_len -> page_aligned olen -> good_area mm2 new new_len ->
  exists mm3 r, move_vma moved vma old olen new_len new mm2 = Some (mm3, r) /\ wf k mm3 /\
    (offset_in_page r <> 0 /\ (forall x, ~ new <= x < new + new_len -> backing_at mm3 x = backing_at mm2 x) \/
     offset_in_page r = 0 /\ r = new /\ moved_to k mm2 mm3 old olen new new_len).
Proof using All.
  intros Hw Hv H1 H2 H3 Ha Hg.
  destruct (move_vma_ok moved k mm2 vma old olen new_len new) as (mm3 & r & -> & Hw3 & Hres); try done; try lia.
  eexists _, _. split; [done|]. split; [done|]. rewrite offset_in_page_mod.
  destruct Hres as [[-> ?]|[-> ?]]; [left|right].
  - split; [by apply err_ul_offset|done].
  - split; [apply Hg|done].
Qed.

(** [mremap_to] fails, in a state that differs from [mm] on the two ranges only. *)
Lemma fixed_failed new m st :
  st <> RET_OKAY -> wf k m ->
  (forall x, ~ new <= x < new + new_len -> ~ old <= x < old + old_len -> backing_at m x = backing_at mm x) ->
  exists mm' st' r, Some (m, st, None) = Some (mm', st', r) /\ wf k mm' /\
    mremap_outcome k mm mm' true old old_len new new_len st' r.
Proof using.
  intros Hst Hw Hb. eexists _, _, _. split; [done|]. split; [done|].
  apply (remap_failed _ _ _ _ _ _ _ _ _ new); [done|done|]. intros x Hx [?|?]; [done|auto].
Qed.

(** After the target range and the tail have been unmapped *)
Lemma mremap_to_move new mm2 :
  page_aligned new -> 0 <= new -> new + new_len <= TASK_SIZE -> wf k mm2 -> settings mm2 = settings mm ->
  (forall x, backing_at mm2 x = if in_range new (new + new_len) x || in_range (old + new_len) (old + old_len) x
     then None else backing_at mm x) ->
  let olen := if new_len <=? old_len then new_len else old_len in
  exists mm' st r,
    match vma_to_resize old olen new_len mm2 with
    | inl e => Some (mm2, ERR_TO_LEGO_RET e, None)
    | inr vma =>
        let v := deref mm2 vma in
        area ← get_unmapped_area mm2 new new_len (linear_pgoff v old) (share_flags v MAP_FIXED);
        if negb (offset_in_page area =? 0) then Some (mm2, ENOMEM, None)
        else
          '(mm3, r) ← move_vma moved vma old olen new_len new mm2;
          if negb (offset_in_page r =? 0) then Some (mm3, ENOMEM, None)
          else Some (mm3, RET_OKAY, Some new)
    end = Some (mm', st, r) /\ wf k mm' /\ mremap_outcome k mm mm' true old old_len new new_len st r.
Proof using All.
  intros Hna Hn0 Hn1 Hw2 Hse Hb2 olen. pose proof TASK_SIZE_u64.
  assert (Holen : olen = Z.min old_len new_len) by (unfold olen; destruct (Z.leb_spec new_len old_len); lia).
  assert (Hoal : page_aligned olen) by (unfold olen; by case_match).
  assert (Hb2' : forall x, ~ new <= x < new + new_len -> ~ old <= x < old + old_len ->
    backing_at mm2 x = backing_at mm x).
  { intros x X1 X2. rewrite Hb2. destruct (in_range new _ x) eqn:E1; [by apply in_range_spec in E1|].
    destruct (in_range (old + new_len) _ x) eqn:E2; [apply in_range_spec in E2; lia|done]. }
  pose proof (vma_to_resize_ok k mm2 old olen new_len Hw2 Ho ltac:(lia)) as Hv.
  destruct (vma_to_resize old olen new_len mm2) as [e|vma];
    [apply fixed_failed; auto using ERR_TO_LEGO_RET_nonzero|].
  destruct Hv as (Hv & V1 & V2 & V3). cbn zeta. destruct (share_flags_fixed (deref mm2 vma)) as [Hfx _].
  destruct (choose_address k mm2 new new_len (linear_pgoff (deref mm2 vma) old) (share_flags (deref mm2 vma) MAP_FIXED))
    as (r & -> & _); try done; [by eapply layout_settings|unfold is_u64; lia|].
  simpl. destruct (offset_in_page r =? 0); simpl; [|by apply fixed_failed].
  assert (Hga : good_area mm2 new new_len).
  { split_and!; try done. intros x Hx. apply backing_None. rewrite Hb2.
    by rewrite (proj2 (in_range_spec new (new + new_len) x) Hx). }
  destruct (move_step mm2 vma olen new) as (mm3 & r3 & -> & Hw3 & Hres); try done; [lia|].
  simpl. destruct Hres as [[Hoff Hb3]|(-> & -> & Hmv)].
  - rewrite (proj2 (Z.eqb_neq _ 0) Hoff). simpl. apply fixed_failed; [done|done|].
    intros x X1 X2. rewrite Hb3 by done. auto.
  - simpl. eexists _, _, _. split; [done|]. split; [done|]. apply remap_moved; [done|].
    rewrite Holen in Hmv. by eapply moved_after_clear.
Qed.

Lemma mremap_to_ok new :
  is_u64 new ->
  exists mm' st r, mremap_to moved old old_len new new_len mm = Some (mm', st, r) /\ wf k mm' /\
    mremap_outcome k mm mm' true old old_len new new_len st r.
Proof using All.
  intros Hu. pose proof TASK_SIZE_u64. unfold mremap_to. rewrite offset_in_page_mod.
  destruct (Z.eqb_spec (new mod PAGE_SIZE) 0) as [Hna|]; simpl; [|by apply fixed_failed].
  destruct (Z.ltb_spec TASK_SIZE new_len); simpl; [by apply fixed_failed|]. unfold is_u64 in *.
  rewrite (wrap_small (TASK_SIZE - new_len)) by (unfold is_u64; lia).
  destruct (Z.ltb_spec (TASK_SIZE - new_len) new); [by apply fixed_failed|].
  destruct (munmap_pages k mm new new_len Hwf) as (mm1 & ret & -> & Hres); [split_and!; done || lia|done|].
  simpl. destruct Hres as [(-> & Hsp & _)|(-> & Hun)].
  { simpl. apply fixed_failed; [apply ERR_TO_LEGO_RET_nonzero|apply Hsp|]. intros x _ _. by apply (split_backing k). }
  simpl. pose proof (um_wf _ _ _ _ _ Hun) as Hw1. pose proof (fun x => unmapped_backing _ _ _ _ _ x Hun) as Hb1.
  pose proof (um_settings _ _ _ _ _ Hun) as Hse1. clear Hun.
  assert (Hout1 : forall x, ~ new <= x < new + new_len -> backing_at mm1 x = backing_at mm x).
  { intros x Hx. rewrite Hb1. destruct (in_range new _ x) eqn:E; [by apply in_range_spec in E|done]. }
  assert (exists mm2 ret2, (if new_len <=? old_len then do_munmap (old +u new_len) (old_len -u new_len) mm1
      else Some (mm1, 0)) = Some (mm2, ret2) /\ wf k mm2 /\ settings mm2 = settings mm /\
    (ret2 <> 0 /\ old_len <> new_len /\ (forall x, backing_at mm2 x = backing_at mm1 x) \/
     (ret2 = 0 \/ old_len = new_len) /\ forall x, backing_at mm2 x
       = if in_range (old + new_len) (old + old_len) x then None else backing_at mm1 x))
    as (mm2 & ret2 & -> & Hw2 & Hse2 & Hcase).
  { destruct (Z.leb_spec new_len old_len) as [Hle|Hgt].
    - destruct (shrink_ok mm1 Hw1 Hle) as (mm2 & r2 & -> & ? & ? & ?). eexists _, _. split; [done|].
      split; [done|]. split; [congruence|done].
    - eexists _, _. split; [done|]. split; [done|]. split; [done|]. right. split; [auto|].
      intros x. by rewrite in_range_empty by lia. }
  simpl. destruct Hcase as [(Hr2 & Hne & Hb2)|(Hr2 & Hb2)].
  { rewrite (proj2 (Z.eqb_neq ret2 0)), (proj2 (Z.eqb_neq old_len new_len)) by done. simpl.
    apply fixed_failed; [apply ERR_TO_LEGO_RET_nonzero|done|]. intros x Hx _. rewrite Hb2. auto. }
  replace (negb (ret2 =? 0) && negb (old_len =? new_len)) with false.
  2:{ symmetry. destruct Hr2 as [->| ->]; [done|]. by rewrite Z.eqb_refl, andb_false_r. }
  apply mremap_to_move; try done; try lia.
  intros x. rewrite Hb2, Hb1. by destruct (in_range new _ x), (in_range (old + new_len) _ x).
Qed.

(** A request that cannot be granted leaves everything as it was. *)
Lemma unfixed_failed new0 st :
  st <> RET_OKAY -> exists mm' st' r, Some (mm, st, None) = Some (mm', st', r) /\
    wf k mm' /\ mremap_outcome k mm mm' false old old_len new0 new_len st' r.
Proof using Hwf.
  intros Hst. eexists _, _, _. split; [done|]. split; [done|]. by apply (remap_failed _ _ _ _ _ _ _ _ _ 0).
Qed.

(** Growing in place, when the mapping ends with its area and there is room *)
Lemma mremap_expand vma new0 :
  old_len < new_len -> vma ∈ mmap mm -> vm_start (deref mm vma) <= old ->
  old + old_len = vm_end (deref mm vma) -> old + new_len <= TASK_SIZE ->
  (forall q, vm_next mm vma = Some q -> old + new_len <= vm_start (deref mm q)) ->
  exists mm', vma_adjust vma (vm_start (deref mm vma)) (old +u new_len) (vm_pgoff (deref mm vma)) None mm = Some mm' /\
    wf k mm' /\ mremap_outcome k mm mm' false old old_len new0 new_len RET_OKAY (Some old).
Proof using All.
  intros Hgt Hv V1 V2 Hn1 Hnx. pose proof TASK_SIZE_u64. pose proof (wf_bounds _ _ _ Hwf Hv).
  pose proof (wf_area _ _ Hwf _ Hv) as Hok. rewrite (wrap_small (old + new_len)) by (unfold is_u64; lia).
  destruct (grow_in_place k mm Hwf vma Hv (old + new_len)) as (mm' & Heq & Hw & Hfree & Hb); try done; [lia| |].
  { unfold page_aligned in *. by rewrite Zplus_mod, Hoa, Hnla. }
  exists mm'. split; [done|]. split; [done|]. rewrite <- V2 in Hfree, Hb.
  apply (remap_grown _ _ _ _ _ _ _ _ (backing_of (deref mm vma) old)); try done.
  - intros d Hd. rewrite (area_mapped k mm Hwf vma Hv) by lia.
    rewrite (backing_shift_of _ old) by (done || lia). by rewrite Z.add_simpl_l.
  - intros d Hd. apply Hfree. lia.
  - intros x. rewrite Hb. destruct (in_range _ _ x) eqn:E; [|done]. apply in_range_spec in E.
    by rewrite (backing_shift_of _ old) by (done || lia).
Qed.

(** Growing by moving to another place *)
Lemma mremap_maymove vma new0 :
  old_len < new_len -> vma ∈ mmap mm -> vm_start (deref mm vma) <= old ->
  old + old_len <= vm_end (deref mm vma) ->
  exists mm' st r,
    (new_addr ← get_unmapped_area mm 0 new_len (linear_pgoff (deref mm vma) old) (share_flags (deref mm vma) 0);
     if negb (offset_in_page new_addr =? 0)
     then Some (mm, ERR_TO_LEGO_RET (to_long new_addr), None)
     else
       '(mm1, r) ← move_vma moved vma old old_len new_len new_addr mm;
       if negb (offset_in_page r =? 0) then Some (mm1, ERR_TO_LEGO_RET (to_long r), None)
       else Some (mm1, RET_OKAY, Some r)) = Some (mm', st, r) /\ wf k mm' /\
    mremap_outcome k mm mm' false old old_len new0 new_len st r.
Proof using All.
  intros Hgt Hv V1 V2. destruct (share_flags_fixed (deref mm vma)) as [_ Hfx].
  destruct (choose_address k mm 0 new_len (linear_pgoff (deref mm vma) old) (share_flags (deref mm vma) 0))
    as (r & -> & Hr); try done.
  simpl. rewrite offset_in_page_mod. destruct Hr as [[Hoff _]|(Hoff & (R1 & R2 & R3 & R4) & _ & Hfree)].
  { rewrite (proj2 (Z.eqb_neq _ 0) Hoff). simpl. apply unfixed_failed, ERR_TO_LEGO_RET_nonzero. }
  rewrite Hoff. simpl. assert (Hga : good_area mm r new_len) by (split_and!; auto).
  destruct (move_step mm vma old_len r) as (mm3 & r3 & -> & Hw3 & Hres); try done; [lia|].
  simpl. destruct Hres as [[Ho3 Hb3]|(-> & -> & Hmv)].
  - rewrite (proj2 (Z.eqb_neq _ 0) Ho3). simpl. eexists _, _, _. split; [done|]. split; [done|].
    apply (remap_failed _ _ _ _ _ _ _ _ _ r); [apply ERR_TO_LEGO_RET_nonzero|done|auto].
  - simpl. eexists _, _, _. split; [done|]. split; [done|]. by apply remap_moved.
Qed.

Lemma mremap_body_ok flags new0 :
  is_u64 new0 ->
  exists mm' st r, mremap_body moved old old_len new_len flags new0 mm = Some (mm', st, r) /\ wf k mm' /\
    mremap_outcome k mm mm' (has flags MREMAP_FIXED) old old_len new0 new_len st r.
Proof using All.
  intros Hu. unfold mremap_body. destruct (has flags MREMAP_FIXED); [by apply mremap_to_ok|].
  destruct (Z.leb_spec new_len old_len) as [Hle|Hgt].
  { destruct (shrink_ok mm Hwf Hle) as (mm1 & ret & -> & Hw1 & _ & Hres). simpl.
    destruct Hres as [(Hr & Hne & Hb)|(Hr & Hb)].
    - rewrite (proj2 (Z.eqb_neq ret 0)), (proj2 (Z.eqb_neq old_len new_len)) by done. simpl.
      eexists _, _, _. split; [done|]. split; [done|].
      by apply (remap_failed _ _ _ _ _ _ _ _ _ 0); [apply ERR_TO_LEGO_RET_nonzero| |].
    - replace (negb (ret =? 0) && negb (old_len =? new_len)) with false.
      2:{ symmetry. destruct Hr as [->| ->]; [done|]. by rewrite Z.eqb_refl, andb_false_r. }
      eexists _, _, _. split; [done|]. split; [done|]. by apply remap_shrunk. }
  pose proof (vma_to_resize_ok k mm old old_len new_len Hwf Ho ltac:(lia)) as Hv.
  destruct (vma_to_resize old old_len new_len mm) as [e|vma]; [apply unfixed_failed, ERR_TO_LEGO_RET_nonzero|].
  destruct Hv as (Hv & V1 & V2 & V3). cbn zeta. pose proof (wf_bounds _ _ _ Hwf Hv). pose proof TASK_SIZE_u64.
  rewrite (wrap_small (vm_end (deref mm vma) - old)), (wrap_small (new_len - old_len)) by (unfold is_u64 in *; lia).
  assert (Hpd : page_aligned (new_len - old_len)) by (unfold page_aligned in *; by rewrite Zminus_mod, Hola, Hnla).
  assert (exists b, (if old_len =? vm_end (deref mm vma) - old then vma_expandable mm vma (new_len - old_len)
      else Some false) = Some b /\ (b = true -> old + old_len = vm_end (deref mm vma) /\ old + new_len <= TASK_SIZE /\
      forall q, vm_next mm vma = Some q -> old + new_len <= vm_start (deref mm q))) as (b & -> & Hb).
  { destruct (Z.eqb_spec old_len (vm_end (deref mm vma) - old)) as [He|]; [|by eexists].
    destruct (expandable_ok k mm Hwf Hlay vma Hv (new_len - old_len)) as (b & -> & Hb); try done;
      [lia|unfold is_u64 in *; lia|].
    exists b. split; [done|]. intros Hbt. destruct (Hb Hbt) as [? Hq]. split_and!; [lia..|].
    intros q Hn. apply Hq in Hn. lia. }
  simpl. destruct b.
  - destruct (Hb eq_refl) as (B1 & B2 & B3).
    destruct (mremap_expand vma new0) as (mm' & -> & ? & ?); try done. simpl. by eexists _, _, _.
  - destruct (has flags MREMAP_MAYMOVE); [by apply mremap_maymove|by apply unfixed_failed].
Qed.
End Mremap.
