(* ===== verification/VmaLife.v ===== *)
(** * Memory manager, virtual memory areas: stack growth, fork and exit *)

From S2P Require Import Prelude RbTree VmaModel VmaTree VmaInv VmaAdjust VmaSpec VmaUnmap VmaMerge VmaMap.

(** ** Stack growth *)

Lemma wf_stat k mm flags n : wf k mm -> wf k (vm_stat_account flags n mm).
Proof. intros. unfold vm_stat_account. repeat case_match; by apply wf_counters. Qed.

(** The pages of [p] extended down to [a] *)
(** The area [v] extended down to [a] *)
Definition grown_area (a : Z) (v : vm_area) : vm_area :=
  with_range a (vm_end v) (vm_pgoff v -u Z.shiftr (vm_start v -u a) PAGE_SHIFT) v.

(** [expand_downwards] allows it: the guard gap above address 0, the page offsets and the
    stack limit. *)
Definition can_grow (v : vm_area) (a : Z) : bool :=
  negb (a <? a -u stack_guard_gap) && (Z.shiftr (vm_start v -u a) PAGE_SHIFT <=? vm_pgoff v) &&
  negb (_STK_LIM <? let size := vm_end v -u a in
    if negb (size =? 0) && has (vm_flags v) (Z.lor VM_GROWSUP VM_GROWSDOWN) then size -u PAGE_SIZE else size).

Record grown_down (k : Z) (p : ptr) (a : Z) (mm mm' : lego_mm) : Prop := {
  gd_wf : wf k mm';
  gd_mmap : mmap mm' = mmap mm;
  gd_deref : deref mm' p = grown_area a (deref mm p);
  gd_others : forall q, q <> p -> deref mm' q = deref mm q;
  gd_area : vm_start (deref mm' p) = a /\ vm_end (deref mm' p) = vm_end (deref mm p) /\
    vm_flags (deref mm' p) = vm_flags (deref mm p) /\ vm_file (deref mm' p) = vm_file (deref mm p);
  gd_pages : forall x, page_at mm' x =
    if in_range a (vm_start (deref mm p)) x then Some (page_of (deref mm' p) x) else page_at mm x;
  gd_stack : total_vm mm' = total_vm mm +u Z.shiftr (vm_start (deref mm p) - a) PAGE_SHIFT
}.

Lemma grown_down_pages k mm mm' p a pgoff :
  wf k mm -> wf k mm' -> mmap mm' = mmap mm -> p ∈ mmap mm ->
  page_aligned a -> a < vm_start (deref mm p) -> 0 <= a ->
  pgoff = vm_pgoff (deref mm p) -u Z.shiftr (vm_start (deref mm p) - a) PAGE_SHIFT ->
  deref mm' p = with_range a (vm_end (deref mm p)) pgoff (deref mm p) ->
  (forall q, q <> p -> deref mm' q = deref mm q) ->
  forall x, page_at mm' x =
    if in_range a (vm_start (deref mm p)) x then Some (page_of (deref mm' p) x) else page_at mm x.
Proof.
  intros Hwf Hwf' Hmm Hp Ha Hlt Ha0 -> Hdp Hdo x.
  destruct (wf_area _ _ Hwf p Hp) as (A1 & _ & A3 & _).
  pose proof (wf_bounds k mm p Hwf Hp). pose proof TASK_SIZE_u64.
  rewrite <- (option_fmap_id (page_at mm' x)), <- (option_fmap_id (page_at mm x)).
  apply (absorb_pages k mm mm' Hwf Hwf' a (vm_start (deref mm p)) (deref mm' p) p [p]);
    rewrite ?Hmm; try done.
  - intros q Hq Hne. auto.
  - intros q Hq Hne. split; [done|]. apply Hdo. set_solver.
  - by intros q ->%list_elem_of_singleton.
  - intros y. rewrite Hdp. simpl. split.
    + intros Hy. destruct (Z.lt_ge_cases y (vm_start (deref mm p))); [left; lia|right].
      exists p. split; [by left|lia].
    + intros [?|(q & ->%list_elem_of_singleton & ?)]; lia.
  - intros q y ->%list_elem_of_singleton Hy. unfold page_of. rewrite Hdp. simpl. f_equal.
    apply backing_shift; simpl; try done; try lia. intros _.
    rewrite (wrap_small (vm_start (deref mm p) - a)) by (unfold is_u64; lia).
    unfold wrap. rewrite Zplus_mod_idemp_l, Z.sub_add. by apply Z.mod_small.
Qed.

Lemma expand_downwards_ok k mm p pre post address :
  wf k mm -> mmap mm = pre ++ p :: post -> is_u64 address ->
  let a := address - address mod PAGE_SIZE in
  end_of (deref mm) 0 pre <= a ->
  exists mm' ret, expand_downwards p address mm = Some (mm', ret) /\
    (mm' = mm /\ (ret = Some (- ENOMEM) /\ (a < vm_start (deref mm p) -> can_grow (deref mm p) a = false) \/
                  ret = None /\ vm_start (deref mm p) <= a) \/
     ret = Some 0 /\ a < vm_start (deref mm p) /\ can_grow (deref mm p) a = true /\ grown_down k p a mm mm').
Proof.
  intros Hwf Hl Hu a Hlo. unfold expand_downwards. rewrite PAGE_MASK_round by done. fold a.
  destruct (a <? a -u stack_guard_gap) eqn:Hgap.
  { eexists _, _; split; [done|]. left. split; [done|]. left. split; [done|]. intros _. unfold can_grow. by rewrite Hgap. }
  destruct (pos_sorted k mm p pre post Hwf Hl) as (B1 & B2 & B3 & _). pose proof TASK_SIZE_u64.
  assert (Ha : page_aligned a /\ 0 <= a).
  { unfold a, page_aligned, is_u64 in *. rewrite PAGE_SIZE_eq.
    pose proof (Z.mod_le address 4096). split; [|lia].
    by rewrite Zminus_mod, Z.mod_mod, Z.sub_diag by lia. }
  destruct (Z.ltb_spec a (vm_start (deref mm p))) as [Hlt|Hge].
  2:{ eexists _, _. split; [done|]. left. auto. }
  rewrite (wrap_small (vm_start (deref mm p) - a)) by (unfold is_u64; lia).
  assert (Hss : vm_start (deref mm p) -u a = vm_start (deref mm p) - a) by (apply wrap_small; unfold is_u64; lia).
  assert (Hcg : can_grow (deref mm p) a = (Z.shiftr (vm_start (deref mm p) - a) PAGE_SHIFT <=? vm_pgoff (deref mm p)) &&
    (acct_stack_growth p (vm_end (deref mm p) -u a) (Z.shiftr (vm_start (deref mm p) - a) PAGE_SHIFT) mm =? 0)).
  { unfold can_grow, acct_stack_growth, may_expand_vm. rewrite Hgap, Hss. cbn [negb andb]. f_equal. by destruct (_STK_LIM <? _). }
  assert (Hga : grown_area a (deref mm p) = with_range a (vm_end (deref mm p))
    (vm_pgoff (deref mm p) -u Z.shiftr (vm_start (deref mm p) - a) PAGE_SHIFT) (deref mm p)) by (unfold grown_area; by rewrite Hss).
  set (grow := Z.shiftr (vm_start (deref mm p) - a) PAGE_SHIFT) in *.
  destruct (Z.leb_spec grow (vm_pgoff (deref mm p))) as [Hg|Hg]; [|by eexists _, _; split; [done|]; left; auto].
  destruct (acct_stack_growth p _ grow mm =? 0) eqn:Hacct; simpl.
  2:{ eexists _, _. split; [done|]. left. split; [done|]. left. unfold acct_stack_growth in *.
      simpl in Hacct |- *. split; [by case_match|done]. }
  set (mm1 := vm_stat_account (vm_flags (deref mm p)) grow mm).
  assert (Hm1 : vmas mm1 = vmas mm /\ mmap mm1 = mmap mm /\ total_vm mm1 = total_vm mm +u grow).
  { unfold mm1, vm_stat_account. by repeat case_match. }
  destruct Hm1 as (Hv1 & Hl1 & Ht1). assert (Hd1 : deref mm1 = deref mm) by (unfold deref; by rewrite Hv1).
  assert (Hw1 : wf k mm1) by (by apply wf_stat).
  destruct (adjust_grow_start k mm1 p pre post a (vm_pgoff (deref mm p) -u grow) None)
    as (t & _ & Hup & Hw); rewrite ?Hd1; try done; [by rewrite Hl1|apply Ha|apply wrap_range|].
  rewrite Hd1 in Hup, Hw. simpl in Hup, Hw.
  match goal with |- context [vma_gap_update p ?m] =>
    replace m with (upd_vma p (with_range a (vm_end (deref mm p)) (vm_pgoff (deref mm p) -u grow)) mm1)
      by (unfold upd_vma; by rewrite Hd1) end.
  rewrite Hup. simpl. match type of Hw with wf k ?m => set (mm' := m) in * end.
  eexists _, _. split; [done|]. right. split; [done|]. split; [done|]. split; [done|].
  assert (Hdp : deref mm' p = with_range a (vm_end (deref mm p)) (vm_pgoff (deref mm p) -u grow) (deref mm p)).
  { transitivity (deref (upd_vma p (with_range a (vm_end (deref mm p)) (vm_pgoff (deref mm p) -u grow)) mm1) p);
      [done|]. by rewrite deref_upd_eq, Hd1. }
  assert (Hdo : forall q, q <> p -> deref mm' q = deref mm q).
  { intros q Hq. rewrite <- Hd1. by apply (deref_upd_ne p q). }
  assert (Hpin : p ∈ mmap mm) by (rewrite Hl; set_solver).
  assert (Hmm : mmap mm' = mmap mm) by (by rewrite <- Hl1).
  split; [done|done|by rewrite Hdp|done|by rewrite Hdp| |done].
  by apply (grown_down_pages k mm mm' p a (vm_pgoff (deref mm p) -u grow)); try apply Ha.
Qed.

(** [find_extend_vma] never reaches the path of [expand_downwards] that returns an
    uninitialised value. *)
Lemma find_extend_vma_ok k mm addr :
  wf k mm -> is_u64 addr ->
  let a := addr - addr mod PAGE_SIZE in
  exists mm' o, find_extend_vma addr mm = Some (mm', o) /\
    match o with
    | None => mm' = mm /\ page_at mm a = None
    | Some p => p ∈ mmap mm /\ a < vm_end (deref mm p) /\
        (mm' = mm /\ vm_start (deref mm p) <= a \/
         has (vm_flags (deref mm p)) VM_GROWSDOWN = true /\ a < vm_start (deref mm p) /\
         (forall q, q ∈ mmap mm -> vm_end (deref mm q) <= a \/ vm_start (deref mm p) <= vm_start (deref mm q)) /\
         grown_down k p a mm mm')
    end.
Proof.
  intros Hwf Hu a. unfold find_extend_vma. rewrite PAGE_MASK_round by done. fold a.
  rewrite (find_vma_ok k) by done. destruct (first_above mm a) as [p|] eqn:Hf.
  2:{ eexists _, _. split; [done|]. split; [done|]. apply pages_None. intros q Hq ?.
      pose proof (first_above_None _ _ Hf q Hq). lia. }
  apply first_above_Some in Hf as (pre & post & Hl & Hend & Hpre).
  assert (Hp : p ∈ mmap mm) by (rewrite Hl; set_solver).
  pose proof (wf_sorted _ _ Hwf) as Hs. rewrite Hl in Hs. destruct (sorted_split _ _ _ _ _ Hs) as [_ Hpost].
  assert (Hout : forall q, q ∈ mmap mm -> vm_end (deref mm q) <= a \/ vm_start (deref mm p) <= vm_start (deref mm q)).
  { intros q Hq. rewrite Hl in Hq. pose proof (wf_bounds _ _ _ Hwf Hp).
    apply elem_of_app in Hq as [Hq|[->|Hq]%elem_of_cons]; [left; by apply Hpre|right; lia|right].
    apply Hpost in Hq. lia. }
  destruct (Z.leb_spec (vm_start (deref mm p)) a) as [Hle|Hlt].
  { eexists _, (Some p). split; [done|]. auto. }
  assert (Hno : page_at mm a = None).
  { apply pages_None. intros q Hq ?. destruct (Hout q Hq); lia. }
  destruct (has _ _) eqn:Hg; simpl; [|by eexists _, _].
  assert (Ha : is_u64 a /\ a mod PAGE_SIZE = 0).
  { unfold a, is_u64 in *. rewrite PAGE_SIZE_eq. pose proof (Z.mod_le addr 4096).
    pose proof (Z.mod_pos_bound addr 4096). rewrite Zminus_mod, Z.mod_mod, Z.sub_diag by lia.
    split; [lia|done]. }
  destruct Ha as [Hau Ham].
  destruct (expand_downwards_ok k mm p pre post a Hwf Hl Hau) as (mm' & ret & Hex & Hcase).
  { rewrite Ham, Z.sub_0_r. unfold end_of. destruct (list.last pre) eqn:E; [|apply Hau].
    apply Hpre. by apply last_Some_elem_of. }
  rewrite Ham, Z.sub_0_r in Hcase. unfold expand_stack. rewrite Hex. simpl.
  destruct Hcase as [(-> & [[-> _]|[-> ?]])|(-> & _ & _ & Hgd)]; [by eexists _, None|lia|].
  eexists _, (Some p). split; [done|]. split_and!; [done..|]. right. auto.
Qed.

(** ** Fork *)

(** The state of the child's address space while it is built: [highest_vm_end] is the
    parent's until the first area is linked. *)
Definition child_ok (k : Z) (mm : lego_mm) : Prop :=
  wf k (set_highest_vm_end (end_of (deref mm) 0 (mmap mm)) mm) /\
  (mmap mm <> [] -> highest_vm_end mm = end_of (deref mm) 0 (mmap mm)).

(** The area linked last has no right child: the next one goes there. *)
Lemma link_right own l tmp t :
  tree_ok own (l ++ [tmp]) t -> NoDup (l ++ [tmp]) -> link_at (LinkRight tmp) t (l ++ [tmp]) [].
Proof.
  intros (He & _ & _) Hn. unfold link_at. simpl.
  destruct (locate_complete tmp t []) as [[[[[c g] tl] tr] z] Hloc]; [rewrite He; set_solver|].
  rewrite Hloc. pose proof (locate_sound _ _ _ _ _ _ _ _ Hloc) as Hpl. simpl in Hpl.
  pose proof Hpl as Hel. apply (f_equal elements) in Hel. rewrite He, elements_plug in Hel.
  simpl in Hel. rewrite <- !app_assoc in Hel. simpl in Hel.
  rewrite (app_assoc (before z)) in Hel.
  pose proof Hn as Hn'. rewrite <- Hel in Hn'.
  apply NoDup_split in Hn as [Hn _], Hn' as [Hn' _].
  apply not_elem_of_app_cons_inv_l in Hel as (Hl & _ & Hr); [|done..].
  apply app_eq_nil in Hr as [Hr Hz].
  destruct tr as [|? ? trl ? trr]; [|simpl in Hr; by destruct (elements trl)].
  eexists. split; [done|]. split; [done|]. simpl. by rewrite app_assoc, Hl, Hz.
Qed.

(** The child's area of the parent's [v] *)
Definition dup_area (v : vm_area) : vm_area := with_flags (fork_flags (vm_flags v)) v.
Definition dup_page (g : page) : page := mk_page (pg_backing g) (fork_flags (pg_flags g)).
Definition vmainfo_of (v : vm_area) : fork_vmainfo := mk_vmainfo (vm_start v) (vm_end v) (vm_flags v).

(** [mm] has copies of the first areas [done] of [oldmm]. *)
Record duplicated (oldmm mm : lego_mm) (copies : list ptr) : Prop := {
  dup_areas : Forall2 (fun p q => deref mm q = dup_area (deref oldmm p)) copies (mmap mm);
  dup_files : forall f, file_count mm f = file_count oldmm f + refs (deref oldmm) f copies
}.

Lemma Forall2_impl_in {A B} (P Q : A -> B -> Prop) l k :
  Forall2 P l k -> (forall x y, y ∈ k -> P x y -> Q x y) -> Forall2 Q l k.
Proof.
  induction 1 as [|x y l k Hxy Hlk IH]; intros HPQ; constructor; [apply HPQ; [by left|done]|].
  apply IH. intros x' y' Hy. apply HPQ. by right.
Qed.

Lemma dup_end oldmm mm copies : duplicated oldmm mm copies ->
  end_of (deref mm) 0 (mmap mm) = end_of (deref oldmm) 0 copies.
Proof.
  intros [Hf _]. revert Hf. generalize (mmap mm) 0. induction copies as [|p l IH]; intros l' lo Hf;
    inversion Hf as [|? q ? l'' Hq Hl]; subst; [done|]. rewrite !end_of_cons, Hq. by apply IH.
Qed.

Lemma dup_pages oldmm mm x : duplicated oldmm mm (mmap oldmm) ->
  page_at mm x = dup_page <$> page_at oldmm x.
Proof.
  intros [Hf _]. revert Hf. unfold page_at. generalize (mmap mm). induction (mmap oldmm) as [|p l IH];
    intros l' Hf; inversion Hf as [|? q ? l'' Hq Hl]; subst; [done|]. simpl. rewrite Hq.
  unfold covers. simpl. destruct (_ && _); [done|by apply IH].
Qed.

Section ForkProofs.
Context `{KmallocFresh} (copied : pgt_call -> Z).

(** One round of the loop *)
Lemma dup_link k mm tmp v lk :
  child_ok k mm -> link_at lk (mm_rb mm) (mmap mm) [] -> vmas mm !! tmp = None ->
  area_ok v -> end_of (deref mm) 0 (mmap mm) <= vm_start v -> vm_start v < vm_end v <= TASK_SIZE ->
  let mm2 := set_mmap (mmap mm ++ [tmp])
    (get_file_opt (vm_file v) (set_vmas (<[tmp := v]> (vmas mm)) mm)) in
  exists t, __vma_link_rb tmp lk mm2 = Some (set_mm_rb t (set_highest_vm_end (vm_end v) mm2)) /\
    child_ok k (set_map_count (map_count mm + 1) (set_mm_rb t (set_highest_vm_end (vm_end v) mm2))) /\
    link_at (LinkRight tmp) t (mmap mm ++ [tmp]) [].
Proof using H0.
  intros [Hwf _] Hlk Hfr Hok Hlo Hr mm2.
  assert (Hnin : tmp ∉ mmap mm).
  { intros Hin. destruct (wf_live _ _ Hwf tmp Hin). simpl in *. congruence. }
  assert (Hm2 : mmap mm2 = mmap mm ++ [tmp] /\ mm_rb mm2 = mm_rb mm /\ vmas mm2 = <[tmp := v]> (vmas mm) /\
    map_count mm2 = map_count mm) by (unfold mm2; by destruct (vm_file v)).
  destruct Hm2 as (Hl2 & Hr2 & Hv2 & Hc2).
  assert (Hd : deref mm2 tmp = v) by (unfold deref; by rewrite Hv2, lookup_total_insert_eq).
  assert (Hdo : forall q, q ∈ mmap mm -> deref mm2 q = deref mm q).
  { intros q Hq. unfold deref. rewrite Hv2, lookup_total_insert_ne; [done|]. by intros ->. }
  assert (Hs : sorted (deref mm2) 0 (mmap mm ++ [tmp])).
  { apply sorted_app. split.
    - eapply sorted_ext; [|exact (wf_sorted _ _ Hwf)]. intros q Hq. by rewrite Hdo.
    - simpl. rewrite Hd. rewrite (end_of_ext _ (deref mm)) by (intros q Hq; by rewrite Hdo).
      split_and!; try done; lia. }
  pose proof (sorted_NoDup _ _ _ Hs) as Hn.
  assert (Hgap : forall x, x ∈ mmap mm ++ [] -> hd_error [] <> Some x -> own_gap mm x = own_gap mm2 x).
  { rewrite app_nil_r. intros x Hx _. pose proof (wf_bounds _ _ _ Hwf Hx) as Hb. simpl in Hb.
    pose proof (wf_NoDup _ _ Hwf) as Hn0. simpl in Hn0. pose proof TASK_SIZE_u64.
    apply list_elem_of_split in Hx as (l1 & l2 & Hx).
    eapply (own_gap_same mm mm2 x l1 l2 l1 (l2 ++ [tmp])); rewrite ?Hl2; try done.
    - by rewrite Hx, <- app_assoc.
    - unfold deref in *. simpl in *. unfold is_u64. lia.
    - rewrite Hdo; [done|]. rewrite Hx. set_solver.
    - apply end_of_ext. intros q Hq. rewrite Hdo; [done|]. rewrite Hx. set_solver. }
  destruct (vma_link_rb_ok (own_gap mm) mm2 tmp lk (mmap mm) []) as (t & Ht & Heq); rewrite ?Hr2, ?Hl2; auto.
  { rewrite app_nil_r. exact (wf_tree _ _ Hwf). }
  { intros x Hx. rewrite app_nil_r in Hx. pose proof (wf_bounds _ _ _ Hwf Hx) as Hb. unfold own_gap.
    destruct (vm_prev _ x); [apply wrap_range|]. rewrite Hdo by done. apply Hb. }
  rewrite Hd in Heq. exists t. split; [exact Heq|]. split; [|by eapply link_right].
  set (mm3 := set_map_count _ _).
  assert (Hd3 : deref mm3 = deref mm2) by done. assert (Hl3 : mmap mm3 = mmap mm ++ [tmp]) by done.
  split; [|intros _; rewrite Hl3, Hd3, end_of_snoc, Hd; done].
  split; simpl; [| | |exact Ht|done|].
  - intros q Hq. change (q ∈ mmap mm ++ [tmp]) in Hq. change (is_Some (vmas mm2 !! q)). rewrite Hv2.
    apply elem_of_app in Hq as [Hq| ->%list_elem_of_singleton]; [|rewrite lookup_insert_eq; eauto].
    rewrite lookup_insert_ne by (by intros ->). by apply (wf_live _ _ Hwf).
  - exact Hs.
  - intros q Hq. change (q ∈ mmap mm ++ [tmp]) in Hq. change (area_ok (deref mm2 q)).
    apply elem_of_app in Hq as [Hq| ->%list_elem_of_singleton]; [|by rewrite Hd].
    rewrite Hdo by done. exact (wf_area _ _ Hwf q Hq).
  - pose proof (wf_count _ _ Hwf) as Hc. simpl in Hc. unfold mm3. simpl. rewrite Hc, length_app. simpl. lia.
Qed.

Lemma dup_extend oldmm mm copies p tmp mm' :
  duplicated oldmm mm copies -> (tmp ∉ mmap mm) ->
  mmap mm' = mmap mm ++ [tmp] -> vmas mm' = <[tmp := dup_area (deref oldmm p)]> (vmas mm) ->
  f_count mm' = f_count (get_file_opt (vm_file (deref oldmm p)) mm) ->
  duplicated oldmm mm' (copies ++ [p]).
Proof using.
  intros [Ha Hf] Hnin Hl Hv Hc. split.
  - rewrite Hl. apply Forall2_app.
    + eapply Forall2_impl_in; [exact Ha|]. intros x y Hy <-. unfold deref.
      rewrite Hv, lookup_total_insert_ne; [done|]. by intros ->.
    + constructor; [|constructor]. unfold deref at 1. by rewrite Hv, lookup_total_insert_eq.
  - intros f. unfold file_count at 1. rewrite Hc.
    change (file_count (get_file_opt (vm_file (deref oldmm p)) mm) f
      = file_count oldmm f + refs (deref oldmm) f (copies ++ [p])).
    rewrite file_count_get, Hf, refs_app. simpl. lia.
Qed.

Lemma dup_loop_ok k oldmm l : forall copies lk reply mm,
  wf k oldmm -> mmap oldmm = copies ++ l ->
  child_ok (map_count oldmm) mm -> link_at lk (mm_rb mm) (mmap mm) [] ->
  duplicated oldmm mm copies -> reply = map (fun p => vmainfo_of (deref oldmm p)) copies ->
  exists mm' reply' ret, dup_loop copied oldmm l lk reply mm = Some (mm', reply', ret) /\
    child_ok (map_count oldmm) mm' /\
    (ret = 0 -> duplicated oldmm mm' (mmap oldmm) /\
       reply' = map (fun p => vmainfo_of (deref oldmm p)) (mmap oldmm) /\
       settings mm' = settings mm /\ counters mm' = counters mm /\
       (mmap oldmm = [] -> highest_vm_end mm' = highest_vm_end mm)) /\
    (ret <> 0 -> ret = - ENOMEM \/ exists p, p ∈ mmap oldmm /\ ret = copied (Copy_page_range p)).
Proof using H0.
  induction l as [|p l IH]; intros copies lk reply mm Hwf Hl Hch Hlk Hdup ->; simpl.
  { rewrite app_nil_r in Hl. rewrite Hl. eexists _, _, _. split; [done|]. split; [done|]. split; [by intros _|done]. }
  destruct (kmalloc mm) as [tmp|] eqn:Hk.
  2:{ eexists _, _, _. split; [done|]. split; [done|]. split; [done|auto]. }
  pose proof (kmalloc_fresh _ _ Hk) as Hfr.
  assert (Hnin : tmp ∉ mmap mm).
  { intros Hin. destruct (wf_live _ _ (proj1 Hch) tmp Hin). simpl in *. congruence. }
  destruct (pos_sorted k oldmm p copies l Hwf Hl) as (B1 & B2 & B3 & _).
  assert (Hp : p ∈ mmap oldmm) by (rewrite Hl; set_solver).
  set (v := with_flags _ _).
  destruct (dup_link _ mm tmp v lk Hch Hlk Hfr) as (t & Heq & Hch' & Hlk').
  { exact (wf_area _ _ Hwf p Hp). }
  { rewrite (dup_end _ _ _ Hdup). exact B1. }
  { simpl. lia. }
  set (mm1 := get_file_opt _ _) in *.
  assert (Hm1 : mmap mm1 = mmap mm) by (unfold mm1; by destruct (vm_file v)).
  rewrite Hm1, Heq. simpl. clear Heq. set (mm3 := log_pgt _ _).
  assert (Hdup3 : duplicated oldmm mm3 (copies ++ [p])).
  { eapply (dup_extend _ mm _ _ tmp); try done; unfold mm3, mm1; simpl; by destruct (vm_file (deref oldmm p)). }
  assert (Hmc : map_count mm1 = map_count mm) by (unfold mm1; by destruct (vm_file v)).
  assert (Hch3 : child_ok (map_count oldmm) mm3).
  { destruct Hch' as [[] ?]. unfold mm3. rewrite Hmc. by split. }
  destruct (Z.eqb_spec (copied (Copy_page_range p)) 0) as [Hz|Hz]; simpl.
  2:{ eexists _, _, _. split; [done|]. split; [done|]. split; [done|eauto]. }
  destruct (IH (copies ++ [p]) (LinkRight tmp)
    (map (fun p => vmainfo_of (deref oldmm p)) copies ++ [vmainfo_of (deref oldmm p)]) mm3)
    as (mm' & reply' & ret & HIH & ? & Hok & Hbad); try done.
  { by rewrite Hl, <- app_assoc. }
  { by rewrite map_app. }
  eexists _, _, _. split; [exact HIH|]. split; [done|]. split; [|done].
  intros Hret. destruct (Hok Hret) as (? & ? & Hse & Hco & _). split_and!; try done.
  - rewrite Hse. unfold mm3, mm1, settings. by destruct (vm_file v).
  - rewrite Hco. unfold mm3, mm1, counters. by destruct (vm_file v).
  - rewrite Hl. by destruct copies.
Qed.

End ForkProofs.

(** The finished child *)
Lemma child_wf k oldmm mm :
  wf k oldmm -> child_ok (map_count oldmm) mm -> duplicated oldmm mm (mmap oldmm) ->
  (mmap oldmm = [] -> highest_vm_end mm = highest_vm_end oldmm) -> wf (map_count oldmm) mm.
Proof.
  intros Hwf [Hw Hhi] Hdup Hemp.
  assert (Hh : highest_vm_end mm = end_of (deref mm) 0 (mmap mm)).
  { destruct (mmap mm) as [|q l] eqn:Hm; [|by apply Hhi].
    pose proof (dup_areas _ _ _ Hdup) as Hf. rewrite Hm in Hf. apply Forall2_nil_inv_r in Hf.
    rewrite Hemp, (wf_highest _ _ Hwf), Hf by done. done. }
  rewrite <- Hh in Hw. by destruct mm.
Qed.

(** ** Exit *)

Lemma exit_ok k mm :
  wf k mm ->
  let mm' := exit_lego_mmap mm in
  (forall p, p ∈ mmap mm -> vmas mm' !! p = None) /\
  (forall f, file_count mm' f = file_balance mm f) /\
  pgt_log mm' = pgt_log mm ++ unmap_calls (deref mm) (mmap mm) ++
    match mmap mm with
    | [] => []
    | l => [Free_pgtables (ranges (deref mm) l) FIRST_USER_ADDRESS USER_PGTABLES_CEILING]
    end.
Proof.
  intros Hwf mm'. pose proof (wf_NoDup _ _ Hwf) as Hn. unfold mm', exit_lego_mmap, file_balance.
  destruct (mmap mm) as [|p l] eqn:Hl; [simpl; rewrite app_nil_r; split_and!; try done|].
  { by intros p ?%not_elem_of_nil. }
  { intros f. lia. }
  rewrite <- Hl in Hn |- *. rewrite unmap_vmas_log.
  2:{ intros q Hq. pose proof (wf_bounds _ _ _ Hwf Hq). pose proof TASK_SIZE_u64. unfold ULONG_MAX. lia. }
  set (mm1 := log_pgt _ _). destruct (remove_list_heap (mmap mm) mm1 Hn) as (_ & V & F & _ & _ & L).
  split_and!.
  - intros q Hq. rewrite V. by rewrite decide_True.
  - done.
  - rewrite L. unfold mm1, log_pgt, with_log. simpl. by rewrite <- app_assoc.
Qed.

(** ** msync *)

(** An area whose pages [do_msync] would have to write back *)
Definition to_sync (flags : Z) (v : vm_area) : bool :=
  has flags MS_SYNC && bool_decide (is_Some (vm_file v)) && has (vm_flags v) VM_SHARED.

(** Every byte of [start, last) is in an area of [l] that needs no writing back. *)
Definition msync_clean (flags : Z) (a : ptr -> vm_area) (l : list ptr) (start last : Z) : Prop :=
  forall x, start <= x < last ->
    exists p, p ∈ l /\ vm_start (a p) <= x < vm_end (a p) /\ to_sync flags (a p) = false.

(** The byte [x] is in no area of [l], or in one to write back. *)
Lemma not_clean flags a l start last x :
  start <= x < last ->
  (forall p, p ∈ l -> vm_start (a p) <= x < vm_end (a p) -> to_sync flags (a p) = true) ->
  ~ msync_clean flags a l start last.
Proof. intros Hx Hp Hc. destruct (Hc x Hx) as (p & Hin & Hr & Hs). specialize (Hp p Hin Hr). congruence. Qed.

Lemma clean_cons flags a lo p l start last :
  sorted a lo (p :: l) -> vm_start (a p) <= start -> vm_end (a p) < last -> to_sync flags (a p) = false ->
  start < vm_end (a p) ->
  msync_clean flags a (p :: l) start last <-> msync_clean flags a l (vm_end (a p)) last.
Proof.
  intros (_ & _ & _ & Hs) Hst He Hy Hse. split; intros Hc x Hx.
  - destruct (Hc x) as (q & Hq & Hr & Hy'); [lia|]. apply elem_of_cons in Hq as [->|Hq]; [lia|].
    exists q. done.
  - destruct (Z.lt_ge_cases x (vm_end (a p))).
    + exists p. split; [by left|]. split; [lia|done].
    + destruct (Hc x) as (q & Hq & ? & ?); [lia|]. exists q. split; [by right|done].
Qed.

Lemma msync_loop_ok mm flags last l : forall lo start ue,
  sorted (deref mm) lo l -> start < last ->
  (forall p, hd_error l = Some p -> start < vm_end (deref mm p)) -> ue = 0 \/ ue = - ENOMEM ->
  let ret := msync_loop l start last flags ue mm in
  ret = 0 /\ ue = 0 /\ msync_clean flags (deref mm) l start last \/
  ret = - ENOMEM /\ (ue = - ENOMEM \/ ~ msync_clean flags (deref mm) l start last).
Proof.
  induction l as [|p l IH]; intros lo start ue Hs Hlt Hhd Hue ret.
  { right. split; [unfold ret; simpl; by destruct Hue as [->| ->]|]. right.
    apply (not_clean _ _ _ _ _ start); [lia|]. by intros p ?%not_elem_of_nil. }
  specialize (Hhd p eq_refl). pose proof Hs as (Hlo & Hne & _ & Hs').
  assert (Hlater : forall q, q ∈ l -> vm_end (deref mm p) <= vm_start (deref mm q)).
  { intros q Hq. by destruct (sorted_bounds _ _ _ _ Hs' Hq). }
  assert (Hnext : forall q, hd_error l = Some q -> vm_end (deref mm p) < vm_end (deref mm q)).
  { intros q Hq. destruct l as [|q' l']; [done|]. injection Hq as ->.
    destruct (sorted_bounds _ _ _ q Hs'); [by left|lia]. }
  unfold ret. simpl. change (has flags MS_SYNC && bool_decide (is_Some (vm_file (deref mm p)))
    && has (vm_flags (deref mm p)) VM_SHARED) with (to_sync flags (deref mm p)).
  destruct (Z.ltb_spec start (vm_start (deref mm p))) as [Hhole|Hin]; simpl.
  - assert (Hn : ~ msync_clean flags (deref mm) (p :: l) start last).
    { apply (not_clean _ _ _ _ _ start); [lia|]. intros q [->|Hq]%elem_of_cons ?; [lia|].
      apply Hlater in Hq. lia. }
    right. split; [|by right]. destruct (last <=? _); [by destruct Hue as [->| ->]|].
    destruct (to_sync _ _); [done|]. destruct (Z.leb_spec last (vm_end (deref mm p))); [done|].
    destruct (IH (vm_end (deref mm p)) (vm_end (deref mm p)) (- ENOMEM) Hs') as [(_ & ? & _)|[-> _]]; auto; done.
  - destruct (to_sync flags (deref mm p)) eqn:Hy.
    { right. split; [by destruct Hue as [->| ->]|]. right. apply (not_clean _ _ _ _ _ start); [lia|].
      intros q [->|Hq]%elem_of_cons ?; [done|]. apply Hlater in Hq. lia. }
    destruct (Z.leb_spec last (vm_end (deref mm p))).
    { destruct Hue as [->| ->]; [left|right; by auto]. split_and!; try done.
      intros x Hx. exists p. split; [by left|]. split; [lia|done]. }
    pose proof (clean_cons flags (deref mm) lo p l start last Hs Hin ltac:(lia) Hy Hhd) as Hc.
    destruct (IH (vm_end (deref mm p)) (vm_end (deref mm p)) ue Hs') as [(-> & ? & ?)|[-> ?]]; auto;
      [left|right]; rewrite Hc; auto.
Qed.

Lemma do_msync_ok k mm start last flags :
  wf k mm -> start < last ->
  let ret := do_msync start last flags mm in
  ret = 0 /\ msync_clean flags (deref mm) (mmap mm) start last \/
  ret = - ENOMEM /\ ~ msync_clean flags (deref mm) (mmap mm) start last.
Proof.
  intros Hwf Hlt. unfold do_msync. rewrite (find_vma_ok k) by done.
  destruct (first_above mm start) as [p|] eqn:Hf.
  2:{ right. split; [done|]. apply (not_clean _ _ _ _ _ start); [lia|].
      intros q Hq ?. pose proof (first_above_None _ _ Hf q Hq). lia. }
  apply first_above_Some in Hf as (pre & post & Hl & Hend & Hpre).
  pose proof (wf_sorted _ _ Hwf) as Hs. pose proof (wf_NoDup _ _ Hwf) as Hn. rewrite Hl in Hs, Hn |- *.
  rewrite from_elem_app by (by apply NoDup_split in Hn as [? _]).
  apply sorted_app in Hs as [_ Hs].
  assert (Hiff : msync_clean flags (deref mm) (pre ++ p :: post) start last <->
    msync_clean flags (deref mm) (p :: post) start last).
  { split; intros Hc x Hx; destruct (Hc x Hx) as (q & Hq & ? & ?); exists q; (split; [|done]).
    - apply elem_of_app in Hq as [Hq|Hq]; [apply Hpre in Hq; lia|done].
    - apply elem_of_app. by right. }
  destruct (msync_loop_ok mm flags last (p :: post) _ start 0 Hs Hlt) as [(-> & _ & ?)|[-> [?|?]]];
    [by intros q [= <-]|by left|left; by rewrite Hiff|done|right; by rewrite Hiff].
Qed.
