(* ===== verification/VmaTheorems.v ===== *)
(** * Memory manager, virtual memory areas: the theorems

    The properties of the address-space operations, each with an example that
    satisfies its hypotheses. *)

From S2P Require Import Prelude RbTree VmaModel VmaTree VmaInv VmaAdjust VmaSpec.
From S2P Require Import VmaUnmap VmaGap VmaMerge VmaMap VmaRemap VmaLife.

(** ** An address space for the examples

    Three anonymous pages at 0x1000, a hole, and four pages of the file 7 at 0x8000 *)

Definition anon_vma : vm_area := mk_vma 4096 16384 PAGE_COPY 3 None 1 None.
Definition file_vma : vm_area := mk_vma 32768 49152 PAGE_READONLY 1 (Some storage_vma_ops) 2 (Some 7).

Definition ex_mm : lego_mm :=
  mk_mm {[1%positive := anon_vma; 2%positive := file_vma]} [1%positive; 2%positive]
    (Node RB_BLACK 16384 Leaf 1%positive (Node RB_RED 16384 Leaf 2%positive Leaf))
    49152 1048576 524288 2 7 3 0 0 0 16384 16384 {[7 := 1]} [].

(** One page at 0x200000 and a stack of two pages at 0x204000 *)
Definition stack_vma : vm_area := mk_vma 2113536 2121728 PAGE_COPY (Z.lor 3 VM_GROWSDOWN) None 516 None.
Definition ex_stack : lego_mm :=
  mk_mm {[1%positive := mk_vma 2097152 2101248 PAGE_COPY 3 None 512 None; 3%positive := stack_vma]}
    [1%positive; 3%positive]
    (Node RB_BLACK 2097152 Leaf 1%positive (Node RB_RED 12288 Leaf 3%positive Leaf))
    2121728 1048576 524288 2 3 1 0 2 0 16384 16384 ∅ [].

(** An allocator that never fails *)
#[export] Instance ex_kmalloc : Kmalloc := fun mm => Some (fresh (dom (vmas mm))).
#[export] Instance ex_kmalloc_fresh : KmallocFresh.
Proof. intros mm p [= <-]. apply not_elem_of_dom, is_fresh. Qed.

Ltac ex_wf_solve :=
  split; simpl;
  [ intros p Hp; repeat (apply elem_of_cons in Hp as [->|Hp]; [by eexists|]); by apply not_elem_of_nil in Hp
  | vm_compute; intuition discriminate
  | intros p Hp; repeat (apply elem_of_cons in Hp as [->|Hp]; [vm_compute; intuition discriminate|]);
    by apply not_elem_of_nil in Hp
  | split; [done|]; split; [exists 1%nat; repeat econstructor|]; vm_compute; done
  | done | done ].

Lemma ex_wf : wf 0 ex_mm.
Proof. ex_wf_solve. Qed.

Lemma ex_stack_wf : wf 0 ex_stack.
Proof. ex_wf_solve. Qed.

Lemma ex_layout : layout_ok ex_mm.
Proof. vm_compute. intuition discriminate. Qed.

Lemma ex_alloc : forall m, is_Some (kmalloc m).
Proof. intros m. by eexists. Qed.

(** Discharges the side conditions of the examples. *)
Ltac ex_solve :=
  first [ exact ex_wf | exact ex_stack_wf | exact ex_layout | exact ex_alloc
        | vm_compute; first [ reflexivity | done | intuition discriminate ] ].

Section Theorems.
Context `{KmallocFresh}.

(** ** Mapping and unmapping *)

(** (C4) [do_mmap] (mmap of anonymous memory or of a file) never dereferences a null
    pointer nor reaches a BUG.  It returns an error, and then no page has been added
    or altered: every page is as before, except that a MAP_FIXED request may have
    removed the old mappings of its range; or it returns the
    page-aligned address [r] of a range in user space: the requested one with
    MAP_FIXED, one that was free without.  Then each page of the range is backed by the
    requested file page or is anonymous, every other page keeps its backing, and the
    invariant holds again.  The pages of the range have the flags of the request, and all
    others keep their flags, unless the pages next to the range have the same file and
    other flags: the areas may then be joined, with one set of flags for both. *)
Theorem mmap_correct k mm file addr len prot flags pgoff :
  wf k mm -> layout_ok mm -> is_u64 addr -> is_u64 len -> is_u64 pgoff ->
  exists mm' r, do_mmap file addr len prot flags 0 pgoff mm = Some (mm', r) /\ wf k mm' /\
    (is_error r /\
       (forall x, page_at mm' x = page_at mm x \/ has flags MAP_FIXED = true /\
          addr <= x < addr + PAGE_ALIGN len /\ page_at mm' x = None) \/
     mmap_done k file addr (PAGE_ALIGN len) prot flags pgoff mm mm' r /\
       exists pgoff', (file <> None -> pgoff' = pgoff) /\
         let last := r + PAGE_ALIGN len in
         let nv := new_area file r (PAGE_ALIGN len) (requested_flags file prot flags mm) pgoff' in
         (forall x, backing_at mm' x = if in_range r last x then Some (backing_of nv x) else backing_at mm x) /\
         ((forall x g, x = r - 1 \/ x = last -> page_at mm x = Some g -> bk_file (pg_backing g) = vm_file nv -> pg_flags g = vm_flags nv) ->
          forall x, page_at mm' x = if in_range r last x then Some (page_of nv x) else page_at mm x)).
Proof.
  intros Hwf Hlay Ha Hl Hp.
  destruct (do_mmap_ok k mm file addr len prot flags pgoff Hwf Hlay Ha Hl Hp) as (mm' & r & Heq & Hres).
  exists mm', r. split; [done|]. destruct Hres as [[He [->|(s & nv & Ho & Hfx & Hfr)]]|Hd].
  - split; [done|]. left. split; [done|]. by left.
  - split; [by eapply map_outcome_wf|]. left. split; [done|]. intros x.
    destruct (has flags MAP_FIXED) eqn:Hf; [|left; eapply map_failed_pages; [exact Ho|by apply Hfr]].
    rewrite Hfx in Ho by done. by destruct (map_failed_range _ _ _ _ _ _ x Ho) as [?|[? ?]]; [left|right].
  - pose proof Hd as [_ _ _ (pg & Ho & Hpg)]. split; [by eapply map_outcome_wf|].
    right. split; [done|]. exists pg. split; [done|]. split; [intros x; by eapply map_outcome_backing|]. by eapply map_outcome_pages.
Qed.

(** The mmap request handler.  The reply is a negative error number without an
    address, or 0 with the address of a mapping as requested; an address is never taken for an error nor an error for an address. *)
Theorem handle_mmap_correct k mm killed opened addr len prot flags pgoff :
  wf k mm -> layout_ok mm -> is_u64 addr -> is_u64 len -> is_u64 pgoff ->
  exists mm' ret a, handle_p2m_mmap killed opened addr len prot flags pgoff (Some mm) = Some (Some mm', ret, a) /\
    wf k mm' /\
    (ret < 0 /\ a = None \/
     ret = 0 /\ killed = false /\ exists r file, a = Some r /\
       file = (if has flags MAP_ANONYMOUS then None else opened) /\
       mmap_done k file addr (PAGE_ALIGN len) prot
         (Z.ldiff flags (Z.lor MAP_EXECUTABLE MAP_DENYWRITE)) pgoff mm mm' r).
Proof.
  intros Hwf Hlay Ha Hl Hp. unfold handle_p2m_mmap. set (fl := Z.ldiff _ _).
  assert (Hrun : forall file, exists mm' ret a,
    ('(mm1, r) ← vm_mmap_pgoff killed file addr len prot fl pgoff mm;
     if to_long r <? 0 then Some (Some mm1, to_long r, None) else Some (Some mm1, 0, Some r)) = Some (Some mm', ret, a) /\
    wf k mm' /\ (ret < 0 /\ a = None \/ ret = 0 /\ killed = false /\ exists r, a = Some r /\
       mmap_done k file addr (PAGE_ALIGN len) prot fl pgoff mm mm' r)).
  { intros file. unfold vm_mmap_pgoff. destruct killed;
      [eexists _, _, _; split; [done|]; split; [done|]; by left|].
    destruct (do_mmap_ok k mm file addr len prot fl pgoff Hwf Hlay Ha Hl Hp) as (mm' & r & Heq & Hres).
    unfold do_mmap_pgoff. rewrite Heq. simpl. destruct Hres as [[He Ho]|Hd].
    - assert (Hw : wf k mm').
      { destruct Ho as [->|(s & nv & Ho & _)]; [done|]. by eapply map_outcome_wf. }
      assert (Hneg : to_long r < 0) by (by apply is_error_to_long).
      rewrite (proj2 (Z.ltb_lt _ _) Hneg). eexists _, _, _. split; [done|]. split; [done|]. by left.
    - pose proof Hd as [(_ & R1 & R2 & R3) _ _ (pg & Ho & _)].
      assert (Hpos : to_long r = r).
      { unfold to_long. rewrite (proj2 (Z.ltb_lt r (2 ^ 63))); [done|]. assert (TASK_SIZE < 2 ^ 63) by done. lia. }
      rewrite Hpos, (proj2 (Z.ltb_ge r 0)) by lia. eexists _, _, _. split; [done|].
      split; [by eapply map_outcome_wf|]. right. eauto. }
  destruct (has flags MAP_ANONYMOUS).
  - destruct (Hrun None) as (mm' & ret & a & Heq & ? & Hc). exists mm', ret, a. split; [exact Heq|]. split; [done|].
    destruct Hc as [?|(? & ? & r & ? & ?)]; [by left|right]. eauto 10.
  - destruct opened as [f|]; [|by eexists _, _, _; split; [done|]; split; [done|]; left].
    destruct (Hrun (Some f)) as (mm' & ret & a & Heq & ? & Hc). exists mm', ret, a. split; [exact Heq|]. split; [done|].
    destruct Hc as [?|(? & ? & r & ? & ?)]; [by left|right]. eauto 10.
Qed.

(** (C37) mmap succeeds.  When the allocator does not fail, the process is below the
    limit on areas and some free range of the rounded length lies between the first
    page and [mmap_base], a private anonymous request without MAP_FIXED is granted:
    failure is never spurious. *)
Theorem mmap_succeeds k mm addr len prot flags s :
  wf k mm -> layout_ok mm -> is_u64 addr -> 0 < len <= TASK_SIZE ->
  has flags MAP_FIXED = false -> Z.land flags MAP_TYPE = MAP_PRIVATE ->
  (forall m, is_Some (kmalloc m)) -> map_count mm < sysctl_max_map_count ->
  free_range mm s (PAGE_ALIGN len) -> PAGE_SIZE <= s -> s + PAGE_ALIGN len <= mmap_base mm ->
  exists mm' r, do_mmap None addr len prot flags 0 0 mm = Some (mm', r) /\
    mmap_done k None addr (PAGE_ALIGN len) prot flags 0 mm mm' r.
Proof. apply do_mmap_succeeds. Qed.

(** (C3) [do_munmap].  Always returns: -EINVAL, with nothing changed, exactly when the
    range is not a page-aligned non-empty range of user space; -ENOMEM only if the
    allocator can fail or the process is at its limit of areas, and then every page is
    as before (an area may have been split); 0 otherwise, and then exactly the pages of
    the range (rounded up) are gone, all others keep backing and flags, file reference counts match the areas again, the page-table layer has been told to unmap every mapped
    page of the range and nothing outside, and it frees tables only where no area remains. *)
Theorem munmap_correct k mm start len :
  wf k mm -> is_u64 start -> is_u64 len ->
  exists mm' ret, do_munmap start len mm = Some (mm', ret) /\
    (ret = - EINVAL /\ mm' = mm /\ ~ valid_range start len \/
     valid_range start len /\
       (ret = - ENOMEM /\ split_spec k mm mm' /\ exhausted mm \/
        ret = 0 /\ unmapped k start (start + PAGE_ALIGN len) mm mm')).
Proof. apply do_munmap_ok. Qed.

(** [mmap_region].  Mapping over any valid range first removes what was there,
    then joins the new area to its neighbours or links a new one: the outcome is the
    range backed as requested (and [addr] is returned), or -ENOMEM with at most the old mappings of the range gone. *)
Theorem mmap_region_correct k mm file addr len flags pgoff :
  wf k mm -> valid_range addr len -> page_aligned len -> file_ok file -> is_u64 pgoff ->
  exists mm' r ok, mmap_region file addr len flags pgoff mm = Some (mm', r) /\
    map_outcome k addr (addr + len) (new_area file addr len flags pgoff) mm mm' ok /\
    r = (if ok then addr else err_ul ENOMEM).
Proof. apply mmap_region_ok. Qed.

(** The loop of [mmap_region] and [do_brk] that unmaps old mappings ends after at most
    one unmapping: with any fuel of at least one it has a result, which is -ENOMEM or the
    place where the new area has to be linked, between the areas below and above the range. *)
Theorem clear_old_maps_terminates k mm addr len fuel :
  wf k mm -> valid_range addr len -> page_aligned len -> (1 <= fuel)%nat ->
  exists mm1 res, clear_old_maps fuel addr len mm = Some (mm1, res) /\
    (res = inl (- ENOMEM) /\ split_spec k mm mm1 /\ exhausted mm \/
     exists lk pre post, res = inr lk /\ unmapped k addr (addr + len) mm mm1 /\
       mmap mm1 = pre ++ post /\ links_at mm1 lk pre post /\
       (forall q, q ∈ pre -> vm_end (deref mm1 q) <= addr) /\
       (forall q, q ∈ post -> addr + len <= vm_start (deref mm1 q))).
Proof. apply clear_old_maps_ok. Qed.

(** (C36) The brk request.  The break moves to the requested value, with the heap pages
    between the two rounded breaks added or removed and every other page's backing
    kept; or the break and every page stay as they were. *)
Theorem brk_correct k mm brk0 :
  wf k mm -> layout_ok mm -> is_u64 brk0 -> 0 <= brk mm <= TASK_SIZE ->
  exists mm', brk_body brk0 mm = Some mm' /\ wf k mm' /\
    (brk mm' = brk mm /\ (forall x, page_at mm' x = page_at mm x) \/
     brk mm' = brk0 /\ start_brk mm <= brk0 /\
       brk_moved mm mm' (PAGE_ALIGN (brk mm)) (PAGE_ALIGN brk0)).
Proof. apply brk_body_ok. Qed.

(** (C38) The mremap request, for page-aligned non-empty lengths and an old range in user
    space.  It never crashes (in particular [copy_vma] never joins a file-backed area to
    its own copy, which is a BUG in the code) and keeps the invariant.  On success the mapping
    has been shrunk or grown in place, or moved: the new range continues the backing of
    the old one, the old pages are gone and no other page's backing changes.  On failure only pages of the
    target range (and, with MREMAP_FIXED, of the old range) may differ. *)
Theorem mremap_correct (moved : pgt_call -> Z) k mm old old_len new_len flags new0 :
  wf k mm -> layout_ok mm -> page_aligned old -> page_aligned old_len -> page_aligned new_len ->
  0 < old_len -> 0 < new_len -> 0 <= old -> old + old_len <= TASK_SIZE -> is_u64 new_len -> is_u64 new0 ->
  exists mm' st r, mremap_body moved old old_len new_len flags new0 mm = Some (mm', st, r) /\ wf k mm' /\
    mremap_outcome k mm mm' (has flags MREMAP_FIXED) old old_len new0 new_len st r.
Proof. intros. by apply mremap_body_ok. Qed.

(** Splitting an area in two with [__split_vma] leaves every page, its backing and
    its flags unchanged, puts the two halves in the place of the area, takes the
    additional file reference and keeps the invariant. *)
Theorem split_vma_correct k mm p pre post addr (new_below : bool) new :
  wf k mm -> mmap mm = pre ++ p :: post -> page_aligned addr ->
  vm_start (deref mm p) < addr < vm_end (deref mm p) -> kmalloc mm = Some new ->
  exists mm', __split_vma p addr new_below mm = Some (mm', 0) /\ split_spec k mm mm' /\
    mmap mm' = pre ++ (if new_below then [new; p] else [p; new]) ++ post /\
    deref mm' p = (if new_below then upper_half else lower_half) addr (deref mm p) /\
    deref mm' new = (if new_below then lower_half else upper_half) addr (deref mm p).
Proof.
  intros Hwf Hl Ha Hr Hk.
  destruct (split_abstract k mm p pre post addr new_below new Hwf Hl Ha Hr Hk) as (mm' & ? & ? & ? & ? & ? & _).
  by exists mm'.
Qed.

(** Fork.  [dup_lego_mmap] on the address space that [lego_mm_alloc] has copied
    from the parent's never follows a null pointer.  If it returns 0, the child
    has the parent's pages, with the same backing and with the parent's flags less the ones
    that are not inherited; it is well formed; every file has one more reference per area;
    and the reply lists the parent's areas.  It fails only when the allocator or the copying of a page range does.
    The child's [map_count] starts from the parent's, which the invariant records. *)
Theorem fork_correct (copied : pgt_call -> Z) k oldmm :
  wf k oldmm ->
  exists mm reply ret, dup_lego_mmap copied false oldmm (lego_mm_alloc (Some oldmm)) = Some (mm, reply, ret) /\
    (ret = 0 -> wf (map_count oldmm) mm /\
       (forall x, page_at mm x = dup_page <$> page_at oldmm x) /\
       (forall f, file_count mm f = file_count oldmm f + refs (deref oldmm) f (mmap oldmm)) /\
       reply = map (fun p => vmainfo_of (deref oldmm p)) (mmap oldmm) /\
       settings mm = settings oldmm /\ counters mm = counters oldmm) /\
    (ret <> 0 -> ret = - ENOMEM \/ exists p, p ∈ mmap oldmm /\ ret = copied (Copy_page_range p)).
Proof.
  intros Hwf. unfold dup_lego_mmap. set (mm0 := set_counters _ _ _ _ _).
  assert (Hch : child_ok (map_count oldmm) mm0).
  { split; [|done]. split; try done; simpl; [by intros p ?%not_elem_of_nil..|].
    split; [done|]. split; [by exists 0%nat; constructor|done]. }
  destruct (dup_loop_ok copied k oldmm (mmap oldmm) [] (LinkPath []) [] mm0) as (mm & reply & ret & Heq & Hc & Hok & Hbad);
    try done.
  { by exists []. }
  { split; [constructor|]. intros f. simpl. unfold mm0, file_count. simpl. lia. }
  exists mm, reply, ret. split; [done|]. split; [|done]. intros Hret.
  destruct (Hok Hret) as (Hdup & Hrep & Hs & Hco & Hhi). split_and!; try done.
  - by apply (child_wf k oldmm).
  - intros x. by apply dup_pages.
  - apply Hdup.
Qed.

(** Stack growth.  [find_extend_vma] never returns the uninitialised [error] of
    [expand_downwards].  It finds the area of the page of [addr], or extends the stack
    area above it down to that page: the added pages belong to that area, no other page
    changes, the file offsets of the pages it had are kept and the invariant holds.  When it gives up, nothing changes and the page is not mapped. *)
Theorem find_extend_vma_correct k mm addr :
  wf k mm -> is_u64 addr ->
  let a := addr - addr mod PAGE_SIZE in
  exists mm' o, find_extend_vma addr mm = Some (mm', o) /\
    match o with
    | None => mm' = mm /\ page_at mm a = None
    | Some p => p ∈ mmap mm /\ a < vm_end (deref mm p) /\
        (mm' = mm /\ vm_start (deref mm p) <= a \/
         has (vm_flags (deref mm p)) VM_GROWSDOWN = true /\ a < vm_start (deref mm p) /\
         (forall q, q ∈ mmap mm -> vm_end (deref mm q) <= a \/ vm_start (deref mm p) <= vm_start (deref mm q)) /\
         grown_down k p a mm mm')
    end.
Proof. apply find_extend_vma_ok. Qed.

(** Exit.  [exit_lego_mmap] frees every area, gives up exactly the file references the
    areas held, and asks the page-table layer to unmap every area and then to free the
    tables of the whole user space. *)
Theorem exit_correct k mm :
  wf k mm ->
  let mm' := exit_lego_mmap mm in
  (forall p, p ∈ mmap mm -> vmas mm' !! p = None) /\
  (forall f, file_count mm' f = file_balance mm f) /\
  pgt_log mm' = pgt_log mm ++ unmap_calls (deref mm) (mmap mm) ++
    match mmap mm with
    | [] => []
    | l => [Free_pgtables (ranges (deref mm) l) FIRST_USER_ADDRESS USER_PGTABLES_CEILING]
    end.
Proof. apply exit_ok. Qed.
End Theorems.

(** ** Lookup and search *)

(** [find_vma] follows the red-black tree and finds the first area, in address
    order, that ends above [addr]; [find_vma_links] finds the place of a new area between
    the areas below and those above the range, and fails exactly when an area overlaps it. *)
Theorem find_vma_correct k mm addr last :
  wf k mm -> addr < last ->
  find_vma mm addr = first_above mm addr /\
  match find_vma_links mm addr last with
  | Some lk => exists pre post, mmap mm = pre ++ post /\ links_at mm lk pre post /\
      (forall p, p ∈ pre -> vm_end (deref mm p) <= addr) /\
      (forall p, p ∈ post -> last <= vm_start (deref mm p))
  | None => exists p, p ∈ mmap mm /\ addr < vm_end (deref mm p) /\ vm_start (deref mm p) < last
  end.
Proof.
  intros Hwf Hlt. split; [by eapply find_vma_ok|]. pose proof (wf_tree _ _ Hwf) as [He _].
  destruct (find_vma_links mm addr last) eqn:E; [|by apply find_vma_links_None].
  eapply find_vma_links_Some; [apply Hwf|done|done].
Qed.

(** (C19) [unmapped_area], the bottom-up search with the augmented tree.  It always returns
    (never following a null pointer): an aligned free range within the limits, no higher
    than the lowest place with room for every alignment; -ENOMEM only if there is no such
    place. *)
Theorem unmapped_area_correct k mm info :
  wf k mm -> info_ok info ->
  exists r, unmapped_area mm info = Some r /\
    (r = err_ul ENOMEM /\ (forall s, ~ roomy mm info s) \/
     answer mm info r /\ forall s, roomy mm info s -> r <= s + info_align_mask info).
Proof. intros Hwf Hi. by apply (unmapped_area_ok k). Qed.

(** (C20) [unmapped_area_topdown], the top-down search: the same, with an answer no lower
    than the highest place with room. *)
Theorem unmapped_area_topdown_correct k mm info :
  wf k mm -> info_ok info ->
  exists r, unmapped_area_topdown mm info = Some r /\
    (r = err_ul ENOMEM /\ (forall s, ~ roomy mm info s) \/
     answer mm info r /\ forall s, roomy mm info s -> s <= r).
Proof. intros Hwf Hi. by apply (unmapped_area_topdown_ok k). Qed.

(** [get_unmapped_area] without MAP_FIXED: a page-aligned free range in user space, or
    -ENOMEM, and then neither the top-down window nor the bottom-up window has a free range of that length. *)
Theorem get_unmapped_area_correct k mm len addr pgoff flags :
  wf k mm -> layout_ok mm -> 0 < len <= TASK_SIZE -> page_aligned len ->
  has flags MAP_FIXED = false ->
  exists r, get_unmapped_area mm addr len pgoff flags = Some r /\
    (r = err_ul ENOMEM /\
       (forall s, PAGE_SIZE <= s -> s + len <= mmap_base mm -> ~ free_range mm s len) /\
       (forall s, mmap_legacy_base mm <= s -> s + len <= TASK_SIZE -> ~ free_range mm s len) \/
     good_area mm r len).
Proof. intros Hwf Hlay Hl Ha Hf. by eapply get_unmapped_area_ok. Qed.

(** [vma_merge] on a free range [addr, last) between the areas [pre] and [post]: no
    null pointer; if it joins the range to the area before, to the one after or to both,
    the pages of the range are backed as requested, no other page's backing
    changes and the invariant is kept (see [mapped] for flags and file references). *)
Theorem vma_merge_correct k mm pre post addr last nv :
  wf k mm -> mmap mm = pre ++ post ->
  (forall q, q ∈ pre -> vm_end (deref mm q) <= addr) ->
  (forall q, q ∈ post -> last <= vm_start (deref mm q)) ->
  0 <= addr < last -> last <= TASK_SIZE -> page_aligned addr -> page_aligned last ->
  vm_start nv = addr -> vm_end nv = last -> is_u64 (vm_pgoff nv) ->
  exists o, vma_merge (list.last pre) addr last (vm_flags nv) (vm_file nv) (vm_pgoff nv) mm = Some o /\
    match o with
    | Some (mm', m) => mapped k addr last nv mm mm' /\ joined mm' m addr last
    | None => True
    end.
Proof. intros Hwf Hl H1 H2 H3 H4 H5 H6 H7 H8 H9. by apply (vma_merge_ok k mm Hwf pre post Hl). Qed.


(** ** Divergences *)

(** [is_mergeable_vma] does not compare the flags: a page mapped read-only next to
    a writable anonymous area becomes writable. *)
Theorem merge_ignores_flags :
  exists mm', mmap_region None 16384 4096 VM_READ 4 ex_mm = Some (mm', 16384) /\
    pg_flags <$> page_at mm' 16384 = Some (Z.lor VM_READ VM_WRITE).
Proof. eexists. split; [vm_compute; reflexivity|]. by vm_compute. Qed.

(** [__vma_adjust] frees the area after a closed hole without dropping its file
    reference: after mapping another part of the file, filling the hole and exiting, one reference is left. *)
Theorem merge_leaks_file_reference :
  exists mm1 mm2,
    mmap_region (Some (mk_file 7 (Some storage_vma_ops))) 53248 4096 VM_READ 7 ex_mm = Some (mm1, 53248) /\
    mmap_region (Some (mk_file 7 (Some storage_vma_ops))) 49152 4096 VM_READ 6 mm1 = Some (mm2, 49152) /\
    file_balance ex_mm 7 = 0 /\ file_count (exit_lego_mmap mm2) 7 = 1.
Proof. do 2 eexists. split; [vm_compute; reflexivity|]. split; [vm_compute; reflexivity|]. by vm_compute. Qed.

(** Fork does not reset [map_count]: the child of a process with two areas has two
    areas and a count of four. *)
Theorem fork_keeps_map_count :
  exists mm reply, dup_lego_mmap (fun _ => 0) false ex_mm (lego_mm_alloc (Some ex_mm)) = Some (mm, reply, 0) /\
    length (mmap mm) = 2%nat /\ map_count mm = 4.
Proof. do 2 eexists. split; [vm_compute; reflexivity|]. by vm_compute. Qed.

(** [expand_downwards] returns an uninitialised value when the area already begins
    at or below the address. *)
Theorem expand_downwards_uninitialised mm p address :
  is_u64 address -> stack_guard_gap <= address - address mod PAGE_SIZE ->
  vm_start (deref mm p) <= address - address mod PAGE_SIZE ->
  expand_downwards p address mm = Some (mm, None).
Proof.
  intros Hu Hg Hs. unfold expand_downwards. rewrite PAGE_MASK_round by done.
  rewrite (proj2 (Z.ltb_ge _ (wrap _))), (proj2 (Z.ltb_ge _ (vm_start _))); [done|lia|].
  pose proof (Z.mod_pos_bound address PAGE_SIZE). unfold is_u64 in *. rewrite PAGE_SIZE_eq in *.
  rewrite wrap_small; unfold stack_guard_gap, is_u64 in *; rewrite PAGE_SIZE_eq in *; lia.
Qed.

(** MREMAP_FIXED with overlapping ranges is not rejected: the target range is unmapped
    first, which destroys the end of the mapping to be moved, and then the request fails with EFAULT. *)
Theorem mremap_overlap_destroys :
  exists mm', mremap_body (fun _ => 0) 4096 12288 12288 (Z.lor MREMAP_MAYMOVE MREMAP_FIXED) 8192 ex_mm
      = Some (mm', EFAULT, None) /\
    is_Some (page_at ex_mm 8192) /\ page_at mm' 8192 = None.
Proof. eexists. split; [vm_compute; reflexivity|]. split; [by eexists; vm_compute|]. by vm_compute. Qed.

(** The stack guard gap is not enforced: only the underflow of [address -
    stack_guard_gap] is tested, so the stack grows until it touches the area below. *)
Theorem stack_guard_not_enforced :
  exists mm', find_extend_vma 2101248 ex_stack = Some (mm', Some 3%positive) /\
    vm_start (deref mm' 3%positive) = vm_end (deref mm' 1%positive).
Proof. eexists. split; [vm_compute; reflexivity|]. by vm_compute. Qed.

(** ** Examples *)

Lemma ex_free : free_range ex_mm 65536 (PAGE_ALIGN 4096).
Proof.
  intros x Hx. apply pages_None. intros p Hp Hc. change (PAGE_ALIGN 4096) with 4096 in Hx.
  simpl in Hp. apply elem_of_cons in Hp as [->|Hp]; [change (vm_end (deref ex_mm 1%positive)) with 16384 in Hc; lia|].
  apply list_elem_of_singleton in Hp as ->. change (vm_end (deref ex_mm 2%positive)) with 49152 in Hc. lia.
Qed.

Lemma mmap_correct_witness :
  exists mm' r, do_mmap None 0 4096 3 34 0 0 ex_mm = Some (mm', r) /\ wf 0 mm' /\
    (is_error r /\
       (forall x, page_at mm' x = page_at ex_mm x \/ has 34 MAP_FIXED = true /\
          0 <= x < 0 + PAGE_ALIGN 4096 /\ page_at mm' x = None) \/
     mmap_done 0 None 0 (PAGE_ALIGN 4096) 3 34 0 ex_mm mm' r /\
       exists pgoff', (@None lego_file <> None -> pgoff' = 0) /\
         let last := r + PAGE_ALIGN 4096 in
         let nv := new_area None r (PAGE_ALIGN 4096) (requested_flags None 3 34 ex_mm) pgoff' in
         (forall x, backing_at mm' x = if in_range r last x then Some (backing_of nv x) else backing_at ex_mm x) /\
         ((forall x g, x = r - 1 \/ x = last -> page_at ex_mm x = Some g -> bk_file (pg_backing g) = vm_file nv -> pg_flags g = vm_flags nv) ->
          forall x, page_at mm' x = if in_range r last x then Some (page_of nv x) else page_at ex_mm x)).
Proof. apply (mmap_correct 0 ex_mm None 0 4096 3 34 0); ex_solve. Defined.

Lemma mmap_succeeds_witness :
  exists mm' r, do_mmap None 0 4096 3 34 0 0 ex_mm = Some (mm', r) /\
    mmap_done 0 None 0 (PAGE_ALIGN 4096) 3 34 0 ex_mm mm' r.
Proof.
  apply (mmap_succeeds 0 ex_mm 0 4096 3 34 65536); first [exact ex_free | ex_solve].
Defined.

Lemma munmap_correct_witness :
  exists mm' ret, do_munmap 8192 32768 ex_mm = Some (mm', ret) /\
    (ret = - EINVAL /\ mm' = ex_mm /\ ~ valid_range 8192 32768 \/
     valid_range 8192 32768 /\
       (ret = - ENOMEM /\ split_spec 0 ex_mm mm' /\ exhausted ex_mm \/
        ret = 0 /\ unmapped 0 8192 (8192 + PAGE_ALIGN 32768) ex_mm mm')).
Proof. apply (munmap_correct 0 ex_mm 8192 32768); ex_solve. Defined.

Lemma mmap_region_correct_witness :
  exists mm' r ok, mmap_region None 8192 32768 3 2 ex_mm = Some (mm', r) /\
    map_outcome 0 8192 (8192 + 32768) (new_area None 8192 32768 3 2) ex_mm mm' ok /\
    r = (if ok then 8192 else err_ul ENOMEM).
Proof. apply (mmap_region_correct 0 ex_mm None 8192 32768 3 2); ex_solve. Defined.

Lemma clear_old_maps_terminates_witness :
  exists mm1 res, clear_old_maps 1 8192 32768 ex_mm = Some (mm1, res) /\
    (res = inl (- ENOMEM) /\ split_spec 0 ex_mm mm1 /\ exhausted ex_mm \/
     exists lk pre post, res = inr lk /\ unmapped 0 8192 (8192 + 32768) ex_mm mm1 /\
       mmap mm1 = pre ++ post /\ links_at mm1 lk pre post /\
       (forall q, q ∈ pre -> vm_end (deref mm1 q) <= 8192) /\
       (forall q, q ∈ post -> 8192 + 32768 <= vm_start (deref mm1 q))).
Proof. apply (clear_old_maps_terminates 0 ex_mm 8192 32768 1); ex_solve. Defined.

Lemma brk_correct_witness :
  exists mm', brk_body 20000 ex_mm = Some mm' /\ wf 0 mm' /\
    (brk mm' = brk ex_mm /\ (forall x, page_at mm' x = page_at ex_mm x) \/
     brk mm' = 20000 /\ start_brk ex_mm <= 20000 /\
       brk_moved ex_mm mm' (PAGE_ALIGN (brk ex_mm)) (PAGE_ALIGN 20000)).
Proof. apply (brk_correct 0 ex_mm 20000); ex_solve. Defined.

Lemma split_vma_correct_witness :
  exists mm', __split_vma 2%positive 36864 false ex_mm = Some (mm', 0) /\ split_spec 0 ex_mm mm' /\
    mmap mm' = [1%positive] ++ [2%positive; 3%positive] ++ [] /\
    deref mm' 2%positive = lower_half 36864 (deref ex_mm 2%positive) /\
    deref mm' 3%positive = upper_half 36864 (deref ex_mm 2%positive).
Proof. apply (split_vma_correct 0 ex_mm 2%positive [1%positive] [] 36864 false 3%positive); ex_solve. Defined.

Lemma fork_correct_witness :
  exists mm reply ret, dup_lego_mmap (fun _ => 0) false ex_mm (lego_mm_alloc (Some ex_mm)) = Some (mm, reply, ret) /\
    (ret = 0 -> wf (map_count ex_mm) mm /\
       (forall x, page_at mm x = dup_page <$> page_at ex_mm x) /\
       (forall f, file_count mm f = file_count ex_mm f + refs (deref ex_mm) f (mmap ex_mm)) /\
       reply = map (fun p => vmainfo_of (deref ex_mm p)) (mmap ex_mm) /\
       settings mm = settings ex_mm /\ counters mm = counters ex_mm) /\
    (ret <> 0 -> ret = - ENOMEM \/ exists p, p ∈ mmap ex_mm /\ ret = (fun _ => 0) (Copy_page_range p)).
Proof. apply (fork_correct (fun _ => 0) 0 ex_mm). ex_solve. Defined.

Lemma find_extend_vma_correct_witness :
  exists mm' o, find_extend_vma 2105344 ex_stack = Some (mm', o) /\
    match o with
    | None => mm' = ex_stack /\ page_at ex_stack 2105344 = None
    | Some p => p ∈ mmap ex_stack /\ 2105344 < vm_end (deref ex_stack p) /\
        (mm' = ex_stack /\ vm_start (deref ex_stack p) <= 2105344 \/
         has (vm_flags (deref ex_stack p)) VM_GROWSDOWN = true /\ 2105344 < vm_start (deref ex_stack p) /\
         (forall q, q ∈ mmap ex_stack -> vm_end (deref ex_stack q) <= 2105344 \/
            vm_start (deref ex_stack p) <= vm_start (deref ex_stack q)) /\
         grown_down 0 p 2105344 ex_stack mm')
    end.
Proof. apply (find_extend_vma_correct 0 ex_stack 2105344); ex_solve. Defined.

Lemma exit_correct_witness :
  let mm' := exit_lego_mmap ex_mm in
  (forall p, p ∈ mmap ex_mm -> vmas mm' !! p = None) /\
  (forall f, file_count mm' f = file_balance ex_mm f) /\
  pgt_log mm' = pgt_log ex_mm ++ unmap_calls (deref ex_mm) (mmap ex_mm) ++
    [Free_pgtables (ranges (deref ex_mm) (mmap ex_mm)) FIRST_USER_ADDRESS USER_PGTABLES_CEILING].
Proof. apply (exit_correct 0 ex_mm). ex_solve. Defined.

Lemma find_vma_correct_witness :
  find_vma ex_mm 20000 = first_above ex_mm 20000 /\
  match find_vma_links ex_mm 20000 24096 with
  | Some lk => exists pre post, mmap ex_mm = pre ++ post /\ links_at ex_mm lk pre post /\
      (forall p, p ∈ pre -> vm_end (deref ex_mm p) <= 20000) /\
      (forall p, p ∈ post -> 24096 <= vm_start (deref ex_mm p))
  | None => exists p, p ∈ mmap ex_mm /\ 20000 < vm_end (deref ex_mm p) /\ vm_start (deref ex_mm p) < 24096
  end.
Proof. apply (find_vma_correct 0 ex_mm 20000 24096); ex_solve. Defined.

(** A search below 1 MB for three pages *)
Definition ex_info : unmapped_info := mk_info false 12288 4096 1048576 0 0.

Lemma unmapped_area_correct_witness :
  exists r, unmapped_area ex_mm ex_info = Some r /\
    (r = err_ul ENOMEM /\ (forall s, ~ roomy ex_mm ex_info s) \/
     answer ex_mm ex_info r /\ forall s, roomy ex_mm ex_info s -> r <= s + info_align_mask ex_info).
Proof. apply (unmapped_area_correct 0 ex_mm ex_info); ex_solve. Defined.

Lemma unmapped_area_topdown_correct_witness :
  exists r, unmapped_area_topdown ex_mm ex_info = Some r /\
    (r = err_ul ENOMEM /\ (forall s, ~ roomy ex_mm ex_info s) \/
     answer ex_mm ex_info r /\ forall s, roomy ex_mm ex_info s -> s <= r).
Proof. apply (unmapped_area_topdown_correct 0 ex_mm ex_info); ex_solve. Defined.

Lemma get_unmapped_area_correct_witness :
  exists r, get_unmapped_area ex_mm 0 8192 0 0 = Some r /\
    (r = err_ul ENOMEM /\
       (forall s, PAGE_SIZE <= s -> s + 8192 <= mmap_base ex_mm -> ~ free_range ex_mm s 8192) /\
       (forall s, mmap_legacy_base ex_mm <= s -> s + 8192 <= TASK_SIZE -> ~ free_range ex_mm s 8192) \/
     good_area ex_mm r 8192).
Proof. apply (get_unmapped_area_correct 0 ex_mm 8192 0 0 0); ex_solve. Defined.

Lemma vma_merge_correct_witness :
  exists o, vma_merge (Some 1%positive) 16384 20480 3 None 4 ex_mm = Some o /\
    match o with
    | Some (mm', m) => mapped 0 16384 20480 (mk_vma 16384 20480 0 3 None 4 None) ex_mm mm' /\ joined mm' m 16384 20480
    | None => True
    end.
Proof.
  apply (vma_merge_correct 0 ex_mm [1%positive] [2%positive] 16384 20480 (mk_vma 16384 20480 0 3 None 4 None));
    try ex_solve; intros q ->%list_elem_of_singleton; vm_compute; discriminate.
Defined.


Lemma expand_downwards_uninitialised_witness :
  expand_downwards 3%positive 2117632 ex_stack = Some (ex_stack, None).
Proof. apply (expand_downwards_uninitialised ex_stack 3%positive 2117632); ex_solve. Defined.

Lemma mremap_correct_witness :
  exists mm' st r, mremap_body (fun _ => 16384) 32768 16384 32768 MREMAP_MAYMOVE 0 ex_mm = Some (mm', st, r) /\
    wf 0 mm' /\
    mremap_outcome 0 ex_mm mm' (has MREMAP_MAYMOVE MREMAP_FIXED) 32768 16384 0 32768 st r.
Proof. apply (mremap_correct (fun _ => 16384) 0 ex_mm 32768 16384 32768 MREMAP_MAYMOVE 0); ex_solve. Defined.

Lemma handle_mmap_correct_witness :
  exists mm' ret a, handle_p2m_mmap false (Some (mk_file 7 (Some storage_vma_ops))) 0 4096 1 2 3 (Some ex_mm)
      = Some (Some mm', ret, a) /\ wf 0 mm' /\
    (ret < 0 /\ a = None \/
     ret = 0 /\ false = false /\ exists r file, a = Some r /\
       file = (if has 2 MAP_ANONYMOUS then None else Some (mk_file 7 (Some storage_vma_ops))) /\
       mmap_done 0 file 0 (PAGE_ALIGN 4096) 1 (Z.ldiff 2 (Z.lor MAP_EXECUTABLE MAP_DENYWRITE)) 3 ex_mm mm' r).
Proof.
  apply (handle_mmap_correct 0 ex_mm false (Some (mk_file 7 (Some storage_vma_ops))) 0 4096 1 2 3); ex_solve.
Defined.
