(* ===== verification/PgtModel.v ===== *)
(** * Memory manager, page tables: the model

    managers/memory/vm/pgtable.c, include/memory/vm-pgtable.h and the macros of
    arch/x86/include/asm/pgtable.h that they use.

    The memory component never loads these tables into a processor: an entry of the
    last level holds the kernel virtual address of a page together with the
    protection bits.  A table page is a map from its 512 indices to its entries that
    are not zero; an entry of an upper level is the table that it points to, since
    every table page has one entry that points to it.  A position in a table is an
    index that the loops increment, as the C loops increment the pointer; reaching
    index 512 is a walk off the end of the table page, and gives [None], as does a
    BUG.

    The pages themselves are in [pages]: reference count and contents, by kernel
    virtual address; and the outcomes of the next allocations of table pages. *)

From stdpp Require Import gmap.
From S2P Require Import Prelude VmaModel.

(** ** Geometry (arch/x86/include/asm/pgtable_types.h) *)

Definition PGDIR_SHIFT : Z := 39.
Definition PUD_SHIFT : Z := 30.
Definition PMD_SHIFT : Z := 21.
Definition PTRS_PER_TABLE : Z := 512.
Definition PMD_SIZE : Z := Z.shiftl 1 PMD_SHIFT.
Definition PMD_MASK : Z := wrap (Z.lnot (PMD_SIZE - 1)).
Definition PUD_SIZE : Z := Z.shiftl 1 PUD_SHIFT.
Definition PUD_MASK : Z := wrap (Z.lnot (PUD_SIZE - 1)).
Definition PGDIR_SIZE : Z := Z.shiftl 1 PGDIR_SHIFT.
Definition PGDIR_MASK : Z := wrap (Z.lnot (PGDIR_SIZE - 1)).

Definition lego_pgd_index (address : Z) : Z := Z.land (Z.shiftr address PGDIR_SHIFT) (PTRS_PER_TABLE - 1).
Definition lego_pud_index (address : Z) : Z := Z.land (Z.shiftr address PUD_SHIFT) (PTRS_PER_TABLE - 1).
Definition lego_pmd_index (address : Z) : Z := Z.land (Z.shiftr address PMD_SHIFT) (PTRS_PER_TABLE - 1).
Definition lego_pte_index (address : Z) : Z := Z.land (Z.shiftr address PAGE_SHIFT) (PTRS_PER_TABLE - 1).

Definition pgd_addr_end (addr end_ : Z) : Z :=
  let boundary := Z.land (addr +u PGDIR_SIZE) PGDIR_MASK in
  if boundary -u 1 <? end_ -u 1 then boundary else end_.
Definition pud_addr_end (addr end_ : Z) : Z :=
  let boundary := Z.land (addr +u PUD_SIZE) PUD_MASK in
  if boundary -u 1 <? end_ -u 1 then boundary else end_.
Definition pmd_addr_end (addr end_ : Z) : Z :=
  let boundary := Z.land (addr +u PMD_SIZE) PMD_MASK in
  if boundary -u 1 <? end_ -u 1 then boundary else end_.

(** ** Entries of the last level (arch/x86/include/asm/pgtable.h) *)

Definition PTE_VFN_MASK : Z := PAGE_MASK.

Definition pte_none (pte : Z) : bool := Z.ldiff pte (Z.lor _PAGE_DIRTY _PAGE_ACCESSED) =? 0.
Definition pte_present (pte : Z) : bool := has pte (Z.lor _PAGE_PRESENT _PAGE_PROTNONE).
Definition pte_write (pte : Z) : bool := has pte _PAGE_RW.
Definition pte_same (a b : Z) : bool := a =? b.
Definition pte_mkwrite (pte : Z) : Z := Z.lor pte _PAGE_RW.
Definition pte_mkdirty (pte : Z) : Z := Z.lor pte _PAGE_DIRTY.
Definition pte_wrprotect (pte : Z) : Z := Z.ldiff pte _PAGE_RW.
Definition pte_mkclean (pte : Z) : Z := Z.ldiff pte _PAGE_DIRTY.
Definition pte_mkold (pte : Z) : Z := Z.ldiff pte _PAGE_ACCESSED.

(** [lego_vfn_pte((signed long)vaddr >> PAGE_SHIFT, prot)] *)
Definition lego_vfn_pte (vfn pgprot : Z) : Z := Z.lor (vfn <<u PAGE_SHIFT) pgprot.
Definition lego_pte_to_virt (pte : Z) : Z := Z.land pte PTE_VFN_MASK.

(** ** Pages and tables *)

Record frame := Frame {
  fr_count : Z; (* [_refcount] of the [struct page] *)
  fr_data : list Z
}.

Record pages := Pages {
  frames : gmap Z frame;
  (** the outcomes of the next allocations of table pages; they succeed once exhausted *)
  pg_tables : list bool
}.

Definition set_frames (f : gmap Z frame) (m : pages) : pages := Pages f (pg_tables m).

Abbreviation pte_table := (gmap Z Z).
Abbreviation pmd_table := (gmap Z pte_table).
Abbreviation pud_table := (gmap Z pmd_table).
Abbreviation pgd_table := (gmap Z pud_table).

Definition get_entry (t : pte_table) (i : Z) : Z := default 0 (t !! i).
Definition pte_set (i pte : Z) (t : pte_table) : pte_table := <[i := pte]> t.
Definition pte_clear (i : Z) (t : pte_table) : pte_table := delete i t.

(** [get_page] and [free_page] (include/lego/mm.h, mm/page_alloc.c) *)
Definition get_page (addr : Z) (m : pages) : option pages :=
  f ← frames m !! addr;
  if fr_count f <=? 0 then None
  else Some (set_frames (<[addr := Frame (fr_count f + 1) (fr_data f)]> (frames m)) m).
Definition free_page (addr : Z) (m : pages) : option pages :=
  f ← frames m !! addr;
  if fr_count f =? 0 then None
  else if fr_count f - 1 =? 0 then Some (set_frames (delete addr (frames m)) m)
  else Some (set_frames (<[addr := Frame (fr_count f - 1) (fr_data f)]> (frames m)) m).

(** ** Loops over the entries of a table

    [do { next = pxd_addr_end(addr, end); body } while (pxd++, addr = next, addr != end)]
    with [n] entries from index [i] on; the result of [body] other than 0 ends it. *)
Section walk.
Context {St : Type} (addr_end : Z -> Z -> Z) (body : Z -> Z -> Z -> St -> option (St * Z)).

Fixpoint walk (n : nat) (i addr end_ : Z) (s : St) : option (St * Z) :=
  match n with
  | O => None
  | S n =>
      let next := addr_end addr end_ in
      '(s, ret) ← body i addr next s;
      if negb (ret =? 0) then Some (s, ret)
      else if next =? end_ then Some (s, 0)
      else walk n (i + 1) next end_ s
  end.

Definition walk_from (i addr end_ : Z) (s : St) : option (St * Z) :=
  walk (Z.to_nat (PTRS_PER_TABLE - i)) i addr end_ s.
End walk.

(** [if (pxd_none( *pxd)) continue; f(...)] on the table below entry [i] *)
Definition on_entry {T : Type} (f : T -> pages -> option (T * pages)) (i : Z)
    (s : gmap Z T * pages) : option ((gmap Z T * pages) * Z) :=
  let '(t, m) := s in
  match t !! i with
  | None => Some ((t, m), 0)
  | Some x => '(x, m) ← f x m; Some ((<[i := x]> t, m), 0)
  end.

(** [pte++, addr += PAGE_SIZE] *)
Definition pte_addr_end (addr end_ : Z) : Z := addr +u PAGE_SIZE.

(** ** Unmapping *)

Definition zap_pte (i : Z) (s : pte_table * pages) : option ((pte_table * pages) * Z) :=
  let '(t, m) := s in
  let ptent := get_entry t i in
  if pte_none ptent then Some ((t, m), 0)
  else if pte_present ptent then
    m ← free_page (lego_pte_to_virt ptent) m;
    Some ((pte_clear i t, m), 0)
  else Some ((pte_clear i t, m), 0).

Definition zap_pte_range (addr end_ : Z) (t : pte_table) (m : pages) : option (pte_table * pages) :=
  fst <$> walk_from pte_addr_end (fun i _ _ => zap_pte i) (lego_pte_index addr) addr end_ (t, m).

Definition zap_pmd_range (addr end_ : Z) (t : pmd_table) (m : pages) : option (pmd_table * pages) :=
  fst <$> walk_from pmd_addr_end (fun i addr next => on_entry (zap_pte_range addr next) i)
            (lego_pmd_index addr) addr end_ (t, m).

Definition zap_pud_range (addr end_ : Z) (t : pud_table) (m : pages) : option (pud_table * pages) :=
  fst <$> walk_from pud_addr_end (fun i addr next => on_entry (zap_pmd_range addr next) i)
            (lego_pud_index addr) addr end_ (t, m).

Definition lego_unmap_page_range (addr end_ : Z) (t : pgd_table) (m : pages) : option (pgd_table * pages) :=
  if end_ <=? addr then None
  else fst <$> walk_from pgd_addr_end (fun i addr next => on_entry (zap_pud_range addr next) i)
                 (lego_pgd_index addr) addr end_ (t, m).

(** ** Allocating tables *)

Definition table_page (m : pages) : bool * pages :=
  match pg_tables m with
  | [] => (true, m)
  | b :: l => (b, Pages (frames m) l)
  end.

(** [lego_pxd_alloc]: the table below entry [i], allocated if there is none; [false] is
    the null pointer. *)
Definition pxd_alloc {T : Type} (i : Z) (t : gmap Z (gmap Z T)) (m : pages)
  : bool * gmap Z (gmap Z T) * pages :=
  match t !! i with
  | Some _ => (true, t, m)
  | None =>
      let '(ok, m) := table_page m in
      (ok, if ok then <[i := ∅]> t else t, m)
  end.

Definition lego_pud_alloc (address : Z) (t : pgd_table) := pxd_alloc (lego_pgd_index address) t.
Definition lego_pmd_alloc (address : Z) (t : pud_table) := pxd_alloc (lego_pud_index address) t.
Definition lego_pte_alloc (address : Z) (t : pmd_table) := pxd_alloc (lego_pmd_index address) t.

(** ** Fork *)

Definition is_cow_mapping (flags : Z) : bool := Z.land flags (Z.lor VM_SHARED VM_WRITE) =? VM_WRITE.

(** Entry [i] of the child's table, of the parent's table, and the pages *)
Definition lego_copy_one_pte (vm_flags i : Z) (s : pte_table * pte_table * pages)
  : option (pte_table * pte_table * pages) :=
  let '(dst, src, m) := s in
  let pte := get_entry src i in
  if negb (pte_present pte) then Some (pte_set i pte dst, src, m)
  else
    let cow := is_cow_mapping vm_flags in
    let src := if cow then pte_set i (pte_wrprotect pte) src else src in
    let pte := if cow then pte_wrprotect pte else pte in
    let pte := if has vm_flags VM_SHARED then pte_mkclean pte else pte in
    let pte := pte_mkold pte in
    m ← get_page (lego_pte_to_virt pte) m;
    Some (pte_set i pte dst, src, m).

Definition copy_pte (vm_flags i : Z) (s : pte_table * pte_table * pages)
  : option ((pte_table * pte_table * pages) * Z) :=
  let '(dst, src, m) := s in
  if pte_none (get_entry src i) then Some (s, 0)
  else s ← lego_copy_one_pte vm_flags i s; Some (s, 0).

(** [if (pxd_none( *src)) continue;] then the copy of the table below entry [i], after
    that table has been allocated in the child *)
Definition copy_entry {T : Type}
    (f : gmap Z T -> gmap Z T -> pages -> option ((gmap Z T * gmap Z T * pages) * Z)) (i : Z)
    (s : gmap Z (gmap Z T) * gmap Z (gmap Z T) * pages)
  : option ((gmap Z (gmap Z T) * gmap Z (gmap Z T) * pages) * Z) :=
  let '(dst, src, m) := s in
  match src !! i with
  | None => Some (s, 0)
  | Some y =>
      let '(ok, dst, m) := pxd_alloc i dst m in
      if negb ok then Some ((dst, src, m), - ENOMEM)
      else
        x ← dst !! i;
        '(x, y, m, ret) ← f x y m;
        Some ((<[i := x]> dst, <[i := y]> src, m), ret)
  end.

(** The error of the loop is not returned: [return 0]. *)
Definition lego_copy_pte_range (vm_flags addr end_ : Z) (dst src : pte_table) (m : pages)
  : option ((pte_table * pte_table * pages) * Z) :=
  '(s, _) ← walk_from pte_addr_end (fun i _ _ => copy_pte vm_flags i)
              (lego_pte_index addr) addr end_ (dst, src, m);
  Some (s, 0).

Definition lego_copy_pmd_range (vm_flags addr end_ : Z) (dst src : pmd_table) (m : pages)
  : option ((pmd_table * pmd_table * pages) * Z) :=
  walk_from pmd_addr_end (fun i addr next => copy_entry (lego_copy_pte_range vm_flags addr next) i)
    (lego_pmd_index addr) addr end_ (dst, src, m).

Definition lego_copy_pud_range (vm_flags addr end_ : Z) (dst src : pud_table) (m : pages)
  : option ((pud_table * pud_table * pages) * Z) :=
  walk_from pud_addr_end (fun i addr next => copy_entry (lego_copy_pmd_range vm_flags addr next) i)
    (lego_pud_index addr) addr end_ (dst, src, m).

(** [vma]: its [vm_start], [vm_end] and [vm_flags] *)
Definition lego_copy_page_range (vma : vm_area) (dst src : pgd_table) (m : pages)
  : option ((pgd_table * pgd_table * pages) * Z) :=
  walk_from pgd_addr_end
    (fun i addr next => copy_entry (lego_copy_pud_range (vm_flags vma) addr next) i)
    (lego_pgd_index (vm_start vma)) (vm_start vma) (vm_end vma) (dst, src, m).

(** ** Freeing tables *)

Definition free_pte_range (i : Z) (t : pmd_table) : option (pmd_table * Z) := Some (delete i t, 0).

(** [if (pxd_none( *pxd)) continue;] and [f] on the table and the index *)
Definition free_entry {T : Type} (f : Z -> gmap Z T -> option (gmap Z T * Z)) (i : Z) (t : gmap Z T)
  : option (gmap Z T * Z) :=
  match t !! i with None => Some (t, 0) | Some _ => f i t end.

(** The tests that follow the loop: no other area uses the table of this level. *)
Definition unused (mask start end_ floor ceiling : Z) : bool :=
  let start := Z.land start mask in
  if start <? floor then false
  else
    let c := if ceiling =? 0 then 0 else Z.land ceiling mask in
    if negb (ceiling =? 0) && (c =? 0) then false
    else negb (c -u 1 <? end_ -u 1).

(** Entry [i] of [t]: the entries of its table, then that table itself *)
Definition free_table {T : Type} (loop : gmap Z T -> option (gmap Z T * Z)) (free : bool) (i : Z)
    (t : gmap Z (gmap Z T)) : option (gmap Z (gmap Z T) * Z) :=
  x ← t !! i;
  '(x, _) ← loop x;
  Some (if free then delete i t else <[i := x]> t, 0).

Definition free_pmd_range (addr end_ floor ceiling i : Z) (t : pud_table) : option (pud_table * Z) :=
  free_table (walk_from pmd_addr_end (fun i _ _ => free_entry free_pte_range i) (lego_pmd_index addr) addr end_)
    (unused PUD_MASK addr end_ floor ceiling) i t.

Definition free_pud_range (addr end_ floor ceiling i : Z) (t : pgd_table) : option (pgd_table * Z) :=
  free_table (walk_from pud_addr_end
                (fun i addr next => free_entry (free_pmd_range addr next floor ceiling) i)
                (lego_pud_index addr) addr end_)
    (unused PGDIR_MASK addr end_ floor ceiling) i t.

Definition lego_free_pgd_range (addr0 end0 floor ceiling0 : Z) (t : pgd_table) : option pgd_table :=
  let addr := Z.land addr0 PMD_MASK in
  let raised := addr <? floor in
  let addr := if raised then addr +u PMD_SIZE else addr in
  if raised && (addr =? 0) then Some t
  else
    let ceiling := if ceiling0 =? 0 then 0 else Z.land ceiling0 PMD_MASK in
    if negb (ceiling0 =? 0) && (ceiling =? 0) then Some t
    else
      let end_ := if ceiling -u 1 <? end0 -u 1 then end0 -u PMD_SIZE else end0 in
      if end_ -u 1 <? addr then Some t
      else fst <$> walk_from pgd_addr_end
             (fun i addr next => free_entry (free_pud_range addr next floor ceiling) i)
             (lego_pgd_index addr) addr end_ t.

Fixpoint lego_free_pgtables (areas : list (Z * Z)) (floor ceiling : Z) (t : pgd_table) : option pgd_table :=
  match areas with
  | [] => Some t
  | (start, last) :: l =>
      t ← lego_free_pgd_range start last floor
            (match l with (next, _) :: _ => next | [] => ceiling end) t;
      lego_free_pgtables l floor ceiling t
  end.

(** ** Access by address *)

(** A [pmd_t *]: its indices in the three upper levels *)
Abbreviation pmd_ptr := (Z * Z * Z)%type.
Definition lego_pmd_ptr (address : Z) : pmd_ptr :=
  (lego_pgd_index address, lego_pud_index address, lego_pmd_index address).

(** The table that it points to *)
Definition pte_page (t : pgd_table) (p : pmd_ptr) : option pte_table :=
  let '(a, b, c) := p in x ← t !! a; y ← x !! b; y !! c.
Definition get_pte (t : pgd_table) (p : pmd_ptr) (i : Z) : Z :=
  match pte_page t p with Some u => get_entry u i | None => 0 end.
Definition upd_page (f : pte_table -> pte_table) (p : pmd_ptr) (t : pgd_table) : pgd_table :=
  let '(a, b, c) := p in alter (alter (alter f c) b) a t.

Definition pte_at (t : pgd_table) (address : Z) : Z :=
  get_pte t (lego_pmd_ptr address) (lego_pte_index address).

(** The tables above the entry of [address], the last one included if [pte] *)
Definition alloc_path (pte : bool) (address : Z) (t : pgd_table) (m : pages) : bool * pgd_table * pages :=
  let '(ok, t, m) := lego_pud_alloc address t m in
  if negb ok then (false, t, m)
  else
    let x := default ∅ (t !! lego_pgd_index address) in
    let '(ok, x, m) := lego_pmd_alloc address x m in
    let t := <[lego_pgd_index address := x]> t in
    if negb ok || negb pte then (ok, t, m)
    else
      let y := default ∅ (x !! lego_pud_index address) in
      let '(ok, y, m) := lego_pte_alloc address y m in
      (ok, <[lego_pgd_index address := <[lego_pud_index address := y]> x]> t, m).

(** ** Moving (mremap) *)

(** The pointer, if the three levels have it and it is not empty *)
Definition get_old_pmd (t : pgd_table) (addr : Z) : option pmd_ptr :=
  match pte_page t (lego_pmd_ptr addr) with Some _ => Some (lego_pmd_ptr addr) | None => None end.

Definition alloc_new_pmd (addr : Z) := alloc_path false addr.

(** [i] and [j] are the positions in the two tables; [n] entries are left in the shorter
    rest of them. *)
Fixpoint move_ptes_loop (n : nat) (old_pmd new_pmd : pmd_ptr) (i j old_addr old_end : Z) (t : pgd_table)
  : option pgd_table :=
  if old_addr <? old_end then
    match n with
    | O => None
    | S n =>
        let pte := get_pte t old_pmd i in
        let t := if pte_none pte then t
                 else upd_page (pte_set j pte) new_pmd (upd_page (pte_clear i) old_pmd t) in
        move_ptes_loop n old_pmd new_pmd (i + 1) (j + 1) (old_addr +u PAGE_SIZE) old_end t
    end
  else Some t.

Definition move_ptes (old_pmd : pmd_ptr) (old_addr old_end : Z) (new_pmd : pmd_ptr) (new_addr : Z)
    (t : pgd_table) : option pgd_table :=
  let i := lego_pte_index old_addr in
  let j := lego_pte_index new_addr in
  move_ptes_loop (Z.to_nat (PTRS_PER_TABLE - Z.max i j)) old_pmd new_pmd i j old_addr old_end t.

Definition LATENCY_LIMIT : Z := 64 * PAGE_SIZE.

(** The loop; the result is [old_addr] at its end. *)
Fixpoint move_loop (fuel : nat) (old_addr new_addr old_end : Z) (t : pgd_table) (m : pages)
  : option (pgd_table * pages * Z) :=
  if old_addr <? old_end then
    match fuel with
    | O => None
    | S fuel =>
        let next := Z.land (old_addr +u PMD_SIZE) PMD_MASK in
        let extent := next -u old_addr in
        let extent := if old_end -u old_addr <? extent then old_end -u old_addr else extent in
        match get_old_pmd t old_addr with
        | None => move_loop fuel (old_addr +u extent) (new_addr +u extent) old_end t m
        | Some old_pmd =>
            let '(ok, t, m) := alloc_new_pmd new_addr t m in
            if negb ok then Some (t, m, old_addr)
            else
              let '(ok, t, m) := alloc_path true new_addr t m in
              if negb ok then Some (t, m, old_addr)
              else
                let next := Z.land (new_addr +u PMD_SIZE) PMD_MASK in
                let extent := if next -u new_addr <? extent then next -u new_addr else extent in
                let extent := if LATENCY_LIMIT <? extent then LATENCY_LIMIT else extent in
                t ← move_ptes old_pmd old_addr (old_addr +u extent) (lego_pmd_ptr new_addr) new_addr t;
                move_loop fuel (old_addr +u extent) (new_addr +u extent) old_end t m
        end
    end
  else Some (t, m, old_addr).

(** Each iteration takes at least one page. *)
Definition lego_move_page_tables (old_addr new_addr len : Z) (t : pgd_table) (m : pages)
  : option (pgd_table * pages * Z) :=
  let old_end := old_addr +u len in
  '(t, m, old_addr) ← move_loop (Z.to_nat (len / PAGE_SIZE)) old_addr new_addr old_end t m;
  Some (t, m, len +u (old_addr -u old_end)).
