(* ===== verification/PgtTables.v ===== *)
(** * Memory manager, page tables: levels, loops and reference counts

    The four levels of the tables are one construction repeated: a table of things that
    each cover [span] bytes.  What a table holds for an address ([look]), how many of
    its entries map a page ([cnt]), the rule for the loops over the entries, and the
    bookkeeping of the reference counts. *)

From stdpp Require Import gmap fin_maps.
From S2P Require Import Prelude VmaModel PgtModel.

(** ** Levels *)

(** An entry of the last level that is in a table: it maps a page. *)
Definition entry_ok (pte : Z) : Prop := pte_present pte = true.

Class Level (T : Type) := {
  span : Z;
  look : T -> Z -> Z;
  cnt : Z -> T -> Z;
  tbl_ok : T -> Prop;
  (** how many tables and entries there are on the way to an address, and how many levels
      of tables *)
  path : T -> Z -> nat;
  tables : nat;
  (** what a table of a level covers, the thing itself being of level 0 *)
  width : nat -> Z
}.
Arguments span T {_}.
Arguments tables T {_}.
Arguments width T {_}.

#[global] Instance level_pte : Level Z := {|
  span := PAGE_SIZE;
  look p _ := p;
  cnt f p := if decide (lego_pte_to_virt p = f) then 1 else 0;
  tbl_ok := entry_ok;
  path _ _ := O;
  tables := O;
  width _ := PAGE_SIZE
|}.

(** The index of an address in a table of [T]s *)
Definition index (T : Type) `{Level T} (a : Z) : Z := (a / span T) mod PTRS_PER_TABLE.

Definition sum {T : Type} (c : T -> Z) (t : gmap Z T) : Z := map_fold (fun _ x n => c x + n) 0 t.

#[global] Instance level_table {T : Type} `{Level T} : Level (gmap Z T) := {|
  span := PTRS_PER_TABLE * span T;
  look t a := match t !! index T a with Some x => look x a | None => 0 end;
  cnt f t := sum (cnt f) t;
  tbl_ok := map_Forall (fun i x => 0 <= i < PTRS_PER_TABLE /\ tbl_ok x);
  path t a := match t !! index T a with Some x => S (path x a) | None => O end;
  tables := S (tables T);
  width l := match l with O => PTRS_PER_TABLE * span T | S l => width T l end
|}.

Section sum.
Context {T : Type} (c : T -> Z).
Implicit Types (t : gmap Z T) (i : Z) (x : T).

Lemma sum_insert_new t i x : t !! i = None -> sum c (<[i := x]> t) = sum c t + c x.
Proof.
  intros Hi. unfold sum. rewrite map_fold_insert_L; [lia| |done]. intros. lia.
Qed.

Lemma sum_delete t i x : t !! i = Some x -> sum c (delete i t) = sum c t - c x.
Proof.
  intros Hi. rewrite <- (insert_delete_id t i x) at 2 by done. rewrite sum_insert_new by apply lookup_delete_eq. lia.
Qed.

Lemma sum_insert t i x y : t !! i = Some y -> sum c (<[i := x]> t) = sum c t - c y + c x.
Proof.
  intros Hi. rewrite <- (insert_delete_eq t), sum_insert_new by apply lookup_delete_eq.
  by rewrite (sum_delete _ _ _ Hi).
Qed.

Lemma sum_nonneg t : (forall x, 0 <= c x) -> 0 <= sum c t.
Proof.
  intros Hc. unfold sum. apply (map_fold_weak_ind (fun n _ => 0 <= n)); [done|]. intros i x m n _ Hn.
  specialize (Hc x). lia.
Qed.

Lemma sum_lookup t i x : (forall x, 0 <= c x) -> t !! i = Some x -> c x <= sum c t.
Proof.
  intros Hc Hi. pose proof (sum_delete t i x Hi). pose proof (sum_nonneg (delete i t) Hc). lia.
Qed.

Lemma sum_zero t : (forall i x, t !! i = Some x -> c x = 0) -> sum c t = 0.
Proof.
  induction t as [|i x t Hi IH] using map_ind; intros Hz; [done|].
  rewrite sum_insert_new by done. rewrite IH; [|intros j y Hj; apply (Hz j); rewrite lookup_insert_ne; congruence].
  by rewrite (Hz i) by apply lookup_insert_eq.
Qed.
End sum.

(** What the constructions need of a level *)
Class LevelLaws (T : Type) `{Level T} : Prop := {
  span_pow : exists k, 12 <= k <= 48 /\ span T = 2 ^ k;
  cnt_nonneg : forall f (x : T), 0 <= cnt f x;
  look_mod : forall (x : T) a, look x a = look x (a mod span T);
  cnt_zero : forall f (x : T), tbl_ok x -> (forall a, 0 <= a -> look x a = 0) -> cnt f x = 0;
  width_divides : forall l, 0 < width T l /\ (width T l | span T)
}.

#[global] Instance level_pte_laws : LevelLaws Z.
Proof.
  split.
  - by exists 12.
  - intros f x. simpl. by case_decide.
  - done.
  - intros f x Hx Hz. specialize (Hz 0). simpl in Hz. rewrite Hz in Hx by lia. done.
  - intros l. split; [done|by exists 1].
Qed.

Section level.
Context {T : Type} `{LevelLaws T}.
Implicit Types (t : gmap Z T).

Lemma span_pos : 0 < span T.
Proof. destruct span_pow as (k & ? & ->). lia. Qed.

Lemma span_pos_table : 0 < span (gmap Z T).
Proof. pose proof span_pos. simpl. unfold PTRS_PER_TABLE. lia. Qed.

Lemma index_range a : 0 <= index T a < PTRS_PER_TABLE.
Proof. apply Z.mod_pos_bound. done. Qed.

(** The address of entry [i] and offset [a] *)
Lemma index_at i a : 0 <= i < PTRS_PER_TABLE -> 0 <= a < span T -> index T (i * span T + a) = i.
Proof.
  intros Hi Ha. unfold index. rewrite Z.div_add_l by lia. rewrite Z.div_small by lia.
  rewrite Z.add_0_r. by apply Z.mod_small.
Qed.

Lemma table_laws (Hk : span T <= 2 ^ 39) : LevelLaws (gmap Z T).
Proof.
  pose proof span_pos. split.
  - destruct span_pow as (k & Hk0 & E). exists (9 + k). simpl. rewrite E in *. rewrite Z.pow_add_r by lia.
    split; [|done]. split; [lia|]. apply Z.pow_le_mono_r_iff in Hk; lia.
  - intros f t. apply sum_nonneg, cnt_nonneg.
  - intros t a. simpl. unfold PTRS_PER_TABLE. pose proof (Z.mod_pos_bound a (span T)).
    assert (E0 : a mod (512 * span T) = (a / span T) mod 512 * span T + a mod span T).
    { rewrite (Z.mul_comm 512), Z.rem_mul_r; [ring|lia|lia]. }
    assert (E : index T (a mod (512 * span T)) = index T a).
    { rewrite E0. apply index_at; [by apply Z.mod_pos_bound|lia]. }
    rewrite E. destruct (t !! _) as [x|]; [|done]. rewrite (look_mod x (_ mod (_ * _))), E0, Z.add_comm, Z_mod_plus_full.
    by rewrite <- look_mod, <- look_mod.
  - intros f t Ht Hz. simpl. apply sum_zero. intros i x Hi. destruct (Ht i x Hi) as [Hr Hx]. apply cnt_zero; [done|].
    intros a Ha. specialize (Hz (i * span T + a mod span T)). simpl in Hz.
    pose proof (Z.mod_pos_bound a (span T)). rewrite index_at, Hi in Hz by lia.
    rewrite look_mod, Z.add_comm, Z_mod_plus_full, <- look_mod, <- look_mod in Hz. apply Hz. lia.
  - intros [|l]; simpl; [unfold PTRS_PER_TABLE; split; [lia|by exists 1; lia]|]. destruct (width_divides l) as [Hp Hd].
    split; [done|]. by apply Z.divide_mul_r.
Qed.
End level.

#[global] Instance pte_table_laws : LevelLaws pte_table.
Proof. apply table_laws. vm_compute. discriminate. Qed.
#[global] Instance pmd_table_laws : LevelLaws pmd_table.
Proof. apply table_laws. vm_compute. discriminate. Qed.
#[global] Instance pud_table_laws : LevelLaws pud_table.
Proof. apply table_laws. vm_compute. discriminate. Qed.
#[global] Instance pgd_table_laws : LevelLaws pgd_table.
Proof. apply table_laws. vm_compute. discriminate. Qed.

Lemma index_shift a k : 0 <= k -> Z.land (Z.shiftr a k) (PTRS_PER_TABLE - 1) = (a / 2 ^ k) mod PTRS_PER_TABLE.
Proof.
  intros. rewrite Z.shiftr_div_pow2 by done. change PTRS_PER_TABLE with (2 ^ 9). rewrite land_mask_mod by lia. done.
Qed.

Lemma pte_index a : lego_pte_index a = index Z a.
Proof. unfold lego_pte_index. by rewrite index_shift. Qed.
Lemma pmd_index a : lego_pmd_index a = index pte_table a.
Proof. unfold lego_pmd_index. by rewrite index_shift. Qed.
Lemma pud_index a : lego_pud_index a = index pmd_table a.
Proof. unfold lego_pud_index. by rewrite index_shift. Qed.
Lemma pgd_index a : lego_pgd_index a = index pud_table a.
Proof. unfold lego_pgd_index. by rewrite index_shift. Qed.

(** ** The loops *)

(** The end of the addresses that the tables are used for *)
Definition ADDR_LIMIT : Z := 2 ^ 48.

(** The end of the entry of [a], or of the range *)
Definition entry_end (T : Type) `{Level T} (a e : Z) : Z := Z.min ((a / span T + 1) * span T) e.

(** An [addr_end] of the entries of type [T] *)
Definition addr_end_ok (T : Type) `{Level T} (f : Z -> Z -> Z) : Prop :=
  forall a e, page_aligned a -> page_aligned e -> 0 <= a < e -> e <= ADDR_LIMIT -> f a e = entry_end T a e.

Lemma boundary_ok k a e :
  12 <= k <= 48 -> 0 <= a < e -> e <= ADDR_LIMIT ->
  let boundary := Z.land (a +u 2 ^ k) (wrap (Z.lnot (2 ^ k - 1))) in
  (if boundary -u 1 <? e -u 1 then boundary else e) = Z.min ((a / 2 ^ k + 1) * 2 ^ k) e.
Proof.
  intros Hk Ha He. assert (2 ^ k <= 2 ^ 48) by (apply Z.pow_le_mono_r; lia). assert (0 < 2 ^ k) by lia.
  unfold ADDR_LIMIT in He. assert (Hu : is_u64 (a + 2 ^ k)) by (unfold is_u64, ULONG_MOD; lia).
  rewrite (wrap_small (a + _)), land_not_mask by (done || lia).
  assert (E : a + 2 ^ k - (a + 2 ^ k) mod 2 ^ k = (a / 2 ^ k + 1) * 2 ^ k).
  { rewrite <- (Z.mul_1_l (2 ^ k)) at 2. rewrite Z.mod_add by lia. pose proof (Z.div_mod a (2 ^ k)). lia. }
  simpl. rewrite E. pose proof (Z.div_mod a (2 ^ k)). pose proof (Z.mod_pos_bound a (2 ^ k)).
  rewrite !wrap_small by (unfold is_u64, ULONG_MOD; nia).
  destruct (Z.ltb_spec ((a / 2 ^ k + 1) * 2 ^ k - 1) (e - 1)); lia.
Qed.

Lemma pmd_addr_end_ok : addr_end_ok pte_table pmd_addr_end.
Proof. intros a e _ _ Ha He. by apply (boundary_ok 21). Qed.
Lemma pud_addr_end_ok : addr_end_ok pmd_table pud_addr_end.
Proof. intros a e _ _ Ha He. by apply (boundary_ok 30). Qed.
Lemma pgd_addr_end_ok : addr_end_ok pud_table pgd_addr_end.
Proof. intros a e _ _ Ha He. by apply (boundary_ok 39). Qed.

Lemma pte_addr_end_ok : addr_end_ok Z pte_addr_end.
Proof.
  intros a e Ha He Hr Hl. unfold pte_addr_end, entry_end, page_aligned, ADDR_LIMIT in *. simpl. rewrite PAGE_SIZE_eq in *.
  rewrite wrap_small by (unfold is_u64, ULONG_MOD; lia). pose proof (Z.div_mod a 4096). pose proof (Z.div_mod e 4096). lia.
Qed.

(** The range [a, e) is not empty, and lies under one entry of type [T]. *)
Record under (T : Type) `{Level T} (a e : Z) : Prop := {
  un_start : page_aligned a;
  un_end : page_aligned e;
  un_range : 0 <= a < e;
  un_limit : e <= ADDR_LIMIT;
  un_same : a / span T = (e - 1) / span T
}.

Section walk_rule.
Context {T : Type} `{LevelLaws T} {St : Type} (addr_end : Z -> Z -> Z) (Hend : addr_end_ok T addr_end).
Context (body : Z -> Z -> Z -> St -> option (St * Z)).
(** [P a]: what holds when the entries below [a] have been visited; [Q]: what holds of a
    result other than 0 *)
Context (P : Z -> St -> Prop) (Q : Z -> St -> Prop).

Definition step_ok (start last : Z) : Prop :=
  forall a s, start <= a -> under T a (entry_end T a last) -> entry_end T a last <= last -> P a s ->
  exists s' ret, body (index T a) a (entry_end T a last) s = Some (s', ret) /\
    (ret = 0 /\ P (entry_end T a last) s' \/ ret <> 0 /\ Q ret s').

Lemma entry_end_bounds a e :
  page_aligned a -> page_aligned e -> 0 <= a < e -> e <= ADDR_LIMIT ->
  under T a (entry_end T a e) /\ entry_end T a e <= e.
Proof.
  intros Ha He Hr Hl. pose proof (span_pos (T := T)) as Hs. destruct (span_pow (T := T)) as (k & Hk & E).
  unfold entry_end. pose proof (Z.div_mod a (span T)). pose proof (Z.mod_pos_bound a (span T)).
  split; [|lia]. split; [done| |nia|lia|].
  - unfold page_aligned in *. destruct (Z.min_spec ((a / span T + 1) * span T) e) as [[_ ->]|[_ ->]]; [|done].
    rewrite E. replace k with (k - 12 + 12) at 2 by lia. rewrite Z.pow_add_r by lia. rewrite Z.mul_assoc.
    change PAGE_SIZE with (2 ^ 12). by rewrite Z.mod_mul.
  - assert ((a / span T) * span T <= Z.min ((a / span T + 1) * span T) e - 1 < (a / span T + 1) * span T) by nia.
    apply (Z.div_unique _ _ _ (Z.min ((a / span T + 1) * span T) e - 1 - span T * (a / span T))); nia.
Qed.

Lemma index_sub a : index T a = a / span T - PTRS_PER_TABLE * (a / span (gmap Z T)).
Proof.
  pose proof (span_pos (T := T)). unfold index. simpl. rewrite (Z.mul_comm PTRS_PER_TABLE (span T)).
  rewrite <- Z.div_div by (done || lia). apply Z.mod_eq. done.
Qed.

(** The next entry of the same table *)
Lemma index_next a e :
  page_aligned a -> page_aligned e -> 0 <= a < e -> e <= ADDR_LIMIT ->
  a / span (gmap Z T) = (e - 1) / span (gmap Z T) -> entry_end T a e <> e ->
  let next := entry_end T a e in
  a < next < e /\ page_aligned next /\ index T next = index T a + 1 /\
  next / span (gmap Z T) = (e - 1) / span (gmap Z T).
Proof.
  intros Ha He Hr Hl Hs Hne next. destruct (entry_end_bounds a e) as [[? Hn ? ? ?] Hle]; try done.
  assert (Hlt : a < next < e) by (unfold next in *; lia). pose proof (span_pos (T := T)) as Hp.
  assert (Enext : next = (a / span T + 1) * span T) by (unfold next, entry_end in *; lia).
  assert (Hsame : next / span (gmap Z T) = (e - 1) / span (gmap Z T)).
  { pose proof (span_pos_table (T := T)).
    apply Z.le_antisymm; [apply Z.div_le_mono; lia|]. rewrite <- Hs. apply Z.div_le_mono; lia. }
  split; [done|]. split; [done|]. split; [|done]. rewrite !index_sub, Hsame, Hs, Enext, Z.div_mul by lia. lia.
Qed.

Lemma walk_ok start last s :
  under (gmap Z T) start last -> step_ok start last -> P start s ->
  exists s' ret, walk_from addr_end body (index T start) start last s = Some (s', ret) /\
    (ret = 0 /\ P last s' \/ ret <> 0 /\ Q ret s').
Proof using All.
  intros [Ha He Hr Hl Hs] Hstep HP. unfold walk_from.
  assert (Hn : forall n a s, Z.of_nat n = PTRS_PER_TABLE - index T a -> start <= a < last -> page_aligned a ->
    a / span (gmap Z T) = (last - 1) / span (gmap Z T) -> P a s ->
    exists s' ret, walk addr_end body n (index T a) a last s = Some (s', ret) /\
      (ret = 0 /\ P last s' \/ ret <> 0 /\ Q ret s')).
  2:{ apply Hn; try done; [|lia]. pose proof (index_range (T := T) start). lia. }
  clear s HP. induction n as [|n IH]; intros a s Hn Hal Hap Hsp HP; [pose proof (index_range (T := T) a); lia|].
  destruct (entry_end_bounds a last) as [Hu Hle]; [done|done|lia|done|].
  simpl. rewrite Hend by (done || lia). destruct (Hstep a s) as (s' & ret & -> & Hcase); [lia|done|done|done|]. simpl.
  destruct Hcase as [[-> HP']|[Hne HQ]].
  - simpl. destruct (Z.eqb_spec (entry_end T a last) last) as [E|E]; [rewrite E in HP'; exists s', 0; by auto|].
    destruct (index_next a last ltac:(done) ltac:(done) ltac:(lia) ltac:(done) ltac:(done) E) as (Hlt & Hpa & Hidx & Hsp').
    rewrite <- Hidx. apply IH; try done; lia.
  - rewrite (proj2 (Z.eqb_neq ret 0)) by done. simpl. exists s', ret. by auto.
Qed.
End walk_rule.

#[global] Arguments span : simpl never.
#[global] Arguments look : simpl never.
#[global] Arguments cnt : simpl never.
#[global] Arguments tbl_ok : simpl never.
#[global] Arguments path : simpl never.
#[global] Arguments tables : simpl never.
#[global] Arguments width : simpl never.

Section unfold.
Context {T : Type} `{LevelLaws T}.
Implicit Types (t : gmap Z T) (x : T).

Lemma look_table t a : look t a = match t !! index T a with Some x => look x a | None => 0 end.
Proof. done. Qed.

Lemma look_insert t i x a :
  look (<[i := x]> t) a = if decide (index T a = i) then look x a else look t a.
Proof.
  rewrite look_table. case_decide as E; [by rewrite E, lookup_insert_eq|by rewrite lookup_insert_ne by done].
Qed.

Lemma look_delete t i a : look (delete i t) a = if decide (index T a = i) then 0 else look t a.
Proof.
  rewrite look_table. case_decide as E; [by rewrite E, lookup_delete_eq|by rewrite lookup_delete_ne by done].
Qed.

Lemma path_table t a : path t a = match t !! index T a with Some x => S (path x a) | None => O end.
Proof. done. Qed.

Lemma path_insert t i x a : path (<[i := x]> t) a = if decide (index T a = i) then S (path x a) else path t a.
Proof.
  rewrite path_table. case_decide as E; [by rewrite E, lookup_insert_eq|by rewrite lookup_insert_ne by done].
Qed.

Lemma path_delete t i a : path (delete i t) a = if decide (index T a = i) then O else path t a.
Proof.
  rewrite path_table. case_decide as E; [by rewrite E, lookup_delete_eq|by rewrite lookup_delete_ne by done].
Qed.

Lemma cnt_insert f t i x y : t !! i = Some y -> cnt f (<[i := x]> t) = cnt f t - cnt f y + cnt f x.
Proof. apply sum_insert. Qed.

Lemma cnt_insert_new f t i x : t !! i = None -> cnt f (<[i := x]> t) = cnt f t + cnt f x.
Proof. apply sum_insert_new. Qed.

Lemma cnt_delete f t i x : t !! i = Some x -> cnt f (delete i t) = cnt f t - cnt f x.
Proof. apply sum_delete. Qed.

Lemma cnt_lookup f t i x : t !! i = Some x -> cnt f x <= cnt f t.
Proof. apply sum_lookup, cnt_nonneg. Qed.

Lemma tbl_lookup t i x : tbl_ok t -> t !! i = Some x -> 0 <= i < PTRS_PER_TABLE /\ tbl_ok x.
Proof. intros Ht. apply (Ht i x). Qed.

Lemma tbl_insert t i x : tbl_ok t -> tbl_ok x -> 0 <= i < PTRS_PER_TABLE -> tbl_ok (<[i := x]> t).
Proof. intros Ht Hx Hi. by apply map_Forall_insert_2. Qed.

Lemma tbl_delete t i : tbl_ok t -> tbl_ok (delete i t).
Proof. apply map_Forall_delete. Qed.

Lemma tbl_empty : tbl_ok (∅ : gmap Z T).
Proof. apply map_Forall_empty. Qed.

Lemma look_empty a : look (∅ : gmap Z T) a = 0.
Proof. by rewrite look_table, lookup_empty. Qed.

Lemma cnt_empty f : cnt f (∅ : gmap Z T) = 0.
Proof. apply sum_zero. intros i x. by rewrite lookup_empty. Qed.
End unfold.

Lemma look_pte (p a : Z) : look p a = p.
Proof. done. Qed.
Lemma cnt_pte f (p : Z) : cnt f p = if decide (lego_pte_to_virt p = f) then 1 else 0.
Proof. done. Qed.
Lemma tbl_pte (p : Z) : tbl_ok p <-> pte_present p = true.
Proof. done. Qed.
