(* ===== verification/PgtRange.v ===== *)
(** * Memory manager, page tables: unmapping a range and freeing tables

    [lego_unmap_page_range] clears exactly the entries of the range and drops one
    reference to the page of each; it never walks off a table nor frees a page that is
    not in use. *)

From stdpp Require Import gmap fin_maps.
From S2P Require Import Prelude VmaModel VmaInv VmaSpec PgtModel PgtTables.

(** ** Reference counts *)

Definition rc (m : pages) (f : Z) : Z := match frames m !! f with Some fr => fr_count fr | None => 0 end.
Definition data_of (m : pages) (f : Z) : option (list Z) := fr_data <$> frames m !! f.

(** A page that is in use has a reference. *)
Definition frames_ok (m : pages) : Prop := map_Forall (fun _ fr => 0 < fr_count fr) (frames m).

(** No page appears and no contents change. *)
Record keeps (m m' : pages) : Prop := {
  kp_data : forall f d, data_of m' f = Some d -> data_of m f = Some d;
  kp_tables : pg_tables m' = pg_tables m
}.

#[global] Instance keeps_preorder : PreOrder keeps.
Proof.
  split; [by intros m|]. intros m1 m2 m3 [H1 T1] [H2 T2]. split; [|congruence]. intros f d Hd. by apply H1, H2.
Qed.

(** Every reference is an entry of [t], or one of those counted by [o]. *)
Record balanced {T : Type} `{Level T} (o : Z -> Z) (t : T) (m : pages) : Prop := {
  bl_frames : frames_ok m;
  bl_rc : forall f, rc m f = cnt f t + o f;
  bl_rest : forall f, 0 <= o f
}.

Lemma rc_pos m f : frames_ok m -> 0 < rc m f -> exists fr, frames m !! f = Some fr /\ 0 < fr_count fr.
Proof. unfold rc. intros Hm Hr. destruct (frames m !! f) as [fr|] eqn:E; [|lia]. by exists fr. Qed.

Lemma free_page_ok f m :
  frames_ok m -> 0 < rc m f ->
  exists m', free_page f m = Some m' /\ frames_ok m' /\
    (forall g, rc m' g = rc m g - (if decide (f = g) then 1 else 0)) /\ keeps m m'.
Proof.
  intros Hm Hf. destruct (rc_pos m f Hm Hf) as (fr & E & Hc). unfold free_page. rewrite E. simpl.
  rewrite (proj2 (Z.eqb_neq _ 0)) by lia. destruct (Z.eqb_spec (fr_count fr - 1) 0) as [E1|E1]; eexists; (split; [done|]).
  - split_and!.
    + intros g x Hx. simpl in Hx. apply lookup_delete_Some in Hx as [_ Hx]. by apply (Hm g).
    + intros g. unfold rc. simpl. case_decide as Hg; [subst g; rewrite lookup_delete_eq, E; lia|].
      rewrite lookup_delete_ne by done. lia.
    + split; [|done]. intros g d. unfold data_of. simpl. destruct (decide (f = g)) as [<-|]; [by rewrite lookup_delete_eq|].
      by rewrite lookup_delete_ne.
  - split_and!.
    + intros g x Hx. simpl in Hx. apply lookup_insert_Some in Hx as [[_ <-]|[_ Hx]]; [simpl; lia|by apply (Hm g)].
    + intros g. unfold rc. simpl. case_decide as Hg; [subst g; rewrite lookup_insert_eq, E; simpl; lia|].
      rewrite lookup_insert_ne by done. lia.
    + split; [|done]. intros g d. unfold data_of. simpl. destruct (decide (f = g)) as [<-|]; [by rewrite lookup_insert_eq, E|].
      by rewrite lookup_insert_ne.
Qed.

(** ** Ranges *)

(** [t'] and [m'] are [t] and [m] without the entries of [s, e). *)
Record zapped {T : Type} `{Level T} (o : Z -> Z) (s e : Z) (t : T) (m : pages) (t' : T) (m' : pages) : Prop := {
  zp_ok : tbl_ok t';
  zp_look : forall a, a / span T = s / span T -> look t' a = if in_range s e a then 0 else look t a;
  zp_balanced : balanced o t' m';
  zp_keeps : keeps m m';
  zp_path : forall a, (path t' a <= path t a)%nat
}.

Definition zap_ok (T : Type) `{Level T} (f : Z -> Z -> T -> pages -> option (T * pages)) : Prop :=
  forall o s e t m, under T s e -> tbl_ok t -> balanced o t m ->
  exists t' m', f s e t m = Some (t', m') /\ zapped o s e t m t' m'.

(** The body of the loop over a table of [T]s *)
Definition zap_body (T : Type) `{Level T}
    (body : Z -> Z -> Z -> gmap Z T * pages -> option ((gmap Z T * pages) * Z)) : Prop :=
  forall o s e t m, under T s e -> tbl_ok t -> balanced o t m ->
  exists t' m', body (index T s) s e (t, m) = Some ((t', m'), 0) /\ zapped o s e t m t' m'.

Section zap.
Context {T : Type} `{LevelLaws T}.

Lemma index_inj a b :
  a / span (gmap Z T) = b / span (gmap Z T) -> index T a = index T b -> a / span T = b / span T.
Proof. intros Hs Hi. rewrite !index_sub in Hi. rewrite Hs in Hi. lia. Qed.

Lemma under_mid (s e a : Z) : under (gmap Z T) s e -> s <= a < e -> a / span (gmap Z T) = s / span (gmap Z T).
Proof.
  intros [_ _ _ _ Hs] Ha. pose proof (span_pos (T := T)).
  pose proof (span_pos_table (T := T)).
  apply Z.le_antisymm; [rewrite Hs|]; apply Z.div_le_mono; lia.
Qed.

Lemma zap_walk addr_end body :
  addr_end_ok T addr_end -> zap_body T body ->
  zap_ok (gmap Z T) (fun s e t m => fst <$> walk_from addr_end body (index T s) s e (t, m)).
Proof.
  intros Hend Hbody o s e t m Hu Ht Hb.
  set (P := fun a (x : gmap Z T * pages) => zapped o s a t m x.1 x.2).
  destruct (walk_ok addr_end Hend body P (fun _ _ => False) s e (t, m) Hu) as ([t' m'] & ret & -> & [[-> HP]|[_ []]]).
  - intros a [t1 m1] Ha Hua Hle [Hok Hlook Hbal Hk Hp].
    destruct (Hbody o a (entry_end T a e) t1 m1 Hua Hok Hbal) as (t2 & m2 & -> & [Hok2 Hlook2 Hbal2 Hk2 Hp2]).
    exists (t2, m2), 0. split; [done|]. left. split; [done|]. split; [done| |done|by transitivity m1|intros y; specialize (Hp y); specialize (Hp2 y); simpl in *; lia].
    intros y Hy. pose proof (un_range _ _ _ Hua).
    assert (Ea : a / span (gmap Z T) = s / span (gmap Z T)) by (apply (under_mid s e a); [done|lia]).
    rewrite Hlook2, Hlook by congruence.
    rewrite (in_range_split s a (entry_end T a e)) by lia. by destruct (in_range s a y), (in_range a _ y).
  - split; [done| |done|done|done]. intros a _. unfold in_range. destruct (Z.leb_spec s a), (Z.ltb_spec a s); simpl; lia || done.
  - by exists t', m'.
Qed.

(** An address under another entry is not in the range. *)
Lemma outside s e a : under T s e -> index T a <> index T s -> in_range s e a = false.
Proof.
  intros [_ _ _ _ Hs] Hi. apply not_true_iff_false. intros [Hle%Z.leb_le Hlt%Z.ltb_lt]%andb_prop. apply Hi.
  unfold index. f_equal. pose proof (span_pos (T := T)).
  apply Z.le_antisymm; [rewrite Hs|]; apply Z.div_le_mono; lia.
Qed.

Lemma zap_entry f : zap_ok T f -> zap_body T (fun i a next => on_entry (f a next) i).
Proof.
  intros Hf o s e t m Hu Ht [Hfr Hrc Ho]. unfold on_entry. destruct (t !! index T s) as [x|] eqn:E.
  - set (o' := fun g => cnt g t - cnt g x + o g).
    destruct (Hf o' s e x m Hu) as (x' & m' & -> & [Hok Hlook [Hfr' Hrc' _] Hk Hp]).
    { by apply (Ht _ _ E). }
    { split; [done|intros g; rewrite Hrc; unfold o'; lia|]. intros g. unfold o'. specialize (Ho g).
      pose proof (cnt_lookup g t _ x E). lia. }
    simpl. exists (<[index T s := x']> t), m'. split; [done|]. split; [by apply tbl_insert; [| |apply index_range]| | |done|].
    + intros a Ha. rewrite look_insert. case_decide as Ei.
      * rewrite Hlook, look_table, Ei, E; [done|]. by apply index_inj.
      * rewrite (outside s e a) by done. done.
    + split; [done| |done]. intros g. rewrite Hrc', (cnt_insert _ _ _ _ _ E). unfold o'. lia.
    + intros a. rewrite path_insert. case_decide as Ei; [|done]. rewrite path_table, Ei, E. specialize (Hp a). lia.
  - exists t, m. split; [done|]. split; [done| |done|done|done]. intros a Ha. case_eq (in_range s e a); [|done]. intros Hin.
    rewrite look_table. destruct (decide (index T a = index T s)) as [->|Ei]; [by rewrite E|].
    by rewrite (outside s e a) in Hin.
Qed.
End zap.

(** ** The four levels *)

Lemma entry_not_none p : pte_present p = true -> pte_none p = false.
Proof.
  intros Hp. apply Z.eqb_neq. intros Hz. unfold pte_present, has in Hp. apply negb_true_iff, Z.eqb_neq in Hp. apply Hp.
  apply Z.bits_inj'. intros n Hn. rewrite Z.land_spec, Z.bits_0.
  assert (Hb : Z.testbit (Z.ldiff p (Z.lor _PAGE_DIRTY _PAGE_ACCESSED)) n = false) by (by rewrite Hz, Z.bits_0).
  rewrite Z.ldiff_spec in Hb. destruct (Z.testbit p n); [|done]. simpl in *. apply negb_false_iff in Hb.
  apply not_true_iff_false. intros Hb'. 
  assert (Z.testbit (Z.land (Z.lor _PAGE_DIRTY _PAGE_ACCESSED) (Z.lor _PAGE_PRESENT _PAGE_PROTNONE)) n = true) as H0
    by (by rewrite Z.land_spec, Hb, Hb').
  change (Z.land _ _) with 0 in H0. by rewrite Z.bits_0 in H0.
Qed.

(** A range under an entry of the last level is a page. *)
Lemma one_page s e a : under Z s e -> a / span Z = s / span Z -> in_range s e a = true.
Proof.
  intros [Hs He Hr _ Hse] Ha. change (span Z) with 4096 in *. unfold page_aligned in *. rewrite PAGE_SIZE_eq in *.
  pose proof (Z.div_mod a 4096). pose proof (Z.div_mod s 4096). pose proof (Z.div_mod e 4096). pose proof (Z.div_mod (e - 1) 4096).
  pose proof (Z.mod_pos_bound a 4096). pose proof (Z.mod_pos_bound (e - 1) 4096).
  apply andb_true_iff. split; [apply Z.leb_le|apply Z.ltb_lt]; lia.
Qed.

Lemma zap_pte_body : zap_body Z (fun i _ _ => zap_pte i).
Proof.
  intros o s e t m Hu Ht [Hfr Hrc Ho]. unfold zap_pte, get_entry. destruct (t !! index Z s) as [p|] eqn:E; simpl.
  - destruct (tbl_lookup t _ p Ht E) as [_ Hp]. apply tbl_pte in Hp. rewrite entry_not_none, Hp by done.
    pose proof (cnt_lookup (lego_pte_to_virt p) t _ p E) as Hc. rewrite cnt_pte, decide_True in Hc by done.
    destruct (free_page_ok (lego_pte_to_virt p) m Hfr) as (m' & -> & Hfr' & Hrc' & Hk).
    { rewrite Hrc. specialize (Ho (lego_pte_to_virt p)). lia. }
    exists (pte_clear (index Z s) t), m'. split; [done|]. split; [by apply tbl_delete| | |done|].
    + intros a Ha. unfold pte_clear. rewrite look_delete. case_decide as Ei.
      * by rewrite (one_page s e) by (done || by apply index_inj).
      * by rewrite (outside s e a).
    + split; [done| |done]. intros g. unfold pte_clear. rewrite (cnt_delete _ _ _ _ E), Hrc', Hrc, cnt_pte. lia.
    + intros a. unfold pte_clear. rewrite path_delete. case_decide; lia.
  - exists t, m. split; [done|]. split; [done| |done|done|done]. intros a Ha. case_eq (in_range s e a); [|done]. intros Hin.
    rewrite look_table. destruct (decide (index Z a = index Z s)) as [->|Ei]; [by rewrite E|].
    by rewrite (outside s e a) in Hin.
Qed.

Lemma zap_pte_range_ok : zap_ok pte_table zap_pte_range.
Proof.
  intros o s e t m Hu Ht Hb. unfold zap_pte_range. rewrite pte_index.
  by apply (zap_walk pte_addr_end _ pte_addr_end_ok zap_pte_body).
Qed.
Lemma zap_pmd_range_ok : zap_ok pmd_table zap_pmd_range.
Proof.
  intros o s e t m Hu Ht Hb. unfold zap_pmd_range. rewrite pmd_index.
  by apply (zap_walk pmd_addr_end _ pmd_addr_end_ok (zap_entry _ zap_pte_range_ok)).
Qed.
Lemma zap_pud_range_ok : zap_ok pud_table zap_pud_range.
Proof.
  intros o s e t m Hu Ht Hb. unfold zap_pud_range. rewrite pud_index.
  by apply (zap_walk pud_addr_end _ pud_addr_end_ok (zap_entry _ zap_pmd_range_ok)).
Qed.
Lemma unmap_page_range_ok : zap_ok pgd_table lego_unmap_page_range.
Proof.
  intros o s e t m Hu Ht Hb. unfold lego_unmap_page_range.
  rewrite (proj2 (Z.leb_gt e s)), pgd_index by (destruct Hu; lia).
  by apply (zap_walk pgd_addr_end _ pgd_addr_end_ok (zap_entry _ zap_pud_range_ok)).
Qed.

(** ** Freeing tables

    [lego_free_pgtables] gives back table pages between two areas that stay mapped:
    no entry is lost, whatever the boundaries of the areas. *)

(** [ceiling], where 0 is the top of the address space *)
Definition top_of (ceiling : Z) : Z := if ceiling =? 0 then ADDR_LIMIT else ceiling.

Definition round_up (k e : Z) : Z := ((e - 1) / k + 1) * k.

Lemma round_up_mono k a b : 0 < k -> a <= b -> round_up k a <= round_up k b.
Proof. intros Hk Hab. unfold round_up. assert ((a - 1) / k <= (b - 1) / k) by (apply Z.div_le_mono; lia). nia. Qed.

Lemma round_up_le k e c : 0 < k -> (k | c) -> e <= c -> round_up k e <= c.
Proof.
  intros Hk [q ->] He. unfold round_up. assert ((e - 1) / k < q) by (apply Z.div_lt_upper_bound; lia). nia.
Qed.

Lemma round_up_ge k e : 0 < k -> e <= round_up k e.
Proof. intros Hk. unfold round_up. pose proof (Z.div_mod (e - 1) k). pose proof (Z.mod_pos_bound (e - 1) k). nia. Qed.

(** Same entries, other tables *)
Record freed {T : Type} `{Level T} (s : Z) (t t' : T) : Prop := {
  fd_ok : tbl_ok t';
  fd_look : forall a, a / span T = s / span T -> look t' a = look t a;
  fd_cnt : forall f, cnt f t' = cnt f t
}.

(** Nothing is mapped between [fl] and [c], at the addresses of the table of [s]. *)
Definition empty_in {T : Type} `{Level T} (fl c s : Z) (t : T) : Prop :=
  forall a, a / span T = s / span T -> fl <= a < c -> look t a = 0.

Section free.
Context (fl c : Z).

(** A range that may be freed: whole entries of the level above the last lie between
    [fl] and [c]. *)
Record freeable (T : Type) `{Level T} (s e : Z) : Prop := {
  fr_under : under T s e;
  fr_aligned : (PMD_SIZE | s);
  fr_floor : fl <= s;
  fr_top : round_up PMD_SIZE e <= c
}.

(** The table of an address, [w] bytes wide, is used by none but the range. *)
Definition unneeded (s e w a : Z) : Prop :=
  let b := a / w * w in fl <= b /\ b + w <= c /\ b < e /\ s < b + w.

#[global] Instance unneeded_dec s e w a : Decision (unneeded s e w a).
Proof using. unfold unneeded. cbv zeta. apply _. Defined.

(** [t'] is [t] without the tables that nothing else uses, at the addresses under the
    thing of [S] bytes at [s]. *)
Record pruned {T : Type} `{Level T} (S s e : Z) (t t' : gmap Z T) : Prop := {
  pr_path : forall a, (path t' a <= path t a)%nat;
  pr_gone : forall a l, (1 <= l <= tables T)%nat -> a / S = s / S -> unneeded s e (width (gmap Z T) l) a -> (path t' a < l)%nat
}.

Definition free_body (T : Type) `{Level T} (body : Z -> Z -> Z -> gmap Z T -> option (gmap Z T * Z)) : Prop :=
  forall s e t, freeable T s e -> tbl_ok t -> empty_in fl c s t ->
  exists t', body (index T s) s e t = Some (t', 0) /\ freed s t t' /\ pruned (span T) s e t t'.

Section level.
Context {T : Type} `{LevelLaws T} (Hpmd : (PMD_SIZE | span T)).

(** A table that the range meets beyond [a] lies under the entry of [a]. *)
Lemma block_entry l a e y :
  under T a (entry_end T a e) -> let w := width T l in
  a < y / w * w + w -> y / w * w < entry_end T a e -> y / span T = a / span T.
Proof using H0.
  intros Hu w Hlo Hhi. destruct (width_divides (T := T) l) as [Hw [q Hq]]. fold w in Hw, Hq. pose proof (span_pos (T := T)) as Hp.
  assert (Hq0 : 0 < q) by nia. assert (Ey : y / span T = y / w / q) by (rewrite Hq, (Z.mul_comm q), Z.div_div by lia; done).
  assert (Ea : forall z, z / span T = z / w / q) by (intros z; rewrite Hq, (Z.mul_comm q), Z.div_div by lia; done).
  destruct Hu as [_ _ Hr _ Hs]. rewrite !Ea. rewrite !Ea in Hs. set (n := entry_end T a e) in *.
  assert (H1 : a / w <= y / w) by (apply Z.lt_succ_r, Z.div_lt_upper_bound; [done|lia]).
  assert (H2 : y / w <= (n - 1) / w) by (apply Z.div_le_lower_bound; [done|lia]).
  apply Z.le_antisymm; [rewrite Hs|]; by apply Z.div_le_mono.
Qed.

Lemma free_walk addr_end body s e t :
  addr_end_ok T addr_end -> free_body T body ->
  freeable (gmap Z T) s e -> tbl_ok t -> empty_in fl c s t ->
  exists t', walk_from addr_end body (index T s) s e t = Some (t', 0) /\ freed s t t' /\ pruned (span (gmap Z T)) s e t t'.
Proof using All.
  intros Hend Hbody [Hu Hal Hfl Hc] Ht Hz.
  set (P := fun a (x : gmap Z T) => (a = e \/ (PMD_SIZE | a)) /\ freed s t x /\ (forall y, path x y <= path t y)%nat /\
    forall y l, (1 <= l <= tables T)%nat -> y / span (gmap Z T) = s / span (gmap Z T) -> let w := width (gmap Z T) l in
      unneeded s e w y -> y / w * w + w <= a \/ e <= a -> (path x y < l)%nat).
  destruct (walk_ok addr_end Hend body P (fun _ _ => False) s e t Hu) as (t' & ret & -> & [[-> (_ & HP & Hp & Hg)]|[_ []]]).
  - intros a t1 Ha Hua Hle (Ea & [Hok Hlook Hcnt] & Hp & Hg). pose proof (un_range _ _ _ Hua) as Hr.
    assert (Esp : a / span (gmap Z T) = s / span (gmap Z T)) by (apply (under_mid s e a); [done|lia]).
    destruct (Hbody a (entry_end T a e) t1) as (t2 & -> & [Hok2 Hlook2 Hcnt2] & [Hp2 Hg2]).
    + split; [done|destruct Ea; [lia|done]|lia|]. transitivity (round_up PMD_SIZE e); [by apply round_up_mono|done].
    + done.
    + intros y Hy Hyr. rewrite Hlook by congruence. apply Hz; [congruence|done].
    + exists t2, 0. split; [done|]. left. split; [done|]. split_and!.
      * unfold entry_end. destruct (Z.min_spec ((a / span T + 1) * span T) e) as [[_ ->]|[_ ->]]; [right|by left].
        by apply Z.divide_mul_r.
      * split; [done| |]; [intros y Hy; rewrite Hlook2 by congruence; by apply Hlook|]. intros f. by rewrite Hcnt2.
      * intros y. specialize (Hp y). specialize (Hp2 y). lia.
      * intros y l Hll Hy w Hun Hv. destruct (decide (y / w * w + w <= a \/ e <= a)) as [Hold|Hnew].
        { specialize (Hg y l Hll Hy Hun Hold). specialize (Hp2 y). lia. }
        destruct Hun as (U1 & U2 & U3 & U4). fold w in U1, U2, U3, U4. destruct l as [|l]; [lia|].
        assert (Hlt : y / w * w < entry_end T a e).
        { destruct (width_divides (T := T) l) as [Hw _]. change (width T l) with w in Hw. lia. }
        apply Hg2; [done|apply (block_entry l a e); [done|change (width T l) with w; lia|done]|]. unfold unneeded. fold w. lia.
  - split; [by right|]. split; [done|]. split; [done|]. intros y l Hll Hy w (U1 & U2 & U3 & U4) Hv. fold w in U4. pose proof (un_range _ _ _ Hu). lia.
  - exists t'. split; [done|]. split; [done|]. split; [done|]. intros y l Hll Hy Hun. apply Hg; [done|done|done|by right].
Qed.

(** Removing an entry whose addresses are all between [fl] and [c] *)
Lemma delete_empty s t x :
  tbl_ok t -> empty_in fl c s t -> t !! index T s = Some x ->
  fl <= s / span T * span T -> (s / span T + 1) * span T <= c -> freed s t (delete (index T s) t).
Proof using All - Hpmd.
  intros Ht Hz E Hlo Hhi. pose proof (span_pos (T := T)) as Hp.
  assert (Hx : forall a, a / span (gmap Z T) = s / span (gmap Z T) -> index T a = index T s -> look t a = 0).
  { intros a Ha Hi. apply Hz; [done|]. pose proof (index_inj a s Ha Hi) as Es.
    pose proof (Z.div_mod a (span T)). pose proof (Z.mod_pos_bound a (span T)). rewrite Es in *. nia. }
  split; [by apply tbl_delete| |].
  - intros a Ha. rewrite look_delete. case_decide as Ei; [by rewrite Hx|done].
  - intros f. rewrite (cnt_delete _ _ _ _ E). destruct (tbl_lookup t _ x Ht E) as [_ Hxok].
    rewrite (cnt_zero f x); [lia|done|]. intros a Ha0. rewrite (look_mod x).
    set (b := s / span T * span T + a mod span T). pose proof (Z.mod_pos_bound a (span T)).
    assert (Eb : b / span T = s / span T) by (unfold b; rewrite Z.div_add_l, (Z.div_small (a mod _)) by lia; lia).
    assert (Ei : index T b = index T s) by (unfold index; by rewrite Eb).
    rewrite <- (Hx b); [|simpl|done].
    + rewrite look_table, Ei, E, (look_mod x b). unfold b. by rewrite Z.add_comm, Z_mod_plus_full, Zmod_mod.
    + change (span (gmap Z T)) with (PTRS_PER_TABLE * span T). rewrite (Z.mul_comm PTRS_PER_TABLE).
      rewrite <- !Z.div_div by (done || lia). by rewrite Eb.
Qed.
End level.

Lemma path_less_delete {T : Type} `{Level T} i (t : gmap Z T) a : (path (delete i t) a <= path t a)%nat.
Proof using. rewrite path_delete. case_decide; lia. Qed.

Lemma free_pte_body : free_body pte_table (fun i _ _ => free_entry free_pte_range i).
Proof using All.
  intros s e t [Hu [q Hq] Hfl Hc] Ht Hz. unfold free_entry, free_pte_range.
  assert (Hidx : forall a, a / span pte_table = s / span pte_table -> index pte_table a = index pte_table s) by (intros a Ha; unfold index; by rewrite Ha).
  destruct (t !! index pte_table s) as [x|] eqn:E.
  2:{ exists t. split; [done|]. split; [done|]. split; [done|]. intros a l Hll Ha _. rewrite path_table, Hidx, E by done. lia. }
  pose proof (un_same _ _ _ Hu) as Hs. change (span pte_table) with PMD_SIZE in Hs.
  eexists. split; [done|]. split; [apply (delete_empty s t x); try done; change (span pte_table) with PMD_SIZE|].
  - rewrite Hq, Z.div_mul by done. lia.
  - by rewrite Hs.
  - split; [intros a; apply path_less_delete|]. intros a l Hll Ha _. rewrite path_delete, decide_True by auto. lia.
Qed.

Section table.
Context {U : Type} `{LevelLaws U}.
Context (loop : Z -> Z -> gmap Z U -> option (gmap Z U * Z)) (free : Z -> Z -> bool).
Context (Hloop : forall s e x, freeable (gmap Z U) s e -> tbl_ok x -> empty_in fl c s x ->
  exists x', loop s e x = Some (x', 0) /\ freed s x x' /\ pruned (span (gmap Z U)) s e x x').
Context (Hfree : forall s e, under (gmap Z U) s e -> fl <= s -> e <= c -> free s e = true ->
  fl <= s / span (gmap Z U) * span (gmap Z U) /\ (s / span (gmap Z U) + 1) * span (gmap Z U) <= c).
Context (Hall : forall s e, under (gmap Z U) s e -> unneeded s e (span (gmap Z U)) s -> free s e = true).

(** A table that stays is used by others. *)
Lemma pruned_insert s e (t : gmap Z (gmap Z U)) x x' :
  under (gmap Z U) s e -> t !! index (gmap Z U) s = Some x -> free s e = false -> pruned (span (gmap Z U)) s e x x' ->
  pruned (span (gmap Z U)) s e t (<[index (gmap Z U) s := x']> t).
Proof using Hall.
  intros Hu E Hfr [Hp Hg]. split.
  - intros a. rewrite path_insert. case_decide as Ei; [|done]. rewrite (path_table t), Ei, E. specialize (Hp a). lia.
  - intros a l Hll Ha Hun. rewrite path_insert, decide_True by (unfold index; by rewrite Ha). destruct l as [|[|l]]; [lia| |].
    + exfalso. apply not_true_iff_false in Hfr. apply Hfr, Hall; [done|]. change (width (gmap Z (gmap Z U)) 1) with (span (gmap Z U)) in Hun.
      unfold unneeded in *. by rewrite Ha in Hun.
    + change (width (gmap Z (gmap Z U)) (S (S l))) with (width (gmap Z U) (S l)) in Hun. change (tables (gmap Z U)) with (S (tables U)) in Hll.
      assert ((path x' a < S l)%nat); [|lia]. apply Hg; [lia|done|done].
Qed.

Lemma free_table_body `{!LevelLaws (gmap Z U)} :
  free_body (gmap Z U) (fun i s e => free_entry (free_table (loop s e) (free s e)) i).
Proof using All.
  intros s e t Hf Ht Hz. unfold free_entry, free_table. destruct (t !! index (gmap Z U) s) as [x|] eqn:E.
  2:{ exists t. split; [done|]. split; [done|]. split; [done|]. intros a l Hll Ha _. rewrite path_table.
      assert (index (gmap Z U) a = index (gmap Z U) s) as -> by (unfold index; by rewrite Ha). rewrite E. lia. }
  destruct (tbl_lookup t _ x Ht E) as [_ Hx]. simpl.
  assert (Hsub : forall a, a / span (gmap Z U) = s / span (gmap Z U) ->
    a / span (gmap Z (gmap Z U)) = s / span (gmap Z (gmap Z U)) /\ index (gmap Z U) a = index (gmap Z U) s).
  { intros a Ha. unfold index. rewrite Ha. split; [|done]. pose proof (span_pos (T := gmap Z U)).
    change (span (gmap Z (gmap Z U))) with (PTRS_PER_TABLE * span (gmap Z U)). rewrite (Z.mul_comm PTRS_PER_TABLE).
    rewrite <- !Z.div_div by (done || lia). by rewrite Ha. }
  destruct (Hloop s e x Hf Hx) as (x' & -> & [Hok Hlook Hcnt] & Hpr).
  { intros a Ha Har. destruct (Hsub a Ha) as [Hsp Hi]. rewrite <- (Hz a Hsp Har), (look_table t a), Hi. by rewrite E. }
  simpl. eexists. split; [done|]. destruct (free s e) eqn:Hfr.
  - destruct Hf as [Hu Ha Hfl Hc]. split.
    + apply (delete_empty s t x); try done. all: apply (Hfree s e); try done. all: by etrans; [apply (round_up_ge PMD_SIZE)|].
    + split; [intros a; apply path_less_delete|]. intros a l Hll Hs _. rewrite path_delete, decide_True by (by apply Hsub). lia.
  - split; [|by apply (pruned_insert s e t x x'); [apply Hf|..]]. split; [by apply tbl_insert; [| |apply index_range]| |].
    + intros a Ha. rewrite look_insert. case_decide as Ei; [|done].
      rewrite Hlook, (look_table t a), Ei, E by (by apply index_inj). done.
    + intros f. rewrite (cnt_insert _ _ _ _ _ E), Hcnt. lia.
Qed.
End table.
End free.

(** ** The tests at the end of each level *)

Lemma unused_ok k s e fl ceil :
  12 <= k <= 48 -> 0 <= s < e -> e <= top_of ceil -> 0 <= ceil <= ADDR_LIMIT -> s / 2 ^ k = (e - 1) / 2 ^ k ->
  unused (wrap (Z.lnot (2 ^ k - 1))) s e fl ceil = true ->
  fl <= s / 2 ^ k * 2 ^ k /\ (s / 2 ^ k + 1) * 2 ^ k <= top_of ceil.
Proof.
  intros Hk Hr He Hc Hse. assert (0 < 2 ^ k) by lia. unfold top_of, ADDR_LIMIT in *.
  assert (Hs64 : is_u64 s) by (unfold is_u64, ULONG_MOD; destruct (Z.eqb_spec ceil 0); lia).
  assert (Hc64 : is_u64 ceil) by (unfold is_u64, ULONG_MOD; lia).
  unfold unused. rewrite !land_not_mask by (done || lia). pose proof (Z.div_mod s (2 ^ k)).
  destruct (Z.ltb_spec (s - s mod 2 ^ k) fl); [done|]. destruct (Z.eqb_spec ceil 0) as [->|Hne].
  - intros _. split; [lia|]. rewrite Hse. apply (round_up_le (2 ^ k) e); [done| |done].
    exists (2 ^ (48 - k)). rewrite <- Z.pow_add_r by lia. f_equal. lia.
  - pose proof (Z.div_mod ceil (2 ^ k)). pose proof (Z.mod_pos_bound ceil (2 ^ k)). simpl.
    destruct (Z.eqb_spec (ceil - ceil mod 2 ^ k) 0) as [|Hc0]; [done|]. rewrite negb_true_iff, Z.ltb_ge.
    assert (0 <= ceil - ceil mod 2 ^ k) by (pose proof (Z.mod_le ceil (2 ^ k)); lia).
    rewrite !wrap_small by (unfold is_u64, ULONG_MOD; lia). intros Hle. split; [lia|]. rewrite Hse.
    transitivity (ceil - ceil mod 2 ^ k); [|lia]. apply (round_up_le (2 ^ k) e); [done| |lia].
    exists (ceil / 2 ^ k). lia.
Qed.

(** The tests do not miss a table. *)
Lemma unused_all k s e fl ceil :
  12 <= k <= 48 -> 0 <= s < e -> e <= ADDR_LIMIT -> 0 <= ceil <= ADDR_LIMIT -> s / 2 ^ k = (e - 1) / 2 ^ k ->
  unneeded fl (top_of ceil) s e (2 ^ k) s -> unused (wrap (Z.lnot (2 ^ k - 1))) s e fl ceil = true.
Proof.
  intros Hk Hr He Hc Hse (U1 & U2 & _). assert (0 < 2 ^ k) by lia. unfold top_of, ADDR_LIMIT in *.
  assert (Hs64 : is_u64 s) by (unfold is_u64, ULONG_MOD; lia). assert (Hc64 : is_u64 ceil) by (unfold is_u64, ULONG_MOD; lia).
  unfold unused. rewrite !land_not_mask by (done || lia). pose proof (Z.div_mod s (2 ^ k)). pose proof (Z.mod_pos_bound (e - 1) (2 ^ k)).
  pose proof (Z.div_mod (e - 1) (2 ^ k)). assert (Hb : e <= s / 2 ^ k * 2 ^ k + 2 ^ k) by (rewrite Hse; lia).
  rewrite (proj2 (Z.ltb_ge (s - s mod 2 ^ k) fl)) by lia. destruct (Z.eqb_spec ceil 0) as [->|Hne]; cbn [negb andb].
  - apply negb_true_iff, Z.ltb_ge. rewrite (wrap_small (e - 1)) by (unfold is_u64, ULONG_MOD; lia). change (0 -u 1) with ULONG_MAX.
    unfold ULONG_MAX, ULONG_MOD. lia.
  - pose proof (Z.div_mod ceil (2 ^ k)). pose proof (Z.mod_pos_bound ceil (2 ^ k)).
    assert (Hge : s / 2 ^ k * 2 ^ k + 2 ^ k <= ceil - ceil mod 2 ^ k).
    { assert (s / 2 ^ k + 1 <= ceil / 2 ^ k) by (apply Z.div_le_lower_bound; lia). nia. }
    rewrite (proj2 (Z.eqb_neq (ceil - ceil mod 2 ^ k) 0)) by lia. apply negb_true_iff, Z.ltb_ge.
    rewrite !wrap_small by (unfold is_u64, ULONG_MOD; lia). lia.
Qed.

(** ** The three levels *)

Section levels.
Context (fl ceil : Z) (Hceil : 0 <= ceil <= ADDR_LIMIT).
Abbreviation c := (top_of ceil).

Lemma free_pmd_body : free_body fl c pmd_table (fun i s e => free_entry (free_pmd_range s e fl ceil) i).
Proof using All.
  intros s e t Hf Ht Hz. unfold free_pmd_range. rewrite pmd_index.
  apply (free_table_body fl c
    (fun s e => walk_from pmd_addr_end (fun i _ _ => free_entry free_pte_range i) (index pte_table s) s e)
    (fun s e => unused PUD_MASK s e fl ceil)); try done.
  - intros s' e' x Hf' Hx Hz'. apply (free_walk fl c); [by exists 1|apply pmd_addr_end_ok|apply free_pte_body|done|done|done].
  - intros s' e' [_ _ Hr _ Hsame] Hfl He. by apply (unused_ok 30).
  - intros s' e' [_ _ Hr Hl Hsame] Hun. by apply (unused_all 30).
  - apply _.
Qed.

Lemma free_pud_body : free_body fl c pud_table (fun i s e => free_entry (free_pud_range s e fl ceil) i).
Proof using All.
  intros s e t Hf Ht Hz. unfold free_pud_range. rewrite pud_index.
  apply (free_table_body fl c
    (fun s e => walk_from pud_addr_end (fun i a n => free_entry (free_pmd_range a n fl ceil) i) (index pmd_table s) s e)
    (fun s e => unused PGDIR_MASK s e fl ceil)); try done.
  - intros s' e' x Hf' Hx Hz'. apply (free_walk fl c); [by exists 512|apply pud_addr_end_ok|apply free_pmd_body|done|done|done].
  - intros s' e' [_ _ Hr _ Hsame] Hfl He. by apply (unused_ok 39).
  - intros s' e' [_ _ Hr Hl Hsame] Hun. by apply (unused_all 39).
  - apply _.
Qed.
End levels.

(** ** The whole table *)

(** The same entries at every address *)
Record same_entries (t t' : pgd_table) : Prop := {
  se_ok : tbl_ok t';
  se_look : forall a, 0 <= a < ADDR_LIMIT -> look t' a = look t a;
  se_cnt : forall f, cnt f t' = cnt f t
}.

Lemma same_entries_trans t1 t2 t3 : same_entries t1 t2 -> same_entries t2 t3 -> same_entries t1 t3.
Proof.
  intros [O1 L1 C1] [O2 L2 C2]. split; [done| |]; [intros a Ha; by rewrite L2, L1|intros f; by rewrite C2, C1].
Qed.

Definition nothing_between (fl ceil : Z) (t : pgd_table) : Prop :=
  forall a, 0 <= a -> fl <= a < top_of ceil -> look t a = 0.

Lemma pgd_span_div a : 0 <= a < ADDR_LIMIT -> a / span pgd_table = 0.
Proof. intros. by apply Z.div_small. Qed.

(** [t'] is [t] without the tables between [fl] and [c] that the range [s, e) meets. *)
Record gone_tables (fl c s e : Z) (t t' : pgd_table) : Prop := {
  gt_path : forall a, (path t' a <= path t a)%nat;
  gt_gone : forall a l, 0 <= a < ADDR_LIMIT -> (1 <= l <= 3)%nat -> unneeded fl c s e (width pgd_table l) a -> (path t' a < l)%nat
}.

Lemma width_pmd l : (1 <= l <= 3)%nat -> exists q, 0 < q /\ width pgd_table l = q * 2 ^ 21.
Proof. intros Hl. destruct l as [|[|[|[|l]]]]; [lia|by exists (2 ^ 18)|by exists (2 ^ 9)|by exists 1|lia]. Qed.

(** No table is missed by the adjustment of the bounds. *)
Lemma unneeded_adjusted fl ceil start last cm addr end_ w a :
  (exists q, 0 < q /\ w = q * 2 ^ 21) -> start < last -> last <= top_of ceil -> (2 ^ 21 | addr) -> (2 ^ 21 | top_of cm) ->
  (addr <= start \/ addr < fl + 2 ^ 21 /\ fl <= addr) -> top_of ceil < top_of cm + 2 ^ 21 ->
  (end_ = last \/ top_of cm < last /\ end_ = last - 2 ^ 21) ->
  unneeded fl (top_of ceil) start last w a -> unneeded fl (top_of cm) addr end_ w a /\ addr < end_.
Proof.
  intros (q & Hq & ->) Hsl Hlc [qa Ha] [qc Hc] Had Hcm He (U1 & U2 & U3 & U4). unfold unneeded.
  set (b := a / (q * 2 ^ 21) * (q * 2 ^ 21)) in *. assert (Hb : b = a / (q * 2 ^ 21) * q * 2 ^ 21) by (unfold b; ring).
  set (p := a / (q * 2 ^ 21) * q) in *. clearbody b p. nia.
Qed.

(** The part after the adjustment of the bounds *)
Lemma free_pgd_walk fl ceil addr end_ t :
  0 <= ceil < ADDR_LIMIT -> 0 <= fl <= addr -> addr < end_ -> end_ <= ADDR_LIMIT -> (PMD_SIZE | addr) -> page_aligned end_ ->
  round_up PMD_SIZE end_ <= top_of ceil -> tbl_ok t -> nothing_between fl ceil t ->
  exists t', fst <$> walk_from pgd_addr_end (fun i addr next => free_entry (free_pud_range addr next fl ceil) i)
               (lego_pgd_index addr) addr end_ t = Some t' /\ same_entries t t' /\ gone_tables fl (top_of ceil) addr end_ t t'.
Proof.
  intros Hc Hfl Hae Hlim Hal Hpe Htop Ht Hz. rewrite pgd_index.
  assert (Hlow : forall a, a / span pgd_table = addr / span pgd_table -> 0 <= a).
  { intros a Ha. rewrite (pgd_span_div addr) in Ha by lia. pose proof (span_pos (T := pgd_table)).
    pose proof (Z.div_mod a (span pgd_table)). pose proof (Z.mod_pos_bound a (span pgd_table)). lia. }
  destruct (free_walk fl (top_of ceil) (T := pud_table) ltac:(by exists (512 * 512)) pgd_addr_end
    (fun i s e => free_entry (free_pud_range s e fl ceil) i) addr end_ t) as (t' & -> & [Hok Hlook Hcnt] & [Hp Hg]).
  - apply pgd_addr_end_ok.
  - apply free_pud_body. lia.
  - split; [|done|lia|done]. split; [|done|lia|done|].
    + destruct Hal as [q ->]. unfold page_aligned. change PMD_SIZE with (512 * PAGE_SIZE). rewrite Z.mul_assoc. by apply Z.mod_mul.
    + by rewrite !pgd_span_div by lia.
  - done.
  - intros a Ha Har. apply Hz; [by apply Hlow|done].
  - exists t'. split; [done|]. split; [|split; [done|]].
    + split; [done| |done]. intros a Ha. apply Hlook. by rewrite !pgd_span_div by lia.
    + intros a l Ha Hll Hun. apply Hg; [done|by rewrite !pgd_span_div by lia|done].
Qed.

Lemma free_pgd_range_ok start last fl ceil t :
  tbl_ok t -> page_aligned start -> page_aligned last -> 0 <= fl <= start -> start < last ->
  last <= top_of ceil -> 0 <= ceil < ADDR_LIMIT -> nothing_between fl ceil t ->
  exists t', lego_free_pgd_range start last fl ceil t = Some t' /\ same_entries t t' /\ gone_tables fl (top_of ceil) start last t t'.
Proof.
  intros Ht Hs Hl Hfl Hsl Hlc Hc Hz. assert (Hlim : last <= ADDR_LIMIT).
  { unfold top_of in Hlc. destruct (Z.eqb_spec ceil 0); lia. }
  assert (Hid : same_entries t t) by done.
  unfold lego_free_pgd_range. change PMD_MASK with (wrap (Z.lnot (2 ^ 21 - 1))).
  rewrite !land_not_mask by (try done; unfold is_u64, ULONG_MOD, ADDR_LIMIT in *; lia).
  pose proof (Z.mod_pos_bound start (2 ^ 21)). pose proof (Z.mod_pos_bound ceil (2 ^ 21)).
  set (addr := if start - start mod 2 ^ 21 <? fl then (start - start mod 2 ^ 21) +u PMD_SIZE else start - start mod 2 ^ 21).
  assert (Ha : fl <= addr /\ (PMD_SIZE | addr) /\ (start - start mod 2 ^ 21 <? fl) && (addr =? 0) = false).
  { assert (Hd : (PMD_SIZE | start - start mod 2 ^ 21)).
    { exists (start / 2 ^ 21). change PMD_SIZE with (2 ^ 21). pose proof (Z.div_mod start (2 ^ 21)). lia. }
    unfold addr. destruct (Z.ltb_spec (start - start mod 2 ^ 21) fl); simpl; [|done].
    change PMD_SIZE with (2 ^ 21) in *. rewrite wrap_small by (unfold is_u64, ULONG_MOD, ADDR_LIMIT in *; lia).
    split_and!; [lia|by apply Z.divide_add_r|]. apply Z.eqb_neq. lia. }
  destruct Ha as (Ha & Hdiv & ->).
  assert (Haddr : addr <= start \/ addr < fl + 2 ^ 21 /\ fl <= addr).
  { unfold addr in *. destruct (Z.ltb_spec (start - start mod 2 ^ 21) fl); [right|left; lia].
    change PMD_SIZE with (2 ^ 21) in *. rewrite wrap_small in * by (unfold is_u64, ULONG_MOD, ADDR_LIMIT in *; lia). lia. }
  set (cm := if ceil =? 0 then 0 else ceil - ceil mod 2 ^ 21).
  destruct (negb (ceil =? 0) && (cm =? 0)) eqn:Hcm.
  { exists t. split; [done|]. split; [done|]. split; [done|]. intros a l _ Hll (U1 & U2 & _). exfalso.
    apply andb_true_iff in Hcm as [Hc0%negb_true_iff Hcm%Z.eqb_eq]. unfold cm, top_of in *. rewrite Hc0 in *. apply Z.eqb_neq in Hc0.
    destruct (width_pmd l Hll) as (q & Hq & Ew). rewrite Ew in U1, U2. set (p := a / (q * 2 ^ 21)) in *. assert (0 <= p) by nia. nia. }
  assert (Hcm2 : 0 <= cm < ADDR_LIMIT /\ top_of cm <= top_of ceil /\ (PMD_SIZE | top_of cm) /\ top_of ceil < top_of cm + PMD_SIZE).
  { unfold top_of, cm in *. clear cm. change PMD_SIZE with (2 ^ 21). destruct (Z.eqb_spec ceil 0) as [->|Hne].
    - simpl. split_and!; [done|lia|done|by exists (2 ^ 27)|done].
    - simpl in Hcm. rewrite Hcm. apply Z.eqb_neq in Hcm. pose proof (Z.div_mod ceil (2 ^ 21)). pose proof (Z.mod_le ceil (2 ^ 21)).
      split_and!; [lia|lia|lia|exists (ceil / 2 ^ 21); lia|lia]. }
  clearbody cm addr. destruct Hcm2 as (Hcmr & Hcmle & Hcmd & Hcmlt). change PMD_SIZE with (2 ^ 21) in *.
  set (end_ := if cm -u 1 <? last -u 1 then last -u 2 ^ 21 else last).
  assert (He : 0 < end_ <= ADDR_LIMIT /\ page_aligned end_ /\ end_ <= top_of cm /\ (end_ = last \/ top_of cm < last /\ end_ = last - 2 ^ 21)).
  { unfold end_, top_of in *. clear end_. rewrite (wrap_small (last - 1)) by (unfold is_u64, ULONG_MOD, ADDR_LIMIT in *; lia).
    destruct (Z.eqb_spec cm 0) as [E0|Hne].
    - rewrite E0. change (0 -u 1) with ULONG_MAX. destruct (Z.ltb_spec ULONG_MAX (last - 1)); [unfold ULONG_MAX, ULONG_MOD, ADDR_LIMIT in *; lia|].
      split_and!; try lia; done.
    - rewrite (wrap_small (cm - 1)) by (unfold is_u64, ULONG_MOD, ADDR_LIMIT in *; lia).
      destruct Hcmd as [q Hq]. destruct (Z.ltb_spec (cm - 1) (last - 1)); [|split_and!; try lia; done].
      rewrite wrap_small by (unfold is_u64, ULONG_MOD, ADDR_LIMIT in *; nia).
      split_and!; [nia|lia| |lia|right; lia]. unfold page_aligned in *. rewrite Zminus_mod, Hl. done. }
  destruct He as (Her & Hea & Hec & Heq). clearbody end_.
  pose proof (fun a l Hll => unneeded_adjusted fl ceil start last cm addr end_ _ a (width_pmd l Hll) Hsl Hlc Hdiv Hcmd Haddr Hcmlt Heq) as Hadj.
  rewrite (wrap_small (end_ - 1)) by (unfold is_u64, ULONG_MOD, ADDR_LIMIT in *; lia).
  destruct (Z.ltb_spec (end_ - 1) addr).
  { exists t. split; [done|]. split; [done|]. split; [done|]. intros a l _ Hll Hun. destruct (Hadj a l Hll Hun). lia. }
  destruct (free_pgd_walk fl cm addr end_ t) as (t' & E & Hse & [Hp Hg]); try done; try lia; [by apply round_up_le|intros a Ha0 Har; apply Hz; lia|].
  exists t'. split; [done|]. split; [done|]. split; [done|]. intros a l Har Hll Hun. apply Hg; [done|done|]. by apply Hadj.
Qed.

(** The tables that some area of the list meets *)
Record areas_gone (fl c : Z) (l : list (Z * Z)) (t t' : pgd_table) : Prop := {
  ag_path : forall a, (path t' a <= path t a)%nat;
  ag_gone : forall s e a n, (s, e) ∈ l -> 0 <= a < ADDR_LIMIT -> (1 <= n <= 3)%nat -> unneeded fl c s e (width pgd_table n) a -> (path t' a < n)%nat
}.

(** An area that a table does not reach is above it. *)
Lemma next_above lo top l w b x :
  areas_between lo top l -> b < lo -> (forall s e, (s, e) ∈ l -> ~ (b < e /\ s < b + w)) -> list.head l = Some x -> b + w <= x.1.
Proof.
  destruct l as [|[s e] l]; [done|]. intros (H1 & H2 & _) Hb Hn [= <-]. simpl. destruct (Z.le_gt_cases (b + w) s) as [|Hgt]; [done|].
  destruct (Hn s e ltac:(left)). lia.
Qed.

Lemma free_pgtables_ok fl ceil l : forall lo t,
  tbl_ok t -> 0 <= fl <= lo -> 0 <= ceil < ADDR_LIMIT -> areas_between lo (top_of ceil) l -> nothing_between fl ceil t ->
  exists t', lego_free_pgtables l fl ceil t = Some t' /\ same_entries t t' /\ areas_gone fl (top_of ceil) l t t'.
Proof.
  induction l as [|[s e] l IH]; intros lo t Ht Hfl Hc Hl Hz.
  { exists t. split; [done|]. split; [done|]. split; [done|]. by intros s e a n ?%elem_of_nil. }
  simpl in Hl. destruct Hl as (Hlo & Hse & Hel & Hs & He & Hl). simpl.
  assert (Htop : top_of ceil <= ADDR_LIMIT) by (unfold top_of; destruct (Z.eqb_spec ceil 0); lia).
  set (nc := match l with (next, _) :: _ => next | [] => ceil end).
  assert (Hnc : 0 <= nc < ADDR_LIMIT /\ e <= top_of nc /\ top_of nc <= top_of ceil /\
    forall b w, b < e -> b + w <= top_of ceil -> (forall s' e', (s', e') ∈ l -> ~ (b < e' /\ s' < b + w)) -> b + w <= top_of nc).
  { unfold nc. destruct l as [|[s' e'] l']; [done|]. pose proof (fun b w => next_above e _ ((s', e') :: l') w b (s', e') Hl) as Hab.
    simpl in Hl. destruct Hl as (? & ? & ? & _). assert (Etop : top_of s' = s') by (unfold top_of; by rewrite (proj2 (Z.eqb_neq s' 0)) by lia).
    rewrite Etop. split_and!; [lia..|]. intros b w Hb _ Hn. by apply Hab. }
  destruct Hnc as (Hnc & Henc & Hle & Habove).
  destruct (free_pgd_range_ok s e fl nc t) as (t1 & -> & Hsame & [Hp Hg]); try done; try lia.
  { intros a Ha Har. apply Hz; lia. }
  simpl. destruct (IH e t1) as (t' & -> & Hsame' & [Hp' Hg']); [apply Hsame|lia|done|done| |].
  { intros a Ha Har. rewrite (se_look _ _ Hsame) by lia. by apply Hz. }
  exists t'. split; [done|]. split; [by eapply same_entries_trans|]. split; [intros a; specialize (Hp a); specialize (Hp' a); lia|].
  intros s' e' a n Hin Ha Hn Hun. destruct (decide (Exists (fun r => unneeded fl (top_of ceil) r.1 r.2 (width pgd_table n) a) l)) as [Hex|Hno].
  - apply list.Exists_exists in Hex as ([s2 e2] & Hin2 & Hun2). by apply (Hg' s2 e2).
  - assert (Hn2 : forall s2 e2, (s2, e2) ∈ l -> ~ unneeded fl (top_of ceil) s2 e2 (width pgd_table n) a).
    { intros s2 e2 Hin2 Hun2. apply Hno, list.Exists_exists. by exists (s2, e2). }
    apply elem_of_cons in Hin as [[= -> ->]|Hin]; [|by destruct (Hn2 _ _ Hin)].
    assert ((path t1 a < n)%nat); [|specialize (Hp' a); lia]. apply Hg; [done|done|]. destruct Hun as (U1 & U2 & U3 & U4).
    split; [done|]. split; [|done]. apply Habove; [done|done|]. intros s2 e2 Hin2 [??]. by apply (Hn2 s2 e2 Hin2).
Qed.
