(* ===== verification/PgtCopy.v ===== *)
(** * Memory manager, page tables: fork

    [lego_copy_page_range] gives the child an entry for each entry of the parent, on the
    same page, and a reference for each; entries of private writable areas lose their
    write permission on both sides. *)

From stdpp Require Import gmap fin_maps.
From S2P Require Import Prelude VmaModel VmaInv VmaSpec PgtModel PgtTables PgtRange.

(** The entries that a copy leaves in the parent and in the child *)
Definition parent_pte (vm_flags p : Z) : Z := if is_cow_mapping vm_flags then pte_wrprotect p else p.
Definition child_pte (vm_flags p : Z) : Z :=
  pte_mkold (if has vm_flags VM_SHARED then pte_mkclean (parent_pte vm_flags p) else parent_pte vm_flags p).

(** Clearing permission bits keeps the page and the presence. *)
Lemma virt_ldiff p b : 0 <= b < 2 ^ 12 -> lego_pte_to_virt (Z.ldiff p b) = lego_pte_to_virt p.
Proof.
  intros Hb. unfold lego_pte_to_virt. apply Z.bits_inj'. intros n Hn. rewrite !Z.land_spec, Z.ldiff_spec.
  destruct (Z.lt_ge_cases n 12).
  - change PTE_VFN_MASK with (Z.shiftl (2 ^ 52 - 1) 12). by rewrite Z.shiftl_spec_low, !andb_false_r.
  - rewrite <- (Z.mod_small b (2 ^ 12)) by done. by rewrite Z.mod_pow2_bits_high, andb_true_r.
Qed.

Lemma present_ldiff p b :
  Z.land b (Z.lor _PAGE_PRESENT _PAGE_PROTNONE) = 0 -> pte_present (Z.ldiff p b) = pte_present p.
Proof.
  intros Hb. unfold pte_present, has. do 2 f_equal. apply Z.bits_inj'. intros n Hn.
  rewrite !Z.land_spec, Z.ldiff_spec. destruct (Z.testbit b n) eqn:E; [|by rewrite andb_true_r].
  assert (H : Z.testbit (Z.land b (Z.lor _PAGE_PRESENT _PAGE_PROTNONE)) n = false) by (by rewrite Hb, Z.bits_0).
  rewrite Z.land_spec, E in H. simpl in H. rewrite H. by rewrite !andb_false_r.
Qed.

Lemma parent_virt fl p : lego_pte_to_virt (parent_pte fl p) = lego_pte_to_virt p.
Proof. unfold parent_pte, pte_wrprotect. destruct (is_cow_mapping fl); [|done]. by apply virt_ldiff. Qed.
Lemma child_virt fl p : lego_pte_to_virt (child_pte fl p) = lego_pte_to_virt p.
Proof.
  unfold child_pte, pte_mkold, pte_mkclean. rewrite virt_ldiff by done.
  destruct (has fl VM_SHARED); rewrite ?virt_ldiff by done; apply parent_virt.
Qed.
Lemma parent_present fl p : pte_present (parent_pte fl p) = pte_present p.
Proof. unfold parent_pte, pte_wrprotect. destruct (is_cow_mapping fl); [|done]. by apply present_ldiff. Qed.
Lemma child_present fl p : pte_present (child_pte fl p) = pte_present p.
Proof.
  unfold child_pte, pte_mkold, pte_mkclean. rewrite present_ldiff by done.
  destruct (has fl VM_SHARED); rewrite ?present_ldiff by done; apply parent_present.
Qed.
Lemma parent_zero fl : parent_pte fl 0 = 0.
Proof. unfold parent_pte. by destruct (is_cow_mapping fl). Qed.
Lemma child_zero fl : child_pte fl 0 = 0.
Proof. unfold child_pte. rewrite parent_zero. by destruct (has fl VM_SHARED). Qed.

Definition same_data (m m' : pages) : Prop := forall f, data_of m' f = data_of m f.

#[global] Instance same_data_preorder : PreOrder same_data.
Proof. split; [by intros m f|]. intros m1 m2 m3 H1 H2 f. by rewrite H2, H1. Qed.

Lemma get_page_ok f m :
  frames_ok m -> 0 < rc m f ->
  exists m', get_page f m = Some m' /\ frames_ok m' /\
    (forall g, rc m' g = rc m g + (if decide (f = g) then 1 else 0)) /\ same_data m m'.
Proof.
  intros Hm Hf. destruct (rc_pos m f Hm Hf) as (fr & E & Hc). unfold get_page. rewrite E. simpl.
  rewrite (proj2 (Z.leb_gt _ 0)) by lia. eexists. split; [done|]. split_and!.
  - intros g x Hx. simpl in Hx. apply lookup_insert_Some in Hx as [[_ <-]|[_ Hx]]; [simpl; lia|by apply (Hm g)].
  - intros g. unfold rc. simpl. case_decide as Hg; [subst g; rewrite lookup_insert_eq, E; done|].
    rewrite lookup_insert_ne by done. lia.
  - intros g. unfold data_of. simpl. destruct (decide (f = g)) as [<-|]; [by rewrite lookup_insert_eq, E|].
    by rewrite lookup_insert_ne.
Qed.

(** Every reference is an entry of one of the two tables, or one of those counted by [o]. *)
Record balanced2 {T : Type} `{Level T} (o : Z -> Z) (d t : T) (m : pages) : Prop := {
  b2_frames : frames_ok m;
  b2_rc : forall f, rc m f = cnt f d + cnt f t + o f;
  b2_rest : forall f, 0 <= o f
}.

(** The entries of [s, e) of [t] have been copied to [d]. *)
Record copied {T : Type} `{Level T} (fl : Z) (o : Z -> Z) (s e : Z) (d t : T) (m : pages) (d' t' : T) (m' : pages) : Prop := {
  cp_dst : tbl_ok d';
  cp_src : tbl_ok t';
  cp_child : forall a, a / span T = s / span T -> look d' a = if in_range s e a then child_pte fl (look t a) else look d a;
  cp_parent : forall a, a / span T = s / span T -> look t' a = if in_range s e a then parent_pte fl (look t a) else look t a;
  cp_balanced : balanced2 o d' t' m';
  cp_data : same_data m m';
  cp_tables : Forall (eq true) (pg_tables m) -> Forall (eq true) (pg_tables m')
}.

(** The result of a copy of [s, e): all of it, or up to a table page that cannot be had *)
Definition copy_result {T : Type} `{Level T} (fl : Z) (o : Z -> Z) (s e : Z) (d t : T) (m : pages) (ret : Z) (d' t' : T) (m' : pages) : Prop :=
  ret = 0 /\ copied fl o s e d t m d' t' m' \/
  ret = - ENOMEM /\ ~ Forall (eq true) (pg_tables m) /\ exists a, s <= a <= e /\ page_aligned a /\ copied fl o s a d t m d' t' m'.

Definition fresh_in {T : Type} `{Level T} (s e : Z) (d : T) : Prop :=
  forall a, a / span T = s / span T -> in_range s e a = true -> look d a = 0.

Definition copy_ok (fl : Z) (T : Type) `{Level T} (f : Z -> Z -> T -> T -> pages -> option ((T * T * pages) * Z)) : Prop :=
  forall o s e d t m, under T s e -> tbl_ok d -> tbl_ok t -> fresh_in s e d -> balanced2 o d t m ->
  exists d' t' m' ret, f s e d t m = Some ((d', t', m'), ret) /\ copy_result fl o s e d t m ret d' t' m'.

Definition copy_body (fl : Z) (T : Type) `{Level T}
    (body : Z -> Z -> Z -> gmap Z T * gmap Z T * pages -> option ((gmap Z T * gmap Z T * pages) * Z)) : Prop :=
  forall o s e d t m, under T s e -> tbl_ok d -> tbl_ok t -> fresh_in s e d -> balanced2 o d t m ->
  exists d' t' m' ret, body (index T s) s e (d, t, m) = Some ((d', t', m'), ret) /\ copy_result fl o s e d t m ret d' t' m'.

Section level.
Context {T : Type} `{LevelLaws T} (fl : Z).

Lemma copied_trans o s a b (d t : T) m d1 t1 m1 d2 t2 m2 :
  s <= a <= b -> a / span T = s / span T -> copied fl o s a d t m d1 t1 m1 -> copied fl o a b d1 t1 m1 d2 t2 m2 ->
  copied fl o s b d t m d2 t2 m2.
Proof.
  intros Hr Ha [D1 S1 C1 P1 B1 M1 T1] [D2 S2 C2 P2 B2 M2 T2]. split; try done; [| |by transitivity m1|auto].
  - intros y Hy. rewrite C2 by congruence. rewrite (in_range_split s a b) by lia. destruct (in_range a b y) eqn:Eb.
    + rewrite P1, (in_range_false s a b) by (done || lia). by rewrite orb_true_r.
    + rewrite C1 by done. by rewrite orb_false_r.
  - intros y Hy. rewrite P2 by congruence. rewrite (in_range_split s a b) by lia. destruct (in_range a b y) eqn:Eb.
    + rewrite P1, (in_range_false s a b) by (done || lia). by rewrite orb_true_r.
    + rewrite P1 by done. by rewrite orb_false_r.
Qed.

Lemma copied_start o s (d t : T) m : tbl_ok d -> tbl_ok t -> balanced2 o d t m -> copied fl o s s d t m d t m.
Proof. intros. split; try done; intros a _; by rewrite in_range_empty by done. Qed.
End level.

Section copy.
Context {T : Type} `{LevelLaws T} (fl : Z).

Lemma copy_walk addr_end body :
  addr_end_ok T addr_end -> copy_body fl T body ->
  copy_ok fl (gmap Z T) (fun s e d t m => walk_from addr_end body (index T s) s e (d, t, m)).
Proof.
  intros Hend Hbody o s e d t m Hu Hd Ht Hfresh Hb.
  set (P := fun a (x : gmap Z T * gmap Z T * pages) => copied fl o s a d t m x.1.1 x.1.2 x.2).
  set (Q := fun ret (x : gmap Z T * gmap Z T * pages) => ret = - ENOMEM /\ ~ Forall (eq true) (pg_tables m) /\
    exists a, s <= a <= e /\ page_aligned a /\ copied fl o s a d t m x.1.1 x.1.2 x.2).
  destruct (walk_ok addr_end Hend body P Q s e (d, t, m) Hu) as ([[d' t'] m'] & ret & -> & Hres).
  - intros a [[d1 t1] m1] Ha Hua Hle Hcp. pose proof (un_range _ _ _ Hua) as Hr. unfold P in Hcp. simpl in Hcp.
    assert (Esp : a / span (gmap Z T) = s / span (gmap Z T)) by (apply (under_mid s e a); [done|lia]).
    destruct (Hbody o a (entry_end T a e) d1 t1 m1 Hua) as (d2 & t2 & m2 & ret & -> & Hres); try apply Hcp.
    { intros y Hy Hin. rewrite (cp_child _ _ _ _ _ _ _ _ _ _ Hcp) by congruence.
      rewrite (in_range_false s a (entry_end T a e)) by (done || lia). apply Hfresh; [congruence|].
      unfold in_range in *. apply andb_prop in Hin as [?%Z.leb_le ?%Z.ltb_lt].
      apply andb_true_intro. split; [apply Z.leb_le|apply Z.ltb_lt]; lia. }
    exists (d2, t2, m2), ret. split; [done|]. destruct Hres as [[-> Hc2]|(-> & Hna & b & Hb2 & Hpb & Hc2)].
    + left. split; [done|]. apply (copied_trans fl o s a _ d t m d1 t1 m1); done || lia.
    + right. split; [done|]. split; [done|]. split; [intros ?%(cp_tables _ _ _ _ _ _ _ _ _ _ Hcp); done|].
      exists b. split; [lia|]. split; [done|].
      apply (copied_trans fl o s a _ d t m d1 t1 m1); done || lia.
  - by apply copied_start.
  - exists d', t', m', ret. split; [done|]. destruct Hres as [[-> HP]|[_ HQ]]; [by left|right; done].
Qed.

Lemma pxd_alloc_ok {U : Type} `{LevelLaws U} i (d : gmap Z (gmap Z U)) m :
  tbl_ok d -> 0 <= i < PTRS_PER_TABLE ->
  exists ok d' m', pxd_alloc i d m = (ok, d', m') /\ frames m' = frames m /\ tbl_ok d' /\
    (forall a, look d' a = look d a) /\ (forall f, cnt f d' = cnt f d) /\
    (forall j, j <> i -> d' !! j = d !! j) /\
    (if ok then is_Some (d' !! i) else d' = d) /\
    (Forall (eq true) (pg_tables m) -> ok = true /\ Forall (eq true) (pg_tables m')).
Proof.
  intros Hd Hi. unfold pxd_alloc. destruct (d !! i) as [x|] eqn:E; [by exists true, d, m; rewrite E|].
  unfold table_page. assert (Hcase : exists b m', match pg_tables m with [] => (true, m) | b :: l => (b, Pages (frames m) l) end = (b, m') /\ frames m' = frames m /\
    (Forall (eq true) (pg_tables m) -> b = true /\ Forall (eq true) (pg_tables m'))).
  { destruct (pg_tables m) as [|b l] eqn:El; eexists _, _; (split; [done|]); (split; [done|]); [by rewrite El|].
    by intros [<- ?]%list.Forall_cons. }
  destruct Hcase as (b & m' & -> & Hm' & Hall). exists b, (if b then <[i := ∅]> d else d), m'. split; [done|]. split; [done|].
  destruct b; [|done]. split_and!.
  - apply tbl_insert; [done|apply tbl_empty|done].
  - intros a. rewrite look_insert. case_decide as Ei; [|done]. by rewrite look_empty, look_table, Ei, E.
  - intros f. rewrite (cnt_insert_new _ _ _ _ E), cnt_empty. lia.
  - intros j Hj. by rewrite lookup_insert_ne.
  - by rewrite lookup_insert_eq.
  - done.
Qed.
End copy.

Section entry.
Context {U : Type} `{LevelLaws U} `{!LevelLaws (gmap Z U)} (fl : Z).
Abbreviation T := (gmap Z U).

Lemma balanced2_frames o (d t d' : gmap Z T) m m' :
  frames m' = frames m -> (forall f, cnt f d' = cnt f d) -> balanced2 o d t m -> balanced2 o d' t m'.
Proof.
  intros Hm Hc [Hf Hr Ho]. split; [unfold frames_ok; by rewrite Hm| |done]. intros f. unfold rc. rewrite Hm, Hc. apply Hr.
Qed.

Lemma same_table a s : a / span T = s / span T -> a / span (gmap Z T) = s / span (gmap Z T).
Proof using All.
  intros Ha. pose proof (span_pos (T := T)). change (span (gmap Z T)) with (PTRS_PER_TABLE * span T).
  rewrite (Z.mul_comm PTRS_PER_TABLE), <- !Z.div_div by (done || lia). by rewrite Ha.
Qed.

Lemma outside_le s e b a : under T s e -> b <= e -> index T a <> index T s -> in_range s b a = false.
Proof using All.
  intros Hu Hb Hi. pose proof (outside s e a Hu Hi) as Ho. unfold in_range in *. apply andb_false_iff in Ho as [->| Ho]; [done|].
  apply Z.ltb_ge in Ho. rewrite (proj2 (Z.ltb_ge a b)) by lia. apply andb_false_r.
Qed.

(** A copy below one entry, up to [b], seen from the table *)
Lemma copied_entry o o' s e b (d t : gmap Z T) m x y x' y' m' :
  under T s e -> b <= e -> tbl_ok d -> tbl_ok t -> d !! index T s = Some x -> t !! index T s = Some y ->
  (forall f, o' f = cnt f d - cnt f x + (cnt f t - cnt f y) + o f) -> (forall f, 0 <= o f) ->
  copied fl o' s b x y m x' y' m' ->
  copied fl o s b d t m (<[index T s := x']> d) (<[index T s := y']> t) m'.
Proof using All.
  intros Hu Hbe Hd Ht Ed Et Ho' Ho [Dx Sy Cx Py [Bf Br _] Bd Bt].
  split; [by apply tbl_insert; [| |apply index_range]|by apply tbl_insert; [| |apply index_range]| | | |done|done].
  - intros a Ha. rewrite look_insert, (look_table t a). case_decide as Ei.
    + rewrite (look_table d a), Ei, Ed, Et. apply Cx. by apply index_inj.
    + by rewrite (outside_le s e b a).
  - intros a Ha. rewrite look_insert. case_decide as Ei.
    + rewrite (look_table t a), Ei, Et. apply Py. by apply index_inj.
    + by rewrite (outside_le s e b a).
  - split; [done| |done]. intros f. rewrite Br, Ho', (cnt_insert f d _ _ _ Ed), (cnt_insert f t _ _ _ Et). lia.
Qed.

Lemma copy_entry_ok f : copy_ok fl T f -> copy_body fl T (fun i a next => copy_entry (f a next) i).
Proof using All.
  intros Hf o s e d t m Hu Hd Ht Hfresh Hb. unfold copy_entry. pose proof (un_range _ _ _ Hu) as Hr.
  destruct (t !! index T s) as [y|] eqn:Et.
  2:{ exists d, t, m, 0. split; [done|]. left. split; [done|]. split; try done.
      all: intros a Ha; destruct (in_range s e a) eqn:Hin; [|done].
      all: destruct (decide (index T a = index T s)) as [Ei|Ei]; [|by rewrite (outside_le s e e a) in Hin].
      - by rewrite Hfresh, look_table, Ei, Et, child_zero.
      - by rewrite look_table, Ei, Et, parent_zero. }
  destruct (pxd_alloc_ok (index T s) d m Hd (index_range s)) as (ok & d1 & m1 & -> & Hm1 & Hd1 & Hl1 & Hc1 & Hne1 & Hok & Hall).
  pose proof (balanced2_frames o d t d1 m m1 Hm1 Hc1 Hb) as Hb1.
  assert (Hdata : same_data m m1) by (intros g; unfold data_of; by rewrite Hm1).
  assert (Hpre : forall b d' t' m', copied fl o s b d1 t m1 d' t' m' -> copied fl o s b d t m d' t' m').
  { intros b d' t' m' [D S C P B M Tb]. split; try done; [intros a Ha; by rewrite C, Hl1|by transitivity m1|].
    intros Ha. apply Tb. by apply Hall. }
  destruct ok.
  2:{ simpl. eexists _, _, _, _. split; [done|]. right. split; [done|]. split; [by intros [? _]%Hall|]. exists s. split; [lia|]. split; [apply Hu|].
      apply Hpre. by apply copied_start. }
  destruct Hok as [x Ed]. simpl. rewrite Ed. simpl. destruct Hb1 as [Hf1 Hr1 Ho].
  set (o' := fun g => cnt g d1 - cnt g x + (cnt g t - cnt g y) + o g).
  destruct (Hf o' s e x y m1 Hu) as (x' & y' & m2 & ret & -> & Hres).
  { by apply (tbl_lookup d1 (index T s) x). } { by apply (tbl_lookup t (index T s) y). }
  { intros a Ha Hin. destruct (decide (index T a = index T s)) as [Ei|Ei]; [|by rewrite (outside_le s e e a) in Hin].
    assert (Hz : look d1 a = 0); [|by rewrite look_table, Ei, Ed in Hz].
    rewrite Hl1. apply Hfresh; [|done]. by apply same_table. }
  { split; [done|intros g; rewrite Hr1; unfold o'; lia|]. intros g. unfold o'. specialize (Ho g).
    pose proof (cnt_lookup g d1 _ x Ed). pose proof (cnt_lookup g t _ y Et). lia. }
  simpl. eexists _, _, _, ret. split; [done|]. destruct Hres as [[-> Hc]|(-> & Hna & b & Hbr & Hpb & Hc)].
  - left. split; [done|]. apply Hpre. by apply (copied_entry o o' s e e d1 t m1 x y).
  - right. split; [done|]. split; [by intros [_ ?]%Hall|]. exists b. split; [done|]. split; [done|]. apply Hpre.
    apply (copied_entry o o' s e b d1 t m1 x y); done || lia.
Qed.
End entry.

(** ** The four levels *)

Lemma copy_one_ok fl i o (d t : pte_table) m p :
  t !! i = Some p -> pte_present p = true -> balanced2 o d t m ->
  exists m', lego_copy_one_pte fl i (d, t, m) = Some (<[i := child_pte fl p]> d, <[i := parent_pte fl p]> t, m') /\
    frames_ok m' /\ (forall g, rc m' g = rc m g + cnt g p) /\ same_data m m' /\ pg_tables m' = pg_tables m.
Proof.
  intros E Hp [Hf Hr Ho]. unfold lego_copy_one_pte, get_entry. rewrite E. simpl. rewrite Hp. simpl.
  destruct (get_page_ok (lego_pte_to_virt p) m Hf) as (m' & Hg & Hf' & Hr' & Hd').
  { rewrite Hr. pose proof (cnt_lookup (lego_pte_to_virt p) t _ p E) as Hc. rewrite cnt_pte, decide_True in Hc by done.
    pose proof (cnt_nonneg (lego_pte_to_virt p) d). specialize (Ho (lego_pte_to_virt p)). lia. }
  exists m'. split_and!; [|done|intros g; by rewrite Hr', cnt_pte|done|].
  2:{ unfold get_page in Hg. destruct (frames m !! _); [|done]. simpl in Hg. destruct (_ <=? 0); [done|]. by injection Hg as <-. }
  fold (parent_pte fl p). change (pte_mkold _) with (child_pte fl p). rewrite child_virt, Hg. simpl. unfold pte_set.
  unfold parent_pte. destruct (is_cow_mapping fl); [done|]. by rewrite (insert_id t i p).
Qed.

Lemma copy_pte_body fl : copy_body fl Z (fun i _ _ => copy_pte fl i).
Proof.
  intros o s e d t m Hu Hd Ht Hfresh Hb. unfold copy_pte. pose proof (un_range _ _ _ Hu) as Hr.
  destruct (t !! index Z s) as [p|] eqn:E.
  - destruct (tbl_lookup t _ p Ht E) as [_ Hp]. apply tbl_pte in Hp.
    replace (get_entry t (index Z s)) with p by (unfold get_entry; by rewrite E). rewrite entry_not_none by done.
    destruct (copy_one_ok fl (index Z s) o d t m p E Hp Hb) as (m' & -> & Hf' & Hr' & Hd' & Htb). simpl.
    eexists _, _, _, 0. split; [done|]. left. split; [done|].
    assert (Ed : d !! index Z s = None).
    { assert (Hz : look d s = 0) by (apply Hfresh; [done|]; by apply (one_page s e)).
      rewrite look_table in Hz. destruct (d !! index Z s) as [q|] eqn:Eq; [|done].
      destruct (tbl_lookup d _ q Hd Eq) as [_ Hq]. rewrite look_pte in Hz. subst q. done. }
    split; [| | | | |done|by rewrite Htb].
    + apply tbl_insert; [done| |apply index_range]. apply tbl_pte. by rewrite child_present.
    + apply tbl_insert; [done| |apply index_range]. apply tbl_pte. by rewrite parent_present.
    + intros a Ha. rewrite look_insert. case_decide as Ei.
      * rewrite (one_page s e) by (done || by apply index_inj). by rewrite look_table, Ei, E.
      * by rewrite (outside s e a).
    + intros a Ha. rewrite look_insert. case_decide as Ei.
      * rewrite (one_page s e) by (done || by apply index_inj). by rewrite look_table, Ei, E.
      * by rewrite (outside s e a).
    + destruct Hb as [_ Hrc Ho]. split; [done| |done]. intros g.
      rewrite Hr', Hrc, (cnt_insert_new g d _ _ Ed), (cnt_insert g t _ _ _ E), !cnt_pte, child_virt, parent_virt. lia.
  - replace (get_entry t (index Z s)) with 0 by (unfold get_entry; by rewrite E). simpl.
    exists d, t, m, 0. split; [done|]. left. split; [done|]. split; try done.
    all: intros a Ha; destruct (in_range s e a) eqn:Hin; [|done].
    all: destruct (decide (index Z a = index Z s)) as [Ei|Ei]; [|by rewrite (outside s e a) in Hin].
    + by rewrite Hfresh, look_table, Ei, E, child_zero.
    + by rewrite look_table, Ei, E, parent_zero.
Qed.

(** A loop whose body does not fail does not fail. *)
Lemma walk_zero {St : Type} addr_end (body : Z -> Z -> Z -> St -> option (St * Z)) n : forall i a e s s' ret,
  (forall i a e s s' ret, body i a e s = Some (s', ret) -> ret = 0) ->
  walk addr_end body n i a e s = Some (s', ret) -> ret = 0.
Proof.
  induction n as [|n IH]; intros i a e s s' ret Hb Hw; [done|]. simpl in Hw.
  destruct (body i a (addr_end a e) s) as [[s1 r]|] eqn:E; [|done]. simpl in Hw.
  rewrite (Hb _ _ _ _ _ _ E) in Hw. simpl in Hw. destruct (_ =? e); [congruence|]. by eapply IH.
Qed.

Lemma copy_pte_zero fl i s s' ret : copy_pte fl i s = Some (s', ret) -> ret = 0.
Proof.
  destruct s as [[d t] m]. unfold copy_pte. destruct (pte_none _); [by intros [= _ <-]|].
  destruct (lego_copy_one_pte _ _ _); simpl; [by intros [= _ <-]|done].
Qed.

Lemma copy_pte_range_ok fl : copy_ok fl pte_table (lego_copy_pte_range fl).
Proof.
  intros o s e d t m Hu Hd Ht Hfr Hb. unfold lego_copy_pte_range. rewrite pte_index.
  destruct (copy_walk fl pte_addr_end _ pte_addr_end_ok (copy_pte_body fl) o s e d t m Hu Hd Ht Hfr Hb)
    as (d' & t' & m' & ret & E & Hres).
  rewrite E. simpl. exists d', t', m', 0. split; [done|].
  apply walk_zero in E; [|by intros ? ? ? ? ? ? ?%copy_pte_zero]. subst ret.
  destruct Hres as [[_ Hc]|[Hne _]]; [by left|done].
Qed.

Lemma copy_pmd_range_ok fl : copy_ok fl pmd_table (lego_copy_pmd_range fl).
Proof.
  intros o s e d t m. unfold lego_copy_pmd_range. rewrite pmd_index.
  by apply (copy_walk fl pmd_addr_end _ pmd_addr_end_ok (copy_entry_ok fl _ (copy_pte_range_ok fl))).
Qed.
Lemma copy_pud_range_ok fl : copy_ok fl pud_table (lego_copy_pud_range fl).
Proof.
  intros o s e d t m. unfold lego_copy_pud_range. rewrite pud_index.
  by apply (copy_walk fl pud_addr_end _ pud_addr_end_ok (copy_entry_ok fl _ (copy_pmd_range_ok fl))).
Qed.
Lemma copy_page_range_ok vma : copy_ok (vm_flags vma) pgd_table (fun s e d t m =>
  walk_from pgd_addr_end (fun i addr next => copy_entry (lego_copy_pud_range (vm_flags vma) addr next) i)
    (lego_pgd_index s) s e (d, t, m)).
Proof.
  intros o s e d t m. rewrite pgd_index.
  by apply (copy_walk (vm_flags vma) pgd_addr_end _ pgd_addr_end_ok (copy_entry_ok _ _ (copy_pud_range_ok _))).
Qed.
