(* ===== verification/PgtMove.v ===== *)
(** * Memory manager, page tables: access by address, and mremap

    The path of tables above an address, reading and writing its entry; and
    [lego_move_page_tables], which moves the entries of a range. *)

From stdpp Require Import gmap fin_maps.
From S2P Require Import Prelude VmaModel VmaInv VmaSpec PgtModel PgtTables PgtRange PgtCopy.

(** ** Entries by address *)

Definition good (x : Z) : Prop := x = 0 \/ pte_present x = true.

Lemma look_good_table {T : Type} `{LevelLaws T} :
  (forall (x : T) a, tbl_ok x -> good (look x a)) -> forall (t : gmap Z T) a, tbl_ok t -> good (look t a).
Proof.
  intros Hx t a Ht. rewrite look_table. destruct (t !! _) as [x|] eqn:E; [|by left].
  apply Hx. by apply (tbl_lookup t (index T a)).
Qed.

Lemma look_good (t : pgd_table) a : tbl_ok t -> good (look t a).
Proof. revert t a. do 4 apply look_good_table. intros x a Hx. by right. Qed.

Lemma look_none (t : pgd_table) a : tbl_ok t -> pte_none (look t a) = true -> look t a = 0.
Proof. intros Ht Hn. destruct (look_good t a Ht) as [|Hp]; [done|]. by rewrite entry_not_none in Hn. Qed.

Lemma get_entry_look (u : pte_table) a : get_entry u (lego_pte_index a) = look u a.
Proof. rewrite look_table, pte_index. unfold get_entry. by destruct (u !! _). Qed.

Lemma pte_at_look (t : pgd_table) a : pte_at t a = look t a.
Proof.
  unfold pte_at, get_pte, pte_page, lego_pmd_ptr. rewrite pgd_index, pud_index, pmd_index.
  rewrite (look_table t). destruct (t !! _) as [x|]; [|done]. simpl. rewrite (look_table x). destruct (x !! _) as [y|]; [|done].
  simpl. rewrite (look_table y). destruct (y !! _) as [u|]; [|done]. apply get_entry_look.
Qed.

(** The entry in the table that [p] points to, when [p] is above [a] *)
Lemma get_pte_look (t : pgd_table) p a : p = lego_pmd_ptr a -> get_pte t p (lego_pte_index a) = look t a.
Proof. intros ->. apply pte_at_look. Qed.

(** Changing the table of last entries above [a] *)
Lemma look_upd_page (t : pgd_table) a b f u :
  pte_page t (lego_pmd_ptr a) = Some u ->
  look (upd_page f (lego_pmd_ptr a) t) b =
    if decide (lego_pmd_ptr b = lego_pmd_ptr a) then look (f u) b else look t b.
Proof.
  unfold pte_page, upd_page, lego_pmd_ptr. rewrite !pgd_index, !pud_index, !pmd_index. intros Hu.
  destruct (t !! index pud_table a) as [x|] eqn:Ex; [|done]. simpl in Hu.
  destruct (x !! index pmd_table a) as [y|] eqn:Ey; [|done]. simpl in Hu.
  rewrite (look_table (alter _ _ t)), (look_table t b).
  destruct (decide (index pud_table b = index pud_table a)) as [E1|E1].
  2:{ rewrite lookup_alter_ne by congruence. rewrite decide_False by congruence. done. }
  rewrite E1, lookup_alter_eq, Ex. simpl. rewrite (look_table (alter _ _ x)), (look_table x b).
  destruct (decide (index pmd_table b = index pmd_table a)) as [E2|E2].
  2:{ rewrite lookup_alter_ne by congruence. rewrite decide_False by congruence. done. }
  rewrite E2, lookup_alter_eq, Ey. simpl. rewrite (look_table (alter _ _ y)), (look_table y b).
  destruct (decide (index pte_table b = index pte_table a)) as [E3|E3].
  2:{ rewrite lookup_alter_ne by congruence. rewrite decide_False by congruence. done. }
  rewrite E3, lookup_alter_eq, Hu. simpl. by rewrite decide_True by congruence.
Qed.

Section alter.
Context {T : Type} `{LevelLaws T}.
Lemma cnt_alter f g (t : gmap Z T) i x : t !! i = Some x -> cnt f (alter g i t) = cnt f t - cnt f x + cnt f (g x).
Proof.
  intros E. rewrite <- (cnt_insert f t i (g x) x E). f_equal. apply map_eq. intros j.
  destruct (decide (i = j)) as [<-|]; [by rewrite lookup_alter_eq, E, lookup_insert_eq|by rewrite lookup_alter_ne, lookup_insert_ne].
Qed.
Lemma tbl_alter g (t : gmap Z T) i x : tbl_ok t -> t !! i = Some x -> tbl_ok (g x) -> tbl_ok (alter g i t).
Proof.
  intros Ht E Hg j y. destruct (decide (i = j)) as [<-|].
  - rewrite lookup_alter_eq, E. intros [= <-]. split; [by apply (tbl_lookup t i x)|done].
  - rewrite lookup_alter_ne by done. apply Ht.
Qed.
End alter.

Lemma upd_page_ok (t : pgd_table) p f u :
  tbl_ok t -> pte_page t p = Some u -> tbl_ok (f u) ->
  tbl_ok (upd_page f p t) /\ (forall g, cnt g (upd_page f p t) = cnt g t - cnt g u + cnt g (f u)) /\ tbl_ok u.
Proof.
  destruct p as [[i j] k]. unfold pte_page, upd_page. intros Ht Hu Hf.
  destruct (t !! i) as [x|] eqn:Ex; [|done]. simpl in Hu. destruct (x !! j) as [y|] eqn:Ey; [|done]. simpl in Hu.
  destruct (tbl_lookup t i x Ht Ex) as [_ Hx]. destruct (tbl_lookup x j y Hx Ey) as [_ Hy]. destruct (tbl_lookup y k u Hy Hu) as [_ Huk].
  split_and!; [| |done].
  - eapply tbl_alter; [done|done|]. eapply tbl_alter; [done|done|]. by eapply tbl_alter.
  - intros g. rewrite (cnt_alter g _ t i x Ex), (cnt_alter g _ x j y Ey), (cnt_alter g _ y k u Hu). lia.
Qed.

Lemma pte_page_upd (t : pgd_table) p q f : is_Some (pte_page t q) -> is_Some (pte_page (upd_page f p t) q).
Proof.
  destruct p as [[i j] k], q as [[i' j'] k']. unfold pte_page, upd_page. intros [u Hu].
  destruct (t !! i') as [x|] eqn:Ex; [|done]. simpl in Hu. destruct (x !! j') as [y|] eqn:Ey; [|done]. simpl in Hu.
  destruct (decide (i = i')) as [<-|]; [|rewrite lookup_alter_ne, Ex by done; simpl; rewrite Ey; simpl; eauto].
  rewrite lookup_alter_eq, Ex. simpl.
  destruct (decide (j = j')) as [<-|]; [|rewrite lookup_alter_ne, Ey by done; simpl; eauto].
  rewrite lookup_alter_eq, Ey. simpl.
  destruct (decide (k = k')) as [<-|]; [rewrite lookup_alter_eq, Hu; simpl; eauto|rewrite lookup_alter_ne by done; eauto].
Qed.

(** ** Allocating the tables above an address *)

(** Same entries; tables may have been added. *)
Record extended (t : pgd_table) (m : pages) (t' : pgd_table) (m' : pages) : Prop := {
  ex_ok : tbl_ok t';
  ex_look : forall a, look t' a = look t a;
  ex_cnt : forall f, cnt f t' = cnt f t;
  ex_frames : frames m' = frames m;
  ex_pages : forall p, is_Some (pte_page t p) -> is_Some (pte_page t' p)
}.

Lemma extended_refl t m : tbl_ok t -> extended t m t m.
Proof. by split. Qed.
Lemma extended_trans t1 m1 t2 m2 t3 m3 : extended t1 m1 t2 m2 -> extended t2 m2 t3 m3 -> extended t1 m1 t3 m3.
Proof.
  intros [O1 L1 C1 F1 P1] [O2 L2 C2 F2 P2].
  split; [done|intros a; by rewrite L2|intros f; by rewrite C2|congruence|auto].
Qed.

(** A new table below entry [i], or below entry [j] of the table of entry [i], ... *)
Lemma extended_top (t t' : pgd_table) m m' i ok :
  tbl_ok t -> 0 <= i < PTRS_PER_TABLE -> pxd_alloc i t m = (ok, t', m') ->
  extended t m t' m' /\ (ok = true -> is_Some (t' !! i)).
Proof.
  intros Ht Hi E. destruct (pxd_alloc_ok i t m Ht Hi) as (b & d & m1 & E1 & Hm & Hd & Hl & Hc & Hne & Hb & _).
  rewrite E in E1. injection E1 as <- <- <-. split; [|by intros ->]. split; try done.
  intros [[a j] k] [u Hu]. unfold pte_page in *. destruct (decide (a = i)) as [->|]; [|rewrite Hne by done; eauto].
  destruct ok; [|subst t'; eauto]. unfold pxd_alloc in E. destruct (t !! i) as [x|] eqn:Ex; [|done].
  injection E as <- <-. rewrite Ex. eauto.
Qed.

Lemma extended_sub (t : pgd_table) (x x' : pud_table) m m' i :
  tbl_ok t -> t !! i = Some x -> tbl_ok x' -> (forall a, look x' a = look x a) -> (forall f, cnt f x' = cnt f x) ->
  frames m' = frames m -> (forall j k, is_Some (y ← x !! j; y !! k) -> is_Some (y ← x' !! j; y !! k)) ->
  extended t m (<[i := x']> t) m'.
Proof.
  intros Ht Ex Hx' Hl Hc Hm Hp. split; [| | |done|].
  - apply tbl_insert; [done|done|by apply (tbl_lookup t i x)].
  - intros a. rewrite look_insert. case_decide as Ei; [|done]. by rewrite Hl, (look_table t), Ei, Ex.
  - intros f. rewrite (cnt_insert f t i x' x Ex), Hc. lia.
  - intros [[a j] k] Hs. unfold pte_page in *. destruct (decide (i = a)) as [<-|]; [|by rewrite lookup_insert_ne].
    rewrite lookup_insert_eq. rewrite Ex in Hs. simpl in *. by apply Hp.
Qed.

Lemma alloc_path_ok pte a (t : pgd_table) m :
  tbl_ok t ->
  exists ok t' m', alloc_path pte a t m = (ok, t', m') /\ extended t m t' m' /\
    (ok = true -> pte = true -> is_Some (pte_page t' (lego_pmd_ptr a))).
Proof.
  intros Ht. unfold alloc_path, lego_pud_alloc. rewrite pgd_index.
  destruct (pxd_alloc (index pud_table a) t m) as [[ok1 t1] m1] eqn:E1.
  destruct (extended_top t t1 m m1 _ ok1 Ht (index_range a) E1) as [Hx1 Hs1]. destruct ok1; [|exists false, t1, m1; split; [reflexivity|split; [exact Hx1|discriminate]]].
  destruct (Hs1 eq_refl) as [x Ex]. cbn [negb]. rewrite Ex. cbn [from_option id]. unfold lego_pmd_alloc. rewrite pud_index.
  destruct (tbl_lookup t1 _ x (ex_ok _ _ _ _ Hx1) Ex) as [_ Hx].
  destruct (pxd_alloc_ok (index pmd_table a) x m1 Hx (index_range a)) as (ok2 & x2 & m2 & E2 & Hm2 & Hx2 & Hl2 & Hc2 & Hne2 & Hok2 & _).
  rewrite E2. set (t2 := <[index pud_table a := x2]> t1).
  assert (Hk2 : forall j k, is_Some (y ← x !! j; y !! k) -> is_Some (y ← x2 !! j; y !! k)).
  { intros j k [u Hu]. destruct (decide (j = index pmd_table a)) as [->|]; [|rewrite Hne2 by done; eauto].
    unfold pxd_alloc in E2. destruct (x !! index pmd_table a) as [y|] eqn:Ey; [|done]. injection E2 as <- <- <-. rewrite Ey. eauto. }
  assert (Ht2 : extended t1 m1 t2 m2) by (apply (extended_sub t1 x); [apply Hx1|done..]).
  pose proof (extended_trans _ _ _ _ _ _ Hx1 Ht2) as H02.
  destruct ok2; [|exists false, t2, m2; split; [reflexivity|split; [exact H02|discriminate]]].
  destruct pte; [|exists true, t2, m2; split; [reflexivity|split; [exact H02|discriminate]]].
  destruct Hok2 as [y Ey]. cbn [negb orb]. rewrite Ey. cbn [from_option id]. unfold lego_pte_alloc. rewrite pmd_index.
  destruct (tbl_lookup x2 _ y Hx2 Ey) as [_ Hy].
  destruct (pxd_alloc_ok (index pte_table a) y m2 Hy (index_range a)) as (ok3 & y3 & m3 & E3 & Hm3 & Hy3 & Hl3 & Hc3 & Hne3 & Hok3 & _).
  rewrite E3. exists ok3. eexists _, m3. split; [done|].
  assert (Ht3 : extended t2 m2 (<[index pud_table a := <[index pmd_table a := y3]> x2]> t2) m3).
  { apply (extended_sub t2 x2); [apply Ht2|by apply lookup_insert_eq|by apply tbl_insert; [| |apply index_range]| | |done|].
    - intros b. rewrite look_insert. case_decide as Ei; [|done]. by rewrite Hl3, (look_table x2), Ei, Ey.
    - intros f. rewrite (cnt_insert f x2 _ y3 y Ey), Hc3. lia.
    - intros j k [u Hu]. destruct (decide (index pmd_table a = j)) as [<-|]; [|rewrite lookup_insert_ne by done; eauto].
      rewrite lookup_insert_eq. rewrite Ey in Hu. simpl in *.
      destruct (decide (k = index pte_table a)) as [->|]; [|rewrite Hne3 by done; eauto].
      unfold pxd_alloc in E3. rewrite Hu in E3. injection E3 as <- <- <-. eauto. }
  split; [by eapply extended_trans|]. intros -> _. destruct Hok3 as [u Hu].
  unfold pte_page, lego_pmd_ptr. rewrite pgd_index, pud_index, pmd_index, lookup_insert_eq. simpl.
  rewrite lookup_insert_eq. simpl. eauto.
Qed.

(** ** Writing an entry *)

Lemma div_PMD a : a / PMD_SIZE = a / PAGE_SIZE / 512.
Proof. rewrite Z.div_div by done. done. Qed.

(** Two addresses are under the same table of last entries exactly when they are in the
    same [PMD_SIZE] bytes. *)
Lemma pmd_ptr_eq a b :
  0 <= a < ADDR_LIMIT -> 0 <= b < ADDR_LIMIT -> lego_pmd_ptr a = lego_pmd_ptr b <-> a / PMD_SIZE = b / PMD_SIZE.
Proof.
  intros Ha Hb. unfold lego_pmd_ptr. rewrite !pgd_index, !pud_index, !pmd_index. split; [|intros E].
  - intros [= H1 H2 H3]. change PMD_SIZE with (span pte_table). apply (index_inj (T := pte_table)); [|done]. apply (index_inj (T := pmd_table)); [|done].
    apply (index_inj (T := pud_table)); [|done]. change (gmap Z pud_table) with pgd_table. by rewrite !pgd_span_div.
  - assert (E2 : a / span pmd_table = b / span pmd_table).
    { change (span pmd_table) with (PMD_SIZE * 512). rewrite <- !Z.div_div by done. by rewrite E. }
    assert (E3 : a / span pud_table = b / span pud_table).
    { change (span pud_table) with (PMD_SIZE * 512 * 512). rewrite <- !Z.div_div by done. by rewrite E. }
    unfold index. change (span pte_table) with PMD_SIZE. by rewrite E, E2, E3.
Qed.

(** ... and have the same entry when they are in the same page. *)
Lemma page_eq a b :
  0 <= a < ADDR_LIMIT -> 0 <= b < ADDR_LIMIT ->
  a / PAGE_SIZE = b / PAGE_SIZE <-> lego_pmd_ptr a = lego_pmd_ptr b /\ index Z a = index Z b.
Proof.
  intros Ha Hb. rewrite pmd_ptr_eq by done. split.
  - intros E. unfold index. change (span Z) with PAGE_SIZE. by rewrite !div_PMD, E.
  - intros [E Ei]. change PAGE_SIZE with (span Z). by apply (index_inj (T := Z)).
Qed.

Lemma set_entry_ok (t : pgd_table) a u p :
  tbl_ok t -> 0 <= a < ADDR_LIMIT -> pte_page t (lego_pmd_ptr a) = Some u -> look t a = 0 -> pte_present p = true ->
  let t' := upd_page (pte_set (lego_pte_index a) p) (lego_pmd_ptr a) t in
  tbl_ok t' /\ (forall f, cnt f t' = cnt f t + cnt f p) /\
  forall b, 0 <= b < ADDR_LIMIT -> look t' b = if decide (b / PAGE_SIZE = a / PAGE_SIZE) then p else look t b.
Proof.
  intros Ht Ha Hu Hz Hp t'.
  destruct (upd_page_ok t (lego_pmd_ptr a) (fun _ => ∅) u Ht Hu tbl_empty) as (_ & _ & Huok).
  assert (Hua : u !! lego_pte_index a = None).
  { assert (Hz' : look u a = 0) by (rewrite <- Hz, <- pte_at_look; unfold pte_at, get_pte; by rewrite Hu, get_entry_look).
    rewrite look_table, pte_index in *. destruct (u !! index Z a) as [q|] eqn:Eq; [|done].
    destruct (tbl_lookup u _ q Huok Eq) as [_ Hq]. rewrite look_pte in Hz'. by subst q. }
  destruct (upd_page_ok t (lego_pmd_ptr a) (pte_set (lego_pte_index a) p) u Ht Hu) as (Ht' & Hc & _).
  { apply tbl_insert; [done|by apply tbl_pte|rewrite pte_index; apply index_range]. }
  split_and!; [done| |].
  - intros f. unfold t'. rewrite Hc. unfold pte_set. rewrite (cnt_insert_new f u _ p Hua). lia.
  - intros b Hb. unfold t'. rewrite (look_upd_page t a b _ u Hu). unfold pte_set. rewrite look_insert, pte_index.
    destruct (decide (b / PAGE_SIZE = a / PAGE_SIZE)) as [E|E].
    + apply page_eq in E as [E1 E2]; [|done|done]. by rewrite !decide_True.
    + case_decide as E1; [|done]. rewrite decide_False by (intros E2; apply E; by apply page_eq).
      rewrite <- E1 in Hu. rewrite <- pte_at_look. unfold pte_at, get_pte. by rewrite Hu, get_entry_look.
Qed.

Lemma clear_entry_ok (t : pgd_table) a u :
  tbl_ok t -> 0 <= a < ADDR_LIMIT -> pte_page t (lego_pmd_ptr a) = Some u -> look t a <> 0 ->
  let t' := upd_page (pte_clear (lego_pte_index a)) (lego_pmd_ptr a) t in
  tbl_ok t' /\ (forall f, cnt f t' = cnt f t - cnt f (look t a)) /\
  forall b, 0 <= b < ADDR_LIMIT -> look t' b = if decide (b / PAGE_SIZE = a / PAGE_SIZE) then 0 else look t b.
Proof.
  intros Ht Ha Hu Hz t'. assert (Hlu : look u a = look t a).
  { rewrite <- pte_at_look. unfold pte_at, get_pte. by rewrite Hu, get_entry_look. }
  assert (Hua : u !! lego_pte_index a = Some (look t a)).
  { rewrite <- Hlu in *. rewrite look_table, pte_index in *. by destruct (u !! index Z a). }
  destruct (upd_page_ok t (lego_pmd_ptr a) (fun _ => ∅) u Ht Hu tbl_empty) as (_ & _ & Huok).
  destruct (upd_page_ok t (lego_pmd_ptr a) (pte_clear (lego_pte_index a)) u Ht Hu (tbl_delete u _ Huok)) as (Ht' & Hc & _).
  split_and!; [done| |].
  - intros f. unfold t'. rewrite Hc. unfold pte_clear. rewrite (cnt_delete f u _ _ Hua). lia.
  - intros b Hb. unfold t'. rewrite (look_upd_page t a b _ u Hu). unfold pte_clear. rewrite look_delete, pte_index.
    destruct (decide (b / PAGE_SIZE = a / PAGE_SIZE)) as [E|E].
    + apply page_eq in E as [E1 E2]; [|done|done]. by rewrite !decide_True.
    + case_decide as E1; [|done]. rewrite decide_False by (intros E2; apply E; by apply page_eq).
      rewrite <- E1 in Hu. rewrite <- pte_at_look. unfold pte_at, get_pte. by rewrite Hu, get_entry_look.
Qed.

Lemma look_same_page (t : pgd_table) a b :
  0 <= a < ADDR_LIMIT -> 0 <= b < ADDR_LIMIT -> a / PAGE_SIZE = b / PAGE_SIZE -> look t a = look t b.
Proof.
  intros Ha Hb E. apply page_eq in E as [E1 E2]; [|done|done]. rewrite <- !pte_at_look. unfold pte_at.
  by rewrite E1, !pte_index, E2.
Qed.

(** ** Moving a range *)

Section move.
Context (o n len : Z) (t : pgd_table).
Context (Ho : page_aligned o) (Hn : page_aligned n) (Hlen : page_aligned len).
Context (Hor : 0 <= o /\ o + len <= ADDR_LIMIT) (Hnr : 0 <= n /\ n + len <= ADDR_LIMIT).
Context (Hdis : o + len <= n \/ n + len <= o).
Context (Hfresh : forall y, in_range n (n + len) y = true -> look t y = 0).

(** The first [k] bytes have been moved. *)
Record moved (k : Z) (t' : pgd_table) : Prop := {
  mv_ok : tbl_ok t';
  mv_look : forall y, 0 <= y < ADDR_LIMIT -> look t' y =
    if in_range n (n + k) y then look t (y - n + o) else if in_range o (o + k) y then 0 else look t y;
  mv_cnt : forall f, cnt f t' = cnt f t
}.

(** The page of [y] is the one at the aligned address [a]. *)
Lemma same_page a y : page_aligned a -> y / PAGE_SIZE = a / PAGE_SIZE <-> a <= y < a + PAGE_SIZE.
Proof.
  unfold page_aligned. rewrite PAGE_SIZE_eq. intros Ha. pose proof (Z.div_mod a 4096). pose proof (Z.div_mod y 4096).
  pose proof (Z.mod_pos_bound y 4096). split; [lia|]. intros. symmetry. apply (Z.div_unique y 4096 _ (y - a)); lia.
Qed.

Lemma move_page k t1 :
  0 <= k -> page_aligned k -> k + PAGE_SIZE <= len -> moved k t1 -> is_Some (pte_page t1 (lego_pmd_ptr (n + k))) ->
  let pte := get_pte t1 (lego_pmd_ptr (o + k)) (lego_pte_index (o + k)) in
  let t2 := if pte_none pte then t1
            else upd_page (pte_set (lego_pte_index (n + k)) pte) (lego_pmd_ptr (n + k))
                   (upd_page (pte_clear (lego_pte_index (o + k))) (lego_pmd_ptr (o + k)) t1) in
  moved (k + PAGE_SIZE) t2 /\ (forall p, is_Some (pte_page t1 p) -> is_Some (pte_page t2 p)).
Proof using All.
  intros Hk Hka Hkl Hm Hnew pte t2. assert (Hp0 : 0 < PAGE_SIZE) by done.
  assert (Hoka : page_aligned (o + k)) by (unfold page_aligned in *; by rewrite Zplus_mod, Ho, Hka).
  assert (Hnka : page_aligned (n + k)) by (unfold page_aligned in *; by rewrite Zplus_mod, Hn, Hka).
  assert (Epte : pte = look t (o + k)).
  { unfold pte. rewrite get_pte_look by done. rewrite (mv_look _ _ Hm) by lia. rewrite !in_range_bool.
    rewrite !bool_decide_eq_false_2 by lia. done. }
  assert (Hpage : forall y, look t (y - n + o) = pte \/ ~ (n + k <= y < n + k + PAGE_SIZE)).
  { intros y. destruct (decide (n + k <= y < n + k + PAGE_SIZE)); [left|by right]. rewrite Epte.
    apply look_same_page; [lia|lia|]. apply same_page; [done|lia]. }
  unfold t2. destruct (pte_none pte) eqn:Hpn.
  - split; [|done]. destruct Hm as [Hok Hlook Hcnt]. split; [done| |done]. intros y Hy. rewrite Hlook by done.
    assert (Hz : pte = 0).
    { unfold pte in *. rewrite get_pte_look in * by done. by apply look_none. }
    rewrite !in_range_bool. specialize (Hpage y). specialize (Hfresh y). rewrite in_range_bool in Hfresh.
    destruct (decide (n + k <= y < n + k + PAGE_SIZE)).
    + rewrite (bool_decide_eq_true_2 (n <= y < n + (k + PAGE_SIZE))) by lia. rewrite !bool_decide_eq_false_2 by lia.
      rewrite Hfresh by (apply bool_decide_eq_true_2; lia). destruct Hpage; [congruence|lia].
    + destruct (decide (o + k <= y < o + k + PAGE_SIZE)).
      * rewrite (bool_decide_eq_true_2 (o <= y < o + (k + PAGE_SIZE))) by lia. rewrite !bool_decide_eq_false_2 by lia.
        rewrite <- Hz, Epte. apply look_same_page; [lia|lia|]. apply same_page; [done|lia].
      * by rewrite (bool_decide_ext (n <= y < n + (k + PAGE_SIZE)) (n <= y < n + k)), (bool_decide_ext (o <= y < o + (k + PAGE_SIZE)) (o <= y < o + k)) by lia.
  - destruct Hm as [Hok Hlook Hcnt]. unfold pte in Hpn, Epte |- *. rewrite get_pte_look in * by done.
    assert (Hp : pte_present (look t1 (o + k)) = true).
    { destruct (look_good t1 (o + k) Hok) as [E|]; [rewrite E in Hpn; discriminate Hpn|done]. }
    assert (Hne : look t1 (o + k) <> 0) by (intros E; rewrite E in Hpn; discriminate Hpn).
    assert (Hu : exists u, pte_page t1 (lego_pmd_ptr (o + k)) = Some u).
    { rewrite <- pte_at_look in Hne. unfold pte_at, get_pte in Hne.
      destruct (pte_page t1 (lego_pmd_ptr (o + k))) as [u|]; [by exists u|done]. }
    destruct Hu as [u Hu]. destruct (clear_entry_ok t1 (o + k) u Hok ltac:(lia) Hu Hne) as (Hok2 & Hcnt2 & Hlook2).
    set (t1' := upd_page (pte_clear _) _ t1) in *.
    destruct (pte_page_upd t1 (lego_pmd_ptr (o + k)) _ (pte_clear (lego_pte_index (o + k))) Hnew) as [v Hv]. fold t1' in Hv.
    destruct (set_entry_ok t1' (n + k) v (look t1 (o + k)) Hok2 ltac:(lia) Hv) as (Hok3 & Hcnt3 & Hlook3); [|done|].
    { rewrite Hlook2 by lia. case_decide as Epg; [done|]. rewrite Hlook, !in_range_bool, !bool_decide_eq_false_2 by lia.
      apply Hfresh. rewrite in_range_bool. apply bool_decide_eq_true_2. lia. }
    split; [|intros p Hps; by apply pte_page_upd, pte_page_upd].
    split; [done| |intros f; rewrite Hcnt3, Hcnt2, Hcnt; lia]. intros y Hy. rewrite Hlook3, Hlook2, (Hlook y) by done.
    specialize (Hpage y). rewrite !in_range_bool. destruct (decide (n + k <= y < n + k + PAGE_SIZE)).
    + rewrite decide_True by (apply same_page; [done|lia]). rewrite bool_decide_eq_true_2 by lia.
      destruct Hpage as [Hpg|]; [|lia]. rewrite Hpg. unfold pte. by rewrite get_pte_look.
    + rewrite decide_False by (rewrite same_page by done; lia). destruct (decide (o + k <= y < o + k + PAGE_SIZE)).
      * rewrite decide_True by (apply same_page; [done|lia]). rewrite (bool_decide_eq_true_2 (o <= y < o + _)) by lia.
        by rewrite bool_decide_eq_false_2 by lia.
      * rewrite decide_False by (rewrite same_page by done; lia).
        by rewrite (bool_decide_ext (n <= y < n + (k + PAGE_SIZE)) (n <= y < n + k)), (bool_decide_ext (o <= y < o + (k + PAGE_SIZE)) (o <= y < o + k)) by lia.
Qed.

(** [c] pages at [a] lie in the same [PMD_SIZE] bytes. *)
Definition block (a : Z) (c : nat) : Prop := a / PMD_SIZE = (a + Z.of_nat c * PAGE_SIZE - 1) / PMD_SIZE.

Lemma block_index a c : (0 < c)%nat -> page_aligned a -> block a c -> lego_pte_index a + Z.of_nat c <= PTRS_PER_TABLE.
Proof.
  unfold block, page_aligned. rewrite pte_index, !div_PMD, index_sub. change (span (gmap Z Z)) with PMD_SIZE.
  rewrite div_PMD. change (span Z) with PAGE_SIZE. rewrite PAGE_SIZE_eq. unfold PTRS_PER_TABLE. intros Hc Ha E.
  pose proof (Z.div_mod a 4096). pose proof (Z.div_mod (a + Z.of_nat c * 4096 - 1) 4096).
  pose proof (Z.mod_pos_bound (a + Z.of_nat c * 4096 - 1) 4096).
  pose proof (Z.div_mod ((a + Z.of_nat c * 4096 - 1) / 4096) 512). pose proof (Z.mod_pos_bound ((a + Z.of_nat c * 4096 - 1) / 4096) 512).
  lia.
Qed.

Lemma block_next a c :
  0 <= a -> a + Z.of_nat (S (S c)) * PAGE_SIZE <= ADDR_LIMIT -> page_aligned a -> block a (S (S c)) ->
  block (a + PAGE_SIZE) (S c) /\ lego_pmd_ptr (a + PAGE_SIZE) = lego_pmd_ptr a /\
  lego_pte_index (a + PAGE_SIZE) = lego_pte_index a + 1.
Proof.
  intros H0 Hl Ha Hb. assert (E : (a + PAGE_SIZE) / PMD_SIZE = a / PMD_SIZE).
  { unfold block in Hb. rewrite PAGE_SIZE_eq in *. apply Z.le_antisymm; [rewrite Hb|]; (apply Z.div_le_mono; [done|lia]). }
  split_and!.
  - unfold block in *. rewrite E, Hb. f_equal. lia.
  - apply pmd_ptr_eq; [rewrite PAGE_SIZE_eq in *; lia|rewrite PAGE_SIZE_eq in *; lia|done].
  - rewrite !pte_index, !index_sub. change (span (gmap Z Z)) with PMD_SIZE. rewrite E. change (span Z) with PAGE_SIZE.
    replace (a + PAGE_SIZE) with (a + 1 * PAGE_SIZE) by lia. rewrite Z.div_add by done. lia.
Qed.

Lemma aligned_add a b : page_aligned a -> page_aligned b -> page_aligned (a + b).
Proof. unfold page_aligned. intros Ha Hb. by rewrite Zplus_mod, Ha, Hb. Qed.

Lemma move_ptes_loop_ok c : forall fuel k t1,
  (c <= fuel)%nat -> 0 <= k -> page_aligned k -> k + Z.of_nat c * PAGE_SIZE <= len -> moved k t1 ->
  (c = 0%nat \/ block (o + k) c /\ block (n + k) c) -> is_Some (pte_page t1 (lego_pmd_ptr (n + k))) ->
  exists t2, move_ptes_loop fuel (lego_pmd_ptr (o + k)) (lego_pmd_ptr (n + k)) (lego_pte_index (o + k)) (lego_pte_index (n + k))
      (o + k) (o + k + Z.of_nat c * PAGE_SIZE) t1 = Some t2 /\
    moved (k + Z.of_nat c * PAGE_SIZE) t2 /\ (forall p, is_Some (pte_page t1 p) -> is_Some (pte_page t2 p)).
Proof using All.
  induction c as [|c IH]; intros fuel k t1 Hc Hk Hka Hkl Hm Hb Hnew.
  - exists t1. rewrite Z.mul_0_l, !Z.add_0_r. split; [|done]. destruct fuel; cbn [move_ptes_loop]; rewrite Z.ltb_irrefl; reflexivity.
  - assert (Hp0 : 0 < PAGE_SIZE) by done. destruct Hb as [|[Hbo Hbn]]; [done|]. destruct fuel as [|fuel]; [lia|]. cbn [move_ptes_loop].
    rewrite (proj2 (Z.ltb_lt (o + k) _)) by lia.
    destruct (move_page k t1) as [Hm2 Hp2]; [done|done|lia|done|done|].
    set (t2 := if pte_none _ then t1 else _) in *. rewrite wrap_small by (unfold is_u64, ULONG_MOD, ADDR_LIMIT in *; lia).
    assert (Hoka : page_aligned (o + k)) by (by apply aligned_add). assert (Hnka : page_aligned (n + k)) by (by apply aligned_add).
    destruct c as [|c].
    + exists t2. rewrite Z.mul_1_l. split; [destruct fuel; cbn [move_ptes_loop]; rewrite Z.ltb_irrefl; reflexivity|done].
    + destruct (block_next (o + k) c) as (Bo & Po & Io); [lia|lia|done|done|].
      destruct (block_next (n + k) c) as (Bn & Pn & In); [lia|lia|done|done|].
      replace (o + k + Z.of_nat (S (S c)) * PAGE_SIZE) with (o + (k + PAGE_SIZE) + Z.of_nat (S c) * PAGE_SIZE) by lia.
      rewrite <- Io, <- In, <- Po, <- Pn. rewrite <- (Z.add_assoc o k PAGE_SIZE), <- (Z.add_assoc n k PAGE_SIZE) in *.
      destruct (IH fuel (k + PAGE_SIZE) t2) as (t3 & -> & Hm3 & Hp3); try done; try lia.
      * by apply aligned_add.
      * by right.
      * rewrite Pn. by apply Hp2.
      * exists t3. split; [done|]. replace (k + Z.of_nat (S (S c)) * PAGE_SIZE) with (k + PAGE_SIZE + Z.of_nat (S c) * PAGE_SIZE) by lia.
        split; [done|]. intros p Hps. by apply Hp3, Hp2.
Qed.

Lemma move_ptes_ok c k t1 :
  (0 < c)%nat -> 0 <= k -> page_aligned k -> k + Z.of_nat c * PAGE_SIZE <= len -> moved k t1 ->
  block (o + k) c -> block (n + k) c -> is_Some (pte_page t1 (lego_pmd_ptr (n + k))) ->
  exists t2, move_ptes (lego_pmd_ptr (o + k)) (o + k) (o + k + Z.of_nat c * PAGE_SIZE) (lego_pmd_ptr (n + k)) (n + k) t1 = Some t2 /\
    moved (k + Z.of_nat c * PAGE_SIZE) t2.
Proof using All.
  intros Hc Hk Hka Hkl Hm Hbo Hbn Hnew. unfold move_ptes.
  pose proof (block_index (o + k) c Hc ltac:(by apply aligned_add) Hbo). pose proof (block_index (n + k) c Hc ltac:(by apply aligned_add) Hbn).
  destruct (move_ptes_loop_ok c (Z.to_nat (PTRS_PER_TABLE - Z.max (lego_pte_index (o + k)) (lego_pte_index (n + k)))) k t1)
    as (t2 & -> & Hm2 & _); try done; [lia|by right|by exists t2].
Qed.

Lemma moved_extended k t1 m1 t2 m2 : moved k t1 -> extended t1 m1 t2 m2 -> moved k t2.
Proof using All.
  intros [Hok Hl Hc] [Ho2 Hl2 Hc2 _ _]. split; [done|intros y Hy; rewrite Hl2; by apply Hl|intros f; by rewrite Hc2].
Qed.

(** Nothing to move in the next [x] bytes *)
Lemma move_skip k x t1 :
  0 <= k -> 0 <= x -> k + x <= len -> moved k t1 -> (forall y, o + k <= y < o + k + x -> look t1 y = 0) -> moved (k + x) t1.
Proof using All.
  intros Hk Hx Hkx [Hok Hl Hc] Hz. split; [done| |done]. intros y Hy. rewrite Hl by done. rewrite !in_range_bool.
  assert (Hold : forall y, o + k <= y < o + k + x -> look t y = 0).
  { intros w Hw. rewrite <- (Hz w Hw), Hl, !in_range_bool, !bool_decide_eq_false_2 by lia. done. }
  destruct (decide (n + k <= y < n + k + x)).
  - rewrite (bool_decide_eq_true_2 (n <= y < n + (k + x))) by lia. rewrite !bool_decide_eq_false_2 by lia.
    rewrite (Hold (y - n + o)) by lia. apply Hfresh. rewrite in_range_bool. apply bool_decide_eq_true_2. lia.
  - destruct (decide (o + k <= y < o + k + x)).
    + rewrite (bool_decide_eq_true_2 (o <= y < o + (k + x))) by lia. rewrite !bool_decide_eq_false_2 by lia. by apply Hold.
    + by rewrite (bool_decide_ext (n <= y < n + (k + x)) (n <= y < n + k)), (bool_decide_ext (o <= y < o + (k + x)) (o <= y < o + k)) by lia.
Qed.

Lemma next_pmd a : 0 <= a < ADDR_LIMIT -> Z.land (a +u PMD_SIZE) PMD_MASK = (a / PMD_SIZE + 1) * PMD_SIZE.
Proof.
  intros Ha. unfold ADDR_LIMIT in Ha. change PMD_MASK with (wrap (Z.lnot (2 ^ 21 - 1))). change PMD_SIZE with (2 ^ 21).
  assert (is_u64 (a + 2 ^ 21)) by (unfold is_u64, ULONG_MOD; lia).
  rewrite wrap_small, land_not_mask by (done || lia).
  replace (a + 2 ^ 21) with (a + 1 * 2 ^ 21) at 2 by lia. rewrite Z.mod_add by lia. pose proof (Z.div_mod a (2 ^ 21)). lia.
Qed.

(** A range of bytes before the next boundary is a block of pages. *)
Lemma block_of a x :
  page_aligned a -> page_aligned x -> 0 < x -> a + x <= (a / PMD_SIZE + 1) * PMD_SIZE ->
  exists c, (0 < c)%nat /\ x = Z.of_nat c * PAGE_SIZE /\ block a c.
Proof.
  intros Ha Hx Hx0 Hle. unfold page_aligned in Hx. rewrite PAGE_SIZE_eq in *. pose proof (Z.div_mod x 4096).
  exists (Z.to_nat (x / 4096)). assert (0 < x / 4096) by lia. rewrite Z2Nat.id by lia. split_and!; [lia|lia|].
  unfold block. rewrite Z2Nat.id, PAGE_SIZE_eq by lia. apply Z.le_antisymm; [apply Z.div_le_mono; [done|lia]|].
  apply Z.lt_succ_r, Z.div_lt_upper_bound; [done|]. lia.
Qed.

Lemma alloc_path_true pte a (t1 : pgd_table) m :
  Forall (eq true) (pg_tables m) ->
  exists t' m', alloc_path pte a t1 m = (true, t', m') /\ Forall (eq true) (pg_tables m').
Proof.
  assert (Hx : forall (T : Type) i (t : gmap Z (gmap Z T)) m, Forall (eq true) (pg_tables m) ->
    exists t' m', pxd_alloc i t m = (true, t', m') /\ Forall (eq true) (pg_tables m')).
  { intros T i u m0 Hm. unfold pxd_alloc, table_page. destruct (u !! i); [eauto|].
    destruct (pg_tables m0) as [|b l] eqn:E; [rewrite <- E in Hm; eauto|]. apply list.Forall_cons in Hm as [<- Hm]. eauto. }
  intros Hm. unfold alloc_path, lego_pud_alloc, lego_pmd_alloc, lego_pte_alloc.
  destruct (Hx _ (lego_pgd_index a) t1 m Hm) as (t2 & m2 & -> & Hm2). cbn [negb].
  destruct (Hx _ (lego_pud_index a) (default ∅ (t2 !! lego_pgd_index a)) m2 Hm2) as (x2 & m3 & -> & Hm3). cbn [negb orb].
  destruct pte; cbn [negb]; [|eauto].
  destruct (Hx _ (lego_pmd_index a) (default ∅ (x2 !! lego_pud_index a)) m3 Hm3) as (y2 & m4 & -> & Hm4). eauto.
Qed.

(** What a call leaves: the first [k] bytes have been moved, all of them if every table
    page could be had. *)
Record move_result (m : pages) (k : Z) (t' : pgd_table) (m' : pages) : Prop := {
  mr_k : 0 <= k <= len;
  mr_aligned : page_aligned k;
  mr_moved : moved k t';
  mr_frames : frames m' = frames m;
  mr_all : Forall (eq true) (pg_tables m) -> k = len
}.

Lemma aligned_min a b : page_aligned a -> page_aligned b -> page_aligned (Z.min a b).
Proof. intros Ha Hb. by destruct (Z.min_spec a b) as [[_ ->]|[_ ->]]. Qed.

Lemma aligned_sub a b : page_aligned a -> page_aligned b -> page_aligned (a - b).
Proof. unfold page_aligned. intros Ha Hb. by rewrite Zminus_mod, Ha, Hb. Qed.

Lemma aligned_pmd q : page_aligned (q * PMD_SIZE).
Proof. unfold page_aligned. change PMD_SIZE with (512 * PAGE_SIZE). rewrite Z.mul_assoc. by apply Z.mod_mul. Qed.

Lemma no_table (t1 : pgd_table) a : pte_page t1 (lego_pmd_ptr a) = None -> look t1 a = 0.
Proof. intros E. rewrite <- pte_at_look. unfold pte_at, get_pte. by rewrite E. Qed.

(** The size of one iteration: not past the end [e], nor the boundary of the old table;
    then, with a table to move from, not past the boundary of the new one. *)
Lemma extent_bounds a e :
  page_aligned a -> page_aligned e -> 0 <= a < e -> e <= ADDR_LIMIT ->
  let x := Z.min ((a / PMD_SIZE + 1) * PMD_SIZE - a) (e - a) in
  page_aligned x /\ 0 < x /\ a + x <= e /\ a + x <= (a / PMD_SIZE + 1) * PMD_SIZE.
Proof.
  intros Ha He Hr Hl x. pose proof (Z.div_mod a PMD_SIZE). pose proof (Z.mod_pos_bound a PMD_SIZE).
  change PMD_SIZE with (2 ^ 21) in *. split; [|unfold x; lia].
  apply aligned_min; [|by apply aligned_sub]. apply aligned_sub; [|done]. apply aligned_pmd.
Qed.

Lemma min_if a b : (if b <? a then b else a) = Z.min a b.
Proof. destruct (Z.ltb_spec b a); lia. Qed.

(** The distance to the next boundary, and the extent of an iteration, as numbers. *)
Lemma to_boundary a :
  0 <= a < ADDR_LIMIT -> Z.land (a +u PMD_SIZE) PMD_MASK -u a = (a / PMD_SIZE + 1) * PMD_SIZE - a.
Proof.
  intros Ha. rewrite next_pmd by done. pose proof (Z.div_mod a PMD_SIZE). pose proof (Z.mod_pos_bound a PMD_SIZE).
  apply wrap_small. unfold is_u64, ULONG_MOD, ADDR_LIMIT in *. change PMD_SIZE with (2 ^ 21) in *. lia.
Qed.

Lemma old_extent a e :
  0 <= a < e -> e <= ADDR_LIMIT ->
  (if e -u a <? Z.land (a +u PMD_SIZE) PMD_MASK -u a then e -u a else Z.land (a +u PMD_SIZE) PMD_MASK -u a)
  = Z.min ((a / PMD_SIZE + 1) * PMD_SIZE - a) (e - a).
Proof.
  intros Ha He. rewrite to_boundary, (wrap_small (e - a)) by (unfold is_u64, ULONG_MOD, ADDR_LIMIT in *; lia). apply min_if.
Qed.

(** Nothing to move from: the pages up to the boundary are skipped. *)
Lemma skip_ok k x t1 :
  0 <= k -> 0 <= x -> k + x <= len -> o + k + x <= ((o + k) / PMD_SIZE + 1) * PMD_SIZE ->
  moved k t1 -> pte_page t1 (lego_pmd_ptr (o + k)) = None -> moved (k + x) t1.
Proof using All.
  intros Hk Hx Hkx Hb Hm Eu. apply move_skip; try done. intros y Hy. apply no_table. rewrite <- Eu. f_equal.
  apply pmd_ptr_eq; [lia|lia|]. apply Z.le_antisymm; [|apply Z.div_le_mono; [done|lia]].
  apply Z.lt_succ_r, Z.div_lt_upper_bound; [done|]. lia.
Qed.

Lemma a_page x : page_aligned x -> 0 < x -> PAGE_SIZE <= x.
Proof. unfold page_aligned. rewrite PAGE_SIZE_eq. intros. pose proof (Z.div_mod x 4096). lia. Qed.

(** The extent of an iteration that moves. *)
Lemma new_extent_bounds k x :
  page_aligned k -> 0 <= k -> k + x <= len -> page_aligned x -> 0 < x ->
  let y := Z.min (Z.min x (((n + k) / PMD_SIZE + 1) * PMD_SIZE - (n + k))) LATENCY_LIMIT in
  page_aligned y /\ 0 < y <= x /\ n + k + y <= ((n + k) / PMD_SIZE + 1) * PMD_SIZE.
Proof using All.
  intros Hka Hk Hkx Hx Hx0 y.
  destruct (extent_bounds (n + k) (n + k + x)) as (_ & X0 & _); [by apply aligned_add|apply aligned_add; [by apply aligned_add|done]|lia|lia|].
  pose proof (aligned_pmd ((n + k) / PMD_SIZE + 1)). assert (0 < LATENCY_LIMIT) by done. split; [|unfold y; lia].
  apply aligned_min; [|done]. apply aligned_min; [done|]. apply aligned_sub; [done|by apply aligned_add].
Qed.

Lemma move_block_ok k y t1 :
  0 <= k -> page_aligned k -> page_aligned y -> 0 < y -> k + y <= len -> moved k t1 ->
  o + k + y <= ((o + k) / PMD_SIZE + 1) * PMD_SIZE -> n + k + y <= ((n + k) / PMD_SIZE + 1) * PMD_SIZE ->
  is_Some (pte_page t1 (lego_pmd_ptr (n + k))) ->
  exists t2, move_ptes (lego_pmd_ptr (o + k)) (o + k) (o + k + y) (lego_pmd_ptr (n + k)) (n + k) t1 = Some t2 /\ moved (k + y) t2.
Proof using All.
  intros Hk Hka Hya Hy Hl Hm Hbo Hbn Hp.
  destruct (block_of (o + k) y) as (c & Hc & -> & B1); [by apply aligned_add|done|done|done|].
  destruct (block_of (n + k) (Z.of_nat c * PAGE_SIZE)) as (c' & _ & E & B2); [by apply aligned_add|done|done|done|].
  assert (c' = c) as -> by (rewrite PAGE_SIZE_eq in E; lia). by apply move_ptes_ok.
Qed.

(** The two allocations of an iteration: the tables down to the pmd, then the page of ptes. *)
Lemma alloc_new_ok k t1 m :
  moved k t1 ->
  exists ok t2 m2, alloc_new_pmd (n + k) t1 m = (ok, t2, m2) /\ moved k t2 /\ frames m2 = frames m /\
  (Forall (eq true) (pg_tables m) -> ok = true /\ Forall (eq true) (pg_tables m2)) /\
  exists ok' t3 m3, alloc_path true (n + k) t2 m2 = (ok', t3, m3) /\ moved k t3 /\ frames m3 = frames m /\
  (ok' = true -> is_Some (pte_page t3 (lego_pmd_ptr (n + k)))) /\
  (Forall (eq true) (pg_tables m2) -> ok' = true /\ Forall (eq true) (pg_tables m3)).
Proof using All.
  intros Hm. unfold alloc_new_pmd.
  destruct (alloc_path_ok false (n + k) t1 m (mv_ok _ _ Hm)) as (ok1 & t2 & m2 & E1 & Hx2 & _). rewrite E1.
  pose proof (moved_extended k t1 m t2 m2 Hm Hx2) as Hm2. exists ok1, t2, m2. split_and!; [done|done|apply Hx2| |].
  { intros Hall. destruct (alloc_path_true false (n + k) t1 m Hall) as (? & ? & E & Hall2). rewrite E1 in E. by injection E as -> <- <-. }
  destruct (alloc_path_ok true (n + k) t2 m2 (mv_ok _ _ Hm2)) as (ok3 & t3 & m3 & E3 & Hx3 & Hp3).
  exists ok3, t3, m3. split_and!; [done|by eapply moved_extended|by apply (extended_trans _ _ _ _ _ _ Hx2 Hx3)| |].
  { intros ->. by apply Hp3. }
  intros Hall. destruct (alloc_path_true true (n + k) t2 m2 Hall) as (? & ? & E & Hall2). rewrite E3 in E. by injection E as -> <- <-.
Qed.

Lemma move_loop_ok fuel : forall k t1 m,
  0 <= k <= len -> page_aligned k -> len - k <= Z.of_nat fuel * PAGE_SIZE -> moved k t1 ->
  exists k' t' m', move_loop fuel (o + k) (n + k) (o + len) t1 m = Some (t', m', o + k') /\ move_result m k' t' m'.
Proof using All.
  induction fuel as [|fuel IH]; intros k t1 m Hk Hka Hf Hm.
  { assert (k = len) as -> by lia. exists len, t1, m. cbn [move_loop]. rewrite Z.ltb_irrefl. split; [done|]. by split. }
  cbn [move_loop]. destruct (Z.ltb_spec (o + k) (o + len)) as [Hlt|Hge].
  2:{ assert (k = len) as -> by lia. exists len, t1, m. split; [done|]. by split. }
  assert (Hoa : page_aligned (o + k)) by (by apply aligned_add). assert (Hoe : page_aligned (o + len)) by (by apply aligned_add).
  rewrite old_extent by lia. destruct (extent_bounds (o + k) (o + len) Hoa Hoe ltac:(lia) ltac:(lia)) as (Xa & X0 & Xe & Xp).
  set (x := Z.min _ (o + len - _)) in *. clearbody x. unfold get_old_pmd.
  assert (Hw : forall y, 0 <= y < ULONG_MOD -> wrap y = y) by (intros y Hy; by apply wrap_small).
  assert (Hlim : ADDR_LIMIT < ULONG_MOD) by done.
  destruct (pte_page t1 (lego_pmd_ptr (o + k))) as [u|] eqn:Eu.
  2:{ rewrite (Hw (o + k + x)), (Hw (n + k + x)) by lia. rewrite <- !Z.add_assoc. pose proof (a_page x Xa X0).
      destruct (IH (k + x) t1 m) as (k' & t' & m' & -> & Hres); [lia|by apply aligned_add|lia|apply skip_ok; (done || lia)|].
      by exists k', t', m'. }
  destruct (alloc_new_ok k t1 m Hm) as (ok & t2 & m2 & -> & Hm2 & Hf2 & Hall2 & ok3 & t3 & m3 & E3 & Hm3 & Hf3 & Hp3 & Hall3).
  destruct ok; cbn [negb].
  2:{ exists k, t2, m2. split; [done|]. split; try done. intros Hall. by destruct (Hall2 Hall). }
  rewrite E3. destruct ok3; cbn [negb].
  2:{ exists k, t3, m3. split; [done|]. split; try done. intros Hall. by destruct (Hall3 (proj2 (Hall2 Hall))). }
  rewrite (to_boundary (n + k)), !min_if by lia.
  destruct (new_extent_bounds k x Hka ltac:(lia) ltac:(lia) Xa X0) as (Ya & [Y0 Yx] & Yn).
  set (y := Z.min _ LATENCY_LIMIT) in *. clearbody y. rewrite (Hw (o + k + y)), (Hw (n + k + y)) by lia.
  destruct (move_block_ok k y t3) as (t4 & -> & Hm4); try done; try lia; [by apply Hp3|].
  cbn [mbind option_bind]. rewrite <- !Z.add_assoc. pose proof (a_page y Ya Y0).
  destruct (IH (k + y) t4 m3) as (k' & t' & m' & -> & Hres); [lia|by apply aligned_add|lia|done|].
  exists k', t', m'. split; [done|]. destruct Hres as [R1 R2 R3 R4 R5]. split; [done|done|done|congruence|].
  intros Hall. by apply R5, Hall3, Hall2.
Qed.

(** Moving [len] bytes of page table: the number of bytes moved is returned, and the ptes
    of these are at the new place. *)
Lemma move_page_tables_ok m :
  tbl_ok t -> 0 <= len ->
  exists k t' m', lego_move_page_tables o n len t m = Some (t', m', k) /\ move_result m k t' m'.
Proof using All.
  intros Ht Hl. unfold lego_move_page_tables. assert (Hlim : ADDR_LIMIT < ULONG_MOD) by done.
  rewrite (wrap_small (o + len)) by (unfold is_u64; lia).
  destruct (move_loop_ok (Z.to_nat (len / PAGE_SIZE)) 0 t m) as (k & t' & m' & E & Hr); [lia|done| | |].
  - unfold page_aligned in Hlen. rewrite PAGE_SIZE_eq in *. pose proof (Z.div_mod len 4096). lia.
  - split; [done| |done]. intros y Hy. rewrite !in_range_bool, !bool_decide_eq_false_2 by lia. done.
  - rewrite !Z.add_0_r in E. rewrite E. cbn [mbind option_bind]. exists k, t', m'. split; [|done].
    pose proof (mr_k _ _ _ _ Hr). unfold wrap. rewrite Zplus_mod_idemp_r.
    replace (len + (o + k - (o + len))) with k by lia. by rewrite Z.mod_small by lia.
Qed.
End move.

(** ** Entries and counts *)

Lemma look_cnt_table {T : Type} `{LevelLaws T} :
  (forall (x : T) a, look x a <> 0 -> 1 <= cnt (lego_pte_to_virt (look x a)) x) ->
  forall (t : gmap Z T) a, look t a <> 0 -> 1 <= cnt (lego_pte_to_virt (look t a)) t.
Proof.
  intros Hx t a. rewrite look_table. destruct (t !! index T a) as [x|] eqn:E; [|done]. intros Hne.
  pose proof (Hx x a Hne). pose proof (cnt_lookup (lego_pte_to_virt (look x a)) t _ x E). lia.
Qed.

(** A page that is mapped is counted. *)
Lemma look_cnt (t : pgd_table) a : look t a <> 0 -> 1 <= cnt (lego_pte_to_virt (look t a)) t.
Proof. revert t a. do 4 apply look_cnt_table. intros x a _. rewrite look_pte, cnt_pte. by rewrite decide_True. Qed.

Lemma sum_positive {T : Type} (c : T -> Z) (t : gmap Z T) : 1 <= sum c t -> exists i x, t !! i = Some x /\ 1 <= c x.
Proof.
  induction t as [|i x t Hi IH] using map_ind; [done|]. rewrite sum_insert_new by done. intros Hs.
  destruct (decide (1 <= c x)); [exists i, x; by rewrite lookup_insert_eq|]. destruct IH as (j & y & Hj & Hy); [lia|].
  exists j, y. by rewrite lookup_insert_ne by congruence.
Qed.

Lemma cnt_look_table {T : Type} `{LevelLaws T} f :
  (forall x : T, tbl_ok x -> 1 <= cnt f x -> exists a, 0 <= a < span T /\ look x a <> 0 /\ lego_pte_to_virt (look x a) = f) ->
  forall t : gmap Z T, tbl_ok t -> 1 <= cnt f t ->
  exists a, 0 <= a < span (gmap Z T) /\ look t a <> 0 /\ lego_pte_to_virt (look t a) = f.
Proof.
  intros Hx t Ht (i & x & Hi & Hc)%sum_positive. destruct (tbl_lookup t i x Ht Hi) as [Hr Hxo]. destruct (Hx x Hxo Hc) as (a & Ha & Hl).
  exists (i * span T + a). split; [pose proof (span_pos (T := T)); change (span (gmap Z T)) with (PTRS_PER_TABLE * span T); nia|].
  assert (look t (i * span T + a) = look x a) as ->; [|done]. rewrite look_table, index_at, Hi by done.
  rewrite look_mod, Z.add_comm, Z_mod_plus_full. by rewrite <- look_mod.
Qed.

(** A page that is counted is mapped. *)
Lemma cnt_look (t : pgd_table) f : tbl_ok t -> 1 <= cnt f t -> exists a, 0 <= a < ADDR_LIMIT /\ look t a <> 0 /\ lego_pte_to_virt (look t a) = f.
Proof.
  revert t. change ADDR_LIMIT with (span pgd_table). do 4 (apply (cnt_look_table f)). intros x Hx Hc. rewrite cnt_pte in Hc. destruct (decide _) as [E|]; [|done]. exists 0.
  split; [done|]. rewrite look_pte. split; [by intros ->|done].
Qed.

(** A page mapped twice is counted twice. *)
Lemma look_cnt_two (t : pgd_table) a b :
  tbl_ok t -> 0 <= a < ADDR_LIMIT -> 0 <= b < ADDR_LIMIT -> a / PAGE_SIZE <> b / PAGE_SIZE ->
  look t a <> 0 -> look t b <> 0 -> lego_pte_to_virt (look t a) = lego_pte_to_virt (look t b) ->
  2 <= cnt (lego_pte_to_virt (look t a)) t.
Proof.
  intros Ht Ha Hb Hne Hla Hlb E. assert (Hu : exists u, pte_page t (lego_pmd_ptr a) = Some u).
  { rewrite <- pte_at_look in Hla. unfold pte_at, get_pte in Hla. destruct (pte_page t _) as [u|]; [by exists u|done]. }
  destruct Hu as [u Hu]. destruct (clear_entry_ok t a u Ht Ha Hu Hla) as (_ & Hc & Hl). cbn zeta in *.
  set (t' := upd_page _ _ t) in *. pose proof (Hl b Hb) as Elb. rewrite decide_False in Elb by congruence.
  pose proof (look_cnt t' b ltac:(by rewrite Elb)) as H1. rewrite Elb, <- E, Hc, cnt_pte, decide_True in H1 by done. lia.
Qed.
