(* ===== verification/PgtSpace.v ===== *)
(** * Memory manager: areas and page tables together

    The page-table calls that the operations on areas make (the log of VmaModel.v), run
    by the page-table layer.  The invariants that tie the two: every entry lies in an
    area, and every table page has an area among the addresses that it covers. *)

From stdpp Require Import gmap.
From S2P Require Import Prelude RbTree VmaModel VmaTree VmaInv VmaAdjust VmaSpec VmaUnmap VmaLife.
From S2P Require Import PgtModel PgtTables PgtRange PgtCopy PgtMove.

(** ** Running the calls of an unmapping *)

Definition run_call (c : pgt_call) (t : pgd_table) (m : pages) : option (pgd_table * pages) :=
  match c with
  | Unmap_page_range start last => lego_unmap_page_range start last t m
  | Free_pgtables areas floor ceiling => t ← lego_free_pgtables areas floor ceiling t; Some (t, m)
  | _ => None
  end.

Fixpoint run_calls (l : list pgt_call) (t : pgd_table) (m : pages) : option (pgd_table * pages) :=
  match l with
  | [] => Some (t, m)
  | c :: l => '(t, m) ← run_call c t m; run_calls l t m
  end.

Definition in_ranges (l : list (Z * Z)) (x : Z) : bool := existsb (fun r => in_range r.1 r.2 x) l.

Lemma in_ranges_spec l x : in_ranges l x = true <-> exists s e, (s, e) ∈ l /\ s <= x < e.
Proof.
  unfold in_ranges. rewrite existsb_exists. split.
  - intros ([s e] & Hin & Hr%in_range_spec). exists s, e. by rewrite list_elem_of_In.
  - intros (s & e & Hin & Hr). exists (s, e). by rewrite <- list_elem_of_In, in_range_spec.
Qed.

Lemma keeps_refl m : keeps m m.
Proof. by split. Qed.
Lemma keeps_trans m1 m2 m3 : keeps m1 m2 -> keeps m2 m3 -> keeps m1 m3.
Proof. intros [D1 T1] [D2 T2]. split; [auto|congruence]. Qed.

Lemma run_calls_app l l' t m : run_calls (l ++ l') t m = '(t, m) ← run_calls l t m; run_calls l' t m.
Proof.
  revert t m. induction l as [|c l IH]; intros t m; [done|]. simpl. destruct (run_call c t m) as [[t1 m1]|]; [|done]. apply IH.
Qed.

(** The entries at [gone] are cleared, and their pages released. *)
Record released (o : Z -> Z) (gone : Z -> bool) (t : pgd_table) (m : pages) (t' : pgd_table) (m' : pages) : Prop := {
  rl_ok : tbl_ok t';
  rl_balanced : balanced o t' m';
  rl_keeps : keeps m m';
  rl_look : forall a, 0 <= a < ADDR_LIMIT -> look t' a = if gone a then 0 else look t a;
  rl_path : forall a, (path t' a <= path t a)%nat
}.

Lemma unmap_ranges_ok o l : forall lo t m,
  areas_between lo TASK_SIZE l -> 0 <= lo -> tbl_ok t -> balanced o t m ->
  exists t' m', run_calls (unmap_ranges l) t m = Some (t', m') /\ released o (in_ranges l) t m t' m'.
Proof.
  induction l as [|[s e] l IH]; intros lo t m Hl Hlo Ht Hb.
  { exists t, m. split; [done|]. by split. }
  destruct Hl as (H1 & H2 & H3 & H4 & H5 & H6). simpl. assert (TASK_SIZE < ADDR_LIMIT) by done.
  destruct (unmap_page_range_ok o s e t m) as (t1 & m1 & -> & [Hok Hlk Hb1 Hk Hp]); [|done|done|].
  { split; try done; try lia. rewrite !pgd_span_div; lia. }
  cbn [mbind option_bind]. destruct (IH e t1 m1) as (t2 & m2 & -> & [Hok2 Hb2 Hk2 Hlk2 Hp2]); [done|lia|done|done|].
  exists t2, m2. split; [done|]. split; [done|done|by eapply keeps_trans| |intros a; specialize (Hp a); specialize (Hp2 a); lia]. intros a Ha. rewrite Hlk2 by done.
  rewrite Hlk by (rewrite !pgd_span_div; lia). change (in_ranges ((s, e) :: l) a) with (in_range s e a || in_ranges l a).
  by destruct (in_range s e a), (in_ranges l a).
Qed.

(** Every entry lies in an area. *)
Definition covered (mm : lego_mm) (t : pgd_table) : Prop :=
  forall a, 0 <= a < ADDR_LIMIT -> look t a <> 0 -> page_at mm a <> None.

(** Every table page has an area among the addresses that it covers; the tables of level
    1, 2 and 3 cover 512 GB, 1 GB and 2 MB. *)
Definition tables_used (mm : lego_mm) (t : pgd_table) : Prop :=
  forall a l, 0 <= a < ADDR_LIMIT -> (1 <= l <= 3)%nat -> (l <= path t a)%nat ->
  exists b, b / width pgd_table l = a / width pgd_table l /\ page_at mm b <> None.

(** The addresses of a table *)
Lemma same_block w a b : 0 < w -> a / w * w <= b < a / w * w + w -> b / w = a / w.
Proof. intros Hw Hb. symmetry. apply (Z.div_unique b w _ (b - a / w * w)); lia. Qed.

Lemma block_bounds w a : 0 < w -> a / w * w <= a < a / w * w + w.
Proof. intros Hw. pose proof (Z.div_mod a w). pose proof (Z.mod_pos_bound a w). lia. Qed.

Lemma block_limit l a : (1 <= l <= 3)%nat -> 0 <= a < ADDR_LIMIT ->
  let w := width pgd_table l in 0 < w /\ 0 <= a / w * w /\ a / w * w + w <= ADDR_LIMIT.
Proof.
  intros Hl Ha w. destruct (width_divides (T := pgd_table) l) as [Hw [q Hq]]. fold w in Hw, Hq. change (span pgd_table) with ADDR_LIMIT in Hq.
  assert (0 <= a / w < q) by (split; [apply Z.div_pos; lia|apply Z.div_lt_upper_bound; lia]). split_and!; [done|nia|]. rewrite Hq. nia.
Qed.

Lemma areas_between_weaken lo top lo' top' l : lo' <= lo -> top <= top' -> areas_between lo top l -> areas_between lo' top' l.
Proof.
  revert lo lo'. induction l as [|[s e] l IH]; intros lo lo' Hlo Htop Hl; [done|]. destruct Hl as (H1 & H2 & H3 & H4 & H5 & H6).
  simpl. split_and!; try done; try lia. eapply IH; [..|exact H6]; lia.
Qed.

Section unmap.
Context (k : Z) (o : Z -> Z) (mm mm' : lego_mm) (start last : Z) (t : pgd_table) (m : pages).
Context (Hum : unmapped k start last mm mm') (Hr : 0 <= start /\ last <= TASK_SIZE) (Hc : covered mm t) (Ht : tbl_ok t) (Hb : balanced o t m).

(** The range cleared *)
Definition cleared (t' : pgd_table) : Prop :=
  forall a, 0 <= a < ADDR_LIMIT -> look t' a = if in_range start last a then 0 else look t a.

Lemma cleared_covered t' : cleared t' -> covered mm' t'.
Proof using Hum Hc.
  intros Hlk a Ha Hne. rewrite Hlk in Hne by done. rewrite (um_pages _ _ _ _ _ Hum). fold (in_range start last a).
  destruct (in_range start last a); [done|by apply Hc].
Qed.

(** Clearing the areas of the calls clears the range. *)
Lemma areas_cleared calls l t' :
  calls_ok mm mm' start last calls -> (forall s e, Unmap_page_range s e ∈ calls <-> (s, e) ∈ l) ->
  (forall a, 0 <= a < ADDR_LIMIT -> look t' a = if in_ranges l a then 0 else look t a) -> cleared t'.
Proof using Hc.
  intros [Hin Hcomp _ _] Hl Hlk a Ha. rewrite Hlk by done. destruct (in_ranges l a) eqn:Ea.
  - apply in_ranges_spec in Ea as (s & e & Hse%Hl & Hse'). destruct (Hin s e Hse) as [? ?].
    by rewrite (proj2 (in_range_spec _ _ _)) by lia.
  - destruct (in_range start last a) eqn:Er; [|done]. destruct (decide (look t a = 0)) as [|Hne]; [done|]. exfalso.
    destruct (page_at mm a) as [g|] eqn:Eg; [|by destruct (Hc a Ha Hne)]. apply in_range_spec in Er.
    destruct (Hcomp a g Er Eg) as (s & e & Hx%Hl & Hx'). apply not_true_iff_false in Ea. apply Ea, in_ranges_spec. eauto.
Qed.

Lemma calls_areas l fl ce s e : Unmap_page_range s e ∈ unmap_ranges l ++ [Free_pgtables l fl ce] <-> (s, e) ∈ l.
Proof using.
  rewrite elem_of_app, list_elem_of_singleton. unfold unmap_ranges. rewrite list_elem_of_fmap. split.
  - intros [([s' e'] & E & Hx)|E]; [by injection E as -> ->|discriminate E].
  - intros Hx. left. by exists (s, e).
Qed.

Lemma page_kept b : page_at mm b <> None -> in_range start last b = false -> page_at mm' b <> None.
Proof using Hum. intros Hpb Hn. rewrite (um_pages _ _ _ _ _ Hum). fold (in_range start last b). by rewrite Hn. Qed.

(** A table that is left covers an area that is left: one of its own, or the neighbour
    of the range. *)
Lemma unmapped_used l fl ce t' :
  0 <= fl -> 0 <= ce <= TASK_SIZE -> calls_ok mm mm' start last (unmap_ranges l ++ [Free_pgtables l fl ce]) ->
  areas_gone fl (top_of ce) l t t' -> tables_used mm t -> tables_used mm' t'.
Proof using Hum Hr.
  intros Hfl0 Hce0 Hok [Hp Hg] Hu a n Ha Hn Hpa. destruct (Hu a n Ha Hn) as (b & Eb & Hpb); [specialize (Hp a); lia|].
  destruct (in_range start last b) eqn:Er; [|exists b; by split; [|apply page_kept]]. apply in_range_spec in Er.
  destruct (block_limit n a Hn Ha) as (Hw & HB & Hlim). set (w := width pgd_table n) in *. pose proof (block_bounds w b Hw) as Hbb. rewrite Eb in Hbb.
  destruct (co_tables _ _ _ _ _ Hok l fl ce) as (Hf1 & Hc1 & _ & Hf2 & Hc2); [apply elem_of_app; right; by left|].
  destruct (page_at mm b) as [g|] eqn:Eg; [|done]. destruct (co_complete _ _ _ _ _ Hok b g Er Eg) as (s & e & Hin%calls_areas & Hse).
  destruct (Z.lt_ge_cases (a / w * w) fl) as [Hlo|Hlo].
  { exists (fl - 1). split; [apply same_block; lia|]. destruct Hf2; [lia|done]. }
  destruct (Z.lt_ge_cases (top_of ce) (a / w * w + w)) as [Hhi|Hhi].
  { unfold top_of in Hhi. destruct (Z.eqb_spec ce 0) as [|Hne]; [lia|]. exists ce. split; [apply same_block; lia|]. by destruct Hc2. }
  exfalso. assert ((path t' a < n)%nat); [|lia]. apply (Hg s e); [done|done|done|]. unfold unneeded. fold w. lia.
Qed.

(** An unmapping takes the entries of its range, and leaves the tables covered and no
    table that nothing uses. *)
Lemma unmapped_released :
  exists calls t' m', pgt_log mm' = pgt_log mm ++ calls /\ run_calls calls t m = Some (t', m') /\
    released o (in_range start last) t m t' m' /\ covered mm' t' /\ (tables_used mm t -> tables_used mm' t').
Proof using All.
  destruct (um_log _ _ _ _ _ Hum) as (calls & Hlog & Hok). exists calls. destruct (co_shape _ _ _ _ _ Hok) as [->|(l & fl & ce & -> & Hl & Hfl & Hce)].
  { assert (Hcl : cleared t) by (apply (areas_cleared [] []); [done|by setoid_rewrite elem_of_nil|done]).
    exists t, m. split_and!; try done; [by apply cleared_covered|]. intros Hu a n Ha Hn Hpa. destruct (Hu a n Ha Hn Hpa) as (b & Eb & Hpb).
    exists b. split; [done|]. apply page_kept; [done|]. apply not_true_iff_false. intros Er%in_range_spec.
    destruct (page_at mm b) as [g|] eqn:Eg; [|done]. destruct (co_complete _ _ _ _ _ Hok b g Er Eg) as (s & e & Hin & _). by apply elem_of_nil in Hin. }
  destruct (unmap_ranges_ok o l start t m) as (t1 & m1 & E1 & [Hok1 Hb1 Hk1 Hlk1 Hp1]); [eapply areas_between_weaken; [..|exact Hl]; lia|lia|done|done|].
  assert (Hcl : cleared t1) by (eapply (areas_cleared (unmap_ranges l ++ [Free_pgtables l fl ce]) l); [done|intros; apply calls_areas|done]).
  destruct (co_tables _ _ _ _ _ Hok l fl ce) as (Hf1 & Hc1 & Hno & _); [apply elem_of_app; right; by left|].
  assert (TASK_SIZE < ADDR_LIMIT) by done.
  destruct (free_pgtables_ok fl ce l start t1) as (t2 & E2 & [Hok2 Hlk2 Hcnt2] & [Hp2 Hg2]); [done|lia|lia| | |].
  { eapply areas_between_weaken; [..|exact Hl]; [lia|]. unfold top_of. destruct (Z.eqb_spec ce 0); lia. }
  { intros a Ha Har. assert (a < ADDR_LIMIT) by (unfold top_of in Har; destruct (Z.eqb_spec ce 0); lia).
    destruct (decide (look t1 a = 0)) as [|Hne]; [done|]. destruct (cleared_covered t1 Hcl a ltac:(lia) Hne). apply Hno; [lia|].
    unfold top_of in Har. destruct (Z.eqb_spec ce 0); [by left|right; lia]. }
  exists t2, m1. rewrite run_calls_app, E1. cbn [mbind option_bind run_calls run_call]. rewrite E2. cbn [mbind option_bind].
  assert (Hcl2 : cleared t2) by (intros a Ha; rewrite Hlk2 by done; auto).
  assert (Hp12 : forall a, (path t2 a <= path t a)%nat) by (intros a; specialize (Hp1 a); specialize (Hp2 a); lia).
  split_and!; try done; [|by apply cleared_covered|by apply (unmapped_used l fl ce)].
  split; try done. split; [apply Hb1| |apply Hb1]. intros f. rewrite Hcnt2. apply Hb1.
Qed.
End unmap.

(** ** The end of an address space *)

(** The ranges of the areas, in order *)
Lemma areas_ranges k mm : wf k mm -> areas_between 0 TASK_SIZE (ranges (deref mm) (mmap mm)).
Proof.
  intros Hw. eapply ranges_between; [apply (wf_sorted _ _ Hw)|]. intros p Hp. pose proof (wf_bounds _ _ p Hw Hp).
  split_and!; [by apply (wf_area _ _ Hw)|lia|lia].
Qed.

Lemma page_at_ranges mm a : page_at mm a <> None -> in_ranges (ranges (deref mm) (mmap mm)) a = true.
Proof.
  intros Hp. destruct (page_at mm a) as [g|] eqn:Eg; [|done]. apply pages_Some in Eg as (p & Hin & Hr & _). apply in_ranges_spec.
  exists (vm_start (deref mm p)), (vm_end (deref mm p)). split; [|done]. apply list_elem_of_fmap. by exists p.
Qed.

Lemma nothing_mapped (t : pgd_table) f : tbl_ok t -> (forall a, 0 <= a < ADDR_LIMIT -> look t a = 0) -> cnt f t = 0.
Proof.
  intros Ht Hz. apply cnt_zero; [done|]. intros a Ha. rewrite look_mod. apply Hz. by apply Z.mod_pos_bound.
Qed.

Lemma no_tables (t : pgd_table) : tbl_ok t -> (forall a, 0 <= a < ADDR_LIMIT -> path t a = O) -> t = ∅.
Proof.
  intros Ht Hp. apply map_eq. intros i. rewrite lookup_empty. destruct (t !! i) as [x|] eqn:E; [|done]. exfalso.
  destruct (tbl_lookup t i x Ht E) as [Hi _]. assert (Ei : index pud_table (i * span pud_table + 0) = i) by (apply index_at; done).
  specialize (Hp (i * span pud_table + 0)). rewrite path_table, Ei, E in Hp. change (span pud_table) with (2 ^ 39) in Hp.
  unfold PTRS_PER_TABLE, ADDR_LIMIT in *. discriminate Hp. lia.
Qed.

Lemma exit_released k o mm t m :
  wf k mm -> covered mm t -> tbl_ok t -> balanced o t m ->
  exists calls t' m', pgt_log (exit_lego_mmap mm) = pgt_log mm ++ calls /\ run_calls calls t m = Some (t', m') /\
    keeps m m' /\ (forall a, 0 <= a < ADDR_LIMIT -> look t' a = 0) /\ (forall f, rc m' f = o f) /\ (tables_used mm t -> t' = ∅).
Proof.
  intros Hw Hc Ht Hb. destruct (exit_ok k mm Hw) as (_ & _ & Hlog). rewrite unmap_calls_ranges in Hlog. set (l := ranges (deref mm) (mmap mm)) in *.
  pose proof (areas_ranges k mm Hw) as Hl. fold l in Hl. destruct (unmap_ranges_ok o l 0 t m Hl ltac:(lia) Ht Hb) as (t1 & m1 & E1 & [Hok1 Hb1 Hk1 Hlk1 Hp1]).
  assert (Hz : forall a, 0 <= a < ADDR_LIMIT -> look t1 a = 0).
  { intros a Ha. rewrite Hlk1 by done. destruct (in_ranges l a) eqn:Ea; [done|]. destruct (decide (look t a = 0)) as [|Hne]; [done|].
    pose proof (page_at_ranges mm a (Hc a Ha Hne)). unfold l in Ea. congruence. }
  assert (Hfin : forall t' : pgd_table, tbl_ok t' -> (forall a, 0 <= a < ADDR_LIMIT -> look t' a = look t1 a) -> (forall f, cnt f t' = cnt f t1) ->
    (tables_used mm t -> forall a, 0 <= a < ADDR_LIMIT -> path t' a = O) ->
    keeps m m1 /\ (forall a, 0 <= a < ADDR_LIMIT -> look t' a = 0) /\ (forall f, rc m1 f = o f) /\ (tables_used mm t -> t' = ∅)).
  { intros t' Hok' Hl' Hc' Hu'. split_and!; [done|intros a Ha; rewrite Hl'; auto| |intros Hu; apply no_tables; auto].
    intros f. rewrite (bl_rc _ _ _ Hb1), (nothing_mapped t1) by done. lia. }
  destruct (mmap mm) as [|p ps] eqn:Em.
  - eexists _, t1, m1. split; [exact Hlog|]. split; [by rewrite run_calls_app, E1|]. apply Hfin; [done..|]. intros Hu a Ha.
    destruct (path t1 a) eqn:Ep; [done|]. destruct (Hu a 1%nat Ha) as (b & _ & Hpb); [lia|specialize (Hp1 a); lia|]. unfold page_at in Hpb. by rewrite Em in Hpb.
  - destruct (free_pgtables_ok FIRST_USER_ADDRESS USER_PGTABLES_CEILING l 0 t1 Hok1) as (t2 & E2 & [Hok2 Hlk2 Hcnt2] & [Hp2 Hg2]); [done|done| | |].
    { eapply areas_between_weaken; [..|exact Hl]; [done|]. unfold top_of. simpl. assert (TASK_SIZE < ADDR_LIMIT) by done. lia. }
    { intros a Ha Har. apply Hz. unfold top_of in Har. simpl in Har. lia. }
    eexists _, t2, m1. split; [exact Hlog|]. split; [|apply Hfin; try done].
    { rewrite run_calls_app, E1. cbn [mbind option_bind run_calls run_call]. fold l. rewrite E2. done. }
    intros Hu a Ha. destruct (path t2 a) eqn:Ep; [done|]. destruct (Hu a 1%nat Ha) as (b & Eb & Hpb); [lia|specialize (Hp1 a); specialize (Hp2 a); lia|].
    apply page_at_ranges in Hpb. rewrite Em in Hpb. fold l in Hpb. apply in_ranges_spec in Hpb as (s & e & Hin & Hse).
    destruct (block_limit 1 a ltac:(lia) Ha) as (Hw1 & HB & Hlim). set (w := width pgd_table 1) in *. pose proof (block_bounds w b Hw1) as Hbb. rewrite Eb in Hbb.
    assert ((path t2 a < 1)%nat); [|lia]. apply (Hg2 s e); [done|done|lia|]. unfold unneeded, top_of. simpl. fold w. change FIRST_USER_ADDRESS with 0. lia.
Qed.

(** ** Fork

    The calls of [dup_lego_mmap], one for each area, until one fails *)

Fixpoint copy_areas (l : list vm_area) (d t : pgd_table) (m : pages) : option (pgd_table * pgd_table * pages * Z) :=
  match l with
  | [] => Some (d, t, m, 0)
  | v :: l =>
      '(d, t, m, ret) ← lego_copy_page_range v d t m;
      if ret =? 0 then copy_areas l d t m else Some (d, t, m, ret)
  end.

(** Areas one above the other *)
Fixpoint stacked (lo : Z) (l : list vm_area) : Prop :=
  match l with
  | [] => True
  | v :: l => lo <= vm_start v /\ vm_start v < vm_end v /\ vm_end v <= TASK_SIZE /\
      page_aligned (vm_start v) /\ page_aligned (vm_end v) /\ stacked (vm_end v) l
  end.

Lemma stacked_wf k mm : wf k mm -> stacked 0 (deref mm <$> mmap mm).
Proof.
  intros Hw. pose proof (areas_ranges k mm Hw) as Hl. revert Hl. generalize 0. induction (mmap mm) as [|p l IH]; intros lo; [done|].
  simpl. intros (H1 & H2 & H3 & H4 & H5 & H6). split_and!; auto.
Qed.

(** The area of an address *)
Definition area_at (l : list vm_area) (a : Z) : option vm_area :=
  List.find (fun v => in_range (vm_start v) (vm_end v) a) l.

Lemma area_at_above lo l a : stacked lo l -> a < lo -> area_at l a = None.
Proof.
  revert lo. induction l as [|v l IH]; intros lo Hl Ha; [done|]. destruct Hl as (H1 & H2 & _ & _ & _ & Hl). simpl.
  destruct (in_range _ _ a) eqn:E; [apply in_range_spec in E; lia|]. eapply IH; [done|]. lia.
Qed.

(** The child's entries, and the parent's *)
Record forked (o : Z -> Z) (l : list vm_area) (d t : pgd_table) (m : pages) (d' t' : pgd_table) (m' : pages) : Prop := {
  fk_dst : tbl_ok d';
  fk_src : tbl_ok t';
  fk_child : forall a, 0 <= a < ADDR_LIMIT -> look d' a = match area_at l a with Some v => child_pte (vm_flags v) (look t a) | None => look d a end;
  fk_parent : forall a, 0 <= a < ADDR_LIMIT -> look t' a = match area_at l a with Some v => parent_pte (vm_flags v) (look t a) | None => look t a end;
  fk_balanced : balanced2 o d' t' m';
  fk_data : same_data m m'
}.

Lemma copy_areas_ok o l : forall lo d t m,
  stacked lo l -> 0 <= lo -> tbl_ok d -> tbl_ok t -> balanced2 o d t m ->
  (forall a, lo <= a < ADDR_LIMIT -> look d a = 0) ->
  exists d' t' m' ret, copy_areas l d t m = Some (d', t', m', ret) /\ balanced2 o d' t' m' /\ tbl_ok d' /\ tbl_ok t' /\ same_data m m' /\
    (Forall (eq true) (pg_tables m) -> Forall (eq true) (pg_tables m')) /\
    (ret = 0 /\ forked o l d t m d' t' m' \/ ret = - ENOMEM /\ ~ Forall (eq true) (pg_tables m)).
Proof.
  induction l as [|v l IH]; intros lo d t m Hl Hlo Hd Ht Hb Hz.
  { exists d, t, m, 0. split; [done|]. split_and!; try done. left. split; [done|]. by split. }
  destruct Hl as (H1 & H2 & H3 & H4 & H5 & Hl). assert (TASK_SIZE < ADDR_LIMIT) by done.
  destruct (copy_page_range_ok v o (vm_start v) (vm_end v) d t m) as (d1 & t1 & m1 & ret & E & Hres); [|done|done| |done|].
  { split; try done; try lia. rewrite !pgd_span_div; lia. }
  { intros a _ Ha%in_range_spec. apply Hz. lia. }
  cbn [copy_areas]. unfold lego_copy_page_range. rewrite E. cbn [mbind option_bind].
  destruct Hres as [[-> [Hd1 Ht1 Hc1 Hp1 Hb1 Hs1 Htb1]]|(-> & Hna & b & _ & _ & [Hd1 Ht1 _ _ Hb1 Hs1 Htb1])].
  2:{ exists d1, t1, m1, (- ENOMEM). split; [done|]. split_and!; try done. by right. }
  change (0 =? 0) with true. cbv iota.
  assert (Hc1' : forall a, 0 <= a < ADDR_LIMIT -> look d1 a = if in_range (vm_start v) (vm_end v) a then child_pte (vm_flags v) (look t a) else look d a)
    by (intros a Ha; apply Hc1; rewrite !pgd_span_div; lia).
  assert (Hp1' : forall a, 0 <= a < ADDR_LIMIT -> look t1 a = if in_range (vm_start v) (vm_end v) a then parent_pte (vm_flags v) (look t a) else look t a)
    by (intros a Ha; apply Hp1; rewrite !pgd_span_div; lia).
  destruct (IH (vm_end v) d1 t1 m1 Hl ltac:(lia) Hd1 Ht1 Hb1) as (d2 & t2 & m2 & ret & -> & Hb2 & Hd2 & Ht2 & Hs2 & Htb2 & Hres).
  { intros a Ha. rewrite Hc1' by lia. destruct (in_range _ _ a) eqn:Er; [apply in_range_spec in Er; lia|]. apply Hz. lia. }
  assert (Hs : same_data m m2) by (intros f; by rewrite Hs2, Hs1).
  exists d2, t2, m2, ret. split; [done|]. split_and!; try done; [auto|]. destruct Hres as [[-> [_ _ Hc2 Hp2 _ _]]|[-> Hna]]; [left|right; auto]. split; [done|].
  split; try done; intros a Ha; cbn [area_at List.find].
  - rewrite Hc2, Hc1', Hp1' by done. destruct (in_range (vm_start v) (vm_end v) a) eqn:Er; [|done].
    apply in_range_spec in Er. by rewrite (area_at_above (vm_end v)) by (done || lia).
  - rewrite Hp2, Hp1' by done. destruct (in_range (vm_start v) (vm_end v) a) eqn:Er; [|done].
    apply in_range_spec in Er. by rewrite (area_at_above (vm_end v)) by (done || lia).
Qed.
