(* ===== verification/PgtTheorems.v ===== *)
(** * Memory manager, page tables: the theorems

    The properties of the page-table operations, each with an example that satisfies
    its hypotheses. *)

From stdpp Require Import gmap.
From S2P Require Import Prelude RbTree VmaModel VmaTree VmaInv VmaAdjust VmaSpec VmaUnmap VmaLife VmaTheorems.
From S2P Require Import PgtModel PgtTables PgtRange PgtCopy PgtMove PgtSpace.

(** ** A page table for the examples: one page, mapped at 0x1000 *)

Definition ex_page : Z := 2 ^ 63 + 20480.
Definition ex_pte : Z := Z.lor ex_page PAGE_SHARED.
Definition ex_pgt : pgd_table := {[0 := {[0 := {[0 := {[1 := ex_pte]}]}]}]}.
Definition ex_frames : pages := Pages {[ex_page := Frame 1 [42]]} [].

Lemma ex_pgt_ok : tbl_ok ex_pgt.
Proof. repeat (apply map_Forall_singleton; split; [done|]). reflexivity. Qed.

Lemma ex_pgt_cnt f : cnt f ex_pgt = if decide (ex_page = f) then 1 else 0.
Proof.
  unfold cnt, level_table, ex_pgt. do 4 (unfold sum at 1; rewrite map_fold_singleton, Z.add_0_r; unfold cnt, level_table). simpl.
  replace (lego_pte_to_virt ex_pte) with ex_page by reflexivity. done.
Qed.

Lemma ex_balanced : balanced (fun _ => 0) ex_pgt ex_frames.
Proof.
  split; [apply map_Forall_singleton; done| |done]. intros f. rewrite ex_pgt_cnt. unfold rc, ex_frames. simpl.
  destruct (decide (ex_page = f)) as [<-|Hne]; [by rewrite lookup_singleton_eq|by rewrite lookup_singleton_ne].
Qed.

Section Theorems.
Context `{KmallocFresh}.
Implicit Types (t d : pgd_table) (m : pages).

(** (C18) munmap releases the pages.  Whatever the outcome of [do_munmap], it returns; with
    result 0 its page-table calls run on any page table that lies within the areas: they
    clear exactly the entries of the range, drop one reference of the page of each, free
    a page with its last reference and change no contents, and leave a page table that
    lies within the areas that remain.  They free every table page that no area uses any
    more: if each table page had an area among the addresses that it covers, each that is
    left has one still. *)
Theorem munmap_releases_pages k o mm start len t m :
  wf k mm -> is_u64 start -> is_u64 len -> covered mm t -> tbl_ok t -> balanced o t m ->
  exists mm' ret, do_munmap start len mm = Some (mm', ret) /\
    (ret = 0 -> exists calls t' m', pgt_log mm' = pgt_log mm ++ calls /\ run_calls calls t m = Some (t', m') /\
       tbl_ok t' /\ balanced o t' m' /\ keeps m m' /\ covered mm' t' /\ (tables_used mm t -> tables_used mm' t') /\
       forall a, 0 <= a < ADDR_LIMIT -> pte_at t' a = if in_range start (start + PAGE_ALIGN len) a then 0 else pte_at t a).
Proof.
  intros Hw Hs Hl Hc Ht Hb. destruct (do_munmap_ok k mm start len Hw Hs Hl) as (mm' & ret & E & Hres). exists mm', ret. split; [done|].
  intros ->. destruct Hres as [[Hr _]|[Hv [[Hr _]|[_ Hu]]]]; [discriminate Hr|discriminate Hr|].
  destruct (unmapped_released k o mm mm' start (start + PAGE_ALIGN len) t m Hu) as (calls & t' & m' & Hlog & Hrun & [Hok Hb' Hk Hlk _] & Hc' & Hu'); try done.
  { split; [apply Hv|]. by apply PAGE_ALIGN_task. }
  exists calls, t', m'. split_and!; try done. intros a Ha. rewrite !pte_at_look. auto.
Qed.

(** (C30) Exit releases every page.  The page-table calls of [exit_lego_mmap] run on any page
    table that lies within the areas; afterwards no entry is left, and the references
    that remain are those of others: a page that only this process used is free.  If each
    table page had an area among the addresses that it covers, no table page is left. *)
Theorem exit_releases_pages k o mm t m :
  wf k mm -> covered mm t -> tbl_ok t -> balanced o t m ->
  exists calls t' m', pgt_log (exit_lego_mmap mm) = pgt_log mm ++ calls /\ run_calls calls t m = Some (t', m') /\
    keeps m m' /\ (forall a, 0 <= a < ADDR_LIMIT -> pte_at t' a = 0) /\ (forall f, rc m' f = o f) /\ (tables_used mm t -> t' = ∅).
Proof.
  intros Hw Hc Ht Hb. destruct (exit_released k o mm t m Hw Hc Ht Hb) as (calls & t' & m' & Hlog & Hrun & Hk & Hz & Hr & Hu).
  exists calls, t', m'. split_and!; try done. intros a Ha. rewrite pte_at_look. auto.
Qed.

(** (C31) The page tables of a fork.  Copying the areas of an address space one after the
    other gives the child the entries of the parent, of the same pages, each page counted
    once more and none changed; in a private writable area both are write-protected.
    It fails only with -ENOMEM, when a table could not be had. *)
Theorem fork_shares_pages k o mm t m :
  wf k mm -> tbl_ok t -> balanced o t m ->
  let areas := deref mm <$> mmap mm in
  exists d' t' m' ret, copy_areas areas ∅ t m = Some (d', t', m', ret) /\ tbl_ok d' /\ tbl_ok t' /\ balanced2 o d' t' m' /\ same_data m m' /\
    (ret = - ENOMEM /\ ~ Forall (eq true) (pg_tables m) \/
     ret = 0 /\ forall a, 0 <= a < ADDR_LIMIT ->
       match area_at areas a with
       | None => pte_at d' a = 0 /\ pte_at t' a = pte_at t a
       | Some v => pte_at d' a = child_pte (vm_flags v) (pte_at t a) /\ pte_at t' a = parent_pte (vm_flags v) (pte_at t a) /\
           lego_pte_to_virt (pte_at d' a) = lego_pte_to_virt (pte_at t a)
       end).
Proof.
  intros Hw Ht Hb areas. destruct (copy_areas_ok o areas 0 ∅ t m) as (d' & t' & m' & ret & E & Hb2 & Hd' & Ht' & Hsd & _ & Hres).
  - by apply (stacked_wf k).
  - done.
  - apply tbl_empty.
  - done.
  - destruct Hb as [Hf Hr Ho]. split; [done| |done]. intros f. rewrite cnt_empty, Hr. lia.
  - intros a _. by rewrite look_empty.
  - exists d', t', m', ret. split_and!; try done. destruct Hres as [[-> [_ _ Hc Hp _ _]]|Hbad]; [right|by left]. split; [done|].
    intros a Ha. rewrite !pte_at_look, (Hc a Ha), (Hp a Ha), look_empty. destruct (area_at areas a); [|done].
    split_and!; try done. apply child_virt.
Qed.

(** Moving page tables.  The entries of the first [k] bytes are moved to the new place
    and nothing else changes; the number [k] is returned, and is the whole length unless
    a table could not be had. *)
Theorem move_tables_correct old new len t m :
  page_aligned old -> page_aligned new -> page_aligned len -> 0 <= len ->
  0 <= old /\ old + len <= ADDR_LIMIT -> 0 <= new /\ new + len <= ADDR_LIMIT -> old + len <= new \/ new + len <= old ->
  (forall y, in_range new (new + len) y = true -> pte_at t y = 0) -> tbl_ok t ->
  exists k t' m', lego_move_page_tables old new len t m = Some (t', m', k) /\ 0 <= k <= len /\ tbl_ok t' /\
    (Forall (eq true) (pg_tables m) -> k = len) /\ frames m' = frames m /\ (forall f, cnt f t' = cnt f t) /\
    forall y, 0 <= y < ADDR_LIMIT -> pte_at t' y =
      if in_range new (new + k) y then pte_at t (y - new + old) else if in_range old (old + k) y then 0 else pte_at t y.
Proof.
  intros Ho Hn Hle Hpos Hor Hnr Hdis Hf Ht.
  destruct (move_page_tables_ok old new len t Ho Hn Hle Hor Hnr Hdis) with (m := m) as (k & t' & m' & E & [Hk _ [Hok Hlk Hcnt] Hfr Hall]); try done.
  { intros y Hy. rewrite <- pte_at_look. auto. }
  exists k, t', m'. split_and!; try done; try lia. intros y Hy. rewrite !pte_at_look. by apply Hlk.
Qed.
End Theorems.

(** ** Examples *)

(** The page of [ex_pgt] is in the first area of [ex_mm]. *)
Lemma ex_pgt_look a : 0 <= a < ADDR_LIMIT -> look ex_pgt a <> 0 -> 4096 <= a < 8192.
Proof.
  intros Ha Hl. destruct (decide (a / PAGE_SIZE = 4096 / PAGE_SIZE)) as [E|Hne].
  { rewrite PAGE_SIZE_eq in E. pose proof (Z.div_mod a 4096). pose proof (Z.mod_pos_bound a 4096). change (4096 / 4096) with 1 in E. lia. }
  exfalso. assert (look ex_pgt 4096 <> 0) by (vm_compute; discriminate).
  assert (Hv : lego_pte_to_virt (look ex_pgt a) = ex_page).
  { pose proof (look_cnt ex_pgt a Hl) as Hc. rewrite ex_pgt_cnt in Hc. destruct (decide _); [done|lia]. }
  pose proof (look_cnt_two ex_pgt a 4096 ex_pgt_ok Ha ltac:(done) Hne Hl ltac:(done)) as Hc. rewrite Hv, ex_pgt_cnt in Hc.
  destruct (decide _); specialize (Hc ltac:(reflexivity)); lia.
Qed.

Lemma ex_covered : covered ex_mm ex_pgt.
Proof.
  intros a Ha Hl. pose proof (ex_pgt_look a Ha Hl). unfold page_at. change (mmap ex_mm) with [1%positive; 2%positive]. cbn [VmaSpec.pages].
  change (deref ex_mm 1%positive) with anon_vma. rewrite (proj2 (covers_spec anon_vma a)) by (simpl; lia). done.
Qed.

(** Its tables cover the area at 0x1000. *)
Lemma path_first {T : Type} `{LevelLaws T} (x : T) a n :
  (n < path ({[0%Z := x]} : gmap Z T) a)%nat -> 0 <= a < span (gmap Z T) -> a < span T /\ (n <= path x a)%nat.
Proof.
  intros Hn Ha. rewrite path_table in Hn. destruct (decide (index T a = 0)) as [E|Hne]; [|rewrite lookup_singleton_ne in Hn by congruence; lia].
  rewrite E, lookup_singleton_eq in Hn. split; [|lia]. rewrite index_sub, (Z.div_small a (span (gmap Z T))) in E by done.
  pose proof (span_pos (T := T)). assert (E0 : a / span T = 0) by lia. apply Z.div_small_iff in E0; lia.
Qed.

Lemma ex_used : tables_used ex_mm ex_pgt.
Proof.
  intros a l Ha Hl Hp. exists 4096. split.
  - assert (Hw : a < width pgd_table l).
    { assert (P0 : (l - 1 < path ex_pgt a)%nat) by lia. apply path_first in P0 as [H1 P1]; [|exact Ha].
      destruct (decide (l = 1%nat)) as [->|]; [exact H1|]. pose proof (Nat.lt_le_trans (l - 2) (l - 1) _ ltac:(lia) P1) as Q1.
      apply path_first in Q1 as [H2 P2]; [|lia]. destruct (decide (l = 2%nat)) as [->|]; [exact H2|].
      pose proof (Nat.lt_le_trans (l - 3) (l - 2) _ ltac:(lia) P2) as Q2. apply path_first in Q2 as [H3 _]; [|lia].
      assert (l = 3%nat) as -> by lia. exact H3. }
    rewrite (Z.div_small a) by lia. destruct l as [|[|[|[|l]]]]; (reflexivity || lia).
  - vm_compute. discriminate.
Qed.

Lemma munmap_releases_pages_witness :
  exists mm' ret, do_munmap 4096 4096 ex_mm = Some (mm', ret) /\
    (ret = 0 -> exists calls t' m', pgt_log mm' = pgt_log ex_mm ++ calls /\ run_calls calls ex_pgt ex_frames = Some (t', m') /\
       tbl_ok t' /\ balanced (fun _ => 0) t' m' /\ keeps ex_frames m' /\ covered mm' t' /\ tables_used mm' t' /\
       forall a, 0 <= a < ADDR_LIMIT -> pte_at t' a = if in_range 4096 (4096 + PAGE_ALIGN 4096) a then 0 else pte_at ex_pgt a).
Proof.
  destruct (munmap_releases_pages 0 (fun _ => 0) ex_mm 4096 4096 ex_pgt ex_frames) as (mm' & ret & E & H);
    [exact ex_wf|done|done|exact ex_covered|exact ex_pgt_ok|exact ex_balanced|].
  exists mm', ret. split; [exact E|]. intros E0. destruct (H E0) as (calls & t' & m' & H1 & H2 & H3 & H4 & H5 & H6 & H7 & H8).
  exists calls, t', m'. split_and!; [exact H1|exact H2|exact H3|exact H4|exact H5|exact H6|exact (H7 ex_used)|exact H8].
Defined.

Lemma exit_releases_pages_witness :
  exists calls t' m', pgt_log (exit_lego_mmap ex_mm) = pgt_log ex_mm ++ calls /\ run_calls calls ex_pgt ex_frames = Some (t', m') /\
    keeps ex_frames m' /\ (forall a, 0 <= a < ADDR_LIMIT -> pte_at t' a = 0) /\ (forall f, rc m' f = 0) /\ t' = ∅.
Proof.
  destruct (exit_releases_pages 0 (fun _ => 0) ex_mm ex_pgt ex_frames) as (calls & t' & m' & H1 & H2 & H3 & H4 & H5 & H6);
    [exact ex_wf|exact ex_covered|exact ex_pgt_ok|exact ex_balanced|].
  exists calls, t', m'. split_and!; [exact H1|exact H2|exact H3|exact H4|exact H5|exact (H6 ex_used)].
Defined.

Lemma fork_shares_pages_witness :
  let areas := deref ex_mm <$> mmap ex_mm in
  exists d' t' m' ret, copy_areas areas ∅ ex_pgt ex_frames = Some (d', t', m', ret) /\ tbl_ok d' /\ tbl_ok t' /\
    balanced2 (fun _ => 0) d' t' m' /\ same_data ex_frames m' /\
    (ret = - ENOMEM /\ ~ Forall (eq true) (pg_tables ex_frames) \/
     ret = 0 /\ forall a, 0 <= a < ADDR_LIMIT ->
       match area_at areas a with
       | None => pte_at d' a = 0 /\ pte_at t' a = pte_at ex_pgt a
       | Some v => pte_at d' a = child_pte (vm_flags v) (pte_at ex_pgt a) /\ pte_at t' a = parent_pte (vm_flags v) (pte_at ex_pgt a) /\
           lego_pte_to_virt (pte_at d' a) = lego_pte_to_virt (pte_at ex_pgt a)
       end).
Proof. apply (fork_shares_pages 0); [exact ex_wf|exact ex_pgt_ok|exact ex_balanced]. Defined.

Lemma move_tables_correct_witness :
  exists k t' m', lego_move_page_tables 4096 65536 8192 ex_pgt ex_frames = Some (t', m', k) /\ 0 <= k <= 8192 /\ tbl_ok t' /\
    (Forall (eq true) (pg_tables ex_frames) -> k = 8192) /\ frames m' = frames ex_frames /\ (forall f, cnt f t' = cnt f ex_pgt) /\
    forall y, 0 <= y < ADDR_LIMIT -> pte_at t' y =
      if in_range 65536 (65536 + k) y then pte_at ex_pgt (y - 65536 + 4096) else if in_range 4096 (4096 + k) y then 0 else pte_at ex_pgt y.
Proof.
  apply move_tables_correct; try done; [by left| |exact ex_pgt_ok].
  intros y Hy%in_range_spec. rewrite pte_at_look. destruct (decide (look ex_pgt y = 0)) as [|Hne]; [done|].
  pose proof (ex_pgt_look y ltac:(unfold ADDR_LIMIT; lia) Hne). lia.
Defined.
