(* ===== verification/MemModel.v ===== *)
(** * Memory manager, pages of processes: the model

    What happens to the pages behind the areas: page faults (managers/memory/vm/fault.c),
    access to the pages of a process (vm/gup.c, vm/uaccess.c), the table of processes
    (task.c) and the requests of the pcache (handle_pcache/fault.c).

    An address space is a [space]: its areas (VmaModel.v) and its page table
    (PgtModel.v).  The pages are those of the whole node.  A kernel address is the
    address of a byte of a page.

    [None] is a BUG, a null pointer that is followed, or a loop that does not end.  The
    locks are taken and released in pairs and have no counterpart; a read of an entry
    that the code repeats under the lock finds the same value. *)

From stdpp Require Import gmap.
From S2P Require Import Prelude RbTree VmaModel PgtModel.

(** [__get_free_page] (mm/page_alloc.c): the address of a page that is not in use *)
Class PageAlloc := __get_free_page : pages -> option Z.

(** The files: the reply of the storage component to a read of [count] bytes at [pos]
    (the number of bytes that it has read, and the [count] bytes of the buffer), and the
    image linked into the kernel that ramfs reads *)
Class Files := {
  storage_reply : Z -> Z -> Z -> Z * list Z;
  __ramfs_start : Z -> Z
}.

Record space := Space { sp_mm : lego_mm; pgd : pgd_table }.

Section fault.
Context `{PageAlloc, Files}.

(** The page just allocated, with one reference and contents [d] *)
Definition put_new (page : Z) (d : list Z) (m : pages) : pages := set_frames (<[page := Frame 1 d]> (frames m)) m.

Definition zero_page : list Z := replicate (Z.to_nat PAGE_SIZE) 0.

(** ** The operations of file mappings (m2s_read_write.c, ramfs/core.c) *)

(** The buffer is the new page: all of it is overwritten with the reply. *)
Definition storage_read (file count pos : Z) : Z * list Z := storage_reply file count pos.

Definition storage_vma_fault (vma : vm_area) (pgoff : Z) (m : pages) : option (Z * Z * pages) :=
  match __get_free_page m with
  | None => Some (VM_FAULT_OOM, 0, m)
  | Some page =>
      file ← vm_file vma;
      let pos := pgoff <<u PAGE_SHIFT in
      let '(_, content) := storage_read file PAGE_SIZE pos in
      Some (0, page, put_new page content m)
  end.

Definition ramfs_read (count pos : Z) : list Z := (fun i => __ramfs_start (pos + i)) <$> seqZ 0 count.

Definition ramfs_vma_fault (vma : vm_area) (pgoff : Z) (m : pages) : option (Z * Z * pages) :=
  match __get_free_page m with
  | None => Some (VM_FAULT_OOM, 0, m)
  | Some page =>
      let pos := pgoff <<u PAGE_SHIFT in
      Some (0, page, put_new page (ramfs_read PAGE_SIZE pos) m)
  end.

(** [vma->vm_ops->fault] *)
Definition vma_fault (ops : vm_operations) : vm_area -> Z -> pages -> option (Z * Z * pages) :=
  match ops with storage_vma_ops => storage_vma_fault | ramfs_vma_ops => ramfs_vma_fault end.

(** ** Faults (vm/fault.c)

    [mapping_flags] is null in all calls. *)

Definition set_pte_at (address entry : Z) (t : pgd_table) : pgd_table :=
  upd_page (pte_set (lego_pte_index address) entry) (lego_pmd_ptr address) t.

(** [(signed long)vaddr >> PAGE_SHIFT] *)
Definition vfn_of (vaddr : Z) : Z := Z.shiftr (to_long vaddr) PAGE_SHIFT.

Definition do_wp_page (t : pgd_table) (m : pages) : option (Z * pgd_table * pages) := Some (0, t, m).

Definition __do_fault (ops : vm_operations) (vma : vm_area) (address pgoff flags orig_pte : Z)
    (t : pgd_table) (m : pages) : option (Z * pgd_table * pages) :=
  '(ret, page, m) ← vma_fault ops vma pgoff m;
  if has ret VM_FAULT_ERROR then Some (ret, t, m)
  else if pte_same (pte_at t address) orig_pte then
    let entry := lego_vfn_pte (vfn_of page) (vm_page_prot vma) in
    let entry := if has flags FAULT_FLAG_WRITE then pte_mkwrite (pte_mkdirty entry) else entry in
    Some (0, set_pte_at address entry t, m)
  else Some (0, t, m).

Definition do_linear_fault (ops : vm_operations) (vma : vm_area) (address flags orig_pte : Z)
    (t : pgd_table) (m : pages) : option (Z * pgd_table * pages) :=
  let pgoff := Z.shiftr (Z.land address PAGE_MASK -u vm_start vma) PAGE_SHIFT +u vm_pgoff vma in
  __do_fault ops vma address pgoff flags orig_pte t m.

Definition do_anonymous_page (vma : vm_area) (address flags : Z) (t : pgd_table) (m : pages)
  : option (Z * pgd_table * pages) :=
  match __get_free_page m with
  | None => Some (VM_FAULT_OOM, t, m)
  | Some vaddr =>
      let m := put_new vaddr zero_page m in
      let entry := lego_vfn_pte (vfn_of vaddr) (vm_page_prot vma) in
      let entry := if has (vm_flags vma) VM_WRITE then pte_mkwrite (pte_mkdirty entry) else entry in
      if negb (pte_none (pte_at t address)) then Some (0, t, m)
      else Some (0, set_pte_at address entry t, m)
  end.

Definition handle_pte_fault (vma : vm_area) (address flags : Z) (t : pgd_table) (m : pages)
  : option (Z * pgd_table * pages) :=
  let entry := pte_at t address in
  if negb (pte_present entry) then
    if pte_none entry then
      match vm_ops vma with
      | Some ops => do_linear_fault ops vma address flags entry t m
      | None => do_anonymous_page vma address flags t m
      end
    else None
  else if has flags FAULT_FLAG_WRITE then
    if negb (pte_write entry) then do_wp_page t m else Some (0, t, m)
  else Some (0, t, m).

(** The results: the return value, [*ret_va] where it is set, the table and the pages *)
Definition handle_lego_mm_fault (vma : vm_area) (address flags : Z) (t : pgd_table) (m : pages)
  : option (Z * option Z * pgd_table * pages) :=
  let '(ok, t, m) := alloc_path true address t m in
  if negb ok then Some (VM_FAULT_OOM, None, t, m)
  else
    '(ret, t, m) ← handle_pte_fault vma address flags t m;
    if negb (ret =? 0) then Some (ret, None, t, m)
    else Some (0, Some (lego_pte_to_virt (pte_at t address)), t, m).

(** ** Pages of a process (vm/gup.c) *)

Definition faultin_page (vma : vm_area) (start flags : Z) (t : pgd_table) (m : pages)
  : option (Z * pgd_table * pages) :=
  '(ret, _, t, m) ← handle_lego_mm_fault vma start flags t m;
  if has ret VM_FAULT_ERROR then
    if has ret VM_FAULT_OOM then Some (- ENOMEM, t, m)
    else if has ret (Z.lor VM_FAULT_SIGBUS VM_FAULT_SIGSEGV) then Some (- EFAULT, t, m)
    else None
  else Some (0, t, m).

(** 0 if there is none *)
Definition find_page (t : pgd_table) (address : Z) : Z :=
  match pte_page t (lego_pmd_ptr address) with
  | None => 0
  | Some u =>
      let pte := get_entry u (lego_pte_index address) in
      if pte_none pte then 0 else lego_pte_to_virt pte
  end.

(** The label [retry]; one fault is enough. *)
Fixpoint gup_retry (tries : nat) (vma : vm_area) (start : Z) (t : pgd_table) (m : pages)
  : option ((Z + Z) * pgd_table * pages) :=
  match tries with
  | O => None
  | S tries =>
      let page := find_page t start in
      if page =? 0 then
        '(ret, t, m) ← faultin_page vma start FAULT_FLAG_WRITE t m;
        if ret =? 0 then gup_retry tries vma start t m else Some (inl ret, t, m)
      else Some (inr page, t, m)
  end.

(** The loop over the [nr] pages left, [got] being the pages found, in reverse; the
    result is the pages and the return value. *)
Fixpoint gup_loop (nr : nat) (vma : option ptr) (start : Z) (got : list Z) (s : space) (m : pages)
  : option (list Z * Z * space * pages) :=
  let stop err s m := Some (rev got, if bool_decide (got = []) then err else Z.of_nat (length got), s, m) in
  match nr with
  | O => Some (rev got, Z.of_nat (length got), s, m)
  | S nr =>
      '(mm, vma) ←
        (if match vma with None => true | Some p => vm_end (deref (sp_mm s) p) <=? start end
         then find_extend_vma start (sp_mm s) else Some (sp_mm s, vma));
      match vma with
      | None => stop (- EFAULT) (Space mm (pgd s)) m
      | Some p =>
          '(res, t, m) ← gup_retry 2 (deref mm p) start (pgd s) m;
          match res with
          | inl ret => stop ret (Space mm t) m
          | inr page => gup_loop nr (Some p) (start +u PAGE_SIZE) (page :: got) (Space mm t) m
          end
      end
  end.

(** [__get_user_pages_locked] without [locked] is one call of [__get_user_pages]. *)
Definition get_user_pages (start : Z) (nr_pages : nat) (s : space) (m : pages)
  : option (list Z * Z * space * pages) :=
  gup_loop nr_pages None start [] s m.
End fault.

(** ** The table of processes (task.c, include/lego/hash.h, hashtable.h)

    Unsigned ints of 32 bits *)

Definition U32 : Z := 2 ^ 32.

Record lego_task := LegoTask {
  tsk_node : Z;
  tsk_pid : Z; (* the tgid of the process *)
  tsk_parent_pid : Z;
  tsk_home_node : Z;
  tsk_mm : Z (* the address of its [lego_mm_struct] *)
}.

Definition PID_ARRAY_HASH_BITS : Z := 10.
Definition GOLDEN_RATIO_32 : Z := 1640531527.
Definition hash_32 (val bits : Z) : Z := Z.shiftr ((val * GOLDEN_RATIO_32) mod U32) (32 - bits).
Definition getKey (node pid : Z) : Z := (node * 10000 + pid * 10) mod U32.

Abbreviation task_table := (gmap Z (list lego_task)).
Definition bucket_of (node pid : Z) : Z := hash_32 (getKey node pid) PID_ARRAY_HASH_BITS.
Definition bucket (h : task_table) (b : Z) : list lego_task := default [] (h !! b).

Definition is_task (node pid : Z) (p : lego_task) : bool := (tsk_pid p =? pid) && (tsk_node p =? node).

Definition find_lego_task_by_pid (node pid : Z) (h : task_table) : option lego_task :=
  if pid =? 0 then None else List.find (is_task node pid) (bucket h (bucket_of node pid)).

Definition ht_insert_lego_task (tsk : lego_task) (h : task_table) : option (Z * task_table) :=
  if tsk_pid tsk =? 0 then None
  else
    let b := bucket_of (tsk_node tsk) (tsk_pid tsk) in
    if existsb (is_task (tsk_node tsk) (tsk_pid tsk)) (bucket h b) then Some (- EEXIST, h)
    else Some (0, <[b := tsk :: bucket h b]> h).

(** [hash_del] of the first task of the list with these numbers *)
Fixpoint hash_del (node pid : Z) (l : list lego_task) : list lego_task :=
  match l with
  | [] => []
  | p :: l => if is_task node pid p then l else p :: hash_del node pid l
  end.

(** A BUG if [tsk] is not in the table *)
Definition free_lego_task (tsk : lego_task) (h : task_table) : option task_table :=
  let b := bucket_of (tsk_node tsk) (tsk_pid tsk) in
  if existsb (is_task (tsk_node tsk) (tsk_pid tsk)) (bucket h b)
  then Some (<[b := hash_del (tsk_node tsk) (tsk_pid tsk) (bucket h b)]> h)
  else None.

(** ** The requests of the pcache (handle_pcache/fault.c) *)

Record mem_node := MemNode {
  node_pid_hash : task_table;
  mms : gmap Z space;
  node_pages : pages
}.

Definition set_space (mm : Z) (s : space) (m : pages) (n : mem_node) : mem_node :=
  MemNode (node_pid_hash n) (<[mm := s]> (mms n)) m.

Section requests.
Context `{PageAlloc, Files}.

Definition common_handle_p2m_miss (p : lego_task) (vaddr flags : Z) (n : mem_node)
  : option (Z * option Z * mem_node) :=
  s ← mms n !! tsk_mm p;
  let good_area mm vma :=
    '(ret, va, t, m) ← handle_lego_mm_fault (deref mm vma) vaddr flags (pgd s) (node_pages n);
    Some (ret, va, set_space (tsk_mm p) (Space mm t) m n) in
  match find_vma (sp_mm s) vaddr with
  | None => Some (VM_FAULT_SIGSEGV, None, n)
  | Some vma =>
      if vm_start (deref (sp_mm s) vma) <=? vaddr then good_area (sp_mm s) vma
      else if negb (has (vm_flags (deref (sp_mm s) vma)) VM_GROWSDOWN) then Some (VM_FAULT_SIGSEGV, None, n)
      else
        '(mm, ret) ← expand_stack vma vaddr (sp_mm s);
        ret ← ret;
        if negb (ret =? 0) then Some (VM_FAULT_SIGSEGV, None, set_space (tsk_mm p) (Space mm (pgd s)) (node_pages n) n)
        else good_area mm vma
  end.

(** The reply: an error number, or the page itself *)
Inductive miss_reply := Miss_error (ret : Z) | Miss_page (page : Z).

Definition SIGSEGV : Z := 11.
Definition RET_SIGNAL_BASE : Z := 16777216.
Definition RET_ESIGSEGV : Z := RET_SIGNAL_BASE + SIGSEGV.

Definition do_handle_p2m_pcache_miss (p : lego_task) (vaddr flags : Z) (n : mem_node)
  : option (miss_reply * mem_node) :=
  '(ret, new_page, n) ← common_handle_p2m_miss p vaddr flags n;
  if has ret VM_FAULT_ERROR then
    let ret := if has ret VM_FAULT_OOM then ENOMEM
               else if has ret (Z.lor VM_FAULT_SIGBUS VM_FAULT_SIGSEGV) then RET_ESIGSEGV else ret in
    Some (Miss_error ret, n)
  else
    new_page ← new_page;
    Some (Miss_page new_page, n).

Definition do_handle_p2m_zerofill_miss (p : lego_task) (vaddr flags : Z) (n : mem_node)
  : option (Z * mem_node) :=
  '(ret, _, n) ← common_handle_p2m_miss p vaddr flags n;
  Some (if has ret VM_FAULT_ERROR then - EFAULT else 0, n).

(** [memcpy(dst_page, pcacheline, PCACHE_LINE_SIZE)]: a line is a page. *)
Definition write_line (dst_page : Z) (line : list Z) (m : pages) : option pages :=
  f ← frames m !! dst_page;
  Some (set_frames (<[dst_page := Frame (fr_count f) line]> (frames m)) m).

(** [get_user_pages] of one page of the task and the copy; [false] if there is no page *)
Definition flush_page (p : lego_task) (user_va : Z) (line : list Z) (n : mem_node) : option (bool * mem_node) :=
  s ← mms n !! tsk_mm p;
  '(pgs, ret, s, m) ← get_user_pages user_va 1 s (node_pages n);
  if ret =? 1 then
    dst_page ← head pgs;
    m ← write_line dst_page line m;
    Some (true, set_space (tsk_mm p) s m n)
  else Some (false, set_space (tsk_mm p) s m n).

Definition handle_p2m_flush_one (src_nid pid user_va : Z) (line : list Z) (n : mem_node) : option (Z * mem_node) :=
  match find_lego_task_by_pid src_nid pid (node_pid_hash n) with
  | None => Some (- ESRCH, n)
  | Some p => '(ok, n) ← flush_page p user_va line n; Some (if ok : bool then 0 else - EFAULT, n)
  end.

(** The flush that came with a miss: its pid, address and line *)
Record p2m_flush_msg := FlushMsg { fl_pid : Z; fl_user_va : Z; fl_pcacheline : list Z }.

Definition do_piggyback_flush (msg : p2m_flush_msg) (src_nid : Z) (fault_task : lego_task) (n : mem_node)
  : option mem_node :=
  let flush_task := if fl_pid msg =? tsk_pid fault_task then Some fault_task
                    else find_lego_task_by_pid src_nid (fl_pid msg) (node_pid_hash n) in
  match flush_task with
  | None => Some n
  | Some p => '(_, n) ← flush_page p (fl_user_va msg) (fl_pcacheline msg) n; Some n
  end.

Definition TASK_SIZE_MAX : Z := TASK_SIZE.
Definition fault_in_kernel_space (address : Z) : bool := TASK_SIZE_MAX <=? address.

Definition handle_p2m_pcache_miss (src_nid tgid flags vaddr : Z) (flush : option p2m_flush_msg) (n : mem_node)
  : option (miss_reply * mem_node) :=
  match find_lego_task_by_pid src_nid tgid (node_pid_hash n) with
  | None => Some (Miss_error ESRCH, n)
  | Some p =>
      if fault_in_kernel_space vaddr then Some (Miss_error EFAULT, n)
      else
        '(rep, n) ← do_handle_p2m_pcache_miss p vaddr flags n;
        n ← match flush with Some msg => do_piggyback_flush msg src_nid p n | None => Some n end;
        Some (rep, n)
  end.

Definition handle_p2m_zerofill (src_nid tgid flags vaddr : Z) (n : mem_node) : option (Z * mem_node) :=
  match find_lego_task_by_pid src_nid tgid (node_pid_hash n) with
  | None => Some (ESRCH, n)
  | Some p =>
      if fault_in_kernel_space vaddr then Some (EFAULT, n) else do_handle_p2m_zerofill_miss p vaddr flags n
  end.
End requests.
