(* ===== verification/MemFault.v ===== *)
(** * Memory manager: the table of processes, and faults

    The hash table of task.c behaves as a finite map from the processor node and the
    process number. *)

From stdpp Require Import gmap.
From S2P Require Import Prelude RbTree VmaModel VmaInv VmaSpec PgtModel PgtTables PgtRange PgtCopy PgtMove MemModel.

Definition key_of (p : lego_task) : Z * Z := (tsk_node p, tsk_pid p).

(** Every task is in the bucket of its numbers, once, and has a number. *)
Record table_ok (h : task_table) : Prop := {
  to_bucket : forall b p, p ∈ bucket h b -> b = bucket_of (tsk_node p) (tsk_pid p) /\ tsk_pid p <> 0;
  to_nodup : forall b, NoDup (key_of <$> bucket h b)
}.

Lemma is_task_spec node pid p : is_task node pid p = true <-> key_of p = (node, pid).
Proof. unfold is_task, key_of. rewrite andb_true_iff, !Z.eqb_eq. naive_solver. Qed.

Lemma find_task node pid h p :
  table_ok h -> find_lego_task_by_pid node pid h = Some p <-> p ∈ bucket h (bucket_of node pid) /\ key_of p = (node, pid).
Proof.
  intros Hok. unfold find_lego_task_by_pid. split.
  - destruct (pid =? 0); [done|]. intros [Hin Ht]%find_some. by apply list_elem_of_In in Hin; apply is_task_spec in Ht.
  - intros [Hin Hk]. destruct (to_bucket _ Hok _ _ Hin) as [_ Hp]. injection Hk as E1 E2.
    rewrite (proj2 (Z.eqb_neq pid 0)) by congruence. pose proof (to_nodup _ Hok (bucket_of node pid)) as Hn.
    induction (bucket h (bucket_of node pid)) as [|q l IH]; [by apply not_elem_of_nil in Hin|]. simpl in *.
    apply list.NoDup_cons in Hn as [Hq Hn]. destruct (is_task node pid q) eqn:Eq.
    + apply is_task_spec in Eq. apply elem_of_cons in Hin as [->|Hin]; [done|]. exfalso. apply Hq. rewrite Eq, <- E1, <- E2.
      apply (list_elem_of_fmap_2 key_of l p Hin).
    + apply elem_of_cons in Hin as [->|Hin]; [|by apply IH]. rewrite (proj2 (is_task_spec node pid q)) in Eq; [done|]. unfold key_of. congruence.
Qed.

Lemma existsb_find node pid h :
  table_ok h -> pid <> 0 ->
  existsb (is_task node pid) (bucket h (bucket_of node pid)) = bool_decide (is_Some (find_lego_task_by_pid node pid h)).
Proof.
  intros Hok Hp. apply eq_true_iff_eq. rewrite bool_decide_eq_true, existsb_exists. split.
  - intros (p & Hin%list_elem_of_In & Ht%is_task_spec). exists p. by apply find_task.
  - intros [p [Hin Hk]%find_task]; [|done]. exists p. split; [by apply list_elem_of_In|by apply is_task_spec].
Qed.

Lemma bucket_insert h b l b' : bucket (<[b := l]> h) b' = if decide (b = b') then l else bucket h b'.
Proof. unfold bucket. case_decide as E; [by rewrite <- E, lookup_insert_eq|by rewrite lookup_insert_ne]. Qed.

(** Two tables with the same members find the same tasks. *)
Lemma find_same node pid h h' :
  table_ok h -> table_ok h' ->
  (forall p, key_of p = (node, pid) -> p ∈ bucket h' (bucket_of node pid) <-> p ∈ bucket h (bucket_of node pid)) ->
  find_lego_task_by_pid node pid h' = find_lego_task_by_pid node pid h.
Proof.
  intros Hok Hok' Hp. apply option_eq. intros p. rewrite !find_task by done. naive_solver.
Qed.

Lemma table_insert_ok tsk h :
  table_ok h -> tsk_pid tsk <> 0 ->
  match find_lego_task_by_pid (tsk_node tsk) (tsk_pid tsk) h with
  | Some _ => ht_insert_lego_task tsk h = Some (- EEXIST, h)
  | None => exists h', ht_insert_lego_task tsk h = Some (0, h') /\ table_ok h' /\
      forall node pid, find_lego_task_by_pid node pid h' =
        if decide ((node, pid) = key_of tsk) then Some tsk else find_lego_task_by_pid node pid h
  end.
Proof.
  intros Hok Hp. unfold ht_insert_lego_task. rewrite (proj2 (Z.eqb_neq _ 0)), existsb_find by done.
  destruct (find_lego_task_by_pid (tsk_node tsk) (tsk_pid tsk) h) as [q|] eqn:Ef; [by rewrite bool_decide_eq_true_2|].
  rewrite bool_decide_eq_false_2 by (by intros []). set (b := bucket_of _ _). eexists. split; [done|].
  assert (Hnew : forall p, p ∈ bucket h b -> key_of p <> key_of tsk).
  { intros p Hin Hk. assert (find_lego_task_by_pid (tsk_node tsk) (tsk_pid tsk) h = Some p) by by apply find_task. congruence. }
  assert (Hok' : table_ok (<[b := tsk :: bucket h b]> h)).
  { split; intros b'; [intros p|]; rewrite bucket_insert; case_decide as Eb.
    - intros [->|Hin]%elem_of_cons; [done|]. rewrite <- Eb. by apply (to_bucket _ Hok).
    - apply (to_bucket _ Hok).
    - simpl. apply list.NoDup_cons. split; [|apply (to_nodup _ Hok)].
      intros (p & Hk & Hin)%list_elem_of_fmap. by apply (Hnew p Hin).
    - apply (to_nodup _ Hok). }
  split; [done|]. intros node pid. case_decide as Ek.
  - injection Ek as -> ->. apply find_task; [done|]. fold b. rewrite bucket_insert, decide_True by done. split; [by left|done].
  - apply find_same; [done|done|]. intros p Hk. rewrite bucket_insert. case_decide as Eb; [|done]. rewrite Eb, elem_of_cons.
    split; [|by right]. intros [->|?]; [|done]. by rewrite Hk in Ek.
Qed.

Lemma hash_del_elem node pid l p :
  NoDup (key_of <$> l) -> p ∈ hash_del node pid l <-> p ∈ l /\ key_of p <> (node, pid).
Proof.
  induction l as [|q l IH]; simpl; intros Hn; [set_solver|]. apply list.NoDup_cons in Hn as [Hq Hn].
  destruct (is_task node pid q) eqn:E.
  - apply is_task_spec in E. rewrite elem_of_cons. split; [|by intros [[->|?] ?]]. intros Hp. split; [by right|].
    intros Ek. apply Hq. rewrite E, <- Ek. by apply list_elem_of_fmap_2.
  - assert (key_of q <> (node, pid)) by (intros Ek%is_task_spec; congruence). rewrite !elem_of_cons, IH by done. naive_solver.
Qed.

Lemma hash_del_nodup node pid l : NoDup (key_of <$> l) -> NoDup (key_of <$> hash_del node pid l).
Proof.
  induction l as [|q l IH]; simpl; intros Hn; [done|]. pose proof Hn as Hn'. apply list.NoDup_cons in Hn as [Hq Hn].
  destruct (is_task node pid q); [done|]. simpl. apply list.NoDup_cons. split; [|by apply IH].
  intros (p & Hk & [Hin _]%hash_del_elem)%list_elem_of_fmap; [|done]. apply Hq. rewrite Hk. by apply list_elem_of_fmap_2.
Qed.

Lemma table_free_ok tsk h :
  table_ok h -> find_lego_task_by_pid (tsk_node tsk) (tsk_pid tsk) h = Some tsk ->
  exists h', free_lego_task tsk h = Some h' /\ table_ok h' /\
    forall node pid, find_lego_task_by_pid node pid h' =
      if decide ((node, pid) = key_of tsk) then None else find_lego_task_by_pid node pid h.
Proof.
  intros Hok Hf. pose proof (proj1 (find_task _ _ _ _ Hok) Hf) as [Hin _]. destruct (to_bucket _ Hok _ _ Hin) as [_ Hp].
  unfold free_lego_task. rewrite existsb_find by done. rewrite Hf, bool_decide_eq_true_2 by done. set (b := bucket_of _ _) in *.
  eexists. split; [done|]. set (h' := <[b := _]> h).
  assert (Hb : forall b' p, p ∈ bucket h' b' <-> p ∈ bucket h b' /\ (b = b' -> key_of p <> key_of tsk)).
  { intros b' p. unfold h'. rewrite bucket_insert. case_decide as Eb; [|by split; [|intros [? _]]].
    rewrite hash_del_elem by apply (to_nodup _ Hok). rewrite <- Eb. split; intros [? Hne]; split; auto. }
  assert (Hok' : table_ok h').
  { split; [intros b' p [Hin' _]%Hb; by apply (to_bucket _ Hok)|]. intros b'. unfold h'. rewrite bucket_insert.
    case_decide; [apply hash_del_nodup|]; apply (to_nodup _ Hok). }
  split; [done|]. intros node pid. case_decide as Ek.
  - apply eq_None_not_Some. intros [p [Hin' Hk]%find_task]; [|done]. injection Ek as -> ->. apply Hb in Hin' as [_ Hne]. by apply Hne.
  - apply find_same; [done|done|]. intros p Hk. rewrite Hb, Hk. split; [by intros [? _]|by intros ?; split].
Qed.

(** ** Faults

    [handle_lego_mm_fault] finds the page of an address or maps a new one with the
    initial contents; no other entry and no other page is touched. *)

(** The allocator gives pages that are not in use, in the upper half of the address
    space. *)
Class PageAllocLaws `{PageAlloc} : Prop := {
  page_fresh : forall m a, __get_free_page m = Some a -> frames m !! a = None;
  page_addr : forall m a, __get_free_page m = Some a -> page_aligned a /\ 2 ^ 63 <= a < ULONG_MOD
}.

(** ** The entry of a page *)

Lemma low_bits a n : page_aligned a -> n < 12 -> Z.testbit a n = false.
Proof.
  unfold page_aligned. rewrite PAGE_SIZE_eq. intros Ha Hn. destruct (Z.lt_ge_cases n 0); [by apply Z.testbit_neg_r|].
  change 4096 with (2 ^ 12) in Ha. rewrite <- (Z.mod_pow2_bits_low a 12) by lia. by rewrite Ha, Z.bits_0.
Qed.

Lemma mask_bit n : 0 <= n -> Z.testbit PAGE_MASK n = (12 <=? n) && (n <? 64).
Proof.
  intros Hn. unfold PAGE_MASK, wrap, ULONG_MOD. change (PAGE_SIZE - 1) with (Z.ones 12).
  destruct (Z.ltb_spec n 64); [|by rewrite Z.mod_pow2_bits_high, andb_false_r by lia].
  rewrite Z.mod_pow2_bits_low, Z.lnot_spec, andb_true_r by lia.
  destruct (Z.leb_spec 12 n); [by rewrite Z.ones_spec_high by lia|by rewrite Z.ones_spec_low by lia].
Qed.

Lemma virt_entry a p :
  page_aligned a -> 2 ^ 63 <= a < ULONG_MOD -> Z.ldiff p (Z.lor _PAGE_NX (PAGE_SIZE - 1)) = 0 ->
  lego_pte_to_virt (Z.lor a p) = a.
Proof.
  intros Ha Hr Hp. unfold lego_pte_to_virt, PTE_VFN_MASK. apply Z.bits_inj'. intros n Hn.
  rewrite Z.land_spec, Z.lor_spec, mask_bit by done. apply (f_equal (fun z => Z.testbit z n)) in Hp.
  rewrite Z.bits_0, Z.ldiff_spec, Z.lor_spec in Hp. change (PAGE_SIZE - 1) with (Z.ones 12) in Hp.
  unfold ULONG_MOD in Hr. destruct (Z.leb_spec 12 n) as [H12|H12]; [|by rewrite (low_bits a n) by (done || lia); rewrite andb_false_r].
  rewrite Z.ones_spec_high, orb_false_r in Hp by lia. destruct (Z.ltb_spec n 64) as [H64|H64].
  - rewrite !andb_true_r. destruct (decide (n = 63)) as [->|Hne].
    + assert (Z.testbit a 63 = true) as ->; [|done]. rewrite Z.testbit_true by lia.
      assert (a / 2 ^ 63 = 1) as ->; [|done]. symmetry. apply (Z.div_unique a (2 ^ 63) 1 (a - 2 ^ 63)); lia.
    + unfold _PAGE_NX in Hp. rewrite Z.shiftl_1_l, Z.pow2_bits_false, andb_true_r in Hp by lia. by rewrite Hp, orb_false_r.
  - rewrite !andb_false_r. symmetry. apply Z.bits_above_log2; [lia|]. apply Z.log2_lt_pow2; [lia|].
    apply (Z.lt_le_trans _ (2 ^ 64)); [lia|]. apply Z.pow_le_mono_r; lia.
Qed.

(** The protections of an entry: those of the area, perhaps writable and dirty. *)
Lemma prot_set p b : prot_ok p -> Z.ldiff b (PAGE_SIZE - 1) = 0 -> prot_ok (Z.lor p b).
Proof.
  intros [Hp Hh] Hb. split.
  - apply Z.bits_inj'. intros n Hn. rewrite Z.bits_0, Z.ldiff_spec, !Z.lor_spec.
    apply (f_equal (fun z => Z.testbit z n)) in Hp, Hb. rewrite Z.bits_0, Z.ldiff_spec in Hp, Hb. rewrite Z.lor_spec in Hp.
    destruct (Z.testbit p n), (Z.testbit b n), (Z.testbit _PAGE_NX n), (Z.testbit (PAGE_SIZE - 1) n); done.
  - unfold has in *. apply negb_true_iff, Z.eqb_neq in Hh. apply negb_true_iff, Z.eqb_neq. intros E. apply Hh.
    rewrite Z.land_lor_distr_l in E. by apply Z.lor_eq_0_iff in E as [E _].
Qed.

Lemma present_lor a p : has p (Z.lor _PAGE_PRESENT _PAGE_PROTNONE) = true -> pte_present (Z.lor a p) = true.
Proof.
  unfold pte_present, has. rewrite !negb_true_iff, !Z.eqb_neq. intros Hp E. apply Hp.
  rewrite Z.land_lor_distr_l in E. by apply Z.lor_eq_0_iff in E as [_ E].
Qed.

Lemma entry_of_page a prot :
  page_aligned a -> 2 ^ 63 <= a < ULONG_MOD -> lego_vfn_pte (vfn_of a) prot = Z.lor a prot.
Proof.
  intros Ha Hr. unfold lego_vfn_pte, vfn_of, to_long. rewrite (proj2 (Z.ltb_ge a (2 ^ 63))) by lia. f_equal.
  unfold PAGE_SHIFT. rewrite Z.shiftl_mul_pow2, Z.shiftr_div_pow2 by lia. unfold page_aligned in Ha. rewrite PAGE_SIZE_eq in Ha.
  change (2 ^ 12) with 4096. unfold wrap, ULONG_MOD in *.
  assert (E : (a - 2 ^ 64) mod 4096 = 0) by (rewrite Zminus_mod, Ha; done). pose proof (Z.div_mod (a - 2 ^ 64) 4096).
  replace ((a - 2 ^ 64) / 4096 * 4096) with (a + (-1) * 2 ^ 64) by lia. rewrite Z.mod_add by lia. apply Z.mod_small. lia.
Qed.

Lemma new_entry a prot (w : bool) :
  page_aligned a -> 2 ^ 63 <= a < ULONG_MOD -> prot_ok prot ->
  let entry := lego_vfn_pte (vfn_of a) prot in
  let entry := if w then pte_mkwrite (pte_mkdirty entry) else entry in
  lego_pte_to_virt entry = a /\ pte_present entry = true.
Proof.
  intros Ha Hr Hp. cbn zeta. rewrite entry_of_page by done.
  assert (H : forall p, prot_ok p -> lego_pte_to_virt (Z.lor a p) = a /\ pte_present (Z.lor a p) = true).
  { intros p [H1 H2]. split; [by apply virt_entry|by apply present_lor]. }
  destruct w; [|by apply H]. unfold pte_mkwrite, pte_mkdirty. rewrite <- !Z.lor_assoc. apply H.
  rewrite Z.lor_assoc. by apply prot_set; [apply prot_set|].
Qed.

(** ** Faults *)

Section fault.
Context `{PageAllocLaws, Files}.
Implicit Types (v : vm_area) (t : pgd_table) (m : pages).

(** The page offset of an address in the file of the area *)
Definition fault_pgoff v (x : Z) : Z := Z.shiftr (Z.land x PAGE_MASK -u vm_start v) PAGE_SHIFT +u vm_pgoff v.

(** The initial contents of the page of address [x] of an area *)
Definition fill_page v (x : Z) : list Z :=
  match vm_ops v, vm_file v with
  | None, _ => zero_page
  | Some storage_vma_ops, Some f => (storage_read f PAGE_SIZE (fault_pgoff v x <<u PAGE_SHIFT)).2
  | Some storage_vma_ops, None => []
  | Some ramfs_vma_ops, _ => ramfs_read PAGE_SIZE (fault_pgoff v x <<u PAGE_SHIFT)
  end.

(** What a fault on [x] leaves: an error, the page that was mapped, or a new page. *)
Inductive fault_outcome v (x : Z) t m : Z -> option Z -> pgd_table -> pages -> Prop :=
| fault_oom t' m' : extended t m t' m' -> fault_outcome v x t m VM_FAULT_OOM None t' m'
| fault_old t' m' :
    extended t m t' m' -> look t x <> 0 -> fault_outcome v x t m 0 (Some (lego_pte_to_virt (look t x))) t' m'
| fault_new page e t' m' :
    look t x = 0 -> frames m !! page = None -> page_aligned page -> 2 ^ 63 <= page < ULONG_MOD ->
    lego_pte_to_virt e = page -> pte_present e = true -> tbl_ok t' ->
    (forall f, cnt f t' = cnt f t + if decide (page = f) then 1 else 0) ->
    (forall y, 0 <= y < ADDR_LIMIT -> look t' y = if decide (y / PAGE_SIZE = x / PAGE_SIZE) then e else look t y) ->
    frames m' = <[page := Frame 1 (fill_page v x)]> (frames m) ->
    fault_outcome v x t m 0 (Some page) t' m'.

(** The pages of a file mapping *)
Lemma vma_fault_eval v ops x m :
  area_ok v -> vm_ops v = Some ops ->
  vma_fault ops v (fault_pgoff v x) m =
    match __get_free_page m with
    | None => Some (VM_FAULT_OOM, 0, m)
    | Some page => Some (0, page, put_new page (fill_page v x) m)
    end.
Proof.
  intros (_ & _ & _ & Hf & _) Ho. unfold fill_page. rewrite Ho. destruct ops; simpl.
  - unfold storage_vma_fault. destruct (__get_free_page m); [|done]. destruct (vm_file v); [|destruct Hf as [_ Hf]; rewrite Hf in Ho; done].
    simpl. by destruct (storage_read _ _ _).
  - unfold ramfs_vma_fault. by destruct (__get_free_page m).
Qed.

(** Mapping a page just allocated in an empty entry *)
Lemma map_new v x t m page (w : bool) d :
  tbl_ok t -> 0 <= x < ADDR_LIMIT -> is_Some (pte_page t (lego_pmd_ptr x)) -> look t x = 0 -> area_ok v ->
  __get_free_page m = Some page -> d = fill_page v x ->
  let e := lego_vfn_pte (vfn_of page) (vm_page_prot v) in
  let e := if w then pte_mkwrite (pte_mkdirty e) else e in
  let t' := set_pte_at x e t in
  lego_pte_to_virt (pte_at t' x) = page /\ fault_outcome v x t m 0 (Some page) t' (put_new page d m).
Proof.
  intros Ht Hx [u Hu] Hz (_ & _ & _ & _ & Hp) Hm -> e e'.
  destruct (page_addr m page Hm) as [Hpa Hpr]. destruct (new_entry page _ w Hpa Hpr Hp) as [Ev Ep]. fold e e' in Ev, Ep.
  destruct (set_entry_ok t x u e' Ht Hx Hu Hz Ep) as (Hok & Hcnt & Hlook). cbn zeta in *. fold (set_pte_at x e' t) in Hok, Hcnt, Hlook.
  split; [by rewrite pte_at_look, Hlook, decide_True|].
  apply (fault_new v x t m page e'); try done.
  - by apply page_fresh.
  - intros f. rewrite Hcnt, cnt_pte. by rewrite Ev.
Qed.

Lemma handle_pte_fault_ok v x flags t m :
  tbl_ok t -> 0 <= x < ADDR_LIMIT -> is_Some (pte_page t (lego_pmd_ptr x)) -> area_ok v ->
  exists ret t' m', handle_pte_fault v x flags t m = Some (ret, t', m') /\ pg_tables m' = pg_tables m /\
    (ret = VM_FAULT_OOM /\ t' = t /\ m' = m /\ __get_free_page m = None \/
     ret = 0 /\ fault_outcome v x t m 0 (Some (lego_pte_to_virt (pte_at t' x))) t' m').
Proof.
  intros Ht Hx Hu Hv. unfold handle_pte_fault. rewrite pte_at_look. destruct (look_good t x Ht) as [Hz|Hp].
  2:{ rewrite Hp. cbn [negb].
      assert (Hold : fault_outcome v x t m 0 (Some (lego_pte_to_virt (pte_at t x))) t m).
      { rewrite pte_at_look. apply fault_old; [by apply extended_refl|]. intros E. rewrite E in Hp. discriminate Hp. }
      exists 0, t, m. split; [destruct (has flags FAULT_FLAG_WRITE), (pte_write (look t x)); reflexivity|]. split; [done|]. by right. }
  rewrite Hz. change (pte_present 0) with false. change (pte_none 0) with true. cbn [negb].
  assert (Hnew : forall page (w : bool), __get_free_page m = Some page ->
    let e := lego_vfn_pte (vfn_of page) (vm_page_prot v) in let e := if w then pte_mkwrite (pte_mkdirty e) else e in
    fault_outcome v x t m 0 (Some (lego_pte_to_virt (pte_at (set_pte_at x e t) x))) (set_pte_at x e t) (put_new page (fill_page v x) m)).
  { intros page w Hm. cbn zeta. destruct (map_new v x t m page w (fill_page v x)) as [-> Ho]; done. }
  destruct (vm_ops v) as [ops|] eqn:Ho.
  - unfold do_linear_fault, __do_fault. fold (fault_pgoff v x). rewrite (vma_fault_eval v ops x m Hv Ho).
    destruct (__get_free_page m) as [page|] eqn:Hm; cbn [mbind option_bind].
    + change (has 0 VM_FAULT_ERROR) with false. rewrite pte_at_look, Hz. change (pte_same 0 0) with true. cbv iota.
      eexists 0, _, _. split; [reflexivity|]. split; [done|]. right. split; [done|]. by apply Hnew.
    + eexists _, _, _. split; [reflexivity|]. split; [done|]. by left.
  - unfold do_anonymous_page. destruct (__get_free_page m) as [page|] eqn:Hm.
    + rewrite pte_at_look, Hz. change (negb (pte_none 0)) with false. cbv iota.
      eexists 0, _, _. split; [reflexivity|]. split; [done|]. right. split; [done|].
      assert (zero_page = fill_page v x) as -> by (unfold fill_page; by rewrite Ho). by apply Hnew.
    + eexists _, _, _. split; [reflexivity|]. split; [done|]. by left.
Qed.

(** An outcome after tables have been added *)
Lemma outcome_extended v x t m t1 m1 ret va t2 m2 :
  extended t m t1 m1 -> fault_outcome v x t1 m1 ret va t2 m2 -> fault_outcome v x t m ret va t2 m2.
Proof.
  intros Hx [t' m' Hx'|t' m' Hx' Hz|page e t' m' Hz Hf Ha Hr Ev Ep Hok Hc Hl Hfr].
  - apply fault_oom. by eapply extended_trans.
  - rewrite (ex_look _ _ _ _ Hx) in *. apply fault_old; [by eapply extended_trans|done].
  - pose proof (ex_frames _ _ _ _ Hx) as Ef. rewrite (ex_look _ _ _ _ Hx) in Hz. rewrite Ef in Hf, Hfr.
    apply (fault_new v x t m page e); try done.
    + intros f. by rewrite Hc, (ex_cnt _ _ _ _ Hx).
    + intros y Hy. by rewrite Hl, (ex_look _ _ _ _ Hx).
Qed.

(** [j] more pages can be had, and all the tables needed. *)
Definition ample (j : nat) m : Prop :=
  (forall m', (size (frames m') < size (frames m) + j)%nat -> is_Some (__get_free_page m')) /\ Forall (eq true) (pg_tables m).

Lemma ample_le j j' m : (j' <= j)%nat -> ample j m -> ample j' m.
Proof. intros Hj [Hg Ha]. split; [|done]. intros m' Hm. apply Hg. lia. Qed.

Lemma ample_size j j' m m' :
  (size (frames m') + j' <= size (frames m) + j)%nat -> pg_tables m' = pg_tables m -> ample j m -> ample j' m'.
Proof. intros Hj E [Hg Ha]. split; [|by rewrite E]. intros m2 Hm. apply Hg. lia. Qed.

Lemma outcome_size v x t m ret va t' m' :
  fault_outcome v x t m ret va t' m' -> (size (frames m') <= S (size (frames m)))%nat.
Proof.
  destruct 1 as [t' m' He|t' m' He _|page e t' m' _ Hf _ _ _ _ _ _ _ Hfr]; [rewrite (ex_frames _ _ _ _ He); lia..|].
  rewrite Hfr, map_size_insert_None by done. lia.
Qed.

Lemma handle_fault_ok v x flags t m :
  tbl_ok t -> 0 <= x < ADDR_LIMIT -> area_ok v ->
  exists ret va t' m', handle_lego_mm_fault v x flags t m = Some (ret, va, t', m') /\ fault_outcome v x t m ret va t' m' /\
    (ample 1 m -> ret = 0) /\ forall j, ample (S j) m -> ample j m'.
Proof.
  intros Ht Hx Hv. unfold handle_lego_mm_fault.
  destruct (alloc_path_ok true x t m Ht) as (ok & t1 & m1 & E1 & Hext & Hp). rewrite E1.
  assert (Hf1 : frames m1 = frames m) by apply Hext.
  assert (Hall : forall j, ample j m -> ok = true /\ ample j m1).
  { intros j [Hg Ha]. destruct (alloc_path_true true x t m Ha) as (t1' & m1' & E1' & Ha').
    rewrite E1 in E1'. injection E1' as -> <- <-. split; [done|]. split; [by rewrite Hf1|done]. }
  destruct ok; cbn [negb].
  2:{ eexists _, _, _, _. split; [reflexivity|]. split; [by apply fault_oom|]. split; [by intros [? _]%Hall|by intros j [? _]%Hall]. }
  destruct (handle_pte_fault_ok v x flags t1 m1) as (ret & t2 & m2 & -> & Hpt & Hres); [apply Hext|done|by apply Hp|done|].
  cbn [mbind option_bind]. destruct Hres as [(-> & -> & -> & Hn)|[-> Ho]]; eexists _, _, _, _; (split; [reflexivity|]); split_and!.
  - by apply fault_oom.
  - intros [_ [Hg _]]%Hall. destruct (Hg m1); [lia|congruence].
  - intros j [_ Ha]%Hall. eapply ample_le; [|done]. lia.
  - by eapply outcome_extended.
  - done.
  - intros j [_ Ha]%Hall. eapply ample_size; [|done|exact Ha]. pose proof (outcome_size _ _ _ _ _ _ _ _ Ho). lia.
Qed.
End fault.
