(* ===== verification/MemSpec.v ===== *)
(** * Memory manager, pages of processes: what a process has at an address

    [area_for] is the area of an address, after the stack growth that an access would
    cause; [initial] the contents that its page begins with; [page_view] the contents
    that it has.  Growing the stack changes none of them. *)

From stdpp Require Import gmap.
From S2P Require Import Prelude RbTree VmaModel VmaTree VmaInv VmaSpec VmaLife PgtModel PgtTables PgtRange PgtCopy PgtMove.
From S2P Require Import MemModel MemFault.

Definition page_base (x : Z) : Z := Z.land x PAGE_MASK.

Lemma page_base_eq x : is_u64 x -> page_base x = x - x mod PAGE_SIZE.
Proof. apply PAGE_MASK_round. Qed.

Lemma page_base_bounds x : is_u64 x -> is_u64 (page_base x) /\ page_aligned (page_base x) /\ page_base x <= x < page_base x + PAGE_SIZE.
Proof.
  intros Hx. rewrite page_base_eq by done. unfold is_u64, page_aligned in *. rewrite PAGE_SIZE_eq.
  pose proof (Z.mod_pos_bound x 4096). pose proof (Z.mod_le x 4096). split_and!; try lia.
  by rewrite Zminus_mod, Z.mod_mod, Z.sub_diag by lia.
Qed.

Lemma page_base_id x : is_u64 x -> page_aligned x -> page_base x = x.
Proof. intros Hx Ha. rewrite page_base_eq by done. rewrite Ha. lia. Qed.

Lemma page_base_idem x : is_u64 x -> page_base (page_base x) = page_base x.
Proof. intros Hx. apply page_base_id; by apply page_base_bounds. Qed.

Lemma page_base_div x y : is_u64 x -> is_u64 y -> page_base x = page_base y <-> x / PAGE_SIZE = y / PAGE_SIZE.
Proof.
  intros Hx Hy. rewrite !page_base_eq by done. rewrite PAGE_SIZE_eq. pose proof (Z.div_mod x 4096). pose proof (Z.div_mod y 4096). lia.
Qed.

(** An aligned bound is on the same side of an address and of its page. *)
Lemma page_base_le b x : is_u64 x -> page_aligned b -> b <= x <-> b <= page_base x.
Proof.
  intros Hx Hb. destruct (page_base_bounds x Hx) as (_ & Ha & Hr). unfold page_aligned in *. rewrite PAGE_SIZE_eq in *.
  pose proof (Z.div_mod b 4096). pose proof (Z.div_mod (page_base x) 4096). lia.
Qed.

(** ** The area of an address *)

Definition area_for (mm : lego_mm) (x : Z) : option vm_area :=
  let a := page_base x in
  p ← first_above mm a;
  let v := deref mm p in
  if vm_start v <=? a then Some v
  else if has (vm_flags v) VM_GROWSDOWN && can_grow v a then Some (grown_area a v)
  else None.

(** [mm'] is [mm], or [mm] with the stack [p] extended down to [a]. *)
Definition grew (k : Z) (p : ptr) (a : Z) (mm mm' : lego_mm) : Prop :=
  mm' = mm \/
  first_above mm a = Some p /\ a < vm_start (deref mm p) /\ has (vm_flags (deref mm p)) VM_GROWSDOWN = true /\
  can_grow (deref mm p) a = true /\ grown_down k p a mm mm'.

Lemma grew_wf k p a mm mm' : wf k mm -> grew k p a mm mm' -> wf k mm'.
Proof. intros Hw [->|(_ & _ & _ & _ & Hg)]; [done|apply Hg]. Qed.

Section extend.
Context (k : Z) (mm : lego_mm) (Hwf : wf k mm).

(** The extension of the stack area found, as both callers do it *)
Lemma expand_area x p :
  is_u64 x -> first_above mm (page_base x) = Some p -> page_base x < vm_start (deref mm p) ->
  exists mm' ret, expand_stack p x mm = Some (mm', ret) /\
    (ret = Some (- ENOMEM) /\ mm' = mm /\ can_grow (deref mm p) (page_base x) = false \/
     ret = Some 0 /\ can_grow (deref mm p) (page_base x) = true /\ grown_down k p (page_base x) mm mm').
Proof using Hwf.
  intros Hx Hf Hlt. destruct (first_above_Some _ _ _ Hf) as (pre & post & Hl & Hend & Hpre).
  destruct (expand_downwards_ok k mm p pre post x Hwf Hl Hx) as (mm' & ret & E & Hcase); rewrite <- page_base_eq in * by done.
  { unfold end_of. destruct (list.last pre) eqn:El; [|apply page_base_bounds; done]. apply Hpre. by apply last_Some_elem_of. }
  exists mm', ret. split; [done|]. destruct Hcase as [(-> & [[-> Hc]|[_ ?]])|(-> & _ & Hc & Hg)]; [left; auto|lia|right; auto].
Qed.

Lemma find_extend_area x :
  is_u64 x ->
  exists mm' o, find_extend_vma x mm = Some (mm', o) /\
    match o with
    | None => mm' = mm /\ area_for mm x = None
    | Some p => area_for mm x = Some (deref mm' p) /\ p ∈ mmap mm' /\ grew k p (page_base x) mm mm' /\
        page_base x < vm_end (deref mm' p)
    end.
Proof using Hwf.
  intros Hx. destruct (page_base_bounds x Hx) as (Hau & _). unfold find_extend_vma, area_for. fold (page_base x).
  rewrite (find_vma_ok k) by done. destruct (first_above mm (page_base x)) as [p|] eqn:Hf; cbn [mbind option_bind]; [|by eexists _, None].
  destruct (first_above_Some _ _ _ Hf) as (pre & post & Hl & Hend & _). assert (Hp : p ∈ mmap mm) by (rewrite Hl; set_solver).
  destruct (Z.leb_spec (vm_start (deref mm p)) (page_base x)) as [Hle|Hlt].
  { exists mm, (Some p). split_and!; try done. by left. }
  destruct (has _ _) eqn:Hg; cbn [negb andb]; [|by eexists _, None].
  destruct (expand_area (page_base x) p) as (mm' & ret & -> & Hc); rewrite ?page_base_idem by done; try done.
  rewrite page_base_idem in Hc by done. cbn [mbind option_bind].
  destruct Hc as [(-> & -> & Hc)|(-> & Hc & Hgd)]; rewrite Hc; [by eexists _, None|]. exists mm', (Some p).
  rewrite (gd_deref _ _ _ _ _ Hgd), (gd_mmap _ _ _ _ _ Hgd). split_and!; try done. right. done.
Qed.
End extend.

(** ** Growth is invisible *)

Lemma shift_page z : Z.shiftr z PAGE_SHIFT = z / 4096.
Proof. unfold PAGE_SHIFT. by rewrite Z.shiftr_div_pow2. Qed.

Section grown.
Context (v : vm_area) (b : Z) (Hv : page_aligned (vm_start v)) (Hb : page_aligned b).
Context (Hr : 0 <= b < vm_start v) (Hs : vm_start v < vm_end v) (He : vm_end v <= TASK_SIZE) (Ho : is_u64 (vm_pgoff v)).

Lemma grown_start : vm_start (grown_area b v) = b.
Proof. done. Qed.

Lemma can_grow_spec a :
  0 <= a < vm_start v -> page_aligned a ->
  can_grow v a = bool_decide (stack_guard_gap <= a /\ (vm_start v - a) / 4096 <= vm_pgoff v /\
    vm_end v - a - (if has (vm_flags v) (Z.lor VM_GROWSUP VM_GROWSDOWN) then PAGE_SIZE else 0) <= _STK_LIM).
Proof using Hv Hs He.
  intros Ha Hal. pose proof TASK_SIZE_u64. unfold can_grow. rewrite shift_page.
  rewrite (wrap_small (vm_start v - a)), (wrap_small (vm_end v - a)) by (unfold is_u64; lia). cbn zeta.
  rewrite (proj2 (Z.eqb_neq (vm_end v - a) 0)) by lia. cbn [negb andb].
  assert (Hsz : PAGE_SIZE <= vm_end v - a).
  { unfold page_aligned in Hv, Hal. rewrite PAGE_SIZE_eq in Hv, Hal |- *.
    pose proof (Z.div_mod a 4096). pose proof (Z.div_mod (vm_start v) 4096). lia. }
  assert (Hw : vm_end v - a -u PAGE_SIZE = vm_end v - a - PAGE_SIZE).
  { apply wrap_small. assert (0 < PAGE_SIZE) by done. unfold is_u64. lia. }
  rewrite Hw. assert (Hgap : (a <? a -u stack_guard_gap) = bool_decide (a < stack_guard_gap)).
  { assert (0 < stack_guard_gap < 2 ^ 30) by done. unfold ULONG_MOD in *. case_bool_decide as Hlt.
    - apply Z.ltb_lt. unfold wrap, ULONG_MOD. rewrite <- (Z.mod_add _ 1), Z.mod_small by lia. lia.
    - rewrite wrap_small by (unfold is_u64, ULONG_MOD; lia). apply Z.ltb_ge. lia. }
  rewrite Hgap. set (n := if has _ _ then PAGE_SIZE else 0).
  replace (if has (vm_flags v) _ then vm_end v - a - PAGE_SIZE else vm_end v - a) with (vm_end v - a - n)
    by (unfold n; destruct (has _ _); lia).
  clearbody n. apply eq_true_iff_eq. rewrite bool_decide_eq_true, !andb_true_iff, !negb_true_iff, bool_decide_eq_false, Z.leb_le, Z.ltb_ge. lia.
Qed.

Lemma grown_pgoff : (vm_start v - b) / 4096 <= vm_pgoff v -> vm_pgoff (grown_area b v) = vm_pgoff v - (vm_start v - b) / 4096.
Proof using All.
  intros Hle. pose proof TASK_SIZE_u64. unfold grown_area. simpl. rewrite shift_page, (wrap_small (vm_start v - b)) by (unfold is_u64; lia).
  assert (0 <= (vm_start v - b) / 4096) by (apply Z.div_pos; lia). apply wrap_small. unfold is_u64 in *. lia.
Qed.

(** Growing in two steps *)
Lemma grown_twice a :
  0 <= a < b -> page_aligned a -> can_grow v b = true ->
  can_grow (grown_area b v) a = can_grow v a /\ grown_area a (grown_area b v) = grown_area a v.
Proof using All.
  intros Ha Hal Hc. pose proof TASK_SIZE_u64. rewrite (can_grow_spec b) in Hc by (done || lia). apply bool_decide_eq_true in Hc as (G & O & L).
  pose proof (grown_pgoff O) as Ep. unfold page_aligned in *. rewrite PAGE_SIZE_eq in *.
  pose proof (Z.div_mod a 4096). pose proof (Z.div_mod b 4096). pose proof (Z.div_mod (vm_start v) 4096).
  assert (E1 : forall x y, x mod 4096 = 0 -> y mod 4096 = 0 -> (x - y) / 4096 = x / 4096 - y / 4096).
  { intros x y Hx Hy. pose proof (Z.div_mod x 4096). pose proof (Z.div_mod y 4096).
    replace (x - y) with ((x / 4096 - y / 4096) * 4096) by lia. apply Z.div_mul. lia. }
  assert (Hsum : (b - a) / 4096 + (vm_start v - b) / 4096 = (vm_start v - a) / 4096) by (rewrite !E1 by done; lia).
  split.
  - unfold can_grow. rewrite Ep. change (vm_start (grown_area b v)) with b. change (vm_end (grown_area b v)) with (vm_end v).
    change (vm_flags (grown_area b v)) with (vm_flags v). rewrite !shift_page, !(wrap_small (_ - a)) by (unfold is_u64; lia).
    assert (((b - a) / 4096 <=? vm_pgoff v - (vm_start v - b) / 4096) = ((vm_start v - a) / 4096 <=? vm_pgoff v)) as ->; [|done].
    apply eq_true_iff_eq. rewrite !Z.leb_le. lia.
  - unfold grown_area at 1. rewrite Ep. change (vm_start (grown_area b v)) with b. unfold grown_area, with_range. simpl.
    f_equal. rewrite !shift_page, !(wrap_small (_ - a)) by (unfold is_u64; lia). f_equal. lia.
Qed.

(** A smaller growth is allowed where a larger one is. *)
Lemma can_grow_less a : b <= a < vm_start v -> page_aligned a -> can_grow v b = true -> can_grow v a = true.
Proof using All.
  intros Ha Hal. rewrite !can_grow_spec by (done || lia). rewrite !bool_decide_eq_true. intros (G & O & L). split_and!; [lia| |lia].
  etrans; [|exact O]. apply Z.div_le_mono; lia.
Qed.

(** The file offset of an address, wherever the area begins *)
Lemma pgoff_grown x :
  is_u64 x -> b <= page_base x -> x < 2 ^ 63 ->
  fault_pgoff (grown_area b v) x = wrap (vm_pgoff v + x / 4096 - vm_start v / 4096).
Proof using All.
  intros Hx Hle Hx63. pose proof TASK_SIZE_u64. destruct (page_base_bounds x Hx) as (Hpu & Hpa & Hpr). unfold fault_pgoff. fold (page_base x).
  change (vm_start (grown_area b v)) with b. rewrite !shift_page, (wrap_small (page_base x - b)) by (unfold is_u64 in *; lia).
  unfold grown_area. simpl. rewrite shift_page, (wrap_small (vm_start v - b)) by (unfold is_u64; lia).
  unfold page_aligned in *. rewrite PAGE_SIZE_eq in *. pose proof (Z.div_mod b 4096). pose proof (Z.div_mod (vm_start v) 4096).
  pose proof (Z.div_mod (page_base x) 4096). assert (Ex : x / 4096 = page_base x / 4096).
  { pose proof (Z.div_mod x 4096). pose proof (Z.mod_pos_bound x 4096). lia. }
  replace (page_base x - b) with ((x / 4096 - b / 4096) * 4096) by lia. replace (vm_start v - b) with ((vm_start v / 4096 - b / 4096) * 4096) by lia.
  rewrite !Z.div_mul by lia. unfold wrap. rewrite Zplus_mod_idemp_r. f_equal. lia.
Qed.
End grown.

Lemma pgoff_inside v x :
  is_u64 x -> 0 <= vm_start v <= page_base x -> page_aligned (vm_start v) ->
  fault_pgoff v x = wrap (vm_pgoff v + x / 4096 - vm_start v / 4096).
Proof.
  intros Hx Hle Hv. destruct (page_base_bounds x Hx) as (Hpu & Hpa & Hpr). unfold fault_pgoff. fold (page_base x).
  rewrite !shift_page, (wrap_small (page_base x - vm_start v)) by (unfold is_u64 in *; lia).
  unfold page_aligned in *. rewrite PAGE_SIZE_eq in *. pose proof (Z.div_mod (vm_start v) 4096).
  pose proof (Z.div_mod (page_base x) 4096). assert (Ex : x / 4096 = page_base x / 4096).
  { pose proof (Z.div_mod x 4096). pose proof (Z.mod_pos_bound x 4096). lia. }
  replace (page_base x - vm_start v) with ((x / 4096 - vm_start v / 4096) * 4096) by lia. rewrite Z.div_mul by lia.
  f_equal. lia.
Qed.

Section view.
Context `{Files}.

Lemma fill_ext v v' x :
  vm_ops v = vm_ops v' -> vm_file v = vm_file v' -> fault_pgoff v x = fault_pgoff v' x -> fill_page v x = fill_page v' x.
Proof. intros E1 E2 E3. unfold fill_page. by rewrite E1, E2, E3. Qed.

(** The contents that the page of [x] begins with, if the address is or can be mapped *)
Definition initial (mm : lego_mm) (x : Z) : option (list Z) := (fun v => fill_page v x) <$> area_for mm x.

Lemma first_above_grown k p b mm mm' a : grown_down k p b mm mm' -> first_above mm' a = first_above mm a.
Proof.
  intros Hg. unfold first_above. rewrite (gd_mmap _ _ _ _ _ Hg). induction (mmap mm) as [|q l IH]; simpl; [done|].
  assert (vm_end (deref mm' q) = vm_end (deref mm q)) as ->; [|by rewrite IH].
  destruct (decide (q = p)) as [->|Hne]; [by rewrite (gd_deref _ _ _ _ _ Hg)|by rewrite (gd_others _ _ _ _ _ Hg)].
Qed.

Lemma initial_grew k p y mm mm' x :
  wf k mm -> is_u64 y -> is_u64 x -> grew k p (page_base y) mm mm' -> initial mm' x = initial mm x.
Proof.
  intros Hwf Hy Hx [->|(Hf & Hlt & Hgd & Hc & Hg)]; [done|]. destruct (page_base_bounds y Hy) as (Hbu & Hba & _).
  destruct (page_base_bounds x Hx) as (Hau & Haa & Har). set (a := page_base x) in *. set (b := page_base y) in *.
  unfold initial, area_for. fold a. rewrite (first_above_grown _ _ _ _ _ a Hg).
  destruct (first_above mm a) as [q|] eqn:Hq; cbn [mbind option_bind]; [|done].
  destruct (decide (q = p)) as [->|Hne]; [|by rewrite (gd_others _ _ _ _ _ Hg)].
  destruct (first_above_Some _ _ _ Hq) as (pre & post & Hl & Hend & _). assert (Hp : p ∈ mmap mm) by (rewrite Hl; set_solver).
  destruct (wf_area _ _ Hwf p Hp) as (A1 & _ & A3 & _). pose proof (wf_bounds _ _ p Hwf Hp) as (B1 & B2 & B3).
  rewrite (gd_deref _ _ _ _ _ Hg). set (v := deref mm p) in *. rewrite grown_start. pose proof TASK_SIZE_u64.
  assert (TASK_SIZE < 2 ^ 62) by done. rewrite PAGE_SIZE_eq in *. unfold is_u64 in Hau, Hbu.
  change (vm_flags (grown_area b v)) with (vm_flags v). rewrite Hgd. cbn [andb].
  assert (Hoff : b <= a -> fault_pgoff (grown_area b v) x = wrap (vm_pgoff v + x / 4096 - vm_start v / 4096)).
  { intros. apply pgoff_grown; try done; lia. }
  destruct (Z.leb_spec (vm_start v) a) as [Hsa|Hsa].
  - rewrite (proj2 (Z.leb_le b a)) by lia. simpl. f_equal. apply fill_ext; [done|done|]. rewrite Hoff by lia. symmetry.
    by apply pgoff_inside.
  - destruct (Z.leb_spec b a) as [Hle|Hab].
    + rewrite (can_grow_less v b A1 Hba ltac:(lia) B2 B3 A3 a) by (done || lia). simpl. f_equal. apply fill_ext; [done|done|].
      rewrite Hoff by done. symmetry. apply pgoff_grown; try done; lia.
    + destruct (grown_twice v b A1 Hba ltac:(lia) B2 B3 A3 a) as [-> ->]; [lia|done|done|done].
Qed.

(** The contents of the page of [x] in an address space *)
Definition page_view (s : space) (m : pages) (x : Z) : option (list Z) :=
  d ← initial (sp_mm s) x;
  if pte_at (pgd s) x =? 0 then Some d else data_of m (lego_pte_to_virt (pte_at (pgd s) x)).

(** An address that has an area is below [TASK_SIZE]. *)
Lemma area_for_range k mm x v : wf k mm -> is_u64 x -> area_for mm x = Some v -> 0 <= x < TASK_SIZE.
Proof.
  intros Hwf Hx. unfold area_for. destruct (first_above mm _) as [p|] eqn:Hf; [|done]. intros _.
  destruct (first_above_Some _ _ _ Hf) as (pre & post & Hl & Hend & _). assert (Hp : p ∈ mmap mm) by (rewrite Hl; set_solver).
  pose proof (wf_bounds _ _ p Hwf Hp). destruct (page_base_bounds x Hx) as (_ & Ha & Hr). destruct Hx.
  assert (page_aligned TASK_SIZE) by done. unfold page_aligned in *. rewrite PAGE_SIZE_eq in *.
  pose proof (Z.div_mod (page_base x) 4096). pose proof (Z.div_mod TASK_SIZE 4096). lia.
Qed.
End view.
