(* ===== verification/MemGup.v ===== *)
(** * Memory manager, pages of processes: finding and faulting in pages

    Faults and [get_user_pages] leave every process with the contents that it had; the
    pages that they return are those mapped at the addresses. *)

From stdpp Require Import gmap.
From S2P Require Import Prelude RbTree VmaModel VmaTree VmaInv VmaSpec VmaLife PgtModel PgtTables PgtRange PgtCopy PgtMove.
From S2P Require Import MemModel MemFault MemSpec.

(** ** Entries and pages *)

(** The pages in use are kernel addresses. *)
Definition kernel_pages (m : pages) : Prop :=
  map_Forall (fun a _ => page_aligned a /\ 2 ^ 63 <= a < ULONG_MOD) (frames m).

Section entries.
Context (o : Z -> Z) (t : pgd_table) (m : pages) (Hb : balanced o t m).

Lemma mapped_frame a : look t a <> 0 -> exists fr, frames m !! lego_pte_to_virt (look t a) = Some fr.
Proof using Hb.
  intros Hl. pose proof (look_cnt t a Hl) as Hc. destruct Hb as [Hf Hr Ho]. specialize (Ho (lego_pte_to_virt (look t a))).
  destruct (rc_pos m (lego_pte_to_virt (look t a)) Hf) as (fr & E & _); [rewrite Hr; lia|by exists fr].
Qed.

Lemma find_page_look a : tbl_ok t -> kernel_pages m ->
  find_page t a = (if look t a =? 0 then 0 else lego_pte_to_virt (look t a)) /\
  (find_page t a =? 0) = (look t a =? 0).
Proof using Hb.
  intros Ht Hk. assert (E : find_page t a = if look t a =? 0 then 0 else lego_pte_to_virt (look t a)).
  { unfold find_page. rewrite <- (pte_at_look t). unfold pte_at, get_pte. destruct (pte_page t (lego_pmd_ptr a)) as [u|] eqn:Eu; [|done].
    rewrite get_entry_look. assert (El : look u a = look t a) by (rewrite <- pte_at_look; unfold pte_at, get_pte; by rewrite Eu, get_entry_look).
    rewrite El. destruct (look_good t a Ht) as [->|Hp]; [done|]. rewrite entry_not_none by done.
    destruct (Z.eqb_spec (look t a) 0) as [Ez|]; [rewrite Ez in Hp; discriminate Hp|done]. }
  split; [done|]. rewrite E. destruct (Z.eqb_spec (look t a) 0) as [Ez|Hne]; [done|]. apply Z.eqb_neq.
  destruct (mapped_frame a Hne) as [fr Hfr]. destruct (Hk _ _ Hfr). lia.
Qed.
End entries.

(** ** What faults do to an address space *)

Section touched.
Context `{PageAllocLaws, Files}.
Implicit Types (s : space) (m : pages) (t : pgd_table).

Record space_ok (k : Z) (o : Z -> Z) s m : Prop := {
  sk_wf : wf k (sp_mm s);
  sk_tbl : tbl_ok (pgd s);
  sk_balanced : balanced o (pgd s) m;
  sk_kernel : kernel_pages m
}.

(** Pages and tables may have been added, and the stack extended; [o] counts the
    references from elsewhere. *)
Record touched (k : Z) (o : Z -> Z) s m s' m' : Prop := {
  tc_ok : space_ok k o s' m';
  tc_initial : forall y, is_u64 y -> initial (sp_mm s') y = initial (sp_mm s) y;
  tc_look : forall y, 0 <= y < ADDR_LIMIT -> look (pgd s) y <> 0 -> look (pgd s') y = look (pgd s) y;
  tc_new : forall y, 0 <= y < ADDR_LIMIT -> look (pgd s) y = 0 -> look (pgd s') y <> 0 ->
    data_of m' (lego_pte_to_virt (look (pgd s') y)) = initial (sp_mm s) y;
  tc_frames : forall f fr, frames m !! f = Some fr -> frames m' !! f = Some fr;
  tc_once : forall f fr, frames m !! f = None -> frames m' !! f = Some fr -> fr_count fr = 1;
  tc_fresh : forall y, 0 <= y < ADDR_LIMIT -> look (pgd s) y = 0 -> look (pgd s') y <> 0 ->
    frames m !! lego_pte_to_virt (look (pgd s') y) = None
}.

(** Only the pages of [P] got entries. *)
Definition mapped_only (P : Z -> Prop) s s' : Prop :=
  forall y, 0 <= y < ADDR_LIMIT -> ~ P (y / PAGE_SIZE) -> look (pgd s') y = look (pgd s) y.

Lemma touched_refl k o s m : space_ok k o s m -> touched k o s m s m.
Proof. intros Hs. split; try done. intros f fr E1 E2. congruence. Qed.

Lemma touched_trans k o s1 m1 s2 m2 s3 m3 :
  touched k o s1 m1 s2 m2 -> touched k o s2 m2 s3 m3 -> touched k o s1 m1 s3 m3.
Proof.
  intros [O1 I1 L1 N1 F1 C1 G1] [O2 I2 L2 N2 F2 C2 G2]. split; [done| | | |auto| |].
  - intros y Hy. by rewrite I2, I1.
  - intros y Hy Hl. rewrite L2, L1; [done..|by rewrite L1].
  - intros y Hy Hz Hl. destruct (decide (look (pgd s2) y = 0)) as [E|E].
    + rewrite N2 by done. apply I1. unfold is_u64, ULONG_MOD, ADDR_LIMIT in *. lia.
    + rewrite <- (N1 y Hy Hz E). rewrite L2 by done.
      destruct (mapped_frame o (pgd s2) m2 (sk_balanced _ _ _ _ O1) y E) as [fr Hfr]. unfold data_of. by rewrite Hfr, (F2 _ _ Hfr).
  - intros f fr E1 E3. destruct (frames m2 !! f) as [fr2|] eqn:E2; [|by apply (C2 f)].
    rewrite (F2 _ _ E2) in E3. injection E3 as <-. by apply (C1 f).
  - intros y Hy Hz Hl. destruct (decide (look (pgd s2) y = 0)) as [E|E].
    + apply eq_None_not_Some. intros [fr Hfr%F1]. by rewrite (G2 y Hy E Hl) in Hfr.
    + rewrite L2 by done. by apply G1.
Qed.

(** No contents change. *)
Lemma touched_view k o s m s' m' y :
  space_ok k o s m -> touched k o s m s' m' -> is_u64 y -> page_view s' m' y = page_view s m y.
Proof.
  intros [Hw Ht Hb Hk] Htc Hy. unfold page_view. rewrite (tc_initial _ _ _ _ _ _ Htc) by done.
  unfold initial. destruct (area_for (sp_mm s) y) as [v|] eqn:Ea; [|done].
  assert (Hyr : 0 <= y < ADDR_LIMIT).
  { pose proof (area_for_range k _ _ _ Hw Hy Ea). assert (TASK_SIZE < ADDR_LIMIT) by done. lia. }
  cbn [fmap option_fmap option_map mbind option_bind]. rewrite !pte_at_look. destruct (Z.eqb_spec (look (pgd s) y) 0) as [Ez|Hne].
  - destruct (Z.eqb_spec (look (pgd s') y) 0) as [Ez'|Hne']; [done|]. rewrite (tc_new _ _ _ _ _ _ Htc y Hyr Ez Hne').
    unfold initial. by rewrite Ea.
  - rewrite (tc_look _ _ _ _ _ _ Htc y Hyr Hne), (proj2 (Z.eqb_neq _ 0) Hne).
    destruct (mapped_frame o (pgd s) m Hb y Hne) as [fr Hfr]. unfold data_of. by rewrite Hfr, (tc_frames _ _ _ _ _ _ Htc _ _ Hfr).
Qed.

(** Nor those of another address space. *)
Lemma touched_other k o s m s' m' s2 o2 y :
  touched k o s m s' m' -> balanced o2 (pgd s2) m -> page_view s2 m' y = page_view s2 m y.
Proof.
  intros Htc Hb. unfold page_view. destruct (initial (sp_mm s2) y); [|done]. cbn [mbind option_bind]. rewrite pte_at_look.
  destruct (Z.eqb_spec (look (pgd s2) y) 0) as [|Hne]; [done|]. destruct (mapped_frame o2 (pgd s2) m Hb y Hne) as [fr Hfr].
  unfold data_of. by rewrite Hfr, (tc_frames _ _ _ _ _ _ Htc _ _ Hfr).
Qed.

(** The page of an address decides. *)
Lemma initial_page mm x y : page_base x = page_base y -> initial mm x = initial mm y.
Proof.
  intros E. unfold initial, area_for. rewrite E. destruct (first_above mm _) as [p|]; [|done]. cbn [mbind option_bind].
  assert (Hf : forall v, fill_page v x = fill_page v y) by (intros v; unfold fill_page, fault_pgoff, page_base in *; by rewrite E).
  destruct (_ <=? _); simpl; [by rewrite Hf|]. destruct (_ && _); simpl; [by rewrite Hf|done].
Qed.

Lemma outcome_touched k o mm x v t m ret va t' m' :
  space_ok k o (Space mm t) m -> is_u64 x -> 0 <= x < ADDR_LIMIT -> initial mm x = Some (fill_page v x) ->
  fault_outcome v x t m ret va t' m' -> touched k o (Space mm t) m (Space mm t') m'.
Proof.
  intros [Hw Ht Hb Hk] Hu Hx Hi Hout. simpl in *.
  assert (Hext : extended t m t' m' -> touched k o (Space mm t) m (Space mm t') m').
  { intros [Eo El Ec Ef _]. split; simpl; try done.
    - split; simpl; [done|done| |unfold kernel_pages; by rewrite Ef]. destruct Hb as [B1 B2 B3].
      split; [unfold frames_ok; by rewrite Ef| |done]. intros f. unfold rc. rewrite Ef, Ec. apply B2.
    - intros y _ Hz Hl. by rewrite El, Hz in Hl.
    - by rewrite Ef.
    - rewrite Ef. intros. congruence.
    - intros y _ Hz Hl. by rewrite El, Hz in Hl. }
  destruct Hout as [t' m' He|t' m' He Hz|page e t' m' Hz Hf Hpa Hpr Ev Ep Hok Hc Hl Hfr]; [by apply Hext|by apply Hext|].
  split; simpl.
  - split; simpl; [done|done| |].
    + destruct Hb as [B1 B2 B3]. assert (Hr0 : rc m page = 0) by (unfold rc; by rewrite Hf). split; [| |done].
      * unfold frames_ok. rewrite Hfr. apply map_Forall_insert_2; [done|exact B1].
      * intros f. rewrite Hc. unfold rc. rewrite Hfr. case_decide as Hpf.
        -- rewrite <- Hpf, lookup_insert_eq. simpl. specialize (B2 page). rewrite Hr0 in B2. lia.
        -- rewrite lookup_insert_ne by done. fold (rc m f). rewrite B2. lia.
    + unfold kernel_pages. rewrite Hfr. by apply map_Forall_insert_2.
  - done.
  - intros y Hy Hne. rewrite Hl by done. case_decide as E; [|done]. rewrite (look_same_page t y x) in Hne by done. done.
  - intros y Hy Hy0 Hne. rewrite Hl in * by done. case_decide as E; [|done]. rewrite Ev. unfold data_of. rewrite Hfr, lookup_insert_eq. simpl.
    rewrite <- Hi. symmetry. apply initial_page. apply page_base_div; [unfold is_u64, ULONG_MOD, ADDR_LIMIT in *; lia|done|done].
  - intros f fr Hff. rewrite Hfr, lookup_insert_ne; [done|congruence].
  - intros f fr Hff. rewrite Hfr. destruct (decide (page = f)) as [<-|]; [rewrite lookup_insert_eq; by intros [= <-]|].
    rewrite lookup_insert_ne by done. congruence.
  - intros y Hy Hy0 Hne. rewrite Hl in * by done. case_decide as E; [by rewrite Ev|done].
Qed.

(** ** Pages of a process *)

(** What [handle_lego_mm_fault] does on an address of its area *)
Lemma fault_touched k o mm x v flags t m :
  space_ok k o (Space mm t) m -> 0 <= x < ADDR_LIMIT -> area_ok v -> initial mm x = Some (fill_page v x) ->
  exists ret va t' m', handle_lego_mm_fault v x flags t m = Some (ret, va, t', m') /\
    touched k o (Space mm t) m (Space mm t') m' /\ (ample 1 m -> ret = 0) /\ (forall j, ample (S j) m -> ample j m') /\
    (ret = VM_FAULT_OOM /\ va = None \/
     ret = 0 /\ va = Some (lego_pte_to_virt (look t' x)) /\ look t' x <> 0) /\
    mapped_only (eq (x / PAGE_SIZE)) (Space mm t) (Space mm t').
Proof.
  intros Hs Hx Hv Hi. pose proof Hs as [Hw Ht Hb Hk]. simpl in *. assert (Hu : is_u64 x) by (unfold is_u64, ULONG_MOD, ADDR_LIMIT in *; lia).
  destruct (handle_fault_ok v x flags t m Ht Hx Hv) as (ret & va & t' & m' & E & Hout & Ham & Ham').
  exists ret, va, t', m'. split_and!; [done|by eapply outcome_touched|done|done| |].
  2:{ intros y Hy Hne. simpl. destruct Hout as [t' m' He|t' m' He Hz|page e t' m' Hz Hf Hpa Hpr Ev Ep Hok Hc Hl Hfr];
      [apply (ex_look _ _ _ _ He)..|]. rewrite Hl by done. case_decide; [congruence|done]. }
  destruct Hout as [t' m' He|t' m' He Hz|page e t' m' Hz Hf Hpa Hpr Ev Ep Hok Hc Hl Hfr]; [by left|right..].
  - by rewrite (ex_look _ _ _ _ He).
  - rewrite Hl, decide_True by done. rewrite Ev. split_and!; [done|done|]. intros E0. rewrite E0 in Ep. discriminate Ep.
Qed.

Lemma gup_retry_ok k o mm x v t m :
  space_ok k o (Space mm t) m -> 0 <= x < ADDR_LIMIT -> area_ok v -> initial mm x = Some (fill_page v x) ->
  exists res t' m', gup_retry 2 v x t m = Some (res, t', m') /\ touched k o (Space mm t) m (Space mm t') m' /\
    (forall j, ample (S j) m -> ample j m') /\ mapped_only (eq (x / PAGE_SIZE)) (Space mm t) (Space mm t') /\
    match res with
    | inl ret => ret = - ENOMEM /\ ~ ample 1 m
    | inr page => page = lego_pte_to_virt (look t' x) /\ look t' x <> 0
    end.
Proof.
  intros Hs Hx Hv Hi. pose proof Hs as [Hw Ht Hb Hk]. simpl in *. cbn [gup_retry].
  destruct (find_page_look o t m Hb x Ht Hk) as [Ef Ez]. rewrite Ez. destruct (Z.eqb_spec (look t x) 0) as [Hz|Hne].
  2:{ exists (inr (find_page t x)), t, m. split; [done|]. split; [by apply touched_refl|]. split_and!; [|done..]. intros j. apply ample_le. lia. }
  destruct (fault_touched k o mm x v FAULT_FLAG_WRITE t m Hs Hx Hv Hi) as (ret & va & t' & m' & E & Htc & Hz1 & Ham & Hret & Hon).
  unfold faultin_page. rewrite E. cbn [mbind option_bind]. destruct Hret as [[-> _]|(-> & _ & Hne)].
  - exists (inl (- ENOMEM)), t', m'. split; [reflexivity|]. split_and!; [done|done|done|done|]. by intros ?%Hz1.
  - pose proof (tc_ok _ _ _ _ _ _ Htc) as [_ Ht' Hb' Hk']. simpl in *. destruct (find_page_look o t' m' Hb' x Ht' Hk') as [Ef' Ez'].
    exists (inr (find_page t' x)), t', m'. change (has 0 VM_FAULT_ERROR) with false. cbn [Z.eqb]. rewrite Ez', Ef'.
    rewrite (proj2 (Z.eqb_neq _ 0) Hne) in *. by split_and!.
Qed.

(** ** [get_user_pages] *)

(** The pages mapped at [n] pages from [start] on *)
Fixpoint pages_at t (start : Z) (n : nat) : list Z :=
  match n with
  | O => []
  | S n => lego_pte_to_virt (look t start) :: pages_at t (start + PAGE_SIZE) n
  end.

Fixpoint all_mapped t (start : Z) (n : nat) : Prop :=
  match n with O => True | S n => look t start <> 0 /\ all_mapped t (start + PAGE_SIZE) n end.

Lemma first_above_covering k mm p x :
  wf k mm -> p ∈ mmap mm -> vm_start (deref mm p) <= x < vm_end (deref mm p) -> first_above mm x = Some p.
Proof.
  intros Hw Hp Hr. destruct (first_above mm x) as [q|] eqn:Hf; [|pose proof (first_above_None _ _ Hf p Hp); lia].
  destruct (first_above_Some _ _ _ Hf) as (pre & post & Hl & Hend & Hpre). f_equal. rewrite Hl in Hp.
  pose proof (wf_sorted _ _ Hw) as Hs. rewrite Hl in Hs. destruct (sorted_split _ _ _ _ _ Hs) as [_ Hpost].
  apply elem_of_app in Hp as [Hp|[->|Hp]%elem_of_cons]; [apply Hpre in Hp; lia|done|apply Hpost in Hp; lia].
Qed.

Lemma covering_area k mm p x :
  wf k mm -> is_u64 x -> p ∈ mmap mm -> vm_start (deref mm p) <= page_base x < vm_end (deref mm p) ->
  area_for mm x = Some (deref mm p).
Proof.
  intros Hw Hx Hp Hr. unfold area_for. rewrite (first_above_covering k mm p (page_base x) Hw Hp Hr). cbn [mbind option_bind].
  by rewrite (proj2 (Z.leb_le _ _)) by lia.
Qed.

(** The area that the loop has at hand begins below the address. *)
Definition at_hand (mm : lego_mm) (vma : option ptr) (start : Z) : Prop :=
  match vma with None => True | Some p => p ∈ mmap mm /\ vm_start (deref mm p) <= page_base start end.

(** The search of an iteration: the area of the address, or none *)
Lemma gup_area k o s m vma start :
  space_ok k o s m -> is_u64 start -> at_hand (sp_mm s) vma start ->
  exists mm' o', (if match vma with None => true | Some p => vm_end (deref (sp_mm s) p) <=? start end
                  then find_extend_vma start (sp_mm s) else Some (sp_mm s, vma)) = Some (mm', o') /\
    touched k o s m (Space mm' (pgd s)) m /\
    match o' with
    | None => initial (sp_mm s) start = None
    | Some p => initial mm' start = Some (fill_page (deref mm' p) start) /\ p ∈ mmap mm' /\
        vm_start (deref mm' p) <= page_base start /\ start < TASK_SIZE
    end.
Proof.
  intros Hs Hu Hat. pose proof Hs as [Hw Ht Hb Hk]. destruct (page_base_bounds start Hu) as (_ & Hba & Hbr).
  destruct (decide (match vma with None => true | Some p => vm_end (deref (sp_mm s) p) <=? start end = true)) as [E|E].
  - rewrite E. destruct (find_extend_area k (sp_mm s) Hw start Hu) as (mm' & o' & -> & Ho). exists mm', o'. split; [done|].
    destruct o' as [p|].
    2:{ destruct Ho as [-> Ha]. split; [destruct s; by apply touched_refl|]. unfold initial. by rewrite Ha. }
    destruct Ho as (Ha & Hp & Hg & Hend). pose proof (grew_wf _ _ _ _ _ Hw Hg) as Hw'.
    assert (Hi : forall y, is_u64 y -> initial mm' y = initial (sp_mm s) y) by (intros y Hy; by apply (initial_grew k p start)).
    assert (Hst : vm_start (deref mm' p) <= page_base start).
    { destruct Hg as [->|(_ & _ & _ & _ & Hg)]; [|by rewrite (gd_deref _ _ _ _ _ Hg)].
      unfold area_for in Ha. destruct (first_above _ _) as [q|] eqn:Hf; [|done]. cbn [mbind option_bind] in Ha.
      destruct (Z.leb_spec (vm_start (deref (sp_mm s) q)) (page_base start)); [congruence|].
      destruct (has (vm_flags (deref (sp_mm s) q)) VM_GROWSDOWN && _); [|done]. injection Ha as <-. done. }
    split_and!; try done.
    + split; [by split|done|done| |done| |]; [by intros y _ Hz Hnz|intros; congruence|by intros y _ Hz Hnz].
    + rewrite Hi by done. unfold initial. rewrite Ha. reflexivity.
    + by apply (area_for_range k _ _ _ Hw Hu Ha).
  - apply not_true_is_false in E. rewrite E. destruct vma as [p|]; [|done]. apply Z.leb_gt in E. destruct Hat as [Hp Hst].
    exists (sp_mm s), (Some p). split; [done|]. split; [destruct s; by apply touched_refl|].
    assert (Ha : area_for (sp_mm s) start = Some (deref (sp_mm s) p)) by (eapply covering_area; [done..|lia]).
    split_and!; try done; [unfold initial; by rewrite Ha|by apply (area_for_range k _ _ _ Hw Hu Ha)].
Qed.

(** The outcome of asking for [nr] pages: all of them, or those before the first that
    cannot be had: an address without an area, or no memory. *)
Record gup_result (k : Z) (o : Z -> Z) (nr : nat) (start : Z) (got : list Z) s m (pgs : list Z) (ret : Z) s' m' : Prop := {
  gr_touched : touched k o s m s' m';
  gr_ample : forall j, ample (nr + j) m -> ample j m';
  gr_only : mapped_only (fun q => exists i, (i < nr)%nat /\ q = start / PAGE_SIZE + Z.of_nat i) s s';
  gr_pages : exists n, (n <= nr)%nat /\ pgs = rev got ++ pages_at (pgd s') start n /\ all_mapped (pgd s') start n /\
    (forall i, (i < n)%nat -> is_Some (initial (sp_mm s) (start + Z.of_nat i * PAGE_SIZE))) /\
    (n = nr /\ ret = Z.of_nat (length pgs) \/
     (n < nr)%nat /\ exists err, (err = - EFAULT /\ initial (sp_mm s) (start + Z.of_nat n * PAGE_SIZE) = None \/ err = - ENOMEM /\ ~ ample nr m) /\
       ret = if bool_decide (pgs = []) then err else Z.of_nat (length pgs))
}.

Lemma gup_stop k o nr start got s m s' m' err :
  touched k o s m s' m' -> (forall j, ample (S nr + j) m -> ample j m') ->
  mapped_only (eq (start / PAGE_SIZE)) s s' ->
  err = - EFAULT /\ initial (sp_mm s) start = None \/ err = - ENOMEM /\ ~ ample (S nr) m ->
  gup_result k o (S nr) start got s m (rev got) (if bool_decide (got = []) then err else Z.of_nat (length got)) s' m'.
Proof.
  intros Ht Ha Ho He. split; [done|done| |].
  { intros y Hy Hn. apply Ho; [done|]. intros E. apply Hn. exists 0%nat. split; [lia|]. rewrite <- E. lia. }
  exists 0%nat. simpl. rewrite app_nil_r, Z.add_0_r. split_and!; [lia|done|done|lia|].
  right. split; [lia|]. exists err. split; [done|]. rewrite length_rev.
  assert (bool_decide (rev got = []) = bool_decide (got = [])) as ->; [|done]. apply bool_decide_ext.
  split; [|by intros ->]. intros E%(f_equal (@rev Z)). by rewrite rev_involutive in E.
Qed.

Lemma gup_loop_ok k o nr : forall vma start got s m,
  space_ok k o s m -> is_u64 start -> start + (Z.of_nat nr - 1) * PAGE_SIZE < ULONG_MOD -> at_hand (sp_mm s) vma start ->
  exists pgs ret s' m', gup_loop nr vma start got s m = Some (pgs, ret, s', m') /\ gup_result k o nr start got s m pgs ret s' m'.
Proof.
  induction nr as [|nr IH]; intros vma start got s m Hs Hu Hlim Hat.
  { eexists _, _, _, _. split; [reflexivity|]. split; [by apply touched_refl|done|done|]. exists 0%nat. simpl.
    rewrite app_nil_r, length_rev. split_and!; [lia|done|done|lia|by left]. }
  assert (Hp0 : 0 < PAGE_SIZE) by done. cbn [gup_loop].
  destruct (gup_area k o s m vma start Hs Hu Hat) as (mm' & o' & -> & Ht1 & Ho). cbn [mbind option_bind].
  destruct o' as [p|]; [|by eexists _, _, _, _; split; [reflexivity|]; apply gup_stop; [done|intros j; apply ample_le; lia|done|left]].
  destruct Ho as (Hi & Hp & Hst & Htask). pose proof (tc_ok _ _ _ _ _ _ Ht1) as Hs1.
  assert (Hi0 : Some (fill_page (deref mm' p) start) = initial (sp_mm s) start)
    by (rewrite <- Hi; apply (tc_initial _ _ _ _ _ _ Ht1), Hu). pose proof (sk_wf _ _ _ _ Hs1) as Hw1. simpl in Hw1.
  destruct (gup_retry_ok k o mm' start (deref mm' p) (pgd s) m Hs1) as (res & t' & m' & -> & Ht2 & Ham & Hon & Hres).
  { assert (TASK_SIZE < ADDR_LIMIT) by done. unfold is_u64 in Hu. lia. }
  { by apply (wf_area _ _ Hw1). } { done. }
  cbn [mbind option_bind]. pose proof (touched_trans _ _ _ _ _ _ _ _ Ht1 Ht2) as Ht12. destruct res as [err|page].
  { destruct Hres as [-> Hna]. eexists _, _, _, _. split; [reflexivity|]. apply gup_stop; [done| |done|right].
    { intros j Ha. apply Ham. eapply ample_le; [|exact Ha]. lia. }
    split; [done|]. intros Ha. apply Hna. eapply ample_le; [|exact Ha]. lia. }
  destruct Hres as [-> Hne]. pose proof (tc_ok _ _ _ _ _ _ Ht2) as Hs2.
  destruct nr as [|nr'].
  { eexists _, _, _, _. split; [reflexivity|]. split; [done|done| |].
    { intros y Hy Hn. apply (Hon y Hy). intros E. apply Hn. exists 0%nat. split; [lia|]. rewrite <- E. lia. }
    exists 1%nat. simpl. rewrite length_app, length_rev. simpl.
    split_and!; [lia|done|done|done| |left]; [|split; [done|]; lia].
    intros i Hi'. replace (start + Z.of_nat i * PAGE_SIZE) with start by lia. by rewrite <- Hi0. }
  assert (Hu' : is_u64 (start + PAGE_SIZE)) by (unfold is_u64 in *; rewrite PAGE_SIZE_eq in *; lia).
  rewrite (wrap_small (start + PAGE_SIZE)) by done.
  destruct (IH (Some p) (start + PAGE_SIZE) (lego_pte_to_virt (look t' start) :: got) (Space mm' t') m' Hs2)
    as (pgs & ret & s3 & m3 & -> & Hr); [done|lia| |].
  { split; [done|]. simpl. etrans; [exact Hst|]. destruct (page_base_bounds start Hu) as (_ & _ & ?).
    apply (proj1 (page_base_le (page_base start) _ Hu' ltac:(by apply page_base_bounds))). lia. }
  eexists _, _, _, _. split; [reflexivity|]. destruct Hr as [Ht3 Ham3 Hon3 (n & Hn & Epgs & Hall & Hini & Hres)].
  pose proof (touched_trans _ _ _ _ _ _ _ _ Ht12 Ht3) as Ht13. split; [done| | |].
  { intros j Ha. apply Ham3, Ham. exact Ha. }
  { intros y Hy Hno. rewrite Hon3; [apply (Hon y Hy)|done|].
    - intros E. apply Hno. exists 0%nat. split; [lia|]. rewrite <- E. lia.
    - intros (i & Hlt & E). apply Hno. exists (S i). split; [lia|]. rewrite E. replace (start + PAGE_SIZE) with (start + 1 * PAGE_SIZE) by lia.
      rewrite Z.div_add by done. lia. }
  exists (S n). cbn [pages_at all_mapped].
  assert (El : look (pgd s3) start = look t' start).
  { apply (tc_look _ _ _ _ _ _ Ht3); [|done]. assert (TASK_SIZE < ADDR_LIMIT) by done. unfold is_u64 in Hu. lia. }
  rewrite El. split_and!; [lia|by rewrite Epgs; simpl; rewrite <- app_assoc|done|done| |].
  { intros [|i] Hlt; [rewrite Z.add_0_r; by rewrite <- Hi0|].
    replace (start + Z.of_nat (S i) * PAGE_SIZE) with (start + PAGE_SIZE + Z.of_nat i * PAGE_SIZE) by lia.
    rewrite <- (tc_initial _ _ _ _ _ _ Ht12) by (unfold is_u64 in *; rewrite PAGE_SIZE_eq in *; lia). apply Hini. lia. }
  destruct Hres as [[-> ->]|(Hlt & err & Herr & ->)]; [by left|right]. split; [lia|]. exists err. split; [|done].
  replace (start + Z.of_nat (S n) * PAGE_SIZE) with (start + PAGE_SIZE + Z.of_nat n * PAGE_SIZE) by lia.
  destruct Herr as [[-> Hi']|[-> Hna]]; [left|right]; (split; [done|]).
  - simpl in Hi'. rewrite <- Hi'. symmetry. apply (tc_initial _ _ _ _ _ _ Ht12). unfold is_u64 in *. rewrite PAGE_SIZE_eq in *. lia.
  - intros Ha. apply Hna, Ham, Ha.
Qed.
End touched.
