(* ===== verification/MemNode.v ===== *)
(** * Memory manager: the requests of the pcache

    The invariant of a memory node with its processes, and what the miss, zero-fill and
    flush requests do to the contents that the processes have. *)

From stdpp Require Import gmap.
From S2P Require Import Prelude RbTree VmaModel VmaTree VmaInv VmaSpec VmaLife PgtModel PgtTables PgtRange PgtCopy PgtMove.
From S2P Require Import MemModel MemFault MemSpec MemGup.

Section node.
Context `{PageAllocLaws, Files}.
Implicit Types (n : mem_node) (s : space) (m : pages) (o : Z -> Z).

(** The entries of all address spaces that map the page [f] *)
Definition node_cnt n (f : Z) : Z := sum (fun s => cnt f (pgd s)) (mms n).

(** [o]: the references held by others than page tables *)
Record node_ok o n : Prop := {
  nd_table : table_ok (node_pid_hash n);
  nd_mm : forall nid pid p, find_lego_task_by_pid nid pid (node_pid_hash n) = Some p -> is_Some (mms n !! tsk_mm p);
  nd_own : forall nid pid p nid' pid' p', find_lego_task_by_pid nid pid (node_pid_hash n) = Some p ->
    find_lego_task_by_pid nid' pid' (node_pid_hash n) = Some p' -> tsk_mm p = tsk_mm p' -> p = p';
  nd_wf : forall i s, mms n !! i = Some s -> exists k, wf k (sp_mm s);
  nd_tbl : forall i s, mms n !! i = Some s -> tbl_ok (pgd s);
  nd_frames : frames_ok (node_pages n);
  nd_kernel : kernel_pages (node_pages n);
  nd_rc : forall f, rc (node_pages n) f = node_cnt n f + o f;
  nd_rest : forall f, 0 <= o f
}.

(** No page is mapped twice. *)
Definition unshared n : Prop := forall f, rc (node_pages n) f <= 1.

(** What is in page [x] of an address space, and of a process *)
Definition node_view n (i x : Z) : option (list Z) := s ← mms n !! i; page_view s (node_pages n) x.
Definition process_view n (nid pid x : Z) : option (list Z) :=
  p ← find_lego_task_by_pid nid pid (node_pid_hash n); node_view n (tsk_mm p) x.

(** References from elsewhere than the space [i] *)
Definition others o n (i f : Z) : Z := sum (fun s => cnt f (pgd s)) (delete i (mms n)) + o f.

Lemma node_cnt_at n i s f o : mms n !! i = Some s -> node_cnt n f + o f = cnt f (pgd s) + others o n i f.
Proof. intros E. unfold node_cnt, others. rewrite (sum_delete _ _ i s E). lia. Qed.

Lemma node_space o n i s :
  node_ok o n -> mms n !! i = Some s -> exists k, space_ok k (others o n i) s (node_pages n).
Proof.
  intros Hn E. destruct (nd_wf _ _ Hn i s E) as [k Hw]. exists k. split; [done|by apply (nd_tbl _ _ Hn i)| |apply Hn].
  split; [apply Hn| |].
  - intros f. rewrite (nd_rc _ _ Hn). by apply node_cnt_at.
  - intros f. unfold others. pose proof (nd_rest _ _ Hn f). pose proof (sum_nonneg (fun s => cnt f (pgd s)) (delete i (mms n)) ltac:(intros; apply cnt_nonneg)). lia.
Qed.

(** Replacing one address space *)
Lemma node_replace o n i s k s' m' :
  node_ok o n -> mms n !! i = Some s -> space_ok k (others o n i) s' m' -> node_ok o (set_space i s' m' n).
Proof.
  intros [T M O W B F K R P] E [Hw Ht [Hf Hr Ho] Hk]. split; simpl; try done.
  - intros nid pid p Hp. destruct (M nid pid p Hp) as [x Hx]. destruct (decide (i = tsk_mm p)) as [->|]; [rewrite lookup_insert_eq; eauto|].
    rewrite lookup_insert_ne by done. eauto.
  - intros j x. destruct (decide (i = j)) as [<-|]; [rewrite lookup_insert_eq; intros [= <-]; eauto|].
    rewrite lookup_insert_ne by done. eauto.
  - intros j x. destruct (decide (i = j)) as [<-|]; [rewrite lookup_insert_eq; by intros [= <-]|].
    rewrite lookup_insert_ne by done. eauto.
  - intros f. rewrite Hr. unfold node_cnt. simpl. rewrite (sum_insert _ _ i s' s E). unfold others.
    rewrite (sum_delete _ _ i s E). lia.
Qed.

(** Faults in one address space: all contents are kept. *)
Lemma node_touched o n i s k s' m' :
  node_ok o n -> mms n !! i = Some s -> space_ok k (others o n i) s (node_pages n) ->
  touched k (others o n i) s (node_pages n) s' m' ->
  node_ok o (set_space i s' m' n) /\ (forall j x, is_u64 x -> node_view (set_space i s' m' n) j x = node_view n j x) /\
  (unshared n -> unshared (set_space i s' m' n)).
Proof.
  intros Hn E Hs Ht. split_and!.
  - eapply node_replace; [done|done|apply Ht].
  - intros j x Hx. unfold node_view. simpl. destruct (decide (i = j)) as [<-|Hne].
    + rewrite lookup_insert_eq, E. simpl. by eapply touched_view.
    + rewrite lookup_insert_ne by done. destruct (mms n !! j) as [s2|] eqn:E2; [|done]. simpl.
      destruct (node_space o n j s2 Hn E2) as [k2 Hs2]. eapply touched_other; [exact Ht|apply Hs2].
  - intros Hu f. specialize (Hu f). unfold rc in *. simpl. destruct (frames (node_pages n) !! f) as [fr|] eqn:Ef.
    + by rewrite (tc_frames _ _ _ _ _ _ Ht _ _ Ef).
    + destruct (frames m' !! f) as [fr|] eqn:Ef'; [|done]. by rewrite (tc_once _ _ _ _ _ _ Ht _ _ Ef Ef').
Qed.

Lemma process_view_same n n' nid pid x :
  node_pid_hash n' = node_pid_hash n -> (forall j, node_view n' j x = node_view n j x) ->
  process_view n' nid pid x = process_view n nid pid x.
Proof. intros E Hv. unfold process_view. rewrite E. destruct (find_lego_task_by_pid _ _ _); [|done]. apply Hv. Qed.

(** ** What the requests keep *)

(** The page at [x] of space [i] *)
Definition mapped_at n (i x page : Z) : Prop :=
  exists s, mms n !! i = Some s /\ is_Some (initial (sp_mm s) x) /\ look (pgd s) x <> 0 /\ lego_pte_to_virt (look (pgd s) x) = page.

Lemma initial_range k mm x : wf k mm -> is_u64 x -> is_Some (initial mm x) -> 0 <= x < ADDR_LIMIT.
Proof.
  intros Hw Hx [d Hi]. unfold initial in Hi. apply fmap_Some in Hi as (v & Ha & _). pose proof (area_for_range k _ _ _ Hw Hx Ha).
  assert (TASK_SIZE < ADDR_LIMIT) by done. lia.
Qed.

(** The pages at two addresses are the same. *)
Definition shares n (i x j y : Z) : Prop := exists page, mapped_at n i x page /\ mapped_at n j y page.

(** A page with one reference has one mapping. *)
Lemma mapped_once o n i x j y page :
  node_ok o n -> rc (node_pages n) page <= 1 -> is_u64 x -> is_u64 y -> mapped_at n i x page -> mapped_at n j y page ->
  i = j /\ page_base x = page_base y.
Proof.
  intros Hn Hc Hx Hy (s & Es & [d Hi] & Hne & <-) (s2 & Es2 & [d2 Hi2] & Hne2 & E). set (f := lego_pte_to_virt (look (pgd s) x)) in *.
  rewrite (nd_rc _ _ Hn), (node_cnt_at n i s f o Es) in Hc. pose proof (nd_rest _ _ Hn f) as Hr.
  pose proof (look_cnt (pgd s) x Hne) as H1'. fold f in H1'. unfold others in Hc.
  pose proof (sum_nonneg (fun s => cnt f (pgd s)) (delete i (mms n)) ltac:(intros; apply cnt_nonneg)) as Hsum.
  destruct (decide (i = j)) as [<-|Hij].
  - split; [done|]. rewrite Es in Es2. injection Es2 as <-. apply page_base_div; [done..|].
    destruct (decide (x / PAGE_SIZE = y / PAGE_SIZE)) as [|Hpn]; [done|]. exfalso.
    destruct (nd_wf _ _ Hn i s Es) as [k Hw].
    assert (0 <= x < ADDR_LIMIT /\ 0 <= y < ADDR_LIMIT) as [Hxl Hyl] by (split; eapply initial_range; eauto).
    pose proof (look_cnt_two (pgd s) x y (nd_tbl _ _ Hn i s Es) Hxl Hyl Hpn Hne Hne2 ltac:(by rewrite E)) as H2'.
    fold f in H2'. lia.
  - exfalso. pose proof (sum_delete (fun s => cnt f (pgd s)) (delete i (mms n)) j s2 ltac:(by rewrite lookup_delete_ne)) as Hd.
    cbv beta in Hd. pose proof (look_cnt (pgd s2) y Hne2) as H2'. rewrite E in H2'.
    pose proof (sum_nonneg (fun s => cnt f (pgd s)) (delete j (delete i (mms n))) ltac:(intros; apply cnt_nonneg)). lia.
Qed.

(** No page but that of [x] in space [i] got mapped. *)
Definition maps_only n (i x : Z) n' : Prop :=
  forall j y page, is_u64 y -> mapped_at n' j y page -> mapped_at n j y page \/ j = i /\ page_base y = page_base x.

(** Pages are mapped in areas only, or where a stack may grow. *)
Definition only_areas n : Prop := forall j s x,
  mms n !! j = Some s -> 0 <= x < ADDR_LIMIT -> look (pgd s) x <> 0 -> is_Some (initial (sp_mm s) x).

(** All contents are as before; tables and pages may have been added, and what shares a
    page did so before. *)
Record kept o n n' : Prop := {
  kp_ok : node_ok o n';
  kp_hash : node_pid_hash n' = node_pid_hash n;
  kp_spaces : dom (mms n') = dom (mms n);
  kp_view : forall j x, is_u64 x -> node_view n' j x = node_view n j x;
  kp_mapped : forall j x page, is_u64 x -> mapped_at n j x page -> mapped_at n' j x page;
  kp_shares : forall i x j y, is_u64 x -> is_u64 y -> shares n' i x j y ->
    i = j /\ page_base x = page_base y \/ shares n i x j y;
  kp_areas : only_areas n -> only_areas n';
  kp_once : unshared n -> unshared n'
}.

Lemma kept_refl o n : node_ok o n -> kept o n n.
Proof. split; auto. Qed.

(** A page that was in use is mapped where it was. *)
Lemma touched_old k o n i s s' m' j x page :
  mms n !! i = Some s -> touched k o s (node_pages n) s' m' -> is_u64 x -> is_Some (frames (node_pages n) !! page) ->
  mapped_at (set_space i s' m' n) j x page -> mapped_at n j x page.
Proof.
  intros Es Ht Hx [fr Hfr] (s2 & E2 & Hi & Hne & <-). simpl in E2. destruct (decide (i = j)) as [<-|Hij].
  - rewrite lookup_insert_eq in E2. injection E2 as <-.
    pose proof (initial_range k _ _ (sk_wf _ _ _ _ (tc_ok _ _ _ _ _ _ Ht)) Hx Hi) as Hr.
    destruct (decide (look (pgd s) x = 0)) as [Hz|Hnz].
    + by rewrite (tc_fresh _ _ _ _ _ _ Ht x Hr Hz Hne) in Hfr.
    + exists s. rewrite <- (tc_initial _ _ _ _ _ _ Ht) by done. rewrite (tc_look _ _ _ _ _ _ Ht) by done. done.
  - rewrite lookup_insert_ne in E2 by done. by exists s2.
Qed.

Lemma maps_only_touched k o n i s x s' m' :
  mms n !! i = Some s -> touched k o s (node_pages n) s' m' -> is_u64 x -> mapped_only (eq (x / PAGE_SIZE)) s s' ->
  maps_only n i x (set_space i s' m' n).
Proof.
  intros Es Ht Hx Ho j y page Hy (s2 & E2 & Hi & Hne & <-). simpl in E2. destruct (decide (i = j)) as [<-|Hij].
  - rewrite lookup_insert_eq in E2. injection E2 as <-.
    pose proof (initial_range k _ _ (sk_wf _ _ _ _ (tc_ok _ _ _ _ _ _ Ht)) Hy Hi) as Hr.
    destruct (decide (x / PAGE_SIZE = y / PAGE_SIZE)) as [E|E]; [right; split; [done|]; by apply page_base_div|left].
    exists s. rewrite <- (tc_initial _ _ _ _ _ _ Ht) by done. rewrite <- (Ho y Hr E). done.
  - rewrite lookup_insert_ne in E2 by done. left. by exists s2.
Qed.

Lemma kept_touched o n i s k s' m' :
  node_ok o n -> mms n !! i = Some s -> space_ok k (others o n i) s (node_pages n) ->
  touched k (others o n i) s (node_pages n) s' m' -> kept o n (set_space i s' m' n).
Proof.
  intros Hn E Hs Ht. destruct (node_touched o n i s k s' m' Hn E Hs Ht) as (H1' & H2' & H3'). split; try done.
  - simpl. apply dom_insert_lookup_L. eauto.
  - intros j x page Hx (s2 & E2 & Hi & Hne & Hp). destruct (decide (i = j)) as [<-|Hij].
    + rewrite E in E2. injection E2 as <-. exists s'. simpl. rewrite lookup_insert_eq, (tc_initial _ _ _ _ _ _ Ht) by done.
      rewrite (tc_look _ _ _ _ _ _ Ht) by (try done; eapply initial_range; eauto; apply Hs). done.
    + exists s2. simpl. by rewrite lookup_insert_ne.
  - intros j x l y Hx Hy (page & Hm1 & Hm2). destruct (frames (node_pages n) !! page) as [fr|] eqn:Hfr.
    { right. exists page. split; eapply touched_old; eauto. }
    left. eapply mapped_once; eauto. unfold rc. simpl. destruct (frames m' !! page) as [fr|] eqn:Hfr'; [|done].
    by rewrite (tc_once _ _ _ _ _ _ Ht _ _ Hfr Hfr').
  - intros Ha j s2 x E2 Hx Hne. simpl in E2. destruct (decide (i = j)) as [<-|Hij]; [|rewrite lookup_insert_ne in E2 by done; by apply (Ha j)].
    rewrite lookup_insert_eq in E2. injection E2 as <-. rewrite (tc_initial _ _ _ _ _ _ Ht) by (unfold is_u64, ULONG_MOD, ADDR_LIMIT in *; lia).
    destruct (decide (look (pgd s) x = 0)) as [Hz|]; [|by apply (Ha i)]. rewrite <- (tc_new _ _ _ _ _ _ Ht x Hx Hz Hne).
    destruct (mapped_frame _ _ _ (sk_balanced _ _ _ _ (tc_ok _ _ _ _ _ _ Ht)) x Hne) as [fr Hfr]. unfold data_of. rewrite Hfr. by eexists.
Qed.

Lemma set_space_same n i s : mms n !! i = Some s -> set_space i s (node_pages n) n = n.
Proof. intros E. unfold set_space. rewrite insert_id by done. by destruct n. Qed.

(** ** Misses *)

Lemma first_above_page k mm x : wf k mm -> is_u64 x -> first_above mm x = first_above mm (page_base x).
Proof.
  intros Hw Hx. unfold first_above. pose proof (wf_area _ _ Hw) as Ha. induction (mmap mm) as [|p l IH]; [done|]. simpl.
  rewrite IH by (intros; apply Ha; set_solver). destruct (Ha p ltac:(set_solver)) as (_ & A2 & _).
  assert ((x <? vm_end (deref mm p)) = (page_base x <? vm_end (deref mm p))) as ->; [|done].
  pose proof (page_base_le (vm_end (deref mm p)) x Hx A2). apply eq_true_iff_eq. rewrite !Z.ltb_lt. lia.
Qed.

(** What a miss on [x] returns and leaves: the page, or the error *)
Record missed (k : Z) o s m (x ret : Z) (va : option Z) s' m' : Prop := {
  ms_touched : touched k o s m s' m';
  ms_ample : forall j, ample (S j) m -> ample j m';
  ms_only : mapped_only (eq (x / PAGE_SIZE)) s s';
  ms_ret : match initial (sp_mm s) x with
    | None => ret = VM_FAULT_SIGSEGV
    | Some _ => ret = VM_FAULT_OOM /\ ~ ample 1 m \/
        ret = 0 /\ va = Some (lego_pte_to_virt (look (pgd s') x)) /\ look (pgd s') x <> 0
    end
}.

Lemma missed_none k o s m x va : space_ok k o s m -> initial (sp_mm s) x = None -> missed k o s m x VM_FAULT_SIGSEGV va s m.
Proof. intros Hs Hi. split; [by apply touched_refl|intros j; apply ample_le; lia|done|by rewrite Hi]. Qed.

(** The label [good_area] *)
Lemma missed_area k o s m x flags mm v :
  touched k o s m (Space mm (pgd s)) m -> area_ok v -> initial mm x = Some (fill_page v x) -> 0 <= x < ADDR_LIMIT ->
  exists ret va t' m', handle_lego_mm_fault v x flags (pgd s) m = Some (ret, va, t', m') /\
    missed k o s m x ret va (Space mm t') m'.
Proof.
  intros Htc Hv Hi Hr. pose proof (tc_ok _ _ _ _ _ _ Htc) as Hs'.
  assert (Hx : is_u64 x) by (unfold is_u64, ULONG_MOD, ADDR_LIMIT in *; lia).
  destruct (fault_touched k _ mm x v flags (pgd s) m Hs' Hr Hv Hi) as (ret & va & t' & m' & E & Ht' & Hz & Ham & Hret & Hon).
  exists ret, va, t', m'. split; [done|]. split; [by eapply touched_trans|done|done|].
  pose proof (tc_initial _ _ _ _ _ _ Htc x Hx) as Ei. simpl in Ei. rewrite <- Ei, Hi.
  destruct Hret as [[-> _]|(-> & Hva & Hne)]; [left|by right]. split; [done|]. by intros ?%Hz.
Qed.

(** With the area [q] found, the stack extended in [mm] if need be *)
Lemma missed_grown k o s m x flags mm q :
  space_ok k o s m -> is_u64 x -> grew k q (page_base x) (sp_mm s) mm -> q ∈ mmap mm ->
  area_for (sp_mm s) x = Some (deref mm q) ->
  exists ret va t' m', handle_lego_mm_fault (deref mm q) x flags (pgd s) m = Some (ret, va, t', m') /\
    missed k o s m x ret va (Space mm t') m'.
Proof.
  intros [Hw Ht Hb Hk] Hx Hg Hq Ha. pose proof (grew_wf _ _ _ _ _ Hw Hg) as Hw'.
  assert (Hi : forall y, is_u64 y -> initial mm y = initial (sp_mm s) y) by (intros y Hy; by apply (initial_grew k q x)).
  apply missed_area.
  - split; try done. intros; congruence.
  - by apply (wf_area _ _ Hw').
  - rewrite Hi by done. unfold initial. by rewrite Ha.
  - pose proof (area_for_range k _ _ _ Hw Hx Ha). assert (TASK_SIZE < ADDR_LIMIT) by done. lia.
Qed.

Lemma common_miss_ok o n p s k x flags :
  mms n !! tsk_mm p = Some s -> space_ok k (others o n (tsk_mm p)) s (node_pages n) -> is_u64 x ->
  exists ret va s' m', common_handle_p2m_miss p x flags n = Some (ret, va, set_space (tsk_mm p) s' m' n) /\
    missed k (others o n (tsk_mm p)) s (node_pages n) x ret va s' m'.
Proof.
  intros Es Hs Hx. pose proof Hs as [Hw Ht Hb Hk]. unfold common_handle_p2m_miss.
  assert (Hsegv : area_for (sp_mm s) x = None -> exists ret va s' m',
    Some (VM_FAULT_SIGSEGV, None, n) = Some (ret, va, set_space (tsk_mm p) s' m' n) /\
    missed k (others o n (tsk_mm p)) s (node_pages n) x ret va s' m').
  { intros Ea. exists VM_FAULT_SIGSEGV, None, s, (node_pages n). rewrite set_space_same by done. split; [done|].
    apply missed_none; [done|]. unfold initial. by rewrite Ea. }
  pose proof (missed_grown k (others o n (tsk_mm p)) s (node_pages n) x flags) as Hgood. unfold area_for in Hsegv, Hgood.
  rewrite Es. cbn [mbind option_bind]. rewrite (find_vma_ok k), (first_above_page k) by done.
  destruct (first_above (sp_mm s) (page_base x)) as [q|] eqn:Hf; [|by apply Hsegv]. cbn [mbind option_bind] in *.
  destruct (first_above_Some _ _ _ Hf) as (pre & post & Hl & Hend & _). assert (Hq : q ∈ mmap (sp_mm s)) by (rewrite Hl; set_solver).
  destruct (wf_area _ _ Hw q Hq) as (A1 & _). pose proof (page_base_le _ x Hx A1) as Hle.
  destruct (Z.leb_spec (vm_start (deref (sp_mm s) q)) (page_base x)) as [Hst|Hst].
  { rewrite (proj2 (Z.leb_le _ x)) by lia. destruct (Hgood (sp_mm s) q) as (ret & va & t' & m' & -> & Hm); try done; [by left|].
    cbn [mbind option_bind]. eauto 10. }
  rewrite (proj2 (Z.leb_gt _ x)) by lia. destruct (has (vm_flags (deref (sp_mm s) q)) VM_GROWSDOWN) eqn:Hgd; cbn [negb andb] in *; [|by apply Hsegv].
  destruct (expand_area k (sp_mm s) Hw x q Hx Hf Hst) as (mm' & ret & -> & Hc). cbn [mbind option_bind].
  destruct Hc as [(-> & -> & Hc)|(-> & Hc & Hg)]; rewrite Hc in *; cbn [mbind option_bind].
  { destruct s; simpl. rewrite set_space_same by done. by apply Hsegv. }
  change (negb (0 =? 0)) with false. cbv iota.
  destruct (Hgood mm' q) as (ret & va & t' & m' & -> & Hm); try done.
  - right. done.
  - by rewrite (gd_mmap _ _ _ _ _ Hg).
  - by rewrite (gd_deref _ _ _ _ _ Hg).
  - cbn [mbind option_bind]. eauto 10.
Qed.

(** ** The page of an address *)

Lemma page_mapped_view n i x page : mapped_at n i x page -> node_view n i x = data_of (node_pages n) page.
Proof.
  intros (s & Es & [d Hi] & Hne & <-). unfold node_view, page_view. rewrite Es. cbn [mbind option_bind]. rewrite Hi, pte_at_look.
  cbn [mbind option_bind]. by rewrite (proj2 (Z.eqb_neq _ 0) Hne).
Qed.

Lemma page_view_None k o s m x : space_ok k o s m -> page_view s m x = None <-> initial (sp_mm s) x = None.
Proof.
  intros [_ _ Hb _]. unfold page_view. destruct (initial (sp_mm s) x); [|done]. cbn [mbind option_bind]. rewrite pte_at_look.
  destruct (Z.eqb_spec (look (pgd s) x) 0) as [|Hne]; [done|]. destruct (mapped_frame _ _ _ Hb x Hne) as [fr Hf].
  unfold data_of. by rewrite Hf.
Qed.

Lemma mapped_touched k o s m s' m' x i n :
  touched k o s m s' m' -> is_u64 x -> is_Some (initial (sp_mm s) x) -> look (pgd s') x <> 0 ->
  mapped_at (set_space i s' m' n) i x (lego_pte_to_virt (look (pgd s') x)).
Proof.
  intros Ht Hx Hi Hne. exists s'. simpl. rewrite lookup_insert_eq, (tc_initial _ _ _ _ _ _ Ht) by done. done.
Qed.

Lemma miss_view o n p x flags :
  node_ok o n -> is_Some (mms n !! tsk_mm p) -> is_u64 x ->
  exists ret va n', common_handle_p2m_miss p x flags n = Some (ret, va, n') /\ kept o n n' /\
    (forall j, ample (S j) (node_pages n) -> ample j (node_pages n')) /\ maps_only n (tsk_mm p) x n' /\
    match node_view n (tsk_mm p) x with
    | None => ret = VM_FAULT_SIGSEGV
    | Some _ => ret = VM_FAULT_OOM /\ ~ ample 1 (node_pages n) \/
        ret = 0 /\ exists page, va = Some page /\ mapped_at n' (tsk_mm p) x page
    end.
Proof.
  intros Hn [s Es] Hx. destruct (node_space o n _ s Hn Es) as [k Hs].
  destruct (common_miss_ok o n p s k x flags Es Hs Hx) as (ret & va & s' & m' & -> & [Ht Ha Hon Hret]).
  pose proof (kept_touched _ _ _ _ _ _ _ Hn Es Hs Ht) as Hk. eexists _, _, _. split; [reflexivity|]. split_and!; [done|done|by eapply maps_only_touched|].
  unfold node_view. rewrite Es. cbn [mbind option_bind]. destruct (initial (sp_mm s) x) as [d|] eqn:Hi.
  - destruct (page_view s (node_pages n) x) as [c|] eqn:Hv; [|apply (page_view_None k _ _ _ _ Hs) in Hv; congruence].
    destruct Hret as [?|(-> & -> & Hne)]; [by left|right]. split; [done|]. eexists. split; [done|]. eapply mapped_touched; eauto.
  - by rewrite (proj2 (page_view_None k _ _ _ x Hs) Hi).
Qed.

Lemma do_miss_ok o n p x flags :
  node_ok o n -> is_Some (mms n !! tsk_mm p) -> is_u64 x ->
  exists rep n', do_handle_p2m_pcache_miss p x flags n = Some (rep, n') /\ kept o n n' /\
    (forall j, ample (S j) (node_pages n) -> ample j (node_pages n')) /\ maps_only n (tsk_mm p) x n' /\
    match node_view n (tsk_mm p) x with
    | None => rep = Miss_error RET_ESIGSEGV
    | Some _ => rep = Miss_error ENOMEM /\ ~ ample 1 (node_pages n) \/ exists page, rep = Miss_page page /\ mapped_at n' (tsk_mm p) x page
    end.
Proof.
  intros Hn Hs Hx. unfold do_handle_p2m_pcache_miss. destruct (miss_view o n p x flags Hn Hs Hx) as (ret & va & n' & -> & Hk & Ha & Hon & Hv).
  cbn [mbind option_bind]. destruct (node_view n (tsk_mm p) x); [destruct Hv as [[-> Hna]|(-> & page & -> & Hm)]|subst ret];
    eexists _, _; (split; [reflexivity|]); split_and!; eauto.
Qed.

Lemma do_zerofill_ok o n p x flags :
  node_ok o n -> is_Some (mms n !! tsk_mm p) -> is_u64 x ->
  exists ret n', do_handle_p2m_zerofill_miss p x flags n = Some (ret, n') /\ kept o n n' /\
    match node_view n (tsk_mm p) x with
    | None => ret = - EFAULT
    | Some _ => ret = - EFAULT /\ ~ ample 1 (node_pages n) \/ ret = 0 /\ exists page, mapped_at n' (tsk_mm p) x page
    end.
Proof.
  intros Hn Hs Hx. unfold do_handle_p2m_zerofill_miss. destruct (miss_view o n p x flags Hn Hs Hx) as (ret & va & n' & -> & Hk & Ha & Hon & Hv).
  cbn [mbind option_bind]. destruct (node_view n (tsk_mm p) x); [destruct Hv as [[-> Hna]|(-> & page & -> & Hm)]|subst ret];
    eexists _, _; (split; [reflexivity|]); split_and!; eauto.
Qed.

(** ** Flushes *)

(** Writing a page that is in use *)
Lemma write_line_ok m page fr line :
  frames m !! page = Some fr -> frames_ok m -> kernel_pages m ->
  exists m', write_line page line m = Some m' /\ pg_tables m' = pg_tables m /\ size (frames m') = size (frames m) /\
    frames_ok m' /\ kernel_pages m' /\ (forall f, rc m' f = rc m f) /\
    forall f, data_of m' f = if decide (f = page) then Some line else data_of m f.
Proof.
  intros E Hf Hk. unfold write_line. rewrite E. cbn [mbind option_bind]. eexists. split; [reflexivity|]. split_and!; [done| | | | |].
  - simpl. by rewrite map_size_insert_Some.
  - intros f fr'. simpl. destruct (decide (page = f)) as [<-|]; [rewrite lookup_insert_eq; intros [= <-]; exact (Hf page fr E)|].
    rewrite lookup_insert_ne by done. apply Hf.
  - intros f fr'. simpl. destruct (decide (page = f)) as [<-|]; [intros _; by apply (Hk page fr)|]. rewrite lookup_insert_ne by done. apply Hk.
  - intros f. unfold rc. simpl. destruct (decide (page = f)) as [<-|]; [by rewrite lookup_insert_eq, E|by rewrite lookup_insert_ne].
  - intros f. unfold data_of. simpl. destruct (decide (f = page)) as [->|]; [by rewrite lookup_insert_eq|by rewrite lookup_insert_ne].
Qed.

Lemma node_view_Some o n j x : node_ok o n -> is_Some (node_view n j x) <-> exists s, mms n !! j = Some s /\ is_Some (initial (sp_mm s) x).
Proof.
  intros Hn. unfold node_view. destruct (mms n !! j) as [s|] eqn:Es; [|by split; [intros []|intros (? & ? & _)]]. cbn [mbind option_bind].
  destruct (node_space o n j s Hn Es) as [k Hs]. rewrite <- !not_eq_None_Some, (page_view_None k _ _ _ x Hs). split.
  - intros Hi. exists s. split; [done|]. by apply not_eq_None_Some.
  - intros (s2 & [= <-] & Hi). by apply not_eq_None_Some.
Qed.

(** The line was written at [va] of space [i], and at all that shares the page. *)
Record flushed o n (i va : Z) (line : list Z) n' : Prop := {
  fd_ok : node_ok o n';
  fd_hash : node_pid_hash n' = node_pid_hash n;
  fd_spaces : dom (mms n') = dom (mms n);
  fd_mapped : shares n' i va i va;
  fd_written : forall j x, is_u64 x -> shares n' i va j x -> node_view n' j x = Some line;
  fd_view : forall j x, is_u64 x -> ~ shares n' i va j x -> node_view n' j x = node_view n j x;
  fd_pages : forall j x page, is_u64 x -> mapped_at n j x page -> mapped_at n' j x page;
  fd_only : maps_only n i va n';
  fd_has : forall j x, is_u64 x -> is_Some (node_view n' j x) <-> is_Some (node_view n j x);
  fd_areas : only_areas n -> only_areas n';
  fd_once : unshared n -> unshared n'
}.

Lemma flushed_write o n n1 i va page line m' :
  kept o n n1 -> maps_only n i va n1 -> mapped_at n1 i va page -> frames_ok m' -> kernel_pages m' -> (forall f, rc m' f = rc (node_pages n1) f) ->
  (forall f, data_of m' f = if decide (f = page) then Some line else data_of (node_pages n1) f) ->
  flushed o n i va line (MemNode (node_pid_hash n1) (mms n1) m').
Proof.
  intros [Hn Hh Hs Hv Hpg Hsh Har Ho] Hon Hm Hf Hk Hr Hd. set (n2 := MemNode _ _ _).
  assert (Hview : forall j x, node_view n2 j x = s ← mms n1 !! j; page_view s m' x) by done.
  assert (Hn2 : node_ok o n2) by (destruct Hn; split; try done; intros f; simpl; rewrite Hr; auto).
  split; try done.
  - by exists page.
  - intros j x Hx (page' & Hm1 & Hm2). rewrite (page_mapped_view n2 j x page' Hm2). simpl. rewrite Hd. destruct Hm as (s & E1 & _ & _ & E2).
    destruct Hm1 as (s' & E1' & _ & _ & E2'). simpl in E1'. by rewrite decide_True by congruence.
  - intros j x Hx Hns. rewrite Hview, <- Hv by done. unfold node_view. destruct (mms n1 !! j) as [s2|] eqn:E2; [|done].
    cbn [mbind option_bind]. unfold page_view. destruct (initial (sp_mm s2) x) eqn:Hi; [|done]. cbn [mbind option_bind]. rewrite pte_at_look.
    destruct (Z.eqb_spec (look (pgd s2) x) 0) as [|Hne]; [done|]. rewrite Hd. destruct (decide _) as [Ep|]; [|done].
    exfalso. apply Hns. exists page. split; [exact Hm|]. exists s2. by rewrite Hi.
  - intros j x Hx. rewrite <- Hv by done. rewrite (node_view_Some o n2), (node_view_Some o n1) by done. done.
  - intros Hu f. simpl. rewrite Hr. by apply Ho.
Qed.

Lemma flush_page_ok o n p va line :
  node_ok o n -> is_Some (mms n !! tsk_mm p) -> is_u64 va ->
  exists ok n', flush_page p va line n = Some (ok, n') /\
    (forall j, ample (S j) (node_pages n) -> ample j (node_pages n')) /\ maps_only n (tsk_mm p) va n' /\
    match node_view n (tsk_mm p) va with
    | None => ok = false /\ kept o n n'
    | Some _ => ok = false /\ ~ ample 1 (node_pages n) /\ kept o n n' \/ ok = true /\ flushed o n (tsk_mm p) va line n'
    end.
Proof.
  intros Hn [s Es] Hx. destruct (node_space o n _ s Hn Es) as [k Hs]. unfold flush_page, get_user_pages. rewrite Es. cbn [mbind option_bind].
  destruct (gup_loop_ok k _ 1 None va [] s (node_pages n) Hs Hx) as (pgs & ret & s' & m' & -> & [Ht Ha Hon Hp]); [unfold is_u64 in Hx; lia|done|].
  cbn [mbind option_bind]. pose proof (kept_touched _ _ _ _ _ _ _ Hn Es Hs Ht) as Hk.
  assert (Hone : maps_only n (tsk_mm p) va (set_space (tsk_mm p) s' m' n)).
  { eapply maps_only_touched; eauto. intros y Hy Hne. apply Hon; [done|]. intros (i & Hlt & E). apply Hne. rewrite E. lia. }
  destruct Hp as (nr & Hnr & -> & Hall & Hini & Hres). destruct Hres as [[-> ->]|(Hlt & err & Herr & ->)].
  - simpl. destruct Hall as [Hne _]. specialize (Hini 0%nat ltac:(lia)). simpl in Hini. rewrite Z.add_0_r in Hini.
    pose proof (mapped_touched _ _ _ _ _ _ va (tsk_mm p) n Ht Hx Hini Hne) as Hm. set (page := lego_pte_to_virt _) in *.
    pose proof (tc_ok _ _ _ _ _ _ Ht) as [_ _ Hb' Hk']. destruct (mapped_frame _ _ _ Hb' va Hne) as [fr Hfr]. fold page in Hfr.
    destruct (write_line_ok m' page fr line Hfr) as (m2 & -> & Htb & Hsz & Hf2 & Hk2 & Hr2 & Hd2); [apply Hb'|done|]. cbn [mbind option_bind].
    eexists _, _. split; [reflexivity|]. split; [intros j Hj; apply (ample_size j j m' m2); [simpl; lia|done|by apply Ha]|].
    split; [exact Hone|].
    assert (Hfl : flushed o n (tsk_mm p) va line (set_space (tsk_mm p) s' m2 n)) by exact (flushed_write o n _ _ va page line m2 Hk Hone Hm Hf2 Hk2 Hr2 Hd2).
    destruct (node_view n (tsk_mm p) va) eqn:Hv; [by right|]. exfalso. unfold node_view in Hv. rewrite Es in Hv. cbn [mbind option_bind] in Hv.
    apply (page_view_None k _ _ _ _ Hs) in Hv. destruct Hini. congruence.
  - assert (nr = 0%nat) as -> by lia. simpl in *. rewrite Z.add_0_r in Herr.
    assert ((err =? 1) = false) as -> by (destruct Herr as [[-> _]|[-> _]]; done). eexists _, _. split; [reflexivity|]. split; [done|]. split; [done|].
    unfold node_view. rewrite Es. cbn [mbind option_bind].
    destruct (page_view s (node_pages n) va) as [c|] eqn:Hv; [|done]. left. destruct Herr as [[_ Hi]|[_ Hna]]; [|done].
    apply (page_view_None k _ _ _ _ Hs) in Hi. congruence.
Qed.

(** Without sharing, the line is the contents of that page and nothing else changes. *)
Lemma flushed_unshared o n i va line n' j x :
  flushed o n i va line n' -> unshared n -> is_u64 va -> is_u64 x ->
  node_view n' j x = if decide (j = i /\ page_base x = page_base va) then Some line else node_view n j x.
Proof.
  intros Hf Hu Hva Hx. destruct (decide _) as [[-> E]|Hne].
  - apply (fd_written _ _ _ _ _ _ Hf); [done|]. destruct (fd_mapped _ _ _ _ _ _ Hf) as (page & Hm & _). exists page. split; [done|].
    destruct Hm as (s & Es & Hi & Hl & Hp). destruct (nd_wf _ _ (fd_ok _ _ _ _ _ _ Hf) i s Es) as [k Hw]. exists s.
    assert (Hix : is_Some (initial (sp_mm s) x)) by (by rewrite (initial_page _ x va)).
    rewrite (look_same_page (pgd s) x va); [done|by eapply initial_range..|by apply page_base_div].
  - apply (fd_view _ _ _ _ _ _ Hf); [done|]. intros (page & Hm & Hm'). apply Hne.
    destruct (mapped_once o n' i va j x page) as [-> ->]; try done; [apply Hf|by apply (fd_once _ _ _ _ _ _ Hf)].
Qed.
End node.
