(* ===== verification/MemRequest.v ===== *)
(** * Memory manager: the requests of the pcache, per process

    What the handlers of a memory node answer, and what they do to the contents that
    each process has; and how many pages the processes can use. *)

From stdpp Require Import gmap.
From S2P Require Import Prelude RbTree VmaModel VmaTree VmaInv VmaSpec VmaLife PgtModel PgtTables PgtRange PgtCopy PgtMove MemModel MemFault MemSpec MemGup MemNode.

Section request.
Context `{PageAllocLaws, Files}.
Implicit Types (n : mem_node) (o : Z -> Z).

(** The contents after a line was written to a page; none if the page has no area *)
Definition write_view (nid pid va : Z) (line : list Z) (view : Z -> Z -> Z -> option (list Z)) (nid' pid' x : Z) : option (list Z) :=
  if decide (nid' = nid /\ pid' = pid /\ page_base x = page_base va) then _ ← view nid' pid' x; Some line
  else view nid' pid' x.

(** The node is still in order, [v] are its contents now, [j] pages were taken. *)
Record becomes o n (j : nat) (v : Z -> Z -> Z -> option (list Z)) n' : Prop := {
  bc_ok : node_ok o n';
  bc_unshared : unshared n';
  bc_hash : node_pid_hash n' = node_pid_hash n;
  bc_spaces : dom (mms n') = dom (mms n);
  bc_view : forall nid pid x, is_u64 x -> process_view n' nid pid x = v nid pid x;
  bc_mapped : forall i x page, is_u64 x -> mapped_at n i x page -> mapped_at n' i x page;
  bc_has : forall i x, is_u64 x -> is_Some (node_view n' i x) <-> is_Some (node_view n i x);
  bc_areas : only_areas n -> only_areas n';
  bc_ample : forall i, ample (j + i) (node_pages n) -> ample i (node_pages n')
}.

Lemma becomes_same o n : node_ok o n -> unshared n -> becomes o n 0 (process_view n) n.
Proof. by split. Qed.

Lemma becomes_kept o n n' :
  unshared n -> kept o n n' -> (forall j, ample (S j) (node_pages n) -> ample j (node_pages n')) -> becomes o n 1 (process_view n) n'.
Proof.
  intros Hu [Hn Hh Hs Hv Hm Hsh Har Ho] Ha. split; [done|by apply Ho|done|done| |done|intros j x Hx; by rewrite Hv|done|done].
  intros nid pid x Hx. apply process_view_same; [done|]. intros j. by apply Hv.
Qed.

(** A task found is the one of these numbers. *)
Lemma found_task nid pid h p : find_lego_task_by_pid nid pid h = Some p -> pid <> 0 /\ tsk_node p = nid /\ tsk_pid p = pid.
Proof.
  unfold find_lego_task_by_pid. destruct (Z.eqb_spec pid 0) as [|Hp]; [done|]. intros [_ E]%List.find_some.
  unfold is_task in E. apply andb_true_iff in E as [E1 E2]. by apply Z.eqb_eq in E1, E2.
Qed.

Lemma view_page o n nid pid x y :
  node_ok o n -> is_u64 x -> is_u64 y -> page_base x = page_base y -> process_view n nid pid x = process_view n nid pid y.
Proof.
  intros Hn Hx Hy E. unfold process_view. destruct (find_lego_task_by_pid nid pid _) as [p|]; [|done]. cbn [mbind option_bind].
  unfold node_view. destruct (mms n !! tsk_mm p) as [s|] eqn:Es; [|done]. cbn [mbind option_bind]. unfold page_view.
  rewrite (initial_page _ x y E). destruct (initial (sp_mm s) y) as [d|] eqn:Hi; [|done]. cbn [mbind option_bind].
  destruct (nd_wf _ _ Hn _ _ Es) as [k Hw]. rewrite !pte_at_look, (look_same_page (pgd s) x y); [done|..|by apply page_base_div].
  all: eapply initial_range; eauto. by rewrite (initial_page _ x y E), Hi.
Qed.

Lemma becomes_flushed o n n' nid pid p va line :
  node_ok o n -> unshared n -> is_u64 va -> find_lego_task_by_pid nid pid (node_pid_hash n) = Some p ->
  is_Some (process_view n nid pid va) ->
  flushed o n (tsk_mm p) va line n' -> (forall j, ample (S j) (node_pages n) -> ample j (node_pages n')) ->
  becomes o n 1 (write_view nid pid va line (process_view n)) n'.
Proof.
  intros Hn Hu Hva Hp Hv Hf Ha. pose proof (fd_once _ _ _ _ _ _ Hf Hu) as Hu'. split; try done; try apply Hf.
  intros nid' pid' x Hx. unfold write_view. assert (E : process_view n' nid' pid' x = p' ← find_lego_task_by_pid nid' pid' (node_pid_hash n);
    node_view n' (tsk_mm p') x) by (unfold process_view; by rewrite (fd_hash _ _ _ _ _ _ Hf)). rewrite E. clear E.
  destruct (decide (nid' = nid /\ pid' = pid /\ page_base x = page_base va)) as [(-> & -> & Eb)|Hne].
  - rewrite (view_page o n nid pid x va) by done. destruct Hv as [d ->]. rewrite Hp. cbn [mbind option_bind].
    rewrite (flushed_unshared _ _ _ _ _ _ _ _ Hf) by done. by rewrite decide_True.
  - unfold process_view. destruct (find_lego_task_by_pid nid' pid' _) as [p'|] eqn:Hp'; [|done]. cbn [mbind option_bind].
    rewrite (flushed_unshared _ _ _ _ _ _ _ _ Hf) by done. rewrite decide_False; [done|]. intros [Em Eb]. apply Hne.
    pose proof (nd_own _ _ Hn _ _ _ _ _ _ Hp' Hp Em) as ->. apply found_task in Hp as (_ & <- & <-), Hp' as (_ & <- & <-). done.
Qed.

(** ** Flushes *)

Lemma handle_flush_ok o n nid pid va line :
  node_ok o n -> unshared n -> is_u64 va -> ample 1 (node_pages n) ->
  exists ret n', handle_p2m_flush_one nid pid va line n = Some (ret, n') /\
    becomes o n 1 (write_view nid pid va line (process_view n)) n' /\
    ret = match find_lego_task_by_pid nid pid (node_pid_hash n) with
          | None => - ESRCH
          | Some _ => match process_view n nid pid va with None => - EFAULT | Some _ => 0 end
          end.
Proof.
  intros Hn Hu Hva Ham. unfold handle_p2m_flush_one.
  assert (Hnone : forall n', process_view n nid pid va = None -> becomes o n 1 (process_view n) n' ->
    becomes o n 1 (write_view nid pid va line (process_view n)) n').
  { intros n' Hv [? ? ? ? Hb ? ? ? ?]. split; try done. intros nid' pid' x Hx. rewrite Hb by done. unfold write_view.
    destruct (decide _) as [(-> & -> & Eb)|]; [|done]. by rewrite (view_page o n nid pid x va), Hv. }
  destruct (find_lego_task_by_pid nid pid (node_pid_hash n)) as [p|] eqn:Hp.
  2:{ eexists _, _. split; [reflexivity|]. split; [|done]. apply Hnone; [unfold process_view; by rewrite Hp|].
      apply becomes_kept; [done|by apply kept_refl|]. intros j. apply ample_le. lia. }
  destruct (flush_page_ok o n p va line Hn (nd_mm _ _ Hn _ _ _ Hp) Hva) as (ok & n' & -> & Ha & _ & Hres). cbn [mbind option_bind].
  assert (Ev : process_view n nid pid va = node_view n (tsk_mm p) va) by (unfold process_view; by rewrite Hp).
  eexists _, _. split; [reflexivity|]. rewrite Ev. destruct (node_view n (tsk_mm p) va) as [d|].
  - destruct Hres as [(_ & Hna & _)|[-> Hf]]; [done|]. split; [|done]. eapply becomes_flushed; eauto.
  - destruct Hres as [-> Hk]. split; [|done]. apply Hnone; [done|]. by apply becomes_kept.
Qed.

(** What a flush of [line] at [va] answers and leaves, when pages may be shared and memory
    may run out *)
Definition flush_done o n (nid pid va : Z) (line : list Z) (ret : Z) n' : Prop :=
  match find_lego_task_by_pid nid pid (node_pid_hash n) with
  | None => ret = - ESRCH /\ n' = n
  | Some p => maps_only n (tsk_mm p) va n' /\
      match process_view n nid pid va with
      | None => ret = - EFAULT /\ kept o n n'
      | Some _ => ret = - EFAULT /\ ~ ample 1 (node_pages n) /\ kept o n n' \/ ret = 0 /\ flushed o n (tsk_mm p) va line n'
      end
  end.

Lemma handle_flush_done o n nid pid va line :
  node_ok o n -> is_u64 va ->
  exists ret n', handle_p2m_flush_one nid pid va line n = Some (ret, n') /\ flush_done o n nid pid va line ret n'.
Proof.
  intros Hn Hva. unfold handle_p2m_flush_one, flush_done. destruct (find_lego_task_by_pid nid pid (node_pid_hash n)) as [p|] eqn:Hp; [|by eexists _, _].
  destruct (flush_page_ok o n p va line Hn (nd_mm _ _ Hn _ _ _ Hp) Hva) as (ok & n' & -> & _ & Hon & Hres). cbn [mbind option_bind].
  eexists _, _. split; [reflexivity|]. split; [done|].
  assert (process_view n nid pid va = node_view n (tsk_mm p) va) as -> by (unfold process_view; by rewrite Hp).
  destruct (node_view n (tsk_mm p) va); [destruct Hres as [(-> & ? & ?)|[-> ?]]; [by left|by right]|by destruct Hres as [-> ?]].
Qed.

(** No mapping goes. *)
Lemma flush_done_mapped o n nid pid va line ret n' i x page :
  flush_done o n nid pid va line ret n' -> is_u64 x -> mapped_at n i x page -> mapped_at n' i x page.
Proof.
  unfold flush_done. intros Hd Hx Hm. destruct (find_lego_task_by_pid nid pid _); [|by destruct Hd as [_ ->]].
  destruct Hd as [_ Hd]. destruct (process_view n nid pid va); [destruct Hd as [(_ & _ & Hk)|[_ Hk]]|destruct Hd as [_ Hk]].
  all: by apply Hk.
Qed.

(** The flush that comes with a miss is the same request. *)
Lemma piggyback_flush nid tgid p msg n :
  find_lego_task_by_pid nid tgid (node_pid_hash n) = Some p ->
  do_piggyback_flush msg nid p n = snd <$> handle_p2m_flush_one nid (fl_pid msg) (fl_user_va msg) (fl_pcacheline msg) n.
Proof.
  intros Hp. unfold do_piggyback_flush, handle_p2m_flush_one. destruct (found_task _ _ _ _ Hp) as (_ & _ & <-).
  destruct (Z.eqb_spec (fl_pid msg) (tsk_pid p)) as [->|]; [rewrite Hp|destruct (find_lego_task_by_pid nid (fl_pid msg) _) as [q|]; [|done]].
  all: by destruct (flush_page _ _ _ _) as [[??]|].
Qed.

(** ** Misses *)

(** What the processes have after a miss: a flush comes with it, and is dropped with a
    miss that is not handled. *)
Definition view_after n (nid tgid x : Z) (flush : option p2m_flush_msg) : Z -> Z -> Z -> option (list Z) :=
  match find_lego_task_by_pid nid tgid (node_pid_hash n), flush with
  | Some _, Some msg =>
      if fault_in_kernel_space x then process_view n
      else write_view nid (fl_pid msg) (fl_user_va msg) (fl_pcacheline msg) (process_view n)
  | _, _ => process_view n
  end.

(** The reply to a miss on [x]: the page as it is in the end, or the error *)
Definition reply_ok n n' (nid tgid x : Z) (rep : miss_reply) : Prop :=
  match find_lego_task_by_pid nid tgid (node_pid_hash n) with
  | None => rep = Miss_error ESRCH
  | Some _ =>
      if fault_in_kernel_space x then rep = Miss_error EFAULT
      else match process_view n nid tgid x with
           | Some _ => exists page, rep = Miss_page page /\ data_of (node_pages n') page = process_view n' nid tgid x
           | None => rep = Miss_error RET_ESIGSEGV
           end
  end.

(** What a miss of process [p] on [x] answers and leaves, when pages may be shared and
    memory may run out *)
Definition miss_done o n (p : lego_task) (x : Z) (rep : miss_reply) n' : Prop :=
  kept o n n' /\ maps_only n (tsk_mm p) x n' /\
  match node_view n (tsk_mm p) x with
  | None => rep = Miss_error RET_ESIGSEGV
  | Some d => rep = Miss_error ENOMEM /\ ~ ample 1 (node_pages n) \/
      exists page, rep = Miss_page page /\ mapped_at n' (tsk_mm p) x page /\ data_of (node_pages n') page = Some d
  end.

Lemma do_miss_done o n p x flags :
  node_ok o n -> is_Some (mms n !! tsk_mm p) -> is_u64 x ->
  exists rep n', do_handle_p2m_pcache_miss p x flags n = Some (rep, n') /\ miss_done o n p x rep n'.
Proof.
  intros Hn Hs Hx. destruct (do_miss_ok o n p x flags Hn Hs Hx) as (rep & n' & E & Hk & _ & Hon & Hres).
  exists rep, n'. split; [done|]. split; [done|]. split; [done|]. destruct (node_view n (tsk_mm p) x) as [d|] eqn:Hv; [|done].
  destruct Hres as [?|(page & -> & Hm)]; [by left|right]. exists page. split_and!; [done|done|].
  rewrite <- (page_mapped_view n' _ x page Hm), (kp_view _ _ _ Hk) by done. done.
Qed.

(** The whole request: a miss, and the flush that comes with it *)
Definition request_done o n (nid tgid x : Z) (flush : option p2m_flush_msg) (rep : miss_reply) n' : Prop :=
  match find_lego_task_by_pid nid tgid (node_pid_hash n) with
  | None => rep = Miss_error ESRCH /\ n' = n
  | Some p =>
      if fault_in_kernel_space x then rep = Miss_error EFAULT /\ n' = n
      else exists n1, miss_done o n p x rep n1 /\
        match flush with
        | None => n' = n1
        | Some msg => exists ret, flush_done o n1 nid (fl_pid msg) (fl_user_va msg) (fl_pcacheline msg) ret n'
        end /\
        forall page, rep = Miss_page page -> mapped_at n' (tsk_mm p) x page /\ data_of (node_pages n') page = process_view n' nid tgid x
  end.

Lemma flush_done_hash o n nid pid va line ret n' : flush_done o n nid pid va line ret n' -> node_pid_hash n' = node_pid_hash n.
Proof.
  unfold flush_done. intros Hd. destruct (find_lego_task_by_pid nid pid _); [|by destruct Hd as [_ ->]].
  destruct Hd as [_ Hd]. destruct (process_view n nid pid va); [destruct Hd as [(_ & _ & Hk)|[_ Hk]]|destruct Hd as [_ Hk]].
  all: by apply Hk.
Qed.

Lemma handle_miss_done o n nid tgid flags x flush :
  node_ok o n -> is_u64 x -> from_option (fun msg => is_u64 (fl_user_va msg)) True flush ->
  exists rep n', handle_p2m_pcache_miss nid tgid flags x flush n = Some (rep, n') /\ request_done o n nid tgid x flush rep n'.
Proof.
  intros Hn Hx Hfl. unfold handle_p2m_pcache_miss, request_done.
  destruct (find_lego_task_by_pid nid tgid (node_pid_hash n)) as [p|] eqn:Hp; [|by eexists _, _].
  destruct (fault_in_kernel_space x); [by eexists _, _|].
  destruct (do_miss_done o n p x flags Hn (nd_mm _ _ Hn _ _ _ Hp) Hx) as (rep & n1 & -> & Hmd). cbn [mbind option_bind].
  pose proof Hmd as (Hk & _ & Hres). pose proof (kp_hash _ _ _ Hk) as Hh1.
  assert (Hpg : forall n2, node_pid_hash n2 = node_pid_hash n1 -> (forall page, mapped_at n1 (tsk_mm p) x page -> mapped_at n2 (tsk_mm p) x page) ->
    forall page, rep = Miss_page page -> mapped_at n2 (tsk_mm p) x page /\ data_of (node_pages n2) page = process_view n2 nid tgid x).
  { intros n2 Hh2 Hm2 page ->. assert (Hm : mapped_at n2 (tsk_mm p) x page).
    { apply Hm2. destruct (node_view n (tsk_mm p) x); [destruct Hres as [[? _]|(q & [= ->] & ? & _)]|]; done. }
    split; [done|]. unfold process_view. rewrite Hh2, Hh1, Hp. cbn [mbind option_bind]. symmetry. by apply page_mapped_view. }
  destruct flush as [msg|]; [|eexists _, _; split; [reflexivity|]; exists n1; split_and!; auto].
  rewrite (piggyback_flush nid tgid p msg n1) by by rewrite Hh1.
  destruct (handle_flush_done o n1 nid (fl_pid msg) (fl_user_va msg) (fl_pcacheline msg)) as (ret & n2 & -> & Hd); [apply Hk|done|].
  eexists _, _. split; [reflexivity|]. exists n1. split_and!; [done|by exists ret|]. apply Hpg; [by eapply flush_done_hash|].
  intros page. by eapply flush_done_mapped.
Qed.

Lemma becomes_trans o n j v n1 j' w n2 v' :
  becomes o n j v n1 -> becomes o n1 j' w n2 -> (forall nid pid x, is_u64 x -> w nid pid x = v' nid pid x) -> becomes o n (j + j') v' n2.
Proof.
  intros [? ? H1' ? ? ? B1 ? A1] [? ? ? ? ? ? B2 ? A2] Hv. split; try done.
  - by rewrite <- H1'.
  - congruence.
  - intros nid pid x Hx. rewrite <- Hv by done. auto.
  - auto.
  - intros i x Hx. by rewrite B2, B1.
  - auto.
  - intros i Hi. apply A2, A1. by rewrite Nat.add_assoc.
Qed.

Lemma becomes_more o n j j' v n' : (j <= j')%nat -> becomes o n j v n' -> becomes o n j' v n'.
Proof. intros Hj [? ? ? ? ? ? ? ? A]. split; try done. intros i Hi. apply A. eapply ample_le; [|exact Hi]. lia. Qed.

Lemma handle_miss_ok o n nid tgid flags x flush :
  node_ok o n -> unshared n -> is_u64 x -> from_option (fun msg => is_u64 (fl_user_va msg)) True flush -> ample 2 (node_pages n) ->
  exists rep n', handle_p2m_pcache_miss nid tgid flags x flush n = Some (rep, n') /\
    becomes o n 2 (view_after n nid tgid x flush) n' /\ reply_ok n n' nid tgid x rep.
Proof.
  intros Hn Hu Hx Hfl Ham. unfold handle_p2m_pcache_miss, view_after, reply_ok.
  pose proof (becomes_more o n 0 2 (process_view n) n ltac:(lia) (becomes_same o n Hn Hu)) as Hsame.
  destruct (find_lego_task_by_pid nid tgid (node_pid_hash n)) as [p|] eqn:Hp.
  2:{ eexists _, _. split; [reflexivity|]. split; [|done]. by destruct flush. }
  destruct (fault_in_kernel_space x).
  { eexists _, _. split; [reflexivity|]. split; [|done]. by destruct flush. }
  destruct (do_miss_ok o n p x flags Hn (nd_mm _ _ Hn _ _ _ Hp) Hx) as (rep & n1 & -> & Hk & Ha & _ & Hrep). cbn [mbind option_bind].
  assert (Ev : process_view n nid tgid x = node_view n (tsk_mm p) x) by (unfold process_view; by rewrite Hp).
  pose proof (becomes_kept o n n1 Hu Hk Ha) as Hb1. pose proof (kp_hash _ _ _ Hk) as Hh1.
  assert (Hpg : forall n2 v j, becomes o n1 j v n2 -> match node_view n (tsk_mm p) x with
    | Some _ => exists page, rep = Miss_page page /\ data_of (node_pages n2) page = process_view n2 nid tgid x
    | None => rep = Miss_error RET_ESIGSEGV end).
  { intros n2 v j Hb. destruct (node_view n (tsk_mm p) x); [|done].
    destruct Hrep as [[_ Hna]|(page & -> & Hm)]; [exfalso; apply Hna; by apply (ample_le 2); [lia|]|]. exists page. split; [done|].
    unfold process_view. rewrite (bc_hash _ _ _ _ _ Hb), Hh1, Hp. cbn [mbind option_bind]. symmetry. apply page_mapped_view.
    by apply (bc_mapped _ _ _ _ _ Hb). }
  rewrite Ev. destruct flush as [msg|].
  - assert (Hp1 : find_lego_task_by_pid nid tgid (node_pid_hash n1) = Some p) by by rewrite Hh1.
    rewrite (piggyback_flush nid tgid p msg n1 Hp1).
    destruct (handle_flush_ok o n1 nid (fl_pid msg) (fl_user_va msg) (fl_pcacheline msg)) as (ret & n2 & -> & Hb2 & _);
      [apply Hk|by apply Hk|done|by apply Ha|].
    cbn [fmap option_fmap option_map snd mbind option_bind]. eexists _, _. split; [reflexivity|]. split; [|by eapply Hpg].
    eapply (becomes_trans o n 1 _ n1 1); [done|exact Hb2|]. intros nid' pid' y Hy. unfold write_view.
    by rewrite (bc_view _ _ _ _ _ Hb1).
  - eexists _, _. split; [reflexivity|]. split; [by apply (becomes_more o n 1); [lia|]|]. eapply (Hpg n1 _ 0%nat).
    apply becomes_same; [apply Hk|by apply Hk].
Qed.

Lemma handle_zerofill_ok o n nid tgid flags x :
  node_ok o n -> unshared n -> is_u64 x -> ample 1 (node_pages n) ->
  exists ret n', handle_p2m_zerofill nid tgid flags x n = Some (ret, n') /\ kept o n n' /\
    match find_lego_task_by_pid nid tgid (node_pid_hash n) with
    | None => ret = ESRCH
    | Some p =>
        if fault_in_kernel_space x then ret = EFAULT
        else match process_view n nid tgid x with
             | Some _ => ret = 0 /\ exists page, mapped_at n' (tsk_mm p) x page
             | None => ret = - EFAULT
             end
    end.
Proof.
  intros Hn Hu Hx Ham. unfold handle_p2m_zerofill. pose proof (kept_refl o n Hn) as Hsame.
  destruct (find_lego_task_by_pid nid tgid (node_pid_hash n)) as [p|] eqn:Hp; [|by eexists _, _].
  destruct (fault_in_kernel_space x); [by eexists _, _|].
  destruct (do_zerofill_ok o n p x flags Hn (nd_mm _ _ Hn _ _ _ Hp) Hx) as (ret & n1 & -> & Hk & Hres).
  assert (process_view n nid tgid x = node_view n (tsk_mm p) x) as -> by (unfold process_view; by rewrite Hp).
  eexists _, _. split; [done|]. split; [done|]. destruct (node_view n (tsk_mm p) x); [|done]. by destruct Hres as [[_ Hna]|?].
Qed.
End request.

(** ** How many pages the processes can use

    Every page in use is mapped in an area, so that there are no more of them than the
    areas have, with what the stacks may grow over. *)

Section capacity.
Context `{PageAllocLaws, Files}.

(** [W] has the pages that the processes have: of their areas, and of what their stacks
    may grow over. *)
Definition page_set (n : mem_node) (W : gset (Z * Z)) : Prop := forall j x, is_u64 x -> is_Some (node_view n j x) -> (j, page_base x) ∈ W.

(** The page mapped at a page of a space *)
Definition page_at_key (n : mem_node) (w : Z * Z) : option Z := s ← mms n !! w.1; Some (lego_pte_to_virt (look (pgd s) w.2)).

Lemma frame_key n W f :
  node_ok (fun _ => 0) n -> only_areas n -> page_set n W -> is_Some (frames (node_pages n) !! f) -> exists w, w ∈ W /\ page_at_key n w = Some f.
Proof.
  intros Hn Ha HW [fr Hf]. assert (Hc : 1 <= node_cnt n f).
  { pose proof (nd_rc _ _ Hn f) as Hr. unfold rc in Hr. rewrite Hf in Hr. pose proof (nd_frames _ _ Hn f fr Hf). simpl in *. lia. }
  apply sum_positive in Hc as (j & s & Es & Hc). destruct (cnt_look (pgd s) f (nd_tbl _ _ Hn j s Es) Hc) as (a & Hr & Hl & Hv).
  assert (Hu : is_u64 a) by (unfold is_u64, ULONG_MOD, ADDR_LIMIT in *; lia). pose proof (Ha j s a Es Hr Hl) as Hi.
  exists (j, page_base a). split; [apply HW; [done|]; rewrite (node_view_Some _ n) by done; eauto|]. unfold page_at_key. simpl. rewrite Es. cbn [mbind option_bind].
  rewrite (look_same_page (pgd s) (page_base a) a); [by rewrite Hv|..|done|]; destruct (page_base_bounds a Hu) as (Hb & _ & Hbr); [unfold is_u64 in Hb; lia|].
  apply page_base_div; [done|done|]. by apply page_base_idem.
Qed.

Lemma omap_length {A B : Type} (g : A -> option B) (l : list A) : (length (omap g l) <= length l)%nat.
Proof. induction l as [|x l IH]; [done|]. csimpl. destruct (g x); csimpl; lia. Qed.

(** The pages in use, when nothing but the tables refers to them *)
Lemma node_capacity n W :
  node_ok (fun _ => 0) n -> only_areas n -> page_set n W -> (size (frames (node_pages n)) <= size W)%nat.
Proof.
  intros Hn Ha HW. set (l := (map_to_list (frames (node_pages n))).*1).
  assert (size (frames (node_pages n)) = length l) as -> by (unfold l; by rewrite length_fmap, length_map_to_list).
  transitivity (length (omap (page_at_key n) (base.elements W))).
  2:{ change (size W) with (length (base.elements W)). apply omap_length. }
  apply submseteq_length, NoDup_submseteq; [apply NoDup_fst_map_to_list|]. intros f Hf. unfold l in Hf.
  apply list_elem_of_fmap in Hf as ([g fr] & -> & Hf%elem_of_map_to_list).
  destruct (frame_key n W g Hn Ha HW ltac:(by eexists)) as (w & Hw & E). apply list_elem_of_omap. exists w. split; [by apply elem_of_elements|done].
Qed.
End capacity.
