(* ===== verification/MemTheorems.v ===== *)
(** * Memory manager, pages of processes: the theorems

    The properties of the pages behind the areas, each with an example that satisfies its
    hypotheses. *)

From stdpp Require Import gmap.
From S2P Require Import Prelude RbTree VmaModel VmaTree VmaInv VmaSpec VmaLife VmaTheorems.
From S2P Require Import PgtModel PgtTables PgtRange PgtCopy PgtMove PgtTheorems.
From S2P Require Import MemModel MemFault MemSpec MemGup MemNode MemRequest.

(** ** Memory, files and a node for the examples

    The first free page from the middle of the address range on, up to 2^20 pages (4 GB); files of
    zeros; and process 1 of node 7, with the areas of [ex_mm] and no page yet *)

Definition page_number (i : Z) : Z := 2 ^ 63 + PAGE_SIZE * i.

#[export] Instance ex_page_alloc : PageAlloc := fun m =>
  if Z.of_nat (size (frames m)) <? 2 ^ 20 then
    List.find (fun a => bool_decide (frames m !! a = None)) (page_number <$> seqZ 0 (Z.of_nat (size (frames m)) + 1))
  else None.

#[export] Instance ex_files : Files := {|
  storage_reply _ count _ := (count, replicate (Z.to_nat count) 0);
  __ramfs_start _ := 0
|}.

Lemma ex_page_spec m a :
  __get_free_page m = Some a -> frames m !! a = None /\ exists i, a = page_number i /\ 0 <= i <= 2 ^ 20.
Proof.
  unfold __get_free_page, ex_page_alloc. destruct (Z.ltb_spec (Z.of_nat (size (frames m))) (2 ^ 20)) as [Hs|]; [|done].
  intros [Hin Hb]%List.find_some. apply bool_decide_eq_true in Hb. split; [done|].
  apply list_elem_of_In, list_elem_of_fmap in Hin as (i & -> & Hi%elem_of_seqZ). exists i. split; [done|]. lia.
Qed.

#[export] Instance ex_page_laws : PageAllocLaws.
Proof.
  split; intros m a (Hn & i & -> & Hi)%ex_page_spec; [done|]. unfold page_aligned, page_number. rewrite PAGE_SIZE_eq.
  split; [|unfold ULONG_MOD; lia]. rewrite Z.mul_comm, Z_mod_plus_full. done.
Qed.

(** There are more numbers than pages in use. *)
Lemma ex_page_some m : Z.of_nat (size (frames m)) < 2 ^ 20 -> is_Some (__get_free_page m).
Proof.
  intros Hs. unfold __get_free_page, ex_page_alloc. rewrite (proj2 (Z.ltb_lt _ _)) by done.
  set (l := page_number <$> seqZ 0 (Z.of_nat (size (frames m)) + 1)). destruct (List.find _ l) as [a|] eqn:E; [by eexists|].
  exfalso. assert (Hsub : (list_to_set l : gset Z) ⊆ dom (frames m)).
  { intros a Ha%elem_of_list_to_set. apply elem_of_dom. pose proof (List.find_none _ _ E a) as Hn.
    rewrite <- list_elem_of_In in Hn. specialize (Hn Ha). apply bool_decide_eq_false in Hn. by apply not_eq_None_Some. }
  apply subseteq_size in Hsub. rewrite size_list_to_set, size_dom in Hsub.
  - unfold l in Hsub. rewrite length_fmap, length_seqZ in Hsub. lia.
  - apply NoDup_fmap_2; [|apply NoDup_seqZ]. intros i j Hij. unfold page_number in Hij. rewrite PAGE_SIZE_eq in Hij. lia.
Qed.

Lemma ex_ample j m : Z.of_nat (size (frames m)) + Z.of_nat j < 2 ^ 20 -> Forall (eq true) (pg_tables m) -> ample j m.
Proof. intros Hs Ht. split; [|done]. intros m' Hm. apply ex_page_some. lia. Qed.

Definition ex_task : lego_task := LegoTask 7 1 0 7 100.
Definition ex_tasks : task_table := {[bucket_of 7 1 := [ex_task]]}.
Definition ex_home : mem_node := MemNode ex_tasks {[100 := Space ex_mm ∅]} (Pages ∅ []).

Lemma ex_bucket b : bucket ex_tasks b = if decide (b = bucket_of 7 1) then [ex_task] else [].
Proof.
  unfold bucket, ex_tasks. destruct (decide (b = bucket_of 7 1)) as [->|Hne]; [by rewrite lookup_singleton_eq|].
  by rewrite lookup_singleton_ne by congruence.
Qed.

Lemma ex_tasks_ok : table_ok ex_tasks.
Proof.
  split; intros b; rewrite ex_bucket; destruct (decide _) as [->|]; [|by intros p ?%not_elem_of_nil| |constructor].
  - by intros p ->%list_elem_of_singleton.
  - apply NoDup_singleton.
Qed.

Lemma ex_find nid pid p : find_lego_task_by_pid nid pid ex_tasks = Some p -> p = ex_task.
Proof.
  intros [Hin _]%(find_task nid pid ex_tasks p ex_tasks_ok). rewrite ex_bucket in Hin.
  destruct (decide _); [by apply list_elem_of_singleton in Hin|by apply not_elem_of_nil in Hin].
Qed.

Lemma ex_home_ok : node_ok (fun _ => 0) ex_home.
Proof.
  split; try done.
  - exact ex_tasks_ok.
  - intros nid pid p ->%ex_find. by eexists.
  - intros nid pid p nid' pid' p' ->%ex_find ->%ex_find. done.
  - intros i s E; simpl in E; apply lookup_singleton_Some in E as [<- <-]. exists 0. exact ex_wf.
  - intros i s E; simpl in E; apply lookup_singleton_Some in E as [<- <-]. apply tbl_empty.
Qed.

Lemma ex_home_unshared : unshared ex_home.
Proof. intros f. unfold rc. simpl. by rewrite lookup_empty. Qed.

Section Theorems.
Context `{PageAllocLaws, Files}.
Implicit Types (n : mem_node) (o : Z -> Z) (h : task_table).

(** (C13) A miss request is answered with the page that the process has.  An unknown
    process and a kernel address are refused and nothing changes.  Otherwise the miss comes
    first: at an address with an area, or below a stack that may grow that far, the reply
    is the page mapped there, a new one filled from its file or with zeros if need be, or
    the error ENOMEM when memory is short; at any other address it is a segmentation fault.  No
    contents change in any address space, no page but that of the address gets mapped, and
    no two addresses come to share a page.  Then the flush of the same message is done as a
    flush request of its own, and the page of the reply is what the process has at that
    address in the end.  This holds when processes share pages and when memory runs out;
    with no sharing and two pages to spare the miss succeeds exactly when the process has
    something there, and nothing changes for any process but the line flushed. *)
Theorem pcache_miss_correct o n nid tgid flags x flush :
  node_ok o n -> is_u64 x -> from_option (fun msg => is_u64 (fl_user_va msg)) True flush ->
  exists rep n', handle_p2m_pcache_miss nid tgid flags x flush n = Some (rep, n') /\
    request_done o n nid tgid x flush rep n' /\
    (unshared n -> ample 2 (node_pages n) ->
      becomes o n 2 (view_after n nid tgid x flush) n' /\ reply_ok n n' nid tgid x rep).
Proof.
  intros Hn Hx Hfl. destruct (handle_miss_done o n nid tgid flags x flush Hn Hx Hfl) as (rep & n' & E & Hd).
  exists rep, n'. split_and!; [done|done|]. intros Hu Ham.
  destruct (handle_miss_ok o n nid tgid flags x flush Hn Hu Hx Hfl Ham) as (rep2 & n2 & E2 & Hb). by rewrite E in E2; injection E2 as <- <-.
Qed.

(** (C17) A flush request writes its line to the page of the process, creating the page if it
    has none yet.  The line is then the contents at every address that shares this page,
    every other address of every process keeps its contents, and no other page gets
    mapped.  It fails, with all contents kept, for an unknown process (-ESRCH), an address
    without an area and when memory is short (-EFAULT).  With no sharing and a page to
    spare, the contents of exactly one page of one process change, and the reply is 0
    exactly when the process exists and has an area there. *)
Theorem pcache_flush_correct o n nid pid va line :
  node_ok o n -> is_u64 va ->
  exists ret n', handle_p2m_flush_one nid pid va line n = Some (ret, n') /\
    flush_done o n nid pid va line ret n' /\
    (unshared n -> ample 1 (node_pages n) ->
      becomes o n 1 (write_view nid pid va line (process_view n)) n' /\
      ret = match find_lego_task_by_pid nid pid (node_pid_hash n) with
            | None => - ESRCH
            | Some _ => match process_view n nid pid va with None => - EFAULT | Some _ => 0 end
            end).
Proof.
  intros Hn Hva. destruct (handle_flush_done o n nid pid va line Hn Hva) as (ret & n' & E & Hd).
  exists ret, n'. split_and!; [done|done|]. intros Hu Ham.
  destruct (handle_flush_ok o n nid pid va line Hn Hu Hva Ham) as (ret2 & n2 & E2 & Hb). by rewrite E in E2; injection E2 as <- <-.
Qed.

(** A flush goes to every process that shares the page.  After a fork the pages are shared,
    write-protected in both page tables; a flush of one process is written to the shared
    page, and is what the other process then has. *)
Theorem flush_reaches_sharers o n nid pid p va line j y :
  node_ok o n -> find_lego_task_by_pid nid pid (node_pid_hash n) = Some p -> is_u64 va -> is_u64 y ->
  ample 1 (node_pages n) -> shares n (tsk_mm p) va j y ->
  exists n', handle_p2m_flush_one nid pid va line n = Some (0, n') /\ node_view n' j y = Some line.
Proof.
  intros Hn Hp Hva Hy Ham (page & Hm1 & Hm2). unfold handle_p2m_flush_one. rewrite Hp.
  destruct (flush_page_ok o n p va line Hn (nd_mm _ _ Hn _ _ _ Hp) Hva) as (ok & n' & -> & _ & _ & Hres). cbn [mbind option_bind].
  rewrite (page_mapped_view n _ va page Hm1) in Hres.
  assert (Hd : is_Some (data_of (node_pages n) page)).
  { destruct Hm1 as (s & Es & _ & Hne & <-). destruct (node_space o n _ s Hn Es) as [k Hs].
    destruct (mapped_frame _ _ _ (sk_balanced _ _ _ _ Hs) va Hne) as [fr Hfr]. exists (fr_data fr). unfold data_of. by rewrite Hfr. }
  destruct Hd as [c Hc]. rewrite Hc in Hres. destruct Hres as [(_ & Hna & _)|[-> Hf]]; [done|]. exists n'. split; [done|].
  apply (fd_written _ _ _ _ _ _ Hf); [done|]. exists page. split; by apply (fd_pages _ _ _ _ _ _ Hf).
Qed.

(** [get_user_pages] returns the pages mapped at consecutive addresses, faulting them in,
    and stops at the first one that cannot be had: an address without an area (-EFAULT)
    or no memory (-ENOMEM); the number of pages found is returned if there are any.  No
    contents change. *)
Theorem get_user_pages_correct k o start nr s m :
  space_ok k o s m -> is_u64 start -> start + (Z.of_nat nr - 1) * PAGE_SIZE < ULONG_MOD ->
  exists pgs ret s' m', get_user_pages start nr s m = Some (pgs, ret, s', m') /\
    touched k o s m s' m' /\ (forall y, is_u64 y -> page_view s' m' y = page_view s m y) /\
    exists i, (i <= nr)%nat /\ pgs = pages_at (pgd s') start i /\ all_mapped (pgd s') start i /\
      (i = nr /\ ret = Z.of_nat nr \/
       (i < nr)%nat /\ exists err, (err = - EFAULT /\ initial (sp_mm s) (start + Z.of_nat i * PAGE_SIZE) = None \/ err = - ENOMEM /\ ~ ample nr m) /\
         ret = if bool_decide (i = 0%nat) then err else Z.of_nat i).
Proof.
  intros Hs Hu Hlim. destruct (gup_loop_ok k o nr None start [] s m Hs Hu Hlim ltac:(done)) as (pgs & ret & s' & m' & E & [Ht _ _ Hp]).
  exists pgs, ret, s', m'. split; [exact E|]. split; [done|]. split; [intros y Hy; by apply (touched_view k o)|].
  destruct Hp as (i & Hi & -> & Hall & _ & Hres). simpl in *.
  assert (Hlen : length (pages_at (pgd s') start i) = i) by (clear; revert start; induction i as [|i IH]; intros start; simpl; auto).
  exists i. split_and!; try done. destruct Hres as [[-> ->]|(Hlt & err & Herr & ->)]; [left; by rewrite Hlen|right].
  split; [done|]. exists err. split; [done|]. rewrite Hlen. by destruct i.
Qed.

(** The hash table of processes is a finite map from node and process numbers to
    processes: an insertion of a number that is there is refused with -EEXIST and changes
    nothing, another one and a removal change that number only. *)
Theorem task_table_correct h tsk :
  table_ok h -> tsk_pid tsk <> 0 ->
  match find_lego_task_by_pid (tsk_node tsk) (tsk_pid tsk) h with
  | Some old => ht_insert_lego_task tsk h = Some (- EEXIST, h) /\
      (old = tsk -> exists h', free_lego_task tsk h = Some h' /\ table_ok h' /\
        forall node pid, find_lego_task_by_pid node pid h' =
          if decide ((node, pid) = key_of tsk) then None else find_lego_task_by_pid node pid h)
  | None => free_lego_task tsk h = None /\
      exists h', ht_insert_lego_task tsk h = Some (0, h') /\ table_ok h' /\
        forall node pid, find_lego_task_by_pid node pid h' =
          if decide ((node, pid) = key_of tsk) then Some tsk else find_lego_task_by_pid node pid h
  end.
Proof.
  intros Hh Hp. pose proof (table_insert_ok tsk h Hh Hp) as Hi. pose proof (existsb_find (tsk_node tsk) (tsk_pid tsk) h Hh Hp) as He.
  destruct (find_lego_task_by_pid (tsk_node tsk) (tsk_pid tsk) h) as [old|] eqn:Ef.
  - split; [done|]. intros ->. by apply table_free_ok.
  - split; [|done]. unfold free_lego_task. rewrite He. by rewrite bool_decide_eq_false_2 by (intros [? ?]; done).
Qed.
End Theorems.

(** ** Examples *)

Lemma ex_home_ample j : (j <= 2)%nat -> ample j (node_pages ex_home).
Proof. intros Hj. apply ex_ample; [change (size (frames (node_pages ex_home))) with 0%nat; lia|constructor]. Qed.

Lemma pcache_miss_correct_witness :
  exists rep n', handle_p2m_pcache_miss 7 1 0 8200 (Some (FlushMsg 1 4096 [42])) ex_home = Some (rep, n') /\
    request_done (fun _ => 0) ex_home 7 1 8200 (Some (FlushMsg 1 4096 [42])) rep n' /\
    becomes (fun _ => 0) ex_home 2 (view_after ex_home 7 1 8200 (Some (FlushMsg 1 4096 [42]))) n' /\ reply_ok ex_home n' 7 1 8200 rep.
Proof.
  destruct (pcache_miss_correct (fun _ => 0) ex_home 7 1 0 8200 (Some (FlushMsg 1 4096 [42])) ex_home_ok ltac:(done) ltac:(done))
    as (rep & n' & E & Hd & Hb).
  exists rep, n'. split; [exact E|]. split; [exact Hd|]. apply Hb; [exact ex_home_unshared|apply ex_home_ample; lia].
Defined.

(** Processes 1 and 2 of node 7 after a fork: both map the page of [ex_pgt]. *)
Definition ex_child : lego_task := LegoTask 7 2 1 7 101.
Definition ex_forked : mem_node :=
  MemNode {[bucket_of 7 1 := [ex_task]; bucket_of 7 2 := [ex_child]]} {[100 := Space ex_mm ex_pgt; 101 := Space ex_mm ex_pgt]}
    (Pages {[ex_page := Frame 2 [42]]} []).

Lemma ex_forked_bucket b p : p ∈ bucket (node_pid_hash ex_forked) b -> p = ex_task /\ b = bucket_of 7 1 \/ p = ex_child /\ b = bucket_of 7 2.
Proof.
  unfold bucket. simpl. destruct (decide (b = bucket_of 7 1)) as [->|H1].
  { rewrite lookup_insert_eq. intros ->%list_elem_of_singleton. by left. }
  rewrite lookup_insert_ne by congruence. destruct (decide (b = bucket_of 7 2)) as [->|H2].
  { rewrite lookup_singleton_eq. intros ->%list_elem_of_singleton. by right. }
  rewrite lookup_singleton_ne by congruence. by intros ?%not_elem_of_nil.
Qed.

Lemma ex_forked_table : table_ok (node_pid_hash ex_forked).
Proof.
  split.
  - intros b p [[-> ->]|[-> ->]]%ex_forked_bucket; done.
  - intros b. unfold bucket. simpl. destruct (decide (b = bucket_of 7 1)) as [->|H1]; [rewrite lookup_insert_eq; apply NoDup_singleton|].
    rewrite lookup_insert_ne by congruence. destruct (decide (b = bucket_of 7 2)) as [->|H2]; [rewrite lookup_singleton_eq; apply NoDup_singleton|].
    rewrite lookup_singleton_ne by congruence. constructor.
Qed.

Lemma ex_forked_find nid pid p :
  find_lego_task_by_pid nid pid (node_pid_hash ex_forked) = Some p -> p = ex_task \/ p = ex_child.
Proof.
  intros [Hin _]%(find_task nid pid _ p ex_forked_table). destruct (ex_forked_bucket _ _ Hin) as [[-> _]|[-> _]]; auto.
Qed.

Lemma ex_forked_space i s : mms ex_forked !! i = Some s -> s = Space ex_mm ex_pgt.
Proof.
  simpl. intros [[_ <-]|[_ E]]%lookup_insert_Some; [done|]. by apply lookup_singleton_Some in E as [_ <-].
Qed.

Lemma ex_forked_ok : node_ok (fun _ => 0) ex_forked.
Proof.
  split; try done.
  - exact ex_forked_table.
  - intros nid pid p [-> | ->]%ex_forked_find; by eexists.
  - intros nid pid p nid' pid' p' [-> | ->]%ex_forked_find [-> | ->]%ex_forked_find; done.
  - intros i s ->%ex_forked_space. exists 0. exact ex_wf.
  - intros i s ->%ex_forked_space. exact ex_pgt_ok.
  - by apply map_Forall_singleton.
  - by apply map_Forall_singleton.
  - intros f. unfold node_cnt, ex_forked. simpl. rewrite sum_insert_new by done. unfold sum. rewrite map_fold_singleton. simpl.
    rewrite ex_pgt_cnt. unfold rc. simpl. destruct (decide (ex_page = f)) as [<-|Hne]; [by rewrite lookup_singleton_eq|by rewrite lookup_singleton_ne].
Qed.

Lemma ex_initial : is_Some (initial ex_mm 4096).
Proof. by exists zero_page. Qed.

Lemma flush_reaches_sharers_witness :
  exists n', handle_p2m_flush_one 7 1 4096 [7] ex_forked = Some (0, n') /\ node_view n' 101 4096 = Some [7].
Proof.
  apply (flush_reaches_sharers (fun _ => 0) ex_forked 7 1 ex_task); [exact ex_forked_ok|reflexivity|done|done|apply ex_ample; [reflexivity|constructor]|].
  exists ex_page. split; exists (Space ex_mm ex_pgt); (split; [reflexivity|]); (split; [exact ex_initial|]); (split; [vm_compute; discriminate|reflexivity]).
Defined.

(** A flush where the page is shared *)
Lemma pcache_flush_correct_witness :
  exists ret n', handle_p2m_flush_one 7 1 4096 [7] ex_forked = Some (ret, n') /\
    flush_done (fun _ => 0) ex_forked 7 1 4096 [7] ret n' /\
    (unshared ex_forked -> ample 1 (node_pages ex_forked) ->
      becomes (fun _ => 0) ex_forked 1 (write_view 7 1 4096 [7] (process_view ex_forked)) n' /\
      ret = match find_lego_task_by_pid 7 1 (node_pid_hash ex_forked) with
            | None => - ESRCH
            | Some _ => match process_view ex_forked 7 1 4096 with None => - EFAULT | Some _ => 0 end
            end).
Proof. exact (pcache_flush_correct (fun _ => 0) ex_forked 7 1 4096 [7] ex_forked_ok ltac:(done)). Defined.

Lemma get_user_pages_correct_witness :
  exists pgs ret s' m', get_user_pages 4096 4 (Space ex_mm ∅) (Pages ∅ []) = Some (pgs, ret, s', m') /\
    touched 0 (fun _ => 0) (Space ex_mm ∅) (Pages ∅ []) s' m' /\
    (forall y, is_u64 y -> page_view s' m' y = page_view (Space ex_mm ∅) (Pages ∅ []) y) /\
    exists i, (i <= 4)%nat /\ pgs = pages_at (pgd s') 4096 i /\ all_mapped (pgd s') 4096 i /\
      (i = 4%nat /\ ret = Z.of_nat 4 \/
       (i < 4)%nat /\ exists err, (err = - EFAULT /\ initial ex_mm (4096 + Z.of_nat i * PAGE_SIZE) = None \/ err = - ENOMEM /\ ~ ample 4 (Pages ∅ [])) /\
         ret = if bool_decide (i = 0%nat) then err else Z.of_nat i).
Proof.
  apply (get_user_pages_correct 0 (fun _ => 0) 4096 4 (Space ex_mm ∅) (Pages ∅ [])); [|done|done].
  split; [exact ex_wf|apply tbl_empty| |done]. split; [done| |done]. intros f. reflexivity.
Defined.

Lemma task_table_correct_witness :
  match find_lego_task_by_pid 7 2 ex_tasks with
  | Some old => ht_insert_lego_task ex_child ex_tasks = Some (- EEXIST, ex_tasks) /\
      (old = ex_child -> exists h', free_lego_task ex_child ex_tasks = Some h' /\ table_ok h' /\
        forall node pid, find_lego_task_by_pid node pid h' =
          if decide ((node, pid) = key_of ex_child) then None else find_lego_task_by_pid node pid ex_tasks)
  | None => free_lego_task ex_child ex_tasks = None /\
      exists h', ht_insert_lego_task ex_child ex_tasks = Some (0, h') /\ table_ok h' /\
        forall node pid, find_lego_task_by_pid node pid h' =
          if decide ((node, pid) = key_of ex_child) then Some ex_child else find_lego_task_by_pid node pid ex_tasks
  end.
Proof. exact (task_table_correct ex_tasks ex_child ex_tasks_ok ltac:(done)). Defined.
