(* ===== verification/UserModel.v ===== *)
(** * Memory manager, copying to and from processes: the model

    managers/memory/vm/uaccess.c, and the population of ranges of vm/gup.c.

    The kernel reads and writes the pages of the node by their kernel addresses, byte by
    byte; [None] is an access outside of the pages in use.  A buffer of the kernel is the
    list of its bytes.  Whether [kmalloc] of the array of pages succeeds is an argument. *)

From stdpp Require Import gmap.
From S2P Require Import Prelude RbTree VmaModel PgtModel MemModel.

(** ** Bytes of kernel memory *)

Definition peek (a : Z) (m : pages) : option Z :=
  f ← frames m !! Z.land a PAGE_MASK;
  fr_data f !! Z.to_nat (offset_in_page a).

Definition poke (a b : Z) (m : pages) : option pages :=
  f ← frames m !! Z.land a PAGE_MASK;
  let o := Z.to_nat (offset_in_page a) in
  if (o <? length (fr_data f))%nat
  then Some (set_frames (<[Z.land a PAGE_MASK := Frame (fr_count f) (<[o := b]> (fr_data f))]> (frames m)) m)
  else None.

(** [memcpy] to and from the address [a] *)
Fixpoint kwrite (a : Z) (bytes : list Z) (m : pages) : option pages :=
  match bytes with
  | [] => Some m
  | b :: bytes => m ← poke a b m; kwrite (a +u 1) bytes m
  end.
Fixpoint kread (a : Z) (n : nat) (m : pages) : option (list Z) :=
  match n with
  | O => Some []
  | S n => b ← peek a m; l ← kread (a +u 1) n m; Some (b :: l)
  end.

Section uaccess.
Context `{PageAlloc, Files}.

Definition __lego_copy_to_user (to : Z) (from : list Z) (m : pages) : option pages := kwrite to from m.
Definition __lego_copy_from_user (from : Z) (len : nat) (m : pages) : option (list Z) := kread from len m.

(** The number of pages of the range *)
Definition range_pages (a n : Z) : Z :=
  let first_page := Z.land a PAGE_MASK in
  let last_page := Z.land (a +u n -u 1) PAGE_MASK in
  Z.shiftr (last_page -u first_page) PAGE_SHIFT +u 1.

(** The loops over the pages; [from], respectively [n], is what is left to copy, and the
    result has what was copied. *)
Fixpoint copy_to_pages (pgs : list Z) (start : Z) (from : list Z) (copied : Z) (m : pages) : option (Z * pages) :=
  match pgs with
  | [] => Some (copied, m)
  | page :: pgs =>
      let offset := offset_in_page start in
      let bytes_to_copy := PAGE_SIZE - offset in
      let bytes_to_copy := if Z.of_nat (length from) <=? bytes_to_copy then Z.of_nat (length from) else bytes_to_copy in
      m ← __lego_copy_to_user (page +u offset) (take (Z.to_nat bytes_to_copy) from) m;
      copy_to_pages pgs (start +u bytes_to_copy) (drop (Z.to_nat bytes_to_copy) from) (copied +u bytes_to_copy) m
  end.

Fixpoint copy_from_pages (pgs : list Z) (start : Z) (n : Z) (to : list Z) (m : pages) : option (list Z) :=
  match pgs with
  | [] => Some to
  | page :: pgs =>
      let offset := offset_in_page start in
      let bytes_to_copy := PAGE_SIZE - offset in
      let bytes_to_copy := if n <=? bytes_to_copy then n else bytes_to_copy in
      l ← __lego_copy_from_user (page +u offset) (Z.to_nat bytes_to_copy) m;
      copy_from_pages pgs (start +u bytes_to_copy) (n -u bytes_to_copy) (to ++ l) m
  end.

(** The number of bytes copied, 0 on failure *)
Definition _lego_copy_to_user (kmalloc_ok : bool) (to : Z) (from : list Z) (s : space) (m : pages)
  : option (Z * space * pages) :=
  let n := Z.of_nat (length from) in
  if n =? 0 then Some (0, s, m)
  else if TASK_SIZE <? to then m ← __lego_copy_to_user to from m; Some (n, s, m)
  else
    let first_page := Z.land to PAGE_MASK in
    let nr_pages := range_pages to n in
    if nr_pages =? 1 then
      '(pgs, ret, s, m) ← get_user_pages first_page 1 s m;
      if negb (ret =? 1) then Some (0, s, m)
      else
        page ← head pgs;
        m ← __lego_copy_to_user (page +u offset_in_page to) from m;
        Some (n, s, m)
    else if negb kmalloc_ok then Some (0, s, m)
    else
      '(pgs, ret, s, m) ← get_user_pages first_page (Z.to_nat nr_pages) s m;
      if negb (ret =? nr_pages) then Some (0, s, m)
      else
        '(copied, m) ← copy_to_pages pgs to from 0 m;
        Some (copied, s, m).

(** The bytes copied, none on failure *)
Definition _lego_copy_from_user (kmalloc_ok : bool) (from n : Z) (s : space) (m : pages)
  : option (list Z * space * pages) :=
  if n =? 0 then Some ([], s, m)
  else if TASK_SIZE <? from then l ← __lego_copy_from_user from (Z.to_nat n) m; Some (l, s, m)
  else
    let first_page := Z.land from PAGE_MASK in
    let nr_pages := range_pages from n in
    if nr_pages =? 1 then
      '(pgs, ret, s, m) ← get_user_pages first_page 1 s m;
      if negb (ret =? 1) then Some ([], s, m)
      else
        page ← head pgs;
        l ← __lego_copy_from_user (page +u offset_in_page from) (Z.to_nat n) m;
        Some (l, s, m)
    else if negb kmalloc_ok then Some ([], s, m)
    else
      '(pgs, ret, s, m) ← get_user_pages first_page (Z.to_nat nr_pages) s m;
      if negb (ret =? nr_pages) then Some ([], s, m)
      else
        l ← copy_from_pages pgs from n [] m;
        Some (l, s, m).

(** [cnt] bytes are left, one is written at a time; the result is what could not be. *)
Fixpoint _lego_clear_user (dst : Z) (cnt : nat) (s : space) (m : pages) : option (Z * space * pages) :=
  match cnt with
  | O => Some (0, s, m)
  | S n =>
      '(ret, s, m) ← _lego_copy_to_user true dst [0] s m;
      if ret =? 0 then Some (Z.of_nat cnt, s, m) else _lego_clear_user (dst +u 1) n s m
  end.

(** ** Population (gup.c)

    The flags that [populate_vma_page_range] gathers are not used by [__get_user_pages]. *)

Definition populate_vma_page_range (vma : ptr) (start end_ : Z) (s : space) (m : pages) : option (Z * space * pages) :=
  let nr_pages := (end_ -u start) / PAGE_SIZE in
  BUG_ON negb (offset_in_page start =? 0) ;;
  BUG_ON negb (offset_in_page end_ =? 0) ;;
  BUG_ON start <? vm_start (deref (sp_mm s) vma) ;;
  BUG_ON vm_end (deref (sp_mm s) vma) <? end_ ;;
  '(_, ret, s, m) ← get_user_pages start (Z.to_nat nr_pages) s m;
  Some (ret, s, m).

(** The loop of [__lego_mm_populate]; [vma] is [None] before the first round, where the
    lock is taken: [trylock] is whether that succeeds.  [ret] is 0 between rounds. *)
Fixpoint populate_loop (fuel : nat) (trylock ignore_errors : bool) (end_ : Z) (vma : option (option ptr)) (nstart : Z)
    (s : space) (m : pages) : option (Z * space * pages) :=
  match fuel with
  | O => None
  | S fuel =>
      if negb (nstart <? end_) then Some (0, s, m)
      else if negb trylock then Some (- EINTR, s, m)
      else
        vma ← match vma with
              | None => Some (find_vma (sp_mm s) nstart)
              | Some None => None
              | Some (Some p) => Some (if vm_end (deref (sp_mm s) p) <=? nstart then vm_next (sp_mm s) p else Some p)
              end;
        match vma with
        | None => Some (0, s, m)
        | Some p =>
            let v := deref (sp_mm s) p in
            if end_ <=? vm_start v then Some (0, s, m)
            else
              let nend := Z.min end_ (vm_end v) in
              if has (vm_flags v) (Z.lor VM_IO VM_PFNMAP) then populate_loop fuel trylock ignore_errors end_ (Some vma) nend s m
              else
                let nstart := if nstart <? vm_start v then vm_start v else nstart in
                '(ret, s, m) ← populate_vma_page_range p nstart nend s m;
                if ret <? 0 then
                  if ignore_errors then populate_loop fuel trylock ignore_errors end_ (Some vma) nend s m
                  else Some (ret, s, m)
                else populate_loop fuel trylock ignore_errors end_ (Some vma) (nstart +u wrap (ret * PAGE_SIZE)) s m
        end
  end.

Definition __lego_mm_populate (trylock : bool) (start len : Z) (ignore_errors : bool) (s : space) (m : pages)
  : option (Z * space * pages) :=
  BUG_ON negb (offset_in_page start =? 0) ;;
  BUG_ON negb (len =? PAGE_ALIGN len) ;;
  populate_loop (S (Z.to_nat (len / PAGE_SIZE))) trylock ignore_errors (start +u len) None start s m.

(** What [lego_mm_populate] leaves; its errors are ignored. *)
Definition lego_mm_populate (trylock : bool) (start len : Z) (s : space) (m : pages) : option (space * pages) :=
  '(_, s, m) ← __lego_mm_populate trylock start len true s m;
  Some (s, m).
End uaccess.
