(* ===== verification/UserPopulate.v ===== *)
(** * Memory manager, population of ranges

    [populate_vma_page_range] and [__lego_mm_populate] of vm/gup.c. *)

From stdpp Require Import gmap.
From S2P Require Import Prelude RbTree VmaModel VmaTree VmaInv VmaSpec VmaLife PgtModel PgtTables PgtRange PgtCopy PgtMove.
From S2P Require Import MemModel MemFault MemSpec MemGup UserModel.

Section populate.
Context `{PageAllocLaws, Files}.
Implicit Types (s : space) (m : pages) (o : Z -> Z).

(** The areas stay as they are when the range is within one. *)
Lemma gup_in_area k p nr : forall vma start got s m pgs ret s' m',
  wf k (sp_mm s) -> p ∈ mmap (sp_mm s) -> is_u64 start -> page_aligned start ->
  vm_start (deref (sp_mm s) p) <= start -> start + Z.of_nat nr * PAGE_SIZE <= vm_end (deref (sp_mm s) p) -> is_u64 (vm_end (deref (sp_mm s) p)) ->
  vma = None \/ vma = Some p ->
  gup_loop nr vma start got s m = Some (pgs, ret, s', m') -> sp_mm s' = sp_mm s.
Proof.
  induction nr as [|nr IH]; intros vma start got s m pgs ret s' m' Hw Hp Hu Ha Hst Hend Hue Hv; cbn [gup_loop]; [by intros [= <- <- <- <-]|].
  rewrite PAGE_SIZE_eq in Hend. assert (Hlt : start < vm_end (deref (sp_mm s) p)) by lia.
  assert (Hf : first_above (sp_mm s) start = Some p).
  { apply (first_above_covering k); [done|done|lia]. }
  assert (Es : (if match vma with None => true | Some p => vm_end (deref (sp_mm s) p) <=? start end
                then find_extend_vma start (sp_mm s) else Some (sp_mm s, vma)) = Some (sp_mm s, Some p)).
  { assert (Ef : find_extend_vma start (sp_mm s) = Some (sp_mm s, Some p)).
    { unfold find_extend_vma. fold (page_base start). rewrite page_base_id, (find_vma_ok k), Hf by done. by rewrite (proj2 (Z.leb_le _ _)). }
    destruct Hv as [->| ->]; [done|]. by rewrite (proj2 (Z.leb_gt _ _)). }
  rewrite Es. cbn [mbind option_bind]. destruct (gup_retry 2 _ start (pgd s) m) as [[[[err|page] t1] m1]|]; [..|done]; cbn [mbind option_bind].
  - by intros [= <- <- <- <-].
  - destruct nr as [|nr']; [by intros [= <- <- <- <-]|].
    assert (Hu' : is_u64 (start + PAGE_SIZE)) by (unfold is_u64 in *; rewrite PAGE_SIZE_eq; lia). rewrite (wrap_small (start + PAGE_SIZE)) by done.
    intros E. apply (IH (Some p) _ _ (Space (sp_mm s) t1)) in E; try done; [|simpl; rewrite PAGE_SIZE_eq; lia..|by right].
    unfold page_aligned in *. rewrite PAGE_SIZE_eq in *. by rewrite Z.add_mod, Ha.
Qed.

Lemma populate_range_ok k o s m p start end_ :
  space_ok k o s m -> p ∈ mmap (sp_mm s) -> page_aligned start -> page_aligned end_ ->
  vm_start (deref (sp_mm s) p) <= start < end_ -> end_ <= vm_end (deref (sp_mm s) p) ->
  let nr := Z.to_nat ((end_ - start) / PAGE_SIZE) in
  exists ret s' m', populate_vma_page_range p start end_ s m = Some (ret, s', m') /\ sp_mm s' = sp_mm s /\
    touched k o s m s' m' /\ (forall j, ample (nr + j) m -> ample j m') /\
    (0 < ret <= Z.of_nat nr /\ all_mapped (pgd s') start (Z.to_nat ret) /\ (ret < Z.of_nat nr -> ~ ample nr m) \/ ret = - ENOMEM /\ ~ ample nr m).
Proof.
  intros Hs Hp Has Hae Hst Hen nr. pose proof (sk_wf _ _ _ _ Hs) as Hw. destruct (wf_bounds k _ p Hw Hp) as (Hr & Hr' & Ht).
  assert (HT : TASK_SIZE < ULONG_MOD) by done. assert (Hus : is_u64 start) by (unfold is_u64; lia). assert (Hue : is_u64 end_) by (unfold is_u64; lia).
  unfold populate_vma_page_range. rewrite !offset_in_page_mod, (wrap_small (end_ - start)) by (unfold is_u64 in *; lia). rewrite Has, Hae.
  cbn [Z.eqb negb]. rewrite (proj2 (Z.ltb_ge _ _)) by lia. rewrite (proj2 (Z.ltb_ge _ _)) by lia. fold nr.
  assert (Hnr : (0 < nr)%nat /\ start + Z.of_nat nr * PAGE_SIZE = end_).
  { unfold nr, page_aligned in *. rewrite PAGE_SIZE_eq in *. pose proof (Z.div_mod start 4096). pose proof (Z.div_mod end_ 4096).
    replace (end_ - start) with ((end_ / 4096 - start / 4096) * 4096) by lia. rewrite Z.div_mul by lia. lia. }
  destruct Hnr as [Hn0 Hne]. destruct (gup_loop_ok k o nr None start [] s m Hs Hus) as (pgs & ret & s' & m' & E & [Htc Ham _ Hg]).
  { rewrite PAGE_SIZE_eq in *. lia. } { done. }
  unfold get_user_pages. rewrite E. cbn [mbind option_bind]. exists ret, s', m'. split; [done|].
  split; [by apply (gup_in_area k p nr None start [] s m pgs ret s' m'); [..|lia|lia|unfold is_u64; lia|left|]|]. split; [done|]. split; [done|].
  destruct Hg as (c & Hc & -> & Hall & _ & Hres). cbn [rev app] in *.
  assert (Hlen : length (pages_at (pgd s') start c) = c) by (clear; revert start; induction c as [|c IH]; intros x; simpl; auto).
  rewrite Hlen in Hres. destruct Hres as [[-> ->]|(Hlt & err & Herr & ->)]; [left; rewrite Nat2Z.id; split_and!; [lia|lia|done|lia]|].
  assert (Hna : err = - ENOMEM /\ ~ ample nr m).
  { destruct Herr as [[-> Hi]|?]; [exfalso|done]. assert (Hx : is_u64 (start + Z.of_nat c * PAGE_SIZE)) by (unfold is_u64 in *; rewrite PAGE_SIZE_eq in *; lia).
    assert (Hxa : page_aligned (start + Z.of_nat c * PAGE_SIZE)) by (unfold page_aligned in *; rewrite PAGE_SIZE_eq in *; by rewrite Z_mod_plus_full).
    unfold initial in Hi. rewrite (covering_area k _ p _ Hw Hx Hp) in Hi; [done|]. rewrite page_base_id by done. rewrite PAGE_SIZE_eq in *. lia. }
  destruct Hna as [-> Hna]. destruct c as [|c]; [by right|left]. cbn [pages_at]. rewrite bool_decide_false by done. rewrite Nat2Z.id. split_and!; [lia|lia|done|done].
Qed.

(** ** The loop *)

Definition populated (mm : lego_mm) (t : pgd_table) (x : Z) : Prop := forall p,
  p ∈ mmap mm -> vm_start (deref mm p) <= x < vm_end (deref mm p) -> has (vm_flags (deref mm p)) (Z.lor VM_IO VM_PFNMAP) = false -> look t x <> 0.

Definition cursor (mm : lego_mm) (vma : option (option ptr)) (x : Z) : Prop :=
  match vma with
  | None => True
  | Some None => False
  | Some (Some p) => p ∈ mmap mm /\ vm_start (deref mm p) <= x <= vm_end (deref mm p)
  end.

Lemma cursor_first k mm vma x : wf k mm -> cursor mm vma x ->
  match vma with
  | None => Some (find_vma mm x)
  | Some None => None
  | Some (Some p) => Some (if vm_end (deref mm p) <=? x then vm_next mm p else Some p)
  end = Some (first_above mm x).
Proof.
  intros Hw. destruct vma as [[p|]|]; [|done|by rewrite (find_vma_ok k)]. intros [Hp Hx]. f_equal.
  destruct (Z.leb_spec (vm_end (deref mm p)) x) as [Hle|]; [|symmetry; apply (first_above_covering k); [done|done|lia]].
  apply list_elem_of_split in Hp as (pre & post & Hl). pose proof (wf_sorted _ _ Hw) as Hs.
  rewrite (vm_next_at mm p pre post Hl (sorted_NoDup _ _ _ Hs)). unfold first_above. rewrite Hl in *.
  destruct (sorted_split _ _ _ _ _ Hs) as [Hpre _]. apply sorted_app in Hs as [_ (_ & ? & _ & Hs)].
  assert (Hskip : List.find (fun q => x <? vm_end (deref mm q)) (pre ++ p :: post) = List.find (fun q => x <? vm_end (deref mm q)) post).
  { clear Hl. induction pre as [|q pre IH]; simpl; [by rewrite (proj2 (Z.ltb_ge _ _))|].
    rewrite (proj2 (Z.ltb_ge _ _)); [apply IH|]; intros; [apply Hpre; by right|]. specialize (Hpre q ltac:(by left)). lia. }
  rewrite Hskip. destruct post as [|q post]; [done|]. simpl in *. by rewrite (proj2 (Z.ltb_lt _ _)) by lia.
Qed.

(** Areas that have an address above [x] come from the first one above [x] on. *)
Lemma above_cover k mm x q p y : wf k mm -> first_above mm x = Some q -> p ∈ mmap mm -> x <= y < vm_end (deref mm p) ->
  p = q \/ vm_end (deref mm q) <= vm_start (deref mm p).
Proof.
  intros Hw Hf Hp Hy. destruct (first_above_Some _ _ _ Hf) as (pre & post & Hl & Hend & Hpre).
  pose proof (wf_sorted _ _ Hw) as Hs. rewrite Hl in Hp, Hs. destruct (sorted_split _ _ _ _ _ Hs) as [_ Hpost].
  apply elem_of_app in Hp as [Hp|[->|Hp]%elem_of_cons]; [apply Hpre in Hp; lia|by left|right; by apply Hpost].
Qed.

Lemma all_mapped_at t n : forall start x,
  all_mapped t start n -> page_aligned start -> 0 <= start -> start <= x < start + Z.of_nat n * PAGE_SIZE -> start + Z.of_nat n * PAGE_SIZE <= ADDR_LIMIT ->
  look t x <> 0.
Proof.
  induction n as [|n IH]; intros start x Hm Ha Hpos Hx Hl; [lia|]. destruct Hm as [Hne Hm]. rewrite PAGE_SIZE_eq in *.
  destruct (decide (x < start + 4096)) as [Hlt|Hge].
  - rewrite (look_same_page t x start); [done|lia|lia|]. unfold page_aligned in Ha. rewrite PAGE_SIZE_eq in *.
    pose proof (Z.div_mod start 4096). symmetry. apply Z.div_unique with (r := x - start); lia.
  - apply (IH (start + 4096)); [done| |lia..]. unfold page_aligned in *. rewrite PAGE_SIZE_eq in *. by rewrite Z.add_mod, Ha.
Qed.

Lemma touched_keeps k o s m s' m' x : touched k o s m s' m' -> 0 <= x < ADDR_LIMIT -> look (pgd s) x <> 0 -> look (pgd s') x <> 0.
Proof. intros Ht Hx Hne. by rewrite (tc_look _ _ _ _ _ _ Ht). Qed.

Lemma pages_between a b : page_aligned a -> page_aligned b -> a <= b ->
  0 <= (b - a) / PAGE_SIZE /\ (b - a) / PAGE_SIZE * PAGE_SIZE = b - a.
Proof.
  unfold page_aligned. rewrite PAGE_SIZE_eq. intros Ha Hb Hab. pose proof (Z.div_mod a 4096). pose proof (Z.div_mod b 4096).
  replace (b - a) with ((b / 4096 - a / 4096) * 4096) by lia. rewrite Z.div_mul by lia. lia.
Qed.

Definition pages_to (a b : Z) : nat := Z.to_nat ((b - a) / PAGE_SIZE).

Lemma pages_to_add a b c : page_aligned a -> page_aligned b -> page_aligned c -> a <= b <= c -> pages_to a c = (pages_to a b + pages_to b c)%nat.
Proof.
  intros Ha Hb Hc Hr. destruct (pages_between a b Ha Hb ltac:(lia)), (pages_between b c Hb Hc ltac:(lia)), (pages_between a c Ha Hc ltac:(lia)).
  unfold pages_to. rewrite PAGE_SIZE_eq in *. lia.
Qed.

Lemma pages_to_eq a b : page_aligned a -> page_aligned b -> a <= b -> Z.of_nat (pages_to a b) * PAGE_SIZE = b - a.
Proof. intros Ha Hb Hr. destruct (pages_between a b Ha Hb Hr). unfold pages_to. by rewrite Z2Nat.id. Qed.

(** The outcome of populating [a] to [end_]: every page is there, or memory was short,
    which is reported unless errors are ignored. *)
Definition populates k o (ign : bool) (end_ a : Z) s m (r : option (Z * space * pages)) : Prop :=
  exists ret s' m', r = Some (ret, s', m') /\ sp_mm s' = sp_mm s /\ touched k o s m s' m' /\
    (ret = 0 /\ (ign = false \/ ample (pages_to a end_) m -> forall x, a <= x < end_ -> populated (sp_mm s) (pgd s') x) \/
     ret = - ENOMEM /\ ign = false /\ ~ ample (pages_to a end_) m).

Lemma populates_stop k o ign end_ a s m : space_ok k o s m -> (forall x, a <= x < end_ -> populated (sp_mm s) (pgd s) x) ->
  populates k o ign end_ a s m (Some (0, s, m)).
Proof. intros Hs Hx. exists 0, s, m. split; [done|]. split; [done|]. split; [by apply touched_refl|]. left. auto. Qed.

(** [a] to [b] first, then the rest *)
Lemma populates_step k o ign end_ a b s m s1 m1 r : space_ok k o s m ->
  populates k o ign end_ b s1 m1 r -> sp_mm s1 = sp_mm s -> touched k o s m s1 m1 ->
  (ign = false \/ ample (pages_to a end_) m -> forall x, a <= x < b -> populated (sp_mm s) (pgd s1) x) ->
  (ample (pages_to a end_) m -> ample (pages_to b end_) m1) -> populates k o ign end_ a s m r.
Proof.
  intros Hs (ret & s2 & m2 & E & E2 & Ht2 & Hres) E1 Ht1 Hpop Ham. exists ret, s2, m2. split; [done|]. split; [congruence|].
  split; [by eapply touched_trans|]. destruct Hres as [[-> Hp2]|(-> & Hi & Hna2)]; [left|right; split_and!; auto]. split; [done|].
  intros Hc x Hx p Hp Hr Hfl. destruct (decide (x < b)) as [Hxn|Hxn].
  - apply (touched_keeps _ _ _ _ _ _ x Ht2); [|by apply (Hpop Hc x ltac:(lia) p)].
    assert (TASK_SIZE < ADDR_LIMIT) by done. destruct (wf_bounds k _ p (sk_wf _ _ _ _ Hs) Hp). lia.
  - rewrite E1 in Hp2. apply (Hp2 ltac:(tauto) x ltac:(lia) p); done.
Qed.

(** One area *)
Lemma populates_area k o end_ a q st s m : space_ok k o s m -> first_above (sp_mm s) a = Some q -> page_aligned a -> page_aligned end_ ->
  let v := deref (sp_mm s) q in let nend := Z.min end_ (vm_end v) in
  page_aligned st -> a <= st < nend -> vm_start v <= st -> (a < st -> st = vm_start v) ->
  exists ret s1 m1, populate_vma_page_range q st nend s m = Some (ret, s1, m1) /\ sp_mm s1 = sp_mm s /\ touched k o s m s1 m1 /\
    ((0 < ret /\ st + ret * PAGE_SIZE <= nend /\ (forall x, a <= x < st + ret * PAGE_SIZE -> populated (sp_mm s) (pgd s1) x) /\
      (ample (pages_to a end_) m -> ample (pages_to (st + ret * PAGE_SIZE) end_) m1)) \/
     ret = - ENOMEM /\ ~ ample (pages_to a end_) m).
Proof.
  intros Hs Hf Ha He v nend Hst Hr Hvs Hgap. pose proof (sk_wf _ _ _ _ Hs) as Hw. destruct (first_above_Some _ _ _ Hf) as (pre & post & Hl & Hend & _).
  assert (Hq : q ∈ mmap (sp_mm s)) by (rewrite Hl; set_solver). destruct (wf_bounds k _ q Hw Hq) as (Hv0 & Hv1 & Hv2). fold v in Hv0, Hv1, Hv2, Hend.
  destruct (wf_area _ _ Hw q Hq) as (Has & Hae & _). fold v in Has, Hae.
  assert (Hne : page_aligned nend) by (unfold nend; destruct (Z.min_spec end_ (vm_end v)) as [[_ ->]|[_ ->]]; done).
  destruct (populate_range_ok k o s m q st nend Hs Hq Hst Hne ltac:(fold v; lia) ltac:(fold v; lia)) as (ret & s1 & m1 & -> & E1 & Ht1 & Ham & Hres).
  fold (pages_to st nend) in Ham, Hres. pose proof (pages_to_eq st nend Hst Hne ltac:(lia)) as Hpg.
  pose proof (pages_to_add a st end_ Ha Hst He ltac:(lia)) as H1'. pose proof (pages_to_add st nend end_ Hst Hne He ltac:(lia)) as H2'.
  exists ret, s1, m1. split; [done|]. split; [done|]. split; [done|].
  destruct Hres as [(Hret & Hall & Hpart)|[-> Hna]]; [left|right; split; [done|intros Hx; apply Hna; eapply ample_le; [|exact Hx]; lia]].
  split; [lia|]. split; [rewrite PAGE_SIZE_eq in *; lia|]. split.
  - intros x Hx p Hp Hpr _. destruct (above_cover k _ _ q p x Hw Hf Hp ltac:(lia)) as [->|Hle]; [|fold v in Hle; rewrite PAGE_SIZE_eq in *; lia]. fold v in Hpr.
    assert (TASK_SIZE < ADDR_LIMIT) by done. apply (all_mapped_at _ (Z.to_nat ret) st x Hall Hst); rewrite ?Z2Nat.id by lia; rewrite ?PAGE_SIZE_eq in *; lia.
  - intros Hx. destruct (decide (ret = Z.of_nat (pages_to st nend))) as [->|Hnr]; [|destruct Hpart; [lia|eapply ample_le; [|exact Hx]; lia]].
    rewrite Hpg. replace (st + (nend - st)) with nend by lia. apply Ham. eapply ample_le; [|exact Hx]. lia.
Qed.

Lemma populate_loop_ok k o ign end_ fuel : page_aligned end_ -> end_ < ULONG_MOD -> forall vma a s m,
  space_ok k o s m -> page_aligned a -> 0 <= a -> (pages_to a end_ < fuel)%nat -> cursor (sp_mm s) vma a ->
  populates k o ign end_ a s m (populate_loop fuel true ign end_ vma a s m).
Proof.
  intros Hae Hlim. induction fuel as [|fuel IH]; intros vma a s m Hs Han Hpos Hfuel Hcur; [lia|]. cbn [populate_loop].
  pose proof (sk_wf _ _ _ _ Hs) as Hw. destruct (Z.ltb_spec a end_) as [Hlt|]; cbn [negb]; [|apply populates_stop; [done|lia]].
  rewrite (cursor_first k) by done. cbn [mbind option_bind]. destruct (first_above (sp_mm s) a) as [q|] eqn:Hf.
  2:{ apply populates_stop; [done|]. intros x Hx p Hp Hr. pose proof (first_above_None _ _ Hf p Hp). lia. }
  destruct (first_above_Some _ _ _ Hf) as (pre & post & Hl & Hend & _). assert (Hq : q ∈ mmap (sp_mm s)) by (rewrite Hl; set_solver).
  set (v := deref (sp_mm s) q) in *. destruct (wf_bounds k _ q Hw Hq) as (Hv0 & Hv1 & Hv2). fold v in Hv0, Hv1, Hv2.
  destruct (wf_area _ _ Hw q Hq) as (Hvs & Hve & _). fold v in Hvs, Hve.
  destruct (Z.leb_spec end_ (vm_start v)) as [Hbe|Hbe].
  { apply populates_stop; [done|]. intros x Hx p Hp Hr. destruct (above_cover k _ _ q p x Hw Hf Hp ltac:(lia)) as [->|Hle]; [fold v in Hr|fold v in Hle]; lia. }
  set (nend := Z.min end_ (vm_end v)). assert (Hne : page_aligned nend) by (unfold nend; destruct (Z.min_spec end_ (vm_end v)) as [[_ ->]|[_ ->]]; done).
  assert (Hbn : a < nend /\ vm_start v < nend <= end_ /\ nend <= vm_end v) by (unfold nend; lia).
  assert (Hgo : forall b s1 m1, a < b <= nend -> page_aligned b -> vm_start v <= b -> sp_mm s1 = sp_mm s -> space_ok k o s1 m1 ->
    populates k o ign end_ b s1 m1 (populate_loop fuel true ign end_ (Some (Some q)) b s1 m1)).
  { intros b s1 m1 Hb Hba Hvb E1 Hs1. apply IH; [done|done|lia| |rewrite E1; simpl; fold v; split; [done|lia]].
    pose proof (pages_to_add a b end_ Han Hba Hae ltac:(lia)). pose proof (pages_to_eq a b Han Hba ltac:(lia)). rewrite PAGE_SIZE_eq in *. lia. }
  assert (Hskip : forall s1 m1, sp_mm s1 = sp_mm s -> touched k o s m s1 m1 -> (ample (pages_to a end_) m -> ample (pages_to nend end_) m1) ->
    (ign = false \/ ample (pages_to a end_) m -> forall x, a <= x < nend -> populated (sp_mm s) (pgd s1) x) ->
    populates k o ign end_ a s m (populate_loop fuel true ign end_ (Some (Some q)) nend s1 m1)).
  { intros s1 m1 E1 Ht1 Ham Hp1. eapply (populates_step k o ign end_ a nend s m s1 m1); [done|apply Hgo; [lia|done|lia|done|apply Ht1]|done..]. }
  destruct (has (vm_flags v) _) eqn:Hio.
  { apply Hskip; [done|by apply touched_refl| |].
    - apply ample_le. rewrite (pages_to_add a nend end_) by (done || lia). lia.
    - intros _ x Hx p Hp Hr Hfl. destruct (above_cover k _ _ q p x Hw Hf Hp ltac:(lia)) as [->|Hle]; [fold v in Hfl; congruence|fold v in Hle; lia]. }
  set (st := if a <? vm_start v then vm_start v else a).
  destruct (populates_area k o end_ a q st s m Hs Hf Han Hae) as (ret & s1 & m1 & E & E1 & Ht1 & Hres);
    try (unfold st; destruct (Z.ltb_spec a (vm_start v)); fold v nend; (done || lia)). fold v nend in E, Hres. rewrite E. cbn [mbind option_bind].
  destruct Hres as [(Hret & Hrr & Hpop & Ham)|[-> Hna]].
  - rewrite (proj2 (Z.ltb_ge _ _)) by lia. assert (Hst : a <= st /\ page_aligned st) by (unfold st; destruct (Z.ltb_spec a (vm_start v)); split; (done || lia)).
    assert (Hvst : vm_start v <= st) by (unfold st; destruct (Z.ltb_spec a (vm_start v)); lia). destruct Hst as [Has Hsta].
    assert (HT : TASK_SIZE < ULONG_MOD) by done. assert (Hp0 : 0 < PAGE_SIZE) by done.
    rewrite (wrap_small (ret * PAGE_SIZE)) by (unfold is_u64; rewrite PAGE_SIZE_eq in *; lia). rewrite wrap_small by (unfold is_u64; rewrite PAGE_SIZE_eq in *; lia).
    eapply (populates_step k o ign end_ a (st + ret * PAGE_SIZE) s m s1 m1); [done|apply Hgo; [rewrite PAGE_SIZE_eq in *; lia| |rewrite PAGE_SIZE_eq in *; lia|done|apply Ht1]|done..|by intros _ x Hx; apply Hpop|done].
    unfold page_aligned in *. by rewrite Z_mod_plus_full.
  - change (- ENOMEM <? 0) with true. destruct ign.
    + apply Hskip; [done|done|done|]. intros [?|?]; done.
    + exists (- ENOMEM), s1, m1. split; [done|]. split; [done|]. split; [done|]. by right.
Qed.
End populate.
