(* ===== verification/UserCopy.v ===== *)
(** * Memory manager, copying to and from processes: bytes

    What the copies do to the bytes that a process has ([byte_at]). *)

From stdpp Require Import gmap.
From S2P Require Import Prelude RbTree VmaModel VmaTree VmaInv VmaSpec VmaLife PgtModel PgtTables PgtRange PgtCopy PgtMove.
From S2P Require Import MemModel MemFault MemSpec MemGup MemNode UserModel.

(** ** Bytes of one page *)

Section page.
Context (P : Z) (HP : page_aligned P /\ 2 ^ 63 <= P < ULONG_MOD).

Lemma page_byte o : 0 <= o < PAGE_SIZE -> is_u64 (P + o) /\ Z.land (P + o) PAGE_MASK = P /\ offset_in_page (P + o) = o.
Proof using HP.
  intros Ho. destruct HP as [Ha Hr]. unfold page_aligned in Ha. rewrite PAGE_SIZE_eq in *.
  assert (Hu : is_u64 (P + o)).
  { unfold is_u64, ULONG_MOD in *. pose proof (Z.div_mod P 4096). lia. }
  assert (Hm : (P + o) mod 4096 = o) by (rewrite Z.add_mod, Ha, Z.add_0_l, Z.mod_mod, Z.mod_small by lia; lia).
  split; [done|]. fold (page_base (P + o)). rewrite page_base_eq, offset_in_page_mod by done. rewrite PAGE_SIZE_eq, Hm. lia.
Qed.

Lemma write_line_same m f : frames m !! P = Some f -> write_line P (fr_data f) m = Some m.
Proof. intros E. unfold write_line. rewrite E. cbn [mbind option_bind]. f_equal. destruct f, m. unfold set_frames. simpl in *. by rewrite insert_id. Qed.

Lemma kwrite_line bytes : forall o m f,
  frames m !! P = Some f -> length (fr_data f) = Z.to_nat PAGE_SIZE -> (o + length bytes <= Z.to_nat PAGE_SIZE)%nat ->
  kwrite (wrap (P + Z.of_nat o)) bytes m = write_line P (list_inserts o bytes (fr_data f)) m.
Proof using HP.
  induction bytes as [|b l IH]; intros o m f E Hlen Ho; [symmetry; by apply write_line_same|]. cbn [kwrite list_inserts length] in *.
  destruct (page_byte (Z.of_nat o)) as (Hu & Hm & Hoff); [rewrite PAGE_SIZE_eq in *; lia|]. rewrite (wrap_small _ Hu).
  unfold poke. rewrite Hm, E, Hoff, Nat2Z.id. cbn [mbind option_bind]. rewrite (proj2 (Nat.ltb_lt _ _)) by lia. cbn [mbind option_bind].
  replace (P + Z.of_nat o + 1) with (P + Z.of_nat (S o)) by lia. set (m1 := set_frames _ m).
  assert (E1 : frames m1 !! P = Some (Frame (fr_count f) (<[o := b]> (fr_data f)))) by (simpl; apply lookup_insert_eq).
  rewrite (IH (S o) m1 _ E1) by (simpl; rewrite ?length_insert; lia). simpl. unfold write_line. rewrite E1, E. cbn [mbind option_bind].
  f_equal. unfold set_frames. simpl. rewrite insert_insert_eq. do 3 f_equal. rewrite list_insert_inserts_lt; [done|lia].
Qed.

Lemma kread_line n : forall o m f,
  frames m !! P = Some f -> length (fr_data f) = Z.to_nat PAGE_SIZE -> (o + n <= Z.to_nat PAGE_SIZE)%nat ->
  kread (wrap (P + Z.of_nat o)) n m = Some (take n (drop o (fr_data f))).
Proof using HP.
  induction n as [|n IH]; intros o m f E Hlen Ho; [done|]. cbn [kread].
  destruct (page_byte (Z.of_nat o)) as (Hu & Hm & Hoff); [rewrite PAGE_SIZE_eq in *; lia|]. rewrite (wrap_small _ Hu).
  unfold peek. rewrite Hm, E, Hoff, Nat2Z.id. cbn [mbind option_bind].
  destruct (lookup_lt_is_Some_2 (fr_data f) o) as [b Hb]; [lia|]. rewrite Hb. cbn [mbind option_bind].
  replace (P + Z.of_nat o + 1) with (P + Z.of_nat (S o)) by lia. rewrite (IH (S o) m f E Hlen) by lia. cbn [mbind option_bind].
  by rewrite (drop_S _ b o Hb).
Qed.
End page.

(** ** Bytes of a process *)

Section bytes.
Context `{PageAllocLaws, Files}.
Implicit Types (n : mem_node) (s : space) (m : pages) (o : Z -> Z).

(** Every page that a process has is a whole one. *)
Definition full n : Prop := forall j x d, is_u64 x -> node_view n j x = Some d -> length d = Z.to_nat PAGE_SIZE.

Definition byte_at n (i x : Z) : option Z := d ← node_view n i x; d !! Z.to_nat (x mod PAGE_SIZE).

(** Two addresses have the same byte of the same page. *)
Definition same_byte n (i x j y : Z) : Prop := shares n i x j y /\ x mod PAGE_SIZE = y mod PAGE_SIZE.

(** The bytes were written at [va] of space [i], in this order: each is now at all
    addresses that have its byte, and no other byte changed. *)
Record copied o n (i va : Z) (bytes : list Z) n' : Prop := {
  cp_ok : node_ok o n';
  cp_hash : node_pid_hash n' = node_pid_hash n;
  cp_spaces : dom (mms n') = dom (mms n);
  cp_once : unshared n -> unshared n';
  cp_full : full n';
  cp_mapped : forall j x page, is_u64 x -> mapped_at n j x page -> mapped_at n' j x page;
  cp_shares : forall l x j y, is_u64 x -> is_u64 y -> shares n' l x j y -> l = j /\ page_base x = page_base y \/ shares n l x j y;
  cp_has : forall j x, is_u64 x -> is_Some (node_view n' j x) <-> is_Some (node_view n j x);
  cp_there : forall k, (k < length bytes)%nat -> is_u64 (va + Z.of_nat k) /\ exists page, mapped_at n' i (va + Z.of_nat k) page;
  cp_written : forall k b j y, is_u64 y -> bytes !! k = Some b -> same_byte n' i (va + Z.of_nat k) j y ->
    (forall k', (k < k' < length bytes)%nat -> ~ same_byte n' i (va + Z.of_nat k') j y) -> byte_at n' j y = Some b;
  cp_other : forall j y, is_u64 y -> (forall k, (k < length bytes)%nat -> ~ same_byte n' i (va + Z.of_nat k) j y) ->
    byte_at n' j y = byte_at n j y
}.

(** The bytes are at [va] of space [i], and no other byte changed. *)
Definition written_alone n (i va : Z) (bytes : list Z) n' : Prop := forall j x, is_u64 x ->
  byte_at n' j x = if decide (j = i /\ va <= x < va + Z.of_nat (length bytes)) then bytes !! Z.to_nat (x - va) else byte_at n j x.

Lemma same_address x y : is_u64 x -> is_u64 y -> page_base x = page_base y -> x mod PAGE_SIZE = y mod PAGE_SIZE -> x = y.
Proof. intros Hx Hy. rewrite !page_base_eq by done. lia. Qed.

Lemma mapped_inj n i x p q : mapped_at n i x p -> mapped_at n i x q -> p = q.
Proof. intros (s & E & _ & _ & <-) (s' & E' & _ & _ & <-). congruence. Qed.

#[export] Instance mapped_dec n j x page : Decision (mapped_at n j x page).
Proof.
  unfold mapped_at. destruct (mms n !! j) as [s|]; [|by right; intros (? & ? & _)].
  destruct (decide (is_Some (initial (sp_mm s) x) /\ look (pgd s) x <> 0 /\ lego_pte_to_virt (look (pgd s) x) = page)) as [Hd|Hd]; [by left; exists s|].
  right. by intros (s' & [= <-] & Hd').
Defined.

Lemma mapped_page o n i x page : node_ok o n -> mapped_at n i x page ->
  exists fr, frames (node_pages n) !! page = Some fr /\ node_view n i x = Some (fr_data fr) /\ page_aligned page /\ 2 ^ 63 <= page < ULONG_MOD.
Proof.
  intros Hn Hm. pose proof (page_mapped_view n i x page Hm) as Hv. destruct Hm as (s & Es & _ & Hne & <-).
  destruct (node_space o n i s Hn Es) as [k Hs]. destruct (mapped_frame _ _ _ (sk_balanced _ _ _ _ Hs) x Hne) as [fr Hfr].
  exists fr. split; [done|]. split; [by rewrite Hv; unfold data_of; rewrite Hfr|]. exact (nd_kernel _ _ Hn _ _ Hfr).
Qed.

Lemma page_range va k x : is_u64 va -> is_u64 x -> va mod PAGE_SIZE + k <= PAGE_SIZE -> va <= x < va + k -> page_base x = page_base va.
Proof.
  intros Hva Hx Hk Hr. apply page_base_div; [done..|]. rewrite PAGE_SIZE_eq in *.
  pose proof (Z.div_mod va 4096). pose proof (Z.mod_pos_bound va 4096). symmetry. apply Z.div_unique with (r := x - 4096 * (va / 4096)); lia.
Qed.

(** The addresses of a page have the same page. *)
Lemma view_same_page o n i x va page : node_ok o n -> mapped_at n i va page -> is_u64 x -> is_u64 va -> page_base x = page_base va ->
  mapped_at n i x page /\ node_view n i x = node_view n i va.
Proof.
  intros Hn Hm Hx Hva E. destruct Hm as (s & Es & Hi & Hne & Ep). destruct (nd_wf _ _ Hn i s Es) as [k Hw].
  assert (Hix : is_Some (initial (sp_mm s) x)) by (by rewrite (initial_page _ x va E)).
  assert (El : look (pgd s) x = look (pgd s) va) by (apply look_same_page; [by eapply initial_range|by eapply initial_range|by apply page_base_div]).
  split; [exists s; by rewrite El|]. unfold node_view, page_view. rewrite Es. cbn [mbind option_bind].
  by rewrite (initial_page _ x va E), !pte_at_look, El.
Qed.

Lemma in_page va k : is_u64 va -> 0 <= k -> va mod PAGE_SIZE + k < PAGE_SIZE ->
  is_u64 (va + k) /\ page_base (va + k) = page_base va /\ (va + k) mod PAGE_SIZE = va mod PAGE_SIZE + k.
Proof.
  intros Hva Hk Hlt. destruct (page_base_bounds va Hva) as (_ & Hal & Hbr).
  assert (Hx : is_u64 (va + k)).
  { rewrite page_base_eq in Hal, Hbr by done. unfold is_u64, page_aligned, ULONG_MOD in *. rewrite PAGE_SIZE_eq in *.
    pose proof (Z.div_mod (va - va mod 4096) 4096). lia. }
  assert (Eb : page_base (va + k) = page_base va) by (apply (page_range va (k + 1)); [done..|lia|lia]).
  split_and!; [done|done|]. rewrite !page_base_eq in Eb by done. lia.
Qed.

(** The addresses that have the page of [va] have the line written there. *)
Lemma written_view o n i va page line n' j x :
  flushed o n i va line n' -> mms n' = mms n -> mapped_at n i va page -> is_u64 x ->
  node_view n' j x = if decide (mapped_at n j x page) then Some line else node_view n j x.
Proof.
  intros Hfl Em Hm Hx. assert (Eq : forall l y q, mapped_at n' l y q <-> mapped_at n l y q) by (intros; unfold mapped_at; by rewrite Em).
  destruct (decide _) as [Hy|Hny]; [apply (fd_written _ _ _ _ _ _ Hfl); [done|]; exists page; by rewrite !Eq|].
  apply (fd_view _ _ _ _ _ _ Hfl); [done|]. intros (q & Hq1%Eq & Hq2%Eq). by rewrite (mapped_inj _ _ _ _ _ Hm Hq1) in Hny.
Qed.

(** A copy within one page *)
Lemma write_in_page o n i va page bytes :
  node_ok o n -> full n -> mapped_at n i va page -> is_u64 va ->
  va mod PAGE_SIZE + Z.of_nat (length bytes) <= PAGE_SIZE ->
  exists m', kwrite (page +u va mod PAGE_SIZE) bytes (node_pages n) = Some m' /\
    copied o n i va bytes (MemNode (node_pid_hash n) (mms n) m') /\ (forall j, ample j (node_pages n) -> ample j m').
Proof.
  intros Hn Hfull Hm Hva Hlen. destruct (mapped_page o n i va page Hn Hm) as (fr & Hfr & Hv & Hk).
  pose proof (Hfull i va _ Hva Hv) as Hd. pose proof (Z.mod_pos_bound va PAGE_SIZE ltac:(done)) as Hoff.
  set (off := Z.to_nat (va mod PAGE_SIZE)). assert (Eoff : Z.of_nat off = va mod PAGE_SIZE) by (unfold off; lia).
  assert (Hin : (off + length bytes <= Z.to_nat PAGE_SIZE)%nat) by lia.
  rewrite <- Eoff, (kwrite_line page Hk bytes off _ fr Hfr Hd Hin). set (line := list_inserts off bytes (fr_data fr)).
  destruct (write_line_ok (node_pages n) page fr line Hfr) as (m' & -> & Htb & Hsz & Hf & Hkp & Hr & Hdt); [apply Hn|apply Hn|].
  exists m'. split; [done|].
  pose proof (flushed_write o n n i va page line m' (kept_refl o n Hn) ltac:(by left) Hm Hf Hkp Hr Hdt) as Hfl.
  set (n' := MemNode _ _ m') in *. assert (Hll : length line = Z.to_nat PAGE_SIZE) by (unfold line; by rewrite length_inserts).
  assert (Hview : forall j x, is_u64 x -> node_view n' j x = if decide (mapped_at n j x page) then Some line else node_view n j x)
    by (intros j x Hx; by eapply written_view).
  assert (Hat : forall k, (k < length bytes)%nat -> is_u64 (va + Z.of_nat k) /\ mapped_at n i (va + Z.of_nat k) page /\
    Z.to_nat ((va + Z.of_nat k) mod PAGE_SIZE) = (off + k)%nat).
  { intros k Hlt. destruct (in_page va (Z.of_nat k) Hva) as (Hx & Eb & Em); [lia|lia|]. split_and!; [done| |lia].
    by apply (view_same_page o n i _ va page). }
  assert (Hold : forall j x, mapped_at n j x page -> node_view n j x = Some (fr_data fr)).
  { intros j x Hmx. rewrite (page_mapped_view _ _ _ _ Hmx). unfold data_of. by rewrite Hfr. }
  split; [|intros j Hj; by apply (ample_size j j (node_pages n) m'); [lia|..]]. split; try apply Hfl.
  - intros j x d Hx. rewrite Hview by done. destruct (decide _); [by intros [= <-]|by apply Hfull].
  - by right.
  - intros k Hlt. destruct (Hat k Hlt) as (? & ? & _). eauto.
  - intros k b j y Hy Hb [(q & Hq1 & Hq2) Emod] _. destruct (Hat k (lookup_lt_Some _ _ _ Hb)) as (_ & Hmk & Ek).
    assert (q = page) as -> by exact (mapped_inj n _ _ _ _ Hq1 Hmk). unfold byte_at. rewrite Hview, decide_True by done.
    cbn [mbind option_bind]. rewrite <- Emod, Ek. pose proof (lookup_lt_Some _ _ _ Hb). unfold line.
    rewrite list_lookup_inserts by lia. rewrite <- Hb. f_equal. lia.
  - intros j y Hy Hno. unfold byte_at. rewrite Hview by done. destruct (decide _) as [Hmy|]; [|done]. rewrite (Hold _ _ Hmy).
    cbn [mbind option_bind]. unfold line. pose proof (Z.mod_pos_bound y PAGE_SIZE ltac:(done)) as Hyo. set (e := Z.to_nat (y mod PAGE_SIZE)) in *.
    destruct (decide (e < off)%nat); [by rewrite list_lookup_inserts_lt|].
    destruct (decide (e < off + length bytes)%nat); [exfalso|by rewrite list_lookup_inserts_ge by lia].
    destruct (Hat (e - off)%nat ltac:(lia)) as (_ & Hmk & Ek). apply (Hno (e - off)%nat); [lia|]. split; [by exists page|].
    pose proof (Z.mod_pos_bound (va + Z.of_nat (e - off)) PAGE_SIZE ltac:(done)). lia.
Qed.

(** ** Copies over several pages *)

Lemma copied_nil o n i va : node_ok o n -> full n -> copied o n i va [] n.
Proof. intros Hn Hf. split; try done; [by right|simpl; lia]. Qed.

Lemma same_byte_mono o n i va l n' j x y' y :
  copied o n i va l n' -> is_u64 x -> is_u64 y' -> same_byte n j x y y' -> same_byte n' j x y y'.
Proof. intros Hc Hx Hy [(page & H1' & H2') E]. split; [|done]. exists page. split; by apply (cp_mapped _ _ _ _ _ _ Hc). Qed.

(** What has a byte that was mapped before had it before. *)
Lemma same_byte_back o n i va l n' j x page y' y :
  copied o n i va l n' -> is_u64 x -> is_u64 y' -> mapped_at n j x page -> same_byte n' j x y y' -> same_byte n j x y y'.
Proof.
  intros Hc Hx Hy Hm [Hsh E]. split; [|done]. destruct (cp_shares _ _ _ _ _ _ Hc _ _ _ _ Hx Hy Hsh) as [[<- Eb]|]; [|done].
  rewrite <- (same_address x y' Hx Hy Eb E). by exists page.
Qed.

Lemma copied_app o n i va l1 l2 n1 n2 :
  copied o n i va l1 n1 -> copied o n1 i (va + Z.of_nat (length l1)) l2 n2 -> copied o n i va (l1 ++ l2) n2.
Proof.
  intros Hc1 Hc2. pose proof Hc1 as [A1 A2 A3 A4 A5 A6 A7 A8 A9 A10 A11]. pose proof Hc2 as [B1 B2 B3 B4 B5 B6 B7 B8 B9 B10 B11].
  assert (E2 : forall k, (length l1 <= k)%nat -> va + Z.of_nat k = va + Z.of_nat (length l1) + Z.of_nat (k - length l1)) by lia.
  assert (E3 : forall k, va + Z.of_nat (length l1) + Z.of_nat k = va + Z.of_nat (length l1 + k)) by lia.
  assert (Hfwd : forall k j y, (k < length l1)%nat -> is_u64 y -> same_byte n1 i (va + Z.of_nat k) j y -> same_byte n2 i (va + Z.of_nat k) j y).
  { intros k j y Hk Hy. apply (same_byte_mono _ _ _ _ _ _ _ _ _ _ Hc2); [by apply A9|done]. }
  split; [done|congruence|congruence|by auto|done|by auto| | | | |]; try rewrite length_app.
  - intros j x l y Hx Hy [?|?]%B7; auto.
  - intros j x Hx. by rewrite B8, A8.
  - intros k Hk. destruct (decide (k < length l1)%nat) as [Hk1|Hk1].
    + destruct (A9 k Hk1) as (? & page & Hp). split; [done|]. exists page. by apply B6.
    + rewrite E2 by lia. apply B9. lia.
  - intros k b j y Hy Hb Hs Hlater. apply lookup_app_Some in Hb as [Hb|[Hge Hb]].
    + pose proof (lookup_lt_Some _ _ _ Hb) as Hk. destruct (A9 k Hk) as (Hku & page & Hp).
      rewrite B11; [|done|intros k' Hk'; rewrite E3; apply Hlater; lia].
      apply (A10 k b); [done|done|by apply (same_byte_back _ _ _ _ _ _ _ _ _ _ _ Hc2 Hku Hy Hp)|]. intros k' Hk' Hs'. apply (Hlater k'); [lia|]. by apply Hfwd; [lia|..].
    + rewrite E2 in Hs by done. apply (B10 (k - length l1)%nat b); [done|done|done|]. intros k' Hk'. rewrite E3. apply Hlater. lia.
  - intros j y Hy Hno. rewrite B11, A11; [done|done| |done|].
    + intros k Hk Hs. apply (Hno k); [lia|]. by apply Hfwd.
    + intros k Hk. rewrite E3. apply Hno. lia.
Qed.

(** A byte that was written is there. *)
Lemma copied_has o n i va bytes n' k : copied o n i va bytes n' -> (k < length bytes)%nat -> is_Some (node_view n i (va + Z.of_nat k)).
Proof.
  intros Hc Hk. destruct (cp_there _ _ _ _ _ _ Hc k Hk) as (Hu & page & Hm). apply (cp_has _ _ _ _ _ _ Hc); [done|].
  destruct (mapped_page o n' i _ page (cp_ok _ _ _ _ _ _ Hc) Hm) as (fr & _ & -> & _). by eexists.
Qed.

(** No two pages of the range are the same. *)
Definition apart n (i va len : Z) : Prop :=
  forall x y, va <= x < va + len -> va <= y < va + len -> shares n i x i y -> page_base x = page_base y.

Lemma copied_reads o n i va bytes n' k b :
  copied o n i va bytes n' -> apart n i va (Z.of_nat (length bytes)) -> bytes !! k = Some b -> byte_at n' i (va + Z.of_nat k) = Some b.
Proof.
  intros Hc Ha Hb. pose proof (lookup_lt_Some _ _ _ Hb) as Hk. destruct (cp_there _ _ _ _ _ _ Hc k Hk) as (Hu & page & Hm).
  apply (cp_written _ _ _ _ _ _ Hc k b); [done|done|by split; [exists page|]|]. intros k' Hk' [Hsh E].
  destruct (cp_there _ _ _ _ _ _ Hc k' ltac:(lia)) as (Hu' & _).
  assert (Eb : page_base (va + Z.of_nat k') = page_base (va + Z.of_nat k)).
  { destruct (cp_shares _ _ _ _ _ _ Hc _ _ _ _ Hu' Hu Hsh) as [[_ ?]|Hs]; [done|]. apply Ha; [lia|lia|done]. }
  pose proof (same_address _ _ Hu' Hu Eb E). lia.
Qed.

(** Without sharing, exactly these bytes of this space change. *)
Lemma copied_alone o n i va bytes n' :
  copied o n i va bytes n' -> node_ok o n -> unshared n -> is_u64 va -> va + Z.of_nat (length bytes) <= ULONG_MOD -> written_alone n i va bytes n'.
Proof.
  intros Hc Hn Hu Hva Hlen j x Hx. pose proof (cp_once _ _ _ _ _ _ Hc Hu) as Hu'. destruct (decide _) as [[-> Hr]|Hne].
  - destruct (lookup_lt_is_Some_2 bytes (Z.to_nat (x - va))) as [b Hb]; [lia|]. rewrite Hb.
    replace x with (va + Z.of_nat (Z.to_nat (x - va))) by lia. apply (copied_reads _ _ _ _ _ _ _ _ Hc); [|done].
    intros y z Hy Hz (page & Hm1 & Hm2). apply (mapped_once o n i y i z page); [done|apply Hu|unfold is_u64 in *; lia..|done|done].
  - apply (cp_other _ _ _ _ _ _ Hc); [done|]. intros k Hk [(page & Hm1 & Hm2) E]. destruct (cp_there _ _ _ _ _ _ Hc k Hk) as (Hku & _).
    destruct (mapped_once o n' i _ j x page (cp_ok _ _ _ _ _ _ Hc) (Hu' page) Hku Hx Hm1 Hm2) as [-> Eb].
    pose proof (same_address _ _ Hku Hx Eb E). apply Hne. split; [done|]. lia.
Qed.

(** [pgs] are the pages from the one of [a] on. *)
Fixpoint maps n (i a : Z) (pgs : list Z) : Prop :=
  match pgs with [] => True | p :: pgs => mapped_at n i a p /\ maps n i (page_base a + PAGE_SIZE) pgs end.

Lemma maps_mono n n' i pgs : forall a,
  (forall x page, is_u64 x -> mapped_at n i x page -> mapped_at n' i x page) -> is_u64 a ->
  page_base a + Z.of_nat (length pgs) * PAGE_SIZE <= ULONG_MOD -> maps n i a pgs -> maps n' i a pgs.
Proof.
  induction pgs as [|p pgs IH]; intros a Hm Ha Hr; [done|]. cbn [maps length] in *. intros [H1' H2']. split; [by apply Hm|].
  destruct pgs as [|p' pgs]; [done|]. destruct (page_base_bounds a Ha) as (Hb & Hal & Hbr). cbn [length] in Hr.
  assert (Hn : is_u64 (page_base a + PAGE_SIZE)) by (unfold is_u64 in *; rewrite PAGE_SIZE_eq in *; lia).
  apply IH; [done|done| |done]. rewrite page_base_id; [cbn [length]; rewrite PAGE_SIZE_eq in *; lia|done|].
  unfold page_aligned in *. rewrite PAGE_SIZE_eq in *. by rewrite Z.add_mod, Hal.
Qed.

Lemma copy_to_none pgs : forall start c m, is_u64 c -> copy_to_pages pgs start [] c m = Some (c, m).
Proof.
  induction pgs as [|p pgs IH]; intros start c m Hc; [done|]. cbn [copy_to_pages length].
  pose proof (Z.mod_pos_bound start PAGE_SIZE ltac:(done)). rewrite (proj2 (Z.leb_le _ _)) by (rewrite offset_in_page_mod; lia).
  simpl. rewrite !Z.add_0_r, (wrap_small c) by done. by apply IH.
Qed.

Lemma next_page start : is_u64 start -> start + (PAGE_SIZE - start mod PAGE_SIZE) = page_base start + PAGE_SIZE.
Proof. intros Hs. rewrite page_base_eq by done. lia. Qed.

Lemma copy_to_pages_ok o i pgs : forall n start from c,
  node_ok o n -> full n -> maps n i start pgs -> is_u64 start ->
  page_base start + Z.of_nat (length pgs) * PAGE_SIZE <= ULONG_MOD ->
  start mod PAGE_SIZE + Z.of_nat (length from) <= Z.of_nat (length pgs) * PAGE_SIZE ->
  0 <= c -> c + Z.of_nat (length from) < ULONG_MOD ->
  exists m', copy_to_pages pgs start from c (node_pages n) = Some (c + Z.of_nat (length from), m') /\
    copied o n i start from (MemNode (node_pid_hash n) (mms n) m') /\ (forall j, ample j (node_pages n) -> ample j m').
Proof.
  induction pgs as [|p pgs IH]; intros n start from c Hn Hf Hm Hs Hlim Hlen Hc Hcl; pose proof (Z.mod_pos_bound start PAGE_SIZE ltac:(done)) as Hso.
  { destruct from as [|b from]; [|cbn [length] in *; lia]. exists (node_pages n). split; [simpl; by rewrite Z.add_0_r|].
    destruct n. split; [by apply copied_nil|done]. }
  cbn [copy_to_pages maps length] in *. destruct Hm as [Hm Hms]. rewrite offset_in_page_mod.
  destruct (Z.leb_spec (Z.of_nat (length from)) (PAGE_SIZE - start mod PAGE_SIZE)) as [Hle|Hgt].
  - rewrite Nat2Z.id, take_ge, drop_ge by lia. unfold __lego_copy_to_user.
    destruct (write_in_page o n i start p from Hn Hf Hm Hs) as (m1 & -> & Hcp & Ham); [lia|]. cbn [mbind option_bind].
    exists m1. rewrite copy_to_none by (unfold is_u64, wrap; apply Z.mod_pos_bound; done). rewrite wrap_small by (unfold is_u64; lia). done.
  - set (k := PAGE_SIZE - start mod PAGE_SIZE) in *. assert (Hk : length (take (Z.to_nat k) from) = Z.to_nat k) by (rewrite length_take; lia).
    unfold __lego_copy_to_user.
    destruct (write_in_page o n i start p (take (Z.to_nat k) from) Hn Hf Hm Hs) as (m1 & -> & Hcp & Ham); [lia|]. cbn [mbind option_bind].
    destruct (page_base_bounds start Hs) as (Hb & Hal & Hbr). pose proof (next_page start Hs) as Hnx. fold k in Hnx.
    destruct pgs as [|p' pgs]; [cbn [length] in *; lia|].
    assert (Hs' : is_u64 (start + k)) by (rewrite Hnx; unfold is_u64 in *; cbn [length] in *; rewrite PAGE_SIZE_eq in *; lia).
    assert (Ha' : page_aligned (start + k)) by (rewrite Hnx; unfold page_aligned in *; rewrite PAGE_SIZE_eq in *; by rewrite Z.add_mod, Hal).
    rewrite (wrap_small (start + k)), (wrap_small (c + k)) by (done || unfold is_u64; lia).
    set (n1 := MemNode (node_pid_hash n) (mms n) m1) in *.
    assert (Hld : Z.of_nat (length (drop (Z.to_nat k) from)) = Z.of_nat (length from) - k) by (rewrite length_drop; lia).
    destruct (IH n1 (start + k) (drop (Z.to_nat k) from) (c + k)) as (m2 & E2 & Hcp2 & Ham2); try (by apply Hcp); try lia; try done.
    + rewrite Hnx. apply (maps_mono n); [intros x page; apply Hcp|by rewrite <- Hnx| |done].
      rewrite <- Hnx, page_base_id by done. rewrite Hnx. cbn [length] in *. lia.
    + rewrite page_base_id by done. rewrite Hnx. cbn [length] in *. lia.
    + rewrite Ha'. rewrite Hld. cbn [length] in *. lia.
    + change (node_pages n1) with m1 in E2. rewrite E2. exists m2. split; [f_equal; f_equal; lia|]. split; [|auto]. rewrite <- (take_drop (Z.to_nat k) from) at 1. eapply copied_app; [exact Hcp|].
      replace (start + Z.of_nat (length (take (Z.to_nat k) from))) with (start + k) by lia. exact Hcp2.
Qed.

(** The bytes of space [i] from [va] on *)
Definition reads n (i va : Z) (l : list Z) : Prop := forall k b, l !! k = Some b -> byte_at n i (va + Z.of_nat k) = Some b.

Lemma read_in_page o n i va page k :
  node_ok o n -> full n -> mapped_at n i va page -> is_u64 va -> va mod PAGE_SIZE + Z.of_nat k <= PAGE_SIZE ->
  exists l, kread (page +u va mod PAGE_SIZE) k (node_pages n) = Some l /\ length l = k /\ reads n i va l.
Proof.
  intros Hn Hfull Hm Hva Hlen. destruct (mapped_page o n i va page Hn Hm) as (fr & Hfr & Hv & Hk).
  pose proof (Hfull i va _ Hva Hv) as Hd. pose proof (Z.mod_pos_bound va PAGE_SIZE ltac:(done)) as Hoff.
  set (off := Z.to_nat (va mod PAGE_SIZE)). assert (Eoff : Z.of_nat off = va mod PAGE_SIZE) by (unfold off; lia).
  rewrite <- Eoff, (kread_line page Hk k off _ fr Hfr Hd) by lia. eexists. split; [done|].
  split; [rewrite length_take, length_drop; lia|]. intros j b Hj. apply lookup_take_Some in Hj as [Hj Hlt]. rewrite lookup_drop in Hj.
  destruct (in_page va (Z.of_nat j) Hva) as (Hx & Eb & Em); [lia|lia|].
  unfold byte_at. destruct (view_same_page o n i _ va page Hn Hm Hx Hva Eb) as [_ ->]. rewrite Hv. cbn [mbind option_bind].
  rewrite <- Hj. f_equal. lia.
Qed.

Lemma reads_app n i va l1 l2 : reads n i va l1 -> reads n i (va + Z.of_nat (length l1)) l2 -> reads n i va (l1 ++ l2).
Proof.
  intros Ha Hb k b [Hk|[Hge Hk]]%lookup_app_Some; [by apply Ha|]. specialize (Hb _ _ Hk). rewrite <- Hb. f_equal. lia.
Qed.

Lemma copy_from_none pgs : forall start to m, copy_from_pages pgs start 0 to m = Some to.
Proof.
  induction pgs as [|p pgs IH]; intros start to m; [done|]. cbn [copy_from_pages].
  pose proof (Z.mod_pos_bound start PAGE_SIZE ltac:(done)). rewrite (proj2 (Z.leb_le _ _)) by (rewrite offset_in_page_mod; lia).
  simpl. rewrite app_nil_r. apply IH.
Qed.

Lemma copy_from_pages_ok o i pgs : forall n start cnt to,
  node_ok o n -> full n -> maps n i start pgs -> is_u64 start ->
  page_base start + Z.of_nat (length pgs) * PAGE_SIZE <= ULONG_MOD ->
  0 <= cnt -> start mod PAGE_SIZE + cnt <= Z.of_nat (length pgs) * PAGE_SIZE ->
  exists l, copy_from_pages pgs start cnt to (node_pages n) = Some (to ++ l) /\ Z.of_nat (length l) = cnt /\ reads n i start l.
Proof.
  induction pgs as [|p pgs IH]; intros n start cnt to Hn Hf Hm Hs Hlim Hc Hlen; pose proof (Z.mod_pos_bound start PAGE_SIZE ltac:(done)) as Hso.
  { exists []. rewrite app_nil_r. split; [done|]. split; [simpl in *; lia|]. intros k b Hk. by rewrite lookup_nil in Hk. }
  cbn [copy_from_pages maps length] in *. destruct Hm as [Hm Hms]. rewrite offset_in_page_mod. unfold __lego_copy_from_user.
  destruct (Z.leb_spec cnt (PAGE_SIZE - start mod PAGE_SIZE)) as [Hle|Hgt].
  - destruct (read_in_page o n i start p (Z.to_nat cnt) Hn Hf Hm Hs) as (l & -> & Hl & Hrd); [lia|]. cbn [mbind option_bind].
    exists l. rewrite Z.sub_diag, copy_from_none. split; [done|]. split; [lia|done].
  - set (k := PAGE_SIZE - start mod PAGE_SIZE) in *.
    destruct (read_in_page o n i start p (Z.to_nat k) Hn Hf Hm Hs) as (l & -> & Hl & Hrd); [lia|]. cbn [mbind option_bind].
    destruct (page_base_bounds start Hs) as (Hb & Hal & Hbr). pose proof (next_page start Hs) as Hnx. fold k in Hnx.
    destruct pgs as [|p' pgs]; [cbn [length] in *; lia|].
    assert (Hs' : is_u64 (start + k)) by (rewrite Hnx; unfold is_u64 in *; cbn [length] in *; rewrite PAGE_SIZE_eq in *; lia).
    assert (Ha' : page_aligned (start + k)) by (rewrite Hnx; unfold page_aligned in *; rewrite PAGE_SIZE_eq in *; by rewrite Z.add_mod, Hal).
    assert (Hcu : cnt -u k = cnt - k) by (apply wrap_small; unfold is_u64 in *; cbn [length] in *; rewrite PAGE_SIZE_eq in *; lia).
    rewrite (wrap_small (start + k)), Hcu by done.
    destruct (IH n (start + k) (cnt - k) (to ++ l)) as (l2 & E2 & Hl2 & Hrd2); try lia; try done.
    + by rewrite Hnx.
    + rewrite page_base_id by done. rewrite Hnx. cbn [length] in *. lia.
    + rewrite Ha'. cbn [length] in *. lia.
    + rewrite E2. exists (l ++ l2). rewrite <- app_assoc. split; [done|]. split; [rewrite length_app; lia|]. apply reads_app; [done|].
      replace (start + Z.of_nat (length l)) with (start + k) by lia. done.
Qed.

(** ** The pages of a range *)

Lemma range_pages_eq a len : is_u64 a -> 0 < len -> a + len <= ULONG_MOD ->
  let nr := range_pages a len in
  0 < nr /\ page_base a + nr * PAGE_SIZE <= ULONG_MOD /\ (nr - 1) * PAGE_SIZE < a mod PAGE_SIZE + len <= nr * PAGE_SIZE.
Proof.
  intros Ha Hl Hr. assert (Hz : is_u64 (a + len - 1)) by (unfold is_u64 in *; lia). unfold range_pages. cbv zeta.
  assert (E : a +u len -u 1 = a + len - 1).
  { unfold wrap. rewrite Zminus_mod_idemp_l. by apply Z.mod_small. }
  rewrite E. fold (page_base a) (page_base (a + len - 1)). rewrite !page_base_eq by done. unfold PAGE_SHIFT. rewrite PAGE_SIZE_eq.
  pose proof (Z.div_mod a 4096). pose proof (Z.mod_pos_bound a 4096). pose proof (Z.div_mod (a + len - 1) 4096).
  pose proof (Z.mod_pos_bound (a + len - 1) 4096). set (u := a / 4096) in *. set (v := (a + len - 1) / 4096) in *.
  assert (u <= v) by (apply Z.div_le_mono; lia).
  assert (Hv : v < 2 ^ 52) by (unfold v; apply Z.div_lt_upper_bound; [lia|]; unfold is_u64, ULONG_MOD in *; lia).
  assert (0 <= u) by (apply Z.div_pos; unfold is_u64 in *; lia).
  replace (a + len - 1 - (a + len - 1) mod 4096 - (a - a mod 4096)) with ((v - u) * 4096) by lia.
  rewrite (wrap_small ((v - u) * 4096)) by (unfold is_u64, ULONG_MOD; lia).
  rewrite Z.shiftr_div_pow2 by lia. change (2 ^ 12) with 4096. rewrite Z.div_mul by lia.
  rewrite wrap_small by (unfold is_u64, ULONG_MOD; lia). unfold ULONG_MOD. lia.
Qed.

Lemma maps_found n i s : mms n !! i = Some s -> forall nr a,
  is_u64 a -> page_aligned a -> a + Z.of_nat nr * PAGE_SIZE <= ULONG_MOD -> all_mapped (pgd s) a nr ->
  (forall j, (j < nr)%nat -> is_Some (initial (sp_mm s) (a + Z.of_nat j * PAGE_SIZE))) -> maps n i a (pages_at (pgd s) a nr).
Proof.
  intros Es. induction nr as [|nr IH]; intros a Ha Hal Hr Hm Hi; [done|]. cbn [all_mapped pages_at maps] in *. destruct Hm as [Hne Hm].
  rewrite (page_base_id a Ha Hal). split.
  { exists s. split; [done|]. split; [|done]. specialize (Hi 0%nat (Nat.lt_0_succ _)). by rewrite Z.add_0_r in Hi. }
  destruct nr as [|nr]; [done|]. apply IH; [| |lia|done|].
  - unfold is_u64 in *. rewrite PAGE_SIZE_eq in *. lia.
  - unfold page_aligned in *. rewrite PAGE_SIZE_eq in *. by rewrite Z.add_mod, Hal.
  - intros j Hj. replace (a + PAGE_SIZE + Z.of_nat j * PAGE_SIZE) with (a + Z.of_nat (S j) * PAGE_SIZE) by lia. apply Hi. lia.
Qed.

Lemma kept_full o n n' : kept o n n' -> full n -> full n'.
Proof. intros Hk Hf j x d Hx. rewrite (kp_view _ _ _ Hk) by done. by apply Hf. Qed.

(** The pages of the range are found, or one of them is not there. *)
Lemma gup_range o n i s a len :
  node_ok o n -> mms n !! i = Some s -> is_u64 a -> 0 < len -> a + len <= ULONG_MOD ->
  exists pgs ret s' m', get_user_pages (page_base a) (Z.to_nat (range_pages a len)) s (node_pages n) = Some (pgs, ret, s', m') /\
    kept o n (set_space i s' m' n) /\ (forall j, ample (Z.to_nat (range_pages a len) + j) (node_pages n) -> ample j m') /\
    (ret = range_pages a len /\ Z.of_nat (length pgs) = range_pages a len /\ maps (set_space i s' m' n) i a pgs \/
     ret <> range_pages a len /\ ((exists x, a <= x < a + len /\ node_view n i x = None) \/ ~ ample (Z.to_nat (range_pages a len)) (node_pages n))).
Proof.
  intros Hn Es Ha Hl Hr. destruct (range_pages_eq a len Ha Hl Hr) as (Hnr & Hlim & Hcov). set (nr := range_pages a len) in *.
  destruct (node_space o n i s Hn Es) as [k Hs]. destruct (page_base_bounds a Ha) as (Hb & Hal & Hbr).
  assert (Hp0 : 0 < PAGE_SIZE) by done.
  destruct (gup_loop_ok k (others o n i) (Z.to_nat nr) None (page_base a) [] s (node_pages n) Hs Hb) as (pgs & ret & s' & m' & E & [Ht Ham _ Hp]); [lia|done|].
  exists pgs, ret, s', m'. split; [exact E|]. pose proof (kept_touched _ _ _ _ _ _ _ Hn Es Hs Ht) as Hk. split; [done|]. split; [done|].
  destruct Hp as (c & Hc & -> & Hall & Hini & Hres). cbn [rev app] in *.
  assert (Hlen : length (pages_at (pgd s') (page_base a) c) = c) by (clear; generalize (page_base a); induction c as [|c IH]; intros x; simpl; auto).
  rewrite Hlen in Hres. destruct Hres as [[-> ->]|(Hlt & err & Herr & ->)]; [left|right].
  - split_and!; [lia|lia|]. assert (Hmp : maps (set_space i s' m' n) i (page_base a) (pages_at (pgd s') (page_base a) (Z.to_nat nr))).
    { apply maps_found; [simpl; apply lookup_insert_eq|done|done|lia|done|]. intros j Hj.
      rewrite (tc_initial _ _ _ _ _ _ Ht); [by apply Hini|]. unfold is_u64 in *. rewrite PAGE_SIZE_eq in *. lia. }
    destruct (Z.to_nat nr) as [|c]; [done|]. cbn [pages_at maps] in *. rewrite (page_base_id (page_base a) Hb Hal) in Hmp. destruct Hmp as [Hm1 Hm2].
    split; [|done]. eapply view_same_page; [apply Hk|exact Hm1|done|done|]. symmetry; by apply page_base_id.
  - split.
    { destruct (bool_decide _); [|lia]. unfold EFAULT, ENOMEM in Herr. lia. }
    destruct Herr as [[_ Hi]|[_ Hna]]; [left|by right].
    assert (Hx : exists x, a <= x < a + len /\ is_u64 x /\ page_base x = page_base (page_base a + Z.of_nat c * PAGE_SIZE)).
    { destruct c as [|c].
      - exists a. split; [lia|]. split; [done|]. rewrite Z.add_0_r. symmetry. by apply page_base_id.
      - exists (page_base a + Z.of_nat (S c) * PAGE_SIZE). rewrite page_base_eq in * by done. unfold is_u64 in *. rewrite PAGE_SIZE_eq in *. lia. }
    destruct Hx as (x & Hx & Hxu & Ex). exists x. split; [done|]. unfold node_view, page_view. rewrite Es. cbn [mbind option_bind].
    by rewrite (initial_page _ _ _ Ex), Hi.
Qed.

(** ** The operations *)

Lemma kept_copied o n n1 i va l n2 : kept o n n1 -> copied o n1 i va l n2 -> copied o n i va l n2.
Proof.
  intros Hk [A1 A2 A3 A4 A5 A6 A7 A8 A9 A10 A11].
  split; [done|by rewrite A2, (kp_hash _ _ _ Hk)|by rewrite A3, (kp_spaces _ _ _ Hk)|intros Hu; by apply A4, Hk|done| | | |done|done|].
  - intros j x page Hx Hm. apply A6; [done|]. by apply (kp_mapped _ _ _ Hk).
  - intros j x c y Hx Hy [?|Hs]%A7; [by left| |done|done]. by apply (kp_shares _ _ _ Hk).
  - intros j x Hx. by rewrite A8, (kp_view _ _ _ Hk).
  - intros j y Hy Hno. rewrite A11 by done. unfold byte_at. by rewrite (kp_view _ _ _ Hk).
Qed.

Lemma kept_reads o n n' i va l : kept o n n' -> is_u64 va -> va + Z.of_nat (length l) <= ULONG_MOD -> reads n' i va l -> reads n i va l.
Proof.
  intros Hk Hva Hl Hr k b Hb. specialize (Hr k b Hb). unfold byte_at in *. rewrite (kp_view _ _ _ Hk) in Hr; [done|].
  apply lookup_lt_Some in Hb. unfold is_u64 in *. lia.
Qed.

(** Why a range cannot be had *)
Definition unavailable n (i a len : Z) (kmalloc_ok : bool) : Prop :=
  (exists x, a <= x < a + len /\ node_view n i x = None) \/ ~ ample (Z.to_nat (range_pages a len)) (node_pages n) \/ kmalloc_ok = false.

Lemma copy_to_user_ok o n i s km to from :
  node_ok o n -> full n -> mms n !! i = Some s ->
  is_u64 to -> to <= TASK_SIZE -> is_u64 (Z.of_nat (length from)) -> to + Z.of_nat (length from) <= ULONG_MOD ->
  exists ret s' m', _lego_copy_to_user km to from s (node_pages n) = Some (ret, s', m') /\
    (forall j, ample (Z.to_nat (range_pages to (Z.of_nat (length from))) + j) (node_pages n) -> ample j m') /\
    (ret = Z.of_nat (length from) /\ copied o n i to from (set_space i s' m' n) \/
     ret = 0 /\ from <> [] /\ kept o n (set_space i s' m' n) /\ unavailable n i to (Z.of_nat (length from)) km).
Proof.
  intros Hn Hf Es Hto Htask Hlen Hr. unfold _lego_copy_to_user, unavailable. destruct (Z.eqb_spec (Z.of_nat (length from)) 0) as [E0|Hne].
  { destruct from; [|done]. eexists _, _, _. split; [reflexivity|]. split; [intros j; apply ample_le; lia|]. left. split; [done|].
    rewrite set_space_same by done. by apply copied_nil. }
  rewrite (proj2 (Z.ltb_ge _ _)) by done. assert (Hpos : 0 < Z.of_nat (length from)) by lia. assert (Hnil : from <> []) by (by intros ->).
  fold (page_base to). destruct (range_pages_eq to _ Hto Hpos Hr) as (Hnr & Hlim & Hcov).
  destruct (gup_range o n i s to _ Hn Es Hto Hpos Hr) as (pgs & ret & s1 & m1 & E & Hk & Ham & Hres).
  set (nr := range_pages to (Z.of_nat (length from))) in *. pose proof (kept_full _ _ _ Hk Hf) as Hf1.
  set (n1 := set_space i s1 m1 n) in *. destruct (Z.eqb_spec nr 1) as [E1|H1'].
  - rewrite E1 in E, Hres. change (Z.to_nat 1) with 1%nat in E. rewrite E. cbn [mbind option_bind]. destruct Hres as [(-> & Hlp & Hm)|[Hne1 Hwhy]].
    + cbn [Z.eqb Pos.eqb negb]. destruct pgs as [|page [|]]; [done| |cbn [length] in Hlp; lia]. cbn [head mbind option_bind]. destruct Hm as [Hm _].
      rewrite offset_in_page_mod. unfold __lego_copy_to_user.
      destruct (write_in_page o n1 i to page from (kp_ok _ _ _ Hk) Hf1 Hm Hto) as (m2 & Ew & Hcp & Ham2); [lia|].
      change (node_pages n1) with m1 in *. rewrite Ew. cbn [mbind option_bind]. exists (Z.of_nat (length from)), s1, m2. split; [done|].
      split; [by auto|]. left. split; [done|]. by eapply kept_copied.
    + rewrite (proj2 (Z.eqb_neq _ _) Hne1). eexists _, _, _. split; [reflexivity|]. split; [done|]. right. rewrite E1. split_and!; [done..|]. tauto.
  - destruct km; [|eexists _, _, _; split; [reflexivity|]; split; [intros j; apply ample_le; lia|]; right; rewrite set_space_same by done;
      split_and!; [done|done|by apply kept_refl|by right; right]]. cbn [negb]. rewrite E. cbn [mbind option_bind].
    destruct Hres as [(-> & Hlp & Hm)|[Hne1 Hwhy]].
    + rewrite Z.eqb_refl. cbn [negb].
      destruct (copy_to_pages_ok o i pgs n1 to from 0 (kp_ok _ _ _ Hk) Hf1 Hm Hto) as (m2 & E2 & Hcp & Ham2); try (rewrite Hlp); try lia.
      { unfold is_u64 in Hlen. lia. }
      change (node_pages n1) with m1 in *. rewrite E2. cbn [mbind option_bind]. eexists _, s1, m2. split; [reflexivity|].
      split; [by auto|]. left. split; [lia|]. by eapply kept_copied.
    + rewrite (proj2 (Z.eqb_neq _ _) Hne1). eexists _, _, _. split; [reflexivity|]. split; [done|]. right. split_and!; [done..|]. tauto.
Qed.

Lemma copy_from_user_ok o n i s km from len :
  node_ok o n -> full n -> mms n !! i = Some s ->
  is_u64 from -> from <= TASK_SIZE -> is_u64 len -> from + len <= ULONG_MOD ->
  exists l s' m', _lego_copy_from_user km from len s (node_pages n) = Some (l, s', m') /\
    (forall j, ample (Z.to_nat (range_pages from len) + j) (node_pages n) -> ample j m') /\
    kept o n (set_space i s' m' n) /\
    (Z.of_nat (length l) = len /\ reads n i from l \/ l = [] /\ 0 < len /\ unavailable n i from len km).
Proof.
  intros Hn Hf Es Hfr Htask Hlen Hr. unfold _lego_copy_from_user, unavailable. destruct (Z.eqb_spec len 0) as [E0|Hne].
  { eexists _, _, _. split; [reflexivity|]. split; [intros j; apply ample_le; lia|]. rewrite set_space_same by done.
    split; [by apply kept_refl|]. left. split; [by rewrite E0|]. intros k b Hk. by rewrite lookup_nil in Hk. }
  rewrite (proj2 (Z.ltb_ge _ _)) by done. assert (Hpos : 0 < len) by (unfold is_u64 in Hlen; lia).
  fold (page_base from). destruct (range_pages_eq from _ Hfr Hpos Hr) as (Hnr & Hlim & Hcov).
  destruct (gup_range o n i s from _ Hn Es Hfr Hpos Hr) as (pgs & ret & s1 & m1 & E & Hk & Ham & Hres).
  set (nr := range_pages from len) in *. pose proof (kept_full _ _ _ Hk Hf) as Hf1.
  set (n1 := set_space i s1 m1 n) in *. destruct (Z.eqb_spec nr 1) as [E1|H1'].
  - rewrite E1 in E, Hres. change (Z.to_nat 1) with 1%nat in E. rewrite E. cbn [mbind option_bind]. destruct Hres as [(-> & Hlp & Hm)|[Hne1 Hwhy]].
    + cbn [Z.eqb Pos.eqb negb]. destruct pgs as [|page [|]]; [done| |cbn [length] in Hlp; lia]. cbn [head mbind option_bind]. destruct Hm as [Hm _].
      rewrite offset_in_page_mod. unfold __lego_copy_from_user.
      destruct (read_in_page o n1 i from page (Z.to_nat len) (kp_ok _ _ _ Hk) Hf1 Hm Hfr) as (l & Er & Hl & Hrd); [lia|].
      change (node_pages n1) with m1 in *. rewrite Er. cbn [mbind option_bind]. exists l, s1, m1. split; [done|].
      split; [done|]. split; [done|]. left. split; [lia|]. apply (kept_reads o n n1); [done|done|lia|done].
    + rewrite (proj2 (Z.eqb_neq _ _) Hne1). eexists _, _, _. split; [reflexivity|]. split; [done|]. split; [done|]. right. rewrite E1. split_and!; [done..|]. tauto.
  - destruct km; [|eexists _, _, _; split; [reflexivity|]; split; [intros j; apply ample_le; lia|]; rewrite set_space_same by done;
      split; [by apply kept_refl|]; right; split_and!; [done|done|by right; right]]. cbn [negb]. rewrite E. cbn [mbind option_bind].
    destruct Hres as [(-> & Hlp & Hm)|[Hne1 Hwhy]].
    + rewrite Z.eqb_refl. cbn [negb].
      destruct (copy_from_pages_ok o i pgs n1 from len [] (kp_ok _ _ _ Hk) Hf1 Hm Hfr) as (l & E2 & Hl & Hrd); try (rewrite Hlp); try lia.
      change (node_pages n1) with m1 in *. rewrite E2. cbn [mbind option_bind app]. exists l, s1, m1. split; [done|].
      split; [done|]. split; [done|]. left. split; [done|]. apply (kept_reads o n n1); [done|done|lia|done].
    + rewrite (proj2 (Z.eqb_neq _ _) Hne1). eexists _, _, _. split; [reflexivity|]. split; [done|]. split; [done|]. right. split_and!; [done..|]. tauto.
Qed.

(** A byte that a process has is below [TASK_SIZE]. *)
Lemma view_in_task o n i x : node_ok o n -> is_u64 x -> is_Some (node_view n i x) -> x < TASK_SIZE.
Proof.
  intros Hn Hx [d Hv]. unfold node_view in Hv. destruct (mms n !! i) as [s|] eqn:Es; [|done]. cbn [mbind option_bind] in Hv.
  unfold page_view, initial in Hv. destruct (nd_wf _ _ Hn i s Es) as [k Hw].
  destruct (area_for (sp_mm s) x) as [v|] eqn:Ea; [|done]. by apply (area_for_range k _ _ _ Hw Hx Ea).
Qed.

Lemma range_one a : is_u64 a -> range_pages a 1 = 1.
Proof.
  intros Ha. destruct (range_pages_eq a 1 Ha) as (Hnr & Hlim & Hcov); [lia|unfold is_u64 in Ha; lia|].
  pose proof (Z.mod_pos_bound a PAGE_SIZE ltac:(done)). rewrite PAGE_SIZE_eq in *. lia.
Qed.

(** [clear_user] clears the bytes up to the first that is not there. *)
Lemma clear_user_ok o i cnt : forall n s dst,
  node_ok o n -> full n -> mms n !! i = Some s -> is_u64 dst -> dst <= TASK_SIZE ->
  exists ret s' m', _lego_clear_user dst cnt s (node_pages n) = Some (ret, s', m') /\ 0 <= ret <= Z.of_nat cnt /\
    let done := Z.of_nat cnt - ret in
    dst + done <= TASK_SIZE /\ copied o n i dst (replicate (Z.to_nat done) 0) (set_space i s' m' n) /\
    (0 < ret -> node_view n i (dst + done) = None \/ ~ ample cnt (node_pages n)).
Proof.
  induction cnt as [|cnt IH]; intros n s dst Hn Hf Es Hd Ht.
  { eexists 0, _, _. split; [reflexivity|]. split; [lia|]. rewrite set_space_same by done. split; [lia|]. split; [by apply copied_nil|lia]. }
  cbn [_lego_clear_user]. assert (TASK_SIZE + 1 < ULONG_MOD) by done.
  destruct (copy_to_user_ok o n i s true dst [0] Hn Hf Es Hd Ht) as (ret & s1 & m1 & -> & Ham & Hres); [done|simpl; lia|].
  cbn [mbind option_bind]. change (Z.of_nat (length [0])) with 1 in *. unfold unavailable in Hres. rewrite (range_one dst Hd) in Ham, Hres.
  destruct Hres as [[-> Hc]|(-> & _ & Hk & Hwhy)].
  - cbn [Z.eqb]. assert (Hv : is_Some (node_view n i dst)).
    { pose proof (copied_has _ _ _ _ _ _ 0 Hc ltac:(simpl; lia)) as Hv. by rewrite Z.add_0_r in Hv. }
    pose proof (view_in_task o n i dst Hn Hd Hv) as Hlt. assert (Hd1 : is_u64 (dst + 1)) by (unfold is_u64 in *; lia).
    rewrite (wrap_small (dst + 1)) by done. set (n1 := set_space i s1 m1 n) in *.
    destruct (IH n1 s1 (dst + 1)) as (ret & s2 & m2 & E & Hr & Htk & Hc2 & Hwhy); try (by apply Hc); [simpl; apply lookup_insert_eq|done|lia|].
    change (node_pages n1) with m1 in *. rewrite E. exists ret, s2, m2. split; [done|]. split; [lia|].
    assert (En : set_space i s2 m2 n1 = set_space i s2 m2 n) by (unfold n1, set_space; simpl; by rewrite insert_insert_eq).
    rewrite En in Hc2. split; [lia|]. split.
    + replace (Z.to_nat (Z.of_nat (S cnt) - ret)) with (S (Z.to_nat (Z.of_nat cnt - ret))) by lia.
      exact (copied_app o n i dst [0] _ n1 _ Hc Hc2).
    + intros Hpos. replace (dst + (Z.of_nat (S cnt) - ret)) with (dst + 1 + (Z.of_nat cnt - ret)) by lia.
      destruct (Hwhy Hpos) as [Hnv|Hna]; [left|right; intros Ha; apply Hna, Ham, Ha].
      apply eq_None_not_Some. rewrite <- (cp_has _ _ _ _ _ _ Hc) by (unfold is_u64 in *; lia). rewrite Hnv. by intros [? ?].
  - cbn [Z.eqb]. eexists _, _, _. split; [reflexivity|]. split; [lia|]. rewrite Z.sub_diag, Z.add_0_r. split; [done|]. split.
    + apply (kept_copied o n (set_space i s1 m1 n)); [done|]. apply copied_nil; [apply Hk|by eapply kept_full].
    + intros _. destruct Hwhy as [(x & Hx & Hnv)|[Hna|?]]; [left|right|done]; [by replace dst with x by lia|].
      intros Ha. apply Hna. eapply ample_le; [|exact Ha]. lia.
Qed.
End bytes.
