(* ===== verification/UserTheorems.v ===== *)
(** * Memory manager, copying to and from processes: the theorems *)

From stdpp Require Import gmap.
From S2P Require Import Prelude RbTree VmaModel VmaTree VmaInv VmaSpec VmaLife VmaTheorems.
From S2P Require Import PgtModel PgtTables PgtRange PgtCopy PgtMove PgtTheorems.
From S2P Require Import MemModel MemFault MemSpec MemGup MemNode MemRequest MemTheorems UserModel UserPopulate UserCopy.

(** ** A node for the examples: [ex_home], whose pages are whole *)

Lemma ex_area x v : area_for ex_mm x = Some v -> v = anon_vma \/ v = file_vma.
Proof.
  unfold area_for. destruct (first_above ex_mm (page_base x)) as [p|] eqn:Hf; [|done]. cbn [mbind option_bind].
  assert (Hp : p = 1%positive \/ p = 2%positive).
  { unfold first_above in Hf. apply List.find_some in Hf as [[<-|[<-|[]]] _]; auto. }
  destruct Hp as [->| ->]; (destruct (_ <=? _); [intros [= <-]; auto|done]).
Qed.

Lemma ex_fill_length x v : area_for ex_mm x = Some v -> length (fill_page v x) = Z.to_nat PAGE_SIZE.
Proof.
  intros [->| ->]%ex_area; unfold fill_page; cbn [vm_ops vm_file anon_vma file_vma];
    [|unfold storage_read; cbn [storage_reply ex_files snd]]; apply length_replicate.
Qed.

Lemma ex_home_full : full ex_home.
Proof.
  intros j x d Hx Hv. unfold node_view in Hv. simpl in Hv. destruct (decide (j = 100)) as [->|Hne]; [|by rewrite lookup_singleton_ne in Hv].
  rewrite lookup_singleton_eq in Hv. cbn [mbind option_bind] in Hv. unfold page_view, initial in Hv. cbn [sp_mm pgd] in Hv.
  destruct (area_for ex_mm x) as [v|] eqn:Ea; [|done]. rewrite pte_at_look in Hv. cbn [fmap option_fmap option_map mbind option_bind] in Hv.
  change (Some (fill_page v x) = Some d) in Hv. injection Hv as <-. by apply ex_fill_length.
Qed.

(** The theorems on copies are about nodes whose pages are all of [PAGE_SIZE] bytes
    ([full]), as those of the machine are; pages may be shared. *)
Section Theorems.
Context `{PageAllocLaws, Files}.
Implicit Types (n : mem_node) (s : space) (o : Z -> Z).

(** (C32) [copy_to_user] writes all of the bytes at the address of the process, over as many
    pages as they take, faulting the pages in; or it returns 0 and changes no byte: when a
    page of the range is not there, there is no memory, or the array of pages cannot be
    allocated.  A byte written is what is then at every address, of this process or of
    another, that has this byte of the same page, the later one where two bytes go to the
    same place; a byte at any other address stays as it was, and no two addresses come to
    share a page.  So where no page is shared, exactly the bytes of the range change.  The
    invariant of the node is kept. *)
Theorem copy_to_user_correct o n i s km to from :
  node_ok o n -> full n -> mms n !! i = Some s ->
  is_u64 to -> to <= TASK_SIZE -> is_u64 (Z.of_nat (length from)) -> to + Z.of_nat (length from) <= ULONG_MOD ->
  exists ret s' m', _lego_copy_to_user km to from s (node_pages n) = Some (ret, s', m') /\
    let n' := set_space i s' m' n in
    (ret = Z.of_nat (length from) /\ copied o n i to from n' /\ (unshared n -> written_alone n i to from n') /\
       (forall x, to <= x < to + ret -> x < TASK_SIZE) \/
     ret = 0 /\ from <> [] /\ kept o n n' /\ unavailable n i to (Z.of_nat (length from)) km).
Proof.
  intros Hn Hf Es Hto Htask Hlen Hr. destruct (copy_to_user_ok o n i s km to from) as (ret & s' & m' & E & _ & Hres); [done..|].
  exists ret, s', m'. split; [done|]. destruct Hres as [[-> Hc]|?]; [left|by right]. split; [done|]. split; [done|].
  split; [intros Hu; by eapply copied_alone|]. intros x Hx.
  assert (Hxu : is_u64 x) by (unfold is_u64 in *; lia). apply (view_in_task o n i x Hn Hxu).
  replace x with (to + Z.of_nat (Z.to_nat (x - to))) by lia. apply (copied_has _ _ _ _ _ _ _ Hc). lia.
Qed.

(** (C33) What is copied to a process is what is copied from it: where every page of the range
    is there and no two of them are the same page, the bytes written by [copy_to_user] are
    those that [copy_from_user] reads back.  Other processes may share these pages.  Bytes
    change only at the addresses that have one of the bytes written, and the reading
    changes none. *)
Theorem copy_user_roundtrip o n i s to from :
  node_ok o n -> full n -> mms n !! i = Some s ->
  is_u64 to -> to <= TASK_SIZE -> is_u64 (Z.of_nat (length from)) -> to + Z.of_nat (length from) <= ULONG_MOD ->
  (forall x, to <= x < to + Z.of_nat (length from) -> is_Some (node_view n i x)) ->
  apart n i to (Z.of_nat (length from)) ->
  let nr := Z.to_nat (range_pages to (Z.of_nat (length from))) in
  ample (nr + nr) (node_pages n) ->
  exists s1 m1 s2 m2, _lego_copy_to_user true to from s (node_pages n) = Some (Z.of_nat (length from), s1, m1) /\
    _lego_copy_from_user true to (Z.of_nat (length from)) s1 m1 = Some (from, s2, m2) /\
    copied o n i to from (set_space i s1 m1 n) /\ kept o (set_space i s1 m1 n) (set_space i s2 m2 n).
Proof.
  intros Hn Hf Es Hto Htask Hlen Hr Hall Hap nr Ham.
  destruct (copy_to_user_ok o n i s true to from) as (ret & s1 & m1 & E & Ham1 & Hres); [done..|]. fold nr in Ham1.
  destruct Hres as [[-> Hc]|(_ & _ & _ & [(x & Hx & Hnv)|[Hna|?]])]; [| |by destruct Hna; eapply ample_le; [|exact Ham]; lia|done].
  2: { destruct (Hall x Hx) as [d Hd]. congruence. }
  set (n1 := set_space i s1 m1 n) in *. assert (Hmm : mms n1 !! i = Some s1) by (simpl; apply lookup_insert_eq).
  destruct (copy_from_user_ok o n1 i s1 true to (Z.of_nat (length from)) (cp_ok _ _ _ _ _ _ Hc) (cp_full _ _ _ _ _ _ Hc) Hmm)
    as (l & s2 & m2 & E2 & _ & Hk & Hres); [done..|].
  exists s1, m1, s2, m2. split; [done|]. change (node_pages n1) with m1 in E2.
  assert (En : set_space i s2 m2 n1 = set_space i s2 m2 n) by (unfold n1, set_space; simpl; by rewrite insert_insert_eq). rewrite En in Hk.
  assert (Hl : l = from); [|by subst l].
  destruct Hres as [[Hlen2 Hrd]|(-> & Hpos & [(x & Hx & Hnv)|[Hna|?]])]; [| |by destruct Hna; apply Ham1|done].
  - apply list_eq. intros k. destruct (l !! k) as [b|] eqn:Eb.
    + destruct (lookup_lt_is_Some_2 from k) as [b' Hb']; [apply lookup_lt_Some in Eb; lia|]. specialize (Hrd k b Eb).
      by rewrite (copied_reads _ _ _ _ _ _ _ _ Hc Hap Hb') in Hrd; rewrite Hb'.
    + apply lookup_ge_None in Eb. symmetry. apply lookup_ge_None. lia.
  - exfalso. assert (Hxu : is_u64 x) by (unfold is_u64 in *; lia). destruct (proj2 (cp_has _ _ _ _ _ _ Hc i x Hxu) (Hall x Hx)). congruence.
Qed.

(** (C34) [clear_user] stays within the process: it writes zeros from the address on up to the
    first byte that is not there, never beyond [TASK_SIZE], and no byte changes but those
    written and the ones at addresses that share them, so none but these where no page is
    shared.  It returns the number of bytes that it did not clear, not 0 only when the next
    byte is not there or memory is short. *)
Theorem clear_user_correct o n i s dst cnt :
  node_ok o n -> full n -> mms n !! i = Some s -> is_u64 dst -> dst <= TASK_SIZE ->
  exists ret s' m', _lego_clear_user dst cnt s (node_pages n) = Some (ret, s', m') /\ 0 <= ret <= Z.of_nat cnt /\
    let cleared := Z.of_nat cnt - ret in
    let zeros := replicate (Z.to_nat cleared) 0 in
    dst + cleared <= TASK_SIZE /\ copied o n i dst zeros (set_space i s' m' n) /\
    (unshared n -> written_alone n i dst zeros (set_space i s' m' n)) /\
    (0 < ret -> node_view n i (dst + cleared) = None \/ ~ ample cnt (node_pages n)).
Proof.
  intros Hn Hf Es Hd Ht. destruct (clear_user_ok o i cnt n s dst Hn Hf Es Hd Ht) as (ret & s' & m' & E & Hr & Hlim & Hc & Hwhy).
  exists ret, s', m'. split; [done|]. split; [done|]. cbv zeta in *. split_and!; [lia|done| |done]. intros Hu. eapply copied_alone; [done..|].
  rewrite length_replicate. assert (TASK_SIZE < ULONG_MOD) by done. lia.
Qed.

(** (C35) [__lego_mm_populate] ends, and faults in every page of the range that has an area, but
    for those of special areas, or reports -ENOMEM; ignoring errors, it still does so when
    there is memory for as many pages as the range has.  No area and no contents change.
    Where the semaphore cannot be taken, as when the caller holds it for writing, nothing
    is populated. *)
Theorem mm_populate_correct k o s m start len ignore_errors :
  space_ok k o s m -> is_u64 start -> page_aligned start -> page_aligned len -> 0 <= len -> start + len < ULONG_MOD ->
  populates k o ignore_errors (start + len) start s m (__lego_mm_populate true start len ignore_errors s m) /\
  __lego_mm_populate false start len ignore_errors s m = Some (if 0 <? len then - EINTR else 0, s, m).
Proof.
  intros Hs Hu Has Hal Hl Hr. unfold __lego_mm_populate. rewrite offset_in_page_mod, Has, PAGE_ALIGN_id by (done || unfold is_u64 in *; lia).
  cbn [Z.eqb negb]. rewrite Z.eqb_refl. cbn [negb]. rewrite (wrap_small (start + len)) by (unfold is_u64 in *; lia). split.
  - apply populate_loop_ok; [|done|done|done|unfold is_u64 in *; lia| |done].
    + unfold page_aligned in *. by rewrite Z.add_mod, Has, Hal.
    + unfold pages_to. replace (start + len - start) with len by lia. lia.
  - cbn [populate_loop]. destruct (Z.ltb_spec 0 len), (Z.ltb_spec start (start + len)); (done || lia).
Qed.
End Theorems.

(** ** Examples: [ex_home] has an area at 0x1000 - 0x4000. *)

Lemma ex_home_view x : 4096 <= x < 16384 -> is_Some (node_view ex_home 100 x).
Proof.
  intros Hx. unfold node_view. simpl. rewrite lookup_singleton_eq. cbn [mbind option_bind]. unfold page_view, initial. cbn [sp_mm pgd].
  assert (Hu : is_u64 x) by (unfold is_u64, ULONG_MOD; lia). destruct (page_base_bounds x Hu) as (_ & Ha & Hb).
  assert (Ea : area_for ex_mm x = Some anon_vma).
  { assert (Hge : 4096 <= page_base x) by (apply (page_base_le 4096 x Hu); [done|lia]).
    unfold area_for, first_above. cbn [mmap ex_mm List.find]. change (vm_end (deref ex_mm 1%positive)) with 16384.
    rewrite (proj2 (Z.ltb_lt _ _)) by lia. cbn [mbind option_bind]. change (deref ex_mm 1%positive) with anon_vma.
    by rewrite (proj2 (Z.leb_le (vm_start anon_vma) _)). }
  rewrite Ea. by eexists.
Qed.

Lemma copy_to_user_correct_witness :
  exists ret s' m', _lego_copy_to_user true 8190 [1; 2; 3; 4] (Space ex_mm ∅) (node_pages ex_home) = Some (ret, s', m') /\
    let n' := set_space 100 s' m' ex_home in
    (ret = 4 /\ copied (fun _ => 0) ex_home 100 8190 [1; 2; 3; 4] n' /\
       (unshared ex_home -> written_alone ex_home 100 8190 [1; 2; 3; 4] n') /\ (forall x, 8190 <= x < 8190 + ret -> x < TASK_SIZE) \/
     ret = 0 /\ [1; 2; 3; 4] <> [] /\ kept (fun _ => 0) ex_home n' /\ unavailable ex_home 100 8190 4 true).
Proof.
  apply (copy_to_user_correct (fun _ => 0) ex_home 100 (Space ex_mm ∅) true 8190 [1; 2; 3; 4]);
    [exact ex_home_ok|exact ex_home_full|reflexivity|done|done|done|done].
Defined.

(** The page of [ex_forked], whole, as both processes have it *)
Definition ex_pair : mem_node := MemNode (node_pid_hash ex_forked) (mms ex_forked) (Pages {[ex_page := Frame 2 zero_page]} []).

Lemma ex_pair_ok : node_ok (fun _ => 0) ex_pair.
Proof.
  pose proof ex_forked_ok as [A B C D E F G I J]. split; try done.
  - by apply map_Forall_singleton.
  - by apply map_Forall_singleton.
  - intros f. change (node_cnt ex_pair f) with (node_cnt ex_forked f). rewrite <- I. unfold rc. simpl.
    destruct (decide (ex_page = f)) as [<-|Hne]; [by rewrite !lookup_singleton_eq|by rewrite !lookup_singleton_ne].
Qed.

Lemma ex_pair_full : full ex_pair.
Proof.
  intros j x d Hx Hv. unfold node_view in Hv. destruct (mms ex_pair !! j) as [s|] eqn:Es; [|done]. apply ex_forked_space in Es as ->.
  cbn [mbind option_bind] in Hv. unfold page_view, initial in Hv. cbn [sp_mm pgd] in Hv. destruct (area_for ex_mm x) as [v|] eqn:Ea; [|done].
  cbn [fmap option_fmap option_map mbind option_bind] in Hv. destruct (pte_at ex_pgt x =? 0).
  - injection Hv as <-. by apply (ex_fill_length x).
  - unfold data_of in Hv. cbn [node_pages ex_pair frames] in Hv.
    destruct (_ !! _) as [fr|] eqn:Ef in Hv; [|done]. injection Hv as <-. apply lookup_singleton_Some in Ef as [_ <-]. apply length_replicate.
Qed.

Lemma ex_pair_view x : 4096 <= x < 8192 -> node_view ex_pair 100 x = Some zero_page.
Proof.
  intros Hx. assert (Hu : is_u64 x) by (unfold is_u64, ULONG_MOD; lia). assert (Hm : mapped_at ex_pair 100 4096 ex_page).
  { exists (Space ex_mm ex_pgt). split_and!; [reflexivity|exact ex_initial|vm_compute; discriminate|reflexivity]. }
  destruct (view_same_page _ ex_pair 100 x 4096 ex_page ex_pair_ok Hm Hu ltac:(done)) as [_ ->]; [|by rewrite (page_mapped_view _ _ _ _ Hm)].
  apply (page_range 4096 4096); [done|done|done|lia].
Qed.

(** A copy to a page that another process shares *)
Lemma copy_user_roundtrip_witness :
  exists s1 m1 s2 m2, _lego_copy_to_user true 4100 [1; 2; 3] (Space ex_mm ex_pgt) (node_pages ex_pair) = Some (3, s1, m1) /\
    _lego_copy_from_user true 4100 3 s1 m1 = Some ([1; 2; 3], s2, m2) /\
    copied (fun _ => 0) ex_pair 100 4100 [1; 2; 3] (set_space 100 s1 m1 ex_pair) /\
    kept (fun _ => 0) (set_space 100 s1 m1 ex_pair) (set_space 100 s2 m2 ex_pair).
Proof.
  apply (copy_user_roundtrip (fun _ => 0) ex_pair 100 (Space ex_mm ex_pgt) 4100 [1; 2; 3]);
    [exact ex_pair_ok|exact ex_pair_full|reflexivity|done|done|done|done| | |].
  - intros x Hx. simpl in Hx. rewrite ex_pair_view by lia. by eexists.
  - intros x y Hx Hy _. simpl in *. rewrite (page_range 4096 4096 x), (page_range 4096 4096 y); try done; try lia.
    all: unfold is_u64, ULONG_MOD; lia.
  - apply ex_ample; [vm_compute; reflexivity|constructor].
Defined.

Lemma clear_user_correct_witness :
  exists ret s' m', _lego_clear_user 16380 8 (Space ex_mm ∅) (node_pages ex_home) = Some (ret, s', m') /\ 0 <= ret <= 8 /\
    let cleared := 8 - ret in
    let zeros := replicate (Z.to_nat cleared) 0 in
    16380 + cleared <= TASK_SIZE /\ copied (fun _ => 0) ex_home 100 16380 zeros (set_space 100 s' m' ex_home) /\
    (unshared ex_home -> written_alone ex_home 100 16380 zeros (set_space 100 s' m' ex_home)) /\
    (0 < ret -> node_view ex_home 100 (16380 + cleared) = None \/ ~ ample 8 (node_pages ex_home)).
Proof.
  apply (clear_user_correct (fun _ => 0) ex_home 100 (Space ex_mm ∅) 16380 8);
    [exact ex_home_ok|exact ex_home_full|reflexivity|done|done].
Defined.

Lemma mm_populate_correct_witness :
  populates 0 (fun _ => 0) true 45056 4096 (Space ex_mm ∅) (Pages ∅ []) (__lego_mm_populate true 4096 40960 true (Space ex_mm ∅) (Pages ∅ [])) /\
  __lego_mm_populate false 4096 40960 true (Space ex_mm ∅) (Pages ∅ []) = Some (- EINTR, Space ex_mm ∅, Pages ∅ []).
Proof.
  apply (mm_populate_correct 0 (fun _ => 0) (Space ex_mm ∅) (Pages ∅ []) 4096 40960 true); [|done..].
  split; [exact ex_wf|apply tbl_empty| |done]. split; [done| |done]. intros f. reflexivity.
Defined.
