(* ===== verification/PcacheGeom.v ===== *)
(** * Processor manager, pcache: sizes, sets and address conversions

    managers/processor/pcache/init.c ([pcache_early_init]) and the conversion
    functions of include/processor/pcache.h.  A [struct pcache_meta *] is its index
    in [pcache_meta_map] and a [struct pcache_set *] its index in
    [pcache_set_map]; the global variables that the boot code computes once are the
    fields of a [geometry]. *)

From S2P Require Import Prelude.

(** ** Configuration (include/processor/pcache_config.h, Documentation/configs) *)

Definition PCACHE_LINE_SIZE_SHIFT : Z := 12.
Definition PCACHE_ASSOCIATIVITY_SHIFT : Z := 6.
Definition PCACHE_LINE_SIZE : Z := Z.shiftl 1 PCACHE_LINE_SIZE_SHIFT.
Definition PCACHE_LINE_MASK : Z := wrap (Z.lnot (PCACHE_LINE_SIZE - 1)).
Definition PCACHE_ASSOCIATIVITY : Z := Z.shiftl 1 PCACHE_ASSOCIATIVITY_SHIFT.
Definition PCACHE_LINE_NR_PAGES : Z := PCACHE_LINE_SIZE / PAGE_SIZE.

(** [sizeof(struct pcache_meta)]: 8 bytes of bits, two 4-byte counters, the list
    heads [free_list], [rmap] and [lru] of 16 bytes each, 24 bytes of
    [struct piggyback_info] and 8 bytes for [locker], aligned to a CPU cache line. *)
Definition PCACHE_META_SIZE : Z :=
  let size := 8 + 4 + 4 + 16 + 16 + 24 + 8 + 16 in (size + 63) / 64 * 64.

Record geometry := Geometry {
  pcache_registered_start : Z;
  pcache_registered_size : Z;
  llc_cache_size : Z;
  nr_cachelines : Z;
  nr_cachesets : Z;
  nr_pages_cacheline : Z;
  nr_pages_metadata : Z;
  phys_start_cacheline : Z;
  phys_start_metadata : Z;
  nr_bits_cacheline : Z;
  nr_bits_set : Z;
  nr_bits_tag : Z;
  pcache_cacheline_mask : Z;
  pcache_set_mask : Z;
  pcache_tag_mask : Z;
  pcache_way_cache_stride : Z
}.

(** include/lego/log2.h *)
Definition fls_long (n : Z) : Z := if n =? 0 then 0 else Z.log2 n + 1.
Definition rounddown_pow_of_two (n : Z) : Z := 1 <<u ((fls_long n - 1) mod 64).
Definition ilog2 (n : Z) : Z := fls_long n - 1.

(** [None]: [panic] *)
Definition pcache_early_init (start size : Z) : option geometry :=
  if (start =? 0) || (size =? 0) then None
  else
    let nr_cachelines_per_page := PAGE_SIZE / PCACHE_META_SIZE in
    let unit_size := nr_cachelines_per_page * PCACHE_LINE_SIZE + PAGE_SIZE in
    let nr_units := rounddown_pow_of_two (size / unit_size) in
    let lines := wrap (nr_units * nr_cachelines_per_page) in
    let sets := lines / PCACHE_ASSOCIATIVITY in
    let pages := wrap (lines * PCACHE_LINE_NR_PAGES) in
    let bits_line := ilog2 PCACHE_LINE_SIZE in
    let bits_set := ilog2 sets in
    let line_mask := (1 <<u bits_line) -u 1 in
    let low := (1 <<u (bits_line + bits_set)) -u 1 in
    Some {| pcache_registered_start := start;
            pcache_registered_size := size;
            llc_cache_size := wrap (nr_units * unit_size);
            nr_cachelines := lines;
            nr_cachesets := sets;
            nr_pages_cacheline := pages;
            nr_pages_metadata := nr_units;
            phys_start_cacheline := start;
            phys_start_metadata := start +u pages * PAGE_SIZE;
            nr_bits_cacheline := bits_line;
            nr_bits_set := bits_set;
            nr_bits_tag := 64 -u (bits_line + bits_set);
            pcache_cacheline_mask := line_mask;
            pcache_set_mask := Z.land low (wrap (Z.lnot line_mask));
            pcache_tag_mask := wrap (Z.lnot low);
            pcache_way_cache_stride := wrap (sets * PCACHE_LINE_SIZE) |}.

Section conversions.
Context (g : geometry).

Definition user_vaddr_to_set_index (address : Z) : Z :=
  Z.shiftr (Z.land address (pcache_set_mask g)) (nr_bits_cacheline g).

Definition user_vaddr_to_pcache_set (uvaddr : Z) : Z := user_vaddr_to_set_index uvaddr.

(** [BUG_ON(offset >= nr_cachelines)], as an option *)
Definition __pcache_meta_index (pcm : Z) : option Z :=
  if nr_cachelines g <=? pcm then None else Some pcm.

Definition pcache_meta_to_pcache_set (pcm : Z) : option Z :=
  if nr_cachelines g <=? pcm then None else Some (pcm mod nr_cachesets g).

Definition pcache_set_to_first_pcache_meta (pset : Z) : option Z :=
  if nr_cachesets g <=? pset then None else Some pset.

Definition pcache_meta_to_pa (pcm : Z) : option Z :=
  if nr_cachelines g <=? pcm then None
  else Some (phys_start_cacheline g +u pcm * PCACHE_LINE_SIZE).

Definition pa_is_pcache (address : Z) : bool :=
  (phys_start_cacheline g <=? address) && (address <? phys_start_metadata g).

Definition pa_to_pcache_meta (address : Z) : option Z :=
  if pa_is_pcache address
  then Some (Z.shiftr (Z.land address PCACHE_LINE_MASK -u phys_start_cacheline g)
               PCACHE_LINE_SIZE_SHIFT)
  else None.

Definition pa_to_pcache_set (address : Z) : option Z :=
  match pa_to_pcache_meta address with
  | Some pcm => pcache_meta_to_pcache_set pcm
  | None => None
  end.

Definition pfn_to_pcache_meta (pfn : Z) : option Z := pa_to_pcache_meta (pfn <<u PAGE_SHIFT).

Definition pcache_meta_to_pfn (pcm : Z) : option Z :=
  pa ← pcache_meta_to_pa pcm; Some (Z.shiftr pa PCACHE_LINE_SIZE_SHIFT).

Definition pcache_meta_to_way (pcm : Z) : option Z :=
  let way := pcm / nr_cachesets g in
  if PCACHE_ASSOCIATIVITY <=? way then None else Some way.

Definition __pcache_meta_next_way (pcm : Z) : Z := pcm + nr_cachesets g.

(** The outer option is the [BUG_ON], the inner one the returned pointer. *)
Definition pcache_meta_next_way (pcm : Z) : option (option Z) :=
  if nr_cachelines g <=? pcm then None
  else if PCACHE_ASSOCIATIVITY <=? pcm / nr_cachesets g then Some None
  else Some (Some (__pcache_meta_next_way pcm)).

(** [pcache_for_each_way_set(pcm, pset, way)]: the lines visited, in order *)
Fixpoint ways_from (n : nat) (pcm : Z) : list Z :=
  match n with
  | O => []
  | S n => pcm :: ways_from n (__pcache_meta_next_way pcm)
  end.
Definition pcache_for_each_way_set (pset : Z) : option (list Z) :=
  first ← pcache_set_to_first_pcache_meta pset;
  Some (ways_from (Z.to_nat PCACHE_ASSOCIATIVITY) first).
End conversions.

(** ** What [pcache_early_init] establishes *)

(** A registered range that starts at a page, holds at least two units (a page of
    metadata with its lines) and lies in the 46-bit physical space. *)
Record range_ok (start size : Z) : Prop := {
  range_aligned : page_aligned start;
  range_start : 0 < start;
  range_size : 2 * (33 * PAGE_SIZE) <= size;
  range_end : start + size <= 2 ^ 46
}.

Record geom_wf (g : geometry) : Prop := {
  gw_lines : nr_cachelines g = PCACHE_ASSOCIATIVITY * nr_cachesets g;
  gw_bits : 0 <= nr_bits_set g < 40;
  gw_sets : nr_cachesets g = 2 ^ nr_bits_set g;
  gw_line_bits : nr_bits_cacheline g = 12;
  gw_set_mask : pcache_set_mask g = 2 ^ (12 + nr_bits_set g) - 2 ^ 12;
  gw_start : page_aligned (phys_start_cacheline g) /\ 0 < phys_start_cacheline g;
  gw_end : phys_start_metadata g = phys_start_cacheline g + nr_cachelines g * PCACHE_LINE_SIZE;
  gw_phys : phys_start_metadata g <= 2 ^ 46
}.

Lemma rounddown_log2 n : 0 < n < 2 ^ 64 -> rounddown_pow_of_two n = 2 ^ Z.log2 n.
Proof.
  intros Hn. unfold rounddown_pow_of_two, fls_long. rewrite (proj2 (Z.eqb_neq n 0)) by lia.
  assert (0 <= Z.log2 n < 64) by (split; [apply Z.log2_nonneg|apply Z.log2_lt_pow2; lia]).
  rewrite Z.add_simpl_r, Z.mod_small, Z.shiftl_1_l by lia. apply wrap_small.
  split; [lia|]. apply Z.pow_lt_mono_r; lia.
Qed.

Lemma ilog2_pow k : 0 <= k -> ilog2 (2 ^ k) = k.
Proof.
  intros. unfold ilog2, fls_long. rewrite (proj2 (Z.eqb_neq _ 0)) by lia.
  rewrite Z.log2_pow2; lia.
Qed.

(** The number of units is a power of two between 2 and what the range holds. *)
Lemma units_bounds start size :
  range_ok start size ->
  exists k, 1 <= k < 34 /\ rounddown_pow_of_two (size / (33 * PAGE_SIZE)) = 2 ^ k /\
    2 ^ k * (33 * PAGE_SIZE) <= size.
Proof.
  intros [Ha Hs Hz He]. rewrite PAGE_SIZE_eq in *. set (n := size / (33 * 4096)).
  assert (2 <= n) by (apply Z.div_le_lower_bound; lia).
  assert (n < 2 ^ 34) by (apply Z.div_lt_upper_bound; lia).
  exists (Z.log2 n). rewrite rounddown_log2 by lia.
  assert (1 <= Z.log2 n) by (change 1 with (Z.log2 2); apply Z.log2_le_mono; lia).
  assert (Z.log2 n < 34) by (apply Z.log2_lt_pow2; lia).
  pose proof (Z.log2_spec n ltac:(lia)) as [Hl _].
  assert (n * (33 * 4096) <= size) by (unfold n; pose proof (Z.mul_div_le size (33 * 4096)); lia).
  repeat split; try lia; nia.
Qed.

Lemma set_mask_value k :
  0 <= k < 40 ->
  Z.land ((1 <<u (12 + k)) -u 1) (wrap (Z.lnot ((1 <<u 12) -u 1))) = 2 ^ (12 + k) - 2 ^ 12.
Proof.
  intros Hk. rewrite !Z.shiftl_1_l.
  assert (2 ^ (12 + k) < ULONG_MOD) by (apply Z.pow_lt_mono_r; lia).
  assert (0 < 2 ^ (12 + k)) by lia. assert (Hp : 2 ^ (12 + k) = 2 ^ k * 2 ^ 12) by (rewrite <- Z.pow_add_r; [f_equal|..]; lia).
  rewrite !(wrap_small (2 ^ _)), !(wrap_small (_ - 1)) by (unfold is_u64; change (2 ^ 12) with 4096 in *; lia).
  rewrite land_not_mask by (unfold is_u64; lia).
  assert ((2 ^ (12 + k) - 1) mod 2 ^ 12 = 2 ^ 12 - 1); [|lia]. symmetry.
  apply Z.mod_unique with (2 ^ k - 1); lia.
Qed.

Lemma early_init_fields start size :
  range_ok start size ->
  exists k, 0 <= k < 33 /\ 2 ^ (k + 1) * (33 * PAGE_SIZE) <= size /\
    match pcache_early_init start size with
    | Some g =>
        nr_cachesets g = 2 ^ k /\ nr_cachelines g = 64 * 2 ^ k /\ nr_bits_set g = k /\
        nr_pages_metadata g = 2 ^ (k + 1) /\ llc_cache_size g = 2 ^ (k + 1) * (33 * PAGE_SIZE) /\
        geom_wf g
    | None => False
    end.
Proof.
  intros Hr. destruct (units_bounds _ _ Hr) as (k & Hk & Hu & Hle). destruct Hr as [Ha Hs Hz He].
  exists (k - 1). rewrite Z.sub_add. split; [lia|]. split; [done|].
  unfold pcache_early_init. rewrite (proj2 (Z.eqb_neq start 0)), (proj2 (Z.eqb_neq size 0)) by (rewrite PAGE_SIZE_eq in *; lia).
  cbn [orb]. change (PAGE_SIZE / PCACHE_META_SIZE * PCACHE_LINE_SIZE + PAGE_SIZE) with (33 * PAGE_SIZE).
  rewrite Hu. change (PAGE_SIZE / PCACHE_META_SIZE) with 32. change PCACHE_LINE_NR_PAGES with 1.
  change PCACHE_ASSOCIATIVITY with 64.
  assert (Hpk : 2 ^ k = 2 * 2 ^ (k - 1)) by (rewrite <- Z.pow_succ_r by lia; f_equal; lia).
  rewrite PAGE_SIZE_eq in *. assert (2 ^ k * 135168 <= 2 ^ 46) by lia.
  assert (0 < 2 ^ (k - 1)) by lia.
  rewrite !(wrap_small (2 ^ k * 32)) by (unfold is_u64, ULONG_MOD; lia).
  replace (2 ^ k * 32) with (64 * 2 ^ (k - 1)) by lia.
  rewrite (Z.mul_comm 64 (2 ^ (k - 1))), Z.div_mul, Z.mul_1_r by lia. rewrite ilog2_pow by lia.
  change (ilog2 PCACHE_LINE_SIZE) with 12. rewrite set_mask_value by lia.
  assert (He1 : start + 2 ^ (k - 1) * 64 * 4096 <= 2 ^ 46) by lia.
  simpl. rewrite !(wrap_small (2 ^ (k - 1) * 64)), (wrap_small (2 ^ k * _)) by (unfold is_u64, ULONG_MOD; lia).
  rewrite (wrap_small (start + _)) by (unfold is_u64, ULONG_MOD; lia).
  split_and!; try lia. split; simpl; change PCACHE_ASSOCIATIVITY with 64; change PCACHE_LINE_SIZE with 4096; try lia.
  split; [done|lia].
Qed.

(** ** Sets and lines *)

Section geom.
Context (g : geometry) (Hg : geom_wf g).

Definition in_lines (i : Z) : Prop := 0 <= i < nr_cachelines g.
Definition in_sets (s : Z) : Prop := 0 <= s < nr_cachesets g.

Lemma sets_pos : 0 < nr_cachesets g.
Proof using Hg. rewrite (gw_sets g Hg). pose proof (gw_bits g Hg). lia. Qed.

Lemma set_index_eq a :
  is_u64 a -> user_vaddr_to_set_index g a = (a / PAGE_SIZE) mod nr_cachesets g.
Proof using Hg.
  intros Ha. unfold user_vaddr_to_set_index. rewrite (gw_set_mask g Hg), (gw_line_bits g Hg), (gw_sets g Hg), PAGE_SIZE_eq.
  pose proof (gw_bits g Hg) as Hb. set (k := nr_bits_set g) in *.
  assert (Hm : 2 ^ (12 + k) - 2 ^ 12 = Z.shiftl (Z.ones k) 12).
  { rewrite Z.shiftl_mul_pow2, Z.ones_equiv, Z.pow_add_r by lia. nia. }
  rewrite Hm, Z.shiftr_land, Z.shiftr_shiftl_l, Z.sub_diag, Z.shiftl_0_r by lia.
  rewrite Z.land_ones, Z.shiftr_div_pow2 by lia. done.
Qed.

Lemma set_index_range a : is_u64 a -> in_sets (user_vaddr_to_set_index g a).
Proof using Hg. intros. rewrite set_index_eq by done. apply Z.mod_pos_bound, sets_pos. Qed.

Lemma line_set i : in_lines i -> in_sets (i mod nr_cachesets g).
Proof using Hg. intros _. apply Z.mod_pos_bound, sets_pos. Qed.

Lemma meta_to_set i : in_lines i -> pcache_meta_to_pcache_set g i = Some (i mod nr_cachesets g).
Proof. intros [? ?]. unfold pcache_meta_to_pcache_set. by rewrite (proj2 (Z.leb_gt _ _)). Qed.

Lemma meta_index i : in_lines i -> __pcache_meta_index g i = Some i.
Proof. intros [? ?]. unfold __pcache_meta_index. by rewrite (proj2 (Z.leb_gt _ _)). Qed.

Lemma line_pa i :
  in_lines i ->
  pcache_meta_to_pa g i = Some (phys_start_cacheline g + i * PCACHE_LINE_SIZE) /\
  phys_start_cacheline g + i * PCACHE_LINE_SIZE + PCACHE_LINE_SIZE <= phys_start_metadata g.
Proof using Hg.
  intros [? Hi]. unfold pcache_meta_to_pa. rewrite (proj2 (Z.leb_gt _ _)) by done.
  destruct (gw_start g Hg). pose proof (gw_phys g Hg). rewrite (gw_end g Hg) in *.
  change PCACHE_LINE_SIZE with 4096 in *.
  rewrite wrap_small by (unfold is_u64, ULONG_MOD; lia). split; [done|lia].
Qed.

Lemma pa_meta i off :
  in_lines i -> 0 <= off < PCACHE_LINE_SIZE ->
  pa_to_pcache_meta g (phys_start_cacheline g + i * PCACHE_LINE_SIZE + off) = Some i.
Proof using Hg.
  intros Hi Ho. destruct (line_pa i Hi) as [_ Hend]. destruct Hi as [Hi0 Hi].
  destruct (gw_start g Hg) as [Ha Hs]. pose proof (gw_phys g Hg).
  unfold pa_to_pcache_meta, pa_is_pcache. change PCACHE_LINE_SIZE with 4096 in *.
  rewrite (proj2 (Z.leb_le _ _)), (proj2 (Z.ltb_lt _ _)) by lia. cbn [andb].
  assert (Hu : is_u64 (phys_start_cacheline g + i * 4096 + off)) by (unfold is_u64, ULONG_MOD; lia).
  change PCACHE_LINE_MASK with PAGE_MASK. rewrite PAGE_MASK_round by done. rewrite PAGE_SIZE_eq.
  unfold page_aligned in Ha. rewrite PAGE_SIZE_eq in Ha.
  assert (Hmod : (phys_start_cacheline g + i * 4096 + off) mod 4096 = off).
  { symmetry. apply Z.mod_unique with (phys_start_cacheline g / 4096 + i); [lia|].
    pose proof (Z.div_mod (phys_start_cacheline g) 4096). lia. }
  rewrite Hmod, wrap_small by (unfold is_u64, ULONG_MOD; lia).
  change PCACHE_LINE_SIZE_SHIFT with 12. rewrite Z.shiftr_div_pow2 by lia. f_equal.
  replace (_ - _) with (i * 2 ^ 12) by lia. by rewrite Z.div_mul by lia.
Qed.

Definition line_pfn (i : Z) : Z := phys_start_cacheline g / PAGE_SIZE + i.

Lemma meta_to_pfn i : in_lines i -> pcache_meta_to_pfn g i = Some (line_pfn i).
Proof using Hg.
  intros Hi. unfold pcache_meta_to_pfn. destruct (line_pa i Hi) as [-> _]. simpl. f_equal.
  change PCACHE_LINE_SIZE_SHIFT with 12. rewrite Z.shiftr_div_pow2 by lia. unfold line_pfn.
  change PAGE_SIZE with (2 ^ 12). change PCACHE_LINE_SIZE with (2 ^ 12). by rewrite Z.div_add by lia.
Qed.

Lemma pfn_meta i : in_lines i -> pfn_to_pcache_meta g (line_pfn i) = Some i.
Proof using Hg.
  intros Hi. destruct (line_pa i Hi) as [_ Hend]. destruct (gw_start g Hg) as [Ha Hs].
  pose proof (gw_phys g Hg). pose proof Hi as [? ?]. unfold pfn_to_pcache_meta, line_pfn.
  change PAGE_SHIFT with 12. rewrite Z.shiftl_mul_pow2 by lia.
  unfold page_aligned in Ha. rewrite PAGE_SIZE_eq in *. change PCACHE_LINE_SIZE with 4096 in *.
  pose proof (Z.div_mod (phys_start_cacheline g) 4096) as Hd.
  replace ((_ + i) * 2 ^ 12) with (phys_start_cacheline g + i * PCACHE_LINE_SIZE + 0)
    by (change PCACHE_LINE_SIZE with 4096; lia).
  rewrite wrap_small by (change PCACHE_LINE_SIZE with 4096; unfold is_u64, ULONG_MOD; lia).
  apply pa_meta; [done|]. change PCACHE_LINE_SIZE with 4096. lia.
Qed.

Lemma line_pfn_inj i j : line_pfn i = line_pfn j -> i = j.
Proof. unfold line_pfn. lia. Qed.

(** The ways of a set: the lines congruent to it modulo the number of sets. *)
Lemma elem_of_ways_from n p i :
  i ∈ ways_from g n p <-> exists w, 0 <= w < Z.of_nat n /\ i = p + w * nr_cachesets g.
Proof.
  revert p. induction n as [|n IH]; intros p; simpl.
  - split; [by intros ?%not_elem_of_nil|intros (w & ? & _); lia].
  - rewrite elem_of_cons, IH. unfold __pcache_meta_next_way. split.
    + intros [->|(w & ? & ->)]; [exists 0; lia|exists (w + 1); lia].
    + intros (w & ? & ->). destruct (decide (w = 0)) as [->|]; [left; lia|].
      right. exists (w - 1). lia.
Qed.

Lemma ways_from_NoDup n p : NoDup (ways_from g n p).
Proof using Hg.
  revert p. induction n as [|n IH]; intros p; simpl; constructor; auto.
  rewrite elem_of_ways_from. unfold __pcache_meta_next_way. intros (w & ? & ?).
  pose proof sets_pos. nia.
Qed.

Lemma ways_from_length n p : length (ways_from g n p) = n.
Proof. revert p. induction n; intros; simpl; auto. Qed.

Lemma ways_of_set s :
  in_sets s ->
  exists l, pcache_for_each_way_set g s = Some l /\ NoDup l /\
    Z.of_nat (length l) = PCACHE_ASSOCIATIVITY /\
    forall i, i ∈ l <-> in_lines i /\ i mod nr_cachesets g = s.
Proof using Hg.
  intros [Hs0 Hs]. eexists. unfold pcache_for_each_way_set, pcache_set_to_first_pcache_meta.
  rewrite (proj2 (Z.leb_gt _ _)) by done. cbn [mbind option_bind]. split; [done|].
  split; [apply ways_from_NoDup|]. rewrite ways_from_length. change (Z.to_nat PCACHE_ASSOCIATIVITY) with 64%nat.
  split; [done|]. intros i. pose proof sets_pos.
  rewrite elem_of_ways_from. unfold in_lines. rewrite (gw_lines g Hg). change PCACHE_ASSOCIATIVITY with 64. split.
  - intros (w & ? & ->). rewrite Z.mod_add, Z.mod_small by lia. nia.
  - intros [[? ?] <-]. exists (i / nr_cachesets g). pose proof (Z.div_mod i (nr_cachesets g)).
    assert (i / nr_cachesets g < 64) by (apply Z.div_lt_upper_bound; lia).
    pose proof (Z.div_pos i (nr_cachesets g)). lia.
Qed.
End geom.
