(* ===== verification/PcacheModel.v ===== *)
(** * Processor manager, pcache: the model

    managers/processor/pcache/ (alloc.c, evict.c, evict_lru.c, perset.c, clflush.c,
    rmap.c, fault.c, init.c, piggyback.h), the inline functions of
    include/processor/pcache.h, pcache_types.h and pcache_evict.h, and the emulated
    page table of managers/processor/pgtable.c, in the configuration of
    Documentation/configs: LRU eviction with the per-set eviction list, zero-fill,
    no sweep thread, no victim cache, no replication, with the checks of
    CONFIG_DEBUG_PCACHE.

    A [struct pcache_meta *] or [struct pcache_set *] is its index (PcacheGeom).  An
    emulated page table is flat: the [pte_t *] of user address [a] in [mm] is the
    pair of [mm] and the page number of [a].  One state [pcache] holds the arrays,
    the page-table entries, the contents of the lines and the memory component at
    the other end of the network.

    The operations are those of one CPU.  Where the code drops its locks and waits
    for a line, or where the source says that another CPU may use the line, the
    argument [others] is what the other CPUs do in the meantime.

    The result [None] stands for [BUG()] or for a loop that does not end.  WARN_ON
    and the printed reports set [warned]; statistics are not modelled. *)

From stdpp Require Import gmap fin_sets.
From S2P Require Import Prelude VmaModel PcacheGeom.

(** ** Flags and data (pcache_types.h) *)

Inductive pcache_meta_bits :=
  PC_locked | PC_valid | PC_dirty | PC_reclaim | PC_writeback | PC_piggyback | PC_piggyback_cached.
#[global] Instance pcache_meta_bits_eq_dec : EqDecision pcache_meta_bits.
Proof. solve_decision. Defined.
Definition bit_encode (b : pcache_meta_bits) : positive :=
  match b with PC_locked => 1 | PC_valid => 2 | PC_dirty => 3 | PC_reclaim => 4
  | PC_writeback => 5 | PC_piggyback => 6 | PC_piggyback_cached => 7 end%positive.
Definition bit_decode (p : positive) : option pcache_meta_bits :=
  match p with 1 => Some PC_locked | 2 => Some PC_valid | 3 => Some PC_dirty
  | 4 => Some PC_reclaim | 5 => Some PC_writeback | 6 => Some PC_piggyback
  | 7 => Some PC_piggyback_cached | _ => None end%positive.
#[global] Instance pcache_meta_bits_countable : Countable pcache_meta_bits.
Proof. refine {| encode := bit_encode; decode := bit_decode |}. by intros []. Defined.

Definition PCACHE_FLAGS_CHECK_AT_FREE : gset pcache_meta_bits :=
  {[ PC_locked; PC_valid; PC_dirty; PC_reclaim; PC_writeback; PC_piggyback ]}.

Inductive rmap_caller :=
  RMAP_FILL_PAGE_REMOTE | RMAP_ZEROFILL | RMAP_VICTIM_FILL | RMAP_COW | RMAP_FORK
| RMAP_MREMAP_SLOWPATH.
Inductive evict_status :=
  PCACHE_EVICT_SUCCEED | PCACHE_EVICT_EAGAIN_FREEABLE | PCACHE_EVICT_EAGAIN_CONCURRENT
| PCACHE_EVICT_FAILURE_FIND | PCACHE_EVICT_FAILURE_EVICT.
Inductive piggyback_options := DISABLE_PIGGYBACK | ENABLE_PIGGYBACK.
Inductive pcache_rmap_status := PCACHE_RMAP_SUCCEED | PCACHE_RMAP_AGAIN | PCACHE_RMAP_FAILED.

Definition is_enable (p : piggyback_options) : bool :=
  match p with ENABLE_PIGGYBACK => true | DISABLE_PIGGYBACK => false end.
Definition is_again (s : pcache_rmap_status) : bool :=
  match s with PCACHE_RMAP_AGAIN => true | _ => false end.

(** The fields of [struct task_struct] that the pcache reads: thread group, address
    space, home memory node, and whether it is the leader of its group. *)
Record task := Task { t_tgid : Z; t_mm : Z; t_home : Z; t_leader : bool }.
#[global] Instance task_eq_dec : EqDecision task.
Proof. solve_decision. Defined.
Definition group_leader (t : task) : task := Task (t_tgid t) (t_mm t) (t_home t) true.
(** [same_thread_group]: the threads of a group share their [signal]. *)
Definition same_thread_group (a b : task) : bool := t_tgid a =? t_tgid b.
(** [get_memory_node] without CONFIG_DISTRIBUTED_VMA_PROCESSOR *)
Definition get_memory_node (p : task) (addr : Z) : Z := t_home p.

(** A [pte_t *]: the address space and the page number. *)
Definition pte_ptr : Type := Z * Z.
Definition pte_offset (mm addr : Z) : pte_ptr := (mm, Z.shiftr addr PAGE_SHIFT).

Record pcache_rmap := Rmap {
  r_reserved : bool;
  r_kmalloced : bool;
  page_table : pte_ptr;
  owner_mm : Z;
  owner_process : task;
  caller : rmap_caller;
  address : Z
}.

Record piggyback_info := Piggyback { pb_tgid : Z; pb_user_addr : Z; pb_memory_nid : Z }.

Record pcache_meta := Meta {
  bits : gset pcache_meta_bits;
  mapcount : Z;
  _refcount : Z;
  rmap : list pcache_rmap;
  pb : piggyback_info
}.
Definition meta0 : pcache_meta := Meta ∅ 0 0 [] (Piggyback 0 0 0).

Record pset_eviction_entry := Pee {
  pee_kmalloced : bool; pee_address : Z; pee_owner : task; pee_pcm : Z
}.

Record pcache_set := Pset {
  evicting : bool;
  free_head : list Z;
  lru_list : list Z;
  nr_lru : Z;
  eviction_list : list pset_eviction_entry;
  nr_eviction_entries : Z
}.
Definition pset0 : pcache_set := Pset false [] [] 0 [] 0.

(** ** Page-table entries (arch/x86/include/asm/pgtable.h) *)

(** The bits of a [pte_t] that this code reads or writes. *)
Record pte := Pte {
  p_present : bool; p_rw : bool; p_user : bool; p_accessed : bool; p_dirty : bool;
  p_zerofill : bool; pte_pfn : Z
}.
#[global] Instance pte_eq_dec : EqDecision pte.
Proof. solve_decision. Defined.
(** [__pte(0)] *)
Definition pte_zero : pte := Pte false false false false false false 0.
(** [!(pte.pte & ~(_PAGE_DIRTY | _PAGE_ACCESSED))] *)
Definition pte_none (p : pte) : bool :=
  negb (p_present p || p_rw p || p_user p || p_zerofill p) && (pte_pfn p =? 0).
Definition pte_same (a b : pte) : bool := bool_decide (a = b).
Definition pte_mkclean (p : pte) := Pte (p_present p) (p_rw p) (p_user p) (p_accessed p) false (p_zerofill p) (pte_pfn p).
Definition pte_mkold (p : pte) := Pte (p_present p) (p_rw p) (p_user p) false (p_dirty p) (p_zerofill p) (pte_pfn p).
Definition pte_wrprotect (p : pte) := Pte (p_present p) false (p_user p) (p_accessed p) (p_dirty p) (p_zerofill p) (pte_pfn p).
Definition pte_mkdirty (p : pte) := Pte (p_present p) (p_rw p) (p_user p) (p_accessed p) true (p_zerofill p) (pte_pfn p).
Definition pte_mkyoung (p : pte) := Pte (p_present p) (p_rw p) (p_user p) true (p_dirty p) (p_zerofill p) (pte_pfn p).
Definition pte_mkwrite (p : pte) := Pte (p_present p) true (p_user p) (p_accessed p) (p_dirty p) (p_zerofill p) (pte_pfn p).
Definition pte_mkzerofill (p : pte) := Pte (p_present p) (p_rw p) (p_user p) (p_accessed p) (p_dirty p) true (pte_pfn p).
(** [pfn_pte(pfn, PAGE_SHARED_EXEC)]: present, writable, user, accessed *)
Definition pfn_pte_shared_exec (pfn : Z) : pte := Pte true true true true false false pfn.
(** [pfn_pte(pfn, pte_pgprot(old))] *)
Definition pfn_pte_pgprot (pfn : Z) (p : pte) :=
  Pte (p_present p) (p_rw p) (p_user p) (p_accessed p) (p_dirty p) (p_zerofill p) pfn.

(** ** The memory component

    The contents of a line or of a page, and the requests that the pcache sends:
    P2M_PCACHE_FLUSH and P2M_PCACHE_MISS, the latter with or without the flush of a
    line in the same message.  A miss is answered by a page, or by a
    reply of another length [len] that leaves [d] in the line (an error code, or a
    network error). *)

Abbreviation line_data := (list Z).
Definition zero_line : line_data := replicate (Z.to_nat PCACHE_LINE_SIZE) 0.

Inductive p2m_reply := ReplyPage (d : line_data) | ReplyShort (len : Z) (d : line_data).

Class MemoryNode (R : Type) := {
  (** [m_flush nid tgid user_va data] *)
  m_flush : Z -> Z -> Z -> line_data -> R -> R;
  (** [m_miss nid tgid missing_vaddr flags] *)
  m_miss : Z -> Z -> Z -> Z -> R -> p2m_reply * R;
  (** [m_miss_flush nid tgid missing_vaddr flags pid user_va data] *)
  m_miss_flush : Z -> Z -> Z -> Z -> Z -> Z -> line_data -> R -> p2m_reply * R
}.

Record pcache {R : Type} := Pcache {
  geo : geometry;
  metas : gmap Z pcache_meta;
  psets : gmap Z pcache_set;
  lines : gmap Z line_data;
  (** the Used bits of the two preallocated arrays *)
  rmap_used : gset Z;
  pee_used : gset Z;
  (** the per-cpu variable of the running CPU *)
  piggybacker : option Z;
  ptes : gmap pte_ptr pte;
  memory : R;
  (** the outcomes of the next calls of [kzalloc]; they succeed once exhausted *)
  kz : list bool;
  warned : bool
}.
Arguments pcache : clear implicits.

Section model.
Context {R : Type} `{!MemoryNode R}.
Abbreviation state := (pcache R).
Implicit Types (st : state) (i : Z) (t : task).

(** ** Accessors *)

Definition meta st i : pcache_meta := default meta0 (metas st !! i).
Definition pset st s : pcache_set := default pset0 (psets st !! s).
Definition line st i : line_data := default zero_line (lines st !! i).
Definition get_pte st (k : pte_ptr) : pte := default pte_zero (ptes st !! k).

Definition upd_meta i (f : pcache_meta -> pcache_meta) st : state :=
  Pcache R (geo st) (<[i := f (meta st i)]> (metas st)) (psets st) (lines st) (rmap_used st)
    (pee_used st) (piggybacker st) (ptes st) (memory st) (kz st) (warned st).
Definition upd_pset s (f : pcache_set -> pcache_set) st : state :=
  Pcache R (geo st) (metas st) (<[s := f (pset st s)]> (psets st)) (lines st) (rmap_used st)
    (pee_used st) (piggybacker st) (ptes st) (memory st) (kz st) (warned st).
Definition set_line i (d : line_data) st : state :=
  Pcache R (geo st) (metas st) (psets st) (<[i := d]> (lines st)) (rmap_used st)
    (pee_used st) (piggybacker st) (ptes st) (memory st) (kz st) (warned st).
Definition set_rmap_used u st : state :=
  Pcache R (geo st) (metas st) (psets st) (lines st) u
    (pee_used st) (piggybacker st) (ptes st) (memory st) (kz st) (warned st).
Definition set_pee_used u st : state :=
  Pcache R (geo st) (metas st) (psets st) (lines st) (rmap_used st)
    u (piggybacker st) (ptes st) (memory st) (kz st) (warned st).
Definition set_piggybacker o st : state :=
  Pcache R (geo st) (metas st) (psets st) (lines st) (rmap_used st)
    (pee_used st) o (ptes st) (memory st) (kz st) (warned st).
Definition pte_set (k : pte_ptr) (p : pte) st : state :=
  Pcache R (geo st) (metas st) (psets st) (lines st) (rmap_used st)
    (pee_used st) (piggybacker st) (<[k := p]> (ptes st)) (memory st) (kz st) (warned st).
Definition set_memory r st : state :=
  Pcache R (geo st) (metas st) (psets st) (lines st) (rmap_used st)
    (pee_used st) (piggybacker st) (ptes st) r (kz st) (warned st).
Definition set_kz l st : state :=
  Pcache R (geo st) (metas st) (psets st) (lines st) (rmap_used st)
    (pee_used st) (piggybacker st) (ptes st) (memory st) l (warned st).
(** [WARN_ON_ONCE] *)
Definition WARN st : state :=
  Pcache R (geo st) (metas st) (psets st) (lines st) (rmap_used st)
    (pee_used st) (piggybacker st) (ptes st) (memory st) (kz st) true.

Definition pte_clear (k : pte_ptr) st : state := pte_set k pte_zero st.
Definition kzalloc st : bool * state :=
  match kz st with [] => (true, st) | b :: l => (b, set_kz l st) end.

Definition with_bits (b : gset pcache_meta_bits) (m : pcache_meta) :=
  Meta b (mapcount m) (_refcount m) (rmap m) (pb m).
Definition with_mapcount (c : Z) (m : pcache_meta) :=
  Meta (bits m) c (_refcount m) (rmap m) (pb m).
Definition with_refcount (c : Z) (m : pcache_meta) :=
  Meta (bits m) (mapcount m) c (rmap m) (pb m).
Definition with_rmap (l : list pcache_rmap) (m : pcache_meta) :=
  Meta (bits m) (mapcount m) (_refcount m) l (pb m).
Definition with_pb (p : piggyback_info) (m : pcache_meta) :=
  Meta (bits m) (mapcount m) (_refcount m) (rmap m) p.

(** The bit functions generated by PCACHE_META_BITS *)
Definition PcacheBit (b : pcache_meta_bits) i st : bool := bool_decide (b ∈ bits (meta st i)).
Definition SetPcache (b : pcache_meta_bits) i st : state :=
  upd_meta i (fun m => with_bits ({[b]} ∪ bits m) m) st.
Definition ClearPcache (b : pcache_meta_bits) i st : state :=
  upd_meta i (fun m => with_bits (bits m ∖ {[b]}) m) st.

(** ** Locks and counters (pcache.h) *)

Definition trylock_pcache i st : bool * state :=
  if PcacheBit PC_locked i st then (false, st) else (true, SetPcache PC_locked i st).

(** Spins while the line is locked: for ever, if nobody else runs. *)
Definition lock_pcache i st : option state :=
  BUG_ON PcacheBit PC_locked i st;;
  Some (SetPcache PC_locked i st).

Definition unlock_pcache i st : option state :=
  BUG_ON negb (PcacheBit PC_locked i st);;
  Some (ClearPcache PC_locked i st).

Definition pcache_ref_count i st : Z := _refcount (meta st i).
Definition pcache_ref_count_set i v st : state := upd_meta i (with_refcount v) st.
Definition pcache_mapcount i st : Z := mapcount (meta st i).
Definition pcache_mapcount_set i v st : state := upd_meta i (with_mapcount v) st.
Definition pcache_mapped i st : bool := 0 <? pcache_mapcount i st.

Definition get_pcache i st : option state :=
  BUG_ON pcache_ref_count i st <=? 0;;
  Some (pcache_ref_count_set i (pcache_ref_count i st + 1) st).

Definition get_pcache_unless_zero i st : bool * state :=
  if pcache_ref_count i st =? 0 then (false, st)
  else (true, pcache_ref_count_set i (pcache_ref_count i st + 1) st).

Definition put_pcache_testzero i st : option (bool * state) :=
  BUG_ON pcache_ref_count i st =? 0;;
  let st := pcache_ref_count_set i (pcache_ref_count i st - 1) st in
  Some (pcache_ref_count i st =? 0, st).

(** [atomic_cmpxchg(&p->_refcount, count, 0) == count] *)
Definition pcache_ref_freeze i count st : bool * state :=
  if pcache_ref_count i st =? count then (true, pcache_ref_count_set i 0 st) else (false, st).

Definition pcache_ref_sub_and_test i nr st : bool * state :=
  let st := pcache_ref_count_set i (pcache_ref_count i st - nr) st in
  (pcache_ref_count i st =? 0, st).

(** ** The lists of a set (pcache_evict.h, alloc.c) *)

Definition with_free l (p : pcache_set) :=
  Pset (evicting p) l (lru_list p) (nr_lru p) (eviction_list p) (nr_eviction_entries p).
Definition with_lru l n (p : pcache_set) :=
  Pset (evicting p) (free_head p) l n (eviction_list p) (nr_eviction_entries p).
Definition with_evictions l n (p : pcache_set) :=
  Pset (evicting p) (free_head p) (lru_list p) (nr_lru p) l n.
Definition with_evicting b (p : pcache_set) :=
  Pset b (free_head p) (lru_list p) (nr_lru p) (eviction_list p) (nr_eviction_entries p).

Definition add_to_lru_list i s st : state :=
  upd_pset s (fun p => with_lru (i :: lru_list p) (nr_lru p + 1) p) st.
Definition del_from_lru_list i s st : state :=
  upd_pset s (fun p => with_lru (list_del i (lru_list p)) (nr_lru p - 1) p) st.

Definition detach_from_lru i st : option state :=
  s ← pcache_meta_to_pcache_set (geo st) i;
  Some (del_from_lru_list i s st).

Definition __enqueue_free_list_head i s st : state :=
  upd_pset s (fun p => with_free (i :: free_head p) p) st.

(** ** Freeing (alloc.c) *)

Definition pcache_expected_state i (check_flags : gset pcache_meta_bits) st : bool :=
  (pcache_mapcount i st =? 0) && (pcache_ref_count i st =? 0) &&
  bool_decide (bits (meta st i) ∩ check_flags = ∅).

Definition pcache_free_check i st : state :=
  if pcache_expected_state i PCACHE_FLAGS_CHECK_AT_FREE st then st else WARN st.

Definition __put_pcache_nolru i st : option state :=
  let st := pcache_free_check i st in
  if PcacheBit PC_piggyback_cached i st then Some st
  else
    s ← pcache_meta_to_pcache_set (geo st) i;
    Some (__enqueue_free_list_head i s st).

Definition __put_pcache i st : option state :=
  st ← detach_from_lru i st;
  __put_pcache_nolru i st.

Definition put_pcache i st : option state :=
  '(zero, st) ← put_pcache_testzero i st;
  if zero : bool then __put_pcache i st else Some st.

(** ** The line evicted for piggyback (piggyback.h) *)

Definition set_per_cpu_piggybacker i st : option state :=
  match piggybacker st with
  | None => Some (SetPcache PC_piggyback_cached i (set_piggybacker (Some i) st))
  | Some _ => None
  end.

Definition get_per_cpu_piggybacker st : option Z * state :=
  match piggybacker st with
  | Some i => (Some i, set_piggybacker None st)
  | None => (None, st)
  end.

(** ** Allocation without eviction (alloc.c) *)

Definition pcache_reset_flags i st : state := upd_meta i (with_bits ∅) st.

Definition prep_new_pcache_meta i st : state :=
  upd_meta i (fun m => with_refcount 1 (with_mapcount 0 (with_rmap [] m))) st.

Definition pcache_alloc_fastpath s st : option Z * state :=
  let prep i st := (Some i, add_to_lru_list i s (prep_new_pcache_meta i st)) in
  match get_per_cpu_piggybacker st with
  | (Some i, st) => prep i (SetPcache PC_piggyback i (pcache_reset_flags i st))
  | (None, st) =>
      match free_head (pset st s) with
      | [] => (None, st)
      | i :: l => prep i (pcache_reset_flags i (upd_pset s (with_free l) st))
      end
  end.

(** ** Reverse mappings (rmap.c) *)

(** The new reverse mapping's Kmalloced flag, or nothing when memory is out. *)
Definition alloc_pcache_rmap i st : option (option bool * state) :=
  index ← __pcache_meta_index (geo st) i;
  if bool_decide (index ∈ rmap_used st) then
    let '(ok, st) := kzalloc st in
    Some (if ok : bool then Some true else None, st)
  else Some (Some false, set_rmap_used ({[index]} ∪ rmap_used st) st).

(** A reverse mapping that is not Kmalloced is the entry of [rmap_map] with the
    index of its line. *)
Definition free_pcache_rmap i (r : pcache_rmap) st : option state :=
  BUG_ON r_reserved r;;
  if r_kmalloced r then Some st
  else BUG_ON negb (bool_decide (i ∈ rmap_used st));;
       Some (set_rmap_used (rmap_used st ∖ {[i]}) st).

(** The entry found by the page-table walk, when it is the one that the reverse
    mapping names and maps the line. *)
Definition rmap_get_pte_locked i (r : pcache_rmap) st : option (option pte_ptr * state) :=
  let ptep := pte_offset (owner_mm r) (address r) in
  pfn ← pcache_meta_to_pfn (geo st) i;
  if negb (bool_decide (ptep = page_table r)) then Some (None, WARN st)
  else if negb (pfn =? pte_pfn (get_pte st ptep)) then Some (None, WARN st)
  else Some (Some ptep, st).

Definition pte_to_pcache_meta (p : pte) st : option Z := pfn_to_pcache_meta (geo st) (pte_pfn p).

Definition pcache_add_rmap i (pt : pte_ptr) (addr mm : Z) (proc : task) (c : rmap_caller) st
  : option (Z * state) :=
  BUG_ON PcacheBit PC_locked i st;;
  st ← lock_pcache i st;
  '(o, st) ← alloc_pcache_rmap i st;
  match o with
  | None => st ← unlock_pcache i st; Some (- ENOMEM, st)
  | Some kmalloced =>
      let r := Rmap false kmalloced pt mm proc c (Z.land addr PAGE_MASK) in
      BUG_ON negb (t_leader proc);;
      BUG_ON existsb (fun pos => bool_decide (page_table pos = pt) || (owner_mm pos =? mm)
                              || bool_decide (owner_process pos = proc)) (rmap (meta st i));;
      let st := upd_meta i (fun m => with_rmap (r :: rmap m) m) st in
      let st := pcache_mapcount_set i (pcache_mapcount i st + 1) st in
      BUG_ON PcacheBit PC_reclaim i st && negb (PcacheBit PC_valid i st);;
      let st := SetPcache PC_valid i st in
      st ← unlock_pcache i st; Some (0, st)
  end.

(** [list_del] of the reverse mapping is done by [walk_loop], to which the callback
    reports the removal. *)
Definition __pcache_remove_rmap i (r : pcache_rmap) st : option state :=
  st ← free_pcache_rmap i r st;
  let st := pcache_mapcount_set i (pcache_mapcount i st - 1) st in
  if pcache_mapcount i st =? 0 then Some (ClearPcache PC_valid i st) else Some st.

(** A callback of [rmap_walk] returns its status, the reverse mapping as it left it
    ([None] when it removed it) and its argument. *)
Definition rmap_one (A : Type) : Type :=
  Z -> pcache_rmap -> A -> state -> option (pcache_rmap_status * option pcache_rmap * A * state).

Fixpoint walk_loop {A} (one : rmap_one A) (done : Z -> state -> bool) i
    (pre l : list pcache_rmap) (a : A) st : option (pcache_rmap_status * A * state) :=
  match l with
  | [] => Some (PCACHE_RMAP_AGAIN, a, st)
  | r :: l =>
      '(ret, r, a, st) ← one i r a st;
      let pre := pre ++ match r with Some r => [r] | None => [] end in
      let st := upd_meta i (with_rmap (pre ++ l)) st in
      if negb (is_again ret) || done i st then Some (ret, a, st)
      else walk_loop one done i pre l a st
  end.

Definition rmap_walk {A} (one : rmap_one A) (done : Z -> state -> bool) i (a : A) st
  : option (pcache_rmap_status * A * state) :=
  BUG_ON negb (PcacheBit PC_locked i st);;
  walk_loop one done i [] (rmap (meta st i)) a st.

Definition never_done i st : bool := false.
Definition pcache_mapcount_is_zero i st : bool := pcache_mapcount i st =? 0.

(** [matched_rmap_for_remove], [matched_rmap_for_zap], [matched_rmap_for_move] *)
Definition matched_rmap (r : pcache_rmap) (pt : pte_ptr) (mm addr : Z) : bool :=
  bool_decide (page_table r = pt) && (owner_mm r =? mm) && (address r =? addr).

Definition __pcache_remove_rmap_one (pt : pte_ptr) (mm addr : Z) : rmap_one bool :=
  fun i r removed st =>
    if matched_rmap r pt mm addr
    then st ← __pcache_remove_rmap i r st; Some (PCACHE_RMAP_SUCCEED, None, true, st)
    else Some (PCACHE_RMAP_AGAIN, Some r, removed, st).

Definition pcache_remove_rmap i (pt : pte_ptr) (addr mm : Z) st : option state :=
  BUG_ON negb (PcacheBit PC_locked i st);;
  '(_, removed, st) ←
    rmap_walk (__pcache_remove_rmap_one pt mm (Z.land addr PAGE_MASK)) never_done i false st;
  Some (if removed : bool then st else WARN st).

(** Clear the entry, keep the reverse mapping with the Reserved flag set. *)
Definition pcache_try_to_unmap_reserve_one : rmap_one bool :=
  fun i r dirty st =>
    BUG_ON r_reserved r;;
    '(o, st) ← rmap_get_pte_locked i r st;
    match o with
    | None => Some (PCACHE_RMAP_AGAIN, Some r, dirty, st)
    | Some ptep =>
        let pteval := get_pte st ptep in
        let st := pte_clear ptep st in
        let dirty := if p_present pteval && p_dirty pteval then true else dirty in
        Some (PCACHE_RMAP_AGAIN,
              Some (Rmap true (r_kmalloced r) (page_table r) (owner_mm r) (owner_process r)
                      (caller r) (address r)), dirty, st)
    end.

Definition pcache_try_to_unmap_reserve_check_dirty i st : option (bool * state) :=
  BUG_ON negb (PcacheBit PC_locked i st);;
  '(_, dirty, st) ← rmap_walk pcache_try_to_unmap_reserve_one pcache_mapcount_is_zero i false st;
  Some (dirty, st).

Definition pcache_free_reserved_rmap_one : rmap_one unit :=
  fun i r u st =>
    BUG_ON negb (r_reserved r);;
    let r := Rmap false (r_kmalloced r) (page_table r) (owner_mm r) (owner_process r)
               (caller r) (address r) in
    st ← __pcache_remove_rmap i r st;
    Some (PCACHE_RMAP_AGAIN, None, u, st).

Definition pcache_free_reserved_rmap i st : option state :=
  BUG_ON negb (PcacheBit PC_locked i st);;
  '(_, _, st) ← rmap_walk pcache_free_reserved_rmap_one never_done i tt st;
  Some st.

(** ** Flushing (clflush.c) *)

Definition __clflush_one (tgid user_va m_nid : Z) (d : line_data) st : state :=
  set_memory (m_flush m_nid tgid (Z.land user_va PCACHE_LINE_MASK) d (memory st)) st.

Definition clflush_one (tsk : task) (user_va : Z) (d : line_data) st : state :=
  __clflush_one (t_tgid tsk) user_va (get_memory_node tsk user_va) d st.

Definition __pcache_flush_one : rmap_one Z :=
  fun i r nr_flushed st =>
    Some (PCACHE_RMAP_AGAIN, Some r, nr_flushed + 1,
          clflush_one (owner_process r) (address r) (line st i) st).

Definition pcache_flush_one i st : option state :=
  BUG_ON negb (PcacheBit PC_locked i st);;
  BUG_ON PcacheBit PC_writeback i st;;
  BUG_ON negb (PcacheBit PC_reclaim i st);;
  let st := SetPcache PC_writeback i st in
  '(_, _, st) ← rmap_walk __pcache_flush_one never_done i 0 st;
  Some (ClearPcache PC_writeback i st).

(** ** The eviction list of a set (perset.c) *)

Definition alloc_pset_eviction_entry i st : option (option bool * state) :=
  index ← __pcache_meta_index (geo st) i;
  if bool_decide (index ∈ pee_used st) then
    let '(ok, st) := kzalloc st in
    Some (if ok : bool then Some true else None, st)
  else Some (Some false, set_pee_used ({[index]} ∪ pee_used st) st).

(** An entry that is not Kmalloced is the one with the index of its line. *)
Definition free_pset_eviction_entry (e : pset_eviction_entry) st : option state :=
  if pee_kmalloced e then Some st
  else BUG_ON negb (bool_decide (pee_pcm e ∈ pee_used st));;
       Some (set_pee_used (pee_used st ∖ {[pee_pcm e]}) st).

Definition pset_add_eviction_entry (e : pset_eviction_entry) s st : state :=
  upd_pset s (fun p => with_evictions (e :: eviction_list p) (nr_eviction_entries p + 1) p) st.

Definition __pset_find_eviction s (uvaddr : Z) t st : bool :=
  existsb (fun pos => (Z.land uvaddr PAGE_MASK =? pee_address pos) &&
                      same_thread_group t (pee_owner pos)) (eviction_list (pset st s)).

Definition pset_find_eviction (uvaddr : Z) t st : bool :=
  let s := user_vaddr_to_pcache_set (geo st) uvaddr in
  if nr_eviction_entries (pset st s) =? 0 then false
  else __pset_find_eviction s uvaddr t st.

Definition pset_add_eviction_one : rmap_one Z :=
  fun i r nr_added st =>
    s ← pcache_meta_to_pcache_set (geo st) i;
    '(o, st) ← alloc_pset_eviction_entry i st;
    match o with
    | None => Some (PCACHE_RMAP_FAILED, Some r, nr_added, WARN st)
    | Some kmalloced =>
        let tsk := owner_process r in
        let st := pset_add_eviction_entry (Pee kmalloced (address r) tsk i) s st in
        let nr_added := nr_added + 1 in
        let st := if nr_added =? 1
                  then upd_meta i (with_pb (Piggyback (t_tgid tsk) (address r)
                                              (get_memory_node tsk (address r)))) st
                  else st in
        Some (PCACHE_RMAP_AGAIN, Some r, nr_added, st)
    end.

Definition pset_add_eviction i st : option (Z * state) :=
  BUG_ON negb (pcache_mapped i st);;
  '(_, nr_added, st) ← rmap_walk pset_add_eviction_one never_done i 0 st;
  Some (nr_added, st).

Fixpoint remove_eviction_loop (pre l : list pset_eviction_entry) s i (nr_added : Z) st
  : option (Z * state) :=
  match l with
  | [] => Some (nr_added, st)
  | pos :: l =>
      if pee_pcm pos =? i then
        let st := upd_pset s (fun p => with_evictions (pre ++ l) (nr_eviction_entries p - 1) p) st in
        st ← free_pset_eviction_entry pos st;
        remove_eviction_loop pre l s i (nr_added - 1) st
      else remove_eviction_loop (pre ++ [pos]) l s i nr_added st
  end.

Definition pset_remove_eviction s i (nr_added : Z) st : option state :=
  '(nr_added, st) ← remove_eviction_loop [] (eviction_list (pset st s)) s i nr_added st;
  BUG_ON negb (nr_added =? 0);;
  Some st.

Definition evict_line_perset_list s i (piggyback : piggyback_options) st : option (Z * state) :=
  '(nr_added, st) ← pset_add_eviction i st;
  BUG_ON nr_added =? 0;;
  '(dirty, st) ← pcache_try_to_unmap_reserve_check_dirty i st;
  if dirty && (nr_added =? 1) && is_enable piggyback then
    st ← set_per_cpu_piggybacker i st;
    st ← pcache_free_reserved_rmap i st;
    Some (0, st)
  else
    st ← (if dirty : bool then pcache_flush_one i st else Some st);
    st ← pcache_free_reserved_rmap i st;
    st ← pset_remove_eviction s i nr_added st;
    Some (0, st).

(** ** Eviction (evict_lru.c, evict.c) *)

Definition lru_put_pcache i s st : option state :=
  '(zero, st) ← put_pcache_testzero i st;
  if zero : bool then __put_pcache_nolru i (del_from_lru_list i s st) else Some st.

(** The reverse walk of [evict_find_line_lru] over the lines of [l]. *)
Fixpoint find_line_loop (l : list Z) s st : option (option Z * state) :=
  match l with
  | [] => Some (None, st)
  | i :: l =>
      BUG_ON PcacheBit PC_reclaim i st;;
      let '(got, st) := get_pcache_unless_zero i st in
      if negb got then Some (None, st)
      else if negb (PcacheBit PC_valid i st) then
        st ← lru_put_pcache i s st; find_line_loop l s st
      else
        let '(locked, st) := trylock_pcache i st in
        if negb locked then
          st ← lru_put_pcache i s st; find_line_loop l s st
        else if PcacheBit PC_writeback i st || (2 <? pcache_ref_count i st) then
          st ← unlock_pcache i st;
          st ← lru_put_pcache i s st; find_line_loop l s st
        else Some (Some i, SetPcache PC_reclaim i (del_from_lru_list i s st))
  end.

(** [None] is [ERR_PTR(-EAGAIN)]. *)
Definition evict_find_line_lru s st : option (option Z * state) :=
  find_line_loop (reverse (lru_list (pset st s))) s st.

Section concurrent.
(** What the other CPUs do with a line: in [pcache_evict_line] after the line has been
    chosen, elsewhere while this CPU has dropped the lock of the page-table entry
    and waits for the line. *)
Context (others : Z -> state -> state).

(** [pcache_evict_line] from the chosen line on *)
Definition evict_chosen s i (piggyback : piggyback_options) st : option (evict_status * state) :=
  BUG_ON negb (PcacheBit PC_locked i st);;
  BUG_ON negb (PcacheBit PC_reclaim i st);;
  let st := others i st in
  let nr_mapped := pcache_mapcount i st in
  BUG_ON nr_mapped <? 1;;
  '(ret, st) ← evict_line_perset_list s i piggyback st;
  if negb (ret =? 0) then
    let st := add_to_lru_list i s (ClearPcache PC_reclaim i st) in
    st ← unlock_pcache i st;
    st ← put_pcache i st;
    Some (PCACHE_EVICT_FAILURE_EVICT, st)
  else
    BUG_ON pcache_mapped i st || PcacheBit PC_valid i st;;
    BUG_ON pcache_ref_count i st <? nr_mapped + 1;;
    let '(frozen, st) := pcache_ref_freeze i (nr_mapped + 1) st in
    if negb frozen then
      let '(zero, st) := pcache_ref_sub_and_test i (nr_mapped + 1) st in
      BUG_ON zero;;
      let st := add_to_lru_list i s (ClearPcache PC_reclaim i st) in
      st ← unlock_pcache i st;
      Some (PCACHE_EVICT_EAGAIN_CONCURRENT, st)
    else
      let st := ClearPcache PC_locked i (ClearPcache PC_reclaim i st) in
      st ← __put_pcache_nolru i st;
      Some (PCACHE_EVICT_SUCCEED, st).

Definition pcache_evict_line s (piggyback : piggyback_options) st : option (evict_status * state) :=
  let st := upd_pset s (with_evicting true) st in
  '(o, st) ← evict_find_line_lru s st;
  let st := upd_pset s (with_evicting false) st in
  match o with
  | None => Some (PCACHE_EVICT_EAGAIN_FREEABLE, st)
  | Some i => evict_chosen s i piggyback st
  end.

(** [retries] is the number of times that [time_before(jiffies, timeout)] holds. *)
Fixpoint alloc_loop (retries : nat) s (piggyback : piggyback_options) st
  : option (option Z * state) :=
  match pcache_alloc_fastpath s st with
  | (Some i, st) =>
      BUG_ON negb (is_enable piggyback) && PcacheBit PC_piggyback i st;;
      Some (Some i, st)
  | (None, st) =>
      '(ret, st) ← pcache_evict_line s piggyback st;
      match ret with
      | PCACHE_EVICT_FAILURE_FIND | PCACHE_EVICT_FAILURE_EVICT => Some (None, st)
      | _ => match retries with
             | O => Some (None, st)
             | S retries => alloc_loop retries s piggyback st
             end
      end
  end.

Definition pcache_alloc (retries : nat) (addr : Z) (piggyback : piggyback_options) st
  : option (option Z * state) :=
  alloc_loop retries (user_vaddr_to_pcache_set (geo st) addr) piggyback st.

(** ** Faults (fault.c) *)

Definition piggyback_fallback i st : option state :=
  let p := pb (meta st i) in
  let st := __clflush_one (pb_tgid p) (pb_user_addr p) (pb_memory_nid p) (line st i) st in
  s ← pcache_meta_to_pcache_set (geo st) i;
  st ← pset_remove_eviction s i 1 st;
  Some (ClearPcache PC_piggyback i st).

Definition fill_func : Type := Z -> Z -> Z -> state -> option (Z * state).

Definition common_do_fill_page (retries : nat) (mm : Z) (cur : task) (addr : Z) (orig_pte : pte)
    (flags : Z) (fill : fill_func) (c : rmap_caller) (piggyback : piggyback_options) st
  : option (Z * state) :=
  '(o, st) ← pcache_alloc retries addr piggyback st;
  match o with
  | None => Some (VM_FAULT_OOM, st)
  | Some i =>
      pfn ← pcache_meta_to_pfn (geo st) i;
      let entry := pfn_pte_shared_exec pfn in
      let pt := pte_offset mm addr in
      let out ret st := st ← put_pcache i st; Some (ret, st) in
      if negb (pte_same (get_pte st pt) orig_pte) then
        st ← (if PcacheBit PC_piggyback i st then piggyback_fallback i st else Some st);
        out 0 st
      else
        '(ret, st) ← fill addr flags i st;
        if negb (ret =? 0) then out VM_FAULT_SIGSEGV st
        else
          let st := pte_set pt entry st in
          '(ret, st) ← pcache_add_rmap i pt addr mm (group_leader cur) c st;
          if negb (ret =? 0) then out VM_FAULT_OOM (pte_clear pt st)
          else Some (0, st)
  end.

(** The send of the miss alone, and with the flush of the line in the same message *)
Definition send_miss (cur : task) (nid addr flags : Z) st : p2m_reply * state :=
  let '(rep, r) := m_miss nid (t_tgid cur) addr flags (memory st) in (rep, set_memory r st).
Definition send_miss_flush (cur : task) (nid addr flags : Z) (p : piggyback_info) (d : line_data) st
  : p2m_reply * state :=
  let '(rep, r) := m_miss_flush nid (t_tgid cur) addr flags (pb_tgid p) (pb_user_addr p) d (memory st) in
  (rep, set_memory r st).

Definition __pcache_do_fill_page (cur : task) : fill_func :=
  fun addr flags i st =>
    s ← pcache_meta_to_pcache_set (geo st) i;
    let dst_nid := get_memory_node cur addr in
    '(rep, st) ←
      (if PcacheBit PC_piggyback i st then
         if negb (pb_memory_nid (pb (meta st i)) =? dst_nid) then
           st ← piggyback_fallback i st; Some (send_miss cur dst_nid addr flags st)
         else
           let '(rep, st) := send_miss_flush cur dst_nid addr flags (pb (meta st i)) (line st i) st in
           st ← pset_remove_eviction s i 1 st;
           Some (rep, ClearPcache PC_piggyback i st)
       else Some (send_miss cur dst_nid addr flags st));
    match rep with
    | ReplyPage d => Some (0, set_line i d st)
    | ReplyShort len d =>
        let st := set_line i d st in
        if len <? PCACHE_LINE_SIZE then
          if len =? 4 then Some (- EFAULT, st)
          else if len <? 0 then Some (len, WARN st)
          else Some (- EFAULT, WARN st)
        else Some (0, st)
    end.

Definition pcache_do_fill_page retries mm cur addr orig_pte flags st : option (Z * state) :=
  common_do_fill_page retries mm cur addr orig_pte flags (__pcache_do_fill_page cur)
    RMAP_FILL_PAGE_REMOTE ENABLE_PIGGYBACK st.

Definition __pcache_do_zerofill_page : fill_func :=
  fun addr flags i st => Some (0, set_line i zero_line st).

Definition pcache_do_zerofill_page retries mm cur addr orig_pte flags st : option (Z * state) :=
  if negb (p_zerofill orig_pte) then Some (VM_FAULT_SIGBUS, st)
  else common_do_fill_page retries mm cur addr orig_pte flags __pcache_do_zerofill_page
         RMAP_ZEROFILL DISABLE_PIGGYBACK st.

(** Lock the line of a locked page-table entry: the lock of the entry is dropped
    when the line is contended, and the entry is then read again ([false]: it has
    changed). *)
Definition lock_pcache_pte i (pt : pte_ptr) (ptent : pte) st : option (bool * state) :=
  let '(locked, st) := trylock_pcache i st in
  if locked : bool then Some (true, st)
  else
    st ← get_pcache i st;
    let st := others i st in
    st ← lock_pcache i st;
    if negb (pte_same (get_pte st pt) ptent) then
      st ← unlock_pcache i st;
      st ← put_pcache i st;
      Some (false, st)
    else
      st ← put_pcache i st;
      Some (true, st).

Definition pcache_do_wp_page (retries : nat) (mm : Z) (cur : task) (addr : Z) (orig_pte : pte) st
  : option (Z * state) :=
  let pt := pte_offset mm addr in
  match pte_to_pcache_meta orig_pte st with
  | None => Some (VM_FAULT_SIGBUS, st)
  | Some old =>
      BUG_ON negb (PcacheBit PC_valid old st);;
      BUG_ON negb (pcache_mapped old st);;
      '(ok, st) ← lock_pcache_pte old pt orig_pte st;
      if negb ok then Some (0, st)
      else
        '(ret, st) ←
          (if pcache_mapcount old st =? 1 then
             Some (0, pte_set pt (pte_mkwrite (pte_mkdirty (pte_mkyoung orig_pte))) st)
           else
             '(o, st) ← pcache_alloc retries addr DISABLE_PIGGYBACK st;
             match o with
             | None => Some (VM_FAULT_OOM, st)
             | Some new =>
                 let st := set_line new (line st old) st in
                 pfn ← pcache_meta_to_pfn (geo st) new;
                 let st := pte_set pt (pte_mkwrite (pte_mkdirty (pfn_pte_shared_exec pfn))) st in
                 '(ret, st) ← pcache_add_rmap new pt addr (t_mm cur) (group_leader cur) RMAP_COW st;
                 if negb (ret =? 0) then
                   st ← put_pcache new st;
                   Some (VM_FAULT_OOM, pte_clear pt st)
                 else
                   st ← pcache_remove_rmap old pt addr (t_mm cur) st;
                   st ← put_pcache old st;
                   Some (0, st)
             end);
        st ← unlock_pcache old st;
        Some (ret, st)
  end.

Definition pcache_handle_pte_fault (retries : nat) (mm : Z) (cur : task) (addr flags : Z) st
  : option (Z * state) :=
  let entry := get_pte st (pte_offset mm addr) in
  if negb (p_present entry) then
    if pte_none entry then
      BUG_ON pset_find_eviction addr cur st;;
      pcache_do_fill_page retries mm cur addr entry flags st
    else pcache_do_zerofill_page retries mm cur addr entry flags st
  else if has flags FAULT_FLAG_WRITE && negb (p_rw entry) then
    pcache_do_wp_page retries mm cur addr entry st
  else Some (0, st).

(** [tables]: the three levels above the entry exist or could be allocated. *)
Definition pcache_handle_fault (tables : bool) (retries : nat) (mm : Z) (cur : task) (addr flags : Z) st
  : option (Z * state) :=
  if negb tables then Some (VM_FAULT_OOM, st)
  else pcache_handle_pte_fault retries mm cur addr flags st.

(** ** Unmapping one entry (rmap.c) *)

Definition __pcache_zap_pte (pt : pte_ptr) (mm addr : Z) : rmap_one bool :=
  fun i r zapped st =>
    if matched_rmap r pt mm addr then
      st ← __pcache_remove_rmap i r (pte_clear (page_table r) st);
      Some (PCACHE_RMAP_SUCCEED, None, true, st)
    else Some (PCACHE_RMAP_AGAIN, Some r, zapped, st).

Definition pcache_zap_pte (mm addr : Z) (ptent : pte) (pt : pte_ptr) st : option (Z * state) :=
  match pte_to_pcache_meta ptent st with
  | None => Some (0, WARN st)
  | Some i =>
      '(ok, st) ← lock_pcache_pte i pt ptent st;
      if negb ok then Some (- EAGAIN, st)
      else
        '(_, zapped, st) ←
          rmap_walk (__pcache_zap_pte pt mm (Z.land addr PAGE_MASK)) never_done i false st;
        st ← unlock_pcache i st;
        if negb zapped then Some (0, WARN st)
        else st ← put_pcache i st; Some (0, st)
  end.

(** ** Moving one entry (rmap.c) *)

Definition __pcache_move_pte_fastpath (mm : Z) (old_pte new_pte : pte_ptr) (old_addr new_addr : Z)
  : rmap_one bool :=
  fun i r updated st =>
    if matched_rmap r old_pte mm old_addr then
      let r := Rmap (r_reserved r) (r_kmalloced r) new_pte (owner_mm r) (owner_process r)
                 (caller r) new_addr in
      let old_ptent := get_pte st old_pte in
      let st := pte_clear old_pte st in
      BUG_ON negb (bool_decide (pte_to_pcache_meta old_ptent st = Some i));;
      Some (PCACHE_RMAP_SUCCEED, Some r, true, pte_set new_pte old_ptent st)
    else Some (PCACHE_RMAP_AGAIN, Some r, updated, st).

Definition pcache_move_pte_fastpath (mm : Z) (old_pte new_pte : pte_ptr) (old_addr new_addr : Z) st
  : option (Z * state) :=
  let old_ptent := get_pte st old_pte in
  i ← pte_to_pcache_meta old_ptent st;
  '(ok, st) ← lock_pcache_pte i old_pte old_ptent st;
  if negb ok then Some (- EAGAIN, st)
  else
    '(_, updated, st) ←
      rmap_walk (__pcache_move_pte_fastpath mm old_pte new_pte old_addr new_addr) never_done i false st;
    st ← unlock_pcache i st;
    BUG_ON negb updated;;
    Some (0, st).

Definition __pcache_move_pte_slowpath (cur : task) (mm : Z) (old_pte new_pte : pte_ptr)
    (old_addr new_addr new_pcm : Z) : rmap_one bool :=
  fun i r updated st =>
    if negb (matched_rmap r old_pte mm old_addr) then
      Some (PCACHE_RMAP_AGAIN, Some r, updated, st)
    else
      let st := set_line new_pcm (line st i) st in
      let old_ptent := get_pte st old_pte in
      let st := pte_clear old_pte st in
      BUG_ON negb (bool_decide (pte_to_pcache_meta old_ptent st = Some i));;
      st ← __pcache_remove_rmap i r st;
      pfn ← pcache_meta_to_pfn (geo st) new_pcm;
      let st := pte_set new_pte (pfn_pte_pgprot pfn old_ptent) st in
      '(ret, st) ← pcache_add_rmap new_pcm new_pte new_addr (t_mm cur) (group_leader cur)
                     RMAP_MREMAP_SLOWPATH st;
      if negb (ret =? 0) then Some (PCACHE_RMAP_AGAIN, None, updated, WARN st)
      else Some (PCACHE_RMAP_SUCCEED, None, true, st).

Definition pcache_move_pte_slowpath (retries : nat) (cur : task) (mm : Z) (old_pte new_pte : pte_ptr)
    (old_addr new_addr : Z) st : option (Z * state) :=
  let old_ptent := get_pte st old_pte in
  old_pcm ← pte_to_pcache_meta old_ptent st;
  '(o, st) ← pcache_alloc retries new_addr DISABLE_PIGGYBACK st;
  match o with
  | None => Some (- ENOMEM, st)
  | Some new_pcm =>
      '(ok, st) ← lock_pcache_pte old_pcm old_pte old_ptent st;
      if negb ok then Some (- EAGAIN, st)
      else
        '(_, updated, st) ←
          rmap_walk (__pcache_move_pte_slowpath cur mm old_pte new_pte old_addr new_addr new_pcm)
            never_done old_pcm false st;
        st ← unlock_pcache old_pcm st;
        BUG_ON negb updated;;
        st ← put_pcache old_pcm st;
        Some (0, st)
  end.

Definition pcache_move_pte (retries : nat) (cur : task) (mm : Z) (old_pte new_pte : pte_ptr)
    (old_addr new_addr : Z) st : option (Z * state) :=
  let old_index := user_vaddr_to_set_index (geo st) old_addr in
  let new_index := user_vaddr_to_set_index (geo st) new_addr in
  if old_index =? new_index
  then pcache_move_pte_fastpath mm old_pte new_pte old_addr new_addr st
  else pcache_move_pte_slowpath retries cur mm old_pte new_pte old_addr new_addr st.

(** ** Ranges of the emulated page table (processor/pgtable.c)

    The upper levels only skip ranges without tables, that is without entries; a
    range is the sequence of its [n] pages. *)

Fixpoint zap_one (tries : nat) (mm addr : Z) st : option state :=
  let pt := pte_offset mm addr in
  let ptent := get_pte st pt in
  if pte_none ptent then Some st
  else if p_present ptent then
    '(ret, st) ← pcache_zap_pte mm addr ptent pt st;
    if ret =? 0 then Some st
    else if ret =? - EAGAIN then
      match tries with O => None | S tries => zap_one tries mm addr st end
    else Some (pte_clear pt (WARN st))
  else Some (pte_clear pt st).

Fixpoint zap_pte_range (tries n : nat) (mm addr : Z) st : option state :=
  match n with
  | O => Some st
  | S n => st ← zap_one tries mm addr st; zap_pte_range tries n mm (addr + PAGE_SIZE) st
  end.

Definition nr_pages (addr end_ : Z) : nat := Z.to_nat ((end_ - addr) / PAGE_SIZE).

Definition unmap_page_range (tries : nat) (mm addr end_ : Z) st : option state :=
  BUG_ON end_ <=? addr;;
  zap_pte_range tries (nr_pages addr end_) mm addr st.

Fixpoint free_pte_range (n : nat) (mm addr : Z) st : state :=
  match n with
  | O => st
  | S n => free_pte_range n mm (addr + PAGE_SIZE) (pte_clear (pte_offset mm addr) st)
  end.

Definition free_pgd_range (mm addr end_ : Z) st : state :=
  if end_ -u 1 <? addr then st else free_pte_range (nr_pages addr end_) mm addr st.

Definition release_pgtable (tries : nat) (tsk : task) (start end_ : Z) st : option state :=
  st ← unmap_page_range tries (t_mm tsk) start end_ st;
  Some (free_pgd_range (t_mm tsk) start end_ st).

Definition pcache_process_exit (tries : nat) (tsk : task) st : option state :=
  release_pgtable tries tsk PAGE_SIZE TASK_SIZE st.

Definition is_cow_mapping (flags : Z) : bool := Z.land flags (Z.lor VM_SHARED VM_WRITE) =? VM_WRITE.

(** The result of [pcache_add_rmap] is not used. *)
Definition pcache_copy_one_pte (dst_mm src_mm addr vm_flags : Z) (dst_task : task) st : option state :=
  let src_pte := pte_offset src_mm addr in
  let dst_pte := pte_offset dst_mm addr in
  let p := get_pte st src_pte in
  let cow := is_cow_mapping vm_flags in
  let st := if cow then pte_set src_pte (pte_wrprotect p) st else st in
  let p := if cow then pte_wrprotect p else p in
  let p := if has vm_flags VM_SHARED then pte_mkclean p else p in
  let p := pte_mkold p in
  let st := pte_set dst_pte p st in
  match pte_to_pcache_meta p st with
  | None => Some st
  | Some i =>
      st ← get_pcache i st;
      '(_, st) ← pcache_add_rmap i dst_pte addr dst_mm dst_task RMAP_FORK st;
      Some st
  end.

Definition copy_one (dst_mm src_mm addr vm_flags : Z) (dst_task : task) st : option state :=
  let p := get_pte st (pte_offset src_mm addr) in
  if pte_none p then Some st
  else if negb (p_present p) then
    if negb (p_zerofill p) then Some (WARN st)
    else Some (pte_set (pte_offset dst_mm addr) p st)
  else pcache_copy_one_pte dst_mm src_mm addr vm_flags dst_task st.

Fixpoint pcache_copy_pte_range (n : nat) (dst_mm src_mm addr vm_flags : Z) (dst_task : task) st
  : option state :=
  match n with
  | O => Some st
  | S n =>
      st ← copy_one dst_mm src_mm addr vm_flags dst_task st;
      pcache_copy_pte_range n dst_mm src_mm (addr + PAGE_SIZE) vm_flags dst_task st
  end.

Definition pcache_copy_page_range (dst_mm src_mm addr end_ vm_flags : Z) (dst_task : task) st
  : option state :=
  pcache_copy_pte_range (nr_pages addr end_) dst_mm src_mm addr vm_flags dst_task st.

(** [fork_dup_pcache]: the areas reported by the memory component *)
Fixpoint fork_dup_pcache (dst_task : task) (dst_mm src_mm : Z) (vmas : list (Z * Z * Z)) st : option state :=
  match vmas with
  | [] => Some st
  | (start, end_, flags) :: vmas =>
      st ← pcache_copy_page_range dst_mm src_mm start end_ flags dst_task st;
      fork_dup_pcache dst_task dst_mm src_mm vmas st
  end.

Fixpoint move_one (tries retries : nat) (cur : task) (mm old_addr new_addr : Z) st : option state :=
  let old_pte := pte_offset mm old_addr in
  let new_pte := pte_offset mm new_addr in
  let p := get_pte st old_pte in
  if pte_none p then Some st
  else if negb (p_present p) then
    let st := pte_clear old_pte st in
    if negb (p_zerofill p) then Some (WARN st) else Some (pte_set new_pte p st)
  else
    '(ret, st) ← pcache_move_pte retries cur mm old_pte new_pte old_addr new_addr st;
    if ret =? 0 then Some st
    else
      BUG_ON negb ((ret =? - EAGAIN) || (ret =? - ENOMEM));;
      let st := if ret =? - ENOMEM then WARN st else st in
      match tries with
      | O => None
      | S tries => move_one tries retries cur mm old_addr new_addr st
      end.

Fixpoint move_ptes (n : nat) (tries retries : nat) (cur : task) (mm old_addr new_addr : Z) st
  : option state :=
  match n with
  | O => Some st
  | S n =>
      st ← move_one tries retries cur mm old_addr new_addr st;
      move_ptes n tries retries cur mm (old_addr + PAGE_SIZE) (new_addr + PAGE_SIZE) st
  end.

Fixpoint zerofill_set_pte_range (n : nat) (mm addr : Z) st : state :=
  match n with
  | O => st
  | S n =>
      let pt := pte_offset mm addr in
      zerofill_set_pte_range n mm (addr + PAGE_SIZE) (pte_set pt (pte_mkzerofill (get_pte st pt)) st)
  end.

Definition zerofill_set_range (p : task) (start len : Z) st : option state :=
  let end_ := PAGE_ALIGN (start +u len) in
  BUG_ON end_ <=? start;;
  Some (zerofill_set_pte_range (nr_pages start end_) (t_mm p) start st).
End concurrent.

(** ** Boot (init.c) *)

(** [pcache_for_each_way] / [pcache_for_each_set]: the indices below [n] *)
Definition indices (n : Z) : list Z := seqZ 0 n.

(** The loop counters of init.c are ints: up to 2^31 lines, 8 TB of cache, they count as
    these lists do. *)
Definition init_pcache_meta_map (g : geometry) : gmap Z pcache_meta :=
  list_to_map ((fun i => (i, meta0)) <$> indices (nr_cachelines g)).

Definition init_pcache_set_map (g : geometry) : gmap Z pcache_set :=
  list_to_map ((fun s => (s, pset0)) <$> indices (nr_cachesets g)).

(** [list_add_tail] of the ways of each set *)
Fixpoint init_free_lists (l : list Z) st : option state :=
  match l with
  | [] => Some st
  | s :: l =>
      ways ← pcache_for_each_way_set (geo st) s;
      init_free_lists l
        (foldl (fun st i => upd_pset s (fun p => with_free (free_head p ++ [i]) p) st) st ways)
  end.

(** The page tables are those of the processes that boot starts: empty. *)
Definition pcache_post_init (g : geometry) (r : R) (oracle : list bool) : option state :=
  init_free_lists (indices (nr_cachesets g))
    (Pcache R g (init_pcache_meta_map g) (init_pcache_set_map g) ∅ ∅ ∅ None ∅ r oracle false).
End model.
