(* ===== verification/PcacheSpec.v ===== *)
(** * Pcache: what is promised

    The contract of the memory component towards the pcache ([MemoryLaws]), the
    contents that a process sees ([view]), the invariant of a pcache at rest ([wf]),
    and the rewriting rules that evaluate the operations of PcacheModel. *)

From stdpp Require Import gmap fin_sets.
From S2P Require Import Prelude VmaModel PcacheGeom PcacheModel.

(** An address of a page that a process can use *)
Definition user_page (a : Z) : Prop := is_u64 a /\ page_aligned a.

(** ** The memory component

    [answer r nid tgid va] is the page that the component holds for page [va] of a
    process, if that address is mapped; [known nid tgid] that it has the process. *)
Class MemoryLaws (R : Type) `{!MemoryNode R} := {
  answer : R -> Z -> Z -> Z -> option line_data;
  known : Z -> Z -> Prop;
  (** a flush stores the page, and only that page *)
  answer_flush_eq : forall r n t va d,
    user_page va -> is_Some (answer r n t va) -> answer (m_flush n t va d r) n t va = Some d;
  answer_flush_ne : forall r n t va d n' t' va',
    user_page va -> (n, t, va) <> (n', t', va') -> answer (m_flush n t va d r) n' t' va' = answer r n' t' va';
  (** a miss is answered by the page, or by a shorter message *)
  miss_page : forall r n t va f d r',
    is_u64 va -> m_miss n t va f r = (ReplyPage d, r') -> answer r n t (Z.land va PAGE_MASK) = Some d;
  miss_short : forall r n t va f len d r',
    is_u64 va -> m_miss n t va f r = (ReplyShort len d, r') -> len < PCACHE_LINE_SIZE;
  (** and changes nothing *)
  answer_miss : forall r n t va f n' t' va',
    is_u64 va -> answer (snd (m_miss n t va f r)) n' t' va' = answer r n' t' va';
  (** a miss with the flush of another page, of a known process at a user address, is
      the miss and the flush *)
  miss_flush_page : forall r n t va f t' va' d d' r',
    is_u64 va -> user_page va' -> (t, Z.land va PAGE_MASK) <> (t', va') ->
    m_miss_flush n t va f t' va' d r = (ReplyPage d', r') -> answer r n t (Z.land va PAGE_MASK) = Some d';
  miss_flush_short : forall r n t va f t' va' d len d' r',
    is_u64 va -> user_page va' -> m_miss_flush n t va f t' va' d r = (ReplyShort len d', r') ->
    exists r'', m_miss n t va f r = (ReplyShort len d', r'');
  answer_miss_flush : forall r n t va f t' va' d n'' t'' va'',
    is_u64 va -> va < TASK_SIZE -> known n t -> user_page va' ->
    answer (snd (m_miss_flush n t va f t' va' d r)) n'' t'' va'' = answer (m_flush n t' va' d r) n'' t'' va''
}.

(** The process that owns an address space: its thread group leader. *)
Class Processes (owner : Z -> task) : Prop := {
  owner_space : forall m, t_mm (owner m) = m;
  owner_leader : forall m, t_leader (owner m) = true;
  owner_inj : forall m m', t_tgid (owner m) = t_tgid (owner m') -> m = m'
}.

Section spec.
Context {R : Type} `{!MemoryNode R, !MemoryLaws R} (owner : Z -> task) `{!Processes owner}.
Abbreviation state := (pcache R).
Implicit Types (st : state) (i s m a : Z) (k : pte_ptr).

(** The memory component serves the address: it has the process, and the fault is not
    one of kernel space. *)
Definition served m (addr : Z) : Prop := addr < TASK_SIZE /\ known (t_home (owner m)) (t_tgid (owner m)).

(** ** What a process sees at page [a] *)

Definition backing st m a : option line_data :=
  answer (memory st) (t_home (owner m)) (t_tgid (owner m)) a.

(** The line that still holds the page, when it is in the eviction list of its set. *)
Definition pending st m a : option Z :=
  pee_pcm <$> List.find (fun e => (pee_address e =? a) && (t_tgid (pee_owner e) =? t_tgid (owner m)))
    (eviction_list (pset st (user_vaddr_to_set_index (geo st) a))).

Definition view st m a : option line_data :=
  let p := get_pte st (pte_offset m a) in
  if p_present p then i ← pte_to_pcache_meta p st; Some (line st i)
  else if p_zerofill p then Some zero_line
  else match pending st m a with
       | Some i => Some (line st i)
       | None => backing st m a
       end.

(** ** The invariant *)

(** A reverse mapping [r] of line [i]: its entry maps the line; the memory component
    has the page, the same as the line when the entry is clean; and a writable entry
    is the only one of the line. *)
Record rmap_ok st i (r : pcache_rmap) : Prop := {
  ro_reserved : r_reserved r = false;
  ro_pt : page_table r = pte_offset (owner_mm r) (address r);
  ro_page : user_page (address r);
  ro_owner : owner_process r = owner (owner_mm r);
  ro_set : user_vaddr_to_set_index (geo st) (address r) = i mod nr_cachesets (geo st);
  ro_present : p_present (get_pte st (page_table r)) = true;
  ro_pfn : pte_pfn (get_pte st (page_table r)) = line_pfn (geo st) i;
  ro_backing : exists d, backing st (owner_mm r) (address r) = Some d /\
    (p_dirty (get_pte st (page_table r)) = false -> d = line st i);
  ro_rw : p_rw (get_pte st (page_table r)) = true -> rmap (meta st i) = [r]
}.

(** The Used bit of the preallocated reverse mapping of the line *)
Definition slot_ok st i : Prop :=
  length (filter (fun r => r_kmalloced r = false) (rmap (meta st i))) =
  if bool_decide (i ∈ rmap_used st) then 1%nat else 0%nat.

(** The bits of a line in use; [lk] is the line that the caller has locked. *)
Definition used_bits (lk : option Z) i : gset pcache_meta_bits :=
  if decide (lk = Some i) then {[PC_locked; PC_valid]} else {[PC_valid]}.

(** A line in use: each reverse mapping counts one reference. *)
Record mapped_ok (lk : option Z) st i : Prop := {
  mo_bits : bits (meta st i) = used_bits lk i;
  mo_mapcount : mapcount (meta st i) = Z.of_nat (length (rmap (meta st i)));
  mo_ref : _refcount (meta st i) = mapcount (meta st i);
  mo_some : rmap (meta st i) <> [];
  mo_nodup : NoDup (owner_mm <$> rmap (meta st i));
  mo_rmaps : Forall (rmap_ok st i) (rmap (meta st i));
  mo_slot : slot_ok st i
}.

Definition unmapped st i : Prop :=
  mapcount (meta st i) = 0 /\ rmap (meta st i) = [] /\ i ∉ rmap_used st.

Definition free_ok st i : Prop := unmapped st i /\ _refcount (meta st i) = 0.

(** A line just allocated, not mapped yet; [o] is the page whose dirty contents it
    still has to carry to the memory component. *)
Definition held_ok st i (o : option (Z * Z)) : Prop :=
  unmapped st i /\ _refcount (meta st i) = 1 /\
  match o with
  | None => bits (meta st i) = ∅
  | Some (m, a) =>
      bits (meta st i) = {[PC_piggyback]} /\ user_page a /\
      user_vaddr_to_set_index (geo st) a = i mod nr_cachesets (geo st) /\
      pb (meta st i) = Piggyback (t_tgid (owner m)) a (t_home (owner m)) /\
      get_pte st (pte_offset m a) = pte_zero /\ is_Some (backing st m a)
  end.

(** The entries of the eviction lists: that of the page being carried, if any. *)
Definition evictions (h : option (Z * option (Z * Z))) (n s : Z) : list pset_eviction_entry :=
  match h with
  | Some (i, Some (m, a)) => if i mod n =? s then [Pee false a (owner m) i] else []
  | _ => []
  end.

Record set_ok (h : option (Z * option (Z * Z))) st s : Prop := {
  so_nodup : NoDup (free_head (pset st s) ++ lru_list (pset st s));
  so_lines : forall i, i ∈ free_head (pset st s) ++ lru_list (pset st s) <->
                       in_lines (geo st) i /\ i mod nr_cachesets (geo st) = s;
  so_evicting : evicting (pset st s) = false;
  so_nr_lru : nr_lru (pset st s) = Z.of_nat (length (lru_list (pset st s)));
  so_evictions : eviction_list (pset st s) = evictions h (nr_cachesets (geo st)) s;
  so_nr_evictions : nr_eviction_entries (pset st s) = Z.of_nat (length (eviction_list (pset st s)))
}.

(** An entry that is not present is empty, or marks a page that the memory component
    would give as zeroes. *)
Definition absent_ok st m a : Prop :=
  let p := get_pte st (pte_offset m a) in
  p = pte_zero \/ p = pte_mkzerofill pte_zero /\ backing st m a = Some zero_line.

(** [lk]: the line that the caller has locked; [h]: the line that it holds,
    allocated and not mapped. *)
Record wf (lk : option Z) (h : option (Z * option (Z * Z))) st : Prop := {
  wf_geo : geom_wf (geo st);
  wf_metas : forall i, in_lines (geo st) i -> is_Some (metas st !! i);
  wf_psets : forall s, in_sets (geo st) s -> is_Some (psets st !! s);
  wf_sets : forall s, in_sets (geo st) s -> set_ok h st s;
  wf_free : forall s i, in_sets (geo st) s -> i ∈ free_head (pset st s) -> free_ok st i;
  wf_lru : forall s i, in_sets (geo st) s -> i ∈ lru_list (pset st s) ->
           fst <$> h <> Some i -> mapped_ok lk st i;
  wf_held : forall i o, h = Some (i, o) ->
            in_lines (geo st) i /\ i ∈ lru_list (pset st (i mod nr_cachesets (geo st))) /\ held_ok st i o;
  wf_present : forall k, p_present (get_pte st k) = true ->
               exists i r, in_lines (geo st) i /\ r ∈ rmap (meta st i) /\ page_table r = k;
  wf_absent : forall m a, user_page a -> p_present (get_pte st (pte_offset m a)) = false ->
              absent_ok st m a;
  wf_piggybacker : piggybacker st = None;
  wf_pee : pee_used st = match h with Some (i, Some _) => {[i]} | _ => ∅ end
}.
End spec.
