(* ===== verification/PcacheSteps.v ===== *)
(** * Pcache: evaluating the operations

    Every update of a line or of a set is a write of its whole record ([setm], [setp]);
    the rules of the rewriting base [pc] bring a sequence of operations on one line
    and one set to one write of each. *)

From stdpp Require Import gmap fin_sets.
From S2P Require Import Prelude VmaModel PcacheGeom PcacheModel PcacheSpec.

Section steps.
Context {R : Type} `{!MemoryNode R}.
Abbreviation state := (pcache R).
Implicit Types (st : state) (i s : Z) (k : pte_ptr).

Definition setm i (M : pcache_meta) st : state := upd_meta i (fun _ => M) st.
Definition setp s (P : pcache_set) st : state := upd_pset s (fun _ => P) st.

Lemma upd_meta_setm i f st : upd_meta i f st = setm i (f (meta st i)) st.
Proof. done. Qed.
Lemma upd_pset_setp s f st : upd_pset s f st = setp s (f (pset st s)) st.
Proof. done. Qed.

Lemma meta_setm i M st : meta (setm i M st) i = M.
Proof. unfold meta, setm, upd_meta. simpl. by rewrite lookup_insert_eq. Qed.
Lemma meta_setm_ne i j M st : i <> j -> meta (setm i M st) j = meta st j.
Proof. intros. unfold meta, setm, upd_meta. simpl. by rewrite lookup_insert_ne. Qed.
Lemma pset_setp s P st : pset (setp s P st) s = P.
Proof. unfold pset, setp, upd_pset. simpl. by rewrite lookup_insert_eq. Qed.
Lemma pset_setp_ne s s' P st : s <> s' -> pset (setp s P st) s' = pset st s'.
Proof. intros. unfold pset, setp, upd_pset. simpl. by rewrite lookup_insert_ne. Qed.

Lemma setm_setm i M M' st : setm i M (setm i M' st) = setm i M st.
Proof. unfold setm, upd_meta. simpl. by rewrite insert_insert_eq. Qed.
Lemma setp_setp s P P' st : setp s P (setp s P' st) = setp s P st.
Proof. unfold setp, upd_pset. simpl. by rewrite insert_insert_eq. Qed.
Lemma setm_comm i j M M' st : i <> j -> setm i M (setm j M' st) = setm j M' (setm i M st).
Proof. intros. unfold setm, upd_meta. simpl. by rewrite insert_insert_ne. Qed.

(** The canonical order: lines outermost, then sets. *)
Lemma meta_setp s P st i : meta (setp s P st) i = meta st i.
Proof. done. Qed.
Lemma pset_setm i M st s : pset (setm i M st) s = pset st s.
Proof. done. Qed.
Lemma setp_setm s P i M st : setp s P (setm i M st) = setm i M (setp s P st).
Proof. done. Qed.

Lemma get_pte_set k p st : get_pte (pte_set k p st) k = p.
Proof. unfold get_pte, pte_set. simpl. by rewrite lookup_insert_eq. Qed.
Lemma get_pte_set_ne k k' p st : k <> k' -> get_pte (pte_set k p st) k' = get_pte st k'.
Proof. intros. unfold get_pte, pte_set. simpl. by rewrite lookup_insert_ne. Qed.
Lemma line_set_line i d st : line (set_line i d st) i = d.
Proof. unfold line, set_line. simpl. by rewrite lookup_insert_eq. Qed.
Lemma line_set_line_ne i j d st : i <> j -> line (set_line i d st) j = line st j.
Proof. intros. unfold line, set_line. simpl. by rewrite lookup_insert_ne. Qed.

(** Operations on the bits and counters of a line whose record is known. *)
Lemma PcacheBit_setm b i M st : PcacheBit b i (setm i M st) = bool_decide (b ∈ bits M).
Proof. unfold PcacheBit. by rewrite meta_setm. Qed.
Lemma SetPcache_setm b i st :
  SetPcache b i st = setm i (with_bits ({[b]} ∪ bits (meta st i)) (meta st i)) st.
Proof. done. Qed.
Lemma ClearPcache_setm b i st :
  ClearPcache b i st = setm i (with_bits (bits (meta st i) ∖ {[b]}) (meta st i)) st.
Proof. done. Qed.
Lemma ref_set_setm i v st : pcache_ref_count_set i v st = setm i (with_refcount v (meta st i)) st.
Proof. done. Qed.
Lemma map_set_setm i v st : pcache_mapcount_set i v st = setm i (with_mapcount v (meta st i)) st.
Proof. done. Qed.
Lemma ref_count_setm i M st : pcache_ref_count i (setm i M st) = _refcount M.
Proof. unfold pcache_ref_count. by rewrite meta_setm. Qed.
Lemma mapcount_setm i M st : pcache_mapcount i (setm i M st) = mapcount M.
Proof. unfold pcache_mapcount. by rewrite meta_setm. Qed.
Lemma mapped_setm i M st : pcache_mapped i (setm i M st) = (0 <? mapcount M).
Proof. unfold pcache_mapped. by rewrite mapcount_setm. Qed.

(** Writing back what is there. *)
Lemma setm_id i st : is_Some (metas st !! i) -> setm i (meta st i) st = st.
Proof.
  intros [M HM]. unfold setm, upd_meta, meta. rewrite HM. simpl. rewrite insert_id by done.
  by destruct st.
Qed.
Lemma setm_same i M st : is_Some (metas st !! i) -> meta st i = M -> setm i M st = st.
Proof. intros ? <-. by apply setm_id. Qed.
Lemma setp_id s st : is_Some (psets st !! s) -> setp s (pset st s) st = st.
Proof.
  intros [P HP]. unfold setp, upd_pset, pset. rewrite HP. simpl. rewrite insert_id by done.
  by destruct st.
Qed.
Lemma setp_same s P st : is_Some (psets st !! s) -> pset st s = P -> setp s P st = st.
Proof. intros ? <-. by apply setp_id. Qed.
Lemma pee_used_id st : set_pee_used (pee_used st) st = st.
Proof. by destruct st. Qed.
Lemma rmap_used_id st : set_rmap_used (rmap_used st) st = st.
Proof. by destruct st. Qed.
Lemma set_pee_set_pee u u' st : set_pee_used u (set_pee_used u' st) = set_pee_used u st.
Proof. done. Qed.

(** Moving the writes of lines and sets outwards *)
Lemma pte_set_setm k p i M st : pte_set k p (setm i M st) = setm i M (pte_set k p st).
Proof. done. Qed.
Lemma pte_set_setp k p s P st : pte_set k p (setp s P st) = setp s P (pte_set k p st).
Proof. done. Qed.
Lemma set_line_setm j d i M st : set_line j d (setm i M st) = setm i M (set_line j d st).
Proof. done. Qed.
Lemma set_line_setp j d s P st : set_line j d (setp s P st) = setp s P (set_line j d st).
Proof. done. Qed.
Lemma set_rmap_used_setm u i M st : set_rmap_used u (setm i M st) = setm i M (set_rmap_used u st).
Proof. done. Qed.
Lemma set_rmap_used_setp u s P st : set_rmap_used u (setp s P st) = setp s P (set_rmap_used u st).
Proof. done. Qed.
Lemma set_pee_used_setm u i M st : set_pee_used u (setm i M st) = setm i M (set_pee_used u st).
Proof. done. Qed.
Lemma set_pee_used_setp u s P st : set_pee_used u (setp s P st) = setp s P (set_pee_used u st).
Proof. done. Qed.
Lemma set_memory_setm r i M st : set_memory r (setm i M st) = setm i M (set_memory r st).
Proof. done. Qed.
Lemma set_memory_setp r s P st : set_memory r (setp s P st) = setp s P (set_memory r st).
Proof. done. Qed.
Lemma set_piggybacker_setm o i M st : set_piggybacker o (setm i M st) = setm i M (set_piggybacker o st).
Proof. done. Qed.
Lemma set_piggybacker_setp o s P st : set_piggybacker o (setp s P st) = setp s P (set_piggybacker o st).
Proof. done. Qed.

Lemma set_kz_setm l i M st : set_kz l (setm i M st) = setm i M (set_kz l st).
Proof. done. Qed.
Lemma set_kz_setp l s P st : set_kz l (setp s P st) = setp s P (set_kz l st).
Proof. done. Qed.
Lemma meta_set_kz l st i : meta (set_kz l st) i = meta st i.
Proof. done. Qed.
Lemma pset_set_kz l st s : pset (set_kz l st) s = pset st s.
Proof. done. Qed.

(** The updates of the other fields leave lines and sets alone. *)
Lemma meta_pte_set k p st i : meta (pte_set k p st) i = meta st i.
Proof. done. Qed.
Lemma pset_pte_set k p st s : pset (pte_set k p st) s = pset st s.
Proof. done. Qed.
Lemma meta_set_line j d st i : meta (set_line j d st) i = meta st i.
Proof. done. Qed.
Lemma pset_set_line j d st s : pset (set_line j d st) s = pset st s.
Proof. done. Qed.
Lemma meta_set_rmap_used u st i : meta (set_rmap_used u st) i = meta st i.
Proof. done. Qed.
Lemma pset_set_rmap_used u st s : pset (set_rmap_used u st) s = pset st s.
Proof. done. Qed.
Lemma meta_set_pee_used u st i : meta (set_pee_used u st) i = meta st i.
Proof. done. Qed.
Lemma pset_set_pee_used u st s : pset (set_pee_used u st) s = pset st s.
Proof. done. Qed.
Lemma meta_set_memory r st i : meta (set_memory r st) i = meta st i.
Proof. done. Qed.
Lemma pset_set_memory r st s : pset (set_memory r st) s = pset st s.
Proof. done. Qed.
Lemma meta_set_piggybacker o st i : meta (set_piggybacker o st) i = meta st i.
Proof. done. Qed.
Lemma pset_set_piggybacker o st s : pset (set_piggybacker o st) s = pset st s.
Proof. done. Qed.
End steps.

Create Rewrite HintDb pc.
#[export] Hint Rewrite @upd_meta_setm @upd_pset_setp @meta_setm @pset_setp @setm_setm @setp_setp
  @meta_setp @pset_setm @setp_setm @SetPcache_setm @ClearPcache_setm @ref_set_setm @map_set_setm
  @PcacheBit_setm @ref_count_setm @mapcount_setm @mapped_setm
  @pte_set_setm @pte_set_setp @set_line_setm @set_line_setp @set_rmap_used_setm @set_rmap_used_setp
  @set_pee_used_setm @set_pee_used_setp @set_memory_setm @set_memory_setp
  @set_piggybacker_setm @set_piggybacker_setp @set_kz_setm @set_kz_setp @meta_set_kz @pset_set_kz
  @meta_pte_set @pset_pte_set @meta_set_line @pset_set_line @meta_set_rmap_used @pset_set_rmap_used
  @meta_set_pee_used @pset_set_pee_used @meta_set_memory @pset_set_memory @meta_set_piggybacker @pset_set_piggybacker : pc.

(** Decide the tests of bits of sets written out. *)
Ltac bits_literal B :=
  lazymatch B with
  | ∅ => idtac
  | {[ ?b ]} => idtac
  | ?X ∪ ?Y => bits_literal X; bits_literal Y
  | ?X ∖ ?Y => bits_literal X; bits_literal Y
  end.

Ltac pc_bits :=
  cbn [bits mapcount _refcount rmap pb];
  repeat match goal with
  | |- context [bool_decide (@elem_of pcache_meta_bits _ _ ?b ?B)] =>
      bits_literal B;
      let v := eval vm_compute in (bool_decide (b ∈ B)) in
      change (bool_decide (b ∈ B)) with v
  end.

(** The rules match the updates by name, without unfolding them. *)
Tactic Notation "pc_rewrite" :=
  with_strategy opaque [setm setp upd_meta upd_pset pte_set set_line set_rmap_used set_pee_used
    set_memory set_piggybacker set_kz SetPcache ClearPcache pcache_ref_count_set pcache_mapcount_set
    meta pset PcacheBit pcache_ref_count pcache_mapcount pcache_mapped]
    (autorewrite with pc).

(** Evaluate a sequence of operations on lines whose records are known. *)
Ltac pc_eval :=
  repeat (progress (pc_rewrite; pc_bits;
    unfold with_bits, with_mapcount, with_refcount, with_rmap, with_pb; simpl)).

(** Equality of two states built by updates: field by field. *)
Ltac pc_same :=
  cbv beta iota delta [setm setp upd_meta upd_pset pte_set pte_clear set_line set_rmap_used set_pee_used
    set_memory set_piggybacker set_kz geo metas psets lines rmap_used pee_used piggybacker ptes memory
    kz warned with_free with_lru with_evictions with_evicting with_bits with_mapcount with_refcount
    with_rmap with_pb evicting free_head lru_list nr_lru eviction_list nr_eviction_entries
    bits mapcount _refcount rmap pb];
  repeat match goal with
  | |- ?x = ?x => exact eq_refl
  | |- @eq (gset pcache_meta_bits) _ _ => vm_compute; exact eq_refl
  | |- @eq Z _ _ => lia
  | |- Some _ = Some _ => f_equal
  | |- (_, _) = (_, _) => f_equal
  | |- <[_ := _]> _ = <[_ := _]> _ => f_equal
  | |- Meta _ _ _ _ _ = Meta _ _ _ _ _ => f_equal
  | |- Pset _ _ _ _ _ _ = Pset _ _ _ _ _ _ => f_equal
  | |- Pcache _ _ _ _ _ _ _ _ _ _ _ _ = Pcache _ _ _ _ _ _ _ _ _ _ _ _ => f_equal
  end.
