(* ===== verification/PcacheInv.v ===== *)
(** * Pcache: consequences of the invariant

    Where a line is, what its record is, which line an entry maps, and how the
    invariant of a line survives changes elsewhere. *)

From stdpp Require Import gmap fin_sets.
From S2P Require Import Prelude VmaModel PcacheGeom PcacheModel PcacheSpec PcacheSteps.

Section inv.
Context {R : Type} `{!MemoryNode R, !MemoryLaws R} (owner : Z -> task) `{!Processes owner}.
Abbreviation state := (pcache R).
Abbreviation wf := (PcacheSpec.wf owner).
Abbreviation mapped_ok := (PcacheSpec.mapped_ok owner).
Abbreviation rmap_ok := (PcacheSpec.rmap_ok owner).
Implicit Types (st : state) (i s m a : Z) (k : pte_ptr) (lk : option Z) (h : option (Z * option (Z * Z))).

Definition set_of st i : Z := i mod nr_cachesets (geo st).

Lemma set_of_in lk h st i : wf lk h st -> in_lines (geo st) i -> in_sets (geo st) (set_of st i).
Proof. intros Hw Hi. apply line_set; [apply (wf_geo _ _ _ _ Hw)|done]. Qed.

Lemma lru_line lk h st s i :
  wf lk h st -> in_sets (geo st) s -> i ∈ lru_list (pset st s) -> in_lines (geo st) i /\ set_of st i = s.
Proof.
  intros Hw Hs Hi. apply (so_lines _ _ _ _ (wf_sets _ _ _ _ Hw s Hs)), elem_of_app. by right.
Qed.

Lemma free_line lk h st s i :
  wf lk h st -> in_sets (geo st) s -> i ∈ free_head (pset st s) -> in_lines (geo st) i /\ set_of st i = s.
Proof.
  intros Hw Hs Hi. apply (so_lines _ _ _ _ (wf_sets _ _ _ _ Hw s Hs)), elem_of_app. by left.
Qed.

(** Every line is free, held or mapped. *)
Lemma line_cases lk h st i :
  wf lk h st -> in_lines (geo st) i ->
  (i ∈ free_head (pset st (set_of st i)) /\ free_ok st i) \/
  (exists o, h = Some (i, o) /\ held_ok owner st i o) \/
  (i ∈ lru_list (pset st (set_of st i)) /\ fst <$> h <> Some i /\ mapped_ok lk st i).
Proof.
  intros Hw Hi. pose proof (set_of_in _ _ _ _ Hw Hi) as Hs.
  pose proof (proj2 (so_lines _ _ _ _ (wf_sets _ _ _ _ Hw _ Hs) i) (conj Hi eq_refl)) as [Hf|Hl]%elem_of_app.
  - left. split; [done|]. by eapply (wf_free _ _ _ _ Hw).
  - right. destruct (decide (fst <$> h = Some i)) as [Hh|Hh].
    + left. destruct h as [[j o]|]; simplify_eq/=. exists o. split; [done|]. by apply (wf_held _ _ _ _ Hw).
    + right. split_and!; try done. by eapply (wf_lru _ _ _ _ Hw).
Qed.

(** A line with reverse mappings is mapped. *)
Lemma rmap_line lk h st i r :
  wf lk h st -> in_lines (geo st) i -> r ∈ rmap (meta st i) ->
  i ∈ lru_list (pset st (set_of st i)) /\ fst <$> h <> Some i /\ mapped_ok lk st i /\ rmap_ok st i r.
Proof.
  intros Hw Hi Hr. destruct (line_cases _ _ _ _ Hw Hi) as [[_ [[_ [He _]] _]]|[(o & -> & [[_ [He _]] _])|(Hl & Hh & Hm)]];
    [rewrite He in Hr; by apply not_elem_of_nil in Hr..|].
  split_and!; try done. by apply (proj1 (list.Forall_forall _ _) (mo_rmaps _ _ _ _ Hm)).
Qed.

Lemma mapped_meta lk st i :
  mapped_ok lk st i ->
  meta st i = Meta (used_bits lk i) (Z.of_nat (length (rmap (meta st i)))) (Z.of_nat (length (rmap (meta st i))))
                (rmap (meta st i)) (pb (meta st i)).
Proof. intros [Hb Hc Hr _ _ _ _]. destruct (meta st i) as [b mc rc rm p]; simpl in *. by subst. Qed.

(** Two lines are never mapped by the same entry. *)
Lemma rmap_unique lk h st i j r r' :
  wf lk h st -> in_lines (geo st) i -> in_lines (geo st) j ->
  r ∈ rmap (meta st i) -> r' ∈ rmap (meta st j) -> page_table r = page_table r' -> i = j.
Proof.
  intros Hw Hi Hj Hr Hr' He.
  destruct (rmap_line _ _ _ _ _ Hw Hi Hr) as (_ & _ & _ & Ho).
  destruct (rmap_line _ _ _ _ _ Hw Hj Hr') as (_ & _ & _ & Ho').
  apply (line_pfn_inj (geo st)). rewrite <- (ro_pfn _ _ _ _ Ho), <- (ro_pfn _ _ _ _ Ho'). by rewrite He.
Qed.

(** The entry of a page, and the page of an entry *)
Lemma pte_offset_inj m a m' a' :
  user_page a -> user_page a' -> pte_offset m a = pte_offset m' a' -> m = m' /\ a = a'.
Proof.
  intros [Ha Hp] [Ha' Hp'] He. unfold pte_offset in He. injection He as -> He. split; [done|].
  unfold page_aligned in *. change PAGE_SHIFT with 12 in He. rewrite !Z.shiftr_div_pow2 in He by lia.
  rewrite PAGE_SIZE_eq in *. pose proof (Z.div_mod a 4096). pose proof (Z.div_mod a' 4096).
  change (2 ^ 12) with 4096 in He. lia.
Qed.

(** Within a line, reverse mappings are told apart by their address space. *)
Lemma rmap_same_mm lk st i r r' :
  mapped_ok lk st i -> r ∈ rmap (meta st i) -> r' ∈ rmap (meta st i) -> owner_mm r = owner_mm r' -> r = r'.
Proof.
  intros Hm Hr Hr' He. apply list_elem_of_lookup in Hr as [x Hx]. apply list_elem_of_lookup in Hr' as [y Hy].
  assert (x = y); [|congruence].
  eapply (NoDup_lookup (owner_mm <$> rmap (meta st i))); [apply (mo_nodup _ _ _ _ Hm)|..];
    rewrite list_lookup_fmap; [by rewrite Hx|rewrite Hy; simpl; by rewrite He].
Qed.

(** The entry of a reverse mapping leads back to its line. *)
Lemma rmap_pte_meta lk h st i r :
  wf lk h st -> in_lines (geo st) i -> r ∈ rmap (meta st i) ->
  pte_to_pcache_meta (get_pte st (page_table r)) st = Some i.
Proof.
  intros Hw Hi Hr. destruct (rmap_line _ _ _ _ _ Hw Hi Hr) as (_ & _ & _ & Ho).
  unfold pte_to_pcache_meta. rewrite (ro_pfn _ _ _ _ Ho). apply pfn_meta; [apply (wf_geo _ _ _ _ Hw)|done].
Qed.

(** ** Frames *)

Lemma rmap_ok_frame st st' i r :
  geo st' = geo st -> rmap (meta st' i) = rmap (meta st i) -> line st' i = line st i ->
  get_pte st' (page_table r) = get_pte st (page_table r) ->
  backing owner st' (owner_mm r) (address r) = backing owner st (owner_mm r) (address r) ->
  rmap_ok st i r -> rmap_ok st' i r.
Proof. intros Hg Hm Hl Hp Hb []. by split; rewrite ?Hg, ?Hm, ?Hp, ?Hb, ?Hl. Qed.

Lemma mapped_ok_frame lk st st' i :
  geo st' = geo st -> meta st' i = meta st i -> line st' i = line st i ->
  (i ∈ rmap_used st' <-> i ∈ rmap_used st) ->
  (forall r, r ∈ rmap (meta st i) ->
     get_pte st' (page_table r) = get_pte st (page_table r) /\
     backing owner st' (owner_mm r) (address r) = backing owner st (owner_mm r) (address r)) ->
  mapped_ok lk st i -> mapped_ok lk st' i.
Proof.
  intros Hg Hm Hl Hu Hr [? ? ? ? ? HF Hs]. split; rewrite ?Hm; try done.
  - apply list.Forall_forall. intros r Hin. destruct (Hr r Hin) as [? ?].
    apply (rmap_ok_frame st); rewrite ?Hm; try done. by apply (proj1 (list.Forall_forall _ _) HF).
  - unfold slot_ok in *. rewrite Hm, Hs.
    by destruct (decide (i ∈ rmap_used st)); [rewrite !bool_decide_eq_true_2 by naive_solver|
      rewrite !bool_decide_eq_false_2 by naive_solver].
Qed.

Lemma unmapped_frame st st' i :
  meta st' i = meta st i -> (i ∈ rmap_used st' <-> i ∈ rmap_used st) -> unmapped st i -> unmapped st' i.
Proof. intros Hm Hu (? & ? & ?). unfold unmapped. rewrite Hm. naive_solver. Qed.

Lemma free_ok_frame st st' i :
  meta st' i = meta st i -> (i ∈ rmap_used st' <-> i ∈ rmap_used st) -> free_ok st i -> free_ok st' i.
Proof. intros Hm Hu [? ?]. split; [by apply (unmapped_frame st)|by rewrite Hm]. Qed.

(** A line whose preallocated reverse mapping is not used has no reverse mapping
    outside [kzalloc]; a line with one reverse mapping uses it or a Kmalloced one. *)
Lemma slot_single st i r :
  slot_ok st i -> rmap (meta st i) = [r] -> r_kmalloced r = false -> i ∈ rmap_used st.
Proof.
  unfold slot_ok. intros Hs Hr Hk. rewrite Hr, filter_cons_True in Hs by done. simpl in Hs.
  by destruct (bool_decide_reflect (i ∈ rmap_used st)).
Qed.
Lemma slot_single_kmalloced st i r :
  slot_ok st i -> rmap (meta st i) = [r] -> r_kmalloced r = true -> i ∉ rmap_used st.
Proof.
  unfold slot_ok. intros Hs Hr Hk. rewrite Hr, filter_cons_False in Hs by (by rewrite Hk). simpl in Hs.
  by destruct (bool_decide_reflect (i ∈ rmap_used st)).
Qed.

(** ** Changing one line *)

(** [st'] differs from [st] in line [i] and its set only; the entries and the pages of
    the memory component that belong to other lines are the same. *)
Record changed i st st' : Prop := {
  ch_geo : geo st' = geo st;
  ch_meta : forall j, j <> i -> meta st' j = meta st j;
  ch_line : forall j, j <> i -> line st' j = line st j;
  ch_used : forall j, j <> i -> j ∈ rmap_used st' <-> j ∈ rmap_used st;
  ch_pset : forall s, s <> set_of st i -> pset st' s = pset st s;
  ch_metas : forall j, is_Some (metas st !! j) -> is_Some (metas st' !! j);
  ch_psets : forall s, is_Some (psets st !! s) -> is_Some (psets st' !! s);
  ch_rmaps : forall j r, j <> i -> in_lines (geo st) j -> r ∈ rmap (meta st j) ->
    get_pte st' (page_table r) = get_pte st (page_table r) /\
    backing owner st' (owner_mm r) (address r) = backing owner st (owner_mm r) (address r)
}.

Lemma changed_intro i M P st st0 :
  geo st0 = geo st -> metas st0 = metas st -> psets st0 = psets st ->
  (forall j, j <> i -> line st0 j = line st j) ->
  (forall j, j <> i -> j ∈ rmap_used st0 <-> j ∈ rmap_used st) ->
  (forall j r, j <> i -> in_lines (geo st) j -> r ∈ rmap (meta st j) ->
    get_pte st0 (page_table r) = get_pte st (page_table r) /\
    backing owner st0 (owner_mm r) (address r) = backing owner st (owner_mm r) (address r)) ->
  changed i st (setm i M (setp (set_of st i) P st0)).
Proof.
  intros Hg Hm Hps Hl Hu Hr. split; try done.
  - intros j Hj. rewrite meta_setm_ne, meta_setp by done. unfold meta. by rewrite Hm.
  - intros s Hs. rewrite pset_setm, pset_setp_ne by done. unfold pset. by rewrite Hps.
  - intros j Hj. simpl. destruct (decide (j = i)) as [->|]; [by rewrite lookup_insert_eq|].
    rewrite lookup_insert_ne by done. by rewrite Hm.
  - intros s Hs. simpl. destruct (decide (s = set_of st i)) as [->|]; [by rewrite lookup_insert_eq|].
    rewrite lookup_insert_ne by done. by rewrite Hps.
Qed.

Lemma changed_trans i st st1 st2 : changed i st st1 -> changed i st1 st2 -> changed i st st2.
Proof.
  intros H1 H2. pose proof (ch_geo _ _ _ H1) as Hg.
  assert (Hs : set_of st1 i = set_of st i) by (unfold set_of; by rewrite Hg). split.
  - by rewrite (ch_geo _ _ _ H2).
  - intros j Hj. by rewrite (ch_meta _ _ _ H2), (ch_meta _ _ _ H1).
  - intros j Hj. by rewrite (ch_line _ _ _ H2), (ch_line _ _ _ H1).
  - intros j Hj. by rewrite (ch_used _ _ _ H2), (ch_used _ _ _ H1).
  - intros s Hne. by rewrite (ch_pset _ _ _ H2), (ch_pset _ _ _ H1) by congruence.
  - intros j Hj. by apply (ch_metas _ _ _ H2), (ch_metas _ _ _ H1).
  - intros s Hd. by apply (ch_psets _ _ _ H2), (ch_psets _ _ _ H1).
  - intros j r Hj Hin Hr. destruct (ch_rmaps _ _ _ H1 j r Hj Hin Hr) as [<- <-].
    apply (ch_rmaps _ _ _ H2 j); [done|by rewrite Hg|by rewrite (ch_meta _ _ _ H1)].
Qed.

(** The invariant after a change of line [i]: what has to be shown of that line, of
    its set and of the entries. *)
Definition held_by (i : Z) h : Prop := fst <$> h = None \/ fst <$> h = Some i.

(** The held line before and after: none or [i]; or another one, which stays held. *)
Definition held_change i h h' : Prop :=
  (held_by i h /\ held_by i h') \/ (h' = h /\ exists j, j <> i /\ h = Some (j, None)).

Record line_goal lk' h h' i st st' : Prop := {
  lg_set : set_ok owner h' st' (set_of st i);
  lg_free : forall j, j <> i -> j ∈ free_head (pset st' (set_of st i)) -> j ∈ free_head (pset st (set_of st i));
  lg_lru : forall j, j <> i -> j ∈ lru_list (pset st' (set_of st i)) <-> j ∈ lru_list (pset st (set_of st i));
  lg_is_free : i ∈ free_head (pset st' (set_of st i)) -> free_ok st' i;
  lg_is_mapped : i ∈ lru_list (pset st' (set_of st i)) -> fst <$> h' <> Some i -> mapped_ok lk' st' i;
  lg_is_held : forall o, h' = Some (i, o) -> i ∈ lru_list (pset st' (set_of st i)) /\ held_ok owner st' i o;
  lg_held : held_change i h h';
  lg_present : forall k, p_present (get_pte st' k) = true ->
    (exists r, r ∈ rmap (meta st' i) /\ page_table r = k) \/
    (get_pte st' k = get_pte st k /\ forall r, r ∈ rmap (meta st i) -> page_table r <> k);
  lg_absent : forall m a, user_page a -> p_present (get_pte st' (pte_offset m a)) = false ->
    absent_ok owner st' m a;
  lg_piggybacker : piggybacker st' = None;
  lg_pee : pee_used st' = match h' with Some (j, Some _) => {[j]} | _ => ∅ end
}.

Lemma evictions_other h st i s :
  held_by i h -> s <> set_of st i -> evictions owner h (nr_cachesets (geo st)) s = [].
Proof.
  unfold held_by. intros Hh Hs. destruct h as [[j [[m a]|]]|]; simpl; try done. destruct Hh as [|[= ->]]; [done|].
  fold (set_of st i). by rewrite (proj2 (Z.eqb_neq _ _)).
Qed.

Section change.
Context lk h lk' h' i st st' (Hw : wf lk h st) (Hi : in_lines (geo st) i) (Hc : changed i st st')
  (Hb : forall j, j <> i -> used_bits lk' j = used_bits lk j) (Hgl : line_goal lk' h h' i st st').

Lemma change_mapped j : j <> i -> in_lines (geo st) j -> mapped_ok lk st j -> mapped_ok lk' st' j.
Proof using All.
  clear Processes0. intros Hj Hin Hm. apply (mapped_ok_frame lk' st); [apply (ch_geo _ _ _ Hc)|by apply (ch_meta _ _ _ Hc)|
    by apply (ch_line _ _ _ Hc)|by apply (ch_used _ _ _ Hc)|intros r Hr; by apply (ch_rmaps _ _ _ Hc j)|].
  destruct Hm as [Hbits ? ? ? ? ? ?]. split; try done. by rewrite Hb.
Qed.

Lemma change_sets s : in_sets (geo st') s -> set_ok owner h' st' s.
Proof using All.
  pose proof (ch_geo _ _ _ Hc) as Hg. rewrite Hg. intros Hs.
  destruct (decide (s = set_of st i)) as [->|Hne]; [apply (lg_set _ _ _ _ _ _ Hgl)|].
  destruct (wf_sets _ _ _ _ Hw s Hs). pose proof (ch_pset _ _ _ Hc s Hne) as He.
  split; rewrite ?He, ?Hg; try done.
  destruct (lg_held _ _ _ _ _ _ Hgl) as [[Ho Ho']|[-> _]]; [|done].
  by rewrite (evictions_other h' st i), <- (evictions_other h st i s).
Qed.

Lemma change_free s j : in_sets (geo st') s -> j ∈ free_head (pset st' s) -> free_ok st' j.
Proof using All.
  rewrite (ch_geo _ _ _ Hc). intros Hs Hin. destruct (decide (j = i)) as [->|Hji].
  - destruct (decide (s = set_of st i)) as [->|Hne]; [by apply (lg_is_free _ _ _ _ _ _ Hgl)|].
    rewrite (ch_pset _ _ _ Hc s Hne) in Hin. by destruct (free_line _ _ _ _ _ Hw Hs Hin).
  - apply (free_ok_frame st); [by apply (ch_meta _ _ _ Hc)|by apply (ch_used _ _ _ Hc)|].
    apply (wf_free _ _ _ _ Hw s j Hs). destruct (decide (s = set_of st i)) as [->|Hne].
    + by apply (lg_free _ _ _ _ _ _ Hgl).
    + by rewrite (ch_pset _ _ _ Hc s Hne) in Hin.
Qed.

Lemma change_lru s j :
  in_sets (geo st') s -> j ∈ lru_list (pset st' s) -> fst <$> h' <> Some j -> mapped_ok lk' st' j.
Proof using All.
  rewrite (ch_geo _ _ _ Hc). intros Hs Hin Hh. destruct (decide (j = i)) as [->|Hji].
  - destruct (decide (s = set_of st i)) as [->|Hne]; [by apply (lg_is_mapped _ _ _ _ _ _ Hgl)|].
    rewrite (ch_pset _ _ _ Hc s Hne) in Hin. by destruct (lru_line _ _ _ _ _ Hw Hs Hin).
  - assert (Hin' : j ∈ lru_list (pset st s)).
    { destruct (decide (s = set_of st i)) as [->|Hne]; [by apply (lg_lru _ _ _ _ _ _ Hgl)|].
      by rewrite (ch_pset _ _ _ Hc s Hne) in Hin. }
    destruct (lru_line _ _ _ _ _ Hw Hs Hin') as [Hjl _]. apply change_mapped; [done|done|].
    apply (wf_lru _ _ _ _ Hw s j Hs Hin'). destruct (lg_held _ _ _ _ _ _ Hgl) as [[[?|?] _]|[<- _]]; congruence.
Qed.

Lemma change_held j o :
  h' = Some (j, o) ->
  in_lines (geo st') j /\ j ∈ lru_list (pset st' (j mod nr_cachesets (geo st'))) /\ held_ok owner st' j o.
Proof using All.
  rewrite (ch_geo _ _ _ Hc). intros Hh. destruct (lg_held _ _ _ _ _ _ Hgl) as [[_ Ho]|[He (j' & Hji & Hh')]].
  - rewrite Hh in Ho. destruct Ho as [|[= ->]]; [done|]. split; [done|]. by apply (lg_is_held _ _ _ _ _ _ Hgl).
  - rewrite He in Hh. rewrite Hh' in Hh. injection Hh as -> <-.
    destruct (wf_held _ _ _ _ Hw j None Hh') as (Hj & Hl & [Hu [Hr Hbits]]). split; [done|].
    fold (set_of st j) in *. split.
    + destruct (decide (set_of st j = set_of st i)) as [E|Hne]; [|by rewrite (ch_pset _ _ _ Hc)].
      rewrite E in *. by apply (lg_lru _ _ _ _ _ _ Hgl).
    + pose proof (ch_meta _ _ _ Hc j Hji) as Hm. split; [|by rewrite Hm].
      apply (unmapped_frame st); [done|by apply (ch_used _ _ _ Hc)|done].
Qed.

Lemma wf_change : wf lk' h' st'.
Proof using All.
  pose proof (ch_geo _ _ _ Hc) as Hg. split; try (rewrite Hg).
  - apply (wf_geo _ _ _ _ Hw).
  - intros j Hj. by apply (ch_metas _ _ _ Hc), (wf_metas _ _ _ _ Hw).
  - intros s Hs. by apply (ch_psets _ _ _ Hc), (wf_psets _ _ _ _ Hw).
  - rewrite <- Hg. apply change_sets.
  - rewrite <- Hg. apply change_free.
  - rewrite <- Hg. apply change_lru.
  - rewrite <- Hg. apply change_held.
  - intros k Hk. destruct (lg_present _ _ _ _ _ _ Hgl k Hk) as [(r & Hr & He)|[He Hne]]; [by exists i, r|].
    rewrite He in Hk. destruct (wf_present _ _ _ _ Hw k Hk) as (j & r & Hj & Hr & Hp).
    destruct (decide (j = i)) as [->|Hji]; [by destruct (Hne r Hr)|].
    exists j, r. by rewrite (ch_meta _ _ _ Hc j Hji).
  - apply (lg_absent _ _ _ _ _ _ Hgl).
  - apply (lg_piggybacker _ _ _ _ _ _ Hgl).
  - apply (lg_pee _ _ _ _ _ _ Hgl).
Qed.
End change.

(** ** Lists of lines *)

(** A set whose lines are the same as before, in other lists *)
Lemma set_ok_perm h h' st st' s :
  set_ok owner h st s -> geo st' = geo st -> evicting (pset st' s) = false ->
  free_head (pset st' s) ++ lru_list (pset st' s) ≡ₚ free_head (pset st s) ++ lru_list (pset st s) ->
  nr_lru (pset st' s) = Z.of_nat (length (lru_list (pset st' s))) ->
  eviction_list (pset st' s) = evictions owner h' (nr_cachesets (geo st)) s ->
  nr_eviction_entries (pset st' s) = Z.of_nat (length (eviction_list (pset st' s))) ->
  set_ok owner h' st' s.
Proof.
  intros [] Hg He Hp Hn Hl Hne. split; rewrite ?Hg; try done; [by rewrite Hp|]. intros i. by rewrite Hp.
Qed.

(** ** Views *)

Lemma pending_wf lk h st m a :
  wf lk h st -> user_page a ->
  pending owner st m a =
  match h with
  | Some (i, Some (m', a')) => if decide (m' = m /\ a' = a) then Some i else None
  | _ => None
  end.
Proof.
  intros Hw [Ha Hp]. unfold pending. pose proof (set_index_range _ (wf_geo _ _ _ _ Hw) a Ha) as Hs.
  rewrite (so_evictions _ _ _ _ (wf_sets _ _ _ _ Hw _ Hs)).
  destruct h as [[i [[m' a']|]]|]; simpl; try done.
  destruct (wf_held _ _ _ _ Hw i _ eq_refl) as (Hin & _ & _ & _ & _ & _ & Hset & _).
  destruct (Z.eqb_spec (i mod nr_cachesets (geo st)) (user_vaddr_to_set_index (geo st) a)) as [E|E]; simpl.
  - destruct (Z.eqb_spec a' a) as [->|]; simpl; [|by rewrite decide_False by naive_solver].
    destruct (Z.eqb_spec (t_tgid (owner m')) (t_tgid (owner m))) as [Et|Et]; simpl.
    + apply owner_inj in Et as ->. by rewrite decide_True.
    + rewrite decide_False; [done|]. by intros [-> _].
  - rewrite decide_False; [done|]. intros [_ ->]. congruence.
Qed.

(** The entry of another line's reverse mapping, and its page *)
Lemma other_rmap lk h st i j r r' :
  wf lk h st -> in_lines (geo st) i -> in_lines (geo st) j -> j <> i ->
  r ∈ rmap (meta st i) -> r' ∈ rmap (meta st j) ->
  page_table r' <> page_table r /\ (owner_mm r', address r') <> (owner_mm r, address r).
Proof.
  intros Hw Hi Hj Hne Hr Hr'. assert (Hpt : page_table r' <> page_table r).
  { intros E. apply Hne. by eapply (rmap_unique _ _ _ j i r' r). }
  split; [done|]. intros [= E1 E2].
  destruct (rmap_line _ _ _ _ _ Hw Hi Hr) as (_ & _ & _ & Ho).
  destruct (rmap_line _ _ _ _ _ Hw Hj Hr') as (_ & _ & _ & Ho').
  apply Hpt. by rewrite (ro_pt _ _ _ _ Ho), (ro_pt _ _ _ _ Ho'), E1, E2.
Qed.

Lemma view_frame lk h lk' h' st st' m a :
  wf lk h st -> wf lk' h' st' -> geo st' = geo st -> user_page a ->
  get_pte st' (pte_offset m a) = get_pte st (pte_offset m a) ->
  (forall i, p_present (get_pte st (pte_offset m a)) = true ->
     pte_to_pcache_meta (get_pte st (pte_offset m a)) st = Some i -> line st' i = line st i) ->
  (get_pte st (pte_offset m a) = pte_zero ->
     pending owner st' m a = pending owner st m a /\ backing owner st' m a = backing owner st m a /\
     forall i, pending owner st m a = Some i -> line st' i = line st i) ->
  view owner st' m a = view owner st m a.
Proof.
  intros Hw Hw' Hg Ha Hp Hl Hz. unfold view. rewrite Hp.
  destruct (p_present (get_pte st (pte_offset m a))) eqn:Hpr.
  - unfold pte_to_pcache_meta in *. rewrite Hg. destruct (pfn_to_pcache_meta _ _) as [i|] eqn:E; [|done].
    simpl. by rewrite (Hl i).
  - destruct (wf_absent _ _ _ _ Hw m a Ha Hpr) as [E|[E _]]; rewrite E; simpl; [|done].
    destruct (Hz E) as (-> & -> & Hline). destruct (pending owner st m a) as [i|]; [|done]. by rewrite Hline.
Qed.
End inv.
