(* ===== verification/PcacheEvict.v ===== *)
(** * Pcache: eviction

    The closed forms of selecting, unmapping, flushing and freeing a line, and the removal
    of one of its mappings. *)

From stdpp Require Import gmap fin_sets.
From S2P Require Import Prelude VmaModel PcacheGeom PcacheModel PcacheSpec PcacheSteps PcacheInv.

Section evict.
Context {R : Type} `{!MemoryNode R, !MemoryLaws R} (owner : Z -> task) `{!Processes owner}.
Abbreviation state := (pcache R).
Abbreviation wf := (PcacheSpec.wf owner).
Abbreviation mapped_ok := (PcacheSpec.mapped_ok owner).
Abbreviation rmap_ok := (PcacheSpec.rmap_ok owner).
Implicit Types (st : state) (i s m a : Z) (k : pte_ptr).

(** ** Choosing the line *)

(** Mapped, not locked, and used by nobody but its single reverse mapping. *)
Definition evictable st i : bool :=
  PcacheBit PC_valid i st && negb (PcacheBit PC_locked i st) && (pcache_ref_count i st =? 1).

(** The line that an eviction takes: the oldest of the set that is evictable. *)
Definition victim st s : option Z := List.find (evictable st) (reverse (lru_list (pset st s))).

Definition selected s i st : state :=
  setm i (Meta {[PC_reclaim; PC_locked; PC_valid]} (mapcount (meta st i)) 2 (rmap (meta st i)) (pb (meta st i)))
    (setp s (with_lru (list_del i (lru_list (pset st s))) (nr_lru (pset st s) - 1) (pset st s)) st).

Lemma select_line i l s st mc rm p :
  meta st i = Meta {[PC_valid]} mc 1 rm p ->
  find_line_loop (i :: l) s st = Some (Some i, selected s i st).
Proof.
  intros Hm. unfold selected. simpl.
  unfold get_pcache_unless_zero, trylock_pcache, del_from_lru_list.
  unfold PcacheBit, pcache_ref_count. rewrite Hm. pc_eval. rewrite Hm. pc_eval. done.
Qed.

(** A line that is still being filled, or that has several users, is passed over. *)
Lemma skip_unmapped i l s st b mc rm p :
  is_Some (metas st !! i) -> meta st i = Meta b mc 1 rm p -> b = ∅ \/ b = {[PC_piggyback]} ->
  find_line_loop (i :: l) s st = find_line_loop l s st.
Proof.
  intros Hd Hm Hb. simpl. unfold get_pcache_unless_zero, lru_put_pcache, put_pcache_testzero.
  unfold PcacheBit, pcache_ref_count. rewrite Hm.
  destruct Hb as [-> | ->]; pc_eval; rewrite Hm; pc_eval; by rewrite setm_same.
Qed.

Lemma skip_shared i l s st mc n rm p :
  is_Some (metas st !! i) -> meta st i = Meta {[PC_valid]} mc n rm p -> 2 <= n ->
  find_line_loop (i :: l) s st = find_line_loop l s st.
Proof.
  intros Hd Hm Hn. simpl.
  unfold get_pcache_unless_zero, trylock_pcache, unlock_pcache, lru_put_pcache, put_pcache_testzero.
  unfold PcacheBit, pcache_ref_count. rewrite Hm. pc_bits. simpl.
  rewrite (proj2 (Z.eqb_neq n 0)) by lia. pc_eval. rewrite Hm. pc_eval.
  rewrite (proj2 (Z.ltb_lt 2 (n + 1))) by lia. pc_eval.
  rewrite (proj2 (Z.eqb_neq (n + 1) 0)) by lia. pc_eval. rewrite (proj2 (Z.eqb_neq (n + 1 - 1) 0)) by lia.
  rewrite setm_same; [done|done|]. rewrite Hm. f_equal; lia.
Qed.

Lemma skip_locked i l s st mc n rm p :
  is_Some (metas st !! i) -> meta st i = Meta {[PC_locked; PC_valid]} mc n rm p -> 1 <= n ->
  find_line_loop (i :: l) s st = find_line_loop l s st.
Proof.
  intros Hd Hm Hn. simpl.
  unfold get_pcache_unless_zero, trylock_pcache, lru_put_pcache, put_pcache_testzero.
  unfold PcacheBit, pcache_ref_count. rewrite Hm. pc_bits. simpl.
  rewrite (proj2 (Z.eqb_neq n 0)) by lia. pc_eval. rewrite Hm. pc_eval.
  rewrite (proj2 (Z.eqb_neq (n + 1) 0)) by lia. pc_eval. rewrite (proj2 (Z.eqb_neq (n + 1 - 1) 0)) by lia.
  rewrite setm_same; [done|done|]. rewrite Hm. f_equal; lia.
Qed.

(** The records that the scan can meet: a line being filled, or one in use. *)
Definition scannable st i : Prop :=
  is_Some (metas st !! i) /\
  ((exists b mc rm p, meta st i = Meta b mc 1 rm p /\ (b = ∅ \/ b = {[PC_piggyback]})) \/
   (exists b n rm p, meta st i = Meta b n n rm p /\ (b = {[PC_valid]} \/ b = {[PC_locked; PC_valid]}) /\ 1 <= n)).

Lemma wf_scannable lk h s i st :
  wf lk h st -> in_sets (geo st) s -> i ∈ lru_list (pset st s) -> scannable st i.
Proof.
  intros Hw Hs Hi. destruct (lru_line _ _ _ _ _ _ Hw Hs Hi) as [Hin _].
  split; [by apply (wf_metas _ _ _ _ Hw)|]. destruct (decide (fst <$> h = Some i)) as [Hh|Hh].
  - destruct h as [[j o]|]; [injection Hh as ->|done].
    destruct (wf_held _ _ _ _ Hw i o eq_refl) as (_ & _ & [[Hc [Hr _]] [Hrf Ho]]). left.
    destruct (meta st i) as [b mc rc rm p]; simpl in *. subst. eexists _, _, _, _. split; [done|].
    destruct o as [[? ?]|]; [right; apply Ho|by left].
  - pose proof (wf_lru _ _ _ _ Hw s i Hs Hi Hh) as Hm. right. rewrite (mapped_meta _ _ _ _ Hm).
    eexists _, _, _, _. split; [done|]. pose proof (mo_some _ _ _ _ Hm).
    split; [unfold used_bits; case_decide; auto|]. destruct (rmap (meta st i)); [done|simpl; lia].
Qed.

(** [evict_find_line_lru] takes the victim, and leaves the lines as they were when
    there is none. *)
Lemma find_line_correct s l st :
  (forall i, i ∈ l -> scannable st i) ->
  find_line_loop l s st =
  match List.find (evictable st) l with
  | Some i => Some (Some i, selected s i st)
  | None => Some (None, st)
  end.
Proof.
  induction l as [|i l IH]; intros Hl; [done|].
  destruct (Hl i ltac:(left)) as [Hd Hc].
  cbn [List.find]. unfold evictable at 1, PcacheBit, pcache_ref_count.
  destruct Hc as [(b & mc & rm & p & Hm & Hb)|(b & n & rm & p & Hm & Hb & Hn)].
  - rewrite Hm, (skip_unmapped _ _ _ _ _ _ _ _ Hd Hm Hb), IH by (intros; apply Hl; by right).
    by destruct Hb as [-> | ->]; pc_bits.
  - rewrite Hm. destruct Hb as [-> | ->]; pc_bits; cbn [andb negb].
    + destruct (Z.eqb_spec n 1) as [->|]; [by apply (select_line _ _ _ _ _ _ _ Hm)|].
      rewrite (skip_shared _ _ _ _ _ _ _ _ Hd Hm) by lia. apply IH. intros; apply Hl; by right.
    + rewrite (skip_locked _ _ _ _ _ _ _ _ Hd Hm) by lia. apply IH. intros; apply Hl; by right.
Qed.

(** What is known of the victim *)
Lemma victim_spec lk h s i st :
  wf lk h st -> in_sets (geo st) s -> victim st s = Some i ->
  i ∈ lru_list (pset st s) /\ in_lines (geo st) i /\ set_of st i = s /\ fst <$> h <> Some i /\ lk <> Some i /\
  mapped_ok lk st i /\
  exists r p, meta st i = Meta {[PC_valid]} 1 1 [r] p /\ rmap_ok st i r /\ slot_ok st i.
Proof.
  intros Hw Hs [Hin Ev]%find_some. apply list_elem_of_In in Hin; rewrite elem_of_reverse in Hin.
  destruct (lru_line _ _ _ _ _ _ Hw Hs Hin) as [Hi Hset]. revert Ev. unfold evictable, PcacheBit, pcache_ref_count.
  destruct (line_cases _ _ _ _ _ Hw Hi) as [[Hf _]|[(o & -> & [_ [_ Hb]])|(_ & Hh & Hm)]].
  - rewrite Hset in Hf. exfalso.
    pose proof (so_nodup _ _ _ _ (wf_sets _ _ _ _ Hw s Hs)) as (_ & Hd & _)%list.NoDup_app. by apply (Hd i).
  - assert (bits (meta st i) = ∅ \/ bits (meta st i) = {[PC_piggyback]}) as [-> | ->]
      by (destruct o as [[? ?]|]; [right; apply Hb|by left]); pc_bits; done.
  - pose proof (mapped_meta _ _ _ _ Hm) as He. rewrite He. unfold used_bits in *.
    destruct (decide (lk = Some i)); pc_bits; [done|]. intros Ev%Z.eqb_eq. simpl in Ev.
    split_and!; try done. destruct (rmap (meta st i)) as [|r [|? ?]] eqn:Hr; simpl in Ev; try lia.
    exists r, (pb (meta st i)). split; [done|]. split; [|by apply (mo_slot _ _ _ _ Hm)].
    apply (proj1 (list.Forall_forall _ _) (mo_rmaps _ _ _ _ Hm)). rewrite Hr. left.
Qed.

(** ** Unmapping and flushing a line with one reverse mapping *)

(** The bits of a line under eviction, before and after its entry is removed *)
Abbreviation victim_bits := ({[PC_reclaim; PC_locked; PC_valid]} : gset pcache_meta_bits).
Abbreviation emptied_bits := ({[PC_reclaim; PC_locked]} : gset pcache_meta_bits).

Definition reserve (r : pcache_rmap) : pcache_rmap :=
  Rmap true (r_kmalloced r) (page_table r) (owner_mm r) (owner_process r) (caller r) (address r).

Definition pb_of (r : pcache_rmap) : piggyback_info :=
  Piggyback (t_tgid (owner_process r)) (address r) (t_home (owner_process r)).

(** The Used bits after the reverse mapping is freed *)
Definition slot_freed (u : gset Z) i (r : pcache_rmap) : gset Z :=
  if r_kmalloced r then u else u ∖ {[i]}.

Lemma add_eviction_eval st i s r p :
  in_lines (geo st) i -> s = set_of st i -> pee_used st = ∅ ->
  meta st i = Meta victim_bits 1 2 [r] p ->
  pset_add_eviction i st =
  Some (1, setm i (Meta victim_bits 1 2 [r] (pb_of r))
    (setp s (with_evictions (Pee false (address r) (owner_process r) i :: eviction_list (pset st s))
               (nr_eviction_entries (pset st s) + 1) (pset st s))
       (set_pee_used {[i]} st))).
Proof.
  intros Hi -> Hp Hm. unfold pset_add_eviction, pcache_mapped, pcache_mapcount, rmap_walk, PcacheBit.
  rewrite Hm. pc_bits. simpl. unfold pset_add_eviction_one, alloc_pset_eviction_entry.
  rewrite meta_to_set, meta_index by done. simpl. rewrite Hp. rewrite bool_decide_eq_false_2 by set_solver.
  simpl. unfold pset_add_eviction_entry.
  replace ({[i]} ∪ ∅ : gset Z) with ({[i]} : gset Z) by set_solver.
  pc_rewrite. rewrite Hm. by pc_eval.
Qed.

Lemma unmap_reserve_eval st i r p :
  geom_wf (geo st) -> in_lines (geo st) i -> r_reserved r = false ->
  page_table r = pte_offset (owner_mm r) (address r) ->
  pte_pfn (get_pte st (page_table r)) = line_pfn (geo st) i ->
  p_present (get_pte st (page_table r)) = true ->
  meta st i = Meta victim_bits 1 2 [r] p ->
  pcache_try_to_unmap_reserve_check_dirty i st =
  Some (p_dirty (get_pte st (page_table r)),
        setm i (Meta victim_bits 1 2 [reserve r] p) (pte_clear (page_table r) st)).
Proof.
  intros Hg Hi Hr Hpt Hpf Hpr Hm. unfold pcache_try_to_unmap_reserve_check_dirty, rmap_walk, PcacheBit.
  rewrite Hm. pc_bits. simpl. unfold pcache_try_to_unmap_reserve_one, rmap_get_pte_locked.
  rewrite Hr, (meta_to_pfn _ Hg) by done. simpl. rewrite <- Hpt.
  rewrite bool_decide_eq_true_2 by done. rewrite Hpf, Z.eqb_refl. simpl. rewrite Hpr. unfold pte_clear.
  pc_eval. rewrite Hm. pc_eval. unfold pcache_mapcount_is_zero. pc_eval.
  by destruct (p_dirty _).
Qed.

Lemma flush_eval st i r p :
  meta st i = Meta victim_bits 1 2 [r] p ->
  pcache_flush_one i st =
  Some (setm i (Meta victim_bits 1 2 [r] p)
          (set_memory (m_flush (t_home (owner_process r)) (t_tgid (owner_process r))
             (Z.land (address r) PCACHE_LINE_MASK) (line st i) (memory st)) st)).
Proof.
  intros Hm. unfold pcache_flush_one, rmap_walk, PcacheBit. rewrite Hm. pc_bits. simpl.
  pc_eval. rewrite Hm. pc_bits. simpl. unfold __pcache_flush_one, clflush_one, __clflush_one. pc_eval.
  done.
Qed.

Lemma free_reserved_eval st i r b p :
  meta st i = Meta b 1 2 [reserve r] p -> PC_locked ∈ b ->
  (r_kmalloced r = false -> i ∈ rmap_used st) ->
  pcache_free_reserved_rmap i st =
  Some (setm i (Meta (b ∖ {[PC_valid]}) 0 2 [] p) (set_rmap_used (slot_freed (rmap_used st) i r) st)).
Proof.
  intros Hm Hb Hu. unfold pcache_free_reserved_rmap, rmap_walk, PcacheBit. rewrite Hm. simpl.
  rewrite bool_decide_eq_true_2 by done. simpl.
  unfold pcache_free_reserved_rmap_one, __pcache_remove_rmap, free_pcache_rmap, slot_freed. simpl.
  destruct (r_kmalloced r) eqn:Hk; simpl.
  - rewrite rmap_used_id. unfold pcache_mapcount. rewrite Hm. pc_eval. rewrite Hm. by pc_eval.
  - rewrite bool_decide_eq_true_2 by auto. simpl. unfold pcache_mapcount. pc_eval. rewrite Hm. by pc_eval.
Qed.

Lemma remove_eviction_eval st i s a t :
  eviction_list (pset st s) = [Pee false a t i] -> nr_eviction_entries (pset st s) = 1 ->
  pee_used st = {[i]} ->
  pset_remove_eviction s i 1 st =
  Some (setp s (with_evictions [] 0 (pset st s)) (set_pee_used ∅ st)).
Proof.
  intros Hl Hn Hu. unfold pset_remove_eviction. rewrite Hl. simpl. rewrite Z.eqb_refl.
  unfold free_pset_eviction_entry. simpl. rewrite Hu. rewrite bool_decide_eq_true_2 by set_solver. simpl.
  pc_rewrite. rewrite Hn. replace ({[i]} ∖ {[i]} : gset Z) with (∅ : gset Z) by set_solver. done.
Qed.

(** ** The whole eviction, nobody interfering *)

Definition quiet (i : Z) st : state := st.

Definition is_dirty (r : pcache_rmap) st : bool := p_dirty (get_pte st (page_table r)).

(** The flush of the page of [r] *)
Definition flushed i (r : pcache_rmap) st : state :=
  set_memory (m_flush (t_home (owner_process r)) (t_tgid (owner_process r))
    (Z.land (address r) PCACHE_LINE_MASK) (line st i) (memory st)) st.

(** The line is free again, the page written back if it was dirty. *)
Definition evicted s i (r : pcache_rmap) st : state :=
  setm i (Meta ∅ 0 0 [] (pb_of r))
    (setp s (Pset false (i :: free_head (pset st s)) (list_del i (lru_list (pset st s)))
               (nr_lru (pset st s) - 1) [] 0)
       (set_rmap_used (slot_freed (rmap_used st) i r) (set_pee_used ∅
          (pte_clear (page_table r) (if is_dirty r st then flushed i r st else st))))).

(** The line waits for its allocation, its page in the eviction list. *)
Definition piggybacked s i (r : pcache_rmap) st : state :=
  setm i (Meta {[PC_piggyback_cached]} 0 0 [] (pb_of r))
    (setp s (Pset false (free_head (pset st s)) (list_del i (lru_list (pset st s)))
               (nr_lru (pset st s) - 1) [Pee false (address r) (owner_process r) i] 1)
       (set_rmap_used (slot_freed (rmap_used st) i r) (set_pee_used {[i]}
          (set_piggybacker (Some i) (pte_clear (page_table r) st))))).

Lemma finish_eviction_eval s i r p a t st :
  meta st i = Meta victim_bits 1 2 [reserve r] p -> (r_kmalloced r = false -> i ∈ rmap_used st) ->
  eviction_list (pset st s) = [Pee false a t i] -> nr_eviction_entries (pset st s) = 1 ->
  pee_used st = {[i]} ->
  (st ← pcache_free_reserved_rmap i st; st ← pset_remove_eviction s i 1 st; Some (0, st)) =
  Some (0, setm i (Meta emptied_bits 0 2 [] p) (setp s (with_evictions [] 0 (pset st s))
             (set_rmap_used (slot_freed (rmap_used st) i r) (set_pee_used ∅ st)))).
Proof.
  intros Hm Hu Hl Hn Hp. rewrite (free_reserved_eval _ _ _ _ _ Hm) by (done || set_solver).
  cbn [mbind option_bind]. erewrite remove_eviction_eval by done. cbn [mbind option_bind].
  pc_rewrite. by replace (victim_bits ∖ {[PC_valid]}) with emptied_bits by by vm_compute.
Qed.

Lemma evict_line_eval s i r p pg st :
  geom_wf (geo st) -> in_lines (geo st) i -> s = set_of st i -> rmap_ok st i r ->
  (r_kmalloced r = false -> i ∈ rmap_used st) ->
  pee_used st = ∅ -> piggybacker st = None ->
  eviction_list (pset st s) = [] -> nr_eviction_entries (pset st s) = 0 ->
  meta st i = Meta victim_bits 1 2 [r] p ->
  evict_line_perset_list s i pg st =
  if is_dirty r st && is_enable pg then
    Some (0, setm i (Meta {[PC_piggyback_cached; PC_reclaim; PC_locked]} 0 2 [] (pb_of r))
      (setp s (with_evictions [Pee false (address r) (owner_process r) i] 1 (pset st s))
         (set_rmap_used (slot_freed (rmap_used st) i r) (set_pee_used {[i]}
            (set_piggybacker (Some i) (pte_clear (page_table r) st))))))
  else
    Some (0, setm i (Meta emptied_bits 0 2 [] (pb_of r))
      (setp s (with_evictions [] 0 (pset st s))
         (set_rmap_used (slot_freed (rmap_used st) i r) (set_pee_used ∅
            (pte_clear (page_table r) (if is_dirty r st then flushed i r st else st)))))).
Proof.
  intros Hg Hi -> Ho Hu Hp Hpb Hl Hn Hm. unfold evict_line_perset_list.
  rewrite (add_eviction_eval _ _ _ _ _ Hi eq_refl Hp Hm). rewrite Hl, Hn. cbn [mbind option_bind]. cbn [Z.eqb].
  erewrite unmap_reserve_eval; [|done|done|apply Ho..|by pc_rewrite].
  cbn [mbind option_bind]. unfold is_dirty, pte_clear. pc_rewrite.
  change (get_pte (setm _ _ _) (page_table r)) with (get_pte st (page_table r)).
  destruct (p_dirty (get_pte st (page_table r))); cbn [andb Z.eqb]; [destruct (is_enable pg) eqn:He|].
  - unfold set_per_cpu_piggybacker. cbn [mbind option_bind].
    match goal with |- context [match ?x with _ => _ end] => change x with (piggybacker st) end. rewrite Hpb.
    cbn [mbind option_bind]. pc_eval. erewrite free_reserved_eval; [|by rewrite meta_setm|set_solver|done].
    cbn [mbind option_bind]. pc_rewrite. pc_same.
  - erewrite flush_eval by (by rewrite meta_setm). cbn [mbind option_bind].
    erewrite finish_eviction_eval; [|by rewrite meta_setm|done|by pc_rewrite|by pc_rewrite|done].
    pc_rewrite. unfold flushed. simpl. pc_same.
  - cbn [mbind option_bind].
    erewrite finish_eviction_eval; [|by rewrite meta_setm|done|by pc_rewrite|by pc_rewrite|done].
    pc_rewrite. pc_same.
Qed.

(** Freeing the emptied line *)
Lemma free_emptied_eval i s st p :
  in_lines (geo st) i -> s = set_of st i -> meta st i = Meta ∅ 0 0 [] p ->
  __put_pcache_nolru i st = Some (setp s (with_free (i :: free_head (pset st s)) (pset st s)) st).
Proof.
  intros Hi -> Hm. unfold __put_pcache_nolru, pcache_free_check, pcache_expected_state, pcache_mapcount, pcache_ref_count.
  rewrite Hm. cbn [bits mapcount _refcount rmap pb]. rewrite bool_decide_eq_true_2 by set_solver. cbn [Z.eqb andb].
  unfold PcacheBit. rewrite Hm. pc_bits. rewrite meta_to_set by done. done.
Qed.

Lemma free_cached_eval i st p :
  meta st i = Meta {[PC_piggyback_cached]} 0 0 [] p -> __put_pcache_nolru i st = Some st.
Proof.
  intros Hm. unfold __put_pcache_nolru, pcache_free_check, pcache_expected_state, pcache_mapcount, pcache_ref_count.
  rewrite Hm. cbn [bits mapcount _refcount rmap pb].
  rewrite bool_decide_eq_true_2 by (unfold PCACHE_FLAGS_CHECK_AT_FREE; set_solver). cbn [Z.eqb andb].
  unfold PcacheBit. rewrite Hm. by pc_bits.
Qed.

(** The last steps: the count is frozen, the flags cleared. *)
Lemma frozen_eval st i b b' p :
  PC_valid ∉ b -> b ∖ {[PC_reclaim]} ∖ {[PC_locked]} = b' ->
  let st1 := setm i (Meta b 0 2 [] p) st in
  (pcache_mapped i st1 || PcacheBit PC_valid i st1 = false) /\ pcache_ref_count i st1 = 2 /\
  pcache_ref_freeze i 2 st1 = (true, setm i (Meta b 0 0 [] p) st) /\
  ClearPcache PC_locked i (ClearPcache PC_reclaim i (setm i (Meta b 0 0 [] p) st)) = setm i (Meta b' 0 0 [] p) st.
Proof.
  intros Hb <-. unfold pcache_ref_freeze. pc_rewrite. cbn [bits mapcount _refcount rmap pb Z.ltb Z.compare Z.eqb].
  by rewrite bool_decide_eq_false_2 by done.
Qed.

Lemma evict_chosen_eval s i r p pg st :
  geom_wf (geo st) -> in_lines (geo st) i -> s = set_of st i -> rmap_ok st i r ->
  (r_kmalloced r = false -> i ∈ rmap_used st) ->
  pee_used st = ∅ -> piggybacker st = None ->
  eviction_list (pset st s) = [] -> nr_eviction_entries (pset st s) = 0 ->
  meta st i = Meta victim_bits 1 2 [r] p ->
  evict_chosen quiet s i pg st =
  Some (PCACHE_EVICT_SUCCEED,
    if is_dirty r st && is_enable pg then
      setm i (Meta {[PC_piggyback_cached]} 0 0 [] (pb_of r))
        (setp s (with_evictions [Pee false (address r) (owner_process r) i] 1 (pset st s))
           (set_rmap_used (slot_freed (rmap_used st) i r) (set_pee_used {[i]}
              (set_piggybacker (Some i) (pte_clear (page_table r) st)))))
    else
      setm i (Meta ∅ 0 0 [] (pb_of r))
        (setp s (with_free (i :: free_head (pset st s)) (with_evictions [] 0 (pset st s)))
           (set_rmap_used (slot_freed (rmap_used st) i r) (set_pee_used ∅
              (pte_clear (page_table r) (if is_dirty r st then flushed i r st else st)))))).
Proof.
  intros Hg Hi Hs Ho Hu Hp Hpb Hl Hn Hm. unfold evict_chosen, PcacheBit at 1 2, quiet, pcache_mapcount.
  rewrite Hm. pc_bits. cbn [negb Z.ltb Z.compare].
  rewrite (evict_line_eval s i r p pg st) by done.
  destruct (is_dirty r st && is_enable pg); cbn [mbind option_bind Z.eqb negb].
  - match goal with |- context [pcache_mapped i (setm i (Meta ?b 0 2 [] ?q) ?st')] =>
      destruct (frozen_eval st' i b {[PC_piggyback_cached]} q) as (E1 & E2 & E3 & E4); [set_solver|by vm_compute|]
    end.
    rewrite E1, E2. change (1 + 1) with 2. change (2 <? 2) with false. cbn iota. rewrite E3. cbn [negb]. rewrite E4.
    erewrite free_cached_eval by apply meta_setm. cbn [mbind option_bind]. done.
  - match goal with |- context [pcache_mapped i (setm i (Meta ?b 0 2 [] ?q) ?st')] =>
      destruct (frozen_eval st' i b ∅ q) as (E1 & E2 & E3 & E4); [set_solver|by vm_compute|]
    end.
    rewrite E1, E2. change (1 + 1) with 2. change (2 <? 2) with false. cbn iota. rewrite E3. cbn [negb]. rewrite E4.
    erewrite (free_emptied_eval i s) by first [apply meta_setm|by destruct (is_dirty r st)].
    cbn [mbind option_bind]. pc_rewrite. done.
Qed.
End evict.

(** ** Removing a mapping of a line

    The state in which the entry of one reverse mapping has been cleared and its page
    possibly written back: what the other lines and the other pages see of it. *)

Section remove.
Context {R : Type} `{!MemoryNode R, !MemoryLaws R} (owner : Z -> task) `{!Processes owner}.
Abbreviation state := (pcache R).
Abbreviation wf := (PcacheSpec.wf owner).
Abbreviation mapped_ok := (PcacheSpec.mapped_ok owner).
Abbreviation rmap_ok := (PcacheSpec.rmap_ok owner).
Implicit Types (st : state) (i s m a : Z) (k : pte_ptr) (lk : option Z) (h : option (Z * option (Z * Z))).

(** ** Flushing *)

Lemma line_mask_page a : user_page a -> Z.land a PCACHE_LINE_MASK = a.
Proof.
  intros [Ha Hp]. change PCACHE_LINE_MASK with PAGE_MASK. rewrite PAGE_MASK_round by done.
  unfold page_aligned in Hp. lia.
Qed.

(** A flush of page [a] of [m0], seen from every page *)
Lemma backing_flush st m0 a0 d m a :
  user_page a0 -> is_Some (backing owner st m0 a0) ->
  backing owner (set_memory (m_flush (t_home (owner m0)) (t_tgid (owner m0)) a0 d (memory st)) st) m a =
  if decide (m = m0 /\ a = a0) then Some d else backing owner st m a.
Proof.
  intros Hu Hb. unfold backing. simpl. case_decide as E.
  - destruct E as [-> ->]. by apply answer_flush_eq.
  - apply answer_flush_ne; [done|]. intros [= _ Ht ->]. apply owner_inj in Ht. naive_solver.
Qed.

Lemma backing_flushed st i r m a :
  rmap_ok st i r ->
  backing owner (flushed i r st) m a =
  if decide (m = owner_mm r /\ a = address r) then Some (line st i) else backing owner st m a.
Proof.
  intros Ho. unfold flushed. rewrite (ro_owner _ _ _ _ Ho), line_mask_page by apply Ho.
  apply backing_flush; [apply Ho|]. destruct (ro_backing _ _ _ _ Ho) as (d & -> & _). done.
Qed.

(** Every process sees the same. *)
Definition same_views st st' : Prop := forall m a, user_page a -> view owner st' m a = view owner st m a.

(** ** Clearing an entry *)

Section removal.
Context lk h st i r (Hw : wf lk h st) (Hi : in_lines (geo st) i) (Hr : r ∈ rmap (meta st i)).
Abbreviation s := (set_of st i).

(** The entry cleared, the page written back or not *)
Definition cleared (flush : bool) : state :=
  pte_clear (page_table r) (if flush then flushed i r st else st).

Lemma removed_rmap_ok : rmap_ok st i r.
Proof using All. by apply (rmap_line _ _ _ _ _ _ Hw Hi Hr). Qed.

Lemma removed_mapped_ok : mapped_ok lk st i.
Proof using All. by apply (rmap_line _ _ _ _ _ _ Hw Hi Hr). Qed.

Lemma removed_lru : i ∈ lru_list (pset st s).
Proof using All. by apply (rmap_line _ _ _ _ _ _ Hw Hi Hr). Qed.

Lemma cleared_pte flush k :
  get_pte (cleared flush) k = if decide (k = page_table r) then pte_zero else get_pte st k.
Proof using All.
  unfold cleared, pte_clear. case_decide as E; [subst; by rewrite get_pte_set|].
  rewrite get_pte_set_ne by done. by destruct flush.
Qed.

Lemma cleared_backing flush m a :
  backing owner (cleared flush) m a =
  if decide (flush = true /\ m = owner_mm r /\ a = address r) then Some (line st i) else backing owner st m a.
Proof using All.
  change (backing owner (cleared flush) m a) with (backing owner (if flush then flushed i r st else st) m a).
  destruct flush; [rewrite (backing_flushed _ _ _ _ _ removed_rmap_ok)|]; repeat case_decide; naive_solver.
Qed.

Lemma cleared_key m a : user_page a -> pte_offset m a = page_table r <-> m = owner_mm r /\ a = address r.
Proof using All.
  intros Ha. pose proof removed_rmap_ok as Ho. rewrite (ro_pt _ _ _ _ Ho). split; [|by intros [-> ->]].
  apply pte_offset_inj; [done|apply Ho].
Qed.

Lemma cleared_rmaps flush j r' :
  j <> i -> in_lines (geo st) j -> r' ∈ rmap (meta st j) ->
  get_pte (cleared flush) (page_table r') = get_pte st (page_table r') /\
  backing owner (cleared flush) (owner_mm r') (address r') = backing owner st (owner_mm r') (address r').
Proof using All.
  intros Hj Hin Hr'. destruct (other_rmap _ _ _ _ _ _ _ _ Hw Hi Hin Hj Hr Hr') as [Hpt Hk].
  rewrite cleared_pte, decide_False by done. rewrite cleared_backing, decide_False; [done|].
  intros (_ & E1 & E2). apply Hk. by rewrite E1, E2.
Qed.

Lemma cleared_absent flush m a :
  user_page a -> p_present (get_pte (cleared flush) (pte_offset m a)) = false ->
  get_pte (cleared flush) (pte_offset m a) = pte_zero \/
  get_pte (cleared flush) (pte_offset m a) = pte_mkzerofill pte_zero /\
  backing owner (cleared flush) m a = Some zero_line.
Proof using All.
  intros Ha. rewrite cleared_pte, cleared_backing. case_decide as E; [by left|]. rewrite cleared_key in E by done.
  rewrite decide_False by naive_solver. apply (wf_absent _ _ _ _ Hw m a Ha).
Qed.

Lemma cleared_present flush k :
  p_present (get_pte (cleared flush) k) = true -> get_pte (cleared flush) k = get_pte st k /\ k <> page_table r.
Proof using All. rewrite cleared_pte. by case_decide. Qed.

Lemma slot_freed_ne j : j <> i -> j ∈ slot_freed (rmap_used st) i r <-> j ∈ rmap_used st.
Proof. intros. unfold slot_freed. destruct (r_kmalloced r); set_solver. Qed.

(** The preallocated reverse mapping after one reverse mapping is removed *)
Lemma slot_removed pre post :
  rmap (meta st i) = pre ++ r :: post ->
  length (filter (fun r => r_kmalloced r = false) (pre ++ post)) =
  if bool_decide (i ∈ slot_freed (rmap_used st) i r) then 1%nat else 0%nat.
Proof using All.
  intros E. pose proof (mo_slot _ _ _ _ removed_mapped_ok) as Hs. unfold slot_ok in Hs. rewrite E in Hs.
  rewrite !list.filter_app, !length_app in Hs |- *. unfold slot_freed. destruct (r_kmalloced r) eqn:Hk.
  { rewrite filter_cons_False in Hs by (by rewrite Hk). by rewrite <- Hs. }
  rewrite filter_cons_True in Hs by done. simpl in Hs.
  rewrite bool_decide_eq_false_2 by set_solver. destruct (bool_decide (i ∈ rmap_used st)); lia.
Qed.

Lemma slot_freed_used : r_kmalloced r = false -> i ∈ rmap_used st.
Proof using All.
  intros Hk. pose proof (mo_slot _ _ _ _ removed_mapped_ok) as Hs. unfold slot_ok in Hs.
  apply list_elem_of_split in Hr as (pre & post & E). rewrite E, list.filter_app, length_app, filter_cons_True in Hs by done.
  simpl in Hs. destruct (bool_decide_reflect (i ∈ rmap_used st)); [done|lia].
Qed.

(** The lines of the set after the line has left the LRU list *)
Lemma removed_perm : lru_list (pset st s) ≡ₚ i :: list_del i (lru_list (pset st s)).
Proof using All.
  apply list_del_perm; [|apply removed_lru].
  pose proof (so_nodup _ _ _ _ (wf_sets _ _ _ _ Hw s (set_of_in _ _ _ _ _ Hw Hi))) as Hnd.
  by apply list.NoDup_app in Hnd as (_ & _ & ?).
Qed.

(** A state made of the cleared entry and new records of the line and its set *)
Definition rebuilt (flush : bool) (M : pcache_meta) (P : pcache_set) (pee : gset Z) : state :=
  setm i M (setp s P (set_rmap_used (slot_freed (rmap_used st) i r) (set_pee_used pee (cleared flush)))).

Lemma rebuilt_changed flush M P pee : changed owner i st (rebuilt flush M P pee).
Proof using All.
  apply changed_intro; try done; try (by destruct flush).
  - intros j Hj. by apply slot_freed_ne.
  - intros j r' Hj Hin Hr'. by apply (cleared_rmaps flush j).
Qed.

(** The page of the removed mapping, before *)
Lemma removed_view : view owner st (owner_mm r) (address r) = Some (line st i).
Proof using All.
  pose proof removed_rmap_ok as Ho. unfold view. rewrite <- (ro_pt _ _ _ _ Ho), (ro_present _ _ _ _ Ho).
  by rewrite (rmap_pte_meta _ _ _ _ _ _ Hw Hi Hr).
Qed.

(** The views of a rebuilt state outside the removed page *)
Lemma rebuilt_other_views flush M P pee lk' h' m a :
  wf lk' h' (rebuilt flush M P pee) -> user_page a -> (m, a) <> (owner_mm r, address r) ->
  pending owner (rebuilt flush M P pee) m a = pending owner st m a ->
  view owner (rebuilt flush M P pee) m a = view owner st m a.
Proof using All.
  intros Hw' Ha Hne Hpen.
  assert (Hk : pte_offset m a <> page_table r) by (rewrite cleared_key by done; naive_solver).
  apply (view_frame owner lk h lk' h'); try done; try (by destruct flush).
  - etrans; [apply (cleared_pte flush)|]. by rewrite decide_False.
  - intros _. split; [done|]. split; [|by destruct flush].
    change (backing owner (rebuilt flush M P pee) m a) with (backing owner (cleared flush) m a).
    rewrite cleared_backing, decide_False by naive_solver. done.
Qed.
End removal.
End remove.
