(* ===== verification/PcacheAlloc.v ===== *)
(** * Pcache: allocation

    [pcache_evict_line] and [pcache_alloc] in closed form, and the invariant and the
    views of the processes through them. *)

From stdpp Require Import gmap fin_sets.
From S2P Require Import Prelude VmaModel PcacheGeom PcacheModel PcacheSpec PcacheSteps.
From S2P Require Import PcacheInv PcacheEvict.

Section alloc.
Context {R : Type} `{!MemoryNode R, !MemoryLaws R} (owner : Z -> task) `{!Processes owner}.
Abbreviation state := (pcache R).
Abbreviation wf := (PcacheSpec.wf owner).
Abbreviation mapped_ok := (PcacheSpec.mapped_ok owner).
Abbreviation rmap_ok := (PcacheSpec.rmap_ok owner).
Implicit Types (st : state) (i s m a : Z) (k : pte_ptr) (lk : option Z) (h : option (Z * option (Z * Z))).

Lemma evict_eval lk s pg st :
  wf lk None st -> in_sets (geo st) s ->
  match victim st s with
  | None => pcache_evict_line quiet s pg st = Some (PCACHE_EVICT_EAGAIN_FREEABLE, st)
  | Some i =>
      forall r p, meta st i = Meta {[PC_valid]} 1 1 [r] p ->
      pcache_evict_line quiet s pg st =
      Some (PCACHE_EVICT_SUCCEED,
            if is_dirty r st && is_enable pg then piggybacked s i r st else evicted s i r st)
  end.
Proof.
  intros Hw Hs. unfold pcache_evict_line, evict_find_line_lru.
  pose proof (wf_sets _ _ _ _ Hw s Hs) as Hset. pose proof (wf_psets _ _ _ _ Hw s Hs) as Hd.
  rewrite (find_line_correct s _ (upd_pset s (with_evicting true) st)).
  2:{ intros i. rewrite upd_pset_setp, pset_setp, elem_of_reverse. intros Hi.
      change (scannable st i). by apply (wf_scannable owner lk None s). }
  rewrite upd_pset_setp, pset_setp. cbn [with_evicting lru_list].
  change (evictable (setp _ _ st)) with (evictable st). fold (victim st s).
  destruct (victim st s) as [i|] eqn:Hv; cbn [mbind option_bind].
  2:{ pc_rewrite. rewrite setp_same; [done|done|]. rewrite <- (so_evicting _ _ _ _ Hset).
      by destruct (pset st s). }
  intros r p Hm.
  destruct (victim_spec _ _ _ _ _ _ Hw Hs Hv) as (Hl & Hi & Hsi & _ & _ & Hmo & r' & p' & Hm' & Ho & Hslot).
  rewrite Hm in Hm'. injection Hm' as <- <-. unfold selected. pc_rewrite. rewrite Hm. cbn [mapcount rmap pb].
  rewrite (evict_chosen_eval owner s i r p pg); try done.
  - change (is_dirty r (setm _ _ _)) with (is_dirty r st). unfold piggybacked, evicted, pte_clear, flushed.
    destruct (is_dirty r st && is_enable pg); [|destruct (is_dirty r st)]; pc_rewrite; pc_same.
  - apply (wf_geo _ _ _ _ Hw).
  - apply (rmap_ok_frame owner st); try done. rewrite meta_setm. by rewrite Hm.
  - intros Hk. by apply (slot_single st i r); rewrite ?Hm.
  - apply (wf_pee _ _ _ _ Hw).
  - apply (wf_piggybacker _ _ _ _ Hw).
  - pc_rewrite. apply (so_evictions _ _ _ _ Hset).
  - pc_rewrite. simpl. rewrite (so_nr_evictions _ _ _ _ Hset), (so_evictions _ _ _ _ Hset). done.
  - by rewrite meta_setm.
Qed.

(** ** Evicting the only mapping of a line *)

Section victim.
Context lk st i r p (Hw : wf lk None st) (Hi : in_lines (geo st) i)
  (Hm : meta st i = Meta {[PC_valid]} 1 1 [r] p).
Abbreviation s := (set_of st i).
Abbreviation cleared := (cleared st i r).
Abbreviation rebuilt := (rebuilt st i r).

Lemma victim_in : r ∈ rmap (meta st i).
Proof using Hm. rewrite Hm. left. Qed.

Lemma slot_freed_self : i ∉ slot_freed (rmap_used st) i r.
Proof using All.
  pose proof (slot_removed owner _ _ _ _ _ Hw Hi victim_in [] []) as Hs. rewrite Hm in Hs. specialize (Hs eq_refl).
  by destruct (bool_decide_reflect (i ∈ slot_freed (rmap_used st) i r)).
Qed.

(** The invariant of a rebuilt state, from its line and its set *)
Lemma rebuilt_wf flush b rc P pee h' :
  rc = 0 \/ rc = 1 ->
  let st' := rebuilt flush (Meta b 0 rc [] (pb_of r)) P pee in
  free_head P ++ lru_list P ≡ₚ free_head (pset st s) ++ lru_list (pset st s) ->
  (forall j, j <> i -> j ∈ free_head P -> j ∈ free_head (pset st s)) ->
  (forall j, j <> i -> j ∈ lru_list P <-> j ∈ lru_list (pset st s)) ->
  evicting P = false -> nr_lru P = Z.of_nat (length (lru_list P)) ->
  eviction_list P = evictions owner h' (nr_cachesets (geo st)) s ->
  nr_eviction_entries P = Z.of_nat (length (eviction_list P)) ->
  (i ∈ free_head P -> rc = 0) -> (i ∈ lru_list P -> fst <$> h' = Some i) ->
  (forall o, h' = Some (i, o) -> i ∈ lru_list P /\ held_ok owner st' i o) ->
  fst <$> h' = None \/ fst <$> h' = Some i ->
  pee = match h' with Some (j, Some _) => {[j]} | _ => ∅ end ->
  wf lk h' st'.
Proof using All.
  intros Hrc st' Hp Hf Hl He Hn Hev Hne Hfree Hlru Hheld Honly Hpee.
  assert (HP : pset st' s = P) by apply pset_setp. assert (HM : meta st' i = Meta b 0 rc [] (pb_of r)) by apply meta_setm.
  apply (wf_change owner lk None lk h' i st st' Hw Hi (rebuilt_changed owner _ _ _ _ _ Hw Hi victim_in _ _ _ _)); [done|].
  split; rewrite ?HP; try done.
  - apply (set_ok_perm owner None h' st st'); rewrite ?HP; try done.
    { apply (wf_sets _ _ _ _ Hw s (set_of_in _ _ _ _ _ Hw Hi)). }
    apply (ch_geo _ _ _ _ (rebuilt_changed owner _ _ _ _ _ Hw Hi victim_in flush _ P pee)).
  - intros Hin. rewrite (Hfree Hin) in HM. split; [|by rewrite HM]. unfold unmapped. rewrite HM.
    split_and!; try done. apply slot_freed_self.
  - intros Hin Hh. by rewrite (Hlru Hin) in Hh.
  - left. split; [by left|done].
  - intros k Hk. right. destruct (cleared_present owner _ _ _ _ _ Hw Hi victim_in flush k Hk) as [? Hkr].
    split; [done|]. rewrite Hm. intros r' ->%list_elem_of_singleton. done.
  - intros m a Ha. apply (cleared_absent owner _ _ _ _ _ Hw Hi victim_in flush m a Ha).
  - rewrite <- (wf_piggybacker _ _ _ _ Hw). by destruct flush.
Qed.

Lemma evicted_rebuilt :
  evicted s i r st = rebuilt (is_dirty r st) (Meta ∅ 0 0 [] (pb_of r))
    (Pset false (i :: free_head (pset st s)) (list_del i (lru_list (pset st s)))
       (nr_lru (pset st s) - 1) [] 0) ∅.
Proof. done. Qed.

Lemma evicted_wf : wf lk None (evicted s i r st).
Proof using All.
  pose proof (removed_perm owner _ _ _ _ _ Hw Hi victim_in) as Hp.
  pose proof (so_nr_lru _ _ _ _ (wf_sets _ _ _ _ Hw s (set_of_in _ _ _ _ _ Hw Hi))) as Hn.
  rewrite evicted_rebuilt. apply rebuilt_wf; simpl; try done; auto.
  - rewrite Hp at 2. apply Permutation_middle.
  - intros j Hj [->|?]%elem_of_cons; done.
  - intros j Hj. rewrite elem_of_list_del. naive_solver.
  - rewrite Hn, (Permutation_length Hp). simpl. lia.
  - by intros ?%list_del_not_in.
Qed.

(** The views of a rebuilt state: it is enough to look at the removed page. *)
Lemma rebuilt_views flush M P pee h' :
  wf lk h' (rebuilt flush M P pee) ->
  (forall m a, user_page a -> (m, a) <> (owner_mm r, address r) ->
     pending owner (rebuilt flush M P pee) m a = None) ->
  view owner (rebuilt flush M P pee) (owner_mm r) (address r) = Some (line st i) ->
  same_views owner st (rebuilt flush M P pee).
Proof using All.
  intros Hw' Hpen Hv m a Ha. destruct (decide ((m, a) = (owner_mm r, address r))) as [[= -> ->]|Hne].
  { by rewrite Hv, (removed_view owner _ _ _ _ _ Hw Hi victim_in). }
  apply (rebuilt_other_views owner _ _ _ _ _ Hw Hi victim_in _ _ _ _ _ _ _ _ Hw' Ha Hne).
  by rewrite Hpen, (pending_wf _ _ _ _ _ _ Hw Ha).
Qed.

Lemma evicted_views : same_views owner st (evicted s i r st).
Proof using All.
  pose proof evicted_wf as Hw'. pose proof (removed_rmap_ok owner _ _ _ _ _ Hw Hi victim_in) as Ho. rewrite evicted_rebuilt in *.
  apply (rebuilt_views _ _ _ _ None Hw').
  { intros m a Ha _. apply (pending_wf _ _ _ _ _ _ Hw' Ha). }
  unfold view. rewrite (pending_wf _ _ _ _ _ _ Hw') by apply Ho.
  match goal with |- context [get_pte ?x ?k] => change (get_pte x k) with (get_pte (cleared (is_dirty r st)) k) end.
  rewrite (cleared_pte owner _ _ _ _ _ Hw Hi victim_in), decide_True by (symmetry; apply Ho). simpl.
  match goal with |- backing _ ?x ?m ?a = _ => change (backing owner (cleared (is_dirty r st)) m a = Some (line st i)) end.
  rewrite (cleared_backing owner _ _ _ _ _ Hw Hi victim_in). case_decide as E; [done|].
  destruct (ro_backing _ _ _ _ Ho) as (d & Hd & Hc). unfold is_dirty in E. rewrite Hd, <- Hc; [done|].
  destruct (p_dirty _); [|done]. by destruct E.
Qed.

(** ** Taking the line back from the per-cpu variable *)

Definition carried : state :=
  rebuilt false (Meta {[PC_piggyback]} 0 1 [] (pb_of r))
    (Pset false (free_head (pset st s)) (i :: list_del i (lru_list (pset st s))) (nr_lru (pset st s))
       [Pee false (address r) (owner_process r) i] 1) {[i]}.

Lemma fastpath_carried : pcache_alloc_fastpath s (piggybacked s i r st) = (Some i, carried).
Proof using All.
  pose proof (wf_piggybacker _ _ _ _ Hw) as Hpb.
  unfold pcache_alloc_fastpath, get_per_cpu_piggybacker, piggybacked. cbn [piggybacker setm setp upd_meta upd_pset set_rmap_used set_pee_used set_piggybacker].
  unfold pcache_reset_flags, prep_new_pcache_meta, add_to_lru_list. pc_eval. unfold carried, rebuilt, cleared. pc_same.
  symmetry. exact Hpb.
Qed.

Lemma carried_wf : wf lk (Some (i, Some (owner_mm r, address r))) carried.
Proof using All.
  pose proof (removed_perm owner _ _ _ _ _ Hw Hi victim_in) as Hp. pose proof (removed_rmap_ok owner _ _ _ _ _ Hw Hi victim_in) as Ho.
  pose proof (so_nr_lru _ _ _ _ (wf_sets _ _ _ _ Hw s (set_of_in _ _ _ _ _ Hw Hi))) as Hn.
  apply rebuilt_wf; cbn [free_head lru_list nr_lru eviction_list nr_eviction_entries evicting]; try done; auto.
  - by rewrite Hp at 2.
  - intros j Hj. rewrite elem_of_cons, elem_of_list_del. naive_solver.
  - rewrite Hn, (Permutation_length Hp). done.
  - simpl. unfold set_of. rewrite Z.eqb_refl. by rewrite (ro_owner _ _ _ _ Ho).
  - intros Hin. exfalso. pose proof (so_nodup _ _ _ _ (wf_sets _ _ _ _ Hw s (set_of_in _ _ _ _ _ Hw Hi))) as (_ & Hd & _)%list.NoDup_app.
    apply (Hd i Hin), (removed_lru owner _ _ _ _ _ Hw Hi victim_in).
  - intros o [= <-]. split; [left|]. unfold held_ok, unmapped. change (meta _ i) with (meta carried i).
    unfold carried, rebuilt. rewrite meta_setm. cbn [bits mapcount _refcount rmap pb]. split_and!; try done; try apply Ho.
    + apply slot_freed_self.
    + unfold pb_of. by rewrite (ro_owner _ _ _ _ Ho).
    + match goal with |- get_pte ?x ?k = _ => change (get_pte (cleared false) k = pte_zero) end.
      rewrite (cleared_pte owner _ _ _ _ _ Hw Hi victim_in), decide_True; [done|]. symmetry. apply Ho.
    + destruct (ro_backing _ _ _ _ Ho) as (d & Hd & _). exists d. exact Hd.
Qed.

Lemma carried_views : same_views owner st carried.
Proof using All.
  pose proof carried_wf as Hw'. pose proof (removed_rmap_ok owner _ _ _ _ _ Hw Hi victim_in) as Ho. apply (rebuilt_views _ _ _ _ _ Hw').
  - intros m a Ha Hne. fold carried. rewrite (pending_wf _ _ _ _ _ _ Hw' Ha). by rewrite decide_False by naive_solver.
  - fold carried. unfold view. rewrite (pending_wf _ _ _ _ _ _ Hw') by apply Ho. rewrite decide_True by done.
    change (get_pte carried) with (get_pte (cleared false)).
    rewrite (cleared_pte owner _ _ _ _ _ Hw Hi victim_in), decide_True by (symmetry; apply Ho). done.
Qed.
End victim.

(** ** Allocation *)

(** What a successful allocation gives: a line [i] of the set, held by the caller;
    nothing else has changed but the mapping that line [i] may have had. *)
Record allocated lk s (pg : piggyback_options) st i (o : option (Z * Z)) st' : Prop := {
  al_wf : wf lk (Some (i, o)) st';
  al_views : same_views owner st st';
  al_changed : changed owner i st st';
  al_in : in_lines (geo st) i;
  al_set : set_of st i = s;
  al_lock : lk <> Some i;
  al_pte : forall k, get_pte st' k = get_pte st k \/ exists r, r ∈ rmap (meta st i) /\ page_table r = k;
  al_backing : forall m a, backing owner st' m a = backing owner st m a \/
    exists r, r ∈ rmap (meta st i) /\ owner_mm r = m /\ address r = a;
  al_kz : kz st' = kz st;
  al_warned : warned st' = warned st;
  al_piggyback : is_enable pg = false -> o = None;
  al_carried : forall m a, o = Some (m, a) -> p_present (get_pte st (pte_offset m a)) = true
}.

Definition taken s i l st : state :=
  setm i (Meta ∅ 0 1 [] (pb (meta st i)))
    (setp s (Pset (evicting (pset st s)) l (i :: lru_list (pset st s)) (nr_lru (pset st s) + 1)
               (eviction_list (pset st s)) (nr_eviction_entries (pset st s))) st).

Lemma fastpath_taken lk s i l st :
  wf lk None st -> in_sets (geo st) s -> free_head (pset st s) = i :: l ->
  pcache_alloc_fastpath s st = (Some i, taken s i l st).
Proof.
  intros Hw Hs Hf. unfold pcache_alloc_fastpath, get_per_cpu_piggybacker.
  rewrite (wf_piggybacker _ _ _ _ Hw), Hf. unfold pcache_reset_flags, prep_new_pcache_meta, add_to_lru_list, taken.
  by pc_eval.
Qed.

Lemma fastpath_none lk s st :
  wf lk None st -> free_head (pset st s) = [] -> pcache_alloc_fastpath s st = (None, st).
Proof.
  intros Hw Hf. unfold pcache_alloc_fastpath, get_per_cpu_piggybacker.
  by rewrite (wf_piggybacker _ _ _ _ Hw), Hf.
Qed.

Section taken.
Context lk s i l st (Hw : wf lk None st) (Hs : in_sets (geo st) s) (Hf : free_head (pset st s) = i :: l).

Lemma taken_free : in_lines (geo st) i /\ set_of st i = s /\ free_ok st i /\ i ∉ l ++ lru_list (pset st s).
Proof using All.
  assert (Hin : i ∈ free_head (pset st s)) by (rewrite Hf; left).
  destruct (free_line _ _ _ _ _ _ Hw Hs Hin) as [Hi Hsi]. split_and!; try done; [by eapply (wf_free _ _ _ _ Hw)|].
  pose proof (so_nodup _ _ _ _ (wf_sets _ _ _ _ Hw s Hs)) as Hnd. rewrite Hf in Hnd. simpl in Hnd.
  by apply list.NoDup_cons in Hnd as [? _].
Qed.

Lemma taken_changed : changed owner i st (taken s i l st).
Proof using All. destruct taken_free as (_ & <- & _). by apply changed_intro. Qed.

Lemma taken_wf : wf lk (Some (i, None)) (taken s i l st).
Proof using All.
  destruct taken_free as (Hi & Hsi & [(Hc & Hr & Hu) Hrf] & Hn). pose proof taken_changed as Hch.
  assert (HP : pset (taken s i l st) s = Pset (evicting (pset st s)) l (i :: lru_list (pset st s))
    (nr_lru (pset st s) + 1) (eviction_list (pset st s)) (nr_eviction_entries (pset st s))) by apply pset_setp.
  assert (HM : meta (taken s i l st) i = Meta ∅ 0 1 [] (pb (meta st i))) by apply meta_setm.
  pose proof (wf_sets _ _ _ _ Hw s Hs) as Hso.
  apply (wf_change owner lk None lk _ i st _ Hw Hi Hch); [done|].
  split; rewrite ?Hsi, ?HP; cbn [free_head lru_list]; try done; try (by left); try (by right).
  - apply (set_ok_perm owner None _ st); rewrite ?HP; cbn [free_head lru_list nr_lru eviction_list nr_eviction_entries evicting];
      try apply Hso; try done.
    + rewrite Hf. simpl. by rewrite Permutation_middle.
    + rewrite (so_nr_lru _ _ _ _ Hso). simpl. lia.
  - intros j _ Hj. rewrite Hf. by right.
  - intros j Hj. rewrite elem_of_cons. naive_solver.
  - intros Hin. destruct Hn. apply elem_of_app. by left.
  - intros o [= <-]. split; [left|]. unfold held_ok, unmapped. rewrite HM. done.
  - left. split; [by left|by right].
  - intros k Hk. right. split; [done|]. rewrite Hr. by intros ? ?%not_elem_of_nil.
  - apply (wf_absent _ _ _ _ Hw).
  - apply (wf_piggybacker _ _ _ _ Hw).
  - apply (wf_pee _ _ _ _ Hw).
Qed.

Lemma taken_views : same_views owner st (taken s i l st).
Proof using All.
  intros m a Ha. apply (view_frame owner lk None lk (Some (i, None))); try done; [apply taken_wf|].
  intros _. by rewrite (pending_wf _ _ _ _ _ _ Hw Ha), (pending_wf _ _ _ _ _ _ taken_wf Ha).
Qed.

Lemma taken_allocated pg :
  (forall j, lk = Some j -> rmap (meta st j) <> []) -> allocated lk s pg st i None (taken s i l st).
Proof using All.
  intros Hlk. destruct taken_free as (Hi & Hsi & [(_ & Hr & _) _] & _).
  split; try done; auto using taken_wf, taken_views, taken_changed. intros E. by apply (Hlk i).
Qed.
End taken.

(** An allocation that first evicts: the line freed by the eviction is the one taken. *)
Lemma evicted_allocated lk pg st i r p :
  wf lk None st -> in_lines (geo st) i -> lk <> Some i -> meta st i = Meta {[PC_valid]} 1 1 [r] p ->
  allocated lk (set_of st i) pg st i None
    (taken (set_of st i) i (free_head (pset st (set_of st i))) (evicted (set_of st i) i r st)).
Proof.
  intros Hw Hi Hlk Hm. pose proof (evicted_wf lk st i r p Hw Hi Hm) as Hw1.
  pose proof (evicted_views lk st i r p Hw Hi Hm) as Hv1.
  set (st1 := evicted (set_of st i) i r st) in *.
  assert (Hc1 : changed owner i st st1) by apply (rebuilt_changed owner lk None st i r Hw Hi (victim_in _ _ _ _ Hm)).
  pose proof (ch_geo _ _ _ _ Hc1) as Hg.
  assert (Hs1 : in_sets (geo st1) (set_of st i)) by (rewrite Hg; by apply (set_of_in _ _ _ _ _ Hw Hi)).
  assert (Hf1 : free_head (pset st1 (set_of st i)) = i :: free_head (pset st (set_of st i))).
  { unfold st1, evicted. by rewrite pset_setm, pset_setp. }
  assert (Hrin : r ∈ rmap (meta st i)) by (rewrite Hm; left).
  split; try done.
  - by apply (taken_wf lk).
  - intros m a Ha. rewrite (taken_views lk _ _ _ _ Hw1 Hs1 Hf1 m a Ha). by apply Hv1.
  - eapply changed_trans; [done|]. by apply (taken_changed lk).
  - intros k. destruct (decide (k = page_table r)) as [->|Hk]; [right; by exists r|]. left.
    change (get_pte (taken _ _ _ _) k) with (get_pte (cleared st i r (is_dirty r st)) k).
    rewrite (cleared_pte owner lk None st i r Hw Hi (victim_in _ _ _ _ Hm)), decide_False by done. done.
  - intros m a. destruct (decide (m = owner_mm r /\ a = address r)) as [[-> ->]|Hk]; [right; by exists r|]. left.
    change (backing owner (taken _ _ _ _) m a) with (backing owner (cleared st i r (is_dirty r st)) m a).
    rewrite (cleared_backing owner lk None st i r Hw Hi (victim_in _ _ _ _ Hm)), decide_False by naive_solver. done.
  - unfold taken. simpl. unfold st1, evicted. simpl. by destruct (is_dirty r st).
  - unfold taken. simpl. unfold st1, evicted. simpl. by destruct (is_dirty r st).
Qed.

Lemma carried_allocated lk st i r p :
  wf lk None st -> in_lines (geo st) i -> lk <> Some i -> meta st i = Meta {[PC_valid]} 1 1 [r] p ->
  allocated lk (set_of st i) ENABLE_PIGGYBACK st i (Some (owner_mm r, address r)) (carried st i r).
Proof.
  intros Hw Hi Hlk Hm. assert (Hrin : r ∈ rmap (meta st i)) by (rewrite Hm; left).
  split; try done.
  - by apply (carried_wf lk st i r p).
  - by apply (carried_views lk st i r p).
  - apply (rebuilt_changed owner lk None st i r Hw Hi (victim_in _ _ _ _ Hm)).
  - intros k. destruct (decide (k = page_table r)) as [->|Hk]; [right; by exists r|]. left.
    change (get_pte (carried st i r) k) with (get_pte (cleared st i r false) k).
    rewrite (cleared_pte owner lk None st i r Hw Hi (victim_in _ _ _ _ Hm)), decide_False by done. done.
  - intros m a. by left.
  - intros m a [= <- <-]. destruct (rmap_line _ _ _ _ _ _ Hw Hi Hrin) as (_ & _ & _ & Ho).
    rewrite <- (ro_pt _ _ _ _ Ho). apply Ho.
Qed.

(** A set with no free and no evictable line: nothing is done until the timeout. *)
Lemma alloc_exhausted lk retries s pg st :
  wf lk None st -> in_sets (geo st) s -> free_head (pset st s) = [] -> victim st s = None ->
  alloc_loop quiet retries s pg st = Some (None, st).
Proof.
  intros Hw Hs Hf Hv. induction retries as [|n IH]; simpl;
    rewrite (fastpath_none lk s st Hw Hf); pose proof (evict_eval lk s pg st Hw Hs) as He; rewrite Hv in He; by rewrite He.
Qed.

(** The line that an allocation takes *)
Definition candidate st s : option Z :=
  match free_head (pset st s) with
  | i :: _ => Some i
  | [] => victim st s
  end.

Lemma alloc_loop_ok lk n s pg st :
  wf lk None st -> in_sets (geo st) s -> (forall j, lk = Some j -> rmap (meta st j) <> []) ->
  match candidate st s with
  | Some i => exists o st', alloc_loop quiet (S n) s pg st = Some (Some i, st') /\ allocated lk s pg st i o st'
  | None => alloc_loop quiet (S n) s pg st = Some (None, st)
  end.
Proof.
  intros Hw Hs Hlk. unfold candidate. destruct (free_head (pset st s)) as [|i l] eqn:Hf.
  - destruct (victim st s) as [i|] eqn:Hv; [|by apply (alloc_exhausted lk)].
    destruct (victim_spec _ _ _ _ _ _ Hw Hs Hv) as (_ & Hi & Hsi & _ & Hli & _ & r & p & Hm & _ & _).
    pose proof (evict_eval lk s pg st Hw Hs) as He. rewrite Hv in He. specialize (He r p Hm).
    cbn [alloc_loop]. rewrite (fastpath_none lk s st Hw Hf), He. cbn [mbind option_bind]. subst s.
    destruct (is_dirty r st && is_enable pg) eqn:Hb.
    + exists (Some (owner_mm r, address r)), (carried st i r).
      assert (pg = ENABLE_PIGGYBACK) as -> by (destruct pg; [by rewrite andb_false_r in Hb|done]).
      split; [|by apply (carried_allocated lk st i r p)].
      destruct n; cbn [alloc_loop]; by rewrite (fastpath_carried lk st i r p Hw Hi Hm).
    + exists None, (taken (set_of st i) i [] (evicted (set_of st i) i r st)).
      pose proof (evicted_allocated lk pg st i r p Hw Hi Hli Hm) as Ha. rewrite Hf in Ha. split; [|done].
      pose proof (evicted_wf lk st i r p Hw Hi Hm) as Hw1.
      assert (Hfp : pcache_alloc_fastpath (set_of st i) (evicted (set_of st i) i r st) =
        (Some i, taken (set_of st i) i [] (evicted (set_of st i) i r st))).
      { apply (fastpath_taken lk); [done|by rewrite evicted_rebuilt, (ch_geo _ _ _ _ (rebuilt_changed owner lk None st i r Hw Hi (victim_in _ _ _ _ Hm) _ _ _ _))|].
        unfold evicted. by rewrite pset_setm, pset_setp, Hf. }
      destruct n; cbn [alloc_loop]; rewrite Hfp; unfold taken at 1; rewrite PcacheBit_setm; pc_bits; by rewrite andb_false_r.
  - exists None, (taken s i l st). split; [|by apply (taken_allocated lk s i l st)].
    cbn [alloc_loop]. rewrite (fastpath_taken lk s i l st Hw Hs Hf). unfold taken at 1. rewrite PcacheBit_setm.
    pc_bits. by rewrite andb_false_r.
Qed.
End alloc.
