(* ===== verification/PcacheFill.v ===== *)
(** * Pcache: filling a line

    What becomes of a line just allocated: the page it carries is settled with the
    memory component, then it is mapped by an entry, or put back. *)

From stdpp Require Import gmap fin_sets.
From S2P Require Import Prelude VmaModel PcacheGeom PcacheModel PcacheSpec PcacheSteps.
From S2P Require Import PcacheInv PcacheEvict PcacheAlloc.

Section fill.
Context {R : Type} `{!MemoryNode R, !MemoryLaws R} (owner : Z -> task) `{!Processes owner}.
Abbreviation state := (pcache R).
Abbreviation wf := (PcacheSpec.wf owner).
Abbreviation mapped_ok := (PcacheSpec.mapped_ok owner).
Abbreviation rmap_ok := (PcacheSpec.rmap_ok owner).
Implicit Types (st : state) (i s m a : Z) (k : pte_ptr) (lk : option Z) (h : option (Z * option (Z * Z))).

Lemma held_meta st i o :
  held_ok owner st i o ->
  meta st i = Meta (match o with None => ∅ | Some _ => {[PC_piggyback]} end) 0 1 [] (pb (meta st i)).
Proof.
  intros [(Hc & Hr & _) [Hrf Hb]]. destruct (meta st i) as [b mc rc rm p]; simpl in *. subst.
  f_equal. destruct o as [[? ?]|]; [apply Hb|done].
Qed.

(** Dropping a reference: the last one frees the line. *)
Definition freed_pset st i : pcache_set :=
  Pset (evicting (pset st (set_of st i))) (i :: free_head (pset st (set_of st i)))
    (list_del i (lru_list (pset st (set_of st i)))) (nr_lru (pset st (set_of st i)) - 1)
    (eviction_list (pset st (set_of st i))) (nr_eviction_entries (pset st (set_of st i))).

Lemma put_last_eval st i p :
  in_lines (geo st) i ->
  put_pcache i (setm i (Meta ∅ 0 1 [] p) st) =
  Some (setm i (Meta ∅ 0 0 [] p) (setp (set_of st i) (freed_pset st i) st)).
Proof.
  intros Hi. unfold put_pcache, put_pcache_testzero. pc_eval.
  unfold __put_pcache, detach_from_lru, del_from_lru_list. change (geo (setm _ _ st)) with (geo st).
  rewrite meta_to_set by done. cbn [mbind option_bind]. pc_rewrite.
  erewrite free_emptied_eval; [|done|done|by rewrite meta_setm]. pc_rewrite. done.
Qed.

Lemma put_other_eval st i b c n rm p :
  2 <= n -> put_pcache i (setm i (Meta b c n rm p) st) = Some (setm i (Meta b c (n - 1) rm p) st).
Proof.
  intros Hn. unfold put_pcache, put_pcache_testzero. pc_eval. rewrite (proj2 (Z.eqb_neq n 0)) by lia. pc_eval.
  by rewrite (proj2 (Z.eqb_neq (n - 1) 0)) by lia.
Qed.

(** The first reverse mapping of a line: it takes the preallocated one. *)
Lemma first_rmap_eval st i pt addr m c p :
  meta st i = Meta ∅ 0 1 [] p -> in_lines (geo st) i -> i ∉ rmap_used st ->
  pcache_add_rmap i pt addr m (owner m) c st =
  Some (0, setm i (Meta {[PC_valid]} 1 1 [Rmap false false pt m (owner m) c (Z.land addr PAGE_MASK)] p)
             (set_rmap_used ({[i]} ∪ rmap_used st) st)).
Proof.
  intros Hm Hi Hu. unfold pcache_add_rmap, lock_pcache, unlock_pcache, alloc_pcache_rmap.
  assert (Hb : PcacheBit PC_locked i st = false) by (unfold PcacheBit; rewrite Hm; by pc_bits).
  rewrite !Hb. cbn [mbind option_bind]. change (geo (SetPcache _ _ _)) with (geo st). rewrite meta_index by done.
  cbn [mbind option_bind]. change (rmap_used (SetPcache _ _ _)) with (rmap_used st). rewrite bool_decide_eq_false_2 by done.
  rewrite owner_leader. cbn [negb]. pc_rewrite. rewrite Hm. pc_eval. pc_same.
Qed.

(** ** A held line that carries nothing *)
Section held.
Context lk st i (Hw : wf lk (Some (i, None)) st).
Abbreviation s := (set_of st i).

Lemma held_in : in_lines (geo st) i.
Proof using Hw. by apply (wf_held _ _ _ _ Hw i None). Qed.

Lemma held_held_ok : held_ok owner st i None.
Proof using Hw. by apply (wf_held _ _ _ _ Hw i None). Qed.

Lemma held_lru : i ∈ lru_list (pset st s).
Proof using Hw. by apply (wf_held _ _ _ _ Hw i None). Qed.

Lemma held_rmap : rmap (meta st i) = [].
Proof using Hw. apply held_held_ok. Qed.

Lemma held_set_ok : set_ok owner (Some (i, None)) st s.
Proof using All. apply (wf_sets _ _ _ _ Hw), (set_of_in _ _ _ _ _ Hw held_in). Qed.

Lemma held_not_free : i ∉ free_head (pset st s).
Proof using All.
  intros Hin. pose proof (so_nodup _ _ _ _ held_set_ok) as (_ & Hd & _)%list.NoDup_app. apply (Hd i Hin), held_lru.
Qed.

(** No entry maps a held line, so that its contents can change. *)
Lemma held_line_unseen m a :
  user_page a -> p_present (get_pte st (pte_offset m a)) = true ->
  pte_to_pcache_meta (get_pte st (pte_offset m a)) st <> Some i.
Proof using All.
  intros Ha Hp Hi. destruct (wf_present _ _ _ _ Hw _ Hp) as (j & r & Hj & Hr & E).
  rewrite <- E, (rmap_pte_meta _ _ _ _ _ _ Hw Hj Hr) in Hi. injection Hi as ->.
  rewrite held_rmap in Hr. by apply not_elem_of_nil in Hr.
Qed.

Definition refilled d st : state := set_line i d st.

Lemma refilled_wf d : wf lk (Some (i, None)) (refilled d st).
Proof using All.
  destruct Hw as [H1 H2 H3 H4 H5 H6 H7 H8 H9 H10 H11]. split; try done.
  - intros s' Hs. destruct (H4 s' Hs). by split.
  - intros s' j Hs Hj Hh. apply (mapped_ok_frame owner lk st); try done; [|by eapply H6].
    apply line_set_line_ne. naive_solver.
Qed.

Lemma refilled_views d : same_views owner st (refilled d st).
Proof using All.
  intros m a Ha. apply (view_frame owner _ _ _ _ _ _ _ _ Hw (refilled_wf d)); try done.
  - intros j Hp Hj. apply line_set_line_ne. intros E. apply (held_line_unseen m a Ha Hp). by rewrite E.
  - intros _. rewrite (pending_wf _ _ _ _ _ _ Hw Ha), (pending_wf _ _ _ _ _ _ (refilled_wf d) Ha). done.
Qed.

(** *** Putting it back *)

Definition released : state :=
  setm i (Meta ∅ 0 0 [] (pb (meta st i))) (setp s (freed_pset st i) st).

Lemma put_held_eval : put_pcache i st = Some released.
Proof using All.
  pose proof (held_meta _ _ _ held_held_ok) as Hm.
  rewrite <- (setm_same i (Meta ∅ 0 1 [] (pb (meta st i))) st) at 1; [|apply (wf_metas _ _ _ _ Hw), held_in|exact Hm].
  by rewrite put_last_eval by apply held_in.
Qed.

Lemma released_changed : changed owner i st released.
Proof using All. by apply changed_intro. Qed.

Lemma freed_set_ok h h' st' :
  set_ok owner h st s -> i ∈ lru_list (pset st s) -> geo st' = geo st -> pset st' s = freed_pset st i ->
  evictions owner h' (nr_cachesets (geo st)) s = evictions owner h (nr_cachesets (geo st)) s ->
  set_ok owner h' st' s.
Proof using.
  clear Processes0. intros Hs Hin Hg HP He. pose proof (so_nodup _ _ _ _ Hs) as (_ & _ & Hnd)%list.NoDup_app.
  pose proof (list_del_perm _ _ Hnd Hin) as Hp.
  apply (set_ok_perm owner h h' st st'); rewrite ?HP; cbn [free_head lru_list nr_lru eviction_list nr_eviction_entries evicting freed_pset];
    try done; try apply Hs.
  - rewrite Hp at 2. apply Permutation_middle.
  - rewrite (so_nr_lru _ _ _ _ Hs), (Permutation_length Hp). simpl. lia.
  - rewrite He. apply Hs.
Qed.

Lemma released_wf : wf lk None released.
Proof using All.
  assert (HP : pset released s = freed_pset st i) by apply pset_setp.
  assert (HM : meta released i = Meta ∅ 0 0 [] (pb (meta st i))) by apply meta_setm.
  destruct held_held_ok as [(_ & _ & Hu) _].
  apply (wf_change owner lk _ lk None i st _ Hw held_in released_changed); [done|].
  split; rewrite ?HP; cbn [free_head lru_list freed_pset]; try done.
  - apply (freed_set_ok (Some (i, None))); try done; [apply held_set_ok|apply held_lru].
  - intros j Hj [->|?]%elem_of_cons; done.
  - intros j Hj. rewrite elem_of_list_del. naive_solver.
  - intros _. unfold free_ok, unmapped. rewrite HM. done.
  - by intros ?%list_del_not_in.
  - left. split; [by right|by left].
  - intros k Hk. right. split; [done|]. rewrite held_rmap. by intros ? ?%not_elem_of_nil.
  - apply (wf_absent _ _ _ _ Hw).
  - apply (wf_piggybacker _ _ _ _ Hw).
  - apply (wf_pee _ _ _ _ Hw).
Qed.

Lemma released_views : same_views owner st released.
Proof using All.
  intros m a Ha. apply (view_frame owner _ _ _ _ _ _ _ _ Hw released_wf); try done.
  intros _. by rewrite (pending_wf _ _ _ _ _ _ Hw Ha), (pending_wf _ _ _ _ _ _ released_wf Ha).
Qed.

(** *** Mapping it *)
Section mapping.
Context m a (c : rmap_caller) (entry : pte) (Hlk : lk <> Some i) (Ha : user_page a)
  (Hset : user_vaddr_to_set_index (geo st) a = s)
  (Habs : p_present (get_pte st (pte_offset m a)) = false)
  (Hpr : p_present entry = true) (Hpfn : pte_pfn entry = line_pfn (geo st) i)
  (Hback : exists d, backing owner st m a = Some d /\ (p_dirty entry = false -> d = line st i)).

Definition new_rmap : pcache_rmap := Rmap false false (pte_offset m a) m (owner m) c a.

Definition mapped : state :=
  setm i (Meta {[PC_valid]} 1 1 [new_rmap] (pb (meta st i)))
    (setp s (pset st s) (set_rmap_used ({[i]} ∪ rmap_used st) (pte_set (pte_offset m a) entry st))).

Lemma add_rmap_eval addr :
  Z.land addr PAGE_MASK = a ->
  pcache_add_rmap i (pte_offset m a) addr m (owner m) c (pte_set (pte_offset m a) entry st) = Some (0, mapped).
Proof using All.
  intros Haddr. pose proof held_held_ok as Hh. pose proof (held_meta _ _ _ Hh) as Hm. destruct Hh as [(_ & _ & Hu) _].
  rewrite (first_rmap_eval (pte_set (pte_offset m a) entry st) i _ _ _ _ (pb (meta st i)) Hm held_in Hu), Haddr. unfold mapped.
  rewrite (setp_same (set_of st i)); [done|apply (wf_psets _ _ _ _ Hw), (set_of_in _ _ _ _ _ Hw held_in)|done].
Qed.

Lemma absent_other j r : in_lines (geo st) j -> r ∈ rmap (meta st j) -> page_table r <> pte_offset m a.
Proof using All.
  intros Hj Hr E. destruct (rmap_line _ _ _ _ _ _ Hw Hj Hr) as (_ & _ & _ & Ho).
  pose proof (ro_present _ _ _ _ Ho) as Hp. rewrite E in Hp. by rewrite Hp in Habs.
Qed.

Lemma mapped_changed : changed owner i st mapped.
Proof using All.
  apply changed_intro; try done; [intros j Hj; simpl; set_solver|].
  intros j r Hj Hin Hr. split; [|done]. apply (get_pte_set_ne _ _ _ st). apply not_eq_sym. by apply (absent_other j).
Qed.

Lemma mapped_pte k : get_pte mapped k = if decide (k = pte_offset m a) then entry else get_pte st k.
Proof using All.
  change (get_pte mapped k) with (get_pte (pte_set (pte_offset m a) entry st) k). case_decide as E.
  - subst k. apply get_pte_set.
  - by apply get_pte_set_ne.
Qed.

Lemma mapped_mapped_ok : mapped_ok lk mapped i.
Proof using All.
  assert (HM : meta mapped i = Meta {[PC_valid]} 1 1 [new_rmap] (pb (meta st i))) by apply meta_setm.
  split; unfold slot_ok; rewrite ?HM; try done.
  - unfold used_bits. by rewrite decide_False.
  - simpl. apply NoDup_singleton.
  - apply list.Forall_singleton. pose proof (mapped_pte (pte_offset m a)) as Hp. rewrite decide_True in Hp by done.
    split; rewrite ?HM; try done; cbn [page_table new_rmap]; by rewrite Hp.
  - cbn [rmap]. rewrite filter_cons_True by done. simpl. by rewrite bool_decide_eq_true_2 by set_solver.
Qed.

Lemma mapped_wf : wf lk None mapped.
Proof using All.
  assert (HP : pset mapped s = pset st s) by apply pset_setp.
  apply (wf_change owner lk _ lk None i st _ Hw held_in mapped_changed); [done|].
  split; rewrite ?HP; try done.
  - apply (set_ok_perm owner (Some (i, None)) None st); rewrite ?HP; try done; apply held_set_ok.
  - by intros ?%held_not_free.
  - intros _ _. apply mapped_mapped_ok.
  - left. split; [by right|by left].
  - intros k. rewrite mapped_pte. case_decide as E.
    + intros _. left. exists new_rmap. split; [unfold mapped; rewrite meta_setm; left|done].
    + intros _. right. split; [done|]. rewrite held_rmap. by intros ? ?%not_elem_of_nil.
  - intros m' a' Ha'. unfold absent_ok. rewrite mapped_pte. case_decide as E; [by rewrite Hpr|].
    apply (wf_absent _ _ _ _ Hw m' a' Ha').
  - apply (wf_piggybacker _ _ _ _ Hw).
  - apply (wf_pee _ _ _ _ Hw).
Qed.

Lemma mapped_view : view owner mapped m a = Some (line st i).
Proof using All.
  unfold view. rewrite mapped_pte, decide_True, Hpr by done. unfold pte_to_pcache_meta. rewrite Hpfn.
  change (geo mapped) with (geo st). rewrite pfn_meta; [done|apply (wf_geo _ _ _ _ Hw)|apply held_in].
Qed.

Lemma mapped_other_views m' a' :
  user_page a' -> (m', a') <> (m, a) -> view owner mapped m' a' = view owner st m' a'.
Proof using All.
  intros Ha' Hne. apply (view_frame owner _ _ _ _ _ _ _ _ Hw mapped_wf); try done.
  - rewrite mapped_pte, decide_False; [done|]. intros E. apply pte_offset_inj in E; naive_solver.
  - intros _. by rewrite (pending_wf _ _ _ _ _ _ Hw Ha'), (pending_wf _ _ _ _ _ _ mapped_wf Ha').
Qed.
End mapping.
End held.

(** ** A held line that carries a page *)
Section carrying.
Context lk st i m a (Hw : wf lk (Some (i, Some (m, a))) st).
Abbreviation s := (set_of st i).

Lemma carrying_facts :
  in_lines (geo st) i /\ i ∈ lru_list (pset st s) /\ user_page a /\
  meta st i = Meta {[PC_piggyback]} 0 1 [] (Piggyback (t_tgid (owner m)) a (t_home (owner m))) /\
  (i ∉ rmap_used st) /\ get_pte st (pte_offset m a) = pte_zero /\ is_Some (backing owner st m a).
Proof using Hw.
  destruct (wf_held _ _ _ _ Hw i _ eq_refl) as (Hi & Hl & Ho). pose proof (held_meta _ _ _ Ho) as Hm.
  destruct Ho as ((_ & _ & Hu) & _ & _ & Ha & _ & Hpb & Hz & Hbk). rewrite Hpb in Hm. done.
Qed.

Lemma carrying_evictions :
  eviction_list (pset st s) = [Pee false a (owner m) i] /\ nr_eviction_entries (pset st s) = 1 /\ pee_used st = {[i]}.
Proof using All.
  destruct carrying_facts as (Hi & _). pose proof (wf_sets _ _ _ _ Hw s (set_of_in _ _ _ _ _ Hw Hi)) as Hs.
  pose proof (so_evictions _ _ _ _ Hs) as He. simpl in He. unfold set_of in He. rewrite Z.eqb_refl in He.
  rewrite (so_nr_evictions _ _ _ _ Hs). unfold set_of. rewrite He. split_and!; try done. apply (wf_pee _ _ _ _ Hw).
Qed.

(** [mem]: the memory component, the page written back *)
Definition settled (mem : R) : state :=
  setm i (Meta ∅ 0 1 [] (pb (meta st i)))
    (setp s (with_evictions [] 0 (pset st s)) (set_pee_used ∅ (set_memory mem st))).

Definition written (mem : R) : Prop :=
  forall m' a' : Z, answer mem (t_home (owner m')) (t_tgid (owner m')) a' =
    if decide (m' = m /\ a' = a) then Some (line st i) else backing owner st m' a'.

Context mem (Hmem : written mem).

Lemma settled_backing m' a' :
  backing owner (settled mem) m' a' = if decide (m' = m /\ a' = a) then Some (line st i) else backing owner st m' a'.
Proof using Hmem. apply Hmem. Qed.

Lemma settled_changed : changed owner i st (settled mem).
Proof using All.
  destruct carrying_facts as (_ & _ & _ & _ & _ & Hz & _). apply changed_intro; try done.
  intros j r Hj Hin Hr. split; [done|]. etrans; [apply settled_backing|]. rewrite decide_False; [done|].
  intros [Em Ea]. destruct (rmap_line _ _ _ _ _ _ Hw Hin Hr) as (_ & _ & _ & Ho).
  pose proof (ro_present _ _ _ _ Ho) as Hp. rewrite (ro_pt _ _ _ _ Ho), Em, Ea, Hz in Hp. done.
Qed.

Lemma settled_wf : wf lk (Some (i, None)) (settled mem).
Proof using All.
  destruct carrying_facts as (Hi & Hl & Ha & Hm & Hu & Hz & Hbk).
  assert (HP : pset (settled mem) s = with_evictions [] 0 (pset st s)) by apply pset_setp.
  assert (HM : meta (settled mem) i = Meta ∅ 0 1 [] (pb (meta st i))) by apply meta_setm.
  pose proof (wf_sets _ _ _ _ Hw s (set_of_in _ _ _ _ _ Hw Hi)) as Hso.
  apply (wf_change owner lk _ lk _ i st _ Hw Hi settled_changed); [done|].
  split; rewrite ?HP; cbn [free_head lru_list with_evictions]; try done.
  - apply (set_ok_perm owner (Some (i, Some (m, a))) _ st); rewrite ?HP; try done; apply Hso.
  - intros Hf. exfalso. pose proof (so_nodup _ _ _ _ Hso) as (_ & Hd & _)%list.NoDup_app. by apply (Hd i).
  - intros o [= <-]. split; [done|]. unfold held_ok, unmapped. rewrite HM. done.
  - left. split; by right.
  - intros k Hk. right. split; [done|]. rewrite Hm. by intros ? ?%not_elem_of_nil.
  - intros m' a' Ha' Hp. destruct (wf_absent _ _ _ _ Hw m' a' Ha' Hp) as [E|[E Hb]]; [by left|]. right. split; [done|].
    rewrite settled_backing, decide_False; [done|]. intros [-> ->]. by rewrite Hz in E.
  - apply (wf_piggybacker _ _ _ _ Hw).
Qed.

Lemma settled_views : same_views owner st (settled mem).
Proof using All.
  destruct carrying_facts as (_ & _ & Ha & _ & _ & Hz & _). intros m' a' Ha'.
  destruct (decide (m' = m /\ a' = a)) as [[-> ->]|Hne].
  - unfold view. rewrite (pending_wf _ _ _ _ _ _ Hw Ha), (pending_wf _ _ _ _ _ _ settled_wf Ha).
    change (get_pte (settled mem)) with (get_pte st). rewrite Hz, settled_backing, !decide_True by done. done.
  - apply (view_frame owner _ _ _ _ _ _ _ _ Hw settled_wf); try done. intros _.
    rewrite (pending_wf _ _ _ _ _ _ Hw Ha'), (pending_wf _ _ _ _ _ _ settled_wf Ha'), settled_backing.
    by rewrite !decide_False by naive_solver.
Qed.
End carrying.

Lemma flush_written lk st i m a mem :
  wf lk (Some (i, Some (m, a))) st ->
  (forall m' a', answer mem (t_home (owner m')) (t_tgid (owner m')) a' = backing owner st m' a') ->
  written st i m a (m_flush (t_home (owner m)) (t_tgid (owner m)) a (line st i) mem).
Proof.
  intros Hw Heq m' a'. destruct (carrying_facts _ _ _ _ _ Hw) as (_ & _ & Hua & _ & _ & _ & Hbk).
  rewrite <- (Heq m' a'). rewrite <- (Heq m a) in Hbk. case_decide as E.
  - destruct E as [-> ->]. by apply answer_flush_eq.
  - apply answer_flush_ne; [done|]. intros [= _ Ht ->]. apply owner_inj in Ht. naive_solver.
Qed.

(** Removing the entry of the eviction list and the flag, once the page is sent *)
Lemma settle_eval lk st i m a mem :
  wf lk (Some (i, Some (m, a))) st ->
  (st' ← pset_remove_eviction (set_of st i) i 1 (set_memory mem st); Some (ClearPcache PC_piggyback i st')) =
  Some (settled st i mem).
Proof.
  intros Hw. destruct (carrying_facts _ _ _ _ _ Hw) as (_ & _ & _ & Hm & _).
  destruct (carrying_evictions _ _ _ _ _ Hw) as (Hl & Hn & Hp).
  erewrite remove_eviction_eval by done. cbn [mbind option_bind]. unfold settled. pc_rewrite. rewrite Hm. pc_same.
Qed.

Lemma fallback_eval lk st i m a :
  wf lk (Some (i, Some (m, a))) st ->
  piggyback_fallback i st =
  Some (settled st i (m_flush (t_home (owner m)) (t_tgid (owner m)) a (line st i) (memory st))).
Proof.
  intros Hw. destruct (carrying_facts _ _ _ _ _ Hw) as (Hi & _ & Ha & Hm & _).
  unfold piggyback_fallback, __clflush_one. rewrite Hm. cbn [pb pb_tgid pb_user_addr pb_memory_nid].
  rewrite line_mask_page by done. change (geo (set_memory _ st)) with (geo st). rewrite meta_to_set by done.
  cbn [mbind option_bind]. by apply (settle_eval lk _ _ m a).
Qed.
End fill.
