(* ===== verification/PcacheFault.v ===== *)
(** * Pcache: faults on absent pages

    [pcache_do_fill_page] and [pcache_do_zerofill_page]: the page comes in, every
    process sees what it saw. *)

From stdpp Require Import gmap fin_sets.
From S2P Require Import Prelude VmaModel PcacheGeom PcacheModel PcacheSpec PcacheSteps.
From S2P Require Import PcacheInv PcacheEvict PcacheAlloc PcacheFill.

(** The page of an address *)
Definition page_of (addr : Z) : Z := Z.land addr PAGE_MASK.

Lemma page_of_user addr : is_u64 addr -> user_page (page_of addr).
Proof.
  intros Ha. unfold page_of. rewrite PAGE_MASK_round by done. unfold user_page, page_aligned, is_u64 in *.
  rewrite PAGE_SIZE_eq. pose proof (Z.div_mod addr 4096). pose proof (Z.mod_pos_bound addr 4096).
  replace (addr - addr mod 4096) with (addr / 4096 * 4096) by lia. rewrite Z.mod_mul by lia. nia.
Qed.

Lemma page_of_pte m addr : is_u64 addr -> pte_offset m (page_of addr) = pte_offset m addr.
Proof.
  intros Ha. unfold page_of, pte_offset. rewrite PAGE_MASK_round by done. f_equal.
  change PAGE_SHIFT with 12. rewrite !Z.shiftr_div_pow2, PAGE_SIZE_eq by lia. change (2 ^ 12) with 4096.
  pose proof (Z.div_mod addr 4096). replace (addr - addr mod 4096) with (addr / 4096 * 4096) by lia.
  by rewrite Z.div_mul.
Qed.

Lemma page_of_set g addr :
  geom_wf g -> is_u64 addr -> user_vaddr_to_set_index g (page_of addr) = user_vaddr_to_set_index g addr.
Proof.
  intros Hg Ha. rewrite !(set_index_eq g Hg); [|done|by apply page_of_user]. f_equal.
  unfold page_of. rewrite PAGE_MASK_round by done. rewrite PAGE_SIZE_eq.
  pose proof (Z.div_mod addr 4096). replace (addr - addr mod 4096) with (addr / 4096 * 4096) by lia.
  by rewrite Z.div_mul.
Qed.

Section fault.
Context {R : Type} `{!MemoryNode R, !MemoryLaws R} (owner : Z -> task) `{!Processes owner}.
Abbreviation state := (pcache R).
Abbreviation wf := (PcacheSpec.wf owner).
Abbreviation mapped_ok := (PcacheSpec.mapped_ok owner).
Abbreviation rmap_ok := (PcacheSpec.rmap_ok owner).
Implicit Types (st : state) (i s m a : Z) (k : pte_ptr) (lk : option Z) (h : option (Z * option (Z * Z))).

(** ** States that differ by what the pcache does not read *)

Lemma same_views_trans st1 st2 st3 : same_views owner st1 st2 -> same_views owner st2 st3 -> same_views owner st1 st3.
Proof. intros H1 H2 m a Ha. by rewrite (H2 m a Ha), (H1 m a Ha). Qed.

(** [st'] is [st] up to the warning, the oracle of [kzalloc] and a memory component
    with the same pages. *)
Record alike st st' : Prop := {
  ak_geo : geo st' = geo st; ak_metas : metas st' = metas st; ak_psets : psets st' = psets st;
  ak_lines : lines st' = lines st; ak_rmap_used : rmap_used st' = rmap_used st;
  ak_pee_used : pee_used st' = pee_used st; ak_piggybacker : piggybacker st' = piggybacker st;
  ak_ptes : ptes st' = ptes st; ak_backing : forall m a, backing owner st' m a = backing owner st m a
}.

Lemma alike_wf lk h st st' : alike st st' -> wf lk h st -> wf lk h st'.
Proof.
  destruct st as [g ms ps ls u pu pg pt mem kz w], st' as [g' ms' ps' ls' u' pu' pg' pt' mem' kz' w'].
  intros [E1 E2 E3 E4 E5 E6 E7 E8 Hb]. simpl in *. subst. intros [H1 H2 H3 H4 H5 H6 H7 H8 H9 H10 H11].
  split; try done.
  - intros s Hs. destruct (H4 s Hs). by split.
  - intros s i Hs Hi Hh. eapply (mapped_ok_frame owner); [..|by eapply H6]; try done.
  - intros i o Ho. destruct (H7 i o Ho) as (? & ? & Hu & Hr & Hx). split; [done|]. split; [done|].
    split; [done|]. split; [done|]. destruct o as [[m a]|]; [|done]. by rewrite Hb.
  - intros m a Ha Hp. unfold absent_ok. rewrite Hb. by apply H9.
Qed.

Lemma alike_views st st' : alike st st' -> same_views owner st st'.
Proof.
  destruct st as [g ms ps ls u pu pg pt mem kz w], st' as [g' ms' ps' ls' u' pu' pg' pt' mem' kz' w'].
  intros [E1 E2 E3 E4 E5 E6 E7 E8 Hb] m a _. simpl in *. subst. unfold view. by rewrite Hb.
Qed.

Lemma alike_warn st : alike st (WARN st).
Proof. done. Qed.

Lemma alike_memory st mem :
  (forall m a, answer mem (t_home (owner m)) (t_tgid (owner m)) a = backing owner st m a) ->
  alike st (set_memory mem st).
Proof. intros H. by split. Qed.

(** ** The fill functions *)

(** The outcome of a fill of held line [i] for page [a] of [m] *)
Record fill_result lk st i m a (ret : Z) st' : Prop := {
  fr_wf : wf lk (Some (i, None)) st';
  fr_views : same_views owner st st';
  fr_geo : geo st' = geo st;
  fr_ptes : ptes st' = ptes st;
  fr_line : ret = 0 -> backing owner st' m a = Some (line st' i) /\ view owner st m a = Some (line st' i)
}.

(** The memory component, its copy of the page as in [st], refused the page. *)
Definition refused st m addr flags : Prop :=
  exists mem len d mem', answer mem (t_home (owner m)) (t_tgid (owner m)) (page_of addr) = backing owner st m (page_of addr) /\
    m_miss (t_home (owner m)) (t_tgid (owner m)) addr flags mem = (ReplyShort len d, mem').

Section remote.
Context lk st i o m cur addr (flags : Z) (Hw : wf lk (Some (i, o)) st) (Hcur : group_leader cur = owner m)
  (Ha : is_u64 addr) (Hsv : served owner m addr) (Hpte : get_pte st (pte_offset m addr) = pte_zero) (Ho : o <> Some (m, page_of addr)).
Abbreviation a := (page_of addr).

Lemma remote_cur : t_tgid cur = t_tgid (owner m) /\ t_home cur = t_home (owner m).
Proof using Hcur. by rewrite <- Hcur. Qed.

Lemma remote_view : view owner st m a = backing owner st m a.
Proof using All.
  unfold view. rewrite (page_of_pte m addr Ha), Hpte. simpl.
  rewrite (pending_wf _ _ _ _ _ _ Hw (page_of_user addr Ha)). destruct o as [[m' a']|]; [|done].
  by rewrite decide_False by naive_solver.
Qed.

(** The exchange with the memory component: the reply, and the page carried settled. *)
Record exchanged (rep : p2m_reply) st' : Prop := {
  ex_wf : wf lk (Some (i, None)) st';
  ex_views : same_views owner st st';
  ex_geo : geo st' = geo st;
  ex_ptes : ptes st' = ptes st;
  ex_backing : backing owner st' m a = backing owner st m a;
  ex_page : forall d, rep = ReplyPage d -> backing owner st m a = Some d;
  ex_short : forall len d, rep = ReplyShort len d -> len < PCACHE_LINE_SIZE /\ refused st m addr flags
}.

Lemma send_miss_exchanged st' :
  wf lk (Some (i, None)) st' -> same_views owner st st' -> geo st' = geo st -> ptes st' = ptes st ->
  backing owner st' m a = backing owner st m a ->
  exists rep st1, send_miss cur (t_home (owner m)) addr flags st' = (rep, st1) /\ exchanged rep st1.
Proof using All.
  intros Hw' Hv Hg Hp Hb. destruct remote_cur as [Ht _]. unfold send_miss. rewrite Ht.
  destruct (m_miss _ _ _ _ _) as [rep mem] eqn:E. eexists _, _. split; [done|].
  assert (Hak : alike st' (set_memory mem st')).
  { apply alike_memory. intros m' a'. replace mem with (snd (rep, mem)) by done. rewrite <- E. by apply answer_miss. }
  split; try done.
  - by apply (alike_wf _ _ st').
  - eapply same_views_trans; [exact Hv|]. by apply alike_views.
  - by rewrite (ak_backing _ _ Hak).
  - intros d ->. rewrite <- Hb. by apply (miss_page _ _ _ _ _ _ _ Ha E).
  - intros len d ->. split; [by apply (miss_short _ _ _ _ _ _ _ _ Ha E)|]. by eexists _, _, _, _.
Qed.

(** The part of [__pcache_do_fill_page] up to the reply *)
Definition exchange : option (p2m_reply * state) :=
  if PcacheBit PC_piggyback i st then
    if negb (pb_memory_nid (pb (meta st i)) =? t_home cur) then
      st ← piggyback_fallback i st; Some (send_miss cur (t_home cur) addr flags st)
    else
      let '(rep, st') := send_miss_flush cur (t_home cur) addr flags (pb (meta st i)) (line st i) st in
      st ← pset_remove_eviction (set_of st i) i 1 st';
      Some (rep, ClearPcache PC_piggyback i st)
  else Some (send_miss cur (t_home cur) addr flags st).

Lemma exchange_carrying m' a' :
  o = Some (m', a') -> exists rep st1, exchange = Some (rep, st1) /\ exchanged rep st1.
Proof using All.
  intros Eo. destruct remote_cur as [Ht Hh]. pose proof Hw as Hw1. rewrite Eo in Hw1.
  destruct (carrying_facts _ _ _ _ _ _ Hw1) as (Hi & _ & Ha' & Hm & _).
  assert (Hne : ~ (m = m' /\ a = a')) by (intros [<- <-]; by apply Ho).
  unfold exchange, PcacheBit. rewrite Hm. pc_bits. cbn [pb_memory_nid]. rewrite Hh.
  destruct (Z.eqb_spec (t_home (owner m')) (t_home (owner m))) as [Eh|_]; cbn [negb].
  - unfold send_miss_flush. rewrite Ht. cbn [pb_tgid pb_user_addr]. destruct (m_miss_flush _ _ _ _ _ _ _ _) as [rep mem] eqn:E.
    destruct Hsv as [Hsz Hkn].
    assert (Hmem : written owner st i m' a' mem).
    { intros m0 a0. rewrite <- (flush_written owner lk st i m' a' (memory st) Hw1 ltac:(done) m0 a0), Eh.
      replace mem with (snd (rep, mem)) by done. rewrite <- E. by apply answer_miss_flush. }
    assert (Hne' : (t_tgid (owner m), a) <> (t_tgid (owner m'), a')) by (intros [= Et Ea]; apply owner_inj in Et; naive_solver).
    exists rep, (settled st i mem). split.
    { pose proof (settle_eval owner lk st i m' a' mem Hw1) as Es.
      destruct (pset_remove_eviction _ _ _ _); [|done]. cbn [mbind option_bind] in *. by apply (inj Some) in Es as ->. }
    split; try done.
    + by apply (settled_wf owner lk st i m' a').
    + by apply (settled_views owner lk st i m' a').
    + rewrite (settled_backing owner st i m' a') by done. by rewrite decide_False.
    + intros d ->. by apply (miss_flush_page _ _ _ _ _ _ _ _ _ _ Ha Ha' Hne' E).
    + intros len d ->. destruct (miss_flush_short _ _ _ _ _ _ _ _ _ _ _ Ha Ha' E) as [r'' E'].
      split; [by apply (miss_short _ _ _ _ _ _ _ _ Ha E')|]. by eexists _, _, _, _.
  - rewrite (fallback_eval owner lk st i m' a') by done. cbn [mbind option_bind].
    assert (Hmem : written owner st i m' a' (m_flush (t_home (owner m')) (t_tgid (owner m')) a' (line st i) (memory st)))
      by by apply (flush_written owner lk).
    destruct (send_miss_exchanged (settled st i (m_flush (t_home (owner m')) (t_tgid (owner m')) a' (line st i) (memory st))))
      as (rep & st1 & -> & Hex); try done; [by apply (settled_wf owner lk st i m' a')|by apply (settled_views owner lk st i m' a')| |by exists rep, st1].
    rewrite (settled_backing owner st i m' a') by done. by rewrite decide_False.
Qed.

Lemma exchange_ok : exists rep st1, exchange = Some (rep, st1) /\ exchanged rep st1.
Proof using All.
  destruct (option_eq_None_dec o) as [Eo|[[m' a'] Eo]%not_eq_None_Some]; [|by apply (exchange_carrying m' a')].
  pose proof Hw as Hw1. rewrite Eo in Hw1. destruct remote_cur as [_ Hh].
  unfold exchange, PcacheBit. rewrite (held_meta _ _ _ _ (held_held_ok _ _ _ _ Hw1)). pc_bits. rewrite Hh.
  destruct (send_miss_exchanged st) as (rep & st1 & -> & Hex); try done. by exists rep, st1.
Qed.

Lemma do_fill_result :
  exists ret st', __pcache_do_fill_page cur addr flags i st = Some (ret, st') /\
    fill_result lk st i m a ret st' /\ (ret <> 0 -> refused st m addr flags).
Proof using All.
  destruct exchange_ok as (rep & st1 & E & Hex). destruct (wf_held _ _ _ _ Hw i o eq_refl) as (Hi & _).
  unfold __pcache_do_fill_page. rewrite meta_to_set by done. cbn [mbind option_bind]. fold (set_of st i).
  change (get_memory_node cur addr) with (t_home cur). fold exchange. rewrite E. cbn [mbind option_bind].
  pose proof (fun d => refilled_wf owner lk st1 i (ex_wf _ _ Hex) d) as Hw2.
  assert (Hv : forall d, same_views owner st (set_line i d st1)).
  { intros d. eapply same_views_trans; [apply (ex_views _ _ Hex)|]. by apply (refilled_views owner lk st1 i (ex_wf _ _ Hex)). }
  destruct rep as [d|len d].
  - eexists 0, _. split; [done|]. split; [|done]. split; try done; try apply Hex.
    intros _. rewrite line_set_line. pose proof (ex_page _ _ Hex d eq_refl) as Hb. split.
    + etrans; [apply (ex_backing _ _ Hex)|done].
    + by rewrite remote_view.
  - destruct (ex_short _ _ Hex len d eq_refl) as [Hlen Href]. rewrite (proj2 (Z.ltb_lt len _)) by done.
    destruct (Z.eqb_spec len 4); [|destruct (Z.ltb_spec len 0)]; eexists _, _; (split; [done|]); (split; [|done]);
      (split; [..|intros Hz; exfalso; unfold EFAULT in *; lia]); try done; try apply Hex.
    all: first [eapply (alike_wf _ _ (set_line i d st1)); [apply alike_warn|apply Hw2]|exact (Hv d)].
Qed.
End remote.

Lemma do_zerofill_result lk st i m addr flags :
  wf lk (Some (i, None)) st -> is_u64 addr -> get_pte st (pte_offset m addr) = pte_mkzerofill pte_zero ->
  exists ret st', __pcache_do_zerofill_page addr flags i st = Some (ret, st') /\
    fill_result lk st i m (page_of addr) ret st' /\ (ret <> 0 -> refused st m addr flags).
Proof.
  intros Hw Ha Hp. eexists 0, _. split; [done|]. split; [|done]. rewrite <- page_of_pte in Hp by done.
  split; try done; [by apply (refilled_wf owner)|by apply (refilled_views owner lk)|].
  intros _. rewrite line_set_line. unfold view. rewrite Hp. split; [|done].
  destruct (wf_absent _ _ _ _ Hw m (page_of addr) (page_of_user _ Ha)) as [E|[_ E]]; [by rewrite Hp|by rewrite Hp in E|done].
Qed.

(** ** Filling an absent page *)

Record fault_result st m addr flags (ret : Z) st' : Prop := {
  ft_wf : wf None None st';
  ft_views : same_views owner st st';
  ft_geo : geo st' = geo st;
  ft_ret :
    (ret = 0 /\ p_present (get_pte st' (pte_offset m addr)) = true /\
     (has flags FAULT_FLAG_WRITE = true -> p_rw (get_pte st' (pte_offset m addr)) = true)) \/
    (ret = VM_FAULT_OOM /\ st' = st /\ candidate st (user_vaddr_to_set_index (geo st) addr) = None) \/
    (ret = VM_FAULT_SIGSEGV /\ refused st m addr flags)
}.

Section absent.
Context st m cur addr (flags : Z) (Hw : wf None None st) (Hcur : group_leader cur = owner m) (Ha : is_u64 addr) (Hsv : served owner m addr)
  (Habs : p_present (get_pte st (pte_offset m addr)) = false).
Abbreviation a := (page_of addr).

Definition fills (fill : fill_func) (pg : piggyback_options) : Prop :=
  forall i o st1, wf None (Some (i, o)) st1 -> (is_enable pg = false -> o = None) -> o <> Some (m, a) ->
  get_pte st1 (pte_offset m addr) = get_pte st (pte_offset m addr) ->
  exists ret st', fill addr flags i st1 = Some (ret, st') /\
    fill_result None st1 i m a ret st' /\ (ret <> 0 -> refused st1 m addr flags).

(** Mapping the filled line *)
Lemma fill_mapped i c st1 st2 :
  fill_result None st1 i m a 0 st2 -> set_of st1 i = user_vaddr_to_set_index (geo st1) addr ->
  p_present (get_pte st1 (pte_offset m addr)) = false ->
  let entry := pfn_pte_shared_exec (line_pfn (geo st1) i) in
  exists st', pcache_add_rmap i (pte_offset m addr) addr m (group_leader cur) c (pte_set (pte_offset m addr) entry st2)
    = Some (0, st') /\ wf None None st' /\ same_views owner st1 st' /\ geo st' = geo st1 /\
    get_pte st' (pte_offset m addr) = entry.
Proof using Hcur Ha Processes0.
  intros [Hw2 Hv Hg Hp Hl] Hs Hab entry. destruct (Hl eq_refl) as [Hb Hview]. pose proof (page_of_user _ Ha) as Hua.
  pose proof (wf_geo _ _ _ _ Hw2) as Hgw.
  assert (Hset : user_vaddr_to_set_index (geo st2) a = set_of st2 i).
  { rewrite page_of_set by done. unfold set_of. rewrite Hg. by rewrite <- Hs. }
  assert (Hab2 : p_present (get_pte st2 (pte_offset m a)) = false).
  { unfold get_pte. rewrite Hp. by rewrite page_of_pte. }
  assert (Hback : exists d, backing owner st2 m a = Some d /\ (p_dirty entry = false -> d = line st2 i)) by by eexists.
  assert (Hpf : pte_pfn entry = line_pfn (geo st2) i) by by rewrite Hg.
  exists (mapped owner st2 i m a c entry). rewrite <- !page_of_pte, Hcur by done. split_and!.
  - by apply (add_rmap_eval owner None st2 i Hw2 m a c entry).
  - by apply (mapped_wf owner None st2 i Hw2 m a c entry).
  - intros m' a' Ha'. destruct (decide ((m', a') = (m, a))) as [[= -> ->]|Hne].
    + by rewrite (mapped_view owner None st2 i Hw2 m a c entry).
    + rewrite (mapped_other_views owner None st2 i Hw2 m a c entry) by done. by apply Hv.
  - done.
  - rewrite (mapped_pte owner None st2 i Hw2 m a c entry) by done. by rewrite decide_True.
Qed.

Lemma common_fill_ok n fill c pg :
  fills fill pg ->
  exists ret st', common_do_fill_page quiet (S n) m cur addr (get_pte st (pte_offset m addr)) flags fill c pg st
    = Some (ret, st') /\ fault_result st m addr flags ret st'.
Proof using All.
  intros Hfill. unfold common_do_fill_page, pcache_alloc, user_vaddr_to_pcache_set.
  pose proof (set_index_range _ (wf_geo _ _ _ _ Hw) addr Ha) as Hs.
  pose proof (alloc_loop_ok owner None n _ pg st Hw Hs ltac:(done)) as Hal.
  destruct (candidate st _) as [i|] eqn:Hc.
  2:{ rewrite Hal. cbn [mbind option_bind]. eexists _, _. split; [done|]. split; try done. right; left. done. }
  destruct Hal as (o & st1 & -> & Hal). cbn [mbind option_bind].
  destruct Hal as [Hw1 Hv1 Hch Hi Hset _ Hpt Hbk _ _ Hpg Hca]. pose proof (ch_geo _ _ _ _ Hch) as Hg.
  assert (Hp1 : get_pte st1 (pte_offset m addr) = get_pte st (pte_offset m addr)).
  { destruct (Hpt (pte_offset m addr)) as [E|(r & Hr & E)]; [done|].
    destruct (rmap_line _ _ _ _ _ _ Hw Hi Hr) as (_ & _ & _ & Ho). pose proof (ro_present _ _ _ _ Ho) as Hx.
    by rewrite E, Habs in Hx. }
  assert (Hb1 : backing owner st1 m a = backing owner st m a).
  { destruct (Hbk m a) as [E|(r & Hr & Em & Ea)]; [done|].
    destruct (rmap_line _ _ _ _ _ _ Hw Hi Hr) as (_ & _ & _ & Ho). pose proof (ro_present _ _ _ _ Ho) as Hx.
    by rewrite (ro_pt _ _ _ _ Ho), Em, Ea, page_of_pte, Habs in Hx. }
  assert (Hne : o <> Some (m, a)).
  { intros E. specialize (Hca m a E). by rewrite page_of_pte, Habs in Hca. }
  rewrite meta_to_pfn; [|apply (wf_geo _ _ _ _ Hw1)|by rewrite Hg]. cbn [mbind option_bind].
  unfold pte_same. rewrite Hp1, bool_decide_eq_true_2 by done. cbn [negb].
  destruct (Hfill i o st1 Hw1 Hpg Hne Hp1) as (ret & st2 & -> & Hfr & Href). cbn [mbind option_bind].
  destruct (Z.eqb_spec ret 0) as [->|Hret]; cbn [negb].
  - destruct (fill_mapped i c st1 st2 Hfr) as (st' & -> & Hw' & Hv' & Hg' & Hp').
    { unfold set_of in *. by rewrite Hg. } { by rewrite Hp1. }
    cbn [mbind option_bind Z.eqb negb]. eexists _, _. split; [done|]. split; try done.
    + by eapply same_views_trans.
    + by rewrite Hg'.
    + left. by rewrite Hp'.
  - pose proof (fr_wf _ _ _ _ _ _ _ Hfr) as Hw2. rewrite (put_held_eval owner None st2 i Hw2). cbn [mbind option_bind].
    eexists _, _. split; [done|]. split.
    + by apply (released_wf owner).
    + eapply same_views_trans; [exact Hv1|]. eapply same_views_trans; [apply (fr_views _ _ _ _ _ _ _ Hfr)|].
      by apply (released_views owner None).
    + etrans; [apply (fr_geo _ _ _ _ _ _ _ Hfr)|done].
    + right; right. split; [done|]. destruct (Href Hret) as (mem & len & d & mem' & Hans & E).
      exists mem, len, d, mem'. by rewrite Hans.
Qed.

(** A fault on an absent page brings it in. *)
Lemma absent_fault_ok n :
  exists ret st', pcache_handle_pte_fault quiet (S n) m cur addr flags st = Some (ret, st') /\
    fault_result st m addr flags ret st'.
Proof using All.
  pose proof (page_of_user _ Ha) as Hua. pose proof Habs as Hab'. rewrite <- page_of_pte in Hab' by done.
  pose proof (wf_absent _ _ _ _ Hw m a Hua Hab') as Habok. unfold absent_ok in Habok. rewrite page_of_pte in Habok by done.
  unfold pcache_handle_pte_fault. rewrite Habs. cbn [negb]. destruct Habok as [E|[E _]].
  - assert (pte_none (get_pte st (pte_offset m addr)) = true) as -> by by rewrite E.
    unfold pset_find_eviction, user_vaddr_to_pcache_set.
    pose proof (wf_sets _ _ _ _ Hw _ (set_index_range _ (wf_geo _ _ _ _ Hw) addr Ha)) as Hset.
    rewrite (so_nr_evictions _ _ _ _ Hset), (so_evictions _ _ _ _ Hset). cbn [evictions length Z.of_nat Z.eqb].
    apply common_fill_ok. intros i o st1 Hw1 Hpg Hne Hp1. eapply do_fill_result; try done. by rewrite Hp1.
  - assert (pte_none (get_pte st (pte_offset m addr)) = false) as -> by by rewrite E.
    unfold pcache_do_zerofill_page. assert (p_zerofill (get_pte st (pte_offset m addr)) = true) as -> by by rewrite E.
    apply common_fill_ok. intros i o st1 Hw1 Hpg _ Hp1. rewrite (Hpg eq_refl) in Hw1.
    apply do_zerofill_result; try done. by rewrite Hp1.
Qed.
End absent.
End fault.
