(* ===== verification/PcacheUnmap.v ===== *)
(** * Pcache: unmapping an entry, and ranges of pages

    The walk over the reverse mappings of a line, and the removal of one of them:
    [pcache_zap_pte] and [pcache_remove_rmap]. *)

From stdpp Require Import gmap fin_sets.
From S2P Require Import Prelude VmaModel PcacheGeom PcacheModel PcacheSpec PcacheSteps PcacheInv PcacheEvict PcacheAlloc PcacheFill PcacheFault.

Section unmap.
Context {R : Type} `{!MemoryNode R, !MemoryLaws R} (owner : Z -> task) `{!Processes owner}.
Abbreviation state := (pcache R).
Abbreviation wf := (PcacheSpec.wf owner).
Abbreviation mapped_ok := (PcacheSpec.mapped_ok owner).
Abbreviation rmap_ok := (PcacheSpec.rmap_ok owner).
Implicit Types (st : state) (i s m a : Z) (k : pte_ptr) (lk : option Z) (h : option (Z * option (Z * Z))).

(** ** Walks that stop at one reverse mapping *)

Lemma walk_match {A} (one : rmap_one A) i st x y st' r r' post :
  is_Some (metas st !! i) -> one i r x st = Some (PCACHE_RMAP_SUCCEED, r', y, st') ->
  forall l pre, rmap (meta st i) = pre ++ l ++ r :: post ->
  (forall q, q ∈ l -> one i q x st = Some (PCACHE_RMAP_AGAIN, Some q, x, st)) ->
  walk_loop one never_done i pre (l ++ r :: post) x st =
  Some (PCACHE_RMAP_SUCCEED, y,
        upd_meta i (with_rmap ((pre ++ l) ++ match r' with Some q => [q] | None => [] end ++ post)) st').
Proof.
  intros Hd Hone l. induction l as [|q l IH]; intros pre Hr Hl.
  - simpl. rewrite Hone. simpl. by rewrite app_nil_r, <- app_assoc.
  - simpl. rewrite (Hl q) by left. simpl.
    rewrite upd_meta_setm, setm_same; [|done|].
    + rewrite (IH (pre ++ [q])); [by rewrite <- (app_assoc pre [q] l)|by rewrite <- app_assoc|intros; apply Hl; by right].
    + rewrite <- app_assoc. simpl. simpl in Hr. rewrite <- Hr. by destruct (meta st i).
Qed.

(** The walk over a locked line whose record is known *)
Lemma rmap_walk_match {A} (one : rmap_one A) i st x y st' r r' pre post :
  is_Some (metas st !! i) -> PC_locked ∈ bits (meta st i) -> rmap (meta st i) = pre ++ r :: post ->
  one i r x st = Some (PCACHE_RMAP_SUCCEED, r', y, st') ->
  (forall q, q ∈ pre -> one i q x st = Some (PCACHE_RMAP_AGAIN, Some q, x, st)) ->
  rmap_walk one never_done i x st =
  Some (PCACHE_RMAP_SUCCEED, y,
        upd_meta i (with_rmap (pre ++ match r' with Some q => [q] | None => [] end ++ post)) st').
Proof.
  intros Hd Hb Hr Hone Hpre. unfold rmap_walk, PcacheBit. rewrite bool_decide_eq_true_2 by done. simpl. rewrite Hr.
  by rewrite (walk_match one i st x y st' r r' post Hd Hone pre []).
Qed.

Lemma remove_rmap_eval i r st b n rc rm p :
  meta st i = Meta b n rc rm p -> r_reserved r = false -> (r_kmalloced r = false -> i ∈ rmap_used st) ->
  __pcache_remove_rmap i r st =
  Some (setm i (Meta (if n - 1 =? 0 then b ∖ {[PC_valid]} else b) (n - 1) rc rm p)
         (set_rmap_used (slot_freed (rmap_used st) i r) st)).
Proof.
  intros Hm Hr Hu. unfold __pcache_remove_rmap, free_pcache_rmap, slot_freed. rewrite Hr. simpl.
  destruct (r_kmalloced r) eqn:Hk; simpl.
  - rewrite rmap_used_id. unfold pcache_mapcount. rewrite Hm. pc_eval. destruct (n - 1 =? 0); rewrite Hm; by pc_eval.
  - rewrite bool_decide_eq_true_2 by auto. simpl. unfold pcache_mapcount. pc_eval. rewrite Hm. pc_eval.
    destruct (n - 1 =? 0); by pc_eval.
Qed.

(** Only one reverse mapping of a line matches. *)
Lemma matched_self r : matched_rmap r (page_table r) (owner_mm r) (address r) = true.
Proof. unfold matched_rmap. by rewrite !Z.eqb_refl, bool_decide_eq_true_2. Qed.

Section one.
Context lk h st i r pre post (Hw : wf lk h st) (Hi : in_lines (geo st) i) (Hr : rmap (meta st i) = pre ++ r :: post).
Abbreviation s := (set_of st i).
Abbreviation rest := (pre ++ post).

Lemma one_in : r ∈ rmap (meta st i).
Proof using Hr. rewrite Hr. apply elem_of_app. right. left. Qed.

Lemma one_mapped : mapped_ok lk st i.
Proof using All. by apply (removed_mapped_ok owner lk h st i r Hw Hi one_in). Qed.

Lemma one_rmap_ok : rmap_ok st i r.
Proof using All. by apply (removed_rmap_ok owner lk h st i r Hw Hi one_in). Qed.

Lemma rest_in q : q ∈ rest -> q ∈ rmap (meta st i).
Proof using Hr. rewrite Hr, !elem_of_app, elem_of_cons. tauto. Qed.

Lemma rest_mm q : q ∈ rest -> owner_mm q <> owner_mm r.
Proof using All.
  intros Hq E. pose proof (mo_nodup _ _ _ _ one_mapped) as Hnd. rewrite Hr, fmap_app, fmap_cons in Hnd.
  rewrite <- Permutation_middle in Hnd. apply list.NoDup_cons in Hnd as [Hn _].
  apply Hn. rewrite <- fmap_app, <- E. by apply list_elem_of_fmap_2.
Qed.

Lemma matched_other q : q ∈ rest -> matched_rmap q (page_table r) (owner_mm r) (address r) = false.
Proof using All.
  intros Hq. unfold matched_rmap. rewrite (proj2 (Z.eqb_neq (owner_mm q) _)) by by apply rest_mm.
  by rewrite andb_false_r.
Qed.

Lemma rest_pte q : q ∈ rest -> page_table q <> page_table r.
Proof using All.
  intros Hq E. apply (rest_mm q Hq). destruct (rmap_line _ _ _ _ _ _ Hw Hi (rest_in q Hq)) as (_ & _ & _ & Ho).
  pose proof one_rmap_ok as Ho'. rewrite (ro_pt _ _ _ _ Ho), (ro_pt _ _ _ _ Ho') in E. by injection E.
Qed.

(** *** The line after the removal *)

Lemma rest_mapped_ok lk' st' :
  rest <> [] -> geo st' = geo st -> line st' i = line st i ->
  meta st' i = Meta (used_bits lk' i) (Z.of_nat (length rest)) (Z.of_nat (length rest)) rest (pb (meta st i)) ->
  (forall q, q ∈ rest -> get_pte st' (page_table q) = get_pte st (page_table q) /\
     backing owner st' (owner_mm q) (address q) = backing owner st (owner_mm q) (address q)) ->
  rmap_used st' = slot_freed (rmap_used st) i r -> mapped_ok lk' st' i.
Proof using All.
  intros Hne Hg Hl HM Hq Hu. pose proof one_mapped as Hm. split; unfold slot_ok; rewrite ?HM; try done; cbn [rmap].
  - pose proof (mo_nodup _ _ _ _ Hm) as Hnd. rewrite Hr, fmap_app, fmap_cons, <- Permutation_middle in Hnd.
    apply list.NoDup_cons in Hnd as [_ Hnd]. by rewrite fmap_app.
  - apply list.Forall_forall. intros q Hin. destruct (Hq q Hin) as [Hp Hb].
    destruct (rmap_line _ _ _ _ _ _ Hw Hi (rest_in q Hin)) as (_ & _ & _ & [? ? ? ? ? ? ? ? Hrw]).
    split; rewrite ?Hg, ?Hp, ?Hb, ?Hl; try done. intros Hx. specialize (Hrw Hx). rewrite Hr in Hrw.
    apply (f_equal length) in Hrw. rewrite length_app in Hrw. simpl in Hrw. exfalso. apply Hne.
    apply nil_length_inv. rewrite length_app. lia.
  - rewrite Hu. by apply (slot_removed owner lk h st i r Hw Hi one_in).
Qed.

(** The mapping removed, in both cases *)
Definition unmapped_state (b : gset pcache_meta_bits) : state :=
  match rest with
  | [] => rebuilt st i r false (Meta ∅ 0 0 [] (pb (meta st i))) (freed_pset st i) (pee_used st)
  | _ => rebuilt st i r false (Meta b (Z.of_nat (length rest)) (Z.of_nat (length rest)) rest (pb (meta st i)))
           (pset st s) (pee_used st)
  end.

Lemma unmapped_state_rebuilt b :
  exists M P, unmapped_state b = rebuilt st i r false M P (pee_used st) /\ rmap M = rest.
Proof using. unfold unmapped_state. destruct rest eqn:E; eexists _, _; (split; [done|]); done. Qed.

Lemma unmapped_present k b :
  p_present (get_pte (unmapped_state b) k) = true ->
  (exists q, q ∈ rmap (meta (unmapped_state b) i) /\ page_table q = k) \/
  (get_pte (unmapped_state b) k = get_pte st k /\ forall q, q ∈ rmap (meta st i) -> page_table q <> k).
Proof using All.
  destruct (unmapped_state_rebuilt b) as (M & P & -> & HM). intros Hk.
  destruct (cleared_present owner lk h st i r Hw Hi one_in false k Hk) as [E Hkr].
  unfold rebuilt at 1. rewrite meta_setm, HM. change (get_pte (rebuilt _ _ _ _ _ _ _)) with (get_pte (cleared st i r false)).
  destruct (decide (Exists (fun q => page_table q = k) rest)) as [(q & Hq & <-)%list.Exists_exists|Hno].
  - left. by exists q.
  - right. split; [done|]. intros q Hq <-. rewrite Hr, elem_of_app, elem_of_cons in Hq. apply Hno, list.Exists_exists.
    exists q. split; [|done]. apply elem_of_app. destruct Hq as [?|[->|?]]; auto. done.
Qed.

Context (Hh : h = None \/ exists j, h = Some (j, None)).

Lemma one_not_held : fst <$> h <> Some i.
Proof using All. by apply (rmap_line _ _ _ _ _ _ Hw Hi one_in). Qed.

Lemma one_evictions s' n : evictions owner h n s' = [].
Proof using Hh. clear Hw. by destruct Hh as [->|[j ->]]. Qed.

Lemma one_held_change : held_change i h h.
Proof using All.
  pose proof one_not_held as Hn. destruct Hh as [->|[j ->]]; [left; split; by left|]. right. split; [done|].
  exists j. split; [|done]. naive_solver.
Qed.

Lemma unmapped_wf lk' :
  (forall j, j <> i -> used_bits lk' j = used_bits lk j) -> wf lk' h (unmapped_state (used_bits lk' i)).
Proof using All.
  intros Hb. pose proof one_in as Hin. pose proof (wf_sets _ _ _ _ Hw s (set_of_in _ _ _ _ _ Hw Hi)) as Hso.
  pose proof (removed_lru owner lk h st i r Hw Hi Hin) as Hlru.
  assert (Hch : changed owner i st (unmapped_state (used_bits lk' i))).
  { destruct (unmapped_state_rebuilt (used_bits lk' i)) as (M & P & -> & _). by apply (rebuilt_changed owner lk h). }
  pose proof (unmapped_present) as Hpres.
  assert (Habs : forall m a, user_page a -> p_present (get_pte (unmapped_state (used_bits lk' i)) (pte_offset m a)) = false ->
    absent_ok owner (unmapped_state (used_bits lk' i)) m a).
  { destruct (unmapped_state_rebuilt (used_bits lk' i)) as (M & P & -> & _). intros m a Ha.
    apply (cleared_absent owner lk h st i r Hw Hi Hin false m a Ha). }
  apply (wf_change owner lk h lk' h i st _ Hw Hi Hch Hb). specialize (fun k => Hpres k (used_bits lk' i)).
  unfold unmapped_state in *. destruct rest as [|q0 l0] eqn:Erest.
  - assert (HP : pset (rebuilt st i r false (Meta ∅ 0 0 [] (pb (meta st i))) (freed_pset st i) (pee_used st)) s = freed_pset st i)
      by apply pset_setp.
    split; rewrite ?HP; cbn [free_head lru_list freed_pset]; try done; try apply one_held_change.
    + apply (freed_set_ok owner st i h h); try done.
    + intros j Hj [->|?]%elem_of_cons; done.
    + intros j Hj. rewrite elem_of_list_del. naive_solver.
    + intros _. unfold free_ok, unmapped. unfold rebuilt. rewrite meta_setm. split_and!; try done.
      pose proof (slot_removed owner lk h st i r Hw Hi Hin pre post Hr) as Hs. rewrite Erest in Hs. simpl in Hs.
      by destruct (bool_decide_reflect (i ∈ slot_freed (rmap_used st) i r)).
    + by intros ?%list_del_not_in.
    + intros o Ho. exfalso. apply one_not_held. by rewrite Ho.
    + apply (wf_piggybacker _ _ _ _ Hw).
    + apply (wf_pee _ _ _ _ Hw).
  - rewrite <- Erest in *.
    match goal with |- line_goal _ _ _ _ _ _ ?x => assert (HP : pset x s = pset st s) by apply pset_setp end.
    split; rewrite ?HP; try done; try apply one_held_change.
    + apply (set_ok_perm owner h h st); rewrite ?HP; try done; apply Hso.
    + intros Hf. pose proof (so_nodup _ _ _ _ Hso) as (_ & Hd & _)%list.NoDup_app. by destruct (Hd i Hf).
    + intros _ _. apply rest_mapped_ok; try done; [by rewrite Erest|by unfold rebuilt; rewrite meta_setm|].
      intros q Hq. split; [|done]. etrans; [apply (cleared_pte owner lk h st i r Hw Hi Hin)|].
      rewrite decide_False; [done|]. by apply rest_pte.
    + intros o Ho. exfalso. apply one_not_held. by rewrite Ho.
    + apply (wf_piggybacker _ _ _ _ Hw).
    + apply (wf_pee _ _ _ _ Hw).
Qed.

(** Only the page of the removed mapping is seen otherwise: as the memory component has it. *)
Lemma unmapped_views lk' m a :
  (forall j, j <> i -> used_bits lk' j = used_bits lk j) -> user_page a ->
  view owner (unmapped_state (used_bits lk' i)) m a =
  if decide ((m, a) = (owner_mm r, address r)) then backing owner st m a else view owner st m a.
Proof using All.
  intros Hb Ha. pose proof (unmapped_wf lk' Hb) as Hw'. pose proof one_in as Hin.
  assert (Hpend : pending owner (unmapped_state (used_bits lk' i)) m a = None).
  { rewrite (pending_wf _ _ _ _ _ _ Hw' Ha). by destruct Hh as [->|[j ->]]. }
  destruct (unmapped_state_rebuilt (used_bits lk' i)) as (M & P & E & _). rewrite E in *. case_decide as Ek.
  - injection Ek as -> ->. pose proof one_rmap_ok as Ho. unfold view. rewrite Hpend.
    change (get_pte (rebuilt _ _ _ _ _ _ _)) with (get_pte (cleared st i r false)).
    rewrite (cleared_pte owner lk h st i r Hw Hi Hin), decide_True by (symmetry; apply Ho). done.
  - apply (rebuilt_other_views owner lk h st i r Hw Hi Hin _ _ _ _ _ _ _ _ Hw' Ha Ek).
    rewrite Hpend, (pending_wf _ _ _ _ _ _ Hw Ha). by destruct Hh as [->|[j ->]].
Qed.
End one.

(** ** Locking a mapped line *)

Definition relocked (b : gset pcache_meta_bits) i st : state := setm i (with_bits b (meta st i)) st.

Lemma relocked_wf lk lk' h i st :
  wf lk h st -> in_lines (geo st) i -> rmap (meta st i) <> [] ->
  (forall j, j <> i -> used_bits lk' j = used_bits lk j) -> wf lk' h (relocked (used_bits lk' i) i st).
Proof.
  intros Hw Hi Hr Hb.
  assert (Hm : i ∈ lru_list (pset st (set_of st i)) /\ fst <$> h <> Some i /\ mapped_ok lk st i).
  { destruct (rmap (meta st i)) as [|r l] eqn:E; [done|]. assert (Hin : r ∈ rmap (meta st i)) by (rewrite E; left).
    destruct (rmap_line _ _ _ _ _ _ Hw Hi Hin) as (? & ? & ? & ?). done. }
  destruct Hm as (Hl & Hh & Hm). destruct Hw as [H1 H2 H3 H4 H5 H6 H7 H8 H9 H10 H11].
  assert (Hme : forall j, rmap (meta (relocked (used_bits lk' i) i st) j) = rmap (meta st j)).
  { intros j. unfold relocked. destruct (decide (j = i)) as [->|]; [by rewrite meta_setm|by rewrite meta_setm_ne]. }
  assert (Hfree : forall j, j <> i -> meta (relocked (used_bits lk' i) i st) j = meta st j).
  { intros j Hj. unfold relocked. by rewrite meta_setm_ne. }
  split; try done.
  - intros j Hj. simpl. destruct (decide (j = i)) as [->|]; [by rewrite lookup_insert_eq|by rewrite lookup_insert_ne; auto].
  - intros s Hs. destruct (H4 s Hs). by split.
  - intros s j Hs Hj. destruct (H5 s j Hs Hj) as [[? [? ?]] ?]. assert (j <> i) by congruence.
    apply (free_ok_frame st); try done; by apply Hfree.
  - intros s j Hs Hj Hx. pose proof (H6 s j Hs Hj Hx) as Hmj. destruct (decide (j = i)) as [->|Hne].
    + destruct Hmj as [? ? ? ? ? HF ?]. split; unfold slot_ok; rewrite ?Hme; try done;
        try (unfold relocked; rewrite meta_setm; done).
      apply list.Forall_forall. intros r Hin. apply (rmap_ok_frame owner st); try done.
      by apply (proj1 (list.Forall_forall _ _) HF).
    + apply (mapped_ok_frame owner lk' st); try done; [by apply Hfree|]. destruct Hmj. split; try done. by rewrite Hb.
  - intros j o Ho. destruct (H7 j o Ho) as (? & ? & [(? & ? & ?) ?]). assert (j <> i) by (intros ->; by rewrite Ho in Hh).
    split; [done|]. split; [done|]. unfold held_ok, unmapped. rewrite Hfree by done. done.
  - intros k Hk. destruct (H8 k Hk) as (j & r & Hj & Hin & <-). exists j, r. by rewrite Hme.
Qed.

Lemma relocked_views b i st : same_views owner st (relocked b i st).
Proof. done. Qed.

Definition locked_bits : gset pcache_meta_bits := {[PC_locked; PC_valid]}.

Lemma used_bits_lock i : used_bits (Some i) i = locked_bits.
Proof. unfold used_bits. by rewrite decide_True. Qed.
Lemma used_bits_none i : used_bits None i = {[PC_valid]}.
Proof. unfold used_bits. by rewrite decide_False. Qed.
Lemma used_bits_other i j : j <> i -> used_bits (Some i) j = used_bits None j.
Proof. intros. unfold used_bits. by rewrite !decide_False by congruence. Qed.

Lemma lock_eval i pt p st :
  mapped_ok None st i -> lock_pcache_pte quiet i pt p st = Some (true, relocked locked_bits i st).
Proof.
  intros Hm. unfold lock_pcache_pte, trylock_pcache, PcacheBit. rewrite (mo_bits _ _ _ _ Hm), used_bits_none. pc_bits.
  unfold relocked. pc_rewrite. by rewrite (mo_bits _ _ _ _ Hm), used_bits_none.
Qed.

(** ** [pcache_zap_pte] *)
Section zap.
Context h st i r pre post (Hw : wf None h st) (Hi : in_lines (geo st) i) (Hr : rmap (meta st i) = pre ++ r :: post).
Abbreviation s := (set_of st i).

(** The end of a removal: the line is unlocked, then its reference is dropped. *)
Lemma unlock_put_eval n :
  n = Z.of_nat (length (pre ++ post)) + 1 ->
  (st1 ← unlock_pcache i
     (setm i (Meta (if n - 1 =? 0 then locked_bits ∖ {[PC_valid]} else locked_bits) (n - 1) n (pre ++ post) (pb (meta st i)))
        (set_rmap_used (slot_freed (rmap_used st) i r) (pte_set (page_table r) pte_zero st)));
   st1 ← put_pcache i st1; Some (0, st1)) =
  Some (0, unmapped_state st i r pre post {[PC_valid]}).
Proof using All.
  intros ->. pose proof (wf_psets _ _ _ _ Hw s (set_of_in _ _ _ _ _ Hw Hi)) as Hd.
  unfold unlock_pcache, unmapped_state, rebuilt, cleared, pte_clear. rewrite PcacheBit_setm.
  destruct (pre ++ post) as [|q l].
  - simpl. replace (0 + 1) with 1 by done. cbn [Z.sub Z.add Z.opp Z.pos_sub Z.eqb]. unfold locked_bits. pc_bits. cbn [negb mbind option_bind].
    pc_rewrite. unfold with_bits. cbn [bits mapcount _refcount rmap pb].
    replace ({[PC_locked; PC_valid]} ∖ {[PC_valid]} ∖ {[PC_locked]} : gset pcache_meta_bits) with (∅ : gset pcache_meta_bits) by by vm_compute.
    erewrite put_last_eval by done. done.
  - set (n := Z.of_nat (length (q :: l))). assert (1 <= n) by (unfold n; simpl; lia).
    rewrite (proj2 (Z.eqb_neq (n + 1 - 1) 0)) by lia. unfold locked_bits. pc_bits. cbn [negb mbind option_bind].
    pc_rewrite. unfold with_bits. cbn [bits mapcount _refcount rmap pb].
    replace ({[PC_locked; PC_valid]} ∖ {[PC_locked]} : gset pcache_meta_bits) with ({[PC_valid]} : gset pcache_meta_bits) by by vm_compute.
    erewrite put_other_eval by lia. cbn [mbind option_bind]. rewrite setp_same; [|done|done].
    by replace (n + 1 - 1) with n by lia.
Qed.

Lemma zap_pte_eval addr :
  Z.land addr PAGE_MASK = address r ->
  pcache_zap_pte quiet (owner_mm r) addr (get_pte st (page_table r)) (page_table r) st =
  Some (0, unmapped_state st i r pre post {[PC_valid]}).
Proof using All.
  intros Ha. pose proof (one_in st i r pre post Hr) as Hin.
  pose proof (one_mapped None h st i r pre post Hw Hi Hr) as Hm. pose proof (mapped_meta _ _ _ _ Hm) as HM.
  pose proof (one_rmap_ok None h st i r pre post Hw Hi Hr) as Ho.
  unfold pcache_zap_pte. rewrite (rmap_pte_meta _ _ _ _ _ _ Hw Hi Hin), (lock_eval _ _ _ _ Hm). cbn [mbind option_bind negb].
  rewrite Ha. unfold relocked. rewrite HM. unfold with_bits. cbn [mapcount _refcount rmap pb].
  set (n := Z.of_nat (length (rmap (meta st i)))).
  set (st1 := setm i _ st). assert (HM1 : meta st1 i = Meta locked_bits n n (rmap (meta st i)) (pb (meta st i))) by apply meta_setm.
  erewrite (rmap_walk_match _ i st1 false true _ r None pre post);
    [|unfold st1; simpl; by rewrite lookup_insert_eq|rewrite HM1; cbn [bits]; set_solver|by rewrite HM1| |].
  2:{ unfold __pcache_zap_pte. rewrite matched_self. unfold pte_clear.
      erewrite remove_rmap_eval; [|unfold pte_clear; by rewrite meta_pte_set, HM1|apply Ho|].
      - cbn [mbind option_bind]. done.
      - apply (slot_freed_used owner None h st i r Hw Hi Hin). }
  2:{ intros q Hq. unfold __pcache_zap_pte. rewrite (matched_other None h st i r pre post Hw Hi Hr); [done|].
      apply elem_of_app. by left. }
  cbn [mbind option_bind app]. rewrite upd_meta_setm, meta_setm, setm_setm. unfold with_rmap.
  cbn [bits mapcount _refcount rmap pb]. unfold st1. change (rmap_used (pte_set _ _ (setm _ _ st))) with (rmap_used st).
  pc_rewrite. cbn [negb]. apply unlock_put_eval. unfold n. rewrite Hr, !length_app. simpl. lia.
Qed.
End zap.
End unmap.

(** ** Ranges of pages

    [unmap_page_range] and [pcache_process_exit]: the pages of the range leave the
    pcache, the other ones are not touched. *)

Section range.
Context {R : Type} `{!MemoryNode R, !MemoryLaws R} (owner : Z -> task) `{!Processes owner}.
Abbreviation state := (pcache R).
Abbreviation wf := (PcacheSpec.wf owner).
Abbreviation mapped_ok := (PcacheSpec.mapped_ok owner).
Abbreviation rmap_ok := (PcacheSpec.rmap_ok owner).
(** ** Entries that are not present *)

Lemma absent_set_wf st m a p :
  wf None None st -> user_page a -> p_present (get_pte st (pte_offset m a)) = false -> p_present p = false ->
  p = pte_zero \/ p = pte_mkzerofill pte_zero /\ backing owner st m a = Some zero_line ->
  wf None None (pte_set (pte_offset m a) p st).
Proof.
  intros Hw Ha Hab Hp Hok. pose proof Hw as [H1 H2 H3 H4 H5 H6 H7 H8 H9 H10 H11]. split; try done.
  - intros s Hs. destruct (H4 s Hs). by split.
  - intros s i Hs Hi Hh. destruct (lru_line _ _ _ _ _ _ Hw Hs Hi) as [Hin _].
    apply (mapped_ok_frame owner None st); try done; [|by apply (H6 s)].
    intros r Hr. split; [|done]. apply get_pte_set_ne. intros E.
    destruct (rmap_line _ _ _ _ _ _ Hw Hin Hr) as (_ & _ & _ & Ho). pose proof (ro_present _ _ _ _ Ho) as Hx.
    by rewrite <- E, Hab in Hx.
  - intros k. destruct (decide (k = pte_offset m a)) as [->|Hne]; [by rewrite get_pte_set, Hp|].
    rewrite get_pte_set_ne by done. apply H8.
  - intros m' a' Ha'. unfold absent_ok. destruct (decide (pte_offset m' a' = pte_offset m a)) as [E|Hne].
    + rewrite E, get_pte_set. intros _. apply pte_offset_inj in E as [-> ->]; done.
    + rewrite get_pte_set_ne by done. by apply H9.
Qed.

(** ** Unmapping *)

(** The pages of [P] are unmapped: the processes see there what the memory component
    has, and nothing else has changed. *)
Record unmaps (P : Z -> Z -> bool) st st' : Prop := {
  um_wf : wf None None st';
  um_geo : geo st' = geo st;
  um_memory : memory st' = memory st;
  um_kz : kz st' = kz st;
  um_warned : warned st' = warned st;
  um_pte : forall m a, user_page a ->
    get_pte st' (pte_offset m a) = if P m a then pte_zero else get_pte st (pte_offset m a);
  um_view : forall m a, user_page a -> P m a = false -> view owner st' m a = view owner st m a
}.

Lemma unmaps_view P st st' m a :
  unmaps P st st' -> user_page a -> P m a = true -> view owner st' m a = backing owner st m a.
Proof.
  intros Hu Ha HP. unfold view. rewrite (um_pte _ _ _ Hu m a Ha), HP, (pending_wf _ _ _ _ _ _ (um_wf _ _ _ Hu) Ha).
  simpl. unfold backing. by rewrite (um_memory _ _ _ Hu).
Qed.

Lemma unmaps_none st : wf None None st -> unmaps (fun _ _ => false) st st.
Proof. by split. Qed.

Lemma unmaps_trans P Q st st1 st2 :
  unmaps P st st1 -> unmaps Q st1 st2 -> unmaps (fun m a => P m a || Q m a) st st2.
Proof.
  intros HP HQ. split.
  - apply HQ.
  - by rewrite (um_geo _ _ _ HQ), (um_geo _ _ _ HP).
  - by rewrite (um_memory _ _ _ HQ), (um_memory _ _ _ HP).
  - by rewrite (um_kz _ _ _ HQ), (um_kz _ _ _ HP).
  - by rewrite (um_warned _ _ _ HQ), (um_warned _ _ _ HP).
  - intros m a Ha. rewrite (um_pte _ _ _ HQ m a Ha), (um_pte _ _ _ HP m a Ha).
    by destruct (P m a), (Q m a).
  - intros m a Ha [HPf HQf]%orb_false_iff. by rewrite (um_view _ _ _ HQ), (um_view _ _ _ HP).
Qed.

Lemma unmaps_ext P Q st st' :
  (forall m a, user_page a -> P m a = Q m a) -> unmaps P st st' -> unmaps Q st st'.
Proof.
  intros HPQ []. split; try done; intros m a Ha; rewrite <- HPQ by done; auto.
Qed.

Definition is_page (m a m' a' : Z) : bool := (m' =? m) && (a' =? a).

Lemma is_page_offset m a m' a' :
  user_page a -> user_page a' -> is_page m a m' a' = bool_decide (pte_offset m' a' = pte_offset m a).
Proof.
  intros Ha Ha'. unfold is_page. case_bool_decide as E.
  - apply pte_offset_inj in E as [-> ->]; try done. by rewrite !Z.eqb_refl.
  - destruct (Z.eqb_spec m' m) as [->|]; [|done]. destruct (Z.eqb_spec a' a) as [->|]; done.
Qed.

(** Clearing an entry that is not present *)
Lemma clear_absent_unmaps st m a :
  wf None None st -> user_page a -> p_present (get_pte st (pte_offset m a)) = false ->
  unmaps (is_page m a) st (pte_clear (pte_offset m a) st).
Proof.
  intros Hw Ha Hab. assert (Hw' : wf None None (pte_clear (pte_offset m a) st)) by (apply absent_set_wf; auto).
  assert (Hpte : forall m' a', user_page a' -> get_pte (pte_clear (pte_offset m a) st) (pte_offset m' a') =
    if is_page m a m' a' then pte_zero else get_pte st (pte_offset m' a')).
  { intros m' a' Ha'. rewrite is_page_offset by done. unfold pte_clear. case_bool_decide as E.
    - rewrite E. apply get_pte_set.
    - by apply get_pte_set_ne. }
  split; try done. intros m' a' Ha' HP. apply (view_frame owner _ _ _ _ _ _ _ _ Hw Hw'); try done.
  by rewrite Hpte, HP.
Qed.

(** Zapping an entry that is present *)
Lemma zap_present_unmaps st m a :
  wf None None st -> user_page a -> p_present (get_pte st (pte_offset m a)) = true ->
  exists st', pcache_zap_pte quiet m a (get_pte st (pte_offset m a)) (pte_offset m a) st = Some (0, st') /\
    unmaps (is_page m a) st st'.
Proof.
  intros Hw Ha Hp. destruct (wf_present _ _ _ _ Hw _ Hp) as (i & r & Hi & Hin & E).
  destruct (rmap_line _ _ _ _ _ _ Hw Hi Hin) as (_ & _ & _ & Ho).
  pose proof E as E'. rewrite (ro_pt _ _ _ _ Ho) in E'. apply pte_offset_inj in E' as [Em Ea]; [|apply Ho|done].
  apply list_elem_of_split in Hin as (pre & post & Hr).
  assert (Haddr : Z.land a PAGE_MASK = address r) by (rewrite Ea; by apply line_mask_page).
  pose proof (zap_pte_eval owner None st i r pre post Hw Hi Hr a Haddr) as Hz. rewrite Em, E in Hz.
  eexists. split; [exact Hz|]. rewrite <- (used_bits_none i).
  assert (Hh : @None (Z * option (Z * Z)) = None \/ exists j, @None (Z * option (Z * Z)) = Some (j, None)) by by left.
  pose proof (unmapped_wf owner None None st i r pre post Hw Hi Hr Hh None ltac:(done)) as Hw'.
  destruct (unmapped_state_rebuilt st i r pre post (used_bits None i)) as (M & P & ER & _).
  split; [done|by rewrite ER..| |].
  - intros m' a' Ha'. rewrite ER, is_page_offset by done.
    change (get_pte (rebuilt st i r false M P (pee_used st))) with (get_pte (cleared st i r false)).
    rewrite (cleared_pte owner None None st i r Hw Hi (one_in st i r pre post Hr)), E.
    case_decide as Ek; [by rewrite bool_decide_eq_true_2|by rewrite bool_decide_eq_false_2].
  - intros m' a' Ha' HP. rewrite (unmapped_views owner None None st i r pre post Hw Hi Hr Hh None m' a' ltac:(done) Ha').
    rewrite decide_False; [done|]. rewrite Em, Ea. intros [= -> ->]. unfold is_page in HP. by rewrite !Z.eqb_refl in HP.
Qed.

Lemma zap_one_unmaps tries st m a :
  wf None None st -> user_page a ->
  exists st', zap_one quiet tries m a st = Some st' /\ unmaps (is_page m a) st st'.
Proof.
  intros Hw Ha. assert (Hun : forall n, zap_one quiet n m a st =
    let ptent := get_pte st (pte_offset m a) in
    if pte_none ptent then Some st
    else if p_present ptent then
      '(ret, st') ← pcache_zap_pte quiet m a ptent (pte_offset m a) st;
      if ret =? 0 then Some st'
      else if ret =? - EAGAIN then match n with O => None | S n => zap_one quiet n m a st' end
      else Some (pte_clear (pte_offset m a) (WARN st'))
    else Some (pte_clear (pte_offset m a) st)) by by destruct n.
  rewrite Hun. cbv zeta. clear Hun. destruct (p_present (get_pte st (pte_offset m a))) eqn:Hp.
  - assert (pte_none (get_pte st (pte_offset m a)) = false) as -> by (unfold pte_none; by rewrite Hp).
    destruct (zap_present_unmaps st m a Hw Ha Hp) as (st' & -> & Hu). cbn [mbind option_bind Z.eqb]. by exists st'.
  - destruct (wf_absent _ _ _ _ Hw m a Ha Hp) as [E|[E _]]; rewrite E; cbn.
    + exists st. split; [done|]. split; try done. intros m' a' Ha'. rewrite is_page_offset by done.
      case_bool_decide as Ek; [by rewrite Ek|done].
    + eexists. split; [done|]. by apply clear_absent_unmaps.
Qed.

(** The [n] pages from [addr] on *)
Definition in_range (m addr : Z) (n : nat) (m' a' : Z) : bool :=
  (m' =? m) && (addr <=? a') && (a' <? addr + Z.of_nat n * PAGE_SIZE).

Lemma user_page_next a : user_page a -> a + PAGE_SIZE < ULONG_MOD -> user_page (a + PAGE_SIZE).
Proof.
  intros [Ha Hp] Hlt. unfold user_page, is_u64, page_aligned in *. rewrite PAGE_SIZE_eq in *. split; [lia|].
  replace (a + 4096) with (a + 1 * 4096) by lia. by rewrite Z.mod_add.
Qed.

Lemma in_range_S m addr n m' a' :
  user_page addr -> user_page a' ->
  is_page m addr m' a' || in_range m (addr + PAGE_SIZE) n m' a' = in_range m addr (S n) m' a'.
Proof.
  intros [_ Hp] [_ Hp']. unfold is_page, in_range, page_aligned in *. rewrite PAGE_SIZE_eq in *.
  destruct (Z.eqb_spec m' m); [|done]. simpl.
  pose proof (Z.div_mod addr 4096). pose proof (Z.div_mod a' 4096).
  destruct (Z.eqb_spec a' addr) as [->|].
  - simpl. symmetry. apply andb_true_intro. split; [apply Z.leb_refl|apply Z.ltb_lt; lia].
  - simpl. destruct (Z.leb_spec (addr + 4096) a'), (Z.leb_spec addr a'); simpl; try lia; try done.
    f_equal. lia.
Qed.

Lemma unmaps_no_pages m addr st : wf None None st -> unmaps (in_range m addr 0) st st.
Proof.
  intros Hw. eapply unmaps_ext; [|by apply unmaps_none]. intros m' a' _. unfold in_range.
  destruct (Z.eqb_spec m' m); [|done]. simpl. destruct (Z.leb_spec addr a'); [|done]. simpl. symmetry. apply Z.ltb_ge. lia.
Qed.

Lemma unmaps_pages m addr n st st1 st2 :
  user_page addr -> unmaps (is_page m addr) st st1 -> unmaps (in_range m (addr + PAGE_SIZE) n) st1 st2 ->
  unmaps (in_range m addr (S n)) st st2.
Proof.
  intros Ha H1 H2. eapply unmaps_ext; [|by eapply unmaps_trans]. intros m' a' Ha'. by apply in_range_S.
Qed.

(** Induction over the pages of a range *)
Lemma range_unmaps (P : nat -> Z -> state -> Prop) (f : nat -> Z -> state -> option state) m :
  (forall addr st, f O addr st = Some st) ->
  (forall n addr st, wf None None st -> user_page addr -> P (S n) addr st ->
     exists st1, f (S n) addr st = f n (addr + PAGE_SIZE) st1 /\ unmaps (is_page m addr) st st1 /\ P n (addr + PAGE_SIZE) st1) ->
  forall n addr st, wf None None st -> (n = O \/ user_page addr) -> addr + Z.of_nat n * PAGE_SIZE <= ULONG_MOD -> P n addr st ->
  exists st', f n addr st = Some st' /\ unmaps (in_range m addr n) st st'.
Proof.
  intros H0 HS n. induction n as [|n IH]; intros addr st Hw Ha Hn HP.
  - exists st. split; [done|]. by apply unmaps_no_pages.
  - destruct Ha as [?|Ha]; [done|]. destruct (HS n addr st Hw Ha HP) as (st1 & -> & H1 & HP1).
    destruct (IH (addr + PAGE_SIZE) st1) as (st2 & -> & H2); try done.
    + apply H1.
    + destruct n; [by left|right]. apply user_page_next; [done|]. rewrite PAGE_SIZE_eq in *. lia.
    + lia.
    + exists st2. split; [done|]. by eapply unmaps_pages.
Qed.

Lemma zap_range_unmaps tries m n addr st :
  wf None None st -> user_page addr -> addr + Z.of_nat n * PAGE_SIZE <= ULONG_MOD ->
  exists st', zap_pte_range quiet tries n m addr st = Some st' /\ unmaps (in_range m addr n) st st'.
Proof.
  intros Hw Ha Hn.
  apply (range_unmaps (fun _ _ _ => True) (fun n addr st => zap_pte_range quiet tries n m addr st)); auto.
  intros n' addr' st' Hw' Ha' _. destruct (zap_one_unmaps tries st' m addr' Hw' Ha') as (st1 & E & H1).
  exists st1. cbn [zap_pte_range]. rewrite E. done.
Qed.

Lemma nr_pages_range addr end_ : page_aligned addr -> page_aligned end_ -> addr < end_ ->
  addr + Z.of_nat (nr_pages addr end_) * PAGE_SIZE = end_.
Proof.
  intros Ha He Hlt. unfold nr_pages, page_aligned in *. rewrite PAGE_SIZE_eq in *.
  pose proof (Z.div_mod addr 4096). pose proof (Z.div_mod end_ 4096).
  replace (end_ - addr) with ((end_ / 4096 - addr / 4096) * 4096) by lia. rewrite Z.div_mul by done. lia.
Qed.

Definition in_pages (m start end_ m' a' : Z) : bool := (m' =? m) && (start <=? a') && (a' <? end_).

Lemma in_range_pages m start end_ m' a' :
  page_aligned start -> page_aligned end_ -> start < end_ ->
  in_range m start (nr_pages start end_) m' a' = in_pages m start end_ m' a'.
Proof. intros Hs He Hlt. unfold in_range, in_pages. by rewrite nr_pages_range. Qed.

Lemma unmap_page_range_unmaps tries m start end_ st :
  wf None None st -> user_page start -> page_aligned end_ -> start < end_ -> end_ <= ULONG_MOD ->
  exists st', unmap_page_range quiet tries m start end_ st = Some st' /\ unmaps (in_pages m start end_) st st'.
Proof.
  intros Hw Hs He Hlt Hend. unfold unmap_page_range. rewrite (proj2 (Z.leb_gt end_ start)) by done.
  destruct (zap_range_unmaps tries m (nr_pages start end_) start st Hw Hs) as (st' & -> & Hu).
  { rewrite nr_pages_range by (done || apply Hs). done. }
  exists st'. split; [done|]. eapply unmaps_ext; [|exact Hu]. intros m' a' _. apply in_range_pages; [apply Hs|done|done].
Qed.

(** ** The end of a process *)

Lemma free_range_unmaps m n addr st :
  wf None None st -> user_page addr -> addr + Z.of_nat n * PAGE_SIZE <= ULONG_MOD ->
  (forall a, user_page a -> in_range m addr n m a = true -> get_pte st (pte_offset m a) = pte_zero) ->
  unmaps (in_range m addr n) st (free_pte_range n m addr st).
Proof.
  intros Hw Ha Hn Hz.
  destruct (range_unmaps (fun n addr st => forall a, user_page a -> in_range m addr n m a = true ->
      get_pte st (pte_offset m a) = pte_zero) (fun n addr st => Some (free_pte_range n m addr st)) m) with (n := n) (addr := addr) (st := st)
    as (st' & [= <-] & Hu); auto.
  intros n' addr' st1 Hw1 Ha1 Hz1. eexists. split; [done|].
  assert (Hp : get_pte st1 (pte_offset m addr') = pte_zero).
  { apply Hz1; [done|]. rewrite <- in_range_S by done. unfold is_page. by rewrite !Z.eqb_refl. }
  pose proof (clear_absent_unmaps st1 m addr' Hw1 Ha1 ltac:(by rewrite Hp)) as Hu. split; [done|].
  intros a Hpa Hin. rewrite (um_pte _ _ _ Hu) by done. destruct (is_page m addr' m a) eqn:E; [done|].
  apply Hz1; [done|]. rewrite <- in_range_S, Hin by done. by rewrite orb_true_r.
Qed.

Lemma free_pgd_range_unmaps m start end_ st :
  wf None None st -> user_page start -> page_aligned end_ -> start < end_ -> end_ <= ULONG_MOD ->
  (forall a, user_page a -> in_pages m start end_ m a = true -> get_pte st (pte_offset m a) = pte_zero) ->
  unmaps (in_pages m start end_) st (free_pgd_range m start end_ st).
Proof.
  intros Hw Hs He Hlt Hend Hz. unfold free_pgd_range. destruct Hs as [Hu64 Hal].
  assert (Hw1 : end_ -u 1 = end_ - 1) by (apply wrap_small; unfold is_u64 in *; lia).
  rewrite Hw1. rewrite (proj2 (Z.ltb_ge (end_ - 1) start)) by lia.
  eapply unmaps_ext; [intros m' a' _; by apply in_range_pages|].
  apply free_range_unmaps; [done|done|by rewrite nr_pages_range|]. intros a Ha Hin. apply Hz; [done|].
  by rewrite <- in_range_pages.
Qed.

Lemma release_pgtable_unmaps tries tsk start end_ st :
  wf None None st -> user_page start -> page_aligned end_ -> start < end_ -> end_ <= ULONG_MOD ->
  exists st', release_pgtable quiet tries tsk start end_ st = Some st' /\ unmaps (in_pages (t_mm tsk) start end_) st st'.
Proof.
  intros Hw Hs He Hlt Hend.
  destruct (unmap_page_range_unmaps tries (t_mm tsk) start end_ st) as (st1 & E1 & H1); try done.
  unfold release_pgtable. rewrite E1. cbn [mbind option_bind]. eexists. split; [done|].
  eapply unmaps_ext; [|eapply unmaps_trans; [exact H1|apply free_pgd_range_unmaps; try done; [apply H1|]]].
  - intros m' a' _. cbv beta. apply orb_diag.
  - intros a Ha Hin. by rewrite (um_pte _ _ _ H1), Hin.
Qed.

Lemma process_exit_unmaps tries tsk st :
  wf None None st ->
  exists st', pcache_process_exit quiet tries tsk st = Some st' /\ unmaps (in_pages (t_mm tsk) PAGE_SIZE TASK_SIZE) st st'.
Proof.
  intros Hw. apply release_pgtable_unmaps; [done|split; [split; [by vm_compute|by vm_compute]|done]|done|by vm_compute|by vm_compute].
Qed.

(** Without an entry there is no reverse mapping. *)
Lemma no_entry_no_rmap lk h st m i r :
  wf lk h st -> (forall a, user_page a -> p_present (get_pte st (pte_offset m a)) = false) ->
  in_lines (geo st) i -> r ∈ rmap (meta st i) -> owner_mm r <> m.
Proof.
  intros Hw Hz Hi Hr E. destruct (rmap_line _ _ _ _ _ _ Hw Hi Hr) as (_ & _ & _ & Ho).
  pose proof (ro_present _ _ _ _ Ho) as Hp. rewrite (ro_pt _ _ _ _ Ho), E, Hz in Hp; [done|apply Ho].
Qed.

(** What is left of the lines: no line is mapped from the pages that are gone, and a line
    that was mapped from nowhere else is free. *)
Lemma unmaps_rmaps P st st' i r :
  unmaps P st st' -> in_lines (geo st') i -> r ∈ rmap (meta st' i) -> P (owner_mm r) (address r) = false.
Proof.
  intros Hu Hi Hr. destruct (rmap_line _ _ _ _ _ _ (um_wf _ _ _ Hu) Hi Hr) as (_ & _ & _ & Ho).
  pose proof (ro_present _ _ _ _ Ho) as Hp. rewrite (ro_pt _ _ _ _ Ho), (um_pte _ _ _ Hu) in Hp by apply Ho.
  by destruct (P (owner_mm r) (address r)).
Qed.

Lemma unmaps_frees P st st' i :
  wf None None st -> unmaps P st st' -> in_lines (geo st) i -> (forall r, r ∈ rmap (meta st i) -> P (owner_mm r) (address r) = true) ->
  i ∈ free_head (pset st' (i mod nr_cachesets (geo st))).
Proof.
  intros Hw Hu Hi Hall. pose proof (um_wf _ _ _ Hu) as Hw'. pose proof Hi as Hi'. rewrite <- (um_geo _ _ _ Hu) in Hi' |- *.
  destruct (line_cases _ _ _ _ _ Hw' Hi') as [[Hf _]|[(o & ? & _)|(_ & _ & Hm)]]; [done|done|]. exfalso.
  destruct (rmap (meta st' i)) as [|r l] eqn:Er; [by apply (mo_some _ _ _ _ Hm)|].
  assert (Hr : r ∈ rmap (meta st' i)) by (rewrite Er; left). pose proof (unmaps_rmaps P st st' i r Hu Hi' Hr) as HP.
  destruct (rmap_line _ _ _ _ _ _ Hw' Hi' Hr) as (_ & _ & _ & Ho). pose proof (ro_page _ _ _ _ Ho) as Hup.
  pose proof (ro_present _ _ _ _ Ho) as Hp. pose proof (ro_pfn _ _ _ _ Ho) as Hpf.
  rewrite (ro_pt _ _ _ _ Ho), (um_pte _ _ _ Hu), HP in Hp, Hpf by done.
  destruct (wf_present _ _ _ _ Hw _ Hp) as (j & r0 & Hj & Hr0 & E0). destruct (rmap_line _ _ _ _ _ _ Hw Hj Hr0) as (_ & _ & _ & Ho0).
  rewrite <- E0, (ro_pfn _ _ _ _ Ho0), (um_geo _ _ _ Hu) in Hpf. apply line_pfn_inj in Hpf as ->. rewrite (ro_pt _ _ _ _ Ho0) in E0.
  apply pte_offset_inj in E0 as [E1 E2]; [|apply Ho0|done]. specialize (Hall r0 Hr0). rewrite E1, E2 in Hall. congruence.
Qed.
End range.
