(* ===== verification/PcacheWp.v ===== *)
(** * Pcache: write faults

    [pcache_do_wp_page]: a line with one mapping becomes writable, a shared one is
    copied; and [pcache_handle_pte_fault] as a whole. *)

From stdpp Require Import gmap fin_sets.
From S2P Require Import Prelude VmaModel PcacheGeom PcacheModel PcacheSpec PcacheSteps.
From S2P Require Import PcacheInv PcacheEvict PcacheAlloc PcacheFill PcacheFault PcacheUnmap.

Section wp.
Context {R : Type} `{!MemoryNode R, !MemoryLaws R} (owner : Z -> task) `{!Processes owner}.
Abbreviation state := (pcache R).
Abbreviation wf := (PcacheSpec.wf owner).
Abbreviation mapped_ok := (PcacheSpec.mapped_ok owner).
Abbreviation rmap_ok := (PcacheSpec.rmap_ok owner).
Implicit Types (st : state) (i s m a : Z) (k : pte_ptr) (lk : option Z) (h : option (Z * option (Z * Z))).

(** ** Changing the flags of an entry *)

Section entry.
Context lk h st i r p (Hw : wf lk h st) (Hi : in_lines (geo st) i) (Hr : r ∈ rmap (meta st i))
  (Hpr : p_present p = true) (Hpfn : pte_pfn p = pte_pfn (get_pte st (page_table r)))
  (Hd : p_dirty p = false -> p_dirty (get_pte st (page_table r)) = false)
  (Hrw : p_rw p = true -> rmap (meta st i) = [r]).

Lemma entry_rmap_ok : rmap_ok st i r.
Proof using Hw Hi Hr. by apply (rmap_line _ _ _ _ _ _ Hw Hi Hr). Qed.

Lemma entry_set_rmap_ok j q :
  in_lines (geo st) j -> q ∈ rmap (meta st j) -> rmap_ok (pte_set (page_table r) p st) j q.
Proof using All.
  intros Hj Hq. destruct (rmap_line _ _ _ _ _ _ Hw Hj Hq) as (_ & _ & Hm & Ho).
  destruct (decide (page_table q = page_table r)) as [E|Hne].
  - assert (j = i) as -> by by apply (rmap_unique owner lk h st j i q r).
    assert (q = r) as ->.
    { apply (rmap_same_mm owner lk st i); try done. pose proof entry_rmap_ok as Hor.
      rewrite (ro_pt _ _ _ _ Ho), (ro_pt _ _ _ _ Hor) in E. by injection E. }
    destruct Ho as [? ? ? ? ? ? Hf (d & Hb & Hcl) ?]. split; rewrite ?get_pte_set; try done.
    + by rewrite Hpfn.
    + exists d. auto.
  - apply (rmap_ok_frame owner st); try done. by apply get_pte_set_ne.
Qed.

Lemma entry_set_wf : wf lk h (pte_set (page_table r) p st).
Proof using All.
  pose proof entry_rmap_ok as Ho. pose proof (ro_present _ _ _ _ Ho) as Hpres.
  pose proof entry_set_rmap_ok as Hok. pose proof Hw as [H1 H2 H3 H4 H5 H6 H7 H8 H9 H10 H11]. split; try done.
  - intros s Hs. destruct (H4 s Hs). by split.
  - intros s j Hs Hj Hh. destruct (lru_line _ _ _ _ _ _ Hw Hs Hj) as [Hin _].
    destruct (H6 s j Hs Hj Hh) as [? ? ? ? ? _ ?]. split; try done. apply list.Forall_forall. intros q Hq. by apply Hok.
  - intros j o Hho. destruct (H7 j o Hho) as (? & ? & Hx & Hy & Hz). split; [done|]. split; [done|]. split; [done|]. split; [done|].
    destruct o as [[m a]|]; [|done]. destruct Hz as (? & ? & ? & ? & Hz & ?). split_and!; try done.
    rewrite get_pte_set_ne; [done|]. intros E. by rewrite E, Hz in Hpres.
  - intros k. destruct (decide (k = page_table r)) as [->|Hne]; [by intros _; exists i, r|].
    rewrite get_pte_set_ne by done. apply H8.
  - intros m a Ha. unfold absent_ok. destruct (decide (pte_offset m a = page_table r)) as [E|Hne].
    + rewrite E, get_pte_set, Hpr. done.
    + rewrite get_pte_set_ne by done. by apply H9.
Qed.

Lemma entry_set_views : same_views owner st (pte_set (page_table r) p st).
Proof using All.
  intros m a Ha. pose proof entry_rmap_ok as Ho. unfold view.
  destruct (decide (pte_offset m a = page_table r)) as [E|Hne].
  - rewrite E, get_pte_set, Hpr, (ro_present _ _ _ _ Ho). unfold pte_to_pcache_meta. by rewrite Hpfn.
  - by rewrite get_pte_set_ne.
Qed.
End entry.

(** ** Copy on write *)

(** Removing the reverse mapping [r] of a locked line that has others, its entry
    being already overwritten; then dropping its reference and unlocking. *)
Lemma remove_shared_eval st i r pre post p addr mm :
  is_Some (metas st !! i) ->
  meta st i = Meta locked_bits (Z.of_nat (length (pre ++ r :: post))) (Z.of_nat (length (pre ++ r :: post))) (pre ++ r :: post) p ->
  pre ++ post <> [] -> r_reserved r = false -> (r_kmalloced r = false -> i ∈ rmap_used st) ->
  Z.land addr PAGE_MASK = address r -> mm = owner_mm r ->
  (forall q, q ∈ pre -> matched_rmap q (page_table r) (owner_mm r) (address r) = false) ->
  (st' ← pcache_remove_rmap i (page_table r) addr mm st; st' ← put_pcache i st'; unlock_pcache i st') =
  Some (setm i (Meta {[PC_valid]} (Z.of_nat (length (pre ++ post))) (Z.of_nat (length (pre ++ post))) (pre ++ post) p)
         (set_rmap_used (slot_freed (rmap_used st) i r) st)).
Proof.
  intros Hd Hm Hne Hrs Hu Ha -> Hq. set (n := Z.of_nat (length (pre ++ post))).
  assert (Hn : 1 <= n) by (unfold n; destruct (pre ++ post); simpl; [done|lia]).
  assert (Hlen : Z.of_nat (length (pre ++ r :: post)) = n + 1) by (unfold n; rewrite !length_app; simpl; lia).
  rewrite Hlen in Hm. unfold pcache_remove_rmap, PcacheBit. rewrite Hm. unfold locked_bits at 1. pc_bits. cbn [negb].
  rewrite Ha. erewrite (rmap_walk_match _ i st false true _ r None pre post);
    [|done|rewrite Hm; cbn [bits]; set_solver|by rewrite Hm| |].
  2:{ unfold __pcache_remove_rmap_one. rewrite matched_self. erewrite remove_rmap_eval by done. done. }
  2:{ intros q Hin. unfold __pcache_remove_rmap_one. by rewrite Hq. }
  cbn [mbind option_bind app]. rewrite (proj2 (Z.eqb_neq (n + 1 - 1) 0)) by lia.
  rewrite upd_meta_setm, meta_setm, setm_setm. unfold with_rmap. cbn [bits mapcount _refcount rmap pb].
  rewrite put_other_eval by lia. cbn [mbind option_bind]. unfold unlock_pcache, locked_bits. pc_eval.
  replace ({[PC_locked; PC_valid]} ∖ {[PC_locked]} : gset pcache_meta_bits) with ({[PC_valid]} : gset pcache_meta_bits) by by vm_compute.
  by replace (n + 1 - 1) with n by lia.
Qed.

Lemma slot_freed_union (u : gset Z) i j r : j <> i -> slot_freed ({[j]} ∪ u) i r = {[j]} ∪ slot_freed u i r.
Proof. intros. unfold slot_freed. destruct (r_kmalloced r); set_solver. Qed.

(** The copied state is the new line mapped after the old mapping is removed. *)
Section cow.
Context st old new r pre post (d : line_data) m addr (Hw : wf (Some old) (Some (new, None)) st) (Hold : in_lines (geo st) old)
  (Hr : rmap (meta st old) = pre ++ r :: post) (Hne : pre ++ post <> []) (Ha : is_u64 addr)
  (Hm : owner_mm r = m) (Hpg : address r = page_of addr)
  (Hset : user_vaddr_to_set_index (geo st) addr = set_of st new).
Abbreviation a := (page_of addr).
Abbreviation entry := (pte_mkwrite (pte_mkdirty (pfn_pte_shared_exec (line_pfn (geo st) new)))).

Definition cow_unmapped : state := unmapped_state st old r pre post {[PC_valid]}.
Definition cow_state : state := mapped owner (refilled new d cow_unmapped) new m a RMAP_COW entry.

Lemma cow_unmapped_wf : wf None (Some (new, None)) cow_unmapped.
Proof using All.
  unfold cow_unmapped. rewrite <- (used_bits_none old).
  apply (unmapped_wf owner (Some old) (Some (new, None))); try done; [right; by eexists|].
  intros j Hj. symmetry. by apply used_bits_other.
Qed.

Lemma cow_unmapped_views m' a' :
  user_page a' -> (m', a') <> (m, a) -> view owner cow_unmapped m' a' = view owner st m' a'.
Proof using All.
  intros Ha' Hx. unfold cow_unmapped. rewrite <- (used_bits_none old).
  rewrite (unmapped_views owner (Some old) (Some (new, None))); try done.
  - rewrite decide_False; [done|]. by rewrite Hm, Hpg.
  - right; by eexists.
  - intros j Hj. symmetry. by apply used_bits_other.
Qed.

Lemma cow_unmapped_rebuilt : exists M P, cow_unmapped = rebuilt st old r false M P (pee_used st).
Proof using. destruct (unmapped_state_rebuilt st old r pre post {[PC_valid]}) as (M & P & E & _). by exists M, P. Qed.

Lemma cow_pte : pte_offset m a = page_table r.
Proof using All.
  pose proof (one_rmap_ok owner _ _ st old r pre post Hw Hold Hr) as Ho. by rewrite (ro_pt _ _ _ _ Ho), Hm, Hpg.
Qed.

Lemma cow_refilled_pte : p_present (get_pte (refilled new d cow_unmapped) (pte_offset m a)) = false.
Proof using All.
  destruct cow_unmapped_rebuilt as (M & P & ->). change (get_pte (refilled _ _ _)) with (get_pte (cleared st old r false)).
  rewrite (cleared_pte owner _ _ st old r Hw Hold (one_in _ _ _ _ _ Hr)), decide_True; [done|]. apply cow_pte.
Qed.

Lemma cow_ok :
  wf None None cow_state /\ geo cow_state = geo st /\ get_pte cow_state (pte_offset m addr) = entry /\
  view owner cow_state m a = Some d /\
  forall m' a', user_page a' -> (m', a') <> (m, a) -> view owner cow_state m' a' = view owner st m' a'.
Proof using All.
  pose proof (refilled_wf owner _ _ _ cow_unmapped_wf d) as Hw2.
  pose proof (refilled_views owner _ _ _ cow_unmapped_wf d) as Hv2.
  pose proof (page_of_user _ Ha) as Hua. pose proof cow_refilled_pte as Habs.
  assert (Hg : geo (refilled new d cow_unmapped) = geo st) by by destruct cow_unmapped_rebuilt as (M & P & ->).
  assert (Hback : exists d', backing owner (refilled new d cow_unmapped) m a = Some d' /\
    (p_dirty entry = false -> d' = line (refilled new d cow_unmapped) new)).
  { pose proof (one_rmap_ok owner _ _ st old r pre post Hw Hold Hr) as Ho. destruct (ro_backing _ _ _ _ Ho) as (d' & Hd' & _).
    exists d'. split; [|done]. destruct cow_unmapped_rebuilt as (M & P & ->). rewrite Hm, Hpg in Hd'. exact Hd'. }
  assert (Hset' : user_vaddr_to_set_index (geo (refilled new d cow_unmapped)) a = set_of (refilled new d cow_unmapped) new).
  { unfold set_of. rewrite Hg, page_of_set by (done || apply (wf_geo _ _ _ _ Hw)). exact Hset. }
  assert (Hpfn : pte_pfn entry = line_pfn (geo (refilled new d cow_unmapped)) new) by by rewrite Hg.
  unfold cow_state. split_and!.
  - by apply mapped_wf.
  - done.
  - rewrite <- page_of_pte by done. erewrite mapped_pte by done. by rewrite decide_True.
  - erewrite mapped_view by done. by rewrite line_set_line.
  - intros m' a' Ha' Hx. erewrite mapped_other_views by done. rewrite (Hv2 m' a' Ha'). by apply cow_unmapped_views.
Qed.

(** The steps of the code lead there. *)
Lemma cow_final_eq :
  new <> old ->
  setm old (Meta {[PC_valid]} (Z.of_nat (length (pre ++ post))) (Z.of_nat (length (pre ++ post))) (pre ++ post) (pb (meta st old)))
    (set_rmap_used (slot_freed ({[new]} ∪ rmap_used st) old r)
       (setm new (Meta {[PC_valid]} 1 1 [Rmap false false (pte_offset m addr) m (owner m) RMAP_COW a] (pb (meta st new)))
          (set_rmap_used ({[new]} ∪ rmap_used st) (pte_set (pte_offset m addr) entry (set_line new d st))))) = cow_state.
Proof using All.
  intros Hno. pose proof (wf_psets _ _ _ _ Hw) as Hps. pose proof (held_in owner _ _ _ Hw) as Hnew.
  pose proof (Hps _ (set_of_in _ _ _ _ _ Hw Hold)) as Hd1. pose proof (Hps _ (set_of_in _ _ _ _ _ Hw Hnew)) as Hd2.
  pose proof cow_pte as Hpt. unfold cow_state, mapped, refilled, cow_unmapped, unmapped_state, new_rmap.
  destruct (pre ++ post) as [|q l] eqn:E; [done|]. unfold rebuilt, cleared, pte_clear.
  change (set_of (set_line _ _ _) new) with (set_of st new). rewrite <- (page_of_pte m addr), <- Hpt by done.
  rewrite (setp_same (set_of st old)) by done. rewrite (setp_same (set_of st new)) by done.
  pc_rewrite. rewrite !meta_setm_ne by done. pc_rewrite. rewrite setm_comm, slot_freed_union by done.
  match goal with |- _ = setm _ _ (setm _ _ (set_rmap_used _ (pte_set ?k ?e (set_line ?j ?x (set_rmap_used ?u (set_pee_used ?v (pte_set ?k ?z st))))))) =>
    assert (pte_set k e (set_line j x (set_rmap_used u (set_pee_used v (pte_set k z st)))) =
            pte_set k e (set_line j x (set_rmap_used u (set_pee_used v st)))) as -> end.
  { unfold pte_set. simpl. by rewrite insert_insert_eq. }
  pc_same.
Qed.

Lemma cow_eval :
  new <> old ->
  exists st', 
    ('(ret, st) ← pcache_add_rmap new (pte_offset m addr) addr m (owner m) RMAP_COW
                    (pte_set (pte_offset m addr) entry (set_line new d st));
     if negb (ret =? 0) then
       st ← put_pcache new st; Some (VM_FAULT_OOM, pte_clear (pte_offset m addr) st)
     else
       st ← pcache_remove_rmap old (pte_offset m addr) addr m st;
       st ← put_pcache old st;
       Some (0, st)) = Some (0, st') /\ unlock_pcache old st' = Some cow_state.
Proof using All.
  intros Hno. pose proof (held_held_ok owner _ _ _ Hw) as Hh. pose proof (held_meta _ _ _ _ Hh) as Hmn.
  destruct Hh as [(_ & _ & Hu) _]. pose proof (held_in owner _ _ _ Hw) as Hnew.
  pose proof (one_in _ _ _ _ _ Hr) as Hin. pose proof (one_rmap_ok owner _ _ st old r pre post Hw Hold Hr) as Ho.
  pose proof (mapped_meta _ _ _ _ (one_mapped owner _ _ st old r pre post Hw Hold Hr)) as HM. rewrite used_bits_lock, Hr in HM.
  rewrite (first_rmap_eval owner _ new _ _ _ _ (pb (meta st new))); [|exact Hmn|exact Hnew|exact Hu].
  cbn [mbind option_bind Z.eqb negb]. fold a. pose proof cow_pte as Hpt. rewrite page_of_pte in Hpt by done.
  pose proof (cow_final_eq Hno) as Hfin. rewrite Hpt in *. change (rmap_used (pte_set _ _ _)) with (rmap_used st).
  match goal with |- context [pcache_remove_rmap old _ addr m ?x] => set (st3 := x) in * end.
  assert (HM3 : meta st3 old = meta st old) by (unfold st3; by rewrite meta_setm_ne).
  assert (Hev : (st' ← pcache_remove_rmap old (page_table r) addr m st3; st' ← put_pcache old st'; unlock_pcache old st') = Some cow_state).
  { rewrite (remove_shared_eval st3 old r pre post (pb (meta st old))); try done.
    - by rewrite <- Hfin.
    - unfold st3. simpl. rewrite lookup_insert_ne by done. by apply (wf_metas _ _ _ _ Hw).
    - by rewrite HM3.
    - apply Ho.
    - intros Hk. simpl. apply elem_of_union. right. by apply (slot_freed_used owner _ _ st old r Hw Hold Hin).
    - intros q Hq. apply (matched_other owner _ _ st old r pre post Hw Hold Hr). apply elem_of_app. by left. }
  destruct (pcache_remove_rmap old (page_table r) addr m st3) as [st4|]; cbn [mbind option_bind] in *; [|done].
  destruct (put_pcache old st4) as [st5|]; cbn [mbind option_bind] in *; [|done]. by exists st5.
Qed.
End cow.

(** ** The write fault *)

Section write.
Context st m cur addr (flags : Z) old r pre post (Hw : wf None None st) (Hcur : group_leader cur = owner m) (Ha : is_u64 addr)
  (Hold : in_lines (geo st) old) (Hr : rmap (meta st old) = pre ++ r :: post)
  (Hpt : page_table r = pte_offset m addr) (Hm : owner_mm r = m) (Hpg : address r = page_of addr).
Abbreviation a := (page_of addr).
Abbreviation locked := (relocked locked_bits old st).

Lemma write_mapped : mapped_ok None st old.
Proof using All. by apply (one_mapped owner None None st old r pre post). Qed.

Lemma unlock_locked : unlock_pcache old locked = Some st.
Proof using All.
  pose proof write_mapped as Hmo. unfold unlock_pcache, relocked. pc_rewrite. unfold with_bits, locked_bits. pc_bits. cbn [negb].
  rewrite setm_same; [done|by apply (wf_metas _ _ _ _ Hw)|].
  rewrite (mapped_meta _ _ _ _ Hmo), used_bits_none. cbn [mapcount _refcount rmap pb]. f_equal; by vm_compute.
Qed.

Lemma locked_wf : wf (Some old) None locked.
Proof using All.
  unfold relocked. rewrite <- (used_bits_lock old). apply (relocked_wf owner None (Some old)); try done.
  - rewrite Hr. by destruct pre.
  - intros j Hj. by apply used_bits_other.
Qed.

(** A shared line is not a candidate, locked or not. *)
Lemma locked_candidate s : pre ++ post <> [] -> candidate locked s = candidate st s.
Proof using All.
  intros Hne. unfold candidate, victim. change (pset locked) with (pset st). destruct (free_head (pset st s)); [|done].
  pose proof (mapped_meta _ _ _ _ write_mapped) as HM.
  assert (Hev : forall j, evictable locked j = evictable st j).
  { intros j. unfold evictable, PcacheBit, pcache_ref_count, relocked. destruct (decide (j = old)) as [->|Hj].
    - rewrite meta_setm, HM, used_bits_none. unfold with_bits, locked_bits. pc_bits. cbn [andb negb]. symmetry. apply Z.eqb_neq.
      rewrite Hr, length_app. simpl. intros E. apply Hne, nil_length_inv. rewrite length_app. lia.
    - by rewrite meta_setm_ne. }
  induction (reverse (lru_list (pset st s))) as [|j l IH]; [done|]. simpl. by rewrite Hev, IH.
Qed.

Lemma write_reuse :
  pre ++ post = [] ->
  let p := pte_mkwrite (pte_mkdirty (pte_mkyoung (get_pte st (pte_offset m addr)))) in
  fault_result owner st m addr flags 0 (pte_set (pte_offset m addr) p st).
Proof using All.
  intros [-> ->]%app_eq_nil p. simpl in Hr. assert (Hin : r ∈ rmap (meta st old)) by (rewrite Hr; left).
  pose proof (removed_rmap_ok owner None None st old r Hw Hold Hin) as Ho. pose proof (ro_present _ _ _ _ Ho) as Hp. rewrite Hpt in Hp.
  rewrite <- Hpt. split; try done.
  - apply (entry_set_wf None None st old r); try done; rewrite Hpt; done.
  - apply (entry_set_views None None st old r); try done; rewrite Hpt; done.
  - left. rewrite Hpt, get_pte_set. done.
Qed.

Lemma write_copy n :
  pre ++ post <> [] ->
  exists ret st' st'',
    ('(o, st) ← pcache_alloc quiet (S n) addr DISABLE_PIGGYBACK locked;
     match o with
     | None => Some (VM_FAULT_OOM, st)
     | Some new =>
         let st := set_line new (line st old) st in
         pfn ← pcache_meta_to_pfn (geo st) new;
         let st := pte_set (pte_offset m addr) (pte_mkwrite (pte_mkdirty (pfn_pte_shared_exec pfn))) st in
         '(ret, st) ← pcache_add_rmap new (pte_offset m addr) addr (t_mm cur) (group_leader cur) RMAP_COW st;
         if negb (ret =? 0) then
           st ← put_pcache new st; Some (VM_FAULT_OOM, pte_clear (pte_offset m addr) st)
         else
           st ← pcache_remove_rmap old (pte_offset m addr) addr (t_mm cur) st;
           st ← put_pcache old st;
           Some (0, st)
     end) = Some (ret, st') /\ unlock_pcache old st' = Some st'' /\ fault_result owner st m addr flags ret st''.
Proof using All.
  intros Hne. pose proof locked_wf as Hlw. pose proof (page_of_user _ Ha) as Hua.
  assert (Hlr : rmap (meta locked old) = pre ++ r :: post) by (unfold relocked; rewrite meta_setm; exact Hr).
  assert (Htm : t_mm cur = m) by (rewrite <- (owner_space m), <- Hcur; done).
  pose proof (set_index_range _ (wf_geo _ _ _ _ Hw) addr Ha) as Hs.
  unfold pcache_alloc, user_vaddr_to_pcache_set. change (geo locked) with (geo st).
  pose proof (alloc_loop_ok owner (Some old) n _ DISABLE_PIGGYBACK locked Hlw Hs) as Hal.
  specialize (Hal ltac:(intros j [= <-]; rewrite Hlr; by destruct pre)). rewrite locked_candidate in Hal by done.
  destruct (candidate st _) as [new|] eqn:Hc.
  2:{ rewrite Hal. cbn [mbind option_bind]. eexists _, _, st. split; [done|]. split; [apply unlock_locked|].
      split; try done. right; left. done. }
  destruct Hal as (o & st1 & -> & Hal). cbn [mbind option_bind].
  destruct Hal as [Hw1 Hv1 Hch Hi Hset Hlk Hpte1 _ _ _ Hpg1 _]. rewrite (Hpg1 eq_refl) in Hw1. clear Hpg1.
  pose proof (ch_geo _ _ _ _ Hch) as Hg. change (geo locked) with (geo st) in *.
  assert (Hno : new <> old) by congruence.
  assert (Hmo : meta st1 old = meta locked old) by (apply (ch_meta _ _ _ _ Hch); congruence).
  assert (Hr1 : rmap (meta st1 old) = pre ++ r :: post) by by rewrite Hmo.
  assert (Hline : line st1 old = line st old) by (apply (ch_line _ _ _ _ Hch); congruence).
  change (geo (set_line _ _ _)) with (geo st1).
  rewrite meta_to_pfn; [|apply (wf_geo _ _ _ _ Hw1)|by rewrite Hg]. cbn [mbind option_bind]. cbv zeta. rewrite Htm, Hcur.
  assert (Hold1 : in_lines (geo st1) old) by by rewrite Hg.
  assert (Hset1 : user_vaddr_to_set_index (geo st1) addr = set_of st1 new) by (unfold set_of in *; rewrite Hg; done).
  destruct (cow_eval st1 old new r pre post (line st1 old) m addr) as (st' & -> & Hun); try done.
  destruct (cow_ok st1 old new r pre post (line st1 old) m addr) as (Hw' & Hg' & Hp' & Hv' & Hov'); try done.
  eexists _, _, _. split; [done|]. split; [exact Hun|]. split; try done.
  - intros m' a' Ha'. destruct (decide ((m', a') = (m, a))) as [[= -> ->]|Hx].
    + rewrite Hv', Hline, <- Hm, <- Hpg. symmetry. apply (removed_view owner None None); try done. by apply (one_in _ _ _ pre post).
    + rewrite Hov' by done. by apply Hv1.
  - by rewrite Hg'.
  - left. rewrite Hp'. done.
Qed.

Lemma write_fault_ok n :
  exists ret st', pcache_do_wp_page quiet (S n) m cur addr (get_pte st (pte_offset m addr)) st = Some (ret, st') /\
    fault_result owner st m addr flags ret st'.
Proof using All.
  pose proof write_mapped as Hmo. pose proof (mapped_meta _ _ _ _ Hmo) as HM. pose proof (one_in _ _ _ _ _ Hr) as Hin.
  unfold pcache_do_wp_page. rewrite <- Hpt, (rmap_pte_meta _ _ _ _ _ _ Hw Hold Hin).
  unfold PcacheBit at 1, pcache_mapped, pcache_mapcount at 1. rewrite HM, used_bits_none. pc_bits. cbn [negb].
  rewrite (proj2 (Z.ltb_lt 0 _)) by (rewrite Hr, length_app; simpl; lia). cbn [negb].
  rewrite (lock_eval owner _ _ _ _ Hmo). cbn [mbind option_bind negb].
  assert (Hmc : pcache_mapcount old locked = Z.of_nat (length (rmap (meta st old)))).
  { unfold pcache_mapcount, relocked. rewrite meta_setm. apply (mo_mapcount _ _ _ _ Hmo). }
  rewrite Hmc, Hpt.
  destruct (decide (pre ++ post = [])) as [He|Hne].
  - rewrite Hr. assert (length (pre ++ r :: post) = 1%nat) as ->.
    { apply (f_equal length) in He. rewrite length_app in *. simpl in *. lia. }
    change (Z.of_nat 1 =? 1) with true. cbn [mbind option_bind].
    assert (Hun : forall p, unlock_pcache old (pte_set (pte_offset m addr) p locked) = Some (pte_set (pte_offset m addr) p st)).
    { intros p. pose proof unlock_locked as E. revert E. unfold unlock_pcache.
      change (PcacheBit PC_locked old (pte_set _ _ _)) with (PcacheBit PC_locked old locked).
      destruct (negb _); [done|]. intros [= E]. f_equal. rewrite <- E at 2. done. }
    change (get_pte locked) with (get_pte st). rewrite Hun. eexists _, _. split; [done|]. by apply write_reuse.
  - rewrite (proj2 (Z.eqb_neq _ 1)).
    2:{ rewrite Hr, length_app. simpl. intros E. apply Hne, nil_length_inv. rewrite length_app. lia. }
    destruct (write_copy n Hne) as (ret & st' & st'' & E & Hun & Hres).
    cbn [mbind option_bind] in *. rewrite E. cbn [mbind option_bind]. rewrite Hun.
    cbn [mbind option_bind]. by exists ret, st''.
Qed.
End write.

(** ** Any fault *)

Lemma pte_fault_ok n st m cur addr flags :
  wf None None st -> group_leader cur = owner m -> is_u64 addr -> served owner m addr ->
  exists ret st', pcache_handle_pte_fault quiet (S n) m cur addr flags st = Some (ret, st') /\
    fault_result owner st m addr flags ret st'.
Proof.
  intros Hw Hcur Ha Hsv. destruct (p_present (get_pte st (pte_offset m addr))) eqn:Hp; [|by apply absent_fault_ok].
  unfold pcache_handle_pte_fault. rewrite Hp. cbn [negb].
  destruct (has flags FAULT_FLAG_WRITE && negb (p_rw (get_pte st (pte_offset m addr)))) eqn:Hwr.
  - destruct (wf_present _ _ _ _ Hw _ Hp) as (old & r & Hold & Hin & Hpt).
    destruct (rmap_line _ _ _ _ _ _ Hw Hold Hin) as (_ & _ & _ & Ho). pose proof Hpt as E.
    rewrite (ro_pt _ _ _ _ Ho), <- (page_of_pte m addr) in E by done.
    apply pte_offset_inj in E as [Em Ea]; [|apply Ho|by apply page_of_user].
    apply list_elem_of_split in Hin as (pre & post & Hr). by apply (write_fault_ok st m cur addr flags old r pre post).
  - eexists _, _. split; [done|]. split; try done. left. split_and!; try done. intros Hf. rewrite Hf in Hwr. simpl in Hwr.
    by destruct (p_rw _).
Qed.
End wp.
