(* ===== verification/PcacheFork.v ===== *)
(** * Pcache: fork

    [pcache_copy_page_range] over private writable areas: the child sees every page
    as the parent does, and neither can write to the lines that they now share. *)

From stdpp Require Import gmap fin_sets.
From S2P Require Import Prelude VmaModel PcacheGeom PcacheModel PcacheSpec PcacheSteps.
From S2P Require Import PcacheInv PcacheEvict PcacheAlloc PcacheFill PcacheFault PcacheUnmap PcacheWp.

Section fork.
Context {R : Type} `{!MemoryNode R, !MemoryLaws R} (owner : Z -> task) `{!Processes owner}.
Abbreviation state := (pcache R).
Abbreviation wf := (PcacheSpec.wf owner).
Abbreviation mapped_ok := (PcacheSpec.mapped_ok owner).
Abbreviation rmap_ok := (PcacheSpec.rmap_ok owner).
Implicit Types (st : state) (i s m a : Z) (k : pte_ptr) (lk : option Z) (h : option (Z * option (Z * Z))).

(** ** A further mapping of a line in use *)

Section share.
Context st i m a (c : rmap_caller) (p : pte) (Hw : wf None None st) (Hi : in_lines (geo st) i)
  (Hr : rmap (meta st i) <> []) (Ha : user_page a)
  (Hset : user_vaddr_to_set_index (geo st) a = set_of st i)
  (Habs : p_present (get_pte st (pte_offset m a)) = false)
  (Hnew : forall q, q ∈ rmap (meta st i) -> owner_mm q <> m)
  (Hro : forall q, q ∈ rmap (meta st i) -> p_rw (get_pte st (page_table q)) = false)
  (Hpr : p_present p = true) (Hprw : p_rw p = false) (Hpfn : pte_pfn p = line_pfn (geo st) i)
  (Hback : exists d, backing owner st m a = Some d /\ (p_dirty p = false -> d = line st i))
  (Hkz : Forall (eq true) (kz st)).
Abbreviation s := (set_of st i).

(** The preallocated reverse mapping, or one from [kzalloc] *)
Definition takes_slot : bool := bool_decide (i ∈ rmap_used st).
Definition share_rmap : pcache_rmap := Rmap false takes_slot (pte_offset m a) m (owner m) c a.
Definition shared : state :=
  setm i (Meta {[PC_valid]} (mapcount (meta st i) + 1) (_refcount (meta st i) + 1) (share_rmap :: rmap (meta st i)) (pb (meta st i)))
    (setp s (pset st s)
       (set_rmap_used ({[i]} ∪ rmap_used st) (set_kz (if takes_slot then tail (kz st) else kz st) (pte_set (pte_offset m a) p st)))).

Lemma share_line : i ∈ lru_list (pset st s) /\ mapped_ok None st i.
Proof using Hw Hi Hr.
  destruct (line_cases _ _ _ _ _ Hw Hi) as [[_ [[_ [E _]] _]]|[(o & ? & _)|(? & _ & ?)]]; done.
Qed.

Lemma alloc_rmap_eval st0 :
  geo st0 = geo st -> rmap_used st0 = rmap_used st -> kz st0 = kz st ->
  alloc_pcache_rmap i st0 =
  Some (Some takes_slot, set_rmap_used ({[i]} ∪ rmap_used st) (set_kz (if takes_slot then tail (kz st) else kz st) st0)).
Proof using All.
  intros Hg Hu Hk. unfold alloc_pcache_rmap, takes_slot, kzalloc. rewrite Hg, meta_index by done. cbn [mbind option_bind].
  rewrite Hu. case_bool_decide as Hin.
  - replace ({[i]} ∪ rmap_used st) with (rmap_used st0) by (rewrite Hu; set_solver). rewrite <- Hk in *.
    destruct (kz st0) as [|b l] eqn:E; [|by inversion Hkz; subst].
    do 3 f_equal. destruct st0; simpl in *; by subst.
  - do 3 f_equal. destruct st0; simpl in *; by subst.
Qed.

Lemma share_existsb c' :
  existsb (fun pos => bool_decide (page_table pos = pte_offset m a) || (owner_mm pos =? m)
                      || bool_decide (owner_process pos = owner m)) (rmap (meta st i)) = c' -> c' = false.
Proof using All.
  intros <-. apply not_true_iff_false. intros (q & Hq & Hb)%existsb_exists. apply list_elem_of_In in Hq.
  pose proof (Hnew q Hq) as Hne. destruct (rmap_line _ _ _ _ _ _ Hw Hi Hq) as (_ & _ & _ & Ho).
  rewrite (ro_pt _ _ _ _ Ho), (ro_owner _ _ _ _ Ho) in Hb. rewrite !orb_true_iff, !bool_decide_eq_true, Z.eqb_eq in Hb.
  destruct Hb as [[[= E _]|E]|E]; try done. apply Hne. by rewrite <- (owner_space (owner_mm q)), E, owner_space.
Qed.

Lemma share_eval :
  (st' ← get_pcache i (pte_set (pte_offset m a) p st); pcache_add_rmap i (pte_offset m a) a m (owner m) c st') = Some (0, shared).
Proof using All.
  destruct share_line as [_ Hm]. pose proof (mapped_meta _ _ _ _ Hm) as HM. rewrite used_bits_none in HM.
  set (n := Z.of_nat (length (rmap (meta st i)))) in *. unfold shared.
  assert (Hn : 1 <= n) by (unfold n; destruct (rmap (meta st i)); [done|simpl; lia]).
  unfold get_pcache, pcache_ref_count. rewrite meta_pte_set, HM. cbn [_refcount mapcount rmap pb].
  rewrite (proj2 (Z.leb_gt n 0)) by lia. cbn [mbind option_bind].
  unfold pcache_add_rmap, lock_pcache, unlock_pcache. pc_rewrite. rewrite HM.
  unfold with_refcount, with_bits. pc_bits. cbn [mbind option_bind]. rewrite alloc_rmap_eval by done. cbn [mbind option_bind].
  rewrite owner_leader. cbn [negb]. pc_rewrite. cbn [rmap]. rewrite (share_existsb _ eq_refl).
  unfold with_rmap, with_mapcount, with_bits. pc_bits. cbn [negb andb]. pc_rewrite. pc_bits. cbn [mbind option_bind].
  change PAGE_MASK with PCACHE_LINE_MASK. rewrite line_mask_page by done. fold share_rmap. rewrite setp_same; [|by apply (wf_psets _ _ _ _ Hw), (set_of_in _ _ _ _ _ Hw Hi)|done].
  pc_same.
Qed.

Lemma shared_pte k : get_pte shared k = if decide (k = pte_offset m a) then p else get_pte st k.
Proof using All.
  change (get_pte shared k) with (get_pte (pte_set (pte_offset m a) p st) k). case_decide as E.
  - subst k. apply get_pte_set.
  - by apply get_pte_set_ne.
Qed.

Lemma share_other_pte j q : in_lines (geo st) j -> q ∈ rmap (meta st j) -> page_table q <> pte_offset m a.
Proof using All.
  intros Hj Hq E. destruct (rmap_line _ _ _ _ _ _ Hw Hj Hq) as (_ & _ & _ & Ho).
  pose proof (ro_present _ _ _ _ Ho) as Hp. rewrite E in Hp. by rewrite Hp in Habs.
Qed.

Lemma shared_changed : changed owner i st shared.
Proof using All.
  apply changed_intro; try done; [intros j Hj; simpl; set_solver|].
  intros j r Hj Hin Hq. split; [|done]. apply (get_pte_set_ne _ _ _ st). apply not_eq_sym. by apply (share_other_pte j).
Qed.

Lemma shared_slot : slot_ok shared i.
Proof using All.
  destruct share_line as [_ Hm]. pose proof (mo_slot _ _ _ _ Hm) as Hs. unfold slot_ok in *.
  unfold shared at 1. rewrite meta_setm. cbn [rmap]. change (rmap_used shared) with ({[i]} ∪ rmap_used st).
  rewrite (bool_decide_eq_true_2 (i ∈ {[i]} ∪ _)) by set_solver. unfold share_rmap, takes_slot.
  case_bool_decide as Hu.
  - by rewrite filter_cons_False.
  - rewrite filter_cons_True by done. simpl. by rewrite Hs.
Qed.

Lemma shared_mapped_ok : mapped_ok None shared i.
Proof using All.
  destruct share_line as [_ Hm].
  assert (HM : meta shared i = Meta {[PC_valid]} (mapcount (meta st i) + 1) (_refcount (meta st i) + 1)
    (share_rmap :: rmap (meta st i)) (pb (meta st i))) by apply meta_setm.
  split; try apply shared_slot; rewrite ?HM; cbn [bits mapcount _refcount rmap pb].
  - by rewrite used_bits_none.
  - rewrite (mo_mapcount _ _ _ _ Hm). simpl. lia.
  - by rewrite (mo_ref _ _ _ _ Hm).
  - done.
  - rewrite fmap_cons. apply list.NoDup_cons. split; [|apply (mo_nodup _ _ _ _ Hm)].
    intros (q & E & Hq)%list_elem_of_fmap. by apply (Hnew q Hq).
  - apply list.Forall_cons. split.
    + pose proof (shared_pte (pte_offset m a)) as Hp. rewrite decide_True in Hp by done.
      split; try done; cbn [page_table share_rmap owner_mm address]; rewrite ?Hp; try done. by rewrite Hprw.
    + apply list.Forall_forall. intros q Hq. destruct (rmap_line _ _ _ _ _ _ Hw Hi Hq) as (_ & _ & _ & Ho).
      pose proof (shared_pte (page_table q)) as Hp. rewrite decide_False in Hp by by apply (share_other_pte i).
      destruct Ho. split; rewrite ?Hp; try done. by rewrite (Hro q Hq).
Qed.

Lemma shared_wf : wf None None shared.
Proof using All.
  destruct share_line as [Hl Hm]. pose proof (wf_sets _ _ _ _ Hw s (set_of_in _ _ _ _ _ Hw Hi)) as Hso.
  assert (HP : pset shared s = pset st s) by apply pset_setp.
  apply (wf_change owner None _ None None i st _ Hw Hi shared_changed); [done|].
  split; rewrite ?HP; try done.
  - apply (set_ok_perm owner None None st); rewrite ?HP; try done; apply Hso.
  - intros Hf. pose proof (so_nodup _ _ _ _ Hso) as (_ & Hd & _)%list.NoDup_app. by destruct (Hd i Hf).
  - intros _ _. apply shared_mapped_ok.
  - left. split; by left.
  - intros k. rewrite shared_pte. unfold shared. rewrite meta_setm. cbn [rmap]. case_decide as E.
    + intros _. left. exists share_rmap. split; [left|done].
    + intros Hp. destruct (wf_present _ _ _ _ Hw k Hp) as (j & q & Hj & Hq & <-). destruct (decide (j = i)) as [->|Hji].
      * left. exists q. split; [by right|done].
      * right. split; [done|]. intros q' Hq' E'. apply Hji. by apply (rmap_unique owner None None st j i q q').
  - intros m' a' Ha'. unfold absent_ok. rewrite shared_pte. case_decide as E; [by rewrite Hpr|].
    apply (wf_absent _ _ _ _ Hw m' a' Ha').
  - apply (wf_piggybacker _ _ _ _ Hw).
  - apply (wf_pee _ _ _ _ Hw).
Qed.

Lemma shared_view : view owner shared m a = Some (line st i).
Proof using All.
  unfold view. rewrite shared_pte, decide_True, Hpr by done. unfold pte_to_pcache_meta. rewrite Hpfn.
  change (geo shared) with (geo st). rewrite pfn_meta; [done|apply (wf_geo _ _ _ _ Hw)|done].
Qed.

Lemma shared_other_views m' a' :
  user_page a' -> (m', a') <> (m, a) -> view owner shared m' a' = view owner st m' a'.
Proof using All.
  intros Ha' Hne. apply (view_frame owner _ _ _ _ _ _ _ _ Hw shared_wf); try done.
  - rewrite shared_pte, decide_False; [done|]. intros E. apply pte_offset_inj in E; naive_solver.
  - intros _. by rewrite (pending_wf _ _ _ _ _ _ Hw Ha'), (pending_wf _ _ _ _ _ _ shared_wf Ha').
Qed.
End share.

(** ** The copy of a page *)

Section copy.
Context (src dst : Z) (Hsd : src <> dst) (st0 : state).

(** The state of a fork once the pages of [copied] have been copied. *)
Record forking (copied : Z -> bool) st : Prop := {
  fk_wf : wf None None st;
  fk_geo : geo st = geo st0;
  fk_memory : memory st = memory st0;
  fk_warned : warned st = warned st0;
  fk_kz : Forall (eq true) (kz st);
  fk_new : forall a, user_page a -> copied a = false -> get_pte st (pte_offset dst a) = pte_zero;
  fk_dst : forall a, user_page a -> p_present (get_pte st (pte_offset dst a)) = true ->
    p_present (get_pte st (pte_offset src a)) = true /\
    pte_pfn (get_pte st (pte_offset src a)) = pte_pfn (get_pte st (pte_offset dst a));
  fk_child : forall a, user_page a -> copied a = true -> view owner st dst a = view owner st0 src a;
  fk_views : forall m a, user_page a -> m <> dst -> view owner st m a = view owner st0 m a
}.

Definition also (a : Z) (copied : Z -> bool) (a' : Z) : bool := copied a' || (a' =? a).

Section page.
Context copied st a (Hf : forking copied st) (Ha : user_page a) (Hc : copied a = false)
  (Hb : backing owner st0 dst a = backing owner st0 src a).

Lemma page_backing : backing owner st dst a = backing owner st src a.
Proof using All. unfold backing. rewrite (fk_memory _ _ Hf). exact Hb. Qed.

(** A page of the child that is not present yet, set to [p] *)
Lemma copy_absent st' p :
  get_pte st (pte_offset src a) = p -> p_present p = false ->
  st' = (if decide (p = pte_zero) then st else pte_set (pte_offset dst a) p st) -> forking (also a copied) st'.
Proof using All.
  intros Hp Hpr Est. pose proof (fk_wf _ _ Hf) as Hw. pose proof (fk_new _ _ Hf a Ha Hc) as Hz.
  destruct (wf_absent _ _ _ _ Hw src a Ha ltac:(by rewrite Hp)) as [E|[E Hbk]]; rewrite Hp in E.
  - rewrite decide_True in Est by done. subst st'. destruct Hf. split; try done.
    + intros a' Ha' [Hc' _]%orb_false_iff. auto.
    + intros a' Ha' [Hc'| ->%Z.eqb_eq]%orb_true_iff; [by auto|]. rewrite <- fk_views0 by done.
      unfold view. rewrite Hz, Hp, E, !(pending_wf _ _ _ _ _ _ Hw Ha). simpl. apply page_backing.
  - rewrite decide_False in Est by by rewrite E. subst st'.
    assert (Hw' : wf None None (pte_set (pte_offset dst a) p st)).
    { apply absent_set_wf; try done; [by rewrite Hz|]. right. by rewrite page_backing. }
    assert (Hpte : forall m' a', user_page a' -> (m', a') <> (dst, a) ->
      get_pte (pte_set (pte_offset dst a) p st) (pte_offset m' a') = get_pte st (pte_offset m' a')).
    { intros m' a' Ha' Hne. apply get_pte_set_ne. intros E'. apply pte_offset_inj in E'; naive_solver. }
    assert (Hview : forall m' a', user_page a' -> (m', a') <> (dst, a) ->
      view owner (pte_set (pte_offset dst a) p st) m' a' = view owner st m' a').
    { intros m' a' Ha' Hne. unfold view. by rewrite Hpte. }
    destruct Hf. split; try done.
    + intros a' Ha' [Hc' Hne%Z.eqb_neq]%orb_false_iff. rewrite Hpte by (done || naive_solver). auto.
    + intros a' Ha'. destruct (decide (a' = a)) as [->|Hne]; [by rewrite get_pte_set, Hpr|].
      rewrite !Hpte by (done || naive_solver). auto.
    + intros a' Ha' Hc'. destruct (decide (a' = a)) as [->|Hne].
      * rewrite <- fk_views0 by done. unfold view. rewrite get_pte_set, Hp, E. done.
      * rewrite Hview by (done || naive_solver). apply fk_child0; [done|].
        apply orb_true_iff in Hc' as [?|?%Z.eqb_eq]; done.
    + intros m' a' Ha' Hm'. rewrite Hview by (done || naive_solver). auto.
Qed.

(** A page of the parent that is present: its line is shared. *)
Section present.
Context i r (Hi : in_lines (geo st) i) (Hr : r ∈ rmap (meta st i)) (Hmm : owner_mm r = src) (Had : address r = a).
Abbreviation p := (get_pte st (pte_offset src a)).
Abbreviation protected := (pte_set (pte_offset src a) (pte_wrprotect p) st).
Abbreviation child_pte := (pte_mkold (pte_wrprotect p)).

Lemma present_rmap_ok : rmap_ok st i r /\ page_table r = pte_offset src a.
Proof using All.
  destruct (rmap_line _ _ _ _ _ _ (fk_wf _ _ Hf) Hi Hr) as (_ & _ & _ & Ho). split; [done|].
  by rewrite (ro_pt _ _ _ _ Ho), Hmm, Had.
Qed.

Lemma protected_ok : wf None None protected /\ same_views owner st protected.
Proof using All.
  destruct present_rmap_ok as [Ho Hpt]. pose proof (ro_present _ _ _ _ Ho) as Hp. rewrite <- Hpt in *.
  split; [apply (entry_set_wf owner None None st i r)|apply (entry_set_views owner None None st i r)]; try done; apply (fk_wf _ _ Hf).
Qed.

(** The line has no mapping of the child yet. *)
Lemma present_new q : q ∈ rmap (meta st i) -> owner_mm q <> dst.
Proof using All.
  intros Hq E. pose proof (fk_wf _ _ Hf) as Hw. destruct present_rmap_ok as [Ho Hpt].
  destruct (rmap_line _ _ _ _ _ _ Hw Hi Hq) as (_ & _ & Hm & Hoq).
  pose proof (ro_present _ _ _ _ Hoq) as Hpq. rewrite (ro_pt _ _ _ _ Hoq), E in Hpq.
  destruct (fk_dst _ _ Hf (address q) (ro_page _ _ _ _ Hoq) Hpq) as [Hps Hpf].
  destruct (wf_present _ _ _ _ Hw _ Hps) as (j & r' & Hj & Hr' & Hpt').
  destruct (rmap_line _ _ _ _ _ _ Hw Hj Hr') as (_ & _ & _ & Ho').
  assert (j = i) as ->.
  { apply (line_pfn_inj (geo st)). rewrite <- (ro_pfn _ _ _ _ Ho'), Hpt', Hpf, <- E, <- (ro_pt _ _ _ _ Hoq). apply Hoq. }
  rewrite (ro_pt _ _ _ _ Ho') in Hpt'. apply pte_offset_inj in Hpt' as [Em Ea]; [|apply Ho'|apply Hoq].
  assert (r' = r) as -> by (apply (rmap_same_mm owner None st i); congruence).
  rewrite Had in Ea. rewrite <- Ea in Hpq. by rewrite (fk_new _ _ Hf a Ha Hc) in Hpq.
Qed.

Lemma present_ro q : q ∈ rmap (meta st i) -> p_rw (get_pte protected (page_table q)) = false.
Proof using All.
  intros Hq. destruct present_rmap_ok as [Ho Hpt]. destruct (decide (page_table q = pte_offset src a)) as [->|Hne]; [by rewrite get_pte_set|].
  rewrite get_pte_set_ne by done. destruct (rmap_line _ _ _ _ _ _ (fk_wf _ _ Hf) Hi Hq) as (_ & _ & _ & Hoq).
  apply not_true_iff_false. intros Hrw. pose proof (ro_rw _ _ _ _ Hoq Hrw) as E. rewrite E in Hr.
  apply list_elem_of_singleton in Hr as ->. done.
Qed.

Definition child_state : state := shared protected i dst a RMAP_FORK child_pte.

(** The hypotheses of the sharing *)
Lemma child_share (P : state -> Prop) :
  (forall st' (Hw : wf None None st') (Hi' : in_lines (geo st') i) (Hr' : rmap (meta st' i) <> [])
    (Hset : user_vaddr_to_set_index (geo st') a = set_of st' i)
    (Habs : p_present (get_pte st' (pte_offset dst a)) = false)
    (Hnew : forall q, q ∈ rmap (meta st' i) -> owner_mm q <> dst)
    (Hro : forall q, q ∈ rmap (meta st' i) -> p_rw (get_pte st' (page_table q)) = false)
    (Hpr : p_present child_pte = true) (Hpfn : pte_pfn child_pte = line_pfn (geo st') i)
    (Hback : exists d, backing owner st' dst a = Some d /\ (p_dirty child_pte = false -> d = line st' i))
    (Hkz : Forall (eq true) (kz st')), P st') -> P protected.
Proof using All.
  intros H. destruct present_rmap_ok as [Ho Hpt]. destruct protected_ok as [Hwp _]. pose proof (ro_present _ _ _ _ Ho) as Hp.
  pose proof (ro_pfn _ _ _ _ Ho) as Hpf. destruct (ro_backing _ _ _ _ Ho) as (d & Hd & Hcl). rewrite Hpt in *. apply H; try done.
  - change (rmap (meta st i) <> []). intros E. rewrite E in Hr. by apply not_elem_of_nil in Hr.
  - etrans; [|apply (ro_set _ _ _ _ Ho)]. by rewrite Had.
  - rewrite get_pte_set_ne; [by rewrite (fk_new _ _ Hf a Ha Hc)|]. intros [= E]. by apply Hsd.
  - apply present_new.
  - apply present_ro.
  - exists d. split; [|exact Hcl]. change (backing owner st dst a = Some d). by rewrite page_backing, <- Hmm, <- Had.
  - apply (fk_kz _ _ Hf).
Qed.

Lemma child_eval flags :
  is_cow_mapping flags = true -> pcache_copy_one_pte dst src a flags (owner dst) st = Some child_state.
Proof using All.
  intros Hcow. destruct present_rmap_ok as [Ho Hpt].
  assert (Hsh : has flags VM_SHARED = false).
  { unfold is_cow_mapping in Hcow. apply Z.eqb_eq in Hcow. unfold has. replace (Z.land flags VM_SHARED) with (Z.land (Z.land flags (Z.lor VM_SHARED VM_WRITE)) VM_SHARED).
    - by rewrite Hcow.
    - rewrite <- Z.land_assoc. done. }
  unfold pcache_copy_one_pte. rewrite Hcow, Hsh.
  assert (Hmeta : pte_to_pcache_meta child_pte (pte_set (pte_offset dst a) child_pte protected) = Some i).
  { change (pte_to_pcache_meta p st = Some i). rewrite <- Hpt. by apply (rmap_pte_meta _ _ _ _ _ _ (fk_wf _ _ Hf)). }
  rewrite Hmeta.
  assert (E : (st' ← get_pcache i (pte_set (pte_offset dst a) child_pte protected);
    pcache_add_rmap i (pte_offset dst a) a dst (owner dst) RMAP_FORK st') = Some (0, child_state)).
  { unfold child_state. apply (child_share (fun st => (st' ← get_pcache i (pte_set (pte_offset dst a) child_pte st);
      pcache_add_rmap i (pte_offset dst a) a dst (owner dst) RMAP_FORK st') = Some (0, shared st i dst a RMAP_FORK child_pte))).
    intros. by apply (share_eval st' i dst a RMAP_FORK child_pte). }
  destruct (get_pcache i _) as [st1|]; cbn [mbind option_bind] in *; [|done]. by rewrite E.
Qed.

Lemma child_facts :
  wf None None child_state /\ view owner child_state dst a = Some (line st i) /\
  (forall m' a', user_page a' -> (m', a') <> (dst, a) -> view owner child_state m' a' = view owner protected m' a') /\
  (forall k, get_pte child_state k = if decide (k = pte_offset dst a) then child_pte else get_pte protected k).
Proof using All.
  unfold child_state. apply (child_share (fun st1 => line st1 i = line st i -> let st2 := shared st1 i dst a RMAP_FORK child_pte in
    wf None None st2 /\ view owner st2 dst a = Some (line st i) /\
    (forall m' a', user_page a' -> (m', a') <> (dst, a) -> view owner st2 m' a' = view owner st1 m' a') /\
    (forall k, get_pte st2 k = if decide (k = pte_offset dst a) then child_pte else get_pte st1 k))); [|done].
  intros st' Hw' Hi' Hr' Hset Habs Hnew Hro Hpr Hpfn Hback Hkz Hl. cbv zeta. split_and!.
  - by apply shared_wf.
  - rewrite <- Hl. by apply shared_view.
  - intros. by apply shared_other_views.
  - intros. by apply shared_pte.
Qed.

Lemma copy_present : forking (also a copied) child_state.
Proof using All.
  destruct child_facts as (Hwc & Hva & Hvo & Hpte). destruct protected_ok as [_ Hvp]. destruct present_rmap_ok as [Ho Hpt].
  pose proof (ro_present _ _ _ _ Ho) as Hp. rewrite Hpt in Hp.
  assert (Hdst : forall a', user_page a' -> a' <> a -> get_pte child_state (pte_offset dst a') = get_pte st (pte_offset dst a')).
  { intros a' Ha' Hne. rewrite Hpte, decide_False by (intros E; apply pte_offset_inj in E; naive_solver).
    apply get_pte_set_ne. intros [= E _]. by apply Hsd. }
  assert (Hsrc : forall a', user_page a' -> p_present (get_pte child_state (pte_offset src a')) = p_present (get_pte st (pte_offset src a'))
    /\ pte_pfn (get_pte child_state (pte_offset src a')) = pte_pfn (get_pte st (pte_offset src a'))).
  { intros a' Ha'. rewrite Hpte, decide_False by (intros [= E _]; by apply Hsd). destruct (decide (a' = a)) as [->|Hne].
    - by rewrite get_pte_set.
    - rewrite get_pte_set_ne; [done|]. intros E. apply pte_offset_inj in E; naive_solver. }
  destruct Hf. split; try done.
  - change (Forall (eq true) (if takes_slot protected i then tail (kz st) else kz st)). destruct (takes_slot _ _); [|done].
    by destruct fk_kz0.
  - intros a' Ha' [Hc' Hne%Z.eqb_neq]%orb_false_iff. rewrite Hdst by done. auto.
  - intros a' Ha'. destruct (Hsrc a' Ha') as [-> ->]. destruct (decide (a' = a)) as [->|Hne].
    + rewrite Hpte, decide_True by done. done.
    + rewrite Hdst by done. auto.
  - intros a' Ha' Hc'. destruct (decide (a' = a)) as [->|Hne].
    + rewrite Hva, <- fk_views0 by done. symmetry. rewrite <- Had, <- Hmm. by apply (removed_view owner None None).
    + rewrite Hvo by (done || naive_solver). rewrite (Hvp dst a' Ha'). apply fk_child0; [done|].
      apply orb_true_iff in Hc' as [?|?%Z.eqb_eq]; done.
  - intros m' a' Ha' Hm'. rewrite Hvo by (done || naive_solver). rewrite (Hvp m' a' Ha'). auto.
Qed.
End present.

Lemma copy_one_forking flags :
  is_cow_mapping flags = true ->
  exists st', copy_one dst src a flags (owner dst) st = Some st' /\ forking (also a copied) st'.
Proof using All.
  intros Hcow. pose proof (fk_wf _ _ Hf) as Hw. unfold copy_one.
  destruct (p_present (get_pte st (pte_offset src a))) eqn:Hp.
  - assert (pte_none (get_pte st (pte_offset src a)) = false) as -> by (unfold pte_none; by rewrite Hp). cbn [negb].
    destruct (wf_present _ _ _ _ Hw _ Hp) as (i & r & Hi & Hr & Hpt).
    destruct (rmap_line _ _ _ _ _ _ Hw Hi Hr) as (_ & _ & _ & Ho). rewrite (ro_pt _ _ _ _ Ho) in Hpt.
    apply pte_offset_inj in Hpt as [Em Ea]; [|apply Ho|done].
    eexists. split; [by apply (child_eval i r)|by apply (copy_present i r)].
  - destruct (wf_absent _ _ _ _ Hw src a Ha Hp) as [E|[E _]]; rewrite E; cbn; eexists; (split; [done|]).
    + apply (copy_absent st pte_zero); [done|done|by rewrite decide_True].
    + apply (copy_absent _ (pte_mkzerofill pte_zero)); [done|done|by rewrite decide_False].
Qed.
End page.

(** The pages of an area *)
Definition area_pages (start end_ a : Z) : bool := (start <=? a) && (a <? end_).

Lemma forking_ext c c' st : (forall a, user_page a -> c a = c' a) -> forking c st -> forking c' st.
Proof. intros H []. split; try done; intros a Ha; rewrite <- H by done; auto. Qed.

Lemma copy_range_forking flags n : forall start copied st,
  is_cow_mapping flags = true -> forking copied st -> (n = O \/ user_page start) -> start + Z.of_nat n * PAGE_SIZE <= ULONG_MOD ->
  (forall a, user_page a -> area_pages start (start + Z.of_nat n * PAGE_SIZE) a = true ->
     copied a = false /\ backing owner st0 dst a = backing owner st0 src a) ->
  exists st', pcache_copy_pte_range n dst src start flags (owner dst) st = Some st' /\
    forking (fun a => copied a || area_pages start (start + Z.of_nat n * PAGE_SIZE) a) st'.
Proof using Hsd Processes0.
  induction n as [|n IH]; intros start copied st Hcow Hf Hs Hn Hp.
  - exists st. split; [done|]. eapply forking_ext; [|exact Hf]. intros a _. cbv beta. replace (area_pages _ _ a) with false; [by rewrite orb_false_r|].
    unfold area_pages. destruct (Z.leb_spec start a); [|done]. simpl. symmetry. apply Z.ltb_ge. lia.
  - destruct Hs as [?|Hs]; [done|]. rewrite PAGE_SIZE_eq in *.
    assert (Hin : area_pages start (start + Z.of_nat (S n) * 4096) start = true).
    { unfold area_pages. apply andb_true_intro. split; [apply Z.leb_refl|apply Z.ltb_lt; lia]. }
    destruct (Hp start Hs Hin) as [Hc Hb].
    destruct (copy_one_forking copied st start Hf Hs Hc Hb flags Hcow) as (st1 & E & Hf1).
    cbn [pcache_copy_pte_range]. rewrite E. cbn [mbind option_bind]. rewrite PAGE_SIZE_eq.
    destruct (IH (start + 4096) (also start copied) st1 Hcow Hf1) as (st2 & -> & Hf2).
    + destruct n; [by left|right]. rewrite <- PAGE_SIZE_eq. apply user_page_next; [done|]. rewrite PAGE_SIZE_eq. lia.
    + lia.
    + intros a Ha [Hlo%Z.leb_le Hhi%Z.ltb_lt]%andb_prop. destruct (Hp a Ha) as [Hca Hba].
      { unfold area_pages. apply andb_true_intro. split; [apply Z.leb_le|apply Z.ltb_lt]; lia. }
      split; [|done]. unfold also. rewrite Hca. apply Z.eqb_neq. lia.
    + exists st2. split; [done|]. eapply forking_ext; [|exact Hf2]. intros a [_ Ha]. destruct Hs as [_ Hs]. cbv beta. unfold also, area_pages.
      unfold page_aligned in *. rewrite PAGE_SIZE_eq in *. rewrite <- orb_assoc. f_equal.
      pose proof (Z.div_mod start 4096). pose proof (Z.div_mod a 4096).
      destruct (Z.eqb_spec a start), (Z.leb_spec (start + 4096) a), (Z.leb_spec start a),
        (Z.ltb_spec a (start + 4096 + Z.of_nat n * 4096)), (Z.ltb_spec a (start + Z.of_nat (S n) * 4096)); simpl; try done; lia.
Qed.

(** An area that a fork copies: private and writable *)
Definition cow_area (v : Z * Z * Z) : Prop :=
  let '(start, end_, flags) := v in
  user_page start /\ page_aligned end_ /\ start < end_ /\ end_ <= ULONG_MOD /\ is_cow_mapping flags = true /\
  forall a, user_page a -> area_pages start end_ a = true -> backing owner st0 dst a = backing owner st0 src a.

Definition in_areas (vmas : list (Z * Z * Z)) (a : Z) : bool :=
  existsb (fun '(start, end_, _) => area_pages start end_ a) vmas.

(** The areas of an address space do not overlap. *)
Fixpoint disjoint_areas (copied : Z -> bool) (vmas : list (Z * Z * Z)) : Prop :=
  match vmas with
  | [] => True
  | (start, end_, _) :: vmas =>
      (forall a, user_page a -> area_pages start end_ a = true -> copied a = false) /\
      disjoint_areas (fun a => copied a || area_pages start end_ a) vmas
  end.

Lemma fork_dup_forking vmas : forall copied st,
  forking copied st -> Forall cow_area vmas -> disjoint_areas copied vmas ->
  exists st', fork_dup_pcache (owner dst) dst src vmas st = Some st' /\
    forking (fun a => copied a || in_areas vmas a) st'.
Proof using Hsd Processes0.
  induction vmas as [|[[start end_] flags] vmas IH]; intros copied st Hf Hcow Hdis.
  - exists st. split; [done|]. eapply forking_ext; [|exact Hf]. intros a _. cbv beta. by rewrite orb_false_r.
  - apply list.Forall_cons in Hcow as [(Hs & He & Hlt & Hend & Hfl & Hb) Hcow]. destruct Hdis as [Hd Hdis].
    cbn [fork_dup_pcache]. unfold pcache_copy_page_range. pose proof (nr_pages_range start end_ (proj2 Hs) He Hlt) as Hnr.
    destruct (copy_range_forking flags (nr_pages start end_) start copied st Hfl Hf) as (st1 & -> & Hf1);
      [by right|by rewrite Hnr|rewrite Hnr; auto|]. rewrite Hnr in Hf1. cbn [mbind option_bind].
    destruct (IH _ st1 Hf1 Hcow Hdis) as (st2 & -> & Hf2). exists st2. split; [done|].
    eapply forking_ext; [|exact Hf2]. intros a _. cbv beta. cbn [in_areas existsb]. by rewrite orb_assoc.
Qed.

(** The start of a fork: the child has no pages. *)
Lemma forking_start :
  wf None None st0 -> Forall (eq true) (kz st0) -> (forall a, user_page a -> get_pte st0 (pte_offset dst a) = pte_zero) ->
  forking (fun _ => false) st0.
Proof. intros Hw Hk Hz. split; try done; auto. intros a Ha. by rewrite Hz. Qed.
End copy.
End fork.
