(* ===== verification/PcacheInit.v ===== *)
(** * Pcache: boot

    [pcache_post_init] establishes the invariant: every line is free, in the list of
    its set. *)

From stdpp Require Import gmap fin_sets.
From S2P Require Import Prelude VmaModel PcacheGeom PcacheModel PcacheSpec PcacheSteps PcacheInv.

Section init.
Context {R : Type} `{!MemoryNode R, !MemoryLaws R} (owner : Z -> task) `{!Processes owner}.
Abbreviation state := (pcache R).
Implicit Types (st : state) (i s : Z).

Definition add_ways s (ways : list Z) st : state :=
  foldl (fun st i => upd_pset s (fun p => with_free (free_head p ++ [i]) p) st) st ways.

Lemma add_ways_eval s ways : forall st,
  is_Some (psets st !! s) ->
  add_ways s ways st = setp s (with_free (free_head (pset st s) ++ ways) (pset st s)) st.
Proof.
  induction ways as [|i ways IH]; intros st Hd.
  - change (add_ways s [] st) with st. symmetry. apply setp_same; [done|]. destruct (pset st s). unfold with_free. simpl. by rewrite app_nil_r.
  - unfold add_ways. simpl. fold (add_ways s ways (upd_pset s (fun p => with_free (free_head p ++ [i]) p) st)).
    rewrite IH by (simpl; by rewrite lookup_insert_eq). rewrite upd_pset_setp, pset_setp, setp_setp. simpl.
    by rewrite <- app_assoc.
Qed.

(** After the sets of [l]: those have their ways, the rest is as before. *)
Record listed (l : list Z) st st' : Prop := {
  ls_fields : geo st' = geo st /\ metas st' = metas st /\ lines st' = lines st /\ rmap_used st' = rmap_used st /\
    pee_used st' = pee_used st /\ piggybacker st' = piggybacker st /\ ptes st' = ptes st /\ memory st' = memory st /\
    kz st' = kz st /\ warned st' = warned st;
  ls_psets : forall s, is_Some (psets st !! s) -> is_Some (psets st' !! s);
  ls_out : forall s, s ∉ l -> pset st' s = pset st s;
  ls_in : forall s, s ∈ l -> exists ways, pcache_for_each_way_set (geo st) s = Some ways /\
    pset st' s = with_free (free_head (pset st s) ++ ways) (pset st s)
}.

Lemma init_lists_ok l : forall st,
  geom_wf (geo st) -> NoDup l -> (forall s, s ∈ l -> in_sets (geo st) s) ->
  (forall s, in_sets (geo st) s -> is_Some (psets st !! s)) ->
  exists st', init_free_lists l st = Some st' /\ listed l st st'.
Proof.
  induction l as [|s l IH]; intros st Hg Hnd Hl Hd.
  - exists st. split; [done|]. split; try done. by intros s ?%not_elem_of_nil.
  - apply list.NoDup_cons in Hnd as [Hs Hnd]. cbn [init_free_lists].
    destruct (ways_of_set (geo st) Hg s (Hl s ltac:(left))) as (ways & Ew & _). rewrite Ew. cbn [mbind option_bind].
    fold (add_ways s ways st). rewrite add_ways_eval by (apply Hd, Hl; left).
    set (st1 := setp s _ st). destruct (IH st1) as (st' & -> & [Hfl Hps Hout Hin]); try done.
    { intros s' Hs'. apply Hl. by right. }
    { intros s' Hs'. simpl. destruct (decide (s' = s)) as [->|]; [by rewrite lookup_insert_eq|].
      rewrite lookup_insert_ne by done. by apply Hd. }
    exists st'. split; [done|]. split; [done| | |].
    + intros s' Hs'. apply Hps. simpl. destruct (decide (s' = s)) as [->|]; [by rewrite lookup_insert_eq|by rewrite lookup_insert_ne].
    + intros s' [Hne Hs']%not_elem_of_cons. rewrite Hout by done. by apply pset_setp_ne.
    + intros s' [->|Hs']%elem_of_cons.
      * exists ways. split; [done|]. rewrite Hout by done. apply pset_setp.
      * destruct (Hin s' Hs') as (w & E & ->). exists w. split; [done|]. unfold st1.
        by rewrite pset_setp_ne by (intros ->; done).
Qed.

Lemma list_to_map_lookup {A} (x : A) (l : list Z) k :
  (list_to_map ((fun i => (i, x)) <$> l) : gmap Z A) !! k = if decide (k ∈ l) then Some x else None.
Proof.
  induction l as [|i l IH]; [done|]. rewrite fmap_cons. rewrite list_to_map_cons.
  destruct (decide (k = i)) as [->|Hne].
  - rewrite lookup_insert_eq, decide_True by left. done.
  - rewrite lookup_insert_ne, IH by done. apply decide_ext. rewrite elem_of_cons. naive_solver.
Qed.

Lemma elem_of_indices n i : i ∈ indices n <-> 0 <= i < n.
Proof. unfold indices. rewrite elem_of_seqZ. lia. Qed.

(** The state after boot: the invariant holds, and a process sees the memory component. *)
Lemma post_init_ok g r oracle :
  geom_wf g ->
  exists st, pcache_post_init g r oracle = Some st /\ PcacheSpec.wf owner None None st /\ geo st = g /\ memory st = r /\
    kz st = oracle /\ ptes st = ∅.
Proof.
  intros Hg. unfold pcache_post_init. set (st0 := Pcache _ _ _ _ _ _ _ _ _ _ _ _).
  assert (Hm : forall i, in_lines g i -> metas st0 !! i = Some meta0).
  { intros i Hi. unfold st0. simpl. unfold init_pcache_meta_map. rewrite list_to_map_lookup, decide_True; [done|]. by apply elem_of_indices. }
  assert (Hp : forall s, in_sets g s -> psets st0 !! s = Some pset0).
  { intros s Hs. unfold st0. simpl. unfold init_pcache_set_map. rewrite list_to_map_lookup, decide_True; [done|]. by apply elem_of_indices. }
  destruct (init_lists_ok (indices (nr_cachesets g)) st0) as (st & E & [(F1 & F2 & F3 & F4 & F5 & F6 & F7 & F8 & F9 & F10) Hps _ Hin]); try done.
  { apply NoDup_seqZ. } { intros s Hs. by apply elem_of_indices. } { intros s Hs. rewrite Hp by done. by eexists. }
  exists st. split; [done|]. split; [|done].
  assert (Hgeo : geo st = g) by done. assert (Hpte : forall k, get_pte st k = pte_zero) by (intros k; unfold get_pte; by rewrite F7).
  assert (Hme : forall i, in_lines g i -> meta st i = meta0) by (intros i Hi; unfold meta; rewrite F2, Hm; done).
  assert (Hset : forall s, in_sets g s -> exists l, pset st s = Pset false l [] 0 [] 0 /\ NoDup l /\
    forall i, i ∈ l <-> in_lines g i /\ i mod nr_cachesets g = s).
  { intros s Hs. destruct (Hin s) as (ways & Ew & ->); [by apply elem_of_indices|].
    destruct (ways_of_set g Hg s Hs) as (w & Ew' & Hnd & _ & Hw). change (geo st0) with g in Ew. rewrite Ew in Ew'. injection Ew' as ->.
    exists w. unfold pset. rewrite Hp by done. done. }
  split; rewrite ?Hgeo; try done.
  - intros i Hi. rewrite F2, Hm by done. by eexists.
  - intros s Hs. apply Hps. rewrite Hp by done. by eexists.
  - intros s Hs. destruct (Hset s Hs) as (l & El & Hnd & Hl). split; rewrite ?El; cbn [free_head lru_list]; rewrite ?app_nil_r, ?Hgeo; try done.
  - intros s i Hs. destruct (Hset s Hs) as (l & El & _ & Hl). rewrite El. intros [Hi _]%Hl. unfold free_ok, unmapped.
    rewrite Hme by done. rewrite F4. done.
  - intros s i Hs. destruct (Hset s Hs) as (l & -> & _). by intros ?%not_elem_of_nil.
  - intros k. by rewrite Hpte.
  - intros m a _ _. left. apply Hpte.
Qed.
End init.
