(* ===== verification/PcacheUser.v ===== *)
(** * Pcache: the memory that processes see

    Loads and stores of the processes through the emulated page table, faulting into
    [pcache_handle_fault]; and the specification that the whole implements: a flat
    memory for each process. *)

From stdpp Require Import gmap fin_sets.
From S2P Require Import Prelude VmaModel PcacheGeom PcacheModel PcacheSpec PcacheSteps PcacheInv PcacheEvict.
From S2P Require Import PcacheAlloc PcacheFill PcacheFault PcacheUnmap PcacheWp PcacheFork PcacheInit.

Section user.
Context {R : Type} `{!MemoryNode R, !MemoryLaws R} (owner : Z -> task) `{!Processes owner}.
Abbreviation state := (pcache R).
Abbreviation wf := (PcacheSpec.wf owner).
Abbreviation rmap_ok := (PcacheSpec.rmap_ok owner).
Implicit Types (st : state) (i s m a : Z) (k : pte_ptr).

(** ** The processor

    An access goes through the entry of its page; [None] is the page fault. *)

Definition cpu_load m addr st : option (line_data * state) :=
  let p := get_pte st (pte_offset m addr) in
  if p_present p then
    i ← pte_to_pcache_meta p st;
    Some (line st i, pte_set (pte_offset m addr) (pte_mkyoung p) st)
  else None.

Definition cpu_store m addr (f : line_data -> line_data) st : option state :=
  let p := get_pte st (pte_offset m addr) in
  if p_present p && p_rw p then
    i ← pte_to_pcache_meta p st;
    Some (set_line i (f (line st i)) (pte_set (pte_offset m addr) (pte_mkdirty (pte_mkyoung p)) st))
  else None.

(** The access is done again when the fault is handled. *)
Definition user_load (retries : nat) (cur : task) addr st : option ((Z + line_data) * state) :=
  match cpu_load (t_mm cur) addr st with
  | Some (d, st) => Some (inr d, st)
  | None =>
      '(ret, st) ← pcache_handle_fault quiet true retries (t_mm cur) cur addr 0 st;
      if ret =? 0 then '(d, st) ← cpu_load (t_mm cur) addr st; Some (inr d, st) else Some (inl ret, st)
  end.

Definition user_store (retries : nat) (cur : task) addr (f : line_data -> line_data) st : option (Z * state) :=
  match cpu_store (t_mm cur) addr f st with
  | Some st => Some (0, st)
  | None =>
      '(ret, st) ← pcache_handle_fault quiet true retries (t_mm cur) cur addr FAULT_FLAG_WRITE st;
      if ret =? 0 then st ← cpu_store (t_mm cur) addr f st; Some (0, st) else Some (ret, st)
  end.

(** The reverse mapping behind a present entry *)
Lemma present_rmap st m addr :
  wf None None st -> is_u64 addr -> p_present (get_pte st (pte_offset m addr)) = true ->
  exists i r, in_lines (geo st) i /\ r ∈ rmap (meta st i) /\ rmap_ok st i r /\ page_table r = pte_offset m addr /\
    owner_mm r = m /\ address r = page_of addr /\ pte_to_pcache_meta (get_pte st (pte_offset m addr)) st = Some i /\
    view owner st m (page_of addr) = Some (line st i).
Proof.
  intros Hw Ha Hp. destruct (wf_present _ _ _ _ Hw _ Hp) as (i & r & Hi & Hr & Hpt).
  destruct (rmap_line _ _ _ _ _ _ Hw Hi Hr) as (_ & _ & _ & Ho). pose proof Hpt as E.
  rewrite (ro_pt _ _ _ _ Ho), <- (page_of_pte m addr) in E by done.
  apply pte_offset_inj in E as [Em Ea]; [|apply Ho|by apply page_of_user].
  exists i, r. split_and!; try done.
  - rewrite <- Hpt. by apply (rmap_pte_meta _ _ _ _ _ _ Hw Hi Hr).
  - rewrite <- Em, <- Ea. by apply (removed_view owner None None).
Qed.

(** What a process sees is a page that the memory component has. *)
Lemma view_backing st m addr :
  wf None None st -> is_u64 addr -> is_Some (view owner st m (page_of addr)) -> is_Some (backing owner st m (page_of addr)).
Proof.
  intros Hw Ha Hv. destruct (p_present (get_pte st (pte_offset m addr))) eqn:Hp.
  - destruct (present_rmap st m addr Hw Ha Hp) as (i & r & _ & _ & Ho & _ & Em & Ea & _).
    destruct (ro_backing _ _ _ _ Ho) as (d & Hd & _). rewrite <- Em, <- Ea, Hd. by eexists.
  - pose proof (page_of_user _ Ha) as Hu. rewrite <- page_of_pte in Hp by done.
    destruct (wf_absent _ _ _ _ Hw m (page_of addr) Hu Hp) as [E|[_ ->]]; [|by eexists].
    unfold view in Hv. rewrite E, (pending_wf _ _ _ _ _ _ Hw Hu) in Hv. exact Hv.
Qed.

Lemma cpu_load_ok st m addr :
  wf None None st -> is_u64 addr ->
  match cpu_load m addr st with
  | None => p_present (get_pte st (pte_offset m addr)) = false
  | Some (d, st') => view owner st m (page_of addr) = Some d /\ wf None None st' /\ same_views owner st st'
  end.
Proof.
  intros Hw Ha. unfold cpu_load. destruct (p_present _) eqn:Hp; [|done].
  destruct (present_rmap st m addr Hw Ha Hp) as (i & r & Hi & Hr & Ho & Hpt & Em & Ea & Hmeta & Hv). rewrite Hmeta.
  cbn [mbind option_bind]. split; [done|]. rewrite <- Hpt. rewrite <- Hpt in Hp.
  split; [apply (entry_set_wf owner None None st i r)|apply (entry_set_views owner None None st i r)]; try done; apply Ho.
Qed.

(** *** A store into the only mapping of a line *)
Section store.
Context st i r (d : line_data) (Hw : wf None None st) (Hi : in_lines (geo st) i) (Hr : rmap (meta st i) = [r])
  (Hdirty : p_dirty (get_pte st (page_table r)) = true).

Lemma store_wf : wf None None (set_line i d st).
Proof using All.
  pose proof Hw as [H1 H2 H3 H4 H5 H6 H7 H8 H9 H10 H11]. split; try done.
  - intros s Hs. destruct (H4 s Hs). by split.
  - intros s j Hs Hj Hh. pose proof (H6 s j Hs Hj Hh) as Hm. destruct (decide (j = i)) as [->|Hne].
    + destruct Hm as [? ? ? ? ? HF ?]. split; try done. change (meta (set_line i d st) i) with (meta st i). rewrite Hr in *.
      apply list.Forall_singleton in HF as [? ? ? ? ? ? ? (x & Hx & _) ?]. apply list.Forall_singleton.
      split; try done. exists x. split; [done|]. by intros ?%eq_true_false_abs.
    + apply (mapped_ok_frame owner None st); try done. by apply line_set_line_ne.
Qed.

Lemma store_views m a :
  user_page a ->
  view owner (set_line i d st) m a = if decide ((m, a) = (owner_mm r, address r)) then Some d else view owner st m a.
Proof using All.
  intros Ha. assert (Hin : r ∈ rmap (meta st i)) by (rewrite Hr; left).
  destruct (rmap_line _ _ _ _ _ _ Hw Hi Hin) as (_ & _ & _ & Ho). case_decide as E.
  - injection E as -> ->. unfold view. change (get_pte (set_line i d st)) with (get_pte st).
    rewrite <- (ro_pt _ _ _ _ Ho), (ro_present _ _ _ _ Ho).
    change (pte_to_pcache_meta ?x (set_line i d st)) with (pte_to_pcache_meta x st).
    rewrite (rmap_pte_meta _ _ _ _ _ _ Hw Hi Hin). cbn [mbind option_bind]. by rewrite line_set_line.
  - apply (view_frame owner _ _ _ _ _ _ _ _ Hw store_wf); try done.
    + intros j Hp Hj. destruct (wf_present _ _ _ _ Hw _ Hp) as (j' & r' & Hj' & Hr' & Hpt).
      rewrite <- Hpt, (rmap_pte_meta _ _ _ _ _ _ Hw Hj' Hr') in Hj. injection Hj as ->.
      apply line_set_line_ne. intros <-. rewrite Hr in Hr'. apply list_elem_of_singleton in Hr' as ->.
      rewrite (ro_pt _ _ _ _ Ho) in Hpt. apply pte_offset_inj in Hpt as [Em Ea]; [|apply Ho|done]. apply E. by rewrite Em, Ea.
    + intros _. rewrite (pending_wf _ _ _ _ _ _ Hw Ha), (pending_wf _ _ _ _ _ _ store_wf Ha). done.
Qed.
End store.

Lemma cpu_store_ok st m addr f :
  wf None None st -> is_u64 addr ->
  match cpu_store m addr f st with
  | None => p_present (get_pte st (pte_offset m addr)) && p_rw (get_pte st (pte_offset m addr)) = false
  | Some st' => wf None None st' /\ forall m' a', user_page a' ->
      view owner st' m' a' = if decide ((m', a') = (m, page_of addr)) then f <$> view owner st m' a' else view owner st m' a'
  end.
Proof.
  intros Hw Ha. unfold cpu_store. destruct (p_present _) eqn:Hp; [|done]. destruct (p_rw _) eqn:Hrw; [|done]. cbn [andb].
  destruct (present_rmap st m addr Hw Ha Hp) as (i & r & Hi & Hr & Ho & Hpt & Em & Ea & Hmeta & Hv). rewrite Hmeta.
  cbn [mbind option_bind]. rewrite <- Hpt in *. pose proof (ro_rw _ _ _ _ Ho Hrw) as Hone.
  set (p := pte_mkdirty _). set (st1 := pte_set (page_table r) p st).
  assert (Hw1 : wf None None st1) by (apply (entry_set_wf owner None None st i r); done).
  assert (Hv1 : same_views owner st st1) by (apply (entry_set_views owner None None st i r); done).
  assert (Hd1 : p_dirty (get_pte st1 (page_table r)) = true) by (unfold st1; by rewrite get_pte_set).
  split; [by apply (store_wf st1 i r)|]. intros m' a' Ha'. rewrite (store_views st1 i r) by done. rewrite Em, Ea.
  case_decide as E; [|by apply Hv1]. injection E as -> ->. by rewrite Hv.
Qed.

(** ** Loads and stores *)

(** Why an access can fail: no line can be had, or the memory component refuses the page. *)
Definition fails st m addr flags (ret : Z) : Prop :=
  (ret = VM_FAULT_OOM /\ candidate st (user_vaddr_to_set_index (geo st) addr) = None) \/
  (ret = VM_FAULT_SIGSEGV /\ refused owner st m addr flags).

Lemma fails_nonzero st m addr flags ret : fails st m addr flags ret -> ret <> 0.
Proof. by intros [[-> _]|[-> _]]. Qed.

Lemma user_load_ok n st m cur addr :
  wf None None st -> group_leader cur = owner m -> is_u64 addr -> served owner m addr ->
  exists res st', user_load (S n) cur addr st = Some (res, st') /\ wf None None st' /\ same_views owner st st' /\
    match res with
    | inr d => view owner st m (page_of addr) = Some d
    | inl ret => fails st m addr 0 ret
    end.
Proof.
  intros Hw Hcur Ha Hsv. assert (Htm : t_mm cur = m) by (rewrite <- (owner_space m), <- Hcur; done).
  unfold user_load. rewrite Htm. pose proof (cpu_load_ok st m addr Hw Ha) as Hc.
  destruct (cpu_load m addr st) as [[d st1]|]; [destruct Hc as (? & ? & ?); by exists (inr d), st1|].
  destruct (pte_fault_ok owner n st m cur addr 0 Hw Hcur Ha Hsv) as (ret & st1 & E & [Hw1 Hv1 Hg1 Hret]).
  unfold pcache_handle_fault. cbn [negb]. rewrite E. cbn [mbind option_bind].
  destruct Hret as [(-> & Hp & _)|Hret]; cbn [Z.eqb].
  - pose proof (cpu_load_ok st1 m addr Hw1 Ha) as Hc1. destruct (cpu_load m addr st1) as [[d st2]|]; [|congruence].
    cbn [mbind option_bind]. destruct Hc1 as (Hd & Hw2 & Hv2). exists (inr d), st2. split_and!; try done.
    + by eapply same_views_trans.
    + rewrite <- Hd. symmetry. apply Hv1. by apply page_of_user.
  - assert (Hf : fails st m addr 0 ret) by (destruct Hret as [(-> & _ & ?)|?]; [by left|by right]).
    rewrite (proj2 (Z.eqb_neq ret 0)) by exact (fails_nonzero _ _ _ _ _ Hf). by exists (inl ret), st1.
Qed.

Lemma user_store_ok n st m cur addr f :
  wf None None st -> group_leader cur = owner m -> is_u64 addr -> served owner m addr ->
  exists ret st', user_store (S n) cur addr f st = Some (ret, st') /\ wf None None st' /\
    ((ret = 0 /\ forall m' a', user_page a' -> view owner st' m' a' =
        if decide ((m', a') = (m, page_of addr)) then f <$> view owner st m' a' else view owner st m' a') \/
     (fails st m addr FAULT_FLAG_WRITE ret /\ same_views owner st st')).
Proof.
  intros Hw Hcur Ha Hsv. assert (Htm : t_mm cur = m) by (rewrite <- (owner_space m), <- Hcur; done).
  unfold user_store. rewrite Htm. pose proof (cpu_store_ok st m addr f Hw Ha) as Hc.
  destruct (cpu_store m addr f st) as [st1|]; [exists 0, st1; naive_solver|].
  destruct (pte_fault_ok owner n st m cur addr FAULT_FLAG_WRITE Hw Hcur Ha Hsv) as (ret & st1 & E & [Hw1 Hv1 Hg1 Hret]).
  unfold pcache_handle_fault. cbn [negb]. rewrite E. cbn [mbind option_bind].
  destruct Hret as [(-> & Hp & Hrw)|Hret]; cbn [Z.eqb].
  - pose proof (cpu_store_ok st1 m addr f Hw1 Ha) as Hc1. destruct (cpu_store m addr f st1) as [st2|].
    + cbn [mbind option_bind]. destruct Hc1 as [Hw2 Hv2]. exists 0, st2. split_and!; try done. left. split; [done|].
      intros m' a' Ha'. rewrite Hv2, Hv1 by done. done.
    + by rewrite Hp, (Hrw eq_refl) in Hc1.
  - assert (Hf : fails st m addr FAULT_FLAG_WRITE ret) by (destruct Hret as [(-> & _ & ?)|?]; [by left|by right]).
    rewrite (proj2 (Z.eqb_neq ret 0)) by exact (fails_nonzero _ _ _ _ _ Hf). exists ret, st1. auto.
Qed.

(** ** The specification: a memory for each process *)

Definition flat : Type := Z -> Z -> option line_data.
Implicit Types F : flat.

(** What the processes and the system calls do, with the results they see *)
Inductive event :=
| Load (m addr : Z) (res : Z + line_data)
| Store (m addr : Z) (f : line_data -> line_data) (ret : Z)
| Unmap (m start end_ : Z)
| Fork (src dst : Z) (vmas : list (Z * Z * Z)).

(** A load gives the contents of its page; a store changes its page only; the pages
    of an unmapped range are no longer specified; a child starts with the contents of
    its parent.  An access may fail, without effect. *)
Inductive flat_step : flat -> event -> flat -> Prop :=
| flat_load F m addr d : F m (page_of addr) = Some d -> flat_step F (Load m addr (inr d)) F
| flat_load_fails F m addr ret : ret <> 0 -> flat_step F (Load m addr (inl ret)) F
| flat_store F F' m addr f :
    (forall m' a', user_page a' -> F' m' a' = if decide ((m', a') = (m, page_of addr)) then f <$> F m' a' else F m' a') ->
    flat_step F (Store m addr f 0) F'
| flat_store_fails F m addr f ret : ret <> 0 -> flat_step F (Store m addr f ret) F
| flat_unmap F F' m start end_ :
    (forall m' a', user_page a' -> in_pages m start end_ m' a' = false -> F' m' a' = F m' a') ->
    flat_step F (Unmap m start end_) F'
| flat_fork F F' src dst vmas :
    (forall m' a', user_page a' -> m' <> dst -> F' m' a' = F m' a') ->
    (forall a', user_page a' -> in_areas vmas a' = true -> F' dst a' = F src a') ->
    flat_step F (Fork src dst vmas) F'.

(** The same steps of the pcache: what the environment guarantees for each of them,
    and the code that runs. *)
Inductive pcache_step : state -> event -> state -> Prop :=
| step_load n cur st m addr res st' :
    group_leader cur = owner m -> is_u64 addr -> served owner m addr ->
    user_load (S n) cur addr st = Some (res, st') -> pcache_step st (Load m addr res) st'
| step_store n cur st m addr f ret st' :
    group_leader cur = owner m -> is_u64 addr -> served owner m addr ->
    user_store (S n) cur addr f st = Some (ret, st') -> pcache_step st (Store m addr f ret) st'
| step_unmap tries st m start end_ st' :
    user_page start -> page_aligned end_ -> start < end_ -> end_ <= ULONG_MOD ->
    unmap_page_range quiet tries m start end_ st = Some st' -> pcache_step st (Unmap m start end_) st'
| step_fork st src dst vmas st' :
    src <> dst -> Forall (eq true) (kz st) -> (forall a, user_page a -> get_pte st (pte_offset dst a) = pte_zero) ->
    Forall (cow_area owner src dst st) vmas -> disjoint_areas (fun _ => false) vmas ->
    fork_dup_pcache (owner dst) dst src vmas st = Some st' -> pcache_step st (Fork src dst vmas) st'.

(** The pcache holds the memories [F]. *)
Definition holds st F : Prop := wf None None st /\ forall m a, user_page a -> view owner st m a = F m a.

Lemma holds_same st st' F : holds st F -> wf None None st' -> same_views owner st st' -> holds st' F.
Proof. intros [_ H] Hw Hv. split; [done|]. intros m a Ha. by rewrite Hv, H. Qed.

Lemma step_simulation st F e st' :
  holds st F -> pcache_step st e st' -> exists F', flat_step F e F' /\ holds st' F'.
Proof.
  intros HF Hs. pose proof HF as [Hw Hv]. destruct Hs as [n cur st m addr res st' Hc Ha Hsv E|n cur st m addr f ret st' Hc Ha Hsv E
    |tries st m start end_ st' Hs He Hlt Hend E|st src dst vmas st' Hsd Hk Hz Hco Hdis E].
  - destruct (user_load_ok n st m cur addr Hw Hc Ha Hsv) as (res' & st1 & E' & Hw1 & Hv1 & Hres).
    rewrite E in E'. injection E' as <- <-. exists F. split; [|by apply (holds_same st)].
    destruct res as [ret|d]; [apply flat_load_fails; by eapply fails_nonzero|].
    apply flat_load. rewrite <- Hv; [done|by apply page_of_user].
  - destruct (user_store_ok n st m cur addr f Hw Hc Ha Hsv) as (ret' & st1 & E' & Hw1 & Hres).
    rewrite E in E'. injection E' as <- <-. destruct Hres as [[-> Hv1]|[Hf Hv1]].
    + exists (view owner st'). split; [|by split]. apply flat_store. intros m' a' Ha'. by rewrite Hv1, Hv.
    + exists F. split; [apply flat_store_fails; by eapply fails_nonzero|by apply (holds_same st)].
  - destruct (unmap_page_range_unmaps owner tries m start end_ st Hw Hs He Hlt Hend) as (st1 & E' & Hu).
    rewrite E in E'. injection E' as <-. exists (view owner st'). split; [|split; [apply Hu|done]].
    apply flat_unmap. intros m' a' Ha' Hout. by rewrite (um_view _ _ _ _ Hu), Hv.
  - destruct (fork_dup_forking owner src dst Hsd st vmas (fun _ => false) st) as (st1 & E' & Hf); try done.
    { by apply forking_start. }
    rewrite E in E'. injection E' as <-. exists (view owner st'). split; [|split; [apply Hf|done]].
    apply flat_fork.
    + intros m' a' Ha' Hne. by rewrite (fk_views _ _ _ _ _ _ Hf), Hv.
    + intros a' Ha' Hin. rewrite (fk_child _ _ _ _ _ _ Hf), Hv; done.
Qed.

(** Sequences of steps, with their events *)
Inductive steps {S : Type} (step : S -> event -> S -> Prop) : S -> list event -> S -> Prop :=
| steps_nil x : steps step x [] x
| steps_cons x e y l z : step x e y -> steps step y l z -> steps step x (e :: l) z.

Lemma trace_simulation st F l st' :
  holds st F -> steps pcache_step st l st' -> exists F', steps flat_step F l F' /\ holds st' F'.
Proof.
  intros HF Hs. revert F HF. induction Hs as [|x e y l z Hxy Hyz IH]; intros F HF.
  - exists F. split; [constructor|done].
  - destruct (step_simulation _ _ _ _ HF Hxy) as (F1 & H1 & HF1). destruct (IH F1 HF1) as (F2 & H2 & HF2).
    exists F2. split; [by econstructor|done].
Qed.

(** From boot on *)
Lemma boot_simulation start size g r oracle st0 l st :
  range_ok start size -> pcache_early_init start size = Some g ->
  pcache_post_init g r oracle = Some st0 -> steps pcache_step st0 l st ->
  exists F, steps flat_step (fun m a => answer r (t_home (owner m)) (t_tgid (owner m)) a) l F /\ holds st F.
Proof.
  intros Hr Hg H0 Hs. destruct (early_init_fields _ _ Hr) as (k & _ & _ & Hgw). rewrite Hg in Hgw.
  destruct (post_init_ok owner g r oracle) as (st1 & E & Hw & Hgeo & Hmem & _ & Hpt); [apply Hgw|]. rewrite H0 in E. injection E as <-.
  apply (trace_simulation st0); [|done]. split; [done|]. intros m a Ha. unfold view, get_pte.
  rewrite Hpt, lookup_empty, (pending_wf _ _ _ _ _ _ Hw Ha). simpl. unfold backing. by rewrite Hmem.
Qed.
End user.
