(* ===== verification/PcacheTheorems.v ===== *)
(** * Processor manager, pcache: the theorems

    The properties of the pcache, each with an example that satisfies its hypotheses. *)

From stdpp Require Import gmap fin_sets.
From S2P Require Import Prelude VmaModel PcacheGeom PcacheModel PcacheSpec PcacheSteps PcacheInv PcacheEvict.
From S2P Require Import PcacheAlloc PcacheFill PcacheFault PcacheUnmap PcacheWp PcacheFork PcacheInit PcacheUser.

(** ** A memory component and processes for the examples

    The pages of all processes in one map; a miss on a page that is not there is
    answered by an error code of four bytes. *)

Definition ex_memory : Type := gmap (Z * Z * Z) line_data.

#[export] Instance ex_node : MemoryNode ex_memory := {|
  m_flush n t va d r := match r !! (n, t, va) with Some _ => <[(n, t, va) := d]> r | None => r end;
  m_miss n t va f r :=
    (match r !! (n, t, Z.land va PAGE_MASK) with Some d => ReplyPage d | None => ReplyShort 4 [] end, r);
  m_miss_flush n t va f t' va' d r :=
    (match r !! (n, t, Z.land va PAGE_MASK) with Some d => ReplyPage d | None => ReplyShort 4 [] end,
     match r !! (n, t', va') with Some _ => <[(n, t', va') := d]> r | None => r end)
|}.

#[export] Instance ex_laws : MemoryLaws ex_memory.
Proof.
  refine {| answer r n t va := r !! (n, t, va); known _ _ := True |}; simpl.
  - intros r n t va d _ [x ->]. apply lookup_insert_eq.
  - intros r n t va d n' t' va' _ Hne. destruct (r !! (n, t, va)); [|done]. by apply lookup_insert_ne.
  - intros r n t va f d r' _ E. destruct (r !! _) eqn:Er; [|done]. by injection E as -> _.
  - intros r n t va f len d r' _ E. destruct (r !! _); [done|]. by injection E as <- _ _.
  - done.
  - intros r n t va f t' va' d d' r' _ _ _ E. destruct (r !! (n, t, _)) eqn:Er; [|done]. by injection E as -> _.
  - intros r n t va f t' va' d len d' r' _ _ E. destruct (r !! (n, t, _)); [done|]. injection E as -> -> _. by eexists.
  - done.
Defined.

Definition ex_owner (m : Z) : task := Task m m 9 true.
#[export] Instance ex_processes : Processes ex_owner.
Proof. by split. Qed.

(** One set of 64 lines; processes 1 and 2 have the pages 1 to 100. *)
Definition ex_start : Z := 4096.
Definition ex_size : Z := 2 * (33 * 4096).
Definition ex_geometry : geometry :=
  Eval vm_compute in default (Geometry 0 0 0 0 0 0 0 0 0 0 0 0 0 0 0 0) (pcache_early_init ex_start ex_size).
Definition ex_pages : ex_memory := list_to_map (((fun n => ((9, 1, n * 4096), [n])) <$> seqZ 1 100) ++ ((fun n => ((9, 2, n * 4096), [n])) <$> seqZ 1 100)).
Definition ex_boot : pcache ex_memory :=
  default (Pcache ex_memory ex_geometry ∅ ∅ ∅ ∅ ∅ None ∅ ∅ [] false) (pcache_post_init ex_geometry ex_pages []).

Lemma ex_range : range_ok ex_start ex_size.
Proof. split; vm_compute; intuition discriminate. Qed.

Lemma ex_geom_wf : geom_wf ex_geometry.
Proof.
  destruct (early_init_fields ex_start ex_size ex_range) as (k & _ & _ & H).
  change (pcache_early_init ex_start ex_size) with (Some ex_geometry) in H. apply H.
Qed.

Lemma ex_boot_ok : pcache_post_init ex_geometry ex_pages [] = Some ex_boot /\ wf ex_owner None None ex_boot.
Proof.
  destruct (post_init_ok ex_owner ex_geometry ex_pages [] ex_geom_wf) as (st & E & Hw & _). unfold ex_boot.
  by rewrite E.
Qed.

(** Stores by the main thread of process 1, all successful *)
Fixpoint ex_stores (l : list (Z * line_data)) (st : pcache ex_memory) : option (pcache ex_memory) :=
  match l with
  | [] => Some st
  | (addr, d) :: l =>
      '(ret, st) ← user_store 1 (ex_owner 1) addr (fun _ => d) st;
      if ret =? 0 then ex_stores l st else None
  end.
Definition ex_events (l : list (Z * line_data)) : list event :=
  (fun '(addr, d) => Store 1 addr (fun _ => d) 0) <$> l.

Lemma ex_stores_steps l : forall st st',
  Forall (fun '(addr, _) => is_u64 addr /\ addr < TASK_SIZE) l -> ex_stores l st = Some st' ->
  steps (pcache_step ex_owner) st (ex_events l) st'.
Proof.
  induction l as [|[addr d] l IH]; intros st st' Hl E; simpl in E; [injection E as <-; constructor|].
  destruct (user_store 1 (ex_owner 1) addr _ st) as [[ret st1]|] eqn:Es; [|done]. cbn [mbind option_bind] in E.
  destruct (Z.eqb_spec ret 0) as [->|]; [|done]. apply list.Forall_cons in Hl as [[Ha Hsz] Hl].
  apply (steps_cons _ _ _ st1); [by apply (step_store _ 0 (ex_owner 1))|by apply IH].
Qed.

(** 64 pages written: the set is full, every line is dirty. *)
Definition ex_full_list : list (Z * line_data) := (fun n => (n * 4096, [n + 1000])) <$> seqZ 1 64.
Definition ex_full : pcache ex_memory := default ex_boot (ex_stores ex_full_list ex_boot).

Lemma ex_full_steps : steps (pcache_step ex_owner) ex_boot (ex_events ex_full_list) ex_full.
Proof.
  apply ex_stores_steps.
  - unfold ex_full_list. apply list.Forall_fmap, list.Forall_forall. intros n Hn%elem_of_seqZ. unfold is_u64, ULONG_MOD. assert (2 ^ 30 < TASK_SIZE) by done. simpl. lia.
  - unfold ex_full. assert (H : bool_decide (ex_stores ex_full_list ex_boot = None) = false) by by vm_compute.
    by destruct (ex_stores ex_full_list ex_boot).
Qed.

Lemma ex_full_wf : wf ex_owner None None ex_full.
Proof.
  destruct ex_boot_ok as [_ Hw].
  destruct (trace_simulation ex_owner ex_boot (view ex_owner ex_boot) _ ex_full ltac:(by split) ex_full_steps) as (F & _ & [? _]).
  done.
Qed.

(** The entries of [ex_full]: pages of process 1 *)
Lemma ex_full_ptes k : get_pte ex_full k = pte_zero \/ k.1 = 1 /\ 1 <= k.2 <= 64.
Proof.
  unfold get_pte. destruct (ptes ex_full !! k) as [p|] eqn:E; [|by left]. right.
  assert (H : map_Forall (fun k _ => k.1 = 1 /\ 1 <= k.2 <= 64) (ptes ex_full)).
  { apply (bool_decide_eq_true_1 _). vm_compute. done. }
  by apply (H k p).
Qed.

Section Theorems.
Context {R : Type} `{!MemoryNode R, !MemoryLaws R} (owner : Z -> task) `{!Processes owner}.

(** (C2) The pcache is invisible, over a memory component that keeps its contract
    ([MemoryLaws]: a flush stores its page and changes no other page of any process).  From
    boot on, over any sequence of loads and stores of any threads (with the faults,
    evictions, write-backs and piggybacked flushes that they cause), of unmapped ranges and
    of forks, every load returns what a separate flat memory for each process, initially
    that of the memory component, would return; and the pcache ends in a state that holds
    those memories.  A fork is one of private writable areas, to a process without entries,
    with the memory component holding for the child what it holds for the parent and every
    reverse mapping allocated: a private area without VM_WRITE is shared by the code, see
    [fork_shares_readonly_area], and the memory nodes of Mem* keep the contract as long as
    no page is shared. *)
Theorem pcache_refines_memory start size g r oracle st0 l st :
  range_ok start size -> pcache_early_init start size = Some g ->
  pcache_post_init g r oracle = Some st0 -> steps (pcache_step owner) st0 l st ->
  exists F, steps flat_step (fun m a => answer r (t_home (owner m)) (t_tgid (owner m)) a) l F /\ holds owner st F.
Proof. intros Hr Hg H0 Hs. exact (boot_simulation owner start size g r oracle st0 l st Hr Hg H0 Hs). Qed.

(** (C5) A fault always returns.  Whatever the address, the entry and the kind of access,
    [pcache_handle_fault] neither hits a BUG nor leaves the invariant, and no process
    sees a change; on success the entry is present, and writable for a write fault; it
    fails only with VM_FAULT_OOM, when the set has no free and no evictable line, the
    state then being unchanged, or with VM_FAULT_SIGSEGV, when the memory component
    refuses the page. *)
Theorem pcache_fault_correct n st m cur addr flags :
  wf owner None None st -> group_leader cur = owner m -> is_u64 addr -> served owner m addr ->
  exists ret st', pcache_handle_fault quiet true (S n) m cur addr flags st = Some (ret, st') /\
    fault_result owner st m addr flags ret st'.
Proof. intros. by apply pte_fault_ok. Qed.

(** (C16) An allocation takes the first free line of the set, else the oldest line that
    only its single mapping uses; the dirty contents of an evicted line are written
    back, or stay with the line to be carried by the miss when the caller allows it,
    so that no process sees a change.  Without such a line nothing changes. *)
Theorem pcache_alloc_correct lk n addr pg st :
  wf owner lk None st -> is_u64 addr -> (forall j, lk = Some j -> rmap (meta st j) <> []) ->
  let s := user_vaddr_to_set_index (geo st) addr in
  match candidate st s with
  | Some i => exists o st', pcache_alloc quiet (S n) addr pg st = Some (Some i, st') /\ allocated owner lk s pg st i o st'
  | None => pcache_alloc quiet (S n) addr pg st = Some (None, st)
  end.
Proof.
  intros Hw Ha Hlk s. apply (alloc_loop_ok owner lk n s pg st Hw); [|done].
  by apply set_index_range; [apply (wf_geo _ _ _ _ Hw)|].
Qed.

(** (C23) A fork over private writable areas gives the child the contents of its parent.
    [fork_dup_pcache] returns without a BUG when [kzalloc] succeeds and the memory
    component has already duplicated the pages; every page of the areas is seen by the
    child as by the parent, all other processes see what they saw, and of a line that
    two processes share no entry is writable. *)
Theorem pcache_fork_correct st src dst vmas :
  wf owner None None st -> src <> dst -> Forall (eq true) (kz st) ->
  (forall a, user_page a -> get_pte st (pte_offset dst a) = pte_zero) ->
  Forall (cow_area owner src dst st) vmas -> disjoint_areas (fun _ => false) vmas ->
  exists st', fork_dup_pcache (owner dst) dst src vmas st = Some st' /\ wf owner None None st' /\
    (forall a, user_page a -> in_areas vmas a = true -> view owner st' dst a = view owner st src a) /\
    (forall m a, user_page a -> m <> dst -> view owner st' m a = view owner st m a) /\
    (forall i r r', in_lines (geo st') i -> r ∈ rmap (meta st' i) -> r' ∈ rmap (meta st' i) -> r <> r' ->
       p_rw (get_pte st' (page_table r)) = false).
Proof.
  intros Hw Hsd Hk Hz Hc Hd.
  destruct (fork_dup_forking owner src dst Hsd st vmas (fun _ => false) st) as (st' & E & Hf); [by apply forking_start|done|done|].
  exists st'. split_and!; [done|apply Hf| | |].
  - intros a Ha Hin. by apply (fk_child _ _ _ _ _ _ Hf).
  - intros m a Ha Hne. by apply (fk_views _ _ _ _ _ _ Hf).
  - intros i r r' Hi Hr Hr' Hne. apply not_true_iff_false. intros Hrw.
    destruct (rmap_line _ _ _ _ _ _ (fk_wf _ _ _ _ _ _ Hf) Hi Hr) as (_ & _ & _ & Ho).
    rewrite (ro_rw _ _ _ _ Ho Hrw) in Hr'. apply list_elem_of_singleton in Hr' as ->. done.
Qed.


(** (C25) Unmapping a range always returns, keeps the invariant, and clears exactly the
    entries of its pages.  No line is mapped from those pages any more, and a line that
    was mapped from nowhere else is free; what the processes see elsewhere is unchanged. *)
Theorem unmap_page_range_correct tries m start end_ st :
  wf owner None None st -> user_page start -> page_aligned end_ -> start < end_ -> end_ <= ULONG_MOD ->
  let gone := in_pages m start end_ in
  exists st', unmap_page_range quiet tries m start end_ st = Some st' /\ wf owner None None st' /\ warned st' = warned st /\
    (forall m' a, user_page a -> get_pte st' (pte_offset m' a) = if gone m' a then pte_zero else get_pte st (pte_offset m' a)) /\
    (forall i r, in_lines (geo st') i -> r ∈ rmap (meta st' i) -> gone (owner_mm r) (address r) = false) /\
    (forall i, in_lines (geo st) i -> (forall r, r ∈ rmap (meta st i) -> gone (owner_mm r) (address r) = true) ->
       i ∈ free_head (pset st' (i mod nr_cachesets (geo st)))) /\
    (forall m' a, user_page a -> gone m' a = false -> view owner st' m' a = view owner st m' a).
Proof.
  intros Hw Hs He Hlt Hend gone. destruct (unmap_page_range_unmaps owner tries m start end_ st Hw Hs He Hlt Hend) as (st' & E & Hu).
  exists st'. split_and!; [done|apply Hu|apply (um_warned _ _ _ _ Hu)|apply (um_pte _ _ _ _ Hu)| | |apply (um_view _ _ _ _ Hu)].
  - intros i r. by apply (unmaps_rmaps owner _ st st').
  - intros i. by apply (unmaps_frees owner _ st st').
Qed.

(** What had not been written back is not written: the process is left with what the
    memory component has. *)
Lemma unmap_page_range_discards tries m start end_ st :
  wf owner None None st -> user_page start -> page_aligned end_ -> start < end_ -> end_ <= ULONG_MOD ->
  exists st', unmap_page_range quiet tries m start end_ st = Some st' /\ memory st' = memory st /\
    forall a, user_page a -> start <= a < end_ -> view owner st' m a = backing owner st m a.
Proof.
  intros Hw Hs He Hlt Hend. destruct (unmap_page_range_unmaps owner tries m start end_ st Hw Hs He Hlt Hend) as (st' & E & Hu).
  exists st'. split_and!; [done|apply (um_memory _ _ _ _ Hu)|]. intros a Ha [Hlo Hhi]. apply (unmaps_view owner _ _ _ _ _ Hu Ha).
  unfold in_pages. by rewrite Z.eqb_refl, (proj2 (Z.leb_le _ _) Hlo), (proj2 (Z.ltb_lt _ _) Hhi).
Qed.

(** An access to a page that the process has succeeds at once when a line can be
    had: a load returns the contents of the page, provided the memory component serves
    the pages that it has. *)
Theorem pcache_load_succeeds n st m cur addr d :
  wf owner None None st -> group_leader cur = owner m -> is_u64 addr -> served owner m addr ->
  (forall mem flags, is_Some (answer mem (t_home (owner m)) (t_tgid (owner m)) (page_of addr)) ->
     exists d' mem', m_miss (t_home (owner m)) (t_tgid (owner m)) addr flags mem = (ReplyPage d', mem')) ->
  candidate st (user_vaddr_to_set_index (geo st) addr) <> None ->
  view owner st m (page_of addr) = Some d ->
  exists st', user_load (S n) cur addr st = Some (inr d, st') /\ wf owner None None st' /\ same_views owner st st'.
Proof.
  intros Hw Hcur Ha Hsv Hserve Hc Hv.
  pose proof (view_backing owner st m addr Hw Ha ltac:(by rewrite Hv)) as Hb. destruct (user_load_ok owner n st m cur addr Hw Hcur Ha Hsv) as (res & st' & E & Hw' & Hv' & Hres).
  destruct res as [ret|d']; [|exists st'; by replace d with d' by congruence].
  exfalso. destruct Hres as [[_ Hn]|[_ (mem & len & x & mem' & Hans & Hm)]]; [done|].
  destruct (Hserve mem 0) as (d' & mem'' & E'); [by rewrite Hans|]. congruence.
Qed.
End Theorems.

Section Geometry.
(** (C39) The boot-time layout of the pcache.  For every registered range of at least two
    units, [pcache_early_init] succeeds; the lines and then their metadata fit in the
    range; every user address has a set; every set has exactly PCACHE_ASSOCIATIVITY
    lines, those whose index is congruent to it; every line belongs to one set. *)
Theorem pcache_geometry_correct start size :
  range_ok start size ->
  exists g, pcache_early_init start size = Some g /\ geom_wf g /\
    phys_start_cacheline g = start /\ phys_start_metadata g + nr_pages_metadata g * PAGE_SIZE <= start + size /\
    (forall a, is_u64 a -> in_sets g (user_vaddr_to_set_index g a)) /\
    (forall s, in_sets g s -> exists l, pcache_for_each_way_set g s = Some l /\ NoDup l /\
       Z.of_nat (length l) = PCACHE_ASSOCIATIVITY /\ forall i, i ∈ l <-> in_lines g i /\ pcache_meta_to_pcache_set g i = Some s).
Proof.
  intros Hr. destruct (early_init_fields start size Hr) as (k & Hk & Hsz & Hg).
  destruct (pcache_early_init start size) as [g|] eqn:E; [|done]. exists g. destruct Hg as (Hs & Hl & Hb & Hpm & Hllc & Hg).
  assert (Hst : phys_start_cacheline g = start) by (unfold pcache_early_init in E; destruct (_ || _); [done|by injection E as <-]).
  split_and!; try done.
  - rewrite (gw_end g Hg), Hst, Hl, Hpm. change PCACHE_LINE_SIZE with PAGE_SIZE. rewrite PAGE_SIZE_eq in *.
    rewrite Z.pow_add_r in * by lia. change (2 ^ 1) with 2 in *. lia.
  - intros a Ha. by apply set_index_range.
  - intros s Hin. destruct (ways_of_set g Hg s Hin) as (l & El & Hnd & Hlen & Hi). exists l. split_and!; try done.
    intros i. rewrite Hi. split; intros [Hil Hx]; (split; [done|]); rewrite meta_to_set in * by done; congruence.
Qed.

(** The metadata, the physical address and the frame number of a line lead back to
    the line: [pa_to_pcache_meta] on any byte of it and [pfn_to_pcache_meta] on its
    frame invert [pcache_meta_to_pa] and [pcache_meta_to_pfn]. *)
Theorem pcache_address_roundtrip g i off :
  geom_wf g -> in_lines g i -> 0 <= off < PCACHE_LINE_SIZE ->
  exists pa pfn, pcache_meta_to_pa g i = Some pa /\ pa_to_pcache_meta g (pa + off) = Some i /\
    pcache_meta_to_pfn g i = Some pfn /\ pfn_to_pcache_meta g pfn = Some i.
Proof.
  intros Hg Hi Ho. destruct (line_pa g Hg i Hi) as [Hpa _]. eexists _, _. split_and!.
  - exact Hpa.
  - by apply pa_meta.
  - by apply meta_to_pfn.
  - by apply pfn_meta.
Qed.
End Geometry.

(** ** Examples *)

Lemma pcache_refines_memory_witness :
  exists F, steps flat_step (fun m a => answer ex_pages (t_home (ex_owner m)) (t_tgid (ex_owner m)) a) (ex_events ex_full_list) F /\
    holds ex_owner ex_full F.
Proof.
  apply (pcache_refines_memory ex_owner ex_start ex_size ex_geometry ex_pages [] ex_boot).
  - exact ex_range.
  - vm_compute. reflexivity.
  - apply ex_boot_ok.
  - exact ex_full_steps.
Defined.

Lemma pcache_fault_correct_witness :
  exists ret st', pcache_handle_fault quiet true 1 1 (ex_owner 1) 286725 FAULT_FLAG_WRITE ex_full = Some (ret, st') /\
    fault_result ex_owner ex_full 1 286725 FAULT_FLAG_WRITE ret st'.
Proof. apply (pcache_fault_correct ex_owner 0); [exact ex_full_wf|reflexivity|unfold is_u64, ULONG_MOD; lia|split; [reflexivity|exact I]]. Defined.

Lemma pcache_alloc_correct_witness :
  let s := user_vaddr_to_set_index (geo ex_full) 286725 in
  match candidate ex_full s with
  | Some i => exists o st', pcache_alloc quiet 1 286725 ENABLE_PIGGYBACK ex_full = Some (Some i, st') /\
      allocated ex_owner None s ENABLE_PIGGYBACK ex_full i o st'
  | None => pcache_alloc quiet 1 286725 ENABLE_PIGGYBACK ex_full = Some (None, ex_full)
  end.
Proof.
  refine (pcache_alloc_correct ex_owner None 0 286725 ENABLE_PIGGYBACK ex_full ex_full_wf _ _);
    [unfold is_u64, ULONG_MOD; lia|intros j E; discriminate E].
Defined.

(** A page-aligned address of a range of one page *)
Lemma one_page_area a n : 0 <= n -> user_page a -> area_pages (n * 4096) (n * 4096 + 4096) a = true -> a = n * 4096.
Proof.
  intros Hn [_ Ha] [Hlo%Z.leb_le Hhi%Z.ltb_lt]%andb_prop. unfold page_aligned in Ha. rewrite PAGE_SIZE_eq in Ha.
  pose proof (Z.div_mod a 4096). lia.
Qed.

Lemma pcache_fork_correct_witness :
  exists st', fork_dup_pcache (ex_owner 2) 2 1 [(4096, 8192, 3)] ex_full = Some st' /\ wf ex_owner None None st' /\
    (forall a, user_page a -> in_areas [(4096, 8192, 3)] a = true -> view ex_owner st' 2 a = view ex_owner ex_full 1 a) /\
    (forall m a, user_page a -> m <> 2 -> view ex_owner st' m a = view ex_owner ex_full m a) /\
    (forall i r r', in_lines (geo st') i -> r ∈ rmap (meta st' i) -> r' ∈ rmap (meta st' i) -> r <> r' ->
       p_rw (get_pte st' (page_table r)) = false).
Proof.
  apply (pcache_fork_correct ex_owner ex_full 1 2).
  - exact ex_full_wf.
  - lia.
  - assert (E : kz ex_full = []) by (vm_compute; reflexivity). rewrite E. constructor.
  - intros a _. destruct (ex_full_ptes (pte_offset 2 a)) as [E|[E _]]; [exact E|discriminate E].
  - constructor; [|constructor]. split; [split; [unfold is_u64, ULONG_MOD; lia|reflexivity]|].
    split; [reflexivity|]. split; [lia|]. split; [unfold ULONG_MOD; lia|]. split; [reflexivity|].
    intros a Ha Hin. rewrite (one_page_area a 1 ltac:(lia) Ha Hin). vm_compute. reflexivity.
  - split; [reflexivity|constructor].
Defined.


Lemma unmap_page_range_correct_witness :
  let gone := in_pages 1 8192 40960 in
  exists st', unmap_page_range quiet 0 1 8192 40960 ex_full = Some st' /\ wf ex_owner None None st' /\ warned st' = warned ex_full /\
    (forall m a, user_page a -> get_pte st' (pte_offset m a) = if gone m a then pte_zero else get_pte ex_full (pte_offset m a)) /\
    (forall i r, in_lines (geo st') i -> r ∈ rmap (meta st' i) -> gone (owner_mm r) (address r) = false) /\
    (forall i, in_lines (geo ex_full) i -> (forall r, r ∈ rmap (meta ex_full i) -> gone (owner_mm r) (address r) = true) ->
       i ∈ free_head (pset st' (i mod nr_cachesets (geo ex_full)))) /\
    (forall m a, user_page a -> gone m a = false -> view ex_owner st' m a = view ex_owner ex_full m a).
Proof.
  apply (unmap_page_range_correct ex_owner 0 1 8192 40960);
    [exact ex_full_wf|split; [unfold is_u64, ULONG_MOD; lia|reflexivity]|reflexivity|lia|unfold ULONG_MOD; lia].
Defined.

Lemma pcache_load_succeeds_witness :
  exists st', user_load 1 (ex_owner 1) 286725 ex_full = Some (inr [70], st') /\ wf ex_owner None None st' /\ same_views ex_owner ex_full st'.
Proof.
  apply (pcache_load_succeeds ex_owner 0 ex_full 1); [exact ex_full_wf|reflexivity|unfold is_u64, ULONG_MOD; lia|split; [reflexivity|exact I]| | |].
  - intros mem flags [d E]. exists d, mem. unfold m_miss, ex_node.
    change ((mem : ex_memory) !! (t_home (ex_owner 1), t_tgid (ex_owner 1), Z.land 286725 PAGE_MASK) = Some d) in E.
    rewrite E. reflexivity.
  - vm_compute. discriminate.
  - vm_compute. reflexivity.
Defined.

Lemma pcache_geometry_correct_witness :
  exists g, pcache_early_init ex_start ex_size = Some g /\ geom_wf g /\
    phys_start_cacheline g = ex_start /\ phys_start_metadata g + nr_pages_metadata g * PAGE_SIZE <= ex_start + ex_size /\
    (forall a, is_u64 a -> in_sets g (user_vaddr_to_set_index g a)) /\
    (forall s, in_sets g s -> exists l, pcache_for_each_way_set g s = Some l /\ NoDup l /\
       Z.of_nat (length l) = PCACHE_ASSOCIATIVITY /\ forall i, i ∈ l <-> in_lines g i /\ pcache_meta_to_pcache_set g i = Some s).
Proof. apply (pcache_geometry_correct ex_start ex_size). exact ex_range. Defined.

Lemma pcache_address_roundtrip_witness :
  exists pa pfn, pcache_meta_to_pa ex_geometry 5 = Some pa /\ pa_to_pcache_meta ex_geometry (pa + 7) = Some 5 /\
    pcache_meta_to_pfn ex_geometry 5 = Some pfn /\ pfn_to_pcache_meta ex_geometry pfn = Some 5.
Proof.
  apply (pcache_address_roundtrip ex_geometry 5 7);
    [exact ex_geom_wf|split; vm_compute; [discriminate|reflexivity]|split; vm_compute; [discriminate|reflexivity]].
Defined.

(** ** Flaws *)

(** Another CPU, in [pcache_zap_pte] or [pcache_do_wp_page], finds the line locked, takes
    a reference and waits. *)
Definition another_user (i : Z) (st : pcache ex_memory) : pcache ex_memory :=
  pcache_ref_count_set i (pcache_ref_count i st + 1) st.

(** The outcome of an allocation that shows the flaw: the line returned is twice in the
    LRU list of its set, and its count is that of one user. *)
Definition double_use (o : option (option Z * pcache ex_memory)) : bool :=
  match o with
  | Some (Some i, st) =>
      (pcache_ref_count i st =? 1) &&
      (length (filter (fun j => j = i) (lru_list (pset st (set_of st i)))) =? 2)%nat
  | _ => false
  end.

(** The outcome of an allocation that times out, then of one that refuses piggyback *)
Definition times_out_then_bugs (o : option (option Z * pcache ex_memory)) : bool :=
  match o with
  | Some (None, st) => bool_decide (pcache_alloc quiet 1 286725 DISABLE_PIGGYBACK st = None)
  | _ => false
  end.

(** The per-CPU piggyback slot outlives an eviction that does not complete.
    [evict_line_perset_list] puts a dirty line in the slot before the eviction is known
    to succeed.  In a full set reached by plain stores: if another CPU takes a reference
    meanwhile, the eviction reports PCACHE_EVICT_EAGAIN_CONCURRENT and puts the line
    back in the LRU list, yet the retry of [pcache_alloc] returns that same line, with
    its count reset to one and linked twice in the list; and if [pcache_alloc] times out
    right after a successful eviction, the next allocation that does not allow
    piggyback (zero-fill, copy on write, mremap) hits its BUG. *)
Theorem piggyback_slot_outlives_eviction :
  exists l st, steps (pcache_step ex_owner) ex_boot l st /\
    double_use (pcache_alloc another_user 1 286725 ENABLE_PIGGYBACK st) = true /\
    times_out_then_bugs (pcache_alloc quiet 0 286725 ENABLE_PIGGYBACK st) = true.
Proof.
  exists (ex_events ex_full_list), ex_full. split; [exact ex_full_steps|]. split; vm_compute; reflexivity.
Qed.

(** A fork of an area with [flags] between the processes 1 and 2, then a store of the
    child: what the parent sees of the page before and after *)
Definition parent_views (flags : Z) : option (option line_data * option line_data) :=
  st ← fork_dup_pcache (ex_owner 2) 2 1 [(4096, 8192, flags)] ex_full;
  '(ret, st') ← user_store 1 (ex_owner 2) 4096 (fun _ => [7]) st;
  if ret =? 0 then Some (view ex_owner st 1 4096, view ex_owner st' 1 4096) else None.

(** A fork protects a private area only if it is writable at that moment.
    [is_cow_mapping] asks for VM_WRITE, but the pcache maps every page writable
    (PAGE_SHARED_EXEC), also those of areas without VM_WRITE; such an area stays mapped
    writable in both processes, and a store of the child, which no fault stops,
    changes what the parent sees.  A private writable area is not affected. *)
Theorem fork_shares_readonly_area :
  parent_views VM_READ = Some (Some [1001], Some [7]) /\
  parent_views (Z.lor VM_READ VM_WRITE) = Some (Some [1001], Some [1001]).
Proof. split; vm_compute; reflexivity. Qed.
