(* ===== verification/SysModel.v ===== *)
(** * The memory component of the pcache

    The memory nodes of Mem* as the memory component that the pcache of Pcache* talks
    to: the messages of one processor node [self] are run by the handlers, and the
    contract [MemoryLaws] holds. *)

From stdpp Require Import gmap.
From S2P Require Import Prelude VmaModel PgtModel PgtTables PgtRange MemModel MemFault MemSpec MemGup MemNode MemRequest.
From S2P Require Import PcacheGeom PcacheModel PcacheSpec.

(** The memory is enough for [k] pages, and two to spare for a request. *)
Class EnoughMemory (k : nat) `{PageAlloc} : Prop :=
  enough : forall m, (size (frames m) <= k + 1)%nat -> is_Some (__get_free_page m).

Section cluster.
Context `{PageAllocLaws, Files} (k : nat) `{!EnoughMemory k} (self : Z) (registered : Z -> Z -> Prop).
Implicit Types (n : mem_node) (nid t va x : Z).

(** Memory node [nid], at work: it has the processes registered there, shares no page, maps
    pages in areas only, and its processes have at most [k] pages, of their areas and of
    what their stacks may grow over; tables are allocated without fail. *)
Record good nid n : Prop := {
  gd_ok : node_ok (fun _ => 0) n;
  gd_unshared : unshared n;
  gd_areas : only_areas n;
  gd_pages : exists W, (size W <= k)%nat /\ page_set n W;
  gd_tables : Forall (eq true) (pg_tables (node_pages n));
  gd_tasks : forall t, registered nid t -> is_Some (find_lego_task_by_pid self t (node_pid_hash n))
}.

Definition node nid : Type := { n : mem_node | good nid n }.
Definition cluster : Type := forall nid, node nid.
Implicit Type r : cluster.

Lemma good_ample nid n : good nid n -> ample 2 (node_pages n).
Proof.
  intros [Hn _ Ha (W & Hk & HW) Ht _]. split; [|done]. intros m' Hm. apply enough. pose proof (node_capacity n W Hn Ha HW). lia.
Qed.

Lemma good_becomes nid n j v n' : (j <= 2)%nat -> good nid n -> becomes (fun _ => 0) n j v n' -> good nid n'.
Proof.
  intros Hj Hg Hb. pose proof Hg as [Hn Hu Ha (W & Hk & HW) Ht Hr]. split; [apply Hb|apply Hb|by apply Hb| | |].
  - exists W. split; [done|]. intros i x Hx Hv. apply HW; [done|]. by apply (bc_has _ _ _ _ _ Hb).
  - apply (bc_ample _ _ _ _ _ Hb 0%nat). apply (ample_le 2); [lia|]. by apply (good_ample nid).
  - intros t Hk'. rewrite (bc_hash _ _ _ _ _ Hb). auto.
Qed.

(** ** Running a handler on a node of the cluster *)

Definition upd nid (n : node nid) (r : cluster) : cluster := fun nid' =>
  match decide (nid = nid') with
  | left e => match e in _ = z return node z with eq_refl => n end
  | right _ => r nid'
  end.

Lemma upd_eq nid (n : node nid) r : upd nid n r nid = n.
Proof. unfold upd. destruct (decide (nid = nid)) as [e|]; [|done]. by rewrite (proof_irrel e eq_refl). Qed.
Lemma upd_ne nid (n : node nid) r nid' : nid <> nid' -> upd nid n r nid' = r nid'.
Proof. intros Hne. unfold upd. by destruct (decide (nid = nid')). Qed.

(** Where the handler does not end, nothing is known. *)
Definition run {A : Type} nid (n : node nid) (a0 : A) (res : option (A * mem_node))
    (Hres : forall a n', res = Some (a, n') -> good nid n') : A * node nid :=
  match res as y return res = y -> A * node nid with
  | Some (a, n') => fun E => (a, exist _ n' (Hres a n' E))
  | None => fun _ => (a0, n)
  end eq_refl.

Lemma run_eq {A : Type} nid (n : node nid) (a0 : A) res Hres a n' :
  res = Some (a, n') -> exists P, run nid n a0 res Hres = (a, exist _ n' P).
Proof. intros E. unfold run. destruct res as [[a1 n1]|]; [|done]. injection E as -> ->. by eexists. Qed.

(** The addresses in the messages are 64 bits wide. *)
Lemma wrap_u64 x : is_u64 (wrap x).
Proof. unfold is_u64, wrap, ULONG_MOD. by apply Z.mod_pos_bound. Qed.

Lemma flush_good nid (n : node nid) t va d ret n' :
  handle_p2m_flush_one self t (wrap va) d (proj1_sig n) = Some (ret, n') -> good nid n'.
Proof using EnoughMemory0 H0.
  intros E. destruct n as [n Hg]. simpl in E.
  destruct (handle_flush_ok _ n self t (wrap va) d (gd_ok _ _ Hg) (gd_unshared _ _ Hg) (wrap_u64 va)) as (ret' & n1 & E' & Hb & _).
  { apply (ample_le 2); [lia|]. by apply (good_ample nid). }
  rewrite E in E'. injection E' as <- <-. eapply good_becomes; [|done|exact Hb]. lia.
Qed.

Lemma miss_good nid (n : node nid) t flags va flush rep n' :
  from_option (fun msg => is_u64 (fl_user_va msg)) True flush ->
  handle_p2m_pcache_miss self t flags (wrap va) flush (proj1_sig n) = Some (rep, n') -> good nid n'.
Proof using EnoughMemory0 H0.
  intros Hf E. destruct n as [n Hg]. simpl in E.
  destruct (handle_miss_ok _ n self t flags (wrap va) flush (gd_ok _ _ Hg) (gd_unshared _ _ Hg) (wrap_u64 va) Hf)
    as (rep' & n1 & E' & Hb & _); [by apply (good_ample nid)|].
  rewrite E in E'. injection E' as <- <-. eapply good_becomes; [|done|exact Hb]. lia.
Qed.

(** The reply as the processor receives it: the page at the time of the send, or the
    four bytes of an int *)
Definition int_bytes (e : Z) : list Z := (fun i => Z.shiftr e (8 * i) mod 256) <$> [0; 1; 2; 3].
Definition sent (rep : miss_reply) n : p2m_reply :=
  match rep with
  | Miss_page page => ReplyPage (default [] (data_of (node_pages n) page))
  | Miss_error e => ReplyShort 4 (int_bytes e)
  end.

#[export] Instance cluster_node : MemoryNode cluster := {|
  m_flush nid t va d r :=
    let '(_, n) := run nid (r nid) 0 _ (fun ret n' E => flush_good nid (r nid) t va d ret n' E) in upd nid n r;
  m_miss nid t va flags r :=
    let '(rep, n) := run nid (r nid) (Miss_error 0) _ (fun rep n' E => miss_good nid (r nid) t flags va None rep n' I E) in
    (sent rep (proj1_sig n), upd nid n r);
  m_miss_flush nid t va flags t' va' d r :=
    let '(rep, n) := run nid (r nid) (Miss_error 0) _
      (fun rep n' E => miss_good nid (r nid) t flags va (Some (FlushMsg t' (wrap va') d)) rep n' (wrap_u64 va') E) in
    (sent rep (proj1_sig n), upd nid n r)
|}.

(** What process [t] has at page [va] of node [nid] *)
Definition held (r : cluster) nid t va : option line_data :=
  if decide (user_page va) then process_view (proj1_sig (r nid)) self t va else None.

(** ** What the requests do to the cluster *)

(** [r'] is [r] with the contents [v] at node [nid] *)
Definition holding nid (v : Z -> Z -> Z -> option (list Z)) (r r' : cluster) : Prop :=
  forall nid' t va, held r' nid' t va =
    if decide (nid = nid' /\ user_page va) then v self t va else held r nid' t va.

Lemma upd_holding nid j v (n : node nid) r : becomes (fun _ => 0) (proj1_sig (r nid)) j v (proj1_sig n) -> holding nid v r (upd nid n r).
Proof.
  intros Hb nid' t va. unfold held. destruct (decide (nid = nid')) as [<-|Hne].
  - rewrite upd_eq. destruct (decide (user_page va)) as [Hu|].
    + rewrite decide_True by done. apply (bc_view _ _ _ _ _ Hb). apply Hu.
    + destruct (decide (_ /\ _)) as [[? ?]|]; done.
  - rewrite upd_ne by done. destruct (decide (_ /\ _)) as [[? ?]|]; done.
Qed.

Lemma flush_holding nid t va d r :
  is_u64 va -> holding nid (write_view self t va d (process_view (proj1_sig (r nid)))) r (m_flush nid t va d r).
Proof.
  intros Hva. simpl. pose proof (proj2_sig (r nid)) as Hg. simpl in Hg.
  destruct (handle_flush_ok _ (proj1_sig (r nid)) self t (wrap va) d (gd_ok _ _ Hg) (gd_unshared _ _ Hg) (wrap_u64 va)) as (ret & n' & E & Hb & _).
  { apply (ample_le 2); [lia|]. by apply (good_ample nid). }
  destruct (run_eq nid (r nid) 0 _ (fun ret n' E => flush_good nid (r nid) t va d ret n' E) ret n' E) as [P ->].
  rewrite wrap_small in Hb by done. by eapply upd_holding.
Qed.

(** The outcome of a miss, [v] being the contents at the node afterwards *)
Definition miss_result nid t va (v : Z -> Z -> Z -> option (list Z)) (r : cluster) (res : p2m_reply * cluster) : Prop :=
  exists rep n', res.1 = sent rep n' /\ reply_ok (proj1_sig (r nid)) n' self t va rep /\
    (forall x, is_u64 x -> process_view n' self t x = v self t x) /\ holding nid v r res.2.

Lemma miss_holding nid t va flags r :
  is_u64 va -> miss_result nid t va (process_view (proj1_sig (r nid))) r (m_miss nid t va flags r).
Proof.
  intros Hva. simpl. pose proof (proj2_sig (r nid)) as Hg. simpl in Hg.
  destruct (handle_miss_ok _ (proj1_sig (r nid)) self t flags (wrap va) None (gd_ok _ _ Hg) (gd_unshared _ _ Hg) (wrap_u64 va) I)
    as (rep & n' & E & Hb & Hrep); [by apply (good_ample nid)|].
  destruct (run_eq nid (r nid) (Miss_error 0) _ (fun rep n' E => miss_good nid (r nid) t flags va None rep n' I E) rep n' E) as [P ->].
  rewrite wrap_small in Hb, Hrep by done. unfold view_after in Hb.
  assert (Hb' : becomes (fun _ => 0) (proj1_sig (r nid)) 2 (process_view (proj1_sig (r nid))) n') by by destruct (find_lego_task_by_pid _ _ _).
  exists rep, n'. split_and!; [done|done| |by apply (upd_holding _ _ _ (exist _ n' P) _ Hb')]. intros x Hx. by apply (bc_view _ _ _ _ _ Hb').
Qed.

Lemma miss_flush_holding nid t va flags t' va' d r :
  is_u64 va -> is_u64 va' ->
  miss_result nid t va (view_after (proj1_sig (r nid)) self t va (Some (FlushMsg t' va' d))) r (m_miss_flush nid t va flags t' va' d r).
Proof.
  intros Hva Hva'. simpl. pose proof (proj2_sig (r nid)) as Hg. simpl in Hg.
  destruct (handle_miss_ok _ (proj1_sig (r nid)) self t flags (wrap va) (Some (FlushMsg t' (wrap va') d)) (gd_ok _ _ Hg) (gd_unshared _ _ Hg)
    (wrap_u64 va) (wrap_u64 va')) as (rep & n' & E & Hb & Hrep); [by apply (good_ample nid)|].
  destruct (run_eq nid (r nid) (Miss_error 0) _
    (fun rep n' E => miss_good nid (r nid) t flags va (Some (FlushMsg t' (wrap va') d)) rep n' (wrap_u64 va') E) rep n' E) as [P ->].
  rewrite (wrap_small va) in Hb, Hrep by done. rewrite (wrap_small va') in Hb by done.
  exists rep, n'. split_and!; [done|done| |by apply (upd_holding _ _ _ (exist _ n' P) _ Hb)]. intros x Hx. by apply (bc_view _ _ _ _ _ Hb).
Qed.

(** ** The contract *)

Lemma held_page r nid t va : is_u64 va -> held r nid t (Z.land va PAGE_MASK) = process_view (proj1_sig (r nid)) self t va.
Proof.
  intros Hva. fold (page_base va). destruct (page_base_bounds va Hva) as (Hu & Hp & _). unfold held. rewrite decide_True by done.
  apply (view_page (fun _ => 0)); [apply (proj2_sig (r nid))|done|done|by apply page_base_idem].
Qed.

Lemma holding_same nid r r' : holding nid (process_view (proj1_sig (r nid))) r r' -> forall nid' t va, held r' nid' t va = held r nid' t va.
Proof.
  intros Hh nid' t va. rewrite Hh. destruct (decide _) as [[<- Hu]|]; [|done]. unfold held. by rewrite decide_True.
Qed.

(** The page sent is the one that the process has. *)
Lemma sent_page nid t va v r res d :
  is_u64 va -> miss_result nid t va v r res -> v self t va = process_view (proj1_sig (r nid)) self t va ->
  res.1 = ReplyPage d -> held r nid t (Z.land va PAGE_MASK) = Some d.
Proof.
  intros Hva (rep & n' & E & Hrep & Hv & _) Ev Er. rewrite held_page by done. rewrite Er in E. unfold reply_ok in Hrep.
  destruct (find_lego_task_by_pid _ _ _); [|by rewrite Hrep in E]. destruct (fault_in_kernel_space va); [by rewrite Hrep in E|].
  destruct (process_view _ self t va) as [c|] eqn:Ec; [|by rewrite Hrep in E]. destruct Hrep as (page & -> & Hd).
  simpl in E. rewrite Hd, Hv, Ev in E by done. by injection E as ->.
Qed.

(** Whether a miss fails, and how, does not depend on a flush. *)
Lemma sent_short nid t va v v' r res res' len d :
  miss_result nid t va v r res -> miss_result nid t va v' r res' -> res.1 = ReplyShort len d -> res'.1 = ReplyShort len d.
Proof.
  intros (rep & n1 & E & Hrep & _) (rep' & n2 & E' & Hrep' & _) Er. rewrite Er in E. rewrite E'. unfold reply_ok in Hrep, Hrep'.
  destruct (find_lego_task_by_pid _ _ _); [|by subst rep rep'; rewrite E]. destruct (fault_in_kernel_space va); [by subst rep rep'; rewrite E|].
  destruct (process_view _ self t va); [|by subst rep rep'; rewrite E]. by destruct Hrep as (page & -> & _).
Qed.

Lemma sent_length nid t va v r res len d : miss_result nid t va v r res -> res.1 = ReplyShort len d -> len = 4.
Proof. intros (rep & n1 & E & _) Er. rewrite Er in E. destruct rep; simpl in E; [|done]. by injection E as ->. Qed.

Lemma user_page_base va : user_page va -> page_base va = va.
Proof. intros [Hu Hp]. by apply page_base_id. Qed.

Lemma write_other t va d v t' x : (t', page_base x) <> (t, page_base va) -> write_view self t va d v self t' x = v self t' x.
Proof. intros Hne. unfold write_view. rewrite decide_False; [done|]. intros (_ & -> & E). by rewrite E in Hne. Qed.

#[export] Instance cluster_laws : MemoryLaws cluster.
Proof using Type*.
  refine {| answer := held; known := registered |}.
  - intros r nid t va d Hu Hs. rewrite (flush_holding nid t va d r) by apply Hu. rewrite decide_True by done.
    unfold write_view, held in *. rewrite decide_True in Hs by done. rewrite decide_True by done. destruct Hs as [c ->]. done.
  - intros r nid t va d nid' t' va' Hu Hne. rewrite (flush_holding nid t va d r) by apply Hu.
    destruct (decide _) as [[<- Hu']|]; [|done]. rewrite write_other; [unfold held; by rewrite decide_True|].
    rewrite !user_page_base by done. congruence.
  - intros r nid t va f d r' Hva E. eapply (sent_page nid t va _ r (ReplyPage d, r')); [done| |done|done].
    rewrite <- E. by apply miss_holding.
  - intros r nid t va f len d r' Hva E.
    rewrite (sent_length nid t va (process_view (proj1_sig (r nid))) r (ReplyShort len d, r') len d); [done| |done]. rewrite <- E. by apply miss_holding.
  - intros r nid t va f nid' t' va' Hva. destruct (miss_holding nid t va f r Hva) as (_ & _ & _ & _ & _ & Hh).
    by apply (holding_same nid).
  - intros r nid t va f t' va' d d' r' Hva Hu Hne E. eapply (sent_page nid t va _ r (ReplyPage d', r')); [done| | |done].
    + rewrite <- E. apply miss_flush_holding; [done|apply Hu].
    + unfold view_after. destruct (find_lego_task_by_pid _ _ _); [|done]. destruct (fault_in_kernel_space va); [done|]. simpl.
      apply write_other. rewrite (user_page_base va') by done. done.
  - intros r nid t va f t' va' d len d' r' Hva Hu E. destruct (m_miss nid t va f r) as [rep r''] eqn:E'. exists r''. f_equal.
    change rep with ((rep, r'').1). eapply (sent_short nid t va _ _ r (ReplyShort len d', r')); [| |done].
    + rewrite <- E. apply miss_flush_holding; [done|apply Hu].
    + rewrite <- E'. by apply miss_holding.
  - intros r nid t va f t' va' d nid'' t'' va'' Hva Hsz Hk Hu.
    destruct (miss_flush_holding nid t va f t' va' d r Hva (proj1 Hu)) as (_ & _ & _ & _ & _ & Hh). rewrite Hh.
    rewrite (flush_holding nid t' va' d r (proj1 Hu)). destruct (decide _); [|done]. unfold view_after.
    destruct (gd_tasks _ _ (proj2_sig (r nid)) t Hk) as [p ->]. unfold fault_in_kernel_space, TASK_SIZE_MAX.
    by rewrite (proj2 (Z.leb_gt _ _)).
Defined.

(** The pages of a process are served. *)
Lemma miss_served nid t va f r :
  is_u64 va -> va < TASK_SIZE -> registered nid t -> is_Some (held r nid t (Z.land va PAGE_MASK)) ->
  exists d r', m_miss nid t va f r = (ReplyPage d, r').
Proof.
  intros Hva Hsz Hk Hs. rewrite held_page in Hs by done. destruct (miss_holding nid t va f r Hva) as (rep & n' & E & Hrep & _).
  unfold reply_ok in Hrep. destruct (gd_tasks _ _ (proj2_sig (r nid)) t Hk) as [p Hp]. rewrite Hp in Hrep.
  unfold fault_in_kernel_space, TASK_SIZE_MAX in Hrep. rewrite (proj2 (Z.leb_gt _ _)) in Hrep by done. destruct Hs as [c Hc]. rewrite Hc in Hrep.
  destruct Hrep as (page & -> & _). destruct (m_miss nid t va f r) as [rep r'] eqn:Em. simpl in E. subst rep. by eexists _, _.
Qed.
End cluster.
