(* ===== verification/SysTheorems.v ===== *)
(** * The whole system

    The pcache of the processor over the request handlers of the memory nodes: what the
    contract of the memory component, proved of the handlers, gives end to end. *)

From stdpp Require Import gmap.
From S2P Require Import Prelude VmaModel VmaTree VmaInv VmaSpec VmaTheorems PgtModel PgtTables PgtRange MemModel MemFault MemSpec MemGup MemNode MemRequest MemTheorems.
From S2P Require Import PcacheGeom PcacheModel PcacheSpec PcacheSteps PcacheInv PcacheEvict.
From S2P Require Import PcacheAlloc PcacheFill PcacheFault PcacheUnmap PcacheWp PcacheFork PcacheInit PcacheUser PcacheTheorems SysModel.

Section Theorems.
Context `{PageAllocLaws, Files} (k : nat) `{!EnoughMemory k} (self : Z) (registered : Z -> Z -> Prop).
Context (owner : Z -> task) `{!Processes owner}.
Abbreviation cluster := (SysModel.cluster k self registered).

(** (C1) The processor and the memory nodes together are a memory.  The pcache runs over the
    request handlers of memory nodes of which four things are assumed ([good],
    [EnoughMemory]): no page of a node is mapped twice; pages are mapped in areas only; the
    areas of the processes, with what their stacks may grow over, have at most [k] pages
    and the node has memory for [k] pages and two more; table pages can be had.  The
    requests keep all of this.  Then from boot on, over any sequence of loads and stores of
    processes that their nodes know, at user addresses (with the faults, evictions and the
    miss, flush and combined messages that they cause), and of unmapped ranges, every load
    returns what a flat memory for each process would return, initially the contents that
    the process has at its memory node: the pages mapped there, and for the rest of its
    areas (and of what its stack may grow over) the file or zeros.  A fork may be in the
    sequence when its areas are private and writable, its reverse mappings can be allocated
    and the node of the child has the contents of the parent in pages of its own; a node
    that has forked by sharing its pages does not satisfy the assumption. *)
Theorem system_refines_memory start size g (r : cluster) oracle st0 l st :
  range_ok start size -> pcache_early_init start size = Some g ->
  pcache_post_init g r oracle = Some st0 -> steps (pcache_step owner) st0 l st ->
  exists F, steps flat_step (fun m a => held k self registered r (t_home (owner m)) (t_tgid (owner m)) a) l F /\ holds owner st F.
Proof. intros Hr Hg Hp Hs. exact (boot_simulation owner start size g r oracle st0 l st Hr Hg Hp Hs). Qed.

(** (C26) A load of an address that the process has succeeds at once when a line can be had, so
    that it returns the contents of the page: under the assumptions on the memory nodes
    made for the refinement (no page mapped twice, pages mapped in areas only, memory for
    the [k] pages that the processes have and two more, table pages available) every miss
    on such an address is answered with the page. *)
Theorem system_load_succeeds n (st : pcache cluster) m cur addr d :
  PcacheSpec.wf owner None None st -> group_leader cur = owner m -> is_u64 addr -> served (R := cluster) owner m addr ->
  candidate st (user_vaddr_to_set_index (geo st) addr) <> None ->
  view owner st m (page_of addr) = Some d ->
  exists st', user_load (S n) cur addr st = Some (inr d, st') /\ PcacheSpec.wf owner None None st' /\ same_views owner st st'.
Proof.
  intros Hw Hcur Ha Hsv Hc Hv. pose proof (view_backing owner st m addr Hw Ha ltac:(by rewrite Hv)) as Hb.
  destruct (user_load_ok owner n st m cur addr Hw Hcur Ha Hsv) as (res & st' & E & Hw' & Hv' & Hres).
  destruct res as [ret|d']; [|exists st'; by replace d with d' by congruence].
  exfalso. destruct Hres as [[_ Hn]|[_ (mem & len & x & mem' & Hans & Hm)]]; [done|]. destruct Hsv as [Hsz Hk].
  destruct (miss_served k self registered _ _ addr 0 mem Ha Hsz Hk) as (d' & r' & E'); [|congruence].
  change (is_Some (answer mem (t_home (owner m)) (t_tgid (owner m)) (page_of addr))). by rewrite Hans.
Qed.
End Theorems.

(** ** An example: process 1 of processor node 7, whose home is memory node 9 *)

(** It has seven pages: those of its two areas. *)
Definition ex_pages : gset (Z * Z) := list_to_set ((fun i => (100, 4096 * i)) <$> [1; 2; 3; 8; 9; 10; 11]).

#[export] Instance ex_enough : EnoughMemory 7.
Proof. intros m Hm. apply ex_page_some. lia. Qed.

Lemma ex_area_range x v : area_for ex_mm x = Some v -> 4096 <= page_base x < 16384 \/ 32768 <= page_base x < 49152.
Proof.
  unfold area_for. destruct (first_above ex_mm (page_base x)) as [p|] eqn:Hf; [|done]. cbn [mbind option_bind].
  unfold first_above in Hf. apply List.find_some in Hf as [[<-|[<-|[]]] Hlt%Z.ltb_lt].
  - change (deref ex_mm 1%positive) with anon_vma in *. change (has (vm_flags anon_vma) VM_GROWSDOWN) with false. cbn [andb].
    destruct (Z.leb_spec (vm_start anon_vma) (page_base x)) as [Hle|]; [|done]. intros _. left. exact (conj Hle Hlt).
  - change (deref ex_mm 2%positive) with file_vma in *. change (has (vm_flags file_vma) VM_GROWSDOWN) with false. cbn [andb].
    destruct (Z.leb_spec (vm_start file_vma) (page_base x)) as [Hle|]; [|done]. intros _. right. exact (conj Hle Hlt).
Qed.

Lemma ex_page_set : page_set ex_home ex_pages.
Proof.
  intros j x Hx (s & E & d & Hi)%(node_view_Some _ _ _ _ ex_home_ok). simpl in E. apply lookup_singleton_Some in E as [<- <-].
  unfold initial in Hi. simpl in Hi. destruct (area_for ex_mm x) as [v|] eqn:Ea; [|done]. pose proof (ex_area_range x v Ea) as Hr.
  destruct (page_base_bounds x Hx) as (_ & Hal & _). unfold page_aligned in Hal. rewrite PAGE_SIZE_eq in Hal.
  unfold ex_pages. apply elem_of_list_to_set, list_elem_of_fmap. exists (page_base x / 4096).
  pose proof (Z.div_mod (page_base x) 4096 ltac:(done)) as Hd. rewrite Hal, Z.add_0_r in Hd. split; [by rewrite <- Hd|].
  set (q := page_base x / 4096) in *. assert (q = 1 \/ q = 2 \/ q = 3 \/ q = 8 \/ q = 9 \/ q = 10 \/ q = 11) by lia. set_solver.
Qed.

Definition ex_registered (nid t : Z) : Prop := nid = 9 /\ t = 1.
Definition ex_idle : mem_node := MemNode ∅ ∅ (Pages ∅ []).

Lemma ex_home_good nid : good 7 7 ex_registered nid ex_home.
Proof.
  split; [exact ex_home_ok|exact ex_home_unshared| | |constructor|].
  - intros j s x E _ Hne. simpl in E. apply lookup_singleton_Some in E as [_ <-]. done.
  - exists ex_pages. split; [vm_compute; lia|exact ex_page_set].
  - intros t [_ ->]. by eexists.
Qed.

Lemma ex_idle_good nid : nid <> 9 -> good 7 7 ex_registered nid ex_idle.
Proof.
  intros Hne. assert (Hf : forall nid pid, find_lego_task_by_pid nid pid ∅ = None).
  { intros nid' pid. unfold find_lego_task_by_pid, bucket. rewrite lookup_empty. by destruct (pid =? 0). }
  split; [|done|done| |constructor|by intros t [? _]].
  2:{ exists ∅. split; [apply Nat.le_0_l|]. intros j x _ [d Hd]. done. }
  split; try done.
  - split; intros b; change (bucket (node_pid_hash ex_idle) b) with (@nil lego_task); [by intros p ?%not_elem_of_nil|constructor].
  - intros nid' pid p E. by rewrite Hf in E.
  - intros nid' pid p nid2 pid2 p2 E. by rewrite Hf in E.
Qed.

Definition ex_cluster : cluster 7 7 ex_registered := fun nid =>
  match decide (nid = 9) with
  | left _ => exist _ ex_home (ex_home_good nid)
  | right Hne => exist _ ex_idle (ex_idle_good nid Hne)
  end.

Definition ex_sys : option (pcache (cluster 7 7 ex_registered)) := pcache_post_init ex_geometry ex_cluster [].
Definition ex_store (o : option (pcache (cluster 7 7 ex_registered))) : option (Z * pcache (cluster 7 7 ex_registered)) :=
  st ← o; user_store 1 (ex_owner 1) 4100 (fun _ => [5]) st.
Definition ex_load (o : option (pcache (cluster 7 7 ex_registered))) : option ((Z + line_data) * pcache (cluster 7 7 ex_registered)) :=
  '(_, st) ← ex_store o; user_load 1 (ex_owner 1) 4200 st.

Lemma ex_sys_values : fst <$> ex_store ex_sys = Some 0 /\ fst <$> ex_load ex_sys = Some (inr [5]).
Proof. split; vm_compute; reflexivity. Qed.

Definition ex_sys_events : list event := [Store 1 4100 (fun _ => [5]) 0; Load 1 4200 (inr [5])].

Lemma ex_two_steps st0 st1 st2 :
  user_store 1 (ex_owner 1) 4100 (fun _ => [5]) st0 = Some (0, st1) -> user_load 1 (ex_owner 1) 4200 st1 = Some (inr [5], st2) ->
  steps (pcache_step (R := cluster 7 7 ex_registered) ex_owner) st0 [Store 1 4100 (fun _ => [5]) 0] st1 /\ steps (pcache_step ex_owner) st0 ex_sys_events st2.
Proof.
  intros Es El. assert (Hs : pcache_step ex_owner st0 (Store 1 4100 (fun _ => [5]) 0) st1).
  { apply (step_store ex_owner 0 (ex_owner 1)); [reflexivity|done|by split|exact Es]. }
  assert (Hl : pcache_step ex_owner st1 (Load 1 4200 (inr [5])) st2).
  { apply (step_load ex_owner 0 (ex_owner 1)); [reflexivity|done|by split|exact El]. }
  split; [eapply steps_cons; [exact Hs|constructor]|].
  eapply steps_cons; [exact Hs|]. eapply steps_cons; [exact Hl|constructor].
Qed.

Lemma ex_run (o : option (pcache (cluster 7 7 ex_registered))) :
  fst <$> ex_store o = Some 0 -> fst <$> ex_load o = Some (inr [5]) ->
  exists st0 st1 st2, o = Some st0 /\ ex_store o = Some (0, st1) /\
    steps (pcache_step ex_owner) st0 [Store 1 4100 (fun _ => [5]) 0] st1 /\ steps (pcache_step ex_owner) st0 ex_sys_events st2.
Proof.
  unfold ex_load, ex_store. destruct o as [st0|]; [|intros E1; discriminate E1]. cbn [mbind option_bind].
  destruct (user_store 1 (ex_owner 1) 4100 _ st0) as [[ret st1]|] eqn:Es; [|intros E1; discriminate E1]. cbn [fmap option_fmap option_map fst]. intros [= ->]. cbn [mbind option_bind].
  destruct (user_load 1 (ex_owner 1) 4200 st1) as [[res st2]|] eqn:El; [|intros E2; discriminate E2]. cbn [fmap option_fmap option_map fst]. intros [= ->].
  destruct (ex_two_steps st0 st1 st2 Es El) as [Hs Hl]. exists st0, st1, st2. split; [reflexivity|]. split; [reflexivity|]. split; [exact Hs|exact Hl].
Qed.

Lemma ex_sys_steps :
  exists st0 st1 st2, ex_sys = Some st0 /\ ex_store ex_sys = Some (0, st1) /\
    steps (pcache_step ex_owner) st0 [Store 1 4100 (fun _ => [5]) 0] st1 /\ steps (pcache_step ex_owner) st0 ex_sys_events st2.
Proof. exact (ex_run ex_sys (proj1 ex_sys_values) (proj2 ex_sys_values)). Qed.

Lemma system_refines_memory_witness :
  exists F (st : pcache (cluster 7 7 ex_registered)), steps flat_step (fun m a => held 7 7 ex_registered ex_cluster (t_home (ex_owner m)) (t_tgid (ex_owner m)) a) ex_sys_events F /\
    holds ex_owner st F.
Proof.
  destruct ex_sys_steps as (st0 & _ & st2 & E0 & _ & _ & Hs).
  destruct (system_refines_memory 7 7 ex_registered ex_owner ex_start ex_size ex_geometry ex_cluster [] st0 ex_sys_events st2) as (F & HF & HH);
    [exact ex_range|reflexivity|exact E0|exact Hs|]. exists F, st2. split; [exact HF|exact HH].
Defined.

Definition ex_sys_state : pcache (cluster 7 7 ex_registered) :=
  match ex_store ex_sys with Some (_, st) => st | None => Pcache _ ex_geometry ∅ ∅ ∅ ∅ ∅ None ∅ ex_cluster [] false end.

Lemma ex_sys_wf : PcacheSpec.wf ex_owner None None ex_sys_state.
Proof.
  unfold ex_sys_state. destruct ex_sys_steps as (st0 & st1 & _ & E0 & E1 & Hs & _). rewrite E1.
  destruct (boot_simulation ex_owner ex_start ex_size ex_geometry ex_cluster [] st0 _ st1 ex_range ltac:(reflexivity) E0 Hs) as (F & _ & [Hw _]). exact Hw.
Qed.

Lemma system_load_succeeds_witness :
  exists st', user_load 1 (ex_owner 1) 8200 ex_sys_state = Some (inr zero_page, st') /\
    PcacheSpec.wf ex_owner None None st' /\ same_views ex_owner ex_sys_state st'.
Proof.
  apply (system_load_succeeds 7 7 ex_registered ex_owner 0 ex_sys_state 1 (ex_owner 1) 8200 zero_page);
    [exact ex_sys_wf|reflexivity|done|by split|vm_compute; discriminate|vm_compute; reflexivity].
Defined.
